(* ===== verification/_CoqProject ===== *)
-Q . S2P
Prelude.v
ListH.v
Arith.v
Strings.v
Bitmap.v
Buddy.v
Sched.v
Timer.v
Wait.v
Sem.v
RbTree.v
RbDelete.v
RbIface.v
Vmm.v
Pipe.v
Mbox.v
Proc.v
Event.v
Disk.v
Sfs.v
SfsProof.v
SfsMap.v
SfsFree.v
SfsFile.v
SfsOps.v
SfsNode.v
SfsDir.v
SfsNames.v
SfsReclaim.v
SfsUnlink.v
SfsSync.v
SfsLinks.v
Files.v
FilesInv.v
FilesOps.v
FilesUse.v
FilesTab.v
FilesSafe.v
Vfs.v
VfsPath.v
VfsRefs.v
VfsSafe.v
Slob.v
SlobRing.v
SlobFree.v
SlobAlloc.v
SlobHeap.v
SlobSafe.v
Fmt.v
FmtProof.v
FmtSafe.v
FmtEnds.v
