(* ===== verification/Prelude.v ===== *)
(** * uCore+ on the System-on-Cat: a verification of the kernel's core

    The repository ports the teaching kernel uCore+ to a small 32-bit RISC-V
    system on chip.  This library models the kernel's own core (paths below are
    under ucore/src/kern-ucore/) as executable definitions and proves what makes
    them correct.  The machine is the one of arch/soc: [int], [long], pointers
    and [size_t] have 32 bits, plain [char] is unsigned.

    ** The program and its model

    The kernel is a set of C modules over shared state: lists and strings at the
    bottom, the physical page allocator, the scheduler with its timers, the
    synchronisation layer (spinlocks, wait queues, semaphores) that the scheduler
    drives, the communication objects built on it (pipes, message boxes), the
    virtual memory areas of an address space, the process table, the simple
    file system with its block device, and the descriptors through which processes
    reach it.  A routine
    is a computation in the monad [M S] below: it threads the component's state
    and stops with a [fault] where the C code would fail an assertion, access an
    object that is not there, do something undefined, or wait for a lock it
    holds itself.  A layer runs the routines of the one below through a lifting
    ([Wait.lift], [Pipe.lift_sync], [Mbox.mlift], [Proc.psync]).  A call that
    blocks is cut at [schedule]: one definition for the code before it, one for
    the code after it, so that every interleaving of processes is a sequence of
    steps.

    - [ListH]: the intrusive doubly linked lists of libs/list.h on a heap of
      list entries, refined to sequences.  The later files use the sequences.
    - [Arith]: the software multiplication and division of arch/soc/libs, the
      hash and the random numbers of libs/.
    - [Strings]: libs/string.c on a byte-addressed memory.
    - [Fmt]: formatted output and line input (libs/printfmt.c, libs/readline.c,
      arch/soc/libs/kio.c) for any output function.  [FmtProof] holds numerals, strings
      and the reading of a format, [FmtSafe] the grammar of formats and what they print,
      [FmtEnds] that printing ends.
    - [Bitmap]: the free-block bitmap of fs/sfs/bitmap.c.
    - [Buddy]: arch/soc/mm/buddy_pmm.c, the zones and free areas of the buddy
      system, and [alloc_pages]/[free_pages] of arch/soc/mm/pmm.c.
    - [Slob]: mm/slob.c, [kmalloc] and [kfree] on a ring of free blocks.  [SlobRing]
      holds the ring as a sequence of blocks, [SlobFree] and [SlobAlloc] what release
      and allocation do to it, [SlobHeap] what lies outside it, [SlobSafe] the theorems.
    - [Sched]: schedule/sched.c with the three scheduling classes (RR, MPRR,
      MLFQ) behind the class [SchedClass], spinlocks, [proc_run]; [Timer]: the
      delta list of timers in the same file.
    - [Wait], [Sem]: sync/wait.c and sync/sem.c with the timers of sync/ipc.c.
    - [RbTree], [RbDelete]: libs/rb_tree.c on a heap of nodes; [RbIface]: the
      interface [RbOps]/[RbLaws] its clients use and the instance that runs the
      code.  [Vmm]: mm/vmm.c over that interface; the page tables are a log of the
      calls made.
    - [Pipe]: fs/pipe/pipe_state.c.  [Mbox]: sync/mbox.c.
    - [Proc]: the process table of process/proc.c and arch/soc/process/proc.c.
      [Event]: sync/event.c.
    - [Disk]: I/O buffers (fs/iobuf.c), the device disk0 (fs/devs/dev_disk0.c)
      and the memory disk of arch/soc/driver.  [Sfs]: block I/O, free blocks, the
      block map of an inode, reading, writing and truncating (fs/sfs/sfs_io.c,
      sfs_inode.c).  [SfsProof], [SfsMap], [SfsFree] and [SfsFile] hold the
      lemmas, from blocks over the cells of the block map to the bytes of a file;
      [SfsOps] the specification and the theorems.
    - [SfsNode]: the nodes in memory with their reference counts (fs/vfs/inode.c),
      the inode cache, directories and path lookup (sfs_inode.c).  [SfsDir] reads a
      directory as a sequence of entries, [SfsNames] as a finite map of names;
      [SfsReclaim], [SfsUnlink] and [SfsSync] hold the lemmas on inodes that are
      given back, unlinked and written; [SfsLinks] the theorems.
    - [Files]: descriptors and open files (fs/file.c), the tables of descriptors that
      processes share, copy and give up (fs/fs.c, process/proc.c), the counters of
      inodes, opening and closing (fs/vfs/inode.c, vfsfile.c).  [FilesInv] holds the
      invariant, [FilesOps], [FilesUse] and [FilesTab] what each operation does to it,
      [FilesSafe] the runs of all processes and the theorems.
    - [Vfs]: devices and what is mounted on them, the kinds of paths and their lookup,
      operations on names, the current directory (the rest of fs/vfs).  The file
      systems below are the interface [FileSystems].  [VfsPath] holds the grammar of
      paths, [VfsRefs] the references that are taken and given back, [VfsSafe] the
      theorems.

    ** What is proved

    - Memory: allocation and release of pages change exactly the pages they
      should and keep the buddy invariant ([Buddy]); the bitmap hands out free
      blocks and fails only when there is none ([Bitmap]); the heap hands out blocks
      that overlap nothing and accounts for every byte of the pages it was offered,
      large blocks by their whole length, for requests that neither are empty nor
      fall in the gap below a page ([SlobSafe]); mapping, unmapping and checking of
      user memory do to the bytes of the address space what their names say, for
      private areas and while memory lasts, and list, tree, cache and counter agree
      ([Vmm]).
    - Scheduling: a call of [schedule], a wake-up of a process that may be woken, a
      tick and a going to sleep complete and keep the invariant of the run queues,
      and a queued process is reached after those before it ([Sched]); timers are
      kept by absolute deadline, fire on time and put their owners on a run queue
      ([Timer]).
    - Synchronisation: along every interleaving a semaphore lets through at most
      as many [down]s as its value allows, no sleeper is lost, and no operation
      faults, while sleepers on the semaphore are woken by [up] alone ([Sem]);
      waking a queue wakes everyone in it ([Wait]).
    - Communication: a pipe is a bounded byte stream, first-in, first-out under every
      interleaving, up to 2^31 bytes; a message box neither loses nor invents a
      message, delivers in order of sending but for the messages a receiver put back,
      and exceeds its bound by those at most; messages survive their segmentation
      ([Pipe], [Mbox]); an event passes from one sender to one receiver ([Event]).
    - Processes: pids are unique and the search for one ends; fork, wait and
      exit keep list, hash and family pointers consistent, the latter as a
      refinement to the sequence of each process's children ([Proc]).
    - Files: reading, writing and truncating a file through its direct, indirect
      and doubly indirect blocks refine an array of bytes with a size, leave all
      other files alone, and neither lose a block nor give one away twice; they
      fail only when the disk is full, but for the two assertions on the number of
      blocks that the theorems' conditions name ([SfsOps]).  Linking, renaming and unlinking
      are insertion into and deletion from the map of names of a directory; the last
      reference to a file without links gives back exactly its blocks; an inode
      written and loaded again is the same ([SfsLinks]).
    - Descriptors: along every interleaving of the operations of processes and
      threads in which a process forks only while none of its descriptors is being
      opened or closed and gives up its table only when none is in use, no assertion
      fails, an inode is open as often as descriptors stand for
      it, and a descriptor closed while in use lives until the use ends; a child
      starts with the descriptors of its parent ([FilesSafe]).
    - Names: a path is of one kind and is looked up from where its kind says
      ([VfsPath]); operations on names give back every reference they take, on every
      branch, whenever the file systems below pass their own assertions, and the list
      of devices refines a map of names ([VfsSafe]).
    - Libraries: list operations refine sequence operations ([ListH]); a
      red-black tree refines a sorted sequence and stays balanced under insertion
      and deletion, search and the kernel's checker are exact ([RbIface]); division
      and [memmove] compute what they should ([Arith], [Strings]); formatted output
      prints what the format and its arguments stand for (numbers of up to 32 bits,
      known escapes, no minus flag on numbers), stays in its buffer and ends,
      and a number printed and read again is the same ([FmtSafe], [FmtEnds]).

    Where the code does not do what it means to, a theorem says what it does
    instead: a double acquisition that deadlocks, a wake-up that panics, areas
    that overlap, boxes that cannot be reached, a thread that becomes its own
    child, a pid that belongs to an idle process, writes and truncations of files
    that panic, a directory that is moved into itself, a fork that panics while
    another thread opens a file, names of pipes that panic, a sleeper on a semaphore
    that panics when it is killed, blocks of the heap that are too short, wide numbers
    that are printed without their upper half.

    ** Bounds and fuel

    A loop of the C code that is not structural gets a fuel computed from the
    state (the length of the list it walks, the number of processes, the width
    of a word), and a theorem that the loop ends with a result proves that this
    fuel is enough; [OutOfFuel] never appears as a result in those theorems.
    The search for a pid is bounded by twice the number of pids because it wraps
    around once.  Machine integers are kept at their width with [umod] and
    [smod]; a theorem that needs a counter not to wrap says so.  Signed overflow is
    [Undefined] in the widths of formatted output; elsewhere, as in the value [strtol]
    accumulates, it is the wrap-around of the instructions it is compiled to.  Results of
    memory allocation, of copies from and to user memory and the addresses of
    stack variables are inputs of the definitions that use them.

    ** Not modelled

    Interrupt entry, context switch and page-table walks (assembly and device
    registers); the drivers, the boot code; the reading of the superblock
    when a simple file system is mounted, the system calls of fs/sysfile.c, fatfs and
    yaffs2; program loading; signals; swapping; the slab allocator; the
    kernel module loader with the Linux headers it drags in; the other architectures;
    user programs, tools and vendored libraries.  What an unmodelled part returns is
    an input of the definitions that call it.  The next parts to model are the
    superblock of the simple file system and the memory system calls of
    process/proc.c. *)

From stdpp Require Import numbers strings gmap sorting list.

(** ** Outcomes: what a kernel routine can do.

    The kernel's [assert] and [panic] stop the machine, a dereference of an
    address that holds no object is undefined, and a model of a C loop may run
    out of the fuel it was given.  The three are kept apart, so that a theorem
    can say which of them is excluded. *)

Inductive fault : Set :=
| AssertFailed          (* [assert(e)] with [e == 0], or [panic] *)
| BadAccess             (* load or store outside every object *)
| Undefined             (* another undefined behaviour of C *)
| OutOfFuel             (* the model's loop bound was reached *)
| Deadlock.             (* a spinlock is acquired by its own holder *)

#[export] Instance fault_eq_dec : EqDecision fault.
Proof. solve_decision. Defined.

Inductive outcome (A : Type) : Type :=
| Ok (a : A)
| Err (f : fault).
Arguments Ok {A} _.
Arguments Err {A} _.

#[export] Instance outcome_ret : MRet outcome := fun A a => Ok a.
#[export] Instance outcome_bind : MBind outcome := fun A B k m =>
  match m with Ok a => k a | Err f => Err f end.

#[export] Instance outcome_fmap : FMap outcome := fun A B f m =>
  match m with Ok a => Ok (f a) | Err e => Err e end.

(** State-passing computations over a state [S]. *)
Definition M (S A : Type) : Type := S -> outcome (A * S).

#[export] Instance M_ret {S} : MRet (M S) := fun A a s => Ok (a, s).
#[export] Instance M_bind {S} : MBind (M S) := fun A B k m s =>
  match m s with Ok (a, s') => k a s' | Err f => Err f end.

Definition get {S} : M S S := fun s => Ok (s, s).
Definition put {S} (s' : S) : M S unit := fun _ => Ok (tt, s').
Definition modify {S} (f : S -> S) : M S unit := fun s => Ok (tt, f s).
Definition gets {S A} (f : S -> A) : M S A := fun s => Ok (f s, s).
Definition fail {S A} (e : fault) : M S A := fun _ => Err e.

(** [assert(b)] of libs/assert.h. *)
Definition kassert {S} (b : bool) : M S unit :=
  if b then mret tt else fail AssertFailed.

(** [lift o]: an optional lookup as a load that faults when nothing is there. *)
Definition load {S A} (f : S -> option A) : M S A := fun s =>
  match f s with Some a => Ok (a, s) | None => Err BadAccess end.

Lemma bind_Ok {S A B} (m : M S A) (k : A -> M S B) s b s'' :
  (m ≫= k) s = Ok (b, s'') <-> exists a s', m s = Ok (a, s') /\ k a s' = Ok (b, s'').
Proof.
  unfold mbind, M_bind. destruct (m s) as [[a s']|f]; split.
  - intros H. by exists a, s'.
  - intros (a' & s1 & [= -> ->] & H). done.
  - done.
  - intros (a' & s1 & H & _). done.
Qed.

Lemma bind_step {S A B} (m : M S A) (k : A -> M S B) s a s' :
  m s = Ok (a, s') -> (m ≫= k) s = k a s'.
Proof. unfold mbind, M_bind. by intros ->. Qed.

Lemma bind_kassert {S B} (b : bool) (k : unit -> M S B) s :
  b = true -> (kassert b ≫= k) s = k tt s.
Proof. by intros ->. Qed.

Lemma bind_gets {S A B} (f : S -> A) (k : A -> M S B) s : (gets f ≫= k) s = k (f s) s.
Proof. done. Qed.

Lemma bind_modify {S B} (f : S -> S) (k : unit -> M S B) s : (modify f ≫= k) s = k tt (f s).
Proof. done. Qed.

Lemma bind_assoc_M {S A B D} (m : M S A) (f : A -> M S B) (k : B -> M S D) s :
  ((m ≫= f) ≫= k) s = (m ≫= (fun a => f a ≫= k)) s.
Proof. unfold mbind, M_bind. by destruct (m s) as [[a s']|]. Qed.

Lemma bind_assoc_kassert {S A B} (b : bool) (m : unit -> M S A) (k : A -> M S B) s :
  b = true -> ((kassert b ≫= m) ≫= k) s = (m tt ≫= k) s.
Proof. by intros ->. Qed.

(** One step of a state-passing program whose outcome is known, and an assertion known to hold. *)
Ltac mstep E := rewrite (bind_step _ _ _ _ _ E).
Ltac massert := rewrite bind_kassert.

Lemma bind_err {S A B} (m : M S A) (k : A -> M S B) s f :
  m s = Err f -> (m ≫= k) s = Err f.
Proof. unfold mbind, M_bind. by intros ->. Qed.

Lemma kassert_true {S} (s : S) : kassert true s = Ok (tt, s).
Proof. done. Qed.

Lemma kassert_Ok {S} b (s s' : S) u : kassert b s = Ok (u, s') <-> b = true /\ s' = s.
Proof. destruct b; unfold kassert; simpl; split; [intros [= <- <-]; done|intros [_ ->]; by destruct u|done|intros [? _]; done]. Qed.

(** ** Machine integers.

    The System-on-Cat port is a 32-bit RISC-V: [int], [long], pointers and
    [size_t] have 32 bits, [long long] has 64, and plain [char] is unsigned.
    A machine integer is a [Z] in its range; [uN]/[sN] are the conversions to
    the unsigned and signed types of width N. *)

Definition umod (w z : Z) : Z := z `mod` 2 ^ w.
Definition smod (w z : Z) : Z := (z + 2 ^ (w - 1)) `mod` 2 ^ w - 2 ^ (w - 1).

Abbreviation u8 := (umod 8).
Abbreviation u16 := (umod 16).
Abbreviation u32 := (umod 32).
Abbreviation u64 := (umod 64).
Abbreviation s32 := (smod 32).
Abbreviation s64 := (smod 64).

Definition is_u (w z : Z) : Prop := (0 <= z < 2 ^ w)%Z.
Definition is_s (w z : Z) : Prop := (- 2 ^ (w - 1) <= z < 2 ^ (w - 1))%Z.

#[export] Instance is_u_dec w z : Decision (is_u w z).
Proof. unfold is_u. apply _. Defined.
#[export] Instance is_s_dec w z : Decision (is_s w z).
Proof. unfold is_s. apply _. Defined.

Create HintDb word.

Section words.
Local Open Scope Z_scope.
Implicit Types w z : Z.

Lemma pow2_pos w : 0 <= w -> 0 < 2 ^ w.
Proof. intros. by apply Z.pow_pos_nonneg. Qed.

Lemma pow2_succ w : 0 <= w -> 2 ^ (w + 1) = 2 * 2 ^ w.
Proof. intros. rewrite Z.pow_add_r by lia. lia. Qed.

Lemma pow2_half w : 0 < w -> 2 ^ w = 2 * 2 ^ (w - 1).
Proof. intros. rewrite <- pow2_succ by lia. f_equal. lia. Qed.

Lemma umod_range w z : 0 <= w -> is_u w (umod w z).
Proof. intros. unfold is_u, umod. apply Z.mod_pos_bound. by apply pow2_pos. Qed.

Lemma smod_range w z : 0 < w -> is_s w (smod w z).
Proof.
    intros. unfold is_s, smod.
    pose proof (pow2_pos w ltac:(lia)) as Hp. pose proof (pow2_half w ltac:(lia)).
    pose proof (Z.mod_pos_bound (z + 2 ^ (w - 1)) _ Hp). lia.
Qed.

Lemma umod_small w z : is_u w z -> umod w z = z.
Proof. intros. by apply Z.mod_small. Qed.

Lemma smod_small w z : 0 < w -> is_s w z -> smod w z = z.
Proof.
    intros Hw [??]. unfold smod. pose proof (pow2_half w Hw).
    rewrite Z.mod_small by lia. lia.
Qed.

(** Congruence modulo [2^w] decides both conversions. *)
Lemma umod_cong w z z' : 0 <= w -> (exists k, z' = z + k * 2 ^ w) -> umod w z' = umod w z.
Proof. intros ? [k ->]. unfold umod. apply Z_mod_plus_full. Qed.

Lemma smod_cong w z z' : 0 <= w -> (exists k, z' = z + k * 2 ^ w) -> smod w z' = smod w z.
Proof.
    intros ? [k ->]. unfold smod.
    replace (z + k * 2 ^ w + 2 ^ (w - 1)) with (z + 2 ^ (w - 1) + k * 2 ^ w) by lia.
    by rewrite Z_mod_plus_full.
Qed.

Lemma umod_decomp w z : 0 <= w -> exists k, umod w z = z + k * 2 ^ w.
Proof.
    intros. exists (- (z / 2 ^ w)). unfold umod.
    pose proof (pow2_pos w ltac:(lia)).
    pose proof (Z.div_mod z (2 ^ w) ltac:(lia)). lia.
Qed.

Lemma smod_decomp w z : 0 <= w -> exists k, smod w z = z + k * 2 ^ w.
Proof.
    intros. unfold smod.
    destruct (umod_decomp w (z + 2 ^ (w - 1)) ltac:(lia)) as [k Hk].
    exists k. unfold umod in Hk. lia.
Qed.

Lemma smod_umod w z : 0 <= w -> smod w (umod w z) = smod w z.
Proof. intros. apply smod_cong; [done|]. by apply umod_decomp. Qed.

Lemma umod_smod w z : 0 <= w -> umod w (smod w z) = umod w z.
Proof. intros. apply umod_cong; [done|]. by apply smod_decomp. Qed.

Lemma smod_smod w z : 0 <= w -> smod w (smod w z) = smod w z.
Proof. intros. apply smod_cong; [done|]. by apply smod_decomp. Qed.

Lemma umod_umod w z : 0 <= w -> umod w (umod w z) = umod w z.
Proof. intros. apply umod_cong; [done|]. by apply umod_decomp. Qed.

Lemma smod_add_l w a b : 0 <= w -> smod w (smod w a + b) = smod w (a + b).
Proof.
    intros. apply smod_cong; [done|]. destruct (smod_decomp w a) as [k ->]; [done|].
    exists k. lia.
Qed.

Lemma smod_add_r w a b : 0 <= w -> smod w (a + smod w b) = smod w (a + b).
Proof. intros. by rewrite Z.add_comm, smod_add_l, Z.add_comm by done. Qed.

Lemma smod_mul_l w a b : 0 <= w -> smod w (smod w a * b) = smod w (a * b).
Proof.
    intros. apply smod_cong; [done|]. destruct (smod_decomp w a) as [k ->]; [done|].
    exists (k * b). lia.
Qed.

Lemma smod_mul_r w a b : 0 <= w -> smod w (a * smod w b) = smod w (a * b).
Proof. intros. by rewrite Z.mul_comm, smod_mul_l, Z.mul_comm by done. Qed.
End words.

#[export] Hint Resolve umod_range smod_range : word.

(** ** Lists: removing an element. *)

Lemma filter_ne_notin `{EqDecision A} (x : A) (l : list A) : x ∉ l -> filter (fun y => y <> x) l = l.
Proof.
  induction l as [|y l IH]; [done|]. intros [Hne Hx]%not_elem_of_cons.
  rewrite filter_cons_True by congruence. by rewrite IH.
Qed.

Lemma length_filter_ne `{EqDecision A} (x : A) (l : list A) :
  NoDup l -> x ∈ l -> length (filter (fun y => y <> x) l) = (length l - 1)%nat.
Proof.
  induction 1 as [|y l Hy Hl IH]; [by intros ?%not_elem_of_nil|]. intros [->|Hp]%elem_of_cons.
  - rewrite filter_cons_False by (intros H; by apply H). rewrite filter_ne_notin by done. simpl. lia.
  - rewrite filter_cons_True by (intros ->; done). simpl. rewrite IH by done.
    destruct l; [by apply not_elem_of_nil in Hp|simpl; lia].
Qed.

Lemma list_filter_iff' {A} (P Q : A -> Prop) `{!forall x, Decision (P x), !forall x, Decision (Q x)} (l : list A) :
  (forall x, x ∈ l -> P x <-> Q x) -> filter P l = filter Q l.
Proof.
  induction l as [|y l IH]; intros Hpq; [done|]. rewrite !filter_cons.
  assert (E : filter P l = filter Q l) by (apply IH; intros; apply Hpq; by right).
  destruct (Hpq y ltac:(left)) as [Hp Hq]. destruct (decide (P y)), (decide (Q y)); [by f_equal|tauto|tauto|done].
Qed.

(** The element after [t] in a sequence; [None] when that is the list head. *)
Fixpoint next_in (l : list Z) (t : Z) : option Z :=
  match l with
  | [] => None
  | x :: l' => if (x =? t)%Z then head l' else next_in l' t
  end.

(** The element before [w] in a sequence, [None] when that is the list head. *)
Fixpoint prev_in (l : list Z) (w : Z) : option Z :=
  match l with
  | [] => None
  | x :: l' => match l' with
               | [] => None
               | y :: _ => if (y =? w)%Z then Some x else prev_in l' w
               end
  end.

Lemma prev_in_notin (l : list Z) x y : x ∉ l -> prev_in (y :: l) x = None.
Proof.
  revert y. induction l as [|z l IH]; intros y Hx; [done|]. apply not_elem_of_cons in Hx as [Hne Hx].
  cbn [prev_in]. destruct (Z.eqb_spec z x); [congruence|]. exact (IH z Hx).
Qed.

Lemma prev_in_app (l1 l2 : list Z) x : x ∉ l1 -> x ∉ l2 -> prev_in (l1 ++ x :: l2) x = last l1.
Proof.
  intros H1 H2. induction l1 as [|y l1 IH]; [by apply prev_in_notin|]. apply not_elem_of_cons in H1 as [Hne H1].
  specialize (IH H1). destruct l1 as [|z l1]; cbn [app prev_in last] in *; [by rewrite Z.eqb_refl|].
  apply not_elem_of_cons in H1 as [Hz _]. destruct (Z.eqb_spec z x); [congruence|]. exact IH.
Qed.

Lemma next_in_app (l1 l2 : list Z) x : x ∉ l1 -> next_in (l1 ++ x :: l2) x = head l2.
Proof.
  intros H1. induction l1 as [|y l1 IH]; cbn [app next_in]; [by rewrite Z.eqb_refl|].
  apply not_elem_of_cons in H1 as [Hne H1]. destruct (Z.eqb_spec y x); [congruence|]. by apply IH.
Qed.

Lemma filter_none {A} (P : A -> Prop) `{!forall x, Decision (P x)} (l : list A) :
  (forall x, x ∈ l -> ~ P x) -> filter P l = [].
Proof.
  induction l as [|y l IH]; intros Hn; [done|]. rewrite filter_cons_False by (apply Hn; left). apply IH. intros; apply Hn; by right.
Qed.

Lemma filter_all {A} (P : A -> Prop) `{!forall x, Decision (P x)} (l : list A) :
  (forall x, x ∈ l -> P x) -> filter P l = l.
Proof.
  induction l as [|y l IH]; intros Hn; [done|]. rewrite filter_cons_True by (apply Hn; left). f_equal. apply IH. intros; apply Hn; by right.
Qed.

(** Sequences sorted by an integer key split at any bound. *)
Lemma sorted_key_split {A} (f : A -> Z) (l : list A) (k : Z) :
  StronglySorted (fun a b => f a < f b)%Z l ->
  l = filter (fun y => f y <= k)%Z l ++ filter (fun y => k < f y)%Z l.
Proof.
  induction 1 as [|x l _ IH Hx]; [done|]. destruct (decide (f x <= k)%Z) as [Hk|Hk].
  - rewrite filter_cons_True by done. rewrite (filter_cons_False (fun y => k < f y)%Z) by lia. cbn [app]. by rewrite <- IH.
  - rewrite filter_cons_False by done. rewrite (filter_cons_True (fun y => k < f y)%Z) by lia.
    rewrite list.Forall_forall in Hx.
    assert (E1 : filter (fun y => f y <= k)%Z l = []).
    { apply filter_none. intros y Hy. specialize (Hx y Hy). lia. }
    rewrite E1 in IH |- *. cbn [app] in *. by rewrite <- IH.
Qed.

Lemma sorted_filter {A} (R : A -> A -> Prop) (P : A -> Prop) `{!forall x, Decision (P x)} (l : list A) :
  StronglySorted R l -> StronglySorted R (filter P l).
Proof.
  induction 1 as [|x l _ IH Hx]; [constructor|]. rewrite filter_cons. destruct (decide (P x)); [|done]. constructor; [done|].
  rewrite list.Forall_forall in Hx |- *. intros y [_ Hy]%list_elem_of_filter. by apply Hx.
Qed.

Lemma sorted_app_iff {A} (R : A -> A -> Prop) (l1 l2 : list A) :
  StronglySorted R (l1 ++ l2) <-> StronglySorted R l1 /\ StronglySorted R l2 /\ forall a b, a ∈ l1 -> b ∈ l2 -> R a b.
Proof.
  induction l1 as [|x l1 IH]; cbn [app].
  - split; [|by intros (_ & ? & _)]. intros H. split_and!; [constructor|done|]. by intros ? ? ?%not_elem_of_nil.
  - split.
    + intros [H1 Hx]%StronglySorted_inv. apply IH in H1 as (H1 & H2 & H3). rewrite list.Forall_forall in Hx.
      split_and!; [constructor; [done|]; apply list.Forall_forall; intros; apply Hx; apply elem_of_app; by left|done|].
      intros a b [->|Ha]%elem_of_cons Hb; [apply Hx; apply elem_of_app; by right|by apply H3].
    + intros ([H1 Hx]%StronglySorted_inv & H2 & H3). constructor.
      * apply IH. split_and!; [done|done|]. intros; apply H3; [by right|done].
      * apply Forall_app. split; [done|]. apply list.Forall_forall. intros; apply H3; [left|done].
Qed.

(** ** Error codes (libs/error.h), returned negated. *)

Definition E_NOENT : Z := 2.
Definition E_NO_MEM : Z := 12.
Definition E_BUSY : Z := 16.
Definition E_EXISTS : Z := 17.
Definition E_NOTDIR : Z := 20.
Definition E_ISDIR : Z := 21.
Definition E_INVAL : Z := 22.
Definition E_MAX_OPEN : Z := 24.
Definition E_TOO_BIG : Z := 27.
Definition E_SEEK : Z := 29.
Definition E_UNIMP : Z := 35.
Definition E_KILLED : Z := 37.
Definition E_TIMEOUT : Z := E_BUSY.
Definition E_NOTEMPTY : Z := E_ISDIR.
