(* ===== verification/ListH.v ===== *)
(** * ListH: the intrusive doubly linked list of libs/list.h

    [list_entry_t] objects live in a heap; every routine of list.h is a
    state-passing function that faults when it touches an address that holds
    no entry.  [ring h c] says that the addresses [c] form a circular list in
    the order of their [next] links, and [dll h head xs] that the list with
    head [head] holds exactly [xs].  The theorems show that the link surgery
    implements insertion and deletion on the abstract sequence, which is what
    the clients (run queues, wait queues, timer lists, free lists) rely on. *)

From stdpp Require Import numbers gmap list.
From S2P Require Import Prelude.

Definition ptr := Z.

Record list_entry := ListEntry { le_prev : ptr; le_next : ptr }.

#[export] Instance list_entry_eq_dec : EqDecision list_entry.
Proof. solve_decision. Defined.

Abbreviation heap := (gmap ptr list_entry).

Definition rd_next (p : ptr) : M heap ptr := load (fun h => le_next <$> h !! p).
Definition rd_prev (p : ptr) : M heap ptr := load (fun h => le_prev <$> h !! p).

(** [p->next = v] and [p->prev = v]. *)
Definition wr_next (p v : ptr) : M heap unit := fun h =>
  match h !! p with
  | Some e => Ok (tt, <[p := ListEntry (le_prev e) v]> h)
  | None => Err BadAccess
  end.
Definition wr_prev (p v : ptr) : M heap unit := fun h =>
  match h !! p with
  | Some e => Ok (tt, <[p := ListEntry v (le_next e)]> h)
  | None => Err BadAccess
  end.

Definition list_init (elm : ptr) : M heap unit :=
  _ ← wr_next elm elm; wr_prev elm elm.

Definition __list_add (elm prev next : ptr) : M heap unit :=
  _ ← wr_prev next elm;
  _ ← wr_next prev elm;
  _ ← wr_next elm next;
  wr_prev elm prev.

Definition __list_del (prev next : ptr) : M heap unit :=
  _ ← wr_next prev next; wr_prev next prev.

Definition list_add_before (listelm elm : ptr) : M heap unit :=
  p ← rd_prev listelm; __list_add elm p listelm.

Definition list_add_after (listelm elm : ptr) : M heap unit :=
  n ← rd_next listelm; __list_add elm listelm n.

Definition list_add (listelm elm : ptr) : M heap unit := list_add_after listelm elm.

Definition list_del (listelm : ptr) : M heap unit :=
  p ← rd_prev listelm; n ← rd_next listelm; __list_del p n.

Definition list_del_init (listelm : ptr) : M heap unit :=
  _ ← list_del listelm; list_init listelm.

Definition list_empty (l : ptr) : M heap bool :=
  n ← rd_next l; mret (bool_decide (n = l)).

Definition list_next (listelm : ptr) : M heap ptr := rd_next listelm.
Definition list_prev (listelm : ptr) : M heap ptr := rd_prev listelm.

(** ** The two link fields as finite functions. *)

Definition nx (h : heap) (p : ptr) : option ptr := le_next <$> h !! p.
Definition pv (h : heap) (p : ptr) : option ptr := le_prev <$> h !! p.

(** [h'] is [h] with [next] redirected by [fn] and [prev] by [fp]; no entry
    appears or disappears. *)
Definition relinked (h h' : heap) (fn fp : ptr -> option ptr) : Prop :=
  dom h' = dom h /\
  (forall q, nx h' q = match fn q with Some v => Some v | None => nx h q end) /\
  (forall q, pv h' q = match fp q with Some v => Some v | None => pv h q end).

Definition at_ (p v q : ptr) : option ptr := if decide (q = p) then Some v else None.
Definition orelse (f g : ptr -> option ptr) (q : ptr) : option ptr :=
  match f q with Some v => Some v | None => g q end.
Definition none (q : ptr) : option ptr := None.

Lemma relinked_trans h0 h1 h2 f1 g1 f2 g2 :
  relinked h0 h1 f1 g1 -> relinked h1 h2 f2 g2 ->
  relinked h0 h2 (orelse f2 f1) (orelse g2 g1).
Proof.
  intros (D1 & N1 & P1) (D2 & N2 & P2). split; [congruence|]. unfold orelse.
  split; intros q; [rewrite N2, N1|rewrite P2, P1]; by repeat case_match.
Qed.

Lemma wr_next_spec p v h :
  is_Some (h !! p) -> exists h', wr_next p v h = Ok (tt, h') /\ relinked h h' (at_ p v) none.
Proof.
  intros [e He]. unfold wr_next. rewrite He. eexists; split; [done|].
  split; [|split; intros q; unfold nx, pv, at_, none; destruct (decide (q = p)) as [->|]].
  - rewrite dom_insert_L. apply elem_of_dom_2 in He. set_solver.
  - by rewrite lookup_insert_eq.
  - by rewrite lookup_insert_ne.
  - by rewrite lookup_insert_eq, He.
  - by rewrite lookup_insert_ne.
Qed.

Lemma wr_prev_spec p v h :
  is_Some (h !! p) -> exists h', wr_prev p v h = Ok (tt, h') /\ relinked h h' none (at_ p v).
Proof.
  intros [e He]. unfold wr_prev. rewrite He. eexists; split; [done|].
  split; [|split; intros q; unfold nx, pv, at_, none; destruct (decide (q = p)) as [->|]].
  - rewrite dom_insert_L. apply elem_of_dom_2 in He. set_solver.
  - by rewrite lookup_insert_eq, He.
  - by rewrite lookup_insert_ne.
  - by rewrite lookup_insert_eq.
  - by rewrite lookup_insert_ne.
Qed.

Lemma relinked_is_Some h h' f g p : relinked h h' f g -> is_Some (h !! p) -> is_Some (h' !! p).
Proof. intros (D & _) H. apply elem_of_dom. rewrite D. by apply elem_of_dom. Qed.

Lemma rd_next_spec h p n : nx h p = Some n -> rd_next p h = Ok (n, h).
Proof. unfold nx, rd_next, load. by intros ->. Qed.
Lemma rd_prev_spec h p n : pv h p = Some n -> rd_prev p h = Ok (n, h).
Proof. unfold pv, rd_prev, load. by intros ->. Qed.

Lemma nx_is_Some h p n : nx h p = Some n -> is_Some (h !! p).
Proof. unfold nx. destruct (h !! p); naive_solver. Qed.
Lemma pv_is_Some h p n : pv h p = Some n -> is_Some (h !! p).
Proof. unfold pv. destruct (h !! p); naive_solver. Qed.

Lemma __list_add_spec elm prev next h :
  is_Some (h !! elm) -> is_Some (h !! prev) -> is_Some (h !! next) ->
  exists h', __list_add elm prev next h = Ok (tt, h') /\
    relinked h h' (orelse (at_ elm next) (at_ prev elm)) (orelse (at_ elm prev) (at_ next elm)).
Proof.
  intros He Hp Hn. unfold __list_add.
  destruct (wr_prev_spec next elm h Hn) as (h1 & E1 & R1).
  destruct (wr_next_spec prev elm h1) as (h2 & E2 & R2); [by eapply relinked_is_Some|].
  pose proof (relinked_trans _ _ _ _ _ _ _ R1 R2) as R12.
  destruct (wr_next_spec elm next h2) as (h3 & E3 & R3); [by eapply relinked_is_Some|].
  pose proof (relinked_trans _ _ _ _ _ _ _ R12 R3) as R13.
  destruct (wr_prev_spec elm prev h3) as (h4 & E4 & R4); [by eapply relinked_is_Some|].
  destruct (relinked_trans _ _ _ _ _ _ _ R13 R4) as (D & N & P).
  exists h4. split; [by rewrite !(bind_step _ _ _ _ _ E1), (bind_step _ _ _ _ _ E2), (bind_step _ _ _ _ _ E3)|].
  split; [done|]. unfold orelse, none, at_ in *. split; intros q; [rewrite N|rewrite P]; by repeat case_decide.
Qed.

Lemma __list_del_spec prev next h :
  is_Some (h !! prev) -> is_Some (h !! next) ->
  exists h', __list_del prev next h = Ok (tt, h') /\ relinked h h' (at_ prev next) (at_ next prev).
Proof.
  intros Hp Hn. unfold __list_del.
  destruct (wr_next_spec prev next h Hp) as (h1 & E1 & R1).
  destruct (wr_prev_spec next prev h1) as (h2 & E2 & R2); [by eapply relinked_is_Some|].
  destruct (relinked_trans _ _ _ _ _ _ _ R1 R2) as (D & N & P).
  exists h2. split; [by rewrite (bind_step _ _ _ _ _ E1)|].
  split; [done|]. unfold orelse, none, at_ in *. split; intros q; [rewrite N|rewrite P]; by repeat case_decide.
Qed.

Lemma list_init_spec elm h :
  is_Some (h !! elm) ->
  exists h', list_init elm h = Ok (tt, h') /\ relinked h h' (at_ elm elm) (at_ elm elm).
Proof.
  intros He. unfold list_init.
  destruct (wr_next_spec elm elm h He) as (h1 & E1 & R1).
  destruct (wr_prev_spec elm elm h1) as (h2 & E2 & R2); [by eapply relinked_is_Some|].
  destruct (relinked_trans _ _ _ _ _ _ _ R1 R2) as (D & N & P).
  exists h2. split; [by rewrite (bind_step _ _ _ _ _ E1)|].
  split; [done|]. unfold orelse, none, at_ in *. split; intros q; [rewrite N|rewrite P]; by repeat case_decide.
Qed.

(** ** Rings *)

(** [seg h x ys z]: from [x] the links lead through [ys] to [z], both ways. *)
Fixpoint seg (h : heap) (x : ptr) (ys : list ptr) (z : ptr) : Prop :=
  match ys with
  | [] => nx h x = Some z /\ pv h z = Some x
  | y :: ys' => nx h x = Some y /\ pv h y = Some x /\ seg h y ys' z
  end.

Definition ring (h : heap) (c : list ptr) : Prop :=
  match c with [] => False | x :: ys => NoDup c /\ seg h x ys x end.

(** The list with head [head] holds [xs], in order. *)
Definition dll (h : heap) (head : ptr) (xs : list ptr) : Prop := ring h (head :: xs).

Lemma seg_app h x ys y zs z : seg h x (ys ++ y :: zs) z <-> seg h x ys y /\ seg h y zs z.
Proof. revert x. induction ys as [|a ys IH]; intros x; simpl; [tauto|]. rewrite IH. tauto. Qed.

Lemma seg_ext h h' x ys z :
  (forall a, a ∈ x :: ys -> nx h' a = nx h a) ->
  (forall b, b ∈ ys ++ [z] -> pv h' b = pv h b) ->
  seg h x ys z -> seg h' x ys z.
Proof.
  revert x. induction ys as [|y ys IH]; intros x Hn Hp; simpl.
  - rewrite Hn, Hp by set_solver. done.
  - rewrite Hn, Hp by set_solver. intros (? & ? & ?). split_and!; [done..|].
    apply IH; [set_solver..|done].
Qed.

Lemma ring_rotate h xs ys : xs <> [] -> ys <> [] -> ring h (xs ++ ys) -> ring h (ys ++ xs).
Proof.
  destruct xs as [|x xs], ys as [|y ys]; try done. intros _ _. cbn [ring app]. intros [Hd Hs].
  split.
  - apply (NoDup_Permutation_proper _ _ (Permutation_app_comm (y :: ys) (x :: xs))). done.
  - apply seg_app in Hs. apply seg_app. tauto.
Qed.

(** Rotations are equivalent rings, whatever the two parts. *)
Lemma ring_comm h xs ys : ring h (xs ++ ys) <-> ring h (ys ++ xs).
Proof.
  destruct (decide (xs = [])) as [->|]; [by rewrite app_nil_r|].
  destruct (decide (ys = [])) as [->|]; [by rewrite app_nil_r|].
  split; intros; by apply ring_rotate.
Qed.

Lemma ring_next h p rest : ring h (p :: rest) -> nx h p = Some (default p (head rest)).
Proof. intros [_ Hs]. destruct rest; simpl in *; tauto. Qed.

Lemma ring_prev h p rest : ring h (p :: rest) -> pv h (default p (head rest)) = Some p.
Proof. intros [_ Hs]. destruct rest; simpl in *; tauto. Qed.

(** Case analysis on the address comparisons left by a relinking. *)
Ltac by_links N P :=
  rewrite ?N, ?P; unfold orelse, at_; repeat (case_decide; simplify_eq/=);
  first [done|set_solver].

(** Inserting [elm] between [p] and its successor. *)
Lemma ring_insert h h' p rest elm :
  ring h (p :: rest) -> elm ∉ p :: rest ->
  relinked h h' (orelse (at_ elm (default p (head rest))) (at_ p elm))
                (orelse (at_ elm p) (at_ (default p (head rest)) elm)) ->
  ring h' (p :: elm :: rest).
Proof.
  intros [Hd Hs] Hni (_ & N & P). apply list.NoDup_cons in Hd as [Hp Hd].
  assert (elm <> p) by set_solver.
  split. { rewrite !list.NoDup_cons. set_solver. }
  split; [by_links N P|]. split; [by_links N P|].
  destruct rest as [|n rest]; simpl in *; [split; by_links N P|].
  apply list.NoDup_cons in Hd as [??]. destruct Hs as (? & ? & Hs).
  split; [by_links N P|]. split; [by_links N P|].
  eapply seg_ext; [..|exact Hs]; intros a Ha; by_links N P.
Qed.

(** Removing the successor [x] of [p]. *)
Lemma ring_remove h h' p x rest :
  ring h (p :: x :: rest) ->
  relinked h h' (at_ p (default p (head rest))) (at_ (default p (head rest)) p) ->
  ring h' (p :: rest).
Proof.
  intros [Hd Hs] (_ & N & P). apply list.NoDup_cons in Hd as [Hp Hd].
  apply list.NoDup_cons in Hd as [Hx Hd].
  split. { rewrite !list.NoDup_cons. set_solver. }
  destruct rest as [|n rest]; simpl in *; [split; by_links N P|].
  apply list.NoDup_cons in Hd as [??]. destruct Hs as (? & ? & ? & ? & Hs).
  split; [by_links N P|]. split; [by_links N P|].
  eapply seg_ext; [..|exact Hs]; intros a Ha; by_links N P.
Qed.

(** Nothing outside the listed addresses changes. *)
Definition frame (h h' : heap) (ps : list ptr) : Prop := forall q, q ∉ ps -> h' !! q = h !! q.

Lemma relinked_frame h h' fn fp ps :
  relinked h h' fn fp -> (forall q, q ∉ ps -> fn q = None /\ fp q = None) -> frame h h' ps.
Proof.
  intros (D & N & P) Hps q Hq. destruct (Hps q Hq) as [Hfn Hfp].
  specialize (N q). specialize (P q). rewrite Hfn in N. rewrite Hfp in P. unfold nx, pv in *.
  destruct (h !! q) as [[]|], (h' !! q) as [[]|]; naive_solver.
Qed.

Lemma ring_mem h c p : ring h c -> p ∈ c -> is_Some (h !! p).
Proof.
  intros Hr (l1 & l2 & ->)%list_elem_of_split.
  apply (proj1 (ring_comm _ l1 (p :: l2))) in Hr.
  eapply nx_is_Some, (ring_next _ p (l2 ++ l1)), Hr.
Qed.

(** Every element of a ring can be rotated to the front; [list_add_after] then
    is [ring_insert]. *)
Lemma list_add_after_ring h p rest elm :
  ring h (p :: rest) -> elm ∉ p :: rest -> is_Some (h !! elm) ->
  exists h', list_add_after p elm h = Ok (tt, h') /\ ring h' (p :: elm :: rest) /\
    frame h h' (elm :: p :: rest).
Proof.
  intros Hr Hni He. set (n := default p (head rest)).
  assert (n ∈ p :: rest) by (unfold n; destruct rest; simpl; set_solver).
  destruct (__list_add_spec elm p n h) as (h' & E & R);
    [done|eapply ring_mem; [done|set_solver]..|].
  exists h'. split_and!.
  - unfold list_add_after. by rewrite (bind_step _ _ _ _ _ (rd_next_spec _ _ _ (ring_next _ _ _ Hr))).
  - by eapply ring_insert.
  - eapply relinked_frame; [done|]. intros q Hq. unfold orelse, at_.
    rewrite !decide_False by set_solver. done.
Qed.

Lemma list_add_before_ring h rest p elm :
  ring h (p :: rest) -> elm ∉ p :: rest -> is_Some (h !! elm) ->
  exists h', list_add_before (default p (head rest)) elm h = Ok (tt, h') /\
    ring h' (p :: elm :: rest) /\ frame h h' (elm :: p :: rest).
Proof.
  intros Hr Hni He. set (n := default p (head rest)).
  assert (n ∈ p :: rest) by (unfold n; destruct rest; simpl; set_solver).
  destruct (__list_add_spec elm p n h) as (h' & E & R);
    [done|eapply ring_mem; [done|set_solver]..|].
  exists h'. split_and!.
  - unfold list_add_before. by rewrite (bind_step _ _ _ _ _ (rd_prev_spec _ _ _ (ring_prev _ _ _ Hr))).
  - by eapply ring_insert.
  - eapply relinked_frame; [done|]. intros q Hq. unfold orelse, at_.
    rewrite !decide_False by set_solver. done.
Qed.

Lemma list_del_ring h p x rest :
  ring h (p :: x :: rest) ->
  exists h', list_del x h = Ok (tt, h') /\ ring h' (p :: rest) /\ frame h h' (p :: rest).
Proof.
  intros Hr. set (n := default p (head rest)).
  assert (n ∈ p :: rest) by (unfold n; destruct rest; simpl; set_solver).
  assert (Hnx : nx h x = Some n) by (destruct Hr as [_ Hs]; destruct rest; simpl in *; tauto).
  destruct (__list_del_spec p n h) as (h' & E & R); [eapply ring_mem; [done|set_solver]..|].
  exists h'. split_and!.
  - unfold list_del. rewrite (bind_step _ _ _ _ _ (rd_prev_spec _ _ _ (ring_prev _ _ _ Hr))).
    by rewrite (bind_step _ _ _ _ _ (rd_next_spec _ _ _ Hnx)).
  - by eapply ring_remove.
  - eapply relinked_frame; [done|]. intros q Hq. unfold at_. rewrite !decide_False by set_solver. done.
Qed.

(** ** The public routines on lists with a head *)

(** Three entries: a head at 100, one element at 200, and a fresh entry at 300. *)
Definition heap3 : heap :=
  list_to_map [(100, ListEntry 200 200); (200, ListEntry 100 100); (300, ListEntry 0 0)]%Z.

Lemma heap3_dll : dll heap3 100%Z [200%Z].
Proof. split; [by apply (bool_decide_unpack _)|]. by vm_compute. Qed.


Lemma dll_split_last h hd l1 l2 :
  dll h hd (l1 ++ l2) -> exists p l1', hd :: l1 = l1' ++ [p] /\ ring h (p :: l2 ++ l1').
Proof.
  intros H. destruct (exists_last (l := hd :: l1)) as (l1' & p & E); [done|].
  exists p, l1'. split; [done|]. unfold dll in H. rewrite app_comm_cons, E, <- app_assoc in H.
  by apply (ring_comm h l1' (p :: l2)) in H.
Qed.

Lemma dll_join_last h hd l1 l2 p l1' :
  hd :: l1 = l1' ++ [p] -> ring h (p :: l2 ++ l1') -> dll h hd (l1 ++ l2).
Proof.
  intros E H. unfold dll. rewrite app_comm_cons, E, <- app_assoc.
  apply (ring_comm h l1' (p :: l2)). done.
Qed.

Lemma head_app_default (p : ptr) l1' hd l1 (l2 : list ptr) :
  hd :: l1 = l1' ++ [p] -> default p (head (l2 ++ l1')) = default hd (head l2).
Proof. intros E. destruct l2; [|done]. destruct l1'; simpl in *; by simplify_eq. Qed.

Lemma dll_perm (p : ptr) l1' hd l1 (l2 : list ptr) :
  hd :: l1 = l1' ++ [p] -> hd :: l1 ++ l2 ≡ₚ p :: l2 ++ l1'.
Proof.
  intros E. rewrite app_comm_cons, E, (Permutation_app_comm l1' [p]). simpl.
  by rewrite (Permutation_app_comm l1' l2).
Qed.

(** Inserting after any entry of a list is insertion at that place of the
    abstract sequence, the routine never faults, and no entry outside the list
    is touched; with [l1 = []] this is [list_add] on the head. *)
Theorem list_add_after_refines h hd l1 l2 p elm :
  dll h hd (l1 ++ l2) -> last (hd :: l1) = Some p ->
  elm ∉ hd :: l1 ++ l2 -> is_Some (h !! elm) ->
  exists h', list_add_after p elm h = Ok (tt, h') /\ dll h' hd (l1 ++ elm :: l2) /\
    frame h h' (elm :: hd :: l1 ++ l2).
Proof.
  intros H Hl Hni He. destruct (dll_split_last _ _ _ _ H) as (p' & l1' & E & Hr).
  assert (p' = p) as -> by (rewrite E, last_snoc in Hl; by simplify_eq).
  pose proof (dll_perm p l1' hd l1 l2 E) as Hperm.
  destruct (list_add_after_ring h p (l2 ++ l1') elm) as (h' & Eq & Hr' & Hf); [done| |done|].
  { by rewrite <- Hperm. }
  exists h'. split_and!; [done| |].
  - by apply (dll_join_last h' hd l1 (elm :: l2) p l1').
  - intros q Hq. apply Hf. by rewrite <- Hperm.
Qed.

Lemma list_add_after_refines_witness :
  exists h', list_add_after 100%Z 300%Z heap3 = Ok (tt, h') /\ dll h' 100%Z [300; 200]%Z /\
    frame heap3 h' [300; 100; 200]%Z.
Proof.
  apply (list_add_after_refines heap3 100 [] [200] 100 300)%Z.
  - exact heap3_dll.
  - reflexivity.
  - by apply (bool_decide_unpack _).
  - by apply (bool_decide_unpack _).
Defined.


(** Inserting before any entry (or, with [l2 = []], before the head, which
    appends) is insertion at that place of the sequence. *)
Theorem list_add_before_refines h hd l1 l2 elm :
  dll h hd (l1 ++ l2) -> elm ∉ hd :: l1 ++ l2 -> is_Some (h !! elm) ->
  exists h', list_add_before (default hd (head l2)) elm h = Ok (tt, h') /\
    dll h' hd (l1 ++ elm :: l2) /\ frame h h' (elm :: hd :: l1 ++ l2).
Proof.
  intros H Hni He. destruct (dll_split_last _ _ _ _ H) as (p & l1' & E & Hr).
  pose proof (dll_perm p l1' hd l1 l2 E) as Hperm.
  destruct (list_add_before_ring h (l2 ++ l1') p elm) as (h' & Eq & Hr' & Hf); [done| |done|].
  { by rewrite <- Hperm. }
  rewrite (head_app_default p l1' hd l1 l2 E) in Eq.
  exists h'. split_and!; [done| |].
  - by apply (dll_join_last h' hd l1 (elm :: l2) p l1').
  - intros q Hq. apply Hf. by rewrite <- Hperm.
Qed.

Lemma list_add_before_refines_witness :
  exists h', list_add_before 100%Z 300%Z heap3 = Ok (tt, h') /\ dll h' 100%Z [200; 300]%Z /\
    frame heap3 h' [300; 100; 200]%Z.
Proof.
  apply (list_add_before_refines heap3 100 [200] [] 300)%Z.
  - exact heap3_dll.
  - by apply (bool_decide_unpack _).
  - by apply (bool_decide_unpack _).
Defined.


Lemma list_del_dll h hd l1 x l2 :
  dll h hd (l1 ++ x :: l2) ->
  exists h', list_del x h = Ok (tt, h') /\ dll h' hd (l1 ++ l2) /\ frame h h' (hd :: l1 ++ l2).
Proof.
  intros H. destruct (dll_split_last _ _ _ _ H) as (p & l1' & E & Hr).
  destruct (list_del_ring h p x (l2 ++ l1')) as (h' & Eq & Hr' & Hf); [done|].
  pose proof (dll_perm p l1' hd l1 l2 E) as Hperm.
  exists h'. split_and!; [done|by eapply dll_join_last|].
  intros q Hq. apply Hf. by rewrite <- Hperm.
Qed.

(** [list_del_init] removes the entry from the sequence and leaves it as an
    empty list of its own, as the comment of list.h says. *)
Theorem list_del_init_refines h hd l1 x l2 :
  dll h hd (l1 ++ x :: l2) ->
  exists h', list_del_init x h = Ok (tt, h') /\ dll h' hd (l1 ++ l2) /\ dll h' x [] /\
    list_empty x h' = Ok (true, h').
Proof.
  intros H. destruct (list_del_dll _ _ _ _ _ H) as (h1 & E1 & D1 & F1).
  assert (Hx : x ∉ hd :: l1 ++ l2).
  { destruct H as [Hd _]. rewrite app_comm_cons, <- Permutation_middle in Hd.
    by apply list.NoDup_cons in Hd as [? _]. }
  assert (is_Some (h1 !! x)).
  { rewrite (F1 x Hx). eapply ring_mem; [exact H|set_solver]. }
  destruct (list_init_spec x h1) as (h2 & E2 & R2); [done|].
  exists h2. assert (Hnx : nx h2 x = Some x) by (destruct R2 as (_ & N & P); by_links N P).
  split_and!.
  - unfold list_del_init. by rewrite (bind_step _ _ _ _ _ E1).
  - destruct D1 as [Hd Hs]. split; [done|]. destruct R2 as (_ & N & P).
    eapply seg_ext; [..|exact Hs]; intros a Ha; by_links N P.
  - split; [apply NoDup_singleton|]. destruct R2 as (_ & N & P). split; by_links N P.
  - unfold list_empty. rewrite (bind_step _ _ _ _ _ (rd_next_spec _ _ _ Hnx)).
    by rewrite bool_decide_eq_true_2.
Qed.

Lemma list_del_init_refines_witness :
  exists h', list_del_init 200%Z heap3 = Ok (tt, h') /\ dll h' 100%Z [] /\ dll h' 200%Z [] /\
    list_empty 200%Z h' = Ok (true, h').
Proof. apply (list_del_init_refines heap3 100 [] 200 [])%Z. exact heap3_dll. Defined.


(** [list_empty], [list_next] and [list_prev] on the head observe the sequence. *)
Lemma list_empty_dll h hd xs :
  dll h hd xs -> list_empty hd h = Ok (bool_decide (xs = []), h).
Proof.
  intros H. unfold list_empty.
  rewrite (bind_step _ _ _ _ _ (rd_next_spec _ _ _ (ring_next _ _ _ H))).
  unfold mret, M_ret. do 2 f_equal. apply bool_decide_ext. destruct xs as [|x xs]; simpl; [done|].
  split; [|done]. intros ->. destruct H as [Hd _]. apply list.NoDup_cons in Hd as [? _]. set_solver.
Qed.

Lemma list_next_dll h hd xs : dll h hd xs -> list_next hd h = Ok (default hd (head xs), h).
Proof. intros H. apply rd_next_spec, ring_next, H. Qed.

Lemma list_prev_dll h hd xs : dll h hd xs -> list_prev hd h = Ok (default hd (last xs), h).
Proof.
  intros H. apply rd_prev_spec. rewrite <- (app_nil_r xs) in H.
  destruct (dll_split_last _ _ _ _ H) as (p & l1' & E & Hr).
  pose proof (ring_prev _ _ _ Hr) as Hp. rewrite (head_app_default p l1' hd xs [] E) in Hp.
  simpl in Hp. rewrite Hp. f_equal.
  destruct xs as [|x xs _] using rev_ind.
  - destruct l1'; simpl in E; simplify_eq; [done|by destruct l1'].
  - rewrite last_snoc. simpl. rewrite app_comm_cons in E. by apply app_inj_tail in E as [_ ->].
Qed.
