(* ===== verification/Arith.v ===== *)
(** * Arith: the software multiplier and divider of arch/soc/libs

    The System-on-Cat core has no hardware multiply or divide, so the kernel
    links its own [__mulsi3], [__muldi3], [__divsi3], [__modsi3], [__udivsi3]
    and [__umodsi3].  They are shift-and-add and shift-and-subtract loops on
    32-bit (64-bit for [__muldi3]) machine integers.  The theorems identify them
    with multiplication and division of the integers, wrap-around included.
    The file also has the two small numeric helpers of libs/: [hash32] and the
    linear congruential generator [rand]. *)

From stdpp Require Import numbers gmap list.
From S2P Require Import Prelude.
Local Open Scope Z_scope.

(** ** Multiplication (mult.c) *)

(** [while (cnt) { if (cnt & 1) res += b; b <<= 1; cnt >>= 1; }] at width [w]. *)
Fixpoint mul_loop (w : Z) (fuel : nat) (cnt b res : Z) : outcome Z :=
  if cnt =? 0 then Ok res
  else match fuel with
       | O => Err OutOfFuel
       | S fuel' =>
           mul_loop w fuel' (Z.shiftr cnt 1) (smod w (Z.shiftl b 1))
             (if Z.land cnt 1 =? 0 then res else smod w (res + b))
       end.

(** 32 and 64 iterations empty a 32- and a 64-bit [cnt]. *)
Definition __mulsi3 (a b : Z) : outcome Z := mul_loop 32 32 (u32 a) b 0.
Definition __muldi3 (a b : Z) : outcome Z := mul_loop 64 64 (u64 a) b 0.

Lemma land_1_r z : Z.land z 1 = z mod 2.
Proof. change 1 with (Z.ones 1). by rewrite Z.land_ones. Qed.

Lemma shiftr_1_r z : Z.shiftr z 1 = z / 2.
Proof. by rewrite Z.shiftr_div_pow2. Qed.

Lemma shiftl_1_r z : Z.shiftl z 1 = 2 * z.
Proof. rewrite Z.shiftl_mul_pow2 by lia. lia. Qed.

Lemma mul_loop_correct w fuel cnt b res :
  0 < w -> 0 <= cnt < 2 ^ Z.of_nat fuel -> smod w res = res ->
  mul_loop w fuel cnt b res = Ok (smod w (res + cnt * b)).
Proof.
  intros Hw. revert cnt b res. induction fuel as [|fuel IH]; intros cnt b res Hc Hr; simpl.
  - assert (cnt = 0) as -> by (simpl in Hc; lia). simpl. by rewrite Z.add_0_r, Hr.
  - case_match eqn:E; [assert (cnt = 0) as -> by lia; by rewrite Z.add_0_r, Hr|].
    rewrite shiftr_1_r, shiftl_1_r, land_1_r.
    rewrite Nat2Z.inj_succ, Z.pow_succ_r in Hc by lia.
    rewrite IH; [|Z.to_euclidean_division_equations; lia|by case_match; [|apply smod_smod; lia]].
    f_equal. rewrite <- smod_add_r, smod_mul_r, smod_add_r by lia.
    pose proof (Z.div_mod cnt 2 ltac:(lia)) as Hdm.
    case_match eqn:E2.
    + f_equal. assert (cnt mod 2 = 0) by lia. nia.
    + rewrite smod_add_l by lia. f_equal.
      assert (cnt mod 2 = 1) by (pose proof (Z.mod_pos_bound cnt 2); lia). nia.
Qed.

(** [__mulsi3] returns the product of its arguments wrapped to a 32-bit
    [long], within 32 iterations, whatever the signs. *)
Theorem mulsi3_correct (a b : Z) : __mulsi3 a b = Ok (s32 (a * b)).
Proof.
  unfold __mulsi3. rewrite mul_loop_correct; [|lia|apply (umod_range 32 a ltac:(lia))|done].
  f_equal. apply smod_cong; [lia|]. destruct (umod_decomp 32 a ltac:(lia)) as [k ->].
  exists (k * b). lia.
Qed.

Lemma muldi3_correct (a b : Z) : __muldi3 a b = Ok (s64 (a * b)).
Proof.
  unfold __muldi3. rewrite mul_loop_correct; [|lia|apply (umod_range 64 a ltac:(lia))|done].
  f_equal. apply smod_cong; [lia|]. destruct (umod_decomp 64 a ltac:(lia)) as [k ->].
  exists (k * b). lia.
Qed.

(** ** Division (udivmodsi4.c, divmod.c, udivmod.c) *)

(** [while (den < num && bit && !(den & (1L << 31))) { den <<= 1; bit <<= 1; }] *)
Fixpoint align_loop (fuel : nat) (num den bit : Z) : outcome (Z * Z) :=
  if (den <? num) && negb (bit =? 0) && (Z.land den (Z.shiftl 1 31) =? 0) then
    match fuel with
    | O => Err OutOfFuel
    | S fuel' => align_loop fuel' num (u32 (Z.shiftl den 1)) (u32 (Z.shiftl bit 1))
    end
  else Ok (den, bit).

(** [while (bit) { if (num >= den) { num -= den; res |= bit; } bit >>= 1; den >>= 1; }] *)
Fixpoint subtract_loop (fuel : nat) (num den bit res : Z) : outcome (Z * Z) :=
  if bit =? 0 then Ok (res, num)
  else match fuel with
       | O => Err OutOfFuel
       | S fuel' =>
           let '(num', res') :=
             if den <=? num then (u32 (num - den), Z.lor res bit) else (num, res) in
           subtract_loop fuel' num' (Z.shiftr den 1) (Z.shiftr bit 1) res'
       end.

Definition udivmodsi4 (num den : Z) (modwanted : bool) : outcome Z :=
  '(den', bit) ← align_loop 32 num den 1;
  '(res, num') ← subtract_loop 32 num den' bit 0;
  Ok (if modwanted then num' else res).

Definition __udivsi3 (a b : Z) : outcome Z := s32 <$> udivmodsi4 (u32 a) (u32 b) false.
Definition __umodsi3 (a b : Z) : outcome Z := s32 <$> udivmodsi4 (u32 a) (u32 b) true.

Definition __divsi3 (a b : Z) : outcome Z :=
  let '(a, neg) := if a <? 0 then (s32 (- a), true) else (a, false) in
  let '(b, neg) := if b <? 0 then (s32 (- b), negb neg) else (b, neg) in
  res ← udivmodsi4 (u32 a) (u32 b) false;
  Ok (if neg : bool then s32 (- s32 res) else s32 res).

Definition __modsi3 (a b : Z) : outcome Z :=
  let '(a, neg) := if a <? 0 then (s32 (- a), true) else (a, false) in
  let b := if b <? 0 then s32 (- b) else b in
  res ← udivmodsi4 (u32 a) (u32 b) true;
  Ok (if neg : bool then s32 (- s32 res) else s32 res).

Lemma land_bit31 den : is_u 32 den -> (Z.land den (Z.shiftl 1 31) =? 0) = (den <? 2 ^ 31).
Proof.
  intros [H0 H1]. rewrite Z.shiftl_1_l.
  assert (E : Z.land den (2 ^ 31) = if Z.testbit den 31 then 2 ^ 31 else 0).
  { apply Z.bits_inj'. intros n Hn. rewrite Z.land_spec, Z.pow2_bits_eqb by lia.
    destruct (Z.eqb_spec 31 n) as [<-|Hne].
    - destruct (Z.testbit den 31); [by rewrite Z.pow2_bits_true|by rewrite Z.bits_0].
    - rewrite andb_false_r. destruct (Z.testbit den 31); [by rewrite Z.pow2_bits_false|by rewrite Z.bits_0]. }
  rewrite E. assert (Ht : Z.testbit den 31 = (2 ^ 31 <=? den)).
  { rewrite Z.testbit_eqb by lia. Z.to_euclidean_division_equations. lia. }
  rewrite Ht. destruct (Z.leb_spec (2 ^ 31) den), (Z.ltb_spec den (2 ^ 31)); lia || done.
Qed.

Lemma pow2_lt_inv den k : 0 < den -> 0 <= k -> den * 2 ^ k < 2 ^ 32 -> k <= 31.
Proof.
  intros Hd Hk H. destruct (Z.le_gt_cases k 31) as [|Hgt]; [done|].
  pose proof (Z.pow_le_mono_r 2 32 k ltac:(lia) ltac:(lia)). nia.
Qed.

Lemma align_loop_correct fuel num den k :
  0 < den -> 0 <= k -> is_u 32 num -> den * 2 ^ k < 2 ^ 32 -> 31 - k <= Z.of_nat fuel ->
  exists k', align_loop fuel num (den * 2 ^ k) (2 ^ k) = Ok (den * 2 ^ k', 2 ^ k') /\
    0 <= k' <= 31 /\ num < den * 2 ^ (k' + 1).
Proof.
  revert k. induction fuel as [|fuel IH]; intros k Hd Hk Hn Hlt Hf; simpl;
    (pose proof (pow2_lt_inv _ _ Hd Hk Hlt); pose proof (pow2_pos k Hk));
    (assert (Hu : is_u 32 (den * 2 ^ k)) by (split; nia));
    rewrite (land_bit31 _ Hu), (proj2 (Z.eqb_neq (2 ^ k) 0)) by lia; simpl; rewrite andb_true_r.
  - assert (k = 31) as -> by lia. rewrite (proj2 (Z.ltb_ge (den * 2 ^ 31) (2 ^ 31))) by nia.
    rewrite andb_false_r. exists 31. unfold is_u in *. split_and!; [done|lia..|nia].
  - destruct (den * 2 ^ k <? num) eqn:E1, (den * 2 ^ k <? 2 ^ 31) eqn:E2; simpl;
      [|exists k; rewrite pow2_succ by lia; unfold is_u in *; split_and!; [done|lia..|nia]..].
    rewrite !shiftl_1_r. replace (2 * (den * 2 ^ k)) with (den * 2 ^ (k + 1)) by (rewrite pow2_succ by lia; lia).
    rewrite <- pow2_succ by lia.
    assert (den * 2 ^ (k + 1) < 2 ^ 32) by (rewrite pow2_succ by lia; lia).
    pose proof (pow2_pos (k + 1) ltac:(lia)).
    rewrite !umod_small by (unfold is_u; nia). apply IH; lia || done.
Qed.

Lemma lor_disjoint r k : 0 <= k -> Z.lor (r * 2 ^ (k + 1)) (2 ^ k) = r * 2 ^ (k + 1) + 2 ^ k.
Proof.
  intros Hk. rewrite <- Z.lxor_lor, <- Z.add_nocarry_lxor; [done|..];
    (apply Z.bits_inj'; intros n Hn; rewrite Z.land_spec, Z.bits_0, Z.pow2_bits_eqb by lia;
     destruct (Z.eqb_spec k n) as [<-|]; [|by rewrite andb_false_r];
     rewrite Z.mul_pow2_bits_low by lia; done).
Qed.

Lemma subtract_loop_correct k fuel num den r :
  0 < den -> 0 <= num < den * 2 ^ (Z.of_nat k + 1) -> num < 2 ^ 32 -> (k < fuel)%nat ->
  subtract_loop fuel num (den * 2 ^ Z.of_nat k) (2 ^ Z.of_nat k) (r * 2 ^ (Z.of_nat k + 1)) =
    Ok (r * 2 ^ (Z.of_nat k + 1) + num / den, num mod den).
Proof.
  revert fuel num r. induction k as [|k IH]; intros fuel num r Hd Hn Hb Hf;
    (destruct fuel as [|fuel]; [lia|]); cbn [subtract_loop];
    rewrite (proj2 (Z.eqb_neq _ 0)) by (apply Z.pow_nonzero; lia); rewrite !shiftr_1_r.
  - change (2 ^ (Z.of_nat 0 + 1)) with 2 in *. change (2 ^ Z.of_nat 0) with 1 in *.
    rewrite !Z.mul_1_r. pose proof (lor_disjoint r 0 ltac:(lia)) as Hl.
    change (2 ^ (0 + 1)) with 2 in Hl. change (2 ^ 0) with 1 in Hl.
    destruct (Z.leb_spec den num); change (1 / 2) with 0; destruct fuel; cbn [subtract_loop Z.eqb];
      rewrite ?Hl, ?umod_small by (unfold is_u; lia);
      first [ rewrite <- (Z.div_unique num den 1 (num - den)), <- (Z.mod_unique num den 1 (num - den)) by lia
            | rewrite Z.div_small, Z.mod_small by lia ]; f_equal; f_equal; lia.
  - rewrite Nat2Z.inj_succ in *. unfold Z.succ in *.
    pose proof (pow2_pos (Z.of_nat k) ltac:(lia)).
    rewrite (pow2_succ (Z.of_nat k)) by lia.
    replace (den * (2 * 2 ^ Z.of_nat k) / 2) with (den * 2 ^ Z.of_nat k) by (Z.to_euclidean_division_equations; lia).
    replace (2 * 2 ^ Z.of_nat k / 2) with (2 ^ Z.of_nat k) by (Z.to_euclidean_division_equations; lia).
    rewrite <- pow2_succ by lia.
    replace (2 ^ (Z.of_nat k + 1 + 1)) with (2 * 2 ^ (Z.of_nat k + 1)) in * by (rewrite (pow2_succ (Z.of_nat k + 1)); lia).
    destruct (Z.leb_spec (den * 2 ^ (Z.of_nat k + 1)) num).
    + rewrite (umod_small 32) by (unfold is_u; nia).
      pose proof (lor_disjoint r (Z.of_nat k + 1) ltac:(lia)) as Hl.
      rewrite (pow2_succ (Z.of_nat k + 1)) in Hl by lia. rewrite Hl.
      replace (r * (2 * 2 ^ (Z.of_nat k + 1)) + 2 ^ (Z.of_nat k + 1))
        with ((2 * r + 1) * 2 ^ (Z.of_nat k + 1)) by lia.
      rewrite IH by lia.
      replace (num - den * 2 ^ (Z.of_nat k + 1)) with (num + (- 2 ^ (Z.of_nat k + 1)) * den) by lia.
      rewrite Z.div_add, Z_mod_plus_full by lia. f_equal. f_equal. lia.
    + replace (r * (2 * 2 ^ (Z.of_nat k + 1))) with ((2 * r) * 2 ^ (Z.of_nat k + 1)) by lia.
      by rewrite IH by lia.
Qed.

Lemma udivmodsi4_pos num den (modwanted : bool) :
  is_u 32 num -> is_u 32 den -> 0 < den ->
  udivmodsi4 num den modwanted = Ok (if modwanted then num mod den else num / den).
Proof.
  intros Hn Hd Hpos. unfold udivmodsi4.
  destruct (align_loop_correct 32 num den 0) as (k & E & Hk & Hlt);
    [lia|lia|done|unfold is_u in Hd; lia|lia|].
  change (2 ^ 0) with 1 in E. rewrite Z.mul_1_r in E. rewrite E. unfold mbind, outcome_bind.
  pose proof (subtract_loop_correct (Z.to_nat k) 32 num den 0) as Hs.
  rewrite Z2Nat.id in Hs by lia. rewrite Z.mul_0_l in Hs.
  unfold is_u in Hn. rewrite Hs by lia. by rewrite Z.add_0_l.
Qed.

(** The divider.  For every 32-bit numerator and denominator the two loops
    end within their 32 iterations with the quotient and the remainder; a zero
    denominator gives quotient 0 and remainder [num] (1 and 0 for 0/0), and
    never hangs. *)
Theorem udivmodsi4_correct num den (modwanted : bool) :
  is_u 32 num -> is_u 32 den ->
  udivmodsi4 num den modwanted =
    Ok (if decide (den = 0) then
          if decide (num = 0) then (if modwanted then 0 else 1)
          else (if modwanted then num else 0)
        else if modwanted then num mod den else num / den).
Proof.
  intros Hn Hd. destruct (decide (den = 0)) as [->|Hne].
  - destruct (decide (num = 0)) as [->|Hnz]; [destruct modwanted; vm_compute; reflexivity|].
    destruct num as [|p|p]; [done| |unfold is_u in Hn; lia].
    destruct modwanted; vm_compute; reflexivity.
  - apply udivmodsi4_pos; [done..|unfold is_u in Hd; lia].
Qed.

(** Negating a negative 32-bit integer gives its magnitude as an unsigned one,
    also for the least integer. *)
Lemma magnitude a : is_s 32 a -> u32 (if a <? 0 then s32 (- a) else a) = Z.abs a.
Proof.
  intros [H1 H2]. change (2 ^ (32 - 1)) with (2 ^ 31) in *.
  destruct (Z.ltb_spec a 0).
  - rewrite umod_smod by lia. rewrite umod_small; [lia|unfold is_u; lia].
  - rewrite umod_small; [lia|unfold is_u; lia].
Qed.

Lemma abs_u32 a : is_s 32 a -> is_u 32 (Z.abs a).
Proof. unfold is_s, is_u. change (2 ^ (32 - 1)) with (2 ^ 31). lia. Qed.

Lemma quot_signs a b : b <> 0 ->
  a ÷ b = (if xorb (a <? 0) (b <? 0) then - (Z.abs a / Z.abs b) else Z.abs a / Z.abs b).
Proof.
  intros Hb. rewrite <- Z.quot_div_nonneg by lia.
  destruct (Z.ltb_spec a 0), (Z.ltb_spec b 0); simpl;
    rewrite ?(Z.abs_neq a), ?(Z.abs_neq b), ?(Z.abs_eq a), ?(Z.abs_eq b) by lia.
  - by rewrite Z.quot_opp_opp.
  - rewrite Z.quot_opp_l by lia. lia.
  - rewrite Z.quot_opp_r by lia. lia.
  - done.
Qed.

Lemma rem_signs a b : b <> 0 ->
  Z.rem a b = (if a <? 0 then - (Z.abs a mod Z.abs b) else Z.abs a mod Z.abs b).
Proof.
  intros Hb. rewrite <- Z.rem_mod_nonneg by lia. rewrite Z.rem_abs_r by done.
  destruct (Z.ltb_spec a 0); rewrite ?(Z.abs_neq a), ?(Z.abs_eq a) by lia; [|done].
  rewrite Z.rem_opp_l by done. lia.
Qed.

(** Signed division truncates towards zero as C requires, for every
    non-zero divisor; the one overflowing case, the least integer divided by
    -1, wraps to the least integer. *)
Theorem divsi3_correct a b :
  is_s 32 a -> is_s 32 b -> b <> 0 -> __divsi3 a b = Ok (s32 (a ÷ b)).
Proof.
  intros Ha Hb Hnz. unfold __divsi3.
  pose proof (magnitude a Ha) as Ma. pose proof (magnitude b Hb) as Mb.
  pose proof (udivmodsi4_pos (Z.abs a) (Z.abs b) false (abs_u32 _ Ha) (abs_u32 _ Hb) ltac:(lia)) as E.
  rewrite (quot_signs a b Hnz).
  destruct (a <? 0), (b <? 0); cbn [negb xorb] in *; rewrite Ma, Mb, E;
    unfold mbind, outcome_bind; f_equal; apply smod_cong; try lia; destruct (smod_decomp 32 (Z.abs a / Z.abs b) ltac:(lia)) as [k ->];
    first [by exists (- k); lia | by exists 0; lia].
Qed.

(** The signed remainder has the sign of the dividend, as C requires. *)
Theorem modsi3_correct a b :
  is_s 32 a -> is_s 32 b -> b <> 0 -> __modsi3 a b = Ok (Z.rem a b).
Proof.
  intros Ha Hb Hnz. unfold __modsi3.
  pose proof (magnitude a Ha) as Ma. pose proof (magnitude b Hb) as Mb.
  pose proof (udivmodsi4_pos (Z.abs a) (Z.abs b) true (abs_u32 _ Ha) (abs_u32 _ Hb) ltac:(lia)) as E.
  rewrite (rem_signs a b Hnz).
  assert (Hm : is_s 32 (Z.abs a mod Z.abs b)).
  { pose proof (Z.mod_pos_bound (Z.abs a) (Z.abs b) ltac:(lia)). unfold is_s in *.
    change (2 ^ (32 - 1)) with (2 ^ 31) in *. lia. }
  destruct (a <? 0); rewrite Ma, Mb, E; unfold mbind, outcome_bind; f_equal;
    rewrite (smod_small 32 (_ mod _)) by (lia || done); [|done].
  apply smod_small; [lia|]. pose proof (Z.mod_pos_bound (Z.abs a) (Z.abs b) ltac:(lia)).
  unfold is_s in *. lia.
Qed.

(** ** hash.c and rand.c *)

Definition GOLDEN_RATIO_PRIME_32 : Z := 0x9e370001.

(** Shifting a 32-bit value by 32 or more is undefined in C. *)
Definition hash32 (val bits : Z) : outcome Z :=
  let hash := u32 (val * GOLDEN_RATIO_PRIME_32) in
  let sh := u32 (32 - bits) in
  if sh <? 32 then Ok (Z.shiftr hash sh) else Err Undefined.

(** For 1 to 32 bits, [hash32] yields an index below [2^bits], the size of
    the hash tables it indexes (process table, sfs inode cache). *)
Theorem hash32_range val bits :
  1 <= bits <= 32 -> exists r, hash32 val bits = Ok r /\ 0 <= r < 2 ^ bits.
Proof.
  intros Hb. unfold hash32. rewrite (umod_small 32 (32 - bits)) by (unfold is_u; lia).
  rewrite (proj2 (Z.ltb_lt (32 - bits) 32)) by lia. eexists; split; [done|].
  rewrite Z.shiftr_div_pow2 by lia.
  pose proof (umod_range 32 (val * GOLDEN_RATIO_PRIME_32) ltac:(lia)) as [H0 H1].
  pose proof (pow2_pos (32 - bits) ltac:(lia)).
  split; [by apply Z.div_pos|]. apply Z.div_lt_upper_bound; [done|].
  rewrite <- Z.pow_add_r by lia. by replace (32 - bits + bits) with 32 by lia.
Qed.

Definition RAND_MAX : Z := 2147483647.

(** One call of [rand] from the generator state [next]: the number returned and
    the new state.  [do_div] truncates its 64-bit operand to [unsigned long]. *)
Definition rand (next : Z) : Z * Z :=
  let next' := Z.land (u64 (u64 (next * 0x5DEECE66D) + 0xB)) (Z.shiftl 1 48 - 1) in
  let result := Z.shiftr next' 12 in
  (s32 (u32 result `mod` u32 (RAND_MAX + 1)), next').

Definition srand (seed : Z) : Z := u32 seed.

Lemma rand_range next : 0 <= fst (rand next) <= RAND_MAX.
Proof.
  unfold rand, RAND_MAX. cbn [fst]. change (u32 (2147483647 + 1)) with 2147483648.
  match goal with |- context [?x `mod` 2147483648] => pose proof (Z.mod_pos_bound x 2147483648 ltac:(lia)) end.
  rewrite smod_small by (unfold is_s; lia). lia.
Qed.

(** ** Concrete runs *)

Lemma udivmodsi4_correct_witness :
  udivmodsi4 1000003 7 false = Ok 142857 /\ udivmodsi4 5 0 true = Ok 5.
Proof.
  split.
  - exact (udivmodsi4_correct 1000003 7 false ltac:(unfold is_u; lia) ltac:(unfold is_u; lia)).
  - exact (udivmodsi4_correct 5 0 true ltac:(unfold is_u; lia) ltac:(unfold is_u; lia)).
Defined.

Lemma divsi3_correct_witness : __divsi3 (-2147483648) (-1) = Ok (-2147483648) /\ __divsi3 (-7) 2 = Ok (-3).
Proof.
  split.
  - exact (divsi3_correct (-2147483648) (-1) ltac:(unfold is_s; lia) ltac:(unfold is_s; lia) ltac:(lia)).
  - exact (divsi3_correct (-7) 2 ltac:(unfold is_s; lia) ltac:(unfold is_s; lia) ltac:(lia)).
Defined.

Lemma modsi3_correct_witness : __modsi3 (-7) 2 = Ok (-1).
Proof. exact (modsi3_correct (-7) 2 ltac:(unfold is_s; lia) ltac:(unfold is_s; lia) ltac:(lia)). Defined.

Lemma hash32_range_witness : exists r, hash32 4242 10 = Ok r /\ 0 <= r < 2 ^ 10.
Proof. exact (hash32_range 4242 10 ltac:(lia)). Defined.
