(* ===== verification/Strings.v ===== *)
(** * Strings: libs/string.c over a byte memory

    A memory maps addresses to bytes (0..255; plain [char] is unsigned on
    RISC-V); a load or store of an unmapped address faults.  Each routine is
    translated statement by statement; a loop that runs until a NUL byte has a
    fuel argument, and the theorems give the fuel that is enough.  [bytes_at]
    and [cstr] describe arrays and NUL-terminated strings in memory. *)

From stdpp Require Import numbers gmap list.
From S2P Require Import Prelude.
Local Open Scope Z_scope.

Abbreviation mem := (gmap Z Z).

Definition rb (p : Z) : M mem Z := load (fun m => m !! p).
Definition wb (p v : Z) : M mem unit := fun m =>
  match m !! p with
  | Some _ => Ok (tt, <[p := v]> m)
  | None => Err BadAccess
  end.

(** ** Length *)

Fixpoint strlen_loop (fuel : nat) (s cnt : Z) : M mem Z :=
  match fuel with
  | O => fail OutOfFuel
  | S fuel' =>
      c ← rb s;
      if c =? 0 then mret cnt else strlen_loop fuel' (s + 1) (u32 (cnt + 1))
  end.
Definition strlen (fuel : nat) (s : Z) : M mem Z := strlen_loop fuel s 0.

(** [while (cnt < len && *s++ != '\0') cnt++]; [n] is [len - cnt]. *)
Fixpoint strnlen_loop (n : nat) (s cnt : Z) : M mem Z :=
  match n with
  | O => mret cnt
  | S n' =>
      c ← rb s;
      if c =? 0 then mret cnt else strnlen_loop n' (s + 1) (cnt + 1)
  end.
Definition strnlen (s len : Z) : M mem Z := strnlen_loop (Z.to_nat len) s 0.

(** ** Copying *)

Fixpoint strcpy_loop (fuel : nat) (p src : Z) : M mem unit :=
  match fuel with
  | O => fail OutOfFuel
  | S fuel' =>
      c ← rb src; _ ← wb p c;
      if c =? 0 then mret tt else strcpy_loop fuel' (p + 1) (src + 1)
  end.
Definition strcpy (fuel : nat) (dst src : Z) : M mem Z :=
  _ ← strcpy_loop fuel dst src; mret dst.

Fixpoint strncpy_loop (len : nat) (p src : Z) : M mem unit :=
  match len with
  | O => mret tt
  | S len' =>
      c ← rb src; _ ← wb p c;
      strncpy_loop len' (p + 1) (if c =? 0 then src else src + 1)
  end.
Definition strncpy (dst src len : Z) : M mem Z :=
  _ ← strncpy_loop (Z.to_nat len) dst src; mret dst.

Definition strcat (fuel : nat) (dst src : Z) : M mem Z :=
  n ← strlen fuel dst; strcpy fuel (dst + n) src.

(** ** Comparing and searching *)

Fixpoint strcmp (fuel : nat) (s1 s2 : Z) : M mem Z :=
  match fuel with
  | O => fail OutOfFuel
  | S fuel' =>
      c1 ← rb s1;
      if c1 =? 0 then c2 ← rb s2; mret (c1 - c2)
      else c2 ← rb s2;
           if c1 =? c2 then strcmp fuel' (s1 + 1) (s2 + 1) else mret (c1 - c2)
  end.

Fixpoint strncmp_loop (n : nat) (s1 s2 : Z) : M mem Z :=
  match n with
  | O => mret 0
  | S n' =>
      c1 ← rb s1;
      if c1 =? 0 then c2 ← rb s2; mret (c1 - c2)
      else c2 ← rb s2;
           if c1 =? c2 then strncmp_loop n' (s1 + 1) (s2 + 1) else mret (c1 - c2)
  end.
Definition strncmp (s1 s2 n : Z) : M mem Z := strncmp_loop (Z.to_nat n) s1 s2.

(** A [char *] result: [None] is [NULL]. *)
Fixpoint strchr (fuel : nat) (s c : Z) : M mem (option Z) :=
  match fuel with
  | O => fail OutOfFuel
  | S fuel' =>
      x ← rb s;
      if x =? 0 then mret None
      else if x =? c then mret (Some s) else strchr fuel' (s + 1) c
  end.

Fixpoint strfind (fuel : nat) (s c : Z) : M mem Z :=
  match fuel with
  | O => fail OutOfFuel
  | S fuel' =>
      x ← rb s;
      if x =? 0 then mret s
      else if x =? c then mret s else strfind fuel' (s + 1) c
  end.

(** ['Z'] is 90; subtracting 32 is meant to fold lower case. *)
Definition fold_case (c : Z) : Z := if 90 <? c then u8 (c - 32) else c.

Fixpoint stricmp (fuel : nat) (s1 s2 : Z) : M mem Z :=
  match fuel with
  | O => fail OutOfFuel
  | S fuel' =>
      c1 ← rb s1; c2 ← rb s2;
      if negb (c1 =? 0) && (fold_case c1 =? fold_case c2)
      then stricmp fuel' (s1 + 1) (s2 + 1)
      else mret (fold_case c1 - fold_case c2)
  end.

(** ** Memory blocks *)

Fixpoint memset_loop (n : nat) (p c : Z) : M mem unit :=
  match n with
  | O => mret tt
  | S n' => _ ← wb p c; memset_loop n' (p + 1) c
  end.
Definition memset (s c n : Z) : M mem Z := _ ← memset_loop (Z.to_nat n) s c; mret s.

(** [while (n-- > 0) *d++ = *s++] *)
Fixpoint copy_up (n : nat) (d s : Z) : M mem unit :=
  match n with
  | O => mret tt
  | S n' => c ← rb s; _ ← wb d c; copy_up n' (d + 1) (s + 1)
  end.

(** [while (n-- > 0) *--d = *--s] *)
Fixpoint copy_down (n : nat) (d s : Z) : M mem unit :=
  match n with
  | O => mret tt
  | S n' => c ← rb (s - 1); _ ← wb (d - 1) c; copy_down n' (d - 1) (s - 1)
  end.

Definition memmove (dst src n : Z) : M mem Z :=
  _ ← (if (src <? dst) && (dst <? src + n)
       then copy_down (Z.to_nat n) (dst + n) (src + n)
       else copy_up (Z.to_nat n) dst src);
  mret dst.

Definition memcpy (dst src n : Z) : M mem Z := _ ← copy_up (Z.to_nat n) dst src; mret dst.

Fixpoint memcmp_loop (n : nat) (s1 s2 : Z) : M mem Z :=
  match n with
  | O => mret 0
  | S n' =>
      c1 ← rb s1; c2 ← rb s2;
      if c1 =? c2 then memcmp_loop n' (s1 + 1) (s2 + 1) else mret (c1 - c2)
  end.
Definition memcmp (v1 v2 n : Z) : M mem Z := memcmp_loop (Z.to_nat n) v1 v2.

(** ** Number parsing *)

Fixpoint skip_blanks (fuel : nat) (s : Z) : M mem Z :=
  match fuel with
  | O => fail OutOfFuel
  | S fuel' =>
      c ← rb s;
      if (c =? 32) || (c =? 9) then skip_blanks fuel' (s + 1) else mret s
  end.

(** The digit a character stands for; [None] ends the number. *)
Definition digit_of (c : Z) : option Z :=
  if (48 <=? c) && (c <=? 57) then Some (c - 48)
  else if (97 <=? c) && (c <=? 122) then Some (c - 97 + 10)
  else if (65 <=? c) && (c <=? 90) then Some (c - 65 + 10)
  else None.

(** [val = (val * base) + dig] on a [long] of 32 bits.  C leaves its overflow open;
    here it is the wrap-around of the machine's [mul] and [add], on which reading the
    least number back relies: its magnitude is first accumulated, then negated. *)
Fixpoint digits_loop (fuel : nat) (s base val : Z) : M mem (Z * Z) :=
  match fuel with
  | O => fail OutOfFuel
  | S fuel' =>
      c ← rb s;
      match digit_of c with
      | Some dig =>
          if base <=? dig then mret (val, s)
          else digits_loop fuel' (s + 1) base (s32 (s32 (val * base) + dig))
      | None => mret (val, s)
      end
  end.

(** Returns the value and the pointer stored through [endptr]. *)
Definition strtol (fuel : nat) (s base : Z) : M mem (Z * Z) :=
  s ← skip_blanks fuel s;
  c ← rb s;
  let '(s, neg) :=
    if c =? 43 then (s + 1, false) else if c =? 45 then (s + 1, true) else (s, false) in
  c0 ← rb s;
  hex ← (if ((base =? 0) || (base =? 16)) && (c0 =? 48)
         then c1 ← rb (s + 1); mret (c1 =? 120) else mret false);
  let '(s, base) :=
    if hex : bool then (s + 2, 16)
    else if (base =? 0) && (c0 =? 48) then (s + 1, 8)
    else if base =? 0 then (s, 10) else (s, base) in
  '(val, s) ← digits_loop fuel s base 0;
  mret (if neg : bool then s32 (- val) else val, s).

(** ** Arrays and strings in memory *)

Definition bytes_at (m : mem) (p : Z) (l : list Z) : Prop :=
  forall (i : nat) x, l !! i = Some x -> m !! (p + Z.of_nat i) = Some x.

Definition mapped (m : mem) (p n : Z) : Prop := forall q, p <= q < p + n -> is_Some (m !! q).

(** [m'] differs from [m] only in [[p, p + n)]. *)
Definition same_outside (m m' : mem) (p n : Z) : Prop :=
  forall q, ~ (p <= q < p + n) -> m' !! q = m !! q.

(** A NUL-terminated string of non-NUL characters. *)
Definition cstr (m : mem) (p : Z) (s : list Z) : Prop :=
  bytes_at m p (s ++ [0]) /\ Forall (fun c => 0 < c) s.

Lemma bytes_at_cons m p x l : bytes_at m p (x :: l) <-> m !! p = Some x /\ bytes_at m (p + 1) l.
Proof.
  unfold bytes_at. split.
  - intros H. split; [specialize (H 0%nat x eq_refl); by rewrite Z.add_0_r in H|].
    intros i y Hy. specialize (H (S i) y Hy). by replace (p + 1 + Z.of_nat i) with (p + Z.of_nat (S i)) by lia.
  - intros [Hx Hl] [|i] y Hy; simpl in *; [simplify_eq; by rewrite Z.add_0_r|].
    replace (p + Z.of_nat (S i)) with (p + 1 + Z.of_nat i) by lia. eauto.
Qed.

Lemma bytes_at_nil m p : bytes_at m p [].
Proof. by intros i x ?. Qed.

Lemma bytes_at_app m p l1 l2 :
  bytes_at m p (l1 ++ l2) <-> bytes_at m p l1 /\ bytes_at m (p + Z.of_nat (length l1)) l2.
Proof.
  revert p. induction l1 as [|x l1 IH]; intros p; simpl.
  - rewrite Z.add_0_r. split; [by split; [apply bytes_at_nil|]|tauto].
  - rewrite !bytes_at_cons, IH. replace (p + 1 + Z.of_nat (length l1)) with (p + Z.of_nat (S (length l1))) by lia.
    tauto.
Qed.

(** A change outside an array leaves the array. *)
Lemma bytes_at_outside m m' p l q n :
  bytes_at m p l -> same_outside m m' q n ->
  p + Z.of_nat (length l) <= q \/ q + n <= p -> bytes_at m' p l.
Proof.
  intros H Hs Hd i x Hi. rewrite Hs; [by apply H|]. apply lookup_lt_Some in Hi. lia.
Qed.

Lemma wb_spec m p v :
  is_Some (m !! p) ->
  exists m', wb p v m = Ok (tt, m') /\ m' !! p = Some v /\ same_outside m m' p 1 /\
    (forall q n, mapped m q n -> mapped m' q n).
Proof.
  intros [x Hx]. unfold wb. rewrite Hx. eexists; split_and!; [done|by rewrite lookup_insert_eq|..].
  - intros q Hq. rewrite lookup_insert_ne; [done|lia].
  - intros q n Hm r Hr. destruct (decide (p = r)) as [->|]; [by rewrite lookup_insert_eq|].
    rewrite lookup_insert_ne by done. by apply Hm.
Qed.

Lemma rb_spec m p x : m !! p = Some x -> rb p m = Ok (x, m).
Proof. intros H. unfold rb, load. by rewrite H. Qed.

Ltac rd H := rewrite (bind_step _ _ _ _ _ (rb_spec _ _ _ H)).

Lemma copy_up_spec l d s m :
  bytes_at m s l -> mapped m d (Z.of_nat (length l)) ->
  d <= s \/ s + Z.of_nat (length l) <= d ->
  exists m', copy_up (length l) d s m = Ok (tt, m') /\ bytes_at m' d l /\
    same_outside m m' d (Z.of_nat (length l)).
Proof.
  revert d s m. induction l as [|x l IH]; intros d s m Hs Hm Ho; cbn [length copy_up] in *.
  - exists m. split_and!; [done|apply bytes_at_nil|done].
  - apply bytes_at_cons in Hs as [Hx Hs]. rd Hx.
    destruct (wb_spec m d x) as (m1 & E1 & H1 & O1 & M1); [apply Hm; lia|].
    rewrite (bind_step _ _ _ _ _ E1).
    destruct (IH (d + 1) (s + 1) m1) as (m2 & E2 & B2 & O2).
    { eapply bytes_at_outside; [done..|lia]. }
    { apply M1. intros q Hq. apply Hm. lia. }
    { lia. }
    exists m2. split_and!; [done| |].
    + apply bytes_at_cons. split; [rewrite O2 by lia; done|done].
    + intros q Hq. rewrite O2, O1 by lia. done.
Qed.

Lemma copy_down_spec l d s m :
  bytes_at m s l -> mapped m d (Z.of_nat (length l)) -> s <= d ->
  exists m', copy_down (length l) (d + Z.of_nat (length l)) (s + Z.of_nat (length l)) m = Ok (tt, m') /\
    bytes_at m' d l /\ same_outside m m' d (Z.of_nat (length l)).
Proof.
  revert m. induction l as [|x l IH] using rev_ind; intros m Hs Hm Ho.
  - exists m. split_and!; [done|apply bytes_at_nil|done].
  - rewrite length_app in *. cbn [length] in *. rewrite Nat.add_1_r in *. cbn [copy_down].
    apply bytes_at_app in Hs as [Hs Hx]. apply bytes_at_cons in Hx as [Hx _].
    replace (s + Z.of_nat (S (length l)) - 1) with (s + Z.of_nat (length l)) by lia.
    replace (d + Z.of_nat (S (length l)) - 1) with (d + Z.of_nat (length l)) by lia. rd Hx.
    destruct (wb_spec m (d + Z.of_nat (length l)) x) as (m1 & E1 & H1 & O1 & M1); [apply Hm; lia|].
    rewrite (bind_step _ _ _ _ _ E1).
    destruct (IH m1) as (m2 & E2 & B2 & O2).
    { eapply bytes_at_outside; [done..|lia]. }
    { apply M1. intros q Hq. apply Hm. lia. }
    { lia. }
    exists m2. split_and!; [done| |].
    + apply bytes_at_app. split; [done|]. apply bytes_at_cons.
      split; [rewrite O2 by lia; done|apply bytes_at_nil].
    + intros q Hq. rewrite O2, O1 by lia. done.
Qed.

(** [memmove] copies the old contents of the source even when the two
    blocks overlap in either direction, and changes nothing else. *)
Theorem memmove_correct m dst src l :
  bytes_at m src l -> mapped m dst (Z.of_nat (length l)) ->
  exists m', memmove dst src (Z.of_nat (length l)) m = Ok (dst, m') /\
    bytes_at m' dst l /\ same_outside m m' dst (Z.of_nat (length l)).
Proof.
  intros Hs Hm. unfold memmove. rewrite Nat2Z.id.
  destruct (Z.ltb_spec src dst); [destruct (Z.ltb_spec dst (src + Z.of_nat (length l)))|];
    cbn [andb].
  - destruct (copy_down_spec l dst src m) as (m' & E & ?); [done..|lia|].
    exists m'. by rewrite (bind_step _ _ _ _ _ E).
  - destruct (copy_up_spec l dst src m) as (m' & E & ?); [done..|lia|].
    exists m'. by rewrite (bind_step _ _ _ _ _ E).
  - destruct (copy_up_spec l dst src m) as (m' & E & ?); [done..|lia|].
    exists m'. by rewrite (bind_step _ _ _ _ _ E).
Qed.

Lemma memcpy_spec m dst src l :
  bytes_at m src l -> mapped m dst (Z.of_nat (length l)) ->
  dst <= src \/ src + Z.of_nat (length l) <= dst ->
  exists m', memcpy dst src (Z.of_nat (length l)) m = Ok (dst, m') /\
    bytes_at m' dst l /\ same_outside m m' dst (Z.of_nat (length l)).
Proof.
  intros Hs Hm Ho. unfold memcpy. rewrite Nat2Z.id.
  destruct (copy_up_spec l dst src m) as (m' & E & ?); [done..|].
  exists m'. by rewrite (bind_step _ _ _ _ _ E).
Qed.

Lemma memset_spec m p c n :
  mapped m p (Z.of_nat n) ->
  exists m', memset p c (Z.of_nat n) m = Ok (p, m') /\ bytes_at m' p (replicate n c) /\
    same_outside m m' p (Z.of_nat n).
Proof.
  unfold memset. rewrite Nat2Z.id. intros Hm.
  assert (exists m', memset_loop n p c m = Ok (tt, m') /\ bytes_at m' p (replicate n c) /\
    same_outside m m' p (Z.of_nat n)) as (m' & E & ?).
  { revert p m Hm. induction n as [|n IH]; intros p m Hm; cbn [memset_loop replicate].
    - exists m. split_and!; [done|apply bytes_at_nil|done].
    - destruct (wb_spec m p c) as (m1 & E1 & H1 & O1 & M1); [apply Hm; lia|].
      rewrite (bind_step _ _ _ _ _ E1).
      destruct (IH (p + 1) m1) as (m2 & E2 & B2 & O2); [apply M1; intros q Hq; apply Hm; lia|].
      exists m2. split_and!; [done| |].
      + apply bytes_at_cons. split; [rewrite O2 by lia; done|done].
      + intros q Hq. rewrite O2, O1 by lia. done. }
  exists m'. by rewrite (bind_step _ _ _ _ _ E).
Qed.

(** ** NUL-terminated strings *)

Lemma cstr_cons m p c s : cstr m p (c :: s) <-> m !! p = Some c /\ 0 < c /\ cstr m (p + 1) s.
Proof. unfold cstr. simpl. rewrite bytes_at_cons, Forall_cons. tauto. Qed.

Lemma cstr_nil m p : cstr m p [] <-> m !! p = Some 0.
Proof.
  unfold cstr. simpl. rewrite bytes_at_cons. split; [tauto|]. intros. split_and!; [done|apply bytes_at_nil|constructor].
Qed.

Lemma strlen_spec fuel m p s :
  cstr m p s -> (length s < fuel)%nat -> is_u 32 (Z.of_nat (length s)) ->
  strlen fuel p m = Ok (Z.of_nat (length s), m).
Proof.
  unfold strlen. intros Hs Hf Hu.
  enough (forall cnt, is_u 32 (cnt + Z.of_nat (length s)) -> 0 <= cnt ->
    strlen_loop fuel p cnt m = Ok (cnt + Z.of_nat (length s), m)) as H by (by rewrite H).
  clear Hu. revert p fuel Hs Hf. induction s as [|c s IH]; intros p [|fuel] Hs Hf cnt Hu Hc;
    cbn [length strlen_loop] in *; try lia.
  - rewrite cstr_nil in Hs. rd Hs. simpl. by rewrite Z.add_0_r.
  - rewrite cstr_cons in Hs. destruct Hs as (Hx & Hpos & Hs). rd Hx.
    rewrite (proj2 (Z.eqb_neq c 0)) by lia. rewrite (umod_small 32 (cnt + 1)) by (unfold is_u in *; lia).
    rewrite IH; [f_equal; f_equal; lia|done|lia|unfold is_u in *; lia|lia].
Qed.

(** Lexicographic order of character sequences, the shorter string first. *)
Fixpoint lex_lt (s1 s2 : list Z) : Prop :=
  match s1, s2 with
  | _, [] => False
  | [], _ :: _ => True
  | a :: s1', b :: s2' => a < b \/ (a = b /\ lex_lt s1' s2')
  end.

(** [strcmp] terminates on every pair of strings, with 0 exactly on equal
    strings and a negative value exactly when the first precedes the second in
    the lexicographic order of unsigned characters. *)
Theorem strcmp_correct fuel m p1 p2 s1 s2 :
  cstr m p1 s1 -> cstr m p2 s2 -> (length s1 < fuel)%nat ->
  exists r, strcmp fuel p1 p2 m = Ok (r, m) /\ (r = 0 <-> s1 = s2) /\ (r < 0 <-> lex_lt s1 s2).
Proof.
  revert p1 p2 s2 fuel. induction s1 as [|a s1 IH]; intros p1 p2 s2 [|fuel] H1 H2 Hf;
    cbn [length strcmp] in *; try lia.
  - rewrite cstr_nil in H1. rd H1. simpl. destruct s2 as [|b s2].
    + rewrite cstr_nil in H2. rd H2. exists 0. naive_solver lia.
    + rewrite cstr_cons in H2. destruct H2 as (Hb & ? & _). rd Hb.
      exists (0 - b). split_and!; [done|split; [lia|done]|simpl; split; [done|lia]].
  - rewrite cstr_cons in H1. destruct H1 as (Ha & Hpos & H1). rd Ha.
    rewrite (proj2 (Z.eqb_neq a 0)) by lia. destruct s2 as [|b s2].
    + rewrite cstr_nil in H2. rd H2. rewrite (proj2 (Z.eqb_neq a 0)) by lia.
      exists (a - 0). split_and!; [done|split; [lia|done]|simpl; split; [lia|done]].
    + rewrite cstr_cons in H2. destruct H2 as (Hb & ? & H2). rd Hb.
      destruct (Z.eqb_spec a b) as [->|Hne].
      * destruct (IH (p1 + 1) (p2 + 1) s2 fuel H1 H2 ltac:(lia)) as (r & -> & E0 & El).
        exists r. split_and!; [done|rewrite E0; naive_solver|rewrite El; simpl; naive_solver lia].
      * exists (a - b). split_and!; [done|split; [lia|naive_solver]|simpl; split; [lia|naive_solver lia]].
Qed.

(** [strncpy] writes exactly [len] bytes: the string's first [len]
    characters, padded with NUL when the string is shorter (so the result has
    no terminator when the string has [len] characters or more). *)
Theorem strncpy_correct m dst src s len :
  cstr m src s -> mapped m dst (Z.of_nat len) ->
  src + Z.of_nat (length s) < dst \/ dst + Z.of_nat len <= src ->
  exists m', strncpy dst src (Z.of_nat len) m = Ok (dst, m') /\
    bytes_at m' dst (take len s ++ replicate (len - length s) 0) /\
    same_outside m m' dst (Z.of_nat len).
Proof.
  intros Hs Hm Hd. unfold strncpy. rewrite Nat2Z.id.
  enough (exists m', strncpy_loop len dst src m = Ok (tt, m') /\
    bytes_at m' dst (take len s ++ replicate (len - length s) 0) /\
    same_outside m m' dst (Z.of_nat len)) as (m' & E & ?).
  { exists m'. by rewrite (bind_step _ _ _ _ _ E). }
  revert dst src s m Hs Hm Hd. induction len as [|len IH]; intros dst src s m Hs Hm Hd; cbn [strncpy_loop].
  { exists m. rewrite take_0. split_and!; [done|apply bytes_at_nil|done]. }
  assert (Hstep : forall c s', m !! src = Some c -> cstr m (if c =? 0 then src else src + 1) s' ->
    (if c =? 0 then src else src + 1) + Z.of_nat (length s') <= src + Z.of_nat (length s) ->
    exists m', (c ← rb src; _ ← wb dst c; strncpy_loop len (dst + 1) (if c =? 0 then src else src + 1)) m
      = Ok (tt, m') /\ bytes_at m' dst (c :: take len s' ++ replicate (len - length s') 0) /\
      same_outside m m' dst (Z.of_nat (S len))).
  { intros c s' Hc Hs' Hle. rd Hc.
    destruct (wb_spec m dst c) as (m1 & E1 & H1 & O1 & M1); [apply Hm; lia|].
    rewrite (bind_step _ _ _ _ _ E1).
    destruct (IH (dst + 1) (if c =? 0 then src else src + 1) s' m1) as (m2 & E2 & B2 & O2).
    - destruct Hs' as [Hb Hp]. split; [|done]. eapply bytes_at_outside; [done..|].
      rewrite length_app. simpl. destruct (c =? 0); lia.
    - apply M1. intros q Hq. apply Hm. lia.
    - destruct (c =? 0); lia.
    - exists m2. split_and!; [done| |intros q Hq; rewrite O2, O1 by lia; done].
      apply bytes_at_cons. split; [rewrite O2 by lia; done|done]. }
  destruct s as [|c s].
  - destruct (Hstep 0 []) as (m' & E & B & O); [by apply cstr_nil in Hs|simpl; done|simpl; lia|].
    exists m'. split_and!; [done| |done]. rewrite take_nil in *. simpl in *. by rewrite Nat.sub_0_r in B.
  - pose proof Hs as Hs0. rewrite cstr_cons in Hs. destruct Hs as (Hx & Hpos & Hs).
    destruct (Hstep c s) as (m' & E & B & O); [done|by rewrite (proj2 (Z.eqb_neq c 0)) by lia|..|by exists m'].
    rewrite (proj2 (Z.eqb_neq c 0)) by lia. simpl. lia.
Qed.

(** ** strtol *)

(** The digit character of a digit value below 36. *)
Definition digit_char (d : Z) : Z := if d <? 10 then 48 + d else 97 + (d - 10).

Definition digits_value (base : Z) (ds : list Z) : Z :=
  fold_left (fun v d => v * base + d) ds 0.

Lemma digit_of_char d : 0 <= d < 36 -> digit_of (digit_char d) = Some d.
Proof.
  intros Hd. unfold digit_char, digit_of.
  destruct (Z.ltb_spec d 10).
  - rewrite (proj2 (Z.leb_le 48 (48 + d))), (proj2 (Z.leb_le (48 + d) 57)) by lia. simpl. f_equal. lia.
  - rewrite (proj2 (Z.leb_gt (97 + (d - 10)) 57)) by lia. rewrite andb_false_r.
    rewrite (proj2 (Z.leb_le 97 (97 + (d - 10)))), (proj2 (Z.leb_le (97 + (d - 10)) 122)) by lia. simpl. f_equal. lia.
Qed.

Lemma digit_char_range d : 0 <= d < 36 -> 48 <= digit_char d <= 57 \/ 97 <= digit_char d <= 122.
Proof. intros. unfold digit_char. destruct (Z.ltb_spec d 10); lia. Qed.

Lemma skip_blanks_spec fuel m p (bl : list Z) c :
  bytes_at m p (bl ++ [c]) -> Forall (fun x => x = 32 \/ x = 9) bl -> c <> 32 -> c <> 9 ->
  (length bl < fuel)%nat -> skip_blanks fuel p m = Ok (p + Z.of_nat (length bl), m).
Proof.
  revert p fuel. induction bl as [|x bl IH]; intros p [|fuel] Hb Hf H1 H2 Hl;
    cbn [length skip_blanks app] in *; try lia; apply bytes_at_cons in Hb as [Hx Hb]; rd Hx.
  - rewrite (proj2 (Z.eqb_neq c 32)), (proj2 (Z.eqb_neq c 9)) by done. simpl. by rewrite Z.add_0_r.
  - apply Forall_cons in Hf as [Hx' Hf].
    assert ((x =? 32) || (x =? 9) = true) as -> by (destruct Hx' as [-> | ->]; done).
    rewrite IH by (done || lia). f_equal. f_equal. lia.
Qed.

Lemma digits_loop_spec fuel m p ds c base v :
  2 <= base <= 36 -> Forall (fun d => 0 <= d < base) ds ->
  bytes_at m p (map digit_char ds ++ [c]) -> digit_of c = None -> (length ds < fuel)%nat ->
  digits_loop fuel p base (s32 v) m =
    Ok (s32 (fold_left (fun v d => v * base + d) ds v), p + Z.of_nat (length ds), m).
Proof.
  intros Hbase. revert p fuel v. induction ds as [|d ds IH]; intros p [|fuel] v Hd Hb Hc Hf;
    cbn [length digits_loop map app fold_left] in *; try lia; apply bytes_at_cons in Hb as [Hx Hb]; rd Hx.
  - rewrite Hc. by rewrite Z.add_0_r.
  - apply Forall_cons in Hd as [Hd Hds]. rewrite digit_of_char by lia.
    rewrite (proj2 (Z.leb_gt base d)) by lia.
    rewrite smod_add_l by lia. rewrite <- smod_add_l, smod_mul_l, smod_add_l by lia.
    rewrite IH by (done || lia). f_equal. f_equal. f_equal. lia.
Qed.

(** The optional sign. *)
Inductive sign_chars : list Z -> bool -> Prop :=
| sign_none : sign_chars [] false
| sign_plus : sign_chars [43] false
| sign_minus : sign_chars [45] true.

(** [strtol] in a fixed base (any of 2..36 except 16, which also accepts a
    prefix).  Leading blanks and one sign are skipped, every digit is consumed,
    the result is the number denoted by the digits wrapped to a 32-bit [long],
    and [endptr] is left on the first character after them. *)
Theorem strtol_correct fuel m p bl sg neg d ds c base :
  2 <= base <= 36 -> base <> 16 ->
  Forall (fun x => x = 32 \/ x = 9) bl -> sign_chars sg neg ->
  Forall (fun d => 0 <= d < base) (d :: ds) -> digit_of c = None ->
  bytes_at m p (bl ++ sg ++ map digit_char (d :: ds) ++ [c]) ->
  (length bl < fuel)%nat -> (length (d :: ds) < fuel)%nat ->
  strtol fuel p base m =
    Ok (s32 (if neg : bool then - digits_value base (d :: ds) else digits_value base (d :: ds)),
        p + Z.of_nat (length bl + length sg + length (d :: ds)), m).
Proof.
  intros Hb H16 Hbl Hsg Hds Hc Hm Hf1 Hf2. unfold strtol.
  set (p1 := p + Z.of_nat (length bl)). set (p2 := p1 + Z.of_nat (length sg)).
  assert (Hd : 0 <= d < 36) by (apply Forall_cons in Hds as [? _]; lia).
  pose proof (digit_char_range d Hd) as Hdc.
  rewrite !bytes_at_app in Hm. fold p1 p2 in Hm. destruct Hm as (Hm1 & Hm2 & Hm3 & Hm4).
  assert (Hfirst : exists x, m !! p1 = Some x /\ x <> 32 /\ x <> 9 /\
    (if x =? 43 then (p1 + 1, false) else if x =? 45 then (p1 + 1, true) else (p1, false)) = (p2, neg)).
  { unfold p2. destruct Hsg; cbn [length] in *.
    - rewrite Z.add_0_r in *. cbn [map] in Hm3. unfold p2 in Hm3. simpl in Hm3. rewrite Z.add_0_r in Hm3.
      apply bytes_at_cons in Hm3 as [Hx _]. exists (digit_char d). split_and!; [done|lia|lia|].
      rewrite (proj2 (Z.eqb_neq _ 43)), (proj2 (Z.eqb_neq _ 45)) by lia. done.
    - apply bytes_at_cons in Hm2 as [Hx _]. exists 43. split_and!; done.
    - apply bytes_at_cons in Hm2 as [Hx _]. exists 45. split_and!; done. }
  destruct Hfirst as (x & Hx & Hx1 & Hx2 & Hsign).
  assert (Hskip : skip_blanks fuel p m = Ok (p1, m)).
  { eapply skip_blanks_spec; [|done..]. apply bytes_at_app. split; [done|].
    apply bytes_at_cons. split; [done|apply bytes_at_nil]. }
  rewrite (bind_step _ _ _ _ _ Hskip). rd Hx. rewrite Hsign.
  assert (Hd0 : m !! p2 = Some (digit_char d)) by (cbn [map] in Hm3; by apply bytes_at_cons in Hm3 as [? _]).
  rd Hd0. rewrite (proj2 (Z.eqb_neq base 0)), (proj2 (Z.eqb_neq base 16)) by lia. cbn [orb andb].
  rewrite (bind_step _ _ m false m) by done.
  pose proof (digits_loop_spec fuel m p2 (d :: ds) c base 0 Hb Hds) as Hl.
  change (s32 0) with 0 in Hl. rewrite (bind_step _ _ _ _ _ (Hl ltac:(apply bytes_at_app; split; [done|];
    replace (p2 + Z.of_nat (length (map digit_char (d :: ds)))) with (p2 + Z.of_nat (length (d :: ds)))
      in Hm4 |- * by (by rewrite length_map); done) Hc Hf2)).
  unfold mret, M_ret, digits_value. f_equal. f_equal.
  - f_equal; [|unfold p2, p1; lia]. destruct neg; [|done]. apply smod_cong; [lia|].
    destruct (smod_decomp 32 (fold_left (fun v d0 => v * base + d0) (d :: ds) 0) ltac:(lia)) as [k ->].
    exists (- k). lia.
Qed.

(** ** stricmp *)

Lemma fold_case_pos c : 0 < c < 256 -> 0 < fold_case c.
Proof.
  intros. unfold fold_case. destruct (Z.ltb_spec 90 c); [|lia].
  rewrite umod_small by (unfold is_u; lia). lia.
Qed.

(** What the loop really compares is the image of the strings under [fold_case]. *)
Lemma stricmp_spec fuel m p1 p2 s1 s2 :
  cstr m p1 s1 -> cstr m p2 s2 -> Forall (fun c => c < 256) s1 -> Forall (fun c => c < 256) s2 ->
  (length s1 < fuel)%nat ->
  exists r, stricmp fuel p1 p2 m = Ok (r, m) /\ (r = 0 <-> map fold_case s1 = map fold_case s2).
Proof.
  revert p1 p2 s2 fuel. induction s1 as [|a s1 IH]; intros p1 p2 s2 [|fuel] H1 H2 B1 B2 Hf;
    cbn [length stricmp] in *; try lia.
  - rewrite cstr_nil in H1. rd H1. destruct s2 as [|b s2].
    + rewrite cstr_nil in H2. rd H2. by exists 0.
    + rewrite cstr_cons in H2. destruct H2 as (Hb & Hpos & _). rd Hb. cbn [negb andb Z.eqb].
      apply Forall_cons in B2 as [??]. pose proof (fold_case_pos b ltac:(lia)).
      exists (fold_case 0 - fold_case b). split; [done|]. change (fold_case 0) with 0. split; [lia|done].
  - rewrite cstr_cons in H1. destruct H1 as (Ha & Hpos & H1). rd Ha.
    apply Forall_cons in B1 as [Hba B1]. pose proof (fold_case_pos a ltac:(lia)).
    rewrite (proj2 (Z.eqb_neq a 0)) by lia. cbn [negb andb]. destruct s2 as [|b s2].
    + rewrite cstr_nil in H2. rd H2. change (fold_case 0) with 0.
      rewrite (proj2 (Z.eqb_neq (fold_case a) 0)) by lia. exists (fold_case a - 0). split; [done|split; [lia|done]].
    + rewrite cstr_cons in H2. destruct H2 as (Hb & ? & H2). rd Hb. apply Forall_cons in B2 as [Hbb B2].
      destruct (Z.eqb_spec (fold_case a) (fold_case b)) as [E|Hne].
      * destruct (IH (p1 + 1) (p2 + 1) s2 fuel H1 H2 B1 B2 ltac:(lia)) as (r & -> & E0).
        exists r. split; [done|]. rewrite E0. simpl. rewrite E. split; [by intros ->|by intros [= ->]].
      * exists (fold_case a - fold_case b). split; [done|]. simpl. split; [lia|intros [= ? _]; lia].
Qed.

(** ** Concrete memories *)

Definition mem_of (p : Z) (l : list Z) : mem := list_to_map (zip (seqZ p (Z.of_nat (length l))) l).

Lemma bytes_at_mapped m p l : bytes_at m p l -> mapped m p (Z.of_nat (length l)).
Proof.
  intros H q Hq. destruct (lookup_lt_is_Some_2 l (Z.to_nat (q - p))) as [x Hx]; [lia|].
  apply H in Hx. replace (p + Z.of_nat (Z.to_nat (q - p))) with q in Hx by lia. eauto.
Qed.

Ltac bytes_solve :=
  repeat (apply bytes_at_cons; split; [vm_compute; reflexivity|]); apply bytes_at_nil.

(** [stricmp] is documented as a comparison that only ignores case, but
    [fold_case] lowers every character above ['Z'] by 32: the strings ["_"]
    and ["?"] compare equal. *)
Theorem stricmp_conflates_underscore :
  stricmp 2 100 200 (mem_of 100 [95; 0] ∪ mem_of 200 [63; 0]) =
    Ok (0, mem_of 100 [95; 0] ∪ mem_of 200 [63; 0]).
Proof. vm_compute. reflexivity. Qed.

(** The block 10..14 moved three bytes up onto itself. *)
Lemma memmove_correct_witness :
  exists m', memmove 13 10 5 (mem_of 10 [1; 2; 3; 4; 5; 0; 0; 0]) = Ok (13, m') /\
    bytes_at m' 13 [1; 2; 3; 4; 5] /\
    same_outside (mem_of 10 [1; 2; 3; 4; 5; 0; 0; 0]) m' 13 5.
Proof.
  apply (memmove_correct (mem_of 10 [1; 2; 3; 4; 5; 0; 0; 0]) 13 10 [1; 2; 3; 4; 5]).
  - bytes_solve.
  - apply (bytes_at_mapped _ 13 [4; 5; 0; 0; 0]). bytes_solve.
Defined.

Lemma strcmp_correct_witness :
  exists r, strcmp 4 10 20 (mem_of 10 [97; 98; 0] ∪ mem_of 20 [97; 99; 0]) =
      Ok (r, mem_of 10 [97; 98; 0] ∪ mem_of 20 [97; 99; 0]) /\
    (r = 0 <-> [97; 98] = [97; 99]) /\ (r < 0 <-> lex_lt [97; 98] [97; 99]).
Proof.
  apply (strcmp_correct 4 (mem_of 10 [97; 98; 0] ∪ mem_of 20 [97; 99; 0]) 10 20 [97; 98] [97; 99]).
  - split; [bytes_solve|repeat constructor].
  - split; [bytes_solve|repeat constructor].
  - simpl. lia.
Defined.

Lemma strncpy_correct_witness :
  exists m', strncpy 20 10 4 (mem_of 10 [97; 98; 0] ∪ mem_of 20 [1; 1; 1; 1]) = Ok (20, m') /\
    bytes_at m' 20 [97; 98; 0; 0] /\
    same_outside (mem_of 10 [97; 98; 0] ∪ mem_of 20 [1; 1; 1; 1]) m' 20 4.
Proof.
  apply (strncpy_correct (mem_of 10 [97; 98; 0] ∪ mem_of 20 [1; 1; 1; 1]) 20 10 [97; 98] 4).
  - split; [bytes_solve|repeat constructor].
  - apply (bytes_at_mapped _ 20 [1; 1; 1; 1]). bytes_solve.
  - simpl. lia.
Defined.

(** " -42;" in base 10. *)
Lemma strtol_correct_witness :
  strtol 6 10 10 (mem_of 10 [32; 45; 52; 50; 59]) = Ok (-42, 14, mem_of 10 [32; 45; 52; 50; 59]).
Proof.
  apply (strtol_correct 6 (mem_of 10 [32; 45; 52; 50; 59]) 10 [32] [45] true 4 [2] 59 10).
  - lia.
  - lia.
  - repeat constructor.
  - constructor.
  - repeat constructor; lia.
  - reflexivity.
  - bytes_solve.
  - simpl. lia.
  - simpl. lia.
Defined.
