(* ===== verification/Bitmap.v ===== *)
(** * Bitmap: the free-block bitmap of fs/sfs/bitmap.c

    A bitmap is an array of 32-bit words; a set bit marks a free index.  The
    word scan of [bitmap_alloc] is translated with its two loops and its
    [assert(0)], and shown to implement "take the least free index" on the
    abstract set of free indices. *)

From stdpp Require Import numbers gmap list.
From S2P Require Import Prelude.
Local Open Scope Z_scope.

Definition WORD_BITS : Z := 32.

Record bitmap := Bitmap { nbits : Z; nwords : Z; map_ : list Z }.

Definition word (b : bitmap) (ix : Z) : Z := default 0 (map_ b !! Z.to_nat ix).
Definition set_word (b : bitmap) (ix w : Z) : bitmap :=
  Bitmap (nbits b) (nwords b) (<[Z.to_nat ix := w]> (map_ b)).

(** [1 << offset], converted to [uint32_t]. *)
Definition bmask (offset : Z) : Z := Z.shiftl 1 offset.

(** [for (; overbits < WORD_BITS; overbits++) map[ix] ^= (1 << overbits)] *)
Fixpoint clear_over (n : nat) (overbits w : Z) : Z :=
  match n with
  | O => w
  | S n' => clear_over n' (overbits + 1) (Z.lxor w (bmask overbits))
  end.

(** [ok1] and [ok2] say whether the two [kmalloc] calls find memory. *)
Definition bitmap_create (ok1 ok2 : bool) (nbits : Z) : outcome (option bitmap) :=
  if negb (negb (nbits =? 0) && (nbits <? u32 (nbits + WORD_BITS))) then Err AssertFailed
  else if negb ok1 then Ok None
  else
    let nwords := u32 (nbits + WORD_BITS - 1) / WORD_BITS in
    if negb ok2 then Ok None
    else
      let m := replicate (Z.to_nat nwords) 0xFFFFFFFF in
      let b := Bitmap nbits nwords m in
      if nbits =? u32 (nwords * WORD_BITS) then Ok (Some b)
      else
        let ix := nwords - 1 in
        let overbits := nbits - ix * WORD_BITS in
        if negb (nbits / WORD_BITS =? ix) then Err AssertFailed
        else if negb ((0 <? overbits) && (overbits <? WORD_BITS)) then Err AssertFailed
        else Ok (Some (set_word b ix (clear_over (Z.to_nat (WORD_BITS - overbits)) overbits (word b ix)))).

(** The inner loop over the bits of a non-zero word. *)
Fixpoint find_bit (n : nat) (offset w : Z) : option Z :=
  match n with
  | O => None
  | S n' => if Z.land w (bmask offset) =? 0 then find_bit n' (offset + 1) w else Some offset
  end.

(** The outer loop; [n] is [nwords - ix]. *)
Fixpoint alloc_loop (n : nat) (ix : Z) (b : bitmap) : outcome (Z * bitmap * option Z) :=
  match n with
  | O => Ok (- E_NO_MEM, b, None)
  | S n' =>
      if word b ix =? 0 then alloc_loop n' (ix + 1) b
      else match find_bit 32 0 (word b ix) with
           | Some offset =>
               Ok (0, set_word b ix (Z.lxor (word b ix) (bmask offset)), Some (u32 (ix * WORD_BITS + offset)))
           | None => Err AssertFailed
           end
  end.

(** The return code, the new bitmap and what was stored through [index_store]. *)
Definition bitmap_alloc (b : bitmap) : outcome (Z * bitmap * option Z) :=
  alloc_loop (Z.to_nat (nwords b)) 0 b.

(** The word index and the mask of a bit. *)
Definition bitmap_translate (b : bitmap) (index : Z) : outcome (Z * Z) :=
  if negb (index <? nbits b) then Err AssertFailed
  else Ok (index / WORD_BITS, bmask (index `mod` WORD_BITS)).

Definition bitmap_test (b : bitmap) (index : Z) : outcome bool :=
  '(ix, mask) ← bitmap_translate b index;
  Ok (negb (Z.land (word b ix) mask =? 0)).

Definition bitmap_free (b : bitmap) (index : Z) : outcome bitmap :=
  '(ix, mask) ← bitmap_translate b index;
  if negb (Z.land (word b ix) mask =? 0) then Err AssertFailed
  else Ok (set_word b ix (Z.lor (word b ix) mask)).

Definition bitmap_getdata (b : bitmap) : Z * list Z := (4 * nwords b, map_ b).

(** ** Abstraction: the set of free indices *)

Definition is_free (b : bitmap) (i : Z) : bool :=
  Z.testbit (word b (i / WORD_BITS)) (i `mod` WORD_BITS).

(** Well-formedness: enough 32-bit words, and no free bit past [nbits]. *)
Record wf_bitmap (b : bitmap) : Prop := {
  wf_nbits : 0 < nbits b /\ nbits b + WORD_BITS < 2 ^ 32;
  wf_nwords : nwords b = (nbits b + WORD_BITS - 1) / WORD_BITS;
  wf_length : length (map_ b) = Z.to_nat (nwords b);
  wf_words : Forall (is_u 32) (map_ b);
  wf_tail : forall i, nbits b <= i -> is_free b i = false;
}.

(** ** Bit lemmas *)

Lemma bmask_testbit o j : 0 <= o -> Z.testbit (bmask o) j = (o =? j).
Proof. intros. unfold bmask. by rewrite Z.shiftl_1_l, Z.pow2_bits_eqb. Qed.

Lemma land_bmask w o : 0 <= o -> (Z.land w (bmask o) =? 0) = negb (Z.testbit w o).
Proof.
  intros Ho. destruct (Z.testbit w o) eqn:E; simpl.
  - apply Z.eqb_neq. intros H. apply (f_equal (fun z => Z.testbit z o)) in H.
    rewrite Z.land_spec, bmask_testbit, Z.eqb_refl, E, Z.bits_0 in H by done. done.
  - apply Z.eqb_eq, Z.bits_inj'. intros j Hj. rewrite Z.land_spec, bmask_testbit, Z.bits_0 by done.
    destruct (Z.eqb_spec o j) as [<-|]; [by rewrite E|by rewrite andb_false_r].
Qed.

Lemma testbit_bmask_xor w o j : 0 <= o -> Z.testbit (Z.lxor w (bmask o)) j = xorb (Z.testbit w j) (o =? j).
Proof. intros. by rewrite Z.lxor_spec, bmask_testbit. Qed.

Lemma testbit_bmask_or w o j : 0 <= o -> Z.testbit (Z.lor w (bmask o)) j = Z.testbit w j || (o =? j).
Proof. intros. by rewrite Z.lor_spec, bmask_testbit. Qed.

(** A number is a 32-bit word iff it has no bit from 32 on. *)
Lemma is_u_bits w z : 0 <= w -> 0 <= z -> is_u w z <-> forall j, w <= j -> Z.testbit z j = false.
Proof.
  intros Hw Hz. split.
  - intros [_ Hlt] j Hj. destruct (decide (z = 0)) as [->|]; [apply Z.bits_0|].
    apply Z.bits_above_log2; [done|]. apply Z.log2_lt_pow2; [lia|].
    eapply Z.lt_le_trans; [done|]. apply Z.pow_le_mono_r; lia.
  - intros H. split; [done|]. destruct (decide (z = 0)) as [->|]; [by apply pow2_pos|].
    apply Z.log2_lt_pow2; [lia|]. destruct (Z.lt_ge_cases (Z.log2 z) w); [done|].
    specialize (H (Z.log2 z) ltac:(done)). rewrite Z.bit_log2 in H by lia. done.
Qed.

Lemma is_u_xor w o : is_u 32 w -> 0 <= o < 32 -> is_u 32 (Z.lxor w (bmask o)).
Proof.
  intros Hw Ho. assert (0 <= Z.lxor w (bmask o)).
  { apply Z.lxor_nonneg. unfold bmask. rewrite Z.shiftl_1_l. pose proof (pow2_pos o). unfold is_u in Hw. lia. }
  apply is_u_bits; [lia|done|]. intros j Hj. rewrite testbit_bmask_xor by lia.
  rewrite (proj1 (is_u_bits 32 w ltac:(lia) ltac:(unfold is_u in Hw; lia)) Hw j Hj).
  rewrite (proj2 (Z.eqb_neq o j)) by lia. done.
Qed.

Lemma is_u_or w o : is_u 32 w -> 0 <= o < 32 -> is_u 32 (Z.lor w (bmask o)).
Proof.
  intros Hw Ho. assert (0 <= Z.lor w (bmask o)).
  { apply Z.lor_nonneg. unfold bmask. rewrite Z.shiftl_1_l. pose proof (pow2_pos o). unfold is_u in Hw. lia. }
  apply is_u_bits; [lia|done|]. intros j Hj. rewrite testbit_bmask_or by lia.
  rewrite (proj1 (is_u_bits 32 w ltac:(lia) ltac:(unfold is_u in Hw; lia)) Hw j Hj).
  rewrite (proj2 (Z.eqb_neq o j)) by lia. done.
Qed.

Lemma u32_nonzero_bit w : is_u 32 w -> w <> 0 -> exists j, 0 <= j < 32 /\ Z.testbit w j = true.
Proof.
  intros Hw Hnz. exists (Z.log2 w). unfold is_u in Hw. split.
  - split; [apply Z.log2_nonneg|]. apply Z.log2_lt_pow2; lia.
  - apply Z.bit_log2. lia.
Qed.

Lemma find_bit_Some n o w k :
  0 <= o -> find_bit n o w = Some k ->
  o <= k < o + Z.of_nat n /\ Z.testbit w k = true /\ forall j, o <= j < k -> Z.testbit w j = false.
Proof.
  revert o. induction n as [|n IH]; intros o Ho; simpl; [done|]. rewrite land_bmask by done.
  destruct (Z.testbit w o) eqn:E; simpl.
  - intros [= <-]. split_and!; [lia|lia|done|lia].
  - intros H. destruct (IH (o + 1) ltac:(lia) H) as (? & ? & Hlt). split_and!; [lia|lia|done|].
    intros j Hj. destruct (decide (j = o)) as [->|]; [done|]. apply Hlt. lia.
Qed.

Lemma find_bit_None n o w :
  0 <= o -> find_bit n o w = None -> forall j, o <= j < o + Z.of_nat n -> Z.testbit w j = false.
Proof.
  revert o. induction n as [|n IH]; intros o Ho; simpl; [lia|]. rewrite land_bmask by done.
  destruct (Z.testbit w o) eqn:E; simpl; [done|]. intros H j Hj.
  destruct (decide (j = o)) as [->|]; [done|]. eapply IH; [|done|lia]. lia.
Qed.

(** ** The word array *)

Lemma word_set b ix w jx :
  length (map_ b) = Z.to_nat (nwords b) -> 0 <= ix < nwords b -> 0 <= jx ->
  word (set_word b ix w) jx = if ix =? jx then w else word b jx.
Proof.
  intros Hlen Hix Hjx. unfold word, set_word. simpl.
  destruct (Z.eqb_spec ix jx) as [->|Hne].
  - by rewrite list_lookup_insert_eq by lia.
  - by rewrite list_lookup_insert_ne by lia.
Qed.

Lemma is_free_set_len b ix w i :
  length (map_ b) = Z.to_nat (nwords b) -> 0 <= ix < nwords b -> 0 <= i ->
  is_free (set_word b ix w) i =
    if ix =? i / WORD_BITS then Z.testbit w (i `mod` WORD_BITS) else is_free b i.
Proof.
  intros Hlen Hix Hi. unfold is_free. rewrite word_set; [|done..|apply Z.div_pos; unfold WORD_BITS; lia].
  by destruct (ix =? i / WORD_BITS).
Qed.

Section words_of.
Context (b : bitmap) (Hwf : wf_bitmap b).

Lemma nwords_nonneg : 0 <= nwords b.
Proof. destruct Hwf. rewrite wf_nwords0. apply Z.div_pos; unfold WORD_BITS in *; lia. Qed.

Lemma word_u32 ix : 0 <= ix < nwords b -> is_u 32 (word b ix).
Proof.
    intros Hix. destruct Hwf. unfold word.
    destruct (lookup_lt_is_Some_2 (map_ b) (Z.to_nat ix)) as [w Hw]; [lia|]. rewrite Hw. simpl.
    by eapply Forall_lookup_1.
Qed.

Lemma nwords_bound i : 0 <= i < nbits b -> 0 <= i / WORD_BITS < nwords b.
Proof. destruct Hwf. rewrite wf_nwords0. unfold WORD_BITS. Z.to_euclidean_division_equations. lia. Qed.

Lemma is_free_set ix w i :
    0 <= ix < nwords b -> 0 <= i ->
    is_free (set_word b ix w) i =
      if ix =? i / WORD_BITS then Z.testbit w (i `mod` WORD_BITS) else is_free b i.
Proof. intros. apply is_free_set_len; [apply Hwf|done..]. Qed.

(** Replacing a word keeps well-formedness as long as no bit appears past the end. *)
Lemma wf_set_word ix w :
    0 <= ix < nwords b -> is_u 32 w ->
    (forall i, nbits b <= i -> is_free (set_word b ix w) i = false) -> wf_bitmap (set_word b ix w).
Proof.
    intros Hix Hw Htail. destruct Hwf. split; simpl; [done..| | |done].
    - by rewrite length_insert.
    - by apply Forall_insert.
Qed.
End words_of.

Lemma idx_split i : i = (i / WORD_BITS) * WORD_BITS + i `mod` WORD_BITS /\ 0 <= i `mod` WORD_BITS < WORD_BITS.
Proof. unfold WORD_BITS. Z.to_euclidean_division_equations. lia. Qed.

(** Flipping or setting one bit of one word changes exactly that index. *)
Lemma idx_eq ix o i :
  0 <= o < WORD_BITS -> (ix =? i / WORD_BITS) && (o =? i `mod` WORD_BITS) = (ix * WORD_BITS + o =? i).
Proof.
  intros Ho. unfold WORD_BITS in *.
  destruct (Z.eqb_spec (ix * 32 + o) i); destruct (Z.eqb_spec ix (i / 32)), (Z.eqb_spec o (i `mod` 32));
    simpl; try done; Z.to_euclidean_division_equations; lia.
Qed.

(** ** The operations on the abstract set *)

(** [b'] is [b] with [i] no longer free (resp. free again). *)
Definition free_upd (b b' : bitmap) (i : Z) (v : bool) : Prop :=
  wf_bitmap b' /\ nbits b' = nbits b /\
  forall j, 0 <= j -> is_free b' j = if j =? i then v else is_free b j.

Lemma alloc_loop_correct n ix b :
  wf_bitmap b -> 0 <= ix -> ix + Z.of_nat n = nwords b ->
  (forall j, 0 <= j < ix * WORD_BITS -> is_free b j = false) ->
  (exists i b', alloc_loop n ix b = Ok (0, b', Some i) /\ 0 <= i < nbits b /\
     is_free b i = true /\ (forall j, 0 <= j < i -> is_free b j = false) /\ free_upd b b' i false) \/
  (alloc_loop n ix b = Ok (- E_NO_MEM, b, None) /\ forall j, 0 <= j -> is_free b j = false).
Proof.
  intros Hwf. revert ix. induction n as [|n IH]; intros ix Hix Hn Hlow; cbn [alloc_loop].
  - right. split; [done|]. intros j Hj. destruct (Z.lt_ge_cases j (ix * WORD_BITS)); [by apply Hlow; lia|].
    apply Hwf. destruct Hwf. unfold WORD_BITS in *. Z.to_euclidean_division_equations. lia.
  - assert (Hr : 0 <= ix < nwords b) by lia. pose proof (word_u32 b Hwf ix Hr) as Hw.
    destruct (Z.eqb_spec (word b ix) 0) as [Hz|Hnz].
    + apply IH; [lia..|]. intros j Hj. destruct (Z.lt_ge_cases j (ix * WORD_BITS)); [by apply Hlow; lia|].
      unfold is_free. replace (j / WORD_BITS) with ix by (unfold WORD_BITS in *; Z.to_euclidean_division_equations; lia).
      rewrite Hz. apply Z.bits_0.
    + destruct (find_bit 32 0 (word b ix)) as [o|] eqn:E.
      2: { destruct (u32_nonzero_bit _ Hw Hnz) as (j & Hj & Hbit).
           by rewrite (find_bit_None 32 0 _ ltac:(lia) E j ltac:(lia)) in Hbit. }
      apply find_bit_Some in E as (Ho & Hbit & Hmin); [|lia]. left.
      assert (Hidx : forall j, 0 <= j -> j / WORD_BITS = ix -> is_free b j = Z.testbit (word b ix) (j `mod` WORD_BITS))
        by (intros j Hj <-; done).
      set (i := ix * WORD_BITS + o).
      assert (Hi : i / WORD_BITS = ix /\ i `mod` WORD_BITS = o)
        by (unfold i, WORD_BITS in *; Z.to_euclidean_division_equations; lia).
      assert (Hfi : is_free b i = true) by (rewrite (Hidx i) by (tauto || (unfold i, WORD_BITS; lia)); by destruct Hi as [_ ->]).
      assert (Hin : i < nbits b).
      { destruct (Z.lt_ge_cases i (nbits b)); [done|]. by rewrite (wf_tail b Hwf i ltac:(done)) in Hfi. }
      assert (Hset : forall j, 0 <= j -> is_free (set_word b ix (Z.lxor (word b ix) (bmask o))) j =
                 if j =? i then false else is_free b j).
      { intros j Hj. rewrite (is_free_set b Hwf) by done. rewrite testbit_bmask_xor by lia.
        pose proof (idx_eq ix o j ltac:(unfold WORD_BITS; lia)) as He.
        rewrite (Z.eqb_sym j i). unfold i. rewrite <- He.
        destruct (Z.eqb_spec ix (j / WORD_BITS)) as [Ej|]; [|done]. simpl.
        rewrite Hidx by done. destruct (Z.eqb_spec o (j `mod` WORD_BITS)) as [<-|]; [by rewrite Hbit|by rewrite xorb_false_r]. }
      pose proof (wf_nbits b Hwf) as [??].
      exists i, (set_word b ix (Z.lxor (word b ix) (bmask o))). split_and!; [|unfold i, WORD_BITS; lia|done|done| |].
      * rewrite (umod_small 32) by (unfold is_u, i, WORD_BITS in *; lia). done.
      * intros j Hj. destruct (Z.lt_ge_cases j (ix * WORD_BITS)); [by apply Hlow; lia|].
        assert (j / WORD_BITS = ix) as Ej by (unfold i, WORD_BITS in *; Z.to_euclidean_division_equations; lia).
        rewrite Hidx by (unfold WORD_BITS in *; done || lia). apply Hmin.
        unfold i, WORD_BITS in *. Z.to_euclidean_division_equations. lia.
      * split_and!; [|done|done]. apply (wf_set_word b Hwf); [done|apply is_u_xor; [done|lia]|].
        intros j Hj. rewrite Hset by (pose proof (wf_nbits b Hwf); lia). destruct (j =? i); [done|]. by apply Hwf.
Qed.

(** [bitmap_alloc] on a well-formed bitmap never reaches its [assert(0)]:
    either it returns 0 with the least free index, which is below [nbits] and is
    the only one whose state changes, or it returns [-E_NO_MEM], changes nothing
    and there is no free index. *)
Theorem bitmap_alloc_correct b :
  wf_bitmap b ->
  (exists i b', bitmap_alloc b = Ok (0, b', Some i) /\ 0 <= i < nbits b /\
     is_free b i = true /\ (forall j, 0 <= j < i -> is_free b j = false) /\ free_upd b b' i false) \/
  (bitmap_alloc b = Ok (- E_NO_MEM, b, None) /\ forall j, 0 <= j -> is_free b j = false).
Proof.
  intros Hwf. pose proof (nwords_nonneg b Hwf). apply alloc_loop_correct; [done|lia|lia|].
  unfold WORD_BITS. lia.
Qed.

Lemma bitmap_translate_ok b i : i < nbits b -> bitmap_translate b i = Ok (i / WORD_BITS, bmask (i `mod` WORD_BITS)).
Proof. intros. unfold bitmap_translate. by rewrite (proj2 (Z.ltb_lt i (nbits b))). Qed.

Lemma bitmap_test_spec b i : 0 <= i < nbits b -> bitmap_test b i = Ok (is_free b i).
Proof.
  intros. unfold bitmap_test. rewrite bitmap_translate_ok by lia. simpl.
  rewrite land_bmask by (apply Z.mod_pos_bound; unfold WORD_BITS; lia). by rewrite negb_involutive.
Qed.

(** Freeing a used index makes exactly that index free and keeps the
    bitmap well-formed; freeing a free index or one out of range is caught by
    an assertion. *)
Theorem bitmap_free_correct b i :
  wf_bitmap b -> 0 <= i ->
  if (i <? nbits b) && negb (is_free b i)
  then exists b', bitmap_free b i = Ok b' /\ free_upd b b' i true
  else bitmap_free b i = Err AssertFailed.
Proof.
  intros Hwf Hi. unfold bitmap_free. destruct (Z.ltb_spec i (nbits b)) as [Hlt|Hge]; cbn [andb].
  2: { unfold bitmap_translate. rewrite (proj2 (Z.ltb_ge i (nbits b))) by lia. done. }
  rewrite bitmap_translate_ok by done. unfold mbind, outcome_bind.
  pose proof (Z.mod_pos_bound i WORD_BITS ltac:(done)) as Hm.
  rewrite land_bmask, negb_involutive by lia. fold (is_free b i).
  destruct (is_free b i) eqn:Hf; simpl; [done|]. eexists; split; [done|].
  pose proof (nwords_bound b Hwf i ltac:(lia)) as Hr.
  assert (Hset : forall j, 0 <= j ->
    is_free (set_word b (i / WORD_BITS) (Z.lor (word b (i / WORD_BITS)) (bmask (i `mod` WORD_BITS)))) j =
    if j =? i then true else is_free b j).
  { intros j Hj. rewrite (is_free_set b Hwf) by done. rewrite testbit_bmask_or by lia.
    pose proof (idx_eq (i / WORD_BITS) (i `mod` WORD_BITS) j Hm) as He.
    replace (i / WORD_BITS * WORD_BITS + i `mod` WORD_BITS) with i in He by (by destruct (idx_split i)).
    rewrite (Z.eqb_sym j i), <- He.
    destruct (Z.eqb_spec (i / WORD_BITS) (j / WORD_BITS)) as [Ej|]; [|done]. simpl.
    unfold is_free. rewrite <- Ej.
    destruct (i `mod` WORD_BITS =? j `mod` WORD_BITS); [by rewrite orb_true_r|by rewrite orb_false_r]. }
  split_and!; [|done|done]. apply (wf_set_word b Hwf); [done| |].
  - apply is_u_or; [by apply word_u32|unfold WORD_BITS in *; lia].
  - intros j Hj. rewrite Hset by lia. rewrite (proj2 (Z.eqb_neq j i)) by lia. by apply Hwf.
Qed.

(** ** Creation *)

Lemma clear_over_bits n o w j :
  0 <= o -> Z.testbit (clear_over n o w) j = xorb (Z.testbit w j) ((o <=? j) && (j <? o + Z.of_nat n)).
Proof.
  revert o w. induction n as [|n IH]; intros o w Ho; cbn [clear_over].
  - destruct (Z.leb_spec o j), (Z.ltb_spec j (o + Z.of_nat 0)); simpl; try lia; by rewrite xorb_false_r.
  - rewrite IH by lia. rewrite testbit_bmask_xor by done. rewrite xorb_assoc. f_equal.
    destruct (Z.eqb_spec o j), (Z.leb_spec (o + 1) j), (Z.ltb_spec j (o + 1 + Z.of_nat n)),
      (Z.leb_spec o j), (Z.ltb_spec j (o + Z.of_nat (S n))); simpl; lia || done.
Qed.

Lemma clear_over_u32 n o w :
  0 <= o -> o + Z.of_nat n <= 32 -> is_u 32 w -> is_u 32 (clear_over n o w).
Proof.
  revert o w. induction n as [|n IH]; intros o w Ho Hn Hw; simpl; [done|].
  apply IH; [lia..|]. apply is_u_xor; [done|lia].
Qed.

Lemma ones32_bits j : 0 <= j < 32 -> Z.testbit 0xFFFFFFFF j = true.
Proof. intros. change 0xFFFFFFFF with (Z.ones 32). by apply Z.ones_spec_low. Qed.

(** The array of all-ones words before the leftover bits are cleared. *)
Lemma fresh_is_free nb nw i :
  0 <= nw -> 0 <= i ->
  is_free (Bitmap nb nw (replicate (Z.to_nat nw) 0xFFFFFFFF)) i = (i <? nw * WORD_BITS).
Proof.
  intros Hnw Hi. unfold is_free, word. cbn [map_].
  pose proof (Z.mod_pos_bound i WORD_BITS ltac:(done)). unfold WORD_BITS in *.
  destruct (Z.ltb_spec i (nw * 32)).
  - rewrite lookup_replicate_2 by (Z.to_euclidean_division_equations; lia). by apply ones32_bits.
  - rewrite lookup_ge_None_2 by (rewrite length_replicate; Z.to_euclidean_division_equations; lia). apply Z.bits_0.
Qed.

(** [bitmap_create] yields, when memory is found, a well-formed bitmap in
    which exactly the [nbits] indices are free: the bits of the last word past
    [nbits] are marked used.  Its internal assertions hold. *)
Theorem bitmap_create_correct nb :
  0 < nb -> nb + WORD_BITS < 2 ^ 32 ->
  exists b, bitmap_create true true nb = Ok (Some b) /\ wf_bitmap b /\ nbits b = nb /\
    forall i, 0 <= i -> is_free b i = (i <? nb).
Proof.
  intros Hnb Hmax. unfold bitmap_create.
  rewrite (proj2 (Z.eqb_neq nb 0)) by lia.
  rewrite (umod_small 32 (nb + WORD_BITS)), (umod_small 32 (nb + WORD_BITS - 1)) by (unfold is_u, WORD_BITS in *; lia).
  rewrite (proj2 (Z.ltb_lt nb (nb + WORD_BITS))) by (unfold WORD_BITS; lia). cbn [negb andb].
  set (nw := (nb + WORD_BITS - 1) / WORD_BITS).
  assert (Hnw : 0 < nw /\ nw * WORD_BITS - WORD_BITS < nb <= nw * WORD_BITS)
    by (unfold nw, WORD_BITS in *; Z.to_euclidean_division_equations; lia).
  set (b0 := Bitmap nb nw (replicate (Z.to_nat nw) 0xFFFFFFFF)).
  assert (Hlen : length (map_ b0) = Z.to_nat (nwords b0)) by apply length_replicate.
  rewrite (umod_small 32 (nw * WORD_BITS)) by (unfold is_u, WORD_BITS in *; lia).
  destruct (Z.eqb_spec nb (nw * WORD_BITS)) as [He|Hne].
  - exists b0. assert (Hf : forall i, 0 <= i -> is_free b0 i = (i <? nb))
      by (intros i Hi; unfold b0; rewrite fresh_is_free by lia; by rewrite <- He).
    split_and!; [done| |done|done]. split; [done..| |].
    + apply Forall_replicate. done.
    + intros i Hi. cbn [nbits b0] in Hi. rewrite Hf by lia. by apply Z.ltb_ge.
  - assert (Hix : nb / WORD_BITS = nw - 1) by (unfold WORD_BITS in *; Z.to_euclidean_division_equations; lia).
    rewrite Hix, Z.eqb_refl. set (o := nb - (nw - 1) * WORD_BITS).
    rewrite (proj2 (Z.ltb_lt 0 o)), (proj2 (Z.ltb_lt o WORD_BITS)) by (unfold o; lia). cbn [negb andb].
    assert (Hw : word b0 (nw - 1) = 0xFFFFFFFF).
    { unfold word, b0. cbn [map_]. by rewrite lookup_replicate_2 by lia. }
    eexists. split; [done|]. set (b := set_word b0 _ _).
    assert (Hf : forall i, 0 <= i -> is_free b i = (i <? nb)).
    { intros i Hi. unfold b. rewrite (is_free_set_len b0) by (done || (cbn [nwords b0]; lia)).
      rewrite Hw. pose proof (Z.mod_pos_bound i WORD_BITS ltac:(done)) as Hm.
      destruct (Z.eqb_spec (nw - 1) (i / WORD_BITS)) as [Ei|Ei].
      - rewrite clear_over_bits, ones32_bits by (unfold o, WORD_BITS in *; lia).
        rewrite Z2Nat.id by (unfold o; lia).
        destruct (Z.ltb_spec i nb), (Z.leb_spec o (i `mod` WORD_BITS)),
          (Z.ltb_spec (i `mod` WORD_BITS) (o + (WORD_BITS - o))); simpl; try done;
          unfold o, WORD_BITS in *; Z.to_euclidean_division_equations; lia.
      - unfold b0. rewrite fresh_is_free by lia. unfold WORD_BITS in *.
        destruct (Z.ltb_spec i (nw * 32)), (Z.ltb_spec i nb); try done; Z.to_euclidean_division_equations; lia. }
    split_and!; [|done|done]. split; [done|done| | |].
    + unfold b, set_word. cbn [map_ nwords]. by rewrite length_insert.
    + unfold b, set_word. cbn [map_]. apply Forall_insert; [by apply Forall_replicate|].
      rewrite Hw. apply clear_over_u32; [unfold o; lia| |done]. rewrite Z2Nat.id; unfold o, WORD_BITS in *; lia.
    + intros i Hi. cbn [nbits b set_word b0] in Hi. rewrite Hf by lia. by apply Z.ltb_ge.
Qed.

(** ** Concrete runs: 40 indices, the first three in use *)

Definition ex_bitmap : bitmap := Bitmap 40 2 [0xFFFFFFF8; 255].

Lemma ex_bitmap_wf : wf_bitmap ex_bitmap.
Proof.
  split; [done..|by apply Forall_cons_2; [|apply Forall_cons_2]|].
  intros i Hi. cbn [nbits ex_bitmap] in Hi. unfold is_free, word. cbn [map_ ex_bitmap].
  unfold WORD_BITS. pose proof (Z.mod_pos_bound i 32 ltac:(done)).
  destruct (decide (i < 64)).
  - replace (Z.to_nat (i / 32)) with 1%nat by (Z.to_euclidean_division_equations; lia). simpl.
    apply (proj1 (is_u_bits 8 255 ltac:(lia) ltac:(lia)) ltac:(done)).
    Z.to_euclidean_division_equations. lia.
  - rewrite lookup_ge_None_2 by (simpl; Z.to_euclidean_division_equations; lia). apply Z.bits_0.
Qed.

Lemma bitmap_create_correct_witness :
  exists b, bitmap_create true true 40 = Ok (Some b) /\ wf_bitmap b /\ nbits b = 40 /\
    forall i, 0 <= i -> is_free b i = (i <? 40).
Proof. exact (bitmap_create_correct 40 ltac:(lia) ltac:(unfold WORD_BITS; lia)). Defined.

Lemma bitmap_alloc_correct_witness :
  bitmap_alloc ex_bitmap = Ok (0, Bitmap 40 2 [0xFFFFFFF0; 255], Some 3) /\
  ((exists i b', bitmap_alloc ex_bitmap = Ok (0, b', Some i) /\ 0 <= i < nbits ex_bitmap /\
     is_free ex_bitmap i = true /\ (forall j, 0 <= j < i -> is_free ex_bitmap j = false) /\
     free_upd ex_bitmap b' i false) \/
   (bitmap_alloc ex_bitmap = Ok (- E_NO_MEM, ex_bitmap, None) /\
    forall j, 0 <= j -> is_free ex_bitmap j = false)).
Proof. split; [vm_compute; reflexivity|exact (bitmap_alloc_correct ex_bitmap ex_bitmap_wf)]. Defined.

Lemma bitmap_free_correct_witness :
  exists b', bitmap_free ex_bitmap 1 = Ok b' /\ free_upd ex_bitmap b' 1 true.
Proof. exact (bitmap_free_correct ex_bitmap 1 ex_bitmap_wf ltac:(lia)). Defined.
