(* ===== verification/Buddy.v ===== *)
(** * Buddy: the physical page allocator of arch/soc/mm/buddy_pmm.c

    A page descriptor is named by its index in the array [pages]; the intrusive
    free lists are the sequences of descriptors that libs/list.h keeps (ListH
    shows that the link surgery implements them).  [binv] is the allocator's
    invariant; [is_free] the set of pages it offers.  The theorems say that
    allocation and release move exactly the requested pages, that no assertion
    of the allocator can fail, and that free buddies never stay unmerged. *)

From stdpp Require Import numbers gmap functions list.
From S2P Require Import Prelude.
Local Open Scope Z_scope.

(** ** Data (memlayout.h) *)

Definition PG_reserved : Z := 0.
Definition PG_property : Z := 1.

Record page := Page { ref : Z; flags : Z; property : Z; zone_num : Z }.

#[export] Instance page_eq_dec : EqDecision page.
Proof. solve_decision. Defined.

Definition PageReserved (p : page) : bool := Z.testbit (flags p) PG_reserved.
Definition PageProperty (p : page) : bool := Z.testbit (flags p) PG_property.

Record free_area_t := FreeArea { free_list : list Z; nr_free : Z }.

Definition MAX_ORDER : Z := 10.
Definition MAX_ZONE_NUM : Z := 10.

(** The allocator's globals: [bzones z] is [zones[z].mem_base], [zone_cnt] the
    static counter of [buddy_init_memmap]. *)
Record buddy := Buddy {
  pages : gmap Z page;
  free_area : Z -> free_area_t;
  bzones : Z -> Z;
  zone_cnt : Z;
  npage : Z;
  nbase : Z }.

Definition fl (s : buddy) (o : Z) : list Z := free_list (free_area s o).
Definition nrf (s : buddy) (o : Z) : Z := nr_free (free_area s o).

(** ** Accesses *)

Definition set_pages (m : gmap Z page) (s : buddy) : buddy :=
  Buddy m (free_area s) (bzones s) (zone_cnt s) (npage s) (nbase s).
Definition set_area (o : Z) (a : free_area_t) (s : buddy) : buddy :=
  Buddy (pages s) (<[o := a]> (free_area s)) (bzones s) (zone_cnt s) (npage s) (nbase s).

Definition rd_page (p : Z) : M buddy page := load (fun s => pages s !! p).
Definition upd_page (p : Z) (f : page -> page) : M buddy unit := fun s =>
  match pages s !! p with
  | Some pg => Ok (tt, set_pages (<[p := f pg]> (pages s)) s)
  | None => Err BadAccess
  end.

Definition set_property (o : Z) (p : page) : page := Page (ref p) (flags p) o (zone_num p).
Definition SetPageProperty (p : page) : page :=
  Page (ref p) (Z.setbit (flags p) PG_property) (property p) (zone_num p).
Definition ClearPageProperty (p : page) : page :=
  Page (ref p) (Z.clearbit (flags p) PG_property) (property p) (zone_num p).

(** [free_area[o]] exists for [0 <= o <= MAX_ORDER]. *)
Definition rd_area (o : Z) : M buddy free_area_t := fun s =>
  if (0 <=? o) && (o <=? MAX_ORDER) then Ok (free_area s o, s) else Err BadAccess.
Definition upd_area (o : Z) (f : free_area_t -> free_area_t) : M buddy unit := fun s =>
  if (0 <=? o) && (o <=? MAX_ORDER) then Ok (tt, set_area o (f (free_area s o)) s) else Err BadAccess.

(** [nr_free(o)++; list_add(&free_list(o), &p->page_link)] and their inverses. *)
Definition push_area (p : Z) (a : free_area_t) : free_area_t :=
  FreeArea (p :: free_list a) (u32 (nr_free a + 1)).
Definition drop_area (p : Z) (a : free_area_t) : free_area_t :=
  FreeArea (filter (fun q => q <> p) (free_list a)) (u32 (nr_free a - 1)).

(** ** Operations *)

Definition buddy_init (s : buddy) : buddy :=
  Buddy (pages s) (fun o => if (0 <=? o) && (o <=? MAX_ORDER) then FreeArea [] 0 else free_area s o)
    (bzones s) (zone_cnt s) (npage s) (nbase s).

(** The first loop of [buddy_init_memmap]. *)
Fixpoint memmap_clear (n : nat) (p zn : Z) : M buddy unit :=
  match n with
  | O => mret tt
  | S n' =>
      pg ← rd_page p;
      _ ← kassert (PageReserved pg);
      _ ← upd_page p (fun _ => Page 0 0 0 zn);
      memmap_clear n' (p + 1) zn
  end.

(** The nested [while] loops: one step either carves a block or halves the size. *)
Fixpoint memmap_carve (fuel : nat) (n p order : Z) : M buddy unit :=
  match fuel with
  | O => fail OutOfFuel
  | S fuel' =>
      if n =? 0 then mret tt
      else if Z.shiftl 1 order <=? n then
        _ ← upd_page p (fun pg => SetPageProperty (set_property order pg));
        _ ← upd_area order (push_area p);
        memmap_carve fuel' (n - Z.shiftl 1 order) (p + Z.shiftl 1 order) order
      else memmap_carve fuel' n p (order - 1)
  end.

Definition buddy_init_memmap (base n : Z) : M buddy unit :=
  zn ← gets zone_cnt;
  _ ← kassert ((0 <? n) && (zn <? MAX_ZONE_NUM));
  _ ← memmap_clear (Z.to_nat n) base zn;
  _ ← modify (fun s => Buddy (pages s) (free_area s) (<[zn := base]> (bzones s)) (zn + 1) (npage s) (nbase s));
  memmap_carve (Z.to_nat n + 11) n base MAX_ORDER.

Fixpoint getorder_loop (fuel : nat) (n order : Z) : outcome Z :=
  match fuel with
  | O => Err OutOfFuel
  | S fuel' =>
      if negb (order <=? MAX_ORDER) then Err AssertFailed
      else if n <=? Z.shiftl 1 order then Ok order else getorder_loop fuel' n (order + 1)
  end.
Definition getorder (n : Z) : outcome Z := getorder_loop 12 n 0.

(** The splitting loop of [buddy_alloc_pages_sub]; [d] is [cur_order - order]. *)
Fixpoint split_loop (d : nat) (order page : Z) : M buddy unit :=
  match d with
  | O => mret tt
  | S d' =>
      let cur := order + Z.of_nat d' in
      let bud := page + Z.shiftl 1 cur in
      _ ← upd_page bud (fun pg => SetPageProperty (set_property cur pg));
      _ ← upd_area cur (push_area bud);
      split_loop d' order page
  end.

(** The search; [k] is [MAX_ORDER + 1 - cur_order]. *)
Fixpoint alloc_sub_loop (k : nat) (order cur_order : Z) : M buddy (option Z) :=
  match k with
  | O => mret None
  | S k' =>
      a ← rd_area cur_order;
      match free_list a with
      | [] => alloc_sub_loop k' order (cur_order + 1)
      | page :: _ =>
          _ ← upd_area cur_order (drop_area page);
          _ ← split_loop (Z.to_nat (cur_order - order)) order page;
          _ ← upd_page page ClearPageProperty;
          mret (Some page)
      end
  end.

Definition buddy_alloc_pages_sub (order : Z) : M buddy (option Z) :=
  _ ← kassert (order <=? MAX_ORDER);
  alloc_sub_loop (Z.to_nat (MAX_ORDER + 1 - order)) order order.

Definition page2ppn (s : buddy) (p : Z) : Z := p + nbase s.

Definition page_is_buddy (p order zn : Z) : M buddy bool := fun s =>
  if page2ppn s p <? npage s then
    (pg ← rd_page p;
     mret (if zone_num pg =? zn
           then negb (PageReserved pg) && PageProperty pg && (property pg =? order)
           else false)) s
  else Ok (false, s).

Definition page2idx (p : Z) : M buddy Z :=
  pg ← rd_page p; gets (fun s => p - bzones s (zone_num pg)).

Definition idx2page (s : buddy) (zn idx : Z) : Z := bzones s zn + idx.

Fixpoint free_clear (n : nat) (p : Z) : M buddy unit :=
  match n with
  | O => mret tt
  | S n' =>
      pg ← rd_page p;
      _ ← kassert (negb (PageReserved pg) && negb (PageProperty pg));
      _ ← upd_page p (fun pg => Page 0 0 (property pg) (zone_num pg));
      free_clear n' (p + 1)
  end.

(** The merging loop; [d] is [MAX_ORDER - order]. *)
Fixpoint merge_loop (d : nat) (zn page_idx order : Z) : M buddy (Z * Z) :=
  match d with
  | O => mret (page_idx, order)
  | S d' =>
      let buddy_idx := Z.lxor page_idx (Z.shiftl 1 order) in
      bud ← gets (fun s => idx2page s zn buddy_idx);
      b ← page_is_buddy bud order zn;
      if negb b then mret (page_idx, order)
      else
        _ ← upd_area order (drop_area bud);
        _ ← upd_page bud ClearPageProperty;
        merge_loop d' zn (Z.land page_idx buddy_idx) (order + 1)
  end.

Definition buddy_free_pages_sub (base order : Z) : M buddy unit :=
  page_idx ← page2idx base;
  _ ← kassert (Z.land page_idx (Z.shiftl 1 order - 1) =? 0);
  _ ← free_clear (Z.to_nat (Z.shiftl 1 order)) base;
  pg ← rd_page base;
  let zn := zone_num pg in
  '(page_idx, order) ← merge_loop (Z.to_nat (MAX_ORDER - order)) zn page_idx order;
  page ← gets (fun s => idx2page s zn page_idx);
  _ ← upd_page page (fun pg => SetPageProperty (set_property order pg));
  upd_area order (push_area page).

(** The first loop of [buddy_free_pages]: free blocks of growing order. *)
Fixpoint free_up (fuel : nat) (base n order : Z) : M buddy (Z * Z * Z) :=
  match fuel with
  | O => fail OutOfFuel
  | S fuel' =>
      let order_size := Z.shiftl 1 order in
      if order_size <=? n then
        _ ← kassert (order <=? MAX_ORDER);
        idx ← page2idx base;
        if negb (Z.land idx order_size =? 0) then
          _ ← buddy_free_pages_sub base order;
          free_up fuel' (base + order_size) (n - order_size) (order + 1)
        else free_up fuel' base n (order + 1)
      else mret (base, n, order)
  end.

(** The second loop: free blocks of shrinking order; one step either shrinks the
    order or frees a block. *)
Fixpoint free_down (fuel : nat) (base n order : Z) : M buddy unit :=
  match fuel with
  | O => fail OutOfFuel
  | S fuel' =>
      if n =? 0 then mret tt
      else if n <? Z.shiftl 1 order then free_down fuel' base n (order - 1)
      else
        _ ← buddy_free_pages_sub base order;
        free_down fuel' (base + Z.shiftl 1 order) (n - Z.shiftl 1 order) order
  end.

Definition buddy_free_pages (base n : Z) : M buddy unit :=
  _ ← kassert (0 <? n);
  if n =? 1 then buddy_free_pages_sub base 0
  else
    '(base, n, order) ← free_up 12 base n 0;
    free_down 24 base n order.

Definition buddy_alloc_pages (n : Z) : M buddy (option Z) :=
  _ ← kassert (0 <? n);
  order ← (fun s => o ← getorder n; mret (o, s));
  page ← buddy_alloc_pages_sub order;
  match page with
  | Some p =>
      if negb (n =? Z.shiftl 1 order) then
        _ ← buddy_free_pages (p + n) (Z.shiftl 1 order - n); mret (Some p)
      else mret (Some p)
  | None => mret None
  end.

Definition buddy_nr_free_pages (s : buddy) : Z :=
  foldl (fun ret order => u32 (ret + nrf s order * Z.shiftl 1 order)) 0 (seqZ 0 11).

(** ** The invariant *)

(** The [n] pages from [p] exist, are not reserved and belong to zone [z]. *)
Definition zone_pages (s : buddy) (z p n : Z) : Prop :=
  0 <= z < zone_cnt s /\ bzones s z <= p /\
  forall q, p <= q < p + n ->
    exists pg, pages s !! q = Some pg /\ PageReserved pg = false /\ zone_num pg = z.

Definition aligned (s : buddy) (z p o : Z) : Prop := (p - bzones s z) mod 2 ^ o = 0.

(** The other half of the block of order [o + 1] around [p]. *)
Definition buddy_of (s : buddy) (z p o : Z) : Z := bzones s z + Z.lxor (p - bzones s z) (2 ^ o).

(** Some free block covers [q]. *)
Definition is_free (s : buddy) (q : Z) : Prop := exists o p, p ∈ fl s o /\ p <= q < p + 2 ^ o.

Record binv (s : buddy) : Prop := {
  bi_dom : forall q, is_Some (pages s !! q) <-> 0 <= q < npage s - nbase s;
  bi_base : forall z, 0 <= z < zone_cnt s -> 0 <= bzones s z;
  bi_block : forall o p, p ∈ fl s o ->
    0 <= o <= MAX_ORDER /\ exists z, zone_pages s z p (2 ^ o) /\ aligned s z p o;
  bi_prop : forall p pg, pages s !! p = Some pg -> PageProperty pg = true -> p ∈ fl s (property pg);
  bi_head : forall o p, p ∈ fl s o ->
    exists pg, pages s !! p = Some pg /\ PageProperty pg = true /\ property pg = o;
  bi_inner : forall o p q pg, p ∈ fl s o -> p < q < p + 2 ^ o -> pages s !! q = Some pg ->
    PageProperty pg = false;
  bi_cnt : forall o, NoDup (fl s o) /\ nrf s o = u32 (Z.of_nat (length (fl s o)));
  (* free buddies of one zone have been merged *)
  bi_merged : forall o p z, o < MAX_ORDER -> p ∈ fl s o -> zone_pages s z p (2 ^ o) ->
    buddy_of s z p o ∈ fl s o -> ~ zone_pages s z (buddy_of s z p o) (2 ^ o) }.

(** What the operations never change: zones, bounds, reservation, zone numbers. *)
Definition pinfo (pg : page) : bool * Z := (PageReserved pg, zone_num pg).
Record geom (s s' : buddy) : Prop := {
  g_info : forall q, pinfo <$> pages s' !! q = pinfo <$> pages s !! q;
  g_zones : bzones s' = bzones s;
  g_cnt : zone_cnt s' = zone_cnt s;
  g_npage : npage s' = npage s;
  g_nbase : nbase s' = nbase s }.

#[export] Instance geom_equiv : Equivalence geom.
Proof.
  split.
  - by intros s.
  - intros s s' []. by split.
  - intros s1 s2 s3 [H ????] [H' ????]. split; [|congruence..]. intros q. by rewrite H', H.
Qed.

(** ** Bits *)

Lemma shiftl_1 o : 0 <= o -> Z.shiftl 1 o = 2 ^ o.
Proof. intros. rewrite Z.shiftl_mul_pow2 by done. lia. Qed.

Lemma lxor_double_1 j : Z.lxor (2 * j) 1 = 2 * j + 1.
Proof.
  symmetry. apply Z.add_nocarry_lxor. apply Z.bits_inj'. intros n Hn.
  rewrite Z.land_spec, Z.bits_0. destruct (decide (n = 0)) as [->|].
  - by rewrite Z.testbit_even_0.
  - replace 1 with (2 ^ 0) by done. rewrite Z.pow2_bits_false by lia. by rewrite andb_false_r.
Qed.

Lemma land_double_1 j : Z.land (2 * j) (2 * j + 1) = 2 * j.
Proof.
  apply Z.bits_inj'. intros n Hn. rewrite Z.land_spec. destruct (decide (n = 0)) as [->|].
  - by rewrite Z.testbit_even_0.
  - replace n with (Z.succ (n - 1)) by lia.
    rewrite Z.testbit_even_succ, Z.testbit_odd_succ by lia. apply andb_diag.
Qed.

(** The buddy's index, and the index of the merged block. *)
Lemma buddy_bits x o : 0 <= o -> x mod 2 ^ o = 0 ->
  (x mod 2 ^ (o + 1) = 0 /\ Z.lxor x (2 ^ o) = x + 2 ^ o /\ Z.land x (Z.lxor x (2 ^ o)) = x) \/
  (x mod 2 ^ (o + 1) = 2 ^ o /\ Z.lxor x (2 ^ o) = x - 2 ^ o /\ Z.land x (Z.lxor x (2 ^ o)) = x - 2 ^ o).
Proof.
  intros Ho Hx. pose proof (pow2_pos o Ho) as Hp. pose proof (pow2_succ o Ho) as Hs.
  apply Z.mod_divide in Hx as [k ->]; [|lia].
  assert (Hlx : forall a b, Z.lxor (a * 2 ^ o) (b * 2 ^ o) = Z.lxor a b * 2 ^ o).
  { intros. by rewrite <- !Z.shiftl_mul_pow2, Z.shiftl_lxor by done. }
  assert (Hla : forall a b, Z.land (a * 2 ^ o) (b * 2 ^ o) = Z.land a b * 2 ^ o).
  { intros. by rewrite <- !Z.shiftl_mul_pow2, Z.shiftl_land by done. }
  replace (Z.lxor (k * 2 ^ o) (2 ^ o)) with (Z.lxor k 1 * 2 ^ o)
    by (rewrite <- Hlx; f_equal; lia).
  rewrite Hla. destruct (Z.Even_or_Odd k) as [[j ->]|[j ->]]; [left|right].
  - rewrite lxor_double_1, land_double_1, Hs. split_and!; [|lia..].
    replace (2 * j * 2 ^ o) with (j * (2 * 2 ^ o)) by lia. apply Z.mod_mul. lia.
  - assert (Z.lxor (2 * j + 1) 1 = 2 * j) as ->.
    { rewrite <- lxor_double_1, Z.lxor_assoc, Z.lxor_nilpotent. apply Z.lxor_0_r. }
    rewrite (Z.land_comm (2 * j + 1)), land_double_1, Hs. split_and!; [|lia..].
    replace ((2 * j + 1) * 2 ^ o) with (2 ^ o + j * (2 * 2 ^ o)) by lia.
    rewrite Z_mod_plus_full. apply Z.mod_small. lia.
Qed.

(** ** Blocks of the invariant *)

Lemma upd_page_spec p f s pg :
  pages s !! p = Some pg -> upd_page p f s = Ok (tt, set_pages (<[p := f pg]> (pages s)) s).
Proof. unfold upd_page. by intros ->. Qed.

Lemma rd_page_spec p s pg : pages s !! p = Some pg -> rd_page p s = Ok (pg, s).
Proof. unfold rd_page, load. by intros ->. Qed.

Lemma order_guard o : 0 <= o <= MAX_ORDER -> (0 <=? o) && (o <=? MAX_ORDER) = true.
Proof. intros. apply andb_true_iff. rewrite !Z.leb_le. lia. Qed.

Lemma upd_area_spec o f s :
  0 <= o <= MAX_ORDER -> upd_area o f s = Ok (tt, set_area o (f (free_area s o)) s).
Proof. intros. unfold upd_area. by rewrite order_guard. Qed.

Lemma zone_pages_geom s s' z p n : geom s s' -> zone_pages s z p n -> zone_pages s' z p n.
Proof.
  intros [Hi Hz Hc _ _] (Hr & Hb & Hq). split; [by rewrite Hc|]. split; [by rewrite Hz|].
  intros q Hqr. destruct (Hq q Hqr) as (pg & E & Hres & Hzn). specialize (Hi q). rewrite E in Hi.
  destruct (pages s' !! q) as [pg'|]; simplify_eq/=. unfold pinfo in Hi. eexists; split; [done|].
  split; congruence.
Qed.

Lemma zone_pages_sub s z p n p' n' :
  p <= p' -> p' + n' <= p + n -> zone_pages s z p n -> zone_pages s z p' n'.
Proof. intros ?? (? & ? & Hq). split_and!; [lia..|]. intros q Hqr. apply Hq. lia. Qed.

Lemma zone_pages_join s z p n m :
  zone_pages s z p n -> zone_pages s z (p + n) m -> zone_pages s z p (n + m).
Proof.
  intros (? & ? & Hq) (_ & _ & Hq'). split_and!; [lia..|]. intros q Hqr.
  destruct (decide (q < p + n)); [apply Hq; lia|apply Hq'; lia].
Qed.

Lemma aligned_geom s s' z p o : geom s s' -> aligned s z p o -> aligned s' z p o.
Proof. intros [_ Hz _ _ _]. unfold aligned. by rewrite Hz. Qed.

Lemma buddy_of_geom s s' z p o : geom s s' -> buddy_of s' z p o = buddy_of s z p o.
Proof. intros [_ Hz _ _ _]. unfold buddy_of. by rewrite Hz. Qed.

Lemma dom_geom s s' q : geom s s' -> is_Some (pages s' !! q) <-> is_Some (pages s !! q).
Proof.
  intros [Hi _ _ _ _]. specialize (Hi q).
  destruct (pages s !! q), (pages s' !! q); simplify_eq/=; naive_solver.
Qed.

Lemma pinfo_set o pg : pinfo (SetPageProperty (set_property o pg)) = pinfo pg.
Proof.
  unfold pinfo, PageReserved, SetPageProperty, set_property. cbn [flags zone_num].
  by rewrite Z.setbit_eqb by done.
Qed.
Lemma pinfo_clear pg : pinfo (ClearPageProperty pg) = pinfo pg.
Proof.
  unfold pinfo, PageReserved, ClearPageProperty. cbn [flags zone_num].
  rewrite Z.clearbit_eqb. by rewrite andb_true_r.
Qed.
Lemma PageProperty_set o pg : PageProperty (SetPageProperty (set_property o pg)) = true.
Proof. unfold PageProperty, SetPageProperty. cbn [flags]. by rewrite Z.setbit_eqb by done. Qed.
Lemma PageProperty_clear pg : PageProperty (ClearPageProperty pg) = false.
Proof. unfold PageProperty, ClearPageProperty. cbn [flags]. rewrite Z.clearbit_eqb. apply andb_false_r. Qed.

(** A page whose reservation and zone are kept may be overwritten. *)
Lemma geom_write s p pg pg' fa :
  pages s !! p = Some pg -> pinfo pg' = pinfo pg ->
  geom s (Buddy (<[p := pg']> (pages s)) fa (bzones s) (zone_cnt s) (npage s) (nbase s)).
Proof.
  intros E H. split; try done. intros q. simpl. destruct (decide (q = p)) as [->|].
  - rewrite lookup_insert_eq, E. simpl. by rewrite H.
  - by rewrite lookup_insert_ne.
Qed.

Lemma block_self s o p : p ∈ fl s o -> 0 <= o -> is_free s p.
Proof. intros. exists o, p. pose proof (pow2_pos o ltac:(lia)). split; [done|lia]. Qed.

Lemma fl_order s (I : binv s) o p : p ∈ fl s o -> 0 <= o <= MAX_ORDER.
Proof. intros H. by destruct (bi_block s I _ _ H). Qed.

(** Two free blocks that share a page are one. *)
Lemma blocks_disjoint s o1 p1 o2 p2 q :
  binv s -> p1 ∈ fl s o1 -> p2 ∈ fl s o2 ->
  p1 <= q < p1 + 2 ^ o1 -> p2 <= q < p2 + 2 ^ o2 -> p1 = p2 /\ o1 = o2.
Proof.
  intros I H1 H2 Hq1 Hq2.
  destruct (bi_head s I _ _ H1) as (g1 & E1 & P1 & O1).
  destruct (bi_head s I _ _ H2) as (g2 & E2 & P2 & O2).
  destruct (Z.lt_trichotomy p1 p2) as [L|[->|L]].
  - pose proof (bi_inner s I _ _ p2 g2 H1 ltac:(lia) E2). congruence.
  - split; congruence.
  - pose proof (bi_inner s I _ _ p1 g1 H2 ltac:(lia) E1). congruence.
Qed.

Lemma not_free_not_head s p pg :
  binv s -> pages s !! p = Some pg -> ~ is_free s p -> PageProperty pg = false.
Proof.
  intros I E Hn. destruct (PageProperty pg) eqn:Hp; [|done]. destruct Hn.
  pose proof (bi_prop s I _ _ E Hp) as H. eapply block_self; [done|]. by apply (fl_order s I) in H as [? _].
Qed.

(** [add_block o p] and [remove_block o p]: the two state changes every operation is made of. *)
Definition add_block (o p : Z) : M buddy unit :=
  _ ← upd_page p (fun pg => SetPageProperty (set_property o pg)); upd_area o (push_area p).
Definition remove_block (o p : Z) : M buddy unit :=
  _ ← upd_area o (drop_area p); upd_page p ClearPageProperty.

Lemma fl_set_area s o a o' : fl (set_area o a s) o' = if decide (o' = o) then free_list a else fl s o'.
Proof. unfold fl, set_area. cbn [free_area]. case_decide; [subst; by rewrite fn_lookup_insert|by rewrite fn_lookup_insert_ne]. Qed.

Lemma u32_add_l a b : u32 (u32 a + b) = u32 (a + b).
Proof. unfold umod. apply Zplus_mod_idemp_l. Qed.

Lemma buddy_of_involutive s z p o : buddy_of s z (buddy_of s z p o) o = p.
Proof.
  unfold buddy_of. set (b := bzones s z).
  replace (b + Z.lxor (p - b) (2 ^ o) - b) with (Z.lxor (p - b) (2 ^ o)) by lia.
  rewrite Z.lxor_assoc, Z.lxor_nilpotent, Z.lxor_0_r. lia.
Qed.

Lemma buddy_of_ne s z p o : 0 <= o -> buddy_of s z p o <> p.
Proof.
  intros Ho H. unfold buddy_of in H. pose proof (pow2_pos o Ho).
  assert (Hx : Z.lxor (p - bzones s z) (2 ^ o) = p - bzones s z) by lia.
  apply (f_equal (Z.lxor (p - bzones s z))) in Hx.
  rewrite <- Z.lxor_assoc, Z.lxor_nilpotent, Z.lxor_0_l in Hx. lia.
Qed.

Lemma zone_unique s z z' p n n' :
  0 < n -> 0 < n' -> zone_pages s z p n -> zone_pages s z' p n' -> z' = z.
Proof.
  intros ?? (_ & _ & H) (_ & _ & H'). destruct (H p ltac:(lia)) as (g & E & _ & <-).
  destruct (H' p ltac:(lia)) as (g' & E' & _ & <-). congruence.
Qed.

Lemma add_block_spec s o p z :
  binv s -> 0 <= o <= MAX_ORDER -> zone_pages s z p (2 ^ o) -> aligned s z p o ->
  (forall q, p <= q < p + 2 ^ o -> ~ is_free s q) ->
  (o < MAX_ORDER -> buddy_of s z p o ∈ fl s o -> ~ zone_pages s z (buddy_of s z p o) (2 ^ o)) ->
  exists s', add_block o p s = Ok (tt, s') /\ binv s' /\ geom s s' /\
    (forall q, is_free s' q <-> is_free s q \/ p <= q < p + 2 ^ o).
Proof.
  intros I Ho Hz Ha Hnf Hbud. pose proof (pow2_pos o ltac:(lia)) as Hpw.
  destruct (proj2 (proj2 Hz) p ltac:(lia)) as (pg & E & Hres & Hzn).
  set (pg' := SetPageProperty (set_property o pg)).
  set (s1 := set_pages (<[p := pg']> (pages s)) s).
  set (s' := set_area o (push_area p (free_area s1 o)) s1).
  assert (G : geom s s') by (apply (geom_write s p pg pg'); [done|apply pinfo_set]).
  assert (Hfl : forall o', fl s' o' = if decide (o' = o) then p :: fl s o else fl s o').
  { intros o'. unfold s'. by rewrite fl_set_area. }
  assert (Hin : forall o' p', p' ∈ fl s' o' <-> p' ∈ fl s o' \/ (o' = o /\ p' = p)).
  { intros o' p'. rewrite Hfl. case_decide; subst; [|naive_solver]. rewrite elem_of_cons. naive_solver. }
  assert (Hnp : forall o', p ∉ fl s o').
  { intros o' H. apply (Hnf p); [lia|]. eapply block_self; [done|]. by apply (fl_order s I) in H as [? _]. }
  assert (Hpg : forall q, q <> p -> pages s' !! q = pages s !! q) by (intros; simpl; by rewrite lookup_insert_ne).
  assert (Hpp : pages s' !! p = Some pg') by (simpl; by rewrite lookup_insert_eq).
  exists s'. split_and!; [..|exact G|].
  { unfold add_block. mstep (upd_page_spec p (fun pg => SetPageProperty (set_property o pg)) _ _ E). by apply upd_area_spec. }
  2: { intros q. unfold is_free. split.
    - intros (o' & p' & [H|[-> ->]]%Hin & Hq); [left; eauto|by right].
    - intros [(o' & p' & H & Hq)|Hq]; [exists o', p'|exists o, p]; (split; [apply Hin; tauto|done]). }
  split.
  - intros q. rewrite (dom_geom _ _ _ G), (g_npage _ _ G), (g_nbase _ _ G). apply (bi_dom s I).
  - rewrite (g_cnt _ _ G), (g_zones _ _ G). apply (bi_base s I).
  - intros o' p' [H|[-> ->]]%Hin.
    + destruct (bi_block s I _ _ H) as (? & z' & ? & ?). split; [done|]. exists z'.
      split; [by eapply zone_pages_geom|by eapply aligned_geom].
    + split; [done|]. exists z. split; [by eapply zone_pages_geom|by eapply aligned_geom].
  - intros q g. destruct (decide (q = p)) as [->|].
    + rewrite Hpp. intros [= <-] _. apply Hin. by right.
    + rewrite Hpg by done. intros Eg Hg. apply Hin. left. by apply (bi_prop s I).
  - intros o' p' [H|[-> ->]]%Hin.
    + assert (p' <> p) by (intros ->; by eapply Hnp). rewrite Hpg by done. by apply (bi_head s I).
    + eexists; split; [done|]. split; [apply PageProperty_set|done].
  - intros o' p' q g [H|[-> ->]]%Hin Hq.
    + destruct (decide (q = p)) as [->|]; [|rewrite Hpg by done; by eapply (bi_inner s I)].
      destruct (Hnf p); [lia|]. exists o', p'. split; [done|lia].
    + rewrite Hpg by lia. intros Eg. eapply not_free_not_head; [done..|]. apply Hnf. lia.
  - intros o'. rewrite Hfl. unfold nrf, s', set_area. cbn [free_area]. destruct (bi_cnt s I o') as [Hd Hc].
    case_decide; subst; [rewrite fn_lookup_insert|by rewrite fn_lookup_insert_ne].
    split; [apply list.NoDup_cons; split; [apply Hnp|done]|]. unfold nrf in Hc. cbn [nr_free push_area free_area s1 set_pages].
    rewrite Hc, u32_add_l. f_equal. rewrite length_cons. lia.
  - intros o' p' z' Ho' Hin1 Hz1 Hin2 Hz2. rewrite (buddy_of_geom _ _ _ _ _ G) in *.
    symmetry in G. apply (zone_pages_geom _ _ _ _ _ G) in Hz1, Hz2.
    apply Hin in Hin1 as [H1|[-> ->]], Hin2 as [H2|[Ho2 Hp2]].
    + exact (bi_merged s I o' p' z' Ho' H1 Hz1 H2 Hz2).
    + subst o'. rewrite Hp2 in Hz2. assert (z' = z) as -> by exact (zone_unique _ _ _ _ _ _ Hpw Hpw Hz Hz2).
      rewrite <- (buddy_of_involutive s z p' o), Hp2 in H1, Hz1. by apply Hbud.
    + assert (z' = z) as -> by exact (zone_unique _ _ _ _ _ _ Hpw Hpw Hz Hz1). by apply Hbud.
    + by apply buddy_of_ne in Hp2; [|lia].
Qed.

Lemma remove_block_spec s o p :
  binv s -> p ∈ fl s o ->
  exists s', remove_block o p s = Ok (tt, s') /\ binv s' /\ geom s s' /\
    (forall q, is_free s' q <-> is_free s q /\ ~ p <= q < p + 2 ^ o).
Proof.
  intros I Hp. destruct (bi_block s I _ _ Hp) as (Ho & z & Hz & Ha).
  destruct (bi_head s I _ _ Hp) as (pg & E & HP & HO).
  set (pg' := ClearPageProperty pg).
  set (s1 := set_area o (drop_area p (free_area s o)) s).
  set (s' := set_pages (<[p := pg']> (pages s1)) s1).
  assert (G : geom s s') by (apply (geom_write s p pg pg'); [done|apply pinfo_clear]).
  assert (Hfl : forall o', fl s' o' = if decide (o' = o) then filter (fun q => q <> p) (fl s o) else fl s o').
  { intros o'. change (fl s1 o' = if decide (o' = o) then filter (fun q => q <> p) (fl s o) else fl s o').
    unfold s1. by rewrite fl_set_area. }
  assert (Hin : forall o' p', p' ∈ fl s' o' <-> p' ∈ fl s o' /\ p' <> p).
  { intros o' p'. rewrite Hfl. case_decide; subst.
    - rewrite list_elem_of_filter. tauto.
    - split; [|tauto]. intros H'. split; [done|]. intros ->.
      destruct (bi_head s I _ _ H') as (g & E' & _ & ?). naive_solver. }
  assert (Hpg : forall q, q <> p -> pages s' !! q = pages s !! q) by (intros; simpl; by rewrite lookup_insert_ne).
  assert (Hpp : pages s' !! p = Some pg') by (simpl; by rewrite lookup_insert_eq).
  exists s'. split_and!; [..|exact G|].
  { unfold remove_block. mstep (upd_area_spec _ (drop_area p) s Ho). by apply upd_page_spec. }
  2: { intros q. split.
    - intros (o' & p' & [H Hne]%Hin & Hq). split; [by exists o', p'|]. intros Hq'.
      destruct (blocks_disjoint s o p o' p' q I Hp H Hq' Hq). congruence.
    - intros [(o' & p' & H & Hq) Hn]. exists o', p'. split; [|done]. apply Hin. split; [done|].
      intros ->. destruct (bi_head s I _ _ H) as (g & E' & _ & ?). apply Hn. naive_solver. }
  split.
  - intros q. rewrite (dom_geom _ _ _ G), (g_npage _ _ G), (g_nbase _ _ G). apply (bi_dom s I).
  - rewrite (g_cnt _ _ G), (g_zones _ _ G). apply (bi_base s I).
  - intros o' p' [H _]%Hin. destruct (bi_block s I _ _ H) as (? & z' & ? & ?). split; [done|]. exists z'.
    split; [by eapply zone_pages_geom|by eapply aligned_geom].
  - intros q g. destruct (decide (q = p)) as [->|].
    + rewrite Hpp. intros [= <-] Hc. unfold pg' in Hc. by rewrite PageProperty_clear in Hc.
    + rewrite Hpg by done. intros Eg Hg. apply Hin. split; [by apply (bi_prop s I)|done].
  - intros o' p' [H Hne]%Hin. rewrite Hpg by done. by apply (bi_head s I).
  - intros o' p' q g [H Hne]%Hin Hq. destruct (decide (q = p)) as [->|].
    + rewrite Hpp. intros [= <-]. apply PageProperty_clear.
    + rewrite Hpg by done. by eapply (bi_inner s I).
  - intros o'. rewrite Hfl. change (nrf s' o') with (nrf s1 o'). unfold nrf, s1, set_area. cbn [free_area].
    destruct (bi_cnt s I o') as [Hd Hc].
    case_decide; subst; [rewrite fn_lookup_insert|by rewrite fn_lookup_insert_ne].
    split; [by apply list.NoDup_filter|]. unfold nrf in Hc. cbn [nr_free drop_area].
    rewrite Hc, length_filter_ne by done. unfold Z.sub. rewrite u32_add_l. f_equal.
    destruct (fl s (property pg)); [by apply not_elem_of_nil in Hp|simpl; lia].
  - intros o' p' z' Ho' [H1 _]%Hin Hz1 [H2 _]%Hin Hz2. rewrite (buddy_of_geom _ _ _ _ _ G) in *.
    symmetry in G. apply (zone_pages_geom _ _ _ _ _ G) in Hz1, Hz2. exact (bi_merged s I o' p' z' Ho' H1 Hz1 H2 Hz2).
Qed.

(** Overwriting a page that is in no free block. *)
Lemma binv_write s p pg pg' :
  binv s -> pages s !! p = Some pg -> ~ is_free s p -> pinfo pg' = pinfo pg -> PageProperty pg' = false ->
  binv (set_pages (<[p := pg']> (pages s)) s).
Proof.
  intros I E Hn Hi HP. set (s' := set_pages _ s).
  assert (G : geom s s') by (by apply (geom_write s p pg pg')).
  assert (Hpg : forall q, q <> p -> pages s' !! q = pages s !! q) by (intros; simpl; by rewrite lookup_insert_ne).
  assert (Hpp : pages s' !! p = Some pg') by (simpl; by rewrite lookup_insert_eq).
  split.
  - intros q. rewrite (dom_geom _ _ _ G). apply (bi_dom s I).
  - apply (bi_base s I).
  - intros o p' H. destruct (bi_block s I _ _ H) as (? & z & ? & ?). split; [done|]. exists z.
    split; [by eapply zone_pages_geom|done].
  - intros q g. destruct (decide (q = p)) as [->|].
    + rewrite Hpp. intros [= <-]. congruence.
    + rewrite Hpg by done. apply (bi_prop s I).
  - intros o p' H. assert (p' <> p).
    { intros ->. apply Hn. eapply block_self; [done|]. by apply (fl_order s I) in H as [? _]. }
    rewrite Hpg by done. by apply (bi_head s I).
  - intros o p' q g H Hq. destruct (decide (q = p)) as [->|].
    + rewrite Hpp. by intros [= <-].
    + rewrite Hpg by done. by eapply (bi_inner s I).
  - apply (bi_cnt s I).
  - intros o p' z Ho H1 Hz1 H2 Hz2. symmetry in G.
    apply (zone_pages_geom _ _ _ _ _ G) in Hz1, Hz2. exact (bi_merged s I o p' z Ho H1 Hz1 H2 Hz2).
Qed.

(** Pages that a caller owns: in the zone and not offered by the allocator. *)
Definition held (s : buddy) (z p n : Z) : Prop :=
  zone_pages s z p n /\ forall q, p <= q < p + n -> ~ is_free s q.

Lemma held_sub s z p n p' n' : p <= p' -> p' + n' <= p + n -> held s z p n -> held s z p' n'.
Proof. intros ?? [Hz Hf]. split; [by eapply zone_pages_sub|]. intros q Hq. apply Hf. lia. Qed.

(** The effect of a release on the rest of the system. *)
Definition released (s s' : buddy) (p n : Z) : Prop :=
  binv s' /\ geom s s' /\ forall q, is_free s' q <-> is_free s q \/ p <= q < p + n.

Lemma free_clear_spec z n p s :
  binv s -> held s z p (Z.of_nat n) ->
  exists s', free_clear n p s = Ok (tt, s') /\ released s s' p 0.
Proof.
  revert p s. induction n as [|n IH]; intros p s I H.
  - exists s. split; [done|]. split_and!; [done|reflexivity|]. intros q. split; [by left|]. intros [?|?]; [done|lia].
  - destruct (proj2 (proj2 (proj1 H)) p ltac:(lia)) as (pg & E & Hr & Hz).
    pose proof (proj2 H p ltac:(lia)) as Hn. pose proof (not_free_not_head s p pg I E Hn) as HP.
    set (pg' := Page 0 0 (property pg) (zone_num pg)). set (s1 := set_pages (<[p := pg']> (pages s)) s).
    assert (G : geom s s1) by (apply (geom_write s p pg pg'); [done|unfold pinfo; by rewrite Hr]).
    destruct (IH (p + 1) s1) as (s' & E' & I' & G' & F').
    + apply (binv_write s p pg); [done..|unfold pinfo; by rewrite Hr|done].
    + apply (held_sub s z p _ (p + 1) (Z.of_nat n)) in H; [|lia..]. destruct H as [H1 H2].
      split; [by eapply zone_pages_geom|exact H2].
    + exists s'. split.
      * cbn [free_clear]. mstep (rd_page_spec _ _ _ E). massert; [|by rewrite Hr, HP].
        mstep (upd_page_spec p (fun pg => Page 0 0 (property pg) (zone_num pg)) _ _ E). exact E'.
      * split_and!; [done|by etrans|]. intros q. rewrite F'. split; (intros [?|?]; [by left|lia]).
Qed.

Lemma page_is_buddy_spec s p o z :
  binv s -> 0 <= p ->
  exists b, page_is_buddy p o z s = Ok (b, s) /\
    (b = true -> p ∈ fl s o /\ zone_pages s z p (2 ^ o)) /\
    (b = false -> p ∈ fl s o -> ~ zone_pages s z p (2 ^ o)).
Proof.
  intros I Hp. unfold page_is_buddy, page2ppn. destruct (Z.ltb_spec (p + nbase s) (npage s)) as [L|L].
  - destruct (proj2 (bi_dom s I p) ltac:(lia)) as [pg E].
    mstep (rd_page_spec _ _ _ E). eexists; split; [done|]. split.
    + intros Hb. case_match eqn:Hzn; [|done]. apply Z.eqb_eq in Hzn.
      apply andb_true_iff in Hb as [Hb Ho%Z.eqb_eq]. apply andb_true_iff in Hb as [Hr HP].
      pose proof (bi_prop s I p pg E HP) as Hin. rewrite Ho in Hin. split; [done|].
      destruct (bi_block s I _ _ Hin) as (Hord & z' & Hz & _). pose proof (pow2_pos o ltac:(lia)).
      destruct (proj2 (proj2 Hz) p ltac:(lia)) as (g & E' & _ & <-). rewrite E in E'. simplify_eq. exact Hz.
    + intros Hb Hin Hz. destruct (bi_head s I _ _ Hin) as (g & E' & HP & Ho). rewrite E in E'. simplify_eq.
      pose proof (fl_order s I _ _ Hin). pose proof (pow2_pos (property g) ltac:(lia)).
      destruct (proj2 (proj2 Hz) p ltac:(lia)) as (g' & E' & Hr & Hzn). rewrite E in E'. simplify_eq.
      rewrite Z.eqb_refl, Hr, HP, Z.eqb_refl in Hb. done.
  - exists false. split_and!; [done..|]. intros _ Hin. destruct (bi_head s I _ _ Hin) as (g & E & _).
    pose proof (proj1 (bi_dom s I p) ltac:(by eexists)). lia.
Qed.

(** [merge_loop] trades free buddies for a larger held block; it stops at a
    block whose buddy is not free. *)
Lemma merge_loop_spec z d : forall s idx o,
  binv s -> 0 <= o -> o + Z.of_nat d = MAX_ORDER -> 0 <= idx -> idx mod 2 ^ o = 0 ->
  held s z (bzones s z + idx) (2 ^ o) ->
  exists idx' o' s', merge_loop d z idx o s = Ok ((idx', o'), s') /\ binv s' /\ geom s s' /\
    o <= o' <= MAX_ORDER /\ idx' mod 2 ^ o' = 0 /\ held s' z (bzones s z + idx') (2 ^ o') /\
    (o' < MAX_ORDER -> buddy_of s' z (bzones s z + idx') o' ∈ fl s' o' ->
       ~ zone_pages s' z (buddy_of s' z (bzones s z + idx') o') (2 ^ o')) /\
    (forall q, is_free s' q \/ bzones s z + idx' <= q < bzones s z + idx' + 2 ^ o' <->
               is_free s q \/ bzones s z + idx <= q < bzones s z + idx + 2 ^ o).
Proof.
  induction d as [|d IH]; intros s idx o I Ho Hd Hidx Hm H.
  { exists idx, o, s. assert (o = MAX_ORDER) as -> by lia.
    split_and!; [done|done|reflexivity|lia|lia|done|done|lia|done]. }
  cbn [merge_loop]. rewrite (shiftl_1 o Ho), bind_gets.
  set (b := bzones s z) in *. set (bi := Z.lxor idx (2 ^ o)).
  assert (Hbud : buddy_of s z (b + idx) o = b + bi).
  { unfold buddy_of, bi. fold b. do 2 f_equal. lia. }
  pose proof (bi_base s I z (proj1 (proj1 H))) as Hb. pose proof (pow2_pos o Ho) as Hpw.
  assert (0 <= bi) by (unfold bi; apply Z.lxor_nonneg; lia).
  destruct (page_is_buddy_spec s (b + bi) o z I) as (bo & E & Ht & Hf); [fold b in Hb; lia|].
  unfold idx2page. fold b. mstep E. destruct bo; cbn [negb].
  2: { exists idx, o, s. split_and!; [done|done|reflexivity|lia|unfold MAX_ORDER in *; lia|done|done| |done].
       intros _. rewrite Hbud. by apply Hf. }
  destruct (Ht eq_refl) as [Hin Hz]. clear Ht Hf E.
  destruct (remove_block_spec s o (b + bi) I Hin) as (s1 & E1 & I1 & G1 & F1).
  destruct (proj1 (bind_Ok _ _ _ _ _) E1) as ([] & s0 & E0 & E0'). mstep E0. mstep E0'.
  assert (Hu : held s1 z (b + Z.land idx bi) (2 ^ (o + 1)) /\ Z.land idx bi mod 2 ^ (o + 1) = 0 /\
    (forall q, b + Z.land idx bi <= q < b + Z.land idx bi + 2 ^ (o + 1) <->
       (b + idx <= q < b + idx + 2 ^ o \/ b + bi <= q < b + bi + 2 ^ o)) /\ 0 <= Z.land idx bi).
  { rewrite (pow2_succ o Ho).
    assert (Hjoin : forall l, l = Z.land idx bi -> (idx = l /\ bi = l + 2 ^ o) \/ (bi = l /\ idx = l + 2 ^ o) ->
      held s1 z (b + l) (2 * 2 ^ o)).
    { intros l _ Hl. split.
      - apply (zone_pages_geom _ _ _ _ _ G1). replace (2 * 2 ^ o) with (2 ^ o + 2 ^ o) by lia.
        destruct H as [H _]. destruct Hl as [[-> Hl]|[-> Hl]]; apply zone_pages_join; try done;
          rewrite <- Z.add_assoc, <- Hl; done.
      - intros q Hq [Hfq Hnq]%F1. destruct (decide (b + idx <= q < b + idx + 2 ^ o)) as [Hi|Hi].
        + by apply (proj2 H q).
        + destruct Hl as [[-> ->]|[-> ->]]; lia. }
    fold bi in Hjoin |- *. destruct (buddy_bits idx o Ho Hm) as [(M0 & B0 & L0)|(M0 & B0 & L0)]; fold bi in B0, L0.
    - rewrite L0, B0. rewrite (pow2_succ o Ho) in M0. split_and!; [apply Hjoin; [by rewrite L0|left; lia]|done|lia|done].
    - rewrite L0, B0. rewrite (pow2_succ o Ho) in M0.
      split_and!; [apply Hjoin; [by rewrite L0|right; lia]| |lia|lia].
      pose proof (Z.div_mod idx (2 * 2 ^ o) ltac:(lia)) as Hdm. rewrite M0 in Hdm.
      replace (idx - 2 ^ o) with (idx / (2 * 2 ^ o) * (2 * 2 ^ o)) by lia. apply Z.mod_mul. lia. }
  destruct Hu as (Hu1 & Hu2 & Hu3 & Hu4).
  assert (Hbz : bzones s1 z = b) by (unfold b; by rewrite (g_zones _ _ G1)).
  destruct (IH s1 (Z.land idx bi) (o + 1)) as (idx' & o' & s' & E' & I' & G' & Ho' & Hm' & H' & Hb' & F');
    [done|lia|lia|done|done|by rewrite Hbz|]. rewrite Hbz in *.
  exists idx', o', s'. split_and!; [exact E'|done|by etrans|lia|lia|done|done|done|].
  intros q. rewrite F', F1, Hu3. split; [|].
  - intros [[? _]|[?|?]]; [by left|by right|left]. exists o, (b + bi). done.
  - intros [Hq|Hq]; [|tauto]. destruct (decide (b + bi <= q < b + bi + 2 ^ o)); tauto.
Qed.

Lemma page2idx_spec s z p n : 0 < n -> zone_pages s z p n -> page2idx p s = Ok (p - bzones s z, s).
Proof.
  intros Hn Hz. destruct (proj2 (proj2 Hz) p ltac:(lia)) as (pg & E & _ & Hzn).
  unfold page2idx. mstep (rd_page_spec _ _ _ E). unfold gets. by rewrite Hzn.
Qed.

Lemma land_low x o : 0 <= o -> Z.land x (2 ^ o - 1) = x mod 2 ^ o.
Proof. intros. rewrite <- Z.land_ones by done. f_equal. rewrite Z.ones_equiv. lia. Qed.

Lemma buddy_free_pages_sub_spec s z p o :
  binv s -> 0 <= o <= MAX_ORDER -> held s z p (2 ^ o) -> aligned s z p o ->
  exists s', buddy_free_pages_sub p o s = Ok (tt, s') /\ released s s' p (2 ^ o).
Proof.
  intros I Ho H Ha. pose proof (pow2_pos o ltac:(lia)) as Hpw.
  destruct (free_clear_spec z (Z.to_nat (2 ^ o)) p s I) as (s1 & E1 & I1 & G1 & F1).
  { rewrite Z2Nat.id by lia. done. }
  assert (H1 : held s1 z p (2 ^ o)).
  { destruct H as [Hz Hf]. split; [by eapply zone_pages_geom|]. intros q Hq [?|?]%F1; [by eapply Hf|lia]. }
  destruct (proj2 (proj2 (proj1 H1)) p ltac:(lia)) as (pg & E & _ & Hzn).
  pose proof (proj1 (proj2 (proj1 H))) as Hge. pose proof (g_zones _ _ G1) as Hbz.
  set (idx := p - bzones s z). assert (Hp : bzones s1 z + idx = p) by (unfold idx; rewrite Hbz; lia).
  destruct (merge_loop_spec z (Z.to_nat (MAX_ORDER - o)) s1 idx o)
    as (idx' & o' & s2 & E2 & I2 & G2 & Ho2 & Hm2 & H2 & Hb2 & F2);
    [done|lia|lia|unfold idx; lia|done|by rewrite Hp|].
  pose proof (g_zones _ _ G2) as Hbz2. rewrite Hp in F2.
  destruct (add_block_spec s2 o' (bzones s1 z + idx') z) as (s3 & E3 & I3 & G3 & F3);
    [done|lia|apply H2| |apply H2|done|].
  { unfold aligned. rewrite Hbz2. replace (bzones s1 z + idx' - bzones s1 z) with idx' by lia. done. }
  destruct (proj1 (bind_Ok _ _ _ _ _) E3) as ([] & s2' & E3' & E3'').
  exists s3. split.
  - unfold buddy_free_pages_sub. rewrite !(shiftl_1 o) by lia.
    mstep (page2idx_spec s z p _ Hpw (proj1 H)).
    massert; [|apply Z.eqb_eq; rewrite land_low by lia; exact Ha].
    mstep E1. mstep (rd_page_spec _ _ _ E). rewrite Hzn. mstep E2. cbn beta iota.
    rewrite bind_gets. unfold idx2page. rewrite Hbz2. mstep E3'. exact E3''.
  - split_and!; [done|by etrans; [etrans|]|]. intros q. rewrite F3, F2, F1. split; [|tauto].
    intros [[?|?]|?]; [by left|lia|by right].
Qed.

Lemma released_refl s p : binv s -> released s s p 0.
Proof. intros I. split_and!; [done|reflexivity|]. intros q. split; [by left|]. intros [?|?]; [done|lia]. Qed.

Lemma released_join s s1 s2 p n m :
  0 <= n -> 0 <= m -> released s s1 p n -> released s1 s2 (p + n) m -> released s s2 p (n + m).
Proof.
  intros Hn Hm (_ & G1 & F1) (I2 & G2 & F2). split_and!; [done|by etrans|].
  intros q. rewrite F2, F1. split; [intros [[?|?]|?]|intros [?|?]]; try tauto; [right; lia|right; lia|].
  destruct (decide (q < p + n)); [left; right; lia|right; lia].
Qed.

(** What is still held after the first part of it was released. *)
Lemma held_released s s' z p n m :
  0 <= m <= n -> released s s' p m -> held s z p n -> held s' z (p + m) (n - m).
Proof.
  intros Hm (_ & G & F) [Hz Hf]. split.
  - eapply zone_pages_geom; [done|]. by eapply zone_pages_sub; [..|exact Hz]; lia.
  - intros q Hq [Hq'|?]%F; [|lia]. eapply Hf; [|exact Hq']. lia.
Qed.

Lemma land_pow2 x o : 0 <= o -> x mod 2 ^ o = 0 ->
  (Z.land x (2 ^ o) = 0 /\ x mod 2 ^ (o + 1) = 0) \/
  (Z.land x (2 ^ o) = 2 ^ o /\ (x + 2 ^ o) mod 2 ^ (o + 1) = 0).
Proof.
  intros Ho Hx. pose proof (pow2_pos o Ho) as Hp. rewrite (pow2_succ o Ho).
  apply Z.mod_divide in Hx as [k ->]; [|lia].
  assert (Z.land (k * 2 ^ o) (2 ^ o) = Z.land k 1 * 2 ^ o) as ->.
  { rewrite <- !Z.shiftl_mul_pow2, <- (shiftl_1 o), <- Z.shiftl_land by done. done. }
  replace 1 with (Z.ones 1) by done. rewrite Z.land_ones by done. change (2 ^ 1) with 2.
  destruct (Z.Even_or_Odd k) as [[j ->]|[j ->]]; [left|right].
  - replace (2 * j) with (j * 2) by lia. rewrite Z.mod_mul by done. split; [done|].
    replace (j * 2 * 2 ^ o) with (j * (2 * 2 ^ o)) by lia. apply Z.mod_mul. lia.
  - replace ((2 * j + 1) mod 2) with 1 by (Z.to_euclidean_division_equations; lia). split; [lia|].
    replace ((2 * j + 1) * 2 ^ o + 2 ^ o) with ((j + 1) * (2 * 2 ^ o)) by lia. apply Z.mod_mul. lia.
Qed.

Lemma mod_pow2_lower x o o' : 0 <= o' <= o -> x mod 2 ^ o = 0 -> x mod 2 ^ o' = 0.
Proof.
  intros Ho Hx. pose proof (pow2_pos o ltac:(lia)). pose proof (pow2_pos o' ltac:(lia)).
  apply Z.mod_divide in Hx; [|lia]. apply Z.mod_divide; [lia|]. etrans; [|exact Hx].
  exists (2 ^ (o - o')). rewrite <- Z.pow_add_r by lia. f_equal. lia.
Qed.

Lemma free_up_spec z fuel : forall s p n o,
  binv s -> 0 <= o <= 11 -> 12 - o <= Z.of_nat fuel -> 0 <= n < 2048 ->
  held s z p n -> aligned s z p o ->
  exists p' n' o' s', free_up fuel p n o s = Ok ((p', n', o'), s') /\
    p <= p' /\ p' + n' = p + n /\ 0 <= n' < 2 ^ o' /\ 0 <= o' <= 11 /\
    aligned s' z p' o' /\ released s s' p (p' - p).
Proof.
  induction fuel as [|fuel IH]; intros s p n o I Ho Hfuel Hn H Ha; [lia|].
  cbn [free_up]. rewrite (shiftl_1 o) by lia. pose proof (pow2_pos o ltac:(lia)) as Hpw.
  destruct (Z.leb_spec (2 ^ o) n) as [L|L].
  2: { exists p, n, o, s. split_and!; [done|lia..|done|]. rewrite Z.sub_diag. by apply released_refl. }
  assert (o <= MAX_ORDER). { unfold MAX_ORDER. destruct (decide (o = 11)) as [->|]; [|lia]. change (2 ^ 11) with 2048 in L. lia. }
  massert; [|by apply Z.leb_le]. mstep (page2idx_spec s z p n ltac:(lia) (proj1 H)).
  unfold aligned in Ha. destruct (land_pow2 _ o ltac:(lia) Ha) as [[-> Hm]|[-> Hm]].
  - cbn [Z.eqb negb]. apply IH; [done|unfold MAX_ORDER in *; lia|lia|done|done|done].
  - destruct (Z.eqb_spec (2 ^ o) 0); [lia|]. cbn [negb].
    destruct (buddy_free_pages_sub_spec s z p o) as (s1 & E1 & R1); [done|lia| |done|].
    { by eapply held_sub; [..|exact H]; lia. }
    mstep E1. pose proof (held_released s s1 z p n (2 ^ o) ltac:(lia) R1 H) as H1.
    pose proof (g_zones _ _ (proj1 (proj2 R1))) as Hbz.
    destruct (IH s1 (p + 2 ^ o) (n - 2 ^ o) (o + 1)) as (p' & n' & o' & s' & E' & Hp' & Hs & Hn' & Ho' & Ha' & R');
      [apply R1|unfold MAX_ORDER in *; lia|lia|lia|done| |].
    { unfold aligned. rewrite Hbz. rewrite <- Hm. f_equal. lia. }
    exists p', n', o', s'. split_and!; [exact E'|lia..|done|].
    replace (p' - p) with (2 ^ o + (p' - (p + 2 ^ o))) by lia. by apply (released_join s s1 s'); [lia..| |].
Qed.

Lemma free_down_spec z (o : nat) : forall fuel s p n,
  binv s -> Z.of_nat o <= 11 -> (2 * o + 1 <= fuel)%nat -> 0 <= n < 2 ^ Z.of_nat o ->
  held s z p n -> aligned s z p (Z.of_nat o) ->
  exists s', free_down fuel p n (Z.of_nat o) s = Ok (tt, s') /\ released s s' p n.
Proof.
  induction o as [|o IH]; intros fuel s p n I Ho Hfuel Hn H Ha; (destruct fuel as [|fuel]; [lia|]);
    cbn [free_down]; (destruct (Z.eqb_spec n 0) as [->|Hn0]; [exists s; split; [done|by apply released_refl]|]).
  { change (2 ^ Z.of_nat 0) with 1 in Hn. lia. }
  rewrite Nat2Z.inj_succ in *. unfold Z.succ in *. rewrite shiftl_1 by lia.
  rewrite (pow2_succ (Z.of_nat o)) in Hn |- * by lia. pose proof (pow2_pos (Z.of_nat o) ltac:(lia)) as Hpw.
  assert (Ha' : aligned s z p (Z.of_nat o)) by (apply (mod_pow2_lower _ (Z.of_nat o + 1)); [lia|exact Ha]).
  destruct (Z.ltb_spec n (2 * 2 ^ Z.of_nat o)); [|lia].
  replace (Z.of_nat o + 1 - 1) with (Z.of_nat o) by lia.
  destruct (decide (n < 2 ^ Z.of_nat o)); [apply IH; [done|lia|lia|lia|done|done]|].
  destruct fuel as [|fuel]; [lia|]. cbn [free_down]. destruct (Z.eqb_spec n 0); [done|].
  rewrite shiftl_1 by lia. destruct (Z.ltb_spec n (2 ^ Z.of_nat o)); [lia|].
  destruct (buddy_free_pages_sub_spec s z p (Z.of_nat o)) as (s1 & E1 & R1);
    [done|unfold MAX_ORDER; lia|by eapply held_sub; [..|exact H]; lia|done|].
  mstep E1. pose proof (held_released s s1 z p n (2 ^ Z.of_nat o) ltac:(lia) R1 H) as Hh.
  pose proof (g_zones _ _ (proj1 (proj2 R1))) as Hbz.
  destruct (IH fuel s1 (p + 2 ^ Z.of_nat o) (n - 2 ^ Z.of_nat o)) as (s' & E' & R');
    [apply R1|lia|lia|lia|done| |].
  { unfold aligned in *. rewrite Hbz. replace (p + _ - _) with (p - bzones s z + 1 * 2 ^ Z.of_nat o) by lia.
    by rewrite Z_mod_plus_full. }
  exists s'. split; [exact E'|]. replace n with (2 ^ Z.of_nat o + (n - 2 ^ Z.of_nat o)) by lia.
  by apply (released_join s s1 s'); [lia..| |].
Qed.

Lemma buddy_free_pages_spec s z p n :
  binv s -> 0 < n < 2048 -> held s z p n ->
  exists s', buddy_free_pages p n s = Ok (tt, s') /\ released s s' p n.
Proof.
  intros I Hn H. unfold buddy_free_pages. massert; [|apply Z.ltb_lt; lia].
  assert (Ha0 : aligned s z p 0) by (apply Z.mod_1_r).
  destruct (Z.eqb_spec n 1) as [->|].
  { apply (buddy_free_pages_sub_spec s z p 0); [done|done|done|done]. }
  destruct (free_up_spec z 12 s p n 0) as (p' & n' & o' & s1 & E1 & Hp & Hs & Hn' & Ho' & Ha1 & R1);
    [done|lia|lia|lia|done|done|].
  mstep E1. cbn beta iota.
  pose proof (held_released s s1 z p n (p' - p) ltac:(lia) R1 H) as H1.
  replace (p + (p' - p)) with p' in H1 by lia. replace (n - (p' - p)) with n' in H1 by lia.
  rewrite <- (Z2Nat.id o') in Hn', Ha1 |- * by lia.
  destruct (free_down_spec z (Z.to_nat o') 24 s1 p' n') as (s2 & E2 & R2); [apply R1|lia|lia|done|done|done|].
  exists s2. split; [exact E2|]. replace n with ((p' - p) + n') by lia.
  apply (released_join s s1 s2); [lia|lia|done|]. by replace (p + (p' - p)) with p' by lia.
Qed.

Lemma getorder_spec n : 0 < n <= 1024 ->
  exists o, getorder n = Ok o /\ 0 <= o <= MAX_ORDER /\ n <= 2 ^ o /\ (forall o', 0 <= o' < o -> 2 ^ o' < n).
Proof.
  intros Hn. unfold getorder.
  assert (Hgen : forall fuel o, 0 <= o <= MAX_ORDER -> 11 - o <= Z.of_nat fuel ->
    (forall o', 0 <= o' < o -> 2 ^ o' < n) ->
    exists o', getorder_loop fuel n o = Ok o' /\ 0 <= o' <= MAX_ORDER /\ n <= 2 ^ o' /\
      (forall o'', 0 <= o'' < o' -> 2 ^ o'' < n)).
  2: { apply (Hgen 12%nat 0); unfold MAX_ORDER; lia. }
  unfold MAX_ORDER. induction fuel as [|fuel IH]; intros o Ho Hf Hlow; [lia|].
  cbn [getorder_loop]. unfold MAX_ORDER. rewrite (shiftl_1 o) by lia.
  destruct (Z.leb_spec o 10); [cbn [negb]|lia]. destruct (Z.leb_spec n (2 ^ o)); [eauto|].
  apply IH; [|lia|].
  - destruct (decide (o = 10)) as [->|]; [|lia]. change (2 ^ 10) with 1024 in *. lia.
  - intros o' Ho'. destruct (decide (o' = o)) as [->|]; [done|apply Hlow; lia].
Qed.

Lemma getorder_panics n : 1024 < n -> getorder n = Err AssertFailed.
Proof.
  intros Hn. unfold getorder.
  assert (Hgen : forall fuel o, 0 <= o <= 11 -> 12 - o <= Z.of_nat fuel ->
    getorder_loop fuel n o = Err AssertFailed); [|apply Hgen; lia].
  induction fuel as [|fuel IH]; intros o Ho Hf; [lia|]. cbn [getorder_loop]. unfold MAX_ORDER.
  destruct (Z.leb_spec o 10); cbn [negb]; [|done]. rewrite (shiftl_1 o) by lia.
  assert (2 ^ o <= 2 ^ 10) by (apply Z.pow_le_mono_r; lia). change (2 ^ 10) with 1024 in *.
  destruct (Z.leb_spec n (2 ^ o)); [lia|]. apply IH; lia.
Qed.

(** Splitting a held block: the upper halves go back to the lists. *)
Lemma split_loop_spec z p order d : forall s,
  binv s -> 0 <= order -> order + Z.of_nat d <= MAX_ORDER ->
  held s z p (2 ^ (order + Z.of_nat d)) -> aligned s z p (order + Z.of_nat d) ->
  exists s', split_loop d order p s = Ok (tt, s') /\
    released s s' (p + 2 ^ order) (2 ^ (order + Z.of_nat d) - 2 ^ order).
Proof.
  induction d as [|d IH]; intros s I Ho Hd H Ha.
  { exists s. split; [done|]. rewrite Z.add_0_r, Z.sub_diag. by apply released_refl. }
  cbn [split_loop]. set (cur := order + Z.of_nat d) in *.
  replace (order + Z.of_nat (S d)) with (cur + 1) in * by lia.
  rewrite (shiftl_1 cur) by lia. rewrite (pow2_succ cur) in H |- * by lia.
  pose proof (pow2_pos cur ltac:(lia)) as Hpw.
  assert (Hal : aligned s z p cur) by (apply (mod_pow2_lower _ (cur + 1)); [lia|exact Ha]).
  assert (Hal' : aligned s z (p + 2 ^ cur) cur).
  { unfold aligned in *. replace (p + 2 ^ cur - _) with (p - bzones s z + 1 * 2 ^ cur) by lia.
    by rewrite Z_mod_plus_full. }
  assert (Hbud : buddy_of s z p cur = p + 2 ^ cur).
  { unfold buddy_of. destruct (buddy_bits (p - bzones s z) cur ltac:(lia) Hal) as [(_ & -> & _)|(Hm & _)]; [lia|].
    unfold aligned in Ha. lia. }
  destruct (add_block_spec s cur (p + 2 ^ cur) z) as (s1 & E1 & I1 & G1 & F1); [done|lia| |done| | |].
  { by eapply zone_pages_sub; [..|apply H]; lia. }
  { intros q Hq. apply (proj2 H). lia. }
  { rewrite <- Hbud, buddy_of_involutive. intros _ Hin. destruct (proj2 H p); [lia|].
    eapply block_self; [done|lia]. }
  destruct (proj1 (bind_Ok _ _ _ _ _) E1) as ([] & s0 & E0 & E0'). mstep E0. mstep E0'.
  destruct (IH s1) as (s' & E' & I' & G' & F'); [done|done|lia| |by eapply aligned_geom|].
  { split; [eapply zone_pages_geom; [done|]; by eapply zone_pages_sub; [..|apply H]; lia|].
    intros q Hq [Hq'|?]%F1; [|lia]. eapply (proj2 H); [|exact Hq']. lia. }
  exists s'. split; [exact E'|]. split_and!; [done|by etrans|].
  assert (2 ^ order <= 2 ^ cur) by (apply Z.pow_le_mono_r; lia).
  intros q. rewrite F', F1. split; [intros [[?|?]|?]; [tauto|right; lia|right; lia]|].
  intros [?|?]; [tauto|]. destruct (decide (q < p + 2 ^ cur)); [right; lia|left; right; lia].
Qed.

(** The head page is written after the splitting loop, which does not touch it. *)
Lemma split_loop_write p f order d : forall s s2 pg,
  0 <= order -> pages s !! p = Some pg ->
  split_loop d order p (set_pages (<[p := f pg]> (pages s)) s) = Ok (tt, s2) ->
  exists s', split_loop d order p s = Ok (tt, s') /\ upd_page p f s' = Ok (tt, s2).
Proof.
  induction d as [|d IH]; intros s s2 pg Ho E H.
  { injection H as <-. exists s. split; [done|]. by apply upd_page_spec. }
  cbn [split_loop] in *. rewrite (shiftl_1 (order + Z.of_nat d)) in * by lia.
  set (cur := order + Z.of_nat d) in *. pose proof (pow2_pos cur ltac:(lia)) as Hpw.
  apply bind_Ok in H as ([] & s0 & H0 & H). apply bind_Ok in H as ([] & s1 & H1 & H).
  unfold upd_page at 1 in H0. cbn [pages set_pages] in H0. rewrite lookup_insert_ne in H0 by lia.
  destruct (pages s !! (p + 2 ^ cur)) as [pb|] eqn:Eb; [|done]. injection H0 as <-.
  unfold upd_area in H1. case_match eqn:Hg; [|done]. injection H1 as <-.
  mstep (upd_page_spec (p + 2 ^ cur) (fun pg => SetPageProperty (set_property cur pg)) _ _ Eb).
  set (pb' := SetPageProperty (set_property cur pb)) in *.
  set (s1 := set_area cur (push_area (p + 2 ^ cur) (free_area s cur)) (set_pages (<[p + 2 ^ cur := pb']> (pages s)) s)).
  destruct (IH s1 s2 pg) as (s' & E1 & E2); [done|simpl; by rewrite lookup_insert_ne by lia| |].
  { rewrite <- H. f_equal. unfold s1, set_pages, set_area. simpl. f_equal. apply insert_insert_ne. lia. }
  exists s'. split; [|done]. unfold upd_area at 1. unfold mbind, M_bind. rewrite Hg. exact E1.
Qed.

Lemma held_released_below s s' z p n m k :
  0 <= n -> m <= n -> released s s' (p + m) k -> held s z p n -> held s' z p m.
Proof.
  intros Hn Hm (_ & G & F) [Hz Hf]. split.
  - eapply zone_pages_geom; [done|]. by eapply zone_pages_sub; [..|exact Hz]; lia.
  - intros q Hq [Hq'|?]%F; [|lia]. eapply Hf; [|exact Hq']. lia.
Qed.

(** What an allocation does: [n] pages from [p] leave the free set, nothing else. *)
Definition allocated (s s' : buddy) (p n : Z) : Prop :=
  binv s' /\ geom s s' /\ (exists z, held s' z p n) /\
  forall q, is_free s q <-> is_free s' q \/ p <= q < p + n.

Lemma take_block_spec s order cur p :
  binv s -> 0 <= order <= cur -> p ∈ fl s cur ->
  exists s' z, (_ ← upd_area cur (drop_area p);
             _ ← split_loop (Z.to_nat (cur - order)) order p;
             _ ← upd_page p ClearPageProperty; mret (Some p)) s = Ok (Some p, s') /\
    allocated s s' p (2 ^ order) /\ held s' z p (2 ^ order) /\ aligned s' z p order.
Proof.
  intros I Ho Hin. destruct (bi_block s I _ _ Hin) as (Hcur & z & Hz & Ha).
  destruct (remove_block_spec s cur p I Hin) as (s1 & E1 & I1 & G1 & F1).
  destruct (proj1 (bind_Ok _ _ _ _ _) E1) as ([] & s0 & E0 & E0'). mstep E0.
  assert (Hd : order + Z.of_nat (Z.to_nat (cur - order)) = cur) by lia.
  assert (H1 : held s1 z p (2 ^ cur)).
  { split; [by eapply zone_pages_geom|]. intros q Hq [_ Hn]%F1. done. }
  destruct (split_loop_spec z p order (Z.to_nat (cur - order)) s1) as (s2 & E2 & R2);
    rewrite ?Hd; [done|lia|lia|done|by eapply aligned_geom|]. rewrite Hd in R2.
  unfold upd_page in E0'. destruct (pages s0 !! p) as [pg|] eqn:Epg; [|done]. injection E0' as <-.
  destruct (split_loop_write p ClearPageProperty order _ s0 s2 pg ltac:(lia) Epg E2) as (s2' & E3 & E4).
  mstep E3. mstep E4.
  pose proof (pow2_pos order ltac:(lia)). assert (2 ^ order <= 2 ^ cur) by (apply Z.pow_le_mono_r; lia).
  assert (H2 : held s2 z p (2 ^ order)) by (eapply held_released_below; [..|exact R2|exact H1]; lia).
  destruct R2 as (I2 & G2 & F2). exists s2, z. split; [done|]. split_and!; [|done|].
  - split_and!; [done|by etrans|by exists z|]. intros q. rewrite F2, F1.
    assert (Hq : p <= q < p + 2 ^ cur -> is_free s q) by (intros; by exists cur, p).
    split.
    + intros Hfq. destruct (decide (p <= q < p + 2 ^ cur)); [|tauto].
      destruct (decide (q < p + 2 ^ order)); [right; lia|left; right; lia].
    + intros [[[? _]|?]|?]; [done|apply Hq; lia..].
  - apply (aligned_geom s); [by etrans|]. apply (mod_pow2_lower _ cur); [lia|exact Ha].
Qed.

Lemma alloc_sub_loop_spec s order (k : nat) : forall cur,
  binv s -> 0 <= order <= cur -> cur + Z.of_nat k = MAX_ORDER + 1 ->
  (exists p s' z, alloc_sub_loop k order cur s = Ok (Some p, s') /\ allocated s s' p (2 ^ order) /\
     held s' z p (2 ^ order) /\ aligned s' z p order) \/
  (alloc_sub_loop k order cur s = Ok (None, s) /\ forall o, cur <= o <= MAX_ORDER -> fl s o = []).
Proof.
  induction k as [|k IH]; intros cur I Ho Hk; cbn [alloc_sub_loop].
  { right. split; [done|]. intros o Hr. lia. }
  assert (E : rd_area cur s = Ok (free_area s cur, s)) by (unfold rd_area; rewrite order_guard by lia; done).
  mstep E. destruct (free_list (free_area s cur)) as [|p l] eqn:El.
  - destruct (IH (cur + 1) I ltac:(lia) ltac:(lia)) as [?|[E' Hn]]; [by left|right]. split; [done|].
    intros o Hr. destruct (decide (o = cur)) as [->|]; [done|]. apply Hn. lia.
  - left. destruct (take_block_spec s order cur p I Ho) as (s' & z & E' & ?).
    { unfold fl. rewrite El. left. }
    exists p, s', z. done.
Qed.

Lemma alloc_spec s n :
  binv s -> 0 < n <= 1024 ->
  (exists p s', buddy_alloc_pages n s = Ok (Some p, s') /\ allocated s s' p n) \/
  (buddy_alloc_pages n s = Ok (None, s) /\ forall o p, p ∈ fl s o -> 2 ^ o < n).
Proof.
  intros I Hn. unfold buddy_alloc_pages. destruct (getorder_spec n Hn) as (o & Eo & Ho & Hle & Hlt).
  rewrite bind_kassert by (apply Z.ltb_lt; lia).
  rewrite (bind_step _ _ s o s) by (by rewrite Eo).
  unfold buddy_alloc_pages_sub. rewrite bind_assoc_kassert by (apply Z.leb_le; lia).
  destruct (alloc_sub_loop_spec s o (Z.to_nat (MAX_ORDER + 1 - o)) o I ltac:(lia) ltac:(lia))
    as [(p & s1 & z & E1 & A1 & H1 & Ha)|[E1 Hnone]]; mstep E1; cbn beta iota.
  2: { right. split; [done|]. intros o' p Hin. pose proof (fl_order s I _ _ Hin).
       destruct (decide (o' < o)); [apply Hlt; lia|]. rewrite Hnone in Hin by lia. by apply not_elem_of_nil in Hin. }
  left. exists p. rewrite (shiftl_1 o) by lia. destruct (Z.eqb_spec n (2 ^ o)) as [->|Hne]; cbn [negb]; [by exists s1|].
  destruct A1 as (I1 & G1 & _ & F1).
  assert (2 ^ o <= 2 ^ 10) by (apply Z.pow_le_mono_r; unfold MAX_ORDER in *; lia). change (2 ^ 10) with 1024 in *.
  destruct (buddy_free_pages_spec s1 z (p + n) (2 ^ o - n)) as (s2 & E2 & R2); [done|lia| |].
  { by eapply held_sub; [..|exact H1]; lia. }
  exists s2. mstep E2. split; [done|].
  pose proof (held_released_below s1 s2 z p (2 ^ o) n (2 ^ o - n) ltac:(lia) Hle R2 H1) as H2.
  destruct R2 as (I2 & G2 & F2). split_and!; [done|by etrans|by exists z|].
  intros q. rewrite F1, F2. split; [intros [?|?]; [tauto|]|intros [[?|?]|?]; [tauto|right; lia..]].
  destruct (decide (q < p + n)); [right; lia|left; right; lia].
Qed.

(** C1: [buddy_alloc_pages n] takes a run of exactly [n] pages out of the free
    set, all of one zone and owned by nobody else; the blocks that cover the
    rest of the rounded-up block return to the lists, every assertion on the
    way holds, and the invariant (alignment, disjointness, counters, merged
    buddies) is kept.  It answers NULL only when every free block is smaller
    than [n], and then changes nothing. *)
Theorem buddy_alloc_pages_correct s n :
  binv s -> 0 < n <= 1024 ->
  (exists p s', buddy_alloc_pages n s = Ok (Some p, s') /\ allocated s s' p n) \/
  (buddy_alloc_pages n s = Ok (None, s) /\ forall o p, p ∈ fl s o -> 2 ^ o < n).
Proof. apply alloc_spec. Qed.

(** C2: releasing [n] owned pages makes exactly those pages free again, no
    assertion fails, and the invariant, in particular that free buddies are
    merged, is kept. *)
Theorem buddy_free_pages_correct s z p n :
  binv s -> 0 < n < 2048 -> held s z p n ->
  exists s', buddy_free_pages p n s = Ok (tt, s') /\ released s s' p n.
Proof. apply buddy_free_pages_spec. Qed.

(** ** Initialisation *)

Lemma memmap_clear_spec zn n : forall p s,
  (forall q, p <= q < p + Z.of_nat n -> exists pg, pages s !! q = Some pg /\ PageReserved pg = true) ->
  exists m, memmap_clear n p zn s = Ok (tt, set_pages m s) /\
    forall q, m !! q = if decide (p <= q < p + Z.of_nat n) then Some (Page 0 0 0 zn) else pages s !! q.
Proof.
  induction n as [|n IH]; intros p s H.
  { exists (pages s). split; [by destruct s|]. intros q. by rewrite decide_False by lia. }
  destruct (H p ltac:(lia)) as (pg & E & Hr).
  destruct (IH (p + 1) (set_pages (<[p := Page 0 0 0 zn]> (pages s)) s)) as (m & Em & Hm).
  { intros q Hq. cbn [pages set_pages]. rewrite lookup_insert_ne by lia. apply H. lia. }
  exists m. split.
  - cbn [memmap_clear]. mstep (rd_page_spec _ _ _ E). massert; [|done].
    mstep (upd_page_spec p (fun _ => Page 0 0 0 zn) _ _ E). exact Em.
  - intros q. rewrite Hm. cbn [pages set_pages]. destruct (decide (q = p)) as [->|].
    + rewrite decide_False, decide_True by lia. by rewrite lookup_insert_eq.
    + rewrite lookup_insert_ne by done. do 2 case_decide; try done; lia.
Qed.

(** The state after the pages were claimed for the new zone, before carving. *)
Definition add_zone (m : gmap Z page) (base : Z) (s : buddy) : buddy :=
  Buddy m (free_area s) (<[zone_cnt s := base]> (bzones s)) (zone_cnt s + 1) (npage s) (nbase s).

Section add_zone.
Context (s : buddy) (m : gmap Z page) (base n : Z).
Context (I : binv s) (Hn : 0 < n) (Hcnt : 0 <= zone_cnt s).
Context (Hres : forall q, base <= q < base + n -> exists pg, pages s !! q = Some pg /\ PageReserved pg = true).
Context (Hm : forall q, m !! q = if decide (base <= q < base + n) then Some (Page 0 0 0 (zone_cnt s)) else pages s !! q).

Lemma add_zone_outside q pg : pages s !! q = Some pg -> PageReserved pg = false -> m !! q = Some pg.
Proof. intros E Hr. rewrite Hm. case_decide as Hq; [|done]. destruct (Hres q Hq) as (? & ? & ?). congruence. Qed.

Lemma add_zone_old z p k :
  z <> zone_cnt s -> 0 < k -> zone_pages (add_zone m base s) z p k <-> zone_pages s z p k.
Proof.
  intros Hz Hk. unfold zone_pages, add_zone. cbn [zone_cnt bzones pages]. rewrite fn_lookup_insert_ne by done.
  split; intros (H1 & H2 & H3).
  - split_and!; [lia..|done|]. intros q Hq. destruct (H3 q Hq) as (pg & E & Hr & Hzn). rewrite Hm in E.
    case_decide; [injection E as <-; simpl in Hzn; congruence|eauto].
  - split_and!; [lia..|done|]. intros q Hq. destruct (H3 q Hq) as (pg & E & Hr & Hzn).
    exists pg. by rewrite (add_zone_outside q pg).
Qed.

Lemma add_zone_block o p :
  p ∈ fl s o -> exists z, z <> zone_cnt s /\ 0 <= o <= MAX_ORDER /\ zone_pages s z p (2 ^ o) /\ aligned s z p o.
Proof.
  intros H. destruct (bi_block s I _ _ H) as (Ho & z & Hz & Ha). exists z. split_and!; [|lia..|done|done].
  destruct Hz as [? _]. lia.
Qed.

Lemma add_zone_inv : binv (add_zone m base s).
Proof.
  split.
  - intros q. cbn [pages add_zone npage nbase]. rewrite Hm. case_decide as Hq; [|apply (bi_dom s I)].
    destruct (Hres q Hq) as (pg & E & _). rewrite <- (bi_dom s I), E. split; eauto.
  - intros z. cbn [zone_cnt bzones add_zone]. intros Hz. destruct (decide (z = zone_cnt s)) as [->|].
    + rewrite fn_lookup_insert. destruct (Hres base ltac:(lia)) as (pg & E & _).
      pose proof (proj1 (bi_dom s I base) ltac:(by eexists)). lia.
    + rewrite fn_lookup_insert_ne by done. apply (bi_base s I). lia.
  - intros o p H. destruct (add_zone_block o p H) as (z & Hne & Ho & Hz & Ha). split; [done|]. exists z.
    split; [apply add_zone_old; [done|apply pow2_pos; lia|done]|].
    unfold aligned, add_zone. cbn [bzones]. by rewrite fn_lookup_insert_ne by done.
  - intros p pg. cbn [pages add_zone]. rewrite Hm. case_decide; [by intros [= <-]|]. apply (bi_prop s I).
  - intros o p H. destruct (bi_head s I _ _ H) as (pg & E & HP & HO). exists pg.
    destruct (add_zone_block o p H) as (z & _ & Ho & Hz & _). pose proof (pow2_pos o ltac:(lia)).
    destruct (proj2 (proj2 Hz) p ltac:(lia)) as (pg' & E' & Hr & _).
    split; [|done]. apply add_zone_outside; congruence.
  - intros o p q pg H Hq. cbn [pages add_zone]. rewrite Hm. case_decide; [by intros [= <-]|].
    by eapply (bi_inner s I).
  - apply (bi_cnt s I).
  - intros o p z Ho H1 Hz1 H2 Hz2. pose proof (proj1 (fl_order s I _ _ H1)) as Ho0.
    pose proof (pow2_pos o Ho0) as Hpw.
    destruct (add_zone_block o p H1) as (z' & Hne & _ & Hz' & _).
    assert (z = z') as ->.
    { eapply zone_unique; [exact Hpw|exact Hpw|apply add_zone_old; [exact Hne|done|exact Hz']|exact Hz1]. }
    assert (Hb : buddy_of (add_zone m base s) z' p o = buddy_of s z' p o).
    { unfold buddy_of, add_zone. cbn [bzones]. by rewrite fn_lookup_insert_ne by done. }
    rewrite Hb in *. apply add_zone_old in Hz2; [|done..].
    exact (bi_merged s I o p z' Ho H1 Hz' H2 Hz2).
Qed.

Lemma add_zone_held : held (add_zone m base s) (zone_cnt s) base n.
Proof.
  split.
  - split_and!; cbn [zone_cnt bzones pages add_zone]; [lia..|by rewrite fn_lookup_insert|].
    intros q Hq. exists (Page 0 0 0 (zone_cnt s)). rewrite Hm, decide_True by done. done.
  - intros q Hq (o & p & Hin & Hr). destruct (add_zone_block o p Hin) as (z & _ & _ & Hz & _).
    destruct (proj2 (proj2 Hz) q Hr) as (pg & E & Hf & _). destruct (Hres q Hq) as (? & ? & ?). congruence.
Qed.

Lemma add_zone_fresh o p : p ∈ fl s o -> ~ zone_pages (add_zone m base s) (zone_cnt s) p (2 ^ o).
Proof.
  intros H Hz. destruct (add_zone_block o p H) as (z & Hne & Ho & Hz' & _).
  pose proof (pow2_pos o ltac:(lia)) as Hpw. apply Hne. symmetry.
  eapply zone_unique; [exact Hpw|exact Hpw|apply add_zone_old; [done|done|exact Hz']|exact Hz].
Qed.
End add_zone.

Lemma add_block_fl s s' o p o' p' :
  add_block o p s = Ok (tt, s') -> p' ∈ fl s' o' <-> p' ∈ fl s o' \/ (o' = o /\ p' = p).
Proof.
  unfold add_block. intros ([] & s1 & E1 & E2)%bind_Ok. unfold upd_page in E1. unfold upd_area in E2.
  destruct (pages s !! p); [|done]. injection E1 as <-. case_match; [|done]. injection E2 as <-.
  rewrite fl_set_area. case_decide; subst; [|naive_solver]. cbn [free_list push_area].
  rewrite elem_of_cons. unfold fl. cbn [free_area set_pages]. naive_solver.
Qed.

Lemma memmap_carve_spec z fuel : forall s n p o,
  binv s -> 0 <= o <= MAX_ORDER -> 0 <= n -> n + o + 1 <= Z.of_nat fuel ->
  (o < MAX_ORDER -> n < 2 ^ (o + 1)) -> held s z p n -> aligned s z p o ->
  (forall o' p', o' < MAX_ORDER -> (o' < o \/ o' = o /\ 2 ^ o <= n) -> p' ∈ fl s o' -> ~ zone_pages s z p' (2 ^ o')) ->
  exists s', memmap_carve fuel n p o s = Ok (tt, s') /\ released s s' p n.
Proof.
  induction fuel as [|fuel IH]; intros s n p o I Ho Hn Hf Hlt H Ha Hnone; [lia|].
  cbn [memmap_carve]. destruct (Z.eqb_spec n 0) as [->|Hn0].
  { exists s. split; [done|by apply released_refl]. }
  rewrite (shiftl_1 o) by lia. pose proof (pow2_pos o ltac:(lia)) as Hpw.
  destruct (Z.leb_spec (2 ^ o) n) as [L|L].
  - destruct (add_block_spec s o p z) as (s1 & E1 & I1 & G1 & F1); [done|done| |done| | |].
    { by eapply zone_pages_sub; [..|apply H]; lia. }
    { intros q Hq. apply (proj2 H). lia. }
    { intros Ho' Hin. apply Hnone; [done|by right|done]. }
    pose proof (add_block_fl s s1 o p) as Hfl.
    destruct (proj1 (bind_Ok _ _ _ _ _) E1) as ([] & s0 & E0 & E0'). mstep E0. mstep E0'.
    assert (R1 : released s s1 p (2 ^ o)) by done.
    pose proof (held_released s s1 z p n (2 ^ o) ltac:(lia) R1 H) as H1.
    pose proof (g_zones _ _ G1) as Hbz.
    destruct (IH s1 (n - 2 ^ o) (p + 2 ^ o) o) as (s' & E' & R'); [done|done|lia|lia|lia|done| |..].
    + unfold aligned in *. rewrite Hbz. replace (p + 2 ^ o - _) with (p - bzones s z + 1 * 2 ^ o) by lia.
      by rewrite Z_mod_plus_full.
    + intros o' p' Ho' Hcase [Hin|[-> ->]]%Hfl; [|..|done].
      * intros Hz. symmetry in G1. apply (zone_pages_geom _ _ _ _ _ G1) in Hz. eapply (Hnone o' p'); [done|..|done|done].
        destruct Hcase as [?|[-> ?]]; [by left|right; lia].
      * pose proof (pow2_succ o ltac:(lia)). specialize (Hlt Ho'). lia.
    + exists s'. split; [exact E'|]. replace n with (2 ^ o + (n - 2 ^ o)) by lia.
      by apply (released_join s s1 s'); [lia..| |].
  - assert (0 < o). { destruct (decide (o = 0)) as [->|]; [change (2 ^ 0) with 1 in L; lia|lia]. }
    apply IH; [done|lia|lia|lia| |done| |].
    + replace (o - 1 + 1) with o by lia. done.
    + apply (mod_pow2_lower _ o); [lia|exact Ha].
    + intros o' p' Ho' Hcase. apply Hnone; [done|]. left. lia.
Qed.

Lemma buddy_init_memmap_spec s base n :
  binv s -> 0 < n -> 0 <= zone_cnt s < MAX_ZONE_NUM ->
  (forall q, base <= q < base + n -> exists pg, pages s !! q = Some pg /\ PageReserved pg = true) ->
  exists s', buddy_init_memmap base n s = Ok (tt, s') /\ binv s' /\
    (forall q, is_free s' q <-> is_free s q \/ base <= q < base + n).
Proof.
  intros I Hn Hc Hres. unfold buddy_init_memmap. rewrite bind_gets.
  massert; [|rewrite andb_true_iff, !Z.ltb_lt; lia].
  destruct (memmap_clear_spec (zone_cnt s) (Z.to_nat n) base s) as (m & Em & Hm); rewrite Z2Nat.id in * by lia; [done|].
  mstep Em. set (s1 := add_zone m base s).
  assert (E1 : modify (fun s0 => Buddy (pages s0) (free_area s0) (<[zone_cnt s:=base]> (bzones s0))
    (zone_cnt s + 1) (npage s0) (nbase s0)) (set_pages m s) = Ok (tt, s1)) by done.
  mstep E1. pose proof (add_zone_inv s m base n I Hn Hres Hm) as I1.
  destruct (memmap_carve_spec (zone_cnt s) (Z.to_nat n + 11) s1 n base MAX_ORDER) as (s' & E' & I' & G' & F');
    [done|done|lia|unfold MAX_ORDER; lia|lia|apply (add_zone_held s m base n); [done|lia|done..]| | |].
  - unfold aligned, s1, add_zone. cbn [bzones]. rewrite fn_lookup_insert, Z.sub_diag. done.
  - intros o' p' _ _ Hin. by eapply (add_zone_fresh s m base n).
  - exists s'. split; [exact E'|]. split; [done|]. exact F'.
Qed.

(** [buddy_init_memmap] turns [n] reserved pages into a zone of free pages,
    cut into aligned blocks; what was free before stays free. *)
Theorem buddy_init_memmap_correct s base n :
  binv s -> 0 < n -> 0 <= zone_cnt s < MAX_ZONE_NUM ->
  (forall q, base <= q < base + n -> exists pg, pages s !! q = Some pg /\ PageReserved pg = true) ->
  exists s', buddy_init_memmap base n s = Ok (tt, s') /\ binv s' /\
    (forall q, is_free s' q <-> is_free s q \/ base <= q < base + n).
Proof. apply buddy_init_memmap_spec. Qed.

(** ** Counting *)

(** Every page of every free block, once. *)
Definition free_pages_of (s : buddy) : list Z :=
  seqZ 0 11 ≫= fun o => fl s o ≫= fun p => seqZ p (2 ^ o).

Lemma elem_of_free_pages_of s q : binv s -> q ∈ free_pages_of s <-> is_free s q.
Proof.
  intros I. unfold free_pages_of, is_free. rewrite list_elem_of_bind. split.
  - intros (o & Hq & Ho). apply list_elem_of_bind in Hq as (p & Hq & Hp).
    exists o, p. apply elem_of_seqZ in Hq. split; [done|lia].
  - intros (o & p & Hin & Hq). exists o. pose proof (fl_order s I _ _ Hin). unfold MAX_ORDER in *.
    split; [|apply elem_of_seqZ; lia]. apply list_elem_of_bind. exists p. split; [|done].
    apply elem_of_seqZ. lia.
Qed.

Lemma NoDup_free_pages_of s : binv s -> NoDup (free_pages_of s).
Proof.
  intros I. apply NoDup_bind; [| |apply NoDup_seqZ].
  - intros o1 o2 q _ _ H1 H2. apply list_elem_of_bind in H1 as (p1 & Q1%elem_of_seqZ & P1).
    apply list_elem_of_bind in H2 as (p2 & Q2%elem_of_seqZ & P2).
    by eapply (blocks_disjoint s o1 p1 o2 p2 q).
  - intros o Ho. apply NoDup_bind; [| |apply (bi_cnt s I)].
    + intros p1 p2 q P1 P2 Q1%elem_of_seqZ Q2%elem_of_seqZ.
      by eapply (blocks_disjoint s o p1 o p2 q).
    + intros p _. apply NoDup_seqZ.
Qed.

Lemma u32_add_r a b : u32 (a + u32 b) = u32 (a + b).
Proof. unfold umod. apply Zplus_mod_idemp_r. Qed.
Lemma u32_mul_l a b : u32 (u32 a * b) = u32 (a * b).
Proof. unfold umod. apply Zmult_mod_idemp_l. Qed.

Lemma length_blocks (l : list Z) k : 0 <= k ->
  Z.of_nat (length (l ≫= fun p => seqZ p k)) = Z.of_nat (length l) * k.
Proof.
  intros Hk. induction l as [|p l IH]; [done|]. rewrite bind_cons, length_app, Nat2Z.inj_add, IH.
  rewrite length_seqZ, length_cons. lia.
Qed.

(** [buddy_nr_free_pages] counts the free pages (as a 32-bit number): the
    sum over the areas' counters is the length of a duplicate-free list of
    exactly the pages that some free block covers. *)
Theorem buddy_nr_free_pages_correct s :
  binv s ->
  buddy_nr_free_pages s = u32 (Z.of_nat (length (free_pages_of s))) /\
  NoDup (free_pages_of s) /\ (forall q, q ∈ free_pages_of s <-> is_free s q).
Proof.
  intros I. split; [|split; [by apply NoDup_free_pages_of|intros; by apply elem_of_free_pages_of]].
  unfold buddy_nr_free_pages, free_pages_of.
  assert (Hgen : forall l a, Forall (fun o => 0 <= o) l ->
    foldl (fun ret order => u32 (ret + nrf s order * Z.shiftl 1 order)) (u32 a) l =
    u32 (a + Z.of_nat (length (l ≫= fun o => fl s o ≫= fun p => seqZ p (2 ^ o))))).
  { induction l as [|o l IH]; intros a Hl.
    - simpl. by rewrite Z.add_0_r.
    - apply Forall_cons in Hl as [Ho Hl]. cbn [foldl]. rewrite u32_add_l, IH by done.
      rewrite bind_cons, length_app, Nat2Z.inj_add.
      rewrite length_blocks by (apply Z.pow_nonneg; lia). rewrite shiftl_1 by done.
      rewrite (proj2 (bi_cnt s I o)).
      rewrite <- (u32_add_l (a + _)), <- (u32_add_r a), u32_mul_l, u32_add_r, u32_add_l. f_equal. lia. }
  apply (Hgen (seqZ 0 11) 0). by apply (bool_decide_unpack _).
Qed.

(** ** The page allocator's public face (arch/soc/mm/pmm.c)

    Interrupts are off and [pmm_lock] is held around every call of the manager,
    so the calls are atomic; [used_pages] is the per-CPU counter. *)

Record pmm := Pmm { manager : buddy; used_pages : Z }.

Definition alloc_pages (n : Z) : M pmm (option Z) := fun s =>
  '(page, b) ← buddy_alloc_pages n (manager s);
  mret (page, Pmm b (u32 (used_pages s + n))).

Definition free_pages (base n : Z) : M pmm unit := fun s =>
  '(_, b) ← buddy_free_pages base n (manager s);
  mret (tt, Pmm b (u32 (used_pages s - n))).

Definition nr_free_pages (s : pmm) : Z := buddy_nr_free_pages (manager s).

(** [free_pages] undoes [alloc_pages]: the same pages are free as before
    and the usage counter is back at its value. *)
Theorem alloc_free_roundtrip s n p s1 :
  binv (manager s) -> 0 < n <= 1024 -> is_u 32 (used_pages s) -> alloc_pages n s = Ok (Some p, s1) ->
  exists s2, free_pages p n s1 = Ok (tt, s2) /\ binv (manager s2) /\ used_pages s2 = used_pages s /\
    forall q, is_free (manager s2) q <-> is_free (manager s) q.
Proof.
  intros I Hn Hu E. unfold alloc_pages in E.
  destruct (alloc_spec (manager s) n I Hn) as [(p' & b1 & E1 & A1)|[E1 _]]; rewrite E1 in E; [|done].
  cbn in E. injection E as <- <-. destruct A1 as (I1 & G1 & [z H1] & F1).
  destruct (buddy_free_pages_spec b1 z p' n I1 ltac:(lia) H1) as (b2 & E2 & I2 & G2 & F2).
  exists (Pmm b2 (u32 (u32 (used_pages s + n) - n))). unfold free_pages. cbn [manager used_pages].
  rewrite E2. split; [done|]. split; [done|]. split.
  - unfold Z.sub. rewrite u32_add_l. replace (used_pages s + n + - n) with (used_pages s) by lia. by apply umod_small.
  - intros q. by rewrite F2, F1.
Qed.

(** A failing [alloc_pages] still charges the request: no page is handed
    out, yet the usage counter grows by [n]. *)
Theorem alloc_pages_charges_failure s n s1 :
  binv (manager s) -> 0 < n <= 1024 -> alloc_pages n s = Ok (None, s1) ->
  manager s1 = manager s /\ used_pages s1 = u32 (used_pages s + n).
Proof.
  intros I Hn E. unfold alloc_pages in E.
  destruct (alloc_spec (manager s) n I Hn) as [(p' & b1 & E1 & A1)|[E1 _]]; rewrite E1 in E; [done|].
  cbn in E. by injection E as <-.
Qed.

(** ** A concrete machine: 20 page frames, of which 13 become a zone *)

Definition ex_pages : gmap Z page := list_to_map (zip (seqZ 0 20) (replicate 20 (Page 0 1 0 0))).
Definition ex_s0 : buddy := Buddy ex_pages (fun _ => FreeArea [] 0) (fun _ => 0) 0 28 8.

Definition state_of {A} (s : buddy) (r : outcome (A * buddy)) : buddy :=
  match r with Ok (_, s') => s' | Err _ => s end.

Definition ex_s1 : buddy := state_of ex_s0 (buddy_init_memmap 2 13 ex_s0).
Definition ex_s2 : buddy := state_of ex_s1 (buddy_alloc_pages 3 ex_s1).

Lemma ex_pages_lookup q :
  ex_pages !! q = if decide (0 <= q < 20) then Some (Page 0 1 0 0) else None.
Proof.
  case_decide as Hq.
  - assert (Hall : Forall (fun q => ex_pages !! q = Some (Page 0 1 0 0)) (seqZ 0 20))
      by (apply (bool_decide_unpack _); vm_compute; exact I).
    rewrite list.Forall_forall in Hall. apply Hall, elem_of_seqZ. lia.
  - apply not_elem_of_list_to_map_1. rewrite fst_zip by (vm_compute; lia).
    rewrite elem_of_seqZ. lia.
Qed.

Lemma ex_s0_inv : binv ex_s0.
Proof.
  assert (Hnil : forall o p, p ∉ fl ex_s0 o) by (intros; by apply not_elem_of_nil).
  split.
  - intros q. cbn [pages ex_s0 npage nbase]. rewrite ex_pages_lookup. case_decide; [|].
    + split; [lia|by eexists].
    + split; [by intros []|lia].
  - done.
  - by intros o p ?%Hnil.
  - intros p pg. cbn [pages ex_s0]. rewrite ex_pages_lookup. case_decide; [by intros [= <-]|done].
  - by intros o p ?%Hnil.
  - by intros o p q pg ?%Hnil.
  - intros o. split; [apply NoDup_nil_2|reflexivity].
  - by intros o p z _ ?%Hnil.
Qed.

Lemma ex_reserved q : 2 <= q < 2 + 13 -> exists pg, pages ex_s0 !! q = Some pg /\ PageReserved pg = true.
Proof. intros. exists (Page 0 1 0 0). cbn [pages ex_s0]. rewrite ex_pages_lookup, decide_True by lia. done. Qed.

Lemma ex_s1_inv : binv ex_s1.
Proof.
  destruct (buddy_init_memmap_spec ex_s0 2 13 ex_s0_inv) as (s' & E & I & _); [done|done|apply ex_reserved|].
  unfold ex_s1. rewrite E. exact I.
Qed.

Lemma ex_s1_count : buddy_nr_free_pages ex_s1 = 13 /\ length (free_pages_of ex_s1) = 13%nat.
Proof. split; vm_compute; reflexivity. Qed.

Lemma ex_s1_alloc3 : (fst <$> buddy_alloc_pages 3 ex_s1) = Ok (Some 10).
Proof. vm_compute. reflexivity. Qed.
Lemma ex_s1_alloc16 : (fst <$> buddy_alloc_pages 16 ex_s1) = Ok None.
Proof. vm_compute. reflexivity. Qed.

#[local] Opaque ex_s1.

Lemma ex_s2_run : buddy_alloc_pages 3 ex_s1 = Ok (Some 10, ex_s2) /\ allocated ex_s1 ex_s2 10 3.
Proof.
  pose proof ex_s1_alloc3 as Hp. unfold ex_s2. revert Hp.
  destruct (alloc_spec ex_s1 3 ex_s1_inv ltac:(lia)) as [(p & s' & E & A)|[E _]]; rewrite E; simpl; [|discriminate].
  intros [= ->]. split; [reflexivity|exact A].
Qed.

Lemma ex_s1_full : buddy_alloc_pages 16 ex_s1 = Ok (None, ex_s1).
Proof.
  pose proof ex_s1_alloc16 as Hp. revert Hp.
  destruct (alloc_spec ex_s1 16 ex_s1_inv ltac:(lia)) as [(p & s' & E & A)|[E _]]; rewrite E; simpl;
    [discriminate|reflexivity].
Qed.

#[local] Opaque ex_s2.

Lemma buddy_alloc_pages_correct_witness :
  (exists p s', buddy_alloc_pages 3 ex_s1 = Ok (Some p, s') /\ allocated ex_s1 s' p 3) \/
  (buddy_alloc_pages 3 ex_s1 = Ok (None, ex_s1) /\ forall o p, p ∈ fl ex_s1 o -> 2 ^ o < 3).
Proof. apply (buddy_alloc_pages_correct ex_s1 3); [exact ex_s1_inv|lia]. Defined.

Lemma buddy_free_pages_correct_witness :
  exists z s', held ex_s2 z 10 3 /\ buddy_free_pages 10 3 ex_s2 = Ok (tt, s') /\ released ex_s2 s' 10 3.
Proof.
  destruct ex_s2_run as (_ & I & _ & [z H] & _).
  destruct (buddy_free_pages_correct ex_s2 z 10 3 I ltac:(lia) H) as (s' & E & R).
  exists z, s'. exact (conj H (conj E R)).
Defined.

Lemma buddy_init_memmap_correct_witness :
  exists s', buddy_init_memmap 2 13 ex_s0 = Ok (tt, s') /\ binv s' /\
    (forall q, is_free s' q <-> is_free ex_s0 q \/ 2 <= q < 2 + 13).
Proof.
  apply (buddy_init_memmap_correct ex_s0 2 13); [exact ex_s0_inv|lia|done|exact ex_reserved].
Defined.

Lemma buddy_nr_free_pages_correct_witness :
  buddy_nr_free_pages ex_s1 = 13 /\ length (free_pages_of ex_s1) = 13%nat /\
  NoDup (free_pages_of ex_s1) /\ (forall q, q ∈ free_pages_of ex_s1 <-> is_free ex_s1 q).
Proof.
  destruct (buddy_nr_free_pages_correct ex_s1 ex_s1_inv) as (_ & H2 & H3).
  destruct ex_s1_count as [H0 H1]. exact (conj H0 (conj H1 (conj H2 H3))).
Defined.

Lemma alloc_free_roundtrip_witness :
  exists s1 s2, alloc_pages 3 (Pmm ex_s1 100) = Ok (Some 10, s1) /\
    free_pages 10 3 s1 = Ok (tt, s2) /\ used_pages s2 = 100.
Proof.
  assert (E : alloc_pages 3 (Pmm ex_s1 100) = Ok (Some 10, Pmm ex_s2 103))
    by (unfold alloc_pages; cbn [manager]; rewrite (proj1 ex_s2_run); reflexivity).
  destruct (alloc_free_roundtrip (Pmm ex_s1 100) 3 10 _ ex_s1_inv ltac:(lia) ltac:(unfold is_u; cbn [used_pages]; lia) E)
    as (s2 & E2 & _ & Hu & _).
  exists (Pmm ex_s2 103), s2. exact (conj E (conj E2 Hu)).
Defined.

Lemma alloc_pages_charges_failure_witness :
  exists s1, alloc_pages 16 (Pmm ex_s1 100) = Ok (None, s1) /\ used_pages s1 = 116.
Proof.
  assert (E : alloc_pages 16 (Pmm ex_s1 100) = Ok (None, Pmm ex_s1 116))
    by (unfold alloc_pages; cbn [manager]; rewrite ex_s1_full; reflexivity).
  exists (Pmm ex_s1 116). split; [exact E|].
  apply (alloc_pages_charges_failure (Pmm ex_s1 100) 16 _ ex_s1_inv ltac:(lia) E).
Defined.
