(* ===== verification/Sched.v ===== *)
(** * Sched: the scheduler (schedule/sched.c and the scheduling classes)

    The state is what sched.c touches: the process descriptors, one run queue,
    current/idle/previous process and timer list per CPU, and the spinlocks
    held.  Interrupts are disabled inside these routines and the model runs one
    CPU at a time, so acquiring a spinlock that is held is a deadlock.
    [sched_class] is the record of function pointers of sched.h; [SchedClass]
    states what a class promises, RR, MPRR and MLFQ are instances, and the
    theorems about sched.c are proved from the promise alone.  The timer list is
    modelled in Timer.v over the same state. *)

From stdpp Require Import numbers gmap functions list.
From S2P Require Import Prelude.
Local Open Scope Z_scope.

(** ** Data (proc.h, sched.h, smp.h) *)

Inductive proc_state := PROC_UNINIT | PROC_SLEEPING | PROC_RUNNABLE | PROC_ZOMBIE.

#[export] Instance proc_state_eq_dec : EqDecision proc_state.
Proof. solve_decision. Defined.

(** The scheduling part of [struct proc_struct]; [rq] is the index of the CPU
    whose run queue the field points to, [thread_next] the next of the thread
    group's ring. *)
Record proc := Proc {
  state : proc_state; pid : Z; runs : Z; need_resched : bool; pflags : Z; wait_state : Z;
  rq : option Z; time_slice : Z; cpu_affinity : Z; thread_next : Z }.

Definition PF_PINCPU : Z := 2.
Definition WT_INTERRUPTED : Z := 0x80000000.
Definition WT_SIGNAL : Z := Z.lor 0x400 WT_INTERRUPTED.

(** [run_list] is the sequence [libs/list.h] keeps; [rq_ring] the ring through
    [rq_link], starting at the queue itself. *)
Record run_queue := RunQueue {
  run_list : list Z; proc_num : Z; max_time_slice : Z; rq_ring : list Z }.

Record cpu := Cpu { cproc : Z; idle : Z; prev : Z; timer_list : list Z }.

(** [linux] is [None] for an ordinary timer, [Some f] for one with
    [linux_timer != NULL], [f] its callback if any. *)
Record timer_t := Timer { expires : Z; tproc : option Z; linux : option (option Z) }.

(** Spinlocks: those of sched.c, and those of the clients in sync/. *)
Inductive lock :=
| StupidLock | RqLock (c : Z) | ProcLock (p : Z) | TimerLock (c : Z)
| SemLock (sem : Z) | EventStupidLock | EventLock (p : Z) | WaitQueueLock (q : Z) | MboxLock | ProcTableLock.

#[export] Instance lock_eq_dec : EqDecision lock.
Proof. solve_decision. Defined.

Record sched := Sched {
  procs : gmap Z proc; rqs : gmap Z run_queue; cpus : gmap Z cpu; timers : gmap Z timer_t;
  locks : list lock; myid : Z; in_interrupt : bool }.

(** ** Accesses *)

Definition set_procs (m : gmap Z proc) (s : sched) : sched :=
  Sched m (rqs s) (cpus s) (timers s) (locks s) (myid s) (in_interrupt s).
Definition set_rq (r : Z) (q : run_queue) (s : sched) : sched :=
  Sched (procs s) (<[r := q]> (rqs s)) (cpus s) (timers s) (locks s) (myid s) (in_interrupt s).
Definition set_cpu (c : Z) (x : cpu) (s : sched) : sched :=
  Sched (procs s) (rqs s) (<[c := x]> (cpus s)) (timers s) (locks s) (myid s) (in_interrupt s).
Definition set_timers (m : gmap Z timer_t) (s : sched) : sched :=
  Sched (procs s) (rqs s) (cpus s) m (locks s) (myid s) (in_interrupt s).
Definition set_locks (l : list lock) (s : sched) : sched :=
  Sched (procs s) (rqs s) (cpus s) (timers s) l (myid s) (in_interrupt s).

Definition rd_proc (p : Z) : M sched proc := load (fun s => procs s !! p).
Definition upd_proc (p : Z) (f : proc -> proc) : M sched unit := fun s =>
  match procs s !! p with
  | Some pr => Ok (tt, set_procs (<[p := f pr]> (procs s)) s)
  | None => Err BadAccess
  end.
Definition rd_rq (r : Z) : M sched run_queue := load (fun s => rqs s !! r).
Definition upd_rq (r : Z) (f : run_queue -> run_queue) : M sched unit := fun s =>
  match rqs s !! r with
  | Some q => Ok (tt, set_rq r (f q) s)
  | None => Err BadAccess
  end.
Definition mycpu : M sched cpu := load (fun s => cpus s !! myid s).

Definition with_state (v : proc_state) (p : proc) : proc :=
  Proc v (pid p) (runs p) (need_resched p) (pflags p) (wait_state p) (rq p) (time_slice p) (cpu_affinity p) (thread_next p).
Definition with_runs (v : Z) (p : proc) : proc :=
  Proc (state p) (pid p) v (need_resched p) (pflags p) (wait_state p) (rq p) (time_slice p) (cpu_affinity p) (thread_next p).
Definition with_resched (v : bool) (p : proc) : proc :=
  Proc (state p) (pid p) (runs p) v (pflags p) (wait_state p) (rq p) (time_slice p) (cpu_affinity p) (thread_next p).
Definition with_wait (v : Z) (p : proc) : proc :=
  Proc (state p) (pid p) (runs p) (need_resched p) (pflags p) v (rq p) (time_slice p) (cpu_affinity p) (thread_next p).
Definition with_rq (v : option Z) (p : proc) : proc :=
  Proc (state p) (pid p) (runs p) (need_resched p) (pflags p) (wait_state p) v (time_slice p) (cpu_affinity p) (thread_next p).
Definition with_slice (v : Z) (p : proc) : proc :=
  Proc (state p) (pid p) (runs p) (need_resched p) (pflags p) (wait_state p) (rq p) v (cpu_affinity p) (thread_next p).
Definition with_affinity (v : Z) (p : proc) : proc :=
  Proc (state p) (pid p) (runs p) (need_resched p) (pflags p) (wait_state p) (rq p) (time_slice p) v (thread_next p).

Definition current : M sched Z := c ← mycpu; mret (cproc c).
Definition idleproc : M sched Z := c ← mycpu; mret (idle c).

(** [spinlock_acquire] spins until the lock is free; [spinlock_release] asserts
    that it is held. *)
Definition spinlock_acquire (l : lock) : M sched unit := fun s =>
  if bool_decide (l ∈ locks s) then Err Deadlock else Ok (tt, set_locks (l :: locks s) s).
Definition spinlock_release (l : lock) : M sched unit := fun s =>
  if bool_decide (l ∈ locks s) then Ok (tt, set_locks (filter (fun l' => l' <> l) (locks s)) s)
  else Err AssertFailed.

(** [list_empty(&proc->run_link)]: the process is in no run queue. *)
Definition run_link_empty (p : Z) (s : sched) : bool :=
  bool_decide (map_Forall (fun _ q => p ∉ run_list q) (rqs s)).

(** ** Round robin (sched_RR.c) *)

Definition RR_init (r : Z) : M sched unit :=
  upd_rq r (fun q => RunQueue [] 0 (max_time_slice q) (rq_ring q)).

Definition RR_enqueue (r p : Z) : M sched unit :=
  e ← gets (run_link_empty p);
  _ ← kassert e;
  _ ← upd_rq r (fun q => RunQueue (run_list q ++ [p]) (proc_num q) (max_time_slice q) (rq_ring q));
  q ← rd_rq r;
  let mts := max_time_slice q in
  pr ← rd_proc p;
  _ ← (if (time_slice pr =? 0) || (mts <? time_slice pr)
       then upd_proc p (with_slice mts) else mret tt);
  _ ← upd_proc p (with_rq (Some r));
  upd_rq r (fun q => RunQueue (run_list q) (u32 (proc_num q + 1)) (max_time_slice q) (rq_ring q)).

Definition RR_dequeue (r p : Z) : M sched unit :=
  e ← gets (run_link_empty p);
  pr ← rd_proc p;
  _ ← kassert (negb e && bool_decide (rq pr = Some r));
  _ ← upd_rq r (fun q => RunQueue (filter (fun x => x <> p) (run_list q)) (proc_num q) (max_time_slice q) (rq_ring q));
  upd_rq r (fun q => RunQueue (run_list q) (u32 (proc_num q - 1)) (max_time_slice q) (rq_ring q)).

Definition RR_pick_next (r : Z) : M sched (option Z) := q ← rd_rq r; mret (head (run_list q)).

Definition RR_proc_tick (r : option Z) (p : Z) : M sched unit :=
  pr ← rd_proc p;
  _ ← (if 0 <? time_slice pr then upd_proc p (with_slice (time_slice pr - 1)) else mret tt);
  pr ← rd_proc p;
  if time_slice pr =? 0 then upd_proc p (with_resched true) else mret tt.

(** The loop of [RR_get_proc]: the test [num >= needs] follows the store. *)
Fixpoint get_proc_loop (l : list Z) (num needs : Z) : list Z :=
  match l with
  | [] => []
  | p :: l' => p :: (if needs <=? num + 1 then [] else get_proc_loop l' (num + 1) needs)
  end.
Definition RR_get_proc (r needs : Z) : M sched (list Z) :=
  q ← rd_rq r; mret (get_proc_loop (run_list q) 0 needs).

(** ** The function table (sched.h) *)

Record sched_class := {
  init : Z -> M sched unit;
  enqueue : Z -> Z -> M sched unit;
  dequeue : Z -> Z -> M sched unit;
  pick_next : Z -> M sched (option Z);
  proc_tick : option Z -> Z -> M sched unit;
  get_proc : Z -> Z -> M sched (list Z) }.

Definition RR_sched_class : sched_class := {|
  init := RR_init; enqueue := RR_enqueue; dequeue := RR_dequeue; pick_next := RR_pick_next;
  proc_tick := RR_proc_tick; get_proc := RR_get_proc |}.

(** ** sched_mpRR.c *)

Definition MPRR_init (r : Z) : M sched unit :=
  upd_rq r (fun q => RunQueue [] 0 (max_time_slice q) (rq_ring q)).

Definition MPRR_enqueue (r p : Z) : M sched unit :=
  e ← gets (run_link_empty p);
  _ ← kassert e;
  _ ← upd_rq r (fun q => RunQueue (run_list q ++ [p]) (proc_num q) (max_time_slice q) (rq_ring q));
  q ← rd_rq r;
  let mts := max_time_slice q in
  pr ← rd_proc p;
  _ ← (if (time_slice pr =? 0) || (mts <? time_slice pr)
       then upd_proc p (with_slice mts) else mret tt);
  _ ← upd_proc p (with_rq (Some r));
  upd_rq r (fun q => RunQueue (run_list q) (u32 (proc_num q + 1)) (max_time_slice q) (rq_ring q)).

Definition MPRR_dequeue (r p : Z) : M sched unit :=
  e ← gets (run_link_empty p);
  pr ← rd_proc p;
  _ ← kassert (negb e && bool_decide (rq pr = Some r));
  _ ← upd_rq r (fun q => RunQueue (filter (fun x => x <> p) (run_list q)) (proc_num q) (max_time_slice q) (rq_ring q));
  upd_rq r (fun q => RunQueue (run_list q) (u32 (proc_num q - 1)) (max_time_slice q) (rq_ring q)).

Definition MPRR_pick_next (r : Z) : M sched (option Z) := q ← rd_rq r; mret (head (run_list q)).

Definition MPRR_proc_tick (r : option Z) (p : Z) : M sched unit :=
  pr ← rd_proc p;
  _ ← (if 0 <? time_slice pr then upd_proc p (with_slice (time_slice pr - 1)) else mret tt);
  pr ← rd_proc p;
  if time_slice pr =? 0 then upd_proc p (with_resched true) else mret tt.

Definition MPRR_get_proc (r needs : Z) : M sched (list Z) :=
  q ← rd_rq r; mret (get_proc_loop (run_list q) 0 needs).

Definition MPRR_sched_class : sched_class := {|
  init := MPRR_init; enqueue := MPRR_enqueue; dequeue := MPRR_dequeue; pick_next := MPRR_pick_next;
  proc_tick := MPRR_proc_tick; get_proc := MPRR_get_proc |}.

(** ** sched_MLFQ.c: a class over the round-robin class *)

Fixpoint mlfq_init_loop (ring : list Z) : M sched unit :=
  match ring with
  | [] => mret tt
  | r :: ring' => _ ← init RR_sched_class r; mlfq_init_loop ring'
  end.
Definition MLFQ_init (r : Z) : M sched unit :=
  q ← rd_rq r; mlfq_init_loop (rq_ring q).

(** [NCPU] is the configured number of CPUs. *)
Definition findRQ (NCPU : Z) (r : Z) : M sched Z :=
  match find (fun i => i =? r) (seqZ 0 NCPU) with
  | Some i => mret i
  | None => fail AssertFailed
  end.

Definition MLFQ_enqueue (r p : Z) : M sched unit :=
  e ← gets (run_link_empty p);
  _ ← kassert e;
  enqueue RR_sched_class r p.

Definition MLFQ_dequeue (r p : Z) : M sched unit :=
  e ← gets (run_link_empty p);
  pr ← rd_proc p;
  _ ← kassert (negb e && bool_decide (rq pr = Some r));
  match rq pr with
  | Some r' => dequeue RR_sched_class r' p
  | None => fail BadAccess
  end.

(** The [do ... while] walk along the ring of run queues. *)
Fixpoint mlfq_pick_loop (ring : list Z) : M sched (option Z) :=
  match ring with
  | [] => mret None
  | r :: ring' =>
      next ← pick_next RR_sched_class r;
      match next with Some p => mret (Some p) | None => mlfq_pick_loop ring' end
  end.
Definition MLFQ_pick_next (r : Z) : M sched (option Z) :=
  q ← rd_rq r; mlfq_pick_loop (rq_ring q).

Definition MLFQ_proc_tick (r : option Z) (p : Z) : M sched unit :=
  pr ← rd_proc p; proc_tick RR_sched_class (rq pr) p.

Definition MLFQ_get_proc (r needs : Z) : M sched (list Z) := get_proc RR_sched_class r needs.

Definition MLFQ_sched_class : sched_class := {|
  init := MLFQ_init; enqueue := MLFQ_enqueue; dequeue := MLFQ_dequeue; pick_next := MLFQ_pick_next;
  proc_tick := MLFQ_proc_tick; get_proc := MLFQ_get_proc |}.

(** ** What a scheduling class promises *)

Definition top_up (mts : Z) (pr : proc) : proc :=
  if (time_slice pr =? 0) || (mts <? time_slice pr) then with_slice mts pr else pr.

Definition enq_proc (r mts : Z) (pr : proc) : proc := with_rq (Some r) (top_up mts pr).
Definition enq_rq (p : Z) (q : run_queue) : run_queue :=
  RunQueue (run_list q ++ [p]) (u32 (proc_num q + 1)) (max_time_slice q) (rq_ring q).
Definition deq_rq (p : Z) (q : run_queue) : run_queue :=
  RunQueue (filter (fun x => x <> p) (run_list q)) (u32 (proc_num q - 1)) (max_time_slice q) (rq_ring q).
Definition tick_proc (pr : proc) : proc :=
  let pr' := if 0 <? time_slice pr then with_slice (time_slice pr - 1) pr else pr in
  if time_slice pr' =? 0 then with_resched true pr' else pr'.

(** The contract: first in, first out per queue, at the state level. *)
Class SchedClass (C : sched_class) : Prop := {
  sc_enqueue : forall r q p pr s,
    rqs s !! r = Some q -> procs s !! p = Some pr -> run_link_empty p s = true ->
    enqueue C r p s =
      Ok (tt, set_rq r (enq_rq p q) (set_procs (<[p := enq_proc r (max_time_slice q) pr]> (procs s)) s));
  sc_dequeue : forall r q p pr s,
    rqs s !! r = Some q -> procs s !! p = Some pr -> p ∈ run_list q -> rq pr = Some r ->
    dequeue C r p s = Ok (tt, set_rq r (deq_rq p q) s);
  sc_pick : forall r q s,
    rqs s !! r = Some q -> rq_ring q = [r] -> pick_next C r s = Ok (head (run_list q), s);
  sc_tick : forall r p pr s,
    procs s !! p = Some pr ->
    proc_tick C r p s = Ok (tt, set_procs (<[p := tick_proc pr]> (procs s)) s) }.

Lemma rd_proc_spec p pr s : procs s !! p = Some pr -> rd_proc p s = Ok (pr, s).
Proof. unfold rd_proc, load. by intros ->. Qed.
Lemma upd_proc_spec p f pr s :
  procs s !! p = Some pr -> upd_proc p f s = Ok (tt, set_procs (<[p := f pr]> (procs s)) s).
Proof. unfold upd_proc. by intros ->. Qed.
Lemma rd_rq_spec r q s : rqs s !! r = Some q -> rd_rq r s = Ok (q, s).
Proof. unfold rd_rq, load. by intros ->. Qed.
Lemma upd_rq_spec r f q s : rqs s !! r = Some q -> upd_rq r f s = Ok (tt, set_rq r (f q) s).
Proof. unfold upd_rq. by intros ->. Qed.

Lemma run_link_empty_false r q p s : rqs s !! r = Some q -> p ∈ run_list q -> run_link_empty p s = false.
Proof. intros Hq Hp. apply bool_decide_eq_false_2. intros H. by apply (H r q). Qed.

(** Two updates of one process in a row are one. *)
Lemma set_procs_twice p a b m s :
  set_procs (<[p := a]> (procs (set_procs (<[p := b]> m) s))) (set_procs (<[p := b]> m) s) =
  set_procs (<[p := a]> m) s.
Proof. unfold set_procs. cbn [procs]. by rewrite insert_insert_eq. Qed.

#[export] Instance RR_is_SchedClass : SchedClass RR_sched_class.
Proof.
  split; cbn [enqueue dequeue pick_next proc_tick RR_sched_class].
  - intros r q p pr s Hq Hp He. unfold RR_enqueue. rewrite bind_gets, He. massert; [|done].
    mstep (upd_rq_spec r (fun q => RunQueue (run_list q ++ [p]) (proc_num q) (max_time_slice q) (rq_ring q)) _ _ Hq).
    set (q1 := RunQueue _ _ _ _). set (s1 := set_rq r q1 s).
    assert (Hq1 : rqs s1 !! r = Some q1) by apply lookup_insert_eq.
    mstep (rd_rq_spec _ _ _ Hq1). cbn zeta. mstep (rd_proc_spec p pr s1 Hp).
    unfold enq_proc, top_up. cbn [max_time_slice q1].
    assert (Hend : forall pr', (_ ← upd_proc p (with_rq (Some r));
      upd_rq r (fun q => RunQueue (run_list q) (u32 (proc_num q + 1)) (max_time_slice q) (rq_ring q)))
      (set_procs (<[p := pr']> (procs s)) s1) =
      Ok (tt, set_rq r (enq_rq p q) (set_procs (<[p := with_rq (Some r) pr']> (procs s)) s))).
    { intros pr'. mstep (upd_proc_spec p (with_rq (Some r)) pr' (set_procs (<[p := pr']> (procs s)) s1) ltac:(apply lookup_insert_eq)).
      rewrite set_procs_twice. unfold upd_rq. cbn [rqs set_procs]. rewrite Hq1.
      unfold set_rq, set_procs, s1. cbn. by rewrite insert_insert_eq. }
    case_match.
    + mstep (upd_proc_spec p (with_slice (max_time_slice q)) _ s1 Hp). apply Hend.
    + specialize (Hend pr). rewrite insert_id in Hend by done. exact Hend.
  - intros r q p pr s Hq Hp Hin Hr. unfold RR_dequeue.
    rewrite bind_gets, (run_link_empty_false r q p s) by done. mstep (rd_proc_spec _ _ _ Hp).
    massert; [|by rewrite bool_decide_eq_true_2].
    mstep (upd_rq_spec r (fun q => RunQueue (filter (fun x => x <> p) (run_list q)) (proc_num q) (max_time_slice q) (rq_ring q)) _ _ Hq).
    unfold upd_rq. cbn [rqs set_rq]. rewrite lookup_insert_eq. unfold set_rq. cbn. by rewrite insert_insert_eq.
  - intros r q s Hq _. unfold RR_pick_next. by mstep (rd_rq_spec _ _ _ Hq).
  - intros r p pr s Hp. unfold RR_proc_tick. mstep (rd_proc_spec _ _ _ Hp). unfold tick_proc.
    assert (Hend : forall pr', (pr0 ← rd_proc p;
      if time_slice pr0 =? 0 then upd_proc p (with_resched true) else mret tt)
      (set_procs (<[p := pr']> (procs s)) s) =
      Ok (tt, set_procs (<[p := if time_slice pr' =? 0 then with_resched true pr' else pr']> (procs s)) s)).
    { intros pr'. mstep (rd_proc_spec p pr' (set_procs (<[p := pr']> (procs s)) s) ltac:(apply lookup_insert_eq)).
      case_match; [|done].
      rewrite (upd_proc_spec p (with_resched true) pr') by apply lookup_insert_eq. by rewrite set_procs_twice. }
    destruct (0 <? time_slice pr).
    + mstep (upd_proc_spec p (with_slice (time_slice pr - 1)) _ s Hp). apply Hend.
    + specialize (Hend pr). rewrite (insert_id (procs s)) in Hend at 1 by done.
      rewrite <- Hend. by destruct s.
Qed.

(** sched_mpRR.c is sched_RR.c word for word. *)
#[export] Instance MPRR_is_SchedClass : SchedClass MPRR_sched_class.
Proof. exact RR_is_SchedClass. Qed.

#[export] Instance MLFQ_is_SchedClass : SchedClass MLFQ_sched_class.
Proof.
  pose proof RR_is_SchedClass as RR.
  split; cbn [enqueue dequeue pick_next proc_tick MLFQ_sched_class].
  - intros r q p pr s Hq Hp He. unfold MLFQ_enqueue. rewrite bind_gets, He. massert; [|done].
    by apply (sc_enqueue r q p pr s).
  - intros r q p pr s Hq Hp Hin Hr. unfold MLFQ_dequeue.
    rewrite bind_gets, (run_link_empty_false r q p s) by done. mstep (rd_proc_spec _ _ _ Hp).
    massert; [|by rewrite bool_decide_eq_true_2]. rewrite Hr. by apply (sc_dequeue r q p pr s).
  - intros r q s Hq Hring. unfold MLFQ_pick_next. mstep (rd_rq_spec _ _ _ Hq). rewrite Hring.
    cbn [mlfq_pick_loop]. mstep (sc_pick (C := RR_sched_class) r q s Hq Hring). by destruct (head (run_list q)).
  - intros r p pr s Hp. unfold MLFQ_proc_tick. mstep (rd_proc_spec _ _ _ Hp). by apply (sc_tick (C := RR_sched_class)).
Qed.

(** ** sched.c *)

Section sched_c.
Context (NCPU : Z) (C : sched_class).

Definition move_run_queue (src dst p : Z) : M sched unit :=
  _ ← dequeue C src p;
  _ ← upd_proc p (with_affinity dst);
  enqueue C dst p.

Definition pinned (pr : proc) : bool := negb (Z.land (pflags pr) PF_PINCPU =? 0).
Definition cpu_in_range (c : Z) : bool := (0 <=? c) && (c <? NCPU).

Definition sched_class_enqueue (p : Z) : M sched unit :=
  idl ← idleproc;
  if negb (p =? idl) then
    me ← gets myid;
    pr ← rd_proc p;
    r ← (if pinned pr then _ ← kassert (cpu_in_range (cpu_affinity pr)); mret (cpu_affinity pr)
         else mret me);
    _ ← kassert (cpu_affinity pr =? me);
    _ ← spinlock_acquire (RqLock me);
    _ ← enqueue C r p;
    spinlock_release (RqLock me)
  else mret tt.

Definition sched_class_enqueue_after_wakeup (p : Z) : M sched unit :=
  idl ← idleproc;
  if negb (p =? idl) then
    me ← gets myid;
    pr ← rd_proc p;
    _ ← (if pinned pr then kassert (cpu_in_range (cpu_affinity pr)) else mret tt);
    r ← match rq pr with
        | None =>
            _ ← upd_proc p (with_affinity me);
            mret (cpu_affinity pr)
        | Some r =>
            i ← findRQ NCPU r;
            _ ← upd_proc p (with_affinity i);
            mret r
        end;
    enqueue C r p
  else mret tt.

Definition sched_class_dequeue (p : Z) : M sched unit := me ← gets myid; dequeue C me p.
Definition sched_class_pick_next : M sched (option Z) := me ← gets myid; pick_next C me.

Definition sched_class_proc_tick (p : Z) : M sched unit :=
  _ ← spinlock_acquire StupidLock;
  idl ← idleproc;
  me ← gets myid;
  _ ← (if negb (p =? idl) then
         _ ← spinlock_acquire (RqLock me);
         _ ← proc_tick C (Some me) p;
         spinlock_release (RqLock me)
       else upd_proc p (with_resched true));
  spinlock_release StupidLock.

(** [sched_init]: every CPU's queue becomes a singleton ring with a slice of 8,
    its timer list empty and its lock free, then the class initialises it. *)
Definition sched_init_cpu (i : Z) : M sched unit :=
  _ ← upd_rq i (fun q => RunQueue (run_list q) (proc_num q) 8 [i]);
  _ ← (fun s => match cpus s !! i with
                | Some c => Ok (tt, set_cpu i (Cpu (cproc c) (idle c) (prev c) []) s)
                | None => Err BadAccess
                end);
  modify (fun s => set_locks (filter (fun l => l <> RqLock i) (locks s)) s).

Fixpoint for_each {A} (f : A -> M sched unit) (l : list A) : M sched unit :=
  match l with [] => mret tt | x :: l' => _ ← f x; for_each f l' end.

Definition sched_init : M sched unit :=
  id ← gets myid;
  _ ← sched_init_cpu id;
  _ ← modify (fun s => set_locks (filter (fun l => l <> StupidLock) (locks s)) s);
  _ ← for_each (fun i => if i =? id then mret tt else sched_init_cpu i) (seqZ 0 NCPU);
  for_each (init C) (seqZ 0 NCPU).

Definition stop_proc (p wait : Z) : M sched unit :=
  _ ← spinlock_acquire StupidLock;
  _ ← upd_proc p (with_state PROC_SLEEPING);
  _ ← upd_proc p (with_wait wait);
  me ← gets myid;
  _ ← spinlock_acquire (RqLock me);
  e ← gets (run_link_empty p);
  _ ← (if negb e then sched_class_dequeue p else mret tt);
  _ ← spinlock_release (RqLock me);
  spinlock_acquire StupidLock.

Definition wakeup_proc (p : Z) : M sched unit :=
  pr ← rd_proc p;
  _ ← kassert (bool_decide (state pr <> PROC_ZOMBIE));
  if bool_decide (state pr <> PROC_RUNNABLE) then
    _ ← upd_proc p (with_state PROC_RUNNABLE);
    _ ← upd_proc p (with_wait 0);
    cur ← current;
    if negb (p =? cur) then
      _ ← kassert (NCPU <=? pid pr);
      sched_class_enqueue_after_wakeup p
    else mret tt
  else mret tt.

(** Waking one process in [try_to_wakeup]. *)
Definition wake_here (p : Z) : M sched unit :=
  _ ← upd_proc p (with_state PROC_RUNNABLE);
  _ ← upd_proc p (with_wait 0);
  cur ← current;
  if negb (p =? cur) then
    me ← gets myid;
    _ ← upd_proc p (with_affinity me);
    sched_class_enqueue_after_wakeup p
  else mret tt.

Fixpoint wake_threads (fuel : nat) (p next : Z) : M sched unit :=
  match fuel with
  | O => fail OutOfFuel
  | S fuel' =>
      pr ← rd_proc next;
      let next := thread_next pr in
      if next =? p then mret tt
      else
        pr ← rd_proc next;
        _ ← (if bool_decide (state pr = PROC_SLEEPING) && (wait_state pr =? WT_SIGNAL)
             then wake_here next else mret tt);
        wake_threads fuel' p next
  end.

Definition try_to_wakeup (fuel : nat) (p : Z) : M sched Z :=
  _ ← spinlock_acquire (ProcLock p);
  pr ← rd_proc p;
  _ ← kassert (bool_decide (state pr <> PROC_ZOMBIE));
  _ ← spinlock_acquire StupidLock;
  ret ← (if bool_decide (state pr <> PROC_RUNNABLE) then _ ← wake_here p; mret 1 else mret 0);
  _ ← wake_threads fuel p p;
  _ ← spinlock_release StupidLock;
  _ ← spinlock_release (ProcLock p);
  mret ret.

(** [post_switch], called by [switch_to] (arch/soc/process/switch.S) once the
    registers of the previous process are saved. *)
Definition post_switch : M sched unit :=
  c ← mycpu;
  let pv := prev c in
  _ ← spinlock_acquire (ProcLock pv);
  pr ← rd_proc pv;
  e ← gets (run_link_empty pv);
  _ ← (if bool_decide (state pr = PROC_RUNNABLE) && (NCPU <=? pid pr) && e then
         me ← gets myid;
         _ ← upd_proc pv (with_affinity me);
         sched_class_enqueue pv
       else mret tt);
  spinlock_release (ProcLock pv).

Definition set_mycpu (f : cpu -> cpu) : M sched unit := fun s =>
  match cpus s !! myid s with
  | Some c => Ok (tt, set_cpu (myid s) (f c) s)
  | None => Err BadAccess
  end.

(** [proc_run] of process/proc.c; the switch itself runs [post_switch]. *)
Definition proc_run (p : Z) : M sched unit :=
  cur ← current;
  if negb (p =? cur) then
    _ ← set_mycpu (fun c => Cpu p (idle c) (prev c) (timer_list c));
    _ ← set_mycpu (fun c => Cpu (cproc c) (idle c) cur (timer_list c));
    post_switch
  else mret tt.

(** [load_balance] is empty on the SoC. *)
Definition schedule : M sched unit :=
  i ← gets in_interrupt;
  _ ← kassert (negb i);
  cur ← current;
  _ ← upd_proc cur (with_resched false);
  next ← sched_class_pick_next;
  next ← match next with
         | Some p => _ ← sched_class_dequeue p; mret p
         | None =>
             pr ← rd_proc cur;
             if bool_decide (state pr = PROC_RUNNABLE) then mret cur else idleproc
         end;
  pr ← rd_proc next;
  _ ← upd_proc next (with_runs (s32 (runs pr + 1)));
  if negb (next =? cur) then proc_run next else mret tt.
End sched_c.

(** ** The scheduler's invariant *)

(** [p] is neither running nor idle anywhere. *)
Definition off_cpu (s : sched) (p : Z) : Prop :=
  forall i c, cpus s !! i = Some c -> p <> cproc c /\ p <> idle c.

Record sinv (NCPU : Z) (s : sched) : Prop := {
  si_me : is_Some (cpus s !! myid s);
  si_rqs : forall r, is_Some (rqs s !! r) <-> 0 <= r < NCPU;
  si_q : forall r q, rqs s !! r = Some q ->
    NoDup (run_list q) /\ proc_num q = u32 (Z.of_nat (length (run_list q))) /\
    0 < max_time_slice q /\ rq_ring q = [r];
  (* what is queued is runnable, knows its queue, and is not on a CPU *)
  si_in : forall r q p, rqs s !! r = Some q -> p ∈ run_list q ->
    off_cpu s p /\
    exists pr, procs s !! p = Some pr /\ state pr = PROC_RUNNABLE /\ rq pr = Some r /\ NCPU <= pid pr;
  si_cpu : forall i c, cpus s !! i = Some c -> 0 <= i < NCPU /\ is_Some (procs s !! cproc c) /\
    exists pr, procs s !! idle c = Some pr /\ pid pr < NCPU;
  si_distinct : forall i j ci cj, cpus s !! i = Some ci -> cpus s !! j = Some cj ->
    cproc ci = cproc cj \/ cproc ci = idle cj \/ idle ci = idle cj -> i = j;
  si_proc : forall p pr, procs s !! p = Some pr ->
    0 <= cpu_affinity pr < NCPU /\ (forall r, rq pr = Some r -> 0 <= r < NCPU) }.

(** The scheduling-relevant part of a descriptor that a queued process must keep. *)
Definition same_place (pr pr' : proc) : Prop :=
  state pr' = state pr /\ rq pr' = rq pr /\ pid pr' = pid pr /\ cpu_affinity pr' = cpu_affinity pr.

(** Changing a process that is in no queue, or only what the queue ignores. *)
Lemma sinv_upd NCPU s p pr pr' :
  sinv NCPU s -> procs s !! p = Some pr -> pid pr' = pid pr ->
  0 <= cpu_affinity pr' < NCPU -> (forall r, rq pr' = Some r -> 0 <= r < NCPU) ->
  (run_link_empty p s = true \/ state pr' = state pr /\ rq pr' = rq pr) ->
  sinv NCPU (set_procs (<[p := pr']> (procs s)) s).
Proof.
  intros I Hp Hpid Haff Hrq Hor.
  assert (Hsome : forall x, is_Some (procs s !! x) -> is_Some (<[p := pr']> (procs s) !! x)).
  { intros x Hx. destruct (decide (x = p)) as [->|]; [by rewrite lookup_insert_eq|by rewrite lookup_insert_ne]. }
  split; cbn [cpus rqs procs set_procs myid].
  - apply (si_me _ _ I).
  - apply (si_rqs _ _ I).
  - apply (si_q _ _ I).
  - intros r q x Hq Hx. destruct (si_in _ _ I r q x Hq Hx) as (Hoff & pr0 & H0 & Hs0 & Hr0 & Hp0).
    split; [done|]. destruct (decide (x = p)) as [->|]; [|exists pr0; by rewrite lookup_insert_ne].
    rewrite Hp in H0. injection H0 as <-. exists pr'. rewrite lookup_insert_eq.
    destruct Hor as [He|[? ?]]; [|split_and!; [done|congruence|congruence|lia]].
    by rewrite (run_link_empty_false r q p s Hq Hx) in He.
  - intros i c Hc. destruct (si_cpu _ _ I i c Hc) as (Hi & Hcp & pi & Hpi & Hlt). split_and!; [lia..|by apply Hsome|].
    destruct (decide (idle c = p)) as [E|]; [|exists pi; by rewrite lookup_insert_ne].
    exists pr'. rewrite E, lookup_insert_eq. split; [done|]. rewrite E, Hp in Hpi. injection Hpi as <-. lia.
  - apply (si_distinct _ _ I).
  - intros x px. destruct (decide (x = p)) as [->|].
    + rewrite lookup_insert_eq. by intros [= <-].
    + rewrite lookup_insert_ne by done. apply (si_proc _ _ I).
Qed.

Lemma run_link_empty_set_procs p m s : run_link_empty p (set_procs m s) = run_link_empty p s.
Proof. done. Qed.

(** Appending a runnable process to a queue. *)
Lemma sinv_enqueue NCPU s r q p pr :
  sinv NCPU s -> rqs s !! r = Some q -> procs s !! p = Some pr -> run_link_empty p s = true ->
  state pr = PROC_RUNNABLE -> NCPU <= pid pr -> off_cpu s p ->
  sinv NCPU (set_rq r (enq_rq p q) (set_procs (<[p := enq_proc r (max_time_slice q) pr]> (procs s)) s)).
Proof.
  intros I Hq Hp He Hst Hpid Hoff. pose proof He as He'. apply bool_decide_eq_true in He'.
  set (pr' := enq_proc r (max_time_slice q) pr).
  assert (Hpr' : state pr' = state pr /\ rq pr' = Some r /\ pid pr' = pid pr /\ cpu_affinity pr' = cpu_affinity pr).
  { unfold pr', enq_proc, top_up. by case_match. }
  destruct Hpr' as (Hs' & Hr' & Hp' & Ha').
  assert (Hr : 0 <= r < NCPU) by (apply (si_rqs _ _ I); by eexists).
  assert (I1 : sinv NCPU (set_procs (<[p := pr']> (procs s)) s)).
  { eapply sinv_upd; [done|done|done| | |by left].
    - rewrite Ha'. exact (proj1 (si_proc _ _ I p pr Hp)).
    - rewrite Hr'. by intros ? [= <-]. }
  destruct (si_q _ _ I r q Hq) as (Hd & Hc & Hm & Hring).
  split; cbn [cpus rqs procs set_procs set_rq myid].
  - apply (si_me _ _ I).
  - intros x. destruct (decide (x = r)) as [->|]; [|rewrite lookup_insert_ne by done; apply (si_rqs _ _ I)].
    rewrite lookup_insert_eq. split; [done|by eexists].
  - intros r0 q0. destruct (decide (r0 = r)) as [->|]; [|rewrite lookup_insert_ne by done; apply (si_q _ _ I)].
    rewrite lookup_insert_eq. intros [= <-]. cbn [run_list proc_num max_time_slice rq_ring enq_rq].
    split_and!; [|rewrite Hc|done|done].
    + apply NoDup_app. split_and!; [done| |apply NoDup_singleton]. intros x Hx ->%list_elem_of_singleton.
      by apply (He' r q).
    + unfold umod. rewrite Zplus_mod_idemp_l, length_app. f_equal. simpl. lia.
  - intros r0 q0 x Hq0 Hx. assert (x = p /\ r0 = r \/ exists q1, rqs s !! r0 = Some q1 /\ x ∈ run_list q1) as [[-> ->]|(q1 & Hq1 & Hx1)].
    { destruct (decide (r0 = r)) as [->|]; [|rewrite lookup_insert_ne in Hq0 by done; right; eauto].
      rewrite lookup_insert_eq in Hq0. injection Hq0 as <-. cbn [run_list enq_rq] in Hx.
      apply elem_of_app in Hx as [Hx| ->%list_elem_of_singleton]; [right; eauto|by left]. }
    + split; [done|]. exists pr'. rewrite lookup_insert_eq. split_and!; [done|congruence|done|lia].
    + apply (si_in _ _ I1 r0 q1 x Hq1 Hx1).
  - apply (si_cpu _ _ I1).
  - apply (si_distinct _ _ I).
  - apply (si_proc _ _ I1).
Qed.

Lemma sinv_dequeue NCPU s r q p :
  sinv NCPU s -> rqs s !! r = Some q -> p ∈ run_list q ->
  sinv NCPU (set_rq r (deq_rq p q) s).
Proof.
  intros I Hq Hp. destruct (si_q _ _ I r q Hq) as (Hd & Hc & Hm & Hring).
  split; cbn [cpus rqs procs set_rq myid].
  - apply (si_me _ _ I).
  - intros x. destruct (decide (x = r)) as [->|]; [|rewrite lookup_insert_ne by done; apply (si_rqs _ _ I)].
    rewrite lookup_insert_eq, <- (si_rqs _ _ I), Hq. split; eauto.
  - intros r0 q0. destruct (decide (r0 = r)) as [->|]; [|rewrite lookup_insert_ne by done; apply (si_q _ _ I)].
    rewrite lookup_insert_eq. intros [= <-]. cbn [run_list proc_num max_time_slice rq_ring deq_rq].
    split_and!; [by apply list.NoDup_filter|rewrite Hc|done|done].
    rewrite length_filter_ne by done. unfold umod. rewrite Zminus_mod_idemp_l. f_equal.
    destruct (run_list q); [by apply not_elem_of_nil in Hp|simpl; lia].
  - intros r0 q0 x Hq0 Hx. assert (exists q1, rqs s !! r0 = Some q1 /\ x ∈ run_list q1) as (q1 & Hq1 & Hx1).
    { destruct (decide (r0 = r)) as [->|]; [|rewrite lookup_insert_ne in Hq0 by done; eauto].
      rewrite lookup_insert_eq in Hq0. injection Hq0 as <-. cbn [run_list deq_rq] in Hx.
      apply list_elem_of_filter in Hx as [_ Hx]. eauto. }
    apply (si_in _ _ I r0 q1 x Hq1 Hx1).
  - apply (si_cpu _ _ I).
  - apply (si_distinct _ _ I).
  - apply (si_proc _ _ I).
Qed.

Lemma mycpu_spec s c : cpus s !! myid s = Some c -> mycpu s = Ok (c, s).
Proof. unfold mycpu, load. by intros ->. Qed.
Lemma current_spec s c : cpus s !! myid s = Some c -> current s = Ok (cproc c, s).
Proof. intros H. unfold current. by mstep (mycpu_spec s c H). Qed.
Lemma idleproc_spec s c : cpus s !! myid s = Some c -> idleproc s = Ok (idle c, s).
Proof. intros H. unfold idleproc. by mstep (mycpu_spec s c H). Qed.

Lemma findRQ_spec NCPU r (s : sched) : 0 <= r < NCPU -> findRQ NCPU r s = Ok (r, s).
Proof.
  intros Hr. unfold findRQ. destruct (find (fun i => i =? r) (seqZ 0 NCPU)) as [i|] eqn:E.
  - apply List.find_some in E as [_ ->%Z.eqb_eq]. done.
  - assert (Hn : (r =? r) = false).
    { apply (List.find_none _ _ E). apply list_elem_of_In, elem_of_seqZ. lia. }
    by rewrite Z.eqb_refl in Hn.
Qed.

Lemma off_cpu_set_procs m s p : off_cpu (set_procs m s) p <-> off_cpu s p.
Proof. done. Qed.

Section specs.
Context (NCPU : Z) (C : sched_class) `{!SchedClass C}.

(** The queue and the affinity a woken process gets. *)
Definition wake_rq (pr : proc) : Z := default (cpu_affinity pr) (rq pr).
Definition wake_cpu (me : Z) (pr : proc) : Z := default me (rq pr).

Lemma cpu_in_range_true c : 0 <= c < NCPU -> cpu_in_range NCPU c = true.
Proof. intros. apply andb_true_iff. rewrite Z.leb_le, Z.ltb_lt. lia. Qed.

Lemma after_wakeup_spec s p pr c q :
  sinv NCPU s -> cpus s !! myid s = Some c -> p <> idle c ->
  procs s !! p = Some pr -> run_link_empty p s = true -> rqs s !! wake_rq pr = Some q ->
  sched_class_enqueue_after_wakeup NCPU C p s =
  Ok (tt, set_rq (wake_rq pr) (enq_rq p q)
    (set_procs (<[p := enq_proc (wake_rq pr) (max_time_slice q) (with_affinity (wake_cpu (myid s) pr) pr)]> (procs s)) s)).
Proof.
  intros I Hc Hi Hp He Hq. unfold sched_class_enqueue_after_wakeup.
  mstep (idleproc_spec s c Hc). destruct (Z.eqb_spec p (idle c)); [done|]. cbn [negb].
  rewrite bind_gets. mstep (rd_proc_spec _ _ _ Hp).
  destruct (si_proc _ _ I p pr Hp) as [Ha Hr].
  assert (E1 : (if pinned pr then kassert (cpu_in_range NCPU (cpu_affinity pr)) else mret tt) s = Ok (tt, s)).
  { rewrite cpu_in_range_true by done. by destruct (pinned pr). }
  mstep E1. set (pr1 := with_affinity (wake_cpu (myid s) pr) pr).
  set (s1 := set_procs (<[p := pr1]> (procs s)) s).
  assert (E2 : match rq pr with
    | None => _ ← upd_proc p (with_affinity (myid s)); mret (cpu_affinity pr)
    | Some r => i ← findRQ NCPU r; _ ← upd_proc p (with_affinity i); mret r end s = Ok (wake_rq pr, s1)).
  { unfold wake_rq, s1, pr1, wake_cpu. destruct (rq pr) as [r|].
    - mstep (findRQ_spec NCPU r s (Hr r eq_refl)). by mstep (upd_proc_spec p (with_affinity r) pr s Hp).
    - by mstep (upd_proc_spec p (with_affinity (myid s)) pr s Hp). }
  mstep E2. rewrite (sc_enqueue (wake_rq pr) q p pr1 s1 Hq) by (done || apply lookup_insert_eq).
  unfold s1. by rewrite set_procs_twice.
Qed.

Definition waking (pr : proc) : proc := with_wait 0 (with_state PROC_RUNNABLE pr).

Lemma wake_rq_exists s p pr : sinv NCPU s -> procs s !! p = Some pr -> exists q, rqs s !! wake_rq pr = Some q.
Proof.
  intros I Hp. destruct (si_proc _ _ I p pr Hp) as [Ha Hr]. apply (si_rqs _ _ I). unfold wake_rq.
  destruct (rq pr) as [r|]; simpl; [by apply Hr|done].
Qed.

Lemma not_runnable_unqueued s p pr :
  sinv NCPU s -> procs s !! p = Some pr -> state pr <> PROC_RUNNABLE -> run_link_empty p s = true.
Proof.
  intros I Hp Hs. apply bool_decide_eq_true. intros r q Hq Hx.
  destruct (si_in _ _ I r q p Hq Hx) as (_ & pr' & Hp' & ? & _). congruence.
Qed.

(** A process may be woken: it is alive, and unless it is already runnable or
    the caller itself, it is an ordinary process off the CPUs. *)
Definition wakeable (s : sched) (p : Z) : Prop :=
  exists pr, procs s !! p = Some pr /\ state pr <> PROC_ZOMBIE /\
    (state pr <> PROC_RUNNABLE ->
     (exists c, cpus s !! myid s = Some c /\ p = cproc c) \/ off_cpu s p /\ NCPU <= pid pr).

Inductive woken (s : sched) (p : Z) : sched -> Prop :=
| woken_already pr : procs s !! p = Some pr -> state pr = PROC_RUNNABLE -> woken s p s
| woken_self pr c : procs s !! p = Some pr -> state pr <> PROC_RUNNABLE ->
    cpus s !! myid s = Some c -> p = cproc c ->
    woken s p (set_procs (<[p := waking pr]> (procs s)) s)
| woken_queued pr q : procs s !! p = Some pr -> state pr <> PROC_RUNNABLE -> off_cpu s p ->
    rqs s !! wake_rq pr = Some q ->
    woken s p (set_rq (wake_rq pr) (enq_rq p q)
      (set_procs (<[p := enq_proc (wake_rq pr) (max_time_slice q) (with_affinity (wake_cpu (myid s) pr) (waking pr))]> (procs s)) s)).

Lemma me_in_range s : sinv NCPU s -> 0 <= myid s < NCPU.
Proof. intros I. destruct (si_me _ _ I) as [c Hc]. apply (si_cpu _ _ I _ _ Hc). Qed.

Lemma sinv_waking s p pr :
  sinv NCPU s -> procs s !! p = Some pr -> state pr <> PROC_RUNNABLE ->
  sinv NCPU (set_procs (<[p := waking pr]> (procs s)) s).
Proof.
  intros I Hp Hs. destruct (si_proc _ _ I p pr Hp). apply (sinv_upd NCPU s p pr); try done.
  left. by eapply not_runnable_unqueued.
Qed.

Lemma wakeup_proc_spec s p :
  sinv NCPU s -> wakeable s p ->
  exists s', wakeup_proc NCPU C p s = Ok (tt, s') /\ woken s p s' /\ sinv NCPU s'.
Proof.
  intros I (pr & Hp & Hz & Hw). unfold wakeup_proc. mstep (rd_proc_spec _ _ _ Hp).
  massert; [|by apply bool_decide_eq_true]. case_bool_decide as Hs; cycle 1.
  { exists s. split_and!; [done| |done]. eapply woken_already; [done|].
    destruct (decide (state pr = PROC_RUNNABLE)); [done|by destruct Hs]. }
  mstep (upd_proc_spec p (with_state PROC_RUNNABLE) pr s Hp).
  mstep (upd_proc_spec p (with_wait 0) (with_state PROC_RUNNABLE pr)
    (set_procs (<[p := with_state PROC_RUNNABLE pr]> (procs s)) s) ltac:(apply lookup_insert_eq)).
  rewrite set_procs_twice. fold (waking pr). set (s1 := set_procs (<[p := waking pr]> (procs s)) s).
  pose proof (sinv_waking s p pr I Hp Hs) as I1. fold s1 in I1.
  destruct (si_me _ _ I) as [c Hc]. mstep (current_spec s1 c Hc).
  destruct (Z.eqb_spec p (cproc c)) as [->|Hne]; cbn [negb].
  { exists s1. split_and!; [done| |done]. by eapply woken_self. }
  destruct (Hw Hs) as [(c' & Hc' & ->)|[Hoff Hpid]]; [congruence|].
  massert; [|by apply Z.leb_le].
  destruct (wake_rq_exists s p pr I Hp) as [q Hq].
  assert (Hp1 : procs s1 !! p = Some (waking pr)) by apply lookup_insert_eq.
  assert (He : run_link_empty p s1 = true) by (exact (not_runnable_unqueued s p pr I Hp Hs)).
  rewrite (after_wakeup_spec s1 p (waking pr) c q I1 Hc (proj2 (Hoff _ _ Hc)) Hp1 He Hq).
  change (wake_rq (waking pr)) with (wake_rq pr). change (wake_cpu (myid s1) (waking pr)) with (wake_cpu (myid s) pr).
  unfold s1. rewrite set_procs_twice. eexists. split; [reflexivity|]. split; [by eapply woken_queued|].
  set (pr2 := with_affinity (wake_cpu (myid s) pr) (waking pr)).
  assert (I2 : sinv NCPU (set_procs (<[p := pr2]> (procs s)) s)).
  { apply (sinv_upd NCPU s p pr); try done; [| |left; by eapply not_runnable_unqueued].
    - simpl. unfold wake_cpu. destruct (rq pr) as [r|] eqn:Er; simpl; [|exact (me_in_range s I)].
      exact (proj2 (si_proc _ _ I p pr Hp) r Er).
    - apply (si_proc _ _ I p pr Hp). }
  pose proof (sinv_enqueue NCPU _ (wake_rq pr) q p pr2 I2 Hq (lookup_insert_eq _ _ _) He eq_refl Hpid Hoff) as I3.
  cbn [procs set_procs] in I3. rewrite insert_insert_eq in I3. exact I3.
Qed.

Lemma bind_assoc_gets {S A B D} (f : S -> A) (m : A -> M S B) (k : B -> M S D) s :
  ((gets f ≫= m) ≫= k) s = (m (f s) ≫= k) s.
Proof. done. Qed.

Lemma choose_idle_spec s c prc :
  cpus s !! myid s = Some c -> procs s !! cproc c = Some prc ->
  (pr ← rd_proc (cproc c); if bool_decide (state pr = PROC_RUNNABLE) then mret (cproc c) else idleproc) s =
  Ok (if bool_decide (state prc = PROC_RUNNABLE) then cproc c else idle c, s).
Proof. intros Hc Hp. mstep (rd_proc_spec _ _ _ Hp). case_bool_decide; [done|by apply idleproc_spec]. Qed.

Lemma acquire_spec l s :
  l ∉ locks s -> spinlock_acquire l s = Ok (tt, set_locks (l :: locks s) s).
Proof. intros. unfold spinlock_acquire. by rewrite bool_decide_eq_false_2. Qed.

Lemma release_spec l ls s :
  locks s = l :: ls -> l ∉ ls -> spinlock_release l s = Ok (tt, set_locks ls s).
Proof.
  intros E Hl. unfold spinlock_release. rewrite E, bool_decide_eq_true_2 by left.
  rewrite filter_cons_False by (intros H; by apply H). by rewrite filter_ne_notin.
Qed.

Lemma sinv_set_locks ls s : sinv NCPU s -> sinv NCPU (set_locks ls s).
Proof. intros []. by split. Qed.

Lemma set_locks_id s : set_locks (locks s) s = s.
Proof. by destruct s. Qed.

(** The CPU turns to process [n]. *)
Lemma sinv_switch s c n pv :
  sinv NCPU s -> cpus s !! myid s = Some c -> is_Some (procs s !! n) -> run_link_empty n s = true ->
  (forall j cj, j <> myid s -> cpus s !! j = Some cj -> n <> cproc cj /\ n <> idle cj) ->
  sinv NCPU (set_cpu (myid s) (Cpu n (idle c) pv (timer_list c)) s).
Proof.
  intros I Hc Hn He Hother. apply bool_decide_eq_true in He.
  split; cbn [cpus rqs procs set_cpu myid].
  - rewrite lookup_insert_eq. by eexists.
  - apply (si_rqs _ _ I).
  - apply (si_q _ _ I).
  - intros r q x Hq Hx. destruct (si_in _ _ I r q x Hq Hx) as [Hoff Hpr]. split; [|done].
    intros i ci. cbn [cpus set_cpu]. destruct (decide (i = myid s)) as [->|].
    + rewrite lookup_insert_eq. intros [= <-]. cbn [cproc idle]. split; [|exact (proj2 (Hoff _ _ Hc))].
      intros ->. by apply (He r q).
    + rewrite lookup_insert_ne by done. apply Hoff.
  - intros i ci. destruct (decide (i = myid s)) as [->|]; [|rewrite lookup_insert_ne by done; apply (si_cpu _ _ I)].
    rewrite lookup_insert_eq. intros [= <-]. cbn [cproc idle].
    destruct (si_cpu _ _ I _ _ Hc) as (H1 & _ & H2). exact (conj H1 (conj Hn H2)).
  - intros i j ci cj. destruct (decide (i = myid s)) as [->|], (decide (j = myid s)) as [->|];
      rewrite ?lookup_insert_eq, ?lookup_insert_ne by done; [done|..].
    + intros [= <-] Hj. cbn [cproc idle]. destruct (Hother j cj) as [??]; [done..|]. intros [?|[?|?]]; [done..|].
      apply (si_distinct _ _ I (myid s) j c cj); tauto.
    + intros Hi [= <-]. cbn [cproc idle]. destruct (Hother i ci) as [??]; [done..|]. intros [?|Hid]; [congruence|].
      apply (si_distinct _ _ I i (myid s) ci c); tauto.
    + apply (si_distinct _ _ I).
  - apply (si_proc _ _ I).
Qed.

Lemma cpu_proc_unqueued s i c : sinv NCPU s -> cpus s !! i = Some c ->
  run_link_empty (cproc c) s = true /\ run_link_empty (idle c) s = true.
Proof.
  intros I Hc. split; apply bool_decide_eq_true; intros r q Hq Hx;
    destruct (si_in _ _ I r q _ Hq Hx) as [Hoff _]; by destruct (Hoff i c Hc).
Qed.

(** What a switch leaves of a descriptor. *)
Definition keeps (px px' : proc) : Prop :=
  state px' = state px /\ pid px' = pid px /\ wait_state px' = wait_state px.

#[local] Instance keeps_preorder : PreOrder keeps.
Proof. split; [by intros x|]. intros x y z (? & ? & ?) (? & ? & ?). unfold keeps. split_and!; congruence. Qed.

(** What [post_switch] does with the process that just left the CPU. *)
Definition requeued (pr : proc) : bool := bool_decide (state pr = PROC_RUNNABLE) && (NCPU <=? pid pr).

Lemma post_switch_spec s c pr q :
  sinv NCPU s -> cpus s !! myid s = Some c -> procs s !! prev c = Some pr -> rqs s !! myid s = Some q ->
  run_link_empty (prev c) s = true -> off_cpu s (prev c) \/ requeued pr = false ->
  ProcLock (prev c) ∉ locks s -> RqLock (myid s) ∉ locks s ->
  exists s', post_switch NCPU C s = Ok (tt, s') /\ sinv NCPU s' /\
    cpus s' = cpus s /\ myid s' = myid s /\ locks s' = locks s /\ in_interrupt s' = in_interrupt s /\
    timers s' = timers s /\
    (forall x px, procs s !! x = Some px -> exists px', procs s' !! x = Some px' /\ keeps px px') /\
    rqs s' = if requeued pr then <[myid s := enq_rq (prev c) q]> (rqs s) else rqs s.
Proof.
  intros I Hc Hp Hq He Hor HL1 HL2. unfold post_switch. mstep (mycpu_spec s c Hc).
  set (pv := prev c) in *. mstep (acquire_spec (ProcLock pv) s HL1).
  set (s1 := set_locks (ProcLock pv :: locks s) s).
  pose proof (sinv_set_locks (ProcLock pv :: locks s) s I) as I1. fold s1 in I1.
  mstep (rd_proc_spec pv pr s1 Hp). rewrite bind_gets.
  change (run_link_empty pv s1) with (run_link_empty pv s). rewrite He, andb_true_r. fold (requeued pr).
  destruct (requeued pr) eqn:Hreq.
  - destruct Hor as [Hoff|]; [|done]. apply andb_true_iff in Hreq as [Hst%bool_decide_eq_true Hpid%Z.leb_le].
    set (pr1 := with_affinity (myid s) pr). set (s2 := set_procs (<[pv := pr1]> (procs s)) s1).
    assert (E : (me ← gets myid; _ ← upd_proc pv (with_affinity me); sched_class_enqueue NCPU C pv) s1 =
      Ok (tt, set_rq (myid s) (enq_rq pv q) (set_procs (<[pv := enq_proc (myid s) (max_time_slice q) pr1]> (procs s)) s1))).
    { rewrite bind_gets. mstep (upd_proc_spec pv (with_affinity (myid s)) pr s1 Hp).
      change (sched_class_enqueue NCPU C pv s2 =
        Ok (tt, set_rq (myid s) (enq_rq pv q) (set_procs (<[pv := enq_proc (myid s) (max_time_slice q) pr1]> (procs s)) s1))).
      unfold sched_class_enqueue. mstep (idleproc_spec s2 c Hc).
      destruct (Z.eqb_spec pv (idle c)) as [Ei|]; [by destruct (Hoff _ _ Hc)|]. cbn [negb]. rewrite bind_gets.
      assert (Hp2 : procs s2 !! pv = Some pr1) by apply lookup_insert_eq. mstep (rd_proc_spec _ _ _ Hp2).
      assert (E1 : (if pinned pr1 then _ ← kassert (cpu_in_range NCPU (cpu_affinity pr1)); mret (cpu_affinity pr1)
         else mret (myid s2)) s2 = Ok (myid s, s2)).
      { cbn [cpu_affinity pr1 with_affinity]. rewrite cpu_in_range_true by (exact (me_in_range s I)). by destruct (pinned pr1). }
      mstep E1. massert; [|by apply Z.eqb_eq].
      mstep (acquire_spec (RqLock (myid s2)) s2 ltac:(cbn [locks s2 set_procs s1 set_locks myid]; set_solver)).
      set (s3 := set_locks (RqLock (myid s2) :: locks s2) s2).
      mstep (sc_enqueue (C := C) (myid s) q pv pr1 s3 Hq Hp2 He).
      rewrite (release_spec (RqLock (myid s2)) (locks s2)) by (done || (cbn [locks s2 set_procs s1 set_locks myid]; set_solver)).
      unfold s3, s2, s1, set_locks, set_procs, set_rq. cbn. by rewrite insert_insert_eq. }
    mstep E. rewrite (release_spec (ProcLock pv) (locks s)) by done.
    eexists. split; [reflexivity|]. split_and!; try done.
    + apply sinv_set_locks.
      assert (I2 : sinv NCPU s2).
      { apply (sinv_upd NCPU s1 pv pr); try done; [exact (me_in_range s I)|apply (si_proc _ _ I pv pr Hp)|by left]. }
      pose proof (sinv_enqueue NCPU s2 (myid s) q pv pr1 I2 Hq (lookup_insert_eq _ _ _) He Hst Hpid Hoff) as I3.
      cbn [procs s2 set_procs] in I3. rewrite insert_insert_eq in I3. exact I3.
    + intros x px Hx. cbn [procs set_locks set_rq set_procs]. destruct (decide (x = pv)) as [->|].
      * rewrite lookup_insert_eq. eexists; split; [done|]. rewrite Hp in Hx. injection Hx as <-.
        unfold enq_proc, top_up. by case_match.
      * rewrite lookup_insert_ne by done. exists px. by split.
  - assert (E : (mret tt : M sched unit) s1 = Ok (tt, s1)) by done. mstep E.
    rewrite (release_spec (ProcLock pv) (locks s)) by done. exists s. rewrite <- (set_locks_id s) at 2.
    split_and!; try done. intros x px Hx. exists px. by split.
Qed.

(** The process [schedule] turns to, and the queue it leaves behind. *)
Definition next_proc (cur idl : Z) (prc : proc) (l : list Z) : Z :=
  match l with
  | h :: _ => h
  | [] => if bool_decide (state prc = PROC_RUNNABLE) then cur else idl
  end.
Definition next_queue (cur : Z) (prc : proc) (l : list Z) : list Z :=
  match l with
  | _ :: t => t ++ (if requeued prc then [cur] else [])
  | [] => []
  end.

(** Everything the caller of [schedule] can rely on. *)
Record scheduled (s s' : sched) (next : Z) (l' : list Z) : Prop := {
  sd_inv : sinv NCPU s';
  sd_me : myid s' = myid s;
  sd_locks : locks s' = locks s;
  sd_intr : in_interrupt s' = in_interrupt s;
  sd_timers : timers s' = timers s;
  sd_cpu : forall c, cpus s !! myid s = Some c ->
    exists c', cpus s' !! myid s = Some c' /\ cproc c' = next /\ idle c' = idle c /\ timer_list c' = timer_list c;
  sd_queue : exists q', rqs s' !! myid s = Some q' /\ run_list q' = l';
  sd_other : forall r, r <> myid s -> rqs s' !! r = rqs s !! r /\ cpus s' !! r = cpus s !! r;
  sd_procs : forall x px, procs s !! x = Some px ->
    exists px', procs s' !! x = Some px' /\ keeps px px' }.

Lemma runs_bump s n pn :
  sinv NCPU s -> procs s !! n = Some pn -> sinv NCPU (set_procs (<[n := with_runs (s32 (runs pn + 1)) pn]> (procs s)) s).
Proof.
  intros I Hn. destruct (si_proc _ _ I n pn Hn). apply (sinv_upd NCPU s n pn); try done. by right.
Qed.

Lemma procs_upd_view m (n : Z) (pn pn' : proc) : m !! n = Some pn -> keeps pn pn' ->
  forall x px, m !! x = Some px ->
    exists px', (<[n := pn']> m : gmap Z proc) !! x = Some px' /\ keeps px px'.
Proof.
  intros Hn Hk x px Hx. destruct (decide (x = n)) as [->|].
  - rewrite lookup_insert_eq. rewrite Hn in Hx. injection Hx as <-. eauto.
  - rewrite lookup_insert_ne by done. exists px. by split.
Qed.

(** The tail of [schedule]: the chosen process is charged and switched to. *)
Lemma switch_tail_spec s c n pn pr q :
  sinv NCPU s -> cpus s !! myid s = Some c -> rqs s !! myid s = Some q ->
  procs s !! n = Some pn -> procs s !! cproc c = Some pr -> n <> cproc c -> run_link_empty n s = true ->
  (forall j cj, j <> myid s -> cpus s !! j = Some cj -> n <> cproc cj /\ n <> idle cj) ->
  (forall p, ProcLock p ∉ locks s) -> RqLock (myid s) ∉ locks s ->
  exists s', (_ ← upd_proc n (with_runs (s32 (runs pn + 1))); proc_run NCPU C n) s = Ok (tt, s') /\
    scheduled s s' n (run_list q ++ (if requeued pr then [cproc c] else [])).
Proof.
  intros I Hc Hq Hn Hp Hne He Hother HL1 HL2.
  mstep (upd_proc_spec n (with_runs (s32 (runs pn + 1))) pn s Hn).
  set (s1 := set_procs (<[n := with_runs (s32 (runs pn + 1)) pn]> (procs s)) s).
  pose proof (runs_bump s n pn I Hn) as I1. fold s1 in I1.
  assert (Hp1 : procs s1 !! cproc c = Some pr) by (cbn [procs s1 set_procs]; by rewrite lookup_insert_ne).
  unfold proc_run. mstep (current_spec s1 c Hc). destruct (Z.eqb_spec n (cproc c)); [done|]. cbn [negb].
  set (s2 := set_cpu (myid s) (Cpu n (idle c) (prev c) (timer_list c)) s1).
  assert (E2 : set_mycpu (fun c0 => Cpu n (idle c0) (prev c0) (timer_list c0)) s1 = Ok (tt, s2)).
  { unfold set_mycpu. cbn [cpus s1 set_procs myid]. by rewrite Hc. }
  mstep E2. set (c' := Cpu n (idle c) (cproc c) (timer_list c)). set (s3 := set_cpu (myid s) c' s1).
  assert (E3 : set_mycpu (fun c0 => Cpu (cproc c0) (idle c0) (cproc c) (timer_list c0)) s2 = Ok (tt, s3)).
  { unfold set_mycpu. cbn [cpus s2 set_cpu myid s1 set_procs]. rewrite lookup_insert_eq.
    unfold s3, set_cpu, s2. cbn. by rewrite insert_insert_eq. }
  mstep E3.
  assert (I3 : sinv NCPU s3).
  { apply (sinv_switch s1 c n (cproc c)); [done|done| |done|done].
    cbn [procs s1 set_procs]. by rewrite lookup_insert_eq. }
  destruct (post_switch_spec s3 c' pr q) as (s' & E & I' & Hcpu & Hme & Hlk & Hin & Htm & Hpr & Hrq);
    [done|apply lookup_insert_eq|done|done|apply (cpu_proc_unqueued s (myid s) c I Hc)| |apply HL1|done|].
  { destruct (requeued pr) eqn:Hreq; [left|by right].
    apply andb_true_iff in Hreq as [_ Hpid%Z.leb_le]. intros i ci.
    assert (Hidle : forall j cj, cpus s !! j = Some cj -> cproc c <> idle cj).
    { intros j cj Hj Heq. destruct (si_cpu _ _ I j cj Hj) as (_ & _ & pi & Hpi & Hlt).
      rewrite <- Heq, Hp in Hpi. injection Hpi as <-. lia. }
    cbn [cpus s3 set_cpu s1 set_procs prev c']. destruct (decide (i = myid s)) as [->|Hi].
    - rewrite lookup_insert_eq. intros [= <-]. cbn [cproc idle]. split; [done|exact (Hidle _ _ Hc)].
    - rewrite lookup_insert_ne by done. intros Hci. split; [|exact (Hidle _ _ Hci)].
      intros Heq. apply Hi. symmetry. eapply (si_distinct _ _ I); [exact Hc|exact Hci|by left]. }
  exists s'. split; [exact E|]. split; try done.
  - intros c0 Hc0. rewrite Hc in Hc0. injection Hc0 as <-. exists c'. rewrite Hcpu. split; [apply lookup_insert_eq|done].
  - cbn [myid s3 set_cpu s1 set_procs rqs] in Hrq. rewrite Hrq. destruct (requeued pr).
    + exists (enq_rq (cproc c) q). by rewrite lookup_insert_eq.
    + exists q. by rewrite app_nil_r.
  - intros r Hr. rewrite Hcpu, Hrq. cbn [cpus rqs s3 set_cpu s1 set_procs myid]. split; [|by rewrite lookup_insert_ne].
    destruct (requeued pr); [by rewrite lookup_insert_ne|done].
  - intros x px Hx. destruct (procs_upd_view (procs s) n pn (with_runs (s32 (runs pn + 1)) pn) Hn ltac:(done) x px Hx) as (px1 & H1 & H2).
    destruct (Hpr x px1 H1) as (px2 & H4 & H5). exists px2. split; [done|]. by etrans.
Qed.

Lemma scheduled_from s s0 s' n l' :
  cpus s0 = cpus s -> myid s0 = myid s -> locks s0 = locks s -> in_interrupt s0 = in_interrupt s ->
  timers s0 = timers s -> (forall r, r <> myid s -> rqs s0 !! r = rqs s !! r) ->
  (forall x px, procs s !! x = Some px -> exists px', procs s0 !! x = Some px' /\ keeps px px') ->
  scheduled s0 s' n l' -> scheduled s s' n l'.
Proof.
  intros Hc Hm Hl Hi Ht Hr Hp []. split; try done; try congruence.
  - intros c. rewrite <- Hc, <- Hm. apply sd_cpu0.
  - by rewrite <- Hm.
  - intros r Hne. rewrite <- Hr, <- Hc by done. apply sd_other0. congruence.
  - intros x px Hx. destruct (Hp x px Hx) as (p1 & H1 & ?). destruct (sd_procs0 x p1 H1) as (p2 & H2 & ?).
    exists p2. split; [done|]. by etrans.
Qed.

Lemma schedule_spec s c prc q :
  sinv NCPU s -> in_interrupt s = false -> (forall p, ProcLock p ∉ locks s) -> RqLock (myid s) ∉ locks s ->
  cpus s !! myid s = Some c -> procs s !! cproc c = Some prc -> rqs s !! myid s = Some q ->
  exists s', schedule NCPU C s = Ok (tt, s') /\
    scheduled s s' (next_proc (cproc c) (idle c) prc (run_list q)) (next_queue (cproc c) prc (run_list q)).
Proof.
  intros I Hin HL1 HL2 Hc Hp Hq. unfold schedule. rewrite bind_gets, Hin. massert; [|done].
  mstep (current_spec s c Hc). mstep (upd_proc_spec (cproc c) (with_resched false) prc s Hp).
  set (prc' := with_resched false prc). set (s1 := set_procs (<[cproc c := prc']> (procs s)) s).
  destruct (si_proc _ _ I _ _ Hp) as [Haff Hrq].
  assert (I1 : sinv NCPU s1) by (apply (sinv_upd NCPU s _ prc); try done; by right).
  assert (Hp1 : procs s1 !! cproc c = Some prc') by apply lookup_insert_eq.
  pose proof (procs_upd_view (procs s) (cproc c) prc prc' Hp ltac:(done)) as Hv1.
  destruct (si_q _ _ I _ _ Hq) as (Hnd & _ & _ & Hring).
  unfold sched_class_pick_next. rewrite bind_assoc_gets. mstep (sc_pick (C := C) (myid s1) q s1 Hq Hring).
  destruct (si_cpu _ _ I _ _ Hc) as (_ & _ & pi & Hpi & _).
  destruct (run_list q) as [|h t] eqn:El; cbn [head].
  - mstep (choose_idle_spec s1 c prc' Hc Hp1).
    unfold next_proc, next_queue. change (state prc') with (state prc). case_bool_decide as Hst.
    + mstep (rd_proc_spec _ _ _ Hp1). mstep (upd_proc_spec (cproc c) (with_runs (s32 (runs prc' + 1))) prc' s1 Hp1).
      rewrite Z.eqb_refl. cbn [negb]. eexists. split; [reflexivity|].
      apply (scheduled_from s s1); try done. split; try done.
      * by apply runs_bump.
      * intros c0 Hc0. exists c0. cbn [cpus set_procs s1 myid] in *. rewrite Hc in Hc0. by injection Hc0 as <-.
      * exists q. by rewrite El.
      * by eapply procs_upd_view.
    + destruct (Hv1 (idle c) pi Hpi) as (pi1 & Hpi1 & _). mstep (rd_proc_spec (idle c) pi1 s1 Hpi1).
      destruct (Z.eqb_spec (idle c) (cproc c)) as [Ei|Ei]; cbn [negb].
      * rewrite (bind_step _ _ _ _ _ (upd_proc_spec (idle c) (with_runs (s32 (runs pi1 + 1))) pi1 s1 Hpi1)).
        eexists. split; [reflexivity|]. apply (scheduled_from s s1); try done. split; try done.
        -- by apply runs_bump.
        -- intros c0 Hc0. exists c0. cbn [cpus set_procs s1 myid] in *. rewrite Hc in Hc0. by injection Hc0 as <-.
        -- exists q. by rewrite El.
        -- by eapply procs_upd_view.
      * destruct (switch_tail_spec s1 c (idle c) pi1 prc' q) as (s' & E & Hsd); try done.
        { apply (cpu_proc_unqueued s (myid s) c I Hc). }
        { intros j cj Hj Hcj. split; intros Heq; apply Hj; symmetry.
          - symmetry. apply (si_distinct _ _ I j (myid s) cj c Hcj Hc). right; left. done.
          - apply (si_distinct _ _ I (myid s) j c cj Hc Hcj). tauto. }
        rewrite E. exists s'. split; [done|]. apply (scheduled_from s s1); try done.
        rewrite El in Hsd. unfold requeued in Hsd. change (state prc') with (state prc) in Hsd.
        by rewrite bool_decide_eq_false_2 in Hsd.
  - assert (Hh : h ∈ run_list q) by (rewrite El; left).
    destruct (si_in _ _ I _ _ _ Hq Hh) as (Hoff & ph & Hph & _ & Hrqh & _).
    destruct (Hoff _ _ Hc) as [Hne _].
    assert (Hph1 : procs s1 !! h = Some ph) by (cbn [procs s1 set_procs]; by rewrite lookup_insert_ne).
    set (s2 := set_rq (myid s) (deq_rq h q) s1).
    assert (E2 : (_ ← sched_class_dequeue C h; mret h) s1 = Ok (h, s2)).
    { unfold sched_class_dequeue. rewrite bind_assoc_gets.
      by mstep (sc_dequeue (C := C) (myid s1) q h ph s1 Hq Hph1 Hh Hrqh). }
    mstep E2. pose proof (sinv_dequeue NCPU s1 (myid s) q h I1 Hq Hh) as I2. fold s2 in I2.
    mstep (rd_proc_spec h ph s2 Hph1). destruct (Z.eqb_spec h (cproc c)); [done|]. cbn [negb].
    apply list.NoDup_cons in Hnd as [Hht _].
    destruct (switch_tail_spec s2 c h ph prc' (deq_rq h q)) as (s' & E & Hsd); try done.
    { apply lookup_insert_eq. }
    { apply bool_decide_eq_true. intros r q0. cbn [rqs s2 set_rq]. destruct (decide (r = myid s)) as [->|Hr].
      - rewrite lookup_insert_eq. intros [= <-] Hx. cbn [run_list deq_rq] in Hx.
        apply list_elem_of_filter in Hx as [Hx _]. by apply Hx.
      - rewrite lookup_insert_ne by done. intros Hq0 Hx.
        destruct (si_in _ _ I r q0 h Hq0 Hx) as (_ & p2 & Hp2 & _ & Hr2 & _). congruence. }
    { intros j cj _ Hcj. by apply (Hoff j). }
    rewrite E. exists s'. split; [done|]. apply (scheduled_from s s2); try done.
    { intros r Hr. cbn [rqs s2 set_rq s1 set_procs]. by rewrite lookup_insert_ne. }
    cbn [run_list deq_rq] in Hsd. rewrite El in Hsd. rewrite filter_cons_False in Hsd by (intros Hx; by apply Hx).
    rewrite filter_ne_notin in Hsd by done. exact Hsd.
Qed.

(** ** Sequences of scheduler events on one CPU *)

Inductive label :=
| LSchedule                 (* [schedule()] *)
| LWakeup (p : Z)           (* [wakeup_proc(p)] *)
| LTick                     (* the clock: [sched_class_proc_tick(current)] *)
| LSleep (wait : Z).        (* the running process marks itself sleeping *)

Definition exec (l : label) : M sched unit :=
  match l with
  | LSchedule => schedule NCPU C
  | LWakeup p => wakeup_proc NCPU C p
  | LTick => cur ← current; sched_class_proc_tick C cur
  | LSleep w => cur ← current; upd_proc cur (fun pr => with_wait w (with_state PROC_SLEEPING pr))
  end.

Definition enabled (s : sched) (l : label) : Prop :=
  match l with LWakeup p => wakeable s p | _ => True end.

Definition kinv (s : sched) : Prop := sinv NCPU s /\ locks s = [] /\ in_interrupt s = false.

(** The run queue of this CPU. *)
Definition my_queue (s : sched) (l : list Z) : Prop := exists q, rqs s !! myid s = Some q /\ run_list q = l.
Definition my_current (s : sched) (p : Z) : Prop := exists c, cpus s !! myid s = Some c /\ cproc c = p.

Lemma kinv_parts s : kinv s -> exists c prc q,
  cpus s !! myid s = Some c /\ procs s !! cproc c = Some prc /\ rqs s !! myid s = Some q.
Proof.
  intros (I & _). destruct (si_me _ _ I) as [c Hc]. destruct (si_cpu _ _ I _ _ Hc) as (Hr & [prc Hp] & _).
  apply (si_rqs _ _ I) in Hr as [q Hq]. eauto 10.
Qed.

Lemma exec_schedule s l : kinv s -> my_queue s l ->
  exists s', exec LSchedule s = Ok (tt, s') /\ kinv s' /\
    (forall h t, l = h :: t -> my_current s' h /\ exists x, my_queue s' (t ++ x)).
Proof.
  intros K (q & Hq & <-). destruct (kinv_parts s K) as (c & prc & q' & Hc & Hp & Hq').
  rewrite Hq in Hq'. injection Hq' as <-. destruct K as (I & Hl & Hi).
  destruct (schedule_spec s c prc q I Hi) as (s' & E & []); [intros p; rewrite Hl; apply not_elem_of_nil|rewrite Hl; apply not_elem_of_nil|done..|].
  exists s'. split; [exact E|]. split; [split; [done|split; congruence]|].
  intros h t El. rewrite El in *. destruct (sd_cpu0 c Hc) as (c' & Hc' & Hn & _). destruct sd_queue0 as (q' & Hq' & Hl').
  split; [exists c'; by rewrite sd_me0|]. eexists. exists q'. rewrite sd_me0. split; [done|exact Hl'].
Qed.

Lemma exec_wakeup s p l : kinv s -> wakeable s p -> my_queue s l ->
  exists s', exec (LWakeup p) s = Ok (tt, s') /\ kinv s' /\ exists x, my_queue s' (l ++ x).
Proof.
  intros (I & Hl & Hi) Hw (q & Hq & <-). destruct (wakeup_proc_spec s p I Hw) as (s' & E & W & I').
  exists s'. split; [exact E|]. destruct W as [pr|pr c|pr q0 ? ? ? Hq0].
  - split; [done|]. exists [], q. by rewrite app_nil_r.
  - split; [done|]. exists [], q. by rewrite app_nil_r.
  - split; [done|]. unfold my_queue. cbn [rqs myid set_rq set_procs]. destruct (decide (wake_rq pr = myid s)) as [Er|].
    + rewrite Er in *. rewrite Hq in Hq0. injection Hq0 as <-. exists [p], (enq_rq p q). by rewrite lookup_insert_eq.
    + exists [], q. rewrite lookup_insert_ne by done. by rewrite app_nil_r.
Qed.

Lemma sinv_tick s p pr : sinv NCPU s -> procs s !! p = Some pr ->
  sinv NCPU (set_procs (<[p := tick_proc pr]> (procs s)) s).
Proof.
  intros I Hp. destruct (si_proc _ _ I _ _ Hp) as [Ha Hr].
  assert (state (tick_proc pr) = state pr /\ rq (tick_proc pr) = rq pr /\ pid (tick_proc pr) = pid pr /\
    cpu_affinity (tick_proc pr) = cpu_affinity pr) as (H1 & H2 & H3 & H4) by (unfold tick_proc; by repeat case_match).
  apply (sinv_upd NCPU s p pr); try done; [by rewrite H4|by rewrite H2|by right].
Qed.

(** The clock charges the running process, or asks for a switch when idling. *)
Lemma proc_tick_spec s c pr :
  StupidLock ∉ locks s -> RqLock (myid s) ∉ locks s ->
  cpus s !! myid s = Some c -> procs s !! cproc c = Some pr ->
  sched_class_proc_tick C (cproc c) s =
  Ok (tt, set_procs (<[cproc c := if cproc c =? idle c then with_resched true pr else tick_proc pr]> (procs s)) s).
Proof.
  intros HL1 HL2 Hc Hp. unfold sched_class_proc_tick. mstep (acquire_spec StupidLock s HL1).
  set (s1 := set_locks (StupidLock :: locks s) s). mstep (idleproc_spec s1 c Hc). rewrite bind_gets.
  destruct (Z.eqb_spec (cproc c) (idle c)); cbn [negb].
  - mstep (upd_proc_spec (cproc c) (with_resched true) pr s1 Hp). by rewrite (release_spec StupidLock (locks s)) by done.
  - set (s2 := set_locks (RqLock (myid s) :: StupidLock :: locks s) s).
    assert (E : (_ ← spinlock_acquire (RqLock (myid s1)); _ ← proc_tick C (Some (myid s1)) (cproc c);
      spinlock_release (RqLock (myid s1))) s1 = Ok (tt, set_procs (<[cproc c := tick_proc pr]> (procs s)) s1)).
    { mstep (acquire_spec (RqLock (myid s1)) s1 ltac:(cbn [locks s1 set_locks myid]; set_solver)).
      mstep (sc_tick (C := C) (Some (myid s1)) (cproc c) pr s2 Hp).
      rewrite (release_spec (RqLock (myid s)) (StupidLock :: locks s)) by (done || set_solver). done. }
    mstep E. by rewrite (release_spec StupidLock (locks s)) by done.
Qed.

Lemma tick_spec s c pr : locks s = [] -> cpus s !! myid s = Some c -> procs s !! cproc c = Some pr ->
  exec LTick s = Ok (tt, set_procs (<[cproc c := if cproc c =? idle c then with_resched true pr else tick_proc pr]> (procs s)) s).
Proof.
  intros Hl Hc Hp. cbn [exec]. mstep (current_spec s c Hc).
  apply proc_tick_spec; [rewrite Hl; apply not_elem_of_nil..|done|done].
Qed.

Lemma exec_tick s l : kinv s -> my_queue s l ->
  exists s', exec LTick s = Ok (tt, s') /\ kinv s' /\ my_queue s' l.
Proof.
  intros K Hq. destruct (kinv_parts s K) as (c & pr & q & Hc & Hp & _). destruct K as (I & Hl & Hi).
  rewrite (tick_spec s c pr) by done. eexists. split; [reflexivity|]. split; [|exact Hq]. split; [|done].
  case_match; [|by apply sinv_tick]. destruct (si_proc _ _ I _ _ Hp).
  apply (sinv_upd NCPU s _ pr); try done. by right.
Qed.

Lemma exec_sleep s w l : kinv s -> my_queue s l ->
  exists s', exec (LSleep w) s = Ok (tt, s') /\ kinv s' /\ my_queue s' l.
Proof.
  intros K Hq. destruct (kinv_parts s K) as (c & pr & q & Hc & Hp & _). destruct K as (I & Hl & Hi).
  cbn [exec]. mstep (current_spec s c Hc). rewrite (upd_proc_spec _ _ pr) by done.
  eexists. split; [reflexivity|]. split; [|exact Hq]. split; [|done]. destruct (si_proc _ _ I _ _ Hp).
  apply (sinv_upd NCPU s _ pr); try done. left. apply (cpu_proc_unqueued s (myid s) c I Hc).
Qed.

Inductive steps : sched -> list label -> sched -> Prop :=
| steps_nil s : steps s [] s
| steps_cons s l s1 ls s' : enabled s l -> exec l s = Ok (tt, s1) -> steps s1 ls s' -> steps s (l :: ls) s'.

Definition is_schedule (l : label) : bool := match l with LSchedule => true | _ => false end.
Fixpoint n_schedules (ls : list label) : nat :=
  match ls with [] => 0 | l :: ls' => (if is_schedule l then 1 else 0) + n_schedules ls' end.

Lemma kinv_my_queue s : kinv s -> exists l, my_queue s l.
Proof. intros K. destruct (kinv_parts s K) as (_ & _ & q & _ & _ & Hq). by exists (run_list q), q. Qed.

Lemma step_spec s l xs : kinv s -> enabled s l -> my_queue s xs ->
  exists s', exec l s = Ok (tt, s') /\ kinv s' /\
    (is_schedule l = false -> exists x, my_queue s' (xs ++ x)).
Proof.
  intros K He Hq. destruct l as [|p| |w].
  - destruct (exec_schedule s xs K Hq) as (s' & ? & ? & _). exists s'. by split_and!.
  - destruct (exec_wakeup s p xs K He Hq) as (s' & ? & ? & ?). eauto.
  - destruct (exec_tick s xs K Hq) as (s' & ? & ? & ?). exists s'. split; [done|]. split; [done|]. intros _. exists []. by rewrite app_nil_r.
  - destruct (exec_sleep s w xs K Hq) as (s' & ? & ? & ?). exists s'. split; [done|]. split; [done|]. intros _. exists []. by rewrite app_nil_r.
Qed.

Lemma steps_kinv s ls s' : steps s ls s' -> kinv s -> kinv s'.
Proof.
  induction 1 as [|s l s1 ls s' He E _ IH]; [done|]. intros K. apply IH.
  destruct (kinv_my_queue s K) as [xs Hq]. destruct (step_spec s l xs K He Hq) as (s2 & E2 & K2 & _).
  rewrite E in E2. by injection E2 as <-.
Qed.

(** The queue is first in, first out along every sequence of events. *)
Lemma steps_queue ls : forall s s' xs, steps s ls s' -> kinv s -> my_queue s xs -> (n_schedules ls <= length xs)%nat ->
  exists x, my_queue s' (drop (n_schedules ls) xs ++ x).
Proof.
  induction ls as [|l ls IH]; intros s s' xs Hst K Hq Hn; inversion Hst as [|? ? s1 ? ? He E Hst']; subst.
  { exists []. by rewrite app_nil_r. }
  cbn [n_schedules] in *. destruct l as [|p| |w].
  1: { destruct xs as [|h t]; [simpl in Hn; lia|]. destruct (exec_schedule s _ K Hq) as (s2 & E2 & K2 & Hx).
    rewrite E in E2. injection E2 as <-. destruct (Hx h t eq_refl) as (_ & x & Hq1).
    destruct (IH s1 s' _ Hst' K2 Hq1) as [y Hy]; [rewrite length_app; simpl in Hn; lia|].
    simpl in Hn |- *. rewrite drop_app_le in Hy by lia. exists (x ++ y). by rewrite app_assoc. }
  all: match type of E with exec ?l _ = _ => destruct (step_spec s l xs K He Hq) as (s2 & E2 & K2 & Hx) end;
    rewrite E in E2; injection E2 as <-; destruct (Hx eq_refl) as [x Hq1]; cbn [is_schedule Nat.add] in *;
    destruct (IH s1 s' _ Hst' K2 Hq1) as [y Hy]; [rewrite length_app; lia|];
    rewrite drop_app_le in Hy by lia; exists (x ++ y); by rewrite app_assoc.
Qed.
End specs.

(** ** The theorems *)

(** C20: whatever scheduling class fulfils the contract, each of the four events of
    the scheduler ([schedule]; [wakeup_proc] of a process that is no zombie and
    is runnable, the caller, or an ordinary process off the CPUs; the clock tick;
    the running process going to sleep) runs to completion without tripping an
    assertion, touching a bad address or deadlocking, and keeps the invariant:
    queues without duplicates and with exact counters, every queued process
    runnable, off the CPUs and pointing at its queue, no lock left behind.
    [stop_proc] is not among them: it deadlocks ([stop_proc_deadlocks]). *)
Theorem scheduler_step_safe NCPU C `{!SchedClass C} s l :
  kinv NCPU s -> enabled NCPU s l -> exists s', exec NCPU C l s = Ok (tt, s') /\ kinv NCPU s'.
Proof.
  intros K He. destruct (kinv_my_queue NCPU s K) as [xs Hq].
  destruct (step_spec NCPU C s l xs K He Hq) as (s' & E & K' & _). by exists s'.
Qed.

(** C32: round robin is fair: if [i] other processes stand before it in the run
    queue, a process gets the CPU at the [i+1]-st call of [schedule], whatever
    wakeups, ticks and sleeps come in between. *)
Theorem round_robin_fair NCPU C `{!SchedClass C} s ls s1 s2 xs i p :
  kinv NCPU s -> my_queue s xs -> xs !! i = Some p ->
  steps NCPU C s ls s1 -> n_schedules ls = i -> exec NCPU C LSchedule s1 = Ok (tt, s2) ->
  my_current s2 p.
Proof.
  intros K Hq Hi Hst <- E. pose proof (lookup_lt_Some _ _ _ Hi) as Hlt.
  destruct (steps_queue NCPU C ls s s1 xs Hst K Hq ltac:(lia)) as [x Hq1].
  pose proof (steps_kinv NCPU C s ls s1 Hst K) as K1.
  destruct (exec_schedule NCPU C s1 _ K1 Hq1) as (s2' & E' & _ & Hh). rewrite E in E'. injection E' as <-.
  rewrite (drop_S _ _ _ Hi) in Hh. by destruct (Hh p _ eq_refl).
Qed.

(** [schedule] takes the head of the CPU's queue (the current process if
    the queue is empty and it is runnable, the idle process otherwise) and
    appends the process it leaves to the queue iff that is runnable and not an
    idle process; nothing else of the scheduler's state changes. *)
Theorem schedule_correct NCPU C `{!SchedClass C} s c prc q :
  sinv NCPU s -> in_interrupt s = false -> locks s = [] ->
  cpus s !! myid s = Some c -> procs s !! cproc c = Some prc -> rqs s !! myid s = Some q ->
  exists s', schedule NCPU C s = Ok (tt, s') /\
    scheduled NCPU s s' (next_proc (cproc c) (idle c) prc (run_list q)) (next_queue NCPU (cproc c) prc (run_list q)).
Proof.
  intros I Hi Hl Hc Hp Hq. apply schedule_spec; try done; [intros p|]; rewrite Hl; apply not_elem_of_nil.
Qed.

(** [wakeup_proc] leaves a runnable process alone, only marks the caller
    runnable, and appends any other process to the queue it last used (or that
    of its CPU), runnable, with an empty wait state and a fresh time slice when
    its own was used up. *)
Theorem wakeup_proc_correct NCPU C `{!SchedClass C} s p :
  sinv NCPU s -> wakeable NCPU s p ->
  exists s', wakeup_proc NCPU C p s = Ok (tt, s') /\ woken s p s' /\ sinv NCPU s'.
Proof. apply wakeup_proc_spec, _. Qed.

Fixpoint ticks (C : sched_class) (NCPU : Z) (n : nat) (s : sched) : outcome sched :=
  match n with
  | O => Ok s
  | S n' => '(_, s') ← exec NCPU C LTick s; ticks C NCPU n' s'
  end.

(** A running process with [t] ticks left is asked to give up the CPU after
    exactly [t] ticks of the clock, and its slice never goes below zero. *)
Theorem time_slice_expires NCPU C `{!SchedClass C} n : forall s c pr,
  sinv NCPU s -> locks s = [] -> cpus s !! myid s = Some c -> procs s !! cproc c = Some pr ->
  cproc c <> idle c -> need_resched pr = false -> 0 < time_slice pr ->
  exists s' pr', ticks C NCPU n s = Ok s' /\ procs s' !! cproc c = Some pr' /\
    time_slice pr' = Z.max 0 (time_slice pr - Z.of_nat n) /\
    (need_resched pr' = true <-> time_slice pr <= Z.of_nat n).
Proof.
  assert (Hgen : forall n s c pr,
    sinv NCPU s -> locks s = [] -> cpus s !! myid s = Some c -> procs s !! cproc c = Some pr ->
    cproc c <> idle c -> 0 <= time_slice pr ->
    exists s' pr', ticks C NCPU n s = Ok s' /\ procs s' !! cproc c = Some pr' /\
      time_slice pr' = Z.max 0 (time_slice pr - Z.of_nat n) /\
      (need_resched pr' = true <-> need_resched pr = true \/ (0 < Z.of_nat n /\ time_slice pr <= Z.of_nat n))).
  { clear n. induction n as [|n IH]; intros s c pr I Hl Hc Hp Hne Ht.
    { exists s, pr. split_and!; [done|done|lia|]. split; [by left|]. intros [?|?]; [done|lia]. }
    cbn [ticks]. rewrite (tick_spec NCPU C s c pr) by done. destruct (Z.eqb_spec (cproc c) (idle c)); [done|].
    change (mbind ?f (Ok (tt, ?x))) with (f (tt, x)). cbn beta iota.
    set (s1 := set_procs _ s). pose proof (sinv_tick NCPU s _ pr I Hp) as I1.
    assert (Htk : time_slice (tick_proc pr) = Z.max 0 (time_slice pr - 1) /\
      (need_resched (tick_proc pr) = true <-> need_resched pr = true \/ time_slice pr <= 1)).
    { unfold tick_proc. destruct (Z.ltb_spec 0 (time_slice pr)); cbn [time_slice with_slice];
        destruct (Z.eqb_spec (time_slice pr - 1) 0), (Z.eqb_spec (time_slice pr) 0);
        cbn [time_slice with_slice with_resched need_resched]; split; try lia; try done;
        (split; [by left || (intros; right; lia)|intros [?|?]; [done|lia]]). }
    destruct Htk as [Ht1 Hr1].
    destruct (IH s1 c (tick_proc pr)) as (s' & pr' & E & Hp' & Ht' & Hr'); try done; [apply lookup_insert_eq|lia|].
    exists s', pr'. split_and!; [exact E|exact Hp'|lia|]. rewrite Hr', Hr1, Ht1. split.
    - intros [[?|?]|?]; [by left|right; lia|right; lia].
    - intros [?|?]; [by left; left|]. destruct (decide (time_slice pr <= 1)); [by left; right|right; lia]. }
  intros s c pr I Hl Hc Hp Hne Hnr Ht. destruct (Hgen n s c pr I Hl Hc Hp Hne ltac:(lia)) as (s' & pr' & E & Hp' & Ht' & Hr').
  exists s', pr'. split_and!; [done..|]. rewrite Hr', Hnr. split; [intros [?|?]; [done|lia]|intros; right; lia].
Qed.

(** [stop_proc] never returns: it acquires [stupid_lock] a second time
    where it should release it. *)
Theorem stop_proc_deadlocks NCPU C `{!SchedClass C} s p w pr :
  sinv NCPU s -> locks s = [] -> procs s !! p = Some pr ->
  (forall q, rqs s !! myid s = Some q -> p ∈ run_list q) ->
  stop_proc C p w s = Err Deadlock.
Proof.
  intros I Hl Hp Hin. unfold stop_proc.
  mstep (acquire_spec StupidLock s ltac:(rewrite Hl; apply not_elem_of_nil)). rewrite Hl.
  set (s1 := set_locks [StupidLock] s). mstep (upd_proc_spec p (with_state PROC_SLEEPING) pr s1 Hp).
  mstep (upd_proc_spec p (with_wait w) (with_state PROC_SLEEPING pr)
    (set_procs (<[p := with_state PROC_SLEEPING pr]> (procs s1)) s1) ltac:(apply lookup_insert_eq)).
  rewrite set_procs_twice. set (pr2 := with_wait w _). set (s2 := set_procs (<[p := pr2]> (procs s1)) s1).
  rewrite bind_gets. change (myid s2) with (myid s).
  mstep (acquire_spec (RqLock (myid s)) s2 ltac:(cbn [locks s2 set_procs s1 set_locks]; set_solver)).
  set (s3 := set_locks (RqLock (myid s) :: locks s2) s2). rewrite bind_gets.
  destruct (proj2 (si_rqs _ _ I (myid s)) (me_in_range NCPU s I)) as [q Hq]. specialize (Hin q Hq).
  rewrite (run_link_empty_false (myid s) q p s3 Hq Hin). cbn [negb].
  destruct (si_in _ _ I _ _ _ Hq Hin) as (_ & pr' & Hp' & _ & Hrq & _). rewrite Hp in Hp'. injection Hp' as <-.
  assert (E : sched_class_dequeue C p s3 = Ok (tt, set_rq (myid s) (deq_rq p q) s3)).
  { unfold sched_class_dequeue. rewrite bind_gets.
    exact (sc_dequeue (C := C) (myid s) q p pr2 s3 Hq (lookup_insert_eq _ _ _) Hin Hrq). }
  mstep E. rewrite (bind_step _ _ _ _ _ (release_spec (RqLock (myid s)) (locks s2) (set_rq (myid s) (deq_rq p q) s3) eq_refl
    ltac:(cbn [locks s2 set_procs s1 set_locks]; set_solver))).
  unfold spinlock_acquire. rewrite bool_decide_eq_true_2; [done|]. cbn [locks set_locks s2 set_procs s1]. left.
Qed.

(** ** A concrete CPU: process 1 runs, 2 and 3 wait in the queue, 4 sleeps *)

Definition ex_proc (st : proc_state) (pid slice : Z) (r : option Z) : proc := Proc st pid 0 false 0 0 r slice 0 0.
Definition ex_sched : sched := Sched
  (list_to_map [(0, ex_proc PROC_RUNNABLE 0 0 None); (1, ex_proc PROC_RUNNABLE 1 3 (Some 0));
                (2, ex_proc PROC_RUNNABLE 2 8 (Some 0)); (3, ex_proc PROC_RUNNABLE 3 8 (Some 0));
                (4, ex_proc PROC_SLEEPING 4 0 None)])
  {[ 0 := RunQueue [2; 3] 2 8 [0] ]} {[ 0 := Cpu 1 0 0 [] ]} ∅ [] 0 false.

Lemma ex_sched_cpu i c : cpus ex_sched !! i = Some c -> i = 0 /\ c = Cpu 1 0 0 [].
Proof. cbn [cpus ex_sched]. by intros [<- <-]%lookup_singleton_Some. Qed.
Lemma ex_sched_rq r q : rqs ex_sched !! r = Some q -> r = 0 /\ q = RunQueue [2; 3] 2 8 [0].
Proof. cbn [rqs ex_sched]. by intros [<- <-]%lookup_singleton_Some. Qed.

Lemma ex_sched_inv : sinv 1 ex_sched.
Proof.
  split.
  - by eexists.
  - intros r. cbn [rqs ex_sched]. destruct (decide (r = 0)) as [->|].
    + rewrite lookup_singleton_eq. split; [lia|by eexists].
    + rewrite lookup_singleton_ne by done. split; [by intros []|lia].
  - intros r q [-> ->]%ex_sched_rq. cbn [run_list proc_num max_time_slice rq_ring].
    split_and!; [by apply (bool_decide_unpack _)|done..].
  - intros r q p [-> ->]%ex_sched_rq Hp. cbn [run_list] in Hp. split.
    + intros i c [-> ->]%ex_sched_cpu. cbn [cproc idle]. set_solver.
    + apply elem_of_cons in Hp as [->|Hp]; [by eexists|]. apply list_elem_of_singleton in Hp as ->. by eexists.
  - intros i c [-> ->]%ex_sched_cpu. split; [done|]. split; by eexists.
  - by intros i j ci cj [-> ->]%ex_sched_cpu [-> ->]%ex_sched_cpu.
  - assert (H : map_Forall (fun _ pr => cpu_in_range 1 (cpu_affinity pr) &&
      match rq pr with Some r => cpu_in_range 1 r | None => true end = true) (procs ex_sched)).
    { apply (bool_decide_unpack _). by vm_compute. }
    unfold cpu_in_range in H. intros p pr Hp. specialize (H p pr Hp). cbn beta in H.
    split; [lia|]. intros r E. rewrite E in H. lia.
Qed.

Lemma ex_sched_kinv : kinv 1 ex_sched.
Proof. split; [exact ex_sched_inv|done]. Qed.

Lemma ex_sched_wakeable : wakeable 1 ex_sched 4.
Proof.
  exists (ex_proc PROC_SLEEPING 4 0 None). split; [done|]. split; [done|]. intros _. right. split; [|done].
  by intros i c [-> ->]%ex_sched_cpu.
Qed.

Lemma scheduler_step_safe_witness :
  exists s', exec 1 MLFQ_sched_class (LWakeup 4) ex_sched = Ok (tt, s') /\ kinv 1 s'.
Proof.
  apply (scheduler_step_safe 1 MLFQ_sched_class ex_sched (LWakeup 4)); [exact ex_sched_kinv|exact ex_sched_wakeable].
Defined.

Definition ex_after (l : label) (s : sched) : sched :=
  match exec 1 MLFQ_sched_class l s with Ok (_, s') => s' | Err _ => s end.

Definition ex_sched1 : sched := ex_after (LWakeup 4) ex_sched.
Definition ex_sched2 : sched := ex_after LSchedule ex_sched1.
Definition ex_sched3 : sched := ex_after LSchedule ex_sched2.

Lemma ex_run1 : exec 1 MLFQ_sched_class (LWakeup 4) ex_sched = Ok (tt, ex_sched1).
Proof. vm_compute. reflexivity. Qed.
Lemma ex_run2 : exec 1 MLFQ_sched_class LSchedule ex_sched1 = Ok (tt, ex_sched2).
Proof. vm_compute. reflexivity. Qed.
Lemma ex_run3 : exec 1 MLFQ_sched_class LSchedule ex_sched2 = Ok (tt, ex_sched3).
Proof. vm_compute. reflexivity. Qed.

Lemma ex_steps : steps 1 MLFQ_sched_class ex_sched [LWakeup 4; LSchedule] ex_sched2.
Proof.
  apply (steps_cons 1 MLFQ_sched_class ex_sched (LWakeup 4) ex_sched1); [exact ex_sched_wakeable|exact ex_run1|].
  apply (steps_cons 1 MLFQ_sched_class ex_sched1 LSchedule ex_sched2); [exact I|exact ex_run2|apply steps_nil].
Qed.

Lemma round_robin_fair_witness : my_current ex_sched3 3.
Proof.
  exact (round_robin_fair 1 MLFQ_sched_class ex_sched [LWakeup 4; LSchedule] ex_sched2 ex_sched3 [2; 3] 1 3
    ex_sched_kinv (ex_intro _ _ (conj eq_refl eq_refl)) eq_refl ex_steps eq_refl ex_run3).
Defined.

Lemma schedule_correct_witness :
  exists s', schedule 1 MLFQ_sched_class ex_sched = Ok (tt, s') /\ scheduled 1 ex_sched s' 2 [3; 1].
Proof.
  apply (schedule_correct 1 MLFQ_sched_class ex_sched (Cpu 1 0 0 []) (ex_proc PROC_RUNNABLE 1 3 (Some 0))
    (RunQueue [2; 3] 2 8 [0])); [exact ex_sched_inv|reflexivity..].
Defined.

Lemma wakeup_proc_correct_witness :
  exists s', wakeup_proc 1 RR_sched_class 4 ex_sched = Ok (tt, s') /\ woken ex_sched 4 s' /\ sinv 1 s'.
Proof. apply (wakeup_proc_correct 1 RR_sched_class ex_sched 4); [exact ex_sched_inv|exact ex_sched_wakeable]. Defined.

Lemma time_slice_expires_witness :
  exists s' pr', ticks MPRR_sched_class 1 3 ex_sched = Ok s' /\ procs s' !! 1 = Some pr' /\
    time_slice pr' = 0 /\ (need_resched pr' = true <-> 3 <= 3).
Proof.
  apply (time_slice_expires 1 MPRR_sched_class 3 ex_sched (Cpu 1 0 0 []) (ex_proc PROC_RUNNABLE 1 3 (Some 0)));
    [exact ex_sched_inv|reflexivity..|discriminate|reflexivity|reflexivity].
Defined.

Lemma stop_proc_deadlocks_witness : stop_proc MLFQ_sched_class 3 WT_SIGNAL ex_sched = Err Deadlock.
Proof.
  apply (stop_proc_deadlocks 1 MLFQ_sched_class ex_sched 3 WT_SIGNAL (ex_proc PROC_RUNNABLE 3 8 (Some 0)));
    [exact ex_sched_inv|reflexivity..|].
  intros q [_ ->]%ex_sched_rq. cbn [run_list]. set_solver.
Defined.
