(* ===== verification/Timer.v ===== *)
(** * Timer: the timer list of schedule/sched.c

    Timers hang in a list per CPU in which each entry stores the distance to its
    predecessor.  [deadlines] reads the list as absolute deadlines; the theorems
    say that adding, deleting and the clock tick are the obvious operations on
    those: sorted insertion, removal, and "every deadline comes one tick closer
    and the owners of those that are due are woken". *)

From stdpp Require Import numbers gmap list.
From S2P Require Import Prelude Sched.
Local Open Scope Z_scope.

Definition rd_timer (t : Z) : M sched timer_t := load (fun s => timers s !! t).
Definition upd_timer (t : Z) (f : timer_t -> timer_t) : M sched unit := fun s =>
  match timers s !! t with
  | Some tm => Ok (tt, set_timers (<[t := f tm]> (timers s)) s)
  | None => Err BadAccess
  end.
Definition with_expires (v : Z) (tm : timer_t) : timer_t := Timer v (tproc tm) (linux tm).

Definition timer_init (t p expires : Z) : M sched unit :=
  modify (fun s => set_timers (<[t := Timer (u32 expires) (Some p) None]> (timers s)) s).

(** The CPU whose timer list [t] is linked in, if any. *)
Definition timer_owner (t : Z) (s : sched) : option Z :=
  fst <$> head (filter (fun ic => t ∈ timer_list (snd ic)) (map_to_list (cpus s))).

Definition rd_cpu (c : Z) : M sched cpu := load (fun s => cpus s !! c).
Definition set_timer_list (c : Z) (l : list Z) : M sched unit := fun s =>
  match cpus s !! c with
  | Some x => Ok (tt, set_cpu c (Cpu (cproc x) (idle x) (prev x) l) s)
  | None => Err BadAccess
  end.

(** The walk of [__add_timer]: the list with [t] linked in before the first
    entry that expires later; the distances are adjusted on the way. *)
Fixpoint add_walk (l : list Z) (t : Z) : M sched (list Z) :=
  match l with
  | [] => mret [t]
  | n :: l' =>
      tm ← rd_timer t;
      next ← rd_timer n;
      if expires tm <? expires next then
        _ ← upd_timer n (with_expires (u32 (expires next - expires tm)));
        mret (t :: n :: l')
      else
        _ ← upd_timer t (with_expires (u32 (expires tm - expires next)));
        l'' ← add_walk l' t;
        mret (n :: l'')
  end.

Definition __add_timer (t cpu_id : Z) : M sched unit :=
  tm ← rd_timer t;
  _ ← kassert ((0 <? expires tm) && bool_decide (is_Some (tproc tm)));
  o ← gets (timer_owner t);
  _ ← kassert (bool_decide (o = None));
  c ← rd_cpu cpu_id;
  l ← add_walk (timer_list c) t;
  set_timer_list cpu_id l.

Definition add_timer (t : Z) : M sched unit :=
  me ← gets myid;
  _ ← spinlock_acquire (TimerLock me);
  _ ← __add_timer t me;
  spinlock_release (TimerLock me).

Definition __del_timer (t cpu_id : Z) : M sched unit :=
  o ← gets (timer_owner t);
  match o with
  | None => mret tt
  | Some c =>
      tm ← rd_timer t;
      x ← rd_cpu c;
      _ ← (if negb (expires tm =? 0) then
             match next_in (timer_list x) t with
             | Some n => next ← rd_timer n; upd_timer n (with_expires (u32 (expires next + expires tm)))
             (* the head of the list the timer is in, compared with that of [cpu_id] *)
             | None => if c =? cpu_id then mret tt else fail BadAccess
             end
           else mret tt);
      set_timer_list c (filter (fun y => y <> t) (timer_list x))
  end.

Definition del_timer (t : Z) : M sched unit :=
  me ← gets myid;
  _ ← spinlock_acquire (TimerLock me);
  _ ← __del_timer t me;
  spinlock_release (TimerLock me).

Section run.
(** [call f] runs the callback of a Linux timer. *)
Context (NCPU : Z) (C : sched_class) (call : Z -> M sched unit).

Definition owner_affinity (tm : timer_t) : M sched Z :=
  match tproc tm with
  | Some p => pr ← rd_proc p; mret (cpu_affinity pr)
  | None => fail BadAccess
  end.

(** The [while (timer->expires == 0)] loop. *)
Fixpoint run_expired (fuel : nat) (t : Z) : M sched unit :=
  match fuel with
  | O => fail OutOfFuel
  | S fuel' =>
      tm ← rd_timer t;
      if negb (expires tm =? 0) then mret tt
      else
        me ← gets myid;
        x ← rd_cpu me;
        let le := next_in (timer_list x) t in
        match linux tm with
        | Some f =>
            _ ← spinlock_release (TimerLock me);
            _ ← match f with Some g => call g | None => mret tt end;
            _ ← spinlock_acquire (TimerLock me);
            a ← owner_affinity tm;
            _ ← __del_timer t a;
            (* kfree(timer) *)
            _ ← modify (fun s => set_timers (delete t (timers s)) s);
            run_expired fuel' t
        | None =>
            match tproc tm with
            | None => fail BadAccess
            | Some p =>
                pr ← rd_proc p;
                _ ← (if negb (wait_state pr =? 0)
                     then kassert (negb (Z.land (wait_state pr) WT_INTERRUPTED =? 0)) else mret tt);
                _ ← wakeup_proc NCPU C p;
                a ← owner_affinity tm;
                _ ← __del_timer t a;
                match le with
                | None => mret tt
                | Some n => run_expired fuel' n
                end
            end
        end
  end.

Definition run_timer_list : M sched unit :=
  me ← gets myid;
  _ ← spinlock_acquire (TimerLock me);
  x ← rd_cpu me;
  _ ← match head (timer_list x) with
      | None => mret tt
      | Some t =>
          tm ← rd_timer t;
          _ ← kassert (negb (expires tm =? 0));
          _ ← upd_timer t (with_expires (expires tm - 1));
          run_expired (S (length (timer_list x))) t
      end;
  cur ← current;
  _ ← sched_class_proc_tick C cur;
  spinlock_release (TimerLock me).
End run.

(** ** Deadlines *)

Fixpoint deadlines (ts : gmap Z timer_t) (l : list Z) (now : Z) : list (Z * Z) :=
  match l with
  | [] => []
  | t :: l' => match ts !! t with
               | Some tm => (t, now + expires tm) :: deadlines ts l' (now + expires tm)
               | None => []
               end
  end.

(** Insertion behind everything that is due no later. *)
Fixpoint insert_deadline (x : Z * Z) (l : list (Z * Z)) : list (Z * Z) :=
  match l with
  | [] => [x]
  | y :: l' => if x.2 <? y.2 then x :: y :: l' else y :: insert_deadline x l'
  end.

(** The list of one CPU: linked timers exist, distances fit their type, the
    first one is not due already. *)
Record tlist (ts : gmap Z timer_t) (l : list Z) : Prop := {
  tl_nodup : NoDup l;
  tl_some : forall t, t ∈ l -> exists tm, ts !! t = Some tm /\ 0 <= expires tm < 2 ^ 32;
  tl_far : forall t d, (t, d) ∈ deadlines ts l 0 -> 0 < d < 2 ^ 32 }.

Record tinv (s : sched) : Prop := {
  ti_lists : forall i c, cpus s !! i = Some c -> tlist (timers s) (timer_list c);
  ti_once : forall i j ci cj t, cpus s !! i = Some ci -> cpus s !! j = Some cj ->
    t ∈ timer_list ci -> t ∈ timer_list cj -> i = j }.

Lemma rd_timer_spec t tm s : timers s !! t = Some tm -> rd_timer t s = Ok (tm, s).
Proof. unfold rd_timer, load. by intros ->. Qed.
Lemma upd_timer_spec t f tm s :
  timers s !! t = Some tm -> upd_timer t f s = Ok (tt, set_timers (<[t := f tm]> (timers s)) s).
Proof. unfold upd_timer. by intros ->. Qed.
Lemma rd_cpu_spec c x s : cpus s !! c = Some x -> rd_cpu c s = Ok (x, s).
Proof. unfold rd_cpu, load. by intros ->. Qed.

Lemma deadlines_ext ts ts' l now :
  (forall t, t ∈ l -> ts' !! t = ts !! t) -> deadlines ts' l now = deadlines ts l now.
Proof.
  revert now. induction l as [|t l IH]; intros now H; [done|]. cbn [deadlines].
  rewrite (H t) by left. case_match; [|done]. f_equal. apply IH. intros x Hx. apply H. by right.
Qed.

Lemma deadlines_shift ts l now k : deadlines ts l (now + k) = (fun x => (x.1, x.2 + k)) <$> deadlines ts l now.
Proof.
  revert now. induction l as [|t l IH]; intros now; [done|]. cbn [deadlines]. case_match; [|done].
  rewrite fmap_cons. cbn [fst snd]. f_equal; [f_equal; lia|].
  rewrite <- IH. f_equal. lia.
Qed.

Lemma deadlines_fst ts l now t d : (t, d) ∈ deadlines ts l now -> t ∈ l.
Proof.
  revert now. induction l as [|x l IH]; intros now; [by intros ?%not_elem_of_nil|]. cbn [deadlines].
  case_match; [|by intros ?%not_elem_of_nil]. intros [[= -> _]|H']%elem_of_cons; [left|right; by eapply IH].
Qed.

(** Timers other than their expiry are never changed. *)
Definition same_owner (ts ts' : gmap Z timer_t) : Prop :=
  forall x, (fun tm => (tproc tm, linux tm)) <$> ts' !! x = (fun tm => (tproc tm, linux tm)) <$> ts !! x.

Lemma same_owner_upd ts t tm v : ts !! t = Some tm -> same_owner ts (<[t := with_expires v tm]> ts).
Proof.
  intros H x. destruct (decide (x = t)) as [->|]; [by rewrite lookup_insert_eq, H|by rewrite lookup_insert_ne].
Qed.
Lemma same_owner_trans ts1 ts2 ts3 : same_owner ts1 ts2 -> same_owner ts2 ts3 -> same_owner ts1 ts3.
Proof. intros H1 H2 x. by rewrite H2, H1. Qed.

Lemma add_walk_spec t l : forall s now tm,
  timers s !! t = Some tm -> 0 <= expires tm < 2 ^ 32 -> t ∉ l -> NoDup l ->
  (forall x, x ∈ l -> exists tx, timers s !! x = Some tx /\ 0 <= expires tx < 2 ^ 32) ->
  exists l' ts', add_walk l t s = Ok (l', set_timers ts' s) /\
    deadlines ts' l' now = insert_deadline (t, now + expires tm) (deadlines (timers s) l now) /\
    l' ≡ₚ t :: l /\ same_owner (timers s) ts' /\ (forall x, x ∉ t :: l -> ts' !! x = timers s !! x) /\
    (forall x, x ∈ t :: l -> exists tx, ts' !! x = Some tx /\ 0 <= expires tx < 2 ^ 32).
Proof.
  induction l as [|n l IH]; intros s now tm Ht He Hnt Hnd Hsome.
  { exists [t], (timers s). split; [by destruct s|]. split; [cbn [deadlines insert_deadline]; by rewrite Ht|].
    split_and!; [done|done|done|]. intros x ->%list_elem_of_singleton. eauto. }
  apply not_elem_of_cons in Hnt as [Hne Hnt]. apply list.NoDup_cons in Hnd as [Hnl Hnd].
  destruct (Hsome n) as (tn & Hn & Hen); [left|].
  cbn [add_walk deadlines]. mstep (rd_timer_spec _ _ _ Ht). mstep (rd_timer_spec _ _ _ Hn). rewrite Hn.
  cbn [insert_deadline snd]. destruct (Z.ltb_spec (expires tm) (expires tn)) as [L|L].
  - rewrite (umod_small 32) by (unfold is_u; lia).
    mstep (upd_timer_spec n (with_expires (expires tn - expires tm)) tn s Hn).
    eexists (t :: n :: l), _. split; [reflexivity|]. split_and!; [|done|by apply same_owner_upd| |].
    + destruct (Z.ltb_spec (now + expires tm) (now + expires tn)); [|lia].
      cbn [deadlines]. rewrite lookup_insert_ne, Ht, lookup_insert_eq by done. cbn [expires with_expires].
      replace (now + expires tm + (expires tn - expires tm)) with (now + expires tn) by lia.
      do 2 f_equal. apply deadlines_ext. intros x Hx. apply lookup_insert_ne. by intros ->.
    + intros x Hx. apply lookup_insert_ne. set_solver.
    + intros x Hx. destruct (decide (x = n)) as [->|].
      * rewrite lookup_insert_eq. eexists; split; [done|]. cbn. lia.
      * rewrite lookup_insert_ne by done. apply elem_of_cons in Hx as [->|Hx]; eauto.
  - rewrite (umod_small 32) by (unfold is_u; lia).
    mstep (upd_timer_spec t (with_expires (expires tm - expires tn)) tm s Ht).
    set (tm' := with_expires (expires tm - expires tn) tm). set (s1 := set_timers (<[t := tm']> (timers s)) s).
    destruct (IH s1 (now + expires tn) tm') as (l' & ts' & E & D & P & O & F & S); [apply lookup_insert_eq|cbn; lia|done|done| |].
    { intros x Hx. cbn [timers s1 set_timers]. rewrite lookup_insert_ne by (by intros ->). apply Hsome. by right. }
    mstep E. exists (n :: l'), ts'. split; [done|].
    assert (Hn' : ts' !! n = Some tn).
    { rewrite F by set_solver. cbn [timers s1 set_timers]. by rewrite lookup_insert_ne. }
    split_and!.
    + destruct (Z.ltb_spec (now + expires tm) (now + expires tn)); [lia|]. cbn [deadlines]. rewrite Hn'. f_equal.
      rewrite D. cbn [expires tm' with_expires timers s1 set_timers].
      replace (now + expires tn + (expires tm - expires tn)) with (now + expires tm) by lia.
      f_equal. apply deadlines_ext. intros x Hx. apply lookup_insert_ne. by intros ->.
    + rewrite P. apply Permutation_swap.
    + eapply same_owner_trans; [|exact O]. by apply same_owner_upd.
    + intros x Hx. rewrite F by set_solver. cbn [timers s1 set_timers]. rewrite lookup_insert_ne; [done|set_solver].
    + intros x Hx. destruct (decide (x = n)) as [->|]; [eauto|]. apply S. set_solver.
Qed.

Lemma timer_owner_None t s :
  (forall i c, cpus s !! i = Some c -> t ∉ timer_list c) -> timer_owner t s = None.
Proof.
  intros H. unfold timer_owner. destruct (filter _ _) as [|[i c] l] eqn:E; [done|].
  assert (Hin : (i, c) ∈ filter (fun ic => t ∈ timer_list (snd ic)) (map_to_list (cpus s))) by (rewrite E; left).
  apply list_elem_of_filter in Hin as [Ht Hm]. apply elem_of_map_to_list in Hm. by destruct (H i c Hm).
Qed.

Lemma timer_owner_Some t s c x :
  cpus s !! c = Some x -> t ∈ timer_list x ->
  (forall j cj, cpus s !! j = Some cj -> t ∈ timer_list cj -> j = c) -> timer_owner t s = Some c.
Proof.
  intros Hc Ht Hu. unfold timer_owner. destruct (filter _ _) as [|[i ci] l] eqn:E.
  - assert (Hin : (c, x) ∈ filter (fun ic => t ∈ timer_list (snd ic)) (map_to_list (cpus s))).
    { apply list_elem_of_filter. split; [done|]. by apply elem_of_map_to_list. }
    rewrite E in Hin. by apply not_elem_of_nil in Hin.
  - assert (Hin : (i, ci) ∈ filter (fun ic => t ∈ timer_list (snd ic)) (map_to_list (cpus s))) by (rewrite E; left).
    apply list_elem_of_filter in Hin as [Hti Hm]. apply elem_of_map_to_list in Hm. cbn. f_equal. by apply (Hu i ci).
Qed.

Lemma elem_of_insert_deadline x y l : y ∈ insert_deadline x l <-> y = x \/ y ∈ l.
Proof.
  induction l as [|z l IH]; cbn [insert_deadline]; [set_solver|]. case_match; [set_solver|].
  rewrite !elem_of_cons, IH. tauto.
Qed.

Lemma set_timer_list_spec c x l s :
  cpus s !! c = Some x ->
  set_timer_list c l s = Ok (tt, set_cpu c (Cpu (cproc x) (idle x) (prev x) l) s).
Proof. unfold set_timer_list. by intros ->. Qed.

(** Replacing one CPU's list and its timers keeps the lists of the others. *)
Lemma tinv_replace s c x l' ts' pv :
  tinv s -> cpus s !! c = Some x -> tlist ts' l' ->
  (forall t, t ∈ l' -> t ∈ timer_list x \/ forall i ci, cpus s !! i = Some ci -> t ∉ timer_list ci) ->
  (forall i ci t, i <> c -> cpus s !! i = Some ci -> t ∈ timer_list ci -> ts' !! t = timers s !! t) ->
  tinv (set_cpu c (Cpu (cproc x) (idle x) pv l') (set_timers ts' s)).
Proof.
  intros T Hc Hl Hin Hsame. split; cbn [cpus timers set_cpu set_timers].
  - intros i ci. destruct (decide (i = c)) as [->|Hi]; [rewrite lookup_insert_eq; by intros [= <-]|].
    rewrite lookup_insert_ne by done. intros Hci. destruct (ti_lists s T i ci Hci) as [Hd Hs Hf].
    split; [done| |].
    + intros t Ht. rewrite (Hsame i ci t) by done. by apply Hs.
    + intros t d. rewrite (deadlines_ext (timers s)) by (intros; by apply (Hsame i ci)). apply Hf.
  - assert (Hout : forall i ci t, i <> c -> cpus s !! i = Some ci -> t ∈ timer_list ci -> t ∈ l' -> False).
    { intros i ci t Hi Hci Ht Hl'. destruct (Hin t Hl') as [Hx|Hn]; [|by eapply Hn].
      apply Hi. by eapply (ti_once s T i c ci x t). }
    intros i j ci cj t. destruct (decide (i = c)) as [->|Hi], (decide (j = c)) as [->|Hj]; [done|..];
      rewrite ?lookup_insert_eq, ?lookup_insert_ne by done.
    + intros [= <-] Hcj Hl' Ht. exfalso. by eapply (Hout j cj t).
    + intros Hci [= <-] Ht Hl'. exfalso. by eapply (Hout i ci t).
    + apply (ti_once s T).
Qed.

(** C36: [add_timer] inserts the timer at its deadline: it will fire after
    exactly [expires] ticks, after all timers due no later and before all
    others, whose deadlines do not change. *)
Theorem add_timer_correct s c t tm :
  tinv s -> cpus s !! myid s = Some c -> TimerLock (myid s) ∉ locks s ->
  timers s !! t = Some tm -> 0 < expires tm < 2 ^ 32 -> is_Some (tproc tm) ->
  (forall i ci, cpus s !! i = Some ci -> t ∉ timer_list ci) ->
  exists s' c', add_timer t s = Ok (tt, s') /\ tinv s' /\ locks s' = locks s /\ procs s' = procs s /\
    rqs s' = rqs s /\ cpus s' !! myid s = Some c' /\
    deadlines (timers s') (timer_list c') 0 = insert_deadline (t, expires tm) (deadlines (timers s) (timer_list c) 0).
Proof.
  intros T Hc HL Ht He Hp Hout. destruct (ti_lists s T _ _ Hc) as [Hd Hs Hf].
  unfold add_timer. rewrite bind_gets. mstep (acquire_spec (TimerLock (myid s)) s HL).
  set (s1 := set_locks (TimerLock (myid s) :: locks s) s).
  destruct (add_walk_spec t (timer_list c) s1 0 tm Ht ltac:(lia) (Hout _ _ Hc) Hd Hs) as (l' & ts' & E & D & P & O & F & S).
  assert (Ew : __add_timer t (myid s) s1 =
    Ok (tt, set_cpu (myid s) (Cpu (cproc c) (idle c) (prev c) l') (set_timers ts' s1))).
  { unfold __add_timer. mstep (rd_timer_spec t tm s1 Ht).
    massert; [|rewrite bool_decide_eq_true_2 by done; rewrite andb_true_r; apply Z.ltb_lt; lia].
    rewrite bind_gets. rewrite (timer_owner_None t s1) by exact Hout. massert; [|done].
    mstep (rd_cpu_spec (myid s) c s1 Hc). mstep E. by rewrite (set_timer_list_spec (myid s) c). }
  mstep Ew. rewrite (release_spec (TimerLock (myid s)) (locks s)) by done.
  set (c' := Cpu (cproc c) (idle c) (prev c) l').
  eexists _, c'. split; [reflexivity|]. split_and!; try done.
  - change (tinv (set_cpu (myid s) c' (set_timers ts' s))). apply tinv_replace; [done|done| | |].
    + split; [rewrite P; by apply list.NoDup_cons; split; [apply (Hout _ _ Hc)|]| |].
      * intros x Hx. rewrite P in Hx. by apply S.
      * intros x d. rewrite D, elem_of_insert_deadline. intros [[= -> ->]|Hx]; [lia|by apply (Hf x)].
    + intros x Hx. rewrite P in Hx. apply elem_of_cons in Hx as [->|Hx]; [by right|by left].
    + intros i ci x Hi Hci Hx. apply F. intros [->|Hx']%elem_of_cons; [by apply (Hout i ci)|].
      apply Hi. by eapply (ti_once s T i (myid s) ci c x).
  - apply lookup_insert_eq.
Qed.

Lemma next_in_elem l t n : NoDup l -> next_in l t = Some n -> n ∈ l /\ n <> t /\ t ∈ l.
Proof.
  induction l as [|x l IH]; [done|]. intros [Hx Hd]%list.NoDup_cons. cbn [next_in].
  destruct (Z.eqb_spec x t) as [->|].
  - destruct l as [|y l]; [done|]. intros [= ->]. split; [set_solver|]. split; [set_solver|left].
  - intros H. destruct (IH Hd H) as (? & ? & ?). split; [by right|]. split; [done|by right].
Qed.

(** Removing [t] and giving its distance to its successor removes [t]'s deadline. *)
Lemma deadlines_delete ts ts' l t tm : forall now,
  NoDup l -> t ∈ l -> ts !! t = Some tm ->
  (forall x, x ∈ l -> is_Some (ts !! x)) ->
  (forall x, next_in l t <> Some x -> ts' !! x = ts !! x) ->
  (forall n tn, next_in l t = Some n -> ts !! n = Some tn -> ts' !! n = Some (with_expires (expires tn + expires tm) tn)) ->
  deadlines ts' (filter (fun y => y <> t) l) now = filter (fun x => x.1 <> t) (deadlines ts l now).
Proof.
  induction l as [|x l IH]; intros now Hd Ht Htm Hs Hsame Hnext; [by apply not_elem_of_nil in Ht|].
  apply list.NoDup_cons in Hd as [Hx Hd]. cbn [next_in deadlines] in *.
  destruct (Z.eqb_spec x t) as [->|Hne].
  - rewrite filter_cons_False by (intros H; by apply H). rewrite filter_ne_notin by done. rewrite Htm.
    rewrite filter_cons_False by (intros H; by apply H).
    assert (Hall : filter (fun x => x.1 <> t) (deadlines ts l (now + expires tm)) = deadlines ts l (now + expires tm)).
    { assert (Hf : Forall (fun x => x.1 <> t) (deadlines ts l (now + expires tm))).
      { apply list.Forall_forall. intros [y d] Hy E. cbn in E. subst y. by apply deadlines_fst in Hy. }
      induction Hf; [done|]. rewrite filter_cons_True by done. by f_equal. }
    rewrite Hall. destruct l as [|n l]; [done|]. cbn [head deadlines] in *.
    destruct (Hs n) as [tn Hn]; [set_solver|]. rewrite (Hnext n tn eq_refl Hn), Hn. cbn [expires with_expires].
    replace (now + (expires tn + expires tm)) with (now + expires tm + expires tn) by lia. f_equal.
    apply deadlines_ext. intros y Hy. apply Hsame. intros [= ->]. apply list.NoDup_cons in Hd as [??]. done.
  - apply elem_of_cons in Ht as [->|Ht]; [done|]. rewrite filter_cons_True by done. cbn [deadlines].
    assert (Hx' : ts' !! x = ts !! x).
    { apply Hsame. intros E. destruct (next_in_elem l t x Hd E) as [? _]. done. }
    rewrite Hx'. destruct (Hs x) as [tx Etx]; [left|]. rewrite Etx. rewrite filter_cons_True by done. f_equal.
    apply IH; try done. intros y Hy. apply Hs. by right.
Qed.

(** A successor's deadline covers the two distances. *)
Lemma deadlines_next ts l t n tm tn : forall now,
  NoDup l -> next_in l t = Some n -> ts !! t = Some tm -> ts !! n = Some tn ->
  (forall x, x ∈ l -> exists tx, ts !! x = Some tx /\ 0 <= expires tx) ->
  exists d, (n, d) ∈ deadlines ts l now /\ now + expires tm + expires tn <= d.
Proof.
  induction l as [|x l IH]; intros now Hd Hn Ht Htn Hs; [done|]. apply list.NoDup_cons in Hd as [Hx Hd].
  cbn [next_in deadlines] in *. destruct (Z.eqb_spec x t) as [->|].
  - rewrite Ht. destruct l as [|y l]; [done|]. injection Hn as ->. cbn [deadlines]. rewrite Htn.
    eexists. split; [right; left|lia].
  - destruct (Hs x) as (tx & Etx & ?); [left|]. rewrite Etx.
    destruct (IH (now + expires tx) Hd Hn Ht Htn) as (d & Hin & Hle); [intros; apply Hs; by right|].
    exists d. split; [by right|lia].
Qed.

(** The effect of [__del_timer] on the list the timer is in. *)
Lemma del_timer_spec s c x t tm :
  tinv s -> cpus s !! c = Some x -> t ∈ timer_list x -> timers s !! t = Some tm ->
  forall cpu_id, (cpu_id = c \/ expires tm = 0) ->
  exists ts', __del_timer t cpu_id s =
      Ok (tt, set_cpu c (Cpu (cproc x) (idle x) (prev x) (filter (fun y => y <> t) (timer_list x))) (set_timers ts' s)) /\
    (expires tm = 0 -> ts' = timers s) /\ same_owner (timers s) ts' /\
    (forall y, y ∉ timer_list x -> ts' !! y = timers s !! y) /\
    tlist ts' (filter (fun y => y <> t) (timer_list x)) /\
    deadlines ts' (filter (fun y => y <> t) (timer_list x)) 0 =
      filter (fun z => z.1 <> t) (deadlines (timers s) (timer_list x) 0).
Proof.
  intros T Hc Hin Ht cpu_id Hid. destruct (ti_lists s T _ _ Hc) as [Hd Hs Hf]. set (l := timer_list x) in *.
  assert (Hts : exists ts', (if negb (expires tm =? 0) then
             match next_in l t with
             | Some n => next ← rd_timer n; upd_timer n (with_expires (u32 (expires next + expires tm)))
             | None => if c =? cpu_id then mret tt else fail BadAccess
             end else mret tt) s = Ok (tt, set_timers ts' s) /\ (expires tm = 0 -> ts' = timers s) /\ same_owner (timers s) ts' /\
     (forall y, next_in l t <> Some y -> ts' !! y = timers s !! y) /\
     (forall n tn, next_in l t = Some n -> timers s !! n = Some tn -> ts' !! n = Some (with_expires (expires tn + expires tm) tn)) /\
     (forall y, y ∈ l -> y <> t -> exists ty, ts' !! y = Some ty /\ 0 <= expires ty < 2 ^ 32)).
  { destruct (Z.eqb_spec (expires tm) 0) as [E0|E0]; cbn [negb].
    - exists (timers s). split; [by destruct s|]. split_and!; [done|done|done| |intros; by apply Hs].
      intros n tn _ ->. rewrite E0, Z.add_0_r. by destruct tn.
    - destruct (next_in l t) as [n|] eqn:En.
      + destruct (next_in_elem l t n Hd En) as (Hnl & Hnt & _). destruct (Hs n Hnl) as (tn & Etn & Hen).
        destruct (deadlines_next (timers s) l t n tm tn 0 Hd En Ht Etn) as (d & Hdin & Hle).
        { intros y Hy. destruct (Hs y Hy) as (ty & ? & ?). exists ty. split; [done|lia]. }
        pose proof (Hf n d Hdin). destruct (Hs t Hin) as (tm' & Etm' & ?). rewrite Ht in Etm'. injection Etm' as <-.
        mstep (rd_timer_spec n tn s Etn). rewrite (umod_small 32) by (unfold is_u; lia).
        rewrite (upd_timer_spec n _ tn s Etn). eexists. split; [reflexivity|]. split_and!; [done|by apply same_owner_upd|..].
        * intros y Hy. apply lookup_insert_ne. congruence.
        * intros n' tn' [= <-] Etn'. rewrite lookup_insert_eq. congruence.
        * intros y Hy _. destruct (decide (y = n)) as [->|]; [|rewrite lookup_insert_ne by done; by apply Hs].
          rewrite lookup_insert_eq. eexists; split; [done|]. cbn. lia.
      + exists (timers s). destruct Hid as [-> |?]; [|done]. rewrite Z.eqb_refl. split; [by destruct s|].
        split_and!; [done|done|done|done|intros; by apply Hs]. }
  destruct Hts as (ts' & E & Hz & O & Hsame & Hnext & Hsome). exists ts'. 
  assert (D : deadlines ts' (filter (fun y => y <> t) l) 0 = filter (fun z => z.1 <> t) (deadlines (timers s) l 0)).
  { eapply deadlines_delete; try done. intros y Hy. destruct (Hs y Hy) as (ty & -> & _). by eexists. }
  split_and!; [|done|done| | |done].
  - unfold __del_timer. rewrite bind_gets.
    rewrite (timer_owner_Some t s c x Hc Hin) by (intros j cj Hj Hjt; by eapply (ti_once s T j c cj x t)).
    mstep (rd_timer_spec t tm s Ht). mstep (rd_cpu_spec c x s Hc). fold l. mstep E.
    by rewrite (set_timer_list_spec c x).
  - intros y Hy. apply Hsame. intros En. destruct (next_in_elem l t y Hd En) as [? _]. done.
  - split.
    + by apply list.NoDup_filter.
    + intros y [Hyt Hy]%list_elem_of_filter. by apply Hsome.
    + intros y d. rewrite D. intros [_ Hy]%list_elem_of_filter. by apply (Hf y).
Qed.

(** [del_timer] cancels the timer and leaves every other deadline as it was. *)
Theorem del_timer_correct s c t tm :
  tinv s -> cpus s !! myid s = Some c -> TimerLock (myid s) ∉ locks s ->
  t ∈ timer_list c -> timers s !! t = Some tm ->
  exists s' c', del_timer t s = Ok (tt, s') /\ tinv s' /\ locks s' = locks s /\
    cpus s' !! myid s = Some c' /\ t ∉ timer_list c' /\
    deadlines (timers s') (timer_list c') 0 = filter (fun x => x.1 <> t) (deadlines (timers s) (timer_list c) 0).
Proof.
  intros T Hc HL Ht Htm. unfold del_timer. rewrite bind_gets. mstep (acquire_spec (TimerLock (myid s)) s HL).
  set (s1 := set_locks (TimerLock (myid s) :: locks s) s).
  assert (T1 : tinv s1) by (destruct T; by split).
  destruct (del_timer_spec s1 (myid s) c t tm T1 Hc Ht Htm (myid s)) as (ts' & E & _ & _ & F & L & D); [by left|].
  mstep E. rewrite (release_spec (TimerLock (myid s)) (locks s)) by done.
  set (c' := Cpu (cproc c) (idle c) (prev c) _). eexists _, c'. split; [reflexivity|].
  split_and!; [|done|apply lookup_insert_eq| |exact D].
  - change (tinv (set_cpu (myid s) c' (set_timers ts' s))). apply tinv_replace; [done|done|done| |].
    + intros y [_ Hy]%list_elem_of_filter. by left.
    + intros i ci y Hi Hci Hy. apply F. intros Hy'. apply Hi. by eapply (ti_once s T i (myid s) ci c y).
  - cbn [timer_list c']. intros [Hx _]%list_elem_of_filter. by apply Hx.
Qed.

(** ** The clock tick *)

(** The timers at the front of the list that are due, and the rest. *)
Fixpoint due (ts : gmap Z timer_t) (l : list Z) : list Z :=
  match l with
  | [] => []
  | t :: l' => match ts !! t with
               | Some tm => if expires tm =? 0 then t :: due ts l' else []
               | None => []
               end
  end.
Fixpoint not_due (ts : gmap Z timer_t) (l : list Z) : list Z :=
  match l with
  | [] => []
  | t :: l' => match ts !! t with
               | Some tm => if expires tm =? 0 then not_due ts l' else l
               | None => l
               end
  end.

Lemma del_timer_zero s c x t tm l cpu_id :
  cpus s !! c = Some x -> timer_list x = t :: l -> t ∉ l ->
  (forall j cj, cpus s !! j = Some cj -> t ∈ timer_list cj -> j = c) ->
  timers s !! t = Some tm -> expires tm = 0 ->
  __del_timer t cpu_id s = Ok (tt, set_cpu c (Cpu (cproc x) (idle x) (prev x) l) s).
Proof.
  intros Hc Hl Hnt Hu Ht He. unfold __del_timer. rewrite bind_gets.
  rewrite (timer_owner_Some t s c x Hc) by (done || (rewrite Hl; left)).
  mstep (rd_timer_spec t tm s Ht). mstep (rd_cpu_spec c x s Hc). rewrite He. cbn [Z.eqb negb].
  assert (E : (mret tt : M sched unit) s = Ok (tt, s)) by done. mstep E.
  rewrite (set_timer_list_spec c x) by done. rewrite Hl, filter_cons_False by (intros H; by apply H).
  by rewrite filter_ne_notin.
Qed.

(** A sleeper in an interruptible wait. *)
Definition interruptible (s : sched) (p : Z) : Prop :=
  exists pr, procs s !! p = Some pr /\ (wait_state pr = 0 \/ Z.land (wait_state pr) WT_INTERRUPTED <> 0).

Lemma woken_frame s p s' : woken s p s' ->
  cpus s' = cpus s /\ timers s' = timers s /\ locks s' = locks s /\ myid s' = myid s /\ in_interrupt s' = in_interrupt s.
Proof. by destruct 1. Qed.

Lemma woken_procs s p s' : woken s p s' ->
  (forall x, x <> p -> procs s' !! x = procs s !! x) /\
  (exists pr', procs s' !! p = Some pr' /\ state pr' = PROC_RUNNABLE /\
     (procs s' !! p = procs s !! p \/ wait_state pr' = 0)).
Proof.
  destruct 1 as [pr Hp Hs|pr c Hp Hs Hc ->|pr q Hp Hs Ho Hq]; cbn [procs set_rq set_procs].
  - split; [done|]. exists pr. split_and!; [done|done|by left].
  - split; [intros; by apply lookup_insert_ne|]. eexists. rewrite lookup_insert_eq. split; [done|]. split; [done|by right].
  - split; [intros; by apply lookup_insert_ne|]. eexists. rewrite lookup_insert_eq. split; [done|].
    unfold enq_proc, top_up. case_match; (split; [done|by right]).
Qed.

(** [p] waits for its turn in queue [r]. *)
Definition in_queue (s : sched) (r p : Z) : Prop := exists q, rqs s !! r = Some q /\ p ∈ run_list q.

Definition runnable (s : sched) (p : Z) : Prop := exists pr, procs s !! p = Some pr /\ state pr = PROC_RUNNABLE.

(** [p] is awake in [s']: it can run, waits for nothing, and unless it was
    runnable before or is the process on this CPU it is in its run queue. *)
Definition awakened (s s' : sched) (p : Z) : Prop :=
  exists pr pr', procs s !! p = Some pr /\ procs s' !! p = Some pr' /\ state pr' = PROC_RUNNABLE /\
    (state pr = PROC_RUNNABLE \/
     wait_state pr' = 0 /\ ((exists c, cpus s !! myid s = Some c /\ p = cproc c) \/ in_queue s' (wake_rq pr) p)).

Lemma woken_awakened s p s' : woken s p s' -> awakened s s' p.
Proof.
  destruct 1 as [pr Hp Hs|pr c Hp Hs Hc ->|pr q Hp Hs Ho Hq]; unfold awakened; cbn [procs set_rq set_procs].
  - exists pr, pr. split_and!; [done..|by left].
  - exists pr, (waking pr). rewrite lookup_insert_eq. split_and!; [done..|]. right. split; [done|]. left. by exists c.
  - eexists pr, _. rewrite lookup_insert_eq. split_and!; [done|done|by unfold enq_proc, top_up; case_match|].
    right. split; [by unfold enq_proc, top_up; case_match|]. right. exists (enq_rq p q). cbn [rqs set_rq].
    rewrite lookup_insert_eq. split; [done|]. cbn [enq_rq run_list]. set_solver.
Qed.

Lemma woken_queues s p s' r x : woken s p s' -> in_queue s r x -> in_queue s' r x.
Proof.
  destruct 1 as [pr Hp Hs|pr c Hp Hs Hc ->|pr q Hp Hs Ho Hq]; [done|done|]. intros (q' & Hq' & Hx).
  unfold in_queue. cbn [rqs set_rq]. destruct (decide (r = wake_rq pr)) as [->|]; [|exists q'; by rewrite lookup_insert_ne].
  exists (enq_rq p q). rewrite lookup_insert_eq. rewrite Hq in Hq'. injection Hq' as <-. cbn [enq_rq run_list]. set_solver.
Qed.

(** A process already runnable is left as it is. *)
Lemma woken_spares s p s' x : woken s p s' -> runnable s x -> procs s' !! x = procs s !! x.
Proof.
  intros W (pr & Hx & Hs). destruct (decide (x = p)) as [->|Hne]; [|by apply (woken_procs _ _ _ W)].
  destruct W as [pr0 Hp Hs0|pr0 c Hp Hs0 Hc ->|pr0 q Hp Hs0 Ho Hq]; [done|..]; rewrite Hx in Hp; by injection Hp as <-.
Qed.

(** Being awake survives what keeps the process and the queues. *)
Lemma awakened_mono s s1 s' p : awakened s s1 p -> procs s' !! p = procs s1 !! p ->
  (forall r x, in_queue s1 r x -> in_queue s' r x) -> awakened s s' p.
Proof.
  intros (pr & pr' & H1 & H2 & H3 & H4) Hp Hq. exists pr, pr'. rewrite Hp. split_and!; [done..|].
  destruct H4 as [?|[? [?|?]]]; [by left|right; split; [done|by left]|right; split; [done|right; by apply Hq]].
Qed.

Lemma woken_wakeable NCPU s p s' y : woken s p s' -> wakeable NCPU s y -> wakeable NCPU s' y.
Proof.
  intros W (pr & Hy & Hz & Hw). destruct (woken_frame _ _ _ W) as (Hc & _ & _ & Hm & _).
  destruct (woken_procs _ _ _ W) as (Ho & pr' & Hp' & Hs' & _).
  destruct (decide (y = p)) as [->|]; [exists pr'; by rewrite Hs'|]. exists pr. rewrite Ho by done.
  split_and!; [done|done|]. intros Hs. rewrite Hc, Hm. unfold off_cpu. rewrite Hc. by apply Hw.
Qed.

Lemma woken_interruptible s p s' y : woken s p s' -> interruptible s y -> interruptible s' y.
Proof.
  intros W (pr & Hy & Hi). destruct (woken_procs _ _ _ W) as (Ho & pr' & Hp' & _ & Hw).
  destruct (decide (y = p)) as [->|]; [|exists pr; by rewrite Ho].
  destruct Hw as [E|?]; [exists pr; by rewrite E|exists pr'; tauto].
Qed.

(** Changing a CPU's timer list is invisible to the scheduler. *)
Lemma wakeable_set_tl NCPU s i x l y :
  cpus s !! i = Some x -> wakeable NCPU s y ->
  wakeable NCPU (set_cpu i (Cpu (cproc x) (idle x) (prev x) l) s) y.
Proof.
  intros Hx (pr & Hy & Hz & Hw). exists pr. split_and!; [done|done|]. intros Hs.
  cbn [cpus set_cpu myid]. destruct (Hw Hs) as [(c & Hc & Hcp)|[Ho Hp]]; [left|right].
  - destruct (decide (myid s = i)) as [<-|]; [|exists c; by rewrite lookup_insert_ne].
    rewrite lookup_insert_eq. rewrite Hx in Hc. injection Hc as <-. by eexists.
  - split; [|done]. intros j cj. cbn [cpus set_cpu]. destruct (decide (j = i)) as [->|].
    + rewrite lookup_insert_eq. intros [= <-]. exact (Ho i x Hx).
    + rewrite lookup_insert_ne by done. apply Ho.
Qed.

Lemma sinv_set_tl NCPU s i x l :
  sinv NCPU s -> cpus s !! i = Some x -> sinv NCPU (set_cpu i (Cpu (cproc x) (idle x) (prev x) l) s).
Proof.
  intros I Hx. assert (Hc : forall j cj, <[i := Cpu (cproc x) (idle x) (prev x) l]> (cpus s) !! j = Some cj ->
    exists c, cpus s !! j = Some c /\ cproc cj = cproc c /\ idle cj = idle c).
  { intros j cj. destruct (decide (j = i)) as [->|]; [|rewrite lookup_insert_ne by done; eauto].
    rewrite lookup_insert_eq. intros [= <-]. eauto. }
  split; cbn [cpus rqs procs set_cpu myid]; try apply I.
  - destruct (decide (myid s = i)) as [<-|]; [by rewrite lookup_insert_eq|].
    rewrite lookup_insert_ne by done. apply (si_me _ _ I).
  - intros r q p Hq Hp. destruct (si_in _ _ I r q p Hq Hp) as [Ho Hpr]. split; [|done].
    intros j cj Hj. destruct (Hc j cj Hj) as (c & Hcj & -> & ->). by apply (Ho j).
  - intros j cj Hj. destruct (Hc j cj Hj) as (c & Hcj & -> & ->). by apply (si_cpu _ _ I).
  - intros j k cj ck Hj Hk. destruct (Hc j cj Hj) as (c & Hcj & -> & ->). destruct (Hc k ck Hk) as (c' & Hck & -> & ->).
    by apply (si_distinct _ _ I).
Qed.

Lemma deadlines_ge ts l now : (forall x, x ∈ l -> exists tx, ts !! x = Some tx /\ 0 <= expires tx) ->
  Forall (fun x => now <= x.2) (deadlines ts l now).
Proof.
  revert now. induction l as [|t l IH]; intros now Hs; [done|]. cbn [deadlines].
  destruct (Hs t) as (tm & -> & ?); [left|]. constructor; [simpl; lia|].
  eapply Forall_impl; [apply IH; intros; apply Hs; by right|]. intros [] ?; simpl in *; lia.
Qed.

Lemma due_deadline ts l now t : t ∈ due ts l -> (t, now) ∈ deadlines ts l now.
Proof.
  revert now. induction l as [|x l IH]; intros now; [by intros ?%not_elem_of_nil|]. cbn [due deadlines].
  destruct (ts !! x) as [tm|]; [|by intros ?%not_elem_of_nil].
  destruct (Z.eqb_spec (expires tm) 0) as [->|]; [|by intros ?%not_elem_of_nil]. rewrite Z.add_0_r.
  intros [->|H]%elem_of_cons; [left|right; by apply IH].
Qed.

Lemma due_in ts l t : t ∈ due ts l -> t ∈ l.
Proof.
  induction l as [|x l IH]; [done|]. cbn [due]. destruct (ts !! x) as [tm|]; [|by intros ?%not_elem_of_nil].
  destruct (expires tm =? 0); [|by intros ?%not_elem_of_nil]. intros [->|H]%elem_of_cons; [left|right; by apply IH].
Qed.

Lemma deadline_due ts l now t : (forall x, x ∈ l -> exists tx, ts !! x = Some tx /\ 0 <= expires tx) ->
  (t, now) ∈ deadlines ts l now -> t ∈ due ts l.
Proof.
  revert now. induction l as [|x l IH]; intros now Hs; [by intros ?%not_elem_of_nil|]. cbn [due deadlines].
  destruct (Hs x) as (tm & -> & ?); [left|]. assert (Hs' : forall y, y ∈ l -> exists tx, ts !! y = Some tx /\ 0 <= expires tx)
    by (intros; apply Hs; by right).
  destruct (Z.eqb_spec (expires tm) 0) as [->|].
  - rewrite Z.add_0_r. intros [[= ->]|H']%elem_of_cons; [left|right; by apply (IH now)].
  - intros [[= _ ?]|H']%elem_of_cons; [lia|].
    pose proof (deadlines_ge ts l (now + expires tm) Hs') as Hge. rewrite list.Forall_forall in Hge.
    specialize (Hge _ H'). simpl in Hge. lia.
Qed.

Lemma filter_Forall_id {A} (P : A -> Prop) `{!forall x, Decision (P x)} (l : list A) : Forall P l -> filter P l = l.
Proof. induction 1; [done|]. rewrite filter_cons_True by done. by f_equal. Qed.

Lemma not_due_deadlines ts l now : (forall x, x ∈ l -> exists tx, ts !! x = Some tx /\ 0 <= expires tx) ->
  deadlines ts (not_due ts l) now = filter (fun x => x.2 <> now) (deadlines ts l now).
Proof.
  revert now. induction l as [|t l IH]; intros now Hs; [done|]. cbn [not_due deadlines].
  assert (Hs' : forall y, y ∈ l -> exists tx, ts !! y = Some tx /\ 0 <= expires tx) by (intros; apply Hs; by right).
  destruct (Hs t) as (tm & Ht & ?); [left|]. rewrite Ht. destruct (Z.eqb_spec (expires tm) 0) as [->|].
  - rewrite Z.add_0_r, filter_cons_False by (intros H'; by apply H'). by apply IH.
  - cbn [deadlines]. rewrite Ht, filter_cons_True by (simpl; lia). f_equal. symmetry. apply filter_Forall_id.
    eapply Forall_impl; [by apply deadlines_ge|]. intros [] ?; simpl in *; lia.
Qed.

Lemma not_due_suffix ts l : exists l1, l = l1 ++ not_due ts l.
Proof.
  induction l as [|t l [l1 IH]]; [by exists []|]. cbn [not_due].
  destruct (ts !! t) as [tm|]; [|by exists []]. destruct (expires tm =? 0); [|by exists []].
  exists (t :: l1). simpl. by f_equal.
Qed.

Section tick.
Context (NCPU : Z) (C : sched_class) `{!SchedClass C} (call : Z -> M sched unit).

(** A timer whose owner may be woken by the clock. *)
Definition ripe (s : sched) (t : Z) : Prop :=
  exists tm p, timers s !! t = Some tm /\ linux tm = None /\ tproc tm = Some p /\ wakeable NCPU s p /\ interruptible s p.

Definition owners (ts : gmap Z timer_t) (l : list Z) : list Z :=
  omap (fun t => tm ← ts !! t; tproc tm) l.

(** What waking the owners [ps] leaves of the other state. *)
Record woke (s s' : sched) (ps : list Z) : Prop := {
  wk_timers : timers s' = timers s;
  wk_locks : locks s' = locks s;
  wk_me : myid s' = myid s;
  wk_intr : in_interrupt s' = in_interrupt s;
  wk_rest : forall x, x ∉ ps \/ runnable s x -> procs s' !! x = procs s !! x;
  wk_queues : forall r x, in_queue s r x -> in_queue s' r x;
  wk_due : forall x, x ∈ ps -> awakened s s' x }.

Lemma run_expired_spec l : forall t s x fuel,
  sinv NCPU s -> cpus s !! myid s = Some x -> timer_list x = t :: l -> NoDup (t :: l) ->
  (forall y j cj, y ∈ t :: l -> cpus s !! j = Some cj -> y ∈ timer_list cj -> j = myid s) ->
  (forall y, y ∈ t :: l -> is_Some (timers s !! y)) ->
  (forall y, y ∈ due (timers s) (t :: l) -> ripe s y) ->
  (length (t :: l) < fuel)%nat ->
  exists s', run_expired NCPU C call fuel t s = Ok (tt, s') /\ sinv NCPU s' /\
    cpus s' = <[myid s := Cpu (cproc x) (idle x) (prev x) (not_due (timers s) (t :: l))]> (cpus s) /\
    woke s s' (owners (timers s) (due (timers s) (t :: l))).
Proof.
  induction l as [|n l IH]; intros t s x fuel I Hx Hl Hd Hu Hsome Hripe Hfuel;
    (destruct fuel as [|fuel]; [simpl in Hfuel; lia|]);
    (destruct (Hsome t) as [tm Ht]; [left|]); cbn [run_expired]; mstep (rd_timer_spec t tm s Ht).
  all: apply list.NoDup_cons in Hd as [Hnt Hd].
  all: cbn [due not_due] in *; rewrite Ht in *.
  all: destruct (Z.eqb_spec (expires tm) 0) as [E0|E0]; cbn [negb].
  2, 4: exists s; split; [done|]; split; [done|]; split; [symmetry; apply insert_id; rewrite Hx; by destruct x; simpl in Hl; rewrite Hl|];
    split; try done; by intros ? ?%not_elem_of_nil.
  all: destruct (Hripe t) as (tm' & p & Ht' & Hlin & Htp & Hw & pr & Hp & Hi); [left|];
    rewrite Ht in Ht'; injection Ht' as <-.
  all: rewrite bind_gets; mstep (rd_cpu_spec (myid s) x s Hx); cbn zeta; rewrite Hl; cbn [next_in]; rewrite Z.eqb_refl, Hlin, Htp;
    cbn [head]; mstep (rd_proc_spec p pr s Hp).
  all: assert (Ea : (if negb (wait_state pr =? 0) then kassert (negb (Z.land (wait_state pr) WT_INTERRUPTED =? 0))
      else mret tt) s = Ok (tt, s)) by
    (destruct (Z.eqb_spec (wait_state pr) 0); cbn [negb]; [done|]; destruct Hi as [?|Hi]; [done|];
     destruct (Z.eqb_spec (Z.land (wait_state pr) WT_INTERRUPTED) 0); [done|done]); mstep Ea; clear Ea.
  all: destruct (wakeup_proc_spec NCPU C s p I Hw) as (s1 & E1 & W & I1); mstep E1.
  all: pose proof (woken_frame _ _ _ W) as (Fc & Ft & Fl & Fm & Fi); pose proof (woken_procs _ _ _ W) as (Po & pr1 & Hp1 & Hs1 & _).
  all: assert (Eo : owner_affinity tm s1 = Ok (cpu_affinity pr1, s1)) by
    (unfold owner_affinity; rewrite Htp; by mstep (rd_proc_spec p pr1 s1 Hp1)); mstep Eo; clear Eo.
  all: assert (Hx1 : cpus s1 !! myid s = Some x) by (by rewrite Fc).
  all: rewrite (bind_step _ _ _ _ _ (del_timer_zero s1 (myid s) x t tm _ (cpu_affinity pr1) Hx1 Hl Hnt
    ltac:(rewrite Fc; intros j cj Hj Hjt; apply (Hu t j cj); [left|done|done]) ltac:(by rewrite Ft) E0)).
  - eexists. split; [reflexivity|]. split; [by apply sinv_set_tl|]. cbn [not_due cpus set_cpu]. split; [by rewrite Fc|].
    split; cbn [timers locks myid in_interrupt procs set_cpu]; try done; [|intros r y; exact (woken_queues _ _ _ r y W)|];
      unfold owners; cbn [omap list_omap]; rewrite Ht; cbn; rewrite Htp.
    + intros y [Hy|Hy]; [apply Po; set_solver|by apply (woken_spares _ _ _ _ W)].
    + intros y ->%list_elem_of_singleton. exact (woken_awakened _ _ _ W).
  - set (x2 := Cpu (cproc x) (idle x) (prev x) (n :: l)). set (s2 := set_cpu (myid s) x2 s1).
    assert (Hcp : forall j cj, cpus s2 !! j = Some cj -> j = myid s \/ cpus s !! j = Some cj).
    { intros j cj. cbn [cpus s2 set_cpu]. rewrite Fc. destruct (decide (j = myid s)); [by left|].
      rewrite lookup_insert_ne by done. by right. }
    destruct (IH n s2 x2 fuel) as (s' & E' & I' & Hc' & K').
    + by apply sinv_set_tl.
    + cbn [myid s2 set_cpu cpus]. rewrite Fm. apply lookup_insert_eq.
    + done.
    + done.
    + intros y j cj Hy Hj Hyj. cbn [myid s2 set_cpu]. rewrite Fm. destruct (Hcp j cj Hj) as [?|Hj']; [done|].
      apply (Hu y j cj); [by right|done|done].
    + intros y Hy. cbn [timers s2 set_cpu]. rewrite Ft. apply Hsome. by right.
    + cbn [timers s2 set_cpu]. rewrite Ft. intros y Hy. destruct (Hripe y) as (ty & py & ? & ? & ? & Hwy & Hiy); [by right|].
      exists ty, py. cbn [timers s2 set_cpu]. rewrite Ft. split_and!; [done|done|done| |].
      * apply wakeable_set_tl; [done|]. by eapply woken_wakeable.
      * destruct (woken_interruptible _ _ _ _ W Hiy) as (py' & ? & ?). by exists py'.
    + simpl in Hfuel |- *. lia.
    + exists s'. split; [exact E'|]. split; [done|]. cbn [timers s2 set_cpu myid cpus] in Hc'. rewrite Ft, Fm, Fc in Hc'.
      split; [rewrite Hc'; apply insert_insert_eq|]. destruct K' as [K1 K2 K3 K4 K5 K6 K7].
      cbn [timers locks myid in_interrupt procs s2 set_cpu] in *. rewrite Ft in *.
      unfold owners. cbn [omap list_omap]. rewrite Ht. cbn. rewrite Htp.
      assert (Hr : forall y, runnable s y -> runnable s2 y).
      { intros y (py & Hy & Hys). exists py. cbn [procs s2 set_cpu]. by rewrite (woken_spares _ _ _ _ W) by (by exists py). }
      assert (Hq : forall r y, in_queue s r y -> in_queue s' r y) by (intros r y Hy; by apply K6, (woken_queues _ _ _ _ _ W Hy)).
      split; [congruence..| |exact Hq|].
      * intros y [Hy|Hy].
        -- rewrite K5 by (left; unfold owners; set_solver). apply Po. set_solver.
        -- rewrite K5 by (right; by apply Hr). by apply (woken_spares _ _ _ _ W).
      * intros y Hy. destruct (decide (y = p)) as [->|Hne].
        -- apply (awakened_mono _ s1); [by apply woken_awakened|apply K5; right; by exists pr1|exact K6].
        -- apply elem_of_cons in Hy as [?|Hy]; [done|]. destruct (K7 y Hy) as (q & q' & Y1 & Y2 & Y3 & Y4).
           cbn [procs cpus myid set_cpu s2] in *. exists q, q'. rewrite <- Po by done. split_and!; [done..|].
           destruct Y4 as [?|[? [(c & Hc & Hcc)|?]]]; [by left|right..]; (split; [done|]); [left|by right].
           exists x. split; [done|]. rewrite Fm, lookup_insert_eq in Hc. by injection Hc as <-.
Qed.
End tick.

(** One tick on the deadlines: all come closer, those due disappear. *)
Definition tick_deadlines (D : list (Z * Z)) : list (Z * Z) :=
  filter (fun x => x.2 <> 0) ((fun x => (x.1, x.2 + -1)) <$> D).

(** What the tick does to the process on CPU [c]. *)
Definition ticked (c : cpu) (pr : proc) : proc :=
  if cproc c =? idle c then with_resched true pr else tick_proc pr.

(** The body of [run_timer_list] between taking the lock and charging the tick. *)
Lemma expire_spec NCPU C `{!SchedClass C} call s c :
  sinv NCPU s -> tinv s -> cpus s !! myid s = Some c ->
  (forall t, (t, 1) ∈ deadlines (timers s) (timer_list c) 0 -> ripe NCPU s t) ->
  let s1 := set_locks [TimerLock (myid s)] s in
  exists s2 ts2, match head (timer_list c) with
      | None => mret tt
      | Some t => tm ← rd_timer t; _ ← kassert (negb (expires tm =? 0)); _ ← upd_timer t (with_expires (expires tm - 1));
          run_expired NCPU C call (S (length (timer_list c))) t
      end s1 = Ok (tt, s2) /\ sinv NCPU s2 /\ timers s2 = ts2 /\ locks s2 = [TimerLock (myid s)] /\ myid s2 = myid s /\
      cpus s2 = <[myid s := Cpu (cproc c) (idle c) (prev c) (not_due ts2 (timer_list c))]> (cpus s) /\
      deadlines ts2 (timer_list c) 0 = (fun x => (x.1, x.2 + -1)) <$> deadlines (timers s) (timer_list c) 0 /\
      (forall x, x ∉ timer_list c -> ts2 !! x = timers s !! x) /\
      (forall x, x ∈ timer_list c -> exists tx, ts2 !! x = Some tx /\ 0 <= expires tx < 2 ^ 32) /\
      (forall t tm p, (t, 1) ∈ deadlines (timers s) (timer_list c) 0 -> timers s !! t = Some tm -> tproc tm = Some p ->
         awakened s s2 p) /\
      (forall r p, in_queue s r p -> in_queue s2 r p) /\
      (forall p, (forall t tm, (t, 1) ∈ deadlines (timers s) (timer_list c) 0 -> timers s !! t = Some tm -> tproc tm <> Some p) ->
         procs s2 !! p = procs s !! p).
Proof.
  intros I T Hc Hripe s1. destruct (ti_lists s T _ _ Hc) as [Hd Hs Hf].
  pose proof (sinv_set_locks NCPU [TimerLock (myid s)] s I) as I1. fold s1 in I1.
  destruct (timer_list c) as [|t l] eqn:El; cbn [head].
  { exists s1, (timers s). split_and!; try done; [|by intros ? ? ? ?%not_elem_of_nil..].
    cbn [cpus s1 set_locks]. symmetry. apply insert_id. rewrite Hc. destruct c; simpl in El; by rewrite El. }
  destruct (Hs t) as (tm & Ht & He); [left|]. pose proof (Hf t (0 + expires tm)) as Hpos.
  cbn [deadlines] in Hpos. rewrite Ht in Hpos. specialize (Hpos ltac:(left)).
  mstep (rd_timer_spec t tm s1 Ht). massert; [|apply negb_true_iff, Z.eqb_neq; lia].
  mstep (upd_timer_spec t (with_expires (expires tm - 1)) tm s1 Ht).
  set (tm1 := with_expires (expires tm - 1) tm). set (ts2 := <[t := tm1]> (timers s)).
  set (s2 := set_timers ts2 s1). apply list.NoDup_cons in Hd as [Htl Hd].
  assert (Hdl : deadlines ts2 (t :: l) 0 = (fun x => (x.1, x.2 + -1)) <$> deadlines (timers s) (t :: l) 0).
  { cbn [deadlines]. unfold ts2 at 1. rewrite lookup_insert_eq, Ht. rewrite fmap_cons. cbn [fst snd expires tm1 with_expires].
    rewrite <- deadlines_shift. replace (0 + expires tm + -1) with (0 + (expires tm - 1)) by lia. f_equal.
    apply deadlines_ext. intros y Hy. apply lookup_insert_ne. by intros ->. }
  assert (Hs2 : forall x, x ∈ t :: l -> exists tx, ts2 !! x = Some tx /\ 0 <= expires tx < 2 ^ 32).
  { intros y Hy. unfold ts2. destruct (decide (y = t)) as [->|]; [|rewrite lookup_insert_ne by done; by apply Hs].
    rewrite lookup_insert_eq. eexists; split; [done|]. cbn. lia. }
  assert (Hdue : forall y, y ∈ due ts2 (t :: l) -> (y, 1) ∈ deadlines (timers s) (t :: l) 0).
  { intros y Hy. apply (due_deadline _ _ 0) in Hy. rewrite Hdl in Hy.
    apply list_elem_of_fmap in Hy as ([y' d] & [= -> ?] & Hy). assert (d = 1) as -> by lia. done. }
  assert (Hsame : forall y ty, timers s !! y = Some ty -> exists ty', ts2 !! y = Some ty' /\ tproc ty' = tproc ty /\ linux ty' = linux ty).
  { intros y ty Hy. unfold ts2. destruct (decide (y = t)) as [->|]; [|rewrite lookup_insert_ne by done; eauto].
    rewrite lookup_insert_eq. rewrite Ht in Hy. injection Hy as <-. eauto. }
  destruct (run_expired_spec NCPU C call l t s2 c (S (length (t :: l)))) as (s3 & E3 & I3 & Hc3 & K3).
  - destruct I1; by split.
  - exact Hc.
  - exact El.
  - by apply list.NoDup_cons.
  - intros y j cj Hy Hj Hyj. apply (ti_once s T j (myid s) cj c y Hj Hc Hyj). by rewrite El.
  - intros y Hy. destruct (Hs2 y Hy) as (ty & Ety & _). exists ty. exact Ety.
  - intros y Hy. destruct (Hripe y (Hdue y Hy)) as (ty & p & H1 & H2 & H3 & H4 & H5).
    destruct (Hsame y ty H1) as (ty' & H1' & Hp' & Hl'). exists ty', p. split; [exact H1'|]. split_and!; [congruence|congruence|exact H4|exact H5].
  - lia.
  - exists s3, ts2. destruct K3 as [K1 K2 K4 K5 K6 K8 K7]. split; [exact E3|]. split; [done|]. split; [exact K1|].
    split; [exact K2|]. split; [exact K4|]. split; [exact Hc3|]. split; [exact Hdl|].
    split; [intros y Hy; apply lookup_insert_ne; set_solver|]. split; [exact Hs2|].
    split_and!; [|exact K8|].
    2: { intros p Hno. apply K6. left. unfold owners. intros (y & Hy & Hyp)%list_elem_of_omap.
      destruct (Hs y) as (ty & Hty & _); [apply (due_in ts2); exact Hy|]. destruct (Hsame y ty Hty) as (ty' & H1' & Hp' & _).
      cbn [timers s2 set_timers] in Hyp. rewrite H1' in Hyp. cbn in Hyp. apply (Hno y ty (Hdue y Hy) Hty). congruence. }
    intros y ty p Hy Hty Hp. apply K7. unfold owners. apply list_elem_of_omap. exists y. split.
    + apply (deadline_due _ _ 0); [intros z Hz; destruct (Hs2 z Hz) as (tz & ? & ?); exists tz; split; [done|lia]|].
      cbn [timers s2 set_timers]. rewrite Hdl. apply list_elem_of_fmap. exists (y, 1). split; [done|exact Hy].
    + destruct (Hsame y ty Hty) as (ty' & H1' & Hp' & _). cbn [timers s2 set_timers]. rewrite H1'. cbn. congruence.
Qed.

(** Dropping the timers that are due keeps the invariant of the lists. *)
Lemma tinv_expire s c ts2 :
  tinv s -> cpus s !! myid s = Some c ->
  deadlines ts2 (timer_list c) 0 = (fun x => (x.1, x.2 + -1)) <$> deadlines (timers s) (timer_list c) 0 ->
  (forall x, x ∉ timer_list c -> ts2 !! x = timers s !! x) ->
  (forall x, x ∈ timer_list c -> exists tx, ts2 !! x = Some tx /\ 0 <= expires tx < 2 ^ 32) ->
  tinv (set_cpu (myid s) (Cpu (cproc c) (idle c) (prev c) (not_due ts2 (timer_list c))) (set_timers ts2 s)).
Proof.
  intros T Hc Hd2 Ho2 Hs2. destruct (ti_lists s T _ _ Hc) as [Hd Hs Hf].
  assert (Hnn : forall x, x ∈ timer_list c -> exists tx, ts2 !! x = Some tx /\ 0 <= expires tx).
  { intros y Hy. destruct (Hs2 y Hy) as (ty & ? & ?). exists ty. split; [done|lia]. }
  destruct (not_due_suffix ts2 (timer_list c)) as [l1 Hl1].
  assert (Hsub : forall y, y ∈ not_due ts2 (timer_list c) -> y ∈ timer_list c) by (intros y Hy; rewrite Hl1; set_solver).
  apply tinv_replace; [done|done| |intros y Hy; left; by apply Hsub|].
  - split.
    + rewrite Hl1 in Hd. by apply NoDup_app in Hd as (_ & _ & ?).
    + intros y Hy. by apply Hs2, Hsub.
    + intros y d. rewrite not_due_deadlines by done. rewrite Hd2. intros [Hne Hy]%list_elem_of_filter.
      apply list_elem_of_fmap in Hy as ([y' d'] & [= -> ->] & Hy). pose proof (Hf y' d' Hy). simpl in Hne. lia.
  - intros i ci y Hi Hci Hy. apply Ho2. intros Hy'. apply Hi. by apply (ti_once s T i (myid s) ci c y).
Qed.

(** C33: [run_timer_list] is the clock, when every timer that is due is an
    ordinary one whose owner may be woken and waits interruptibly (a due Linux
    timer is used after it was freed: [linux_timer_use_after_free]): every
    deadline comes one tick closer, exactly the timers that are due leave the
    list; their owners are awake afterwards, in their run queue unless they
    were runnable already or on this CPU; nothing leaves a run queue; a process
    that owns no due timer is untouched, but the running one is charged for the
    tick; the invariants are kept and no assertion fails. *)
Theorem run_timer_list_correct NCPU C `{!SchedClass C} call s c :
  sinv NCPU s -> tinv s -> locks s = [] -> cpus s !! myid s = Some c ->
  (forall t, (t, 1) ∈ deadlines (timers s) (timer_list c) 0 -> ripe NCPU s t) ->
  exists s' c', run_timer_list NCPU C call s = Ok (tt, s') /\ sinv NCPU s' /\ tinv s' /\ locks s' = [] /\
    cpus s' !! myid s = Some c' /\
    deadlines (timers s') (timer_list c') 0 = tick_deadlines (deadlines (timers s) (timer_list c) 0) /\
    (forall t tm p, (t, 1) ∈ deadlines (timers s) (timer_list c) 0 -> timers s !! t = Some tm -> tproc tm = Some p ->
       awakened s s' p) /\
    (forall r p, in_queue s r p -> in_queue s' r p) /\
    (forall p, (forall t tm, (t, 1) ∈ deadlines (timers s) (timer_list c) 0 -> timers s !! t = Some tm -> tproc tm <> Some p) ->
       procs s' !! p = (if p =? cproc c then ticked c <$> procs s !! p else procs s !! p)).
Proof.
  intros I T Hlk Hc Hripe. destruct (ti_lists s T _ _ Hc) as [Hd Hs Hf].
  unfold run_timer_list. rewrite bind_gets. mstep (acquire_spec (TimerLock (myid s)) s ltac:(rewrite Hlk; apply not_elem_of_nil)).
  rewrite Hlk. set (s1 := set_locks [TimerLock (myid s)] s). mstep (rd_cpu_spec (myid s) c s1 Hc).
  destruct (expire_spec NCPU C call s c I T Hc Hripe) as (s2 & ts2 & E2 & I2 & Ht2 & Hl2 & Hm2 & Hc2 & Hd2 & Ho2 & Hs2 & Hw2 & Hq2 & Hf2). mstep E2.
  set (c2 := Cpu (cproc c) (idle c) (prev c) (not_due ts2 (timer_list c))) in *.
  assert (Hc2' : cpus s2 !! myid s2 = Some c2) by (rewrite Hc2, Hm2; apply lookup_insert_eq).
  mstep (current_spec s2 c2 Hc2'). destruct (si_cpu _ _ I2 _ _ Hc2') as (_ & [pc Hpc] & _).
  rewrite (bind_step _ _ _ _ _ (proc_tick_spec C s2 c2 pc ltac:(rewrite Hl2; set_solver) ltac:(rewrite Hl2, Hm2; set_solver) Hc2' Hpc)).
  rewrite (release_spec (TimerLock (myid s)) []) by (exact Hl2 || apply not_elem_of_nil).
  set (pc' := if cproc c2 =? idle c2 then with_resched true pc else tick_proc pc).
  assert (Hpc' : state pc' = state pc /\ rq pc' = rq pc /\ pid pc' = pid pc /\ cpu_affinity pc' = cpu_affinity pc /\
    wait_state pc' = wait_state pc).
  { unfold pc', tick_proc. by repeat case_match. }
  destruct Hpc' as (Q1 & Q2 & Q3 & Q4 & Q5). destruct (si_proc _ _ I2 _ _ Hpc) as [Haff Hrq].
  eexists _, c2. split; [reflexivity|]. split_and!.
  - apply sinv_set_locks. apply (sinv_upd NCPU s2 _ pc); try done; [by rewrite Q4|by rewrite Q2|by right].
  - pose proof (tinv_expire s c ts2 T Hc Hd2 Ho2 Hs2) as T'. fold c2 in T'.
    destruct T' as [T1 T2]. split; cbn [cpus timers set_locks set_procs]; rewrite ?Ht2, Hc2; [exact T1|exact T2].
  - done.
  - cbn [cpus set_locks set_procs]. rewrite Hc2. apply lookup_insert_eq.
  - cbn [timers set_locks set_procs timer_list c2]. rewrite Ht2, not_due_deadlines.
    + by rewrite Hd2.
    + intros y Hy. destruct (Hs2 y Hy) as (ty & ? & ?). exists ty. split; [done|lia].
  - intros t tm p H1 H2 H3. destruct (Hw2 t tm p H1 H2 H3) as (pr & pr2 & Hpr & Hpr2 & Hst & Hor).
    destruct (decide (p = cproc c2)) as [->|]; [|exists pr, pr2; cbn [procs set_locks set_procs]; by rewrite lookup_insert_ne].
    exists pr, pc'. cbn [procs set_locks set_procs]. rewrite lookup_insert_eq. rewrite Hpc in Hpr2. injection Hpr2 as <-.
    split_and!; [done|done|congruence|]. by rewrite Q5.
  - exact Hq2.
  - intros p Hno. specialize (Hf2 p Hno). cbn [procs set_locks set_procs].
    change (cproc c2) with (cproc c). destruct (Z.eqb_spec p (cproc c)) as [->|]; [|by rewrite lookup_insert_ne].
    rewrite lookup_insert_eq, <- Hf2. change (cproc c) with (cproc c2). by rewrite Hpc.
Qed.

(** A Linux timer that fires is used after it was freed: the loop tests
    [timer->expires] again after [kfree(timer); continue]. *)
Theorem linux_timer_use_after_free NCPU C call s c t l p pr :
  tinv s -> locks s = [] -> cpus s !! myid s = Some c -> timer_list c = t :: l ->
  timers s !! t = Some (Timer 1 (Some p) (Some None)) -> procs s !! p = Some pr ->
  run_timer_list NCPU C call s = Err BadAccess.
Proof.
  intros T Hlk Hc El Ht Hp. unfold run_timer_list. rewrite bind_gets.
  mstep (acquire_spec (TimerLock (myid s)) s ltac:(rewrite Hlk; apply not_elem_of_nil)).
  rewrite Hlk. set (s1 := set_locks [TimerLock (myid s)] s). mstep (rd_cpu_spec (myid s) c s1 Hc). rewrite El. cbn [head].
  apply bind_err. mstep (rd_timer_spec t _ s1 Ht). massert; [|done].
  mstep (upd_timer_spec t (with_expires (1 - 1)) _ s1 Ht). cbn [expires].
  set (tm1 := Timer 0 (Some p) (Some None)). set (s2 := set_timers (<[t := tm1]> (timers s)) s1).
  assert (Ht2 : timers s2 !! t = Some tm1) by apply lookup_insert_eq.
  cbn [run_expired length]. mstep (rd_timer_spec t tm1 s2 Ht2). cbn [expires tm1 Z.eqb negb]. rewrite bind_gets.
  mstep (rd_cpu_spec (myid s) c s2 Hc). cbn [linux tm1].
  mstep (release_spec (TimerLock (myid s)) [] s2 eq_refl ltac:(apply not_elem_of_nil)).
  assert (E : (mret tt : M sched unit) (set_locks [] s2) = Ok (tt, set_locks [] s2)) by done. mstep E.
  mstep (acquire_spec (TimerLock (myid s)) (set_locks [] s2) ltac:(apply not_elem_of_nil)).
  assert (Ea : owner_affinity tm1 s2 = Ok (cpu_affinity pr, s2)) by (unfold owner_affinity; cbn [tproc tm1]; by mstep (rd_proc_spec p pr s2 Hp)).
  change (set_locks [TimerLock (myid s)] (set_locks [] s2)) with s2. mstep Ea.
  assert (Hnt : t ∉ l). { pose proof (tl_nodup _ _ (ti_lists s T _ _ Hc)) as Hd. rewrite El in Hd. by apply list.NoDup_cons in Hd as [? _]. }
  rewrite (bind_step _ _ _ _ _ (del_timer_zero s2 (myid s) c t tm1 l (cpu_affinity pr) Hc El Hnt
    ltac:(intros j cj Hj Hjt; apply (ti_once s T j (myid s) cj c t Hj Hc Hjt); rewrite El; left) Ht2 eq_refl)).
  set (s4 := set_cpu (myid s) _ s2).
  rewrite (bind_step _ _ s4 tt (set_timers (delete t (timers s4)) s4) eq_refl).
  apply bind_err. unfold rd_timer, load. cbn [timers set_timers]. by rewrite lookup_delete_eq.
Qed.

(** ** A concrete list: timer 10 of process 4 fires at the next tick *)

Definition ex_timers : gmap Z timer_t :=
  list_to_map [(10, Timer 1 (Some 4) None); (11, Timer 5 (Some 1) None); (12, Timer 3 (Some 2) None)].
Definition ex_tm (ts : gmap Z timer_t) (l : list Z) : sched :=
  Sched (procs ex_sched) (rqs ex_sched) {[ 0 := Cpu 1 0 0 l ]} ts [] 0 false.
Definition ex_t0 : sched := ex_tm ex_timers [10; 11].

Lemma ex_tm_cpu ts l i c : cpus (ex_tm ts l) !! i = Some c -> i = 0 /\ c = Cpu 1 0 0 l.
Proof. cbn [cpus ex_tm]. by intros [<- <-]%lookup_singleton_Some. Qed.

Lemma ex_tm_tinv ts l : tlist ts l -> tinv (ex_tm ts l).
Proof.
  intros Hl. split.
  - by intros i c [_ ->]%ex_tm_cpu.
  - by intros i j ci cj t [-> _]%ex_tm_cpu [-> _]%ex_tm_cpu.
Qed.

Lemma ex_tm_sinv ts l : sinv 1 (ex_tm ts l).
Proof.
  pose proof (sinv_set_tl 1 ex_sched 0 (Cpu 1 0 0 []) l ex_sched_inv eq_refl) as [].
  by split.
Qed.

Lemma ex_deadlines : deadlines ex_timers [10; 11] 0 = [(10, 1); (11, 6)].
Proof. vm_compute. reflexivity. Qed.

Lemma ex_t0_tlist : tlist ex_timers [10; 11].
Proof.
  split.
  - by apply (bool_decide_unpack _).
  - intros t [->|Ht]%elem_of_cons; [|apply list_elem_of_singleton in Ht as ->]; (eexists; split; [reflexivity|cbn; lia]).
  - intros t d. rewrite ex_deadlines. intros [[= -> ->]|H]%elem_of_cons; [lia|].
    apply list_elem_of_singleton in H as [= -> ->]. lia.
Qed.

Lemma ex_t0_ripe : ripe 1 ex_t0 10.
Proof.
  exists (Timer 1 (Some 4) None), 4. split_and!; [done|done|done| |].
  - exists (ex_proc PROC_SLEEPING 4 0 None). split; [done|]. split; [done|]. intros _. right. split; [|done].
    by intros i c [-> ->]%ex_tm_cpu.
  - exists (ex_proc PROC_SLEEPING 4 0 None). split; [done|by left].
Qed.

Lemma add_timer_correct_witness :
  exists s' c', add_timer 12 ex_t0 = Ok (tt, s') /\ tinv s' /\ locks s' = [] /\ procs s' = procs ex_t0 /\
    rqs s' = rqs ex_t0 /\ cpus s' !! 0 = Some c' /\
    deadlines (timers s') (timer_list c') 0 = [(10, 1); (12, 3); (11, 6)].
Proof.
  apply (add_timer_correct ex_t0 (Cpu 1 0 0 [10; 11]) 12 (Timer 3 (Some 2) None) (ex_tm_tinv _ _ ex_t0_tlist) eq_refl).
  - apply not_elem_of_nil.
  - reflexivity.
  - cbn. lia.
  - by eexists.
  - intros i ci [_ ->]%ex_tm_cpu. cbn [timer_list]. set_solver.
Defined.

Lemma del_timer_correct_witness :
  exists s' c', del_timer 10 ex_t0 = Ok (tt, s') /\ tinv s' /\ locks s' = [] /\
    cpus s' !! 0 = Some c' /\ 10 ∉ timer_list c' /\ deadlines (timers s') (timer_list c') 0 = [(11, 6)].
Proof.
  apply (del_timer_correct ex_t0 (Cpu 1 0 0 [10; 11]) 10 (Timer 1 (Some 4) None) (ex_tm_tinv _ _ ex_t0_tlist) eq_refl).
  - apply not_elem_of_nil.
  - cbn [timer_list]. left.
  - reflexivity.
Defined.

Lemma run_timer_list_correct_witness :
  exists s' c', run_timer_list 1 MLFQ_sched_class (fun _ => mret tt) ex_t0 = Ok (tt, s') /\
    cpus s' !! 0 = Some c' /\ deadlines (timers s') (timer_list c') 0 = [(11, 5)] /\ awakened ex_t0 s' 4.
Proof.
  destruct (run_timer_list_correct 1 MLFQ_sched_class (fun _ => mret tt) ex_t0 (Cpu 1 0 0 [10; 11])
    (ex_tm_sinv _ _) (ex_tm_tinv _ _ ex_t0_tlist) eq_refl eq_refl) as (s' & c' & E & _ & _ & _ & Hc & D & W & _).
  - intros t. cbn [timers ex_t0 ex_tm timer_list]. rewrite ex_deadlines. intros [[= ->]|H]%elem_of_cons; [exact ex_t0_ripe|].
    by apply list_elem_of_singleton in H as [= -> ?].
  - exists s', c'. split; [exact E|]. split; [exact Hc|]. split; [rewrite D; reflexivity|].
    apply (W 10 (Timer 1 (Some 4) None) 4); [left|reflexivity|reflexivity].
Defined.

Lemma linux_timer_use_after_free_witness :
  run_timer_list 1 MLFQ_sched_class (fun _ => mret tt) (ex_tm {[ 10 := Timer 1 (Some 2) (Some None) ]} [10]) = Err BadAccess.
Proof.
  apply (linux_timer_use_after_free 1 MLFQ_sched_class _ _ (Cpu 1 0 0 [10]) 10 [] 2 (ex_proc PROC_RUNNABLE 2 8 (Some 0)));
    [|reflexivity..].
  apply ex_tm_tinv. split.
  - apply NoDup_singleton.
  - intros t ->%list_elem_of_singleton. eexists; split; [reflexivity|cbn; lia].
  - intros t d. change (deadlines _ _ 0) with [(10, 1)]. intros [= -> ->]%list_elem_of_singleton. lia.
Defined.
