(* ===== verification/Wait.v ===== *)
(** * Wait: wait queues (sync/wait.c, sync/wait.h)

    The state of the synchronisation layer: the scheduler's state, the wait
    records (which live on the kernel stacks of the sleepers), the wait queues
    with the sequence of records linked into them, the semaphores and the event
    boxes.  A wait queue is named by the address of its head. *)

From stdpp Require Import numbers gmap list.
From S2P Require Import Prelude Sched Timer.
Local Open Scope Z_scope.

(** [wait_t]; [wqueue] is [None] while the field is not set. *)
Record wait_t := Wait { wproc : Z; wakeup_flags : Z; wqueue : option Z }.

(** [semaphore_t] without its wait queue, which is the queue of the same name. *)
Record semaphore := Sem { value : Z; valid : bool; count : Z }.

(** [sem_queue_t]; its semaphore is the one of the same name. *)
Record sem_queue := SemQueue { sq_count : Z; semu_list : list Z }.

Record sync := Sync {
  sk : sched;
  waits : gmap Z wait_t;
  wqs : gmap Z (list Z);
  sems : gmap Z semaphore;
  events : gmap Z Z;            (* [proc->event_box.event] *)
  semus : gmap Z Z;             (* [semu->sem] *)
  semqs : gmap Z sem_queue;
  clock_ticks : Z }.

Definition set_sk (x : sched) (s : sync) : sync :=
  Sync x (waits s) (wqs s) (sems s) (events s) (semus s) (semqs s) (clock_ticks s).
Definition set_waits (x : gmap Z wait_t) (s : sync) : sync :=
  Sync (sk s) x (wqs s) (sems s) (events s) (semus s) (semqs s) (clock_ticks s).
Definition set_wqs (x : gmap Z (list Z)) (s : sync) : sync :=
  Sync (sk s) (waits s) x (sems s) (events s) (semus s) (semqs s) (clock_ticks s).
Definition set_sems (x : gmap Z semaphore) (s : sync) : sync :=
  Sync (sk s) (waits s) (wqs s) x (events s) (semus s) (semqs s) (clock_ticks s).
Definition set_events (x : gmap Z Z) (s : sync) : sync :=
  Sync (sk s) (waits s) (wqs s) (sems s) x (semus s) (semqs s) (clock_ticks s).

Definition set_semus (x : gmap Z Z) (s : sync) : sync :=
  Sync (sk s) (waits s) (wqs s) (sems s) (events s) x (semqs s) (clock_ticks s).
Definition set_semqs (x : gmap Z sem_queue) (s : sync) : sync :=
  Sync (sk s) (waits s) (wqs s) (sems s) (events s) (semus s) x (clock_ticks s).

(** A scheduler routine run from the synchronisation layer. *)
Definition lift {A} (m : M sched A) : M sync A := fun s =>
  match m (sk s) with
  | Ok (a, k) => Ok (a, set_sk k s)
  | Err f => Err f
  end.

Definition rd_wait (w : Z) : M sync wait_t := load (fun s => waits s !! w).
Definition upd_wait (w : Z) (f : wait_t -> wait_t) : M sync unit := fun s =>
  match waits s !! w with
  | Some x => Ok (tt, set_waits (<[w := f x]> (waits s)) s)
  | None => Err BadAccess
  end.
Definition rd_wq (q : Z) : M sync (list Z) := load (fun s => wqs s !! q).
Definition set_wq (q : Z) (l : list Z) : M sync unit := fun s =>
  match wqs s !! q with
  | Some _ => Ok (tt, set_wqs (<[q := l]> (wqs s)) s)
  | None => Err BadAccess
  end.

(** [list_empty(&wait->wait_link)]. *)
Definition wait_link_empty (w : Z) (s : sync) : bool :=
  bool_decide (map_Forall (fun _ l => w ∉ l) (wqs s)).

(** ** wait.c *)

(** The record is a local variable of the caller: its storage comes into being. *)
Definition wait_init (w p : Z) : M sync unit :=
  modify (fun s => set_waits (<[w := Wait p WT_INTERRUPTED (x ← waits s !! w; wqueue x)]> (waits s)) s).

Definition wait_queue_init (q : Z) : M sync unit :=
  modify (fun s => set_wqs (<[q := []]> (wqs s)) s).

Definition wait_queue_add (q w : Z) : M sync unit :=
  e ← gets (wait_link_empty w);
  _ ← kassert e;
  _ ← upd_wait w (fun x => Wait (wproc x) (wakeup_flags x) (Some q));
  l ← rd_wq q;
  set_wq q (l ++ [w]).

Definition wait_queue_del (q w : Z) : M sync unit :=
  e ← gets (wait_link_empty w);
  x ← rd_wait w;
  _ ← kassert (negb e && bool_decide (wqueue x = Some q));
  l ← rd_wq q;
  set_wq q (filter (fun y => y <> w) l).

Definition wait_queue_next (q w : Z) : M sync (option Z) :=
  e ← gets (wait_link_empty w);
  x ← rd_wait w;
  _ ← kassert (negb e && bool_decide (wqueue x = Some q));
  l ← rd_wq q;
  mret (next_in l w).

Definition wait_queue_prev (q w : Z) : M sync (option Z) :=
  e ← gets (wait_link_empty w);
  x ← rd_wait w;
  _ ← kassert (negb e && bool_decide (wqueue x = Some q));
  l ← rd_wq q;
  mret (prev_in l w).

Definition wait_queue_first (q : Z) : M sync (option Z) := l ← rd_wq q; mret (head l).
Definition wait_queue_last (q : Z) : M sync (option Z) := l ← rd_wq q; mret (last l).
Definition wait_queue_empty (q : Z) : M sync bool := l ← rd_wq q; mret (bool_decide (l = [])).

Definition wait_in_queue (w : Z) : M sync bool :=
  x ← rd_wait w;
  match wqueue x with
  | None => mret false
  | Some _ => e ← gets (wait_link_empty w); mret (negb e)
  end.

Definition wait_current_del (q w : Z) : M sync unit :=
  b ← wait_in_queue w;
  if (b : bool) then wait_queue_del q w else mret tt.

Section wait.
Context (NCPU : Z) (C : sched_class).

Definition wakeup_wait (q w flags : Z) (del : bool) : M sync unit :=
  _ ← (if del then wait_queue_del q w else mret tt);
  _ ← upd_wait w (fun x => Wait (wproc x) flags (wqueue x));
  x ← rd_wait w;
  lift (wakeup_proc NCPU C (wproc x)).

Definition wakeup_first (q flags : Z) (del : bool) : M sync unit :=
  w ← wait_queue_first q;
  match w with
  | Some w => wakeup_wait q w flags del
  | None => mret tt
  end.

(** The two [do ... while] loops. *)
Fixpoint wakeup_all_del (fuel : nat) (q flags w : Z) : M sync unit :=
  match fuel with
  | O => fail OutOfFuel
  | S fuel' =>
      _ ← wakeup_wait q w flags true;
      n ← wait_queue_first q;
      match n with Some n => wakeup_all_del fuel' q flags n | None => mret tt end
  end.
Fixpoint wakeup_all_keep (fuel : nat) (q flags w : Z) : M sync unit :=
  match fuel with
  | O => fail OutOfFuel
  | S fuel' =>
      _ ← wakeup_wait q w flags false;
      n ← wait_queue_next q w;
      match n with Some n => wakeup_all_keep fuel' q flags n | None => mret tt end
  end.

Definition wakeup_queue (q flags : Z) (del : bool) : M sync unit :=
  w ← wait_queue_first q;
  match w with
  | Some w =>
      fuel ← gets (fun s => length (default [] (wqs s !! q)));
      if del then wakeup_all_del fuel q flags w else wakeup_all_keep fuel q flags w
  | None => mret tt
  end.

Definition wait_current_set (q w wait_state : Z) : M sync unit :=
  cur ← lift current;
  _ ← wait_init w cur;
  _ ← lift (upd_proc cur (with_state PROC_SLEEPING));
  _ ← lift (upd_proc cur (with_wait wait_state));
  wait_queue_add q w.
End wait.

(** ** The invariant of the queues *)

(** Records linked into a queue exist and point back at it. *)
Definition winv (s : sync) : Prop :=
  forall q l, wqs s !! q = Some l ->
    NoDup l /\ forall w, w ∈ l -> exists x, waits s !! w = Some x /\ wqueue x = Some q.

Lemma lift_spec {A} (m : M sched A) s a k : m (sk s) = Ok (a, k) -> lift m s = Ok (a, set_sk k s).
Proof. unfold lift. by intros ->. Qed.
Lemma rd_wait_spec w x s : waits s !! w = Some x -> rd_wait w s = Ok (x, s).
Proof. unfold rd_wait, load. by intros ->. Qed.
Lemma upd_wait_spec w f x s : waits s !! w = Some x -> upd_wait w f s = Ok (tt, set_waits (<[w := f x]> (waits s)) s).
Proof. unfold upd_wait. by intros ->. Qed.
Lemma rd_wq_spec q l s : wqs s !! q = Some l -> rd_wq q s = Ok (l, s).
Proof. unfold rd_wq, load. by intros ->. Qed.
Lemma set_wq_spec q l l' s : wqs s !! q = Some l -> set_wq q l' s = Ok (tt, set_wqs (<[q := l']> (wqs s)) s).
Proof. unfold set_wq. by intros ->. Qed.

Lemma wait_link_empty_false q l w s : wqs s !! q = Some l -> w ∈ l -> wait_link_empty w s = false.
Proof. intros Hq Hw. apply bool_decide_eq_false_2. intros H. by apply (H q l). Qed.

Lemma wait_link_empty_true w s : (forall q l, wqs s !! q = Some l -> w ∉ l) -> wait_link_empty w s = true.
Proof. intros H. by apply bool_decide_eq_true_2. Qed.

Lemma wait_queue_del_spec s q l w x :
  wqs s !! q = Some l -> w ∈ l -> waits s !! w = Some x -> wqueue x = Some q ->
  wait_queue_del q w s = Ok (tt, set_wqs (<[q := filter (fun y => y <> w) l]> (wqs s)) s).
Proof.
  intros Hq Hw Hx Hxq. unfold wait_queue_del. rewrite bind_gets, (wait_link_empty_false q l) by done.
  mstep (rd_wait_spec w x s Hx). massert; [|by rewrite bool_decide_eq_true_2].
  mstep (rd_wq_spec q l s Hq). by apply (set_wq_spec q l).
Qed.

Lemma wait_queue_add_spec s q l w x :
  wqs s !! q = Some l -> (forall q' l', wqs s !! q' = Some l' -> w ∉ l') -> waits s !! w = Some x ->
  wait_queue_add q w s =
  Ok (tt, set_wqs (<[q := l ++ [w]]> (wqs s)) (set_waits (<[w := Wait (wproc x) (wakeup_flags x) (Some q)]> (waits s)) s)).
Proof.
  intros Hq Hw Hx. unfold wait_queue_add. rewrite bind_gets, (wait_link_empty_true w s Hw). massert; [|done].
  mstep (upd_wait_spec w (fun x => Wait (wproc x) (wakeup_flags x) (Some q)) x s Hx).
  rewrite (bind_step _ _ _ _ _ (rd_wq_spec q l (set_waits _ s) Hq)). exact (set_wq_spec q l _ (set_waits _ s) Hq).
Qed.

Lemma winv_del s q l w : winv s -> wqs s !! q = Some l ->
  winv (set_wqs (<[q := filter (fun y => y <> w) l]> (wqs s)) s).
Proof.
  intros W Hq q' l'. cbn [wqs set_wqs waits]. destruct (decide (q' = q)) as [->|]; [|rewrite lookup_insert_ne by done; apply W].
  rewrite lookup_insert_eq. intros [= <-]. destruct (W q l Hq) as [Hd Hw]. split; [by apply list.NoDup_filter|].
  intros y [_ Hy]%list_elem_of_filter. by apply Hw.
Qed.

(** Changing the flags of a record does not disturb the queues. *)
Lemma winv_flags s w x f : winv s -> waits s !! w = Some x ->
  winv (set_waits (<[w := Wait (wproc x) f (wqueue x)]> (waits s)) s).
Proof.
  intros W Hx q l Hq. destruct (W q l Hq) as [Hd Hw]. split; [done|]. intros y Hy. destruct (Hw y Hy) as (xy & Hxy & Hqy).
  cbn [waits set_waits]. destruct (decide (y = w)) as [->|]; [|exists xy; by rewrite lookup_insert_ne].
  rewrite lookup_insert_eq. eexists; split; [done|]. cbn. congruence.
Qed.

Section specs.
Context (NCPU : Z) (C : sched_class) `{!SchedClass C}.

(** The state after the sleeper of record [w] was taken off queue [q] and woken. *)
Definition woken_off (s : sync) (q : Z) (l : list Z) (w flags : Z) (x : wait_t) (k : sched) : sync :=
  Sync k (<[w := Wait (wproc x) flags (wqueue x)]> (waits s)) (<[q := filter (fun y => y <> w) l]> (wqs s))
    (sems s) (events s) (semus s) (semqs s) (clock_ticks s).

Lemma wakeup_wait_spec s q l w x flags :
  winv s -> sinv NCPU (sk s) -> wqs s !! q = Some l -> w ∈ l -> waits s !! w = Some x ->
  wakeable NCPU (sk s) (wproc x) ->
  exists k, wakeup_wait NCPU C q w flags true s = Ok (tt, woken_off s q l w flags x k) /\
    woken (sk s) (wproc x) k /\ sinv NCPU k /\ winv (woken_off s q l w flags x k).
Proof.
  intros W I Hq Hw Hx Hwk. destruct (W q l Hq) as [Hd Hl]. destruct (Hl w Hw) as (x' & Hx' & Hxq).
  rewrite Hx in Hx'. injection Hx' as <-.
  destruct (wakeup_proc_spec NCPU C (sk s) (wproc x) I Hwk) as (k & E & Wk & Ik).
  exists k. split; [|split; [done|split; [done|]]].
  - unfold wakeup_wait. mstep (wait_queue_del_spec s q l w x Hq Hw Hx Hxq).
    set (s1 := set_wqs _ s). set (x1 := Wait (wproc x) flags (wqueue x)).
    mstep (upd_wait_spec w (fun x => Wait (wproc x) flags (wqueue x)) x s1 Hx). fold x1.
    set (s2 := set_waits (<[w := x1]> (waits s1)) s1).
    assert (Hx2 : waits s2 !! w = Some x1) by apply lookup_insert_eq. mstep (rd_wait_spec w x1 s2 Hx2).
    by rewrite (lift_spec (wakeup_proc NCPU C (wproc x1)) s2 tt k E).
  - pose proof (winv_flags _ w x flags (winv_del s q l w W Hq) Hx) as W'. intros q' l'. apply W'.
Qed.

(** Every record of [l] belongs to a process that may be woken. *)
Definition all_wakeable (s : sync) (l : list Z) : Prop :=
  forall w, w ∈ l -> exists x, waits s !! w = Some x /\ wakeable NCPU (sk s) (wproc x).

Lemma filter_head (w : Z) l : NoDup (w :: l) -> filter (fun y => y <> w) (w :: l) = l.
Proof.
  intros [Hw _]%list.NoDup_cons. rewrite filter_cons_False by (intros H; by apply H). by apply filter_ne_notin.
Qed.

(** What waking a set of records does to the processes: they are runnable. *)
Definition runnable (k : sched) (p : Z) : Prop := exists pr, procs k !! p = Some pr /\ state pr = PROC_RUNNABLE.

Lemma woken_runnable k p k' y : woken k p k' -> runnable k y \/ y = p -> runnable k' y.
Proof.
  intros W. destruct (woken_procs _ _ _ W) as (Ho & pr & Hp & Hs & _). intros [(py & Hy & Hsy)| ->]; [|by exists pr].
  destruct (decide (y = p)) as [->|]; [by exists pr|]. exists py. by rewrite Ho.
Qed.

Lemma wakeup_all_del_spec q flags l : forall w s fuel,
  winv s -> sinv NCPU (sk s) -> wqs s !! q = Some (w :: l) -> all_wakeable s (w :: l) -> (length (w :: l) <= fuel)%nat ->
  exists s', wakeup_all_del NCPU C fuel q flags w s = Ok (tt, s') /\ winv s' /\ sinv NCPU (sk s') /\
    wqs s' = <[q := []]> (wqs s) /\ sems s' = sems s /\ events s' = events s /\
    (forall y, y ∉ w :: l -> waits s' !! y = waits s !! y) /\
    (forall y x, y ∈ w :: l -> waits s !! y = Some x ->
       waits s' !! y = Some (Wait (wproc x) flags (wqueue x)) /\ runnable (sk s') (wproc x)) /\
    (forall y, runnable (sk s) y -> runnable (sk s') y) /\ locks (sk s') = locks (sk s) /\
    in_interrupt (sk s') = in_interrupt (sk s).
Proof.
  induction l as [|n l IH]; intros w s fuel W I Hq Ha Hf; (destruct fuel as [|fuel]; [simpl in Hf; lia|]);
    cbn [wakeup_all_del]; destruct (Ha w) as (x & Hx & Hwk); try (by left);
    destruct (wakeup_wait_spec s q _ w x flags W I Hq ltac:(left) Hx Hwk) as (k & E & Wk & Ik & W1);
    rewrite (bind_step _ _ _ _ _ E); destruct (W q _ Hq) as [Hd _];
    set (s1 := woken_off s q _ w flags x k) in *;
    pose proof (woken_frame _ _ _ Wk) as (_ & _ & Fl & _ & Fi).
  - assert (Hq1 : wqs s1 !! q = Some []). { unfold s1, woken_off. cbn [wqs]. rewrite lookup_insert_eq. by rewrite filter_head. }
    assert (E1 : wait_queue_first q s1 = Ok (None, s1)) by (unfold wait_queue_first; by mstep (rd_wq_spec q [] s1 Hq1)).
    mstep E1. exists s1. split; [done|]. split; [done|]. split; [done|]. cbn [wqs sems events waits sk s1 woken_off].
    split; [by rewrite filter_head|]. split; [done|]. split; [done|]. split_and!; [| | |done|done].
    + intros y Hy. apply lookup_insert_ne. set_solver.
    + intros y x' ->%list_elem_of_singleton Hx'. rewrite Hx in Hx'. injection Hx' as <-. rewrite lookup_insert_eq.
      split; [done|]. eapply woken_runnable; [done|by right].
    + intros y Hy. eapply woken_runnable; [done|by left].
  - assert (Hq1 : wqs s1 !! q = Some (n :: l)). { unfold s1, woken_off. cbn [wqs]. rewrite lookup_insert_eq. by rewrite filter_head. }
    assert (E1 : wait_queue_first q s1 = Ok (Some n, s1)) by (unfold wait_queue_first; by mstep (rd_wq_spec q _ s1 Hq1)).
    mstep E1. apply list.NoDup_cons in Hd as [Hwn Hd].
    destruct (IH n s1 fuel W1 Ik Hq1) as (s' & E' & W' & I' & Q' & S' & Ev' & O' & D' & R' & L' & N').
    { intros y Hy. destruct (Ha y) as (xy & Hxy & Hwy); [by right|]. exists xy. cbn [waits sk s1 woken_off].
      rewrite lookup_insert_ne by (by intros ->). split; [done|]. by eapply woken_wakeable. }
    { simpl in Hf |- *. lia. }
    exists s'. split; [exact E'|]. split; [done|]. split; [done|]. cbn [wqs sems events waits sk s1 woken_off] in *.
    split; [rewrite Q'; apply insert_insert_eq|]. split; [done|]. split; [done|]. split_and!; [| | |congruence|congruence].
    + intros y Hy. rewrite O' by set_solver. apply lookup_insert_ne. set_solver.
    + intros y x' Hy Hx'. destruct (decide (y = w)) as [->|].
      * rewrite Hx in Hx'. injection Hx' as <-. rewrite O' by done. rewrite lookup_insert_eq. split; [done|].
        apply R'. eapply woken_runnable; [done|by right].
      * apply D'; [set_solver|]. by rewrite lookup_insert_ne.
    + intros y Hy. apply R'. eapply woken_runnable; [done|by left].
Qed.
(** The whole of [wakeup_queue] with [del]. *)
Lemma wakeup_queue_spec s q l flags :
  winv s -> sinv NCPU (sk s) -> wqs s !! q = Some l -> all_wakeable s l ->
  exists s', wakeup_queue NCPU C q flags true s = Ok (tt, s') /\ winv s' /\ sinv NCPU (sk s') /\
    wqs s' = <[q := []]> (wqs s) /\ sems s' = sems s /\ events s' = events s /\
    (forall w x, w ∈ l -> waits s !! w = Some x ->
       waits s' !! w = Some (Wait (wproc x) flags (wqueue x)) /\ runnable (sk s') (wproc x)) /\ locks (sk s') = locks (sk s) /\ in_interrupt (sk s') = in_interrupt (sk s).
Proof.
  intros W I Hq Ha. unfold wakeup_queue, wait_queue_first. rewrite (bind_step _ _ s (head l) s)
    by (by mstep (rd_wq_spec q l s Hq)).
  destruct l as [|w l]; cbn [head].
  { exists s. split_and!; try done; [by rewrite insert_id|by intros ? ? ?%not_elem_of_nil]. }
  rewrite bind_gets, Hq. cbn [default].
  destruct (wakeup_all_del_spec q flags l w s (length (w :: l)) W I Hq Ha ltac:(lia))
    as (s' & E & W' & I' & Q' & S' & Ev & _ & D' & _ & L' & N').
  exists s'. split; [exact E|]. by split_and!.
Qed.
End specs.

(** [wakeup_queue] with [del] empties the wait queue, hands every sleeper
    the wakeup flags and makes every one of them runnable; it terminates and
    fails no assertion. *)
Theorem wakeup_queue_correct NCPU C `{!SchedClass C} s q l flags :
  winv s -> sinv NCPU (sk s) -> wqs s !! q = Some l -> all_wakeable NCPU s l ->
  exists s', wakeup_queue NCPU C q flags true s = Ok (tt, s') /\ winv s' /\ sinv NCPU (sk s') /\
    wqs s' !! q = Some [] /\
    (forall w x, w ∈ l -> waits s !! w = Some x ->
       waits s' !! w = Some (Wait (wproc x) flags (wqueue x)) /\ runnable (sk s') (wproc x)).
Proof.
  intros W I Hq Ha. destruct (wakeup_queue_spec NCPU C s q l flags W I Hq Ha) as (s' & E & W' & I' & Q' & _ & _ & D' & _).
  exists s'. split_and!; try done. by rewrite Q', lookup_insert_eq.
Qed.

Definition ex_sync : sync := Sync ex_sched {[ 100 := Wait 4 0 (Some 50) ]} {[ 50 := [100] ]} ∅ ∅ ∅ ∅ 0.

Lemma ex_sync_winv : winv ex_sync.
Proof.
  intros q l. cbn [wqs ex_sync]. intros [<- <-]%lookup_singleton_Some. split; [apply NoDup_singleton|].
  intros w ->%list_elem_of_singleton. by eexists.
Qed.

Lemma wakeup_queue_correct_witness :
  exists s', wakeup_queue 1 RR_sched_class 50 WT_INTERRUPTED true ex_sync = Ok (tt, s') /\ winv s' /\ sinv 1 (sk s') /\
    wqs s' !! 50 = Some [] /\
    (forall w x, w ∈ [100] -> waits ex_sync !! w = Some x ->
       waits s' !! w = Some (Wait (wproc x) WT_INTERRUPTED (wqueue x)) /\ runnable (sk s') (wproc x)).
Proof.
  apply (wakeup_queue_correct 1 RR_sched_class ex_sync 50 [100] WT_INTERRUPTED);
    [exact ex_sync_winv|exact ex_sched_inv|reflexivity|].
  intros w ->%list_elem_of_singleton. eexists. split; [reflexivity|exact ex_sched_wakeable].
Defined.
