(* ===== verification/Sem.v ===== *)
(** * Sem: kernel and user semaphores (sync/sem.c, sync/ipc.h)

    A blocking routine is cut at its call of [schedule]: [__down_enter] is the
    code before it, [__down_leave] the code that runs when the process is
    scheduled again.  [sem_step] interleaves the operations of several
    processes on one semaphore with scheduler events. *)

From stdpp Require Import numbers gmap list.
From S2P Require Import Prelude Sched Timer Wait.
Local Open Scope Z_scope.

Definition WT_KSEM : Z := 0x100.
Definition WT_USEM : Z := Z.lor 0x101 WT_INTERRUPTED.

Definition rd_sem (m : Z) : M sync semaphore := load (fun s => sems s !! m).
Definition upd_sem (m : Z) (f : semaphore -> semaphore) : M sync unit := fun s =>
  match sems s !! m with
  | Some x => Ok (tt, set_sems (<[m := f x]> (sems s)) s)
  | None => Err BadAccess
  end.
Definition with_value (v : Z) (x : semaphore) : semaphore := Sem v (valid x) (count x).

(** ** ipc.h *)

Definition ipc_add_timer (t : option Z) : M sync unit :=
  match t with Some t => lift (add_timer t) | None => mret tt end.
Definition ipc_del_timer (t : option Z) : M sync unit :=
  match t with Some t => lift (del_timer t) | None => mret tt end.

(** [t] is the caller's timer; the result is the timer to use and the saved ticks. *)
Definition ipc_timer_init (timeout t : Z) : M sync (option Z * Z) :=
  if negb (timeout =? 0) then
    now ← gets clock_ticks;
    cur ← lift current;
    _ ← lift (timer_init t cur timeout);
    mret (Some t, now)
  else mret (None, 0).

Definition ipc_check_timeout (timeout saved_ticks : Z) : M sync Z :=
  if negb (timeout =? 0) then
    now ← gets clock_ticks;
    mret (if timeout <=? u32 (now - saved_ticks) then - E_TIMEOUT else -1)
  else mret (-1).

(** ** sem.c *)

Definition sem_init (m v : Z) : M sync unit :=
  _ ← modify (fun s => set_sems (<[m := Sem v true 0]> (sems s)) s);
  wait_queue_init m.

Section sem.
Context (NCPU : Z) (C : sched_class).

Definition __up (m wait_state_ : Z) : M sync unit :=
  sm ← rd_sem m;
  _ ← kassert (valid sm);
  _ ← lift (spinlock_acquire (SemLock m));
  w ← wait_queue_first m;
  _ ← match w with
      | None => upd_sem m (fun x => with_value (s32 (value x + 1)) x)
      | Some w =>
          x ← rd_wait w;
          pr ← lift (rd_proc (wproc x));
          _ ← kassert (wait_state pr =? wait_state_);
          wakeup_wait NCPU C m w wait_state_ true
      end;
  lift (spinlock_release (SemLock m)).

(** [Some 0] when the semaphore was taken; [None] when the process has to give
    up the CPU, [w] being its wait record. *)
Definition __down_enter (m wait_state_ w : Z) (timer : option Z) : M sync (option Z) :=
  sm ← rd_sem m;
  _ ← kassert (valid sm);
  _ ← lift (spinlock_acquire (SemLock m));
  if 0 <? value sm then
    _ ← upd_sem m (with_value (value sm - 1));
    _ ← lift (spinlock_release (SemLock m));
    mret (Some 0)
  else
    _ ← wait_current_set m w wait_state_;
    _ ← ipc_add_timer timer;
    _ ← lift (spinlock_release (SemLock m));
    mret None.

Definition __down_leave (m wait_state_ w : Z) (timer : option Z) : M sync Z :=
  _ ← lift (spinlock_acquire (SemLock m));
  _ ← ipc_del_timer timer;
  _ ← wait_current_del m w;
  _ ← lift (spinlock_release (SemLock m));
  x ← rd_wait w;
  mret (if negb (wakeup_flags x =? wait_state_) then wakeup_flags x else 0).

Definition up (m : Z) : M sync unit := __up m WT_KSEM.

(** [down]: the result tells whether the caller is through. *)
Definition down_enter (m w : Z) : M sync bool :=
  r ← __down_enter m WT_KSEM w None;
  match r with
  | Some flags => _ ← kassert (flags =? 0); mret true
  | None => _ ← lift (schedule NCPU C); mret false
  end.
Definition down_leave (m w : Z) : M sync unit :=
  flags ← __down_leave m WT_KSEM w None;
  kassert (flags =? 0).

Definition try_down (m : Z) : M sync bool :=
  _ ← lift (spinlock_acquire (SemLock m));
  sm ← rd_sem m;
  r ← (if 0 <? value sm then _ ← upd_sem m (with_value (value sm - 1)); mret true else mret false);
  _ ← lift (spinlock_release (SemLock m));
  mret r.

Definition usem_up (m : Z) : M sync Z := _ ← __up m WT_USEM; mret 0.

Definition usem_down_enter (m timeout w t : Z) : M sync (option Z * option Z * Z) :=
  '(timer, saved) ← ipc_timer_init timeout t;
  r ← __down_enter m WT_USEM w timer;
  match r with
  | Some _ => mret (Some 0, timer, saved)
  | None => _ ← lift (schedule NCPU C); mret (None, timer, saved)
  end.
Definition usem_down_leave (m timeout w : Z) (timer : option Z) (saved : Z) : M sync Z :=
  flags ← __down_leave m WT_USEM w timer;
  if flags =? 0 then mret 0
  else _ ← kassert (flags =? WT_INTERRUPTED); ipc_check_timeout timeout saved.

(** *** The per-process lists of user semaphores; [kmalloc] returns the
    addresses passed in, [None] when there is no memory. *)

Definition sem_queue_create (new : option Z) : M sync (option Z) :=
  match new with
  | Some q =>
      _ ← sem_init q 1;
      _ ← modify (fun s => set_semqs (<[q := SemQueue 0 []]> (semqs s)) s);
      mret (Some q)
  | None => mret None
  end.

Definition sem_queue_destroy (q : Z) : M sync unit :=
  modify (fun s => set_sems (delete q (sems s)) (set_semqs (delete q (semqs s)) s)).

Definition sem_count_inc (m : Z) : M sync unit :=
  upd_sem m (fun x => Sem (value x) (valid x) (s32 (count x + 1))).

(** [new_semu] and [new_sem] are the results of the two [kmalloc]s. *)
Definition semu_create (m : option Z) (v : Z) (new_semu new_sem : option Z) : M sync (option Z) :=
  match new_semu with
  | None => mret None
  | Some u =>
      m ← match m, new_sem with
          | Some m, _ => mret (Some m)
          | None, Some m => _ ← sem_init m v; mret (Some m)
          | None, None => mret None
          end;
      match m with
      | Some m =>
          _ ← sem_count_inc m;
          _ ← modify (fun s => set_semus (<[u := m]> (semus s)) s);
          mret (Some u)
      | None => mret None
      end
  end.

Definition semu_destroy (u : Z) : M sync unit :=
  m ← load (fun s => semus s !! u);
  _ ← upd_sem m (fun x => Sem (value x) (valid x) (s32 (count x - 1)));
  sm ← rd_sem m;
  _ ← (if count sm =? 0 then modify (fun s => set_sems (delete m (sems s)) s) else mret tt);
  modify (fun s => set_semus (delete u (semus s)) s).

Definition rd_semq (q : Z) : M sync sem_queue := load (fun s => semqs s !! q).
Definition set_semu_list (q : Z) (l : list Z) : M sync unit := fun s =>
  match semqs s !! q with
  | Some x => Ok (tt, set_semqs (<[q := SemQueue (sq_count x) l]> (semqs s)) s)
  | None => Err BadAccess
  end.

(** The loop of [dup_sem_queue]; [news] are the results of [kmalloc]. *)
Fixpoint dup_loop (to : Z) (l : list Z) (news : list (option Z)) : M sync Z :=
  match l with
  | [] => mret 0
  | u :: l' =>
      m ← load (fun s => semus s !! u);
      sm ← rd_sem m;
      if valid sm then
        u' ← semu_create (Some m) 0 (default None (head news)) None;
        match u' with
        | None => mret (- E_NO_MEM)
        | Some u' =>
            x ← rd_semq to;
            _ ← set_semu_list to (u' :: semu_list x);
            dup_loop to l' (tail news)
        end
      else dup_loop to l' news
  end.
Definition dup_sem_queue (to from : Z) (news : list (option Z)) : M sync Z :=
  x ← rd_semq from; dup_loop to (semu_list x) news.

Fixpoint exit_loop (fuel : nat) (q : Z) : M sync unit :=
  match fuel with
  | O => fail OutOfFuel
  | S fuel' =>
      x ← rd_semq q;
      match semu_list x with
      | [] => mret tt
      | u :: l => _ ← set_semu_list q l; _ ← semu_destroy u; exit_loop fuel' q
      end
  end.
Definition exit_sem_queue (q : Z) : M sync unit :=
  x ← rd_semq q;
  _ ← kassert (sq_count x =? 0);
  exit_loop (S (length (semu_list x))) q.

(** A user's semaphore id is the address of the semaphore less [PBASE]. *)
Definition PBASE : Z := 0xC0000000.
Definition VALID_SEMID (sem_id : Z) : bool := sem_id <? u32 (sem_id + PBASE).
Definition semid2sem (sem_id : Z) : Z := u32 (sem_id + PBASE).
Definition sem2semid (m : Z) : Z := u32 (m - PBASE).

(** [semu_list_search]: the entry of the semaphore, moved to the front; an
    entry whose semaphore was freed is destroyed.  The caller holds the
    semaphore of the list. *)
Fixpoint semu_find (l : list Z) (m : Z) (semus_ : gmap Z Z) : option Z :=
  match l with
  | [] => None
  | u :: l' => if bool_decide (semus_ !! u = Some m) then Some u else semu_find l' m semus_
  end.
Definition semu_list_search (q sem_id : Z) : M sync (option Z) :=
  if VALID_SEMID sem_id then
    let m := semid2sem sem_id in
    x ← rd_semq q;
    us ← gets semus;
    match semu_find (semu_list x) m us with
    | None => mret None
    | Some u =>
        let rest := filter (fun y => y <> u) (semu_list x) in
        sm ← rd_sem m;
        if valid sm then
          _ ← set_semu_list q (u :: rest); mret (Some u)
        else
          _ ← set_semu_list q rest; _ ← semu_destroy u; mret None
    end
  else mret None.

(** The part of [ipc_sem_free] after the search. *)
Definition sem_invalidate (m : Z) : M sync Z :=
  _ ← upd_sem m (fun x => Sem (value x) false (count x));
  _ ← wakeup_queue NCPU C m WT_INTERRUPTED true;
  mret 0.
End sem.

(** ** Sleepers *)

Section sleepers.
Context (NCPU : Z) (C : sched_class) `{!SchedClass C}.

(** Process [p] sleeps uninterruptibly for the reason [ws]. *)
Definition asleep (k : sched) (p ws : Z) : Prop :=
  off_cpu k p /\ exists pr, procs k !! p = Some pr /\ state pr = PROC_SLEEPING /\ wait_state pr = ws /\ NCPU <= pid pr.

Lemma asleep_wakeable k p ws : asleep k p ws -> wakeable NCPU k p.
Proof. intros (Ho & pr & Hp & Hs & _ & Hpid). exists pr. split_and!; [done|by rewrite Hs|]. intros _. by right. Qed.

(** A process that is not runnable stays, or gets, off the CPU. *)
Lemma schedule_sleeper k k' c prc q p pp l' :
  sinv NCPU k -> cpus k !! myid k = Some c -> rqs k !! myid k = Some q ->
  scheduled NCPU k k' (next_proc (cproc c) (idle c) prc (run_list q)) l' ->
  procs k !! cproc c = Some prc -> procs k !! p = Some pp -> state pp <> PROC_RUNNABLE -> NCPU <= pid pp ->
  off_cpu k p \/ p = cproc c -> off_cpu k' p.
Proof.
  intros I Hc Hq Sd Hprc Hp Hs Hpid Hor.
  assert (Hidle : forall j cj, cpus k !! j = Some cj -> p <> idle cj).
  { intros j cj Hj ->. destruct (si_cpu _ _ I j cj Hj) as (_ & _ & pi & Hpi & Hlt). rewrite Hp in Hpi. injection Hpi as <-. lia. }
  intros j cj Hj. destruct (decide (j = myid k)) as [->|Hne].
  - destruct (sd_cpu _ _ _ _ _ Sd c Hc) as (c' & Hc' & Hn & Hi & _). rewrite Hj in Hc'. injection Hc' as <-.
    rewrite Hi, Hn. split; [|by apply (Hidle _ _ Hc)]. unfold next_proc. destruct (run_list q) as [|h t] eqn:El.
    + case_bool_decide as Hr; [|by apply (Hidle _ _ Hc)]. destruct Hor as [Ho| ->]; [by apply (Ho _ _ Hc)|]. congruence.
    + intros ->. destruct (si_in _ _ I _ q h Hq) as (_ & ph & Hph & ? & _); [rewrite El; left|]. congruence.
  - destruct (sd_other _ _ _ _ _ Sd j Hne) as [_ Hcj]. rewrite Hcj in Hj. split; [|by apply (Hidle _ _ Hj)].
    destruct Hor as [Ho| ->]; [by apply (Ho _ _ Hj)|]. intros E. apply Hne. symmetry.
    apply (si_distinct _ _ I (myid k) j c cj Hc Hj). by left.
Qed.

(** Scheduler events that do not wake [p] leave it asleep. *)
Lemma exec_sleeper k l k' p ws :
  kinv NCPU k -> enabled NCPU k l -> l <> LWakeup p -> exec NCPU C l k = Ok (tt, k') -> asleep k p ws -> asleep k' p ws.
Proof.
  intros K En Hl E (Ho & pr & Hp & Hs & Hw & Hpid). destruct (kinv_parts NCPU k K) as (c & prc & q & Hc & Hprc & Hq).
  destruct K as (I & Hlk & Hin). destruct (Ho _ _ Hc) as [Hcur _]. destruct l as [|p'| |w].
  - destruct (schedule_spec NCPU C k c prc q I Hin) as (k2 & E2 & Sd); try done;
      [intros; rewrite Hlk; apply not_elem_of_nil|rewrite Hlk; apply not_elem_of_nil|].
    cbn [exec] in E. rewrite E in E2. injection E2 as <-. split.
    + eapply schedule_sleeper; try done; [by rewrite Hs|by left].
    + destruct (sd_procs _ _ _ _ _ Sd p pr Hp) as (pr' & Hp' & Ks & Kp & Kw). exists pr'. split_and!; [done|congruence|congruence|lia].
  - destruct (wakeup_proc_spec NCPU C k p' I En) as (k2 & E2 & Wk & _). cbn [exec] in E. rewrite E in E2. injection E2 as <-.
    destruct (woken_frame _ _ _ Wk) as (Fc & _). destruct (woken_procs _ _ _ Wk) as (Po & _).
    split; [unfold off_cpu; by rewrite Fc|]. exists pr. rewrite Po by congruence. done.
  - rewrite (tick_spec NCPU C k c prc) in E by done. injection E as <-. split; [done|]. exists pr.
    cbn [procs set_procs]. by rewrite lookup_insert_ne.
  - cbn [exec] in E. rewrite (bind_step _ _ _ _ _ (current_spec k c Hc)) in E.
    rewrite (upd_proc_spec _ _ prc) in E by done. injection E as <-. split; [done|]. exists pr.
    cbn [procs set_procs]. by rewrite lookup_insert_ne.
Qed.

Lemma woken_asleep k p k' y ws : woken k p k' -> y <> p -> asleep k y ws -> asleep k' y ws.
Proof.
  intros Wk Hne (Ho & pr & Hp & H). destruct (woken_frame _ _ _ Wk) as (Fc & _). destruct (woken_procs _ _ _ Wk) as (Po & _).
  split; [unfold off_cpu; by rewrite Fc|]. exists pr. by rewrite Po.
Qed.
End sleepers.

(** ** Interleavings on one kernel semaphore *)

(** [pending] are the wait records of processes inside [down], [completed] the
    number of [down]s and successful [try_down]s that are through. *)
Record sys := Sys { st : sync; ups : Z; completed : Z; pending : list Z }.

Section system.
Context (NCPU : Z) (C : sched_class) `{!SchedClass C} (m v0 : Z).

Definition my_process (k : sched) (p : Z) : Prop :=
  exists c pr, cpus k !! myid k = Some c /\ cproc c = p /\ procs k !! p = Some pr /\ NCPU <= pid pr.

(** A record not yet linked anywhere and not in use. *)
Definition fresh (g : sys) (w : Z) : Prop := w ∉ pending g /\ forall q l, wqs (st g) !! q = Some l -> w ∉ l.

(** The steps of the processes on one semaphore and of the scheduler.  A sleeper in [down]
    is woken by [up] only: the wakeup that a SIGKILL causes (process/signal.c,
    [signal_wakeup]) is left out, see [down_killed_panics]. *)
Inductive sem_step : sys -> sys -> Prop :=
| step_down g w s' p : my_process (sk (st g)) p -> fresh g w ->
    down_enter NCPU C m w (st g) = Ok (true, s') ->
    sem_step g (Sys s' (ups g) (completed g + 1) (pending g))
| step_block g w s' p : my_process (sk (st g)) p -> fresh g w ->
    down_enter NCPU C m w (st g) = Ok (false, s') ->
    sem_step g (Sys s' (ups g) (completed g) (w :: pending g))
| step_leave g w x s' : w ∈ pending g -> waits (st g) !! w = Some x -> my_process (sk (st g)) (wproc x) ->
    down_leave m w (st g) = Ok (tt, s') ->
    sem_step g (Sys s' (ups g) (completed g + 1) (filter (fun y => y <> w) (pending g)))
| step_up g s' : v0 + ups g < 2 ^ 31 - 1 ->
    up NCPU C m (st g) = Ok (tt, s') -> sem_step g (Sys s' (ups g + 1) (completed g) (pending g))
| step_try g b s' : try_down m (st g) = Ok (b, s') ->
    sem_step g (Sys s' (ups g) (completed g + (if b then 1 else 0)) (pending g))
| step_sched g l k : enabled NCPU (sk (st g)) l ->
    (forall w x, w ∈ pending g -> waits (st g) !! w = Some x -> l <> LWakeup (wproc x)) ->
    exec NCPU C l (sk (st g)) = Ok (tt, k) ->
    sem_step g (Sys (set_sk k (st g)) (ups g) (completed g) (pending g)).

(** Records whose [down] was granted by an [up] but which did not run yet. *)
Definition granted (l pend : list Z) : list Z := filter (fun w => w ∉ l) pend.

Record sem_inv (g : sys) : Prop := {
  sv_k : kinv NCPU (sk (st g));
  sv_w : winv (st g);
  sv_nodup : NoDup (pending g);
  sv_sem : exists sm l, sems (st g) !! m = Some sm /\ valid sm = true /\ wqs (st g) !! m = Some l /\
    0 <= value sm < 2 ^ 31 /\ (l <> [] -> value sm = 0) /\
    value sm + completed g + Z.of_nat (length (granted l (pending g))) = v0 + ups g /\
    (forall w, w ∈ l -> w ∈ pending g /\ exists x, waits (st g) !! w = Some x /\ asleep NCPU (sk (st g)) (wproc x) WT_KSEM) /\
    (forall w, w ∈ pending g -> w ∉ l -> exists x, waits (st g) !! w = Some x /\ wakeup_flags x = WT_KSEM /\
       forall q l', wqs (st g) !! q = Some l' -> w ∉ l') /\
    (forall w w' x x', w ∈ l -> w' ∈ l -> waits (st g) !! w = Some x -> waits (st g) !! w' = Some x' ->
       wproc x = wproc x' -> w = w') }.

Lemma set_sk_id s : set_sk (sk s) s = s.
Proof. by destruct s. Qed.

Lemma rd_sem_spec x s : sems s !! m = Some x -> rd_sem m s = Ok (x, s).
Proof. unfold rd_sem, load. by intros ->. Qed.
Lemma upd_sem_spec f x s : sems s !! m = Some x -> upd_sem m f s = Ok (tt, set_sems (<[m := f x]> (sems s)) s).
Proof. unfold upd_sem. by intros ->. Qed.

(** The state with [sem->lock] held. *)
Definition locked (s : sync) : sync := set_sk (set_locks [SemLock m] (sk s)) s.

Lemma sem_lock s : locks (sk s) = [] -> lift (spinlock_acquire (SemLock m)) s = Ok (tt, locked s).
Proof.
  intros Hl. unfold lift. rewrite (acquire_spec (SemLock m) (sk s)) by (rewrite Hl; apply not_elem_of_nil).
  unfold locked. by rewrite Hl.
Qed.

Lemma sem_unlock s : locks (sk s) = [SemLock m] ->
  lift (spinlock_release (SemLock m)) s = Ok (tt, set_sk (set_locks [] (sk s)) s).
Proof. intros Hl. unfold lift. by rewrite (release_spec (SemLock m) [] (sk s) Hl) by apply not_elem_of_nil. Qed.

Lemma granted_cons_notin w l pend : NoDup pend -> w ∈ pend -> w ∉ l ->
  length (granted l pend) = S (length (granted (w :: l) pend)).
Proof.
  intros Hd Hw Hl. induction Hd as [|y pend Hy Hd IH]; [by apply not_elem_of_nil in Hw|].
  unfold granted in *. apply elem_of_cons in Hw as [->|Hw].
  - rewrite filter_cons_True by done. rewrite (filter_cons_False (fun x => x ∉ y :: l)) by set_solver. simpl. do 2 f_equal.
    apply list_filter_iff'. intros z Hz. split; [|set_solver]. intros Hzl. apply not_elem_of_cons. split; [by intros ->|done].
  - rewrite !filter_cons. destruct (decide (y ∉ l)) as [Hyl|Hyl].
    + rewrite decide_True by (apply not_elem_of_cons; split; [by intros ->|done]). simpl. f_equal. by apply IH.
    + rewrite decide_False by set_solver. by apply IH.
Qed.

Lemma kinv_locked k ls : kinv NCPU k -> sinv NCPU (set_locks ls k).
Proof. intros (I & _). by apply sinv_set_locks. Qed.

Lemma kinv_unlock k : sinv NCPU k -> in_interrupt k = false -> kinv NCPU (set_locks [] k).
Proof. intros I Hi. split; [by apply sinv_set_locks|done]. Qed.

(** [up] on a valid semaphore always succeeds. *)
Lemma up_spec g : sem_inv g -> v0 + ups g < 2 ^ 31 - 1 -> 0 <= completed g ->
  exists s', up NCPU C m (st g) = Ok (tt, s') /\ sem_inv (Sys s' (ups g + 1) (completed g) (pending g)) /\
    (forall w l x, wqs (st g) !! m = Some (w :: l) -> waits (st g) !! w = Some x ->
       wqs s' !! m = Some l /\ runnable (sk s') (wproc x) /\ sems s' = sems (st g)).
Proof.
  intros [K W Hnd (sm & l & Hm & Hv & Hq & Hval & Hz & Hcnt & Hl & Hg & Hinj)] Hov Hcomp.
  pose proof K as (I & Hlk & Hin). unfold up, __up. mstep (rd_sem_spec sm (st g) Hm). massert; [|done].
  mstep (sem_lock (st g) Hlk). set (s1 := locked (st g)).
  assert (E1 : wait_queue_first m s1 = Ok (head l, s1)) by (unfold wait_queue_first; by mstep (rd_wq_spec m l s1 Hq)).
  mstep E1. destruct l as [|w l]; cbn [head].
  - mstep (upd_sem_spec (fun x => with_value (s32 (value x + 1)) x) sm s1 Hm).
    rewrite sem_unlock by done. eexists. split; [reflexivity|]. split; [|intros ? ? ?; by rewrite Hq].
    rewrite (smod_small 32) by (unfold is_s; simpl; lia).
    split; cbn [st ups completed pending]; [apply (kinv_unlock (set_locks [SemLock m] (sk (st g)))); [by apply kinv_locked|exact Hin]|exact W|done|].
    eexists (Sem (value sm + 1) true (count sm)), []. cbn [sems set_sk set_sems wqs waits]. rewrite lookup_insert_eq.
    split; [unfold with_value; by rewrite Hv|]. split; [done|]. split; [exact Hq|]. cbn [value].
    split; [lia|]. split; [done|]. split; [lia|]. split; [by intros ? ?%not_elem_of_nil|]. split; [exact Hg|].
    by intros ? ? ? ? ?%not_elem_of_nil.
  - destruct (Hl w) as (Hwp & x & Hx & Hsl); [left|]. pose proof Hsl as (Hoff & pr & Hp & Hst & Hws & Hpid).
    destruct (wakeup_wait_spec NCPU C s1 m (w :: l) w x WT_KSEM) as (k & E2 & Wk & Ik & W2);
      [exact W|by apply kinv_locked|exact Hq|left|exact Hx|exact (asleep_wakeable NCPU _ _ _ Hsl)|].
    assert (E3 : (x ← rd_wait w; pr ← lift (rd_proc (wproc x)); _ ← kassert (wait_state pr =? WT_KSEM);
      wakeup_wait NCPU C m w WT_KSEM true) s1 = Ok (tt, woken_off s1 m (w :: l) w WT_KSEM x k)).
    { mstep (rd_wait_spec w x s1 Hx).
      mstep (lift_spec (rd_proc (wproc x)) s1 pr (sk s1) (rd_proc_spec (wproc x) pr (sk s1) Hp)).
      massert; [exact E2|by apply Z.eqb_eq]. }
    mstep E3. destruct (woken_frame _ _ _ Wk) as (Fc & _ & Fl & Fm & Fi).
    rewrite sem_unlock by exact Fl. eexists. split; [reflexivity|].
    destruct (W m _ Hq) as [Hdl _]. pose proof (filter_head w l Hdl) as Hfl.
    apply list.NoDup_cons in Hdl as [Hwl Hdl].
    split; [|intros ? ? ?; rewrite Hq; intros [= <- <-]; rewrite Hx; intros [= <-]; cbn [wqs set_sk woken_off sk sems];
      rewrite lookup_insert_eq, Hfl; split_and!; [done|exact (woken_runnable _ _ _ _ Wk (or_intror eq_refl))|done]].
    split; cbn [st ups completed pending].
    + apply kinv_unlock; [done|]. cbn [sk set_sk woken_off]. rewrite Fi. exact Hin.
    + exact W2.
    + done.
    + exists sm, l. cbn [sems set_sk woken_off wqs waits sk]. rewrite lookup_insert_eq, Hfl.
      split; [done|]. split; [done|]. split; [done|]. specialize (Hz ltac:(done)).
      split; [lia|]. split; [done|].
      split; [rewrite (granted_cons_notin w l (pending g) Hnd Hwp Hwl); lia|].
      assert (Hlook : forall y, y <> w -> <[w := Wait (wproc x) WT_KSEM (wqueue x)]> (waits (st g)) !! y = waits (st g) !! y)
        by (intros; by apply lookup_insert_ne).
      split_and!.
      * intros y Hy. destruct (Hl y) as (Hyp & xy & Hxy & Hsy); [by right|]. split; [done|]. exists xy.
        rewrite Hlook by (by intros ->). split; [done|].
        apply (woken_asleep NCPU (sk s1) (wproc x) k (wproc xy) WT_KSEM Wk); [|exact Hsy].
        intros Heq. assert (y = w) as -> by (eapply (Hinj y w xy x); [by right|left|done|done|done]). done.
      * intros y Hyp Hyl. destruct (decide (y = w)) as [->|Hne].
        -- rewrite lookup_insert_eq. eexists; split; [done|]. split; [done|]. intros q' l'.
           destruct (decide (q' = m)) as [->|]; [rewrite lookup_insert_eq; by intros [= <-]|rewrite lookup_insert_ne by done].
           intros Hq' Hin'. destruct (W q' l' Hq') as [_ Hw']. destruct (Hw' w Hin') as (x1 & Hx1 & Hq1).
           destruct (W m _ Hq) as [_ Hw2]. destruct (Hw2 w) as (x2 & Hx2 & Hq2); [left|]. congruence.
        -- destruct (Hg y Hyp) as (xy & Hxy & Hfy & Hny); [set_solver|]. exists xy. rewrite Hlook by done. split_and!; [done|done|].
           intros q' l'. destruct (decide (q' = m)) as [->|]; [rewrite lookup_insert_eq; by intros [= <-]|].
           rewrite lookup_insert_ne by done. apply Hny.
      * intros y y' xy xy' Hy Hy'. rewrite !Hlook by (by intros ->). intros. eapply (Hinj y y'); [by right|by right|done|done|done].
Qed.

(** [down_leave] only runs in a process whose record was granted. *)
Lemma leave_spec g w x : sem_inv g -> w ∈ pending g -> waits (st g) !! w = Some x -> my_process (sk (st g)) (wproc x) ->
  exists s', down_leave m w (st g) = Ok (tt, s') /\
    sem_inv (Sys s' (ups g) (completed g + 1) (filter (fun y => y <> w) (pending g))).
Proof.
  intros [K W Hnd (sm & l & Hm & Hv & Hq & Hval & Hz & Hcnt & Hl & Hg & Hinj)] Hwp Hx (c & pr & Hc & Hcp & Hp & Hpid).
  pose proof K as (I & Hlk & Hin).
  assert (Hwl : w ∉ l).
  { intros Hwl. destruct (Hl w Hwl) as (_ & x' & Hx' & Hoff & _). rewrite Hx in Hx'. injection Hx' as <-.
    destruct (Hoff _ _ Hc) as [? _]. congruence. }
  destruct (Hg w Hwp Hwl) as (x' & Hx' & Hfl & Hnq). rewrite Hx in Hx'. injection Hx' as <-.
  unfold down_leave, __down_leave. cbn [ipc_del_timer].
  assert (E : (_ ← lift (spinlock_acquire (SemLock m)); _ ← (mret tt : M sync unit); _ ← wait_current_del m w;
    _ ← lift (spinlock_release (SemLock m)); x ← rd_wait w;
    mret (if negb (wakeup_flags x =? WT_KSEM) then wakeup_flags x else 0)) (st g) = Ok (0, st g)).
  { mstep (sem_lock (st g) Hlk). set (s1 := locked (st g)).
    rewrite (bind_step (mret tt : M sync unit) _ s1 tt s1 eq_refl).
    assert (Ed : wait_current_del m w s1 = Ok (tt, s1)).
    { unfold wait_current_del, wait_in_queue. rewrite (bind_step _ _ s1 false s1); [done|].
      mstep (rd_wait_spec w x s1 Hx). destruct (wqueue x); [|done]. rewrite bind_gets.
      by rewrite (wait_link_empty_true w s1 Hnq). }
    mstep Ed. rewrite (bind_step _ _ _ _ _ (sem_unlock s1 eq_refl)).
    assert (Es : set_sk (set_locks [] (sk s1)) s1 = st g).
    { unfold s1, locked. destruct (st g) as [k ? ? ? ? ? ? ?]. cbn in *. f_equal. destruct k. cbn in *. by subst. }
    rewrite Es. mstep (rd_wait_spec w x (st g) Hx). by rewrite Hfl, Z.eqb_refl. }
  mstep E. exists (st g). split; [done|].
  split; cbn [st ups completed pending]; [done|done|by apply list.NoDup_filter|].
  exists sm, l. split_and!; try done; try lia.
  - rewrite <- Hcnt. assert (length (granted l (filter (fun y => y <> w) (pending g))) = (length (granted l (pending g)) - 1)%nat) as ->.
    { unfold granted. rewrite list_filter_filter, (list_filter_iff' _ (fun y => y <> w /\ y ∉ l)) by (intros; tauto).
      rewrite <- (list_filter_filter (fun y => y <> w) (fun y => y ∉ l)). apply length_filter_ne; [by apply list.NoDup_filter|].
      by apply list_elem_of_filter. }
    assert (0 < length (granted l (pending g)))%nat; [|lia].
    destruct (granted l (pending g)) eqn:E'; [|simpl; lia].
    assert (Hw' : w ∈ granted l (pending g)) by (by apply list_elem_of_filter). rewrite E' in Hw'. by apply not_elem_of_nil in Hw'.
  - intros y Hy. destruct (Hl y Hy) as [? ?]. split; [|done]. apply list_elem_of_filter. split; [by intros ->|done].
  - intros y [_ Hy]%list_elem_of_filter. by apply Hg.
Qed.

Lemma unlock_locked s : locks (sk s) = [] -> set_sk (set_locks [] (sk (locked s))) (locked s) = s.
Proof. intros H. unfold locked. destruct s as [k ? ? ? ? ? ? ?]. cbn in *. f_equal. destruct k. cbn in *. by subst. Qed.

(** Taking the semaphore when it is free. *)
Lemma sem_inv_take g sm l : sem_inv g -> sems (st g) !! m = Some sm -> wqs (st g) !! m = Some l -> 0 < value sm ->
  sem_inv (Sys (set_sems (<[m := with_value (value sm - 1) sm]> (sems (st g))) (st g)) (ups g) (completed g + 1) (pending g)).
Proof.
  intros [K W Hnd (sm' & l' & Hm & Hv & Hq & Hval & Hz & Hcnt & Hl & Hg & Hinj)] Hm' Hq' Hpos.
  rewrite Hm in Hm'. injection Hm' as <-. rewrite Hq in Hq'. injection Hq' as <-.
  split; cbn [st ups completed pending]; [done|done|done|]. exists (with_value (value sm' - 1) sm'), l'.
  cbn [sems set_sems wqs waits sk value with_value valid]. rewrite lookup_insert_eq. split_and!; try done; try lia.
  intros Hl'. specialize (Hz Hl'). lia.
Qed.

Lemma try_spec g : sem_inv g ->
  exists b s', try_down m (st g) = Ok (b, s') /\
    sem_inv (Sys s' (ups g) (completed g + (if b then 1 else 0)) (pending g)).
Proof.
  intros V. pose proof V as [K W Hnd (sm & l & Hm & Hv & Hq & _)]. pose proof K as (I & Hlk & Hin).
  unfold try_down. mstep (sem_lock (st g) Hlk). set (s1 := locked (st g)). mstep (rd_sem_spec sm s1 Hm).
  destruct (Z.ltb_spec 0 (value sm)) as [L|L].
  - pose proof (sem_inv_take g sm l V Hm Hq L) as V'. set (s2 := set_sems _ (st g)) in V'.
    assert (E : (_ ← upd_sem m (with_value (value sm - 1)); mret true) s1 = Ok (true, locked s2))
      by (by mstep (upd_sem_spec (with_value (value sm - 1)) sm s1 Hm)).
    mstep E. rewrite (bind_step _ _ _ _ _ (sem_unlock (locked s2) eq_refl)). rewrite unlock_locked by exact Hlk.
    exists true, s2. done.
  - assert (E : (mret false : M sync bool) s1 = Ok (false, s1)) by done. mstep E.
    rewrite (bind_step _ _ _ _ _ (sem_unlock s1 eq_refl)). unfold s1. rewrite unlock_locked by exact Hlk.
    exists false, (st g). split; [done|]. rewrite Z.add_0_r. by destruct g.
Qed.

(** The caller goes to sleep on the queue. *)
Lemma block_spec s w l c pr :
  cpus (sk s) !! myid (sk s) = Some c -> procs (sk s) !! cproc c = Some pr -> wqs s !! m = Some l ->
  (forall q l', wqs s !! q = Some l' -> w ∉ l') ->
  wait_current_set m w WT_KSEM s =
  Ok (tt, Sync (set_procs (<[cproc c := with_wait WT_KSEM (with_state PROC_SLEEPING pr)]> (procs (sk s))) (sk s))
            (<[w := Wait (cproc c) WT_INTERRUPTED (Some m)]> (waits s)) (<[m := l ++ [w]]> (wqs s))
            (sems s) (events s) (semus s) (semqs s) (clock_ticks s)).
Proof.
  intros Hc Hp Hq Hw. unfold wait_current_set. mstep (lift_spec current s _ _ (current_spec (sk s) c Hc)).
  rewrite set_sk_id. set (x0 := Wait (cproc c) WT_INTERRUPTED (x ← waits s !! w; wqueue x)).
  assert (E0 : wait_init w (cproc c) s = Ok (tt, set_waits (<[w := x0]> (waits s)) s)) by done. mstep E0.
  set (s1 := set_waits _ s).
  mstep (lift_spec (upd_proc (cproc c) (with_state PROC_SLEEPING)) s1 _ _ (upd_proc_spec (cproc c) _ pr (sk s1) Hp)).
  set (k2 := set_procs _ (sk s1)).
  assert (Hp2 : procs k2 !! cproc c = Some (with_state PROC_SLEEPING pr)) by apply lookup_insert_eq.
  mstep (lift_spec (upd_proc (cproc c) (with_wait WT_KSEM)) (set_sk k2 s1) _ _ (upd_proc_spec (cproc c) _ _ k2 Hp2)).
  unfold k2. rewrite set_procs_twice.
  rewrite (wait_queue_add_spec _ m l w x0) by (exact Hq || exact Hw || apply lookup_insert_eq).
  unfold set_wqs, set_waits, set_sk, s1. cbn. by rewrite insert_insert_eq.
Qed.

Lemma enter_spec g w p : sem_inv g -> my_process (sk (st g)) p -> fresh g w ->
  exists b s', down_enter NCPU C m w (st g) = Ok (b, s') /\
    sem_inv (Sys s' (ups g) (completed g + (if b then 1 else 0)) (if b then pending g else w :: pending g)).
Proof.
  intros V (c & pr & Hc & <- & Hp & Hpid) (Hwp & Hwq).
  pose proof V as [K W Hnd (sm & l & Hm & Hv & Hq & Hval & Hz & Hcnt & Hl & Hg & Hinj)]. pose proof K as (I & Hlk & Hin).
  unfold down_enter, __down_enter. set (s1 := locked (st g)).
  destruct (decide (0 < value sm)) as [L|L].
  - pose proof (sem_inv_take g sm l V Hm Hq L) as V'. set (s2 := set_sems _ (st g)) in V'.
    exists true, s2. split; [|exact V'].
    rewrite (bind_step _ _ (st g) (Some 0) s2); [done|]. mstep (rd_sem_spec sm (st g) Hm). massert; [|done].
    mstep (sem_lock (st g) Hlk). destruct (Z.ltb_spec 0 (value sm)); [|lia]. fold s1.
    mstep (upd_sem_spec (with_value (value sm - 1)) sm s1 Hm). change (set_sems _ s1) with (locked s2).
    rewrite (bind_step _ _ _ _ _ (sem_unlock (locked s2) eq_refl)). by rewrite unlock_locked by exact Hlk.
  - set (pr' := with_wait WT_KSEM (with_state PROC_SLEEPING pr)).
    set (k1 := set_procs (<[cproc c := pr']> (procs (sk (st g)))) (sk (st g))).
    set (s2 := Sync k1 (<[w := Wait (cproc c) WT_INTERRUPTED (Some m)]> (waits (st g))) (<[m := l ++ [w]]> (wqs (st g)))
            (sems (st g)) (events (st g)) (semus (st g)) (semqs (st g)) (clock_ticks (st g))).
    assert (E : (sm0 ← rd_sem m; _ ← kassert (valid sm0); _ ← lift (spinlock_acquire (SemLock m));
      if 0 <? value sm0 then _ ← upd_sem m (with_value (value sm0 - 1)); _ ← lift (spinlock_release (SemLock m)); mret (Some 0)
      else _ ← wait_current_set m w WT_KSEM; _ ← ipc_add_timer None; _ ← lift (spinlock_release (SemLock m)); mret None) (st g)
      = Ok (None, s2)).
    { mstep (rd_sem_spec sm (st g) Hm). massert; [|done]. mstep (sem_lock (st g) Hlk).
      destruct (Z.ltb_spec 0 (value sm)); [lia|]. fold s1. mstep (block_spec s1 w l c pr Hc Hp Hq Hwq).
      change (Sync _ _ _ _ _ _ _ _) with (locked s2). cbn [ipc_add_timer].
      rewrite (bind_step (mret tt : M sync unit) _ (locked s2) tt (locked s2) eq_refl).
      rewrite (bind_step _ _ _ _ _ (sem_unlock (locked s2) eq_refl)). by rewrite unlock_locked by exact Hlk. }
    mstep E. clear E. cbn beta iota.
    assert (I1 : sinv NCPU k1).
    { destruct (si_proc _ _ I _ _ Hp). apply (sinv_upd NCPU (sk (st g)) (cproc c) pr); try done. left.
      apply (cpu_proc_unqueued NCPU (sk (st g)) _ c I Hc). }
    assert (Hp1 : procs k1 !! cproc c = Some pr') by apply lookup_insert_eq.
    destruct (proj2 (si_rqs _ _ I _) (me_in_range NCPU _ I)) as [q Hrq].
    destruct (schedule_spec NCPU C k1 c pr' q I1 Hin) as (k2 & E2 & Sd); try done;
      [intros; cbn [locks k1 set_procs]; rewrite Hlk; apply not_elem_of_nil|cbn [locks k1 set_procs]; rewrite Hlk; apply not_elem_of_nil|].
    assert (E3 : lift (schedule NCPU C) s2 = Ok (tt, set_sk k2 s2)) by (by apply lift_spec). mstep E3.
    eexists false, _. split; [reflexivity|]. rewrite Z.add_0_r.
    assert (Hsleep : forall y ws, asleep NCPU (sk (st g)) y ws -> asleep NCPU k2 y ws).
    { intros y ws (Ho & py & Hy & Hs & Hws & Hyp). destruct (Ho _ _ Hc) as [Hne _].
      assert (Hy1 : procs k1 !! y = Some py) by (cbn [procs k1 set_procs]; by rewrite lookup_insert_ne).
      split; [eapply (schedule_sleeper NCPU k1 k2 c pr' q); try done; [by rewrite Hs|by left]|].
      destruct (sd_procs _ _ _ _ _ Sd y py Hy1) as (py' & Hy' & Ks & Kp & Kw). exists py'. split_and!; [done|congruence|congruence|lia]. }
    assert (Hme : asleep NCPU k2 (cproc c) WT_KSEM).
    { split; [eapply (schedule_sleeper NCPU k1 k2 c pr' q); try done; by right|].
      destruct (sd_procs _ _ _ _ _ Sd (cproc c) pr' Hp1) as (py' & Hy' & Ks & Kp & Kw). exists py'. split_and!; [done|by rewrite Ks|by rewrite Kw|by rewrite Kp]. }
    assert (Hlook : forall y, y <> w -> <[w := Wait (cproc c) WT_INTERRUPTED (Some m)]> (waits (st g)) !! y = waits (st g) !! y)
      by (intros; by apply lookup_insert_ne).
    assert (Hwl : w ∉ l) by (by apply (Hwq m)).
    subst s2. split; cbn [st ups completed pending sk set_sk sems wqs waits].
    + split; [apply Sd|]. split; [rewrite (sd_locks _ _ _ _ _ Sd); exact Hlk|rewrite (sd_intr _ _ _ _ _ Sd); exact Hin].
    + intros q' l'. cbn [wqs set_sk waits]. destruct (decide (q' = m)) as [->|Hq'].
      * rewrite lookup_insert_eq. intros [= <-]. destruct (W m l Hq) as [Hd Hw']. split.
        -- apply NoDup_app. split_and!; [done| |apply NoDup_singleton]. by intros y Hy ->%list_elem_of_singleton.
        -- intros y [Hy| ->%list_elem_of_singleton]%elem_of_app; [|rewrite lookup_insert_eq; by eexists].
           rewrite Hlook by (by intros ->). by apply Hw'.
      * rewrite lookup_insert_ne by done. intros Hq2. destruct (W q' l' Hq2) as [Hd Hw']. split; [done|].
        intros y Hy. rewrite Hlook by (intros ->; by apply (Hwq q' l')). by apply Hw'.
    + by apply list.NoDup_cons.
    + exists sm, (l ++ [w]). cbn [sems wqs waits set_sk]. rewrite lookup_insert_eq.
      split; [done|]. split; [done|]. split; [done|]. split; [lia|]. split; [intros; lia|]. split_and!.
      * rewrite <- Hcnt. do 3 f_equal. unfold granted. rewrite filter_cons_False by set_solver.
        apply list_filter_iff'. intros y Hy. rewrite not_elem_of_app, list_elem_of_singleton.
        assert (y <> w) by (by intros ->). tauto.
      * intros y [Hy| ->%list_elem_of_singleton]%elem_of_app.
        -- destruct (Hl y Hy) as (Hyp & xy & Hxy & Hsy). split; [by right|]. exists xy. rewrite Hlook by (by intros ->). auto.
        -- split; [left|]. rewrite lookup_insert_eq. by eexists.
      * intros y Hy Hyl. apply elem_of_cons in Hy as [->|Hy]; [set_solver|].
        destruct (Hg y Hy) as (xy & Hxy & Hf & Hn); [set_solver|]. exists xy. rewrite Hlook by (by intros ->). split_and!; [done|done|].
        intros q' l'. destruct (decide (q' = m)) as [->|]; [rewrite lookup_insert_eq; by intros [= <-]|].
        rewrite lookup_insert_ne by done. apply Hn.
      * assert (Hnc : forall y xy, y ∈ l -> waits (st g) !! y = Some xy -> wproc xy <> cproc c).
        { intros y xy Hy Hxy Heq. destruct (Hl y Hy) as (_ & xy' & Hxy' & Ho & _). rewrite Hxy in Hxy'. injection Hxy' as <-.
          by destruct (Ho _ _ Hc). }
        intros y y' xy xy' [Hy| ->%list_elem_of_singleton]%elem_of_app [Hy'| ->%list_elem_of_singleton]%elem_of_app; [| | |done].
        -- rewrite !Hlook by (by intros ->). by apply Hinj.
        -- rewrite lookup_insert_eq, Hlook by (by intros ->). intros Hxy [= <-] Heq. by destruct (Hnc y xy Hy Hxy).
        -- rewrite lookup_insert_eq, Hlook by (by intros ->). intros [= <-] Hxy Heq. by destruct (Hnc y' xy' Hy' Hxy).
Qed.

Lemma sched_step_spec g l k : sem_inv g -> enabled NCPU (sk (st g)) l ->
  (forall w x, w ∈ pending g -> waits (st g) !! w = Some x -> l <> LWakeup (wproc x)) ->
  exec NCPU C l (sk (st g)) = Ok (tt, k) ->
  sem_inv (Sys (set_sk k (st g)) (ups g) (completed g) (pending g)).
Proof.
  intros [K W Hnd (sm & lq & Hm & Hv & Hq & Hval & Hz & Hcnt & Hl & Hg & Hinj)] En Hnw E.
  destruct (kinv_my_queue NCPU _ K) as [xs Hxs].
  destruct (step_spec NCPU C _ l xs K En Hxs) as (k' & E' & K' & _). rewrite E in E'. injection E' as <-.
  split; cbn [st ups completed pending sk set_sk]; [done|exact W|done|]. exists sm, lq. cbn [sems wqs waits set_sk].
  split_and!; try done; try lia. intros w Hw. destruct (Hl w Hw) as (Hwp & x & Hx & Hsl). split; [done|]. exists x. split; [done|].
  exact (exec_sleeper NCPU C (sk (st g)) l k (wproc x) WT_KSEM K En (Hnw w x Hwp Hx) E Hsl).
Qed.

Inductive sem_steps : sys -> sys -> Prop :=
| ss_refl g : sem_steps g g
| ss_step g g1 g2 : sem_steps g g1 -> sem_step g1 g2 -> sem_steps g g2.

Lemma sem_step_inv g g' : sem_inv g -> 0 <= completed g -> sem_step g g' -> sem_inv g' /\ 0 <= completed g'.
Proof.
  intros V Hc H. destruct H as [g w s' p Hp Hf E|g w s' p Hp Hf E|g w x s' Hw Hx Hp E|g s' Ho E|g b s' E|g l k En Hn E].
  - destruct (enter_spec g w p V Hp Hf) as (b & s2 & E2 & V'). rewrite E in E2. injection E2 as <- <-.
    split; [exact V'|cbn; lia].
  - destruct (enter_spec g w p V Hp Hf) as (b & s2 & E2 & V'). rewrite E in E2. injection E2 as <- <-.
    rewrite Z.add_0_r in V'. split; [exact V'|cbn; lia].
  - destruct (leave_spec g w x V Hw Hx Hp) as (s2 & E2 & V'). rewrite E in E2. injection E2 as <-. split; [done|cbn; lia].
  - destruct (up_spec g V Ho Hc) as (s2 & E2 & V' & _). rewrite E in E2. injection E2 as <-. split; [done|cbn; lia].
  - destruct (try_spec g V) as (b2 & s2 & E2 & V'). rewrite E in E2. injection E2 as <- <-. split; [done|cbn]. destruct b; lia.
  - split; [by eapply sched_step_spec|cbn; lia].
Qed.

Lemma sem_steps_inv g g' : sem_steps g g' -> sem_inv g -> 0 <= completed g -> sem_inv g' /\ 0 <= completed g'.
Proof.
  induction 1 as [|g g1 g2 _ IH Hs]; [done|]. intros V Hc. destruct (IH V Hc). by eapply sem_step_inv.
Qed.
End system.

(** ** The theorems about kernel semaphores *)

(** A semaphore just initialised to [v0] on an idle synchronisation layer. *)
Definition sem_start (NCPU m v0 : Z) (s : sync) : Prop :=
  kinv NCPU (sk s) /\ winv s /\ wqs s !! m = Some [] /\ 0 <= v0 < 2 ^ 31 /\
  exists sm, sems s !! m = Some sm /\ value sm = v0 /\ valid sm = true.

Lemma sem_start_inv NCPU m v0 s : sem_start NCPU m v0 s -> sem_inv NCPU m v0 (Sys s 0 0 []).
Proof.
  intros (K & W & Hq & Hv & sm & Hm & Hval & Hvd). split; cbn [st ups completed pending]; [done|done|by constructor|].
  exists sm, []. split; [done|]. split; [done|]. split; [done|]. split; [lia|]. split; [done|]. split; [cbn; lia|].
  split_and!; [by intros ? ?%not_elem_of_nil..|by intros ? ? ? ? ?%not_elem_of_nil].
Qed.

(** C19: the semaphore counts: along every interleaving of [down], [up],
    [try_down], wakeups of processes that are not inside [down], clock ticks and context switches by any number of
    processes, the [down]s that got through never exceed the initial value plus
    the [up]s; the value is never negative, and it is zero while anybody waits;
    what is missing is exactly the sleepers an [up] has released and who did not
    run yet. *)
Theorem sem_safety NCPU C `{!SchedClass C} m v0 s g :
  sem_start NCPU m v0 s -> sem_steps NCPU C m v0 (Sys s 0 0 []) g ->
  completed g <= v0 + ups g /\ kinv NCPU (sk (st g)) /\
  exists sm l, sems (st g) !! m = Some sm /\ wqs (st g) !! m = Some l /\ 0 <= value sm /\
    (l <> [] -> value sm = 0) /\
    value sm + completed g + Z.of_nat (length (granted l (pending g))) = v0 + ups g.
Proof.
  intros H0 Hst. destruct (sem_steps_inv NCPU C m v0 _ _ Hst (sem_start_inv _ _ _ _ H0) ltac:(done))
    as [[K W _ (sm & l & Hm & _ & Hq & Hv & Hz & Hc & _)] _].
  split; [lia|]. split; [done|]. exists sm, l. split_and!; try done; lia.
Qed.

(** C28: as long as only the semaphore wakes those who sleep in [down] on it (a SIGKILL
    does too, and then an assertion fails: [down_killed_panics]), no interleaving gets a
    kernel semaphore stuck or trips an assertion: in every state reached [up] and [try_down] run to completion, so does
    [down] of the running process up to its return or its call of [schedule],
    and so does the rest of [down] once the process runs again; an [up] on a
    semaphore with sleepers makes the one that came first runnable and passes
    the semaphore on to it without touching the value. *)
Theorem sem_progress NCPU C `{!SchedClass C} m v0 s g :
  sem_start NCPU m v0 s -> sem_steps NCPU C m v0 (Sys s 0 0 []) g ->
  (v0 + ups g < 2 ^ 31 - 1 -> exists s', up NCPU C m (st g) = Ok (tt, s') /\
     forall w l x, wqs (st g) !! m = Some (w :: l) -> waits (st g) !! w = Some x ->
       wqs s' !! m = Some l /\ runnable (sk s') (wproc x) /\ sems s' = sems (st g)) /\
  (exists b s', try_down m (st g) = Ok (b, s')) /\
  (forall w p, my_process NCPU (sk (st g)) p -> fresh g w -> exists b s', down_enter NCPU C m w (st g) = Ok (b, s')) /\
  (forall w x, w ∈ pending g -> waits (st g) !! w = Some x -> my_process NCPU (sk (st g)) (wproc x) ->
     exists s', down_leave m w (st g) = Ok (tt, s')).
Proof.
  intros H0 Hst. destruct (sem_steps_inv NCPU C m v0 _ _ Hst (sem_start_inv _ _ _ _ H0) ltac:(done)) as [V Hc].
  split_and!.
  - intros Ho. destruct (up_spec NCPU C m v0 g V Ho Hc) as (s' & E & _ & Hf). eauto.
  - destruct (try_spec NCPU m v0 g V) as (b & s' & E & _). eauto.
  - intros w p Hp Hf. destruct (enter_spec NCPU C m v0 g w p V Hp Hf) as (b & s' & E & _). eauto.
  - intros w x Hw Hx Hp. destruct (leave_spec NCPU m v0 g w x V Hw Hx Hp) as (s' & E & _). eauto.
Qed.

(** A user semaphore panics the kernel after a timeout: when the first
    sleeper of the queue has been woken by its timer (or by a signal) and did
    not run yet, it is still linked with its wait state already cleared, and the
    next [usem_up] fails [assert(wait->proc->wait_state == wait_state)]. *)
Theorem up_after_timeout_panics NCPU C `{!SchedClass C} s m sm w l x :
  kinv NCPU (sk s) -> sems s !! m = Some sm -> valid sm = true ->
  wqs s !! m = Some (w :: l) -> waits s !! w = Some x -> asleep NCPU (sk s) (wproc x) WT_USEM ->
  exists k, wakeup_proc NCPU C (wproc x) (sk s) = Ok (tt, k) /\ usem_up NCPU C m (set_sk k s) = Err AssertFailed.
Proof.
  intros (I & Hlk & Hin) Hm Hv Hq Hx Ha.
  destruct (wakeup_proc_spec NCPU C (sk s) (wproc x) I (asleep_wakeable NCPU _ _ _ Ha)) as (k & E & Wk & _).
  exists k. split; [done|]. destruct (woken_frame _ _ _ Wk) as (_ & _ & Fl & _). destruct (woken_procs _ _ _ Wk) as (_ & pr & Hp & Hst & Hws).
  unfold usem_up. apply bind_err. unfold __up. set (s1 := set_sk k s). mstep (rd_sem_spec m sm s1 Hm). massert; [|done].
  mstep (sem_lock m s1 ltac:(cbn [sk set_sk s1]; congruence)). set (s2 := locked m s1).
  assert (E1 : wait_queue_first m s2 = Ok (Some w, s2)) by (unfold wait_queue_first; by mstep (rd_wq_spec m (w :: l) s2 Hq)).
  mstep E1. apply bind_err. mstep (rd_wait_spec w x s2 Hx).
  mstep (lift_spec (rd_proc (wproc x)) s2 pr (sk s2) (rd_proc_spec (wproc x) pr (sk s2) Hp)).
  apply bind_err. destruct Ha as (_ & pr0 & Hp0 & Hs0 & _). destruct Hws as [Heq|Hws]; [congruence|].
  unfold kassert. by rewrite Hws.
Qed.

(** A sleeper in [down] that anything but an [up] made run again (a SIGKILL does, through
    [signal_wakeup]) is still in the queue and panics the kernel: [assert(flags == 0)]. *)
Theorem down_killed_panics s m w l x :
  locks (sk s) = [] -> wqs s !! m = Some l -> w ∈ l -> waits s !! w = Some x -> wqueue x = Some m ->
  wakeup_flags x = WT_INTERRUPTED -> down_leave m w s = Err AssertFailed.
Proof.
  intros Hlk Hq Hw Hx Hxq Hfl. unfold down_leave, __down_leave. cbn [ipc_del_timer]. rewrite !bind_assoc_M.
  mstep (sem_lock m s Hlk). set (s1 := locked m s). rewrite bind_assoc_M, (bind_step (mret tt : M sync unit) _ s1 tt s1 eq_refl).
  assert (He : wait_link_empty w s1 = false) by (by apply (wait_link_empty_false m l)).
  set (s2 := set_wqs (<[m := filter (fun y => y <> w) l]> (wqs s1)) s1).
  assert (Ed : wait_current_del m w s1 = Ok (tt, s2)).
  { unfold wait_current_del, wait_in_queue. rewrite (bind_step _ _ s1 true s1).
    - by apply (wait_queue_del_spec s1 m l w x).
    - mstep (rd_wait_spec w x s1 Hx). rewrite Hxq, bind_gets. by rewrite He. }
  rewrite bind_assoc_M. mstep Ed. rewrite bind_assoc_M, (bind_step _ _ _ _ _ (sem_unlock m s2 eq_refl)).
  rewrite bind_assoc_M, (bind_step _ _ _ _ _ (rd_wait_spec w x (set_sk (set_locks [] (sk s2)) s2) Hx)), Hfl. reflexivity.
Qed.

(** ** Reference counts of the user semaphores *)

Section refs.
Implicit Types s : sync.

Definition refcount s (m : Z) : nat := size (filter (fun um : Z * Z => um.2 = m) (semus s)).

(** Every entry refers to a live semaphore, whose [count] is the number of its entries. *)
Definition refs s : Prop :=
  forall u m, semus s !! u = Some m -> exists sm, sems s !! m = Some sm /\ count sm = Z.of_nat (refcount s m).

Lemma refcount_le s m : (refcount s m <= size (semus s))%nat.
Proof. apply map_subseteq_size, map_filter_subseteq. Qed.

Lemma refcount_delete s u m m' : semus s !! u = Some m ->
  size (filter (fun um : Z * Z => um.2 = m') (delete u (semus s))) = (if decide (m' = m) then refcount s m' - 1 else refcount s m')%nat.
Proof.
  intros Hu. unfold refcount. rewrite map_filter_delete. destruct (decide (m' = m)) as [->|Hne].
  - rewrite map_size_delete_Some; [lia|]. exists m. by apply map_lookup_filter_Some.
  - rewrite delete_id; [done|]. apply map_lookup_filter_None. right. intros x Hx. rewrite Hu in Hx. injection Hx as <-. cbn. congruence.
Qed.

Lemma refcount_pos s u m : semus s !! u = Some m -> (0 < refcount s m)%nat.
Proof.
  intros Hu. unfold refcount. destruct (size (filter _ (semus s))) eqn:E; [|lia].
  apply map_size_empty_iff in E. assert (H : filter (fun um : Z * Z => um.2 = m) (semus s) !! u = Some m)
    by (by apply map_lookup_filter_Some). rewrite E in H. by rewrite lookup_empty in H.
Qed.

Lemma refcount_ex s m : refcount s m <> O -> exists u, semus s !! u = Some m.
Proof.
  intros H. apply map_size_ne_0_lookup in H as (u & x & Hu). apply map_lookup_filter_Some in Hu as [Hu Hx]. cbn in Hx. subst. by exists u.
Qed.

(** What [semu_destroy] leaves. *)
Definition destroyed s (u m : Z) (sm : semaphore) : sync :=
  set_semus (delete u (semus s)) (set_sems
    (if decide (refcount s m = 1%nat) then delete m (sems s) else <[m := Sem (value sm) (valid sm) (count sm - 1)]> (sems s)) s).

Lemma semu_destroy_spec s u m sm : refs s -> (Z.of_nat (size (semus s)) < 2 ^ 31) ->
  semus s !! u = Some m -> sems s !! m = Some sm ->
  semu_destroy u s = Ok (tt, destroyed s u m sm) /\ refs (destroyed s u m sm).
Proof.
  intros R Hsz Hu Hm. destruct (R u m Hu) as (sm' & Hm' & Hc). rewrite Hm in Hm'. injection Hm' as <-.
  pose proof (refcount_pos s u m Hu). pose proof (refcount_le s m). split.
  - unfold semu_destroy. rewrite (bind_step _ _ s m s) by (unfold load; by rewrite Hu).
    mstep (upd_sem_spec m (fun x => Sem (value x) (valid x) (s32 (count x - 1))) sm s Hm).
    rewrite (smod_small 32) by (unfold is_s; simpl; lia). set (s1 := set_sems _ s).
    assert (Hm1 : sems s1 !! m = Some (Sem (value sm) (valid sm) (count sm - 1))) by apply lookup_insert_eq.
    mstep (rd_sem_spec m _ s1 Hm1). cbn [count]. unfold destroyed.
    destruct (Z.eqb_spec (count sm - 1) 0); [rewrite decide_True by lia|by rewrite decide_False by lia].
    unfold mbind, M_bind, modify, s1, set_semus, set_sems. cbn. by rewrite delete_insert_eq.
  - intros u' m' Hu'. cbn [semus destroyed set_semus] in Hu'. apply lookup_delete_Some in Hu' as [Hne Hu'].
    unfold refcount. cbn [semus destroyed set_semus sems set_sems]. rewrite (refcount_delete s u m m' Hu).
    destruct (R u' m' Hu') as (sm' & Hm' & Hc'). destruct (decide (m' = m)) as [->|Hm2].
    + assert (Hr : (1 < refcount s m)%nat).
      { pose proof (refcount_delete s u m m Hu) as Hd. rewrite decide_True in Hd by done.
        pose proof (refcount_pos (set_semus (delete u (semus s)) s) u' m) as Hp.
        unfold refcount in Hp at 1. cbn [semus set_semus] in Hp. rewrite Hd in Hp. specialize (Hp ltac:(by rewrite lookup_delete_ne)). lia. }
      rewrite decide_False by lia. rewrite lookup_insert_eq. eexists; split; [done|]. cbn [count]. lia.
    + exists sm'. split; [|done]. destruct (decide _); [by rewrite lookup_delete_ne|by rewrite lookup_insert_ne].
Qed.

(** The state after the entries [l] of queue [q] were destroyed. *)
Record exited s (q : Z) (l : list Z) s' : Prop := {
  ex_refs : refs s';
  ex_list : exists n, semqs s' !! q = Some (SemQueue n []);
  ex_semus : forall u, semus s' !! u = if decide (u ∈ l) then None else semus s !! u;
  ex_mono : forall m, sems s !! m = None -> sems s' !! m = None;
  ex_live : forall m, sems s' !! m = None -> sems s !! m = None \/ forall u, semus s' !! u <> Some m;
  ex_free : forall u m, u ∈ l -> semus s !! u = Some m -> (forall u', semus s' !! u' <> Some m) -> sems s' !! m = None }.

Lemma exit_loop_spec q n l : forall s fuel,
  refs s -> Z.of_nat (size (semus s)) < 2 ^ 31 -> semqs s !! q = Some (SemQueue n l) -> NoDup l ->
  (forall u, u ∈ l -> is_Some (semus s !! u)) -> (length l < fuel)%nat ->
  exists s', exit_loop fuel q s = Ok (tt, s') /\ exited s q l s'.
Proof.
  induction l as [|u l IH]; intros s fuel R Hsz Hq Hnd Hin Hf; (destruct fuel as [|fuel]; [simpl in Hf; lia|]);
    cbn [exit_loop]; (rewrite (bind_step _ _ s _ s) by (unfold rd_semq, load; by rewrite Hq)); cbn [semu_list].
  { exists s. split; [done|]. split; [done|by eexists|done|done|by left|by intros ? ? ?%not_elem_of_nil]. }
  apply list.NoDup_cons in Hnd as [Hul Hnd]. destruct (Hin u ltac:(left)) as [m Hu]. destruct (R u m Hu) as (sm & Hm & Hc).
  rewrite (bind_step _ _ s tt (set_semqs (<[q := SemQueue n l]> (semqs s)) s)) by (unfold set_semu_list; by rewrite Hq).
  set (s1 := set_semqs _ s). destruct (semu_destroy_spec s1 u m sm R Hsz Hu Hm) as [E R2]. mstep E.
  set (s2 := destroyed s1 u m sm) in *.
  destruct (IH s2 fuel R2) as (s' & E' & X); [| |done| |simpl in Hf; lia|].
  { assert (size (delete u (semus s)) <= size (semus s))%nat by apply map_subseteq_size, delete_subseteq.
    cbn [semus s2 destroyed set_semus s1 set_semqs]. lia. }
  { apply lookup_insert_eq. }
  { intros u' Hu'. cbn [semus s2 destroyed set_semus s1 set_semqs]. rewrite lookup_delete_ne by (by intros ->). apply Hin. by right. }
  exists s'. split; [exact E'|]. destruct X as [X1 X2 X3 X0 X4 X5]. split; [done|done| | | |].
  - intros u'. rewrite X3. cbn [semus s2 destroyed set_semus s1 set_semqs]. destruct (decide (u' = u)) as [->|Hne].
    + rewrite lookup_delete_eq. rewrite (decide_True (P := u ∈ u :: l)) by left. by destruct (decide _).
    + rewrite lookup_delete_ne by done. destruct (decide (u' ∈ l)), (decide (u' ∈ u :: l)); set_solver.
  - intros m' Hm'. apply X0. cbn [sems s2 destroyed set_semus set_sems s1 set_semqs]. assert (m' <> m) by congruence.
    destruct (decide _); [by rewrite lookup_delete_ne|by rewrite lookup_insert_ne].
  - intros m' Hm'. destruct (X4 m' Hm') as [Hn|Hn]; [|by right]. cbn [sems s2 destroyed set_semus set_sems s1 set_semqs] in Hn.
    destruct (decide (m' = m)) as [->|Hne].
    + right. intros u' Hu'. destruct (decide (refcount s1 m = 1%nat)) as [H1|H1]; [|by rewrite lookup_insert_eq in Hn].
      rewrite X3 in Hu'. destruct (decide (u' ∈ l)); [done|].
      destruct (R2 u' m Hu') as (sm' & Hs' & _). cbn [sems s2 destroyed set_semus set_sems] in Hs'.
      rewrite decide_True in Hs' by done. by rewrite lookup_delete_eq in Hs'.
    + left. destruct (decide _); [by rewrite lookup_delete_ne in Hn|by rewrite lookup_insert_ne in Hn].
  - intros u' m' Hu' Hm' Hno. destruct (sems s' !! m') as [sm'|] eqn:Es; [exfalso|done].
    destruct (decide (u' ∈ l)) as [Hl|Hl].
    + rewrite (X5 u' m') in Es; try done. cbn [semus s2 destroyed set_semus s1 set_semqs].
      rewrite lookup_delete_ne by (by intros ->). done.
    + assert (u' = u) as -> by set_solver. assert (m' = m) as -> by congruence. clear Hu' Hl Hm'.
      destruct (decide (refcount s1 m = 1%nat)) as [H1|H1].
      * rewrite X0 in Es; [done|]. cbn [sems s2 destroyed set_semus set_sems]. rewrite decide_True by done. apply lookup_delete_eq.
      * destruct (refcount_ex s2 m) as (u' & Hu').
        { pose proof (refcount_delete s1 u m m Hu) as Hd. rewrite decide_True in Hd by done.
          pose proof (refcount_pos s1 u m Hu). unfold refcount at 1. cbn [semus s2 destroyed set_semus]. lia. }
        destruct (decide (u' ∈ l)) as [Hl|Hl]; [by rewrite (X5 u' m) in Es|].
        apply (Hno u'). rewrite X3. by rewrite decide_False.
Qed.
End refs.

(** When a process group gives up its semaphores ([exit_sem_queue]), every
    entry of its list is destroyed and a semaphore is freed exactly when the
    last entry of any process that refers to it is gone: nothing leaks, no
    surviving entry dangles, and the counters stay exact. *)
Theorem exit_sem_queue_correct s q l :
  refs s -> Z.of_nat (size (semus s)) < 2 ^ 31 -> semqs s !! q = Some (SemQueue 0 l) -> NoDup l ->
  (forall u, u ∈ l -> is_Some (semus s !! u)) ->
  exists s', exit_sem_queue q s = Ok (tt, s') /\ exited s q l s'.
Proof.
  intros R Hsz Hq Hnd Hin. unfold exit_sem_queue. rewrite (bind_step _ _ s _ s) by (unfold rd_semq, load; by rewrite Hq).
  massert; [|done]. cbn [semu_list]. apply (exit_loop_spec q 0 l s); try done. lia.
Qed.

(** ** Concrete runs *)

Definition ex_sem0 : sync := Sync ex_sched ∅ {[ 50 := [] ]} {[ 50 := Sem 1 true 0 ]} ∅ ∅ ∅ 0.
Definition run_or {A} (m : M sync A) (s : sync) : sync := match m s with Ok (_, s') => s' | Err _ => s end.
Definition ex_sem1 : sync := run_or (down_enter 1 RR_sched_class 50 100) ex_sem0.
Definition ex_sem2 : sync := run_or (down_enter 1 RR_sched_class 50 100) ex_sem1.
Definition ex_sem3 : sync := run_or (up 1 RR_sched_class 50) ex_sem2.

Lemma ex_sem_run1 : down_enter 1 RR_sched_class 50 100 ex_sem0 = Ok (true, ex_sem1).
Proof. vm_compute. reflexivity. Qed.
Lemma ex_sem_run2 : down_enter 1 RR_sched_class 50 100 ex_sem1 = Ok (false, ex_sem2).
Proof. vm_compute. reflexivity. Qed.
Lemma ex_sem_run3 : up 1 RR_sched_class 50 ex_sem2 = Ok (tt, ex_sem3).
Proof. vm_compute. reflexivity. Qed.

Lemma ex_sem_wqs : wqs ex_sem1 = {[ 50 := [] ]}.
Proof. vm_compute. reflexivity. Qed.

Lemma ex_sem_mine s : sk s = ex_sched -> my_process 1 (sk s) 1.
Proof. intros ->. eexists _, _. by split_and!. Qed.
Lemma ex_sem_sk : sk ex_sem1 = ex_sched.
Proof. vm_compute. reflexivity. Qed.

Lemma ex_sem_start : sem_start 1 50 1 ex_sem0.
Proof.
  split; [exact ex_sched_kinv|]. split; [|split; [reflexivity|split; [lia|eexists; split; [reflexivity|by split]]]].
  intros q l. cbn [wqs ex_sem0]. intros [<- <-]%lookup_singleton_Some. split; [by constructor|by intros w ?%not_elem_of_nil].
Qed.

Lemma ex_sem_steps : sem_steps 1 RR_sched_class 50 1 (Sys ex_sem0 0 0 []) (Sys ex_sem3 1 1 [100]).
Proof.
  assert (Hf : forall s, wqs s = {[ 50 := [] ]} -> fresh (Sys s 0 0 []) 100 /\ fresh (Sys s 0 1 []) 100).
  { intros s Hs. split; (split; [apply not_elem_of_nil|]); cbn [st]; rewrite Hs; intros q l [<- <-]%lookup_singleton_Some; apply not_elem_of_nil. }
  eapply ss_step; [eapply ss_step; [eapply ss_step; [apply ss_refl|]|]|].
  - apply (step_down 1 RR_sched_class 50 1 (Sys ex_sem0 0 0 []) 100 ex_sem1 1);
      [by apply ex_sem_mine|by apply Hf|exact ex_sem_run1].
  - apply (step_block 1 RR_sched_class 50 1 (Sys ex_sem1 0 1 []) 100 ex_sem2 1);
      [apply ex_sem_mine, ex_sem_sk|apply Hf, ex_sem_wqs|exact ex_sem_run2].
  - apply (step_up 1 RR_sched_class 50 1 (Sys ex_sem2 0 1 [100]) ex_sem3); [cbn; lia|exact ex_sem_run3].
Qed.

Lemma sem_safety_witness :
  1 <= 1 + 1 /\ kinv 1 (sk ex_sem3) /\
  exists sm l, sems ex_sem3 !! 50 = Some sm /\ wqs ex_sem3 !! 50 = Some l /\ 0 <= value sm /\
    (l <> [] -> value sm = 0) /\ value sm + 1 + Z.of_nat (length (granted l [100])) = 1 + 1.
Proof. exact (sem_safety 1 RR_sched_class 50 1 ex_sem0 (Sys ex_sem3 1 1 [100]) ex_sem_start ex_sem_steps). Defined.

Lemma sem_progress_witness : exists b s', try_down 50 ex_sem3 = Ok (b, s').
Proof.
  exact (proj1 (proj2 (sem_progress 1 RR_sched_class 50 1 ex_sem0 (Sys ex_sem3 1 1 [100]) ex_sem_start ex_sem_steps))).
Defined.

(** Process 4 sleeps on semaphore 50 with record 100. *)
Definition ex_usem : sync :=
  Sync (set_procs (<[4 := with_wait WT_USEM (ex_proc PROC_SLEEPING 4 0 None)]> (procs ex_sched)) ex_sched)
    {[ 100 := Wait 4 WT_INTERRUPTED (Some 50) ]} {[ 50 := [100] ]} {[ 50 := Sem 0 true 1 ]} ∅ ∅ ∅ 0.

Lemma ex_usem_kinv : kinv 1 (sk ex_usem).
Proof.
  split; [|done]. apply (sinv_upd 1 ex_sched 4 (ex_proc PROC_SLEEPING 4 0 None));
    [exact ex_sched_inv|reflexivity|reflexivity|cbn; lia|done|right; done].
Qed.

Lemma down_killed_panics_witness : down_leave 50 100 ex_usem = Err AssertFailed.
Proof. apply (down_killed_panics ex_usem 50 100 [100] (Wait 4 WT_INTERRUPTED (Some 50))); [reflexivity|reflexivity|by left|reflexivity..]. Defined.

Lemma up_after_timeout_panics_witness :
  exists k, wakeup_proc 1 RR_sched_class 4 (sk ex_usem) = Ok (tt, k) /\
    usem_up 1 RR_sched_class 50 (set_sk k ex_usem) = Err AssertFailed.
Proof.
  apply (up_after_timeout_panics 1 RR_sched_class ex_usem 50 (Sem 0 true 1) 100 [] (Wait 4 WT_INTERRUPTED (Some 50)));
    [exact ex_usem_kinv|reflexivity..|].
  split; [by intros i c [-> ->]%ex_sched_cpu|]. eexists. split; [reflexivity|]. by split_and!.
Defined.

(** Two processes share semaphore 10; the list [20] of one of them goes away. *)
Definition ex_semq : sync := Sync ex_sched ∅ ∅ {[ 10 := Sem 0 true 2 ]} ∅ {[ 1 := 10; 2 := 10 ]} {[ 20 := SemQueue 0 [1] ]} 0.

Lemma exit_sem_queue_correct_witness : exists s', exit_sem_queue 20 ex_semq = Ok (tt, s') /\ exited ex_semq 20 [1] s'.
Proof.
  apply (exit_sem_queue_correct ex_semq 20 [1]).
  - intros u m. cbn [semus ex_semq]. intros [[_ <-]|[_ [_ <-]%lookup_singleton_Some]]%lookup_insert_Some;
      eexists; (split; [reflexivity|vm_compute; reflexivity]).
  - vm_compute. reflexivity.
  - reflexivity.
  - apply NoDup_singleton.
  - intros u ->%list_elem_of_singleton. by eexists.
Defined.
