(* ===== verification/RbTree.v ===== *)
(** * RbTree: red-black trees (libs/rb_tree.c)

    The nodes of a tree are objects of a heap; [tnil] is the sentinel that
    stands for every leaf and [troot] the sentinel whose left child is the root
    of the tree.  The macros of the C file are instantiated once for each
    direction; here the direction is an argument. *)

From stdpp Require Import numbers gmap sorting list.
From S2P Require Import Prelude.
Local Open Scope Z_scope.

Record rb_node := RbNode { red : bool; parent : Z; left : Z; right : Z }.
Record rbt := Rbt { nodes : gmap Z rb_node; tnil : Z; troot : Z }.

Inductive dir := L | R.
Definition opp (d : dir) : dir := match d with L => R | R => L end.

#[export] Instance dir_eq_dec : EqDecision dir.
Proof. solve_decision. Defined.

Definition child (d : dir) (n : rb_node) : Z := match d with L => left n | R => right n end.
Definition with_child (d : dir) (v : Z) (n : rb_node) : rb_node :=
  match d with L => RbNode (red n) (parent n) v (right n) | R => RbNode (red n) (parent n) (left n) v end.
Definition with_up (v : Z) (n : rb_node) : rb_node := RbNode (red n) v (left n) (right n).
Definition with_red (v : bool) (n : rb_node) : rb_node := RbNode v (parent n) (left n) (right n).

Definition set_nodes (m : gmap Z rb_node) (s : rbt) : rbt := Rbt m (tnil s) (troot s).
Definition rd (x : Z) : M rbt rb_node := load (fun s => nodes s !! x).
Definition upd (x : Z) (f : rb_node -> rb_node) : M rbt unit := fun s =>
  match nodes s !! x with Some n => Ok (tt, set_nodes (<[x := f n]> (nodes s)) s) | None => Err BadAccess end.

(** ** Creation and inspection *)

Definition rb_tree_empty : M rbt bool := r ← gets troot; n ← gets tnil; x ← rd r; mret (left x =? n).

(** [a], [n], [r]: the results of the three allocations. *)
Definition rb_tree_create (a : bool) (n r : option Z) : option rbt :=
  if a then
    n ← n; r ← r;
    Some (Rbt (<[r := RbNode false n n n]> {[ n := RbNode false n n n ]}) n r)
  else None.

Definition not_nil (x : Z) : M rbt (option Z) := n ← gets tnil; mret (if x =? n then None else Some x).
Definition rb_node_root : M rbt (option Z) := r ← gets troot; x ← rd r; not_nil (left x).
Definition rb_node_left (x : Z) : M rbt (option Z) := nx ← rd x; not_nil (left nx).
Definition rb_node_right (x : Z) : M rbt (option Z) := nx ← rd x; not_nil (right nx).

(** ** Rotation: [FUNC_ROTATE(_, _left, _right)] with [_left] the direction [d] *)

Definition rb_rotate (d : dir) (x : Z) : M rbt unit :=
  n ← gets tnil;
  r ← gets troot;
  nx ← rd x;
  let y := child (opp d) nx in
  _ ← kassert (negb (x =? r) && negb (x =? n) && negb (y =? n));
  ny ← rd y;
  _ ← upd x (with_child (opp d) (child d ny));
  _ ← (if negb (child d ny =? n) then upd (child d ny) (with_up x) else mret tt);
  nx ← rd x;
  _ ← upd y (with_up (parent nx));
  np ← rd (parent nx);
  _ ← (if x =? child d np then upd (parent nx) (with_child d y) else upd (parent nx) (with_child (opp d) y));
  _ ← upd y (with_child d x);
  _ ← upd x (with_up y);
  nn ← rd n;
  kassert (negb (red nn)).

Definition uparent (x : Z) : M rbt Z := nx ← rd x; mret (parent nx).

(** ** Insertion *)

Section compare.
Context (compare : Z -> Z -> Z).

(** The descent: the parent of the new node. *)
Fixpoint insert_descend (fuel : nat) (y x z : Z) : M rbt Z :=
  match fuel with
  | O => fail OutOfFuel
  | S fuel' =>
      n ← gets tnil;
      if x =? n then mret y
      else nx ← rd x; insert_descend fuel' x (if 0 <? compare x z then left nx else right nx) z
  end.

Definition rb_insert_binary (z : Z) : M rbt unit :=
  n ← gets tnil;
  r ← gets troot;
  _ ← upd z (fun x => RbNode (red x) (parent x) n n);
  nr ← rd r;
  k ← gets (fun s => size (nodes s));
  y ← insert_descend (S k) r (left nr) z;
  _ ← upd z (with_up y);
  if (y =? r) || (0 <? compare y z) then upd y (with_child L z) else upd y (with_child R z).

(** [RB_INSERT_SUB]: the node to go on with; its last three statements first. *)
Definition insert_rotate (d : dir) (x : Z) : M rbt Z :=
  p ← uparent x;
  _ ← upd p (with_red false);
  p ← uparent x;
  g ← uparent p;
  _ ← upd g (with_red true);
  p ← uparent x;
  g ← uparent p;
  _ ← rb_rotate (opp d) g;
  mret x.

Definition insert_sub (d : dir) (x : Z) : M rbt Z :=
  p ← uparent x;
  g ← uparent p;
  ng ← rd g;
  let y := child (opp d) ng in
  ny ← rd y;
  if red ny then
    _ ← upd p (with_red false);
    _ ← upd y (with_red false);
    p ← uparent x;
    g ← uparent p;
    _ ← upd g (with_red true);
    mret g
  else
    np ← rd p;
    x ← (if x =? child (opp d) np then _ ← rb_rotate d p; mret p else mret x);
    insert_rotate d x.

Fixpoint insert_fixup (fuel : nat) (x : Z) : M rbt unit :=
  match fuel with
  | O => fail OutOfFuel
  | S fuel' =>
      p ← uparent x;
      np ← rd p;
      if red np then
        ng ← rd (parent np);
        x' ← insert_sub (if p =? left ng then L else R) x;
        insert_fixup fuel' x'
      else mret tt
  end.

Definition rb_insert (z : Z) : M rbt unit :=
  _ ← rb_insert_binary z;
  _ ← upd z (with_red true);
  k ← gets (fun s => size (nodes s));
  _ ← insert_fixup (S k) z;
  r ← gets troot;
  nr ← rd r;
  _ ← upd (left nr) (with_red false);
  n ← gets tnil;
  nn ← rd n;
  nr ← rd r;
  kassert (negb (red nn) && negb (red nr)).
End compare.

(** ** Search and neighbours *)

(** [cmp]: the comparison of a node with the key looked for. *)
Fixpoint search_loop (fuel : nat) (cmp : Z -> Z) (x : Z) : M rbt (option Z) :=
  match fuel with
  | O => fail OutOfFuel
  | S fuel' =>
      n ← gets tnil;
      if x =? n then mret None
      else if cmp x =? 0 then mret (Some x)
      else nx ← rd x; search_loop fuel' cmp (if 0 <? cmp x then left nx else right nx)
  end.
Definition rb_search (cmp : Z -> Z) : M rbt (option Z) :=
  r ← gets troot; nr ← rd r; k ← gets (fun s => size (nodes s)); search_loop (S k) cmp (left nr).

(** To the end of the children in direction [d]. *)
Fixpoint descend (fuel : nat) (d : dir) (y : Z) : M rbt Z :=
  match fuel with
  | O => fail OutOfFuel
  | S fuel' =>
      n ← gets tnil;
      ny ← rd y;
      if child d ny =? n then mret y else descend fuel' d (child d ny)
  end.

Fixpoint climb_succ (fuel : nat) (x y : Z) : M rbt Z :=
  match fuel with
  | O => fail OutOfFuel
  | S fuel' => ny ← rd y; if x =? right ny then climb_succ fuel' y (parent ny) else mret y
  end.
Definition rb_tree_successor (x : Z) : M rbt Z :=
  n ← gets tnil;
  nx ← rd x;
  k ← gets (fun s => size (nodes s));
  if negb (right nx =? n) then descend (S k) L (right nx)
  else
    y ← climb_succ (S k) x (parent nx);
    r ← gets troot;
    mret (if y =? r then n else y).

Fixpoint climb_pred (fuel : nat) (x y : Z) : M rbt Z :=
  match fuel with
  | O => fail OutOfFuel
  | S fuel' =>
      ny ← rd y;
      if x =? left ny then
        r ← gets troot;
        if y =? r then gets tnil else climb_pred fuel' y (parent ny)
      else mret y
  end.
Definition rb_tree_predecessor (x : Z) : M rbt Z :=
  n ← gets tnil;
  nx ← rd x;
  k ← gets (fun s => size (nodes s));
  if negb (left nx =? n) then descend (S k) R (left nx) else climb_pred (S k) x (parent nx).

Definition rb_node_prev (x : Z) : M rbt (option Z) := p ← rb_tree_predecessor x; not_nil p.
Definition rb_node_next (x : Z) : M rbt (option Z) := p ← rb_tree_successor x; not_nil p.

(** ** Trees with a focus *)

(** The shape in memory; [T c x a b]: node [x], red when [c]. *)
Inductive tree := E | T (c : bool) (x : Z) (a b : tree).
(** A step of the path from the focus to the root: the focus is the child of
    [x] in direction [d], [a] is its sibling. *)
Inductive frame := Fr (d : dir) (c : bool) (x : Z) (a : tree).
Abbreviation ctx := (list frame).

#[export] Instance tree_eq_dec : EqDecision tree.
Proof. solve_decision. Defined.

Definition mk (d : dir) (c : bool) (x : Z) (a b : tree) : tree := match d with L => T c x a b | R => T c x b a end.
Definition mkn (d : dir) (c : bool) (p a b : Z) : rb_node := match d with L => RbNode c p a b | R => RbNode c p b a end.

Fixpoint elems (t : tree) : list Z := match t with E => [] | T _ x a b => elems a ++ x :: elems b end.
Fixpoint plug (cx : ctx) (t : tree) : tree :=
  match cx with [] => t | Fr d c x a :: cx' => plug cx' (mk d c x t a) end.
Definition root_of (n : Z) (t : tree) : Z := match t with E => n | T _ x _ _ => x end.
Definition up (r : Z) (cx : ctx) : Z := match cx with [] => r | Fr _ _ x _ :: _ => x end.

(** The elements before and after the focus. *)
Fixpoint before (cx : ctx) : list Z :=
  match cx with
  | [] => []
  | Fr L _ _ _ :: cx' => before cx'
  | Fr R _ x a :: cx' => before cx' ++ elems a ++ [x]
  end.
Fixpoint after (cx : ctx) : list Z :=
  match cx with
  | [] => []
  | Fr L _ x a :: cx' => x :: elems a ++ after cx'
  | Fr R _ _ _ :: cx' => after cx'
  end.

(** The nodes of [m] form the tree [t] below [p] and the path [cx] above [h]. *)
Fixpoint tree_at (m : gmap Z rb_node) (n p : Z) (t : tree) : Prop :=
  match t with
  | E => True
  | T c x a b => m !! x = Some (RbNode c p (root_of n a) (root_of n b)) /\ tree_at m n x a /\ tree_at m n x b
  end.
Fixpoint ctx_at (m : gmap Z rb_node) (n r : Z) (cx : ctx) (h : Z) : Prop :=
  match cx with
  | [] => m !! r = Some (RbNode false n h n)
  | Fr d c x a :: cx' => m !! x = Some (mkn d c (up r cx') h (root_of n a)) /\ tree_at m n x a /\ ctx_at m n r cx' x
  end.

Record rep (s : rbt) (cx : ctx) (t : tree) : Prop := {
  rep_nodup : NoDup (tnil s :: troot s :: elems (plug cx t));
  rep_nil : exists nn, nodes s !! tnil s = Some nn /\ red nn = false;
  rep_ctx : ctx_at (nodes s) (tnil s) (troot s) cx (root_of (tnil s) t);
  rep_tree : tree_at (nodes s) (tnil s) (up (troot s) cx) t }.

(** Only the nodes of [l] and the root sentinel may differ. *)
Definition framed (l : list Z) (s s' : rbt) : Prop :=
  tnil s' = tnil s /\ troot s' = troot s /\ forall z, z <> troot s -> z ∉ l -> nodes s' !! z = nodes s !! z.

Lemma framed_refl l s : framed l s s.
Proof. done. Qed.

Lemma framed_trans l s1 s2 s3 : framed l s1 s2 -> framed l s2 s3 -> framed l s1 s3.
Proof.
  intros (A1 & A2 & A3) (B1 & B2 & B3). split_and!; [congruence|congruence|]. intros z Hr Hz.
  rewrite B3, A3 by congruence. done.
Qed.

Lemma opp_opp d : opp (opp d) = d.
Proof. by destruct d. Qed.
Lemma mk_opp d c x a b : mk (opp d) c x b a = mk d c x a b.
Proof. by destruct d. Qed.
Lemma mkn_opp d c p a b : mkn (opp d) c p b a = mkn d c p a b.
Proof. by destruct d. Qed.
Lemma child_mkn d c p a b : child d (mkn d c p a b) = a.
Proof. by destruct d. Qed.
Lemma child_opp_mkn d c p a b : child (opp d) (mkn d c p a b) = b.
Proof. by destruct d. Qed.
Lemma with_child_mkn d c p a b v : with_child d v (mkn d c p a b) = mkn d c p v b.
Proof. by destruct d. Qed.
Lemma with_child_opp_mkn d c p a b v : with_child (opp d) v (mkn d c p a b) = mkn d c p a v.
Proof. by destruct d. Qed.
Lemma with_up_mkn d c p a b v : with_up v (mkn d c p a b) = mkn d c v a b.
Proof. by destruct d. Qed.
Lemma with_red_mkn d c p a b v : with_red v (mkn d c p a b) = mkn d v p a b.
Proof. by destruct d. Qed.
Lemma red_mkn d c p a b : red (mkn d c p a b) = c.
Proof. by destruct d. Qed.
Lemma parent_mkn d c p a b : parent (mkn d c p a b) = p.
Proof. by destruct d. Qed.
Lemma root_of_mk n d c x a b : root_of n (mk d c x a b) = x.
Proof. by destruct d. Qed.

Create HintDb rbt.
#[export] Hint Rewrite opp_opp mk_opp child_mkn child_opp_mkn with_child_mkn with_child_opp_mkn with_up_mkn with_red_mkn
  red_mkn parent_mkn root_of_mk : rbt.

Lemma tree_at_mk m n p d c x a b :
  tree_at m n p (mk d c x a b) <-> m !! x = Some (mkn d c p (root_of n a) (root_of n b)) /\ tree_at m n x a /\ tree_at m n x b.
Proof. destruct d; simpl; tauto. Qed.

Lemma elem_of_mk z d c x a b : z ∈ elems (mk d c x a b) <-> z = x \/ z ∈ elems a \/ z ∈ elems b.
Proof. destruct d; simpl; rewrite elem_of_app, elem_of_cons; tauto. Qed.

Lemma elems_plug cx t : elems (plug cx t) = before cx ++ elems t ++ after cx.
Proof.
  revert t. induction cx as [|[d c x a] cx IH]; intros t; [by rewrite app_nil_r|].
  cbn [plug]. rewrite IH. destruct d; simpl; by rewrite <- ?(assoc_L (++)).
Qed.

(** The elements of the path. *)
Definition celems (cx : ctx) : list Z := before cx ++ after cx.

Lemma elem_of_plug z cx t : z ∈ elems (plug cx t) <-> z ∈ celems cx \/ z ∈ elems t.
Proof. rewrite elems_plug. unfold celems. rewrite !elem_of_app. tauto. Qed.

Lemma elem_of_celems z d c x a cx : z ∈ celems (Fr d c x a :: cx) <-> z = x \/ z ∈ elems a \/ z ∈ celems cx.
Proof. unfold celems. destruct d; simpl; rewrite ?elem_of_app, ?elem_of_cons, ?elem_of_app, ?elem_of_nil; tauto. Qed.

Lemma up_cases r cx : up r cx = r \/ up r cx ∈ celems cx.
Proof. destruct cx as [|[d c x a] cx]; [by left|right]. apply elem_of_celems. by left. Qed.

Lemma tree_at_ext m m' n p t : (forall z, z ∈ elems t -> m' !! z = m !! z) -> tree_at m n p t -> tree_at m' n p t.
Proof.
  revert p. induction t as [|c x a IHa b IHb]; intros p Hm; [done|]. cbn [tree_at elems] in *. intros (Hx & Ha & Hb).
  split_and!; [rewrite Hm; [done|set_solver]|apply IHa; [set_solver|done]|apply IHb; [set_solver|done]].
Qed.

Lemma ctx_at_ext m m' n r cx h : (forall z, z = r \/ z ∈ celems cx -> m' !! z = m !! z) -> ctx_at m n r cx h -> ctx_at m' n r cx h.
Proof.
  revert h. induction cx as [|[d c x a] cx IH]; intros h Hm; cbn [ctx_at].
  { intros <-. apply Hm. by left. }
  intros (Hx & Ha & Hc). setoid_rewrite elem_of_celems in Hm. split_and!.
  - rewrite Hm; [done|tauto].
  - eapply tree_at_ext; [|done]. intros; apply Hm; tauto.
  - apply IH; [|done]. intros; apply Hm; tauto.
Qed.

(** Moving the focus. *)
Lemma rep_down s cx d c x a b : rep s cx (mk d c x a b) <-> rep s (Fr d c x b :: cx) a.
Proof.
  split.
  - intros [Hn Hi Hc Ht]. rewrite root_of_mk in Hc. apply tree_at_mk in Ht as (Hx & Ha & Hb). by split.
  - intros [Hn Hi (Hx & Hb & Hc) Ha]. split; [done|done|by rewrite root_of_mk|]. by apply tree_at_mk.
Qed.

Lemma rep_up s cx t : rep s cx t -> rep s [] (plug cx t).
Proof. revert t. induction cx as [|[d c x a] cx IH]; intros t H; [done|]. apply IH. by apply rep_down. Qed.

(** Sentinels, path and tree are disjoint. *)
Lemma rep_fresh s cx t : rep s cx t -> tnil s <> troot s /\ NoDup (elems t) /\
  (forall z, z ∈ elems t -> z <> tnil s /\ z <> troot s /\ z ∉ celems cx) /\
  (forall z, z ∈ celems cx -> z <> tnil s /\ z <> troot s /\ z ∉ elems t).
Proof.
  intros [Hn _ _ _]. rewrite elems_plug in Hn. apply NoDup_cons in Hn as [H1 Hn]. apply NoDup_cons in Hn as [H2 Hn].
  apply NoDup_app in Hn as (_ & H3 & Hn). apply NoDup_app in Hn as (Hn & H4 & _). unfold celems. set_solver.
Qed.

Lemma up_fresh s cx t : rep s cx t -> up (troot s) cx <> tnil s /\ up (troot s) cx ∉ elems t.
Proof.
  intros H. destruct (rep_fresh _ _ _ H) as (H1 & _ & H2 & H3). destruct (up_cases (troot s) cx) as [->|Hu].
  - split; [done|]. intros Hz. by destruct (H2 _ Hz) as (_ & ? & _).
  - by destruct (H3 _ Hu) as (? & ? & ?).
Qed.

(** The direction of the focus below its parent, and its siblings. *)
Definition hole (cx : ctx) : dir := match cx with [] => L | Fr d _ _ _ :: _ => d end.

Lemma up_node s cx t : rep s cx t -> exists c p a, nodes s !! up (troot s) cx = Some (mkn (hole cx) c p (root_of (tnil s) t) a) /\
  (a = tnil s \/ a ∉ elems t).
Proof.
  intros H. destruct cx as [|[d c x a] cx]; cbn [up hole].
  - exists false, (tnil s), (tnil s). split; [exact (rep_ctx _ _ _ H)|by left].
  - destruct (rep_ctx _ _ _ H) as (Hx & _). exists c, (up (troot s) cx), (root_of (tnil s) a). split; [done|].
    destruct a as [|c' y a1 a2]; [by left|right]. cbn [root_of]. destruct (rep_fresh _ _ _ H) as (_ & _ & _ & H3).
    apply H3, elem_of_celems. right; left. simpl. set_solver.
Qed.

(** The pointer to the focus is redirected. *)
Lemma ctx_redirect m m' n r cx h h' : ctx_at m n r cx h -> up r cx ∉ celems (tail cx) -> r ∉ celems cx ->
  (forall d c x a, cx = Fr d c x a :: tail cx -> x ∉ elems a) ->
  (forall z, z = r \/ z ∈ celems cx -> z <> up r cx -> m' !! z = m !! z) ->
  m' !! up r cx = with_child (hole cx) h' <$> m !! up r cx ->
  ctx_at m' n r cx h'.
Proof.
  destruct cx as [|[d c x a] cx]; cbn [ctx_at up hole tail].
  - intros -> _ _ _ _ ->. done.
  - intros (Hx & Ha & Hc) Hu Hr Ha' Hm Hm'. specialize (Ha' d c x a eq_refl). setoid_rewrite elem_of_celems in Hm.
    rewrite elem_of_celems in Hr. split_and!.
    + rewrite Hm', Hx. cbn. by rewrite with_child_mkn.
    + eapply tree_at_ext; [|done]. intros z Hz. apply Hm; [tauto|congruence].
    + eapply ctx_at_ext; [|done]. intros z Hz. apply Hm; [tauto|]. intros ->. destruct Hz as [->|Hz]; [tauto|done].
Qed.

Lemma rep_path s cx t : rep s cx t -> up (troot s) cx ∉ celems (tail cx) /\ troot s ∉ celems cx /\
  forall d c x a, cx = Fr d c x a :: tail cx -> x ∉ elems a.
Proof.
  intros H. destruct (rep_fresh _ _ _ H) as (_ & _ & _ & H3).
  assert (Hr : troot s ∉ celems cx) by (intros Hz; by destruct (H3 _ Hz) as (_ & ? & _)).
  destruct cx as [|[d c x a] cx]; cbn [up tail]; [split_and!; [done|done|by intros]|].
  assert (Hu : rep s cx (mk d c x t a)) by by apply rep_down. destruct (rep_fresh _ _ _ Hu) as (_ & Hnd & H2 & _).
  split_and!; [apply H2, elem_of_mk; by left|done|]. intros d' c' x' a' [= <- <- <- <-].
  destruct d; cbn [mk elems] in Hnd; apply NoDup_app in Hnd as (_ & Hd & Hnd); [by apply NoDup_cons in Hnd as [? _]; set_solver|].
  intros Hx. apply (Hd x Hx). left.
Qed.

(** Replacing the tree at the focus. *)
Lemma rep_replace s cx t t' m' : rep s cx t -> elems t' = elems t ->
  m' !! tnil s = nodes s !! tnil s ->
  (forall z, z = troot s \/ z ∈ celems cx -> z <> up (troot s) cx -> m' !! z = nodes s !! z) ->
  m' !! up (troot s) cx = with_child (hole cx) (root_of (tnil s) t') <$> nodes s !! up (troot s) cx ->
  tree_at m' (tnil s) (up (troot s) cx) t' ->
  rep (set_nodes m' s) cx t'.
Proof.
  intros H He Hn Hm Hu Ht. destruct (rep_path _ _ _ H) as (P1 & P2 & P3). split; cbn [set_nodes tnil troot nodes].
  - rewrite elems_plug, He, <- elems_plug. apply H.
  - rewrite Hn. apply H.
  - eapply ctx_redirect; [apply H|done..].
  - done.
Qed.

Lemma upd_spec s x nx f : nodes s !! x = Some nx -> upd x f s = Ok (tt, set_nodes (<[x := f nx]> (nodes s)) s).
Proof. unfold upd. by intros ->. Qed.
Lemma rd_spec s x nx : nodes s !! x = Some nx -> rd x s = Ok (nx, s).
Proof. unfold rd, load. by intros ->. Qed.

Lemma rep_rd s cx d c x a b : rep s cx (mk d c x a b) ->
  rd x s = Ok (mkn d c (up (troot s) cx) (root_of (tnil s) a) (root_of (tnil s) b), s).
Proof. intros H. apply rd_spec. by apply rep_tree, tree_at_mk in H as (? & _). Qed.

Lemma rep_uparent s cx d c x a b : rep s cx (mk d c x a b) -> uparent x s = Ok (up (troot s) cx, s).
Proof. intros H. unfold uparent. mstep (rep_rd _ _ _ _ _ _ _ H). by rewrite parent_mkn. Qed.

(** Painting the node at the focus. *)
Lemma paint_spec s cx d c x a b c' : rep s cx (mk d c x a b) ->
  exists s', upd x (with_red c') s = Ok (tt, s') /\ rep s' cx (mk d c' x a b) /\ framed (elems (plug cx (mk d c x a b))) s s'.
Proof.
  intros H. pose proof (rep_tree _ _ _ H) as (Hx & Ha & Hb)%tree_at_mk.
  destruct (rep_fresh _ _ _ H) as (_ & Hnd & H2 & _). destruct (up_fresh _ _ _ H) as [_ Hux].
  assert (Hxx : x ∈ elems (mk d c x a b)) by (apply elem_of_mk; by left). destruct (H2 x Hxx) as (Hxn & Hxr & Hxc).
  assert (Hxab : x ∉ elems a /\ x ∉ elems b).
  { destruct d; cbn [mk elems] in Hnd; apply NoDup_app in Hnd as (_ & Hd & Hnd); apply NoDup_cons in Hnd as [? _]; set_solver. }
  eexists. split_and!; [by apply upd_spec| |].
  - autorewrite with rbt. destruct (up_node _ _ _ H) as (cu & pu & au & Hu & _).
    assert (Hne : x <> up (troot s) cx) by congruence.
    eapply rep_replace; [exact H|by destruct d|by rewrite lookup_insert_ne| | |].
    + intros z Hz _. rewrite lookup_insert_ne; [done|]. intros <-. destruct Hz; congruence.
    + rewrite lookup_insert_ne by done. rewrite Hu. cbn. by rewrite with_child_mkn, !root_of_mk.
    + apply tree_at_mk. rewrite lookup_insert_eq. split_and!; [done| |]; (eapply tree_at_ext; [|done]); intros z Hz;
        apply lookup_insert_ne; intros <-; tauto.
  - split_and!; [done|done|]. intros z _ Hz. cbn. apply lookup_insert_ne. intros <-. apply Hz. rewrite elem_of_plug. by right.
Qed.

Lemma nodup_mk d c x a b : NoDup (elems (mk d c x a b)) <->
  x ∉ elems a /\ x ∉ elems b /\ NoDup (elems a) /\ NoDup (elems b) /\ forall z, z ∈ elems a -> z ∉ elems b.
Proof. destruct d; cbn [mk elems]; rewrite NoDup_app, NoDup_cons; set_solver. Qed.

(** A node and its sibling differ, so a pointer comparison finds the side of a node. *)
Lemma sibling_ne s cx d c p w X : rep s (Fr d c p w :: cx) X -> X <> E -> root_of (tnil s) w <> root_of (tnil s) X.
Proof.
  intros H HX. apply rep_down in H. destruct (rep_fresh _ _ _ H) as (_ & Hnd & Hn & _). apply nodup_mk in Hnd as (_ & _ & _ & _ & Hd).
  destruct X as [|cx' x a b]; [done|]. cbn [root_of]. assert (Hx : x ∈ elems (T cx' x a b)) by (simpl; set_solver).
  destruct w as [|cw xw wa wb]; cbn [root_of].
  - destruct (Hn x) as (? & _ & _); [apply elem_of_mk; tauto|done].
  - intros ->. apply (Hd x Hx). simpl. set_solver.
Qed.

Lemma side_mkn d c p h a : a <> h -> (if h =? left (mkn d c p h a) then L else R) = d.
Proof. intros Ha. destruct d; cbn; [by rewrite Z.eqb_refl|]. by destruct (Z.eqb_spec h a). Qed.

(** ** Rotations *)

Definition reparent (m : gmap Z rb_node) (n p : Z) (t : tree) : gmap Z rb_node :=
  match t with E => m | T c x a b => <[x := RbNode c p (root_of n a) (root_of n b)]> m end.

Lemma lookup_reparent_ne m n p t z : z ∉ elems t -> reparent m n p t !! z = m !! z.
Proof. destruct t as [|c x a b]; [done|]. cbn. intros Hz. apply lookup_insert_ne. set_solver. Qed.

Lemma reparent_at m n p q t : tree_at m n q t -> NoDup (elems t) -> tree_at (reparent m n p t) n p t.
Proof.
  destruct t as [|c x a b]; [done|]. cbn [reparent tree_at elems]. intros (Hx & Ha & Hb) Hnd.
  apply NoDup_app in Hnd as (_ & Hd & Hnd). apply NoDup_cons in Hnd as [Hxb _]. rewrite lookup_insert_eq.
  split_and!; [done| |]; (eapply tree_at_ext; [|done]); intros z Hz; apply lookup_insert_ne; set_solver.
Qed.

Lemma set_nodes_set m m' s : set_nodes m (set_nodes m' s) = set_nodes m s.
Proof. done. Qed.
Lemma set_nodes_id s : set_nodes (nodes s) s = s.
Proof. by destruct s. Qed.

Lemma upd_set m s x nx f : m !! x = Some nx -> upd x f (set_nodes m s) = Ok (tt, set_nodes (<[x := f nx]> m) s).
Proof. intros H. by rewrite (upd_spec _ _ nx). Qed.
Lemma rd_set m s x nx : m !! x = Some nx -> rd x (set_nodes m s) = Ok (nx, set_nodes m s).
Proof. intros H. by apply (rd_spec (set_nodes m s)). Qed.

Lemma child_reparent_spec m s n p q t : tree_at m n q t -> n ∉ elems t ->
  (if negb (root_of n t =? n) then upd (root_of n t) (with_up p) else mret tt) (set_nodes m s) = Ok (tt, set_nodes (reparent m n p t) s).
Proof.
  destruct t as [|c x a b]; cbn [tree_at root_of elems]; [by rewrite Z.eqb_refl|]. intros (Hx & _) Hn.
  destruct (Z.eqb_spec x n); [set_solver|]. cbn [negb]. by rewrite (upd_set _ _ _ _ _ Hx).
Qed.

Lemma elems_rotate d c c' x y a b e : elems (mk d c' y (mk d c x a b) e) = elems (mk d c x a (mk d c' y b e)).
Proof. destruct d; cbn [mk elems]; rewrite <- ?(assoc_L (++)); simpl; by rewrite <- ?(assoc_L (++)). Qed.

(** Redirecting the parent's pointer: the test finds the side of the focus. *)
Lemma redirect_spec m s d h y cu pu au u hd : m !! u = Some (mkn hd cu pu h au) -> au <> h ->
  (if h =? child d (mkn hd cu pu h au) then upd u (with_child d y) else upd u (with_child (opp d) y)) (set_nodes m s) =
  Ok (tt, set_nodes (<[u := mkn hd cu pu y au]> m) s).
Proof.
  intros Hu Hne. destruct (decide (d = hd)) as [->|Hd].
  - rewrite child_mkn, Z.eqb_refl, (upd_set _ _ _ _ _ Hu). by rewrite with_child_mkn.
  - replace d with (opp hd) by (by destruct d, hd). rewrite child_opp_mkn. destruct (Z.eqb_spec h au); [congruence|].
    rewrite (upd_set _ _ _ _ _ Hu). by rewrite opp_opp, with_child_mkn.
Qed.

Ltac lk := repeat first [rewrite lookup_insert_eq | rewrite lookup_insert_ne by congruence | rewrite lookup_reparent_ne by assumption].

Lemma rotate_spec s cx d c c' x y a b e : rep s cx (mk d c x a (mk d c' y b e)) ->
  exists s', rb_rotate d x s = Ok (tt, s') /\ rep s' cx (mk d c' y (mk d c x a b) e) /\
    framed (elems (plug cx (mk d c x a (mk d c' y b e)))) s s'.
Proof.
  intros H. set (t := mk d c x a (mk d c' y b e)) in *. set (n := tnil s). set (u := up (troot s) cx).
  destruct (rep_fresh _ _ _ H) as (Hnr & Hnd & H2 & _). destruct (up_fresh _ _ _ H) as [Hun Hut]. fold n u in Hun, Hut.
  destruct (up_node _ _ _ H) as (cu & pu & au & Hu & Hau). destruct (rep_nil _ _ _ H) as (nn & Hnn & Hred).
  pose proof (rep_tree _ _ _ H) as (Hx & Ha & (Hy & Hb & He)%tree_at_mk)%tree_at_mk. fold n u in Hx, Hy, Ha, Hb, He, Hu, Hnn.
  rewrite root_of_mk in Hx. unfold t in Hu. rewrite root_of_mk in Hu. fold n in H2, Hau, Hnr.
  unfold t in Hut. rewrite !elem_of_mk in Hut.
  assert (Hin : forall z, z ∈ elems t <-> z = x \/ z ∈ elems a \/ z = y \/ z ∈ elems b \/ z ∈ elems e) by (intros; unfold t; rewrite !elem_of_mk; tauto).
  unfold t in Hnd. apply nodup_mk in Hnd as (X1 & X2 & NA & Hnd & X3). apply nodup_mk in Hnd as (Y1 & Y2 & NB & NE & Y3).
  rewrite elem_of_mk in X2. setoid_rewrite elem_of_mk in X3.
  assert (Hnx : n ∉ elems t) by (intros Hz; by destruct (H2 _ Hz)). rewrite Hin in Hnx.
  assert (Haux : au <> x). { destruct Hau as [->|Hau]; [intros <-; tauto|]. rewrite Hin in Hau. tauto. }
  set (ra := root_of n a) in *. set (rb := root_of n b) in *. set (re := root_of n e) in *.
  set (m1 := <[x := mkn d c u ra rb]> (nodes s)). set (m2 := reparent m1 n x b). set (m3 := <[y := mkn d c' u rb re]> m2).
  set (m4 := <[u := mkn (hole cx) cu pu y au]> m3). set (m5 := <[y := mkn d c' u x re]> m4). set (m6 := <[x := mkn d c y ra rb]> m5).
  assert (x <> y /\ x <> u /\ y <> u /\ x <> n /\ y <> n) as (N1 & N2 & N3 & N4 & N5) by (split_and!; intros ?; subst; tauto).
  assert (xB : x ∉ elems b) by tauto. assert (uB : u ∉ elems b) by tauto. assert (nB : n ∉ elems b) by tauto.
  assert (L1 : tree_at m1 n y b).
  { eapply tree_at_ext; [|exact Hb]. intros z Hz. unfold m1. rewrite lookup_insert_ne; [done|]. intros <-. done. }
  assert (L2 : m2 !! x = Some (mkn d c u ra rb)) by (unfold m2, m1; by lk).
  assert (L3 : m2 !! y = Some (mkn d c' x rb re)) by (unfold m2, m1; lk; done).
  assert (L4 : m3 !! u = Some (mkn (hole cx) cu pu x au)) by (unfold m3, m2, m1; lk; done).
  assert (L5 : m4 !! y = Some (mkn d c' u rb re)) by (unfold m4, m3; by lk).
  assert (L6 : m5 !! x = Some (mkn d c u ra rb)) by (unfold m5, m4, m3; lk; done).
  assert (L7 : m6 !! n = Some nn) by (unfold m6, m5, m4, m3, m2, m1; lk; done).
  exists (set_nodes m6 s). split_and!.
  - unfold rb_rotate. rewrite !bind_gets. fold n. mstep (rd_spec _ _ _ Hx). rewrite child_opp_mkn.
    massert; [|destruct (H2 x) as (_ & Hxr & _); [by apply Hin; left|];
      destruct (Z.eqb_spec x (troot s)), (Z.eqb_spec x n), (Z.eqb_spec y n); done].
    mstep (rd_spec _ _ _ Hy). rewrite child_mkn. rewrite <- (set_nodes_id s) at 1.
    mstep (upd_set _ s _ _ (with_child (opp d) rb) Hx). rewrite with_child_opp_mkn. fold m1.
    mstep (child_reparent_spec m1 s n x y b L1 nB). fold m2. mstep (rd_set m2 s _ _ L2). rewrite parent_mkn.
    mstep (upd_set m2 s _ _ (with_up u) L3). rewrite with_up_mkn. fold m3. mstep (rd_set m3 s _ _ L4).
    mstep (redirect_spec m3 s d x y _ _ _ _ _ L4 Haux). fold m4. mstep (upd_set m4 s _ _ (with_child d x) L5).
    rewrite with_child_mkn. fold m5. mstep (upd_set m5 s _ _ (with_up y) L6). rewrite with_up_mkn. fold m6.
    mstep (rd_set m6 s _ _ L7). by rewrite Hred.
  - eapply rep_replace; [exact H|apply elems_rotate|fold n; by rewrite L7| | |]; fold n u.
    + intros z Hz Hzu. assert (z ∉ elems t) as Hzt.
      { intros Hzt. destruct (H2 _ Hzt) as (_ & ? & ?). tauto. }
      rewrite Hin in Hzt. assert (z <> x /\ z <> y) as [??] by tauto. assert (z ∉ elems b) by tauto.
      unfold m6, m5, m4, m3, m2, m1. by lk.
    + rewrite Hu. cbn. rewrite with_child_mkn, root_of_mk. unfold m6, m5, m4. by lk.
    + apply tree_at_mk. rewrite root_of_mk. split_and!; [unfold m6, m5; by lk| |].
      * apply tree_at_mk. split_and!; [unfold m6; by lk| |].
        { eapply tree_at_ext; [|exact Ha]. intros z Hz. pose proof (X3 z Hz). assert (z <> x /\ z <> y /\ z <> u) as (? & ? & ?).
          { split_and!; intros ?; subst; tauto. } assert (z ∉ elems b) by tauto. unfold m6, m5, m4, m3, m2, m1. by lk. }
        { eapply tree_at_ext; [|exact (reparent_at _ _ x _ _ L1 NB)]. intros z Hz.
          assert (z <> x /\ z <> y /\ z <> u) as (? & ? & ?) by (split_and!; intros ?; subst; tauto).
          unfold m6, m5, m4, m3, m2. by lk. }
      * eapply tree_at_ext; [|exact He]. intros z Hz. assert (z ∉ elems b) by (intros Hzb; by apply (Y3 z)).
        assert (z <> x /\ z <> y /\ z <> u) as (? & ? & ?) by (split_and!; intros ?; subst; tauto).
        unfold m6, m5, m4, m3, m2, m1. by lk.
  - split_and!; [done|done|]. intros z Hzr Hz. cbn [set_nodes nodes]. rewrite elem_of_plug, Hin in Hz.
    assert (z <> x /\ z <> y) as [??] by tauto. assert (z ∉ elems b) by tauto.
    assert (z <> u) by (intros ->; destruct (up_cases (troot s) cx); [done|tauto]).
    unfold m6, m5, m4, m3, m2, m1. by lk.
Qed.

(** ** Balance *)

Definition is_red (t : tree) : bool := match t with T true _ _ _ => true | _ => false end.

(** No red node has a red child and every path to a leaf has [h] black nodes. *)
Fixpoint bal (t : tree) (h : nat) : Prop :=
  match t with
  | E => h = 0%nat
  | T true _ a b => is_red a = false /\ is_red b = false /\ bal a h /\ bal b h
  | T false _ a b => match h with O => False | S h' => bal a h' /\ bal b h' end
  end.
Definition rb_ok (t : tree) : Prop := is_red t = false /\ exists h, bal t h.

(** The path takes a tree of height [h] whose root is red only if [c] is. *)
Fixpoint ctx_bal (cx : ctx) (c : bool) (h : nat) : Prop :=
  match cx with
  | [] => c = false
  | Fr _ c' _ a :: cx' =>
      (c' = true -> c = false /\ is_red a = false) /\ bal a h /\ ctx_bal cx' c' (if c' then h else S h)
  end.

Lemma bal_mk d c x a b h : bal (mk d c x a b) h <->
  (c = true /\ is_red a = false /\ is_red b = false /\ bal a h /\ bal b h) \/ (c = false /\ exists h', h = S h' /\ bal a h' /\ bal b h').
Proof. destruct d, c, h; simpl; naive_solver. Qed.

Lemma is_red_mk d c x a b : is_red (mk d c x a b) = c.
Proof. by destruct d, c. Qed.

Lemma plug_bal cx t h : bal t h -> ctx_bal cx (is_red t) h -> rb_ok (plug cx t).
Proof.
  revert t h. induction cx as [|[d c x a] cx IH]; intros t h Ht; cbn [ctx_bal plug].
  - intros Hr. split; [done|by exists h].
  - intros (Hc & Ha & Hcx). apply (IH _ (if c then h else S h)); [|by rewrite is_red_mk].
    apply bal_mk. destruct c; [left|right]; naive_solver.
Qed.

Lemma unplug_bal cx t : rb_ok (plug cx t) -> exists h, bal t h /\ ctx_bal cx (is_red t) h.
Proof.
  revert t. induction cx as [|[d c x a] cx IH]; intros t; cbn [ctx_bal plug].
  - intros [Hr [h Hh]]. by exists h.
  - intros (h & Ht & Hcx)%IH. rewrite is_red_mk in Hcx. apply bal_mk in Ht as [(-> & ? & ? & ? & ?)|(-> & h' & -> & ? & ?)].
    + exists h. naive_solver.
    + exists h'. naive_solver.
Qed.

Lemma ctx_bal_weaken cx h c : ctx_bal cx c h -> ctx_bal cx false h.
Proof. destruct cx as [|[d c' x a] cx]; cbn [ctx_bal]; naive_solver. Qed.

(** ** Sizes: the fuel of the loops *)

Lemma tree_at_some m n p t z : tree_at m n p t -> z ∈ elems t -> is_Some (m !! z).
Proof.
  revert p. induction t as [|c x a IHa b IHb]; intros p; cbn [tree_at elems]; [by intros _ ?%not_elem_of_nil|].
  intros (Hx & Ha & Hb) [Hz|[->|Hz]%elem_of_cons]%elem_of_app; [by eapply IHa|by eexists|by eapply IHb].
Qed.

Lemma length_le_size (m : gmap Z rb_node) (l : list Z) : NoDup l -> (forall z, z ∈ l -> is_Some (m !! z)) -> (length l <= size m)%nat.
Proof.
  intros Hnd Hl. rewrite <- (size_list_to_set (C := gset Z) l), <- (size_dom m) by done. apply subseteq_size.
  intros z Hz%elem_of_list_to_set. by apply elem_of_dom, Hl.
Qed.

Lemma rep_size s cx t : rep s cx t -> (length (elems (plug cx t)) < size (nodes s))%nat.
Proof.
  intros H. pose proof (rep_up _ _ _ H) as Hu. enough (length (troot s :: elems (plug cx t)) <= size (nodes s))%nat by (simpl in *; lia).
  apply length_le_size; [by apply rep_nodup, NoDup_cons in H as [_ ?]|].
  intros z [->|Hz]%elem_of_cons; [exists (RbNode false (tnil s) (root_of (tnil s) (plug cx t)) (tnil s)); apply (rep_ctx _ _ _ Hu)|].
  by eapply tree_at_some, Hz; apply Hu.
Qed.

Lemma length_plug cx t : (length cx + length (elems t) <= length (elems (plug cx t)))%nat.
Proof.
  revert t. induction cx as [|[d c x a] cx IH]; intros t; [done|]. cbn [plug length]. specialize (IH (mk d c x t a)).
  enough (S (length (elems t)) <= length (elems (mk d c x t a)))%nat by lia. destruct d; cbn [mk elems]; rewrite length_app; simpl; lia.
Qed.

(** ** Insertion keeps the tree balanced *)

Lemma mk_T c x a b : T c x a b = mk L c x a b.
Proof. done. Qed.
Lemma mk_flip d c x a b : mk d c x a b = mk (opp d) c x b a.
Proof. by destruct d. Qed.
Lemma mk_as d t : is_red t = true -> exists x a b, t = mk d true x a b.
Proof. destruct t as [|[] x a b]; try done. intros _. destruct d; [by exists x, a, b|by exists x, b, a]. Qed.

(** A state on the way from [s0]: the elements [l] are all there, in order, and
    nothing else has changed. *)
Record reach (l : list Z) (s0 s : rbt) (cx : ctx) (t : tree) : Prop := {
  reach_rep : rep s cx t; reach_elems : elems (plug cx t) = l; reach_framed : framed l s0 s }.

Section reach.
Context (l : list Z) (s0 : rbt).
Implicit Types (s : rbt) (cx : ctx).

Lemma reach_push s cx d c x a b : reach l s0 s cx (mk d c x a b) -> reach l s0 s (Fr d c x b :: cx) a.
Proof. intros [H He Hf]. split; [by apply rep_down|done|done]. Qed.
Lemma reach_pop s cx d c x a b : reach l s0 s (Fr d c x b :: cx) a -> reach l s0 s cx (mk d c x a b).
Proof. intros [H He Hf]. split; [by apply rep_down|done|done]. Qed.
Lemma reach_top s cx t : reach l s0 s cx t -> reach l s0 s [] (plug cx t).
Proof. intros [H He Hf]. split; [by apply rep_up|done|done]. Qed.

Lemma reach_rd s cx d c x a b : reach l s0 s cx (mk d c x a b) ->
  rd x s = Ok (mkn d c (up (troot s) cx) (root_of (tnil s) a) (root_of (tnil s) b), s).
Proof. intros [H _ _]. by apply rep_rd. Qed.

Lemma reach_uparent s cx d c x a b : reach l s0 s cx (mk d c x a b) -> uparent x s = Ok (up (troot s) cx, s).
Proof. intros [H _ _]. by eapply rep_uparent. Qed.

(** The colour of the node at the focus, the sentinel included. *)
Lemma reach_colour s cx t : reach l s0 s cx t -> exists nt, rd (root_of (tnil s) t) s = Ok (nt, s) /\ red nt = is_red t.
Proof.
  intros [H _ _]. destruct t as [|c x a b].
  - destruct (rep_nil _ _ _ H) as (nn & Hn & Hr). exists nn. split; [by apply rd_spec|done].
  - rewrite mk_T in H. eexists. split; [by apply (rep_rd s cx L c x a b)|by destruct c].
Qed.

Lemma reach_paint s cx d c x a b c' : reach l s0 s cx (mk d c x a b) ->
  exists s', upd x (with_red c') s = Ok (tt, s') /\ reach l s0 s' cx (mk d c' x a b).
Proof.
  intros [H He Hf]. destruct (paint_spec _ _ _ _ _ _ _ c' H) as (s' & E1 & H1 & F1). exists s'. split; [done|].
  split; [done| |].
  - rewrite elems_plug in He |- *. destruct d; exact He.
  - eapply framed_trans; [done|]. by rewrite He in F1.
Qed.

Lemma reach_rotate s cx d c c' x y a b e : reach l s0 s cx (mk d c x a (mk d c' y b e)) ->
  exists s', rb_rotate d x s = Ok (tt, s') /\ reach l s0 s' cx (mk d c' y (mk d c x a b) e).
Proof.
  intros [H He Hf]. destruct (rotate_spec _ _ _ _ _ _ _ _ _ _ H) as (s' & E1 & H1 & F1). exists s'. split; [done|].
  split; [done| |].
  - rewrite elems_plug in He |- *. by rewrite elems_rotate.
  - eapply framed_trans; [done|]. by rewrite He in F1.
Qed.

Lemma reach_parent s cx e c p w d c' x a b : reach l s0 s (Fr e c p w :: cx) (mk d c' x a b) ->
  uparent x s = Ok (p, s) /\ rd p s = Ok (mkn e c (up (troot s) cx) x (root_of (tnil s) w), s) /\ uparent p s = Ok (up (troot s) cx, s).
Proof.
  intros H. split_and!; [by apply (reach_uparent _ _ _ _ _ _ _ H)| |]; apply reach_pop in H.
  - pose proof (reach_rd _ _ _ _ _ _ _ H) as E1. by rewrite root_of_mk in E1.
  - by eapply reach_uparent.
Qed.
End reach.

Ltac paint H c s' H' := let E := fresh "E" in destruct (reach_paint _ _ _ _ _ _ _ _ _ c H) as (s' & E & H'); mstep E; clear E.
Ltac rotate H s' H' := let E := fresh "E" in destruct (reach_rotate _ _ _ _ _ _ _ _ _ _ _ _ H) as (s' & E & H'); mstep E; clear E.
Ltac parents H := let E := fresh "E" in let E' := fresh "E'" in
  destruct (reach_parent _ _ _ _ _ _ _ _ _ _ _ _ _ H) as (E & _ & E'); mstep E; mstep E'; cbn [up]; clear E E'.

Section fixup.
Context (l : list Z) (s0 : rbt).

(** The uncle [U] is black and the focus an outer grandchild. *)
Lemma insert_rotate_spec s cx d p w g c' U x a b (X := mk d true x a b) :
  reach l s0 s (Fr d true p w :: Fr d c' g U :: cx) X ->
  exists s', insert_rotate d x s = Ok (x, s') /\ reach l s0 s' (Fr d false p (mk d true g w U) :: cx) X.
Proof.
  intros H. unfold insert_rotate. mstep (reach_uparent _ _ _ _ _ _ _ _ _ H). cbn [up].
  apply reach_pop in H. paint H false s1 H1. apply reach_push in H1. parents H1.
  do 2 apply reach_pop in H1. paint H1 true s2 H2. do 2 apply reach_push in H2. parents H2.
  do 2 apply reach_pop in H2. rewrite mk_flip, (mk_flip d false) in H2. rotate H2 s3 H3.
  exists s3. split; [done|]. apply reach_push. by rewrite (mk_flip d false), (mk_flip d true g).
Qed.

(** The uncle is red: the colours move up. *)
Lemma insert_sub_red s cx d e p w g c' y ya yb x a b (X := mk e true x a b) :
  reach l s0 s (Fr e true p w :: Fr d c' g (mk d true y ya yb) :: cx) X ->
  exists s', insert_sub d x s = Ok (g, s') /\ reach l s0 s' cx (mk d true g (mk e false p X w) (mk d false y ya yb)).
Proof.
  intros H. unfold insert_sub. parents H. do 2 apply reach_pop in H.
  mstep (reach_rd _ _ _ _ _ _ _ _ _ H). rewrite child_opp_mkn, root_of_mk. rewrite mk_flip in H. apply reach_push in H.
  mstep (reach_rd _ _ _ _ _ _ _ _ _ H). rewrite red_mkn. apply reach_pop in H. rewrite mk_opp in H. apply reach_push in H.
  paint H false s1 H1. apply reach_pop in H1. rewrite mk_flip in H1. apply reach_push in H1. paint H1 false s2 H2.
  apply reach_pop in H2. rewrite mk_opp in H2. do 2 apply reach_push in H2. parents H2.
  do 2 apply reach_pop in H2. paint H2 true s3 H3. by exists s3.
Qed.

Lemma insert_sub_black s cx d e p w g c' U x a b (X := mk d true x a b) :
  reach l s0 s (Fr e true p w :: Fr d c' g U :: cx) X -> is_red U = false ->
  exists s' x' a' b' p' w', insert_sub d x s = Ok (x', s') /\
    reach l s0 s' (Fr d false p' (mk d true g w' U) :: cx) (mk d true x' a' b') /\
    (e = d /\ a' = a /\ b' = b /\ w' = w \/ e = opp d /\ a' = w /\ b' = a /\ w' = b).
Proof.
  intros H HU. unfold insert_sub. parents H. do 2 apply reach_pop in H.
  mstep (reach_rd _ _ _ _ _ _ _ _ _ H). rewrite child_opp_mkn. rewrite mk_flip in H. apply reach_push in H.
  destruct (reach_colour _ _ _ _ _ H) as (nu & Eu & Hu). mstep Eu. rewrite Hu, HU. apply reach_pop in H. rewrite mk_opp in H. apply reach_push in H.
  pose proof (reach_rd _ _ _ _ _ _ _ _ _ H) as Ep. unfold X in Ep. rewrite root_of_mk in Ep. mstep Ep.
  pose proof (sibling_ne _ _ _ _ _ _ _ (reach_rep _ _ _ _ _ (reach_push _ _ _ _ _ _ _ _ _ H)) ltac:(by destruct d)) as Hxw. unfold X in Hxw. rewrite root_of_mk in Hxw.
  destruct (decide (e = d)) as [->|He].
  - rewrite child_opp_mkn. destruct (Z.eqb_spec x (root_of (tnil s) w)); [congruence|].
    match goal with |- context [(mret x ≫= ?k) s] => change ((mret x ≫= k) s) with (insert_rotate d x s) end.
    apply reach_push in H. destruct (insert_rotate_spec _ _ _ _ _ _ _ _ _ _ _ H) as (s' & E1 & H1).
    exists s', x, a, b, p, w. split_and!; [done|done|by left].
  - assert (e = opp d) as -> by (by destruct d, e). rewrite child_mkn, Z.eqb_refl. rewrite mk_opp in H. unfold X in H.
    rewrite bind_assoc_M. rotate H s1 H1. apply reach_push in H1.
    match goal with |- context [(mret p ≫= ?k) s1] => change ((mret p ≫= k) s1) with (insert_rotate d p s1) end.
    destruct (insert_rotate_spec _ _ _ _ _ _ _ _ _ _ _ H1) as (s' & E1 & H2).
    exists s', p, w, a, x, b. split_and!; [done|done|by right].
Qed.

(** One round below a black grandparent: the rest of the loop starts two levels
    up, or ends. *)
Lemma insert_fixup_step fuel s cx d e p w g U x a b h :
  reach l s0 s (Fr e true p w :: Fr d false g U :: cx) (T true x a b) -> bal (T true x a b) h -> is_red w = false -> bal w h -> bal U h ->
  ctx_bal cx false (S h) -> fuel <> 0%nat ->
  (forall s' x' a' b', reach l s0 s' cx (T true x' a' b') -> bal (T true x' a' b') (S h) -> ctx_bal cx false (S h) ->
    exists s'' t', insert_fixup fuel x' s' = Ok (tt, s'') /\ reach l s0 s'' [] t' /\ exists h', bal t' h') ->
  exists s'' t', (x' ← insert_sub d x; insert_fixup fuel x') s = Ok (tt, s'') /\ reach l s0 s'' [] t' /\ exists h', bal t' h'.
Proof.
  intros H Hb Hw Hwb HU Hcx Hf IH. destruct (is_red U) eqn:EU.
  - destruct (mk_as d U EU) as (y & ya & yb & ->). destruct (mk_as e (T true x a b) eq_refl) as (x0 & a0 & b0 & EX).
    assert (x0 = x) as -> by (by destruct e; injection EX). rewrite EX in H, Hb.
    destruct (insert_sub_red _ _ _ _ _ _ _ _ _ _ _ _ _ _ H) as (s' & E1 & H1). mstep E1.
    apply bal_mk in HU as [(_ & ? & ? & ? & ?)|[? _]]; [|done].
    destruct d; (eapply IH; [exact H1| |done]); apply (bal_mk L); left; rewrite !is_red_mk; split_and!;
      try done; apply bal_mk; right; eauto.
  - destruct (mk_as d (T true x a b) eq_refl) as (x0 & a0 & b0 & EX). assert (x0 = x) as -> by (by destruct d; injection EX). rewrite EX in H, Hb.
    destruct (insert_sub_black _ _ _ _ _ _ _ _ _ _ _ _ H EU) as (s' & x' & a' & b' & p' & w' & E1 & H1 & Hcase). mstep E1.
    destruct fuel as [|fuel]; [done|]. cbn [insert_fixup].
    mstep (reach_uparent _ _ _ _ _ _ _ _ _ H1). cbn [up]. mstep (reach_rd _ _ _ _ _ _ _ _ _ (reach_pop _ _ _ _ _ _ _ _ _ H1)). rewrite red_mkn.
    exists s', (plug (Fr d false p' (mk d true g w' U) :: cx) (mk d true x' a' b')). split_and!; [done|by apply reach_top|].
    apply bal_mk in Hb as [(_ & ? & ? & ? & ?)|[? _]]; [|done].
    eapply (plug_bal (Fr d false p' (mk d true g w' U) :: cx) (mk d true x' a' b') h).
    + apply bal_mk. left. destruct Hcase as [(_ & -> & -> & ->)|(_ & -> & -> & ->)]; done.
    + cbn [ctx_bal]. split_and!; [done| |done]. apply bal_mk. left. destruct Hcase as [(_ & -> & -> & ->)|(_ & -> & -> & ->)]; done.
Qed.

(** The loop, from a red node at the focus. *)
Lemma insert_fixup_spec fuel : forall s cx x a b h, reach l s0 s cx (T true x a b) -> bal (T true x a b) h -> ctx_bal cx false h ->
  (length cx < fuel)%nat ->
  exists s' t', insert_fixup fuel x s = Ok (tt, s') /\ reach l s0 s' [] t' /\ exists h', bal t' h'.
Proof.
  induction fuel as [|fuel IH]; intros s cx x a b h H Hb Hc Hf; [lia|]. cbn [insert_fixup].
  mstep (reach_uparent _ _ _ _ L _ _ _ _ H). destruct cx as [|[e c p w] cx]; cbn [up].
  { mstep (rd_spec _ _ _ (rep_ctx _ _ _ (reach_rep _ _ _ _ _ H))). cbn. exists s, (T true x a b). split_and!; [done|done|by exists h]. }
  pose proof (reach_rd _ _ _ _ _ _ _ _ _ (reach_pop _ _ _ _ _ _ _ _ _ H)) as Ep. mstep Ep. rewrite red_mkn, parent_mkn.
  destruct Hc as (Hc & Hw & Hcx). destruct c; cycle 1.
  { exists s, (plug (Fr e false p w :: cx) (T true x a b)). split_and!; [done|by apply reach_top|].
    by destruct (plug_bal (Fr e false p w :: cx) (T true x a b) h) as [_ ?]. }
  destruct (Hc eq_refl) as [_ Hwb]. destruct cx as [|[d c g U] cx]; [done|]. destruct Hcx as (Hcg & HU & Hcx).
  assert (c = false) as -> by (destruct c; [by destruct (Hcg eq_refl)|done]). cbn [up].
  pose proof (reach_pop _ _ _ _ _ _ _ _ _ H) as Hp. mstep (reach_rd _ _ _ _ _ _ _ _ _ (reach_pop _ _ _ _ _ _ _ _ _ Hp)). rewrite root_of_mk.
  pose proof (sibling_ne _ _ _ _ _ _ _ (reach_rep _ _ _ _ _ Hp) ltac:(by destruct e)) as Hne. rewrite root_of_mk in Hne.
  rewrite side_mkn by done. apply (insert_fixup_step fuel s cx d e p w g U x a b h); [done..|simpl in Hf; lia|].
  intros s' x' a' b' H' Hb' Hc'. apply (IH s' cx x' a' b' (S h)); [done..|]. simpl in Hf. lia.
Qed.
End fixup.

(** ** Binary insertion *)

Lemma rep_ext s cx t m' : rep s cx t -> (forall z, z = tnil s \/ z = troot s \/ z ∈ elems (plug cx t) -> m' !! z = nodes s !! z) ->
  rep (set_nodes m' s) cx t.
Proof.
  intros [Hn Hi Hc Ht] Hm. setoid_rewrite elem_of_plug in Hm. split; cbn [set_nodes tnil troot nodes]; [done| | |].
  - rewrite Hm by tauto. done.
  - eapply ctx_at_ext; [|done]. intros; apply Hm; tauto.
  - eapply tree_at_ext; [|done]. intros; apply Hm; tauto.
Qed.

(** A new leaf at an empty focus. *)
Lemma rep_plant s cx z c m' : rep s cx E -> z <> tnil s -> z <> troot s -> z ∉ celems cx ->
  (forall y, y <> z -> y <> up (troot s) cx -> m' !! y = nodes s !! y) ->
  m' !! z = Some (RbNode c (up (troot s) cx) (tnil s) (tnil s)) ->
  m' !! up (troot s) cx = with_child (hole cx) z <$> nodes s !! up (troot s) cx ->
  rep (set_nodes m' s) cx (T c z E E).
Proof.
  intros H Hzn Hzr Hzc Hm Hz Hu. destruct (rep_path _ _ _ H) as (P1 & P2 & P3). destruct (up_fresh _ _ _ H) as [Hun _].
  split; cbn [set_nodes tnil troot nodes].
  - pose proof (rep_nodup _ _ _ H) as Hnd. rewrite elems_plug in Hnd |- *. cbn [elems app] in *. unfold celems in Hzc.
    rewrite <- (Permutation_middle (before cx) (after cx) z), !NoDup_cons. rewrite !NoDup_cons in Hnd. set_solver.
  - rewrite Hm by congruence. apply H.
  - eapply ctx_redirect; [apply H|done|done|done| |done]. intros y Hy Hyu. apply Hm; [|done]. intros ->. destruct Hy; [congruence|done].
  - done.
Qed.

Section insertion.
Context (compare : Z -> Z -> Z) (z : Z).
Implicit Types (s : rbt) (cx : ctx).

(** The path goes left exactly below the nodes greater than [z]. *)
Definition side_ok (cx : ctx) : Prop :=
  match cx with [] => True | Fr d _ x _ :: _ => d = if 0 <? compare x z then L else R end.
Record place (cx : ctx) : Prop := {
  place_before : forall y, y ∈ before cx -> compare y z <= 0;
  place_after : forall y, y ∈ after cx -> 0 < compare y z;
  place_side : side_ok cx }.

Lemma insert_descend_spec fuel : forall s cx t, rep s cx t -> (length (elems t) < fuel)%nat ->
  StronglySorted (fun a b => 0 < compare a z -> 0 < compare b z) (elems (plug cx t)) -> place cx ->
  exists cx', insert_descend compare fuel (up (troot s) cx) (root_of (tnil s) t) z s = Ok (up (troot s) cx', s) /\
    rep s cx' E /\ plug cx' E = plug cx t /\ place cx'.
Proof.
  induction fuel as [|fuel IH]; intros s cx t H Hf Hs Hp; [lia|]. cbn [insert_descend]. rewrite bind_gets.
  destruct t as [|c x a b]; cbn [root_of].
  { rewrite Z.eqb_refl. by exists cx. }
  assert (Hxn : x <> tnil s) by (destruct (rep_fresh _ _ _ H) as (_ & _ & Hn & _); apply Hn; simpl; set_solver).
  destruct (Z.eqb_spec x (tnil s)); [done|]. rewrite mk_T in H. mstep (rep_rd _ _ _ _ _ _ _ H). cbn [mkn left right].
  pose proof Hs as Hs0. rewrite elems_plug in Hs. cbn [elems] in Hs. rewrite <- (assoc_L (++)) in Hs. cbn [app] in Hs.
  apply sorted_app_iff in Hs as (_ & Hs & _). apply sorted_app_iff in Hs as (_ & Hs & Hax).
  apply StronglySorted_inv in Hs as [_ Hxb]. rewrite list.Forall_forall in Hxb. simpl in Hf. rewrite length_app in Hf. simpl in Hf.
  destruct (Z.ltb_spec 0 (compare x z)) as [Hx|Hx].
  - apply rep_down in H. apply (IH s _ _ H); [lia|done|].
    split; [by apply Hp| |cbn; by destruct (Z.ltb_spec 0 (compare x z)); [|lia]].
    intros y. cbn. rewrite elem_of_cons, elem_of_app. intros [->|[Hy|Hy]]; [done| |by apply (place_after _ Hp)].
    apply Hxb; [set_solver|done].
  - rewrite mk_flip in H. apply rep_down in H. apply (IH s _ _ H); [lia|done|].
    split; [|by apply Hp|cbn; by destruct (Z.ltb_spec 0 (compare x z)); [lia|]].
    intros y. cbn. rewrite !elem_of_app, list_elem_of_singleton. intros [Hy|[Hy| ->]]; [by apply (place_before _ Hp)| |done].
    specialize (Hax y x Hy ltac:(left)). lia.
Qed.

Lemma insert_binary_spec s t nz (l := elems t) : rep s [] t -> nodes s !! z = Some nz -> z <> tnil s -> z <> troot s -> z ∉ l ->
  StronglySorted (fun a b => 0 < compare a z -> 0 < compare b z) l ->
  exists s' cx, rb_insert_binary compare z s = Ok (tt, s') /\ plug cx E = t /\ place cx /\
    reach (before cx ++ z :: after cx) s s' cx (T (red nz) z E E).
Proof.
  intros H Hz Hzn Hzr Hzl Hs. set (n := tnil s). set (r := troot s).
  set (m1 := <[z := RbNode (red nz) (parent nz) n n]> (nodes s)).
  assert (H1 : rep (set_nodes m1 s) [] t).
  { apply rep_ext; [done|]. intros y Hy. apply lookup_insert_ne. intros <-. cbn [plug] in Hy. unfold l in *. tauto. }
  destruct (insert_descend_spec (S (size m1)) (set_nodes m1 s) [] t H1) as (cx & E1 & H2 & E2 & Hp).
  { pose proof (rep_size _ _ _ H1). cbn [plug set_nodes nodes] in *. lia. }
  { done. } { split; [by intros ? ?%not_elem_of_nil..|done]. }
  cbn [set_nodes troot tnil up] in E1. fold n r in E1.
  pose proof (elem_of_plug z cx E) as Hzc. rewrite E2 in Hzc. cbn [plug elems] in Hzc. fold l in Hzc.
  assert (Hzc' : z ∉ celems cx) by tauto. clear Hzc.
  destruct (up_node _ _ _ H2) as (cu & pu & au & Hu & Hau). destruct (up_fresh _ _ _ H2) as [Hun _]. cbn [set_nodes nodes troot tnil root_of elems] in Hu, Hau, Hun.
  fold n r in Hu, Hau, Hun. set (u := up r cx) in *.
  assert (Hzu : z <> u) by (intros ->; by destruct (up_cases r cx)).
  set (m2 := <[z := RbNode (red nz) u n n]> m1). assert (Hu2 : m2 !! u = Some (mkn (hole cx) cu pu n au)) by (unfold m2; by rewrite lookup_insert_ne).
  set (m3 := <[u := mkn (hole cx) cu pu z au]> m2).
  assert (Hread : m1 !! r = Some (RbNode false n (root_of n t) n)) by exact (rep_ctx _ _ _ H1).
  exists (set_nodes m3 s), cx. split_and!; [|done|done|].
  - unfold rb_insert_binary. rewrite !bind_gets. fold n r. mstep (upd_spec _ _ _ (fun x => RbNode (red x) (parent x) n n) Hz). fold m1.
    mstep (rd_set m1 s _ _ Hread). rewrite bind_gets. cbn [left set_nodes nodes]. change (set_nodes m1 s) with (set_nodes m1 s) in E1. mstep E1. fold u.
    mstep (upd_set m1 s z (RbNode (red nz) (parent nz) n n) (with_up u) ltac:(apply lookup_insert_eq)). fold m2.
    assert (Hb : (u =? r) || (0 <? compare u z) = match hole cx with L => true | R => false end).
    { pose proof (place_side _ Hp) as Hsd. destruct (rep_fresh _ _ _ H2) as (_ & _ & _ & Hcr). unfold u.
      destruct cx as [|[d c x a] cx]; cbn [up hole side_ok] in *; [by rewrite Z.eqb_refl|].
      destruct (Hcr x) as (_ & Hxr & _); [apply elem_of_celems; by left|]. cbn in Hxr. destruct (Z.eqb_spec x r); [done|]. cbn [orb].
      subst d. by destruct (0 <? compare x z). }
    rewrite Hb. pose proof (upd_set m2 s _ _ (with_child (hole cx) z) Hu2) as E3. rewrite with_child_mkn in E3. destruct (hole cx); exact E3.
  - split.
    + apply (rep_plant (set_nodes m1 s) cx z (red nz) m3); [done..| | |]; cbn [set_nodes nodes troot tnil]; fold n r u.
      * intros y Hyz Hyu. unfold m3, m2. by rewrite !lookup_insert_ne.
      * unfold m3, m2. rewrite lookup_insert_ne by done. by rewrite lookup_insert_eq.
      * rewrite Hu. unfold m3. rewrite lookup_insert_eq. cbn. by rewrite with_child_mkn.
    + by rewrite elems_plug.
    + split_and!; [done|done|]. intros y Hyr Hy. cbn [set_nodes nodes]. rewrite elem_of_app, elem_of_cons in Hy.
      assert (y <> u). { intros ->. destruct (up_cases r cx) as [|Hc]; [done|]. apply elem_of_app in Hc. tauto. }
      unfold m3, m2, m1. rewrite !lookup_insert_ne; [done|intros ->; tauto..|done].
Qed.

(** Stable insertion in a sequence. *)
Definition insert_sorted (l : list Z) : list Z := filter (fun y => compare y z <= 0) l ++ z :: filter (fun y => 0 < compare y z) l.

Lemma place_split cx : place cx -> before cx ++ z :: after cx = insert_sorted (before cx ++ after cx).
Proof.
  intros Hp. unfold insert_sorted. rewrite !filter_app. pose proof (place_before _ Hp) as Hb. pose proof (place_after _ Hp) as Ha.
  rewrite (filter_all _ (before cx)) by done. rewrite (filter_none (fun y => compare y z <= 0) (after cx)) by (intros y Hy; specialize (Ha y Hy); lia).
  rewrite (filter_none (fun y => 0 < compare y z) (before cx)) by (intros y Hy; specialize (Hb y Hy); lia). rewrite (filter_all _ (after cx)) by done.
  by rewrite app_nil_r.
Qed.

Lemma blacken x a b h c : bal (T c x a b) h -> rb_ok (T false x a b).
Proof. intros H. split; [done|]. destruct c; [|by exists h]. exists (S h). simpl in *. tauto. Qed.

Lemma rb_insert_spec s t nz : rep s [] t -> rb_ok t ->
  StronglySorted (fun a b => 0 < compare a z -> 0 < compare b z) (elems t) ->
  nodes s !! z = Some nz -> z ∉ tnil s :: troot s :: elems t ->
  exists s' t', rb_insert compare z s = Ok (tt, s') /\ rep s' [] t' /\ rb_ok t' /\ elems t' = insert_sorted (elems t) /\
    framed (elems t') s s'.
Proof.
  intros H Hok Hs Hz Hfr. rewrite !not_elem_of_cons in Hfr. destruct Hfr as (Hzn & Hzr & Hzl).
  destruct (insert_binary_spec s t nz H Hz Hzn Hzr Hzl Hs) as (s1 & cx & E1 & Ht & Hp & H1).
  unfold rb_insert. mstep E1. rewrite mk_T in H1. paint H1 true s2 H2. rewrite bind_gets.
  rewrite <- Ht in Hok. apply unplug_bal in Hok as (h & Hh & Hcx).
  destruct (insert_fixup_spec _ _ (S (size (nodes s2))) s2 cx z E E h H2) as (s3 & t3 & E3 & H3 & h3 & Hb3).
  { by cbn in *. } { done. }
  { pose proof (rep_size _ _ _ (reach_rep _ _ _ _ _ H2)). pose proof (length_plug cx (mk L true z E E)). lia. }
  mstep E3. rewrite bind_gets. mstep (rd_spec _ _ _ (rep_ctx _ _ _ (reach_rep _ _ _ _ _ H3))). cbn [left].
  destruct t3 as [|c x a b].
  { destruct H3 as [_ He _]. cbn in He. by destruct (before cx). }
  rewrite mk_T in H3. cbn [root_of]. paint H3 false s4 H4. pose proof (reach_rep _ _ _ _ _ H4) as R4. rewrite bind_gets.
  destruct (rep_nil _ _ _ R4) as (nn & Hnn & Hred). mstep (rd_spec _ _ _ Hnn).
  pose proof (reach_framed _ _ _ _ _ H3) as (_ & Er3 & _). pose proof (reach_framed _ _ _ _ _ H4) as (_ & Er4 & _).
  pose proof (rep_ctx _ _ _ R4) as Hr4. cbn [ctx_at] in Hr4. rewrite Er4, <- Er3 in Hr4. mstep (rd_spec _ _ _ Hr4). rewrite Hred.
  exists s4, (T false x a b). split_and!; [done|done|by eapply blacken| |].
  - etransitivity; [exact (reach_elems _ _ _ _ _ H4)|]. rewrite (place_split _ Hp), <- Ht, elems_plug. done.
  - pose proof (reach_elems _ _ _ _ _ H4) as E4. cbn [plug mk] in E4. rewrite E4. apply H4.
Qed.
End insertion.

(** ** Search *)

Lemma plug_app cx1 cx2 t : plug (cx1 ++ cx2) t = plug cx2 (plug cx1 t).
Proof. revert t. induction cx1 as [|[d c x a] cx1 IH]; intros t; [done|]. cbn [app plug]. apply IH. Qed.

Lemma rep_focus s cx cx' t : rep s cx (plug cx' t) -> rep s (cx' ++ cx) t.
Proof. revert t. induction cx' as [|[d c x a] cx' IH]; intros t H; [done|]. apply (IH (mk d c x t a)) in H. by apply rep_down. Qed.

Lemma rep_node_ne s cx c x a b : rep s cx (T c x a b) -> x <> tnil s /\ x <> troot s.
Proof. intros H. destruct (rep_fresh _ _ _ H) as (_ & _ & Hn & _). destruct (Hn x) as (? & ? & _); [simpl; set_solver|done]. Qed.

(** Every node equal to the key is at or below the node found. *)
Definition found (cmp : Z -> Z) (t : tree) (res : option Z) : Prop :=
  match res with
  | Some x => exists cx c a b, t = plug cx (T c x a b) /\ cmp x = 0 /\ forall y, y ∈ celems cx -> cmp y <> 0
  | None => forall y, y ∈ elems t -> cmp y <> 0
  end.

Lemma search_loop_spec cmp s fuel : forall cx t, rep s cx t -> (length (elems t) < fuel)%nat ->
  StronglySorted (fun a b => Z.sgn (cmp a) <= Z.sgn (cmp b)) (elems t) -> (forall y, y ∈ celems cx -> cmp y <> 0) ->
  exists res, search_loop fuel cmp (root_of (tnil s) t) s = Ok (res, s) /\ found cmp (plug cx t) res.
Proof.
  induction fuel as [|fuel IH]; intros cx t H Hf Hs Hcx; [lia|]. cbn [search_loop]. rewrite bind_gets. destruct t as [|c x a b]; cbn [root_of].
  { rewrite Z.eqb_refl. exists None. split; [done|]. intros y [Hy|Hy]%elem_of_plug; [by apply Hcx|by apply not_elem_of_nil in Hy]. }
  destruct (rep_node_ne _ _ _ _ _ _ H) as [Hxn _]. destruct (Z.eqb_spec x (tnil s)); [done|].
  destruct (Z.eqb_spec (cmp x) 0) as [Hx|Hx].
  { exists (Some x). split; [done|]. by exists cx, c, a, b. }
  rewrite mk_T in H. mstep (rep_rd _ _ _ _ _ _ _ H). cbn [mkn left right elems] in *. rewrite length_app in Hf. simpl in Hf.
  apply sorted_app_iff in Hs as (Ha & Hs & Hax). apply StronglySorted_inv in Hs as [Hb Hxb]. rewrite list.Forall_forall in Hxb.
  destruct (Z.ltb_spec 0 (cmp x)) as [Hc|Hc].
  - apply rep_down in H. apply (IH _ _ H); [lia|done|]. intros y [->|[Hy|Hy]]%elem_of_celems; [done| |by apply Hcx].
    specialize (Hxb y Hy). lia.
  - rewrite mk_flip in H. apply rep_down in H. apply (IH _ _ H); [lia|done|]. intros y [->|[Hy|Hy]]%elem_of_celems; [done| |by apply Hcx].
    specialize (Hax y x Hy ltac:(left)). lia.
Qed.

(** Search ends without a fault and returns a node equal to the key exactly
    when there is one; every other equal node is below the one returned. *)
Theorem rb_search_correct cmp s t : rep s [] t -> StronglySorted (fun a b => Z.sgn (cmp a) <= Z.sgn (cmp b)) (elems t) ->
  exists res, rb_search cmp s = Ok (res, s) /\ found cmp t res.
Proof.
  intros H Hs. unfold rb_search. rewrite bind_gets. mstep (rd_spec _ _ _ (rep_ctx _ _ _ H)). rewrite bind_gets. cbn [left].
  apply (search_loop_spec cmp s _ [] t); [done| |done|by intros ? ?%not_elem_of_nil]. pose proof (rep_size _ _ _ H). cbn [plug] in *. lia.
Qed.

(** ** Neighbours *)

Definition dir_of (f : frame) : dir := match f with Fr d _ _ _ => d end.

(** A tree taken apart at the end of its children in direction [d]. *)
Definition ends (d : dir) (t : tree) (cx : ctx) (c : bool) (y : Z) (b : tree) : Prop :=
  plug cx (mk d c y E b) = t /\ Forall (fun f => dir_of f = d) cx.

Lemma descend_spec s d fuel : forall cx t, rep s cx t -> t <> E -> (length (elems t) < fuel)%nat ->
  exists cx' c y b, descend fuel d (root_of (tnil s) t) s = Ok (y, s) /\ ends d t cx' c y b.
Proof.
  induction fuel as [|fuel IH]; intros cx t H Ht Hf; [lia|]. cbn [descend]. rewrite bind_gets.
  assert (exists c x a b, t = mk d c x a b) as (c & x & a & b & ->).
  { destruct t as [|c x a b]; [done|]. destruct d; [by exists c, x, a, b|by exists c, x, b, a]. }
  rewrite root_of_mk. mstep (rep_rd _ _ _ _ _ _ _ H). rewrite child_mkn. apply rep_down in H. destruct a as [|ca xa aa ab]; cbn [root_of].
  { rewrite Z.eqb_refl. exists [], c, x, b. split_and!; [done|]. split; [done|constructor]. }
  destruct (rep_node_ne _ _ _ _ _ _ H) as [Hn _]. destruct (Z.eqb_spec xa (tnil s)); [done|].
  destruct (IH _ _ H) as (cx' & c' & y & b' & E1 & E2 & Hd); [done| |].
  { assert (length (elems (T ca xa aa ab)) < length (elems (mk d c x (T ca xa aa ab) b)))%nat; [|lia].
    destruct d; cbn [mk elems]; rewrite !length_app; simpl; rewrite ?length_app; simpl; lia. }
  exists (cx' ++ [Fr d c x b]), c', y, b'. split_and!; [done|]. split; [by rewrite plug_app, E2|]. apply Forall_app. split; [done|by constructor].
Qed.

Lemma path_left cx : Forall (fun f => dir_of f = L) cx -> before cx = [].
Proof. induction 1 as [|[d c x a] cx Hd _ IH]; [done|]. cbn in Hd. by subst d. Qed.
Lemma path_right cx : Forall (fun f => dir_of f = R) cx -> after cx = [].
Proof. induction 1 as [|[d c x a] cx Hd _ IH]; [done|]. cbn in Hd. by subst d. Qed.

Lemma ends_left t cx c y b : ends L t cx c y b -> elems t = y :: elems b ++ after cx.
Proof. intros [<- Hd]. rewrite elems_plug, (path_left cx Hd). done. Qed.
Lemma ends_right t cx c y b : ends R t cx c y b -> elems t = before cx ++ elems b ++ [y].
Proof. intros [<- Hd]. rewrite elems_plug, (path_right cx Hd). cbn [mk elems]. by rewrite app_nil_r. Qed.

Lemma rep_up_rd s cx t : rep s cx t -> cx <> [] -> exists c p a,
  rd (up (troot s) cx) s = Ok (mkn (hole cx) c p (root_of (tnil s) t) a, s) /\ up (troot s) cx <> troot s /\
  p = up (troot s) (tail cx) /\ (t <> E -> a <> root_of (tnil s) t).
Proof.
  intros H Hcx. destruct cx as [|[d c x a] cx]; [done|]. cbn [up hole tail]. exists c, (up (troot s) cx), (root_of (tnil s) a).
  split_and!; [apply rep_down, rep_rd in H; by rewrite H| |done|intros Ht; by apply (sibling_ne _ _ _ _ _ _ _ H)].
  destruct (rep_fresh _ _ _ H) as (_ & _ & _ & Hc). by destruct (Hc x) as (_ & ? & _); [apply elem_of_celems; by left|].
Qed.

Lemma climb_succ_spec s fuel : forall cx t, rep s cx t -> t <> E -> (length cx < fuel)%nat ->
  climb_succ fuel (root_of (tnil s) t) (up (troot s) cx) s = Ok (default (troot s) (head (after cx)), s).
Proof.
  induction fuel as [|fuel IH]; intros cx t H Ht Hf; [lia|]. cbn [climb_succ].
  assert (Hx : root_of (tnil s) t <> tnil s) by (destruct t; [done|]; by apply rep_node_ne in H as [? _]).
  destruct cx as [|f cx]; [|destruct (rep_up_rd s (f :: cx) t H ltac:(done)) as (c & p & a & E1 & Hr & Hp & Ha); mstep E1].
  { cbn [up]. mstep (rd_spec _ _ _ (rep_ctx _ _ _ H)). cbn [right]. by destruct (Z.eqb_spec (root_of (tnil s) t) (tnil s)). }
  specialize (Ha Ht). destruct f as [d cf x b]. cbn [hole up tail] in *. subst p. destruct d; cbn [mkn right parent].
  - destruct (Z.eqb_spec (root_of (tnil s) t) a); [congruence|]. done.
  - rewrite Z.eqb_refl. apply rep_down in H. specialize (IH cx _ H ltac:(done)). rewrite root_of_mk in IH. cbn [after]. apply IH. simpl in Hf. lia.
Qed.

Lemma climb_pred_spec s fuel : forall cx t, rep s cx t -> t <> E -> (length cx < fuel)%nat ->
  climb_pred fuel (root_of (tnil s) t) (up (troot s) cx) s = Ok (default (tnil s) (last (before cx)), s).
Proof.
  induction fuel as [|fuel IH]; intros cx t H Ht Hf; [lia|]. cbn [climb_pred].
  destruct cx as [|f cx]; [|destruct (rep_up_rd s (f :: cx) t H ltac:(done)) as (c & p & a & E1 & Hr & Hp & Ha); mstep E1].
  { cbn [up]. mstep (rd_spec _ _ _ (rep_ctx _ _ _ H)). cbn [left]. by rewrite Z.eqb_refl, bind_gets, Z.eqb_refl. }
  specialize (Ha Ht). destruct f as [d cf x b]. cbn [hole up tail] in *. subst p. destruct d; cbn [mkn left parent].
  - rewrite Z.eqb_refl, bind_gets. destruct (Z.eqb_spec x (troot s)); [done|]. apply rep_down in H. specialize (IH cx _ H ltac:(done)).
    rewrite root_of_mk in IH. cbn [before]. apply IH. simpl in Hf. lia.
  - destruct (Z.eqb_spec (root_of (tnil s) t) a); [congruence|]. cbn [before]. rewrite (assoc_L (++)), last_snoc. done.
Qed.

Lemma elem_focus t x : x ∈ elems t -> exists cx c a b, t = plug cx (T c x a b).
Proof.
  induction t as [|c y a IHa b IHb]; cbn [elems]; [by intros ?%not_elem_of_nil|].
  intros [(cx & c' & a' & b' & ->)%IHa|[->|(cx & c' & a' & b' & ->)%IHb]%elem_of_cons]%elem_of_app.
  - exists (cx ++ [Fr L c y b]), c', a', b'. by rewrite plug_app.
  - by exists [], c, a, b.
  - exists (cx ++ [Fr R c y a]), c', a', b'. by rewrite plug_app.
Qed.

Lemma head_app {A} (l1 l2 : list A) : head (l1 ++ l2) = match head l1 with Some x => Some x | None => head l2 end.
Proof. by destruct l1. Qed.

Lemma rep_focus_fuel s cx t : rep s cx t -> (length cx < S (size (nodes s)))%nat /\ (length (elems t) < S (size (nodes s)))%nat.
Proof. intros H. pose proof (rep_size _ _ _ H). pose proof (length_plug cx t). lia. Qed.

Lemma elems_plug_at cx c x a b : elems (plug cx (T c x a b)) = (before cx ++ elems a) ++ x :: elems b ++ after cx.
Proof. rewrite elems_plug. cbn [elems]. by rewrite <- !(assoc_L (++)). Qed.

Lemma rep_nodup_at s cx c x a b : rep s cx (T c x a b) -> x ∉ before cx ++ elems a /\ x ∉ elems b ++ after cx.
Proof.
  intros H. pose proof (rep_nodup _ _ _ H) as Hn. apply NoDup_cons in Hn as [_ Hn]. apply NoDup_cons in Hn as [_ Hn].
  rewrite elems_plug_at in Hn. apply NoDup_app in Hn as (_ & Hd & Hn). apply NoDup_cons in Hn as [? _]. set_solver.
Qed.

(** A successor below [x] is the left end of its right subtree. *)
Lemma successor_below s cx c x a b : rep s cx (T c x a b) -> b <> E ->
  exists cx' c' y e, rb_tree_successor x s = Ok (y, s) /\ ends L b cx' c' y e.
Proof.
  intros H Hb. unfold rb_tree_successor. rewrite bind_gets. mstep (rep_rd s cx L c x a b H). rewrite bind_gets. cbn [mkn right].
  pose proof H as H'. rewrite mk_T, mk_flip in H'. apply rep_down in H'. destruct b as [|cb y ba bb]; [done|]. cbn [root_of].
  destruct (rep_node_ne _ _ _ _ _ _ H') as [Hn _]. destruct (Z.eqb_spec y (tnil s)); [done|]. cbn [negb].
  apply (descend_spec s L _ _ (T cb y ba bb) H'); [done|]. by apply rep_focus_fuel in H' as [_ ?].
Qed.

Lemma predecessor_below s cx c x a b : rep s cx (T c x a b) -> a <> E ->
  exists cx' c' y e, rb_tree_predecessor x s = Ok (y, s) /\ ends R a cx' c' y e.
Proof.
  intros H Ha. unfold rb_tree_predecessor. rewrite bind_gets. mstep (rep_rd s cx L c x a b H). rewrite bind_gets. cbn [mkn left].
  pose proof H as H'. rewrite mk_T in H'. apply rep_down in H'. destruct a as [|ca y aa ab]; [done|]. cbn [root_of].
  destruct (rep_node_ne _ _ _ _ _ _ H') as [Hn _]. destruct (Z.eqb_spec y (tnil s)); [done|]. cbn [negb].
  apply (descend_spec s R _ _ (T ca y aa ab) H'); [done|]. by apply rep_focus_fuel in H' as [_ ?].
Qed.

Lemma not_nil_in s cx t y : rep s cx t -> y ∈ elems (plug cx t) -> not_nil y s = Ok (Some y, s).
Proof.
  intros H Hy. unfold not_nil. rewrite bind_gets. apply rep_up in H. destruct (rep_fresh _ _ _ H) as (_ & _ & Hn & _).
  destruct (Hn y Hy) as (? & _). by destruct (Z.eqb_spec y (tnil s)).
Qed.

Lemma not_nil_nil s : not_nil (tnil s) s = Ok (None, s).
Proof. unfold not_nil. by rewrite bind_gets, Z.eqb_refl. Qed.

(** The neighbours of a node are those of the sequence. *)
Lemma rb_node_next_spec s t x : rep s [] t -> x ∈ elems t -> rb_node_next x s = Ok (next_in (elems t) x, s).
Proof.
  intros H (cx & c & a & b & ->)%elem_focus. apply rep_focus in H. rewrite app_nil_r in H.
  destruct (rep_nodup_at _ _ _ _ _ _ H) as [Hx1 Hx2]. rewrite elems_plug_at, next_in_app, head_app by done. unfold rb_node_next.
  destruct (decide (b = E)) as [->|Hb].
  - unfold rb_tree_successor. rewrite !bind_assoc_M, bind_gets, bind_assoc_M. mstep (rep_rd s cx L c x a E H). rewrite bind_assoc_M, bind_gets.
    cbn [mkn right root_of parent]. rewrite Z.eqb_refl. cbn [negb]. rewrite bind_assoc_M.
    pose proof (climb_succ_spec s (S (size (nodes s))) cx _ H ltac:(done) (proj1 (rep_focus_fuel _ _ _ H))) as E1. cbn [root_of] in E1. mstep E1.
    rewrite bind_assoc_M, bind_gets. cbn [elems head]. destruct (head (after cx)) as [y|] eqn:Ey; cbn [default from_option id].
    + assert (Hy : y ∈ elems (plug cx (T c x a E))) by (rewrite elems_plug_at; apply head_Some_elem_of in Ey; set_solver).
      pose proof (rep_fresh _ _ _ (rep_up _ _ _ H)) as (_ & _ & Hn & _). destruct (Hn y Hy) as (_ & Hr & _).
      destruct (Z.eqb_spec y (troot s)); [done|]. by apply (not_nil_in _ _ _ _ H).
    + rewrite Z.eqb_refl. apply not_nil_nil.
  - destruct (successor_below _ _ _ _ _ _ H Hb) as (cx' & c' & y & e & E1 & He). mstep E1. apply ends_left in He. rewrite He. cbn [app head].
    apply (not_nil_in _ _ _ _ H). rewrite elems_plug_at, He. set_solver.
Qed.

Lemma rb_node_prev_spec s t x : rep s [] t -> x ∈ elems t -> rb_node_prev x s = Ok (prev_in (elems t) x, s).
Proof.
  intros H (cx & c & a & b & ->)%elem_focus. apply rep_focus in H. rewrite app_nil_r in H.
  destruct (rep_nodup_at _ _ _ _ _ _ H) as [Hx1 Hx2]. rewrite elems_plug_at, prev_in_app by done. unfold rb_node_prev.
  destruct (decide (a = E)) as [->|Ha].
  - unfold rb_tree_predecessor. rewrite !bind_assoc_M, bind_gets, bind_assoc_M. mstep (rep_rd s cx L c x E b H). rewrite bind_assoc_M, bind_gets.
    cbn [mkn left root_of parent]. rewrite Z.eqb_refl. cbn [negb elems]. rewrite app_nil_r.
    pose proof (climb_pred_spec s (S (size (nodes s))) cx _ H ltac:(done) (proj1 (rep_focus_fuel _ _ _ H))) as E1. cbn [root_of] in E1. mstep E1.
    destruct (last (before cx)) as [y|] eqn:Ey; cbn [default from_option id]; [|apply not_nil_nil].
    apply (not_nil_in _ _ _ _ H). rewrite elems_plug_at. apply last_Some_elem_of in Ey. set_solver.
  - destruct (predecessor_below _ _ _ _ _ _ H Ha) as (cx' & c' & y & e & E1 & He). mstep E1. apply ends_right in He.
    rewrite He, !(assoc_L (++)), last_snoc. apply (not_nil_in _ _ _ _ H). rewrite elems_plug_at, He. set_solver.
Qed.
