(* ===== verification/RbDelete.v ===== *)
(** * RbDelete: deletion from red-black trees, and the kernel's checker

    [rb_delete] and [check_tree] of libs/rb_tree.c: deletion takes exactly the
    given node out of a balanced tree and leaves a balanced tree, the repair loop
    ends, and the checker decides balance. *)

From stdpp Require Import numbers gmap sorting list.
From S2P Require Import Prelude RbTree.
Local Open Scope Z_scope.

(** ** Deletion *)

(** [RB_DELETE_FIXUP_SUB]: the sibling [w], after a red one has been rotated up; ... *)
Definition delete_sibling (d : dir) (x : Z) : M rbt Z :=
  p ← uparent x;
  np ← rd p;
  let w := child (opp d) np in
  nw ← rd w;
  if red nw then
    _ ← upd w (with_red false);
    p ← uparent x;
    _ ← upd p (with_red true);
    p ← uparent x;
    _ ← rb_rotate d p;
    p ← uparent x;
    np ← rd p;
    mret (child (opp d) np)
  else mret w.

(** ... the sibling, with a red far child; ... *)
Definition delete_turn (d : dir) (x w : Z) : M rbt Z :=
  nw ← rd w;
  nr ← rd (child (opp d) nw);
  if negb (red nr) then
    _ ← upd (child d nw) (with_red false);
    _ ← upd w (with_red true);
    _ ← rb_rotate (opp d) w;
    p ← uparent x;
    np ← rd p;
    mret (child (opp d) np)
  else mret w.

(** ... the last rotation; ... *)
Definition delete_last (d : dir) (x w : Z) : M rbt unit :=
  p ← uparent x;
  np ← rd p;
  _ ← upd w (with_red (red np));
  p ← uparent x;
  _ ← upd p (with_red false);
  nw ← rd w;
  _ ← upd (child (opp d) nw) (with_red false);
  p ← uparent x;
  rb_rotate d p.

(** ... and the whole; [root] is the root when the repair began. *)
Definition delete_sub (d : dir) (root x : Z) : M rbt Z :=
  w ← delete_sibling d x;
  nw ← rd w;
  nl ← rd (child d nw);
  nr ← rd (child (opp d) nw);
  if negb (red nl) && negb (red nr) then
    _ ← upd w (with_red true);
    uparent x
  else
    w ← delete_turn d x w;
    _ ← delete_last d x w;
    mret root.

Fixpoint delete_loop (fuel : nat) (root x : Z) : M rbt Z :=
  match fuel with
  | O => fail OutOfFuel
  | S fuel' =>
      nx ← rd x;
      if negb (x =? root) && negb (red nx) then
        np ← rd (parent nx);
        x' ← delete_sub (if x =? left np then L else R) root x;
        delete_loop fuel' root x'
      else mret x
  end.

Definition rb_delete_fixup (x : Z) : M rbt unit :=
  r ← gets troot;
  nr ← rd r;
  k ← gets (fun s => size (nodes s));
  x' ← delete_loop (S k) (left nr) x;
  upd x' (with_red false).

(** [rb_delete]: the child [x] takes the place of [y], whose parent is [u]; ... *)
Definition delete_splice (y u x : Z) : M rbt unit :=
  _ ← upd x (with_up u);
  np ← rd u;
  if y =? left np then upd u (with_child L x) else upd u (with_child R x).

(** ... [y] takes the place of [z]. *)
Definition delete_swap (z y : Z) : M rbt unit :=
  nz ← rd z;
  np ← rd (parent nz);
  _ ← (if z =? left np then upd (parent nz) (with_child L y) else upd (parent nz) (with_child R y));
  nz ← rd z;
  _ ← upd (right nz) (with_up y);
  _ ← upd (left nz) (with_up y);
  nz ← rd z;
  upd y (fun _ => nz).

Definition rb_delete (z : Z) : M rbt unit :=
  n ← gets tnil;
  r ← gets troot;
  nz ← rd z;
  y ← (if (left nz =? n) || (right nz =? n) then mret z else rb_tree_successor z);
  ny ← rd y;
  let x := if negb (left ny =? n) then left ny else right ny in
  _ ← kassert (negb (y =? r) && negb (y =? n));
  _ ← delete_splice y (parent ny) x;
  let need_fixup := negb (red ny) in
  _ ← (if negb (y =? z) then delete_swap z y else mret tt);
  if need_fixup then rb_delete_fixup x else mret tt.

(** ** The kernel's own checker *)

Fixpoint check_tree (compare : Z -> Z -> Z) (fuel : nat) (x : Z) : M rbt Z :=
  match fuel with
  | O => fail OutOfFuel
  | S fuel' =>
      n ← gets tnil;
      nx ← rd x;
      if x =? n then _ ← kassert (negb (red nx)); mret 1
      else
        nl ← rd (left nx);
        _ ← (if negb (left nx =? n) then _ ← kassert (0 <=? compare x (left nx)); kassert (parent nl =? x) else mret tt);
        nr ← rd (right nx);
        _ ← (if negb (right nx =? n) then _ ← kassert (compare x (right nx) <=? 0); kassert (parent nr =? x) else mret tt);
        _ ← (if red nx then kassert (negb (red nl) && negb (red nr)) else mret tt);
        hl ← check_tree compare fuel' (left nx);
        hr ← check_tree compare fuel' (right nx);
        _ ← kassert (hl =? hr);
        mret (if red nx then hl else hl + 1)
  end.

(** ** One round of the repair *)

(** Balanced except that a red root may have red children. *)
Definition semi (t : tree) (h : nat) : Prop := match t with T true _ a b => bal a h /\ bal b h | _ => bal t h end.

Lemma bal_S t h : bal t (S h) -> t <> E.
Proof. by destruct t. Qed.

Lemma semi_mk d c x a b h : bal a h -> bal b h -> semi (mk d c x a b) (if c then h else S h).
Proof. intros Ha Hb. destruct d, c; simpl; done. Qed.

Lemma bal_as d t h : bal t (S h) -> exists c x a b, t = mk d c x a b.
Proof. destruct t as [|c x a b]; [done|]. intros _. destruct d; [by exists c, x, a, b|by exists c, x, b, a]. Qed.

(** The sentinel, when it stands for the focus, points to the parent [u]. *)
Definition hung (l : list Z) (s0 : rbt) (u : Z) (t : tree) : Prop :=
  t = E -> tnil s0 ∉ l /\ tnil s0 <> troot s0 /\ exists nn, nodes s0 !! tnil s0 = Some nn /\ parent nn = u.

(** [x] is a black node of [t]. *)
Definition black_in (x : Z) (t : tree) : Prop := exists cx a b, t = plug cx (T false x a b).

Lemma black_in_mk d x a b cx : black_in x (plug cx (mk d false x a b)).
Proof. destruct d; by eexists cx, _, _. Qed.

Section round.
Context (l : list Z) (s0 : rbt) (d : dir) (t : tree) (p : Z) (x : Z).
Hypothesis Hx : x = root_of (tnil s0) t.
Hypothesis Hhung : hung l s0 p t.
Implicit Types (s : rbt) (cx : ctx).

Lemma hung_uparent s cx e c W : reach l s0 s (Fr e c p W :: cx) t -> uparent x s = Ok (p, s).
Proof.
  intros H. destruct (reach_framed _ _ _ _ _ H) as (En & Er & Hf). destruct t as [|ct y a b].
  - destruct (Hhung eq_refl) as (Hl & Hr & nn & Hn & Hp). cbn [root_of] in Hx. subst x. unfold uparent.
    mstep (rd_spec s _ _ (eq_trans (Hf _ Hr Hl) Hn)). by rewrite Hp.
  - cbn [root_of] in Hx. subst x. by apply (reach_uparent _ _ _ _ L _ _ _ _ H).
Qed.

Lemma sibling_of s cx e c W : reach l s0 s (Fr e c p W :: cx) t ->
  rd p s = Ok (mkn e c (up (troot s) cx) x (root_of (tnil s) W), s).
Proof. intros H. destruct (reach_framed _ _ _ _ _ H) as (En & _). apply reach_pop, reach_rd in H. by rewrite H, Hx, En. Qed.

(** Moving between the focus and its sibling. *)
Lemma reach_over s cx e c W : reach l s0 s (Fr e c p W :: cx) t -> reach l s0 s (Fr (opp e) c p t :: cx) W.
Proof. intros H. apply reach_push. rewrite mk_opp. by apply reach_pop. Qed.
Lemma reach_back s cx e c W : reach l s0 s (Fr (opp e) c p t :: cx) W -> reach l s0 s (Fr e c p W :: cx) t.
Proof. intros H. apply reach_push. rewrite mk_flip. by apply reach_pop. Qed.

Lemma delete_sibling_black s cx c W : reach l s0 s (Fr d c p W :: cx) t -> is_red W = false ->
  delete_sibling d x s = Ok (root_of (tnil s) W, s).
Proof.
  intros H HW. unfold delete_sibling. mstep (hung_uparent _ _ _ _ _ H). mstep (sibling_of _ _ _ _ _ H). rewrite child_opp_mkn.
  destruct (reach_colour _ _ _ _ _ (reach_over _ _ _ _ _ H)) as (nw & E1 & Hr). mstep E1. by rewrite Hr, HW.
Qed.

Lemma delete_sibling_red s cx c w a b : reach l s0 s (Fr d c p (mk d true w a b) :: cx) t ->
  exists s', delete_sibling d x s = Ok (root_of (tnil s') a, s') /\ reach l s0 s' (Fr d true p a :: Fr d false w b :: cx) t.
Proof.
  intros H. unfold delete_sibling. mstep (hung_uparent _ _ _ _ _ H). mstep (sibling_of _ _ _ _ _ H). rewrite child_opp_mkn, root_of_mk.
  apply reach_over in H. mstep (reach_rd _ _ _ _ _ _ _ _ _ H). rewrite red_mkn. paint H false s1 H1. apply reach_back in H1.
  mstep (hung_uparent _ _ _ _ _ H1). apply reach_pop in H1. paint H1 true s2 H2. apply reach_push in H2. mstep (hung_uparent _ _ _ _ _ H2).
  apply reach_pop in H2. rotate H2 s3 H3. do 2 apply reach_push in H3. mstep (hung_uparent _ _ _ _ _ H3). mstep (sibling_of _ _ _ _ _ H3).
  rewrite child_opp_mkn. by exists s3.
Qed.

(** A black sibling with a red child becomes one whose far child is red. *)
Lemma delete_turn_spec s cx c w a b h : reach l s0 s (Fr d c p (mk d false w a b) :: cx) t -> bal a h -> bal b h ->
  is_red a || is_red b = true ->
  exists s' w' a' v b1 b2, delete_turn d x w s = Ok (w', s') /\
    reach l s0 s' (Fr d c p (mk d false w' a' (mk d true v b1 b2)) :: cx) t /\ bal a' h /\ bal b1 h /\ bal b2 h.
Proof.
  intros H Ha Hb Hr. unfold delete_turn. apply reach_over in H. mstep (reach_rd _ _ _ _ _ _ _ _ _ H). rewrite child_opp_mkn, child_mkn.
  rewrite mk_flip in H. apply reach_push in H. destruct (reach_colour _ _ _ _ _ H) as (nb & E1 & Hnb). mstep E1. rewrite Hnb.
  apply reach_pop in H. rewrite mk_opp in H. destruct (is_red b) eqn:Eb; cbn [negb].
  - destruct (mk_as d b Eb) as (v & b1 & b2 & ->). apply bal_mk in Hb as [(_ & _ & _ & Hb1 & Hb2)|[? _]]; [|done].
    exists s, w, a, v, b1, b2. split_and!; [done|by apply reach_back|done..].
  - rewrite orb_false_r in Hr. destruct (mk_as d a Hr) as (v & a1 & a2 & ->). rewrite root_of_mk.
    apply bal_mk in Ha as [(_ & Hr1 & Hr2 & Ha1 & Ha2)|[? _]]; [|done].
    apply reach_push in H. paint H false s1 H1. apply reach_pop in H1. paint H1 true s2 H2.
    rewrite mk_flip, (mk_flip d false) in H2. rotate H2 s3 H3. rewrite mk_opp, (mk_opp d) in H3. apply reach_back in H3.
    mstep (hung_uparent _ _ _ _ _ H3). mstep (sibling_of _ _ _ _ _ H3). rewrite child_opp_mkn, root_of_mk.
    exists s3, v, a1, w, a2, b. split_and!; done.
Qed.

Lemma delete_last_spec s cx c w a v b1 b2 : reach l s0 s (Fr d c p (mk d false w a (mk d true v b1 b2)) :: cx) t ->
  exists s', delete_last d x w s = Ok (tt, s') /\ reach l s0 s' cx (mk d c w (mk d false p t a) (mk d false v b1 b2)).
Proof.
  intros H. unfold delete_last. mstep (hung_uparent _ _ _ _ _ H). mstep (sibling_of _ _ _ _ _ H). rewrite red_mkn.
  apply reach_over in H. paint H c s1 H1. apply reach_back in H1. mstep (hung_uparent _ _ _ _ _ H1). apply reach_pop in H1. paint H1 false s2 H2.
  apply reach_push, reach_over in H2. mstep (reach_rd _ _ _ _ _ _ _ _ _ H2). rewrite child_opp_mkn, root_of_mk.
  rewrite mk_flip in H2. apply reach_push in H2. paint H2 false s3 H3. apply reach_pop in H3. rewrite mk_opp in H3.
  apply reach_back in H3. mstep (hung_uparent _ _ _ _ _ H3). apply reach_pop in H3.
  destruct (reach_rotate _ _ _ _ _ _ _ _ _ _ _ _ H3) as (s4 & E4 & H4). by exists s4.
Qed.

(** The outcomes of a round below [p]: the focus moves to [p], ... *)
Definition moved (s : rbt) (cx : ctx) (c : bool) (h : nat) : Prop :=
  exists W, reach l s0 s cx (mk d c p t W) /\ bal W h.
(** ... or the tree is whole. *)
Definition whole (s : rbt) (cx : ctx) (c : bool) (h : nat) : Prop :=
  exists t', reach l s0 s cx t' /\ bal t' (if c then S h else S (S h)) /\ is_red t' = c /\
    forall cx', black_in p (plug cx' t').

Lemma delete_rest_spec s cx c w a b h root : reach l s0 s (Fr d c p (mk d false w a b) :: cx) t -> bal t h -> bal a h -> bal b h ->
  exists s' x', (nw ← rd w; nl ← rd (child d nw); nr ← rd (child (opp d) nw);
      if negb (red nl) && negb (red nr) then _ ← upd w (with_red true); uparent x
      else w ← delete_turn d x w; _ ← delete_last d x w; mret root) s = Ok (x', s') /\
    (x' = p /\ moved s' cx c h \/ x' = root /\ whole s' cx c h).
Proof.
  intros H Ht Ha Hb. pose proof (reach_over _ _ _ _ _ H) as HW. mstep (reach_rd _ _ _ _ _ _ _ _ _ HW). rewrite child_opp_mkn, child_mkn.
  destruct (reach_colour _ _ _ _ _ (reach_push _ _ _ _ _ _ _ _ _ HW)) as (na & Ea & Hna). mstep Ea.
  pose proof HW as HW'. rewrite mk_flip in HW'. destruct (reach_colour _ _ _ _ _ (reach_push _ _ _ _ _ _ _ _ _ HW')) as (nb & Eb & Hnb). mstep Eb.
  rewrite Hna, Hnb, <- negb_orb. destruct (is_red a || is_red b) eqn:Er; cbn [negb].
  - destruct (delete_turn_spec _ _ _ _ _ _ _ H Ha Hb Er) as (s1 & w' & a' & v & b1 & b2 & E1 & H1 & Ha' & Hb1 & Hb2). mstep E1.
    destruct (delete_last_spec _ _ _ _ _ _ _ _ H1) as (s2 & E2 & H2). mstep E2. exists s2, root. split; [done|right]. split; [done|].
    eexists. split_and!; [exact H2| |apply is_red_mk|].
    + apply bal_mk. rewrite !is_red_mk. destruct c; [left|right; split; [done|]; eexists; split; [done|]];
        split_and!; try done; apply bal_mk; right; eauto.
    + intros cx'. pose proof (black_in_mk d p t a' (Fr d c w' (mk d false v b1 b2) :: cx')) as Hbl. exact Hbl.
  - apply orb_false_iff in Er as [Era Erb]. paint HW true s1 H1. apply reach_back in H1. rewrite (hung_uparent _ _ _ _ _ H1).
    exists s1, p. split; [done|left]. split; [done|]. exists (mk d true w a b). split; [by apply reach_pop|]. apply bal_mk. by left.
Qed.

Lemma delete_sub_spec s cx c W h root : reach l s0 s (Fr d c p W :: cx) t -> bal t h -> bal W (S h) -> (c = true -> is_red W = false) ->
  exists s' x', delete_sub d root x s = Ok (x', s') /\
    (if is_red W then exists w b, bal b (S h) /\
       (x' = p /\ moved s' (Fr d false w b :: cx) true h \/ x' = root /\ whole s' (Fr d false w b :: cx) true h)
     else x' = p /\ moved s' cx c h \/ x' = root /\ whole s' cx c h).
Proof.
  intros H Ht HW Hc. unfold delete_sub. destruct (is_red W) eqn:Er.
  - destruct (mk_as d W Er) as (w & a & b & ->). destruct (delete_sibling_red _ _ _ _ _ _ H) as (s1 & E1 & H1). mstep E1.
    apply bal_mk in HW as [(_ & Hra & Hrb & Ha & Hb)|[? _]]; [|done]. destruct (bal_as d a h Ha) as (ca & xa & a1 & a2 & ->).
    rewrite is_red_mk in Hra. subst ca. rewrite root_of_mk. apply bal_mk in Ha as [[? _]|(_ & h' & [= <-] & Ha1 & Ha2)]; [done|].
    destruct (delete_rest_spec _ _ _ _ _ _ _ root H1 Ht Ha1 Ha2) as (s2 & x' & E2 & Hres). exists s2, x'. split; [done|]. by exists w, b.
  - rewrite (bind_step _ _ _ _ _ (delete_sibling_black _ _ _ _ H Er)). destruct (bal_as d W h HW) as (cw & w & a & b & ->).
    rewrite is_red_mk in Er. subst cw. rewrite root_of_mk. apply bal_mk in HW as [[? _]|(_ & h' & [= <-] & Ha & Hb)]; [done|].
    by apply (delete_rest_spec _ _ _ _ _ _ _ root H).
Qed.
End round.

(** ** The repair loop *)

Section loop.
Context (l : list Z) (s0 : rbt).
Implicit Types (s : rbt) (cx : ctx) (t : tree).

(** Painting [x] black is all that is left. *)
Definition finishes (s : rbt) (x : Z) : Prop :=
  exists s' t', upd x (with_red false) s = Ok (tt, s') /\ reach l s0 s' [] t' /\ rb_ok t'.

Lemma paint_nil s cx t : reach l s0 s cx t -> exists s', upd (tnil s) (with_red false) s = Ok (tt, s') /\ reach l s0 s' cx t.
Proof.
  intros H. destruct (rep_nil _ _ _ (reach_rep _ _ _ _ _ H)) as (nn & Hn & Hr). exists s. split; [|done].
  rewrite (upd_spec _ _ _ _ Hn). f_equal. f_equal. destruct nn as [c p a b], s as [m n r]. cbn in *. subst c. unfold set_nodes, with_red. cbn.
  by rewrite insert_id.
Qed.

Lemma finish_focus s cx t h : reach l s0 s cx t -> semi t h -> ctx_bal cx false (S h) -> cx = [] \/ is_red t = true ->
  finishes s (root_of (tnil s) t).
Proof.
  intros H Ht Hcx Hstop. unfold finishes. destruct t as [|c x a b]; cbn [root_of].
  - destruct Hstop as [->|?]; [|done]. destruct (paint_nil _ _ _ H) as (s' & E1 & H1). exists s', E. split_and!; [done|done|].
    split; [done|]. by exists 0%nat.
  - destruct (reach_paint _ _ _ _ L c x a b false H) as (s' & E1 & H1). exists s', (plug cx (T false x a b)).
    split_and!; [done|by apply reach_top|]. destruct Hstop as [->|Hr].
    + split; [done|]. destruct c; [exists (S h)|exists h]; done.
    + cbn in Hr. destruct c; [|done]. by apply (plug_bal cx _ (S h)).
Qed.

Lemma finish_root s t x : reach l s0 s [] t -> rb_ok t -> black_in x t -> finishes s x.
Proof.
  intros H Hok (cx & a & b & ->). assert (Hf : reach l s0 s cx (mk L false x a b)).
  { destruct H as [H He Hf]. apply rep_focus in H. rewrite app_nil_r in H. by split. }
  destruct (reach_paint _ _ _ _ _ _ _ _ _ false Hf) as (s' & E1 & H1). exists s', (plug cx (T false x a b)). split_and!; [done|by apply reach_top|done].
Qed.

Lemma root_plug n cx t t' : cx <> [] -> root_of n (plug cx t) = root_of n (plug cx t') /\ root_of n (plug cx t) ∈ celems cx.
Proof.
  revert t t'. induction cx as [|[d c x a] cx IH]; intros t t' Hc; [done|]. cbn [plug]. rewrite elem_of_celems.
  destruct cx as [|f cx]; [cbn; rewrite !root_of_mk; tauto|]. destruct (IH (mk d c x t a) (mk d c x t' a) ltac:(done)) as [-> ?]. tauto.
Qed.

Lemma root_black n t : rb_ok t -> t <> E -> black_in (root_of n t) t.
Proof. intros [Hr _] Ht. destruct t as [|[] x a b]; [done|done|]. by exists [], a, b. Qed.

(** The root found at the start of the repair is a black node of the final tree. *)
Lemma finish_whole s d k p t W root cx cx' c h : whole l s0 p s (cx' ++ cx) c h ->
  ctx_bal (cx' ++ cx) c (if c then S h else S (S h)) -> root = root_of (tnil s) (plug cx (mk d k p t W)) -> finishes s root.
Proof.
  intros (t' & H & Ht & Hr & Hbl) Hcx ->. pose proof (plug_bal _ _ _ Ht ltac:(by rewrite Hr)) as Hok.
  apply (finish_root s (plug (cx' ++ cx) t')); [by apply reach_top|done|]. destruct (decide (cx = [])) as [->|Hne].
  - cbn [plug]. rewrite root_of_mk. apply Hbl.
  - rewrite plug_app in *. destruct (root_plug (tnil s) cx (mk d k p t W) (plug cx' t') Hne) as [-> _]. apply root_black; [done|].
    destruct cx as [|[e ce y ye] cx]; [done|]. intros Hz. pose proof (elem_of_plug y (Fr e ce y ye :: cx) (plug cx' t')) as Hy.
    rewrite Hz, elem_of_celems in Hy. cbn [elems] in Hy. rewrite elem_of_nil in Hy. tauto.
Qed.

Lemma hung_some u s cx d c x a b : reach l s0 s cx (mk d c x a b) -> hung l s0 u (mk d c x a b).
Proof. intros _ H. by destruct d. Qed.

Lemma reach_tnil s cx t : reach l s0 s cx t -> tnil s = tnil s0.
Proof. by intros [_ _ (-> & _)]. Qed.

Lemma focus_ne_root s f cx t : reach l s0 s (f :: cx) t -> root_of (tnil s) t <> root_of (tnil s) (plug (f :: cx) t).
Proof.
  intros H. destruct (root_plug (tnil s) (f :: cx) t t ltac:(done)) as [_ Hin]. intros E1. rewrite <- E1 in Hin.
  destruct (rep_fresh _ _ _ (reach_rep _ _ _ _ _ H)) as (_ & _ & _ & Hc). destruct (Hc _ Hin) as (? & _ & Hn).
  destruct t as [|c x a b]; [done|]. apply Hn. simpl. set_solver.
Qed.

(** The loop stops at once on a red node. *)
Lemma delete_loop_red fuel root s cx d c x a b h : fuel <> 0%nat -> reach l s0 s cx (mk d c x a b) -> c = true -> semi (mk d c x a b) h ->
  ctx_bal cx false (S h) -> exists x' s', delete_loop fuel root x s = Ok (x', s') /\ finishes s' x'.
Proof.
  intros Hf H -> Ht Hcx. destruct fuel as [|fuel]; [done|]. cbn [delete_loop]. mstep (reach_rd _ _ _ _ _ _ _ _ _ H).
  rewrite red_mkn, andb_false_r. exists x, s. split; [done|]. pose proof (finish_focus s cx _ h H Ht Hcx) as Hfin. rewrite root_of_mk in Hfin.
  apply Hfin. right. apply is_red_mk.
Qed.

(** A call with the captured root stops at once, too. *)
Lemma delete_loop_root fuel root s : fuel <> 0%nat -> finishes s root -> exists x' s', delete_loop fuel root root s = Ok (x', s') /\ finishes s' x'.
Proof.
  intros Hf Hfin. destruct fuel as [|fuel]; [done|]. cbn [delete_loop].
  assert (exists nr, nodes s !! root = Some nr) as [nr Hr].
  { destruct Hfin as (s' & t' & E1 & _). unfold upd in E1. destruct (nodes s !! root); [by eexists|done]. }
  mstep (rd_spec _ _ _ Hr). rewrite Z.eqb_refl. by exists root, s.
Qed.

Lemma delete_loop_spec fuel : forall s cx t h, reach l s0 s cx t -> semi t h -> ctx_bal cx false (S h) -> hung l s0 (up (troot s0) cx) t ->
  (S (length cx) < fuel)%nat ->
  exists x' s', delete_loop fuel (root_of (tnil s0) (plug cx t)) (root_of (tnil s0) t) s = Ok (x', s') /\ finishes s' x'.
Proof.
  induction fuel as [|fuel IH]; intros s cx t h H Ht Hcx Hh Hf; [lia|]. pose proof (reach_tnil _ _ _ H) as En.
  destruct (reach_colour _ _ _ _ _ H) as (nt & E1 & Hr). cbn [delete_loop]. rewrite <- En. mstep E1. rewrite Hr.
  destruct cx as [|[d c p W] cx].
  { cbn [plug]. rewrite Z.eqb_refl. cbn. eexists _, s. split; [done|]. apply (finish_focus s [] t h); [done..|by left]. }
  destruct (Z.eqb_spec (root_of (tnil s) t) (root_of (tnil s) (plug (Fr d c p W :: cx) t))) as [Heq|_]; [by apply focus_ne_root in Heq|].
  destruct (is_red t) eqn:Ert; cbn [negb andb].
  { eexists _, s. split; [done|]. apply (finish_focus s (Fr d c p W :: cx) t h); [done..|by right]. }
  set (root := root_of (tnil s) (plug (Fr d c p W :: cx) t)). cbn [up] in Hh. destruct Hcx as (Hc & HW & Hcx).
  assert (Hbt : bal t h) by (destruct t as [|[] ? ? ?]; done).
  assert (Hpar : parent nt = p).
  { pose proof (hung_uparent l s0 t p _ eq_refl Hh _ _ _ _ _ H) as E2. unfold uparent in E2. rewrite <- En in E2. rewrite (bind_step _ _ _ _ _ E1) in E2.
    by injection E2. }
  rewrite Hpar. pose proof (sibling_of l s0 t p _ eq_refl _ _ _ _ _ H) as E2. rewrite <- En in E2. mstep E2. clear E2.
  rewrite side_mkn; cycle 1.
  { destruct t as [|ct xt at_ bt]; [|by apply (sibling_ne _ _ _ _ _ _ _ (reach_rep _ _ _ _ _ H))]. cbn [root_of].
    destruct W as [|cw w wa wb]; [done|]. cbn [root_of]. apply reach_pop in H. rewrite mk_flip in H. apply reach_push in H.
    by apply (rep_node_ne _ _ _ _ _ _ (reach_rep _ _ _ _ _ H)). }
  destruct (delete_sub_spec l s0 d t p _ eq_refl Hh s cx c W h root H Hbt HW ltac:(naive_solver)) as (s1 & x' & E3 & Hres).
  rewrite <- En in E3. mstep E3. clear E3. simpl in Hf.
  assert (Etn : forall s' cx' t', reach l s0 s' cx' t' -> tnil s' = tnil s) by (intros s' cx' t' H'; by rewrite (reach_tnil _ _ _ H')).
  destruct (is_red W) eqn:ErW.
  - assert (c = false) as -> by (destruct c; naive_solver). destruct Hres as (w & b & Hb & [(-> & W1 & H1 & HW1)|(-> & Hwh)]).
    + eapply (delete_loop_red fuel root s1 _ d true p t W1 h); [lia|done|done|by apply (semi_mk d true)|done].
    + apply delete_loop_root; [lia|]. eapply (finish_whole s1 d false p t W root cx [Fr d false w b] true h Hwh); [done|].
      destruct Hwh as (t' & H1 & _). by rewrite (Etn _ _ _ H1).
  - destruct Hres as [(-> & W1 & H1 & HW1)|(-> & Hwh)].
    + assert (root = root_of (tnil s0) (plug cx (mk d c p t W1))) as ->.
      { unfold root. rewrite En. cbn [plug]. destruct (decide (cx = [])) as [->|Hne]; [cbn; by rewrite !root_of_mk|]. by apply root_plug. }
      pose proof (IH s1 cx (mk d c p t W1) (if c then h else S h) H1 (semi_mk d c p t W1 h Hbt HW1)) as IH'.
      rewrite root_of_mk in IH'. apply IH'; [|by eapply hung_some|lia]. apply ctx_bal_weaken in Hcx. by destruct c.
    + apply delete_loop_root; [lia|]. eapply (finish_whole s1 d c p t W root cx [] c h Hwh); [done|].
      destruct Hwh as (t' & H1 & _). by rewrite (Etn _ _ _ H1).
Qed.

Lemma delete_fixup_spec s cx t h : reach l s0 s cx t -> semi t h -> ctx_bal cx false (S h) -> hung l s0 (up (troot s0) cx) t ->
  exists s' t', rb_delete_fixup (root_of (tnil s0) t) s = Ok (tt, s') /\ reach l s0 s' [] t' /\ rb_ok t'.
Proof.
  intros H Ht Hcx Hh. unfold rb_delete_fixup. rewrite bind_gets. mstep (rd_spec _ _ _ (rep_ctx _ _ _ (rep_up _ _ _ (reach_rep _ _ _ _ _ H)))).
  rewrite bind_gets. cbn [left]. pose proof (rep_size _ _ _ (reach_rep _ _ _ _ _ H)). pose proof (length_plug cx t).
  destruct (delete_loop_spec (S (size (nodes s))) s cx t h H Ht Hcx Hh ltac:(lia)) as (x' & s1 & E1 & Hfin).
  rewrite (reach_tnil _ _ _ H). mstep E1. exact Hfin.
Qed.
End loop.

(** ** Taking a node out *)

(** The node at the root of [t], or the sentinel, gets the parent [p]. *)
Definition hang (m : gmap Z rb_node) (n p : Z) (t : tree) : gmap Z rb_node :=
  match t with E => alter (with_up p) n m | _ => reparent m n p t end.

Lemma hang_spec m s n p q t : tree_at m n q t -> is_Some (m !! n) ->
  upd (root_of n t) (with_up p) (set_nodes m s) = Ok (tt, set_nodes (hang m n p t) s).
Proof.
  destruct t as [|c x a b]; cbn [tree_at root_of hang reparent].
  - intros _ [nn Hn]. rewrite (upd_set _ _ _ _ _ Hn). f_equal. f_equal. f_equal. apply map_eq. intros z.
    destruct (decide (z = n)) as [->|Hz]; [by rewrite lookup_insert_eq, lookup_alter_eq, Hn|by rewrite lookup_insert_ne, lookup_alter_ne].
  - intros (Hx & _) _. by rewrite (upd_set _ _ _ _ _ Hx).
Qed.

Lemma lookup_hang_ne m n p t z : z <> n -> z ∉ elems t -> hang m n p t !! z = m !! z.
Proof. intros Hn Hz. destruct t as [|c x a b]; [by apply lookup_alter_ne|by apply lookup_reparent_ne]. Qed.

Lemma hang_at m n p q t : tree_at m n q t -> NoDup (elems t) -> tree_at (hang m n p t) n p t.
Proof. destruct t as [|c x a b]; [done|]. by apply reparent_at. Qed.

Lemma hang_nil m n p t nn : m !! n = Some nn -> n ∉ elems t -> hang m n p t !! n = Some (match t with E => with_up p nn | _ => nn end).
Proof. intros Hn Ht. destruct t as [|c x a b]; cbn [hang]; [by rewrite lookup_alter_eq, Hn|by rewrite lookup_reparent_ne]. Qed.

(** A new tree at the focus, with new elements. *)
Lemma rep_build s cx t t' m' : rep s cx t -> NoDup (tnil s :: troot s :: elems (plug cx t')) ->
  (exists nn, m' !! tnil s = Some nn /\ red nn = false) ->
  (forall z, z = troot s \/ z ∈ celems cx -> z <> up (troot s) cx -> m' !! z = nodes s !! z) ->
  m' !! up (troot s) cx = with_child (hole cx) (root_of (tnil s) t') <$> nodes s !! up (troot s) cx ->
  tree_at m' (tnil s) (up (troot s) cx) t' ->
  rep (set_nodes m' s) cx t'.
Proof.
  intros H Hnd Hn Hm Hu Ht. destruct (rep_path _ _ _ H) as (P1 & P2 & P3). split; cbn [set_nodes tnil troot nodes]; [done|done| |done].
  eapply ctx_redirect; [apply H|done..].
Qed.

(** The sentinel when it stands for the tree [t] below [u]. *)
Definition nil_below (s : rbt) (u : Z) (t : tree) : Prop := t = E -> exists nn, nodes s !! tnil s = Some nn /\ parent nn = u.

(** Redirecting towards the left or the right child, as the code spells it. *)
Lemma redirect_lr m s h y cu pu au u hd : m !! u = Some (mkn hd cu pu h au) -> au <> h ->
  (if h =? left (mkn hd cu pu h au) then upd u (with_child L y) else upd u (with_child R y)) (set_nodes m s) =
  Ok (tt, set_nodes (<[u := mkn hd cu pu y au]> m) s).
Proof. apply (redirect_spec m s L). Qed.

Lemma nodup_drop (a b c e : list Z) y n r : NoDup (n :: r :: a ++ (b ++ y :: c) ++ e) -> NoDup (n :: r :: a ++ (b ++ c) ++ e).
Proof. rewrite <- !(assoc_L (++)). cbn [app]. rewrite !NoDup_cons, !NoDup_app, !NoDup_cons, !NoDup_app. set_solver. Qed.

Lemma elems_end d c y X : exists l1 l2, elems (mk d c y E X) = l1 ++ y :: l2 /\ elems X = l1 ++ l2.
Proof. destruct d; cbn [mk elems]; [by exists [], (elems X)|exists (elems X), []]. by rewrite app_nil_r. Qed.

(** The only child [X] takes the place of [y]. *)
Lemma splice_spec s cx d c y X (u := up (troot s) cx) (x := root_of (tnil s) X) : rep s cx (mk d c y E X) ->
  exists s', delete_splice y u x s = Ok (tt, s') /\
    rep s' cx X /\ nil_below s' u X /\ framed (tnil s :: elems (plug cx X)) s s'.
Proof.
  intros H. set (n := tnil s) in *. destruct (rep_fresh _ _ _ H) as (Hnr & Hnd & Hft & Hfc). destruct (up_fresh _ _ _ H) as [Hun Hut].
  destruct (up_node _ _ _ H) as (cu & pu & au & Hu & Hau). destruct (rep_nil _ _ _ H) as (nn & Hnn & Hred). rewrite root_of_mk in Hu.
  pose proof (rep_tree _ _ _ H) as (Hy & _ & HX)%tree_at_mk. fold n u in Hu, Hnn, Hun, Hut, HX, Hnr, Hft, Hau.
  assert (HinX : forall z, z ∈ elems X -> z ∈ elems (mk d c y E X)) by (intros; apply elem_of_mk; tauto).
  assert (Hyin : y ∈ elems (mk d c y E X)) by (apply elem_of_mk; tauto). apply nodup_mk in Hnd as (_ & HyX & _ & HndX & _).
  assert (HnX : n ∉ elems X) by (intros Hz; by destruct (Hft _ (HinX _ Hz))). assert (HuX : u ∉ elems X) by (intros Hz; by apply Hut, HinX).
  assert (Hauy : au <> y). { destruct Hau as [->|Hau]; [by destruct (Hft _ Hyin) as [? _]|]. intros ->. done. }
  set (m1 := hang (nodes s) n u X). assert (Hu1 : m1 !! u = Some (mkn (hole cx) cu pu y au)) by (unfold m1; by rewrite lookup_hang_ne).
  set (m2 := <[u := mkn (hole cx) cu pu x au]> m1). assert (Hn2 : m2 !! n = Some (match X with E => with_up u nn | _ => nn end)).
  { unfold m2, m1. rewrite lookup_insert_ne by done. by apply hang_nil. }
  exists (set_nodes m2 s). split_and!.
  - unfold delete_splice. rewrite <- (set_nodes_id s) at 1. mstep (hang_spec (nodes s) s n u y X HX ltac:(by eexists)). fold m1. mstep (rd_set m1 s _ _ Hu1).
    by rewrite (redirect_lr _ _ _ _ _ _ _ _ _ Hu1 Hauy).
  - eapply rep_build; [exact H| |exists (match X with E => with_up u nn | _ => nn end); split; [done|by destruct X]| | |]; fold n u.
    + pose proof (rep_nodup _ _ _ H) as Hnd. rewrite elems_plug in Hnd |- *. destruct (elems_end d c y X) as (l1 & l2 & E1 & E2).
      rewrite E1 in Hnd. rewrite E2. by apply (nodup_drop _ _ _ _ y).
    + intros z Hz Hzu. unfold m2, m1. rewrite lookup_insert_ne by done. rewrite lookup_hang_ne; [done| |].
      * destruct Hz as [->|Hz]; [done|by destruct (Hfc _ Hz)].
      * intros HzX. destruct (Hft _ (HinX _ HzX)) as (_ & ? & ?). tauto.
    + rewrite Hu. unfold m2. rewrite lookup_insert_eq. cbn. by rewrite with_child_mkn.
    + eapply tree_at_ext; [|exact (hang_at _ _ u _ _ HX HndX)]. intros z Hz. apply lookup_insert_ne. intros <-. done.
  - intros ->. exists (with_up u nn). split; [exact Hn2|done].
  - split_and!; [done|done|]. intros z Hzr Hz. cbn [set_nodes nodes]. rewrite elem_of_cons, elem_of_plug in Hz. unfold m2, m1.
    rewrite lookup_insert_ne; [rewrite lookup_hang_ne; [done|tauto..]|]. intros <-. destruct (up_cases (troot s) cx); [done|tauto].
Qed.

Lemma nodup_swap (a b : list Z) y z n r : NoDup (n :: r :: a ++ z :: b) -> y ∉ n :: r :: a ++ b -> NoDup (n :: r :: a ++ y :: b).
Proof. rewrite !NoDup_cons, !NoDup_app, !NoDup_cons. set_solver. Qed.

(** The node [y], outside the tree, takes the place of [z], which has a left child. *)
Lemma swap_spec s cx c z a b y ny : rep s cx (T c z a b) -> a <> E -> nodes s !! y = Some ny ->
  y ∉ tnil s :: troot s :: elems (plug cx (T c z a b)) ->
  exists s', delete_swap z y s = Ok (tt, s') /\
    rep s' cx (T c y a b) /\ nil_below s' y b /\ (b <> E -> nodes s' !! tnil s = nodes s !! tnil s) /\
    framed (tnil s :: y :: elems (plug cx (T c z a b))) s s'.
Proof.
  intros H Ha0 Hy Hfy. set (n := tnil s) in *. set (u := up (troot s) cx).
  rewrite !not_elem_of_cons, elem_of_plug in Hfy. cbn [elems] in Hfy. rewrite elem_of_app, elem_of_cons in Hfy. destruct Hfy as (Hyn & Hyr & Hyt).
  destruct (rep_fresh _ _ _ H) as (Hnr & Hnd & Hft & Hfc). destruct (up_fresh _ _ _ H) as [Hun Hut].
  destruct (up_node _ _ _ H) as (cu & pu & au & Hu & Hau). destruct (rep_nil _ _ _ H) as (nn & Hnn & Hred).
  pose proof (rep_tree _ _ _ H) as (Hz & Ha & Hb). cbn [root_of] in Hu. fold n u in Hu, Hnn, Hun, Hut, Hz, Ha, Hb, Hnr, Hft, Hau.
  apply (nodup_mk L c z a b) in Hnd as (Hza & Hzb & Na & Nb & Hab). setoid_rewrite (elem_of_mk _ L c z a b) in Hft. rewrite (elem_of_mk _ L c z a b) in Hut.
  destruct (Hft z ltac:(tauto)) as (Hzn & Hzr & Hzc).
  assert (Hn : n ∉ elems a /\ n ∉ elems b) by (split; intros Hz'; destruct (Hft n ltac:(tauto)); done). destruct Hn as [Hna Hnb].
  assert (Hauz : au <> z). { destruct Hau as [->|Hau]; [done|]. rewrite (elem_of_mk _ L c z a b) in Hau. intros ->. tauto. }
  assert (Hyu : y <> u) by (intros ->; destruct (up_cases (troot s) cx); [done|tauto]). assert (Hzu : z <> u) by (intros ->; tauto).
  set (m1 := <[u := mkn (hole cx) cu pu y au]> (nodes s)). set (m2 := hang m1 n y b). set (m3 := reparent m2 n y a).
  set (vz := RbNode c u (root_of n a) (root_of n b)) in *. set (m4 := <[y := vz]> m3).
  assert (Hz1 : m1 !! z = Some vz) by (unfold m1; by rewrite lookup_insert_ne).
  assert (Hz2 : m2 !! z = Some vz) by (unfold m2; by rewrite lookup_hang_ne).
  assert (Hz3 : m3 !! z = Some vz) by (unfold m3; by rewrite lookup_reparent_ne).
  assert (Hn1 : m1 !! n = Some nn) by (unfold m1; by rewrite lookup_insert_ne).
  assert (Hb1 : tree_at m1 n z b).
  { eapply tree_at_ext; [|exact Hb]. intros x Hx. apply lookup_insert_ne. intros <-. tauto. }
  assert (Ha2 : tree_at m2 n z a).
  { eapply tree_at_ext; [|exact Ha]. intros x Hx. unfold m2, m1. rewrite lookup_hang_ne; [|congruence|by apply Hab].
    apply lookup_insert_ne. intros <-. tauto. }
  assert (Hy3 : m3 !! y = Some ny).
  { unfold m3, m2, m1. rewrite lookup_reparent_ne by tauto. rewrite lookup_hang_ne by tauto. by rewrite lookup_insert_ne. }
  assert (Hn4 : m4 !! n = Some (match b with E => with_up y nn | _ => nn end)).
  { unfold m4, m3, m2. rewrite lookup_insert_ne, lookup_reparent_ne by done. by apply hang_nil. }
  assert (Hsame : forall x, x <> y -> x <> u -> x <> n -> x ∉ elems a -> x ∉ elems b -> m4 !! x = nodes s !! x).
  { intros x X1 X2 X3 X4 X5. unfold m4, m3, m2, m1. rewrite lookup_insert_ne, lookup_reparent_ne, lookup_hang_ne by done. by rewrite lookup_insert_ne. }
  exists (set_nodes m4 s). split_and!.
  - unfold delete_swap. mstep (rd_spec s _ _ Hz). cbn [vz parent]. mstep (rd_spec s _ _ Hu). rewrite <- (set_nodes_id s) at 1.
    mstep (redirect_lr (nodes s) s z y _ _ _ _ _ Hu Hauz). fold m1. mstep (rd_set m1 s _ _ Hz1). cbn [vz right left].
    mstep (hang_spec m1 s n y z b Hb1 ltac:(by eexists)). fold m2.
    assert (E2 : upd (root_of n a) (with_up y) (set_nodes m2 s) = Ok (tt, set_nodes m3 s)).
    { destruct a as [|ca xa a1 a2]; [done|]. by rewrite (upd_set _ _ _ _ _ (proj1 Ha2)). }
    mstep E2. mstep (rd_set m3 s _ _ Hz3). by rewrite (upd_set _ _ _ _ _ Hy3).
  - eapply rep_build; [exact H| |exists (match b with E => with_up y nn | _ => nn end); split; [done|by destruct b]| | |]; fold n u.
    + pose proof (rep_nodup _ _ _ H) as Hnd. rewrite elems_plug_at in Hnd |- *. apply (nodup_swap _ _ y z); [done|].
      unfold celems in Hyt. rewrite !not_elem_of_cons, !elem_of_app. rewrite elem_of_app in Hyt. fold n. tauto.
    + intros x Hx Hxu. assert (x <> n /\ x <> y /\ x ∉ elems a /\ x ∉ elems b) as (? & ? & ? & ?); [|by apply Hsame].
      destruct Hx as [->|Hx]; [split_and!; try done; intros Hx; by destruct (Hft (troot s) ltac:(tauto)) as (_ & ? & _)|].
      destruct (Hfc x Hx) as (? & _ & Hx'). rewrite (elem_of_mk _ L c z a b) in Hx'. split_and!; [done|intros ->; tauto|tauto..].
    + rewrite Hu. cbn. rewrite with_child_mkn. unfold m4, m3, m2, m1. rewrite lookup_insert_ne, lookup_reparent_ne, lookup_hang_ne by tauto.
      by rewrite lookup_insert_eq.
    + cbn [tree_at]. split_and!; [unfold m4; by rewrite lookup_insert_eq| |].
      * eapply tree_at_ext; [|exact (reparent_at m2 n y z a Ha2 Na)]. intros x Hx. apply lookup_insert_ne. intros <-. tauto.
      * eapply tree_at_ext; [|exact (hang_at m1 n y z b Hb1 Nb)]. intros x Hx. unfold m4, m3.
        rewrite lookup_insert_ne by (intros <-; tauto). apply lookup_reparent_ne. intros Hx'. by apply (Hab x).
  - intros ->. exists (with_up y nn). split; [exact Hn4|done].
  - intros Hb0. cbn [set_nodes nodes]. rewrite Hn4, Hnn. by destruct b.
  - split_and!; [done|done|]. intros x Hxr Hx. cbn [set_nodes nodes]. rewrite !not_elem_of_cons, elem_of_plug, (elem_of_mk _ L c z a b) in Hx.
    apply Hsame; [tauto| |tauto..]. intros ->. destruct (up_cases (troot s) cx); [done|tauto].
Qed.

(** ** The whole deletion *)

Lemma bal_semi t h : bal t h -> semi t h.
Proof. destruct t as [|[] x a b]; simpl; tauto. Qed.

Lemma ctx_bal_relabel cx1 cx2 d c z y a : forall k h, ctx_bal (cx1 ++ Fr d c z a :: cx2) k h -> ctx_bal (cx1 ++ Fr d c y a :: cx2) k h.
Proof. induction cx1 as [|[e ce x b] cx1 IH]; intros k h; cbn [app ctx_bal]; [done|]. intros (? & ? & ?). split_and!; [done..|]. by apply IH. Qed.

(** What the removal of a node of colour [c] leaves at the focus. *)
Definition short (c : bool) (cx : ctx) (X : tree) : Prop :=
  if c then rb_ok (plug cx X) else exists h, bal X h /\ ctx_bal cx false (S h).

Lemma splice_short d c y X h cx : bal (mk d c y E X) h -> ctx_bal cx c h -> short c cx X.
Proof.
  intros [(-> & _ & Hr & HE & HX)|(-> & h' & -> & HE & HX)]%bal_mk Hcx; cbn.
  - apply (plug_bal cx X h); [done|]. rewrite Hr. by eapply ctx_bal_weaken.
  - by exists h'.
Qed.

Lemma repair_spec s cx c X : rep s cx X -> nil_below s (up (troot s) cx) X -> short c cx X ->
  exists s' t', (if negb c then rb_delete_fixup (root_of (tnil s) X) else mret tt) s = Ok (tt, s') /\
    reach (elems (plug cx X)) s s' [] t' /\ rb_ok t'.
Proof.
  intros H Hn Hsh. assert (H0 : reach (elems (plug cx X)) s s cx X) by (split; [done|done|apply framed_refl]).
  destruct c; cbn [negb short] in *.
  - exists s, (plug cx X). split_and!; [done|by apply reach_top|done].
  - destruct Hsh as (h & HX & Hcx). apply (delete_fixup_spec _ _ s cx X h H0); [by apply bal_semi|done|]. intros HE.
    destruct (Hn HE) as (nn & Hnn & Hp). pose proof (rep_nodup _ _ _ H) as [Hn1 _]%NoDup_cons. rewrite not_elem_of_cons in Hn1.
    split_and!; [tauto|tauto|by exists nn].
Qed.

Lemma framed_weaken l l' s s' : (forall z, z ∈ l -> z ∈ l') -> framed l s s' -> framed l' s s'.
Proof. intros Hl (H1 & H2 & H3). split_and!; [done|done|]. intros z Hr Hz. apply H3; [done|]. intros Hz'. by apply Hz, Hl. Qed.

(** The outcome of a deletion that leaves the elements [l']. *)
Definition deleted (z : Z) (s : rbt) (l l' : list Z) : Prop :=
  exists s' t', rb_delete z s = Ok (tt, s') /\ rep s' [] t' /\ rb_ok t' /\ elems t' = l' /\ framed (tnil s :: l) s s'.

Lemma deleted_intro z s l l' s1 s2 t' : rb_delete z s = Ok (tt, s2) -> reach l' s1 s2 [] t' -> rb_ok t' -> framed (tnil s :: l) s s1 ->
  (forall x, x ∈ l' -> x ∈ l) -> deleted z s l l'.
Proof.
  intros E1 [H He Hf] Hok Hf1 Hl. exists s2, t'. split_and!; [done..|]. eapply framed_trans; [done|]. eapply framed_weaken; [|done]. set_solver.
Qed.

Lemma only_child s cx d c z X : rep s cx (mk d c z E X) ->
  let nz := mkn d c (up (troot s) cx) (tnil s) (root_of (tnil s) X) in
  (left nz =? tnil s) || (right nz =? tnil s) = true /\ (if negb (left nz =? tnil s) then left nz else right nz) = root_of (tnil s) X.
Proof.
  intros H. destruct d; cbn [mkn left right]; rewrite Z.eqb_refl; [done|]. rewrite orb_true_r. split; [done|].
  by destruct (Z.eqb_spec (root_of (tnil s) X) (tnil s)).
Qed.

Lemma delete_one s cx d c z X : rep s cx (mk d c z E X) -> rb_ok (plug cx (mk d c z E X)) ->
  deleted z s (elems (plug cx (mk d c z E X))) (elems (plug cx X)).
Proof.
  intros H Hok. destruct (splice_spec _ _ _ _ _ _ H) as (s1 & E1 & H1 & Hn1 & F1). pose proof F1 as (En1 & Er1 & _).
  apply unplug_bal in Hok as (h & Hb & Hcx). rewrite is_red_mk in Hcx. rewrite <- Er1 in Hn1.
  destruct (repair_spec s1 cx c X H1 Hn1 (splice_short _ _ _ _ _ _ Hb Hcx)) as (s2 & t' & E2 & H2 & Hok').
  destruct (only_child _ _ _ _ _ _ H) as [Ec Ex]. destruct (rep_fresh _ _ _ H) as (_ & _ & Hft & _).
  destruct (Hft z) as (Hzn & Hzr & _); [apply elem_of_mk; tauto|].
  apply (deleted_intro _ _ _ _ s1 s2 t'); [|done|done| |].
  - unfold rb_delete. rewrite !bind_gets. pose proof (rep_rd _ _ _ _ _ _ _ H) as Ez. cbn [root_of] in Ez. mstep Ez. rewrite Ec.
    match goal with |- context [(mret z ≫= ?k) s] => change ((mret z ≫= k) s) with (k z s); cbv beta end.
    mstep Ez. cbv zeta. rewrite Ex, parent_mkn, red_mkn. massert; [|by destruct (Z.eqb_spec z (troot s)), (Z.eqb_spec z (tnil s))].
    mstep E1. rewrite Z.eqb_refl. rewrite <- En1. exact E2.
  - eapply framed_weaken; [|done]. intros x. rewrite !elem_of_cons, !elem_of_plug, elem_of_mk. tauto.
  - intros x. rewrite !elem_of_plug, elem_of_mk. tauto.
Qed.

Lemma rep_unfocus s cx cx' t : rep s (cx' ++ cx) t -> rep s cx (plug cx' t).
Proof. revert t. induction cx' as [|[d c x a] cx' IH]; intros t H; [done|]. apply IH. by apply rep_down. Qed.

Lemma rep_refocus s cx cx' d c x a e : rep s cx (mk d c x (plug cx' e) a) <-> rep s (cx' ++ Fr d c x a :: cx) e.
Proof.
  split; intros H.
  - apply rep_focus. by apply rep_down.
  - apply rep_down. by apply rep_unfocus.
Qed.

Lemma plug_E cx t : plug cx t = E -> cx = [] /\ t = E.
Proof.
  destruct cx as [|[d c x a] cx]; [done|]. intros H. exfalso. pose proof (elem_of_plug x (Fr d c x a :: cx) t) as Hx. rewrite H in Hx.
  rewrite elem_of_celems in Hx. cbn [elems] in Hx. rewrite elem_of_nil in Hx. tauto.
Qed.

Lemma rep_node_fresh s cx d c y e : rep s cx (mk d c y E e) -> y ∉ tnil s :: troot s :: elems (plug cx e).
Proof.
  intros H. destruct (rep_fresh _ _ _ H) as (_ & Hnd & Hft & _). destruct (Hft y) as (? & ? & ?); [apply elem_of_mk; tauto|].
  apply nodup_mk in Hnd as (_ & ? & _). rewrite !not_elem_of_cons, elem_of_plug. tauto.
Qed.

(** Both steps of the removal of a node with two children. *)
Lemma splice_swap s cx c z a cx' c' y e (cz := cx' ++ Fr R c z a :: cx) (cy := cx' ++ Fr R c y a :: cx) :
  rep s cz (mk L c' y E e) -> a <> E ->
  exists s1 s2, delete_splice y (up (troot s) cz) (root_of (tnil s) e) s = Ok (tt, s1) /\ delete_swap z y s1 = Ok (tt, s2) /\
    rep s2 cy e /\ nil_below s2 (up (troot s) cy) e /\ framed (tnil s :: elems (plug cz (mk L c' y E e))) s s2.
Proof.
  intros H Ha. destruct (splice_spec _ _ _ _ _ _ H) as (s1 & E1 & H1 & Hn1 & F1). pose proof F1 as (En1 & Er1 & Hf1).
  pose proof (rep_node_fresh _ _ _ _ _ _ H) as Hfy. rewrite !not_elem_of_cons in Hfy.
  pose proof (rep_tree _ _ _ H) as (Hy & _)%tree_at_mk. rewrite <- Hf1 in Hy by (rewrite ?not_elem_of_cons; tauto).
  pose proof H1 as H1'. apply rep_refocus in H1'. cbn [mk] in H1'.
  assert (Epl : plug cz e = plug cx (T c z a (plug cx' e))) by (unfold cz; by rewrite plug_app).
  destruct (swap_spec s1 cx c z a (plug cx' e) y _ H1' Ha Hy) as (s2 & E2 & H2 & Hn2 & Hkeep & F2).
  { rewrite !not_elem_of_cons, En1, Er1, <- Epl. tauto. }
  pose proof F2 as (En2 & Er2 & _). exists s1, s2. split_and!; [done|done|by apply rep_refocus| |].
  - intros ->. unfold cy. destruct cx' as [|[d0 c0 x0 a0] cx'].
    + by apply Hn2.
    + destruct (Hn1 eq_refl) as (nn & Hnn & Hp). exists nn. split; [|done]. rewrite En2, Hkeep; [done|]. by intros [? _]%plug_E.
  - rewrite En1 in F2. eapply framed_trans; [eapply framed_weaken, F1|eapply framed_weaken, F2]; intros x; rewrite <- ?Epl;
      rewrite !elem_of_cons, ?elem_of_plug, elem_of_mk; tauto.
Qed.

Lemma delete_two s cx c z a b : rep s cx (T c z a b) -> a <> E -> b <> E -> rb_ok (plug cx (T c z a b)) ->
  deleted z s (elems (plug cx (T c z a b))) ((before cx ++ elems a) ++ elems b ++ after cx).
Proof.
  intros H Ha Hb Hok. destruct (successor_below _ _ _ _ _ _ H Hb) as (cx' & c' & y & e & Es & He). pose proof (ends_left _ _ _ _ _ He) as Eb.
  destruct He as [Epb Hdirs]. set (cz := cx' ++ Fr R c z a :: cx). set (cy := cx' ++ Fr R c y a :: cx).
  assert (Hy : rep s cz (mk L c' y E e)) by (apply (rep_refocus s cx cx' R c z a); cbn [mk]; cbn [mk] in Epb; by rewrite Epb).
  assert (Epl : plug cz (mk L c' y E e) = plug cx (T c z a b)) by (unfold cz; rewrite plug_app, Epb; done).
  destruct (splice_swap s cx c z a cx' c' y e Hy Ha) as (s1 & s2 & E1 & E2 & H2 & Hn2 & F2). fold cz in E1, F2. fold cy in H2, Hn2. rewrite Epl in F2.
  rewrite <- Epl in Hok. apply unplug_bal in Hok as (h & Hbal & Hcx). rewrite is_red_mk in Hcx.
  apply (ctx_bal_relabel _ _ _ _ _ y) in Hcx. fold cy in Hcx. pose proof F2 as (En2 & Er2 & _). rewrite <- Er2 in Hn2.
  destruct (repair_spec s2 cy c' e H2 Hn2 (splice_short _ _ _ _ _ _ Hbal Hcx)) as (s3 & t' & E3 & H3 & Hok').
  assert (Eel : elems (plug cy e) = (before cx ++ elems a) ++ elems b ++ after cx).
  { unfold cy. rewrite plug_app, elems_plug. cbn [plug mk elems]. rewrite elems_plug, (path_left _ Hdirs), Eb. cbn [app]. by simplify_list_eq. }
  rewrite Eel in H3.
  destruct (rep_fresh _ _ _ H) as (_ & Hnd & _). apply (nodup_mk L) in Hnd as (_ & Hzb & _). destruct (rep_node_ne _ _ _ _ _ _ Hy) as [Hyn Hyr].
  assert (Hyz : y <> z) by (intros ->; rewrite Eb in Hzb; set_solver).
  assert (HnE : forall cx t, rep s cx t -> t <> E -> root_of (tnil s) t =? tnil s = false).
  { intros cx0 t0 H0 Ht0. destruct t0 as [|]; [done|]. apply Z.eqb_neq. by apply (rep_node_ne _ _ _ _ _ _ H0). }
  apply (deleted_intro _ _ _ _ s2 s3 t'); [|done|done|done|intros x; rewrite elems_plug_at; set_solver].
  unfold rb_delete. rewrite !bind_gets. mstep (rep_rd s cx L c z a b H). cbn [mkn left right].
  rewrite (HnE _ _ (proj1 (rep_down _ _ L _ _ _ _) H) Ha), (HnE _ _ (proj1 (rep_down _ _ R _ _ _ _) H) Hb). cbn [orb]. mstep Es.
  mstep (rep_rd s cz L c' y E e Hy). cbn [mkn left right parent red root_of]. rewrite Z.eqb_refl. cbn [negb].
  massert; [|by destruct (Z.eqb_spec y (troot s)), (Z.eqb_spec y (tnil s))].
  mstep E1. destruct (Z.eqb_spec y z); [done|]. cbn [negb]. mstep E2. rewrite <- En2. exact E3.
Qed.

Lemma filter_at (l1 l2 : list Z) z : z ∉ l1 -> z ∉ l2 -> filter (fun y => y <> z) (l1 ++ z :: l2) = l1 ++ l2.
Proof. intros H1 H2. rewrite filter_app, filter_cons_False by (intros Hz; by apply Hz). by rewrite !filter_ne_notin. Qed.

Lemma rb_delete_spec s t z : rep s [] t -> rb_ok t -> z ∈ elems t ->
  exists s' t', rb_delete z s = Ok (tt, s') /\ rep s' [] t' /\ rb_ok t' /\ elems t' = filter (fun y => y <> z) (elems t) /\
    framed (tnil s :: elems t) s s'.
Proof.
  intros H Hok (cx & c & a & b & ->)%elem_focus. apply rep_focus in H. rewrite app_nil_r in H.
  destruct (rep_nodup_at _ _ _ _ _ _ H) as [H1 H2]. rewrite elems_plug_at, filter_at by done. rewrite <- elems_plug_at with (c := c).
  destruct (decide (a = E)) as [->|Ha]; [|destruct (decide (b = E)) as [->|Hb]].
  - pose proof (delete_one s cx L c z b H Hok) as Hd. rewrite (elems_plug cx b) in Hd. cbn [elems]. by rewrite app_nil_r.
  - pose proof (delete_one s cx R c z a H Hok) as Hd. rewrite (elems_plug cx a) in Hd. cbn [elems app]. by rewrite <- (assoc_L (++)).
  - by apply delete_two.
Qed.

(** ** The checker decides balance *)

Section checker.
Context (compare : Z -> Z -> Z) (s : rbt).

Lemma bind_iff {A B} (m : M rbt A) (k : A -> M rbt B) b s' (P : A -> Prop) :
  (forall a s1, m s = Ok (a, s1) <-> s1 = s /\ P a) -> (m ≫= k) s = Ok (b, s') <-> exists a, P a /\ k a s = Ok (b, s').
Proof.
  intros Hm. rewrite bind_Ok. split.
  - intros (a & s1 & [-> HP]%Hm & Hk). by exists a.
  - intros (a & HP & Hk). exists a, s. split; [by apply Hm|done].
Qed.

(** The checks on the child [t] of [x] on one side pass. *)
Lemma child_checks cx t x (ok : Z -> bool) : rep s cx t -> up (troot s) cx = x -> (forall y, y ∈ elems t -> ok y = true) ->
  exists nt, rd (root_of (tnil s) t) s = Ok (nt, s) /\ red nt = is_red t /\
    (if negb (root_of (tnil s) t =? tnil s) then _ ← kassert (ok (root_of (tnil s) t)); kassert (parent nt =? x) else mret tt) s = Ok (tt, s).
Proof.
  intros H Hu Hok. destruct t as [|c y a b]; cbn [root_of].
  - destruct (rep_nil _ _ _ H) as (nn & Hn & Hr). exists nn. split_and!; [by apply rd_spec|done|]. by rewrite Z.eqb_refl.
  - exists (mkn L c x (root_of (tnil s) a) (root_of (tnil s) b)). rewrite <- Hu. split_and!; [by apply (rep_rd s cx L c y a b)|by destruct c|].
    destruct (rep_node_ne _ _ _ _ _ _ H) as [Hn _]. destruct (Z.eqb_spec y (tnil s)); [done|]. cbn [negb].
    rewrite Hok by (simpl; set_solver). cbn. by rewrite Z.eqb_refl.
Qed.

Lemma kassert_iff b s1 : kassert b s = Ok (tt, s1) <-> s1 = s /\ b = true.
Proof. rewrite kassert_Ok. tauto. Qed.

Lemma check_tree_spec fuel : forall cx t k s', rep s cx t -> (length (elems t) < fuel)%nat ->
  StronglySorted (fun a b => compare a b <= 0 /\ 0 <= compare b a) (elems t) ->
  check_tree compare fuel (root_of (tnil s) t) s = Ok (k, s') <-> s' = s /\ exists h, bal t h /\ k = Z.of_nat h + 1.
Proof.
  induction fuel as [|fuel IH]; intros cx t k s' H Hf Hs; [lia|]. cbn [check_tree]. rewrite bind_gets. destruct t as [|c x a b]; cbn [root_of].
  { destruct (rep_nil _ _ _ H) as (nn & Hn & Hr). mstep (rd_spec _ _ _ Hn). rewrite Z.eqb_refl. massert; [|by rewrite Hr].
    split; [intros [= <- <-]; split; [done|by exists 0%nat]|]. intros (-> & h & -> & ->). done. }
  destruct (rep_node_ne _ _ _ _ _ _ H) as [Hxn _]. mstep (rep_rd s cx L c x a b H). destruct (Z.eqb_spec x (tnil s)); [done|]. cbn [mkn left right red].
  cbn [elems] in Hs, Hf. apply sorted_app_iff in Hs as (Sa & Sb & Hax). apply StronglySorted_inv in Sb as [Sb Hxb]. rewrite list.Forall_forall in Hxb.
  rewrite length_app in Hf. simpl in Hf.
  pose proof (proj1 (rep_down s cx L c x a b) H) as Ra. pose proof (proj1 (rep_down s cx R c x b a) H) as Rb.
  destruct (child_checks _ a x (fun y => 0 <=? compare x y) Ra eq_refl) as (na & Ea & Hna & Ca).
  { intros y Hy. apply Z.leb_le. by destruct (Hax y x Hy ltac:(left)). }
  destruct (child_checks _ b x (fun y => compare x y <=? 0) Rb eq_refl) as (nb & Eb & Hnb & Cb).
  { intros y Hy. apply Z.leb_le. by apply (Hxb y Hy). }
  mstep Ea. mstep Ca. mstep Eb. mstep Cb. rewrite Hna, Hnb.
  rewrite (bind_iff _ _ _ _ (fun _ => c = true -> is_red a = false /\ is_red b = false)); cycle 1.
  { intros [] s1. destruct c; [|cbn; split; [by intros [= <-]|by intros [-> _]]]. rewrite kassert_iff, andb_true_iff, !negb_true_iff.
    split; [intros [-> ?]; split; [done|by intros _]|intros [-> Hc]; split; [done|by apply Hc]]. }
  setoid_rewrite (bind_iff _ _ _ _ (fun hl => exists h, bal a h /\ hl = Z.of_nat h + 1)); [|by intros; apply (IH _ _ _ _ Ra); [lia|]].
  setoid_rewrite (bind_iff _ _ _ _ (fun hr => exists h, bal b h /\ hr = Z.of_nat h + 1)); [|by intros; apply (IH _ _ _ _ Rb); [lia|]].
  split.
  - intros ([] & Hc & hl & (h1 & B1 & ->) & hr & (h2 & B2 & ->) & Hk). apply bind_Ok in Hk as ([] & s1 & [He ->]%kassert_Ok & [= <- <-]).
    apply Z.eqb_eq in He. assert (h2 = h1) as -> by lia. split; [done|]. exists (if c then h1 else S h1). split; [|by destruct c; lia].
    apply (bal_mk L). destruct c; [left|right]; naive_solver.
  - intros (-> & h & [(-> & H1 & H2 & B1 & B2)|(-> & h' & -> & B1 & B2)]%(bal_mk L) & ->).
    + exists tt. split; [done|]. exists (Z.of_nat h + 1). split; [by exists h|]. exists (Z.of_nat h + 1). split; [by exists h|]. by rewrite Z.eqb_refl.
    + exists tt. split; [done|]. exists (Z.of_nat h' + 1). split; [by exists h'|]. exists (Z.of_nat h' + 1). split; [by exists h'|].
      rewrite Z.eqb_refl. change (Ok (Z.of_nat h' + 1 + 1, s) = Ok (Z.of_nat (S h') + 1, s)). f_equal. f_equal. lia.
Qed.
End checker.

(** Deletion takes exactly the given node out of a balanced tree: it ends
    without a fault, the remaining nodes keep their order, the tree is balanced
    again, so that the kernel's checker passes on it, and memory outside the tree
    and its sentinel is untouched. *)
Theorem rb_delete_correct compare s t z : rep s [] t -> rb_ok t -> z ∈ elems t ->
  StronglySorted (fun a b => compare a b <= 0 /\ 0 <= compare b a) (elems t) ->
  exists s' t' h, rb_delete z s = Ok (tt, s') /\ rep s' [] t' /\ rb_ok t' /\ elems t' = filter (fun y => y <> z) (elems t) /\
    framed (tnil s :: elems t) s s' /\ check_tree compare (S (size (nodes s'))) (root_of (tnil s') t') s' = Ok (Z.of_nat h + 1, s').
Proof.
  intros H Hok Hz Hs. destruct (rb_delete_spec s t z H Hok Hz) as (s' & t' & E1 & H1 & [Hr [h Hh]] & El & Hf).
  exists s', t', h. split_and!; try done; [by split; [|exists h]|]. apply (check_tree_spec compare s' _ [] t'); [done| | |by split; [|exists h]].
  - by apply rep_focus_fuel in H1 as [_ ?].
  - rewrite El. by apply sorted_filter.
Qed.

(** C31: The kernel's checker decides balance: on a sorted tree in memory it
    passes all its assertions exactly when no red node has a red child and all
    paths have the same number of black nodes, which it returns. *)
Theorem check_tree_correct compare s t k s' : rep s [] t -> StronglySorted (fun a b => compare a b <= 0 /\ 0 <= compare b a) (elems t) ->
  check_tree compare (S (size (nodes s))) (root_of (tnil s) t) s = Ok (k, s') <-> s' = s /\ exists h, bal t h /\ k = Z.of_nat h + 1.
Proof. intros H. apply (check_tree_spec compare s _ [] t k s' H). by apply rep_focus_fuel in H as [_ ?]. Qed.
