(* ===== verification/RbIface.v ===== *)
(** * RbIface: what the users of the red-black tree rely on

    The interface between libs/rb_tree.c and its clients: trees as values, the
    operations on them ([RbOps]) and their laws ([RbLaws]).  The instance runs
    the code of [RbTree] on a tree laid out in memory and reads the result back;
    its laws are the theorems of [RbTree] and [RbDelete]. *)

From stdpp Require Import numbers gmap sorting list.
From S2P Require Import Prelude RbTree RbDelete.
Local Open Scope Z_scope.

Abbreviation shape := RbTree.tree.
Abbreviation elements := RbTree.elems.
Abbreviation Leaf := RbTree.E.

Class RbOps := {
  rb_insert : (Z -> Z -> Z) -> shape -> Z -> shape;
  rb_delete : shape -> Z -> shape;
  rb_prev : shape -> Z -> option Z }.

(** [cmp] compares by a key, as a C comparison function does. *)
Definition compares_by (key : Z -> Z) (cmp : Z -> Z -> Z) : Prop :=
  forall a b, (cmp a b <= 0 <-> key a <= key b) /\ (cmp a b < 0 <-> key a < key b).

Abbreviation rb_ok := RbTree.rb_ok.

Lemma rb_ok_leaf : rb_ok Leaf.
Proof. split; [done|by exists 0%nat]. Qed.

(** Insertion puts a node behind the nodes whose key is not greater, deletion
    takes it out, and both keep the tree balanced. *)
Class RbLaws `{RbOps} : Prop := {
  rb_insert_elements : forall key cmp t x, compares_by key cmp -> rb_ok t -> x ∉ elements t ->
    StronglySorted (fun a b => key a < key b) (elements t) ->
    rb_ok (rb_insert cmp t x) /\
    elements (rb_insert cmp t x) = filter (fun y => key y <= key x) (elements t) ++ x :: filter (fun y => key x < key y) (elements t);
  rb_delete_elements : forall t x, rb_ok t -> NoDup (elements t) -> x ∈ elements t ->
    rb_ok (rb_delete t x) /\ elements (rb_delete t x) = filter (fun y => y <> x) (elements t);
  rb_prev_elements : forall t x, rb_ok t -> NoDup (elements t) -> x ∈ elements t -> rb_prev t x = prev_in (elements t) x }.

(** ** A tree laid out in memory *)

Fixpoint store (n p : Z) (t : tree) (m : gmap Z rb_node) : gmap Z rb_node :=
  match t with
  | E => m
  | T c x a b => <[x := RbNode c p (root_of n a) (root_of n b)]> (store n x a (store n x b m))
  end.

(** Reading it back, at most [fuel] levels deep. *)
Fixpoint fetch (fuel : nat) (m : gmap Z rb_node) (n x : Z) : tree :=
  match fuel with
  | O => E
  | S fuel' =>
      if x =? n then E
      else match m !! x with
           | Some nx => T (red nx) x (fetch fuel' m n (left nx)) (fetch fuel' m n (right nx))
           | None => E
           end
  end.

(** An address above those of [l]. *)
Definition above (l : list Z) : Z := foldr Z.max 0 l + 1.

(** The tree [t] with its sentinels, and a node [x] that may be new. *)
Definition lay_out (t : tree) (x : Z) : rbt :=
  let n := above (x :: elems t) in
  let r := n + 1 in
  let m := <[r := RbNode false n (root_of n t) n]> (<[n := RbNode false n n n]> {[ x := RbNode false n n n ]}) in
  Rbt (store n r t m) n r.
Definition read_back (s : rbt) (t : tree) : tree :=
  match nodes s !! troot s with Some nr => fetch (S (size (nodes s))) (nodes s) (tnil s) (left nr) | None => t end.

Definition tree_insert (cmp : Z -> Z -> Z) (t : tree) (x : Z) : tree :=
  match RbTree.rb_insert cmp x (lay_out t x) with Ok (_, s) => read_back s t | Err _ => t end.
Definition tree_delete (t : tree) (x : Z) : tree :=
  match RbDelete.rb_delete x (lay_out t x) with Ok (_, s) => read_back s t | Err _ => t end.
Definition tree_prev (t : tree) (x : Z) : option Z :=
  match rb_node_prev x (lay_out t x) with Ok (p, _) => p | Err _ => None end.

#[export] Instance tree_ops : RbOps := {
  rb_insert := tree_insert; rb_delete := tree_delete; rb_prev := tree_prev }.

(** ** The laws hold *)

Lemma above_gt l x : x ∈ l -> x < above l.
Proof. unfold above. induction l as [|y l IH]; [by intros ?%not_elem_of_nil|]. intros [->|Hx]%elem_of_cons; cbn [foldr]; [lia|specialize (IH Hx); lia]. Qed.

Lemma lookup_store_ne n p t m z : z ∉ elems t -> store n p t m !! z = m !! z.
Proof.
  revert p m. induction t as [|c x a IHa b IHb]; intros p m Hz; [done|]. cbn [store elems] in *. rewrite lookup_insert_ne by set_solver.
  rewrite IHa by set_solver. apply IHb. set_solver.
Qed.

Lemma store_at n p t m : NoDup (elems t) -> tree_at (store n p t m) n p t.
Proof.
  revert p m. induction t as [|c x a IHa b IHb]; intros p m Hnd; [done|]. apply (nodup_mk L c x) in Hnd as (Hxa & Hxb & Na & Nb & Hab).
  cbn [store tree_at]. rewrite lookup_insert_eq. split_and!; [done| |].
  - eapply tree_at_ext, IHa; [|done]. intros z Hz. apply lookup_insert_ne. congruence.
  - eapply tree_at_ext, IHb; [|done]. intros z Hz. rewrite lookup_insert_ne by congruence. apply lookup_store_ne. intros Hz'. by apply (Hab z).
Qed.

Lemma fetch_at m n t : forall fuel p, tree_at m n p t -> n ∉ elems t -> (length (elems t) < fuel)%nat -> fetch fuel m n (root_of n t) = t.
Proof.
  induction t as [|c x a IHa b IHb]; intros [|fuel] p H Hn Hf; try (simpl in Hf; lia); cbn [fetch root_of].
  - by rewrite Z.eqb_refl.
  - cbn [tree_at elems] in *. destruct H as (Hx & Ha & Hb). destruct (Z.eqb_spec x n); [set_solver|]. rewrite Hx. cbn [red left right].
    rewrite length_app in Hf. simpl in Hf. rewrite (IHa fuel x), (IHb fuel x); [done|done|set_solver|lia|done|set_solver|lia].
Qed.

Lemma lay_out_fresh t x : let s := lay_out t x in tnil s <> troot s /\ x ∉ [tnil s; troot s] /\ forall y, y ∈ elems t -> y ∉ [tnil s; troot s].
Proof.
  cbn. split; [lia|]. pose proof (above_gt (x :: elems t)) as Ha. split.
  - specialize (Ha x ltac:(left)). rewrite !not_elem_of_cons. cbn in *. split_and!; [lia|lia|apply not_elem_of_nil].
  - intros y Hy. specialize (Ha y ltac:(by right)). rewrite !not_elem_of_cons. cbn in *. split_and!; [lia|lia|apply not_elem_of_nil].
Qed.

Lemma lay_out_rep t x : NoDup (elems t) -> rep (lay_out t x) [] t.
Proof.
  intros Hnd. destruct (lay_out_fresh t x) as (Hnr & Hx & Hy). split.
  - cbn [plug]. rewrite !NoDup_cons, not_elem_of_cons. split_and!; [done|intros Hz; by apply Hy in Hz; set_solver..|done].
  - exists (RbNode false (tnil (lay_out t x)) (tnil (lay_out t x)) (tnil (lay_out t x))). split; [|done]. cbn [lay_out nodes].
    rewrite lookup_store_ne by (intros Hz; apply Hy in Hz; set_solver). rewrite lookup_insert_ne by done. apply lookup_insert_eq.
  - cbn [ctx_at lay_out nodes tnil troot]. rewrite lookup_store_ne by (intros Hz; apply Hy in Hz; set_solver). apply lookup_insert_eq.
  - by apply store_at.
Qed.

Lemma lay_out_node t x : x ∉ elems t -> is_Some (nodes (lay_out t x) !! x).
Proof.
  intros Hx. cbn [lay_out nodes]. destruct (lay_out_fresh t x) as (_ & Hf & _). rewrite !not_elem_of_cons in Hf. destruct Hf as (H1 & H2 & _).
  rewrite lookup_store_ne by done. cbn in H1, H2. rewrite !lookup_insert_ne by (cbn; congruence). rewrite lookup_singleton_eq. by eexists.
Qed.

Lemma read_back_rep s t t0 : rep s [] t -> read_back s t0 = t.
Proof.
  intros H. unfold read_back. pose proof (rep_ctx _ _ _ H) as Hr. cbn [ctx_at] in Hr. rewrite Hr. cbn [left].
  apply (fetch_at _ _ _ _ (troot s)); [apply H| |by apply rep_focus_fuel in H as [_ ?]].
  intros Hz. destruct (rep_fresh _ _ _ H) as (_ & _ & Hn & _). by destruct (Hn _ Hz).
Qed.

Lemma compares_pos key cmp a b : compares_by key cmp -> 0 < cmp a b <-> key b < key a.
Proof. intros Hk. destruct (Hk a b) as [H1 _]. lia. Qed.

Lemma sorted_nodup (key : Z -> Z) l : StronglySorted (fun a b => key a < key b) l -> NoDup l.
Proof.
  induction 1 as [|x l _ IH Hx]; constructor; [|done]. intros Hin. rewrite list.Forall_forall in Hx. specialize (Hx x Hin). lia.
Qed.

Lemma sorted_impl {A} (R R' : A -> A -> Prop) l : (forall a b, R a b -> R' a b) -> StronglySorted R l -> StronglySorted R' l.
Proof. intros Hi. induction 1 as [|x l _ IH Hx]; constructor; [done|]. eapply Forall_impl; [done|]. intros; by apply Hi. Qed.

Lemma insert_sorted_key key cmp x l : compares_by key cmp ->
  insert_sorted cmp x l = filter (fun y => key y <= key x) l ++ x :: filter (fun y => key x < key y) l.
Proof.
  intros Hk. unfold insert_sorted. f_equal; [|f_equal]; apply list_filter_iff'; intros y _; [by destruct (Hk y x)|].
  by apply compares_pos.
Qed.

#[export] Instance tree_laws : RbLaws.
Proof.
  split; cbn [rb_insert rb_delete rb_prev tree_ops].
  - intros key cmp t x Hk Hok Hx Hs. pose proof (lay_out_rep t x (sorted_nodup _ _ Hs)) as H. destruct (lay_out_node t x Hx) as [nz Hz].
    destruct (rb_insert_spec cmp x _ _ nz H Hok) as (s' & t' & E1 & H1 & Hok' & El & _); [|done| |].
    { eapply sorted_impl; [|done]. intros a b Hab. cbv beta in Hab |- *. rewrite !(compares_pos key cmp) by done. lia. }
    { destruct (lay_out_fresh t x) as (_ & Hf & _). set_solver. }
    unfold tree_insert. rewrite E1, (read_back_rep _ _ _ H1). split; [done|]. by rewrite El, (insert_sorted_key key).
  - intros t x Hok Hnd Hx. destruct (rb_delete_spec _ _ x (lay_out_rep t x Hnd) Hok Hx) as (s' & t' & E1 & H1 & Hok' & El & _).
    unfold tree_delete. by rewrite E1, (read_back_rep _ _ _ H1).
  - intros t x Hok Hnd Hx. unfold tree_prev. by rewrite (rb_node_prev_spec _ _ x (lay_out_rep t x Hnd) Hx).
Qed.

(** ** Sessions: no operation allocates or frees a node *)

Definition keeps_dom {A} (m : M rbt A) : Prop := forall s a s', m s = Ok (a, s') -> forall z, is_Some (nodes s' !! z) <-> is_Some (nodes s !! z).

Create HintDb keeps.
Section keeps_dom.
Context {A B : Type}.

Lemma keeps_bind (m : M rbt A) (k : A -> M rbt B) : keeps_dom m -> (forall a, keeps_dom (k a)) -> keeps_dom (m ≫= k).
Proof. intros Hm Hk s b s' (a & s1 & E1 & E2)%bind_Ok z. by rewrite (Hk a _ _ _ E2), (Hm _ _ _ E1). Qed.
Lemma keeps_ret (a : A) : keeps_dom (mret a).
Proof. by intros s a' s' [= <- <-]. Qed.
Lemma keeps_fail e : keeps_dom (fail e : M rbt A).
Proof. done. Qed.
Lemma keeps_gets (f : rbt -> A) : keeps_dom (gets f).
Proof. by intros s a' s' [= <- <-]. Qed.
Lemma keeps_if (b : bool) (m1 m2 : M rbt A) : keeps_dom m1 -> keeps_dom m2 -> keeps_dom (if b then m1 else m2).
Proof. by destruct b. Qed.
End keeps_dom.
Lemma keeps_rd x : keeps_dom (rd x).
Proof. intros s a s'. unfold rd, load. destruct (nodes s !! x); [by intros [= <- <-]|done]. Qed.
Lemma keeps_assert b : keeps_dom (kassert b).
Proof. destruct b; [apply keeps_ret|done]. Qed.
Lemma keeps_upd x f : keeps_dom (upd x f).
Proof.
  intros s a s'. unfold upd. destruct (nodes s !! x) as [nx|] eqn:Ex; [|done]. intros [= <- <-] z. cbn. destruct (decide (z = x)) as [->|Hz].
  - rewrite lookup_insert_eq, Ex. split; by eexists.
  - by rewrite lookup_insert_ne.
Qed.
#[export] Hint Resolve keeps_ret keeps_fail keeps_gets keeps_rd keeps_assert keeps_upd : keeps.

Ltac keeps := repeat lazymatch goal with
  | |- keeps_dom (let _ := _ in _) => progress cbv zeta
  | |- keeps_dom _ => first [solve [eauto with keeps] | apply keeps_bind | apply keeps_if | progress cbv beta]
  | |- forall _, _ => intros ?
  end.

Lemma keeps_rotate d x : keeps_dom (rb_rotate d x).
Proof. unfold rb_rotate. keeps. Qed.
Lemma keeps_uparent x : keeps_dom (uparent x).
Proof. unfold uparent. keeps. Qed.
#[export] Hint Resolve keeps_rotate keeps_uparent : keeps.
Lemma keeps_insert_fixup fuel : forall x, keeps_dom (insert_fixup fuel x).
Proof. induction fuel as [|fuel IH]; intros x; cbn [insert_fixup]; [apply keeps_fail|]. unfold insert_sub, insert_rotate. keeps. Qed.
Lemma keeps_insert_descend cmp fuel : forall y x z, keeps_dom (insert_descend cmp fuel y x z).
Proof. induction fuel as [|fuel IH]; intros y x z; cbn [insert_descend]; [apply keeps_fail|]. keeps. Qed.
#[export] Hint Resolve keeps_insert_fixup keeps_insert_descend : keeps.
Lemma keeps_insert cmp z : keeps_dom (RbTree.rb_insert cmp z).
Proof. unfold RbTree.rb_insert, rb_insert_binary. keeps. Qed.

Lemma keeps_descend fuel d : forall y, keeps_dom (descend fuel d y).
Proof. induction fuel as [|fuel IH]; intros y; cbn [descend]; [apply keeps_fail|]. keeps. Qed.
Lemma keeps_climb fuel : forall x y, keeps_dom (climb_succ fuel x y).
Proof. induction fuel as [|fuel IH]; intros x y; cbn [climb_succ]; [apply keeps_fail|]. keeps. Qed.
#[export] Hint Resolve keeps_insert keeps_descend keeps_climb : keeps.
Lemma keeps_delete_loop fuel root : forall x, keeps_dom (delete_loop fuel root x).
Proof.
  induction fuel as [|fuel IH]; intros x; cbn [delete_loop]; [apply keeps_fail|].
  unfold delete_sub, delete_sibling, delete_turn, delete_last. keeps.
Qed.
#[export] Hint Resolve keeps_delete_loop : keeps.
Lemma keeps_delete z : keeps_dom (RbDelete.rb_delete z).
Proof. unfold RbDelete.rb_delete, delete_splice, delete_swap, rb_delete_fixup, rb_tree_successor. keeps. Qed.
#[export] Hint Resolve keeps_delete : keeps.

(** ** Correctness on the memory itself *)

(** A session: insertions and deletions in any order, ... *)
Inductive rb_op := Ins (z : Z) | Del (z : Z).
Definition run_op (cmp : Z -> Z -> Z) (o : rb_op) : M rbt unit :=
  match o with Ins z => RbTree.rb_insert cmp z | Del z => RbDelete.rb_delete z end.
Fixpoint run_ops (cmp : Z -> Z -> Z) (os : list rb_op) : M rbt unit :=
  match os with [] => mret tt | o :: os' => _ ← run_op cmp o; run_ops cmp os' end.

(** ... and what it should do to a sequence sorted by [key]; [None] when a node
    is inserted twice or a missing one deleted. *)
Definition seq_op (key : Z -> Z) (o : rb_op) (l : list Z) : option (list Z) :=
  match o with
  | Ins z => if bool_decide (z ∈ l) then None else Some (filter (fun y => key y <= key z) l ++ z :: filter (fun y => key z < key y) l)
  | Del z => if bool_decide (z ∈ l) then Some (filter (fun y => y <> z) l) else None
  end.
Fixpoint seq_ops (key : Z -> Z) (os : list rb_op) (l : list Z) : option (list Z) :=
  match os with [] => Some l | o :: os' => l' ← seq_op key o l; seq_ops key os' l' end.

Section session.
Context (key : Z -> Z) (cmp : Z -> Z -> Z) (Hk : compares_by key cmp).

Lemma seq_op_sorted o l l' : StronglySorted (fun a b => key a <= key b) l -> seq_op key o l = Some l' -> StronglySorted (fun a b => key a <= key b) l'.
Proof.
  intros Hs. destruct o as [z|z]; cbn [seq_op]; case_bool_decide; intros [= <-]; [|by apply sorted_filter].
  apply sorted_app_iff. split_and!; [by apply sorted_filter| |].
  - constructor; [by apply sorted_filter|]. rewrite list.Forall_forall. intros y [Hy _]%list_elem_of_filter. lia.
  - intros a b [Ha _]%list_elem_of_filter [->|[Hb _]%list_elem_of_filter]%elem_of_cons; lia.
Qed.

(** The state between two operations; the nodes still to be inserted are there. *)
Record between (os : list rb_op) (s : rbt) (t : tree) : Prop := {
  bt_rep : rep s [] t;
  bt_ok : rb_ok t;
  bt_sorted : StronglySorted (fun a b => key a <= key b) (elems t);
  bt_new : forall z, Ins z ∈ os -> is_Some (nodes s !! z) /\ z <> tnil s /\ z <> troot s }.

Lemma session_op o os s t l : between (o :: os) s t -> seq_op key o (elems t) = Some l ->
  exists s' t', run_op cmp o s = Ok (tt, s') /\ between os s' t' /\ elems t' = l.
Proof.
  intros [H Hok Hs Hnew] Ho.
  assert (Hgoal : exists s' t' l', run_op cmp o s = Ok (tt, s') /\ rep s' [] t' /\ rb_ok t' /\ elems t' = l /\ framed l' s s').
  { destruct o as [z|z]; cbn [seq_op run_op] in *; case_bool_decide as Hz; try done; injection Ho as <-.
    - destruct (Hnew z ltac:(left)) as ([nz Ez] & Hzn & Hzr).
      destruct (rb_insert_spec cmp z s t nz H Hok) as (s' & t' & E1 & H1 & Hok1 & El & Hf); [|done|set_solver|].
      + eapply sorted_impl; [|done]. intros a b Hab. cbv beta in Hab |- *. rewrite !(compares_pos key cmp) by done. lia.
      + exists s', t', (elems t'). split_and!; [done..| |done]. by rewrite El, (insert_sorted_key key).
    - destruct (rb_delete_spec s t z H Hok Hz) as (s' & t' & E1 & H1 & Hok1 & El & Hf). by exists s', t', (tnil s :: elems t). }
  destruct Hgoal as (s' & t' & l' & E1 & H1 & Hok1 & El & (En & Er & _)). exists s', t'. split_and!; [done| |done].
  split; [done|done|rewrite El; by eapply seq_op_sorted|]. intros z Hz. destruct (Hnew z ltac:(by right)) as (Hsome & ? & ?).
  assert (Hkeep : keeps_dom (run_op cmp o)) by (destruct o; cbn [run_op]; eauto with keeps).
  rewrite (Hkeep _ _ _ E1), En, Er. done.
Qed.

Lemma session_run os : forall s t l, between os s t -> seq_ops key os (elems t) = Some l ->
  exists s' t', run_ops cmp os s = Ok (tt, s') /\ between [] s' t' /\ elems t' = l.
Proof.
  induction os as [|o os IH]; intros s t l Hb; cbn [seq_ops run_ops].
  - intros [= <-]. by exists s, t.
  - intros (l1 & E1 & E2)%bind_Some. destruct (session_op _ _ _ _ _ Hb E1) as (s1 & t1 & E3 & Hb1 & <-). mstep E3. by apply IH with t1.
Qed.

Lemma created_rep n r s0 client : rb_tree_create true (Some n) (Some r) = Some s0 -> n <> r -> client !! r = None ->
  tnil s0 = n /\ troot s0 = r /\ rep (set_nodes (nodes s0 ∪ client) s0) [] E.
Proof.
  intros [= <-] Hne Hc. split_and!; [done..|]. split; cbn [set_nodes nodes tnil troot plug elems ctx_at root_of tree_at].
  - rewrite !NoDup_cons, not_elem_of_cons. split_and!; [done|apply not_elem_of_nil..|constructor].
  - exists (RbNode false n n n). split; [|done]. apply lookup_union_Some_l. by rewrite lookup_insert_ne, lookup_singleton_eq.
  - apply lookup_union_Some_l. apply lookup_insert_eq.
  - done.
Qed.
End session.

(** C4: A session refines operations on a sorted sequence: a tree made by
    [rb_tree_create], under any sequence of insertions of new nodes and
    deletions of present ones, never faults or fails an assertion, every loop
    ends, and afterwards the memory holds a balanced red-black tree whose nodes,
    in order, are those of the sequence; equal keys stay in order of arrival. *)
Theorem rb_session_correct key cmp n r s0 client os l : compares_by key cmp ->
  rb_tree_create true (Some n) (Some r) = Some s0 -> n <> r -> client !! n = None -> client !! r = None ->
  (forall z, Ins z ∈ os -> is_Some (client !! z)) -> seq_ops key os [] = Some l ->
  exists s t, run_ops cmp os (set_nodes (nodes s0 ∪ client) s0) = Ok (tt, s) /\ rep s [] t /\ rb_ok t /\ elems t = l /\
    StronglySorted (fun a b => key a <= key b) l.
Proof.
  intros Hk Hc Hne Hn Hr Hnew Hl. destruct (created_rep n r s0 client Hc Hne Hr) as (En & Er & H).
  destruct (session_run key cmp Hk os (set_nodes (nodes s0 ∪ client) s0) E l) as (s & t & E1 & [H1 Hok Hs _] & El); [|done|].
  - split; [done|apply rb_ok_leaf|constructor|]. cbn [set_nodes nodes tnil troot]. intros z [cz Hz]%Hnew. rewrite En, Er.
    split_and!; [|congruence..]. rewrite lookup_union, Hz. destruct (nodes s0 !! z); by eexists.
  - exists s, t. rewrite El in Hs. done.
Qed.

(** ** Examples *)

Definition ex_tree : tree := T false 20 (T true 10 (T false 5 E E) (T false 15 E E)) (T false 30 E (T true 40 E E)).

Lemma ex_tree_rep : rep (lay_out ex_tree 7) [] ex_tree.
Proof. apply lay_out_rep. by apply (bool_decide_unpack _). Qed.
Lemma ex_tree_ok : rb_ok ex_tree.
Proof. split; [done|]. exists 2%nat. cbn. tauto. Qed.
Lemma ex_compares : compares_by id Z.sub.
Proof. intros a b. cbn. lia. Qed.
Lemma ex_sorted (P : Z -> Z -> Prop) : (forall a b, a < b -> P a b) -> StronglySorted P (elems ex_tree).
Proof. intros HP. cbn. repeat constructor; apply HP; lia. Qed.

Definition ex_ops : list rb_op := [Ins 3; Ins 1; Ins 2; Ins 5; Ins 4; Del 2; Ins 6; Del 5].
Definition ex_client : gmap Z rb_node := list_to_map ((fun z => (z, RbNode true 0 0 0)) <$> [1; 2; 3; 4; 5; 6]).

Definition ex_created : rbt := Rbt (<[101 := RbNode false 100 100 100]> {[ 100 := RbNode false 100 100 100 ]}) 100 101.

Lemma ex_new z : Ins z ∈ ex_ops -> is_Some (ex_client !! z).
Proof.
  unfold ex_ops. intros Hz. repeat (apply elem_of_cons in Hz as [Hz|Hz]; [try discriminate Hz; injection Hz as ->; vm_compute; by eexists|]).
  by apply not_elem_of_nil in Hz.
Qed.

Lemma rb_session_correct_witness : exists s t, run_ops Z.sub ex_ops (set_nodes (nodes ex_created ∪ ex_client) ex_created) = Ok (tt, s) /\
  rep s [] t /\ rb_ok t /\ elems t = [1; 3; 4; 6] /\ StronglySorted (fun a b => id a <= id b) [1; 3; 4; 6].
Proof.
  apply (rb_session_correct id Z.sub 100 101 ex_created ex_client ex_ops [1; 3; 4; 6] ex_compares eq_refl).
  - done.
  - vm_compute. reflexivity.
  - vm_compute. reflexivity.
  - apply ex_new.
  - vm_compute. reflexivity.
Defined.

Lemma rb_delete_correct_witness : exists s' t' h, RbDelete.rb_delete 20 (lay_out ex_tree 7) = Ok (tt, s') /\ rep s' [] t' /\ RbTree.rb_ok t' /\
  elems t' = [5; 10; 15; 30; 40] /\ framed (tnil (lay_out ex_tree 7) :: elems ex_tree) (lay_out ex_tree 7) s' /\
  check_tree Z.sub (S (size (nodes s'))) (root_of (tnil s') t') s' = Ok (Z.of_nat h + 1, s').
Proof.
  apply (rb_delete_correct Z.sub (lay_out ex_tree 7) ex_tree 20 ex_tree_rep ex_tree_ok).
  - cbn. set_solver.
  - apply ex_sorted. intros a b Hab. lia.
Defined.

Lemma rb_search_correct_witness : exists res, rb_search (fun y => y - 30) (lay_out ex_tree 7) = Ok (res, lay_out ex_tree 7) /\ found (fun y => y - 30) ex_tree res.
Proof. apply (rb_search_correct _ _ _ ex_tree_rep). apply ex_sorted. intros a b Hab. lia. Defined.

Lemma check_tree_correct_witness : check_tree Z.sub (S (size (nodes (lay_out ex_tree 7)))) 20 (lay_out ex_tree 7) = Ok (3, lay_out ex_tree 7).
Proof.
  apply (check_tree_correct Z.sub (lay_out ex_tree 7) ex_tree 3 _ ex_tree_rep).
  - apply ex_sorted. intros a b Hab. lia.
  - split; [done|]. exists 2%nat. cbn. tauto.
Defined.
