(* ===== verification/Vmm.v ===== *)
(** * Vmm: virtual memory areas (mm/vmm.c, mm/vmm.h)

    A memory descriptor keeps its areas in a list sorted by start address, in a
    red-black tree once there are [RB_MIN_MAP_COUNT] of them, and caches the last
    one found.  Areas, descriptors and shared segments live in maps from
    addresses; the page-table operations are logged in the order of the calls,
    after their own assertions.  The red-black tree is used through the
    interface [RbOps]/[RbLaws]. *)

From stdpp Require Import numbers gmap sorting list.
From S2P Require Import Prelude RbIface.
Local Open Scope Z_scope.

(** ** Data *)

Definition PGSIZE : Z := 4096.
Definition USERBASE : Z := 0x200000.
Definition USERTOP : Z := 0xC0000000.
Definition KERNBASE : Z := 0xC0000000.
Definition KERNTOP : Z := KERNBASE + 0x800000.
Definition USER_ACCESS (start end_ : Z) : bool := (USERBASE <=? start) && (start <? end_) && (end_ <=? USERTOP).
Definition KERN_ACCESS (start end_ : Z) : bool := (KERNBASE <=? start) && (start <? end_) && (end_ <=? KERNTOP).
Definition ROUNDDOWN (a n : Z) : Z := a - a mod n.
Definition ROUNDUP (a n : Z) : Z := ROUNDDOWN (u32 (a + n - 1)) n.

Definition VM_READ : Z := 1.
Definition VM_WRITE : Z := 2.
Definition VM_STACK : Z := 8.
Definition VM_SHARE : Z := 16.
Definition RB_MIN_MAP_COUNT : Z := 32.

Record vma_struct := Vma {
  vm_mm : option Z; vm_start : Z; vm_end : Z; vm_flags : Z; shmem : option Z; shmem_off : Z }.

Record mm_struct := Mm {
  mmap_list : list Z; mmap_tree : option shape; mmap_cache : option Z; pgdir : option Z; map_count : Z;
  mm_count : Z; brk_start : Z; brk : Z }.

(** [shmem->len] and [shmem->shmem_ref]. *)
Record shmem_struct := Shmem { sh_len : Z; shmem_ref : Z }.

Inductive pgop :=
| UnmapRange (pgdir : option Z) (start end_ : Z)
| CopyRange (to from : option Z) (start end_ : Z) (share : bool)
| ExitRange (pgdir : option Z) (start end_ : Z).

Record vmm := Vmm { vmas : gmap Z vma_struct; mms : gmap Z mm_struct; shmems : gmap Z shmem_struct; pglog : list pgop }.

Definition set_vmas (m : gmap Z vma_struct) (s : vmm) : vmm := Vmm m (mms s) (shmems s) (pglog s).
Definition set_mms (m : gmap Z mm_struct) (s : vmm) : vmm := Vmm (vmas s) m (shmems s) (pglog s).
Definition set_shmems (m : gmap Z shmem_struct) (s : vmm) : vmm := Vmm (vmas s) (mms s) m (pglog s).
Definition log_op (o : pgop) (s : vmm) : vmm := Vmm (vmas s) (mms s) (shmems s) (pglog s ++ [o]).

Definition rd_vma (a : Z) : M vmm vma_struct := load (fun s => vmas s !! a).
Definition rd_mm (m : Z) : M vmm mm_struct := load (fun s => mms s !! m).
Definition upd_vma (a : Z) (f : vma_struct -> vma_struct) : M vmm unit := fun s =>
  match vmas s !! a with Some v => Ok (tt, set_vmas (<[a := f v]> (vmas s)) s) | None => Err BadAccess end.
Definition upd_mm (m : Z) (f : mm_struct -> mm_struct) : M vmm unit := fun s =>
  match mms s !! m with Some x => Ok (tt, set_mms (<[m := f x]> (mms s)) s) | None => Err BadAccess end.

Definition with_list (l : list Z) (x : mm_struct) : mm_struct :=
  Mm l (mmap_tree x) (mmap_cache x) (pgdir x) (map_count x) (mm_count x) (brk_start x) (brk x).
Definition with_tree (t : option shape) (x : mm_struct) : mm_struct :=
  Mm (mmap_list x) t (mmap_cache x) (pgdir x) (map_count x) (mm_count x) (brk_start x) (brk x).
Definition with_cache (c : option Z) (x : mm_struct) : mm_struct :=
  Mm (mmap_list x) (mmap_tree x) c (pgdir x) (map_count x) (mm_count x) (brk_start x) (brk x).
Definition with_count (n : Z) (x : mm_struct) : mm_struct :=
  Mm (mmap_list x) (mmap_tree x) (mmap_cache x) (pgdir x) n (mm_count x) (brk_start x) (brk x).

(** ** Page tables (mm/pmm.c): the assertions of [unmap_range] and the call itself *)

Definition unmap_range (pd : option Z) (start end_ : Z) : M vmm unit :=
  _ ← kassert ((start mod PGSIZE =? 0) && (end_ mod PGSIZE =? 0));
  _ ← kassert (USER_ACCESS start end_);
  modify (log_op (UnmapRange pd start end_)).

(** ** shmem.h, shmem.c: reference counts; [shmem_destroy] frees the segment *)

Definition shmem_ref_inc (h : option Z) : M vmm Z := fun s =>
  match h with
  | Some h => match shmems s !! h with
              | Some x => let n := s32 (shmem_ref x + 1) in Ok (n, set_shmems (<[h := Shmem (sh_len x) n]> (shmems s)) s)
              | None => Err BadAccess
              end
  | None => Err BadAccess
  end.
Definition shmem_ref_dec (h : option Z) : M vmm Z := fun s =>
  match h with
  | Some h => match shmems s !! h with
              | Some x => let n := s32 (shmem_ref x - 1) in Ok (n, set_shmems (<[h := Shmem (sh_len x) n]> (shmems s)) s)
              | None => Err BadAccess
              end
  | None => Err BadAccess
  end.
Definition shmem_destroy (h : option Z) : M vmm unit :=
  match h with Some h => modify (fun s => set_shmems (delete h (shmems s)) s) | None => fail BadAccess end.

(** ** Creation and destruction; [new] is the result of [kmalloc] *)

Definition mm_create (new : option Z) : M vmm (option Z) :=
  match new with
  | Some m => _ ← modify (fun s => set_mms (<[m := Mm [] None None None 0 0 0 0]> (mms s)) s); mret (Some m)
  | None => mret None
  end.

Definition vma_create (start end_ flags : Z) (new : option Z) : M vmm (option Z) :=
  match new with
  | Some a => _ ← modify (fun s => set_vmas (<[a := Vma None start end_ flags None 0]> (vmas s)) s); mret (Some a)
  | None => mret None
  end.

Definition vma_destroy (a : Z) : M vmm unit :=
  v ← rd_vma a;
  _ ← (if negb (Z.land (vm_flags v) VM_SHARE =? 0) then
         n ← shmem_ref_dec (shmem v);
         if (n =? 0) then shmem_destroy (shmem v) else mret tt
       else mret tt);
  modify (fun s => set_vmas (delete a (vmas s)) s).

(** ** Lookup *)

Fixpoint find_vma_rb (t : shape) (addr : Z) : M vmm (option Z) :=
  match t with
  | Leaf => mret None
  | RbTree.T _ x l r =>
      v ← rd_vma x;
      if addr <? vm_end v then
        if vm_start v <=? addr then mret (Some x) else find_vma_rb l addr
      else find_vma_rb r addr
  end.

Fixpoint find_vma_list (l : list Z) (addr : Z) : M vmm (option Z) :=
  match l with
  | [] => mret None
  | x :: l' =>
      v ← rd_vma x;
      if (vm_start v <=? addr) && (addr <? vm_end v) then mret (Some x) else find_vma_list l' addr
  end.

Definition cache_hit (c : option Z) (addr : Z) : M vmm bool :=
  match c with
  | Some a => v ← rd_vma a; mret ((vm_start v <=? addr) && (addr <? vm_end v))
  | None => mret false
  end.

Definition find_vma (mm : option Z) (addr : Z) : M vmm (option Z) :=
  match mm with
  | None => mret None
  | Some mm =>
      x ← rd_mm mm;
      hit ← cache_hit (mmap_cache x) addr;
      vma ← (if (hit : bool) then mret (mmap_cache x)
             else match mmap_tree x with
                  | Some t => find_vma_rb t addr
                  | None => find_vma_list (mmap_list x) addr
                  end);
      _ ← (match vma with Some a => upd_mm mm (with_cache (Some a)) | None => mret tt end);
      mret vma
  end.

Definition find_vma_intersection (mm : option Z) (start end_ : Z) : M vmm (option Z) :=
  vma ← find_vma mm start;
  match vma with
  | Some a => v ← rd_vma a; mret (if end_ <=? vm_start v then None else Some a)
  | None => mret None
  end.

(** ** Insertion and removal *)

Definition start_of (s : vmm) (a : Z) : Z := match vmas s !! a with Some v => vm_start v | None => 0 end.
Definition vma_compare (s : vmm) (a b : Z) : Z :=
  if start_of s a <? start_of s b then -1 else if start_of s b <? start_of s a then 1 else 0.

Definition check_vma_overlap (prev next : Z) : M vmm unit :=
  p ← rd_vma prev;
  n ← rd_vma next;
  _ ← kassert (vm_start p <? vm_end p);
  _ ← kassert (vm_end p <=? vm_start n);
  kassert (vm_start n <? vm_end n).

Section ops.
Context `{RbOps}.

Definition insert_vma_rb (t : shape) (vma : Z) : M vmm (shape * option Z) :=
  cmp ← gets vma_compare;
  let t' := rb_insert cmp t vma in
  mret (t', rb_prev t' vma).

(** The walk for the last area that does not start after [start]. *)
Fixpoint insert_walk (l : list Z) (start : Z) (le_prev : option Z) : M vmm (option Z) :=
  match l with
  | [] => mret le_prev
  | x :: l' => v ← rd_vma x; if start <? vm_start v then mret le_prev else insert_walk l' start (Some x)
  end.

(** [list_next] from an element, or from the head. *)
Definition next_of (l : list Z) (p : option Z) : option Z := match p with Some p => next_in l p | None => head l end.
Fixpoint insert_after (l : list Z) (p x : Z) : list Z :=
  match l with [] => [] | y :: l' => if y =? p then y :: x :: l' else y :: insert_after l' p x end.
Definition add_after (l : list Z) (p : option Z) (x : Z) : list Z :=
  match p with Some p => insert_after l p x | None => x :: l end.

Fixpoint build_tree (l : list Z) (t : shape) : M vmm shape :=
  match l with
  | [] => mret t
  | x :: l' => '(t', _) ← insert_vma_rb t x; build_tree l' t'
  end.

(** [tree_ok]: the allocation of the tree, when one is attempted, succeeds. *)
Definition insert_vma_struct (mm vma : Z) (tree_ok : bool) : M vmm unit :=
  v ← rd_vma vma;
  _ ← kassert (vm_start v <? vm_end v);
  x ← rd_mm mm;
  le_prev ← match mmap_tree x with
            | Some t => '(t', p) ← insert_vma_rb t vma; _ ← upd_mm mm (with_tree (Some t')); mret p
            | None => insert_walk (mmap_list x) (vm_start v) None
            end;
  let le_next := next_of (mmap_list x) le_prev in
  _ ← (match le_prev with Some p => check_vma_overlap p vma | None => mret tt end);
  _ ← (match le_next with Some n => check_vma_overlap vma n | None => mret tt end);
  _ ← upd_vma vma (fun v => Vma (Some mm) (vm_start v) (vm_end v) (vm_flags v) (shmem v) (shmem_off v));
  _ ← upd_mm mm (fun x => with_list (add_after (mmap_list x) le_prev vma) (with_count (s32 (map_count x + 1)) x));
  x ← rd_mm mm;
  match mmap_tree x with
  | None =>
      if (RB_MIN_MAP_COUNT <=? map_count x) && tree_ok
      then t ← build_tree (mmap_list x) Leaf; upd_mm mm (with_tree (Some t))
      else mret tt
  | Some _ => mret tt
  end.

Definition remove_vma_struct (mm vma : Z) : M vmm unit :=
  v ← rd_vma vma;
  _ ← kassert (bool_decide (vm_mm v = Some mm));
  x ← rd_mm mm;
  _ ← (match mmap_tree x with Some t => upd_mm mm (with_tree (Some (rb_delete t vma))) | None => mret tt end);
  _ ← upd_mm mm (fun x => with_list (filter (fun y => y <> vma) (mmap_list x)) x);
  _ ← (if bool_decide (mmap_cache x = Some vma) then upd_mm mm (with_cache None) else mret tt);
  upd_mm mm (fun x => with_count (s32 (map_count x - 1)) x).

Fixpoint destroy_loop (l : list Z) : M vmm unit :=
  match l with [] => mret tt | a :: l' => _ ← vma_destroy a; destroy_loop l' end.
Definition mm_destroy (mm : Z) : M vmm unit :=
  x ← rd_mm mm;
  _ ← kassert (mm_count x =? 0);
  _ ← destroy_loop (mmap_list x);
  modify (fun s => set_mms (delete mm (mms s)) s).

(** ** Mapping and unmapping *)

Definition mm_map (mm addr len flags : Z) (new : option Z) (tree_ok : bool) : M vmm (Z * option Z) :=
  let start := ROUNDDOWN addr PGSIZE in
  let end_ := ROUNDUP (u32 (addr + len)) PGSIZE in
  if negb (USER_ACCESS start end_) then mret (- E_INVAL, None)
  else
    vma ← find_vma (Some mm) start;
    overlap ← (match vma with Some a => v ← rd_vma a; mret (vm_start v <? end_) | None => mret false end);
    if (overlap : bool) then mret (- E_INVAL, None)
    else
      vma ← vma_create start end_ (Z.ldiff flags VM_SHARE) new;
      match vma with
      | None => mret (- E_NO_MEM, None)
      | Some a => _ ← insert_vma_struct mm a tree_ok; mret (0, Some a)
      end.

Definition mm_map_shmem (mm addr flags : Z) (h : option Z) (new : option Z) (tree_ok : bool) : M vmm (Z * option Z) :=
  match h with
  | None => mret (- E_INVAL, None)
  | Some h' =>
      if negb (addr mod PGSIZE =? 0) then mret (- E_INVAL, None)
      else
        _ ← shmem_ref_inc h;
        x ← load (fun s => shmems s !! h');
        '(ret, vma) ← mm_map mm addr (sh_len x) flags new tree_ok;
        match vma with
        | Some a =>
            _ ← upd_vma a (fun v => Vma (vm_mm v) (vm_start v) (vm_end v) (Z.lor (vm_flags v) VM_SHARE) h 0);
            mret (0, Some a)
        | None => _ ← shmem_ref_dec h; mret (ret, None)
        end
  end.

Definition vma_resize (a start end_ : Z) : M vmm unit :=
  _ ← kassert ((start mod PGSIZE =? 0) && (end_ mod PGSIZE =? 0));
  v ← rd_vma a;
  _ ← kassert ((vm_start v <=? start) && (start <? end_) && (end_ <=? vm_end v));
  let off := if negb (Z.land (vm_flags v) VM_SHARE =? 0) then u32 (shmem_off v + (start - vm_start v)) else shmem_off v in
  upd_vma a (fun v => Vma (vm_mm v) start end_ (vm_flags v) (shmem v) off).

(** The first loop of [mm_unmap]: the areas from [vma] on that start below
    [end_] are taken out, onto a list in reverse order. *)
Fixpoint unmap_collect (fuel : nat) (mm vma end_ : Z) (free_list : list Z) : M vmm (list Z) :=
  match fuel with
  | O => fail OutOfFuel
  | S fuel' =>
      v ← rd_vma vma;
      if vm_start v <? end_ then
        x ← rd_mm mm;
        let le := next_in (mmap_list x) vma in
        _ ← remove_vma_struct mm vma;
        match le with
        | None => mret (vma :: free_list)
        | Some n => unmap_collect fuel' mm n end_ (vma :: free_list)
        end
      else mret free_list
  end.

(** The second loop: what sticks out of the range is put back. *)
Fixpoint unmap_trim (mm : Z) (free_list : list Z) (start end_ : Z) (tree_ok : bool) : M vmm unit :=
  match free_list with
  | [] => mret tt
  | a :: l =>
      v ← rd_vma a;
      x ← rd_mm mm;
      _ ← (if vm_start v <? start then
             _ ← vma_resize a (vm_start v) start;
             _ ← insert_vma_struct mm a tree_ok;
             unmap_range (pgdir x) start (vm_end v)
           else if end_ <? vm_end v then
             _ ← vma_resize a end_ (vm_end v);
             _ ← insert_vma_struct mm a tree_ok;
             unmap_range (pgdir x) (vm_start v) end_
           else
             _ ← vma_destroy a;
             unmap_range (pgdir x) (vm_start v) (vm_end v));
      unmap_trim mm l start end_ tree_ok
  end.

Definition mm_unmap (mm addr len : Z) (new : option Z) (tree_ok : bool) : M vmm Z :=
  let start := ROUNDDOWN addr PGSIZE in
  let end_ := ROUNDUP (u32 (addr + len)) PGSIZE in
  if negb (USER_ACCESS start end_) then mret (- E_INVAL)
  else
    vma ← find_vma (Some mm) start;
    match vma with
    | None => mret 0
    | Some a =>
        v ← rd_vma a;
        if end_ <=? vm_start v then mret 0
        else if (vm_start v <? start) && (end_ <? vm_end v) then
          nvma ← vma_create (vm_start v) start (vm_flags v) new;
          match nvma with
          | None => mret (- E_NO_MEM)
          | Some n =>
              _ ← vma_resize a end_ (vm_end v);
              _ ← insert_vma_struct mm n tree_ok;
              x ← rd_mm mm;
              _ ← unmap_range (pgdir x) start end_;
              mret 0
          end
        else
          x ← rd_mm mm;
          free_list ← unmap_collect (S (length (mmap_list x))) mm a end_ [];
          _ ← unmap_trim mm free_list start end_ tree_ok;
          mret 0
    end.

(** [copy_ok]: the results of [copy_range]; [news]: those of [kmalloc]. *)
Fixpoint dup_mmap_loop (to_ : Z) (topd frompd : option Z) (l : list Z) (news : list (option Z)) (oks : list bool) (tree_ok : bool) : M vmm Z :=
  match l with
  | [] => mret 0
  | a :: l' =>
      v ← rd_vma a;
      nvma ← vma_create (vm_start v) (vm_end v) (vm_flags v) (default None (head news));
      match nvma with
      | None => mret (- E_NO_MEM)
      | Some n =>
          let share := negb (Z.land (vm_flags v) VM_SHARE =? 0) in
          _ ← (if share then
                 _ ← upd_vma n (fun nv => Vma (vm_mm nv) (vm_start nv) (vm_end nv) (vm_flags nv) (shmem v) (shmem_off v));
                 _ ← shmem_ref_inc (shmem v); mret tt
               else mret tt);
          _ ← insert_vma_struct to_ n tree_ok;
          _ ← modify (log_op (CopyRange topd frompd (vm_start v) (vm_end v) share));
          if default false (head oks) then dup_mmap_loop to_ topd frompd l' (tail news) (tail oks) tree_ok
          else mret (- E_NO_MEM)
      end
  end.
Definition dup_mmap (to_ from : Z) (news : list (option Z)) (oks : list bool) (tree_ok : bool) : M vmm Z :=
  t ← rd_mm to_;
  f ← rd_mm from;
  dup_mmap_loop to_ (pgdir t) (pgdir f) (reverse (mmap_list f)) news oks tree_ok.

Fixpoint exit_unmap (pd : option Z) (l : list Z) : M vmm unit :=
  match l with
  | [] => mret tt
  | a :: l' => v ← rd_vma a; _ ← unmap_range pd (vm_start v) (vm_end v); exit_unmap pd l'
  end.
Fixpoint exit_free (pd : option Z) (l : list Z) : M vmm unit :=
  match l with
  | [] => mret tt
  | a :: l' => v ← rd_vma a; _ ← modify (log_op (ExitRange pd (vm_start v) (vm_end v))); exit_free pd l'
  end.
Definition exit_mmap (mm : Z) : M vmm unit :=
  x ← rd_mm mm;
  _ ← kassert (mm_count x =? 0);
  _ ← exit_unmap (pgdir x) (mmap_list x);
  exit_free (pgdir x) (mmap_list x).

(** The walk of [get_unmapped_area], from the highest area down. *)
Fixpoint area_walk (l : list Z) (start len : Z) : M vmm Z :=
  match l with
  | [] => mret (if USERBASE <=? start then start else 0)
  | a :: l' =>
      v ← rd_vma a;
      if vm_end v <=? start then mret start
      else if vm_start v <? u32 (start + len) then
        if vm_start v <=? len then mret 0 else area_walk l' (vm_start v - len) len
      else area_walk l' start len
  end.
Definition get_unmapped_area (mm len : Z) : M vmm Z :=
  if (len =? 0) || (USERTOP <? len) then mret 0
  else x ← rd_mm mm; area_walk (reverse (mmap_list x)) (USERTOP - len) len.

Definition mm_brk (mm addr len : Z) (new1 new2 : option Z) (tree_ok : bool) : M vmm Z :=
  let start := ROUNDDOWN addr PGSIZE in
  let end_ := ROUNDUP (u32 (addr + len)) PGSIZE in
  if negb (USER_ACCESS start end_) then mret (- E_INVAL)
  else
    ret ← mm_unmap mm start (end_ - start) new1 tree_ok;
    if negb (ret =? 0) then mret ret
    else
      let flags := Z.lor VM_READ VM_WRITE in
      vma ← find_vma (Some mm) (start - 1);
      grow ← (match vma with
              | Some a => v ← rd_vma a; mret ((vm_end v =? start) && (vm_flags v =? flags))
              | None => mret false
              end);
      match vma, grow : bool with
      | Some a, true =>
          _ ← upd_vma a (fun v => Vma (vm_mm v) (vm_start v) end_ (vm_flags v) (shmem v) (shmem_off v)); mret 0
      | _, _ =>
          vma ← vma_create start end_ flags new2;
          match vma with
          | None => mret (- E_NO_MEM)
          | Some a => _ ← insert_vma_struct mm a tree_ok; mret 0
          end
      end.
End ops.

(** The loop of [user_mem_check]; every round ends at the end of another area. *)
Fixpoint mem_check_loop (fuel : nat) (mm start end_ : Z) (write : bool) : M vmm bool :=
  match fuel with
  | O => fail OutOfFuel
  | S fuel' =>
      if start <? end_ then
        vma ← find_vma (Some mm) start;
        match vma with
        | None => mret false
        | Some a =>
            v ← rd_vma a;
            if start <? vm_start v then mret false
            else if Z.land (vm_flags v) (if write then VM_WRITE else VM_READ) =? 0 then mret false
            else if write && negb (Z.land (vm_flags v) VM_STACK =? 0) && (start <? u32 (vm_start v + PGSIZE)) then mret false
            else mem_check_loop fuel' mm (vm_end v) end_ write
        end
      else mret true
  end.
Definition user_mem_check (mm : option Z) (addr len : Z) (write : bool) : M vmm bool :=
  match mm with
  | Some mm =>
      if negb (USER_ACCESS addr (u32 (addr + len))) then mret false
      else
        fuel ← gets (fun s => S (length (match mms s !! mm with Some x => mmap_list x | None => [] end)));
        mem_check_loop fuel mm addr (u32 (addr + len)) write
  | None => mret (KERN_ACCESS addr (u32 (addr + len)))
  end.

(** ** Well-formed descriptors *)

Definition no_vma : vma_struct := Vma None 0 0 0 None 0.
Definition area (s : vmm) (a : Z) : vma_struct := default no_vma (vmas s !! a).
Definition covers (s : vmm) (a addr : Z) : Prop := vm_start (area s a) <= addr < vm_end (area s a).

#[export] Instance covers_dec s a addr : Decision (covers s a addr).
Proof. unfold covers. apply _. Defined.

(** A non-empty, page-aligned area inside user space. *)
Definition user_vma (v : vma_struct) : Prop :=
  USERBASE <= vm_start v /\ vm_start v < vm_end v /\ vm_end v <= USERTOP /\
  vm_start v mod PGSIZE = 0 /\ vm_end v mod PGSIZE = 0.

Definition before (s : vmm) (a b : Z) : Prop := vm_end (area s a) <= vm_start (area s b).

Record mwf (s : vmm) (m : Z) (x : mm_struct) : Prop := {
  mw_mm : mms s !! m = Some x;
  mw_vma : forall a, a ∈ mmap_list x -> exists v, vmas s !! a = Some v /\ user_vma v /\ vm_mm v = Some m;
  mw_sorted : StronglySorted (before s) (mmap_list x);
  mw_nodup : NoDup (mmap_list x);
  mw_count : map_count x = Z.of_nat (length (mmap_list x));
  mw_cache : forall a, mmap_cache x = Some a -> a ∈ mmap_list x;
  mw_tree : forall t, mmap_tree x = Some t -> elements t = mmap_list x;
  mw_bal : forall t, mmap_tree x = Some t -> rb_ok t }.

Lemma start_of_area s a : start_of s a = vm_start (area s a).
Proof. unfold start_of, area. by destruct (vmas s !! a). Qed.
Lemma area_Some s a v : vmas s !! a = Some v -> area s a = v.
Proof. unfold area. by intros ->. Qed.
Lemma rd_vma_spec a v s : vmas s !! a = Some v -> rd_vma a s = Ok (v, s).
Proof. unfold rd_vma, load. by intros ->. Qed.
Lemma rd_mm_spec m x s : mms s !! m = Some x -> rd_mm m s = Ok (x, s).
Proof. unfold rd_mm, load. by intros ->. Qed.
Lemma upd_mm_spec m f x s : mms s !! m = Some x -> upd_mm m f s = Ok (tt, set_mms (<[m := f x]> (mms s)) s).
Proof. unfold upd_mm. by intros ->. Qed.
Lemma upd_vma_spec a f v s : vmas s !! a = Some v -> upd_vma a f s = Ok (tt, set_vmas (<[a := f v]> (vmas s)) s).
Proof. unfold upd_vma. by intros ->. Qed.

Lemma mw_area s m x a : mwf s m x -> a ∈ mmap_list x -> vmas s !! a = Some (area s a) /\ user_vma (area s a) /\ vm_mm (area s a) = Some m.
Proof. intros W Ha. destruct (mw_vma _ _ _ W a Ha) as (v & Hv & ?). by rewrite (area_Some _ _ _ Hv). Qed.

(** The list is sorted by start address. *)
Lemma sorted_starts s l : (forall a, a ∈ l -> user_vma (area s a)) -> StronglySorted (before s) l ->
  StronglySorted (fun a b => start_of s a < start_of s b) l.
Proof.
  induction 2 as [|x l _ IH Hx]; [constructor|]. constructor; [apply IH; intros; apply H; by right|].
  rewrite list.Forall_forall in Hx |- *. intros y Hy. specialize (Hx y Hy). destruct (H x ltac:(left)) as (_ & ? & _).
  rewrite !start_of_area. unfold before in Hx. lia.
Qed.

Lemma mw_starts s m x : mwf s m x -> StronglySorted (fun a b => start_of s a < start_of s b) (mmap_list x).
Proof. intros W. apply sorted_starts; [|apply W]. intros a Ha. by apply (mw_area s m x a W). Qed.

(** ** Lookup *)

(** The area that holds an address, by exhaustive search. *)
Definition holder (s : vmm) (l : list Z) (addr : Z) : option Z := head (filter (fun a => covers s a addr) l).

Lemma holder_Some s l addr a : holder s l addr = Some a -> a ∈ l /\ covers s a addr.
Proof. intros H. apply head_Some_elem_of in H. apply list_elem_of_filter in H. tauto. Qed.
Lemma holder_None s l addr a : holder s l addr = None -> a ∈ l -> ~ covers s a addr.
Proof.
  unfold holder. intros H Ha Hc. destruct (filter _ l) eqn:E; [|done]. assert (Hin : a ∈ filter (fun a => covers s a addr) l) by (by apply list_elem_of_filter).
  rewrite E in Hin. by apply not_elem_of_nil in Hin.
Qed.

Lemma before_disjoint s l a b addr : StronglySorted (before s) l -> (forall a, a ∈ l -> user_vma (area s a)) ->
  a ∈ l -> b ∈ l -> covers s a addr -> covers s b addr -> a = b.
Proof.
  intros Hs. induction Hs as [|x l _ IH Hx]; intros Hu Ha Hb Ca Cb; [by apply not_elem_of_nil in Ha|].
  rewrite list.Forall_forall in Hx. unfold covers, before in *.
  apply elem_of_cons in Ha as [->|Ha], Hb as [->|Hb]; [done| | |].
  - specialize (Hx b Hb). lia.
  - specialize (Hx a Ha). lia.
  - apply IH; try done. intros; apply Hu; by right.
Qed.

Lemma holder_unique s m x a addr : mwf s m x -> a ∈ mmap_list x -> covers s a addr -> holder s (mmap_list x) addr = Some a.
Proof.
  intros W Ha Hc. destruct (holder s (mmap_list x) addr) as [b|] eqn:E.
  - apply holder_Some in E as [Hb Hcb]. f_equal. apply (before_disjoint s (mmap_list x) b a addr); try done; [apply W|].
    intros; by apply (mw_area s m x _ W).
  - by destruct (holder_None _ _ _ _ E Ha).
Qed.

Lemma find_list_spec s l addr : (forall a, a ∈ l -> vmas s !! a = Some (area s a)) ->
  find_vma_list l addr s = Ok (holder s l addr, s).
Proof.
  unfold holder. induction l as [|x l IH]; intros H; [done|]. cbn [find_vma_list]. mstep (rd_vma_spec x _ s (H x ltac:(left))).
  rewrite filter_cons. destruct (decide (covers s x addr)) as [Hc|Hc]; unfold covers in Hc;
    destruct (Z.leb_spec (vm_start (area s x)) addr), (Z.ltb_spec addr (vm_end (area s x))); cbn [andb]; try lia; try done;
    (apply IH; intros; apply H; by right).
Qed.

Lemma find_rb_spec s t addr : (forall a, a ∈ elements t -> vmas s !! a = Some (area s a) /\ user_vma (area s a)) ->
  StronglySorted (before s) (elements t) ->
  find_vma_rb t addr s = Ok (holder s (elements t) addr, s).
Proof.
  induction t as [|c x l IHl r IHr]; intros H Hs; [done|]. cbn [find_vma_rb RbTree.elems] in *.
  apply sorted_app_iff in Hs as (Hl & [Hr Hx]%StronglySorted_inv & Hlr). rewrite list.Forall_forall in Hx.
  destruct (H x ltac:(set_solver)) as [Hvx (_ & Hux & _)]. mstep (rd_vma_spec x _ s Hvx). unfold holder. rewrite filter_app.
  assert (Hfl : vm_start (area s x) <= addr -> filter (fun a => covers s a addr) (elements l) = []).
  { intros Hge. apply filter_none. intros y Hy Hc. specialize (Hlr y x Hy ltac:(left)). unfold covers, before in *. lia. }
  assert (Hfr : addr < vm_end (area s x) -> filter (fun a => covers s a addr) (elements r) = []).
  { intros Hlt. apply filter_none. intros y Hy Hc. specialize (Hx y Hy). unfold covers, before in *. lia. }
  destruct (Z.ltb_spec addr (vm_end (area s x))) as [Hlt|Hge].
  - destruct (Z.leb_spec (vm_start (area s x)) addr) as [Hle|Hgt].
    + rewrite Hfl by done. by rewrite filter_cons_True by (unfold covers; lia).
    + rewrite filter_cons_False by (unfold covers; lia). rewrite Hfr, app_nil_r by done. apply IHl; [|done]. intros; apply H. set_solver.
  - rewrite Hfl by lia. rewrite filter_cons_False by (unfold covers; lia). apply IHr; [|done]. intros; apply H. set_solver.
Qed.

(** What a lookup leaves: only the cache may change. *)
Definition cached (s : vmm) (m : Z) (x : mm_struct) (r : option Z) : vmm :=
  match r with Some a => set_mms (<[m := with_cache (Some a) x]> (mms s)) s | None => s end.

Lemma find_vma_spec s m x addr : mwf s m x ->
  find_vma (Some m) addr s = Ok (holder s (mmap_list x) addr, cached s m x (holder s (mmap_list x) addr)).
Proof.
  intros W. unfold find_vma. mstep (rd_mm_spec m x s (mw_mm _ _ _ W)).
  assert (Hend : forall r, (_ ← (match r with Some a => upd_mm m (with_cache (Some a)) | None => mret tt end); mret r) s = Ok (r, cached s m x r)).
  { intros [a|]; [|done]. by mstep (upd_mm_spec m (with_cache (Some a)) x s (mw_mm _ _ _ W)). }
  assert (Hmiss : match mmap_tree x with Some t => find_vma_rb t addr | None => find_vma_list (mmap_list x) addr end s
    = Ok (holder s (mmap_list x) addr, s)).
  { destruct (mmap_tree x) as [t|] eqn:Et.
    - rewrite <- (mw_tree _ _ _ W t Et). apply find_rb_spec; rewrite (mw_tree _ _ _ W t Et); [|apply W].
      intros a Ha. destruct (mw_area s m x a W Ha) as (? & ? & _). done.
    - apply find_list_spec. intros a Ha. by apply (mw_area s m x a W). }
  destruct (mmap_cache x) as [c|] eqn:Ec; cbn [cache_hit].
  - pose proof (mw_cache _ _ _ W c Ec) as Hc. destruct (mw_area s m x c W Hc) as (Hv & _).
    rewrite (bind_step _ _ s ((vm_start (area s c) <=? addr) && (addr <? vm_end (area s c))) s) by (by mstep (rd_vma_spec c _ s Hv)).
    destruct (Z.leb_spec (vm_start (area s c)) addr) as [H1|H1]; [destruct (Z.ltb_spec addr (vm_end (area s c))) as [H2|H2]|]; cbn [andb].
    + rewrite (holder_unique s m x c addr W Hc) by done. rewrite (bind_step (mret (Some c)) _ s (Some c) s) by done. apply (Hend (Some c)).
    + mstep Hmiss. apply Hend.
    + mstep Hmiss. apply Hend.
  - rewrite (bind_step (mret false) _ s false s) by done. cbn beta iota. mstep Hmiss. apply Hend.
Qed.

(** Replacing the descriptor by one with the same areas. *)
Lemma mwf_cached s m x r : mwf s m x -> (forall a, r = Some a -> a ∈ mmap_list x) ->
  exists x', mwf (cached s m x r) m x' /\ mmap_list x' = mmap_list x /\ pgdir x' = pgdir x /\ mm_count x' = mm_count x.
Proof.
  intros W Hr. destruct r as [a|]; [|by exists x]. exists (with_cache (Some a) x). split; [|done].
  split; try apply W; cbn [mms cached set_mms mmap_cache with_cache]; [apply lookup_insert_eq|].
  intros b [= <-]. by apply Hr.
Qed.

(** ** Insertion *)

Lemma head_last_split (l1 l2 : list Z) (x : Z) : NoDup (l1 ++ l2) ->
  next_of (l1 ++ l2) (last l1) = head l2 /\ add_after (l1 ++ l2) (last l1) x = l1 ++ x :: l2.
Proof.
  intros Hd. destruct l1 as [|y l1 _] using rev_ind; [done|]. rewrite last_snoc. cbn [next_of add_after].
  rewrite <- app_assoc in *. cbn [app] in *. apply NoDup_app in Hd as (_ & Hy & _).
  assert (Hy1 : y ∉ l1). { intros Hin. apply (Hy y Hin). left. }
  split; [by apply next_in_app|]. rewrite <- app_assoc. cbn [app].
  clear -Hy1. induction l1 as [|z l1 IH]; cbn [insert_after app]; [by rewrite Z.eqb_refl|].
  apply not_elem_of_cons in Hy1 as [Hz Hy1]. destruct (Z.eqb_spec z y); [congruence|]. f_equal. by apply IH.
Qed.

Section insertion.
Context `{RB : RbLaws}.
Implicit Types (s : vmm) (l : list Z).

Definition lower s l (k : Z) : list Z := filter (fun y => start_of s y <= k) l.
Definition upper s l (k : Z) : list Z := filter (fun y => k < start_of s y) l.

Lemma insert_walk_spec s k l : forall p, (forall a, a ∈ l -> vmas s !! a = Some (area s a)) ->
  StronglySorted (fun a b => start_of s a < start_of s b) l ->
  insert_walk l k p s = Ok (match last (lower s l k) with Some q => Some q | None => p end, s).
Proof.
  induction l as [|x l IH]; intros p Hv Hs; [done|]. apply StronglySorted_inv in Hs as [Hs Hx]. rewrite list.Forall_forall in Hx.
  cbn [insert_walk]. mstep (rd_vma_spec x _ s (Hv x ltac:(left))). unfold lower. rewrite filter_cons, start_of_area.
  destruct (Z.ltb_spec k (vm_start (area s x))) as [Hk|Hk].
  - rewrite decide_False by lia. rewrite filter_none; [done|]. intros y Hy. specialize (Hx y Hy). rewrite (start_of_area s x) in Hx. lia.
  - rewrite decide_True by lia. rewrite IH; [|intros; apply Hv; by right|done]. rewrite last_cons. unfold lower.
    by destruct (last (filter _ l)).
Qed.

Lemma compare_by_start s : compares_by (start_of s) (vma_compare s).
Proof.
  intros a b. unfold vma_compare. destruct (Z.ltb_spec (start_of s a) (start_of s b)), (Z.ltb_spec (start_of s b) (start_of s a)); lia.
Qed.

Lemma insert_rb_spec s t vma : rb_ok t -> StronglySorted (fun a b => start_of s a < start_of s b) (elements t) -> vma ∉ elements t ->
  exists t', insert_vma_rb t vma s = Ok ((t', last (lower s (elements t) (start_of s vma))), s) /\ rb_ok t' /\
    elements t' = lower s (elements t) (start_of s vma) ++ vma :: upper s (elements t) (start_of s vma).
Proof.
  intros Hb Hs Hv. exists (rb_insert (vma_compare s) t vma).
  destruct (rb_insert_elements (start_of s) (vma_compare s) t vma (compare_by_start s) Hb Hv Hs) as [Hb' E].
  fold (lower s (elements t) (start_of s vma)) (upper s (elements t) (start_of s vma)) in E.
  assert (Hno : vma ∉ lower s (elements t) (start_of s vma) /\ vma ∉ upper s (elements t) (start_of s vma)).
  { unfold lower, upper; rewrite !list_elem_of_filter; tauto. }
  split_and!; [|done|done]. unfold insert_vma_rb. rewrite bind_gets. cbn zeta. rewrite rb_prev_elements; [|done| |]; rewrite ?E; [|rewrite <- Permutation_middle|set_solver].
  - unfold mret, M_ret. do 3 f_equal. apply prev_in_app; tauto.
  - constructor; [set_solver|]. unfold lower, upper. rewrite <- (sorted_key_split (start_of s)) by done. by eapply sorted_nodup.
Qed.

Lemma build_tree_spec s l : forall t, rb_ok t -> StronglySorted (fun a b => start_of s a < start_of s b) (elements t ++ l) -> NoDup (elements t ++ l) ->
  exists t', build_tree l t s = Ok (t', s) /\ rb_ok t' /\ elements t' = elements t ++ l.
Proof.
  induction l as [|x l IH]; intros t Hb Hs Hd; cbn [build_tree].
  { exists t. by rewrite app_nil_r. }
  pose proof Hs as (Hst & _ & Hlt)%sorted_app_iff. apply NoDup_app in Hd as (_ & Hd' & _).
  assert (Hlow : forall a, a ∈ elements t -> start_of s a < start_of s x) by (intros a Ha; apply Hlt; [done|left]).
  destruct (insert_rb_spec s t x Hb Hst) as (t1 & E1 & Hb1 & El); [intros Ha; apply (Hd' x Ha); left|].
  mstep E1. cbn beta iota.
  assert (El' : elements t1 = elements t ++ [x]).
  { rewrite El. unfold lower, upper. rewrite filter_all, filter_none; [done| |]; intros a Ha; specialize (Hlow a Ha); lia. }
  rewrite (cons_middle x (elements t) l) in Hs. rewrite app_assoc, <- El' in Hs.
  destruct (IH t1 Hb1 Hs) as (t2 & E2 & Hb2 & H2).
  { rewrite El', <- app_assoc. cbn [app]. clear -Hs El'. rewrite El', <- app_assoc in Hs. cbn [app] in Hs.
    revert Hs. generalize (elements t ++ x :: l). intros l'. induction 1 as [|y l' _ IH' Hy]; constructor; [|done].
    rewrite list.Forall_forall in Hy. intros Hin. specialize (Hy y Hin). lia. }
  exists t2. split_and!; [exact E2|done|]. rewrite H2, El', <- app_assoc. done.
Qed.
(** A new area that meets none of the old ones. *)
Definition disjoint_from s l (v : vma_struct) : Prop :=
  forall a, a ∈ l -> vm_end (area s a) <= vm_start v \/ vm_end v <= vm_start (area s a).

Definition owned (m : Z) (v : vma_struct) : vma_struct := Vma (Some m) (vm_start v) (vm_end v) (vm_flags v) (shmem v) (shmem_off v).

(** The state after the insertion, [x'] being the new descriptor. *)
Definition inserted s (m vma : Z) (v : vma_struct) (x' : mm_struct) : vmm :=
  Vmm (<[vma := owned m v]> (vmas s)) (<[m := x']> (mms s)) (shmems s) (pglog s).

Lemma area_insert s vma v l a : vma ∉ l -> a ∈ l -> default no_vma (<[vma := v]> (vmas s) !! a) = area s a.
Proof. intros Hn Ha. rewrite lookup_insert_ne by (by intros ->). done. Qed.

(** The sorted list with the new area in it is sorted. *)
Lemma ins_sorted s s' l vma v : vma ∉ l -> user_vma v -> disjoint_from s l v -> StronglySorted (before s) l ->
  (forall a, a ∈ l -> user_vma (area s a)) ->
  (forall a, a ∈ l -> area s' a = area s a) -> vm_start (area s' vma) = vm_start v -> vm_end (area s' vma) = vm_end v ->
  StronglySorted (before s') (lower s l (vm_start v) ++ vma :: upper s l (vm_start v)).
Proof.
  intros Hn (_ & Hv & _) Hd Hs Hu Ha Hvs Hve.
  assert (Hs' : forall l', (forall a, a ∈ l' -> a ∈ l) -> StronglySorted (before s) l' -> StronglySorted (before s') l').
  { intros l' Hsub. induction 1 as [|y l' _ IH Hy]; constructor; [apply IH; intros; apply Hsub; by right|].
    rewrite list.Forall_forall in Hy |- *. intros z Hz. unfold before. rewrite !Ha by (apply Hsub; (by left) || by right). by apply Hy. }
  pose proof (sorted_starts s l Hu Hs) as Hst. pose proof (sorted_key_split (start_of s) l (vm_start v) Hst) as Hsp.
  fold (lower s l (vm_start v)) (upper s l (vm_start v)) in Hsp. rewrite Hsp in Hs. apply sorted_app_iff in Hs as (H1 & H2 & H12).
  assert (Hlo : forall a, a ∈ lower s l (vm_start v) -> a ∈ l /\ vm_end (area s a) <= vm_start v).
  { intros a [Hk Hin]%list_elem_of_filter. split; [done|]. rewrite start_of_area in Hk. destruct (Hd a Hin); [done|lia]. }
  assert (Hup : forall a, a ∈ upper s l (vm_start v) -> a ∈ l /\ vm_end v <= vm_start (area s a)).
  { intros a [Hk Hin]%list_elem_of_filter. split; [done|]. rewrite start_of_area in Hk. destruct (Hu a Hin) as (_ & ? & _). destruct (Hd a Hin); [lia|done]. }
  apply sorted_app_iff. split_and!.
  - apply Hs'; [|done]. intros; by apply Hlo.
  - constructor; [apply Hs'; [intros; by apply Hup|done]|]. apply list.Forall_forall. intros a Hin. destruct (Hup a Hin).
    unfold before. rewrite Hve, Ha by done. done.
  - intros a b Hin [->|Hb]%elem_of_cons.
    + destruct (Hlo a Hin). unfold before. rewrite Hvs, Ha by done. done.
    + unfold before. rewrite (Ha a), (Ha b) by (exact (proj1 (Hlo a Hin)) || exact (proj1 (Hup b Hb))). by apply H12.
Qed.

(** Finding the place: with the tree or without, it is behind [lower]. *)
Lemma insert_place s m x vma v : mwf s m x -> vmas s !! vma = Some v -> vma ∉ mmap_list x ->
  exists x1, match mmap_tree x with
            | Some t => '(t', p) ← insert_vma_rb t vma; _ ← upd_mm m (with_tree (Some t')); mret p
            | None => insert_walk (mmap_list x) (vm_start v) None
            end s = Ok (last (lower s (mmap_list x) (vm_start v)), set_mms (<[m := x1]> (mms s)) s) /\
    x1 = with_tree (mmap_tree x1) x /\
    (forall t, mmap_tree x1 = Some t -> rb_ok t /\ elements t = lower s (mmap_list x) (vm_start v) ++ vma :: upper s (mmap_list x) (vm_start v)).
Proof.
  intros W Hv Hn. pose proof (mw_starts s m x W) as Hst. assert (Hk : start_of s vma = vm_start v) by (rewrite start_of_area; by rewrite (area_Some _ _ _ Hv)).
  destruct (mmap_tree x) as [t|] eqn:Et.
  - destruct (insert_rb_spec s t vma (mw_bal _ _ _ W t Et)) as (t' & E & Hb & El); [by rewrite (mw_tree _ _ _ W t Et)..|].
    rewrite (mw_tree _ _ _ W t Et), Hk in *. exists (with_tree (Some t') x). split; [|split; [done|by intros ? [= <-]]].
    mstep E. cbn beta iota. by mstep (upd_mm_spec m (with_tree (Some t')) x s (mw_mm _ _ _ W)).
  - exists x. split; [|split; [by destruct x; cbn in *; subst|by rewrite Et]].
    rewrite insert_walk_spec; [|intros; by apply (mw_area s m x _ W)|done].
    unfold set_mms. rewrite insert_id by apply W. destruct s. by destruct (last _).
Qed.
Lemma check_overlap_spec s p n vp vn : vmas s !! p = Some vp -> vmas s !! n = Some vn ->
  check_vma_overlap p n s =
  if (vm_start vp <? vm_end vp) && (vm_end vp <=? vm_start vn) && (vm_start vn <? vm_end vn) then Ok (tt, s) else Err AssertFailed.
Proof.
  intros Hp Hn. unfold check_vma_overlap. mstep (rd_vma_spec p vp s Hp). mstep (rd_vma_spec n vn s Hn).
  destruct (vm_start vp <? vm_end vp), (vm_end vp <=? vm_start vn), (vm_start vn <? vm_end vn); done.
Qed.

(** The neighbours the overlap checks look at. *)
Lemma check_prev s m x vma v s1 : mwf s m x -> vmas s !! vma = Some v -> user_vma v -> disjoint_from s (mmap_list x) v -> vmas s1 = vmas s ->
  match last (lower s (mmap_list x) (vm_start v)) with Some p => check_vma_overlap p vma | None => mret tt end s1 = Ok (tt, s1).
Proof.
  intros W Hv (_ & Hu & _) Hd Hs1. destruct (last _) as [p|] eqn:El; [|done]. apply last_Some_elem_of in El.
  apply list_elem_of_filter in El as [Hk Hp]. destruct (mw_area s m x p W Hp) as (Hvp & (_ & Hup & _) & _).
  rewrite (check_overlap_spec s1 p vma (area s p) v) by (by rewrite Hs1). rewrite start_of_area in Hk.
  destruct (Hd p Hp); [|lia].
  destruct (Z.ltb_spec (vm_start (area s p)) (vm_end (area s p))); [|lia].
  destruct (Z.leb_spec (vm_end (area s p)) (vm_start v)); [|lia]. by destruct (Z.ltb_spec (vm_start v) (vm_end v)); [|lia].
Qed.

Lemma check_next s m x vma v s1 : mwf s m x -> vmas s !! vma = Some v -> user_vma v -> disjoint_from s (mmap_list x) v -> vmas s1 = vmas s ->
  match head (upper s (mmap_list x) (vm_start v)) with Some n => check_vma_overlap vma n | None => mret tt end s1 = Ok (tt, s1).
Proof.
  intros W Hv (_ & Hu & _) Hd Hs1. destruct (head _) as [n|] eqn:El; [|done]. apply head_Some_elem_of in El.
  apply list_elem_of_filter in El as [Hk Hn]. destruct (mw_area s m x n W Hn) as (Hvn & (_ & Hun & _) & _).
  rewrite (check_overlap_spec s1 vma n v (area s n)) by (by rewrite Hs1). rewrite start_of_area in Hk. destruct (Hd n Hn); [lia|].
  destruct (Z.ltb_spec (vm_start v) (vm_end v)); [|lia]. destruct (Z.leb_spec (vm_end v) (vm_start (area s n))); [|lia].
  by destruct (Z.ltb_spec (vm_start (area s n)) (vm_end (area s n))); [|lia].
Qed.

Lemma insert_spec s m x vma v ok : mwf s m x -> vmas s !! vma = Some v -> user_vma v -> vma ∉ mmap_list x ->
  disjoint_from s (mmap_list x) v -> Z.of_nat (length (mmap_list x)) < 2 ^ 31 - 1 ->
  exists x', insert_vma_struct m vma ok s = Ok (tt, inserted s m vma v x') /\ mwf (inserted s m vma v x') m x' /\ mmap_list x' = lower s (mmap_list x) (vm_start v) ++ vma :: upper s (mmap_list x) (vm_start v) /\ pgdir x' = pgdir x /\ mm_count x' = mm_count x.
Proof.
  intros W Hv Hu Hn Hd Hlen. pose proof (mw_starts s m x W) as Hst.
  pose proof (sorted_key_split (start_of s) (mmap_list x) (vm_start v) Hst) as Hsp.
  fold (lower s (mmap_list x) (vm_start v)) (upper s (mmap_list x) (vm_start v)) in Hsp.
  set (lo := lower s (mmap_list x) (vm_start v)) in *. set (up := upper s (mmap_list x) (vm_start v)) in *.
  destruct (insert_place s m x vma v W Hv Hn) as (x1 & E1 & Hx1 & Ht1). fold lo up in E1, Ht1.
  destruct (head_last_split lo up vma) as [Hnx Hadd]; [rewrite <- Hsp; apply W|]. rewrite <- Hsp in Hnx, Hadd.
  set (s1 := set_mms (<[m := x1]> (mms s)) s) in *.
  assert (Hv1 : vmas s1 !! vma = Some v) by exact Hv. assert (Hm1 : mms s1 !! m = Some x1) by apply lookup_insert_eq.
  set (x2 := with_list (lo ++ vma :: up) (with_count (Z.of_nat (length (mmap_list x)) + 1) x1)).
  set (s2 := inserted s m vma v x2).
  assert (Hlk2 : forall a, a ∈ mmap_list x -> area s2 a = area s a) by (intros a Ha; exact (area_insert s vma (owned m v) _ a Hn Ha)).
  assert (Hvma2 : area s2 vma = owned m v) by (apply area_Some, lookup_insert_eq).
  assert (Hsub : forall a, a ∈ lo ++ vma :: up -> a ∈ mmap_list x \/ a = vma) by (rewrite Hsp; set_solver).
  assert (Hsort : StronglySorted (before s2) (lo ++ vma :: up)).
  { apply (ins_sorted s s2 (mmap_list x) vma v); try done; [apply W|intros; by apply (mw_area s m x _ W)|by rewrite Hvma2..]. }
  assert (Hnd : NoDup (lo ++ vma :: up)).
  { rewrite <- Permutation_middle, <- Hsp. constructor; [done|apply W]. }
  assert (Huser : forall a, a ∈ lo ++ vma :: up -> exists v', vmas s2 !! a = Some v' /\ user_vma v' /\ vm_mm v' = Some m).
  { intros a [Ha| ->]%Hsub.
    - destruct (mw_area s m x a W Ha) as (Hva & ? & ?). exists (area s a). split_and!; [|done|done].
      cbn [s2 inserted vmas]. by rewrite lookup_insert_ne by (by intros ->).
    - exists (owned m v). split_and!; [apply lookup_insert_eq|done|done]. }
  assert (Hcnt : Z.of_nat (length (lo ++ vma :: up)) = Z.of_nat (length (mmap_list x)) + 1).
  { rewrite Hsp, !length_app. cbn [length]. lia. }
  assert (E2 : insert_vma_struct m vma ok s = match mmap_tree x2 with
    | None => if (RB_MIN_MAP_COUNT <=? map_count x2) && ok
              then (t ← build_tree (mmap_list x2) Leaf; upd_mm m (with_tree (Some t))) s2 else Ok (tt, s2)
    | Some _ => Ok (tt, s2) end).
  { unfold insert_vma_struct. mstep (rd_vma_spec vma v s Hv). massert; [|apply Z.ltb_lt, Hu]. mstep (rd_mm_spec m x s (mw_mm _ _ _ W)).
    mstep E1. cbn zeta. rewrite Hnx. mstep (check_prev s m x vma v s1 W Hv Hu Hd eq_refl). mstep (check_next s m x vma v s1 W Hv Hu Hd eq_refl).
    mstep (upd_vma_spec vma (fun v => Vma (Some m) (vm_start v) (vm_end v) (vm_flags v) (shmem v) (shmem_off v)) v s1 Hv1).
    set (s1' := set_vmas _ s1). assert (Hm1' : mms s1' !! m = Some x1) by exact Hm1.
    mstep (upd_mm_spec m (fun x => with_list (add_after (mmap_list x) (last lo) vma) (with_count (s32 (map_count x + 1)) x)) x1 s1' Hm1').
    assert (Hx2 : with_list (add_after (mmap_list x1) (last lo) vma) (with_count (s32 (map_count x1 + 1)) x1) = x2).
    { rewrite Hx1. cbn [mmap_list with_tree map_count]. rewrite Hadd, (mw_count _ _ _ W), (smod_small 32) by (unfold is_s; simpl; lia).
      unfold x2. by rewrite Hx1. }
    rewrite Hx2. assert (Hs2 : set_mms (<[m := x2]> (mms s1')) s1' = s2).
    { unfold s1', s1, s2, set_mms, set_vmas, inserted. cbn. by rewrite insert_insert_eq. }
    rewrite Hs2. mstep (rd_mm_spec m x2 s2 (lookup_insert_eq _ _ _)). destruct (mmap_tree x2); [done|]. by destruct (_ && ok). }
  assert (Wf : forall t, (forall t', t = Some t' -> rb_ok t' /\ elements t' = lo ++ vma :: up) -> mwf (inserted s m vma v (with_tree t x2)) m (with_tree t x2)).
  { intros t Ht. split; cbn [mmap_list with_tree x2 with_list map_count with_count mmap_cache mmap_tree]; try done; try (by intros t' Ht'; destruct (Ht t' Ht')).
    - apply lookup_insert_eq.
    - intros a Ha. rewrite Hx1 in Ha. cbn [with_tree mmap_cache] in Ha. pose proof (mw_cache _ _ _ W a Ha) as Hin. rewrite Hsp in Hin. set_solver. }
  assert (Hpd : pgdir x1 = pgdir x /\ mm_count x1 = mm_count x) by (rewrite Hx1; done).
  assert (Hid : with_tree (mmap_tree x2) x2 = x2) by done. rewrite E2. destruct (mmap_tree x2) as [t|] eqn:Et.
  { exists x2. split; [done|]. split; [|done]. rewrite <- Hid. apply Wf. intros t' [= <-]. by apply Ht1. }
  destruct (_ && ok).
  - destruct (build_tree_spec s2 (mmap_list x2) Leaf rb_ok_leaf) as (t & Eb & Hbt & Hel).
    { apply sorted_starts; [|done]. cbn [app RbTree.elems mmap_list x2 with_list]. intros a Ha. destruct (Huser a Ha) as (v' & Hv' & Hu' & _).
      by rewrite (area_Some _ _ _ Hv'). }
    { exact Hnd. }
    exists (with_tree (Some t) x2). split; [|split; [apply Wf; by intros ? [= <-]|done]].
    mstep Eb. rewrite (upd_mm_spec m _ x2 s2 (lookup_insert_eq _ _ _)). unfold s2, inserted, set_mms. cbn. by rewrite insert_insert_eq.
  - exists x2. split; [done|]. split; [|done]. rewrite <- Hid. by apply Wf.
Qed.
Lemma sorted_last {A} (R : A -> A -> Prop) (l : list A) a p : StronglySorted R l -> last l = Some p -> a ∈ l -> a = p \/ R a p.
Proof.
  intros Hs Hl Ha. destruct l as [|y l _] using rev_ind; [done|]. rewrite last_snoc in Hl. injection Hl as ->.
  apply sorted_app_iff in Hs as (_ & _ & H12). apply elem_of_app in Ha as [Ha| ->%list_elem_of_singleton]; [|by left].
  right. apply H12; [done|left].
Qed.
Lemma sorted_head {A} (R : A -> A -> Prop) (l : list A) a p : StronglySorted R l -> head l = Some p -> a ∈ l -> a = p \/ R p a.
Proof.
  intros Hs Hl Ha. destruct l as [|y l]; [done|]. injection Hl as ->. apply StronglySorted_inv in Hs as [_ Hx].
  rewrite list.Forall_forall in Hx. apply elem_of_cons in Ha as [->|Ha]; [by left|right; by apply Hx].
Qed.

(** An area that meets another one trips an assertion. *)
Lemma insert_overlap s m x vma v ok a : mwf s m x -> vmas s !! vma = Some v -> user_vma v -> vma ∉ mmap_list x ->
  a ∈ mmap_list x -> vm_start (area s a) < vm_end v -> vm_start v < vm_end (area s a) ->
  insert_vma_struct m vma ok s = Err AssertFailed.
Proof.
  intros W Hv Hu Hn Ha Ho1 Ho2. pose proof (mw_starts s m x W) as Hst.
  pose proof (sorted_key_split (start_of s) (mmap_list x) (vm_start v) Hst) as Hsp.
  fold (lower s (mmap_list x) (vm_start v)) (upper s (mmap_list x) (vm_start v)) in Hsp.
  destruct (insert_place s m x vma v W Hv Hn) as (x1 & E1 & _).
  destruct (head_last_split (lower s (mmap_list x) (vm_start v)) (upper s (mmap_list x) (vm_start v)) vma) as [Hnx _]; [rewrite <- Hsp; apply W|].
  rewrite <- Hsp in Hnx. pose proof (mw_sorted _ _ _ W) as Hs. rewrite Hsp in Hs. apply sorted_app_iff in Hs as (Hlo & Hup & _).
  set (s1 := set_mms (<[m := x1]> (mms s)) s) in *.
  unfold insert_vma_struct. mstep (rd_vma_spec vma v s Hv). massert; [|apply Z.ltb_lt, Hu]. mstep (rd_mm_spec m x s (mw_mm _ _ _ W)).
  mstep E1. cbn zeta. rewrite Hnx. rewrite Hsp in Ha. apply elem_of_app in Ha as [Ha|Ha].
  - destruct (last (lower s (mmap_list x) (vm_start v))) as [p|] eqn:El.
    2:{ apply last_None in El. rewrite El in Ha. by apply not_elem_of_nil in Ha. }
    pose proof (last_Some_elem_of _ _ El) as [Hk Hp]%list_elem_of_filter. destruct (mw_area s m x p W Hp) as (Hvp & _ & _).
    apply bind_err. rewrite (check_overlap_spec s1 p vma (area s p) v Hvp Hv).
    destruct (Z.leb_spec (vm_end (area s p)) (vm_start v)); [|by rewrite andb_false_r].
    rewrite start_of_area in Hk. destruct (sorted_last _ _ a p Hlo El Ha) as [->|Hb]; [lia|]. unfold before in Hb.
    destruct (mw_area s m x p W Hp) as (_ & (_ & ? & _) & _). lia.
  - destruct (head (upper s (mmap_list x) (vm_start v))) as [n|] eqn:El.
    2:{ destruct (upper s (mmap_list x) (vm_start v)); [by apply not_elem_of_nil in Ha|done]. }
    pose proof (head_Some_elem_of _ _ El) as [Hk Hin]%list_elem_of_filter. destruct (mw_area s m x n W Hin) as (Hvn & (_ & Hun & _) & _).
    assert (Hlt : vm_start (area s n) < vm_end v). { destruct (sorted_head _ _ a n Hup El Ha) as [->|Hb]; [lia|]. unfold before in Hb. lia. }
    assert (E2 : check_vma_overlap vma n s1 = Err AssertFailed).
    { rewrite (check_overlap_spec s1 vma n v (area s n) Hv Hvn). destruct (Z.leb_spec (vm_end v) (vm_start (area s n))); [lia|].
      by rewrite andb_false_r. }
    destruct (last (lower s (mmap_list x) (vm_start v))) as [p|] eqn:El2.
    + pose proof (last_Some_elem_of _ _ El2) as [_ Hp]%list_elem_of_filter. destruct (mw_area s m x p W Hp) as (Hvp & _ & _).
      pose proof (check_overlap_spec s1 p vma (area s p) v Hvp Hv) as E3. destruct (_ && _); [mstep E3; by apply bind_err|by apply bind_err].
    + rewrite (bind_step (mret tt : M vmm unit) _ s1 tt s1 eq_refl). by apply bind_err.
Qed.

(** ** Mapping *)

Definition fresh_vma s (a : Z) : Prop := vmas s !! a = None.

(** The invariant only looks at the descriptor and its areas. *)
Lemma mwf_ext s s' m x : mwf s m x -> mms s' !! m = mms s !! m -> (forall b, b ∈ mmap_list x -> vmas s' !! b = vmas s !! b) -> mwf s' m x.
Proof.
  intros W Hm Hlk. split; try apply W.
  - rewrite Hm. apply W.
  - intros b Hb. rewrite Hlk by done. by apply (mw_vma _ _ _ W).
  - pose proof (mw_sorted _ _ _ W) as Hs. revert Hs Hlk. clear. generalize (mmap_list x). intros l.
    induction 1 as [|y l _ IH Hy]; intros Hlk; constructor; [apply IH; intros; apply Hlk; by right|].
    rewrite list.Forall_forall in Hy |- *. intros z Hz. unfold before, area. rewrite !Hlk by ((by left) || by right). by apply Hy.
Qed.

Lemma fresh_notin s m x a : mwf s m x -> fresh_vma s a -> a ∉ mmap_list x.
Proof. intros W Hf Ha. destruct (mw_vma _ _ _ W a Ha) as (? & Hv & _). unfold fresh_vma in Hf. congruence. Qed.

Lemma mwf_create s m x a v : mwf s m x -> a ∉ mmap_list x -> mwf (set_vmas (<[a := v]> (vmas s)) s) m x.
Proof. intros W Ha. apply (mwf_ext s); [done|done|]. intros b Hb. cbn [vmas set_vmas]. apply lookup_insert_ne. by intros ->. Qed.

(** The range [mm_map] and [mm_unmap] work on. *)
Definition lo_page (addr : Z) : Z := ROUNDDOWN addr PGSIZE.
Definition hi_page (addr len : Z) : Z := ROUNDUP (u32 (addr + len)) PGSIZE.

Lemma rounddown_mod a : ROUNDDOWN a PGSIZE mod PGSIZE = 0.
Proof. unfold ROUNDDOWN, PGSIZE. pose proof (Z.div_mod a 4096). replace (a - a mod 4096) with (4096 * (a / 4096)) by lia. rewrite Z.mul_comm. apply Z_mod_mult. Qed.

Lemma user_access_spec a b : USER_ACCESS a b = true <-> USERBASE <= a /\ a < b /\ b <= USERTOP.
Proof. unfold USER_ACCESS. rewrite !andb_true_iff, !Z.leb_le, Z.ltb_lt. tauto. Qed.

Lemma eq_iff_mem (l l' : list Z) (E : l = l') a : a ∈ l <-> a ∈ l'.
Proof. by rewrite E. Qed.

(** The bytes a descriptor maps. *)
Definition mapped s (x : mm_struct) (addr : Z) : Prop := exists a, a ∈ mmap_list x /\ covers s a addr.

(** Insertion adds exactly the bytes of the new area. *)
Lemma mapped_inserted s m x vma v x' addr : mwf s m x -> vma ∉ mmap_list x ->
  mmap_list x' = lower s (mmap_list x) (vm_start v) ++ vma :: upper s (mmap_list x) (vm_start v) ->
  mapped (inserted s m vma v x') x' addr <-> mapped s x addr \/ vm_start v <= addr < vm_end v.
Proof.
  intros W Hn Hl. pose proof (sorted_key_split (start_of s) (mmap_list x) (vm_start v) (mw_starts s m x W)) as Hsp.
  fold (lower s (mmap_list x) (vm_start v)) (upper s (mmap_list x) (vm_start v)) in Hsp.
  assert (Hin : forall a, a ∈ mmap_list x' <-> a ∈ mmap_list x \/ a = vma) by (intros a; rewrite Hl, (eq_iff_mem _ _ Hsp a), !elem_of_app, elem_of_cons; tauto).
  assert (Ha : forall a, a ∈ mmap_list x -> area (inserted s m vma v x') a = area s a)
    by (intros a Ha; exact (area_insert s vma (owned m v) _ a Hn Ha)).
  assert (Hv : area (inserted s m vma v x') vma = owned m v) by (apply area_Some, lookup_insert_eq).
  unfold mapped, covers. split.
  - intros (a & [Hx| ->]%Hin & Hc); [left; exists a; by rewrite <- Ha|right; by rewrite Hv in Hc].
  - intros [(a & Hx & Hc)|Hc]; [exists a; rewrite Ha by done; split; [apply Hin; by left|done]|].
    exists vma. rewrite Hv. split; [apply Hin; by right|done].
Qed.
End insertion.

(** ** Removal *)

Section removal.
Context `{RB : RbLaws}.
Implicit Types (s : vmm) (l : list Z).

(** Areas and the rest of the state are untouched, the descriptor loses [a]. *)
Lemma remove_spec s m x a : mwf s m x -> a ∈ mmap_list x -> Z.of_nat (length (mmap_list x)) < 2 ^ 31 ->
  exists x', remove_vma_struct m a s = Ok (tt, set_mms (<[m := x']> (mms s)) s) /\
    mwf (set_mms (<[m := x']> (mms s)) s) m x' /\ mmap_list x' = filter (fun y => y <> a) (mmap_list x) /\
    pgdir x' = pgdir x /\ mm_count x' = mm_count x.
Proof.
  intros W Ha Hlen. destruct (mw_area s m x a W Ha) as (Hv & _ & Hm). pose proof (mw_mm _ _ _ W) as Hx.
  set (x1 := match mmap_tree x with Some t => with_tree (Some (rb_delete t a)) x | None => x end).
  set (x2 := with_list (filter (fun y => y <> a) (mmap_list x)) x1).
  set (x3 := if bool_decide (mmap_cache x = Some a) then with_cache None x2 else x2).
  set (x4 := with_count (s32 (map_count x - 1)) x3). exists x4.
  assert (Hsame : map_count x3 = map_count x /\ mmap_list x1 = mmap_list x).
  { unfold x3, x2, x1. by destruct (mmap_tree x), (bool_decide _). }
  assert (Hcoll : forall y z st, set_mms (<[m := y]> (mms (set_mms (<[m := z]> (mms st)) st))) (set_mms (<[m := z]> (mms st)) st) = set_mms (<[m := y]> (mms st)) st).
  { intros. unfold set_mms. cbn. by rewrite insert_insert_eq. }
  split; [|split].
  - unfold remove_vma_struct. mstep (rd_vma_spec a _ s Hv). massert; [|by rewrite bool_decide_eq_true]. mstep (rd_mm_spec m x s Hx).
    assert (E1 : match mmap_tree x with Some t => upd_mm m (with_tree (Some (rb_delete t a))) | None => mret tt end s
      = Ok (tt, set_mms (<[m := x1]> (mms s)) s)).
    { unfold x1. destruct (mmap_tree x) as [t|]; [by rewrite (upd_mm_spec m _ x s Hx)|]. unfold set_mms. rewrite insert_id by done. by destruct s. }
    mstep E1. set (s1 := set_mms (<[m := x1]> (mms s)) s).
    mstep (upd_mm_spec m (fun x => with_list (filter (fun y => y <> a) (mmap_list x)) x) x1 s1 (lookup_insert_eq _ _ _)).
    rewrite (proj2 Hsame). fold x2. unfold s1. rewrite Hcoll. set (s2 := set_mms (<[m := x2]> (mms s)) s).
    assert (E3 : (if bool_decide (mmap_cache x = Some a) then upd_mm m (with_cache None) else mret tt) s2 = Ok (tt, set_mms (<[m := x3]> (mms s)) s)).
    { unfold x3. destruct (bool_decide _); [|done]. rewrite (upd_mm_spec m _ x2 s2 (lookup_insert_eq _ _ _)). unfold s2. by rewrite Hcoll. }
    mstep E3. set (s3 := set_mms (<[m := x3]> (mms s)) s).
    rewrite (upd_mm_spec m _ x3 s3 (lookup_insert_eq _ _ _)). unfold s3. rewrite Hcoll, (proj1 Hsame). done.
  - assert (Hl4 : mmap_list x4 = filter (fun y => y <> a) (mmap_list x)) by (unfold x4, x3, x2; by destruct (bool_decide _)).
    assert (Hlen4 : length (mmap_list x4) = (length (mmap_list x) - 1)%nat) by (rewrite Hl4; apply length_filter_ne; [apply W|done]).
    assert (Htree : forall t, mmap_tree x4 = Some t -> rb_ok t /\ elements t = filter (fun y => y <> a) (mmap_list x)).
    { intros t Ht. assert (exists t0, mmap_tree x = Some t0 /\ t = rb_delete t0 a) as (t0 & Et & ->).
      { unfold x4, x3, x2, x1 in Ht. case_bool_decide; cbn [with_count with_cache with_list mmap_tree] in Ht;
          destruct (mmap_tree x) as [t0|] eqn:Et; cbn [with_tree mmap_tree] in Ht; try congruence; (exists t0; split; [done|congruence]). }
      rewrite <- (mw_tree _ _ _ W t0 Et). apply rb_delete_elements; [by apply W|rewrite (mw_tree _ _ _ W t0 Et); apply W|by rewrite (mw_tree _ _ _ W t0 Et)]. }
    assert (Hpos : (0 < length (mmap_list x))%nat) by (destruct (mmap_list x); [by apply not_elem_of_nil in Ha|simpl; lia]).
    split.
    + apply lookup_insert_eq.
    + intros b. rewrite Hl4. intros [_ Hb]%list_elem_of_filter. by apply (mw_vma _ _ _ W).
    + rewrite Hl4. apply sorted_filter, W.
    + rewrite Hl4. apply list.NoDup_filter, W.
    + cbn [x4 with_count map_count]. rewrite (mw_count _ _ _ W), Hlen4, (smod_small 32) by (unfold is_s; simpl; lia). lia.
    + intros b Hb. rewrite Hl4. assert (Hc : mmap_cache x = Some b /\ b <> a).
      { unfold x4, x3, x2, x1 in Hb. case_bool_decide as Hca; [done|]. cbn [with_count with_list mmap_cache] in Hb.
        destruct (mmap_tree x); cbn [with_tree mmap_cache] in Hb; (split; [done|congruence]). }
      apply list_elem_of_filter. split; [tauto|]. apply (mw_cache _ _ _ W). tauto.
    + intros t Ht. rewrite Hl4. by destruct (Htree t Ht).
    + intros t Ht. by destruct (Htree t Ht).
  - unfold x4, x3, x2, x1. destruct (bool_decide _), (mmap_tree x); done.
Qed.

(** The first loop takes out the areas from [a] on that start below [hi]. *)
Lemma collect_spec m hi l2 : forall s x l1 a acc fuel, mwf s m x -> mmap_list x = l1 ++ a :: l2 ->
  Z.of_nat (length (mmap_list x)) < 2 ^ 31 -> (length l2 < fuel)%nat -> vm_start (area s a) < hi ->
  exists x' taken left, unmap_collect fuel m a hi acc s = Ok (reverse taken ++ acc, set_mms (<[m := x']> (mms s)) s) /\
    a :: l2 = taken ++ left /\ mwf (set_mms (<[m := x']> (mms s)) s) m x' /\ mmap_list x' = l1 ++ left /\ pgdir x' = pgdir x /\
    (exists t, taken = a :: t) /\
    (forall b, b ∈ taken -> vm_start (area s b) < hi) /\ (forall b, b ∈ left -> hi <= vm_start (area s b)).
Proof.
  induction l2 as [|n l2 IH]; intros s x l1 a acc fuel W Hl Hlen Hf Ha; (destruct fuel as [|fuel]; [simpl in Hf; lia|]);
    cbn [unmap_collect]; assert (Hin : a ∈ mmap_list x) by (rewrite Hl; set_solver);
    destruct (mw_area s m x a W Hin) as (Hv & _ & _); rewrite (bind_step _ _ _ _ _ (rd_vma_spec a _ s Hv));
    (destruct (Z.ltb_spec (vm_start (area s a)) hi); [|lia]); rewrite (bind_step _ _ _ _ _ (rd_mm_spec m x s (mw_mm _ _ _ W))); cbn zeta;
    pose proof (mw_nodup _ _ _ W) as Hnd; rewrite Hl in Hnd; apply NoDup_app in Hnd as (Hnd1 & Hnd12 & [Hna Hnd2]%list.NoDup_cons);
    assert (Hna1 : a ∉ l1) by (intros Hx; apply (Hnd12 a Hx); left);
    destruct (remove_spec s m x a W Hin Hlen) as (x1 & E1 & W1 & Hl1 & Hpd & _); rewrite (bind_step _ _ _ _ _ E1);
    rewrite Hl, (next_in_app _ _ _ Hna1); rewrite Hl, filter_app, filter_cons_False, !filter_ne_notin in Hl1 by (done || (intros Hx; by apply Hx)); cbn [head].
  - exists x1, [a], []. split_and!; try done; [by eexists|intros b ->%list_elem_of_singleton; done|by intros b ?%not_elem_of_nil].
  - set (s1 := set_mms (<[m := x1]> (mms s)) s) in *.
    destruct (decide (vm_start (area s n) < hi)) as [Hn|Hn].
    + destruct (IH s1 x1 l1 n (a :: acc) fuel W1 Hl1) as (x' & taken & left & E & Htl & W' & Hl' & Hpd' & _ & Ht & Hr); [|simpl in Hf; lia|exact Hn|].
      { rewrite Hl1. rewrite Hl in Hlen. rewrite !length_app in *. cbn [length] in *. lia. }
      exists x', (a :: taken), left. assert (Hs' : set_mms (<[m := x']> (mms s1)) s1 = set_mms (<[m := x']> (mms s)) s)
        by (unfold s1, set_mms; cbn; by rewrite insert_insert_eq). rewrite Hs' in *.
      split; [rewrite E, reverse_cons, <- app_assoc; done|]. split; [rewrite Htl; done|]. split; [done|]. split; [done|].
      split; [congruence|]. split; [by eexists|]. split; [|exact Hr]. intros b [->|Hb]%elem_of_cons; [done|by apply Ht].
    + exists x1, [a], (n :: l2). destruct fuel as [|fuel]; [simpl in Hf; lia|]. cbn [unmap_collect].
      assert (Hvn : vmas s1 !! n = Some (area s n)) by (apply (mw_area s m x n W); rewrite Hl; set_solver).
      mstep (rd_vma_spec n _ s1 Hvn). destruct (Z.ltb_spec (vm_start (area s n)) hi); [lia|].
      split_and!; try done; [by eexists|intros b ->%list_elem_of_singleton; done|].
      pose proof (mw_sorted _ _ _ W) as Hs. rewrite Hl in Hs. apply sorted_app_iff in Hs as (_ & [Hs _]%StronglySorted_inv & _).
      apply StronglySorted_inv in Hs as [_ Hs]. rewrite list.Forall_forall in Hs.
      intros b [->|Hb]%elem_of_cons; [lia|]. specialize (Hs b Hb). unfold before in Hs.
      destruct (mw_area s m x n W) as (_ & (_ & ? & _) & _); [rewrite Hl; set_solver|]. lia.
Qed.

Definition apart (v w : vma_struct) : Prop := vm_end v <= vm_start w \/ vm_end w <= vm_start v.

(** The second loop: areas still to be looked at, none of them in the list. *)
Record tinv s (m : Z) (x : mm_struct) (fl : list Z) (lo hi : Z) : Prop := {
  ti_wf : mwf s m x;
  ti_len : Z.of_nat (length (mmap_list x) + length fl) < 2 ^ 31 - 1;
  ti_nodup : NoDup fl;
  ti_each : forall a, a ∈ fl -> a ∉ mmap_list x /\ exists v, vmas s !! a = Some v /\ user_vma v /\ Z.land (vm_flags v) VM_SHARE = 0 /\
    vm_start v < hi /\ lo < vm_end v /\ (lo <= vm_start v \/ vm_end v <= hi) /\ disjoint_from s (mmap_list x) v;
  ti_apart : forall a b, a ∈ fl -> b ∈ fl -> a <> b -> apart (area s a) (area s b) }.

Lemma unmap_range_spec s pd st en : st mod PGSIZE = 0 -> en mod PGSIZE = 0 -> USERBASE <= st -> st < en -> en <= USERTOP ->
  unmap_range pd st en s = Ok (tt, log_op (UnmapRange pd st en) s).
Proof.
  intros. unfold unmap_range. massert; [|apply andb_true_iff; by rewrite !Z.eqb_eq]. massert; [done|by apply user_access_spec].
Qed.

(** What is left of an area goes back into the list, the rest is unmapped. *)
Lemma put_back s m x a v fl lo hi st en us ue ok : tinv s m x (a :: fl) lo hi -> vmas s !! a = Some v ->
  vm_start v <= st -> st < en -> en <= vm_end v -> st mod PGSIZE = 0 -> en mod PGSIZE = 0 ->
  us mod PGSIZE = 0 -> ue mod PGSIZE = 0 -> vm_start v <= us -> us < ue -> ue <= vm_end v ->
  exists s1 x1, (_ ← vma_resize a st en; _ ← insert_vma_struct m a ok; unmap_range (pgdir x) us ue) s = Ok (tt, s1) /\
    tinv s1 m x1 fl lo hi /\ (forall b, b ∈ fl -> vmas s1 !! b = vmas s !! b) /\ pgdir x1 = pgdir x /\
    (forall addr, mapped s1 x1 addr <-> mapped s x addr \/ st <= addr < en) /\
    pglog s1 = pglog s ++ [UnmapRange (pgdir x) us ue].
Proof.
  intros T Hv H1 H2 H3 H4 H5 H6 H7 H8 H9 H10. pose proof (ti_wf _ _ _ _ _ _ T) as W. destruct (ti_each _ _ _ _ _ _ T a) as (Ha & v' & Hv' & Hu & Hns & _ & _ & _ & Hd); [left|].
  rewrite Hv in Hv'. injection Hv' as <-. pose proof Hu as (Hu1 & Hu2 & Hu3 & Hu4 & Hu5).
  set (v1 := Vma (vm_mm v) st en (vm_flags v) (shmem v) (shmem_off v)). set (s0 := set_vmas (<[a := v1]> (vmas s)) s).
  assert (E0 : vma_resize a st en s = Ok (tt, s0)).
  { unfold vma_resize. massert; [|apply andb_true_iff; by rewrite !Z.eqb_eq]. mstep (rd_vma_spec a v s Hv).
    massert; [|rewrite !andb_true_iff, !Z.leb_le, Z.ltb_lt; lia]. rewrite Hns. cbn [negb Z.eqb]. by rewrite (upd_vma_spec a _ v s Hv). }
  pose proof (mwf_create s m x a v1 W Ha) as W0. fold s0 in W0.
  assert (Hv0 : vmas s0 !! a = Some v1) by apply lookup_insert_eq.
  assert (Harea : forall b, b ∈ mmap_list x -> area s0 b = area s b) by (intros b Hb; exact (area_insert s a v1 _ b Ha Hb)).
  pose proof (ti_len _ _ _ _ _ _ T) as Hlen. cbn [length] in Hlen.
  destruct (insert_spec s0 m x a v1 ok W0 Hv0) as (x1 & E1 & W1 & Hl1 & Hpd & _); [split_and!; cbn [vm_start vm_end v1]; lia|done| |lia|].
  { intros b Hb. rewrite Harea by done. cbn [vm_start vm_end v1]. destruct (Hd b Hb); [left|right]; lia. }
  set (s1 := inserted s0 m a v1 x1) in *. exists (log_op (UnmapRange (pgdir x) us ue) s1), x1.
  split; [mstep E0; mstep E1; apply unmap_range_spec; lia|].
  pose proof (ti_nodup _ _ _ _ _ _ T) as [Hafl Hnd]%list.NoDup_cons.
  assert (Hvm : forall b, b <> a -> vmas s1 !! b = vmas s !! b).
  { intros b Hb. cbn [s1 inserted vmas s0 set_vmas]. by rewrite !lookup_insert_ne by congruence. }
  assert (Hmem : forall b, b ∈ mmap_list x1 <-> b ∈ mmap_list x \/ b = a).
  { intros b. rewrite Hl1. pose proof (sorted_key_split (start_of s0) (mmap_list x) (vm_start v1) (mw_starts s0 m x W0)) as Hsp.
    fold (lower s0 (mmap_list x) (vm_start v1)) (upper s0 (mmap_list x) (vm_start v1)) in Hsp.
    rewrite (eq_iff_mem _ _ Hsp b), !elem_of_app, elem_of_cons. tauto. }
  split; [|split; [intros b Hb; apply Hvm; by intros ->|split; [done|split; [|done]]]].
  2:{ intros addr. change (mapped (log_op _ s1) x1 addr) with (mapped s1 x1 addr). unfold s1. rewrite (mapped_inserted s0 m x a v1 x1 addr W0 Ha Hl1).
      cbn [vm_start vm_end v1]. unfold mapped, covers. split; (intros [(b & Hb & Hc)|Hc]; [left; exists b|by right]).
      - by rewrite Harea in Hc by done.
      - by rewrite Harea by done. }
  assert (Hlen1 : length (mmap_list x1) = S (length (mmap_list x))).
  { rewrite Hl1, length_app. cbn [length]. rewrite (sorted_key_split (start_of s0) (mmap_list x) (vm_start v1) (mw_starts s0 m x W0)) at 3.
    rewrite length_app. unfold lower, upper. lia. }
  split; [apply (mwf_ext s1); done|lia|done| |].
  - intros b Hb. assert (Hba : b <> a) by (by intros ->). destruct (ti_each _ _ _ _ _ _ T b) as (Hbx & vb & Hvb & Hub & Hnsb & ? & ? & ? & Hdb); [by right|].
    split; [rewrite Hmem; tauto|]. exists vb. split; [change (vmas s1 !! b = Some vb); by rewrite Hvm|]. split_and!; try done.
    intros c [Hc| ->]%Hmem.
    + change (area (log_op _ s1) c) with (area s1 c). assert (Hca : c <> a) by (by intros ->). unfold area at 1 2. rewrite Hvm by done. by apply Hdb.
    + change (area (log_op _ s1) a) with (area s1 a). assert (Ea : area s1 a = owned m v1) by (apply area_Some, lookup_insert_eq). rewrite Ea.
      cbn [owned v1 vm_start vm_end]. destruct (ti_apart _ _ _ _ _ _ T a b) as [Hap|Hap]; [left|by right|done| |];
        rewrite (area_Some _ _ _ Hv), (area_Some _ _ _ Hvb) in Hap; lia.
  - intros b c Hb Hc Hbc. change (apart (area s1 b) (area s1 c)). unfold area. rewrite !Hvm by (by intros ->).
    by apply (ti_apart _ _ _ _ _ _ T); [right|right|].
Qed.

(** An area wholly inside the range is freed. *)
Lemma drop_area s m x a v fl lo hi : tinv s m x (a :: fl) lo hi -> vmas s !! a = Some v ->
  exists s1, (_ ← vma_destroy a; unmap_range (pgdir x) (vm_start v) (vm_end v)) s = Ok (tt, s1) /\
    tinv s1 m x fl lo hi /\ (forall b, b ∈ fl -> vmas s1 !! b = vmas s !! b) /\
    (forall addr, mapped s1 x addr <-> mapped s x addr) /\ pglog s1 = pglog s ++ [UnmapRange (pgdir x) (vm_start v) (vm_end v)].
Proof.
  intros T Hv. pose proof (ti_wf _ _ _ _ _ _ T) as W. destruct (ti_each _ _ _ _ _ _ T a) as (Ha & v' & Hv' & (Hu1 & Hu2 & Hu3 & Hu4 & Hu5) & Hns & _); [left|].
  rewrite Hv in Hv'. injection Hv' as <-. set (s0 := set_vmas (delete a (vmas s)) s).
  assert (E0 : vma_destroy a s = Ok (tt, s0)) by (unfold vma_destroy; mstep (rd_vma_spec a v s Hv); by rewrite Hns).
  assert (Hvm : forall b, b <> a -> vmas s0 !! b = vmas s !! b) by (intros b Hb; cbn [s0 vmas set_vmas]; by rewrite lookup_delete_ne by congruence).
  exists (log_op (UnmapRange (pgdir x) (vm_start v) (vm_end v)) s0). pose proof (ti_nodup _ _ _ _ _ _ T) as [Hafl Hnd]%list.NoDup_cons.
  split; [mstep E0; by apply unmap_range_spec|]. split; [|split; [intros b Hb; apply Hvm; by intros ->|split; [|done]]].
  - assert (Hne : forall b, b ∈ mmap_list x -> b <> a) by (by intros b Hb ->).
    pose proof (ti_len _ _ _ _ _ _ T) as Hlen. cbn [length] in Hlen. split; [|lia|done| |].
    + apply (mwf_ext s); [done|done|]. intros b Hb. apply Hvm. by apply Hne.
    + intros b Hb. destruct (ti_each _ _ _ _ _ _ T b) as (Hbx & vb & Hvb & ? & ? & ? & ? & ? & Hdb); [by right|]. split; [done|].
      exists vb. split; [rewrite <- Hvb; apply Hvm; by intros ->|]. split_and!; try done. intros c Hc. unfold area. cbn [vmas log_op].
      rewrite Hvm by (by apply Hne). by apply Hdb.
    + intros b c Hb Hc Hbc. unfold area. cbn [vmas log_op]. rewrite !Hvm by (by intros ->). by apply (ti_apart _ _ _ _ _ _ T); [right|right|].
  - intros addr. unfold mapped, covers, area. cbn [vmas log_op]. split; intros (b & Hb & Hc); exists b; (split; [done|]);
      rewrite Hvm in * by (by intros ->); done.
Qed.

(** What the page-table operations of a log unmapped. *)
Definition unmapped_by (pd : option Z) (ops : list pgop) (addr : Z) : Prop := exists st en, UnmapRange pd st en ∈ ops /\ st <= addr < en.

Lemma trim_spec m lo hi ok fl : forall s x, tinv s m x fl lo hi -> lo < hi -> lo mod PGSIZE = 0 -> hi mod PGSIZE = 0 ->
  exists s' x' ops, unmap_trim m fl lo hi ok s = Ok (tt, s') /\ mwf s' m x' /\
    (forall addr, mapped s' x' addr <-> mapped s x addr \/ exists a, a ∈ fl /\ covers s a addr /\ ~ (lo <= addr < hi)) /\
    pglog s' = pglog s ++ ops /\
    (forall addr, unmapped_by (pgdir x) ops addr <-> exists a, a ∈ fl /\ covers s a addr /\ lo <= addr < hi).
Proof.
  induction fl as [|a fl IH]; intros s x T Hlt Hlo Hhi.
  { exists s, x, []. split; [done|]. split; [apply T|]. split; [|split; [by rewrite app_nil_r|]].
    - intros addr. split; [by left|]. intros [?|(? & ?%not_elem_of_nil & _)]; done.
    - intros addr. split; [intros (? & ? & ?%not_elem_of_nil & _); done|intros (? & ?%not_elem_of_nil & _); done]. }
  pose proof (ti_wf _ _ _ _ _ _ T) as W. destruct (ti_each _ _ _ _ _ _ T a) as (Ha & v & Hv & (Hu1 & Hu2 & Hu3 & Hu4 & Hu5) & Hns & Hsh & Hlv & Hor & Hd); [left|].
  cbn [unmap_trim]. mstep (rd_vma_spec a v s Hv). mstep (rd_mm_spec m x s (mw_mm _ _ _ W)).
  assert (Hstep : exists s1 x1 us ue, (if vm_start v <? lo then
             _ ← vma_resize a (vm_start v) lo; _ ← insert_vma_struct m a ok; unmap_range (pgdir x) lo (vm_end v)
           else if hi <? vm_end v then _ ← vma_resize a hi (vm_end v); _ ← insert_vma_struct m a ok; unmap_range (pgdir x) (vm_start v) hi
           else _ ← vma_destroy a; unmap_range (pgdir x) (vm_start v) (vm_end v)) s = Ok (tt, s1) /\
      tinv s1 m x1 fl lo hi /\ (forall b, b ∈ fl -> vmas s1 !! b = vmas s !! b) /\ pgdir x1 = pgdir x /\
      (forall addr, mapped s1 x1 addr <-> mapped s x addr \/ (covers s a addr /\ ~ (lo <= addr < hi))) /\
      pglog s1 = pglog s ++ [UnmapRange (pgdir x) us ue] /\ (forall addr, us <= addr < ue <-> covers s a addr /\ lo <= addr < hi)).
  { unfold covers. rewrite (area_Some _ _ _ Hv). destruct (Z.ltb_spec (vm_start v) lo) as [L|L]; [|destruct (Z.ltb_spec hi (vm_end v)) as [L2|L2]].
    - destruct (put_back s m x a v fl lo hi (vm_start v) lo lo (vm_end v) ok T Hv) as (s1 & x1 & E & T1 & Hb & Hp & Hm & Hg); try lia.
      exists s1, x1, lo, (vm_end v). split; [exact E|]. split_and!; try done; intros addr; [rewrite Hm; split; intros [?|?]; (by left) || (right; lia)|lia].
    - destruct (put_back s m x a v fl lo hi hi (vm_end v) (vm_start v) hi ok T Hv) as (s1 & x1 & E & T1 & Hb & Hp & Hm & Hg); try lia.
      exists s1, x1, (vm_start v), hi. split; [exact E|]. split_and!; try done; intros addr; [rewrite Hm; split; intros [?|?]; (by left) || (right; lia)|lia].
    - destruct (drop_area s m x a v fl lo hi T Hv) as (s1 & E & T1 & Hb & Hm & Hg).
      exists s1, x, (vm_start v), (vm_end v). split; [exact E|]. split_and!; try done; intros addr; [rewrite Hm; split; [by left|intros [?|?]; [done|lia]]|lia]. }
  destruct Hstep as (s1 & x1 & us & ue & E & T1 & Hb & Hp & Hm & Hg & Hr). mstep E.
  destruct (IH s1 x1 T1 Hlt Hlo Hhi) as (s' & x' & ops & E' & W' & Hm' & Hg' & Hr').
  exists s', x', (UnmapRange (pgdir x) us ue :: ops). split; [exact E'|]. split; [done|].
  assert (Hcov : forall b addr, b ∈ fl -> covers s1 b addr <-> covers s b addr) by (intros b addr Hin; unfold covers, area; by rewrite Hb).
  split_and!.
  - intros addr. rewrite Hm', Hm. split.
    + intros [[?|?]|(b & Hin & Hc & ?)]; [by left|right; exists a; split; [left|done]|].
      right. exists b. split; [by right|]. split; [by apply Hcov|done].
    + intros [?|(b & [->|Hin]%elem_of_cons & Hc & ?)]; [by left; left|left; by right|]. right. exists b. split; [done|]. split; [by apply Hcov|done].
  - rewrite Hg', Hg, <- app_assoc. done.
  - intros addr. rewrite Hp in Hr'. split.
    + intros (st & en & [[= -> ->]|Hin]%elem_of_cons & Hc); [exists a; split; [left|by apply Hr]|].
      destruct (proj1 (Hr' addr)) as (b & Hbin & Hcb & ?); [by exists st, en|]. exists b. split; [by right|]. split; [by apply Hcov|done].
    + intros (b & [->|Hin]%elem_of_cons & Hc & ?); [exists us, ue; split; [left|by apply Hr]|].
      destruct (proj2 (Hr' addr)) as (st & en & Hin' & ?); [exists b; split; [done|]; split; [by apply Hcov|done]|]. exists st, en. split; [by right|done].
Qed.

Lemma before_apart s l a b : StronglySorted (before s) l -> a ∈ l -> b ∈ l -> a <> b -> apart (area s a) (area s b).
Proof.
  induction 1 as [|y l _ IH Hy]; [by intros ?%not_elem_of_nil|]. rewrite list.Forall_forall in Hy. unfold before in Hy.
  intros [->|Ha]%elem_of_cons [->|Hb]%elem_of_cons Hne; [done|left; by apply Hy|right; by apply Hy|by apply IH].
Qed.

(** Replacing an area by a part of it. *)
Lemma mwf_shrink s m x a v : mwf s m x -> a ∈ mmap_list x -> user_vma v -> vm_mm v = Some m ->
  vm_start (area s a) <= vm_start v -> vm_end v <= vm_end (area s a) -> mwf (set_vmas (<[a := v]> (vmas s)) s) m x.
Proof.
  intros W Ha Hu Hm H1 H2. split; try apply W.
  - intros b Hb. cbn [vmas set_vmas]. destruct (decide (b = a)) as [->|]; [rewrite lookup_insert_eq; by exists v|].
    rewrite lookup_insert_ne by done. by apply (mw_vma _ _ _ W).
  - pose proof (mw_sorted _ _ _ W) as Hs. clear Ha. induction Hs as [|y l _ IH Hy]; constructor; [done|].
    rewrite list.Forall_forall in Hy |- *. intros z Hz. specialize (Hy z Hz). unfold before in *. unfold area at 1 2. cbn [vmas set_vmas].
    assert (E : forall b, vm_start (area s b) <= vm_start (default no_vma (<[a := v]> (vmas s) !! b)) /\ vm_end (default no_vma (<[a := v]> (vmas s) !! b)) <= vm_end (area s b)).
    { intros b. destruct (decide (b = a)) as [->|]; [rewrite lookup_insert_eq; done|rewrite lookup_insert_ne by done; unfold area; lia]. }
    pose proof (E y). pose proof (E z). lia.
Qed.

(** The case of a hole inside one area. *)
Lemma unmap_split s m x a n lo hi ok : mwf s m x -> a ∈ mmap_list x -> fresh_vma s n -> Z.of_nat (length (mmap_list x)) < 2 ^ 31 - 1 ->
  vm_start (area s a) < lo -> lo < hi -> hi < vm_end (area s a) ->
  lo mod PGSIZE = 0 -> hi mod PGSIZE = 0 ->
  exists s' x', (nvma ← vma_create (vm_start (area s a)) lo (vm_flags (area s a)) (Some n);
     match nvma with
     | None => mret (- E_NO_MEM)
     | Some n => _ ← vma_resize a hi (vm_end (area s a)); _ ← insert_vma_struct m n ok; x ← rd_mm m; _ ← unmap_range (pgdir x) lo hi; mret 0
     end) s = Ok (0, s') /\ mwf s' m x' /\
    (forall addr, mapped s' x' addr <-> mapped s x addr /\ ~ (lo <= addr < hi)) /\ pglog s' = pglog s ++ [UnmapRange (pgdir x) lo hi] /\
    vmas s' !! n = Some (Vma (Some m) (vm_start (area s a)) lo (vm_flags (area s a)) None 0).
Proof.
  intros W Ha Hf Hlen H1 H2 H3 H4 H5. set (v := area s a) in *. destruct (mw_area s m x a W Ha) as (Hv & (Hu1 & Hu2 & Hu3 & Hu4 & Hu5) & Hmm). fold v in Hv, Hu1, Hu2, Hu3, Hu4, Hu5, Hmm.
  pose proof (fresh_notin s m x n W Hf) as Hn. assert (Hna : n <> a) by (by intros ->).
  set (vn := Vma None (vm_start v) lo (vm_flags v) None 0). set (s1 := set_vmas (<[n := vn]> (vmas s)) s).
  rewrite (bind_step _ _ s (Some n) s1) by done. cbn beta iota.
  assert (Hv1 : vmas s1 !! a = Some v) by (cbn [s1 vmas set_vmas]; by rewrite lookup_insert_ne).
  set (off := if negb (Z.land (vm_flags v) VM_SHARE =? 0) then u32 (shmem_off v + (hi - vm_start v)) else shmem_off v).
  set (va := Vma (vm_mm v) hi (vm_end v) (vm_flags v) (shmem v) off). set (s2 := set_vmas (<[a := va]> (vmas s1)) s1).
  assert (E0 : vma_resize a hi (vm_end v) s1 = Ok (tt, s2)).
  { unfold vma_resize. massert; [|apply andb_true_iff; by rewrite !Z.eqb_eq]. mstep (rd_vma_spec a v s1 Hv1).
    massert; [|rewrite !andb_true_iff, !Z.leb_le, Z.ltb_lt; lia]. by rewrite (upd_vma_spec a _ v s1 Hv1). }
  mstep E0. pose proof (mwf_create s m x n vn W Hn) as W1. fold s1 in W1.
  assert (Ea1 : area s1 a = v) by (by apply area_Some).
  assert (W2 : mwf s2 m x) by (apply (mwf_shrink s1 m x a va W1 Ha); rewrite ?Ea1; cbn [vm_start vm_end va vm_mm]; [split_and!; cbn [vm_start vm_end va]; lia|done|lia|lia]).
  assert (Hvn2 : vmas s2 !! n = Some vn) by (cbn [s2 vmas set_vmas s1]; rewrite lookup_insert_ne by done; apply lookup_insert_eq).
  assert (Eo : forall b, b ∈ mmap_list x -> b <> a -> area s2 b = area s b).
  { intros b Hb Hba. unfold area. cbn [s2 vmas set_vmas s1]. by rewrite !lookup_insert_ne by (congruence || by intros ->). }
  assert (Ea2 : area s2 a = va) by (apply area_Some, lookup_insert_eq).
  assert (Hap : forall b, b ∈ mmap_list x -> b <> a -> apart (area s b) v) by (intros b Hb Hba; apply (before_apart s (mmap_list x)); [apply W|done..]).
  destruct (insert_spec s2 m x n vn ok W2 Hvn2) as (x' & E1 & W' & Hl' & Hpd & _); [split_and!; cbn [vm_start vm_end vn]; lia|done| |done|].
  { intros b Hb. cbn [vm_start vm_end vn]. destruct (decide (b = a)) as [->|Hba]; [rewrite Ea2; cbn [va vm_start vm_end]; lia|].
    rewrite (Eo b Hb Hba). destruct (Hap b Hb Hba); lia. }
  set (s3 := inserted s2 m n vn x') in *. exists (log_op (UnmapRange (pgdir x) lo hi) s3), x'.
  split; [mstep E1; mstep (rd_mm_spec m x' s3 (mw_mm _ _ _ W')); rewrite Hpd; rewrite (bind_step _ _ _ _ _ (unmap_range_spec s3 (pgdir x) lo hi H4 H5 ltac:(lia) ltac:(lia) ltac:(lia))); done|].
  split; [apply (mwf_ext s3); done|]. split; [|split; [done|apply lookup_insert_eq]]. intros addr. change (mapped (log_op _ s3) x' addr) with (mapped s3 x' addr).
  unfold s3. rewrite (mapped_inserted s2 m x n vn x' addr W2 Hn Hl'). cbn [vm_start vm_end vn]. unfold mapped, covers. split.
  - intros [(b & Hb & Hc)|Hc]; [|split; [exists a; split; [done|fold v; lia]|lia]].
    destruct (decide (b = a)) as [->|Hba]; [rewrite Ea2 in Hc; cbn [va vm_start vm_end] in Hc; split; [exists a; split; [done|fold v; lia]|lia]|].
    rewrite (Eo b Hb Hba) in Hc. split; [by exists b|]. destruct (Hap b Hb Hba); lia.
  - intros [(b & Hb & Hc) Hr]. destruct (decide (b = a)) as [->|Hba].
    + fold v in Hc. destruct (decide (addr < lo)); [right; lia|]. left. exists a. split; [done|]. rewrite Ea2. cbn [va vm_start vm_end]. lia.
    + left. exists b. by rewrite (Eo b Hb Hba).
Qed.
End removal.

(** C29: [mm_map] on a well-formed descriptor: a range outside user space is
    refused; so is one whose first page is mapped; a range that meets no area
    becomes mapped with the given flags, with every other byte mapped as before
    and list, tree, cache and counter in agreement. *)
Theorem mm_map_correct `{RB : RbLaws} s m x addr len flags n ok :
  mwf s m x -> fresh_vma s n -> Z.of_nat (length (mmap_list x)) < 2 ^ 31 - 1 ->
  let lo := lo_page addr in let hi := hi_page addr len in
  (USER_ACCESS lo hi = false -> mm_map m addr len flags (Some n) ok s = Ok ((- E_INVAL, None), s)) /\
  (USER_ACCESS lo hi = true -> mapped s x lo -> exists s', mm_map m addr len flags (Some n) ok s = Ok ((- E_INVAL, None), s') /\ vmas s' = vmas s) /\
  (USER_ACCESS lo hi = true -> (forall a, lo <= a < hi -> ~ mapped s x a) ->
     exists s' x', mm_map m addr len flags (Some n) ok s = Ok ((0, Some n), s') /\ mwf s' m x' /\
       area s' n = Vma (Some m) lo hi (Z.ldiff flags VM_SHARE) None 0 /\
       forall a, mapped s' x' a <-> mapped s x a \/ lo <= a < hi).
Proof.
  intros W Hf Hlen lo hi. unfold mm_map. fold lo hi. fold (lo_page addr) (hi_page addr len). fold lo hi.
  split; [by intros ->|]. pose proof (fresh_notin s m x n W Hf) as Hn. split; intros Hua; rewrite Hua; cbn [negb].
  - intros (a & Ha & Hc). rewrite (bind_step _ _ _ _ _ (find_vma_spec s m x lo W)). rewrite (holder_unique s m x a lo W Ha Hc).
    destruct (mw_area s m x a W Ha) as (Hv & _). set (s1 := cached s m x (Some a)).
    rewrite (bind_step _ _ s1 true s1); [by exists s1|]. mstep (rd_vma_spec a (area s a) s1 Hv).
    unfold mret, M_ret. do 2 f_equal. apply Z.ltb_lt. apply user_access_spec in Hua. unfold covers in Hc. lia.
  - intros Hno. apply user_access_spec in Hua as (H1 & H2 & H3). rewrite (bind_step _ _ _ _ _ (find_vma_spec s m x lo W)).
    destruct (holder s (mmap_list x) lo) as [a|] eqn:Eh.
    { apply holder_Some in Eh. destruct (Hno lo ltac:(lia)). by exists a. }
    cbn [cached]. rewrite (bind_step (mret false) _ s false s) by done. cbn beta iota.
    set (v := Vma None lo hi (Z.ldiff flags VM_SHARE) None 0). set (s1 := set_vmas (<[n := v]> (vmas s)) s).
    rewrite (bind_step _ _ s (Some n) s1) by done.
    pose proof (mwf_create s m x n v W Hn) as W1. fold s1 in W1.
    assert (Hv1 : vmas s1 !! n = Some v) by apply lookup_insert_eq.
    assert (Harea : forall a, a ∈ mmap_list x -> area s1 a = area s a) by (intros a Ha; exact (area_insert s n v _ a Hn Ha)).
    destruct (insert_spec s1 m x n v ok W1 Hv1) as (x' & E & W' & Hl' & _); [| |intros a Ha|done|].
    { split_and!; cbn [vm_start vm_end v]; try lia; apply rounddown_mod. }
    { done. }
    { rewrite Harea by done. destruct (mw_area s m x a W Ha) as (_ & (_ & Hu & _) & _). cbn [vm_start vm_end v].
      destruct (decide (vm_end (area s a) <= lo)); [by left|]. destruct (decide (hi <= vm_start (area s a))); [by right|].
      exfalso. apply (Hno (Z.max lo (vm_start (area s a)))); [lia|]. exists a. split; [done|]. unfold covers. lia. }
    exists (inserted s1 m n v x'), x'. split; [by mstep E|]. split; [exact W'|]. split; [apply area_Some, lookup_insert_eq|].
    intros a. rewrite (mapped_inserted s1 m x n v x' a W1 Hn Hl'). cbn [vm_start vm_end v]. unfold mapped, covers.
    split; (intros [(b & Hb & Hc)|Hc]; [left; exists b|by right]).
    + by rewrite Harea in Hc by done.
    + by rewrite Harea by done.
Qed.

(** [mm_map] asks [find_vma] whether the new range is free, but [find_vma]
    only looks for the area that holds the first byte: a request that starts in
    a gap and runs into an existing area panics in [insert_vma_struct]. *)
Theorem mm_map_overlap_panics `{RB : RbLaws} s m x addr len flags n ok a :
  mwf s m x -> fresh_vma s n -> USER_ACCESS (lo_page addr) (hi_page addr len) = true ->
  ~ mapped s x (lo_page addr) -> lo_page addr <= a < hi_page addr len -> mapped s x a ->
  mm_map m addr len flags (Some n) ok s = Err AssertFailed.
Proof.
  intros W Hf Hua Hno Hr (b & Hb & Hc). pose proof (fresh_notin s m x n W Hf) as Hn. unfold mm_map.
  fold (lo_page addr) (hi_page addr len). rewrite Hua. cbn [negb]. apply user_access_spec in Hua as (H1 & H2 & H3).
  rewrite (bind_step _ _ _ _ _ (find_vma_spec s m x (lo_page addr) W)).
  destruct (holder s (mmap_list x) (lo_page addr)) as [h|] eqn:Eh.
  { apply holder_Some in Eh. destruct Hno. by exists h. }
  cbn [cached]. rewrite (bind_step (mret false) _ s false s) by done. cbn beta iota.
  set (v := Vma None (lo_page addr) (hi_page addr len) (Z.ldiff flags VM_SHARE) None 0). set (s1 := set_vmas (<[n := v]> (vmas s)) s).
  rewrite (bind_step _ _ s (Some n) s1) by done. apply bind_err.
  assert (Harea : area s1 b = area s b) by exact (area_insert s n v _ b Hn Hb). unfold covers in Hc.
  apply (insert_overlap s1 m x n v ok b (mwf_create s m x n v W Hn)); [apply lookup_insert_eq| |done|done|rewrite Harea; cbn [vm_end v]; lia|rewrite Harea; cbn [vm_start v]; lia].
  split_and!; cbn [vm_start vm_end v]; try lia; apply rounddown_mod.
Qed.

(** No area of the list is a shared segment. *)
Definition private_areas (s : vmm) (x : mm_struct) : Prop := forall a, a ∈ mmap_list x -> Z.land (vm_flags (area s a)) VM_SHARE = 0.

(** The areas taken out by the first loop of [mm_unmap] satisfy the invariant of the second. *)
Lemma collected_tinv s m x x' a l1 l2 taken left lo hi :
  mwf s m x -> mwf (set_mms (<[m := x']> (mms s)) s) m x' -> private_areas s x -> Z.of_nat (length (mmap_list x)) < 2 ^ 31 - 1 ->
  mmap_list x = l1 ++ a :: l2 -> a :: l2 = taken ++ left -> mmap_list x' = l1 ++ left -> (exists t, taken = a :: t) ->
  (forall b, b ∈ taken -> vm_start (area s b) < hi) -> covers s a lo -> lo <= vm_start (area s a) \/ vm_end (area s a) <= hi ->
  tinv (set_mms (<[m := x']> (mms s)) s) m x' (reverse taken) lo hi.
Proof.
  intros W W' Hpr Hlen Hl Htl Hl' [t Ht] Hhi Hc Hor. pose proof (mw_nodup _ _ _ W) as Hnd. pose proof (mw_sorted _ _ _ W) as Hs.
  rewrite Hl, Htl in Hnd, Hs. pose proof Hs as (Hs1 & (Hs2 & Hs3 & Hs23)%sorted_app_iff & Hs1')%sorted_app_iff.
  apply NoDup_app in Hnd as (Hnd1 & Hnd2 & (Hnd3 & Hnd4 & Hnd5)%NoDup_app).
  assert (Hin : forall b, b ∈ taken -> b ∈ mmap_list x) by (intros b Hb; rewrite Hl, Htl; set_solver).
  assert (Hin' : forall b, b ∈ mmap_list x' -> b ∈ mmap_list x) by (intros b; rewrite Hl', Hl, Htl; set_solver).
  assert (Hdis : forall b, b ∈ taken -> b ∉ mmap_list x').
  { intros b Hb. rewrite Hl'. intros [Hx|Hx]%elem_of_app; [apply (Hnd2 b Hx); set_solver|by apply (Hnd4 b Hb)]. }
  split.
  - done.
  - rewrite length_reverse, Hl'. rewrite Hl, Htl, !length_app in Hlen. rewrite length_app. lia.
  - by rewrite reverse_Permutation.
  - intros b. rewrite elem_of_reverse. intros Hb. split; [by apply Hdis|]. destruct (mw_area s m x b W (Hin b Hb)) as (Hv & Hu & _).
    exists (area s b). split_and!; try done; [by apply Hpr, Hin|by apply Hhi| | |].
    + rewrite Ht in Hb. apply elem_of_cons in Hb as [->|Hb]; [unfold covers in Hc; lia|]. rewrite Ht in Hs2.
      apply StronglySorted_inv in Hs2 as [_ Hx]. rewrite list.Forall_forall in Hx. specialize (Hx b Hb). unfold before, covers in *.
      destruct Hu as (_ & ? & _). lia.
    + rewrite Ht in Hb. apply elem_of_cons in Hb as [->|Hb]; [done|left]. rewrite Ht in Hs2.
      apply StronglySorted_inv in Hs2 as [_ Hx]. rewrite list.Forall_forall in Hx. specialize (Hx b Hb). unfold before, covers in *. lia.
    + intros c Hcx. apply (before_apart s (mmap_list x)); [apply W|by apply Hin'|by apply Hin|]. intros ->. by apply (Hdis b Hb).
  - intros b c. rewrite !elem_of_reverse. intros Hb Hcx Hbc. apply (before_apart s (mmap_list x)); [apply W|by apply Hin..|done].
Qed.

Lemma find_gap s m x y : mwf s m x -> ~ mapped s x y -> find_vma (Some m) y s = Ok (None, s).
Proof.
  intros W Hno. rewrite (find_vma_spec s m x y W). destruct (holder s (mmap_list x) y) as [a|] eqn:Eh; [|done].
  apply holder_Some in Eh. destruct Hno. by exists a.
Qed.

(** C23: [mm_unmap] in an address space without shared areas, when there is memory for
    the area that a split makes (without it, -E_NO_MEM is returned): a range outside user space is refused; if
    the first page of the range is mapped, exactly the bytes of the range cease
    to be mapped, whatever areas it spans or splits, and the page tables are
    cleared for exactly those bytes; the descriptor stays well formed.  If the
    first page is not mapped, nothing happens and 0 is returned, even when the
    rest of the range holds areas. *)
Theorem mm_unmap_correct `{RB : RbLaws} s m x addr len n ok :
  mwf s m x -> fresh_vma s n -> private_areas s x -> Z.of_nat (length (mmap_list x)) < 2 ^ 31 - 1 ->
  let lo := lo_page addr in let hi := hi_page addr len in
  (USER_ACCESS lo hi = false -> mm_unmap m addr len (Some n) ok s = Ok (- E_INVAL, s)) /\
  (USER_ACCESS lo hi = true -> ~ mapped s x lo -> mm_unmap m addr len (Some n) ok s = Ok (0, s)) /\
  (USER_ACCESS lo hi = true -> mapped s x lo -> exists s' x' ops, mm_unmap m addr len (Some n) ok s = Ok (0, s') /\ mwf s' m x' /\
     (forall a, mapped s' x' a <-> mapped s x a /\ ~ (lo <= a < hi)) /\
     pglog s' = pglog s ++ ops /\ (forall a, unmapped_by (pgdir x) ops a <-> mapped s x a /\ lo <= a < hi)).
Proof.
  intros W Hf Hpr Hlen lo hi. unfold mm_unmap. fold (lo_page addr) (hi_page addr len). fold lo hi. split; [by intros ->|].
  assert (Hlo4 : lo mod PGSIZE = 0) by apply rounddown_mod. assert (Hhi4 : hi mod PGSIZE = 0) by apply rounddown_mod.
  split; intros Hua; rewrite Hua; cbn [negb]; apply user_access_spec in Hua as (H1 & H2 & H3).
  { intros Hno. by rewrite (bind_step _ _ _ _ _ (find_gap s m x lo W Hno)). }
  intros (a & Ha & Hc). rewrite (bind_step _ _ _ _ _ (find_vma_spec s m x lo W)). rewrite (holder_unique s m x a lo W Ha Hc).
  set (s0 := cached s m x (Some a)). set (x0 := with_cache (Some a) x).
  assert (W0 : mwf s0 m x0). { split; try apply W; [apply lookup_insert_eq|]. intros b [= <-]. exact Ha. }
  assert (Hpg : pgdir x0 = pgdir x /\ pglog s0 = pglog s) by done.
  assert (Hmap : forall y, mapped s x y <-> mapped s0 x0 y) by done.
  destruct (mw_area s m x a W Ha) as (Hv & Hu & _). change (vmas s !! a) with (vmas s0 !! a) in Hv. change (area s a) with (area s0 a) in *.
  mstep (rd_vma_spec a _ s0 Hv). unfold covers in Hc. change (area s a) with (area s0 a) in Hc.
  destruct (Z.leb_spec hi (vm_start (area s0 a))); [lia|].
  destruct ((vm_start (area s0 a) <? lo) && (hi <? vm_end (area s0 a))) eqn:Esp.
  - apply andb_true_iff in Esp as [Hs1%Z.ltb_lt Hs2%Z.ltb_lt].
    destruct (unmap_split s0 m x0 a n lo hi ok) as (s' & x' & E & W' & Hm & Hg & _); try done.
    exists s', x', [UnmapRange (pgdir x) lo hi]. split; [exact E|]. split; [done|]. split; [done|]. split; [done|]. intros y. split.
    + intros (st & en & [= -> ->]%list_elem_of_singleton & Hr). split; [|done]. exists a. split; [done|]. unfold covers.
      change (area s a) with (area s0 a). lia.
    + intros [_ Hr]. exists lo, hi. split; [left|done].
  - mstep (rd_mm_spec m x0 s0 (mw_mm _ _ _ W0)). apply list_elem_of_split in Ha as (l1 & l2 & Hl).
    destruct (collect_spec m hi l2 s0 x0 l1 a [] (S (length (mmap_list x0))) W0 Hl) as (x1 & taken & left & E1 & Htl & W1 & Hl1 & Hpd & Ht & Htk & Hlf);
      [change (mmap_list x0) with (mmap_list x); lia|cbn [mmap_list x0 with_cache]; rewrite Hl, length_app; cbn [length]; lia|lia|].
    rewrite app_nil_r in E1. mstep E1. set (s1 := set_mms (<[m := x1]> (mms s0)) s0) in *.
    assert (T : tinv s1 m x1 (reverse taken) lo hi).
    { apply (collected_tinv s0 m x0 x1 a l1 l2 taken left lo hi W0 W1 Hpr Hlen Hl Htl Hl1 Ht Htk); [done|].
      apply andb_false_iff in Esp as [?%Z.ltb_ge|?%Z.ltb_ge]; lia. }
    destruct (trim_spec m lo hi ok (reverse taken) s1 x1 T H2 Hlo4 Hhi4) as (s' & x' & ops & E2 & W' & Hm & Hg & Hr).
    exists s', x', ops. split; [by mstep E2|]. split; [done|].
    assert (Hout : forall b y, b ∈ mmap_list x1 -> covers s0 b y -> ~ (lo <= y < hi)).
    { intros b y. rewrite Hl1. intros [Hb|Hb]%elem_of_app Hcb.
      - pose proof (mw_sorted _ _ _ W0) as Hs. change (mmap_list x0) with (mmap_list x) in Hs. rewrite Hl in Hs.
        apply sorted_app_iff in Hs as (_ & _ & Hs). specialize (Hs b a Hb ltac:(left)). unfold before, covers in *. lia.
      - specialize (Hlf b Hb). unfold covers in Hcb. lia. }
    assert (Hmem : forall b, b ∈ mmap_list x <-> b ∈ mmap_list x1 \/ b ∈ taken) by (intros b; rewrite Hl, Htl, Hl1; set_solver).
    rewrite Hpd in Hr. split; [|split; [exact Hg|]].
    + intros y. rewrite Hm. split.
      * intros [(b & Hb & Hcb)|(b & Hb & Hcb & Hn)].
        -- split; [exists b; split; [apply Hmem; by left|exact Hcb]|by apply (Hout b)].
        -- rewrite elem_of_reverse in Hb. split; [exists b; split; [apply Hmem; by right|exact Hcb]|done].
      * intros [(b & [Hb|Hb]%Hmem & Hcb) Hn]; [left; by exists b|]. right. exists b. rewrite elem_of_reverse. done.
    + intros y. change (pgdir x) with (pgdir x0). rewrite (Hr y). split.
      * intros (b & Hb & Hcb & Hn). rewrite elem_of_reverse in Hb. split; [exists b; split; [apply Hmem; by right|exact Hcb]|done].
      * intros [(b & [Hb|Hb]%Hmem & Hcb) Hn]; [by destruct (Hout b y Hb Hcb)|]. exists b. rewrite elem_of_reverse. done.
Qed.

(** Unmapping the middle of a shared area leaves its lower part marked as
    shared but without a segment; freeing that part dereferences a null pointer. *)
Theorem shared_split_faults `{RB : RbLaws} s m x addr len n ok a :
  mwf s m x -> fresh_vma s n -> Z.of_nat (length (mmap_list x)) < 2 ^ 31 - 1 ->
  USER_ACCESS (lo_page addr) (hi_page addr len) = true -> a ∈ mmap_list x ->
  Z.land (vm_flags (area s a)) VM_SHARE <> 0 -> vm_start (area s a) < lo_page addr -> hi_page addr len < vm_end (area s a) ->
  exists s', mm_unmap m addr len (Some n) ok s = Ok (0, s') /\ vma_destroy n s' = Err BadAccess.
Proof.
  intros W Hf Hlen Hua Ha Hsh H1 H2. unfold mm_unmap. fold (lo_page addr) (hi_page addr len). rewrite Hua. cbn [negb].
  set (lo := lo_page addr) in *. set (hi := hi_page addr len) in *. apply user_access_spec in Hua as (H3 & H4 & H5).
  assert (Hc : covers s a lo) by (unfold covers; lia).
  rewrite (bind_step _ _ _ _ _ (find_vma_spec s m x lo W)). rewrite (holder_unique s m x a lo W Ha Hc).
  set (s0 := cached s m x (Some a)). set (x0 := with_cache (Some a) x).
  assert (W0 : mwf s0 m x0). { split; try apply W; [apply lookup_insert_eq|]. intros b [= <-]. exact Ha. }
  destruct (mw_area s0 m x0 a W0 Ha) as (Hv & _). mstep (rd_vma_spec a _ s0 Hv). change (area s a) with (area s0 a) in *.
  destruct (Z.leb_spec hi (vm_start (area s0 a))); [lia|].
  destruct (Z.ltb_spec (vm_start (area s0 a)) lo), (Z.ltb_spec hi (vm_end (area s0 a))); try lia. cbn [andb].
  destruct (unmap_split s0 m x0 a n lo hi ok) as (s' & x' & E & _ & _ & _ & Hn); try done; try apply rounddown_mod.
  exists s'. split; [exact E|]. unfold vma_destroy. mstep (rd_vma_spec n _ s' Hn). cbn [vm_flags shmem].
  destruct (Z.eqb_spec (Z.land (vm_flags (area s0 a)) VM_SHARE) 0); [done|]. done.
Qed.

(** ** Checking user pointers *)

(** A byte the user may read (or write) according to its area; the lowest page
    of a stack is a guard that must not be written. *)
Definition accessible (s : vmm) (x : mm_struct) (write : bool) (y : Z) : Prop :=
  exists a, a ∈ mmap_list x /\ covers s a y /\ Z.land (vm_flags (area s a)) (if write then VM_WRITE else VM_READ) <> 0 /\
    (write = true -> Z.land (vm_flags (area s a)) VM_STACK <> 0 -> vm_start (area s a) + PGSIZE <= y).

Lemma mem_check_spec m end_ write fuel : forall s x start, mwf s m x ->
  (length (filter (fun a => (start < vm_end (area s a))%Z) (mmap_list x)) < fuel)%nat ->
  exists b s', mem_check_loop fuel m start end_ write s = Ok (b, s') /\ vmas s' = vmas s /\
    (b = true <-> forall y, start <= y < end_ -> accessible s x write y).
Proof.
  induction fuel as [|fuel IH]; intros s x start W Hf; [lia|]. cbn [mem_check_loop].
  destruct (Z.ltb_spec start end_) as [L|L]; [|exists true, s; split_and!; try done; split; [intros _ y ?; lia|done]].
  mstep (find_vma_spec s m x start W). destruct (holder s (mmap_list x) start) as [a|] eqn:Eh; cbn [cached].
  2:{ exists false, s. split_and!; try done. split; [done|]. intros H. destruct (H start ltac:(lia)) as (b & Hb & Hc & _). by destruct (holder_None _ _ _ _ Eh Hb). }
  apply holder_Some in Eh as [Ha Hc]. set (s1 := set_mms _ s). set (x1 := with_cache (Some a) x).
  assert (W1 : mwf s1 m x1). { split; try apply W; [apply lookup_insert_eq|]. intros b [= <-]. exact Ha. }
  destruct (mw_area s m x a W Ha) as (Hv & (Hu1 & Hu2 & Hu3 & _) & _). mstep (rd_vma_spec a (area s a) s1 Hv).
  assert (Huniq : forall b, b ∈ mmap_list x -> covers s b start -> b = a).
  { intros b Hb Hcb. pose proof (holder_unique s m x a start W Ha Hc). pose proof (holder_unique s m x b start W Hb Hcb). congruence. }
  destruct (Z.ltb_spec start (vm_start (area s a))); [unfold covers in Hc; lia|].
  destruct (Z.eqb_spec (Z.land (vm_flags (area s a)) (if write then VM_WRITE else VM_READ)) 0) as [Hz|Hz].
  { exists false, s1. split_and!; try done. split; [done|]. intros H1. destruct (H1 start ltac:(lia)) as (b & Hb & Hcb & Hfl & _). by rewrite (Huniq b Hb Hcb) in Hfl. }
  rewrite umod_small by (unfold is_u, PGSIZE, USERTOP, USERBASE in *; simpl; lia).
  destruct (write && negb (Z.land (vm_flags (area s a)) VM_STACK =? 0) && (start <? vm_start (area s a) + PGSIZE)) eqn:Eg.
  { apply andb_true_iff in Eg as [[Hw Hst]%andb_true_iff Hlt%Z.ltb_lt]. apply negb_true_iff, Z.eqb_neq in Hst.
    exists false, s1. split_and!; try done. split; [done|]. intros H1. destruct (H1 start ltac:(lia)) as (b & Hb & Hcb & _ & Hg).
    rewrite (Huniq b Hb Hcb) in Hg. specialize (Hg Hw Hst). lia. }
  assert (Hok : forall y, start <= y < vm_end (area s a) -> accessible s x write y).
  { intros y Hy. exists a. split; [done|]. split; [unfold covers in *; lia|]. split; [done|]. intros -> Hst. cbn [andb] in Eg.
    apply andb_false_iff in Eg as [Hb|Hb]; [by apply negb_false_iff, Z.eqb_eq in Hb|apply Z.ltb_ge in Hb; lia]. }
  destruct (IH s1 x1 (vm_end (area s a)) W1) as (b & s' & E & Hvs & Hb).
  { cbn [mmap_list x1 with_cache]. eapply Nat.lt_le_trans; [|apply Nat.lt_succ_r, Hf].
    assert (Hsub : forall l, a ∈ l -> (length (filter (fun b => (vm_end (area s a) < vm_end (area s b))%Z) l) < length (filter (fun b => (start < vm_end (area s b))%Z) l))%nat).
    { unfold covers in Hc. assert (Hle : forall l, (length (filter (fun b => (vm_end (area s a) < vm_end (area s b))%Z) l) <= length (filter (fun b => (start < vm_end (area s b))%Z) l))%nat).
      { induction l as [|z l IHl]; [done|]. rewrite !filter_cons. repeat destruct (decide _); cbn [length]; lia. }
      induction l as [|z l IHl]; [by intros ?%not_elem_of_nil|]. intros [<-|Hin]%elem_of_cons; rewrite !filter_cons.
      - rewrite decide_False by lia. rewrite decide_True by lia. cbn [length]. specialize (Hle l). lia.
      - specialize (IHl Hin). repeat destruct (decide _); cbn [length]; lia. }
    exact (Hsub _ Ha). }
  exists b, s'. split; [exact E|]. split; [done|]. rewrite Hb. change (accessible s1 x1 write) with (accessible s x write).
  split; intros H1 y Hy; [|apply H1; unfold covers in Hc; lia]. destruct (decide (y < vm_end (area s a))); [apply Hok; lia|apply H1; lia].
Qed.

(** C24: [user_mem_check] is exact: it terminates, changes no area, and accepts a
    user buffer iff it lies in user space and every single byte of it may be
    read (or written) according to the area that holds it; the guard page of a
    stack may be read but not written. *)
Theorem user_mem_check_correct s m x addr len write : mwf s m x ->
  exists b s', user_mem_check (Some m) addr len write s = Ok (b, s') /\ vmas s' = vmas s /\
    (b = true <-> USER_ACCESS addr (u32 (addr + len)) = true /\ forall y, addr <= y < u32 (addr + len) -> accessible s x write y).
Proof.
  intros W. unfold user_mem_check. destruct (USER_ACCESS addr (u32 (addr + len))); cbn [negb].
  2:{ exists false, s. split_and!; try done. split; [done|]. by intros [? _]. }
  rewrite bind_gets, (mw_mm _ _ _ W).
  destruct (mem_check_spec m (u32 (addr + len)) write (S (length (mmap_list x))) s x addr W) as (b & s' & E & Hv & Hb).
  { apply Nat.lt_succ_r. apply length_filter. }
  exists b, s'. split; [exact E|]. split; [done|]. rewrite Hb. tauto.
Qed.

(** ** Choosing an address *)

Definition meets (s : vmm) (a st en : Z) : Prop := vm_start (area s a) < en /\ st < vm_end (area s a).

Lemma area_walk_spec s len p : forall start, 0 < len -> 0 <= start -> start + len <= USERTOP ->
  StronglySorted (before s) p -> (forall a, a ∈ p -> vmas s !! a = Some (area s a) /\ user_vma (area s a)) ->
  exists r, area_walk (reverse p) start len s = Ok (r, s) /\
    (r <> 0 -> USERBASE <= r <= start /\ forall a, a ∈ p -> ~ meets s a r (r + len)) /\
    (r = 0 -> forall r', USERBASE <= r' <= start -> exists a, a ∈ p /\ meets s a r' (r' + len)).
Proof.
  induction p as [|a p IH] using rev_ind; intros start Hlen Hst Hen Hs Hu.
  { change (reverse []) with (@nil Z). cbn [area_walk]. destruct (Z.leb_spec USERBASE start) as [L|L].
    - exists start. split; [done|]. split; [intros _; split; [lia|by intros a ?%not_elem_of_nil]|]. intros ->. unfold USERBASE in L. lia.
    - exists 0. split; [done|]. split; [done|]. intros _ r' Hr. lia. }
  apply sorted_app_iff in Hs as (Hs & _ & Hsa). destruct (Hu a ltac:(set_solver)) as [Hv (Hu1 & Hu2 & Hu3 & _)].
  assert (Hu' : forall b, b ∈ p -> vmas s !! b = Some (area s b) /\ user_vma (area s b)) by (intros b Hb; apply Hu; set_solver).
  assert (Hbef : forall b, b ∈ p -> vm_end (area s b) <= vm_start (area s a)) by (intros b Hb; apply (Hsa b a Hb); left).
  rewrite reverse_app. change (reverse [a] ++ reverse p) with (a :: reverse p). cbn [area_walk].
  mstep (rd_vma_spec a _ s Hv). unfold USERTOP, USERBASE in *. destruct (Z.leb_spec (vm_end (area s a)) start) as [L1|L1].
  { exists start. split; [done|]. split; [|lia]. intros _. split; [lia|]. unfold meets. intros b [Hb| ->%list_elem_of_singleton]%elem_of_app; [specialize (Hbef b Hb)|]; lia. }
  rewrite umod_small by (unfold is_u; simpl; lia). destruct (Z.ltb_spec (vm_start (area s a)) (start + len)) as [L2|L2].
  - destruct (Z.leb_spec (vm_start (area s a)) len) as [L3|L3].
    { exists 0. split; [done|]. split; [done|]. intros _ r' Hr. exists a. split; [set_solver|]. unfold meets. lia. }
    destruct (IH (vm_start (area s a) - len)) as (r & E & Hr1 & Hr2); try done; try lia. exists r. split; [exact E|]. split.
    + intros Hr. destruct (Hr1 Hr) as [? Hno]. split; [lia|]. intros b [Hb| ->%list_elem_of_singleton]%elem_of_app; [by apply Hno|unfold meets; lia].
    + intros Hr r' Hr'. destruct (decide (r' <= vm_start (area s a) - len)); [|exists a; split; [set_solver|unfold meets; lia]].
      destruct (Hr2 Hr r' ltac:(lia)) as (b & Hb & Hm). exists b. split; [set_solver|done].
  - destruct (IH start) as (r & E & Hr1 & Hr2); try done; try lia. exists r. split; [exact E|]. split.
    + intros Hr. destruct (Hr1 Hr) as [? Hno]. split; [lia|]. intros b [Hb| ->%list_elem_of_singleton]%elem_of_app; [by apply Hno|unfold meets; lia].
    + intros Hr r' Hr'. destruct (Hr2 Hr r' Hr') as (b & Hb & Hm). exists b. split; [set_solver|done].
Qed.

(** C30: [get_unmapped_area] returns an address whose [len] bytes are in user
    space and meet no area, and returns 0 only if there is none. *)
Theorem get_unmapped_area_correct s m x len : mwf s m x -> 0 <= len ->
  exists r, get_unmapped_area m len s = Ok (r, s) /\
    (r <> 0 -> USERBASE <= r /\ r + len <= USERTOP /\ forall a, a ∈ mmap_list x -> ~ meets s a r (r + len)) /\
    (r = 0 -> 0 < len -> forall r', USERBASE <= r' -> r' + len <= USERTOP -> exists a, a ∈ mmap_list x /\ meets s a r' (r' + len)).
Proof.
  intros W Hlen. unfold get_unmapped_area. destruct (Z.eqb_spec len 0) as [->|Hne]; cbn [orb].
  { exists 0. split; [done|]. split; [done|]. intros _ ?. lia. }
  destruct (Z.ltb_spec USERTOP len).
  { exists 0. split; [done|]. split; [done|]. intros _ _ r' H1 H2. unfold USERBASE in H1. lia. }
  mstep (rd_mm_spec m x s (mw_mm _ _ _ W)).
  destruct (area_walk_spec s len (mmap_list x) (USERTOP - len)) as (r & E & Hr1 & Hr2); try lia; [apply W|intros a Ha; by destruct (mw_area s m x a W Ha) as (? & ? & _)|].
  exists r. split; [exact E|]. split.
  - intros Hr. destruct (Hr1 Hr) as [? Hno]. split_and!; [lia|lia|done].
  - intros Hr _ r' H1 H2. apply Hr2; [done|lia].
Qed.

(** [mm_brk] relies on [mm_unmap] to clear the new heap range, but that does
    nothing when the first page is free: growing the heap over an area further
    up extends the heap's area into it and returns 0, with two areas that hold
    the same byte. *)
Theorem mm_brk_overlaps `{RB : RbLaws} s m x addr len n1 n2 ok a b :
  mwf s m x -> USER_ACCESS (lo_page addr) (hi_page addr len) = true -> ~ mapped s x (lo_page addr) ->
  a ∈ mmap_list x -> vm_end (area s a) = lo_page addr -> vm_flags (area s a) = Z.lor VM_READ VM_WRITE ->
  b ∈ mmap_list x -> lo_page addr <= vm_start (area s b) < hi_page addr len ->
  exists s', mm_brk m addr len n1 n2 ok s = Ok (0, s') /\ a <> b /\
    covers s' a (vm_start (area s b)) /\ covers s' b (vm_start (area s b)).
Proof.
  intros W Hua Hno Ha Hend Hfl Hb Hr. unfold mm_brk. fold (lo_page addr) (hi_page addr len). rewrite Hua. cbn [negb].
  set (lo := lo_page addr) in *. set (hi := hi_page addr len) in *. pose proof Hua as (H1 & H2 & H3)%user_access_spec.
  destruct (mw_area s m x a W Ha) as (Hva & (_ & Hua2 & _) & _). destruct (mw_area s m x b W Hb) as (Hvb & (_ & Hub2 & _) & _).
  assert (Hlo : ROUNDDOWN lo PGSIZE = lo) by (unfold ROUNDDOWN; assert (lo mod PGSIZE = 0) by apply rounddown_mod; lia).
  assert (Hhi : ROUNDUP (u32 (lo + (hi - lo))) PGSIZE = hi).
  { replace (lo + (hi - lo)) with hi by lia. unfold USERBASE, USERTOP, PGSIZE in *. rewrite (umod_small 32 hi) by (unfold is_u; simpl; lia).
    assert (Hm : hi mod 4096 = 0) by apply rounddown_mod. unfold ROUNDUP, ROUNDDOWN. rewrite umod_small by (unfold is_u; simpl; lia).
    replace (hi + 4096 - 1) with (hi + 4095) by lia. rewrite Z.add_mod, Hm by lia. change ((0 + 4095 mod 4096) mod 4096) with 4095. lia. }
  assert (E1 : mm_unmap m lo (hi - lo) n1 ok s = Ok (0, s)).
  { unfold mm_unmap. rewrite Hlo, Hhi, Hua. cbn [negb]. by rewrite (bind_step _ _ _ _ _ (find_gap s m x lo W Hno)). }
  mstep E1. cbn [negb Z.eqb]. assert (Hc : covers s a (lo - 1)) by (unfold covers; lia).
  mstep (find_vma_spec s m x (lo - 1) W). rewrite (holder_unique s m x a (lo - 1) W Ha Hc). set (s1 := cached s m x (Some a)).
  rewrite (bind_step _ _ s1 true s1).
  2:{ mstep (rd_vma_spec a (area s a) s1 Hva). unfold mret, M_ret. by rewrite Hend, Hfl, !Z.eqb_refl. }
  mstep (upd_vma_spec a (fun v => Vma (vm_mm v) (vm_start v) hi (vm_flags v) (shmem v) (shmem_off v)) (area s a) s1 Hva).
  assert (Hne : a <> b) by (intros ->; lia). set (s2 := set_vmas _ s1). exists s2. split; [done|]. split; [done|].
  assert (Ea : area s2 a = Vma (vm_mm (area s a)) (vm_start (area s a)) hi (vm_flags (area s a)) (shmem (area s a)) (shmem_off (area s a)))
    by (apply area_Some, lookup_insert_eq).
  assert (Eb : area s2 b = area s b) by (apply area_Some; cbn [s2 vmas set_vmas]; by rewrite lookup_insert_ne).
  unfold covers. rewrite Ea, Eb. cbn [vm_start vm_end]. lia.
Qed.

(** ** Examples, on the red-black tree of the kernel *)

(** A process with text at 0x800000, heap right below a gap, and a mapping further up. *)
Definition ex_vma (st en fl : Z) : vma_struct := Vma (Some 1) st en fl None 0.
Definition ex_mm : mm_struct := Mm [10; 11; 12] None (Some 11) (Some 7) 3 1 0 0.
Definition ex_vmm : vmm := Vmm
  (list_to_map [(10, ex_vma 0x800000 0x803000 5); (11, ex_vma 0x804000 0x806000 3); (12, ex_vma 0x808000 0x80C000 3)])
  {[ 1 := ex_mm ]} ∅ [].

Lemma ex_areas : area ex_vmm 10 = ex_vma 0x800000 0x803000 5 /\ area ex_vmm 11 = ex_vma 0x804000 0x806000 3 /\
  area ex_vmm 12 = ex_vma 0x808000 0x80C000 3.
Proof. vm_compute. auto. Qed.

Ltac ex_area := let E1 := fresh in let E2 := fresh in let E3 := fresh in
  destruct ex_areas as (E1 & E2 & E3); rewrite ?E1, ?E2, ?E3; cbn; lia.

Lemma ex_vmm_wf : mwf ex_vmm 1 ex_mm.
Proof.
  split; cbn [mmap_list ex_mm map_count mmap_cache mmap_tree].
  - reflexivity.
  - intros a Ha. repeat (apply elem_of_cons in Ha as [->|Ha]; [eexists; split; [reflexivity|]; unfold user_vma, USERBASE, USERTOP; cbn; repeat split; lia|]).
    by apply not_elem_of_nil in Ha.
  - repeat first [apply SSorted_nil|apply SSorted_cons|apply Forall_nil_2|apply Forall_cons_2|unfold before; ex_area].
  - by apply (bool_decide_unpack _).
  - reflexivity.
  - intros a [= <-]. set_solver.
  - done.
  - done.
Qed.

Lemma ex_unmapped y : 0x803000 <= y < 0x804000 \/ 0x806000 <= y < 0x808000 \/ 0x80C000 <= y -> ~ mapped ex_vmm ex_mm y.
Proof.
  intros Hy (a & Ha & Hc). cbn [mmap_list ex_mm] in Ha. unfold covers in Hc. destruct ex_areas as (E1 & E2 & E3).
  repeat (apply elem_of_cons in Ha as [->|Ha]; [rewrite ?E1, ?E2, ?E3 in Hc; cbn in Hc; lia|]). by apply not_elem_of_nil in Ha.
Qed.
Lemma ex_mapped a y : a ∈ mmap_list ex_mm -> vm_start (area ex_vmm a) <= y < vm_end (area ex_vmm a) -> mapped ex_vmm ex_mm y.
Proof. intros Ha Hc. by exists a. Qed.

Lemma mm_map_correct_witness : exists s' x', mm_map 1 0x80C123 0x2000 3 (Some 20) true ex_vmm = Ok ((0, Some 20), s') /\ mwf s' 1 x' /\
  area s' 20 = Vma (Some 1) 0x80C000 0x80F000 3 None 0 /\ forall a, mapped s' x' a <-> mapped ex_vmm ex_mm a \/ 0x80C000 <= a < 0x80F000.
Proof.
  destruct (mm_map_correct ex_vmm 1 ex_mm 0x80C123 0x2000 3 20 true ex_vmm_wf eq_refl eq_refl) as (_ & _ & H).
  apply H; [reflexivity|]. change (lo_page 0x80C123) with 0x80C000. intros a Ha. apply ex_unmapped. lia.
Defined.

Lemma mm_map_overlap_panics_witness : mm_map 1 0x806000 0x3000 3 (Some 20) true ex_vmm = Err AssertFailed.
Proof.
  apply (mm_map_overlap_panics ex_vmm 1 ex_mm 0x806000 0x3000 3 20 true 0x808000 ex_vmm_wf eq_refl eq_refl).
  - apply ex_unmapped. change (lo_page 0x806000) with 0x806000. lia.
  - change (lo_page 0x806000) with 0x806000. change (hi_page 0x806000 0x3000) with 0x809000. lia.
  - apply (ex_mapped 12); [set_solver|]. ex_area.
Defined.

Lemma mm_unmap_correct_witness : exists s' x' ops, mm_unmap 1 0x805000 0x4000 (Some 20) true ex_vmm = Ok (0, s') /\ mwf s' 1 x' /\
  (forall a, mapped s' x' a <-> mapped ex_vmm ex_mm a /\ ~ (0x805000 <= a < 0x809000)) /\
  pglog s' = [] ++ ops /\ (forall a, unmapped_by (Some 7) ops a <-> mapped ex_vmm ex_mm a /\ 0x805000 <= a < 0x809000).
Proof.
  assert (Hp : private_areas ex_vmm ex_mm).
  { intros a Ha. cbn [mmap_list ex_mm] in Ha. repeat (apply elem_of_cons in Ha as [->|Ha]; [reflexivity|]). by apply not_elem_of_nil in Ha. }
  destruct (mm_unmap_correct ex_vmm 1 ex_mm 0x805000 0x4000 20 true ex_vmm_wf eq_refl Hp eq_refl) as (_ & _ & H).
  apply H; [reflexivity|]. apply (ex_mapped 11); [set_solver|]. change (lo_page 0x805000) with 0x805000. ex_area.
Defined.

Lemma user_mem_check_correct_witness : exists b s', user_mem_check (Some 1) 0x804000 0x1800 true ex_vmm = Ok (b, s') /\ vmas s' = vmas ex_vmm /\
  (b = true <-> USER_ACCESS 0x804000 0x805800 = true /\ forall y, 0x804000 <= y < 0x805800 -> accessible ex_vmm ex_mm true y).
Proof. apply (user_mem_check_correct ex_vmm 1 ex_mm 0x804000 0x1800 true ex_vmm_wf). Defined.

Lemma get_unmapped_area_correct_witness : exists r, get_unmapped_area 1 0x1000 ex_vmm = Ok (r, ex_vmm) /\
    (r <> 0 -> USERBASE <= r /\ r + 0x1000 <= USERTOP /\ forall a, a ∈ mmap_list ex_mm -> ~ meets ex_vmm a r (r + 0x1000)) /\
    (r = 0 -> 0 < 0x1000 -> forall r', USERBASE <= r' -> r' + 0x1000 <= USERTOP -> exists a, a ∈ mmap_list ex_mm /\ meets ex_vmm a r' (r' + 0x1000)).
Proof. apply (get_unmapped_area_correct ex_vmm 1 ex_mm 0x1000 ex_vmm_wf). lia. Defined.

Lemma mm_brk_overlaps_witness : exists s', mm_brk 1 0x806000 0x4000 None None true ex_vmm = Ok (0, s') /\ 11 <> 12 /\
    covers s' 11 (vm_start (area ex_vmm 12)) /\ covers s' 12 (vm_start (area ex_vmm 12)).
Proof.
  apply (mm_brk_overlaps ex_vmm 1 ex_mm 0x806000 0x4000 None None true 11 12 ex_vmm_wf eq_refl).
  - apply ex_unmapped. change (lo_page 0x806000) with 0x806000. lia.
  - set_solver.
  - reflexivity.
  - reflexivity.
  - set_solver.
  - change (lo_page 0x806000) with 0x806000. change (hi_page 0x806000 0x4000) with 0x80A000. ex_area.
Defined.

(** The same with a shared area. *)
Definition ex_shared_mm : mm_struct := Mm [10] None None (Some 7) 1 1 0 0.
Definition ex_shared : vmm := Vmm {[ 10 := Vma (Some 1) 0x800000 0x804000 19 (Some 5) 0 ]} {[ 1 := ex_shared_mm ]} {[ 5 := Shmem 0x4000 1 ]} [].

Lemma ex_shared_wf : mwf ex_shared 1 ex_shared_mm.
Proof.
  split; cbn [mmap_list ex_shared_mm map_count mmap_cache mmap_tree].
  - reflexivity.
  - intros a ->%list_elem_of_singleton. eexists; split; [reflexivity|]. unfold user_vma, USERBASE, USERTOP. cbn. repeat split; lia.
  - by apply SSorted_cons; [apply SSorted_nil|].
  - by apply (bool_decide_unpack _).
  - reflexivity.
  - done.
  - done.
  - done.
Qed.

Lemma shared_split_faults_witness : exists s', mm_unmap 1 0x801000 0x1000 (Some 20) true ex_shared = Ok (0, s') /\ vma_destroy 20 s' = Err BadAccess.
Proof.
  apply (shared_split_faults ex_shared 1 ex_shared_mm 0x801000 0x1000 20 true 10 ex_shared_wf eq_refl eq_refl eq_refl).
  - set_solver.
  - done.
  - reflexivity.
  - reflexivity.
Defined.
