(* ===== verification/Pipe.v ===== *)
(** * Pipe: pipes (fs/pipe/pipe_state.c)

    A pipe is a ring of [PIPE_BUFSIZE] bytes with a read and a write position
    that only grow, a semaphore that guards it and two wait queues.  The state
    is the synchronisation layer together with the pipes; a blocking call is cut
    where it gives up the CPU: [read_body] and [write_body] run from the point
    where the semaphore is held to the return or to the sleep. *)

From stdpp Require Import numbers gmap list.
From S2P Require Import Prelude Sched Timer Wait Sem.
Local Open Scope Z_scope.

Definition WT_PIPE : Z := Z.lor 0x200 WT_INTERRUPTED.

(** [psem], [reader_queue] and [writer_queue] are the addresses of the embedded objects. *)
Record pipe_state := PipeState {
  p_rpos : Z; p_wpos : Z; buf : list Z; isclosed : bool; ref_count : Z;
  psem : Z; reader_queue : Z; writer_queue : Z }.

Record pst := Pst { sy : sync; pipes : gmap Z pipe_state }.

Definition set_sy (x : sync) (s : pst) : pst := Pst x (pipes s).
Definition set_pipes (x : gmap Z pipe_state) (s : pst) : pst := Pst (sy s) x.
Definition lift_sync {A} (m : M sync A) : M pst A := fun s =>
  match m (sy s) with Ok (a, k) => Ok (a, set_sy k s) | Err f => Err f end.

Definition rd_pipe (p : Z) : M pst pipe_state := load (fun s => pipes s !! p).
Definition upd_pipe (p : Z) (f : pipe_state -> pipe_state) : M pst unit := fun s =>
  match pipes s !! p with Some x => Ok (tt, set_pipes (<[p := f x]> (pipes s)) s) | None => Err BadAccess end.

Definition with_rpos (v : Z) (x : pipe_state) : pipe_state :=
  PipeState v (p_wpos x) (buf x) (isclosed x) (ref_count x) (psem x) (reader_queue x) (writer_queue x).
Definition put_byte (i b : Z) (x : pipe_state) : pipe_state :=
  PipeState (p_rpos x) (s32 (p_wpos x + 1)) (<[Z.to_nat i := b]> (buf x)) (isclosed x) (ref_count x) (psem x) (reader_queue x) (writer_queue x).
Definition with_ref (v : Z) (x : pipe_state) : pipe_state :=
  PipeState (p_rpos x) (p_wpos x) (buf x) (isclosed x) v (psem x) (reader_queue x) (writer_queue x).
Definition closed_ (x : pipe_state) : pipe_state :=
  PipeState (p_rpos x) (p_wpos x) (buf x) true (ref_count x) (psem x) (reader_queue x) (writer_queue x).

Section pipe.
(** [PIPE_BUFSIZE] is what a page leaves beside the record: the code relies on
    its being above 128. *)
Context (NCPU : Z) (C : sched_class) (PIPE_BUFSIZE : Z).

(** [new]: the record's address from [kmalloc], with those of its members. *)
Definition pipe_state_create (new : option (Z * Z * Z * Z)) : M pst (option Z) :=
  match new with
  | Some (p, m, rq_, wq) =>
      _ ← modify (fun s => set_pipes (<[p := PipeState 0 0 (replicate (Z.to_nat PIPE_BUFSIZE) 0) false 1 m rq_ wq]> (pipes s)) s);
      _ ← lift_sync (sem_init m 1);
      _ ← lift_sync (wait_queue_init rq_);
      _ ← lift_sync (wait_queue_init wq);
      mret (Some p)
  | None => mret None
  end.

Definition unlock_state (p : Z) : M pst unit := x ← rd_pipe p; lift_sync (up NCPU C (psem x)).

Definition is_empty (x : pipe_state) : bool := p_rpos x =? p_wpos x.
Definition is_full (x : pipe_state) : bool := PIPE_BUFSIZE <=? u32 (p_wpos x - p_rpos x).

(** [pipe_state_wait], before and after its call of [schedule]. *)
Definition pipe_state_wait_enter (q w : Z) : M pst unit :=
  _ ← lift_sync (wait_current_set q w WT_PIPE);
  lift_sync (lift (schedule NCPU C)).
Definition pipe_state_wait_leave (q w : Z) : M pst bool :=
  _ ← lift_sync (wait_current_del q w);
  x ← lift_sync (rd_wait w);
  mret (wakeup_flags x =? WT_PIPE).

Definition pipe_state_wakeup (q : Z) : M pst unit :=
  e ← lift_sync (wait_queue_empty q);
  if (e : bool) then mret tt else lift_sync (wakeup_queue NCPU C q WT_PIPE true).

Definition wakeup_reader (p : Z) : M pst unit := x ← rd_pipe p; pipe_state_wakeup (reader_queue x).
Definition wakeup_writer (p : Z) : M pst unit := x ← rd_pipe p; pipe_state_wakeup (writer_queue x).

Definition pipe_state_acquire (p : Z) : M pst unit :=
  x ← rd_pipe p;
  _ ← kassert (0 <? ref_count x);
  upd_pipe p (with_ref (s32 (ref_count x + 1))).

Definition pipe_state_release (p : Z) : M pst unit :=
  x ← rd_pipe p;
  _ ← kassert (0 <? ref_count x);
  _ ← upd_pipe p (with_ref (ref_count x - 1));
  if ref_count x - 1 =? 0 then
    e1 ← lift_sync (wait_queue_empty (reader_queue x));
    _ ← kassert e1;
    e2 ← lift_sync (wait_queue_empty (writer_queue x));
    _ ← kassert e2;
    modify (fun s => set_pipes (delete p (pipes s)) s)
  else mret tt.

Definition pipe_state_close (p : Z) : M pst unit :=
  x ← rd_pipe p;
  _ ← kassert (0 <? ref_count x);
  _ ← upd_pipe p closed_;
  _ ← wakeup_reader p;
  wakeup_writer p.

Definition pipe_state_size (p : Z) (write : bool) : M pst Z :=
  x ← rd_pipe p;
  let size := u32 (p_wpos x - p_rpos x) in
  mret (if write then if isclosed x then 0 else u32 (PIPE_BUFSIZE - size) else size).

(** The copy loop of [pipe_state_read]: the bytes taken and the new position. *)
Fixpoint read_loop (fuel : nat) (x : pipe_state) : M pst (list Z * pipe_state) :=
  match fuel with
  | O => mret ([], x)
  | S fuel' =>
      if is_empty x then mret ([], x)
      else
        b ← load (fun _ => buf x !! Z.to_nat (u32 (p_rpos x) mod PIPE_BUFSIZE));
        '(bs, x') ← read_loop fuel' (with_rpos (s32 (p_rpos x + 1)) x);
        mret (b :: bs, x')
  end.

(** [pipe_state_read] with the semaphore held: [Some bs] when it returns the
    bytes [bs], [None] when it waits for a writer and tries again. *)
Definition read_body (p : Z) (n : Z) : M pst (option (list Z)) :=
  x ← rd_pipe p;
  if is_empty x then
    _ ← unlock_state p;
    mret (if isclosed x then Some [] else None)
  else
    '(bs, x') ← read_loop (Z.to_nat n) x;
    _ ← upd_pipe p (fun _ => x');
    _ ← (match bs with [] => mret tt | _ :: _ => wakeup_writer p end);
    _ ← unlock_state p;
    mret (Some bs).

(** [pipe_state_write] with the semaphore held and the bytes [bs] still to go:
    [true] when it returns, [false] when it waits for a reader and tries again;
    with the number of bytes written in this round. *)
Fixpoint write_loop (p : Z) (bs : list Z) (step : Z) : M pst (bool * Z) :=
  match bs with
  | [] =>
      _ ← (if step =? 0 then mret tt else wakeup_reader p);
      _ ← unlock_state p;
      mret (true, step)
  | b :: bs' =>
      x ← rd_pipe p;
      if is_full x then
        _ ← wakeup_reader p;
        _ ← unlock_state p;
        mret (false, step)
      else
        _ ← (if Z.to_nat (u32 (p_wpos x) mod PIPE_BUFSIZE) <? length (buf x) then mret tt else fail BadAccess)%nat;
        _ ← upd_pipe p (put_byte (u32 (p_wpos x) mod PIPE_BUFSIZE) b);
        write_loop p bs' (step + 1)
  end.
Definition write_body (p : Z) (bs : list Z) : M pst (bool * Z) :=
  x ← rd_pipe p;
  if isclosed x then _ ← unlock_state p; mret (true, 0)
  else write_loop p bs 0.
End pipe.

(** ** The ring buffer as a sequence of bytes *)

Section ring.
Context (NCPU : Z) (C : sched_class) (SIZE : Z) (HSIZE : 128 < SIZE < 4096).

Record pinv (x : pipe_state) : Prop := {
  pi_pos : 0 <= p_rpos x <= p_wpos x;
  pi_room : p_wpos x - p_rpos x <= SIZE;
  pi_width : p_wpos x < 2 ^ 31;
  pi_buf : Z.of_nat (length (buf x)) = SIZE }.

Definition slot (x : pipe_state) (i : Z) : Z := buf x !!! Z.to_nat (i mod SIZE).
Definition contents (x : pipe_state) : list Z := slot x <$> seqZ (p_rpos x) (p_wpos x - p_rpos x).

Lemma length_contents x : pinv x -> Z.of_nat (length (contents x)) = p_wpos x - p_rpos x.
Proof. intros P. unfold contents. rewrite length_fmap, length_seqZ. pose proof (pi_pos x P). lia. Qed.

Lemma slot_lookup x i : pinv x -> 0 <= i < 2 ^ 31 -> buf x !! Z.to_nat (u32 i mod SIZE) = Some (slot x i).
Proof.
  intros P Hi. rewrite umod_small by (unfold is_u; simpl in *; lia). apply list_lookup_lookup_total_lt.
  pose proof (pi_buf x P). pose proof (Z.mod_pos_bound i SIZE). lia.
Qed.

Lemma contents_cons x : pinv x -> p_rpos x < p_wpos x ->
  contents x = slot x (p_rpos x) :: contents (with_rpos (p_rpos x + 1) x) /\ pinv (with_rpos (p_rpos x + 1) x).
Proof.
  intros P Hlt. split.
  - unfold contents. rewrite seqZ_cons by lia. cbn [fmap list_fmap p_rpos p_wpos with_rpos]. f_equal.
    replace (Z.pred (p_wpos x - p_rpos x)) with (p_wpos x - (p_rpos x + 1)) by lia. done.
  - destruct P as [[P0 P1] P2 P3 P4]. split; cbn [p_rpos p_wpos with_rpos buf]; lia.
Qed.

Lemma read_loop_spec n : forall x s, pinv x ->
  exists x', read_loop SIZE n x s = Ok ((take n (contents x), x'), s) /\ pinv x' /\ contents x' = drop n (contents x) /\
    x' = with_rpos (p_rpos x') x.
Proof.
  induction n as [|n IH]; intros x s P; cbn [read_loop].
  { exists x. split; [done|]. split; [done|]. split; [done|]. by destruct x. }
  unfold is_empty. pose proof (pi_pos x P) as Hpos. destruct (Z.eqb_spec (p_rpos x) (p_wpos x)) as [He|He].
  { exists x. assert (Hc : contents x = []) by (unfold contents; rewrite He, Z.sub_diag; done).
    rewrite Hc, take_nil, drop_nil. split; [done|]. split; [done|]. split; [done|]. by destruct x. }
  pose proof (pi_width x P) as Hw. destruct (contents_cons x P) as [Hc P1]; [lia|].
  rewrite (bind_step _ _ s (slot x (p_rpos x)) s) by (unfold load; by rewrite (slot_lookup x) by (done || lia)).
  rewrite (smod_small 32) by (unfold is_s; simpl in *; lia).
  destruct (IH (with_rpos (p_rpos x + 1) x) s P1) as (x' & E & P' & Hc' & Hx'). mstep E. exists x'.
  rewrite Hc. cbn [take drop]. split; [done|]. split; [done|]. split; [done|]. rewrite Hx'. by destruct x.
Qed.

(** Writing a byte into a ring that is not full appends it. *)
Lemma put_byte_spec x b : pinv x -> p_wpos x - p_rpos x < SIZE -> p_wpos x + 1 < 2 ^ 31 ->
  let x' := put_byte (u32 (p_wpos x) mod SIZE) b x in pinv x' /\ contents x' = contents x ++ [b].
Proof.
  intros P Hr Hw x'. destruct P as [[P0 P1] P2 P3 P4]. unfold x', put_byte.
  rewrite (umod_small 32) by (unfold is_u; simpl in *; lia). rewrite (smod_small 32) by (unfold is_s; simpl in *; lia). split.
  - split; cbn [p_rpos p_wpos buf]; try lia. by rewrite length_insert.
  - unfold contents. cbn [p_rpos p_wpos]. replace (p_wpos x + 1 - p_rpos x) with ((p_wpos x - p_rpos x) + 1) by lia.
    rewrite seqZ_app by lia. rewrite fmap_app. replace (p_rpos x + (p_wpos x - p_rpos x)) with (p_wpos x) by lia. f_equal.
    + apply list_fmap_ext. intros i y Hi. apply lookup_seqZ in Hi as [-> Hi]. unfold slot. cbn [buf].
      apply list_lookup_total_insert_ne. intros E. apply Z2Nat.inj in E; [|apply Z.mod_pos_bound; lia..].
      set (j := p_rpos x + Z.of_nat i) in *.
      pose proof (Z.div_mod (p_wpos x) SIZE ltac:(lia)) as D1. pose proof (Z.div_mod j SIZE ltac:(lia)) as D2. rewrite E in D1.
      assert (0 < p_wpos x - j < SIZE) as Hd by (unfold j; lia). clear -D1 D2 Hd.
      set (a := p_wpos x / SIZE) in *. set (c := j / SIZE) in *. set (r := j mod SIZE) in *. clearbody a c r.
      assert (Hq : SIZE * (a - c) = p_wpos x - j) by (rewrite D1, D2; ring). destruct (Z.le_gt_cases (a - c) 0); nia.
    + rewrite seqZ_cons by lia. unfold slot. cbn [fmap list_fmap buf]. f_equal. apply list_lookup_total_insert_eq.
      pose proof (Z.mod_pos_bound (p_wpos x) SIZE). lia.
Qed.

Lemma lift_sync_pipes {A} (m : M sync A) s a s' : lift_sync m s = Ok (a, s') -> pipes s' = pipes s.
Proof. unfold lift_sync. destruct (m (sy s)) as [[? k]|]; [|done]. by intros [= _ <-]. Qed.

Lemma unlock_pipes p s u s' : unlock_state NCPU C p s = Ok (u, s') -> pipes s' = pipes s.
Proof. unfold unlock_state. intros (x & s1 & H1 & H2)%bind_Ok. unfold rd_pipe, load in H1. destruct (pipes s !! p); [|done]. injection H1 as -> <-. by apply lift_sync_pipes in H2. Qed.

Lemma wakeup_pipes q s u s' : pipe_state_wakeup NCPU C q s = Ok (u, s') -> pipes s' = pipes s.
Proof.
  unfold pipe_state_wakeup. intros (e & s1 & H1%lift_sync_pipes & H2)%bind_Ok. destruct e; [by injection H2 as _ <-|].
  apply lift_sync_pipes in H2. congruence.
Qed.

Lemma wakeup_reader_pipes p s u s' : wakeup_reader NCPU C p s = Ok (u, s') -> pipes s' = pipes s.
Proof. unfold wakeup_reader. intros (x & s1 & H1 & H2)%bind_Ok. unfold rd_pipe, load in H1. destruct (pipes s !! p); [|done]. injection H1 as -> <-. by apply wakeup_pipes in H2. Qed.
Lemma wakeup_writer_pipes p s u s' : wakeup_writer NCPU C p s = Ok (u, s') -> pipes s' = pipes s.
Proof. unfold wakeup_writer. intros (x & s1 & H1 & H2)%bind_Ok. unfold rd_pipe, load in H1. destruct (pipes s !! p); [|done]. injection H1 as -> <-. by apply wakeup_pipes in H2. Qed.

Lemma rd_pipe_spec p x s : pipes s !! p = Some x -> rd_pipe p s = Ok (x, s).
Proof. unfold rd_pipe, load. by intros ->. Qed.
Lemma upd_pipe_spec p f x s : pipes s !! p = Some x -> upd_pipe p f s = Ok (tt, set_pipes (<[p := f x]> (pipes s)) s).
Proof. unfold upd_pipe. by intros ->. Qed.

(** A read that returns takes a prefix of the contents. *)
Lemma read_body_pipes p n s x r s' : pipes s !! p = Some x -> pinv x -> read_body NCPU C SIZE p n s = Ok (r, s') ->
  exists x' bs, pipes s' = <[p := x']> (pipes s) /\ pinv x' /\ bs ++ contents x' = contents x /\ isclosed x' = isclosed x /\ p_wpos x' = p_wpos x /\
    match r with
    | Some bs' => bs' = bs /\ Z.of_nat (length bs) = Z.min (Z.max 0 n) (Z.of_nat (length (contents x)))
    | None => bs = [] /\ contents x = [] /\ isclosed x = false
    end.
Proof.
  intros Hp P. unfold read_body. mstep (rd_pipe_spec p x s Hp). unfold is_empty. destruct (Z.eqb_spec (p_rpos x) (p_wpos x)) as [He|He].
  - intros (u & s1 & H1%unlock_pipes & [= <- <-])%bind_Ok. assert (Hc : contents x = []) by (unfold contents; rewrite He, Z.sub_diag; done).
    exists x, []. rewrite H1, insert_id by done. split_and!; try done. rewrite Hc. destruct (isclosed x); [|done]. split; [done|]. cbn. lia.
  - destruct (read_loop_spec (Z.to_nat n) x s P) as (x' & E & P' & Hc' & Hx'). mstep E. cbn beta iota.
    mstep (upd_pipe_spec p (fun _ => x') x s Hp). set (s1 := set_pipes _ s).
    intros (u & s2 & H1 & (u2 & s3 & H2%unlock_pipes & [= <- <-])%bind_Ok)%bind_Ok.
    assert (H1' : pipes s2 = pipes s1) by (destruct (take (Z.to_nat n) (contents x)); [by injection H1 as _ <-|by apply wakeup_writer_pipes in H1]).
    exists x', (take (Z.to_nat n) (contents x)). rewrite H2, H1'. split; [done|]. split; [done|]. split; [by rewrite Hc', take_drop|].
    rewrite Hx'. split; [done|]. split; [done|]. split; [done|]. rewrite length_take. lia.
Qed.

(** What a round of writing leaves: the first [k] bytes are appended. *)
Lemma write_loop_pipes p bs : forall s x step r k s', pipes s !! p = Some x -> pinv x -> p_wpos x + Z.of_nat (length bs) < 2 ^ 31 ->
  write_loop NCPU C SIZE p bs step s = Ok ((r, k), s') ->
  exists x', pipes s' = <[p := x']> (pipes s) /\ pinv x' /\ step <= k <= step + Z.of_nat (length bs) /\
    contents x' = contents x ++ take (Z.to_nat (k - step)) bs /\ isclosed x' = isclosed x /\
    (r = true -> k = step + Z.of_nat (length bs)) /\ (r = false -> Z.of_nat (length (contents x')) = SIZE).
Proof.
  induction bs as [|b bs IH]; intros s x step r k s' Hp P Hw; cbn [write_loop].
  - intros (u & s1 & H1 & (u2 & s2 & H2%unlock_pipes & [= <- <- <-])%bind_Ok)%bind_Ok.
    assert (H1' : pipes s1 = pipes s) by (destruct (step =? 0); [by injection H1 as _ <-|by apply wakeup_reader_pipes in H1]).
    exists x. rewrite H2, H1', insert_id by done. rewrite Z.sub_diag. cbn [take length Z.to_nat]. rewrite app_nil_r. cbn [length] in *.
    split_and!; try done; try lia.
  - mstep (rd_pipe_spec p x s Hp). pose proof (pi_pos x P) as Hpos. pose proof (pi_width x P) as Hwd. pose proof (pi_room x P) as Hrm.
    cbn [length] in Hw. unfold is_full. rewrite (umod_small 32 (p_wpos x - p_rpos x)) by (unfold is_u; simpl in *; lia).
    destruct (Z.leb_spec SIZE (p_wpos x - p_rpos x)) as [Hf|Hf].
    + intros (u & s1 & H1%wakeup_reader_pipes & (u2 & s2 & H2%unlock_pipes & [= <- <- <-])%bind_Ok)%bind_Ok.
      exists x. rewrite H2, H1, insert_id by done. rewrite Z.sub_diag. cbn [take length Z.to_nat]. rewrite app_nil_r.
      rewrite length_contents by done. split_and!; try done; try lia.
    + assert (Hidx : (Z.to_nat (u32 (p_wpos x) mod SIZE) < length (buf x))%nat).
      { pose proof (pi_buf x P). pose proof (Z.mod_pos_bound (u32 (p_wpos x)) SIZE). lia. }
      apply Nat.ltb_lt in Hidx. rewrite Hidx. rewrite (bind_step (mret tt : M pst unit) _ s tt s eq_refl).
      mstep (upd_pipe_spec p (put_byte (u32 (p_wpos x) mod SIZE) b) x s Hp).
      destruct (put_byte_spec x b P) as [P1 Hc1]; [lia|lia|]. set (x1 := put_byte _ b x) in *. set (s1 := set_pipes _ s).
      assert (Hw1 : p_wpos x1 = p_wpos x + 1) by (cbn [x1 put_byte p_wpos]; apply (smod_small 32); [lia|unfold is_s; simpl in *; lia]).
      intros E. destruct (IH s1 x1 (step + 1) r k s') as (x' & Hp' & P' & Hk & Hc' & Hcl & Ht & Hff); try done; [apply lookup_insert_eq|lia|].
      exists x'. rewrite Hp'. cbn [pipes s1 set_pipes length]. rewrite insert_insert_eq. split; [done|]. split; [done|]. split; [lia|].
      split; [|split; [done|split; [intros; rewrite Ht by done; lia|done]]].
      rewrite Hc', Hc1, <- app_assoc. replace (Z.to_nat (k - step)) with (S (Z.to_nat (k - (step + 1)))) by lia. done.
Qed.

Lemma write_body_pipes p bs s x r k s' : pipes s !! p = Some x -> pinv x -> p_wpos x + Z.of_nat (length bs) < 2 ^ 31 ->
  write_body NCPU C SIZE p bs s = Ok ((r, k), s') ->
  exists x', pipes s' = <[p := x']> (pipes s) /\ pinv x' /\ 0 <= k <= Z.of_nat (length bs) /\
    contents x' = contents x ++ take (Z.to_nat k) bs /\ isclosed x' = isclosed x /\
    (r = true -> isclosed x = true /\ k = 0 \/ isclosed x = false /\ k = Z.of_nat (length bs)) /\
    (r = false -> isclosed x = false /\ Z.of_nat (length (contents x')) = SIZE).
Proof.
  intros Hp P Hw. unfold write_body. mstep (rd_pipe_spec p x s Hp). destruct (isclosed x) eqn:Hcl.
  - intros (u & s1 & H1%unlock_pipes & [= <- <- <-])%bind_Ok. exists x. rewrite H1, insert_id by done. cbn [Z.to_nat take]. rewrite app_nil_r.
    split_and!; try done; try lia.
  - intros E. destruct (write_loop_pipes p bs s x 0 r k s' Hp P Hw E) as (x' & Hp' & P' & Hk & Hc & Hcl' & Ht & Hf).
    exists x'. rewrite Z.sub_0_r in Hc. split_and!; try done; try lia; [congruence|intros Hr; right; split; [done|rewrite (Ht Hr); lia]|].
    intros Hr. split; [done|by apply Hf].
Qed.
Lemma close_pipes p s x u s' : pipes s !! p = Some x -> pipe_state_close NCPU C p s = Ok (u, s') -> pipes s' = <[p := closed_ x]> (pipes s).
Proof.
  intros Hp. unfold pipe_state_close. mstep (rd_pipe_spec p x s Hp). intros (u1 & s1 & H1 & H2)%bind_Ok.
  apply kassert_Ok in H1 as [_ ->]. rewrite (bind_step _ _ _ _ _ (upd_pipe_spec p closed_ x s Hp)) in H2.
  apply bind_Ok in H2 as (u2 & s2 & H2%wakeup_reader_pipes & H3%wakeup_writer_pipes). by rewrite H3, H2.
Qed.

(** ** Runs of one pipe *)

(** [written] are the bytes writers have handed over, [readout] those readers got. *)
Record prun := Prun { pstate : pst; written : list Z; readout : list Z }.

Inductive pipe_step (p : Z) : prun -> prun -> Prop :=
| pipe_read g n r s' : read_body NCPU C SIZE p n (pstate g) = Ok (r, s') ->
    pipe_step p g (Prun s' (written g) (readout g ++ default [] r))
| pipe_write g bs r k s' : (forall x, pipes (pstate g) !! p = Some x -> p_wpos x + Z.of_nat (length bs) < 2 ^ 31) ->
    write_body NCPU C SIZE p bs (pstate g) = Ok ((r, k), s') ->
    pipe_step p g (Prun s' (written g ++ take (Z.to_nat k) bs) (readout g))
| pipe_close g s' : pipe_state_close NCPU C p (pstate g) = Ok (tt, s') -> pipe_step p g (Prun s' (written g) (readout g))
| pipe_elsewhere g s' : pipes s' !! p = pipes (pstate g) !! p -> pipe_step p g (Prun s' (written g) (readout g)).

Inductive pipe_steps (p : Z) : prun -> prun -> Prop :=
| pss_refl g : pipe_steps p g g
| pss_step g g1 g2 : pipe_steps p g g1 -> pipe_step p g1 g2 -> pipe_steps p g g2.

Definition stream_inv (p : Z) (g : prun) : Prop :=
  exists x, pipes (pstate g) !! p = Some x /\ pinv x /\ readout g ++ contents x = written g.

Lemma stream_step p g g' : stream_inv p g -> pipe_step p g g' -> stream_inv p g'.
Proof.
  intros (x & Hp & P & Hs) St. destruct St as [g n r s' E|g bs r k s' Hw E|g s' E|g s' E]; unfold stream_inv; cbn [pstate written readout].
  - destruct (read_body_pipes p n _ x r s' Hp P E) as (x' & bs & Hp' & P' & Hc & _ & _ & Hr). exists x'. rewrite Hp', lookup_insert_eq.
    split; [done|]. split; [done|]. rewrite <- Hs, <- Hc. destruct r as [bs'|]; cbn [default].
    + destruct Hr as [-> _]. by rewrite <- app_assoc.
    + destruct Hr as [-> _]. by rewrite app_nil_r.
  - destruct (write_body_pipes p bs _ x r k s' Hp P (Hw x Hp) E) as (x' & Hp' & P' & _ & Hc & _). exists x'. rewrite Hp', lookup_insert_eq.
    split; [done|]. split; [done|]. by rewrite Hc, app_assoc, Hs.
  - exists (closed_ x). rewrite (close_pipes p _ x tt s' Hp E), lookup_insert_eq. split; [done|]. split; [|exact Hs]. destruct P. by split.
  - exists x. by rewrite E.
Qed.

(** ** The calls into the synchronisation layer succeed *)

(** The caller holds the pipe's semaphore, nobody else waits for it, and the
    processes in the two queues can be woken. *)
Record held (s : pst) (x : pipe_state) : Prop := {
  h_k : kinv NCPU (sk (sy s));
  h_w : winv (sy s);
  h_sem : exists sm, sems (sy s) !! psem x = Some sm /\ valid sm = true /\ value sm = 0;
  h_free : wqs (sy s) !! psem x = Some [];
  h_rq : exists l, wqs (sy s) !! reader_queue x = Some l /\ all_wakeable NCPU (sy s) l;
  h_wq : exists l, wqs (sy s) !! writer_queue x = Some l /\ all_wakeable NCPU (sy s) l;
  h_ne : psem x <> reader_queue x /\ psem x <> writer_queue x }.
End ring.

Section total.
Context (NCPU : Z) (C : sched_class) `{!SchedClass C} (SIZE : Z) (HSIZE : 128 < SIZE < 4096).

(** [up] on a semaphore nobody waits for. *)
Lemma up_free s m sm : kinv NCPU (sk s) -> sems s !! m = Some sm -> valid sm = true -> -2 ^ 31 <= value sm < 2 ^ 31 - 1 -> wqs s !! m = Some [] ->
  up NCPU C m s = Ok (tt, set_sems (<[m := with_value (value sm + 1) sm]> (sems s)) s).
Proof.
  intros (_ & Hlk & _) Hm Hv Hr Hq. unfold up, __up. mstep (rd_sem_spec m sm s Hm). massert; [|done].
  mstep (sem_lock m s Hlk). set (s1 := locked m s).
  assert (E1 : wait_queue_first m s1 = Ok (None, s1)) by (unfold wait_queue_first; by mstep (rd_wq_spec m [] s1 Hq)).
  mstep E1. mstep (upd_sem_spec m (fun x => with_value (s32 (value x + 1)) x) sm s1 Hm).
  rewrite (smod_small 32) by (unfold is_s; simpl in *; lia). set (s2 := set_sems (<[m := with_value (value sm + 1) sm]> (sems s)) s).
  change (set_sems _ s1) with (locked m s2). rewrite sem_unlock by done. by rewrite (unlock_locked m s2 Hlk).
Qed.

(** The pipe's semaphore is free again. *)
Definition released (s : pst) (x : pipe_state) : Prop := exists sm, sems (sy s) !! psem x = Some sm /\ value sm = 1.

Lemma unlock_total s p x : pipes s !! p = Some x -> kinv NCPU (sk (sy s)) -> wqs (sy s) !! psem x = Some [] ->
  (exists sm, sems (sy s) !! psem x = Some sm /\ valid sm = true /\ value sm = 0) ->
  exists s', unlock_state NCPU C p s = Ok (tt, s') /\ released s' x.
Proof.
  intros Hp K Hq (sm & Hm & Hv & Hval). unfold unlock_state. mstep (rd_pipe_spec p x s Hp). unfold lift_sync.
  rewrite (up_free (sy s) (psem x) sm K Hm Hv ltac:(lia) Hq). eexists. split; [reflexivity|]. eexists. cbn [sy set_sy sems set_sems].
  rewrite lookup_insert_eq. split; [done|]. cbn. lia.
Qed.

Lemma wakeup_total s x q l : held NCPU s x -> wqs (sy s) !! q = Some l -> all_wakeable NCPU (sy s) l -> psem x <> q ->
  exists s', pipe_state_wakeup NCPU C q s = Ok (tt, s') /\ pipes s' = pipes s /\ kinv NCPU (sk (sy s')) /\
    wqs (sy s') !! psem x = Some [] /\ sems (sy s') = sems (sy s).
Proof.
  intros H Hq Ha Hne. unfold pipe_state_wakeup.
  assert (E : lift_sync (wait_queue_empty q) s = Ok (bool_decide (l = []), s)).
  { unfold lift_sync, wait_queue_empty. rewrite (bind_step _ _ _ _ _ (rd_wq_spec q l (sy s) Hq)). by destruct s. }
  mstep E. case_bool_decide.
  - exists s. destruct H. by split_and!.
  - pose proof (h_k _ _ _ H) as (I & Hlk & Hin).
    destruct (wakeup_queue_spec NCPU C (sy s) q l WT_PIPE (h_w _ _ _ H) I Hq Ha) as (s' & E' & W' & I' & Q' & S' & _ & _ & L' & N').
    unfold lift_sync. rewrite E'. eexists. split; [reflexivity|]. cbn [sy set_sy pipes]. split; [done|]. split; [|split; [|done]].
    + split; [done|]. split; [congruence|]. congruence.
    + rewrite Q', lookup_insert_ne by done. apply H.
Qed.

Lemma read_body_total s p x n : pipes s !! p = Some x -> pinv SIZE x -> held NCPU s x ->
  exists r s', read_body NCPU C SIZE p n s = Ok (r, s') /\ released s' x.
Proof.
  intros Hp P H. unfold read_body. mstep (rd_pipe_spec p x s Hp). destruct (is_empty x).
  - destruct (unlock_total s p x Hp (h_k _ _ _ H) (h_free _ _ _ H) (h_sem _ _ _ H)) as (s' & E & R). mstep E. by eexists _, s'.
  - destruct (read_loop_spec SIZE HSIZE (Z.to_nat n) x s P) as (x' & E & P' & _ & Hx'). mstep E. cbn beta iota.
    mstep (upd_pipe_spec p (fun _ => x') x s Hp). set (s1 := set_pipes (<[p := x']> (pipes s)) s).
    assert (Hs : psem x' = psem x /\ reader_queue x' = reader_queue x /\ writer_queue x' = writer_queue x) by (rewrite Hx'; done).
    destruct Hs as (Q1 & Q2 & Q3). assert (Hp1 : pipes s1 !! p = Some x') by apply lookup_insert_eq.
    assert (Hend : forall bs : list Z, exists s2, match bs with [] => mret tt | _ :: _ => wakeup_writer NCPU C p end s1 = Ok (tt, s2) /\
      pipes s2 !! p = Some x' /\ kinv NCPU (sk (sy s2)) /\ wqs (sy s2) !! psem x = Some [] /\ sems (sy s2) = sems (sy s)).
    { intros [|b bs]; [exists s1; destruct H; by split_and!|]. unfold wakeup_writer. mstep (rd_pipe_spec p x' s1 Hp1). rewrite Q3.
      destruct (h_wq _ _ _ H) as (l & Hl & Ha). assert (H1 : held NCPU s1 x) by (destruct H; by split).
      destruct (wakeup_total s1 x (writer_queue x) l H1 Hl Ha (proj2 (h_ne _ _ _ H))) as (s2 & E2 & Hp2 & ? & ? & ?).
      exists s2. rewrite Hp2. by split_and!. }
    destruct (Hend (take (Z.to_nat n) (contents SIZE x))) as (s2 & E2 & Hp2 & K2 & Hf2 & Hs2). mstep E2.
    destruct (unlock_total s2 p x' Hp2 K2) as (s3 & E3 & R3); [by rewrite Q1|rewrite Q1, Hs2; apply H|]. mstep E3.
    eexists _, s3. split; [reflexivity|]. unfold released in *. by rewrite Q1 in R3.
Qed.

Lemma write_loop_total p bs : forall s x step, pipes s !! p = Some x -> pinv SIZE x -> held NCPU s x -> p_wpos x + Z.of_nat (length bs) < 2 ^ 31 ->
  exists r s', write_loop NCPU C SIZE p bs step s = Ok (r, s') /\ released s' x.
Proof.
  assert (Hwake : forall s x, pipes s !! p = Some x -> held NCPU s x -> exists s2, wakeup_reader NCPU C p s = Ok (tt, s2) /\
      pipes s2 !! p = Some x /\ kinv NCPU (sk (sy s2)) /\ wqs (sy s2) !! psem x = Some [] /\ sems (sy s2) = sems (sy s)).
  { intros s x Hp H. unfold wakeup_reader. mstep (rd_pipe_spec p x s Hp). destruct (h_rq _ _ _ H) as (l & Hl & Ha).
    destruct (wakeup_total s x (reader_queue x) l H Hl Ha (proj1 (h_ne _ _ _ H))) as (s2 & E2 & Hp2 & ? & ? & ?). exists s2. rewrite Hp2. by split_and!. }
  induction bs as [|b bs IH]; intros s x step Hp P H Hw; cbn [write_loop].
  - assert (Hend : exists s2, (if step =? 0 then mret tt else wakeup_reader NCPU C p) s = Ok (tt, s2) /\
      pipes s2 !! p = Some x /\ kinv NCPU (sk (sy s2)) /\ wqs (sy s2) !! psem x = Some [] /\ sems (sy s2) = sems (sy s)).
    { destruct (step =? 0); [exists s; destruct H; by split_and!|by apply Hwake]. }
    destruct Hend as (s2 & E2 & Hp2 & K2 & Hf2 & Hs2). mstep E2.
    destruct (unlock_total s2 p x Hp2 K2 Hf2) as (s3 & E3 & R3); [rewrite Hs2; apply H|]. mstep E3. by eexists _, s3.
  - mstep (rd_pipe_spec p x s Hp). pose proof (pi_pos _ x P) as Hpos. pose proof (pi_width _ x P) as Hwd. cbn [length] in Hw.
    unfold is_full. rewrite (umod_small 32 (p_wpos x - p_rpos x)) by (unfold is_u; simpl in *; lia).
    destruct (Z.leb_spec SIZE (p_wpos x - p_rpos x)) as [Hf|Hf].
    + destruct (Hwake s x Hp H) as (s2 & E2 & Hp2 & K2 & Hf2 & Hs2). mstep E2.
      destruct (unlock_total s2 p x Hp2 K2 Hf2) as (s3 & E3 & R3); [rewrite Hs2; apply H|]. mstep E3. by eexists _, s3.
    + assert (Hidx : (Z.to_nat (u32 (p_wpos x) mod SIZE) < length (buf x))%nat).
      { pose proof (pi_buf _ x P). pose proof (Z.mod_pos_bound (u32 (p_wpos x)) SIZE). lia. }
      apply Nat.ltb_lt in Hidx. rewrite Hidx. rewrite (bind_step (mret tt : M pst unit) _ s tt s eq_refl).
      mstep (upd_pipe_spec p (put_byte (u32 (p_wpos x) mod SIZE) b) x s Hp).
      destruct (put_byte_spec SIZE HSIZE x b P) as [P1 Hc1]; [lia|lia|]. set (x1 := put_byte _ b x) in *. set (s1 := set_pipes _ s).
      assert (Hw1 : p_wpos x1 = p_wpos x + 1) by (cbn [x1 put_byte p_wpos]; apply (smod_small 32); [lia|unfold is_s; simpl in *; lia]).
      destruct (IH s1 x1 (step + 1)) as (r & s' & E & R); [apply lookup_insert_eq|done|destruct H; by split|lia|]. by exists r, s'.
Qed.
End total.

(** C22: a pipe is a first-in, first-out byte stream as long as less than [2^31] bytes
    are written to it (beyond, its signed positions overflow): whatever mixture of reads,
    writes (also partial ones, resumed after waiting), closes and other kernel
    activity happens, the bytes readers got followed by the bytes in the ring
    are exactly the bytes writers handed over, in order; the ring never holds
    more than its size. *)
Theorem pipe_stream NCPU C SIZE p s x g :
  128 < SIZE < 4096 -> pipes s !! p = Some x -> pinv SIZE x -> contents SIZE x = [] ->
  pipe_steps NCPU C SIZE p (Prun s [] []) g ->
  exists x', pipes (pstate g) !! p = Some x' /\ readout g ++ contents SIZE x' = written g /\ Z.of_nat (length (contents SIZE x')) <= SIZE.
Proof.
  intros HS Hp P Hc Hst. assert (H : stream_inv SIZE p g).
  { remember (Prun s [] []) as g0 eqn:E. induction Hst as [g|g g1 g2 _ IH St]; [subst; exists x; by rewrite Hc|].
    apply (stream_step NCPU C SIZE HS p g1); [by apply IH|done]. }
  destruct H as (x' & Hp' & P' & Hs). exists x'. split_and!; try done. rewrite length_contents by done. apply P'.
Qed.

(** [pipe_state_read] and [pipe_state_write], once they hold the pipe's
    semaphore, run to their return or their sleep without failing an assertion
    or touching a byte outside the ring, and leave the semaphore free. *)
Theorem pipe_no_fault NCPU C `{!SchedClass C} SIZE s p x n bs :
  128 < SIZE < 4096 -> pipes s !! p = Some x -> pinv SIZE x -> held NCPU s x -> p_wpos x + Z.of_nat (length bs) < 2 ^ 31 ->
  (exists r s', read_body NCPU C SIZE p n s = Ok (r, s') /\ released s' x) /\
  (exists r s', write_body NCPU C SIZE p bs s = Ok (r, s') /\ released s' x).
Proof.
  intros HS Hp P H Hw. split; [by apply read_body_total|]. unfold write_body. mstep (rd_pipe_spec p x s Hp). destruct (isclosed x).
  - destruct (unlock_total NCPU C s p x Hp (h_k _ _ _ H) (h_free _ _ _ H) (h_sem _ _ _ H)) as (s' & E & R). mstep E. by eexists _, s'.
  - by apply write_loop_total.
Qed.

(** ** A concrete pipe: its semaphore (60) is held, process 4 waits for data *)

Definition ex_pipe : pipe_state := PipeState 4000 4000 (replicate 4000 0) false 2 60 61 62.
Definition ex_psync : sync := Sync ex_sched {[ 100 := Wait 4 0 (Some 61) ]} {[ 60 := []; 61 := [100]; 62 := [] ]} {[ 60 := Sem 0 true 0 ]} ∅ ∅ ∅ 0.
Definition ex_pst : pst := Pst ex_psync {[ 7 := ex_pipe ]}.

Lemma ex_pipe_inv : pinv 4000 ex_pipe.
Proof. by split; cbn [p_rpos p_wpos buf ex_pipe]; rewrite ?length_replicate. Qed.

Lemma ex_pipe_held : held 1 ex_pst ex_pipe.
Proof.
  split; cbn [sy ex_pst ex_psync sk sems wqs psem reader_queue writer_queue ex_pipe].
  - exact ex_sched_kinv.
  - intros q l. cbn [wqs waits ex_psync]. intros [[<- <-]|[_ [[<- <-]|[_ [<- <-]%lookup_singleton_Some]]%lookup_insert_Some]]%lookup_insert_Some;
      (split; [by apply (bool_decide_unpack _)|]); intros w Hw; [by apply not_elem_of_nil in Hw| |by apply not_elem_of_nil in Hw].
    apply list_elem_of_singleton in Hw as ->. by eexists.
  - by eexists.
  - reflexivity.
  - exists [100]. split; [reflexivity|]. intros w ->%list_elem_of_singleton. eexists. split; [reflexivity|exact ex_sched_wakeable].
  - exists []. split; [reflexivity|]. by intros w ?%not_elem_of_nil.
  - done.
Qed.

Definition ex_pst1 : pst := match write_body 1 RR_sched_class 4000 7 [104; 105] ex_pst with Ok (_, s) => s | Err _ => ex_pst end.
Lemma ex_pipe_write : write_body 1 RR_sched_class 4000 7 [104; 105] ex_pst = Ok ((true, 2), ex_pst1).
Proof. vm_compute. reflexivity. Qed.

Lemma pipe_stream_witness : exists x', pipes ex_pst1 !! 7 = Some x' /\ [] ++ contents 4000 x' = [104; 105] /\ Z.of_nat (length (contents 4000 x')) <= 4000.
Proof.
  apply (pipe_stream 1 RR_sched_class 4000 7 ex_pst ex_pipe (Prun ex_pst1 [104; 105] []) ltac:(lia) eq_refl ex_pipe_inv eq_refl).
  apply (pss_step 1 RR_sched_class 4000 7 _ (Prun ex_pst [] [])); [apply pss_refl|].
  apply (pipe_write 1 RR_sched_class 4000 7 (Prun ex_pst [] []) [104; 105] true 2 ex_pst1); [|exact ex_pipe_write].
  intros x. cbn [pstate ex_pst pipes]. intros [_ <-]%lookup_singleton_Some. reflexivity.
Defined.

Lemma pipe_no_fault_witness :
  (exists r s', read_body 1 MLFQ_sched_class 4000 7 10 ex_pst = Ok (r, s') /\ released s' ex_pipe) /\
  (exists r s', write_body 1 MLFQ_sched_class 4000 7 [1; 2; 3] ex_pst = Ok (r, s') /\ released s' ex_pipe).
Proof.
  apply (pipe_no_fault 1 MLFQ_sched_class 4000 ex_pst 7 ex_pipe 10 [1; 2; 3] ltac:(lia) eq_refl ex_pipe_inv ex_pipe_held).
  reflexivity.
Defined.
