(* ===== verification/Mbox.v ===== *)
(** * Mbox: message boxes (sync/mbox.c)

    A box is a bounded queue of messages with a queue of waiting senders and one
    of waiting receivers.  Boxes are named by their id, messages by their
    address; [senders] and [receivers] give the addresses of the wait queues
    embedded in a box.  Blocking calls are cut at [schedule]: [send_enter] and
    [send_resume] are the code of [send_msg] before and after it. *)

From stdpp Require Import numbers gmap list.
From S2P Require Import Prelude Sched Timer Wait Sem.
Local Open Scope Z_scope.

(** ** Data *)

Definition WT_MBOX_SEND : Z := Z.lor 0x120 WT_INTERRUPTED.
Definition WT_MBOX_RECV : Z := Z.lor 0x121 WT_INTERRUPTED.

Definition MAX_MBOX_NUM : Z := 8192.
Definition MAX_MSG_SLOTS : Z := 4096.
Definition MAX_MSG_BYTES : Z := 65536.
Definition MAX_MSG_DATALEN : nat := 492.
(** A [struct msg_mbox] has thirteen words: five, the message list, two wait
    queues of three words each. *)
Definition MBOX_P_PAGE : Z := 4096 / 52.
Definition MAX_MBOX_PAGES : Z := (MAX_MBOX_NUM + MBOX_P_PAGE - 1) / MBOX_P_PAGE.

Inductive mbox_state := CLOSED | OPENED | CLOSING.

#[export] Instance mbox_state_eq_dec : EqDecision mbox_state.
Proof. solve_decision. Defined.

(** [struct msg_msg]: the data of the message and of the segments behind it. *)
Record msg_msg := Msg { mpid : Z; bytes : Z; segs : list (list Z) }.

(** [msg_link] is the sequence of the messages in the box. *)
Record msg_mbox := Mbox {
  inuse : Z; mstate : mbox_state; max_slots : Z; slots : Z; msg_link : list Z }.

Record mst := Mst {
  my : sync;
  mboxes : gmap Z msg_mbox;           (* the boxes of the pages in [mbox_map] *)
  mbox_map : list bool;               (* [mbox_map[i] != NULL] *)
  free_mbox_list : list Z;
  msgs : gmap Z msg_msg }.

Definition set_my (x : sync) (s : mst) : mst := Mst x (mboxes s) (mbox_map s) (free_mbox_list s) (msgs s).
Definition set_mboxes (x : gmap Z msg_mbox) (s : mst) : mst := Mst (my s) x (mbox_map s) (free_mbox_list s) (msgs s).
Definition set_mbox_map (x : list bool) (s : mst) : mst := Mst (my s) (mboxes s) x (free_mbox_list s) (msgs s).
Definition set_free (x : list Z) (s : mst) : mst := Mst (my s) (mboxes s) (mbox_map s) x (msgs s).
Definition set_msgs (x : gmap Z msg_msg) (s : mst) : mst := Mst (my s) (mboxes s) (mbox_map s) (free_mbox_list s) x.

Definition mlift {A} (m : M sync A) : M mst A := fun s =>
  match m (my s) with Ok (a, k) => Ok (a, set_my k s) | Err f => Err f end.

Definition rd_mbox (b : Z) : M mst msg_mbox := load (fun s => mboxes s !! b).
Definition upd_mbox (b : Z) (f : msg_mbox -> msg_mbox) : M mst unit := fun s =>
  match mboxes s !! b with Some x => Ok (tt, set_mboxes (<[b := f x]> (mboxes s)) s) | None => Err BadAccess end.
Definition rd_msg (m : Z) : M mst msg_msg := load (fun s => msgs s !! m).

Definition with_inuse (v : Z) (x : msg_mbox) : msg_mbox := Mbox v (mstate x) (max_slots x) (slots x) (msg_link x).
Definition with_mstate (v : mbox_state) (x : msg_mbox) : msg_mbox := Mbox (inuse x) v (max_slots x) (slots x) (msg_link x).
Definition with_msgs (n : Z) (l : list Z) (x : msg_mbox) : msg_mbox := Mbox (inuse x) (mstate x) (max_slots x) n l.

(** ** Segmented messages *)

(** The loop of [load_msg]: one allocation per segment, [oks] their results. *)
Fixpoint load_segs (fuel : nat) (data : list Z) (oks : list bool) : option (list (list Z)) :=
  match data with
  | [] => Some []
  | _ :: _ =>
      match fuel, oks with
      | S fuel', true :: oks' =>
          rest ← load_segs fuel' (drop MAX_MSG_DATALEN data) oks';
          Some (take MAX_MSG_DATALEN data :: rest)
      | _, _ => None
      end
  end.
(** The first allocation holds the header, also for an empty message. *)
Definition load_msg (pid : Z) (data : list Z) (oks : list bool) : option msg_msg :=
  match oks with
  | true :: oks' =>
      rest ← load_segs (length data) (drop MAX_MSG_DATALEN data) oks';
      Some (Msg pid (Z.of_nat (length data)) (take MAX_MSG_DATALEN data :: rest))
  | _ => None
  end.

(** The loop of [store_msg]: what is copied to the user, [None] when the
    assertion [seg != NULL] fails. *)
Fixpoint store_segs (len : nat) (l : list (list Z)) : option (list Z) :=
  match len with
  | O => Some []
  | S _ =>
      match l with
      | [] => None
      | sg :: l' =>
          let alen := Nat.min len MAX_MSG_DATALEN in
          rest ← store_segs (len - alen) l';
          Some (take alen sg ++ rest)
      end
  end.
Definition store_msg (m : msg_msg) : option (list Z) :=
  match segs m with
  | [] => None
  | sg :: l =>
      let alen := Nat.min (Z.to_nat (bytes m)) MAX_MSG_DATALEN in
      rest ← store_segs (Z.to_nat (bytes m) - alen) l;
      Some (take alen sg ++ rest)
  end.

Section mbox.
Context (NCPU : Z) (C : sched_class) (senders receivers : Z -> Z).

Definition mbox_init (m : Z) : M mst unit :=
  _ ← modify (fun s => set_mbox_map (replicate (Z.to_nat MAX_MBOX_PAGES) false) s);
  _ ← mlift (sem_init m 1);
  modify (set_free []).

Definition get_mbox (id : Z) : M mst (option Z) := fun s =>
  if (0 <=? id) && (id <? MAX_MBOX_NUM) then
    match mbox_map s !! Z.to_nat (id / MBOX_P_PAGE) with
    | Some true =>
        match mboxes s !! id with
        | Some x => Ok (if decide (mstate x = OPENED) then Some id else None, s)
        | None => Err BadAccess
        end
    | Some false => Ok (None, s)
    | None => Err BadAccess
    end
  else Ok (None, s).

Definition mbox_free (b : Z) : M mst unit :=
  x ← rd_mbox b;
  _ ← kassert (bool_decide (mstate x = CLOSING) && (inuse x =? 0));
  _ ← kassert (bool_decide (msg_link x = []));
  e1 ← mlift (wait_queue_empty (senders b));
  _ ← kassert e1;
  e2 ← mlift (wait_queue_empty (receivers b));
  _ ← kassert e2;
  _ ← upd_mbox b (fun x => Mbox (inuse x) CLOSED 0 0 (msg_link x));
  modify (fun s => set_free (free_mbox_list s ++ [b]) s).

Definition add_msg (b m : Z) (append : bool) : M mst unit :=
  x ← rd_mbox b;
  _ ← kassert (bool_decide (mstate x = OPENED));
  _ ← upd_mbox b (fun x => with_msgs (u32 (slots x + 1)) (if append then msg_link x ++ [m] else m :: msg_link x) x);
  mlift (wakeup_first NCPU C (receivers b) WT_MBOX_RECV true).

(** The message, or the error code. *)
Definition pick_msg (b max_bytes : Z) : M mst (Z * option Z) :=
  x ← rd_mbox b;
  _ ← kassert (bool_decide (mstate x = OPENED) && (0 <? slots x));
  match msg_link x with
  | [] => fail AssertFailed
  | m :: l =>
      mm ← rd_msg m;
      if max_bytes <? bytes mm then mret (- E_TOO_BIG, None)
      else
        _ ← upd_mbox b (with_msgs (slots x - 1) l);
        _ ← mlift (wakeup_first NCPU C (senders b) WT_MBOX_SEND true);
        mret (0, Some m)
  end.

(** The boxes of a new page go to the end of the free list. *)
Fixpoint page_boxes (n : nat) (id : Z) : M mst unit :=
  match n with
  | O => mret tt
  | S n' =>
      _ ← modify (fun s => set_mboxes (<[id := Mbox 0 CLOSED 0 0 []]> (mboxes s)) s);
      _ ← mlift (wait_queue_init (senders id));
      _ ← mlift (wait_queue_init (receivers id));
      _ ← modify (fun s => set_free (free_mbox_list s ++ [id]) s);
      page_boxes n' (id + 1)
  end.

(** The first entry of [mbox_map] that is [NULL]. *)
Definition free_page_slot (l : list bool) : option nat := fst <$> list_find (fun b => b = false) l.

(** The first [if] of [new_mbox]: a new page when no box is free; [page_ok] is
    the result of [alloc_page].  [false]: go to [out]. *)
Definition grow_boxes (page_ok : bool) : M mst bool :=
  fl ← gets free_mbox_list;
  match fl with
  | _ :: _ => mret true
  | [] =>
      mm ← gets mbox_map;
      match free_page_slot mm with
      | None => mret false
      | Some i =>
          if page_ok then
            _ ← modify (fun s => set_mbox_map (<[i := true]> (mbox_map s)) s);
            _ ← page_boxes (Z.to_nat MBOX_P_PAGE) (Z.of_nat i * MBOX_P_PAGE);
            mret true
          else mret false
      end
  end.

Definition take_box (max : Z) : M mst (option Z) :=
  fl ← gets free_mbox_list;
  match fl with
  | [] => fail AssertFailed
  | b :: fl' =>
      _ ← modify (set_free fl');
      _ ← upd_mbox b (fun x => Mbox (inuse x) OPENED max (slots x) []);
      mret (Some b)
  end.

Definition new_mbox (max : Z) (page_ok : bool) : M mst (option Z) :=
  _ ← mlift (lift (spinlock_acquire MboxLock));
  go ← grow_boxes page_ok;
  r ← (if (go : bool) then take_box max else mret None);
  _ ← mlift (lift (spinlock_release MboxLock));
  mret r.

Definition free_msg (m : Z) : M mst unit := modify (fun s => set_msgs (delete m (msgs s)) s).

(** ** Sending *)

(** From the label [out] of [send_msg] and of [recv_msg]. *)
Definition leave_box (b ret : Z) : M mst Z :=
  _ ← upd_mbox b (fun x => with_inuse (s32 (inuse x - 1)) x);
  x ← rd_mbox b;
  _ ← (if bool_decide (mstate x <> OPENED) then
         _ ← kassert (negb (ret =? 0) && bool_decide (mstate x = CLOSING));
         if inuse x =? 0 then mbox_free b else mret tt
       else mret tt);
  _ ← mlift (lift (spinlock_release MboxLock));
  mret ret.

(** The test of the [while] loop and what follows, [mbox_lock] being held; [w]
    is the wait record.  [None]: the process has gone to sleep. *)
Definition send_try (b m : Z) (timer : option Z) (w : Z) : M mst (option Z) :=
  x ← rd_mbox b;
  if max_slots x <=? slots x then
    _ ← kassert (bool_decide (mstate x = OPENED));
    _ ← mlift (wait_current_set (senders b) w WT_MBOX_SEND);
    _ ← mlift (ipc_add_timer timer);
    _ ← mlift (lift (spinlock_release MboxLock));
    _ ← mlift (lift (schedule NCPU C));
    mret None
  else
    _ ← kassert (bool_decide (mstate x = OPENED) && (slots x <? max_slots x));
    _ ← add_msg b m true;
    r ← leave_box b 0;
    mret (Some r).

Definition send_enter (b m : Z) (timer : option Z) (w : Z) : M mst (option Z) :=
  _ ← mlift (lift (spinlock_acquire MboxLock));
  _ ← upd_mbox b (fun x => with_inuse (s32 (inuse x + 1)) x);
  send_try b m timer w.

Definition send_resume (b m : Z) (timer : option Z) (w : Z) : M mst (option Z) :=
  _ ← mlift (lift (spinlock_acquire MboxLock));
  _ ← mlift (ipc_del_timer timer);
  _ ← mlift (wait_current_del (senders b) w);
  x ← rd_mbox b;
  wx ← mlift (rd_wait w);
  if bool_decide (mstate x <> OPENED) || negb (wakeup_flags wx =? WT_MBOX_SEND) then
    r ← leave_box b (if wakeup_flags wx =? WT_MBOX_SEND then WT_INTERRUPTED else wakeup_flags wx);
    mret (Some r)
  else send_try b m timer w.

(** ** Receiving *)

Definition recv_try (b max_bytes : Z) (timer : option Z) (w : Z) : M mst (option (Z * option Z)) :=
  x ← rd_mbox b;
  if slots x =? 0 then
    _ ← kassert (bool_decide (mstate x = OPENED));
    _ ← mlift (wait_current_set (receivers b) w WT_MBOX_RECV);
    _ ← mlift (ipc_add_timer timer);
    _ ← mlift (lift (spinlock_release MboxLock));
    _ ← mlift (lift (schedule NCPU C));
    mret None
  else
    _ ← kassert (bool_decide (mstate x = OPENED) && (0 <? slots x));
    _ ← kassert (negb (bool_decide (msg_link x = [])));
    '(ret, m) ← pick_msg b max_bytes;
    _ ← (if negb (ret =? 0) then mlift (wakeup_first NCPU C (receivers b) WT_MBOX_RECV true) else mret tt);
    r ← leave_box b ret;
    mret (Some (r, m)).

Definition recv_enter (b max_bytes : Z) (timer : option Z) (w : Z) : M mst (option (Z * option Z)) :=
  _ ← mlift (lift (spinlock_acquire MboxLock));
  _ ← upd_mbox b (fun x => with_inuse (s32 (inuse x + 1)) x);
  recv_try b max_bytes timer w.

Definition recv_resume (b max_bytes : Z) (timer : option Z) (w : Z) : M mst (option (Z * option Z)) :=
  _ ← mlift (lift (spinlock_acquire MboxLock));
  _ ← mlift (ipc_del_timer timer);
  _ ← mlift (wait_current_del (receivers b) w);
  x ← rd_mbox b;
  wx ← mlift (rd_wait w);
  if bool_decide (mstate x <> OPENED) || negb (wakeup_flags wx =? WT_MBOX_RECV) then
    r ← leave_box b (-1);
    mret (Some (r, None))
  else recv_try b max_bytes timer w.

(** The end of [ipc_mbox_recv]: [stored] tells whether the message could be
    copied to the user; if not, it goes back to the front of the box. *)
Definition recv_finish (id m : Z) (stored : bool) : M mst Z :=
  if stored then _ ← free_msg m; mret 0
  else
    b ← get_mbox id;
    match b with
    | Some b => _ ← add_msg b m false; mret (- E_INVAL)
    | None => _ ← free_msg m; mret (- E_INVAL)
    end.

(** ** Closing, inspecting, tidying up *)

Fixpoint free_msgs (l : list Z) : M mst unit :=
  match l with [] => mret tt | m :: l' => _ ← free_msg m; free_msgs l' end.

Definition ipc_mbox_free (id : Z) : M mst Z :=
  b ← get_mbox id;
  match b with
  | None => mret (- E_INVAL)
  | Some b =>
      _ ← mlift (lift (spinlock_acquire MboxLock));
      _ ← upd_mbox b (with_mstate CLOSING);
      x ← rd_mbox b;
      _ ← free_msgs (msg_link x);
      _ ← upd_mbox b (fun x => Mbox (inuse x) (mstate x) (max_slots x) (slots x) []);
      _ ← mlift (wakeup_queue NCPU C (senders b) WT_INTERRUPTED true);
      _ ← mlift (wakeup_queue NCPU C (receivers b) WT_INTERRUPTED true);
      _ ← (if inuse x =? 0 then mbox_free b else mret tt);
      _ ← mlift (lift (spinlock_release MboxLock));
      mret 0
  end.

(** [struct mboxinfo]: slots, max_slots, inuse, has_sender, has_receiver. *)
Definition ipc_mbox_info (id : Z) : M mst (option (Z * Z * bool * bool * bool)) :=
  b ← get_mbox id;
  match b with
  | None => mret None
  | Some b =>
      x ← rd_mbox b;
      e1 ← mlift (wait_queue_empty (senders b));
      e2 ← mlift (wait_queue_empty (receivers b));
      mret (Some (slots x, max_slots x, negb (inuse x =? 0), negb e1, negb e2))
  end.

Definition page_ids (i : nat) : list Z := seqZ (Z.of_nat i * MBOX_P_PAGE) MBOX_P_PAGE.

(** The outer loop of [mbox_cleanup]: a page goes when all its boxes are closed. *)
Fixpoint cleanup_pages (n : nat) (i : nat) : M mst unit :=
  match n with
  | O => mret tt
  | S n' =>
      s ← get;
      _ ← (if bool_decide (mbox_map s !! i = Some true) &&
              forallb (fun id => match mboxes s !! id with Some x => bool_decide (mstate x = CLOSED) | None => false end) (page_ids i)
           then
             _ ← modify (fun s => set_free (filter (fun id => id ∉ page_ids i) (free_mbox_list s)) s);
             _ ← modify (fun s => set_mbox_map (<[i := false]> (mbox_map s)) s);
             modify (fun s => set_mboxes (filter (fun p : Z * msg_mbox => p.1 ∉ page_ids i) (mboxes s)) s)
           else mret tt);
      cleanup_pages n' (S i)
  end.
Definition mbox_cleanup : M mst unit :=
  _ ← mlift (lift (spinlock_acquire MboxLock));
  _ ← cleanup_pages (Z.to_nat MAX_MBOX_PAGES) 0;
  mlift (lift (spinlock_release MboxLock)).

(** ** The system calls *)

(** A call returns a value, or its process sleeps with the given timer and start time. *)
Inductive called := Done (ret : Z) | Asleep (timer : option Z) (saved : Z).

(** [ipc_mbox_init] once it holds [sem_mbox_map]. *)
Definition init_locked (m max : Z) (page_ok : bool) : M mst Z :=
  b ← new_mbox max page_ok;
  _ ← mlift (up NCPU C m);
  mret (match b with Some b => b | None => - E_NO_MEM end).
Definition ipc_mbox_init (m max : Z) (page_ok : bool) (w : Z) : M mst called :=
  if (max =? 0) || (MAX_MSG_SLOTS <? max) then mret (Done (- E_INVAL))
  else
    got ← mlift (down_enter NCPU C m w);
    if (got : bool) then r ← init_locked m max page_ok; mret (Done r) else mret (Asleep None 0).

Definition current_pid : M mst Z := cur ← mlift (lift current); pr ← mlift (lift (rd_proc cur)); mret (pid pr).

(** What follows [send_msg] when it returned [flags]. *)
Definition send_done (m flags timeout saved : Z) : M mst Z :=
  if flags =? 0 then mret 0
  else
    _ ← kassert (flags =? WT_INTERRUPTED);
    r ← mlift (ipc_check_timeout timeout saved);
    _ ← free_msg m;
    mret r.

(** [req]: the message copied from the user, [None] when a copy or a check of
    the user's memory failed; [oks], [m]: the allocations and the address of the
    message; [t], [w]: the caller's timer and wait record. *)
Definition ipc_mbox_send (id : Z) (req : option (list Z)) (oks : list bool) (m timeout t w : Z) : M mst called :=
  b ← get_mbox id;
  match b with
  | None => mret (Done (- E_INVAL))
  | Some _ =>
      match req with
      | None => mret (Done (- E_INVAL))
      | Some data =>
          if (0 <? Z.of_nat (length data)) && (Z.of_nat (length data) <=? MAX_MSG_BYTES) then
            pid ← current_pid;
            match load_msg pid data oks with
            | None => mret (Done (- E_NO_MEM))
            | Some msg =>
                _ ← modify (fun s => set_msgs (<[m := msg]> (msgs s)) s);
                b ← get_mbox id;
                match b with
                | None => _ ← free_msg m; mret (Done (- E_INVAL))
                | Some b =>
                    '(timer, saved) ← mlift (ipc_timer_init timeout t);
                    r ← send_enter b m timer w;
                    match r with
                    | Some flags => r ← send_done m flags timeout saved; mret (Done r)
                    | None => mret (Asleep timer saved)
                    end
                end
            end
          else mret (Done (- E_INVAL))
      end
  end.

(** [size]: the size of the user's buffer, [None] when it could not be read or
    is not writable; [stored]: whether the message can be copied to it. *)
Definition recv_done (id ret : Z) (msg : option Z) (timeout saved : Z) (stored : bool) : M mst Z :=
  match msg with
  | Some m => if ret =? 0 then recv_finish id m stored else mret ret
  | None => if ret =? -1 then mlift (ipc_check_timeout timeout saved) else mret ret
  end.
Definition ipc_mbox_recv (id : Z) (size : option Z) (stored : bool) (timeout t w : Z) : M mst called :=
  b ← get_mbox id;
  match b with
  | None => mret (Done (- E_INVAL))
  | Some _ =>
      match size with
      | None => mret (Done (- E_INVAL))
      | Some size =>
          if 0 <? size then
            b ← get_mbox id;
            match b with
            | None => mret (Done (- E_INVAL))
            | Some b =>
                '(timer, saved) ← mlift (ipc_timer_init timeout t);
                r ← recv_enter b size timer w;
                match r with
                | Some (ret, msg) => r ← recv_done id ret msg timeout saved stored; mret (Done r)
                | None => mret (Asleep timer saved)
                end
            end
          else mret (Done (- E_INVAL))
      end
  end.
End mbox.

(** ** Messages survive their journey *)

Lemma datalen_pos : (0 < MAX_MSG_DATALEN)%nat.
Proof. unfold MAX_MSG_DATALEN. lia. Qed.

#[local] Opaque MAX_MSG_DATALEN.

Lemma load_segs_concat fuel : forall data oks l, load_segs fuel data oks = Some l ->
  store_segs (length data) l = Some data /\ length l = length (filter (fun b => b = true) (take (length l) oks)).
Proof.
  induction fuel as [|fuel IH]; intros data oks l; (destruct data as [|b data]; [by intros [= <-]|]); cbn [load_segs].
  - done.
  - destruct oks as [|[] oks]; [done| |done]. intros (rest & Hr & [= <-])%bind_Some.
    destruct (IH _ _ _ Hr) as [Hs Hl]. split.
    + cbn [length store_segs]. fold (length (b :: data)). set (d := b :: data) in *. change (S (length data)) with (length d).
      replace (take (Nat.min (length d) MAX_MSG_DATALEN) (take MAX_MSG_DATALEN d)) with (take MAX_MSG_DATALEN d).
      2:{ rewrite take_take. replace (Nat.min (Nat.min (length d) MAX_MSG_DATALEN) MAX_MSG_DATALEN) with (Nat.min (length d) MAX_MSG_DATALEN) by lia.
          destruct (Nat.le_ge_cases (length d) MAX_MSG_DATALEN); [rewrite Nat.min_l by lia; by rewrite !take_ge by lia|by rewrite Nat.min_r by lia]. }
      rewrite length_drop in Hs. replace (length d - Nat.min (length d) MAX_MSG_DATALEN)%nat with (length d - MAX_MSG_DATALEN)%nat by lia.
      rewrite Hs. cbn [mbind option_bind]. by rewrite take_drop.
    + cbn [length take]. rewrite filter_cons_True by done. cbn [length]. by f_equal.
Qed.

(** A message of any length is cut into segments by [load_msg] and put
    together again by [store_msg] byte for byte; no assertion fails on the way,
    and the length is kept. *)
Theorem msg_roundtrip pid data oks msg : load_msg pid data oks = Some msg ->
  store_msg msg = Some data /\ bytes msg = Z.of_nat (length data) /\ mpid msg = pid.
Proof.
  unfold load_msg. destruct oks as [|[] oks]; [done| |done]. intros (rest & Hr & [= <-])%bind_Some.
  destruct (load_segs_concat _ _ _ _ Hr) as [Hs _]. split; [|done]. unfold store_msg. cbn [segs bytes]. rewrite Nat2Z.id.
  rewrite length_drop in Hs. replace (length data - Nat.min (length data) MAX_MSG_DATALEN)%nat with (length data - MAX_MSG_DATALEN)%nat by lia.
  rewrite Hs. cbn [mbind option_bind]. rewrite take_take. do 2 f_equal.
  replace (Nat.min (Nat.min (length data) MAX_MSG_DATALEN) MAX_MSG_DATALEN) with (Nat.min (length data) MAX_MSG_DATALEN) by lia.
  destruct (Nat.le_ge_cases (length data) MAX_MSG_DATALEN).
  - rewrite Nat.min_l by lia. rewrite take_ge, drop_ge by lia. by rewrite app_nil_r.
  - rewrite Nat.min_r by lia. by rewrite take_drop.
Qed.

(** With memory, a message can always be loaded. *)
Lemma load_msg_total pid data oks : (length data < length oks)%nat -> Forall (eq true) oks -> exists msg, load_msg pid data oks = Some msg.
Proof.
  intros Hlen Hok. unfold load_msg. destruct oks as [|b oks]; [simpl in Hlen; lia|]. apply Forall_cons in Hok as [<- Hok].
  assert (H : forall fuel d o, (length d <= fuel)%nat -> (length d <= length o)%nat -> Forall (eq true) o -> exists l, load_segs fuel d o = Some l).
  { clear. induction fuel as [|fuel IH]; intros d o Hf Ho Hok; (destruct d as [|x d]; [by exists []|]); [simpl in Hf; lia|].
    destruct o as [|b o]; [simpl in Ho; lia|]. apply Forall_cons in Hok as [<- Hok]. cbn [load_segs].
    destruct (IH (drop MAX_MSG_DATALEN (x :: d)) o) as [l El]; [rewrite length_drop; simpl in *; pose proof datalen_pos; lia..|done|]. rewrite El. by eexists. }
  destruct (H (length data) (drop MAX_MSG_DATALEN data) oks) as [l El]; [rewrite length_drop; lia|rewrite length_drop; simpl in Hlen; lia|done|].
  rewrite El. by eexists.
Qed.

#[local] Transparent MAX_MSG_DATALEN.

(** ** What the operations do to a box *)

Section boxes.
Context (NCPU : Z) (C : sched_class) (senders receivers : Z -> Z).

Lemma mlift_frame {A} (m : M sync A) s a s' : mlift m s = Ok (a, s') -> mboxes s' = mboxes s /\ msgs s' = msgs s /\
  mbox_map s' = mbox_map s /\ free_mbox_list s' = free_mbox_list s.
Proof. unfold mlift. destruct (m (my s)) as [[a' k]|f]; [|done]. by intros [= _ <-]. Qed.

Lemma rd_mbox_Ok b s x s' : rd_mbox b s = Ok (x, s') -> mboxes s !! b = Some x /\ s' = s.
Proof. unfold rd_mbox, load. destruct (mboxes s !! b); [|done]. by intros [= -> ->]. Qed.
Lemma rd_mbox_spec b x s : mboxes s !! b = Some x -> rd_mbox b s = Ok (x, s).
Proof. unfold rd_mbox, load. by intros ->. Qed.
Lemma upd_mbox_spec b f x s : mboxes s !! b = Some x -> upd_mbox b f s = Ok (tt, set_mboxes (<[b := f x]> (mboxes s)) s).
Proof. unfold upd_mbox. by intros ->. Qed.
Lemma rd_msg_spec m x s : msgs s !! m = Some x -> rd_msg m s = Ok (x, s).
Proof. unfold rd_msg, load. by intros ->. Qed.

(** The messages of the box, its bound and its state, as a client sees them. *)
Definition same_queue (x x' : msg_mbox) : Prop :=
  mstate x' = mstate x /\ max_slots x' = max_slots x /\ slots x' = slots x /\ msg_link x' = msg_link x.

Lemma leave_box_open b ret s x r s' : mboxes s !! b = Some x -> mstate x = OPENED -> leave_box senders receivers b ret s = Ok (r, s') ->
  exists x', mboxes s' = <[b := x']> (mboxes s) /\ same_queue x x' /\ r = ret.
Proof.
  intros Hb Ho. unfold leave_box. mstep (upd_mbox_spec b (fun x => with_inuse (s32 (inuse x - 1)) x) x s Hb). set (s1 := set_mboxes _ s).
  assert (Hb1 : mboxes s1 !! b = Some (with_inuse (s32 (inuse x - 1)) x)) by apply lookup_insert_eq. mstep (rd_mbox_spec b _ s1 Hb1).
  rewrite bool_decide_eq_false_2 by (cbn; tauto). rewrite (bind_step (mret tt : M mst unit) _ s1 tt s1 eq_refl).
  intros (u & s2 & (H2 & _)%mlift_frame & [= <- <-])%bind_Ok. eexists. split; [exact H2|]. done.
Qed.

(** Sending with room appends the message; without room nothing changes. *)
Lemma send_try_box b m timer w s x r s' : mboxes s !! b = Some x -> send_try NCPU C senders receivers b m timer w s = Ok (r, s') ->
  match r with
  | None => mboxes s' = mboxes s /\ max_slots x <= slots x
  | Some r => r = 0 /\ slots x < max_slots x /\ exists x', mboxes s' = <[b := x']> (mboxes s) /\ mstate x = OPENED /\ mstate x' = OPENED /\
      max_slots x' = max_slots x /\ slots x' = u32 (slots x + 1) /\ msg_link x' = msg_link x ++ [m]
  end.
Proof.
  intros Hb. unfold send_try. mstep (rd_mbox_spec b x s Hb). destruct (Z.leb_spec (max_slots x) (slots x)).
  - intros (u & s1 & [_ ->]%kassert_Ok & H1)%bind_Ok. apply bind_Ok in H1 as (u1 & s1 & (F1 & _)%mlift_frame & H1).
    apply bind_Ok in H1 as (u2 & s2 & (F2 & _)%mlift_frame & H1). apply bind_Ok in H1 as (u3 & s3 & (F3 & _)%mlift_frame & H1).
    apply bind_Ok in H1 as (u4 & s4 & (F4 & _)%mlift_frame & [= <- <-]). split; [congruence|done].
  - intros (u & s1 & [_ ->]%kassert_Ok & H1)%bind_Ok. apply bind_Ok in H1 as (u1 & s1 & Ha & H1).
    apply bind_Ok in H1 as (r1 & s2 & Hl & [= <- <-]). unfold add_msg in Ha.
    rewrite (bind_step _ _ _ _ _ (rd_mbox_spec b x s Hb)) in Ha. apply bind_Ok in Ha as (u2 & s3 & [Ho ->]%kassert_Ok & Ha).
    apply bool_decide_eq_true_1 in Ho. rewrite (bind_step _ _ _ _ _ (upd_mbox_spec b _ x s Hb)) in Ha. apply mlift_frame in Ha as [Ha _].
    destruct (leave_box_open b 0 s1 _ r1 s2 ltac:(rewrite Ha; apply lookup_insert_eq) Ho Hl) as (x' & Hx' & (Q1 & Q2 & Q3 & Q4) & ->).
    split; [done|]. split; [done|]. exists x'. rewrite Hx', Ha. cbn [mboxes set_mboxes]. rewrite insert_insert_eq.
    cbn [with_msgs mstate max_slots slots msg_link] in *. split_and!; first [done|congruence].
Qed.

(** Receiving takes the first message, or leaves the box alone. *)
Lemma recv_try_box b n timer w s x r s' : mboxes s !! b = Some x -> recv_try NCPU C senders receivers b n timer w s = Ok (r, s') ->
  match r with
  | None => mboxes s' = mboxes s /\ slots x = 0
  | Some (r, Some m) => r = 0 /\ exists x' l, mboxes s' = <[b := x']> (mboxes s) /\ mstate x = OPENED /\ mstate x' = OPENED /\
      max_slots x' = max_slots x /\ slots x' = slots x - 1 /\ 0 < slots x /\ msg_link x = m :: l /\ msg_link x' = l
  | Some (r, None) => r = - E_TOO_BIG /\ exists x', mboxes s' = <[b := x']> (mboxes s) /\ same_queue x x'
  end.
Proof.
  intros Hb. unfold recv_try. mstep (rd_mbox_spec b x s Hb). destruct (Z.eqb_spec (slots x) 0).
  - intros (u & s1 & [_ ->]%kassert_Ok & H1)%bind_Ok. apply bind_Ok in H1 as (u1 & s1 & (F1 & _)%mlift_frame & H1).
    apply bind_Ok in H1 as (u2 & s2 & (F2 & _)%mlift_frame & H1). apply bind_Ok in H1 as (u3 & s3 & (F3 & _)%mlift_frame & H1).
    apply bind_Ok in H1 as (u4 & s4 & (F4 & _)%mlift_frame & [= <- <-]). split; [congruence|done].
  - intros (u & s1 & [Ho ->]%kassert_Ok & H1)%bind_Ok. apply andb_true_iff in Ho as [Ho Hpos]. apply bool_decide_eq_true_1 in Ho. apply Z.ltb_lt in Hpos.
    apply bind_Ok in H1 as (u1 & s1 & [_ ->]%kassert_Ok & H1). apply bind_Ok in H1 as ([ret om] & s1 & Hp & H1).
    unfold pick_msg in Hp. rewrite (bind_step _ _ _ _ _ (rd_mbox_spec b x s Hb)) in Hp. apply bind_Ok in Hp as (u2 & s2 & [_ ->]%kassert_Ok & Hp).
    destruct (msg_link x) as [|m l] eqn:El; [done|]. apply bind_Ok in Hp as (mm & s2 & Hm & Hp). unfold rd_msg, load in Hm.
    destruct (msgs s !! m); [|done]. injection Hm as -> ->. destruct (n <? bytes mm).
    + injection Hp as <- <- <-. cbn [Z.eqb negb] in H1. apply bind_Ok in H1 as (u3 & s3 & H3 & H1).
      assert (F3 : mboxes s3 = mboxes s2) by exact (proj1 (mlift_frame _ _ _ _ H3)).
      apply bind_Ok in H1 as (r1 & s4 & Hl & [= <- <-]).
      destruct (leave_box_open b (- E_TOO_BIG) s3 x r1 s4 ltac:(by rewrite F3) Ho Hl) as (x' & Hx' & Q & ->). split; [done|]. exists x'. by rewrite Hx', F3.
    + rewrite (bind_step _ _ _ _ _ (upd_mbox_spec b _ x s2 Hb)) in Hp. apply bind_Ok in Hp as (u3 & s3 & (F3 & _)%mlift_frame & [= <- <- <-]).
      cbn [Z.eqb negb] in H1. rewrite (bind_step (mret tt : M mst unit) _ s3 tt s3 eq_refl) in H1. apply bind_Ok in H1 as (r1 & s4 & Hl & [= <- <-]).
      destruct (leave_box_open b 0 s3 _ r1 s4 ltac:(rewrite F3; apply lookup_insert_eq) Ho Hl) as (x' & Hx' & (Q1 & Q2 & Q3 & Q4) & ->).
      split; [done|]. exists x', l. rewrite Hx', F3. cbn [mboxes set_mboxes]. rewrite insert_insert_eq.
      cbn [with_msgs mstate max_slots slots msg_link] in *. split_and!; first [done|congruence].
Qed.

Lemma mbox_free_boxes b s x u s' : mboxes s !! b = Some x -> mbox_free senders receivers b s = Ok (u, s') ->
  mboxes s' = <[b := Mbox (inuse x) CLOSED 0 0 (msg_link x)]> (mboxes s).
Proof.
  intros Hb. unfold mbox_free. mstep (rd_mbox_spec b x s Hb). intros (v1 & t1 & [_ ->]%kassert_Ok & Hf)%bind_Ok.
  apply bind_Ok in Hf as (v2 & t2 & [_ ->]%kassert_Ok & Hf).
  apply bind_Ok in Hf as (e1 & t3 & (G3 & _)%mlift_frame & Hf). apply bind_Ok in Hf as (v4 & t4 & [_ ->]%kassert_Ok & Hf).
  apply bind_Ok in Hf as (e2 & t5 & (G5 & _)%mlift_frame & Hf). apply bind_Ok in Hf as (v6 & t6 & [_ ->]%kassert_Ok & Hf).
  rewrite (bind_step _ _ _ _ _ (upd_mbox_spec b _ x t5 ltac:(congruence))) in Hf.
  injection Hf as _ <-. cbn [mboxes set_free set_mboxes]. congruence.
Qed.

(** Leaving a box that is not open any more may give it back. *)
Lemma leave_box_any b ret s x r s' : mboxes s !! b = Some x -> leave_box senders receivers b ret s = Ok (r, s') ->
  r = ret /\ exists x', mboxes s' !! b = Some x' /\ (same_queue x x' \/ mstate x <> OPENED /\ mstate x' = CLOSED).
Proof.
  intros Hb Hl. destruct (decide (mstate x = OPENED)) as [Ho|Ho].
  { destruct (leave_box_open b ret s x r s' Hb Ho Hl) as (x' & Hx' & Q & ->). split; [done|]. exists x'. rewrite Hx', lookup_insert_eq. split; [done|by left]. }
  unfold leave_box in Hl. rewrite (bind_step _ _ _ _ _ (upd_mbox_spec b _ x s Hb)) in Hl. set (s1 := set_mboxes _ s) in Hl.
  set (x1 := with_inuse (s32 (inuse x - 1)) x) in *. assert (Hb1 : mboxes s1 !! b = Some x1) by apply lookup_insert_eq.
  rewrite (bind_step _ _ _ _ _ (rd_mbox_spec b _ s1 Hb1)), bool_decide_eq_true_2 in Hl by done.
  apply bind_Ok in Hl as (u & s2 & Hf & Hl). apply bind_Ok in Hl as (u' & s3 & (F3 & _)%mlift_frame & [= <- <-]). split; [done|].
  rewrite F3. apply bind_Ok in Hf as (u2 & s4 & [_ ->]%kassert_Ok & Hf). destruct (inuse x1 =? 0).
  - rewrite (mbox_free_boxes b s1 x1 u s2 Hb1 Hf), lookup_insert_eq. eexists. split; [done|]. by right.
  - injection Hf as <- <-. exists x1. split; [done|]. left. done.
Qed.

Lemma lift_waits {A} (m : M sched A) s a s' : mlift (lift m) s = Ok (a, s') -> waits (my s') = waits (my s) /\ mboxes s' = mboxes s.
Proof. unfold mlift, lift. destruct (m (sk (my s))) as [[a' k]|f]; [|done]. by intros [= _ <-]. Qed.

Lemma del_timer_waits t s a s' : mlift (ipc_del_timer t) s = Ok (a, s') -> waits (my s') = waits (my s) /\ mboxes s' = mboxes s.
Proof. destruct t; cbn [ipc_del_timer]; [apply lift_waits|]. unfold mlift, mret, M_ret. by intros [= _ <-]. Qed.

Lemma current_del_waits q w s a s' : mlift (wait_current_del q w) s = Ok (a, s') -> waits (my s') = waits (my s) /\ mboxes s' = mboxes s.
Proof.
  intros H. split; [|by apply mlift_frame in H as [? _]]. unfold mlift in H. destruct (wait_current_del q w (my s)) as [[a' k]|f] eqn:E; [|done].
  injection H as _ <-. cbn [my set_my]. unfold wait_current_del in E. apply bind_Ok in E as (bb & k1 & Eb & E).
  assert (k1 = my s) as ->.
  { unfold wait_in_queue, rd_wait, load, mbind, M_bind in Eb. destruct (waits (my s) !! w) as [x|]; [|done]. destruct (wqueue x); by injection Eb as _ <-. }
  destruct bb; [|by injection E as _ <-]. unfold wait_queue_del in E. rewrite bind_gets in E. apply bind_Ok in E as (x & k2 & Ex & E).
  unfold rd_wait, load in Ex. destruct (waits (my s) !! w); [|done]. injection Ex as -> <-. apply bind_Ok in E as (u & k3 & [_ ->]%kassert_Ok & E).
  apply bind_Ok in E as (l & k4 & El & E). unfold rd_wq, load in El. destruct (wqs (my s) !! q) eqn:Eq; [|done]. injection El as <- <-.
  unfold set_wq in E. rewrite Eq in E. by injection E as _ <-.
Qed.

(** What both [send_resume] and [recv_resume] begin with. *)
Lemma resume_frame {A} q timer w (k : unit -> M mst A) s r s' :
  (_ ← mlift (lift (spinlock_acquire MboxLock)); _ ← mlift (ipc_del_timer timer); mlift (wait_current_del q w) ≫= k) s = Ok (r, s') ->
  exists s1, k tt s1 = Ok (r, s') /\ waits (my s1) = waits (my s) /\ mboxes s1 = mboxes s.
Proof.
  intros (u1 & s1 & [F1 G1]%lift_waits & H)%bind_Ok. apply bind_Ok in H as (u2 & s2 & [F2 G2]%del_timer_waits & H).
  apply bind_Ok in H as ([] & s3 & [F3 G3]%current_del_waits & H). exists s3. split; [done|]. split; congruence.
Qed.

Lemma rd_wait_Ok w s wx s' : mlift (rd_wait w) s = Ok (wx, s') -> waits (my s) !! w = Some wx /\ s' = s.
Proof. unfold mlift, rd_wait, load. destruct (waits (my s) !! w); [|done]. intros [= -> <-]. by destruct s. Qed.

(** ** Runs of one box *)

(** [sent]: the messages senders were told are in the box, [received]: those
    handed to receivers, [returned]: those that could not be delivered and were
    put back, [late]: one of them when others had been handed out since. *)
Record mrun := Mrun { mst_of : mst; sent : list Z; received : list Z; returned : list Z; late : bool }.

Definition accepted (r : option Z) (m : Z) : list Z := if bool_decide (r = Some 0) then [m] else [].
Definition delivered (r : option (Z * option Z)) : list Z := match r with Some (_, Some m) => [m] | _ => [] end.

Inductive mbox_step (b : Z) : mrun -> mrun -> Prop :=
| mb_send g m timer w r s' : send_enter NCPU C senders receivers b m timer w (mst_of g) = Ok (r, s') ->
    mbox_step b g (Mrun s' (sent g ++ accepted r m) (received g) (returned g) (late g))
| mb_send_resume g m timer w wx r s' : waits (my (mst_of g)) !! w = Some wx -> wakeup_flags wx <> 0 ->
    send_resume NCPU C senders receivers b m timer w (mst_of g) = Ok (r, s') ->
    mbox_step b g (Mrun s' (sent g ++ accepted r m) (received g) (returned g) (late g))
| mb_recv g n timer w r s' : recv_enter NCPU C senders receivers b n timer w (mst_of g) = Ok (r, s') ->
    mbox_step b g (Mrun s' (sent g) (received g ++ delivered r) (returned g) (late g))
| mb_recv_resume g n timer w r s' : recv_resume NCPU C senders receivers b n timer w (mst_of g) = Ok (r, s') ->
    mbox_step b g (Mrun s' (sent g) (received g ++ delivered r) (returned g) (late g))
| mb_putback g m l1 l2 r s' : received g = l1 ++ m :: l2 -> get_mbox b (mst_of g) = Ok (Some b, mst_of g) ->
    recv_finish NCPU C receivers b m false (mst_of g) = Ok (r, s') ->
    mbox_step b g (Mrun s' (sent g) (l1 ++ l2) (m :: returned g) (late g || negb (bool_decide (l2 = []))))
| mb_free g r s' : ipc_mbox_free NCPU C senders receivers b (mst_of g) = Ok (r, s') ->
    mbox_step b g (Mrun s' (sent g) (received g) (returned g) (late g))
| mb_elsewhere g s' : mboxes s' !! b = mboxes (mst_of g) !! b -> mbox_step b g (Mrun s' (sent g) (received g) (returned g) (late g)).

Inductive mbox_steps (b : Z) : mrun -> mrun -> Prop :=
| mbs_refl g : mbox_steps b g g
| mbs_step g g1 g2 : mbox_steps b g g1 -> mbox_step b g1 g2 -> mbox_steps b g g2.

(** The queue against its history; the messages [P] were put back, late if [t]. *)
Record queue_ok (x : msg_mbox) (sn rc P : list Z) (t : bool) : Prop := {
  qo_all : rc ++ msg_link x ≡ₚ sn;
  qo_order : filter (fun m => m ∉ P) (rc ++ msg_link x) = filter (fun m => m ∉ P) sn;
  qo_fifo : t = false -> rc ++ msg_link x = sn;
  qo_max : 0 < max_slots x <= MAX_MSG_SLOTS;
  qo_slots : Z.of_nat (length P) < 2 ^ 31 -> slots x = Z.of_nat (length (msg_link x)) /\ slots x <= max_slots x + Z.of_nat (length P) }.

Definition mbox_inv (b : Z) (g : mrun) : Prop :=
  exists x, mboxes (mst_of g) !! b = Some x /\ (mstate x = OPENED -> queue_ok x (sent g) (received g) (returned g) (late g)).

Lemma queue_ok_same x x' sn rc P t : same_queue x x' -> queue_ok x sn rc P t -> queue_ok x' sn rc P t.
Proof. intros (_ & E1 & E2 & E3) [?????]. split; rewrite ?E1, ?E2, ?E3; done. Qed.

Lemma send_try_inv b m timer w s x sn rc P t r s' : mboxes s !! b = Some x -> (mstate x = OPENED -> queue_ok x sn rc P t) ->
  send_try NCPU C senders receivers b m timer w s = Ok (r, s') -> mbox_inv b (Mrun s' (sn ++ accepted r m) rc P t).
Proof.
  intros Hb Q E. apply (send_try_box b m timer w s x r s' Hb) in E. unfold mbox_inv. cbn [mst_of sent received returned late]. destruct r as [r|].
  - destruct E as (-> & Hlt & x' & Hx' & Ho & Ho' & E1 & E2 & E3). exists x'. rewrite Hx', lookup_insert_eq. split; [done|]. intros _.
    destruct (Q Ho) as [Ha Hd Hf Hm Hs]. unfold accepted. rewrite bool_decide_eq_true_2 by done. split; [| | |by rewrite E1|].
    + by rewrite E3, app_assoc, Ha.
    + by rewrite E3, app_assoc, !filter_app, <- Hd, filter_app.
    + intros Ht. by rewrite E3, app_assoc, Hf.
    + intros Hb31. destruct (Hs Hb31) as [Hl Hle]. rewrite E2, E3, E1, length_app. unfold MAX_MSG_SLOTS in *. cbn [length].
      rewrite (umod_small 32) by (unfold is_u; simpl; lia). lia.
  - destruct E as [E _]. exists x. rewrite E. split; [done|]. intros Ho. unfold accepted. rewrite bool_decide_eq_false_2 by done. rewrite app_nil_r. by apply Q.
Qed.

Lemma recv_try_inv b k timer w s x sn rc P t r s' : mboxes s !! b = Some x -> (mstate x = OPENED -> queue_ok x sn rc P t) ->
  recv_try NCPU C senders receivers b k timer w s = Ok (r, s') -> mbox_inv b (Mrun s' sn (rc ++ delivered r) P t).
Proof.
  intros Hb Q E. apply (recv_try_box b k timer w s x r s' Hb) in E. unfold mbox_inv. cbn [mst_of sent received returned late]. destruct r as [[r [m|]]|]; cbn [delivered].
  - destruct E as (-> & x' & l & Hx' & Ho & Ho' & E1 & E2 & Hpos & E3 & E4). exists x'. rewrite Hx', lookup_insert_eq. split; [done|]. intros _.
    destruct (Q Ho) as [Ha Hd Hf Hm Hs]. rewrite E3 in *. cbn [length] in Hs.
    split; [by rewrite E4, <- app_assoc|by rewrite E4, <- app_assoc|by rewrite E4, <- app_assoc|by rewrite E1|].
    intros Hb31. destruct (Hs Hb31) as [Hl Hle]. rewrite E2, E1, E4. lia.
  - destruct E as (_ & x' & Hx' & S). exists x'. rewrite Hx', lookup_insert_eq. split; [done|]. rewrite app_nil_r. intros Ho.
    apply (queue_ok_same x); [done|]. apply Q. destruct S as [S _]. congruence.
  - destruct E as [E _]. exists x. rewrite E, app_nil_r. done.
Qed.

Lemma leave_inv b ret s x sn rc P t r s' : mboxes s !! b = Some x -> (mstate x = OPENED -> queue_ok x sn rc P t) ->
  leave_box senders receivers b ret s = Ok (r, s') -> r = ret /\ mbox_inv b (Mrun s' sn rc P t).
Proof.
  intros Hb Q (-> & x' & Hx' & Hor)%(leave_box_any b ret s x r s' Hb). split; [done|]. exists x'. split; [done|]. cbn [sent received returned late].
  intros Ho. destruct Hor as [S|[_ ?]]; [|congruence]. apply (queue_ok_same x); [done|]. apply Q. destruct S as [S _]. congruence.
Qed.

(** Counting oneself in leaves the queue as it is. *)
Lemma enter_inv b s1 s x sn rc P t : mboxes s1 = mboxes s -> mboxes s !! b = Some x -> (mstate x = OPENED -> queue_ok x sn rc P t) ->
  exists x1 s2, upd_mbox b (fun x => with_inuse (s32 (inuse x + 1)) x) s1 = Ok (tt, s2) /\
    mboxes s2 !! b = Some x1 /\ (mstate x1 = OPENED -> queue_ok x1 sn rc P t).
Proof.
  intros F Hb Q. eexists _, _. split; [apply upd_mbox_spec; by rewrite F|]. cbn [mboxes set_mboxes]. split; [apply lookup_insert_eq|].
  intros Ho. by apply (queue_ok_same x); [|apply Q].
Qed.

Lemma get_mbox_Ok id s r s' : get_mbox id s = Ok (r, s') -> s' = s /\ forall b, r = Some b -> b = id /\ exists x, mboxes s !! b = Some x /\ mstate x = OPENED.
Proof.
  unfold get_mbox. destruct ((0 <=? id) && (id <? MAX_MBOX_NUM)); [|by intros [= <- <-]]. destruct (mbox_map s !! _) as [[]|]; [|by intros [= <- <-]|done].
  destruct (mboxes s !! id) as [x|] eqn:E; [|done]. destruct (decide (mstate x = OPENED)) as [Ho|]; intros [= <- <-]; (split; [done|]); [|done].
  intros b [= <-]. split; [done|]. by exists x.
Qed.

(** A message moved from among those received to the front of the queue. *)
Lemma moved_order (P l1 l2 q sn : list Z) m : filter (fun x => x ∉ P) ((l1 ++ m :: l2) ++ q) = filter (fun x => x ∉ P) sn ->
  filter (fun x => x ∉ m :: P) ((l1 ++ l2) ++ m :: q) = filter (fun x => x ∉ m :: P) sn.
Proof.
  intros E. assert (Hf : forall l : list Z, filter (fun x => x ∉ m :: P) l = filter (fun x => x <> m) (filter (fun x => x ∉ P) l)).
  { intros l. rewrite list_filter_filter. apply list_filter_iff. intros x. rewrite not_elem_of_cons. tauto. }
  rewrite (Hf sn), <- E, <- Hf, !filter_app, !filter_cons_False by (intros H; apply H; by left). done.
Qed.

Lemma putback_inv b m g l1 l2 r s' : mbox_inv b g -> received g = l1 ++ m :: l2 -> get_mbox b (mst_of g) = Ok (Some b, mst_of g) ->
  recv_finish NCPU C receivers b m false (mst_of g) = Ok (r, s') -> 
  mbox_inv b (Mrun s' (sent g) (l1 ++ l2) (m :: returned g) (late g || negb (bool_decide (l2 = [])))).
Proof.
  intros (x & Hb & Q) Hr Eg E. pose proof (get_mbox_Ok _ _ _ _ Eg) as [_ Ho]. destruct (Ho b eq_refl) as (_ & x0 & Hx0 & Ho').
  rewrite Hb in Hx0. injection Hx0 as <-. unfold recv_finish in E. rewrite (bind_step _ _ _ _ _ Eg) in E.
  apply bind_Ok in E as (u & s1 & E & [= <- <-]). unfold add_msg in E. rewrite (bind_step _ _ _ _ _ (rd_mbox_spec b x _ Hb)) in E.
  apply bind_Ok in E as (u2 & s3 & [_ ->]%kassert_Ok & E). rewrite (bind_step _ _ _ _ _ (upd_mbox_spec b _ x _ Hb)) in E.
  apply mlift_frame in E as [F _]. eexists. cbn [mst_of sent received returned late]. rewrite F. split; [apply lookup_insert_eq|]. intros _.
  destruct (Q Ho') as [Ha Hd Hf Hm Hs]. rewrite Hr in Ha, Hd, Hf. cbn [with_msgs]. split; cbn [msg_link max_slots slots]; [| | |done|].
  - rewrite <- Ha. solve_Permutation.
  - by apply moved_order.
  - intros [Ht Hl%negb_false_iff%bool_decide_eq_true]%orb_false_iff. subst l2. rewrite <- Hf by done. by rewrite app_nil_r, <- app_assoc.
  - cbn [length]. intros Hb31. destruct Hs as [Hl Hle]; [lia|]. unfold MAX_MSG_SLOTS in *. simpl. rewrite (umod_small 32) by (unfold is_u; simpl; lia). lia.
Qed.

Lemma free_msgs_boxes l : forall s u s', free_msgs l s = Ok (u, s') -> mboxes s' = mboxes s /\ my s' = my s /\ free_mbox_list s' = free_mbox_list s.
Proof.
  induction l as [|m l IH]; intros s u s'; cbn [free_msgs]; [by intros [= _ <-]|]. intros (u1 & s1 & H1 & H2)%bind_Ok.
  injection H1 as _ <-. by apply IH in H2.
Qed.

(** A box that is being freed is not open any more. *)
Lemma ipc_mbox_free_closed b s r s' x : mboxes s !! b = Some x -> ipc_mbox_free NCPU C senders receivers b s = Ok (r, s') ->
  exists x', mboxes s' !! b = Some x' /\ (x' = x \/ mstate x' <> OPENED).
Proof.
  intros Hb. unfold ipc_mbox_free. intros (ob & s1 & [-> Hg]%get_mbox_Ok & H)%bind_Ok. destruct ob as [b'|]; [|injection H as _ <-; exists x; auto].
  destruct (Hg b' eq_refl) as [-> _]. apply bind_Ok in H as (u1 & s1 & (F1 & _)%mlift_frame & H). rewrite <- F1 in Hb. clear F1.
  rewrite (bind_step _ _ _ _ _ (upd_mbox_spec b _ x _ Hb)) in H. set (s2 := set_mboxes _ s1) in H.
  assert (Hb2 : mboxes s2 !! b = Some (with_mstate CLOSING x)) by apply lookup_insert_eq.
  rewrite (bind_step _ _ _ _ _ (rd_mbox_spec b _ _ Hb2)) in H. apply bind_Ok in H as (u3 & s3 & (F3 & _)%free_msgs_boxes & H). rewrite <- F3 in Hb2.
  rewrite (bind_step _ _ _ _ _ (upd_mbox_spec b _ _ _ Hb2)) in H. set (s4 := set_mboxes _ s3) in H.
  assert (Hb4 : mboxes s4 !! b = Some (Mbox (inuse x) CLOSING (max_slots x) (slots x) [])) by apply lookup_insert_eq.
  apply bind_Ok in H as (u5 & s5 & (F5 & _)%mlift_frame & H). apply bind_Ok in H as (u6 & s6 & (F6 & _)%mlift_frame & H).
  assert (Hb6 : mboxes s6 !! b = Some (Mbox (inuse x) CLOSING (max_slots x) (slots x) [])) by congruence.
  apply bind_Ok in H as (u7 & s7 & H7 & H). apply bind_Ok in H as (u8 & s8 & (F8 & _)%mlift_frame & [= _ <-]). rewrite F8.
  destruct (inuse (with_mstate CLOSING x) =? 0).
  - rewrite (mbox_free_boxes b s6 _ u7 s7 Hb6 H7), lookup_insert_eq. eexists. split; [done|]. by right.
  - injection H7 as _ <-. eexists. split; [done|]. by right.
Qed.

Lemma mbox_step_inv b g g' : mbox_inv b g -> mbox_step b g g' -> mbox_inv b g'.
Proof.
  intros (x & Hb & Q) St. destruct St as [g m t w r s' E|g m t w wx r s' Hw Hwx E|g n t w r s' E|g n t w r s' E|g m l1 l2 r s' Hr Hg E|g r s' E|g s' E].
  - unfold send_enter in E. apply bind_Ok in E as (u & s1 & (F & _)%mlift_frame & E).
    destruct (enter_inv b s1 _ x _ _ _ _ F Hb Q) as (x1 & s2 & E2 & Hb2 & Q2). rewrite (bind_step _ _ _ _ _ E2) in E. by apply (send_try_inv b m t w s2 x1).
  - unfold send_resume in E. apply resume_frame in E as (s1 & E & Fw & Fb). rewrite <- Fb in Hb.
    rewrite (bind_step _ _ _ _ _ (rd_mbox_spec b x _ Hb)) in E. apply bind_Ok in E as (wx' & s2 & [Hwx' ->]%rd_wait_Ok & E).
    rewrite Fw, Hw in Hwx'. injection Hwx' as <-. destruct (bool_decide _ || _) in E; [|by apply (send_try_inv b m t w s1 x)].
    apply bind_Ok in E as (r1 & s3 & (-> & Hi)%(leave_inv b _ s1 x _ _ _ _ _ _ Hb Q) & [= <- <-]). unfold accepted.
    rewrite bool_decide_eq_false_2; [by rewrite app_nil_r|]. intros [= E0]. by destruct (wakeup_flags wx =? WT_MBOX_SEND).
  - unfold recv_enter in E. apply bind_Ok in E as (u & s1 & (F & _)%mlift_frame & E).
    destruct (enter_inv b s1 _ x _ _ _ _ F Hb Q) as (x1 & s2 & E2 & Hb2 & Q2). rewrite (bind_step _ _ _ _ _ E2) in E. by apply (recv_try_inv b n t w s2 x1).
  - unfold recv_resume in E. apply resume_frame in E as (s1 & E & Fw & Fb). rewrite <- Fb in Hb.
    rewrite (bind_step _ _ _ _ _ (rd_mbox_spec b x _ Hb)) in E. apply bind_Ok in E as (wx' & s2 & [_ ->]%rd_wait_Ok & E).
    destruct (bool_decide _ || _) in E; [|by apply (recv_try_inv b n t w s1 x)].
    apply bind_Ok in E as (r1 & s3 & (_ & Hi)%(leave_inv b _ s1 x _ _ _ _ _ _ Hb Q) & [= <- <-]). cbn [delivered]. by rewrite app_nil_r.
  - apply (putback_inv b m g l1 l2 r s'); [by exists x|done..].
  - destruct (ipc_mbox_free_closed b _ r s' x Hb E) as (x' & Hx' & Hor). exists x'. split; [done|]. intros Ho. destruct Hor as [->|]; [by apply Q|done].
  - exists x. by rewrite <- E in Hb.
Qed.
End boxes.

(** C21: a message box keeps its messages: for any mixture of sends and receives
    (blocking ones in their two halves, interrupted ones, a free at any moment)
    on a box opened with [max] slots, as long as it is open every message sent is
    received or queued, once.  A message that could not be delivered is put back
    in front of the queue, at any time and after others were received: the
    messages never put back are received in the order they were sent, and all
    of them are when each was put back before the next was taken.  The slot
    count is the length of the queue; it exceeds the bound at most by the number
    of messages that were put back. *)
Theorem mbox_fifo NCPU C senders receivers b s x g :
  mboxes s !! b = Some x -> slots x = 0 -> msg_link x = [] -> 0 < max_slots x <= MAX_MSG_SLOTS ->
  mbox_steps NCPU C senders receivers b (Mrun s [] [] [] false) g ->
  exists x', mboxes (mst_of g) !! b = Some x' /\ (mstate x' = OPENED ->
    received g ++ msg_link x' ≡ₚ sent g /\
    filter (fun m => m ∉ returned g) (received g ++ msg_link x') = filter (fun m => m ∉ returned g) (sent g) /\
    (late g = false -> received g ++ msg_link x' = sent g) /\
    (Z.of_nat (length (returned g)) < 2 ^ 31 ->
      slots x' = Z.of_nat (length (msg_link x')) /\ slots x' <= max_slots x' + Z.of_nat (length (returned g)))).
Proof.
  intros Hb Hs Hl Hm Hst. assert (H : mbox_inv b g).
  { remember (Mrun s [] [] [] false) as g0 eqn:E. induction Hst as [g|g g1 g2 _ IH St].
    - subst. exists x. split; [done|]. intros _. split; cbn [received sent returned late]; rewrite ?Hl, ?Hs; [done..|]. simpl. lia.
    - by apply (mbox_step_inv NCPU C senders receivers b g1); [apply IH|]. }
  destruct H as (x' & Hx' & Q). exists x'. split; [done|]. intros Ho. by destruct (Q Ho).
Qed.

(** ** Opening boxes *)

(** The free boxes exist, lie in mapped pages and are closed. *)
Definition free_ok (s : mst) : Prop :=
  forall i, i ∈ free_mbox_list s -> 0 <= i /\ mbox_map s !! Z.to_nat (i / MBOX_P_PAGE) = Some true /\
    exists x, mboxes s !! i = Some x.

Section opening.
Context (senders receivers : Z -> Z).

Lemma page_boxes_spec n : forall id s, exists s', page_boxes senders receivers n id s = Ok (tt, s') /\
  sk (my s') = sk (my s) /\ mbox_map s' = mbox_map s /\ free_mbox_list s' = free_mbox_list s ++ seqZ id (Z.of_nat n) /\
  (forall i, id <= i < id + Z.of_nat n -> mboxes s' !! i = Some (Mbox 0 CLOSED 0 0 [])).
Proof.
  induction n as [|n IH]; intros id s; cbn [page_boxes].
  - exists s. cbn. rewrite app_nil_r. split_and!; try done. lia.
  - set (s1 := set_mboxes (<[id := Mbox 0 CLOSED 0 0 []]> (mboxes s)) s).
    set (s2 := set_free (free_mbox_list s1 ++ [id]) (set_my (set_wqs (<[receivers id := []]> (<[senders id := []]> (wqs (my s1)))) (my s1)) s1)).
    assert (Hn : forall i, id + 1 <= i < id + 1 + Z.of_nat n \/ i = id <-> id <= i < id + Z.of_nat (S n)) by lia.
    destruct (IH (id + 1) s2) as (s' & E & F1 & F2 & F3 & F4). exists s'. split; [exact E|]. split_and!; [done|done| |].
    + rewrite F3. cbn [free_mbox_list s2 s1 set_free set_mboxes]. rewrite <- app_assoc. cbn [app].
      rewrite (seqZ_cons id) by lia. do 2 f_equal. f_equal; lia.
    + intros i [Hi| ->]%Hn; [by apply F4|]. clear -E. assert (H : forall m k t t', page_boxes senders receivers m k t = Ok (tt, t') -> id < k -> mboxes t' !! id = mboxes t !! id).
      { clear. induction m as [|m IH]; intros k t t'; cbn [page_boxes]; [by intros [= <-]|]. intros E Hk.
        apply IH in E; [|lia]. rewrite E. cbn [mboxes set_free set_my set_mboxes]. by rewrite lookup_insert_ne by lia. }
      rewrite (H _ _ _ _ E ltac:(lia)). apply lookup_insert_eq.
Qed.

Lemma p_page_pos : 0 < MBOX_P_PAGE.
Proof. reflexivity. Qed.

Lemma free_page_slot_lt l i : free_page_slot l = Some i -> (i < length l)%nat.
Proof.
  unfold free_page_slot. intros ([j c] & Ei & ->)%fmap_Some. apply list_find_Some in Ei as (Ei & _ & _). exact (lookup_lt_Some _ _ _ Ei).
Qed.

#[local] Opaque MBOX_P_PAGE.

Lemma grow_boxes_spec page_ok s : free_ok s ->
  exists go s', grow_boxes senders receivers page_ok s = Ok (go, s') /\ sk (my s') = sk (my s) /\ free_ok s' /\
    (go = true -> free_mbox_list s' <> []) /\
    (go = false <-> free_mbox_list s = [] /\ (free_page_slot (mbox_map s) = None \/ page_ok = false)).
Proof.
  intros F. unfold grow_boxes. rewrite bind_gets. destruct (free_mbox_list s) as [|b l] eqn:El.
  2:{ exists true, s. rewrite El. split_and!; try done. split; [done|by intros [? _]]. }
  rewrite bind_gets. destruct (free_page_slot (mbox_map s)) as [i|] eqn:Ei; [|exists false, s; split_and!; try done; split; [by split; [|left]|done]].
  destruct page_ok; [|exists false, s; split_and!; try done; split; [by split; [|right]|done]].
  set (s1 := set_mbox_map (<[i := true]> (mbox_map s)) s).
  destruct (page_boxes_spec (Z.to_nat MBOX_P_PAGE) (Z.of_nat i * MBOX_P_PAGE) s1) as (s' & E & F1 & F2 & F3 & F4).
  change (free_mbox_list s1) with (free_mbox_list s) in F3. rewrite El in F3. cbn [app] in F3.
  exists true, s'. split; [unfold mbind at 1, M_bind at 1, modify; cbn beta iota; fold s1; by mstep E|]. split; [done|].
  rewrite Z2Nat.id in F3, F4 by (pose proof p_page_pos; lia). pose proof p_page_pos as Hpos. split_and!.
  - intros k. rewrite F3. intros Hk%elem_of_seqZ. split; [nia|]. split; [|eexists; apply F4; exact Hk].
    replace (k / MBOX_P_PAGE) with (Z.of_nat i) by (apply (Z.div_unique _ _ _ (k - Z.of_nat i * MBOX_P_PAGE)); lia).
    rewrite Nat2Z.id, F2. cbn [mbox_map s1 set_mbox_map]. apply list_lookup_insert_eq. exact (free_page_slot_lt _ _ Ei).
  - intros _. rewrite F3, seqZ_cons by exact Hpos. discriminate.
  - split; [done|]. by intros (_ & [?|?]).
Qed.

Lemma take_box_spec max s : free_ok s -> free_mbox_list s <> [] ->
  exists b l x, free_mbox_list s = b :: l /\ mboxes s !! b = Some x /\
    take_box max s = Ok (Some b, set_mboxes (<[b := Mbox (inuse x) OPENED max (slots x) []]> (mboxes s)) (set_free l s)).
Proof.
  intros F Hne. unfold take_box. rewrite bind_gets. destruct (free_mbox_list s) as [|b l] eqn:El; [done|].
  destruct (F b) as (_ & _ & x & Hx); [rewrite El; left|]. exists b, l, x. split_and!; try done.
  unfold mbind at 1, M_bind at 1, modify. cbn beta iota.
  by mstep (upd_mbox_spec b (fun x => Mbox (inuse x) OPENED max (slots x) []) x (set_free l s) Hx).
Qed.
End opening.

#[local] Opaque MBOX_P_PAGE.

(** [new_mbox] always returns; it fails only when no box is free and no page
    can be added, and a box it hands out is found by [get_mbox] under its id
    exactly when the id is below [MAX_MBOX_NUM].  The last page of boxes reaches
    beyond that number, and a box from there can neither be used nor freed. *)
Theorem new_mbox_get senders receivers max page_ok s :
  free_ok s -> MboxLock ∉ locks (sk (my s)) ->
  exists r s', new_mbox senders receivers max page_ok s = Ok (r, s') /\
    (r = None <-> free_mbox_list s = [] /\ (free_page_slot (mbox_map s) = None \/ page_ok = false)) /\
    forall b, r = Some b -> get_mbox b s' = Ok (if b <? MAX_MBOX_NUM then Some b else None, s').
Proof.
  intros F Hl. unfold new_mbox. set (k1 := set_locks (MboxLock :: locks (sk (my s))) (sk (my s))). set (s1 := set_my (set_sk k1 (my s)) s).
  assert (E1 : mlift (lift (spinlock_acquire MboxLock)) s = Ok (tt, s1)) by (unfold mlift, lift; by rewrite acquire_spec). mstep E1.
  destruct (grow_boxes_spec senders receivers page_ok s1 F) as (go & s2 & E2 & K2 & F2 & Hgo & Hnone). mstep E2.
  assert (Hrel : forall t, sk (my t) = k1 -> exists t', mlift (lift (spinlock_release MboxLock)) t = Ok (tt, t') /\ mboxes t' = mboxes t /\ mbox_map t' = mbox_map t).
  { intros t Ht. unfold mlift, lift. rewrite (release_spec MboxLock (locks (sk (my s)))) by (rewrite ?Ht; done). by eexists. }
  destruct go.
  - destruct (take_box_spec max s2 F2 (Hgo eq_refl)) as (b & l & x & El & Hx & E3). mstep E3. set (s3 := set_mboxes _ _).
    destruct (Hrel s3) as (s4 & E4 & M4 & P4); [exact K2|]. mstep E4. exists (Some b), s4. split; [done|]. split.
    { split; [done|]. intros H. apply Hnone in H. done. }
    intros b' [= <-]. destruct (F2 b) as (Hb0 & Hbm & _); [rewrite El; left|]. unfold get_mbox. apply Z.leb_le in Hb0 as ->. cbn [andb].
    destruct (b <? MAX_MBOX_NUM); [|done]. rewrite P4. change (mbox_map s3) with (mbox_map s2). rewrite Hbm, M4.
    unfold s3. cbn [mboxes set_mboxes]. rewrite lookup_insert_eq. by rewrite decide_True by done.
  - rewrite (bind_step (mret None : M mst (option Z)) _ s2 None s2 eq_refl). destruct (Hrel s2) as (s4 & E4 & _); [exact K2|]. mstep E4.
    exists None, s4. split; [done|]. split; [|done]. split; [intros _; by apply Hnone|done].
Qed.

(** ** Sending and receiving without waiting *)

Section total.
Context (NCPU : Z) (C : sched_class) `{!SchedClass C} (senders receivers : Z -> Z).

(** The kernel outside [mbox_lock], box [b] being open and in order, the
    processes waiting in its queues ready to be woken. *)
Record mbox_ready (s : mst) (b : Z) (x : msg_mbox) : Prop := {
  mr_k : kinv NCPU (sk (my s));
  mr_w : winv (my s);
  mr_box : mboxes s !! b = Some x;
  mr_open : mstate x = OPENED;
  mr_inuse : 0 <= inuse x < 2 ^ 31 - 1;
  mr_snd : exists l, wqs (my s) !! senders b = Some l /\ all_wakeable NCPU (my s) l;
  mr_rcv : exists l, wqs (my s) !! receivers b = Some l /\ all_wakeable NCPU (my s) l }.

Lemma wakeup_first_total q flags l s : winv s -> sinv NCPU (sk s) -> wqs s !! q = Some l -> all_wakeable NCPU s l ->
  exists s', wakeup_first NCPU C q flags true s = Ok (tt, s') /\ locks (sk s') = locks (sk s).
Proof.
  intros W I Hq Ha. unfold wakeup_first.
  assert (E : wait_queue_first q s = Ok (head l, s)) by (unfold wait_queue_first; by mstep (rd_wq_spec q l s Hq)). mstep E.
  destruct l as [|w l]; cbn [head]; [by exists s|]. destruct (Ha w) as (x & Hx & Hwk); [left|].
  destruct (wakeup_wait_spec NCPU C s q _ w x flags W I Hq ltac:(left) Hx Hwk) as (k & E' & Wk & _). eexists. split; [exact E'|].
  by destruct (woken_frame _ _ _ Wk) as (_ & _ & ? & _).
Qed.

(** Inside [mbox_lock]: what the wake-up needs survives taking the lock. *)
Definition in_lock (s : mst) (bs : gmap Z msg_mbox) : mst :=
  set_mboxes bs (set_my (set_sk (set_locks [MboxLock] (sk (my s))) (my s)) s).

Lemma in_lock_wakeup s bs q flags l : kinv NCPU (sk (my s)) -> winv (my s) -> wqs (my s) !! q = Some l -> all_wakeable NCPU (my s) l ->
  exists s', mlift (wakeup_first NCPU C q flags true) (in_lock s bs) = Ok (tt, s') /\ locks (sk (my s')) = [MboxLock] /\ mboxes s' = bs.
Proof.
  intros K W Hq Ha. destruct (wakeup_first_total q flags l (my (in_lock s bs)) W (kinv_locked NCPU _ _ K) Hq Ha) as (k & E & L).
  unfold mlift. rewrite E. by eexists.
Qed.

Lemma enter_lock s b x : mbox_ready s b x ->
  mlift (lift (spinlock_acquire MboxLock)) s = Ok (tt, in_lock s (mboxes s)).
Proof. intros [(_ & Hl & _) _ _ _ _ _ _]. unfold mlift, lift. rewrite acquire_spec by (rewrite Hl; apply not_elem_of_nil). by rewrite Hl. Qed.

Lemma leave_box_total s b x ret : mboxes s !! b = Some x -> mstate x = OPENED -> locks (sk (my s)) = [MboxLock] ->
  exists s', leave_box senders receivers b ret s = Ok (ret, s') /\ mboxes s' = <[b := with_inuse (s32 (inuse x - 1)) x]> (mboxes s) /\ locks (sk (my s')) = [].
Proof.
  intros Hb Ho Hl. unfold leave_box. mstep (upd_mbox_spec b (fun x => with_inuse (s32 (inuse x - 1)) x) x s Hb). set (s1 := set_mboxes _ s).
  assert (Hb1 : mboxes s1 !! b = Some (with_inuse (s32 (inuse x - 1)) x)) by apply lookup_insert_eq. mstep (rd_mbox_spec b _ s1 Hb1).
  rewrite bool_decide_eq_false_2 by (cbn; tauto). rewrite (bind_step (mret tt : M mst unit) _ s1 tt s1 eq_refl).
  assert (E : mlift (lift (spinlock_release MboxLock)) s1 = Ok (tt, set_my (set_sk (set_locks [] (sk (my s))) (my s)) s1)).
  { unfold mlift, lift. rewrite (release_spec MboxLock [] (sk (my s1)) Hl) by apply not_elem_of_nil. done. }
  mstep E. eexists. split; [reflexivity|]. done.
Qed.

Lemma send_room s b x m timer w : mbox_ready s b x -> slots x < max_slots x ->
  exists s', send_enter NCPU C senders receivers b m timer w s = Ok (Some 0, s') /\
    mboxes s' = <[b := with_msgs (u32 (slots x + 1)) (msg_link x ++ [m]) x]> (mboxes s) /\ locks (sk (my s')) = [].
Proof.
  intros R Hr. unfold send_enter. mstep (enter_lock s b x R). destruct R as [K W Hb Ho Hi _ (l & Hq & Ha)].
  mstep (upd_mbox_spec b (fun x => with_inuse (s32 (inuse x + 1)) x) x (in_lock s (mboxes s)) Hb).
  rewrite (smod_small 32) by (unfold is_s; simpl in *; lia). set (x1 := with_inuse _ x).
  change (set_mboxes _ (in_lock s (mboxes s))) with (in_lock s (<[b := x1]> (mboxes s))). set (bs := <[b := x1]> (mboxes s)).
  assert (Hb1 : mboxes (in_lock s bs) !! b = Some x1) by apply lookup_insert_eq. unfold send_try. mstep (rd_mbox_spec b x1 _ Hb1).
  destruct (Z.leb_spec (max_slots x1) (slots x1)) as [?|Hlt]; [cbn in *; lia|].
  massert; [|rewrite bool_decide_eq_true_2 by done; cbn [andb]; by apply Z.ltb_lt].
  assert (Ea : exists s2, add_msg NCPU C receivers b m true (in_lock s bs) = Ok (tt, s2) /\ locks (sk (my s2)) = [MboxLock] /\
    mboxes s2 = <[b := with_msgs (u32 (slots x + 1)) (msg_link x ++ [m]) x1]> bs).
  { unfold add_msg. mstep (rd_mbox_spec b x1 _ Hb1). massert; [|by apply bool_decide_eq_true_2].
    rewrite (bind_step _ _ _ _ _ (upd_mbox_spec b _ x1 _ Hb1)). by apply (in_lock_wakeup s _ _ _ l). }
  destruct Ea as (s2 & E2 & L2 & M2). mstep E2.
  destruct (leave_box_total s2 b (with_msgs (u32 (slots x + 1)) (msg_link x ++ [m]) x1) 0) as (s3 & E3 & M3 & L3); [rewrite M2; apply lookup_insert_eq|done|done|].
  mstep E3. exists s3. split; [done|]. split; [|done]. rewrite M3, M2. unfold bs. rewrite !insert_insert_eq. f_equal.
  unfold x1, with_inuse, with_msgs. cbn [inuse mstate max_slots]. f_equal. rewrite (smod_small 32) by (unfold is_s; simpl in *; lia). lia.
Qed.

Lemma recv_first s b x m l mm n timer w : mbox_ready s b x -> 0 < slots x -> msg_link x = m :: l -> msgs s !! m = Some mm -> bytes mm <= n ->
  exists s', recv_enter NCPU C senders receivers b n timer w s = Ok (Some (0, Some m), s') /\
    mboxes s' = <[b := with_msgs (slots x - 1) l x]> (mboxes s) /\ locks (sk (my s')) = [].
Proof.
  intros R Hpos Hml Hm Hn. unfold recv_enter. mstep (enter_lock s b x R). destruct R as [K W Hb Ho Hi (sl & Hq & Ha) _].
  mstep (upd_mbox_spec b (fun x => with_inuse (s32 (inuse x + 1)) x) x (in_lock s (mboxes s)) Hb).
  rewrite (smod_small 32) by (unfold is_s; simpl in *; lia). set (x1 := with_inuse _ x).
  change (set_mboxes _ (in_lock s (mboxes s))) with (in_lock s (<[b := x1]> (mboxes s))). set (bs := <[b := x1]> (mboxes s)).
  assert (Hb1 : mboxes (in_lock s bs) !! b = Some x1) by apply lookup_insert_eq. unfold recv_try. mstep (rd_mbox_spec b x1 _ Hb1).
  change (slots x1) with (slots x). destruct (Z.eqb_spec (slots x) 0) as [?|_]; [lia|].
  assert (Hok : bool_decide (mstate x1 = OPENED) && (0 <? slots x) = true) by (rewrite bool_decide_eq_true_2 by done; by apply Z.ltb_lt).
  massert; [|done]. massert; [|change (msg_link x1) with (msg_link x); rewrite Hml; by rewrite bool_decide_eq_false_2].
  assert (Ep : exists s2, pick_msg NCPU C senders b n (in_lock s bs) = Ok ((0, Some m), s2) /\ locks (sk (my s2)) = [MboxLock] /\
    mboxes s2 = <[b := with_msgs (slots x - 1) l x1]> bs).
  { unfold pick_msg. mstep (rd_mbox_spec b x1 _ Hb1). massert; [|done]. change (msg_link x1) with (msg_link x). rewrite Hml.
    mstep (rd_msg_spec m mm (in_lock s bs) Hm). destruct (Z.ltb_spec n (bytes mm)); [lia|].
    rewrite (bind_step _ _ _ _ _ (upd_mbox_spec b _ x1 _ Hb1)).
    destruct (in_lock_wakeup s (<[b := with_msgs (slots x - 1) l x1]> bs) (senders b) WT_MBOX_SEND sl K W Hq Ha) as (s2 & E2 & L2 & M2).
    rewrite (bind_step _ _ _ _ _ E2). by exists s2. }
  destruct Ep as (s2 & E2 & L2 & M2). mstep E2. cbn [Z.eqb negb]. rewrite (bind_step (mret tt : M mst unit) _ s2 tt s2 eq_refl).
  destruct (leave_box_total s2 b (with_msgs (slots x - 1) l x1) 0) as (s3 & E3 & M3 & L3); [rewrite M2; apply lookup_insert_eq|done|done|].
  mstep E3. exists s3. split; [done|]. split; [|done]. rewrite M3, M2. unfold bs. rewrite !insert_insert_eq. f_equal.
  unfold x1, with_inuse, with_msgs. cbn [inuse mstate max_slots]. f_equal. rewrite (smod_small 32) by (unfold is_s; simpl in *; lia). lia.
Qed.
End total.

(** On an open box nobody waits without need: a send that finds room puts
    its message at the end and returns 0 at once, a receive whose buffer is
    large enough for the first message takes it and returns 0 at once; no
    assertion fails, the counters stay exact, and [mbox_lock] is free again. *)
Theorem mbox_no_wait NCPU C `{!SchedClass C} senders receivers s b x timer w :
  mbox_ready NCPU senders receivers s b x ->
  (forall m, slots x < max_slots x -> exists s', send_enter NCPU C senders receivers b m timer w s = Ok (Some 0, s') /\
     mboxes s' = <[b := with_msgs (u32 (slots x + 1)) (msg_link x ++ [m]) x]> (mboxes s) /\ locks (sk (my s')) = []) /\
  (forall n m l mm, 0 < slots x -> msg_link x = m :: l -> msgs s !! m = Some mm -> bytes mm <= n ->
     exists s', recv_enter NCPU C senders receivers b n timer w s = Ok (Some (0, Some m), s') /\
       mboxes s' = <[b := with_msgs (slots x - 1) l x]> (mboxes s) /\ locks (sk (my s')) = []).
Proof.
  intros R. split.
  - intros m Hr. by apply send_room.
  - intros n m l mm Hp Hl Hm Hn. by apply (recv_first _ _ _ _ _ _ _ m l mm).
Qed.

#[local] Transparent MBOX_P_PAGE.

(** ** A concrete box: number 5, two slots, one message; process 4 waits to receive *)

Definition ex_snd (b : Z) : Z := 1000 + 2 * b.
Definition ex_rcv (b : Z) : Z := 1001 + 2 * b.
Definition ex_msync : sync := Sync ex_sched {[ 100 := Wait 4 0 (Some 1011) ]} {[ 1010 := []; 1011 := [100] ]} ∅ ∅ ∅ ∅ 0.
Definition ex_box (n : Z) (l : list Z) : msg_mbox := Mbox 0 OPENED 2 n l.
Definition ex_mst (n : Z) (l : list Z) : mst := Mst ex_msync {[ 5 := ex_box n l ]} (replicate 106 true) [] {[ 70 := Msg 1 2 [[7; 8]] ]}.

Lemma ex_mbox_ready n l : mbox_ready 1 ex_snd ex_rcv (ex_mst n l) 5 (ex_box n l).
Proof.
  split; cbn [my ex_mst ex_msync sk wqs mboxes inuse mstate ex_box].
  - exact ex_sched_kinv.
  - intros q l'. cbn [wqs waits ex_msync]. intros [[<- <-]|[_ [<- <-]%lookup_singleton_Some]]%lookup_insert_Some;
      (split; [by apply (bool_decide_unpack _)|]); intros w Hw; [by apply not_elem_of_nil in Hw|].
    apply list_elem_of_singleton in Hw as ->. by eexists.
  - reflexivity.
  - reflexivity.
  - lia.
  - exists []. split; [reflexivity|]. by intros w ?%not_elem_of_nil.
  - exists [100]. split; [reflexivity|]. intros w ->%list_elem_of_singleton. eexists. split; [reflexivity|exact ex_sched_wakeable].
Qed.

Lemma mbox_no_wait_witness : exists s', recv_enter 1 RR_sched_class ex_snd ex_rcv 5 10 None 100 (ex_mst 1 [70]) = Ok (Some (0, Some 70), s') /\
  mboxes s' = <[5 := with_msgs 0 [] (ex_box 1 [70])]> (mboxes (ex_mst 1 [70])) /\ locks (sk (my s')) = [].
Proof.
  destruct (mbox_no_wait 1 RR_sched_class ex_snd ex_rcv (ex_mst 1 [70]) 5 (ex_box 1 [70]) None 100 (ex_mbox_ready 1 [70])) as [_ H].
  exact (H 10 70 [] (Msg 1 2 [[7; 8]]) eq_refl eq_refl eq_refl ltac:(vm_compute; discriminate)).
Defined.

Definition ex_mst1 : mst := match send_enter 1 RR_sched_class ex_snd ex_rcv 5 70 None 101 (ex_mst 0 []) with Ok (_, s) => s | Err _ => ex_mst 0 [] end.
Lemma ex_mbox_send : send_enter 1 RR_sched_class ex_snd ex_rcv 5 70 None 101 (ex_mst 0 []) = Ok (Some 0, ex_mst1).
Proof. vm_compute. reflexivity. Qed.

Lemma mbox_fifo_witness : exists x', mboxes ex_mst1 !! 5 = Some x' /\ (mstate x' = OPENED -> msg_link x' = [70] /\ slots x' = 1).
Proof.
  destruct (mbox_fifo 1 RR_sched_class ex_snd ex_rcv 5 (ex_mst 0 []) (ex_box 0 []) (Mrun ex_mst1 [70] [] [] false) eq_refl eq_refl eq_refl) as (x' & Hx' & H).
  - split; [reflexivity|vm_compute; discriminate].
  - apply (mbs_step 1 RR_sched_class ex_snd ex_rcv 5 _ (Mrun (ex_mst 0 []) [] [] [] false)); [apply mbs_refl|].
    exact (mb_send 1 RR_sched_class ex_snd ex_rcv 5 (Mrun (ex_mst 0 []) [] [] [] false) 70 None 101 (Some 0) ex_mst1 ex_mbox_send).
  - exists x'. split; [exact Hx'|]. intros Ho. destruct (H Ho) as (_ & _ & Hf & Hs). specialize (Hf eq_refl). cbn [received sent app mst_of] in Hf.
    split; [exact Hf|]. destruct (Hs eq_refl) as [-> _]. by rewrite Hf.
Defined.

(** Box 8192 of the last page: handed out, never found. *)
Definition ex_mst_last : mst := Mst ex_msync {[ 8192 := Mbox 0 CLOSED 0 0 [] ]} (replicate 106 true) [8192] ∅.

Lemma new_mbox_get_witness : exists r s', new_mbox ex_snd ex_rcv 2 true ex_mst_last = Ok (r, s') /\
  (r = None <-> free_mbox_list ex_mst_last = [] /\ (free_page_slot (mbox_map ex_mst_last) = None \/ true = false)) /\
  forall b, r = Some b -> get_mbox b s' = Ok (if b <? MAX_MBOX_NUM then Some b else None, s').
Proof.
  apply (new_mbox_get ex_snd ex_rcv 2 true ex_mst_last).
  - intros i ->%list_elem_of_singleton. split; [lia|]. split; [vm_compute; reflexivity|]. by eexists.
  - apply not_elem_of_nil.
Defined.

Lemma msg_roundtrip_witness : exists msg, load_msg 3 (replicate 1000 65) [true; true; true] = Some msg /\
  store_msg msg = Some (replicate 1000 65) /\ bytes msg = 1000 /\ mpid msg = 3.
Proof.
  eexists. split; [reflexivity|]. exact (msg_roundtrip 3 (replicate 1000 65) [true; true; true] _ eq_refl).
Defined.
