(* ===== verification/Proc.v ===== *)
(** * Proc: the process table (process/proc.c, arch/soc/process/proc.c)

    Process ids, the hash of processes, the family links (parent, children,
    siblings), thread groups, and the life cycle: fork, exit, wait, kill, sleep.
    The scheduling part of a process is in [Sched]; here are the remaining
    fields.  What fork copies for the child (stack, semaphores, files, signals,
    memory) is kept as a ledger of resources. *)

From stdpp Require Import numbers gmap list.
From S2P Require Import Prelude Arith Sched Timer Wait Sem.
Local Open Scope Z_scope.

(** ** Data *)

Definition MAX_PROCESS : Z := 4096.
Definition MAX_PID : Z := MAX_PROCESS * 2.
Definition HASH_SHIFT : Z := 10.
Definition HASH_LIST_SIZE : Z := Z.shiftl 1 HASH_SHIFT.
Definition PF_EXITING : Z := 1.
Definition WT_CHILD : Z := Z.lor 1 WT_INTERRUPTED.
Definition WT_TIMER : Z := Z.lor 2 WT_INTERRUPTED.
Definition CLONE_THREAD : Z := 0x10000.
Definition CLONE_PINCPU : Z := 0x4000000.   (* [__CLONE_PINCPU] *)
Definition E_BAD_PROC : Z := 3.
Definition E_NO_FREE_PROC : Z := E_BUSY.

(** [thread_prev] is the other direction of the ring [thread_next]. *)
Record plink := Plink {
  parent : option Z; cptr : option Z; yptr : option Z; optr : option Z; exit_code : Z; thread_prev : Z; gid : Z }.

(** What a process holds, in the order in which [do_fork] acquires it. *)
Inductive resource := KStack | SemQ | FsStruct | Signal | Sighand | MmStruct.

#[export] Instance resource_eq_dec : EqDecision resource.
Proof. solve_decision. Defined.

Record ptable := Ptable {
  ks : sync;
  links : gmap Z plink;
  proc_list : list Z;
  hash_list : gmap Z (list Z);
  nr_process : Z;
  next_safe : Z;
  last_pid : Z;
  initproc : Z;
  ledger : gmap Z (list resource) }.

Definition set_ks (x : sync) (s : ptable) : ptable :=
  Ptable x (links s) (proc_list s) (hash_list s) (nr_process s) (next_safe s) (last_pid s) (initproc s) (ledger s).
Definition set_links_ (x : gmap Z plink) (s : ptable) : ptable :=
  Ptable (ks s) x (proc_list s) (hash_list s) (nr_process s) (next_safe s) (last_pid s) (initproc s) (ledger s).
Definition set_proc_list (x : list Z) (s : ptable) : ptable :=
  Ptable (ks s) (links s) x (hash_list s) (nr_process s) (next_safe s) (last_pid s) (initproc s) (ledger s).
Definition set_hash (x : gmap Z (list Z)) (s : ptable) : ptable :=
  Ptable (ks s) (links s) (proc_list s) x (nr_process s) (next_safe s) (last_pid s) (initproc s) (ledger s).
Definition set_nr (x : Z) (s : ptable) : ptable :=
  Ptable (ks s) (links s) (proc_list s) (hash_list s) x (next_safe s) (last_pid s) (initproc s) (ledger s).
Definition set_pids (ns lp : Z) (s : ptable) : ptable :=
  Ptable (ks s) (links s) (proc_list s) (hash_list s) (nr_process s) ns lp (initproc s) (ledger s).
Definition set_ledger (x : gmap Z (list resource)) (s : ptable) : ptable :=
  Ptable (ks s) (links s) (proc_list s) (hash_list s) (nr_process s) (next_safe s) (last_pid s) (initproc s) x.

Definition with_parent (v : option Z) (x : plink) : plink := Plink v (cptr x) (yptr x) (optr x) (exit_code x) (thread_prev x) (gid x).
Definition with_cptr (v : option Z) (x : plink) : plink := Plink (parent x) v (yptr x) (optr x) (exit_code x) (thread_prev x) (gid x).
Definition with_yptr (v : option Z) (x : plink) : plink := Plink (parent x) (cptr x) v (optr x) (exit_code x) (thread_prev x) (gid x).
Definition with_optr (v : option Z) (x : plink) : plink := Plink (parent x) (cptr x) (yptr x) v (exit_code x) (thread_prev x) (gid x).
Definition with_code (v : Z) (x : plink) : plink := Plink (parent x) (cptr x) (yptr x) (optr x) v (thread_prev x) (gid x).
Definition with_tprev (v : Z) (x : plink) : plink := Plink (parent x) (cptr x) (yptr x) (optr x) (exit_code x) v (gid x).
Definition with_gid (v : Z) (x : plink) : plink := Plink (parent x) (cptr x) (yptr x) (optr x) (exit_code x) (thread_prev x) v.

Definition with_tnext (v : Z) (p : proc) : proc :=
  Proc (state p) (pid p) (runs p) (need_resched p) (pflags p) (wait_state p) (rq p) (time_slice p) (cpu_affinity p) v.
Definition with_pid (v : Z) (p : proc) : proc :=
  Proc (state p) v (runs p) (need_resched p) (pflags p) (wait_state p) (rq p) (time_slice p) (cpu_affinity p) (thread_next p).
Definition with_flags (v : Z) (p : proc) : proc :=
  Proc (state p) (pid p) (runs p) (need_resched p) v (wait_state p) (rq p) (time_slice p) (cpu_affinity p) (thread_next p).

Definition psync {A} (m : M sync A) : M ptable A := fun s =>
  match m (ks s) with Ok (a, k) => Ok (a, set_ks k s) | Err f => Err f end.
Definition psched {A} (m : M sched A) : M ptable A := psync (lift m).

Definition rd_link (p : Z) : M ptable plink := load (fun s => links s !! p).
Definition upd_link (p : Z) (f : plink -> plink) : M ptable unit := fun s =>
  match links s !! p with Some x => Ok (tt, set_links_ (<[p := f x]> (links s)) s) | None => Err BadAccess end.

(** [p->field = v] through a pointer that may be [NULL]. *)
Definition upd_opt (p : option Z) (f : plink -> plink) : M ptable unit :=
  match p with Some p => upd_link p f | None => fail BadAccess end.

(** ** Process ids *)

(** The inner loop of [get_pid] over the pids of [proc_list]: whether to
    [repeat], [last_pid] and [next_safe]. *)
Fixpoint pid_scan (pids : list Z) (last next : Z) : bool * (Z * Z) :=
  match pids with
  | [] => (false, (last, next))
  | p :: pids' =>
      if p =? last then
        if next <=? last + 1 then (true, ((if MAX_PID <=? last + 1 then 1 else last + 1), MAX_PID))
        else pid_scan pids' (last + 1) next
      else if (last <? p) && (p <? next) then pid_scan pids' last p
      else pid_scan pids' last next
  end.

Fixpoint pid_repeat (fuel : nat) (pids : list Z) (last next : Z) : outcome (Z * Z) :=
  match fuel with
  | O => Err OutOfFuel
  | S fuel' =>
      let '(again, (last', next')) := pid_scan pids last next in
      if again then pid_repeat fuel' pids last' next' else Ok (last', next')
  end.

Fixpoint pids_of (l : list Z) : M ptable (list Z) :=
  match l with
  | [] => mret []
  | p :: l' => pr ← psched (rd_proc p); rest ← pids_of l'; mret (pid pr :: rest)
  end.

Definition get_pid (NCPU : Z) : M ptable Z :=
  l ← gets proc_list;
  pids ← pids_of l;
  s ← get;
  let last := last_pid s + 1 in
  let start := if MAX_PID <=? last then Some NCPU else if next_safe s <=? last then Some last else None in
  match start with
  | Some last' =>
      match pid_repeat (Z.to_nat (2 * MAX_PID)) pids last' MAX_PID with
      | Ok (lp, ns) => _ ← modify (set_pids ns lp); mret lp
      | Err f => fail f
      end
  | None => _ ← modify (set_pids (next_safe s) last); mret last
  end.

(** ** The hash of processes *)

Definition lift_o {A} (o : outcome A) : M ptable A := fun s => match o with Ok a => Ok (a, s) | Err f => Err f end.
Definition pid_hashfn (x : Z) : M ptable Z := lift_o (hash32 x HASH_SHIFT).
Definition rd_chain (h : Z) : M ptable (list Z) := load (fun s => hash_list s !! h).

Definition hash_proc (p : Z) : M ptable unit :=
  pr ← psched (rd_proc p);
  h ← pid_hashfn (pid pr);
  l ← rd_chain h;
  modify (fun s => set_hash (<[h := p :: l]> (hash_list s)) s).

Definition unhash_proc (p : Z) : M ptable unit :=
  modify (fun s => set_hash (filter (fun q => q <> p) <$> hash_list s) s).

Fixpoint chain_find (l : list Z) (n : Z) : M ptable (option Z) :=
  match l with
  | [] => mret None
  | p :: l' => pr ← psched (rd_proc p); if pid pr =? n then mret (Some p) else chain_find l' n
  end.
Definition find_proc (n : Z) : M ptable (option Z) :=
  _ ← psched (spinlock_acquire ProcTableLock);
  r ← (if (0 <? n) && (n <? MAX_PID) then h ← pid_hashfn n; l ← rd_chain h; chain_find l n else mret None);
  _ ← psched (spinlock_release ProcTableLock);
  mret r.

(** ** Family links *)

Definition set_links (p : Z) : M ptable unit :=
  _ ← modify (fun s => set_proc_list (p :: proc_list s) s);
  _ ← upd_link p (with_yptr None);
  x ← rd_link p;
  match parent x with
  | None => fail BadAccess
  | Some pp =>
      y ← rd_link pp;
      _ ← upd_link p (with_optr (cptr y));
      _ ← match cptr y with Some o => upd_link o (with_yptr (Some p)) | None => mret tt end;
      _ ← upd_link pp (with_cptr (Some p));
      modify (fun s => set_nr (s32 (nr_process s + 1)) s)
  end.

Definition remove_links (p : Z) : M ptable unit :=
  _ ← modify (fun s => set_proc_list (filter (fun q => q <> p) (proc_list s)) s);
  x ← rd_link p;
  _ ← match optr x with Some o => upd_link o (with_yptr (yptr x)) | None => mret tt end;
  _ ← match yptr x with
      | Some y => upd_link y (with_optr (optr x))
      | None => upd_opt (parent x) (with_cptr (optr x))
      end;
  modify (fun s => set_nr (s32 (nr_process s - 1)) s).

(** ** Thread groups *)

Definition next_thread (p : Z) : M ptable Z := pr ← psched (rd_proc p); mret (thread_next pr).

(** [list_init(&proc->thread_group)]. *)
Definition thread_init (p : Z) : M ptable unit :=
  _ ← psched (upd_proc p (with_tnext p)); upd_link p (with_tprev p).

(** The architecture's hook is empty on the SoC. *)
Definition de_thread (p : Z) : M ptable unit :=
  n ← next_thread p;
  if n =? p then mret tt
  else
    x ← rd_link p;
    _ ← psched (upd_proc (thread_prev x) (with_tnext n));
    _ ← upd_link n (with_tprev (thread_prev x));
    thread_init p.

(** [list_add_before(&cur->thread_group, &p->thread_group)]. *)
Definition join_group (cur p : Z) : M ptable unit :=
  x ← rd_link cur;
  _ ← upd_link cur (with_tprev p);
  _ ← psched (upd_proc (thread_prev x) (with_tnext p));
  _ ← psched (upd_proc p (with_tnext cur));
  upd_link p (with_tprev (thread_prev x)).

Section proc.
Context (NCPU : Z) (C : sched_class) (event_queue : Z -> Z).

(** ** Killing *)

Definition __do_kill (p error_code : Z) : M ptable Z :=
  pr ← psched (rd_proc p);
  if Z.land (pflags pr) PF_EXITING =? 0 then
    _ ← psched (upd_proc p (with_flags (Z.lor (pflags pr) PF_EXITING)));
    _ ← upd_link p (with_code error_code);
    _ ← (if negb (Z.land (wait_state pr) WT_INTERRUPTED =? 0) then psched (wakeup_proc NCPU C p) else mret tt);
    mret 0
  else mret (- E_KILLED).

Definition do_kill (n error_code : Z) : M ptable Z :=
  p ← find_proc n;
  match p with Some p => __do_kill p error_code | None => mret (- E_INVAL) end.

(** ** Exit *)

(** The [do ... while] over the parent's threads. *)
Fixpoint wake_waiters (fuel : nat) (p first : Z) : M ptable unit :=
  match fuel with
  | O => fail OutOfFuel
  | S fuel' =>
      pr ← psched (rd_proc p);
      _ ← (if wait_state pr =? WT_CHILD then psched (wakeup_proc NCPU C p) else mret tt);
      n ← next_thread p;
      if n =? first then mret tt else wake_waiters fuel' n first
  end.

(** The [while] that hands the children of [cur] to [pp]. *)
Fixpoint reparent (fuel : nat) (cur pp : Z) : M ptable unit :=
  match fuel with
  | O => fail OutOfFuel
  | S fuel' =>
      x ← rd_link cur;
      match cptr x with
      | None => mret tt
      | Some p =>
          y ← rd_link p;
          _ ← upd_link cur (with_cptr (optr y));
          _ ← upd_link p (with_yptr None);
          z ← rd_link pp;
          _ ← upd_link p (with_optr (cptr z));
          _ ← match cptr z with Some o => upd_link o (with_yptr (Some p)) | None => mret tt end;
          _ ← upd_link p (with_parent (Some pp));
          _ ← upd_link pp (with_cptr (Some p));
          pr ← psched (rd_proc p);
          _ ← (if bool_decide (state pr = PROC_ZOMBIE) then
                 ppr ← psched (rd_proc pp);
                 if wait_state ppr =? WT_CHILD then psched (wakeup_proc NCPU C pp) else mret tt
               else mret tt);
          reparent fuel' cur pp
      end
  end.

Definition nprocs : M ptable nat := gets (fun s => size (links s)).

(** [__do_exit] up to [schedule]; the process does not run again. *)
Definition __do_exit : M ptable unit :=
  cur ← psched current;
  idl ← psched idleproc;
  ini ← gets initproc;
  _ ← kassert (negb (cur =? idl));
  _ ← kassert (negb (cur =? ini));
  _ ← modify (fun s => set_ledger (<[cur := filter (fun r => r = KStack) (default [] (ledger s !! cur))]> (ledger s)) s);
  _ ← psched (upd_proc cur (with_state PROC_ZOMBIE));
  x ← rd_link cur;
  _ ← match parent x with
      | None => fail BadAccess
      | Some pp => n ← nprocs; wake_waiters (S n) pp pp
      end;
  nt ← next_thread cur;
  let pp := if nt =? cur then ini else nt in
  _ ← de_thread cur;
  n ← nprocs;
  _ ← reparent (S n) cur pp;
  psync (wakeup_queue NCPU C (event_queue cur) WT_INTERRUPTED true).

Definition do_exit_thread (error_code : Z) : M ptable unit :=
  cur ← psched current;
  _ ← upd_link cur (with_code error_code);
  _ ← __do_exit;
  _ ← psched (schedule NCPU C);
  mret tt.

Fixpoint kill_group (fuel : nat) (p first error_code : Z) : M ptable unit :=
  match fuel with
  | O => fail OutOfFuel
  | S fuel' =>
      n ← next_thread p;
      if n =? first then mret tt
      else _ ← __do_kill n error_code; kill_group fuel' n first error_code
  end.
Definition do_exit (error_code : Z) : M ptable unit :=
  cur ← psched current;
  n ← nprocs;
  _ ← kill_group (S n) cur cur error_code;
  do_exit_thread error_code.

(** [may_killed]: whether the process exits here. *)
Definition may_killed : M ptable bool :=
  cur ← psched current;
  pr ← psched (rd_proc cur);
  if negb (Z.land (pflags pr) PF_EXITING =? 0) then _ ← __do_exit; _ ← psched (schedule NCPU C); mret true
  else mret false.

(** ** Waiting for a child *)

Inductive looked := Found (p : Z) | HasKid | NoKid.

#[export] Instance looked_eq_dec : EqDecision looked.
Proof. solve_decision. Defined.

(** [pid != 0]: is the process a child of one of the group's threads? *)
Fixpoint wait_pid (fuel : nat) (p c cur : Z) : M ptable looked :=
  match fuel with
  | O => fail OutOfFuel
  | S fuel' =>
      x ← rd_link p;
      if bool_decide (parent x = Some c) then
        pr ← psched (rd_proc p);
        mret (if bool_decide (state pr = PROC_ZOMBIE) then Found p else HasKid)
      else
        n ← next_thread c;
        if n =? cur then mret NoKid else wait_pid fuel' p n cur
  end.

(** [pid == 0]: the children of one thread, from [p] on. *)
Fixpoint wait_kids (fuel : nat) (p : option Z) (haskid : bool) : M ptable looked :=
  match fuel with
  | O => fail OutOfFuel
  | S fuel' =>
      match p with
      | None => mret (if haskid then HasKid else NoKid)
      | Some p =>
          pr ← psched (rd_proc p);
          if bool_decide (state pr = PROC_ZOMBIE) then mret (Found p)
          else x ← rd_link p; wait_kids fuel' (optr x) true
      end
  end.
Fixpoint wait_any (fuel n : nat) (c cur : Z) (haskid : bool) : M ptable looked :=
  match fuel with
  | O => fail OutOfFuel
  | S fuel' =>
      x ← rd_link c;
      r ← wait_kids n (cptr x) haskid;
      match r with
      | Found p => mret (Found p)
      | _ =>
          nx ← next_thread c;
          if nx =? cur then mret r else wait_any fuel' n nx cur (bool_decide (r <> NoKid))
      end
  end.

Definition wait_look (n : Z) : M ptable looked :=
  cur ← psched current;
  k ← nprocs;
  if negb (n =? 0) then
    p ← find_proc n;
    match p with Some p => wait_pid (S k) p cur cur | None => mret NoKid end
  else wait_any (S k) (S k) cur cur false.

(** From the label [found]: the child's exit code, its last resources freed. *)
Definition reap (p : Z) : M ptable Z :=
  idl ← psched idleproc;
  ini ← gets initproc;
  _ ← kassert (negb ((p =? idl) || (p =? ini)));
  x ← rd_link p;
  _ ← psched (spinlock_acquire ProcTableLock);
  _ ← unhash_proc p;
  _ ← remove_links p;
  _ ← psched (spinlock_release ProcTableLock);
  _ ← modify (fun s => set_ledger (delete p (ledger s)) s);
  _ ← modify (fun s => set_links_ (delete p (links s)) s);
  _ ← psched (fun k => Ok (tt, set_procs (delete p (procs k)) k));
  mret (exit_code x).

(** One round of [do_wait] ([mem_ok]: the check of [code_store], [copy_ok]: the
    copy to it, both true when it is [NULL]); [None]: the caller sleeps and
    starts over when it runs again, unless [may_killed] ends it. *)
Inductive waited := WDone (ret : Z) (code : option Z) | WSleep.

Definition do_wait (n : Z) (mem_ok copy_ok : bool) : M ptable waited :=
  if negb mem_ok then mret (WDone (- E_INVAL) None)
  else
    r ← wait_look n;
    match r with
    | Found p => c ← reap p; mret (WDone (if copy_ok then 0 else - E_INVAL) (Some c))
    | HasKid =>
        cur ← psched current;
        _ ← psched (spinlock_acquire (ProcLock cur));
        _ ← psched (upd_proc cur (with_state PROC_SLEEPING));
        _ ← psched (upd_proc cur (with_wait WT_CHILD));
        _ ← psched (spinlock_release (ProcLock cur));
        _ ← psched (schedule NCPU C);
        mret WSleep
    | NoKid => mret (WDone (- E_BAD_PROC) None)
    end.

(** [do_linux_waitpid]: negative ids, the pid as result, the code shifted. *)
Definition do_linux_waitpid (n : Z) (mem_ok copy_ok : bool) : M ptable waited :=
  if negb mem_ok then mret (WDone (- E_INVAL) None)
  else if n <? -1 then mret (WDone (- E_INVAL) None)
  else
    r ← wait_look (if n =? -1 then 0 else n);
    match r with
    | Found p =>
        pr ← psched (rd_proc p);
        c ← reap p;
        mret (WDone (if copy_ok then pid pr else - E_INVAL) (Some (s32 (Z.shiftl c 8))))
    | HasKid =>
        cur ← psched current;
        _ ← psched (upd_proc cur (with_state PROC_SLEEPING));
        _ ← psched (upd_proc cur (with_wait WT_CHILD));
        _ ← psched (schedule NCPU C);
        mret WSleep
    | NoKid => mret (WDone (- E_BAD_PROC) None)
    end.

(** ** Fork *)

(** [alloc_proc] of arch/soc: the fields of a new process. *)
Definition alloc_proc (p : Z) : M ptable unit :=
  me ← gets (fun s => myid (sk (ks s)));
  _ ← psched (fun k => Ok (tt, set_procs (<[p := Proc PROC_UNINIT (-1) 0 false 0 0 None 0 me p]> (procs k)) k));
  _ ← modify (fun s => set_links_ (<[p := Plink None None None None 0 p 0]> (links s)) s);
  _ ← modify (fun s => set_ledger (<[p := []]> (ledger s)) s);
  psync (wait_queue_init (event_queue p)).

Definition free_proc (p : Z) : M ptable unit :=
  _ ← psched (fun k => Ok (tt, set_procs (delete p (procs k)) k));
  _ ← modify (fun s => set_links_ (delete p (links s)) s);
  modify (fun s => set_ledger (delete p (ledger s)) s).

Definition hold (p : Z) (r : resource) : M ptable unit :=
  modify (fun s => set_ledger (<[p := r :: default [] (ledger s !! p)]> (ledger s)) s).
Definition put (p : Z) (r : resource) : M ptable unit :=
  modify (fun s => set_ledger (<[p := filter (fun q => q <> r) (default [] (ledger s !! p))]> (ledger s)) s).

Fixpoint put_all (p : Z) (l : list resource) : M ptable unit :=
  match l with [] => mret tt | r :: l' => _ ← put p r; put_all p l' end.

(** The chain of acquisitions: [oks] are their results; on a failure what was
    acquired is put back, the last first. *)
Fixpoint acquire (p : Z) (rs : list resource) (oks : list bool) (done : list resource) : M ptable bool :=
  match rs with
  | [] => mret true
  | r :: rs' =>
      if default false (head oks) then _ ← hold p r; acquire p rs' (tail oks) (r :: done)
      else _ ← put_all p done; mret false
  end.

Definition fork_order : list resource := [KStack; SemQ; FsStruct; Signal; Sighand; MmStruct].

(** The critical section: the child enters the process table. *)
Definition publish (clone_flags cur p : Z) : M ptable unit :=
  _ ← psched (spinlock_acquire ProcTableLock);
  n ← get_pid NCPU;
  _ ← psched (upd_proc p (with_pid n));
  _ ← hash_proc p;
  _ ← set_links p;
  _ ← (if negb (Z.land clone_flags CLONE_THREAD =? 0) then
         _ ← join_group cur p;
         x ← rd_link cur;
         upd_link p (with_gid (gid x))
       else upd_link p (with_gid n));
  psched (spinlock_release ProcTableLock).

(** [new]: the result of the allocation in [alloc_proc]. *)
Definition do_fork (clone_flags : Z) (new : option Z) (oks : list bool) : M ptable Z :=
  nr ← gets nr_process;
  if MAX_PROCESS <=? nr then mret (- E_NO_FREE_PROC)
  else
    match new with
    | None => mret (- E_NO_MEM)
    | Some p =>
        _ ← alloc_proc p;
        _ ← (if negb (Z.land clone_flags CLONE_PINCPU =? 0) then psched (upd_proc p (fun x => with_flags (Z.lor (pflags x) PF_PINCPU) x)) else mret tt);
        cur ← psched current;
        _ ← upd_link p (with_parent (Some cur));
        _ ← thread_init p;
        c ← psched (rd_proc cur);
        _ ← kassert (wait_state c =? 0);
        _ ← kassert (0 <=? time_slice c);
        _ ← psched (upd_proc p (with_slice (Z.quot (time_slice c) 2)));
        _ ← psched (upd_proc cur (with_slice (time_slice c - Z.quot (time_slice c) 2)));
        ok ← acquire p fork_order oks [];
        if (ok : bool) then
          _ ← publish clone_flags cur p;
          _ ← psched (wakeup_proc NCPU C p);
          pr ← psched (rd_proc p);
          mret (pid pr)
        else _ ← free_proc p; mret (- E_NO_MEM)
    end.

(** ** Yield and sleep *)

Definition do_yield : M ptable Z :=
  cur ← psched current;
  _ ← psched (upd_proc cur (with_resched true));
  mret 0.

(** Up to [schedule] and from it on; [t] is the timer on the caller's stack. *)
Definition do_sleep_enter (t time : Z) : M ptable bool :=
  i ← gets (fun s => in_interrupt (sk (ks s)));
  _ ← kassert (negb i);
  if time =? 0 then mret false
  else
    cur ← psched current;
    _ ← psched (timer_init t cur time);
    _ ← psched (upd_proc cur (with_state PROC_SLEEPING));
    _ ← psched (upd_proc cur (with_wait WT_TIMER));
    _ ← psched (add_timer t);
    _ ← psched (schedule NCPU C);
    mret true.
Definition do_sleep_leave (t : Z) : M ptable Z := _ ← psched (del_timer t); mret 0.
End proc.

(** ** Process ids are unique *)

Lemma max_pid_val : MAX_PID = 8192.
Proof. reflexivity. Qed.

(** [pid_scan] never skips a free number: what it passes over is in use. *)
Lemma pid_scan_spec l : forall last next again last' next', last < next <= MAX_PID ->
  pid_scan l last next = (again, (last', next')) ->
  if again then next' = MAX_PID /\
    (last < last' < MAX_PID /\ (forall i, last <= i < last' -> i ∈ l) \/
     last' = 1 /\ (forall i, last <= i < MAX_PID -> i ∈ l))
  else last <= last' < next' /\ next' <= next /\ (forall i, last <= i < last' -> i ∈ l) /\ (forall p, p ∈ l -> p < last' \/ next' <= p).
Proof.
  induction l as [|p l IH]; intros last next again last' next' Hr; cbn [pid_scan].
  - intros [= <- <- <-]. split_and!; try lia. by intros p ?%not_elem_of_nil.
  - destruct (Z.eqb_spec p last) as [->|Hne].
    + destruct (Z.leb_spec next (last + 1)).
      * intros [= <- <- <-]. split; [done|]. destruct (Z.leb_spec MAX_PID (last + 1)); [right|left].
        -- split; [done|]. intros i Hi. assert (i = last) as -> by lia. left.
        -- split; [lia|]. intros i Hi. assert (i = last) as -> by lia. left.
      * intros E%IH; [|lia]. destruct again.
        -- destruct E as [-> E]. split; [done|]. destruct E as [[Hl E]|[-> E]]; [left|right]; (split; [lia|]).
           ++ intros i Hi. destruct (decide (i = last)) as [->|]; [left|]. right. apply E. lia.
           ++ intros i Hi. destruct (decide (i = last)) as [->|]; [left|]. right. apply E. lia.
        -- destruct E as (Hl & Hn & E & F). split_and!; try lia.
           ++ intros i Hi. destruct (decide (i = last)) as [->|]; [left|]. right. apply E. lia.
           ++ intros p [->|Hp]%elem_of_cons; [lia|]. by apply F.
    + assert (Hrec : forall next2, last < next2 <= next -> next2 <= MAX_PID -> (last < p < next -> next2 <= p) -> pid_scan l last next2 = (again, (last', next')) ->
        if again then next' = MAX_PID /\
          (last < last' < MAX_PID /\ (forall i, last <= i < last' -> i ∈ p :: l) \/
           last' = 1 /\ (forall i, last <= i < MAX_PID -> i ∈ p :: l))
        else last <= last' < next' /\ next' <= next /\ (forall i, last <= i < last' -> i ∈ p :: l) /\ (forall q, q ∈ p :: l -> q < last' \/ next' <= q)).
      { intros next2 Hn2 Hm Hp E%IH; [|lia]. destruct again.
        - destruct E as [-> E]. split; [done|]. destruct E as [[Hl E]|[-> E]]; [left|right]; (split; [lia|]); intros i Hi; right; by apply E.
        - destruct E as (Hl & Hn & E & F). split_and!; try lia; [intros i Hi; right; by apply E|].
          intros q [->|Hq]%elem_of_cons; [|by apply F]. destruct (Z.lt_ge_cases p last'); [by left|right]. lia. }
      destruct (Z.ltb_spec last p), (Z.ltb_spec p next); cbn [andb]; intros E; (apply Hrec in E; [done|lia..]).
Qed.

(** How far the search from [last] still is from the free number [f]. *)
Definition pid_distance (last f : Z) : Z := if last <=? f then f - last else MAX_PID - last + f.

Lemma pid_repeat_spec l f fuel : forall last, 1 <= f < MAX_PID -> f ∉ l -> 1 <= last < MAX_PID -> pid_distance last f < Z.of_nat fuel ->
  exists lp ns, pid_repeat fuel l last MAX_PID = Ok (lp, ns) /\ 1 <= lp < ns /\ ns <= MAX_PID /\ (forall p, p ∈ l -> p < lp \/ ns <= p).
Proof.
  intros last Hf Hfl. revert last. induction fuel as [|fuel IH]; intros last Hl Hd; cbn [pid_repeat].
  - unfold pid_distance in Hd. destruct (Z.leb_spec last f); lia.
  - destruct (pid_scan l last MAX_PID) as [again [last' next']] eqn:E. apply pid_scan_spec in E; [|lia]. destruct again.
    + destruct E as [-> E]. unfold pid_distance in *. destruct E as [[Hl' E]|[-> E]].
      * apply IH; [lia|]. destruct (Z.leb_spec last f) as [H1|H1], (Z.leb_spec last' f) as [H2|H2]; try lia.
        exfalso. apply Hfl, E. lia.
      * apply IH; [unfold MAX_PID, MAX_PROCESS; lia|]. destruct (Z.leb_spec last f) as [H1|H1].
        { exfalso. apply Hfl, E. lia. }
        destruct (Z.leb_spec 1 f); lia.
    + destruct E as (H1 & H2 & H3 & H4). exists last', next'. split_and!; try done; lia.
Qed.

Lemma free_pid (l : list Z) : Z.of_nat (length l) < MAX_PID - 1 -> exists f, 1 <= f < MAX_PID /\ f ∉ l.
Proof.
  intros Hlen. destruct (decide (Forall (fun f => f ∈ l) (seqZ 1 (MAX_PID - 1)))) as [Ha|Hn].
  - exfalso. assert (Hs : seqZ 1 (MAX_PID - 1) ⊆+ l).
    { apply NoDup_submseteq; [apply NoDup_seqZ|]. by apply list.Forall_forall. }
    apply submseteq_length in Hs. rewrite length_seqZ in Hs. lia.
  - apply not_Forall_Exists in Hn; [|apply _]. apply list.Exists_exists in Hn as (f & Hf%elem_of_seqZ & Hn). exists f. split; [lia|done].
Qed.

Definition pid_at (s : ptable) (p : Z) : Z := from_option pid 0 (procs (sk (ks s)) !! p).

Lemma psched_rd_proc p pr s : procs (sk (ks s)) !! p = Some pr -> psched (rd_proc p) s = Ok (pr, s).
Proof. intros H. unfold psched, psync, lift, rd_proc, load. rewrite H. by destruct s as [[] ]. Qed.

Lemma pids_of_spec l s : (forall p, p ∈ l -> is_Some (procs (sk (ks s)) !! p)) -> pids_of l s = Ok (pid_at s <$> l, s).
Proof.
  induction l as [|p l IH]; intros Hl; cbn [pids_of]; [done|]. destruct (Hl p) as [pr Hp]; [left|].
  mstep (psched_rd_proc p pr s Hp). rewrite (bind_step _ _ _ _ _ (IH ltac:(intros; apply Hl; by right))).
  unfold pid_at at 2. cbn. by rewrite Hp.
Qed.

(** No process has a pid strictly between [last_pid] and [next_safe]. *)
Record pid_inv (s : ptable) : Prop := {
  pi_procs : forall p, p ∈ proc_list s -> is_Some (procs (sk (ks s)) !! p);
  pi_gap : forall p, p ∈ proc_list s -> pid_at s p <= last_pid s \/ next_safe s <= pid_at s p;
  pi_range : 1 <= last_pid s <= MAX_PID /\ next_safe s <= MAX_PID }.

Lemma get_pid_spec NCPU s : pid_inv s -> 1 <= NCPU < MAX_PID -> Z.of_nat (length (proc_list s)) < MAX_PID - 1 ->
  exists n s', get_pid NCPU s = Ok (n, s') /\ 1 <= n < MAX_PID /\ (forall p, p ∈ proc_list s -> pid_at s p <> n) /\
    s' = set_pids (next_safe s') n s /\ pid_inv s'.
Proof.
  intros [Hp Hg Hr] HN Hlen. unfold get_pid. rewrite bind_gets. mstep (pids_of_spec (proc_list s) s Hp).
  rewrite (bind_step get _ s s s eq_refl). set (pids := pid_at s <$> proc_list s).
  assert (Hsearch : forall last, 1 <= last < MAX_PID -> exists n ns, pid_repeat (Z.to_nat (2 * MAX_PID)) pids last MAX_PID = Ok (n, ns) /\
    1 <= n < ns /\ ns <= MAX_PID /\ (forall p, p ∈ proc_list s -> pid_at s p < n \/ ns <= pid_at s p)).
  { intros last Hl. destruct (free_pid pids) as (f & Hf & Hfl); [unfold pids; by rewrite length_fmap|].
    destruct (pid_repeat_spec pids f (Z.to_nat (2 * MAX_PID)) last Hf Hfl Hl) as (n & ns & E & H1 & H2 & H3).
    { unfold pid_distance. destruct (Z.leb_spec last f); lia. }
    exists n, ns. split; [done|]. split; [done|]. split; [done|]. intros p Hpl. apply H3. unfold pids. by apply list_elem_of_fmap_2. }
  assert (Hend : forall last, 1 <= last < MAX_PID -> exists n s', (match pid_repeat (Z.to_nat (2 * MAX_PID)) pids last MAX_PID with
      | Ok (lp, ns) => _ ← modify (set_pids ns lp); mret lp | Err f => fail f end) s = Ok (n, s') /\ 1 <= n < MAX_PID /\
      (forall p, p ∈ proc_list s -> pid_at s p <> n) /\ s' = set_pids (next_safe s') n s /\ pid_inv s').
  { intros last Hl. destruct (Hsearch last Hl) as (n & ns & E & H1 & H2 & H3). rewrite E. exists n, (set_pids ns n s).
    split; [done|]. split; [lia|]. split; [intros p Hpl; specialize (H3 p Hpl); lia|]. split; [done|].
    split; [done| |cbn; lia]. intros p Hpl. cbn [last_pid next_safe set_pids]. change (pid_at (set_pids ns n s) p) with (pid_at s p).
    specialize (H3 p Hpl). lia. }
  cbv zeta. destruct (Z.leb_spec MAX_PID (last_pid s + 1)); [apply Hend; lia|].
  destruct (Z.leb_spec (next_safe s) (last_pid s + 1)); [apply Hend; lia|].
  exists (last_pid s + 1), (set_pids (next_safe s) (last_pid s + 1) s). split; [done|]. split; [lia|].
  split; [intros p Hpl; specialize (Hg p Hpl); lia|]. split; [done|]. split; [done| |cbn; lia].
  intros p Hpl. cbn [last_pid next_safe set_pids]. change (pid_at (set_pids _ _ s) p) with (pid_at s p). specialize (Hg p Hpl). lia.
Qed.

(** C25: [get_pid] always terminates and returns a number between 1 and [MAX_PID]
    that no process of the list has, as long as not all numbers are taken; it
    keeps the gap between [last_pid] and [next_safe] free of pids, which is
    what makes its short cut (no search at all) right. *)
Theorem get_pid_unique NCPU s : pid_inv s -> 1 <= NCPU < MAX_PID -> Z.of_nat (length (proc_list s)) < MAX_PID - 1 ->
  exists n s', get_pid NCPU s = Ok (n, s') /\ 1 <= n < MAX_PID /\ (forall p, p ∈ proc_list s -> pid_at s p <> n) /\
    s' = set_pids (next_safe s') n s /\ pid_inv s'.
Proof. exact (get_pid_spec NCPU s). Qed.

(** ** Families *)

(** From the pointer [o] the sibling pointers run through [l], the first of
    which has the younger sibling [y], and end at [o'], [y'] being the last. *)
Fixpoint sibs (lk : gmap Z plink) (o y : option Z) (l : list Z) (o' y' : option Z) : Prop :=
  match l with
  | [] => o = o' /\ y = y'
  | p :: l' => o = Some p /\ exists x, lk !! p = Some x /\ yptr x = y /\ sibs lk (optr x) (Some p) l' o' y'
  end.

Lemma sibs_app lk l1 l2 : forall o y o' y',
  sibs lk o y (l1 ++ l2) o' y' <-> exists om ym, sibs lk o y l1 om ym /\ sibs lk om ym l2 o' y'.
Proof.
  induction l1 as [|p l1 IH]; intros o y o' y'; cbn [app sibs].
  - split; [intros H; by exists o, y|by intros (om & ym & [-> ->] & H)].
  - split.
    + intros (-> & x & Hx & Hy & (om & ym & H1 & H2)%IH). exists om, ym. split; [|done]. split; [done|]. by exists x.
    + intros (om & ym & (-> & x & Hx & Hy & H1) & H2). split; [done|]. exists x. split_and!; try done. apply IH. by exists om, ym.
Qed.

(** Only the sibling pointers of the members matter. *)
Lemma sibs_frame lk lk' l : forall o y o' y',
  (forall p x, p ∈ l -> lk !! p = Some x -> exists x', lk' !! p = Some x' /\ yptr x' = yptr x /\ optr x' = optr x) ->
  sibs lk o y l o' y' -> sibs lk' o y l o' y'.
Proof.
  induction l as [|p l IH]; intros o y o' y' Hf; cbn [sibs]; [done|]. intros (-> & x & Hx & Hy & H).
  destruct (Hf p x) as (x' & Hx' & Hy' & Ho'); [left|done|]. split; [done|]. exists x'. split; [done|]. split; [congruence|].
  rewrite Ho'. apply IH; [|done]. intros q z Hq. apply Hf. by right.
Qed.

(** [fam] gives every process its children, the youngest first. *)
Record family (lk : gmap Z plink) (fam : gmap Z (list Z)) : Prop := {
  fa_dom : forall p, is_Some (fam !! p) <-> is_Some (lk !! p);
  fa_kids : forall p l x, fam !! p = Some l -> lk !! p = Some x ->
    NoDup l /\ (exists y', sibs lk (cptr x) None l None y') /\ forall c, c ∈ l -> exists z, lk !! c = Some z /\ parent z = Some p }.

Lemma family_kid lk fam p q l l' c : family lk fam -> fam !! p = Some l -> fam !! q = Some l' -> c ∈ l -> c ∈ l' -> p = q.
Proof.
  intros F Hp Hq Hc Hc'. destruct (fa_dom _ _ F p) as [Dp _]. destruct (fa_dom _ _ F q) as [Dq _].
  destruct Dp as [xp Hxp]; [by eexists|]. destruct Dq as [xq Hxq]; [by eexists|].
  destruct (fa_kids _ _ F p l xp Hp Hxp) as (_ & _ & H1). destruct (fa_kids _ _ F q l' xq Hq Hxq) as (_ & _ & H2).
  destruct (H1 c Hc) as (z & Hz & E1). destruct (H2 c Hc') as (z' & Hz' & E2). congruence.
Qed.

Lemma upd_link_spec p f x s : links s !! p = Some x -> upd_link p f s = Ok (tt, set_links_ (<[p := f x]> (links s)) s).
Proof. unfold upd_link. by intros ->. Qed.
Lemma rd_link_spec p x s : links s !! p = Some x -> rd_link p s = Ok (x, s).
Proof. unfold rd_link, load. by intros ->. Qed.

(** Putting [p] in front of the children of [pp], [o] being the first of them:
    what [set_links] and the exit of a parent do to the pointers. *)
Definition adopted (o : option Z) (p pp q : Z) (x : plink) : plink :=
  Plink (if q =? p then Some pp else parent x) (if q =? pp then Some p else cptr x)
    (if bool_decide (o = Some q) then Some p else if q =? p then None else yptr x) (if q =? p then o else optr x)
    (exit_code x) (thread_prev x) (gid x).
Definition adopt (o : option Z) (p pp : Z) (lk : gmap Z plink) : gmap Z plink := map_imap (fun q x => Some (adopted o p pp q x)) lk.

Lemma adopt_lookup o p pp lk q : adopt o p pp lk !! q = adopted o p pp q <$> lk !! q.
Proof. unfold adopt. rewrite map_lookup_imap. by destruct (lk !! q). Qed.

(** The family after that: [p] has left [old], the family it was in. *)
Lemma adopt_family lk fam p pp l x : family lk fam -> lk !! pp = Some x -> fam !! pp = Some l -> is_Some (lk !! p) ->
  (forall q l', fam !! q = Some l' -> p ∉ l') ->
  family (adopt (cptr x) p pp lk) (<[pp := p :: l]> fam).
Proof.
  intros F Hx Hl [z Hz] Hfree. destruct (fa_kids _ _ F pp l x Hl Hx) as (Hd & (y' & Hs) & Hk).
  assert (Hol : forall q, cptr x = Some q -> q ∈ l).
  { intros q Hq. destruct l as [|q' l]; cbn [sibs] in Hs; [destruct Hs; congruence|]. destruct Hs as [Hs _]. rewrite Hq in Hs. injection Hs as ->. left. }
  split.
  - intros q. rewrite adopt_lookup, fmap_is_Some, <- (fa_dom _ _ F). destruct (decide (q = pp)) as [->|]; [rewrite lookup_insert_eq, Hl; split; by eexists|].
    by rewrite lookup_insert_ne.
  - intros q lq xq. rewrite adopt_lookup. destruct (decide (q = pp)) as [->|Hq].
    + rewrite lookup_insert_eq, Hx. intros [= <-] [= <-]. split; [constructor; [by apply (Hfree pp)|done]|]. split.
      * exists (match l with [] => Some p | _ => y' end). cbn [sibs adopted cptr]. rewrite Z.eqb_refl. split; [done|].
        eexists. rewrite adopt_lookup, Hz. split; [reflexivity|]. cbn [adopted yptr optr]. rewrite Z.eqb_refl.
        rewrite bool_decide_eq_false_2 by (intros E; apply (Hfree pp l Hl); by apply Hol). split; [done|].
        destruct l as [|c l]; cbn [sibs] in Hs |- *; [by destruct Hs as [-> _]|]. destruct Hs as (Hc & xc & Hxc & Hyc & Hs). split; [done|].
        eexists. rewrite adopt_lookup, Hxc. split; [reflexivity|]. cbn [adopted yptr optr]. rewrite Hc, bool_decide_eq_true_2 by done. split; [done|].
        destruct (Z.eqb_spec c p) as [->|_]; [exfalso; apply (Hfree pp _ Hl); left|].
        apply (sibs_frame lk); [|done]. intros r xr Hr Hxr. eexists. rewrite adopt_lookup, Hxr. split; [reflexivity|]. cbn [adopted yptr optr].
        apply list.NoDup_cons in Hd as [Hcl _]. rewrite bool_decide_eq_false_2 by (rewrite ?Hc; congruence).
        destruct (Z.eqb_spec r p) as [->|_]; [|done]. exfalso. apply (Hfree pp _ Hl). by right.
      * intros c Hc. rewrite adopt_lookup. apply elem_of_cons in Hc as [->|Hc]; [rewrite Hz; eexists; split; [reflexivity|]; cbn; by rewrite Z.eqb_refl|].
        destruct (Hk c Hc) as (zc & Hzc & Hpc). rewrite Hzc. eexists. split; [reflexivity|]. cbn. destruct (c =? p); [done|by rewrite Hpc].
    + rewrite lookup_insert_ne by done. intros Hlq. destruct (lk !! q) as [xq0|] eqn:Hxq0; [|done]. intros [= <-].
      destruct (fa_kids _ _ F q lq xq0 Hlq Hxq0) as (Hdq & (yq & Hsq) & Hkq). split; [done|]. split.
      * exists yq. cbn [adopted cptr]. destruct (Z.eqb_spec q pp); [done|]. apply (sibs_frame lk); [|done].
        intros r xr Hr Hxr. eexists. rewrite adopt_lookup, Hxr. split; [reflexivity|]. cbn [adopted yptr optr].
        rewrite bool_decide_eq_false_2. 2:{ intros Hr'. apply Hq. by apply (family_kid lk fam q pp lq l r F Hlq Hl Hr), Hol. }
        destruct (Z.eqb_spec r p) as [->|_]; [|done]. exfalso. by apply (Hfree q lq).
      * intros c Hc. rewrite adopt_lookup. destruct (Hkq c Hc) as (zc & Hzc & Hpc). rewrite Hzc. eexists. split; [reflexivity|]. cbn.
        destruct (Z.eqb_spec c p) as [->|_]; [|done]. exfalso. by apply (Hfree q lq).
Qed.

(** Taking a process with the pointers [px] out of its siblings. *)
Definition departed (px : plink) (q : Z) (x : plink) : plink :=
  Plink (parent x) (if bool_decide (yptr px = None /\ parent px = Some q) then optr px else cptr x)
    (if bool_decide (optr px = Some q) then yptr px else yptr x) (if bool_decide (yptr px = Some q) then optr px else optr x)
    (exit_code x) (thread_prev x) (gid x).
Definition depart (px : plink) (lk : gmap Z plink) : gmap Z plink := map_imap (fun q x => Some (departed px q x)) lk.

Lemma depart_lookup px lk q : depart px lk !! q = departed px q <$> lk !! q.
Proof. unfold depart. rewrite map_lookup_imap. by destruct (lk !! q). Qed.

(** The neighbours of a member of a list of siblings. *)
Lemma sibs_split lk o y l1 p l2 y' x : sibs lk o y (l1 ++ p :: l2) None y' -> lk !! p = Some x ->
  optr x = head l2 /\ yptr x = match last l1 with Some q => Some q | None => y end /\ o = Some (hd p l1).
Proof.
  intros (om & ym & H1 & H2)%sibs_app Hx. cbn [sibs] in H2. destruct H2 as (-> & x' & Hx' & Hy & H2). rewrite Hx in Hx'. injection Hx' as <-.
  split; [|split].
  - destruct l2 as [|q l2]; cbn [sibs head] in *; [by destruct H2|by destruct H2].
  - rewrite Hy. clear -H1. revert o y H1. induction l1 as [|a l1 IH]; intros o y; cbn [sibs]; [by intros [_ ->]|].
    intros (-> & z & _ & _ & H). apply IH in H. rewrite H, last_cons. by destruct (last l1).
  - destruct l1 as [|a l1]; cbn [sibs hd] in *; by destruct H1 as [-> _].
Qed.

Lemma depart_sibs_before lk px l1 : forall o y om ym ym' p, NoDup (l1 ++ [p]) ->
  sibs lk o y l1 om ym -> yptr px = match last l1 with Some q => Some q | None => y end -> (forall q, q ∈ l1 -> optr px <> Some q) ->
  y = None \/ (exists q, y = Some q /\ q ∉ l1) -> ym = ym' ->
  sibs (depart px lk) (match l1 with [] => optr px | _ => o end) y l1 (optr px) ym'.
Proof.
  induction l1 as [|a l1 IH]; intros o y om ym ym' p Hd; cbn [sibs].
  - intros [-> ->] _ _ _ ->. done.
  - intros (-> & x & Hx & Hy & H) Hl Ho Hyn <-. split; [done|]. eexists. rewrite depart_lookup, Hx. split; [reflexivity|]. cbn [departed yptr optr].
    rewrite (bool_decide_eq_false_2 (optr px = Some a)) by (apply Ho; left). split; [done|]. cbn [app] in Hd. apply list.NoDup_cons in Hd as [Ha Hd].
    assert (Hl' : yptr px = match last l1 with Some q => Some q | None => Some a end) by (rewrite Hl, last_cons; by destruct (last l1)).
    specialize (IH (optr x) (Some a) om ym ym p Hd H Hl'). destruct (last l1) as [q|] eqn:El.
    + assert (q ∈ l1) by (by apply last_Some_elem_of). rewrite bool_decide_eq_false_2 by (rewrite Hl'; intros [= ->]; set_solver).
      destruct l1 as [|b l1]; [done|]. apply IH; [intros; apply Ho; by right|right; exists a; split; [done|set_solver]|done].
    + apply last_None in El as ->. rewrite bool_decide_eq_true_2 by done. cbn [sibs] in H |- *. by destruct H as [_ ->].
Qed.

Lemma depart_family lk fam p pp l px : family lk fam -> lk !! p = Some px -> parent px = Some pp -> fam !! pp = Some l -> p ∈ l ->
  family (depart px lk) (<[pp := filter (fun q => q <> p) l]> fam).
Proof.
  intros F Hp Hpp Hl Hin. destruct (proj1 (fa_dom _ _ F pp) ltac:(by eexists)) as [xp Hxp].
  destruct (fa_kids _ _ F pp l xp Hl Hxp) as (Hd & (y' & Hs) & Hk). apply list_elem_of_split in Hin as (l1 & l2 & ->).
  destruct (sibs_split lk _ _ l1 p l2 y' px Hs Hp) as (Ho & Hy & Hc).
  assert (Hf : filter (fun q => q <> p) (l1 ++ p :: l2) = l1 ++ l2).
  { apply NoDup_app in Hd as (_ & H1 & [Hp2 _]%list.NoDup_cons). rewrite filter_app, filter_cons_False by (intros H; by apply H).
    rewrite !filter_ne_notin; [done|done|]. intros H. by apply (H1 p H), list_elem_of_here. }
  rewrite Hf. clear Hf.
  assert (Hnb : forall r, optr px = Some r \/ yptr px = Some r -> r ∈ l1 ++ p :: l2).
  { intros r [Hr|Hr]; [rewrite Ho in Hr; apply head_Some in Hr as (l' & ->); set_solver|]. rewrite Hy in Hr.
    destruct (last l1) eqn:El; [|done]. injection Hr as ->. apply last_Some_elem_of in El. set_solver. }
  split.
  - intros q. rewrite depart_lookup, fmap_is_Some, <- (fa_dom _ _ F). destruct (decide (q = pp)) as [->|]; [rewrite lookup_insert_eq, Hl; split; by eexists|].
    by rewrite lookup_insert_ne.
  - intros q lq xq. rewrite depart_lookup. destruct (decide (q = pp)) as [->|Hq].
    + rewrite lookup_insert_eq, Hxp. intros [= <-] [= <-].
      assert (Hd' : NoDup (l1 ++ l2) /\ NoDup (l1 ++ [p]) /\ p ∉ l2 /\ (forall r, r ∈ l1 -> r ∉ l2)).
      { apply NoDup_app in Hd as (H1 & H2 & [H3 H4]%list.NoDup_cons). split_and!; [apply NoDup_app; set_solver|apply NoDup_app; split_and!; [done|set_solver|apply NoDup_singleton]|done|set_solver]. }
      destruct Hd' as (Hd1 & Hd2 & Hp2 & Hd3). split; [done|]. split.
      * apply sibs_app in Hs as (om & ym & H1 & H2). cbn [sibs] in H2. destruct H2 as (-> & x' & Hx' & Hyx & H2). rewrite Hp in Hx'. injection Hx' as <-.
        exists (match l2 with [] => ym | _ => y' end). apply sibs_app. exists (optr px), ym. split.
        -- cbn [departed cptr]. replace (if bool_decide (yptr px = None /\ parent px = Some pp) then optr px else cptr xp)
             with (match l1 with [] => optr px | _ => cptr xp end).
           2:{ destruct l1 as [|a l1]; [cbn [last] in Hy; by rewrite bool_decide_eq_true_2 by done|].
               rewrite bool_decide_eq_false_2; [done|]. intros [E _]. rewrite E in Hy. destruct (last (a :: l1)) eqn:El; [done|by apply last_None in El]. }
           apply (depart_sibs_before lk px l1 _ None (Some p) ym ym p Hd2 H1 Hy); [|by left|done].
           intros r Hr E. rewrite Ho in E. apply head_Some in E as (l' & ->). apply (Hd3 r Hr). left.
        -- destruct l2 as [|b l2]; cbn [sibs] in H2 |- *; [by destruct H2 as [-> _]|]. destruct H2 as (Hb & xb & Hxb & Hyb & H2). split; [done|].
           eexists. rewrite depart_lookup, Hxb. split; [reflexivity|]. cbn [departed yptr optr]. rewrite Hb, bool_decide_eq_true_2 by done.
           split; [done|]. rewrite bool_decide_eq_false_2.
           2:{ intros E. rewrite Hy in E. destruct (last l1) eqn:El; [|done]. injection E as ->. apply last_Some_elem_of in El. apply (Hd3 b El). left. }
           apply (sibs_frame lk); [|done]. intros r xr Hr Hxr. eexists. rewrite depart_lookup, Hxr. split; [reflexivity|]. cbn [departed yptr optr].
           apply NoDup_app in Hd1 as (_ & _ & [Hbl _]%list.NoDup_cons). rewrite !bool_decide_eq_false_2; [done| |congruence].
           intros E. rewrite Hy in E. destruct (last l1) eqn:El; [|done]. injection E as ->. apply last_Some_elem_of in El. apply (Hd3 r El). by right.
      * intros c Hc2. destruct (Hk c) as (z & Hz & Hpz); [set_solver|]. rewrite depart_lookup, Hz. by eexists.
    + rewrite lookup_insert_ne by done. intros Hlq. destruct (lk !! q) as [xq0|] eqn:Hxq0; [|done]. intros [= <-].
      destruct (fa_kids _ _ F q lq xq0 Hlq Hxq0) as (Hdq & (yq & Hsq) & Hkq). split; [done|]. split.
      * exists yq. cbn [departed cptr]. rewrite bool_decide_eq_false_2 by (intros [_ ?]; congruence). apply (sibs_frame lk); [|done].
        intros r xr Hr Hxr. eexists. rewrite depart_lookup, Hxr. split; [reflexivity|]. cbn [departed yptr optr].
        assert (Hr' : r ∉ l1 ++ p :: l2) by (intros Hr2; apply Hq; by apply (family_kid lk fam q pp lq _ r F Hlq Hl Hr)).
        rewrite !bool_decide_eq_false_2; [done|intros E; apply Hr'; apply Hnb; auto..].
      * intros c Hc2. destruct (Hkq c Hc2) as (zc & Hzc & Hpc). rewrite depart_lookup, Hzc. by eexists.
Qed.

(** ** The pointer code does what [adopt] and [depart] say *)

Lemma link_alter p f s : is_Some (links s !! p) -> upd_link p f s = Ok (tt, set_links_ (alter f p (links s)) s).
Proof. intros [x Hx]. unfold upd_link. rewrite Hx. by rewrite (alter_alt_Some _ _ _ x). Qed.

(** The four updates, field by field. *)
Lemma alter_parent v p (lk : gmap Z plink) q : alter (with_parent v) p lk !! q =
  (fun x => Plink (if q =? p then v else parent x) (cptr x) (yptr x) (optr x) (exit_code x) (thread_prev x) (gid x)) <$> lk !! q.
Proof. rewrite lookup_alter. case_decide; destruct (Z.eqb_spec q p); try congruence; subst; destruct (lk !! q) as [[]|]; done. Qed.
Lemma alter_cptr v p (lk : gmap Z plink) q : alter (with_cptr v) p lk !! q =
  (fun x => Plink (parent x) (if q =? p then v else cptr x) (yptr x) (optr x) (exit_code x) (thread_prev x) (gid x)) <$> lk !! q.
Proof. rewrite lookup_alter. case_decide; destruct (Z.eqb_spec q p); try congruence; subst; destruct (lk !! q) as [[]|]; done. Qed.
Lemma alter_yptr v p (lk : gmap Z plink) q : alter (with_yptr v) p lk !! q =
  (fun x => Plink (parent x) (cptr x) (if q =? p then v else yptr x) (optr x) (exit_code x) (thread_prev x) (gid x)) <$> lk !! q.
Proof. rewrite lookup_alter. case_decide; destruct (Z.eqb_spec q p); try congruence; subst; destruct (lk !! q) as [[]|]; done. Qed.
Lemma alter_optr v p (lk : gmap Z plink) q : alter (with_optr v) p lk !! q =
  (fun x => Plink (parent x) (cptr x) (yptr x) (if q =? p then v else optr x) (exit_code x) (thread_prev x) (gid x)) <$> lk !! q.
Proof. rewrite lookup_alter. case_decide; destruct (Z.eqb_spec q p); try congruence; subst; destruct (lk !! q) as [[]|]; done. Qed.

(** Two pointer maps agree: field by field for the process [q]. *)
Ltac link_field :=
  repeat match goal with
    | |- context [?a =? ?b] => destruct (Z.eqb_spec a b); try congruence
    | |- context [bool_decide ?P] => case_bool_decide; destruct_and?; try congruence
    | H : ~ (_ /\ _) |- _ => exfalso; apply H; split; congruence
    end; try congruence; try (subst; simplify_eq; cbn [parent cptr yptr optr] in *; congruence).
Ltac link_eq q lk :=
  apply map_eq; intros q;
  repeat first [rewrite adopt_lookup|rewrite depart_lookup|rewrite alter_parent|rewrite alter_cptr|rewrite alter_yptr|rewrite alter_optr];
  destruct (lk !! q) as [[]|] eqn:?; [|done]; unfold adopted, departed;
  cbn [fmap option_fmap option_map parent cptr yptr optr exit_code thread_prev gid]; f_equal; f_equal; link_field.

Lemma set_links_spec p pp s x y : links s !! p = Some x -> parent x = Some pp -> links s !! pp = Some y -> p <> pp ->
  cptr y <> Some p -> (forall o, cptr y = Some o -> is_Some (links s !! o)) ->
  set_links p s = Ok (tt, set_nr (s32 (nr_process s + 1)) (set_proc_list (p :: proc_list s) (set_links_ (adopt (cptr y) p pp (links s)) s))).
Proof.
  intros Hx Hpx Hy Hne Hop Ho. unfold set_links. rewrite bind_modify.
  set (s1 := set_proc_list _ s). mstep (link_alter p (with_yptr None) s1 ltac:(by eexists)). set (s2 := set_links_ _ s1).
  assert (Hx2 : links s2 !! p = Some (with_yptr None x)) by (cbn [links s2 set_links_]; by rewrite lookup_alter_eq; cbn [links s1 set_proc_list]; rewrite Hx).
  mstep (rd_link_spec p _ s2 Hx2). cbn [with_yptr parent]. rewrite Hpx.
  assert (Hy2 : links s2 !! pp = Some y) by (cbn [links s2 set_links_]; by rewrite lookup_alter_ne).
  mstep (rd_link_spec pp _ s2 Hy2). mstep (link_alter p (with_optr (cptr y)) s2 ltac:(by eexists)). set (s3 := set_links_ _ s2).
  assert (E3 : (match cptr y with Some o => upd_link o (with_yptr (Some p)) | None => mret tt end) s3 =
    Ok (tt, set_links_ (match cptr y with Some o => alter (with_yptr (Some p)) o (links s3) | None => links s3 end) s3)).
  { destruct (cptr y) as [o|]; [|by destruct s]. apply link_alter. cbn [links s3 s2 s1 set_links_ set_proc_list]. rewrite !lookup_alter_is_Some. by apply Ho. }
  mstep E3. set (s4 := set_links_ _ s3).
  mstep (link_alter pp (with_cptr (Some p)) s4 ltac:(cbn [links s4 set_links_]; destruct (cptr y); rewrite ?lookup_alter_is_Some; cbn [links s3 s2 s1 set_links_ set_proc_list]; rewrite !lookup_alter_is_Some; by eexists)).
  unfold modify. do 2 f_equal. cbn [s4 s3 s2 s1 set_links_ set_proc_list set_nr nr_process links]. unfold set_links_, set_nr, set_proc_list. cbn. f_equal.
  clear -Hx Hpx Hy Hne Hop. set (c := cptr y) in *. clearbody c. destruct c as [o|]; link_eq q (links s).
Qed.

Lemma remove_links_spec p pp s x : links s !! p = Some x -> parent x = Some pp -> is_Some (links s !! pp) ->
  (forall o, optr x = Some o -> is_Some (links s !! o)) -> (forall y, yptr x = Some y -> is_Some (links s !! y)) ->
  remove_links p s = Ok (tt, set_nr (s32 (nr_process s - 1))
    (set_proc_list (filter (fun q => q <> p) (proc_list s)) (set_links_ (depart x (links s)) s))).
Proof.
  intros Hx Hpx Hpp Ho Hy. unfold remove_links. rewrite bind_modify. set (s1 := set_proc_list _ s). mstep (rd_link_spec p x s1 Hx).
  assert (E1 : (match optr x with Some o => upd_link o (with_yptr (yptr x)) | None => mret tt end) s1 =
    Ok (tt, set_links_ (match optr x with Some o => alter (with_yptr (yptr x)) o (links s) | None => links s end) s1)).
  { destruct (optr x) as [o|]; [|by destruct s]. apply (link_alter o _ s1). by apply Ho. }
  mstep E1. set (s2 := set_links_ _ s1).
  assert (Hd2 : forall q, is_Some (links s !! q) -> is_Some (links s2 !! q)).
  { intros q Hq. cbn [links s2 set_links_]. destruct (optr x); [by rewrite lookup_alter_is_Some|done]. }
  assert (E2 : (match yptr x with Some y => upd_link y (with_optr (optr x)) | None => upd_opt (parent x) (with_cptr (optr x)) end) s2 =
    Ok (tt, set_links_ (match yptr x with Some y => alter (with_optr (optr x)) y (links s2) | None => alter (with_cptr (optr x)) pp (links s2) end) s2)).
  { destruct (yptr x) as [y|]; [apply link_alter, Hd2; by apply Hy|]. rewrite Hpx. cbn [upd_opt]. by apply link_alter, Hd2. }
  mstep E2. unfold modify. do 2 f_equal. unfold s2, s1, set_links_, set_nr, set_proc_list. cbn. f_equal.
  clear -Hx Hpx. destruct x as [xp xc xy xo xe xt xg]. cbn [parent cptr yptr optr] in *. subst xp.
  destruct xo as [o|], xy as [y|]; link_eq q (links s).
Qed.

Section exit.
Context (NCPU : Z) (C : sched_class) `{!SchedClass C}.

Lemma psched_wakeup p s : sinv NCPU (sk (ks s)) -> wakeable NCPU (sk (ks s)) p ->
  exists s', psched (wakeup_proc NCPU C p) s = Ok (tt, s') /\ sinv NCPU (sk (ks s')) /\ woken (sk (ks s)) p (sk (ks s')) /\
    s' = set_ks (set_sk (sk (ks s')) (ks s)) s.
Proof.
  intros I W. destruct (wakeup_proc_spec NCPU C (sk (ks s)) p I W) as (k & E & Wk & Ik).
  exists (set_ks (set_sk k (ks s)) s). split; [|done]. unfold psched, psync, lift. by rewrite E.
Qed.

Lemma woken_still k p k' : woken k p k' -> wakeable NCPU k' p /\ (forall q, is_Some (procs k !! q) -> is_Some (procs k' !! q)).
Proof.
  intros W. destruct (woken_procs _ _ _ W) as (Ho & pr & Hp & Hs & _). split.
  - exists pr. split; [done|]. split; [by rewrite Hs|]. by rewrite Hs.
  - intros q Hq. destruct (decide (q = p)) as [->|]; [by eexists|]. by rewrite Ho.
Qed.

(** The wake-up at the end of a round. *)
Lemma reparent_wake p pp s : sinv NCPU (sk (ks s)) -> wakeable NCPU (sk (ks s)) pp -> is_Some (procs (sk (ks s)) !! p) ->
  exists s', (pr ← psched (rd_proc p);
     if bool_decide (state pr = PROC_ZOMBIE) then
       ppr ← psched (rd_proc pp); if wait_state ppr =? WT_CHILD then psched (wakeup_proc NCPU C pp) else mret tt
     else mret tt) s = Ok (tt, s') /\ sinv NCPU (sk (ks s')) /\ wakeable NCPU (sk (ks s')) pp /\
    (forall q, is_Some (procs (sk (ks s)) !! q) -> is_Some (procs (sk (ks s')) !! q)) /\ s' = set_ks (ks s') s.
Proof.
  intros I W [pr Hp]. mstep (psched_rd_proc p pr s Hp). destruct (bool_decide _); [|exists s; split; [done|]; split_and!; try done; by destruct s].
  destruct W as (ppr & Hpp & W). mstep (psched_rd_proc pp ppr s Hpp). destruct (wait_state ppr =? WT_CHILD).
  - destruct (psched_wakeup pp s I) as (s' & E & I' & Wk & Es); [by exists ppr|]. destruct (woken_still _ _ _ Wk) as [W' D'].
    exists s'. split; [done|]. split; [done|]. split; [done|]. split; [done|]. rewrite Es. done.
  - exists s. split; [done|]. split_and!; try done; [by exists ppr|by destruct s].
Qed.

(** The first of the remaining children still points at the one before it. *)
Definition stale (v : option Z) (l : list Z) (lk : gmap Z plink) : gmap Z plink :=
  match l with [] => lk | h :: _ => alter (with_yptr v) h lk end.

Lemma stale_is_Some v l lk q : is_Some (stale v l lk !! q) <-> is_Some (lk !! q).
Proof. destruct l; [done|]. apply lookup_alter_is_Some. Qed.

Lemma stale_lookup v l lk q x : lk !! q = Some x -> exists v', stale v l lk !! q = Some (with_yptr v' x).
Proof.
  intros Hx. destruct l as [|h l]; cbn [stale]; [exists (yptr x); rewrite Hx; by destruct x|]. rewrite lookup_alter. case_decide; [subst; rewrite Hx; by eexists|].
  rewrite Hx. exists (yptr x). by destruct x.
Qed.

(** One round on the pointers. *)
Lemma reparent_links lk fam v h l cur pp lp xh xp : family lk fam -> fam !! cur = Some (h :: l) -> fam !! pp = Some lp -> cur <> pp ->
  lk !! h = Some xh -> lk !! pp = Some xp ->
  alter (with_cptr (Some h)) pp (alter (with_parent (Some pp)) h
    (match cptr xp with Some o => alter (with_yptr (Some h)) o | None => id end
      (alter (with_optr (cptr xp)) h (alter (with_yptr None) h (alter (with_cptr (optr xh)) cur (alter (with_yptr v) h lk)))))) =
  stale (Some h) l (adopt (cptr xp) h pp (depart xh lk)).
Proof.
  intros F Hc Hp Hne Hh Hxp. destruct (proj1 (fa_dom _ _ F cur) ltac:(by eexists)) as [xc Hxc].
  destruct (fa_kids _ _ F cur _ xc Hc Hxc) as (Hd & (y' & Hs) & Hk). cbn [sibs] in Hs. destruct Hs as (Hcx & xh' & Hh' & Hyh & Hs).
  rewrite Hh in Hh'. injection Hh' as <-. destruct (Hk h) as (xh' & Hh' & Hph); [left|]. rewrite Hh in Hh'. injection Hh' as <-.
  assert (Ho : optr xh = head l) by (destruct l; cbn [sibs head] in *; by destruct Hs).
  destruct (fa_kids _ _ F pp _ xp Hp Hxp) as (Hdp & (yp & Hsp) & Hkp).
  assert (Hop : forall o, cptr xp = Some o -> o ∈ lp) by (intros o Eo; destruct lp as [|o' lp]; cbn [sibs] in Hsp; destruct Hsp as [E _]; rewrite Eo in E; [done|injection E as ->; left]).
  assert (Hon : forall o, cptr xp = Some o -> o ∉ h :: l) by (intros o Eo Hin; apply Hne; exact (family_kid lk fam cur pp _ _ o F Hc Hp Hin (Hop o Eo))).
  apply list.NoDup_cons in Hd as [Hhl _].
  assert (Hy2 : forall h2, head l = Some h2 -> exists x2, lk !! h2 = Some x2 /\ yptr x2 = Some h /\ h2 <> h).
  { intros h2 Hh2. destruct l as [|h2' l]; [done|]. injection Hh2 as ->. cbn [sibs] in Hs. destruct Hs as (_ & x2 & H2 & H2y & _). exists x2. split_and!; try done. set_solver. }
  destruct xh as [hp hc hy ho he ht hg]. cbn [parent cptr yptr optr] in *. subst hp hy ho.
  assert (Hon' : forall o, cptr xp = Some o -> o <> h /\ head l <> Some o).
  { intros o Eo. specialize (Hon o Eo). apply not_elem_of_cons in Hon as [??]. split; [done|]. intros E. destruct l; [done|]. injection E as ->. set_solver. }
  set (c := cptr xp) in *. clearbody c. clear F Hk Hkp Hs Hsp Hop Hon Hc Hp fam Hdp lp.
  assert (Hlast : match l with [] => True | h2 :: _ => exists x2, lk !! h2 = Some x2 /\ yptr x2 = Some h /\ h2 <> h end).
  { destruct l as [|h2 l]; [done|]. by apply Hy2. }
  destruct l as [|h2 l]; cbn [head stale] in *; clear Hy2; [|destruct Hlast as (x2 & Hx2 & Hyx2 & Hh2)]; (destruct c as [o|]; [destruct (Hon' o eq_refl)|]).
  all: clear Hon'; unfold id; link_eq q lk.
Qed.

(** The loop hands over the children one by one, so their order is reversed. *)
Lemma reparent_spec cur pp l : forall fuel s lk v fam lp, (length l < fuel)%nat -> links s = stale v l lk -> family lk fam ->
  fam !! cur = Some l -> fam !! pp = Some lp -> cur <> pp -> sinv NCPU (sk (ks s)) -> wakeable NCPU (sk (ks s)) pp ->
  (forall c, c ∈ l -> is_Some (procs (sk (ks s)) !! c)) ->
  exists s', reparent NCPU C fuel cur pp s = Ok (tt, s') /\ family (links s') (<[cur := []]> (<[pp := reverse l ++ lp]> fam)) /\
    sinv NCPU (sk (ks s')) /\ s' = set_links_ (links s') (set_ks (ks s') s) /\
    (forall q, is_Some (procs (sk (ks s)) !! q) -> is_Some (procs (sk (ks s')) !! q)).
Proof.
  induction l as [|h l IH]; intros fuel s lk v fam lp Hf Hlk F Hc Hp Hne I W Hpr; (destruct fuel as [|fuel]; [simpl in Hf; lia|]); cbn [reparent].
  - cbn [stale] in Hlk. destruct (proj1 (fa_dom _ _ F cur) ltac:(by eexists)) as [x Hx]. rewrite <- Hlk in F, Hx.
    mstep (rd_link_spec cur x s Hx). destruct (fa_kids _ _ F cur _ x Hc Hx) as (_ & (y' & [-> _]) & _).
    exists s. split; [done|]. split; [|split; [done|split; [by destruct s|done]]].
    rewrite (insert_id (<[pp := _]> fam) cur) by (by rewrite lookup_insert_ne). by rewrite insert_id.
  - destruct (proj1 (fa_dom _ _ F cur) ltac:(by eexists)) as [xc Hxc]. destruct (proj1 (fa_dom _ _ F pp) ltac:(by eexists)) as [xp Hxp].
    destruct (fa_kids _ _ F cur _ xc Hc Hxc) as (Hd & (y' & Hs) & Hk). cbn [sibs] in Hs. destruct Hs as (Hcx & xh & Hxh & _).
    destruct (Hk h) as (xh' & Hxh' & Hph); [left|]. rewrite Hxh in Hxh'. injection Hxh' as <-.
    destruct (stale_lookup v (h :: l) lk cur xc Hxc) as (vc & Hxc'). destruct (stale_lookup v (h :: l) lk h xh Hxh) as (vh & Hxh').
    rewrite <- Hlk in Hxc', Hxh'. mstep (rd_link_spec cur _ s Hxc'). cbn [cptr with_yptr]. rewrite Hcx. mstep (rd_link_spec h _ s Hxh'). cbn [optr with_yptr].
    mstep (link_alter cur (with_cptr (optr xh)) s ltac:(by eexists)). set (s1 := set_links_ _ s).
    mstep (link_alter h (with_yptr None) s1 ltac:(cbn [links s1 set_links_]; rewrite lookup_alter_is_Some; by eexists)). set (s2 := set_links_ _ s1).
    assert (Hxp2 : exists z, links s2 !! pp = Some z /\ cptr z = cptr xp).
    { cbn [links s2 s1 set_links_]. rewrite alter_yptr, alter_cptr, Hlk. destruct (stale_lookup v (h :: l) lk pp xp Hxp) as (vp & ->).
      eexists. split; [reflexivity|]. cbn. by destruct (Z.eqb_spec pp cur). }
    destruct Hxp2 as (z & Hz & Ez). mstep (rd_link_spec pp z s2 Hz). rewrite Ez.
    assert (Hdom : forall q, is_Some (lk !! q) -> is_Some (links s2 !! q)).
    { intros q Hq. cbn [links s2 s1 set_links_]. rewrite !lookup_alter_is_Some, Hlk. by apply stale_is_Some. }
    mstep (link_alter h (with_optr (cptr xp)) s2 ltac:(apply Hdom; by eexists)). set (s3 := set_links_ _ s2).
    assert (Hop : forall o, cptr xp = Some o -> is_Some (lk !! o)).
    { intros o Eo. destruct (fa_kids _ _ F pp _ xp Hp Hxp) as (_ & (yp & Hsp) & Hkp). destruct lp as [|o' lp]; cbn [sibs] in Hsp; destruct Hsp as [E _]; rewrite Eo in E; [done|].
      injection E as ->. destruct (Hkp o') as (zo & Hzo & _); [left|]. by eexists. }
    assert (E4 : (match cptr xp with Some o => upd_link o (with_yptr (Some h)) | None => mret tt end) s3 =
      Ok (tt, set_links_ (match cptr xp with Some o => alter (with_yptr (Some h)) o | None => id end (links s3)) s3)).
    { destruct (cptr xp) as [o|]; [|by destruct s]. apply link_alter. cbn [links s3 set_links_]. rewrite lookup_alter_is_Some. by apply Hdom, Hop. }
    mstep E4. set (s4 := set_links_ _ s3).
    assert (Hdom4 : forall q, is_Some (lk !! q) -> is_Some (links s4 !! q)).
    { intros q Hq. cbn [links s4 set_links_]. destruct (cptr xp) as [o|]; unfold id; rewrite ?lookup_alter_is_Some; cbn [links s3 set_links_]; rewrite lookup_alter_is_Some; by apply Hdom. }
    mstep (link_alter h (with_parent (Some pp)) s4 ltac:(apply Hdom4; by eexists)). set (s5 := set_links_ _ s4).
    mstep (link_alter pp (with_cptr (Some h)) s5 ltac:(cbn [links s5 set_links_]; rewrite lookup_alter_is_Some; apply Hdom4; by eexists)). set (s6 := set_links_ _ s5).
    assert (Hl6 : links s6 = stale (Some h) l (adopt (cptr xp) h pp (depart xh lk))).
    { rewrite <- (reparent_links lk fam v h l cur pp lp xh xp F Hc Hp Hne Hxh Hxp). cbn [links s6 s5 s4 s3 s2 s1 set_links_]. by rewrite Hlk. }
    destruct (reparent_wake h pp s6 I W (Hpr h ltac:(left))) as (s7 & E7 & I7 & W7 & D7 & Es7). rewrite <- bind_assoc_M. mstep E7.
    apply list.NoDup_cons in Hd as [Hhl Hdl].
    assert (F1 := depart_family lk fam h cur _ xh F Hxh Hph Hc ltac:(left)). rewrite filter_head in F1 by (by constructor).
    assert (Hxp1 : depart xh lk !! pp = Some (departed xh pp xp)) by (by rewrite depart_lookup, Hxp).
    assert (Ecp : cptr (departed xh pp xp) = cptr xp) by (cbn [departed cptr]; by rewrite bool_decide_eq_false_2 by (intros [_ ?]; congruence)).
    assert (F2 := adopt_family _ _ h pp lp _ F1 Hxp1 ltac:(by rewrite lookup_insert_ne) ltac:(rewrite depart_lookup, Hxh; by eexists)).
    rewrite Ecp in F2.
    destruct (IH fuel s7 (adopt (cptr xp) h pp (depart xh lk)) (Some h) (<[pp := h :: lp]> (<[cur := l]> fam)) (h :: lp)) as (s' & E' & F' & I' & Es' & D'); try done.
    + simpl in Hf. lia.
    + rewrite Es7. exact Hl6.
    + apply F2. intros q lq. destruct (decide (q = cur)) as [->|Hqc]; [rewrite lookup_insert_eq; by intros [= <-]|]. rewrite lookup_insert_ne by done. intros Hq Hin.
      apply Hqc. symmetry. exact (family_kid lk fam cur q _ _ h F Hc Hq ltac:(left) Hin).
    + rewrite lookup_insert_ne by done. apply lookup_insert_eq.
    + apply lookup_insert_eq.
    + intros c Hcl. apply D7, Hpr. by right.
    + exists s'. split; [exact E'|]. split; [|split; [done|split]].
      * rewrite reverse_cons, <- app_assoc. cbn [app]. rewrite insert_insert_eq in F'. rewrite (insert_insert_ne fam pp cur), insert_insert_eq in F' by done. exact F'.
      * rewrite Es', Es7. done.
      * intros q Hq. by apply D', D7.
Qed.
End exit.

(** ** Finding processes *)

Lemma hash_range n : exists h, hash32 n HASH_SHIFT = Ok h /\ 0 <= h < HASH_LIST_SIZE.
Proof.
  unfold hash32, HASH_SHIFT. change (u32 (32 - 10) <? 32) with true. eexists. split; [reflexivity|]. change (u32 (32 - 10)) with 22.
  pose proof (umod_range 32 (n * GOLDEN_RATIO_PRIME_32) ltac:(lia)) as Hr. unfold is_u in Hr. rewrite Z.shiftr_div_pow2 by lia.
  change HASH_LIST_SIZE with 1024. split; [apply Z.div_pos; lia|]. apply Z.div_lt_upper_bound; [lia|]. change (2 ^ 22 * 1024) with (2 ^ 32). lia.
Qed.

(** The hash holds exactly the processes of the list, each in the chain of its
    pid, and pids are unique. *)
Record hash_inv (s : ptable) : Prop := {
  hi_chains : forall h, 0 <= h < HASH_LIST_SIZE -> is_Some (hash_list s !! h);
  hi_list : forall p, p ∈ proc_list s <-> exists h l, hash_list s !! h = Some l /\ p ∈ l;
  hi_proc : forall h l p, hash_list s !! h = Some l -> p ∈ l -> exists pr, procs (sk (ks s)) !! p = Some pr /\
    0 < pid pr < MAX_PID /\ hash32 (pid pr) HASH_SHIFT = Ok h;
  hi_unique : forall p q, p ∈ proc_list s -> q ∈ proc_list s -> pid_at s p = pid_at s q -> p = q }.

Lemma chain_find_spec n s l : (forall p, p ∈ l -> is_Some (procs (sk (ks s)) !! p)) ->
  exists r, chain_find l n s = Ok (r, s) /\ match r with Some p => p ∈ l /\ pid_at s p = n | None => forall p, p ∈ l -> pid_at s p <> n end.
Proof.
  induction l as [|p l IH]; intros Hl; cbn [chain_find].
  - exists None. split; [done|]. by intros p ?%not_elem_of_nil.
  - destruct (Hl p) as [pr Hp]; [left|]. mstep (psched_rd_proc p pr s Hp). assert (Ep : pid_at s p = pid pr) by (unfold pid_at; by rewrite Hp).
    destruct (Z.eqb_spec (pid pr) n) as [E|E].
    + exists (Some p). split; [done|]. split; [left|congruence].
    + destruct IH as (r & Er & Hr); [intros; apply Hl; by right|]. exists r. split; [done|]. destruct r as [q|].
      * destruct Hr. split; [by right|done].
      * intros q [->|Hq]%elem_of_cons; [congruence|by apply Hr].
Qed.

(** Taking a lock and giving it back. *)
Definition with_lock (l : lock) (s : ptable) : ptable := set_ks (set_sk (set_locks (l :: locks (sk (ks s))) (sk (ks s))) (ks s)) s.

Lemma psched_acquire l s : l ∉ locks (sk (ks s)) -> psched (spinlock_acquire l) s = Ok (tt, with_lock l s).
Proof. intros H. unfold psched, psync, lift. by rewrite acquire_spec. Qed.

Lemma psched_release l ls s : locks (sk (ks s)) = l :: ls -> l ∉ ls ->
  psched (spinlock_release l) s = Ok (tt, set_ks (set_sk (set_locks ls (sk (ks s))) (ks s)) s).
Proof. intros E H. unfold psched, psync, lift. by rewrite (release_spec l ls). Qed.

Lemma with_lock_release l s : l ∉ locks (sk (ks s)) -> psched (spinlock_release l) (with_lock l s) = Ok (tt, s).
Proof. intros H. rewrite (psched_release l (locks (sk (ks s))) (with_lock l s)) by done. destruct s as [[[] ] ]. done. Qed.

Lemma find_proc_spec s n : hash_inv s -> ProcTableLock ∉ locks (sk (ks s)) ->
  exists r, find_proc n s = Ok (r, s) /\ forall p, r = Some p <-> p ∈ proc_list s /\ pid_at s p = n.
Proof.
  intros H Hl. unfold find_proc. mstep (psched_acquire ProcTableLock s Hl). set (s1 := with_lock _ s).
  assert (Hmid : exists r, (if (0 <? n) && (n <? MAX_PID) then h ← pid_hashfn n; l ← rd_chain h; chain_find l n else mret None) s1 = Ok (r, s1) /\
    forall p, r = Some p <-> p ∈ proc_list s /\ pid_at s p = n).
  { destruct (Z.ltb_spec 0 n), (Z.ltb_spec n MAX_PID); cbn [andb].
    2-4: exists None; split; [done|]; intros p; split; [done|]; intros [(h & l & Hh & Hp)%(hi_list _ H) E];
         destruct (hi_proc _ H h l p Hh Hp) as (pr & Hpr & Hr & _); unfold pid_at in E; rewrite Hpr in E; cbn in E; lia.
    destruct (hash_range n) as (h & Eh & Hh). destruct (hi_chains _ H h Hh) as [l El].
    assert (E1 : pid_hashfn n s1 = Ok (h, s1)) by (unfold pid_hashfn, lift_o; by rewrite Eh). mstep E1.
    assert (E2 : rd_chain h s1 = Ok (l, s1)) by (unfold rd_chain, load; cbn [hash_list s1 with_lock set_ks]; by rewrite El). mstep E2.
    destruct (chain_find_spec n s1 l) as (r & Er & Hr).
    { intros p Hp. destruct (hi_proc _ H h l p El Hp) as (pr & Hpr & _). by eexists. }
    exists r. split; [done|]. change (pid_at s1) with (pid_at s) in Hr. intros p. split.
    - intros ->. destruct Hr as [Hp E]. split; [apply (hi_list _ H); by exists h, l|done].
    - intros [Hp E]. pose proof Hp as (h' & l' & Hh' & Hp')%(hi_list _ H). destruct (hi_proc _ H h' l' p Hh' Hp') as (pr & Hpr & _ & Eh').
      assert (Epr : pid pr = n) by (unfold pid_at in E; by rewrite Hpr in E). rewrite Epr, Eh in Eh'. injection Eh' as <-. rewrite El in Hh'. injection Hh' as <-.
      destruct r as [q|]; [|by destruct (Hr p Hp')]. destruct Hr as [Hq Eq]. f_equal. apply (hi_unique _ H); [apply (hi_list _ H); by exists h, l|done|congruence]. }
  destruct Hmid as (r & Er & Hr). mstep Er. mstep (with_lock_release ProcTableLock s Hl). by exists r.
Qed.

(** Nobody has more children than there are processes. *)
Lemma kids_size lk fam p l : family lk fam -> fam !! p = Some l -> (length l <= size lk)%nat.
Proof.
  intros F Hp. destruct (proj1 (fa_dom _ _ F p) ltac:(by eexists)) as [x Hx]. destruct (fa_kids _ _ F p l x Hp Hx) as (Hd & _ & Hk).
  rewrite <- (size_list_to_set (C := gset Z) l Hd). rewrite <- size_dom.
  apply subseteq_size. intros q Hq%elem_of_list_to_set. destruct (Hk q Hq) as (z & Hz & _). apply elem_of_dom. by eexists.
Qed.

(** The first child has no younger sibling. *)
Lemma stale_none lk fam p l : family lk fam -> fam !! p = Some l -> lk = stale None l lk.
Proof.
  intros F Hp. destruct (proj1 (fa_dom _ _ F p) ltac:(by eexists)) as [x Hx]. destruct (fa_kids _ _ F p l x Hp Hx) as (_ & (y' & Hs) & _).
  destruct l as [|h l]; [done|]. cbn [stale sibs] in *. destruct Hs as (_ & xh & Hxh & Hyh & _). rewrite (alter_alt_Some _ _ _ xh Hxh).
  symmetry. apply insert_id. rewrite Hxh. destruct xh. cbn in *. by subst.
Qed.

(** ** Looking for a dead child *)

Definition zombie (s : ptable) (p : Z) : bool :=
  match procs (sk (ks s)) !! p with Some pr => bool_decide (state pr = PROC_ZOMBIE) | None => false end.

(** The first zombie among [l]; [haskid] tells whether there was a child before. *)
Fixpoint first_zombie (s : ptable) (l : list Z) (haskid : bool) : looked :=
  match l with
  | [] => if haskid then HasKid else NoKid
  | p :: l' => if zombie s p then Found p else first_zombie s l' true
  end.

Lemma wait_kids_spec s l : forall fuel o y y' haskid, (length l < fuel)%nat -> sibs (links s) o y l None y' ->
  (forall p, p ∈ l -> is_Some (procs (sk (ks s)) !! p)) -> wait_kids fuel o haskid s = Ok (first_zombie s l haskid, s).
Proof.
  induction l as [|p l IH]; intros fuel o y y' haskid Hf Hs Hp; (destruct fuel as [|fuel]; [simpl in Hf; lia|]); cbn [wait_kids sibs first_zombie] in *.
  - by destruct Hs as [-> _].
  - destruct Hs as (-> & x & Hx & _ & Hs). destruct (Hp p) as [pr Hpr]; [left|]. mstep (psched_rd_proc p pr s Hpr). unfold zombie. rewrite Hpr.
    destruct (bool_decide _); [done|]. mstep (rd_link_spec p x s Hx). apply (IH fuel (optr x) (Some p) y' true); [simpl in Hf; lia|done|]. intros; apply Hp; by right.
Qed.

Lemma first_zombie_app s l1 l2 haskid : first_zombie s (l1 ++ l2) haskid =
  match first_zombie s l1 haskid with Found p => Found p | r => first_zombie s l2 (bool_decide (r <> NoKid)) end.
Proof.
  revert haskid. induction l1 as [|p l1 IH]; intros haskid; cbn [app first_zombie]; [by destruct haskid|]. destruct (zombie s p); [done|]. apply IH.
Qed.

(** The thread group: from [c] the ring runs through [g] and ends at [cur]. *)
Fixpoint ring (s : ptable) (c : Z) (g : list Z) (cur : Z) : Prop :=
  match g with
  | [] => c = cur
  | t :: g' => c = t /\ exists pr, procs (sk (ks s)) !! t = Some pr /\ ring s (thread_next pr) g' cur
  end.

(** All children of the threads of [g]. *)
Definition group_kids (fam : gmap Z (list Z)) (g : list Z) : list Z := g ≫= (fun t => default [] (fam !! t)).

Lemma wait_any_spec s fam cur g : forall fuel n c haskid, (length g < fuel)%nat -> (size (links s) < n)%nat -> family (links s) fam ->
  g <> [] -> ring s c g cur -> (forall t, t ∈ g -> is_Some (links s !! t)) -> cur ∉ tail g -> (forall t l, t ∈ g -> fam !! t = Some l -> forall p, p ∈ l -> is_Some (procs (sk (ks s)) !! p)) ->
  wait_any fuel n c cur haskid s = Ok (first_zombie s (group_kids fam g) haskid, s).
Proof.
  induction g as [|t g IH]; intros fuel n c haskid Hf Hn F Hne Hr Hl Hcur Hp; [done|]. destruct fuel as [|fuel]; [simpl in Hf; lia|]. cbn [wait_any ring] in *.
  destruct Hr as (-> & pr & Hpr & Hr). destruct (Hl t) as [x Hx]; [left|]. mstep (rd_link_spec t x s Hx).
  destruct (proj2 (fa_dom _ _ F t) ltac:(by eexists)) as [l El]. destruct (fa_kids _ _ F t l x El Hx) as (Hd & (y' & Hs) & Hk).
  assert (Hlen : (length l < n)%nat).
  { pose proof (kids_size _ _ _ _ F El). lia. }
  rewrite (bind_step _ _ _ _ _ (wait_kids_spec s l n (cptr x) None y' haskid Hlen Hs ltac:(intros; by apply (Hp t l); [left|..]))).
  unfold group_kids. cbn [mbind list_bind]. rewrite El. cbn [default from_option]. unfold id. fold (group_kids fam g). rewrite first_zombie_app.
  assert (En : next_thread t s = Ok (thread_next pr, s)) by (unfold next_thread; by mstep (psched_rd_proc t pr s Hpr)).
  assert (Hrest : forall r, (forall p, r <> Found p) -> (nx ← next_thread t; if nx =? cur then mret r else wait_any fuel n nx cur (bool_decide (r <> NoKid))) s =
    Ok (first_zombie s (group_kids fam g) (bool_decide (r <> NoKid)), s)).
  { intros r Hnf. mstep En. destruct g as [|t' g]; cbn [ring] in Hr.
    - subst cur. rewrite Z.eqb_refl. cbn [group_kids mbind list_bind first_zombie]. destruct r; [by destruct (Hnf p)|done..].
    - destruct Hr as (-> & Hr). cbn [tail] in Hcur. destruct (Z.eqb_spec t' cur) as [->|_]; [exfalso; apply Hcur; left|].
      apply IH; try done; [simpl in *; lia|intros; apply Hl; by right|cbn [tail]; set_solver|]. intros t0 l0 Ht0. apply Hp. by right. }
  destruct (first_zombie s l haskid) as [p| |]; [done|by apply Hrest..].
Qed.

(** ** Reaping *)

Lemma family_delete lk fam p : family lk fam -> fam !! p = Some [] -> (forall q l, fam !! q = Some l -> p ∉ l) -> family (delete p lk) (delete p fam).
Proof.
  intros F Hp Hn. split.
  - intros q. destruct (decide (q = p)) as [->|]; [rewrite !lookup_delete_eq; done|]. rewrite !lookup_delete_ne by done. apply F.
  - intros q l x [Hqp Hl]%lookup_delete_Some [_ Hx]%lookup_delete_Some. destruct (fa_kids _ _ F q l x Hl Hx) as (Hd & (y' & Hs) & Hk).
    assert (Hpl : forall c, c ∈ l -> c <> p) by (intros c Hc ->; by apply (Hn q l)). split; [done|]. split.
    + exists y'. apply (sibs_frame lk); [|done]. intros r xr Hr Hxr. exists xr. rewrite lookup_delete_ne; [done|]. apply not_eq_sym. auto.
    + intros c Hc. destruct (Hk c Hc) as (z & Hz & Hpz). exists z. rewrite lookup_delete_ne; [done|]. apply not_eq_sym. auto.
Qed.

(** The table without [p], its pointers being [x]. *)
Definition without (s : ptable) (p : Z) (x : plink) : ptable :=
  Ptable (set_sk (set_procs (delete p (procs (sk (ks s)))) (sk (ks s))) (ks s)) (delete p (depart x (links s)))
    (filter (fun q => q <> p) (proc_list s)) (filter (fun q => q <> p) <$> hash_list s) (s32 (nr_process s - 1)) (next_safe s) (last_pid s)
    (initproc s) (delete p (ledger s)).

Lemma psched_current s c : cpus (sk (ks s)) !! myid (sk (ks s)) = Some c -> psched current s = Ok (cproc c, s).
Proof. intros H. unfold psched, psync, lift. rewrite (current_spec _ c H). by destruct s as [[] ]. Qed.
Lemma psched_idle s c : cpus (sk (ks s)) !! myid (sk (ks s)) = Some c -> psched idleproc s = Ok (idle c, s).
Proof. intros H. unfold psched, psync, lift. rewrite (idleproc_spec _ c H). by destruct s as [[] ]. Qed.

Lemma reap_spec s fam p pp l x c : family (links s) fam -> links s !! p = Some x -> parent x = Some pp -> fam !! pp = Some l -> p ∈ l ->
  cpus (sk (ks s)) !! myid (sk (ks s)) = Some c -> p <> idle c -> p <> initproc s -> ProcTableLock ∉ locks (sk (ks s)) ->
  reap p s = Ok (exit_code x, without s p x).
Proof.
  intros F Hx Hpx Hl Hin Hc Hidle Hinit Hlk. unfold reap. mstep (psched_idle s c Hc). rewrite bind_gets.
  massert; [|by destruct (Z.eqb_spec p (idle c)), (Z.eqb_spec p (initproc s))]. mstep (rd_link_spec p x s Hx).
  mstep (psched_acquire ProcTableLock s Hlk). unfold unhash_proc. rewrite bind_modify. set (s1 := set_hash _ (with_lock ProcTableLock s)).
  destruct (proj1 (fa_dom _ _ F pp) ltac:(by eexists)) as [xp Hxp]. destruct (fa_kids _ _ F pp l xp Hl Hxp) as (Hd & (y' & Hs) & Hk).
  assert (Hnb : forall r, optr x = Some r \/ yptr x = Some r -> is_Some (links s !! r)).
  { pose proof Hin as (l1 & l2 & El)%list_elem_of_split. rewrite El in Hs. destruct (sibs_split _ _ _ l1 p l2 y' x Hs Hx) as (Ho & Hy & _).
    assert (Hin' : forall r, r ∈ l -> is_Some (links s !! r)) by (intros r Hr; destruct (Hk r Hr) as (z & Hz & _); by eexists).
    intros r [Hr|Hr]; apply Hin'; rewrite El.
    - rewrite Ho in Hr. apply head_Some in Hr as (l' & ->). set_solver.
    - rewrite Hy in Hr. destruct (last l1) eqn:E1; [|done]. injection Hr as ->. apply last_Some_elem_of in E1. set_solver. }
  rewrite (bind_step _ _ _ _ _ (remove_links_spec p pp s1 x Hx Hpx ltac:(by eexists) ltac:(auto) ltac:(auto))). set (s2 := set_nr _ _).
  mstep (psched_release ProcTableLock (locks (sk (ks s))) s2 eq_refl Hlk). rewrite !bind_modify.
  destruct s as [[[] ] ]. done.
Qed.

Lemma without_family s fam p pp l x : family (links s) fam -> links s !! p = Some x -> parent x = Some pp -> fam !! pp = Some l -> p ∈ l -> fam !! p = Some [] ->
  family (links (without s p x)) (delete p (<[pp := filter (fun q => q <> p) l]> fam)).
Proof.
  intros F Hx Hpx Hl Hin Hp. assert (Hne : p <> pp) by (intros ->; rewrite Hl in Hp; injection Hp as ->; by apply not_elem_of_nil in Hin).
  apply family_delete; [by apply (depart_family _ _ p pp l x)|by rewrite lookup_insert_ne|].
  intros q lq. destruct (decide (q = pp)) as [->|Hq]; [rewrite lookup_insert_eq; intros [= <-]; by intros [? _]%list_elem_of_filter|].
  rewrite lookup_insert_ne by done. intros Hlq Hpq. apply Hq. exact (family_kid _ fam q pp lq l p F Hlq Hl Hpq Hin).
Qed.

(** ** The theorems on families *)

(** [set_links] makes a new process the youngest child of its parent and
    [remove_links] takes one out of its siblings, wherever it stands among
    them: the children of every other process, and the order of the others,
    stay; the sibling pointers in both directions and the parent's pointer to
    its youngest child agree again afterwards, and [nr_process] counts. *)
Theorem links_family s fam p pp x y l : family (links s) fam -> links s !! p = Some x -> parent x = Some pp -> links s !! pp = Some y -> fam !! pp = Some l ->
  (p <> pp -> (forall q l', fam !! q = Some l' -> p ∉ l') -> exists s', set_links p s = Ok (tt, s') /\
     family (links s') (<[pp := p :: l]> fam) /\ proc_list s' = p :: proc_list s /\ nr_process s' = s32 (nr_process s + 1)) /\
  (p ∈ l -> exists s', remove_links p s = Ok (tt, s') /\
     family (links s') (<[pp := filter (fun q => q <> p) l]> fam) /\ proc_list s' = filter (fun q => q <> p) (proc_list s) /\ nr_process s' = s32 (nr_process s - 1)).
Proof.
  intros F Hx Hpx Hy Hl. destruct (fa_kids _ _ F pp l y Hl Hy) as (Hd & (y' & Hs) & Hk).
  assert (Hin : forall r, r ∈ l -> is_Some (links s !! r)) by (intros r Hr; destruct (Hk r Hr) as (z & Hz & _); by eexists).
  split.
  - intros Hne Hfree. assert (Ho : forall o, cptr y = Some o -> o ∈ l).
    { intros o Eo. destruct l as [|o' l]; cbn [sibs] in Hs; destruct Hs as [E _]; rewrite Eo in E; [done|]. injection E as ->. left. }
    eexists. split; [apply (set_links_spec p pp s x y Hx Hpx Hy Hne)|split; [|done]].
    + intros E. by apply (Hfree pp l), Ho.
    + intros o Eo. by apply Hin, Ho.
    + apply adopt_family; try done.
  - intros Hp. pose proof Hp as (l1 & l2 & El)%list_elem_of_split. rewrite El in Hs. destruct (sibs_split _ _ _ l1 p l2 y' x Hs Hx) as (Ho & Hyx & _).
    eexists. split; [apply (remove_links_spec p pp s x Hx Hpx ltac:(by eexists))|split; [|done]].
    + intros r Hr. apply Hin. rewrite El. rewrite Ho in Hr. apply head_Some in Hr as (l' & ->). set_solver.
    + intros r Hr. apply Hin. rewrite El. rewrite Hyx in Hr. destruct (last l1) eqn:E1; [|done]. injection Hr as ->. apply last_Some_elem_of in E1. set_solver.
    + by apply (depart_family _ _ p pp l x).
Qed.

(** The exit of a process hands all its children to the new parent [pp], in
    front of the children that has and in reverse order, and wakes [pp] if it
    waits and one of them is dead already; the loop ends, no pointer is left
    dangling, and the exiting process has no children any more. *)
Theorem exit_hands_over NCPU C `{!SchedClass C} s fam cur pp l lp :
  family (links s) fam -> fam !! cur = Some l -> fam !! pp = Some lp -> cur <> pp -> sinv NCPU (sk (ks s)) -> wakeable NCPU (sk (ks s)) pp ->
  (forall c, c ∈ l -> is_Some (procs (sk (ks s)) !! c)) ->
  exists s', reparent NCPU C (S (size (links s))) cur pp s = Ok (tt, s') /\
    family (links s') (<[cur := []]> (<[pp := reverse l ++ lp]> fam)) /\ sinv NCPU (sk (ks s')).
Proof.
  intros F Hc Hp Hne I W Hpr. pose proof (kids_size _ _ _ _ F Hc).
  destruct (reparent_spec NCPU C cur pp l (S (size (links s))) s (links s) None fam lp) as (s' & E & F' & I' & _); try done;
    [lia|by apply (stale_none _ fam cur)|by exists s'].
Qed.

(** When a thread that created another thread of its group exits while that
    one is next in the group, the created thread becomes its own parent and its
    own child; from then on it always has a child, so that waiting for any
    child never reports that there is none. *)
Theorem exit_self_child NCPU C `{!SchedClass C} s fam cur pp l lp :
  family (links s) fam -> fam !! cur = Some l -> fam !! pp = Some lp -> cur <> pp -> sinv NCPU (sk (ks s)) -> wakeable NCPU (sk (ks s)) pp ->
  (forall c, c ∈ l -> is_Some (procs (sk (ks s)) !! c)) -> pp ∈ l ->
  exists s' fam' l' x, reparent NCPU C (S (size (links s))) cur pp s = Ok (tt, s') /\ family (links s') fam' /\
    fam' !! pp = Some l' /\ pp ∈ l' /\ links s' !! pp = Some x /\ parent x = Some pp /\ forall b, first_zombie s' l' b <> NoKid.
Proof.
  intros F Hc Hp Hne I W Hpr Hin. pose proof (kids_size _ _ _ _ F Hc).
  destruct (reparent_spec NCPU C cur pp l (S (size (links s))) s (links s) None fam lp) as (s' & E & F' & _); try done; [lia|by apply (stale_none _ fam cur)|].
  assert (Hl' : (<[cur := []]> (<[pp := reverse l ++ lp]> fam) : gmap Z (list Z)) !! pp = Some (reverse l ++ lp)) by (by rewrite lookup_insert_ne, lookup_insert_eq).
  assert (Hin' : pp ∈ reverse l ++ lp) by (apply elem_of_app; left; by apply elem_of_reverse).
  destruct (proj1 (fa_dom _ _ F' pp) ltac:(by eexists)) as [x Hx]. destruct (fa_kids _ _ F' pp _ x Hl' Hx) as (_ & _ & Hk).
  destruct (Hk pp Hin') as (z & Hz & Hpz). exists s', (<[cur := []]> (<[pp := reverse l ++ lp]> fam)), (reverse l ++ lp), z. split_and!; try done.
  intros b. destruct (reverse l ++ lp) as [|q l']; [by apply not_elem_of_nil in Hin'|]. cbn [first_zombie]. destruct (zombie s' q); [done|].
  assert (Hft : forall l0, first_zombie s' l0 true <> NoKid) by (induction l0 as [|a l0 IH]; cbn [first_zombie]; [done|by destruct (zombie s' a)]). apply Hft.
Qed.

(** ** Waiting *)

(** The group [g] of the current process, its families and the kernel in order. *)
Record wait_ready (s : ptable) (fam : gmap Z (list Z)) (g : list Z) (c : cpu) : Prop := {
  wr_fam : family (links s) fam;
  wr_cpu : cpus (sk (ks s)) !! myid (sk (ks s)) = Some c;
  wr_ring : ring s (cproc c) g (cproc c);
  wr_group : NoDup g /\ exists g', g = cproc c :: g';
  wr_links : forall t, t ∈ g -> is_Some (links s !! t);
  wr_procs : forall t l, t ∈ g -> fam !! t = Some l -> forall p, p ∈ l -> is_Some (procs (sk (ks s)) !! p);
  wr_lock : ProcTableLock ∉ locks (sk (ks s)) }.

Lemma wait_look_any s fam g c : wait_ready s fam g c -> wait_look 0 s = Ok (first_zombie s (group_kids fam g) false, s).
Proof.
  intros [F Hc Hr (Hd & g' & ->) Hl Hp _]. unfold wait_look. mstep (psched_current s c Hc). unfold nprocs. rewrite bind_gets.
  change (negb (0 =? 0)) with false. cbn iota. apply wait_any_spec; try done; [|lia|by apply list.NoDup_cons in Hd as [? _]].
  enough (length (cproc c :: g') <= size (links s))%nat by lia. rewrite <- (size_list_to_set (C := gset Z) _ Hd). rewrite <- size_dom.
  apply subseteq_size. intros q Hq%elem_of_list_to_set. apply elem_of_dom. by apply Hl.
Qed.

Lemma first_zombie_none s l b : (forall p, p ∈ l -> zombie s p = false) -> first_zombie s l b = if bool_decide (l = []) then (if b then HasKid else NoKid) else HasKid.
Proof.
  revert b. induction l as [|p l IH]; intros b Hz; cbn [first_zombie]; [done|]. rewrite (Hz p) by left. rewrite IH by (intros; apply Hz; by right).
  destruct (bool_decide (l = [])); done.
Qed.

Lemma first_zombie_found s l1 p l2 b : zombie s p = true -> (forall q, q ∈ l1 -> zombie s q = false) -> first_zombie s (l1 ++ p :: l2) b = Found p.
Proof.
  intros Hp. revert b. induction l1 as [|q l1 IH]; intros b Hz; cbn [app first_zombie]; [by rewrite Hp|]. rewrite (Hz q) by left. apply IH. intros; apply Hz; by right.
Qed.

Lemma psched_upd_proc p f pr s : procs (sk (ks s)) !! p = Some pr ->
  psched (upd_proc p f) s = Ok (tt, set_ks (set_sk (set_procs (<[p := f pr]> (procs (sk (ks s)))) (sk (ks s))) (ks s)) s).
Proof. intros H. unfold psched, psync, lift. by rewrite (upd_proc_spec p f pr). Qed.

(** The caller goes to sleep as one that waits for a child, and another process runs. *)
Definition put_to_sleep (NCPU : Z) (s s' : ptable) (p : Z) : Prop :=
  s' = set_ks (set_sk (sk (ks s')) (ks s)) s /\ kinv NCPU (sk (ks s')) /\ asleep NCPU (sk (ks s')) p WT_CHILD /\
  forall q x, q <> p -> procs (sk (ks s)) !! q = Some x -> exists x', procs (sk (ks s')) !! q = Some x' /\ keeps x x'.

Lemma wait_sleeps NCPU C `{!SchedClass C} s fam g c : wait_ready s fam g c -> kinv NCPU (sk (ks s)) -> my_process NCPU (sk (ks s)) (cproc c) -> wait_look 0 s = Ok (HasKid, s) ->
  exists s', do_wait NCPU C 0 true true s = Ok (WSleep, s') /\ put_to_sleep NCPU s s' (cproc c).
Proof.
  intros R K (c' & pr & Hc' & _ & Hp & Hpid) El. pose proof (wr_cpu _ _ _ _ R) as Hc. rewrite Hc in Hc'. injection Hc' as <-. set (k := sk (ks s)) in *. destruct K as (I & Hlk & Hin). unfold do_wait. cbn [negb]. mstep El. mstep (psched_current s c Hc).
  rewrite (bind_step _ _ _ tt (with_lock (ProcLock (cproc c)) s)) by (apply psched_acquire; fold k; rewrite Hlk; apply not_elem_of_nil).
  set (pr1 := with_wait WT_CHILD (with_state PROC_SLEEPING pr)). set (k1 := set_procs (<[cproc c := pr1]> (procs k)) k). set (s1 := set_ks (set_sk k1 (ks s)) s).
  rewrite (bind_step _ _ _ _ _ (psched_upd_proc (cproc c) (with_state PROC_SLEEPING) pr (with_lock (ProcLock (cproc c)) s) Hp)).
  set (sa := set_ks _ _). assert (Ha : procs (sk (ks sa)) !! cproc c = Some (with_state PROC_SLEEPING pr)) by apply lookup_insert_eq. rewrite (bind_step _ _ _ _ _ (psched_upd_proc (cproc c) (with_wait WT_CHILD) _ sa Ha)).
  assert (Hr : psched (spinlock_release (ProcLock (cproc c))) (set_ks (set_sk (set_procs (<[cproc c := pr1]> (procs (sk (ks sa)))) (sk (ks sa))) (ks sa)) sa) = Ok (tt, s1)).
  { rewrite (psched_release _ []); [|cbn; by rewrite <- Hlk|apply not_elem_of_nil]. unfold s1, k1, sa. cbn. rewrite insert_insert_eq. unfold with_lock, set_ks, set_sk, set_procs, set_locks. cbn. fold k. by rewrite Hlk. }
  rewrite (bind_step _ _ _ _ _ Hr). destruct (si_proc _ _ I _ _ Hp) as [Haff Hrq]. assert (I1 : sinv NCPU k1) by (apply (sinv_upd NCPU k _ pr); try done; left; apply (cpu_proc_unqueued NCPU k (myid k) c I Hc)).
  destruct (kinv_parts NCPU k) as (c0 & pr0 & q & _ & _ & Hq); [by split|]. assert (Hp1 : procs k1 !! cproc c = Some pr1) by apply lookup_insert_eq.
  destruct (schedule_spec NCPU C k1 c pr1 q I1 Hin) as (k2 & E2 & Sd); [intros p|..|done|done|done|]; [change (locks k1) with (locks k); rewrite Hlk; apply not_elem_of_nil..|].
  assert (Es : psched (schedule NCPU C) s1 = Ok (tt, set_ks (set_sk k2 (ks s)) s)) by (unfold psched, psync, lift; cbn [ks sk s1 set_ks set_sk]; by rewrite E2). rewrite (bind_step _ _ _ _ _ Es). eexists. split; [reflexivity|]. split; [done|]. cbn [ks sk set_ks set_sk]. split_and!.
  - split; [apply Sd|]. split; [rewrite (sd_locks _ _ _ _ _ Sd); done|rewrite (sd_intr _ _ _ _ _ Sd); done].
  - split; [eapply (schedule_sleeper NCPU k1 k2 c pr1 q (cproc c) pr1); try done; by right|]. destruct (sd_procs _ _ _ _ _ Sd _ _ Hp1) as (pr' & Hp' & Ks & Kp & Kw). exists pr'. split; [done|]. split; [done|]. split; [done|]. rewrite Kp. exact Hpid.
  - intros q' x Hne Hx. apply (sd_procs _ _ _ _ _ Sd). cbn. by rewrite lookup_insert_ne.
Qed.

(** C27: waiting for any child: without children [-E_BAD_PROC]; with children none
    of which is dead the caller is put to sleep, off the CPU and waiting for a child,
    and nobody else changes; otherwise the first dead child
    of the thread group is reaped: its exit code is returned, it disappears
    from the process list, the hash and its family, and nothing else does. *)
Theorem do_wait_any NCPU C `{!SchedClass C} s fam g c : wait_ready s fam g c ->
  (group_kids fam g = [] -> do_wait NCPU C 0 true true s = Ok (WDone (- E_BAD_PROC) None, s)) /\
  (group_kids fam g <> [] -> (forall p, p ∈ group_kids fam g -> zombie s p = false) -> kinv NCPU (sk (ks s)) -> my_process NCPU (sk (ks s)) (cproc c) ->
     exists s', do_wait NCPU C 0 true true s = Ok (WSleep, s') /\ put_to_sleep NCPU s s' (cproc c)) /\
  (forall l1 p l2 x, group_kids fam g = l1 ++ p :: l2 -> zombie s p = true -> (forall q, q ∈ l1 -> zombie s q = false) ->
     p <> idle c -> p <> initproc s -> fam !! p = Some [] -> links s !! p = Some x ->
     exists pp l, fam !! pp = Some l /\ p ∈ l /\ do_wait NCPU C 0 true true s = Ok (WDone 0 (Some (exit_code x)), without s p x) /\
       family (links (without s p x)) (delete p (<[pp := filter (fun q => q <> p) l]> fam))).
Proof.
  intros R. pose proof (wait_look_any s fam g c R) as E. pose proof R as [F Hc Hr (Hd & Hg) Hl Hp Hlk]. split_and!.
  - intros Hk. unfold do_wait. cbn [negb]. rewrite Hk in E. by mstep E.
  - intros Hk Hz K Hm. apply (wait_sleeps NCPU C s fam g c R K Hm). rewrite E, first_zombie_none by done. by rewrite bool_decide_eq_false_2.
  - intros l1 p l2 x Hk Hz Hz1 Hidle Hinit Hpk Hx. unfold do_wait. cbn [negb]. rewrite Hk, first_zombie_found in E by done.
    assert (Hin : p ∈ group_kids fam g) by (rewrite Hk; set_solver). unfold group_kids in Hin. apply list_elem_of_bind in Hin as (t & Hin & Ht).
    destruct (fam !! t) as [l|] eqn:El; [|by apply not_elem_of_nil in Hin]. cbn in Hin. destruct (Hl t Ht) as [xt Hxt].
    destruct (fa_kids _ _ F t l xt El Hxt) as (_ & _ & Hkt). destruct (Hkt p Hin) as (x' & Hx' & Hpx). rewrite Hx in Hx'. injection Hx' as <-.
    exists t, l. split; [done|]. split; [done|]. split; [|by apply without_family].
    mstep E. by mstep (reap_spec s fam p t l x c F Hx Hpx El Hin Hc Hidle Hinit Hlk).
Qed.

(** ** Publishing a child *)

(** What the links other than those of the family say does not matter to it. *)
Lemma family_frame lk lk' fam : family lk fam ->
  (forall q, is_Some (lk' !! q) <-> is_Some (lk !! q)) ->
  (forall q x x', lk !! q = Some x -> lk' !! q = Some x' -> parent x' = parent x /\ cptr x' = cptr x /\ yptr x' = yptr x /\ optr x' = optr x) ->
  family lk' fam.
Proof.
  intros F Hd Hx. split; [intros p; rewrite Hd; apply F|]. intros p l x' Hl Hx'. destruct (proj1 (Hd p) ltac:(by eexists)) as [x Hpx].
  destruct (fa_kids _ _ F p l x Hl Hpx) as (Hnd & (y' & Hs) & Hk). destruct (Hx p x x' Hpx Hx') as (_ & Ec & _). split; [done|]. split.
  - exists y'. rewrite Ec. apply (sibs_frame lk); [|done]. intros q xq Hq Hxq. destruct (proj2 (Hd q) ltac:(by eexists)) as [xq' Hxq'].
    exists xq'. split; [done|]. destruct (Hx q xq xq' Hxq Hxq') as (_ & _ & ? & ?). done.
  - intros c Hc. destruct (Hk c Hc) as (z & Hz & Hpz). destruct (proj2 (Hd c) ltac:(by eexists)) as [z' Hz']. exists z'. split; [done|].
    destruct (Hx c z z' Hz Hz') as (-> & _). done.
Qed.

(** The hash after a new process with an unused pid was entered. *)
Lemma hash_inv_add s s' p pr n h chain : hash_inv s -> procs (sk (ks s')) !! p = Some pr -> pid pr = n -> p ∉ proc_list s ->
  (forall q, q <> p -> pid <$> procs (sk (ks s')) !! q = pid <$> procs (sk (ks s)) !! q) -> 0 < n < MAX_PID -> hash32 n HASH_SHIFT = Ok h -> hash_list s !! h = Some chain ->
  (forall q, q ∈ proc_list s -> pid_at s q <> n) -> proc_list s' = p :: proc_list s -> hash_list s' = <[h := p :: chain]> (hash_list s) -> hash_inv s'.
Proof.
  intros H Hp En Hnew Hother Hn Eh Hch Huniq El Ehl. assert (Hpid : forall q, q ∈ proc_list s -> pid_at s' q = pid_at s q).
  { intros q Hq. unfold pid_at. specialize (Hother q ltac:(by intros ->)). destruct (procs (sk (ks s')) !! q), (procs (sk (ks s)) !! q); cbn in *; [by injection Hother|done..]. }
  assert (Epp : pid_at s' p = n) by (unfold pid_at; by rewrite Hp).
  split; rewrite ?El, ?Ehl.
  - intros h' Hh'. destruct (decide (h' = h)) as [->|]; [rewrite lookup_insert_eq; by eexists|]. rewrite lookup_insert_ne by done. by apply H.
  - intros q. rewrite elem_of_cons, (hi_list _ H). split.
    + intros [->|(h' & l & Hl & Hq)]; [exists h, (p :: chain); rewrite lookup_insert_eq; split; [done|left]|].
      destruct (decide (h' = h)) as [->|]; [|exists h', l; by rewrite lookup_insert_ne]. exists h, (p :: chain). rewrite lookup_insert_eq. split; [done|].
      right. rewrite Hch in Hl. by injection Hl as ->.
    + intros (h' & l & [[<- <-]|[Hne Hl]]%lookup_insert_Some & Hq); [|right; by exists h', l]. apply elem_of_cons in Hq as [->|Hq]; [by left|right; by exists h, chain].
  - intros h' l q Hl Hq. assert (Hold : forall l0, hash_list s !! h' = Some l0 -> q ∈ l0 -> exists pr0, procs (sk (ks s')) !! q = Some pr0 /\
      0 < pid pr0 < MAX_PID /\ hash32 (pid pr0) HASH_SHIFT = Ok h').
    { intros l0 Hl0 Hq0. specialize (Hother q ltac:(intros ->; apply Hnew, (hi_list _ H); by exists h', l0)). destruct (hi_proc _ H h' l0 q Hl0 Hq0) as (pr0 & Hpr0 & Hpr1). rewrite Hpr0 in Hother. destruct (procs (sk (ks s')) !! q) as [pr1|]; [|done]. injection Hother as Eo. exists pr1. by rewrite Eo. }
    apply lookup_insert_Some in Hl as [[<- <-]|[Hne Hl]]; [|by apply (Hold l)]. apply elem_of_cons in Hq as [->|Hq]; [exists pr; by rewrite En|by apply (Hold chain)].
  - intros a b [->|Ha]%elem_of_cons [->|Hb]%elem_of_cons; [done|..].
    + rewrite Epp, Hpid by done. intros E. by destruct (Huniq b Hb).
    + rewrite Epp, Hpid by done. intros E. by destruct (Huniq a Ha).
    + rewrite !Hpid by done. by apply H.
Qed.

(** ** Thread groups *)

Definition tnext (s : ptable) (q : Z) : option Z := thread_next <$> procs (sk (ks s)) !! q.
Definition tprev (s : ptable) (q : Z) : option Z := thread_prev <$> links s !! q.

(** The ring of [cur] runs through [g], in both directions. *)
Record thread_group (s : ptable) (cur : Z) (g : list Z) : Prop := {
  tg_nodup : NoDup g;
  tg_first : head g = Some cur;
  tg_next : forall i t, g !! i = Some t -> tnext s t = Some (default cur (g !! S i));
  tg_prev : forall i t, g !! i = Some t -> tprev s t = match i with O => last g | S j => g !! j end }.

(** Only pointers of the ring may differ. *)
Definition kin (x : plink) : option Z * option Z * option Z * option Z := (parent x, cptr x, yptr x, optr x).
Definition gid_at (s : ptable) (q : Z) : option Z := gid <$> links s !! q.
Record regrouped (s s' : ptable) : Prop := {
  rg_pids : forall q, pid <$> procs (sk (ks s')) !! q = pid <$> procs (sk (ks s)) !! q;
  rg_kin : forall q, kin <$> links s' !! q = kin <$> links s !! q;
  rg_rest : (proc_list s', hash_list s', last_pid s', next_safe s', locks (sk (ks s'))) = (proc_list s, hash_list s, last_pid s, next_safe s, locks (sk (ks s))) }.

Lemma group_same s s' cur g : (forall q, q ∈ g -> tnext s' q = tnext s q /\ tprev s' q = tprev s q) -> thread_group s cur g -> thread_group s' cur g.
Proof.
  intros H [G1 G2 G3 G4]. split; [done|done|..]; intros i t Ht; destruct (H t (list_elem_of_lookup_2 _ _ _ Ht)) as [E1 E2]; [rewrite E1; by apply G3|rewrite E2; by apply G4].
Qed.

Lemma group_grown s s' cur g p z : thread_group s cur g -> p ∉ g -> last g = Some z ->
  tnext s' p = Some cur -> tnext s' z = Some p -> (forall q, q <> p -> q <> z -> tnext s' q = tnext s q) ->
  tprev s' p = Some z -> tprev s' cur = Some p -> (forall q, q <> p -> q <> cur -> tprev s' q = tprev s q) -> thread_group s' cur (g ++ [p]).
Proof.
  intros [G1 G2 G3 G4] Hp Hz N1 N2 N3 P1 P2 P3. rewrite last_lookup in Hz. assert (Hl : (0 < length g)%nat) by (destruct g; [done|cbn; lia]). assert (Hc : g !! 0%nat = Some cur) by (by destruct g). split.
  - apply NoDup_app. split; [done|]. split; [|apply NoDup_singleton]. intros x Hx ->%list_elem_of_singleton. done.
  - by destruct g.
  - intros i t Ht. destruct (decide (i < length g)%nat) as [Hi|Hi].
    + rewrite lookup_app_l in Ht by done. assert (Htp : t <> p) by (intros ->; exact (Hp (list_elem_of_lookup_2 _ _ _ Ht))). destruct (decide (S i = length g)) as [Ei|Ei].
      * assert (t = z) as -> by (rewrite <- Ei in Hz; cbn in Hz; congruence). rewrite N2. rewrite lookup_app_r, Ei, Nat.sub_diag by lia. done.
      * rewrite lookup_app_l by lia. rewrite N3; [by apply G3|done|]. intros ->. assert (i = pred (length g)) by (by eapply NoDup_lookup). lia.
    + apply lookup_app_Some in Ht as [Ht|[_ Ht]]; [apply lookup_lt_Some in Ht; lia|]. apply list_lookup_singleton_Some in Ht as [Ei <-]. rewrite N1. rewrite lookup_ge_None_2; [done|]. rewrite length_app. cbn. lia.
  - intros i t Ht. rewrite last_app. cbn [last]. destruct (decide (i < length g)%nat) as [Hi|Hi].
    + rewrite lookup_app_l in Ht by done. assert (Htp : t <> p) by (intros ->; exact (Hp (list_elem_of_lookup_2 _ _ _ Ht))). destruct i as [|i]; [assert (t = cur) as -> by congruence; done|].
      rewrite lookup_app_l by lia. rewrite P3; [by apply (G4 (S i))|done|]. intros ->. assert (S i = 0%nat) by (by eapply NoDup_lookup). done.
    + apply lookup_app_Some in Ht as [Ht|[_ Ht]]; [apply lookup_lt_Some in Ht; lia|]. apply list_lookup_singleton_Some in Ht as [Ei <-]. rewrite P1. destruct i as [|i]; [lia|]. rewrite lookup_app_l by lia. by replace i with (pred (length g)) by lia.
Qed.

Lemma join_group_ok s cur g p x pr : thread_group s cur g -> p ∉ g -> links s !! p = Some x -> procs (sk (ks s)) !! p = Some pr ->
  exists s', join_group cur p s = Ok (tt, s') /\ thread_group s' cur (g ++ [p]) /\ regrouped s s' /\ forall q, gid_at s' q = gid_at s q.
Proof.
  intros G Hp Hx Hpr. pose proof G as [_ G2 G3 G4]. assert (Hc : g !! 0%nat = Some cur) by (by destruct g). destruct (last g) as [z|] eqn:Ez; [|by destruct g as [|c g]; [|apply last_None in Ez]].
  assert (Hzg : z ∈ g) by (by apply last_Some_elem_of). pose proof (G4 0%nat cur Hc) as Hy. cbn in Hy. unfold tprev in Hy. destruct (links s !! cur) as [y|] eqn:Ey; [|done]. injection Hy as Hy.
  assert (Hcp : cur <> p) by (intros ->; exact (Hp (list_elem_of_lookup_2 _ _ _ Hc))). assert (Hzp : z <> p) by (by intros ->). assert (Hzl : is_Some (procs (sk (ks s)) !! z)).
  { apply list_elem_of_lookup in Hzg as [i Hi]. specialize (G3 i z Hi). unfold tnext in G3. destruct (procs (sk (ks s)) !! z); [by eexists|done]. }
  destruct Hzl as [zr Hzr]. unfold join_group. mstep (rd_link_spec cur y s Ey). mstep (upd_link_spec cur (with_tprev p) y s Ey). set (s1 := set_links_ _ s). rewrite Hy.
  mstep (psched_upd_proc z (with_tnext p) zr s1 Hzr). set (s2 := set_ks _ s1). assert (Hp2 : procs (sk (ks s2)) !! p = Some pr) by (cbn; by rewrite lookup_insert_ne). mstep (psched_upd_proc p (with_tnext cur) pr s2 Hp2). set (s3 := set_ks _ s2).
  assert (Hx3 : links s3 !! p = Some x) by (cbn; by rewrite lookup_insert_ne). rewrite (upd_link_spec p (with_tprev z) x s3 Hx3). eexists. split; [reflexivity|].
  assert (Epr : procs (sk (ks s3)) = <[p := with_tnext cur pr]> (<[z := with_tnext p zr]> (procs (sk (ks s))))) by done. assert (Elk : links s3 = <[cur := with_tprev p y]> (links s)) by done. split_and!.
  - apply (group_grown s _ cur g p z G Hp Ez); unfold tnext, tprev; cbn [ks links set_links_]; rewrite ?Epr, ?Elk.
    + by rewrite lookup_insert_eq.
    + by rewrite lookup_insert_ne, lookup_insert_eq.
    + intros q H1 H2. by rewrite !lookup_insert_ne.
    + by rewrite lookup_insert_eq.
    + by rewrite lookup_insert_ne, lookup_insert_eq.
    + intros q H1 H2. by rewrite !lookup_insert_ne.
  - split; [..|done]; intros q; cbn [ks links set_links_]; rewrite ?Epr, ?Elk.
    + destruct (decide (q = p)) as [->|]; [by rewrite lookup_insert_eq, Hpr|]. rewrite lookup_insert_ne by done. destruct (decide (q = z)) as [->|]; [by rewrite lookup_insert_eq, Hzr|]. by rewrite lookup_insert_ne.
    + destruct (decide (q = p)) as [->|]; [by rewrite lookup_insert_eq, Hx|]. rewrite lookup_insert_ne by done. destruct (decide (q = cur)) as [->|]; [by rewrite lookup_insert_eq, Ey|]. by rewrite lookup_insert_ne.
  - intros q. unfold gid_at. cbn [links set_links_]. rewrite Elk. destruct (decide (q = p)) as [->|]; [by rewrite lookup_insert_eq, Hx|]. rewrite lookup_insert_ne by done. destruct (decide (q = cur)) as [->|]; [by rewrite lookup_insert_eq, Ey|]. by rewrite lookup_insert_ne.
Qed.

(** The group and the group id of a new process: its own, or those of its creator. *)
Definition grouped (flags cur p n : Z) (g : list Z) (s s' : ptable) : Prop :=
  if decide (Z.land flags CLONE_THREAD = 0) then thread_group s' cur g /\ gid_at s' p = Some n else thread_group s' cur (g ++ [p]) /\ gid_at s' p = gid_at s cur.

Lemma group_branch s flags cur g p n x pr : thread_group s cur g -> p ∉ g -> links s !! p = Some x -> procs (sk (ks s)) !! p = Some pr ->
  exists s', (if negb (Z.land flags CLONE_THREAD =? 0) then _ ← join_group cur p; x ← rd_link cur; upd_link p (with_gid (gid x)) else upd_link p (with_gid n)) s = Ok (tt, s') /\
    regrouped s s' /\ grouped flags cur p n g s s'.
Proof.
  intros G Hp Hx Hpr.
  assert (Hg : forall s0 v x0, links s0 !! p = Some x0 -> exists s', upd_link p (with_gid v) s0 = Ok (tt, s') /\ regrouped s0 s' /\ gid_at s' p = Some v /\ (forall q, tnext s' q = tnext s0 q /\ tprev s' q = tprev s0 q)).
  { intros s0 v x0 Hx0. rewrite (upd_link_spec p _ x0 s0 Hx0). eexists. split; [reflexivity|]. unfold gid_at, tprev. cbn [links set_links_]. split_and!; [|by rewrite lookup_insert_eq|].
    - split; [done| |done]. intros q. cbn [links set_links_]. destruct (decide (q = p)) as [->|]; [by rewrite lookup_insert_eq, Hx0|by rewrite lookup_insert_ne].
    - intros q. split; [done|]. destruct (decide (q = p)) as [->|]; [by rewrite lookup_insert_eq, Hx0|by rewrite lookup_insert_ne]. }
  unfold grouped. destruct (Z.eqb_spec (Z.land flags CLONE_THREAD) 0) as [E0|E0]; cbn [negb].
  - destruct (Hg s n x Hx) as (s' & E & R & Hgid & Ht). exists s'. split; [done|]. split; [done|]. rewrite decide_True by done. split; [|done]. by apply (group_same s).
  - destruct (join_group_ok s cur g p x pr G Hp Hx Hpr) as (s1 & E1 & G1 & R1 & Hgid1). mstep E1. pose proof (tg_prev _ _ _ G 0%nat cur ltac:(destruct G as [_ G2 _ _]; by destruct g)) as Hy. unfold tprev in Hy.
    assert (Hc1 : exists y, links s1 !! cur = Some y /\ gid_at s cur = Some (gid y)).
    { specialize (Hgid1 cur). unfold gid_at in *. destruct (links s !! cur) as [y|]; [|destruct G as [_ G2 _ _]; destruct g as [|c0 g]; [done|]; cbn in Hy; symmetry in Hy; by apply last_None in Hy]. destruct (links s1 !! cur) as [y1|]; [|done]. exists y1. split; [done|]. by rewrite <- Hgid1. }
    destruct Hc1 as (y & Hy1 & Hgc). mstep (rd_link_spec cur y s1 Hy1). assert (Hx1 : exists x1, links s1 !! p = Some x1) by (pose proof (rg_kin _ _ R1 p) as Hk; rewrite Hx in Hk; destruct (links s1 !! p); [by eexists|done]). destruct Hx1 as [x1 Hx1].
    destruct (Hg s1 (gid y) x1 Hx1) as (s' & E & R & Hgid & Ht). exists s'. split; [done|]. split; [|rewrite decide_False by done; split; [by apply (group_same s1)|congruence]]. destruct R1 as [A1 A2 A3], R as [B1 B2 B3]. split; [intros q; by rewrite B1|intros q; by rewrite B2|by rewrite B3].
Qed.

(** C26: the critical section of [do_fork] gives the child a pid that no other
    process has and enters it in the process list, in the hash and as the
    youngest child of its parent; a process starts a group of its own, a thread is
    linked at the end of the group of its creator; afterwards [find_proc] finds it
    under that pid, all invariants of the table hold again and the lock is free. *)
Theorem fork_publishes NCPU s fam flags cur p l x pr g : hash_inv s -> pid_inv s -> family (links s) fam -> links s !! p = Some x -> parent x = Some cur ->
  procs (sk (ks s)) !! p = Some pr -> p ∉ proc_list s -> p <> cur -> (forall q l', fam !! q = Some l' -> p ∉ l') -> fam !! cur = Some l ->
  thread_group s cur g -> p ∉ g -> 1 <= NCPU < MAX_PID -> Z.of_nat (length (proc_list s)) < MAX_PID - 1 -> ProcTableLock ∉ locks (sk (ks s)) ->
  exists n s', publish NCPU flags cur p s = Ok (tt, s') /\ (forall q, q ∈ proc_list s -> pid_at s q <> n) /\ find_proc n s' = Ok (Some p, s') /\
    hash_inv s' /\ pid_inv s' /\ family (links s') (<[cur := p :: l]> fam) /\ proc_list s' = p :: proc_list s /\ locks (sk (ks s')) = locks (sk (ks s)) /\ grouped flags cur p n g s s'.
Proof.
  intros H PI F Hx Hpx Hpr Hnew Hne Hfree Hl G Hpg HN Hlen Hlk. unfold publish. mstep (psched_acquire ProcTableLock s Hlk). set (s1 := with_lock _ s).
  assert (PI1 : pid_inv s1) by (by destruct PI; split).
  destruct (get_pid_spec NCPU s1 PI1 HN Hlen) as (n & s2 & E2 & Hn & Hu & Es2 & PI2). mstep E2.
  mstep (psched_upd_proc p (with_pid n) pr s2 ltac:(by rewrite Es2)). set (s3 := set_ks _ s2).
  destruct (hash_range n) as (h & Eh & Hh). destruct (hi_chains _ H h Hh) as [chain Hch].
  assert (Hp3 : procs (sk (ks s3)) !! p = Some (with_pid n pr)) by apply lookup_insert_eq.
  assert (E4 : hash_proc p s3 = Ok (tt, set_hash (<[h := p :: chain]> (hash_list s3)) s3)).
  { unfold hash_proc. mstep (psched_rd_proc p _ s3 Hp3). cbn [pid with_pid]. unfold pid_hashfn, lift_o.
    rewrite (bind_step _ _ s3 h s3) by (by rewrite Eh). unfold rd_chain. rewrite (bind_step _ _ s3 chain s3); [done|]. unfold load. replace (hash_list s3) with (hash_list s) by (unfold s3; rewrite Es2; done). by rewrite Hch. }
  mstep E4. set (s4 := set_hash _ s3). destruct (proj1 (fa_dom _ _ F cur) ltac:(by eexists)) as [y Hy].
  assert (Hlk4 : links s4 = links s) by (unfold s4, s3; rewrite Es2; done).
  destruct (fa_kids _ _ F cur l y Hl Hy) as (Hd & (y' & Hs) & Hk).
  assert (Ho : forall o, cptr y = Some o -> o ∈ l) by (intros o Eo; destruct l as [|o' l]; cbn [sibs] in Hs; destruct Hs as [E _]; rewrite Eo in E; [done|injection E as ->; left]).
  assert (E5 := set_links_spec p cur s4 x y ltac:(by rewrite Hlk4) Hpx ltac:(by rewrite Hlk4) Hne ltac:(intros E; by apply (Hfree cur l), Ho)
    ltac:(intros o Eo; rewrite Hlk4; destruct (Hk o (Ho o Eo)) as (z & Hz & _); by eexists)).
  mstep E5. set (s5 := set_nr _ _).
  assert (F5 : family (links s5) (<[cur := p :: l]> fam)) by (cbn [links s5 set_nr set_proc_list set_links_]; rewrite Hlk4; apply adopt_family; try done; by eexists).
  destruct (proj1 (fa_dom _ _ F5 p)) as [x5 Hx5]; [rewrite lookup_insert_ne by done; apply F; by eexists|].
  assert (Hprocs : procs (sk (ks s5)) = <[p := with_pid n pr]> (procs (sk (ks s)))) by (unfold s5, s4, s3; rewrite Es2; done).
  assert (Hl5 : forall q, links s5 !! q = adopted (cptr y) p cur q <$> links s !! q) by (intros q; cbn [links s5 set_nr set_proc_list set_links_]; rewrite Hlk4; apply adopt_lookup).
  assert (G5 : thread_group s5 cur g).
  { apply (group_same s); [|done]. intros q Hq. unfold tnext, tprev. rewrite Hprocs, Hl5, lookup_insert_ne by (by intros ->). split; [done|]. by destruct (links s !! q). }
  destruct (group_branch s5 flags cur g p n x5 (with_pid n pr) G5 Hpg Hx5 ltac:(by rewrite Hprocs, lookup_insert_eq)) as (s6 & E6 & R6 & Gr). mstep E6. destruct R6 as [A1 A2 A3]. injection A3 as B1 B2 B3 B4 B5.
  assert (Hl6 : locks (sk (ks s6)) = ProcTableLock :: locks (sk (ks s))) by (rewrite B5; unfold s5, s4, s3; rewrite Es2; done).
  rewrite (psched_release ProcTableLock (locks (sk (ks s))) s6 Hl6 Hlk). set (s7 := set_ks _ s6).
  assert (Hpid7 : forall q, pid <$> procs (sk (ks s7)) !! q = pid <$> (<[p := with_pid n pr]> (procs (sk (ks s)))) !! q) by (intros q; rewrite <- Hprocs; apply A1).
  assert (Hp7 : exists pr7, procs (sk (ks s7)) !! p = Some pr7 /\ pid pr7 = n) by (specialize (Hpid7 p); rewrite lookup_insert_eq in Hpid7; destruct (procs (sk (ks s7)) !! p) as [pr7|]; [exists pr7; split; [done|by injection Hpid7]|done]). destruct Hp7 as (pr7 & Hp7 & Epid7).
  assert (Hat7 : forall q, q <> p -> pid_at s7 q = pid_at s q) by (intros q Hq; specialize (Hpid7 q); rewrite lookup_insert_ne in Hpid7 by done; unfold pid_at; destruct (procs (sk (ks s7)) !! q), (procs (sk (ks s)) !! q); cbn in *; [by injection Hpid7|done..]).
  assert (Hlist : proc_list s7 = p :: proc_list s) by (cbn [s7 set_ks proc_list]; rewrite B1; unfold s5, s4, s3; rewrite Es2; done).
  assert (Hinv : hash_inv s7).
  { apply (hash_inv_add s s7 p pr7 n h chain H Hp7 Epid7 Hnew); [|lia|done|done|exact Hu|done|cbn [s7 set_ks hash_list]; rewrite B2; unfold s5, s4, s3; rewrite Es2; done].
    intros q Hq. by rewrite Hpid7, lookup_insert_ne. }
  assert (Hlk7 : locks (sk (ks s7)) = locks (sk (ks s))) by done.
  exists n, s7. split; [done|]. split; [exact Hu|]. split; [|split; [done|split; [|split; [|split; [done|split; [done|]]]]]].
  - destruct (find_proc_spec s7 n Hinv ltac:(by rewrite Hlk7)) as (r & Er & Hr). rewrite Er. do 2 f_equal. apply Hr. split; [rewrite Hlist; left|].
    unfold pid_at. by rewrite Hp7.
  - destruct PI2 as [P1 P2 P3]. assert (E7 : last_pid s7 = n /\ next_safe s7 = next_safe s2) by (cbn [s7 set_ks last_pid next_safe]; rewrite B3, B4; unfold s5, s4, s3; rewrite Es2; done). destruct E7 as [E7a E7b].
    assert (El2 : last_pid s2 = n /\ proc_list s2 = proc_list s /\ forall q, pid_at s2 q = pid_at s q) by (rewrite Es2; done). destruct El2 as (El2 & El3 & El4).
    split; rewrite ?Hlist, ?E7a, ?E7b.
    + intros q [->|Hq]%elem_of_cons; [by eexists|]. specialize (Hpid7 q). rewrite lookup_insert_ne in Hpid7 by (by intros ->). destruct (pi_procs _ PI q Hq) as [z Hz]. rewrite Hz in Hpid7. destruct (procs (sk (ks s7)) !! q); [by eexists|done].
    + intros q [->|Hq]%elem_of_cons; [left; unfold pid_at; rewrite Hp7; cbn; lia|]. rewrite Hat7, <- El4 by (by intros ->). rewrite <- El2 at 1. apply P2. by rewrite El3.
    + rewrite El2 in P3. lia.
  - apply (family_frame (links s5)); [done|..]; intros q; cbn [links s7 set_ks]; specialize (A2 q).
    + destruct (links s6 !! q), (links s5 !! q); try done; split; by eexists.
    + intros z z' Hz Hz'. rewrite Hz, Hz' in A2. by injection A2 as -> -> -> ->.
  - unfold grouped in *. assert (Hgc : gid_at s5 cur = gid_at s cur) by (unfold gid_at; rewrite Hl5; by destruct (links s !! cur)). assert (Hsame : forall gg, thread_group s6 cur gg -> thread_group s7 cur gg) by (intros gg; by apply group_same). case_decide; destruct Gr as [G1 G2]; (split; [by apply Hsame|]); [done|]. change (gid_at s7 p) with (gid_at s6 p). congruence.
Qed.

(** ** A fork that fails *)

Definition release_all (p : Z) (L : gmap Z (list resource)) (l : list resource) : gmap Z (list resource) :=
  <[p := filter (fun r => r ∉ l) (default [] (L !! p))]> L.

Lemma put_all_spec p l : forall s, is_Some (ledger s !! p) -> put_all p l s = Ok (tt, set_ledger (release_all p (ledger s) l) s).
Proof.
  induction l as [|r l IH]; intros s [h Hh]; cbn [put_all].
  - unfold release_all. rewrite Hh. cbn [default from_option]. rewrite filter_all by (intros; apply not_elem_of_nil). unfold id. rewrite insert_id by done. by destruct s.
  - unfold put. rewrite bind_modify, IH by (cbn [ledger set_ledger]; rewrite lookup_insert_eq; by eexists). do 2 f_equal.
    unfold release_all, set_ledger. cbn. f_equal. rewrite lookup_insert_eq, insert_insert_eq. cbn [default from_option]. unfold id. f_equal.
    rewrite Hh. cbn. rewrite list_filter_filter. apply list_filter_iff'. intros z _. rewrite not_elem_of_cons. tauto.
Qed.

Lemma acquire_all p rs : forall oks s h, ledger s !! p = Some h -> exists ok L, acquire p rs oks h s = Ok (ok, set_ledger L s) /\
  (forall q, q <> p -> L !! q = ledger s !! q) /\ (ok = true <-> exists rest, oks = replicate (length rs) true ++ rest) /\
  L !! p = Some (if ok then reverse rs ++ h else []).
Proof.
  induction rs as [|r rs IH]; intros oks s h Hh; cbn [acquire].
  { exists true, (ledger s). split; [by destruct s|]. split; [done|]. split; [|done]. split; [intros _; by exists oks|done]. }
  assert (Hfail : default false (head oks) = false -> exists ok L, (if default false (head oks) then _ ← hold p r; acquire p rs (tail oks) (r :: h) else _ ← put_all p h; mret false) s =
     Ok (ok, set_ledger L s) /\ (forall q, q <> p -> L !! q = ledger s !! q) /\ ok = false /\ L !! p = Some []).
  { intros ->. exists false, (release_all p (ledger s) h). rewrite (bind_step _ _ _ _ _ (put_all_spec p h s ltac:(by eexists))). split; [done|].
    unfold release_all. split; [intros q Hq; by rewrite lookup_insert_ne|]. split; [done|]. rewrite lookup_insert_eq, Hh. cbn. f_equal.
    apply filter_none. intros z Hz Hz'. by apply Hz'. }
  destruct oks as [|[] oks].
  - destruct (Hfail eq_refl) as (ok & L & E & Hq & -> & Hp). exists false, L. split; [done|]. split; [done|]. split; [|done]. split; [done|by intros (? & ?)].
  - clear Hfail. change (default false (head (true :: oks))) with true. cbn iota. unfold hold. rewrite bind_modify, Hh. cbn [tail].
    change (r :: default [] (Some h)) with (r :: h).
    destruct (IH oks (set_ledger (<[p := r :: h]> (ledger s)) s) (r :: h)) as (ok & L & E & Hq & Hok & Hp); [apply lookup_insert_eq|].
    exists ok, L. split; [exact E|]. split; [intros q Hqp; rewrite Hq by done; cbn [ledger set_ledger]; by rewrite lookup_insert_ne|]. split.
    + rewrite Hok. cbn [length replicate app]. split; intros (rest & Er); exists rest; congruence.
    + rewrite Hp, reverse_cons, <- app_assoc. done.
  - destruct (Hfail eq_refl) as (ok & L & E & Hq & -> & Hp). exists false, L. split; [done|]. split; [done|]. split; [|done]. split; [done|by intros (? & ?)].
Qed.

(** [t] is [s] with a child [p] in the making. *)
Record forking (s : ptable) (p : Z) (t : ptable) : Prop := {
  fk_procs : exists f, procs (sk (ks t)) = <[p := f]> (procs (sk (ks s)));
  fk_links : exists x, links t = <[p := x]> (links s);
  fk_ledger : ledger t = <[p := []]> (ledger s);
  fk_cpu : cpus (sk (ks t)) = cpus (sk (ks s)) /\ myid (sk (ks t)) = myid (sk (ks s));
  fk_table : proc_list t = proc_list s /\ hash_list t = hash_list s /\ nr_process t = nr_process s }.

Lemma forking_proc s p t f : forking s p t -> exists t', psched (upd_proc p f) t = Ok (tt, t') /\ forking s p t'.
Proof.
  intros [(pf & P) L G K T]. eexists. split; [apply (psched_upd_proc p f pf); by rewrite P, lookup_insert_eq|].
  split; try done. exists (f pf). cbn. by rewrite P, insert_insert_eq.
Qed.

Lemma forking_link s p t f : forking s p t -> exists t', upd_link p f t = Ok (tt, t') /\ forking s p t'.
Proof.
  intros [P (x & L) G K T]. eexists. split; [apply (upd_link_spec p f x); by rewrite L, lookup_insert_eq|].
  split; try done. exists (f x). cbn. by rewrite L, insert_insert_eq.
Qed.

Lemma forking_alloc event_queue s p : exists t, alloc_proc event_queue p s = Ok (tt, t) /\ forking s p t.
Proof. eexists. split; [reflexivity|]. split; [by eexists|by eexists|done..]. Qed.

(** A fork that runs out of memory at any of its steps gives back all the
    child had acquired and leaves the process table as it was, with one
    exception: half of the caller's time slice is gone. *)
Theorem fork_failure NCPU C event_queue s c pr flags p oks : cpus (sk (ks s)) !! myid (sk (ks s)) = Some c -> procs (sk (ks s)) !! cproc c = Some pr ->
  procs (sk (ks s)) !! p = None -> links s !! p = None -> ledger s !! p = None ->
  nr_process s < MAX_PROCESS -> wait_state pr = 0 -> 0 <= time_slice pr ->
  (forall rest, oks <> replicate (length fork_order) true ++ rest) ->
  exists s', do_fork NCPU C event_queue flags (Some p) oks s = Ok (- E_NO_MEM, s') /\
    procs (sk (ks s')) = <[cproc c := with_slice (time_slice pr - Z.quot (time_slice pr) 2) pr]> (procs (sk (ks s))) /\
    links s' = links s /\ ledger s' = ledger s /\ proc_list s' = proc_list s /\ hash_list s' = hash_list s /\ nr_process s' = nr_process s.
Proof.
  intros Hc Hpr Hp Hl Hg Hnr Hw Ht Hoks. unfold do_fork. rewrite bind_gets. destruct (Z.leb_spec MAX_PROCESS (nr_process s)); [lia|].
  destruct (forking_alloc event_queue s p) as (s1 & E1 & K1). mstep E1. assert (Hne : p <> cproc c) by (intros ->; congruence).
  assert (E2 : exists s2, (if negb (Z.land flags CLONE_PINCPU =? 0) then psched (upd_proc p (fun x => with_flags (Z.lor (pflags x) PF_PINCPU) x)) else mret tt) s1 =
    Ok (tt, s2) /\ forking s p s2) by (destruct (negb _); [by apply forking_proc|by exists s1]).
  destruct E2 as (s2 & E2 & K2). mstep E2. pose proof (fk_cpu _ _ _ K2) as [C2 M2]. mstep (psched_current s2 c ltac:(by rewrite C2, M2)).
  destruct (forking_link s p s2 (with_parent (Some (cproc c))) K2) as (s3 & E3 & K3). mstep E3.
  assert (E4 : exists s4, thread_init p s3 = Ok (tt, s4) /\ forking s p s4).
  { unfold thread_init. destruct (forking_proc s p s3 (with_tnext p) K3) as (t & Et & Kt). mstep Et. by apply forking_link. }
  destruct E4 as (s4 & E4 & K4). mstep E4. destruct (fk_procs _ _ _ K4) as (f4 & P4).
  mstep (psched_rd_proc (cproc c) pr s4 ltac:(by rewrite P4, lookup_insert_ne)). massert; [|by apply Z.eqb_eq]. massert; [|by apply Z.leb_le].
  destruct (forking_proc s p s4 (with_slice (Z.quot (time_slice pr) 2)) K4) as (s5 & E5 & K5). mstep E5. destruct (fk_procs _ _ _ K5) as (f5 & P5).
  mstep (psched_upd_proc (cproc c) (with_slice (time_slice pr - Z.quot (time_slice pr) 2)) pr s5 ltac:(by rewrite P5, lookup_insert_ne)). set (s6 := set_ks _ s5).
  pose proof (fk_ledger _ _ _ K5) as G5.
  destruct (acquire_all p fork_order oks s6 []) as (ok & L & E7 & Hq & Hok & Hlp); [cbn [ledger s6 set_ks]; by rewrite G5, lookup_insert_eq|].
  mstep E7. destruct ok; [exfalso; destruct Hok as [Hok _]; destruct (Hok eq_refl) as (rest & Er); by apply (Hoks rest)|].
  unfold free_proc. eexists. split; [reflexivity|]. destruct (fk_links _ _ _ K5) as (x5 & L5). destruct (fk_table _ _ _ K5) as (R5 & H5 & N5).
  cbn [procs sk ks set_ks set_sk set_procs links ledger proc_list hash_list nr_process set_links_ set_ledger s6].
  split; [rewrite P5, delete_insert_ne by done; by rewrite delete_insert_id|]. split; [rewrite L5; by rewrite delete_insert_id|]. split; [|done].
  apply map_eq. intros q. destruct (decide (q = p)) as [->|Hqp]; [rewrite lookup_delete_eq; done|]. rewrite lookup_delete_ne by done. rewrite Hq by done.
  cbn [ledger s6 set_ks]. by rewrite G5, lookup_insert_ne.
Qed.

(** The search of [get_pid] wraps around to 1, not to [NCPU]: when the
    process with the highest pid is still alive the next process gets pid 1,
    which on a multiprocessor is the pid of the idle process of CPU 1. *)
Theorem get_pid_idle_clash NCPU s p : procs (sk (ks s)) !! p <> None -> proc_list s = [p] -> pid_at s p = MAX_PID - 1 ->
  last_pid s = MAX_PID - 2 -> next_safe s = MAX_PID - 1 -> get_pid NCPU s = Ok (1, set_pids (MAX_PID - 1) 1 s).
Proof.
  intros Hp Hl Hpid Hlast Hsafe. unfold get_pid. rewrite bind_gets, Hl.
  rewrite (bind_step _ _ _ _ _ (pids_of_spec [p] s ltac:(intros q ->%list_elem_of_singleton; destruct (procs (sk (ks s)) !! p); [by eexists|done]))).
  rewrite (bind_step get _ s s s eq_refl). cbn [fmap list_fmap]. rewrite Hpid, Hlast, Hsafe.
  assert (E : pid_repeat (Z.to_nat (2 * MAX_PID)) [MAX_PID - 1] (MAX_PID - 2 + 1) MAX_PID = Ok (1, MAX_PID - 1)) by (vm_compute; reflexivity).
  change (MAX_PID <=? MAX_PID - 2 + 1) with false. change (MAX_PID - 1 <=? MAX_PID - 2 + 1) with true. cbv zeta iota. rewrite E. done.
Qed.

(** ** Families that can be checked *)

Fixpoint sibsb (lk : gmap Z plink) (o y : option Z) (l : list Z) : bool :=
  match l with
  | [] => bool_decide (o = None)
  | p :: l' => bool_decide (o = Some p) && match lk !! p with Some x => bool_decide (yptr x = y) && sibsb lk (optr x) (Some p) l' | None => false end
  end.
Definition kidsb (lk : gmap Z plink) (p : Z) (l : list Z) : bool :=
  match lk !! p with
  | Some x => bool_decide (NoDup l) && sibsb lk (cptr x) None l && bool_decide (Forall (fun c => parent <$> lk !! c = Some (Some p)) l)
  | None => false
  end.
Definition familyb (lk : gmap Z plink) (fam : gmap Z (list Z)) : bool :=
  bool_decide (dom fam = dom lk) && bool_decide (map_Forall (fun p l => kidsb lk p l = true) fam).

Lemma sibsb_sound lk l : forall o y, sibsb lk o y l = true -> exists y', sibs lk o y l None y'.
Proof.
  induction l as [|p l IH]; intros o y; cbn [sibsb sibs].
  - intros ->%bool_decide_eq_true_1. by eexists.
  - intros [->%bool_decide_eq_true_1 H]%andb_true_iff. destruct (lk !! p) as [x|]; [|done]. apply andb_true_iff in H as [H1%bool_decide_eq_true_1 H2].
    destruct (IH _ _ H2) as (y' & Hs). exists y'. split; [done|]. by exists x.
Qed.

Lemma familyb_sound lk fam : familyb lk fam = true -> family lk fam.
Proof.
  intros [Hd%bool_decide_eq_true_1 Hk%bool_decide_eq_true_1]%andb_true_iff. split.
  - intros p. rewrite <- !elem_of_dom. by rewrite Hd.
  - intros p l x Hl Hx. specialize (Hk p l Hl). unfold kidsb in Hk. rewrite Hx in Hk.
    apply andb_true_iff in Hk as [[H1%bool_decide_eq_true_1 H2]%andb_true_iff H3%bool_decide_eq_true_1]. split; [done|]. split; [by apply sibsb_sound|].
    intros c Hc. rewrite list.Forall_forall in H3. specialize (H3 c Hc). destruct (lk !! c) as [z|]; [|done]. exists z. by injection H3.
Qed.

(** ** Concrete tables *)

Definition ex_link (par c y o : option Z) (p : Z) : plink := Plink par c y o 7 p 0.
Definition ex_links : gmap Z plink :=
  list_to_map [(0, ex_link None (Some 1) None None 0); (1, ex_link (Some 0) (Some 4) None None 1); (2, ex_link (Some 1) (Some 3) (Some 4) None 2);
               (3, ex_link (Some 2) None None None 3); (4, ex_link (Some 1) None None (Some 2) 4)].
Definition ex_fam : gmap Z (list Z) := list_to_map [(0, [1]); (1, [4; 2]); (2, [3]); (3, []); (4, [])].
Lemma ex_family : family ex_links ex_fam.
Proof. apply familyb_sound. vm_compute. reflexivity. Qed.

Definition ex_table (k : sched) (lk : gmap Z plink) (l : list Z) (ns lp : Z) : ptable :=
  Ptable (Sync k ∅ ∅ ∅ ∅ ∅ ∅ 0) lk l (gset_to_gmap [] (list_to_set (seqZ 0 HASH_LIST_SIZE))) 5 ns lp 9 ∅.

Lemma get_pid_unique_witness : exists n s', get_pid 1 (ex_table ex_sched ex_links [2; 3; 4] MAX_PID MAX_PID) = Ok (n, s') /\ 1 <= n < MAX_PID /\
  (forall p, p ∈ [2; 3; 4] -> pid_at (ex_table ex_sched ex_links [2; 3; 4] MAX_PID MAX_PID) p <> n) /\
  s' = set_pids (next_safe s') n (ex_table ex_sched ex_links [2; 3; 4] MAX_PID MAX_PID) /\ pid_inv s'.
Proof.
  apply (get_pid_unique 1 (ex_table ex_sched ex_links [2; 3; 4] MAX_PID MAX_PID)); [split|unfold MAX_PID, MAX_PROCESS; lia|vm_compute; reflexivity].
  - cbn [proc_list ex_table ks sk]. intros p Hp. set_unfold in Hp. destruct Hp as [->|[->|[->|[]]]]; by eexists.
  - intros p Hp. cbn [proc_list ex_table] in Hp. set_unfold in Hp. left. destruct Hp as [->|[->|[->|[]]]]; vm_compute; discriminate.
  - cbn. unfold MAX_PID, MAX_PROCESS. lia.
Defined.

Definition ex_high : ptable := ex_table (set_procs (<[2 := ex_proc PROC_RUNNABLE 8191 8 (Some 0)]> (procs ex_sched)) ex_sched) ex_links [2] 8191 8190.
Lemma get_pid_idle_clash_witness : get_pid 4 ex_high = Ok (1, set_pids (MAX_PID - 1) 1 ex_high).
Proof. apply (get_pid_idle_clash 4 ex_high 2); [vm_compute; discriminate|reflexivity..]. Defined.

Lemma links_family_witness : exists s', remove_links 4 (ex_table ex_sched ex_links [2; 3; 4] MAX_PID MAX_PID) = Ok (tt, s') /\
  family (links s') (<[1 := [2]]> ex_fam) /\ proc_list s' = [2; 3] /\ nr_process s' = 4.
Proof.
  destruct (links_family (ex_table ex_sched ex_links [2; 3; 4] MAX_PID MAX_PID) ex_fam 4 1 (ex_link (Some 1) None None (Some 2) 4)
    (ex_link (Some 0) (Some 4) None None 1) [4; 2] ex_family eq_refl eq_refl eq_refl eq_refl) as [_ H].
  exact (H ltac:(left)).
Defined.

Lemma ex_kid c : c ∈ [3] -> is_Some (procs ex_sched !! c).
Proof. intros ->%list_elem_of_singleton. by eexists. Qed.

Lemma exit_hands_over_witness : exists s', reparent 1 RR_sched_class 6 2 4 (ex_table ex_sched ex_links [2; 3; 4] MAX_PID MAX_PID) = Ok (tt, s') /\
  family (links s') (<[2 := []]> (<[4 := reverse [3] ++ []]> ex_fam)) /\ sinv 1 (sk (ks s')).
Proof.
  exact (exit_hands_over 1 RR_sched_class (ex_table ex_sched ex_links [2; 3; 4] MAX_PID MAX_PID) ex_fam 2 4 [3] [] ex_family eq_refl eq_refl
    ltac:(discriminate) ex_sched_inv ex_sched_wakeable ex_kid).
Defined.

(** Thread 2 created thread 4 and exits. *)
Definition ex_tlinks : gmap Z plink := list_to_map [(2, ex_link (Some 1) (Some 4) None None 2); (4, ex_link (Some 2) None None None 4)].
Definition ex_tfam : gmap Z (list Z) := list_to_map [(2, [4]); (4, [])].
Lemma ex_tfamily : family ex_tlinks ex_tfam.
Proof. apply familyb_sound. vm_compute. reflexivity. Qed.
Lemma ex_tkid c : c ∈ [4] -> is_Some (procs ex_sched !! c).
Proof. intros ->%list_elem_of_singleton. by eexists. Qed.

Lemma exit_self_child_witness : exists s' fam' l' x, reparent 1 RR_sched_class 3 2 4 (ex_table ex_sched ex_tlinks [2; 4] MAX_PID MAX_PID) = Ok (tt, s') /\
  family (links s') fam' /\ fam' !! 4 = Some l' /\ 4 ∈ l' /\ links s' !! 4 = Some x /\ parent x = Some 4 /\ forall b, first_zombie s' l' b <> NoKid.
Proof.
  exact (exit_self_child 1 RR_sched_class (ex_table ex_sched ex_tlinks [2; 4] MAX_PID MAX_PID) ex_tfam 2 4 [4] [] ex_tfamily eq_refl eq_refl
    ltac:(discriminate) ex_sched_inv ex_sched_wakeable ex_tkid ltac:(left)).
Defined.

(** Process 1 has the children 4, dead, and 2. *)
Definition ex_wtable : ptable :=
  ex_table (set_procs (<[1 := Proc PROC_RUNNABLE 1 0 false 0 0 (Some 0) 3 0 1]> (<[4 := ex_proc PROC_ZOMBIE 4 0 None]> (procs ex_sched))) ex_sched)
    ex_links [2; 3; 4] MAX_PID MAX_PID.
Lemma ex_wait_ready : wait_ready ex_wtable ex_fam [1] (Cpu 1 0 0 []).
Proof.
  split.
  - exact ex_family.
  - reflexivity.
  - cbn [ring cproc]. split; [done|]. eexists. split; [reflexivity|]. reflexivity.
  - split; [apply NoDup_singleton|by exists []].
  - intros t ->%list_elem_of_singleton. by eexists.
  - intros t l ->%list_elem_of_singleton [= <-] p Hp. set_unfold in Hp. destruct Hp as [->|[->|[]]]; by eexists.
  - apply not_elem_of_nil.
Qed.

Lemma do_wait_any_witness : exists pp l, ex_fam !! pp = Some l /\ 4 ∈ l /\
  do_wait 1 RR_sched_class 0 true true ex_wtable = Ok (WDone 0 (Some 7), without ex_wtable 4 (ex_link (Some 1) None None (Some 2) 4)) /\
  family (links (without ex_wtable 4 (ex_link (Some 1) None None (Some 2) 4))) (delete 4 (<[pp := filter (fun q => q <> 4) l]> ex_fam)).
Proof.
  destruct (do_wait_any 1 RR_sched_class ex_wtable ex_fam [1] (Cpu 1 0 0 []) ex_wait_ready) as (_ & _ & H).
  exact (H [] 4 [2] (ex_link (Some 1) None None (Some 2) 4) eq_refl eq_refl ltac:(by intros q ?%not_elem_of_nil) ltac:(discriminate) ltac:(discriminate) eq_refl eq_refl).
Defined.

(** An empty table: process 0 forks its first child, process 4. *)
Definition ex_flinks : gmap Z plink := list_to_map [(0, ex_link None None None None 0); (4, ex_link (Some 0) None None None 4)].
Definition ex_ffam : gmap Z (list Z) := list_to_map [(0, []); (4, [])].
Definition ex_ftable : ptable := ex_table ex_sched ex_flinks [] MAX_PID MAX_PID.

Lemma ex_fhash : hash_inv ex_ftable.
Proof.
  split; cbn [hash_list proc_list ex_ftable ex_table].
  - intros h Hh. exists []. apply lookup_gset_to_gmap_Some. split; [|done]. apply elem_of_list_to_set, elem_of_seqZ. lia.
  - intros p. split; [by intros ?%not_elem_of_nil|]. intros (h & l & [_ <-]%lookup_gset_to_gmap_Some & Hp). by apply not_elem_of_nil in Hp.
  - intros h l p [_ <-]%lookup_gset_to_gmap_Some Hp. by apply not_elem_of_nil in Hp.
  - by intros p q ?%not_elem_of_nil.
Qed.

Lemma fork_publishes_witness : exists n s', publish 1 CLONE_THREAD 0 4 ex_ftable = Ok (tt, s') /\ (forall q, q ∈ [] -> pid_at ex_ftable q <> n) /\
  find_proc n s' = Ok (Some 4, s') /\ hash_inv s' /\ pid_inv s' /\ family (links s') (<[0 := [4]]> ex_ffam) /\ proc_list s' = [4] /\ locks (sk (ks s')) = [] /\ grouped CLONE_THREAD 0 4 n [0] ex_ftable s'.
Proof.
  apply (fork_publishes 1 ex_ftable ex_ffam CLONE_THREAD 0 4 [] (ex_link (Some 0) None None None 4) (ex_proc PROC_SLEEPING 4 0 None) [0] ex_fhash);
    try reflexivity; try apply not_elem_of_nil; try discriminate.
  - split; [by intros p ?%not_elem_of_nil..|]. cbn. unfold MAX_PID, MAX_PROCESS. lia.
  - apply familyb_sound. vm_compute. reflexivity.
  - intros q l' Hl. apply elem_of_list_to_map_2 in Hl. set_unfold in Hl. destruct Hl as [[= -> ->]|[[= -> ->]|[]]]; apply not_elem_of_nil.
  - split; [apply NoDup_singleton|reflexivity|..]; intros i t [-> <-]%list_lookup_singleton_Some; vm_compute; reflexivity.
  - set_solver.
  - unfold MAX_PID, MAX_PROCESS. lia.
Defined.

Lemma fork_failure_witness : exists s', do_fork 1 RR_sched_class (fun p => p) 0 (Some 5) [true; true; false] (ex_table ex_sched ex_links [2; 3; 4] MAX_PID MAX_PID) = Ok (- E_NO_MEM, s') /\
  procs (sk (ks s')) = <[1 := with_slice 2 (ex_proc PROC_RUNNABLE 1 3 (Some 0))]> (procs ex_sched) /\
  links s' = ex_links /\ ledger s' = ∅ /\ proc_list s' = [2; 3; 4] /\ hash_list s' = hash_list (ex_table ex_sched ex_links [2; 3; 4] MAX_PID MAX_PID) /\ nr_process s' = 5.
Proof.
  exact (fork_failure 1 RR_sched_class (fun p => p) (ex_table ex_sched ex_links [2; 3; 4] MAX_PID MAX_PID) (Cpu 1 0 0 []) (ex_proc PROC_RUNNABLE 1 3 (Some 0))
    0 5 [true; true; false] eq_refl eq_refl eq_refl eq_refl eq_refl ltac:(reflexivity) eq_refl ltac:(cbn; lia) ltac:(intros rest; discriminate)).
Defined.
