(* ===== verification/Event.v ===== *)
(** * Event: events between processes (sync/event.c)

    A sender leaves its event in its own box and sleeps in the queue of the
    receiver's box until the receiver has taken it.  [event_queue p] is the
    address of the wait queue in the box of process [p]; the event itself is in
    the field [events] of the synchronisation layer's state. *)

From stdpp Require Import numbers gmap list.
From S2P Require Import Prelude Sched Timer Wait Sem Proc.
Local Open Scope Z_scope.

Definition WT_EVENT_SEND : Z := Z.lor 0x110 WT_INTERRUPTED.
Definition WT_EVENT_RECV : Z := Z.lor 0x111 WT_INTERRUPTED.

Section event.
Context (NCPU : Z) (C : sched_class) (event_queue : Z -> Z).

Definition event_box_init (p : Z) : M ptable unit := psync (wait_queue_init (event_queue p)).

(** ** Sending *)

(** [send_event] before and after its [schedule]. *)
Definition send_event_enter (p : Z) (timer : option Z) (w : Z) : M ptable unit :=
  _ ← psched (spinlock_acquire (EventLock p));
  _ ← psync (wait_current_set (event_queue p) w WT_EVENT_SEND);
  _ ← psync (ipc_add_timer timer);
  _ ← psched (spinlock_release (EventLock p));
  _ ← psched (spinlock_release EventStupidLock);
  psched (schedule NCPU C).

Definition send_event_leave (p : Z) (timer : option Z) (w : Z) : M ptable Z :=
  _ ← psched (spinlock_acquire EventStupidLock);
  _ ← psched (spinlock_acquire (EventLock p));
  _ ← psync (ipc_del_timer timer);
  _ ← psync (wait_current_del (event_queue p) w);
  _ ← psched (spinlock_release (EventLock p));
  x ← psync (rd_wait w);
  mret (if negb (wakeup_flags x =? WT_EVENT_SEND) then wakeup_flags x else 0).

Inductive sending := Refused (ret : Z) | Sleeping (p : Z) (timer : option Z) (saved : Z).

(** [ipc_event_send] up to the [schedule] of [send_event] ([UCONFIG_SWAP] is not
    set); [t] and [w] are the timer and the wait record on the stack. *)
Definition ipc_event_send (n event timeout t w : Z) : M ptable sending :=
  _ ← psched (spinlock_acquire EventStupidLock);
  p ← find_proc n;
  cur ← psched current;
  idl ← psched idleproc;
  ini ← gets initproc;
  ok ← match p with
       | None => mret false
       | Some p =>
           pr ← psched (rd_proc p);
           mret (negb (bool_decide (state pr = PROC_ZOMBIE)) && negb ((p =? cur) || (p =? idl) || (p =? ini)))
       end;
  match p with
  | Some p =>
      if (ok : bool) then
        pr ← psched (rd_proc p);
        _ ← (if wait_state pr =? WT_EVENT_RECV then psched (wakeup_proc NCPU C p) else mret tt);
        _ ← psync (modify (fun s => set_events (<[cur := event]> (events s)) s));
        '(timer, saved) ← psync (ipc_timer_init timeout t);
        _ ← send_event_enter p timer w;
        mret (Sleeping p timer saved)
      else _ ← psched (spinlock_release EventStupidLock); mret (Refused (- E_INVAL))
  | None => _ ← psched (spinlock_release EventStupidLock); mret (Refused (- E_INVAL))
  end.

(** ... and from there on. *)
Definition ipc_event_sent (p timeout : Z) (timer : option Z) (saved w : Z) : M ptable Z :=
  flags ← send_event_leave p timer w;
  if flags =? 0 then _ ← psched (spinlock_release EventStupidLock); mret 0
  else
    _ ← kassert (flags =? WT_INTERRUPTED);
    r ← psync (ipc_check_timeout timeout saved);
    _ ← psched (spinlock_release EventStupidLock);
    mret r.

(** ** Receiving *)

(** From [int ret = -1] on: the sender's pid and its event, if there is one. *)
Definition recv_take (cur : Z) : M ptable (option (Z * Z)) :=
  w ← psync (wait_queue_first (event_queue cur));
  r ← match w with
      | None => mret None
      | Some w =>
          x ← psync (rd_wait w);
          pr ← psched (rd_proc (wproc x));
          e ← psync (load (fun s => events s !! wproc x));
          _ ← psched (spinlock_acquire (WaitQueueLock (event_queue cur)));
          _ ← psync (wakeup_wait NCPU C (event_queue cur) w WT_EVENT_SEND true);
          _ ← psched (spinlock_release (WaitQueueLock (event_queue cur)));
          mret (Some (pid pr, e))
      end;
  _ ← psched (spinlock_release (EventLock cur));
  mret r.

(** [None]: nobody has sent anything, the receiver has gone to sleep. *)
Definition recv_event_enter (timer : option Z) : M ptable (option (option (Z * Z))) :=
  cur ← psched current;
  _ ← psched (spinlock_acquire (EventLock cur));
  e ← psync (wait_queue_empty (event_queue cur));
  if (e : bool) then
    _ ← psched (upd_proc cur (with_state PROC_SLEEPING));
    _ ← psched (upd_proc cur (with_wait WT_EVENT_RECV));
    _ ← psync (ipc_add_timer timer);
    _ ← psched (spinlock_release (EventLock cur));
    _ ← psched (spinlock_release EventStupidLock);
    _ ← psched (schedule NCPU C);
    mret None
  else r ← recv_take cur; mret (Some r).

Definition recv_event_resume (timer : option Z) : M ptable (option (Z * Z)) :=
  cur ← psched current;
  _ ← psched (spinlock_acquire EventStupidLock);
  _ ← psched (spinlock_acquire (EventLock cur));
  _ ← psync (ipc_del_timer timer);
  recv_take cur.

(** The end of [ipc_event_recv]; [copied]: the copies to the user succeed. *)
Definition recv_done (r : option (Z * Z)) (timeout saved : Z) (copied : bool) : M ptable (Z * option (Z * Z)) :=
  match r with
  | Some e => _ ← psched (spinlock_release EventStupidLock); mret (if copied then (0, Some e) else (- E_INVAL, None))
  | None =>
      ret ← psync (ipc_check_timeout timeout saved);
      _ ← psched (spinlock_release EventStupidLock);
      mret (ret, None)
  end.

Inductive receiving := Received (ret : Z) (e : option (Z * Z)) | Waiting (timer : option Z) (saved : Z).

(** [store]: whether [event_store] is given, [mem_ok]: the checks of the user's
    pointers. *)
Definition ipc_event_recv (store mem_ok copied : bool) (timeout t : Z) : M ptable receiving :=
  if negb store then mret (Received (- E_INVAL) None)
  else
    _ ← psched (spinlock_acquire EventStupidLock);
    if negb mem_ok then _ ← psched (spinlock_release EventStupidLock); mret (Received (- E_INVAL) None)
    else
      '(timer, saved) ← psync (ipc_timer_init timeout t);
      r ← recv_event_enter timer;
      match r with
      | Some r => '(ret, e) ← recv_done r timeout saved copied; mret (Received ret e)
      | None => mret (Waiting timer saved)
      end.
End event.

(** ** The rendezvous *)

Lemma psync_spec {A} (m : M sync A) s a k : m (ks s) = Ok (a, k) -> psync m s = Ok (a, set_ks k s).
Proof. unfold psync. by intros ->. Qed.

Lemma psync_read {A} (m : M sync A) s a : m (ks s) = Ok (a, ks s) -> psync m s = Ok (a, s).
Proof. intros H. rewrite (psync_spec m s a _ H). by destruct s. Qed.

Section rendezvous.
Context (NCPU : Z) (C : sched_class) `{!SchedClass C} (event_queue : Z -> Z).

(** Sender [p] sleeps first in the queue of [r], its record being [w]. *)
Record offered (s : ptable) (r w : Z) (l : list Z) (x : wait_t) (pr : proc) (e : Z) : Prop := {
  of_s : sinv NCPU (sk (ks s));
  of_w : winv (ks s);
  of_q : wqs (ks s) !! event_queue r = Some (w :: l);
  of_x : waits (ks s) !! w = Some x;
  of_p : procs (sk (ks s)) !! wproc x = Some pr;
  of_e : events (ks s) !! wproc x = Some e;
  of_wake : wakeable NCPU (sk (ks s)) (wproc x) }.

Lemma offered_lock s r w l x pr e lk : offered s r w l x pr e -> offered (with_lock lk s) r w l x pr e.
Proof. intros [I W Hq Hx Hp He Hw]. split; try done. by apply sinv_set_locks. Qed.

(** What the receiver leaves behind. *)
Record taken (s : ptable) (r w : Z) (l : list Z) (x : wait_t) (t : ptable) : Prop := {
  tk_s : sinv NCPU (sk (ks t));
  tk_w : winv (ks t);
  tk_q : wqs (ks t) = <[event_queue r := l]> (wqs (ks s));
  tk_x : waits (ks t) !! w = Some (Wait (wproc x) WT_EVENT_SEND (wqueue x));
  tk_run : runnable (sk (ks t)) (wproc x);
  tk_e : events (ks t) = events (ks s) }.

Lemma recv_take_spec s r w l x pr e ls : offered s r w l x pr e -> locks (sk (ks s)) = EventLock r :: ls -> EventLock r ∉ ls ->
  WaitQueueLock (event_queue r) ∉ ls -> exists t, recv_take NCPU C event_queue r s = Ok (Some (pid pr, e), t) /\ taken s r w l x t /\ locks (sk (ks t)) = ls.
Proof.
  intros O Hlk Hn1 Hn2. unfold recv_take. pose proof O as [_ _ Hq Hx Hp He _].
  assert (E1 : psync (wait_queue_first (event_queue r)) s = Ok (Some w, s)) by (apply psync_read; unfold wait_queue_first; by mstep (rd_wq_spec _ _ _ Hq)).
  mstep E1. rewrite bind_assoc_M. mstep (psync_read _ s x (rd_wait_spec w x (ks s) Hx)).
  rewrite bind_assoc_M. mstep (psched_rd_proc _ pr s Hp).
  assert (E2 : psync (load (fun s => events s !! wproc x)) s = Ok (e, s)) by (apply psync_read; unfold load; by rewrite He).
  rewrite bind_assoc_M. mstep E2. rewrite bind_assoc_M.
  assert (Hn : WaitQueueLock (event_queue r) ∉ locks (sk (ks s))) by (rewrite Hlk; apply not_elem_of_cons; by split).
  mstep (psched_acquire _ s Hn). pose proof (offered_lock _ _ _ _ _ _ _ (WaitQueueLock (event_queue r)) O) as [I W Hq1 Hx1 Hp1 _ Hw1].
  set (s1 := with_lock _ s) in *. destruct (wakeup_wait_spec NCPU C (ks s1) (event_queue r) (w :: l) w x WT_EVENT_SEND W I Hq1 ltac:(left) Hx1 Hw1) as (k & E3 & Wk & Ik & W').
  rewrite bind_assoc_M. mstep (psync_spec _ s1 tt _ E3). set (s2 := set_ks _ s1). destruct (woken_frame _ _ _ Wk) as (_ & _ & Fl & _).
  assert (Hl2 : locks (sk (ks s2)) = WaitQueueLock (event_queue r) :: EventLock r :: ls) by (cbn; rewrite Fl; cbn; by rewrite Hlk).
  rewrite bind_assoc_M. mstep (psched_release _ _ s2 Hl2 ltac:(apply not_elem_of_cons; by split)). set (s3 := set_ks _ s2).
  rewrite (bind_step (mret (Some (pid pr, e)) : M ptable _) _ s3 _ s3 eq_refl). mstep (psched_release (EventLock r) ls s3 eq_refl Hn1).
  eexists. split; [reflexivity|]. split; [|done]. destruct (W' (event_queue r) (filter (fun y => y <> w) (w :: l)) ltac:(apply lookup_insert_eq)) as [Hd _].
  destruct (of_w _ _ _ _ _ _ _ O (event_queue r) (w :: l) Hq) as [Hd0 _]. split; cbn -[woken_off runnable].
  - apply sinv_set_locks, sinv_set_locks. exact Ik.
  - exact W'.
  - change (<[event_queue r := filter (fun y => y <> w) (w :: l)]> (wqs (ks s)) = <[event_queue r := l]> (wqs (ks s))). by rewrite filter_head.
  - apply lookup_insert_eq.
  - destruct (woken_procs _ _ _ Wk) as (_ & pr' & Hpr' & Hs' & _). exists pr'. done.
  - done.
Qed.
End rendezvous.

(** A receiver in whose queue a sender waits gets that sender's pid and
    event without sleeping, the first come first; the sender alone is taken off
    the queue and made runnable, and when it runs again [send_event] returns 0
    to it: the event has been delivered exactly once. *)
Theorem event_rendezvous NCPU C `{!SchedClass C} event_queue s c w l x pr e timer :
  cpus (sk (ks s)) !! myid (sk (ks s)) = Some c -> offered NCPU event_queue s (cproc c) w l x pr e -> locks (sk (ks s)) = [EventStupidLock] ->
  exists t, recv_event_enter NCPU C event_queue timer s = Ok (Some (Some (pid pr, e)), t) /\ taken NCPU event_queue s (cproc c) w l x t /\
    locks (sk (ks t)) = [EventStupidLock] /\
    forall t', ks t' = set_sk (set_locks [] (sk (ks t))) (ks t) ->
      exists t'', send_event_leave event_queue (cproc c) None w t' = Ok (0, t'').
Proof.
  intros Hc O Hlk. unfold recv_event_enter. mstep (psched_current s c Hc).
  mstep (psched_acquire (EventLock (cproc c)) s ltac:(rewrite Hlk; intros ?%list_elem_of_singleton; done)).
  pose proof (offered_lock NCPU event_queue _ _ _ _ _ _ _ (EventLock (cproc c)) O) as O1. set (s1 := with_lock _ s) in *.
  assert (E1 : psync (wait_queue_empty (event_queue (cproc c))) s1 = Ok (false, s1)).
  { apply psync_read. unfold wait_queue_empty. by mstep (rd_wq_spec _ _ _ (of_q _ _ _ _ _ _ _ _ _ O1)). }
  mstep E1. assert (Hl1 : locks (sk (ks s1)) = EventLock (cproc c) :: [EventStupidLock]) by (cbn; by rewrite Hlk).
  destruct (recv_take_spec NCPU C event_queue s1 (cproc c) w l x pr e [EventStupidLock] O1 Hl1) as (t & E2 & T & Lt); [intros ?%list_elem_of_singleton; done..|].
  mstep E2. exists t. split; [done|]. destruct T as [Ts Tw Tq Tx Tr Te]. split; [by split|]. split; [done|].
  intros t' Et. unfold send_event_leave. mstep (psched_acquire EventStupidLock t' ltac:(rewrite Et; apply not_elem_of_nil)).
  mstep (psched_acquire (EventLock (cproc c)) (with_lock EventStupidLock t') ltac:(cbn; rewrite Et; cbn; intros ?%list_elem_of_singleton; done)).
  set (t2 := with_lock _ _). rewrite (bind_step (psync (ipc_del_timer None)) _ t2 tt t2) by (by apply psync_read).
  assert (Hx2 : waits (ks t2) !! w = Some (Wait (wproc x) WT_EVENT_SEND (wqueue x))) by (cbn; rewrite Et; exact Tx).
  destruct (of_w _ _ _ _ _ _ _ _ _ O _ _ (of_q _ _ _ _ _ _ _ _ _ O)) as [Hd Hback]. destruct (Hback w ltac:(left)) as (x' & Hx' & Hqx).
  rewrite (of_x _ _ _ _ _ _ _ _ _ O) in Hx'. injection Hx' as <-.
  assert (E3 : psync (wait_current_del (event_queue (cproc c)) w) t2 = Ok (tt, t2)).
  { apply psync_read. unfold wait_current_del, wait_in_queue. rewrite bind_assoc_M. mstep (rd_wait_spec w _ _ Hx2). cbn [wqueue]. rewrite Hqx.
    rewrite bind_assoc_M, bind_gets. rewrite wait_link_empty_true; [done|]. intros q l'. cbn. rewrite Et. cbn. intros Hq Hin.
    destruct (Tw q l' Hq) as [Hd' Hb']. destruct (Hb' w Hin) as (y & Hy & Hqy). rewrite Tx in Hy. injection Hy as <-. cbn in Hqy. rewrite Hqx in Hqy. injection Hqy as <-.
    rewrite Tq, lookup_insert_eq in Hq. injection Hq as <-. by apply list.NoDup_cons in Hd as [? _]. }
  mstep E3. mstep (psched_release (EventLock (cproc c)) [EventStupidLock] t2 ltac:(cbn; by rewrite Et) ltac:(intros ?%list_elem_of_singleton; done)).
  set (t3 := set_ks _ t2). mstep (psync_read _ t3 _ (rd_wait_spec w _ (ks t3) Hx2)). by eexists.
Qed.

(** ** A concrete meeting: process 4 sends 42 to process 1 *)

Definition ex_evq (p : Z) : Z := 100 + p.
Definition ex_event : ptable :=
  set_ks (Sync (set_locks [EventStupidLock] ex_sched) {[ 200 := Wait 4 0 (Some 101) ]} {[ 101 := [200] ]} ∅ {[ 4 := 42 ]} ∅ ∅ 0)
    (ex_table ex_sched ex_links [2; 3; 4] MAX_PID MAX_PID).

Lemma ex_offered : offered 1 ex_evq ex_event 1 200 [] (Wait 4 0 (Some 101)) (ex_proc PROC_SLEEPING 4 0 None) 42.
Proof.
  split; cbn [ks ex_event set_ks sk waits wqs events wproc].
  - apply sinv_set_locks. exact ex_sched_inv.
  - intros q l. cbn [wqs waits]. intros [<- <-]%lookup_singleton_Some. split; [apply NoDup_singleton|]. intros w ->%list_elem_of_singleton. by eexists.
  - reflexivity.
  - reflexivity.
  - reflexivity.
  - reflexivity.
  - exact ex_sched_wakeable.
Qed.

Lemma event_rendezvous_witness : exists t, recv_event_enter 1 RR_sched_class ex_evq None ex_event = Ok (Some (Some (4, 42)), t) /\
  taken 1 ex_evq ex_event 1 200 [] (Wait 4 0 (Some 101)) t /\ locks (sk (ks t)) = [EventStupidLock] /\
  forall t', ks t' = set_sk (set_locks [] (sk (ks t))) (ks t) -> exists t'', send_event_leave ex_evq 1 None 200 t' = Ok (0, t'').
Proof.
  exact (event_rendezvous 1 RR_sched_class ex_evq ex_event (Cpu 1 0 0 []) 200 [] (Wait 4 0 (Some 101)) (ex_proc PROC_SLEEPING 4 0 None) 42 None
    eq_refl ex_offered eq_refl).
Defined.
