(* ===== verification/Disk.v ===== *)
(** * Disk: I/O buffers and the block device (fs/iobuf.c, fs/devs/dev_disk0.c)

    The device [disk0] moves whole blocks between an I/O buffer and the disk in
    chunks of four blocks, through the sector interface of arch/soc/driver/ide.c,
    whose disk is the memory image of arch/soc/driver/ramdisk.c. *)

From stdpp Require Import numbers list.
From S2P Require Import Prelude.
Local Open Scope Z_scope.

Definition BLKSIZE : Z := 4096.
Definition SECTSIZE : Z := 512.
Definition MAX_NSECS : Z := 128.
Definition MAX_DISK_NSECS : Z := 0x10000000.
Definition E_INVAL : Z := 22.

(** [len] bytes of [l] from [off], and [l] with [d] written at [off]. *)
Definition bytes_at (l : list Z) (off len : Z) : list Z := take (Z.to_nat len) (drop (Z.to_nat off) l).
Definition splice (l : list Z) (off : Z) (d : list Z) : list Z :=
  take (Z.to_nat off) l ++ d ++ drop (Z.to_nat off + length d) l.

(** ** I/O buffers *)

(** [io_mem] is the memory the buffer lies in, [io_base] an index into it. *)
Record iobuf := Iobuf { io_mem : list Z; io_base : Z; io_offset : Z; io_len : Z; io_resid : Z }.

Definition iobuf_init (mem : list Z) (base len offset : Z) : iobuf := Iobuf mem base offset len len.

Definition iobuf_skip (iob : iobuf) (n : Z) : outcome iobuf :=
  if n <=? io_resid iob
  then Ok (Iobuf (io_mem iob) (io_base iob + n) (s32 (io_offset iob + n)) (io_len iob) (io_resid iob - n))
  else Err AssertFailed.

(** The result, the bytes copied, the buffer and [data] afterwards. *)
Definition iobuf_move (iob : iobuf) (data : list Z) (len : Z) (m2b : bool) : outcome (Z * Z * iobuf * list Z) :=
  let alen := if len <? io_resid iob then len else io_resid iob in
  '(iob, data, len) ←
    (if 0 <? alen then
       let iob1 := if m2b then Iobuf (splice (io_mem iob) (io_base iob) (bytes_at data 0 alen)) (io_base iob) (io_offset iob) (io_len iob) (io_resid iob)
                   else iob in
       let data1 := if m2b then data else splice data 0 (bytes_at (io_mem iob) (io_base iob) alen) in
       iob2 ← iobuf_skip iob1 alen;
       Ok (iob2, data1, len - alen)
     else Ok (iob, data, len));
  Ok ((if len =? 0 then 0 else - E_NO_MEM), alen, iob, data).

Definition iobuf_move_zeros (iob : iobuf) (len : Z) : outcome (Z * Z * iobuf) :=
  let alen := if len <? io_resid iob then len else io_resid iob in
  '(iob, len) ←
    (if 0 <? alen then
       iob2 ← iobuf_skip (Iobuf (splice (io_mem iob) (io_base iob) (replicate (Z.to_nat alen) 0)) (io_base iob) (io_offset iob) (io_len iob) (io_resid iob)) alen;
       Ok (iob2, len - alen)
     else Ok (iob, len));
  Ok ((if len =? 0 then 0 else - E_NO_MEM), alen, iob).

(** ** The disk *)

(** The image, its size in sectors, the blocks of the device, its semaphore and
    the bounce buffer [disk0_buffer]. *)
Record disk := Disk { image : list Z; nsects : Z; d_blocks : Z; busy : bool; disk0_buffer : list Z }.
Definition with_image (l : list Z) (d : disk) : disk := Disk l (nsects d) (d_blocks d) (busy d) (disk0_buffer d).
Definition with_busy (b : bool) (d : disk) : disk := Disk (image d) (nsects d) (d_blocks d) b (disk0_buffer d).
Definition with_buffer (l : list Z) (d : disk) : disk := Disk (image d) (nsects d) (d_blocks d) (busy d) l.

Definition DISK0_BUFSIZE : Z := 4 * BLKSIZE.
Definition DISK0_BLK_NSECT : Z := BLKSIZE / SECTSIZE.

Definition lock_disk0 : M disk unit := fun d => if busy d then Err Deadlock else Ok (tt, with_busy true d).
Definition unlock_disk0 : M disk unit := modify (with_busy false).

(** [MIN(nsecs, dev->size - secno)], unsigned. *)
Definition ramdisk_clip (d : disk) (secno nsecs : Z) : Z := Z.min nsecs (u32 (nsects d - secno)).
Definition ramdisk_read (secno nsecs : Z) : M disk Z :=
  d ← get;
  let n := ramdisk_clip d secno nsecs in
  _ ← modify (with_buffer (splice (disk0_buffer d) 0 (bytes_at (image d) (secno * SECTSIZE) (n * SECTSIZE))));
  mret 0.
Definition ramdisk_write (secno nsecs : Z) : M disk Z :=
  d ← get;
  let n := ramdisk_clip d secno nsecs in
  _ ← modify (with_image (splice (image d) (secno * SECTSIZE) (bytes_at (disk0_buffer d) 0 (n * SECTSIZE))));
  mret 0.

(** The checks of [ide_read_secs] and [ide_write_secs]; the disk is valid. *)
Definition ide_check (secno nsecs : Z) : M disk unit :=
  _ ← kassert (nsecs <=? MAX_NSECS);
  kassert ((secno <? MAX_DISK_NSECS) && (secno + nsecs <=? MAX_DISK_NSECS)).
Definition ide_read_secs (secno nsecs : Z) : M disk Z := _ ← ide_check secno nsecs; ramdisk_read secno nsecs.
Definition ide_write_secs (secno nsecs : Z) : M disk Z := _ ← ide_check secno nsecs; ramdisk_write secno nsecs.

(** A result other than 0 panics. *)
Definition disk0_read_blks_nolock (blkno nblks : Z) : M disk unit :=
  ret ← ide_read_secs (u32 (blkno * DISK0_BLK_NSECT)) (u32 (nblks * DISK0_BLK_NSECT));
  kassert (ret =? 0).
Definition disk0_write_blks_nolock (blkno nblks : Z) : M disk unit :=
  ret ← ide_write_secs (u32 (blkno * DISK0_BLK_NSECT)) (u32 (nblks * DISK0_BLK_NSECT));
  kassert (ret =? 0).

Definition lift_out {S A} (o : outcome A) : M S A := fun s => match o with Ok a => Ok (a, s) | Err f => Err f end.

Lemma bind_lift_out {S A B} (a : A) (k : A -> M S B) s : (lift_out (Ok a) ≫= k) s = k a s.
Proof. done. Qed.
Lemma bind_get {S B} (k : S -> M S B) s : (get ≫= k) s = k s s.
Proof. done. Qed.

Fixpoint disk0_loop (fuel : nat) (write : bool) (resid blkno : Z) (iob : iobuf) : M disk iobuf :=
  match fuel with
  | O => fail OutOfFuel
  | S fuel' =>
      if resid =? 0 then mret iob
      else if write then
        d ← get;
        '(_, copied, iob, data) ← lift_out (iobuf_move iob (disk0_buffer d) DISK0_BUFSIZE false);
        _ ← modify (with_buffer data);
        _ ← kassert (negb (copied =? 0) && (copied <=? resid) && (copied mod BLKSIZE =? 0));
        let nblks := copied / BLKSIZE in
        _ ← disk0_write_blks_nolock blkno nblks;
        disk0_loop fuel' write (resid - copied) (blkno + nblks) iob
      else
        let alen := if resid <? DISK0_BUFSIZE then resid else DISK0_BUFSIZE in
        let nblks := alen / BLKSIZE in
        _ ← disk0_read_blks_nolock blkno nblks;
        d ← get;
        '(_, copied, iob, _) ← lift_out (iobuf_move iob (disk0_buffer d) alen true);
        _ ← kassert ((copied =? alen) && (copied mod BLKSIZE =? 0));
        disk0_loop fuel' write (resid - copied) (blkno + nblks) iob
  end.

Definition disk0_io (iob : iobuf) (write : bool) : M disk (Z * iobuf) :=
  let offset := io_offset iob in
  let resid := io_resid iob in
  let blkno := u32 (Z.quot offset BLKSIZE) in
  let nblks := u32 (resid / BLKSIZE) in
  d ← get;
  if negb (Z.rem offset BLKSIZE =? 0) || negb (resid mod BLKSIZE =? 0) then mret (- E_INVAL, iob)
  else if d_blocks d <? u32 (blkno + nblks) then mret (- E_INVAL, iob)
  else if nblks =? 0 then mret (0, iob)
  else
    _ ← lock_disk0;
    iob ← disk0_loop (S (Z.to_nat nblks)) write resid blkno iob;
    _ ← unlock_disk0;
    mret (0, iob).

(** ** Byte ranges *)

Lemma lookup_bytes_at l off len (i : nat) : bytes_at l off len !! i = if decide (i < Z.to_nat len)%nat then l !! (Z.to_nat off + i)%nat else None.
Proof.
  unfold bytes_at. case_decide; [|by apply lookup_take_ge; lia]. by rewrite lookup_take_lt, lookup_drop.
Qed.

Lemma lookup_splice l off d (i : nat) : (Z.to_nat off + length d <= length l)%nat ->
  splice l off d !! i = if decide (Z.to_nat off <= i < Z.to_nat off + length d)%nat then d !! (i - Z.to_nat off)%nat else l !! i.
Proof.
  intros Hl. unfold splice. assert (Ht : length (take (Z.to_nat off) l) = Z.to_nat off) by (rewrite length_take; lia).
  destruct (decide (i < Z.to_nat off)%nat).
  - rewrite lookup_app_l by lia. rewrite lookup_take_lt by lia. by rewrite decide_False by lia.
  - rewrite lookup_app_r, Ht by lia. case_decide; [by rewrite lookup_app_l by lia|].
    rewrite lookup_app_r by lia. rewrite lookup_drop. f_equal. lia.
Qed.

Lemma length_splice l off d : (Z.to_nat off + length d <= length l)%nat -> length (splice l off d) = length l.
Proof. intros. unfold splice. rewrite !length_app, length_take, length_drop. lia. Qed.

Lemma length_bytes_at l off len : (Z.to_nat off + Z.to_nat len <= length l)%nat -> length (bytes_at l off len) = Z.to_nat len.
Proof. intros. unfold bytes_at. rewrite length_take, length_drop. lia. Qed.

(** Equality of byte lists, index by index. *)
Ltac bytes :=
  apply list_eq; intros i;
  repeat first [rewrite lookup_bytes_at | rewrite lookup_splice by (rewrite ?length_splice, ?length_bytes_at; lia)];
  rewrite ?length_splice, ?length_bytes_at by lia;
  repeat case_decide; try (exfalso; lia); try done; try (f_equal; lia).

Section ranges.
Implicit Types (l d : list Z).

Lemma bytes_at_splice_same l off d : 0 <= off -> off + Z.of_nat (length d) <= Z.of_nat (length l) ->
  bytes_at (splice l off d) off (Z.of_nat (length d)) = d.
Proof. intros. bytes. by rewrite lookup_ge_None_2 by lia. Qed.

Lemma bytes_at_splice_ne l off d o n : 0 <= off -> 0 <= o -> off + Z.of_nat (length d) <= Z.of_nat (length l) ->
  o + n <= off \/ off + Z.of_nat (length d) <= o -> bytes_at (splice l off d) o n = bytes_at l o n.
Proof. intros. bytes. Qed.

Lemma splice_app l off d1 d2 : 0 <= off -> off + Z.of_nat (length d1 + length d2) <= Z.of_nat (length l) ->
  splice (splice l off d1) (off + Z.of_nat (length d1)) d2 = splice l off (d1 ++ d2).
Proof.
  intros. apply list_eq. intros i. rewrite !lookup_splice by (rewrite ?length_splice, ?length_app; lia). rewrite length_app.
  repeat case_decide; try (exfalso; lia); try done.
  - rewrite lookup_app_r by lia. f_equal. lia.
  - by rewrite lookup_app_l by lia.
Qed.

Lemma bytes_at_cat l off a b : 0 <= off -> 0 <= a -> 0 <= b -> off + a + b <= Z.of_nat (length l) ->
  bytes_at l off (a + b) = bytes_at l off a ++ bytes_at l (off + a) b.
Proof.
  intros. apply list_eq. intros i. rewrite lookup_bytes_at. destruct (decide (i < Z.to_nat a)%nat) as [Hi|Hi].
  - rewrite lookup_app_l by (rewrite length_bytes_at; lia). rewrite lookup_bytes_at. by rewrite !decide_True by lia.
  - rewrite lookup_app_r by (rewrite length_bytes_at; lia). rewrite lookup_bytes_at, length_bytes_at by lia.
    repeat case_decide; try (exfalso; lia); try done. f_equal. lia.
Qed.

Lemma splice_nil l off : splice l off [] = l.
Proof. unfold splice. cbn [app length]. rewrite Nat.add_0_r. apply take_drop. Qed.
End ranges.

(** ** The device *)

Record wf_disk (d : disk) : Prop := {
  wd_size : nsects d * SECTSIZE = Z.of_nat (length (image d));
  wd_blocks : d_blocks d = nsects d / DISK0_BLK_NSECT;
  wd_max : 0 <= nsects d <= MAX_DISK_NSECS;
  wd_buffer : Z.of_nat (length (disk0_buffer d)) = DISK0_BUFSIZE }.

Ltac unf := unfold DISK0_BUFSIZE, DISK0_BLK_NSECT, BLKSIZE, SECTSIZE, MAX_NSECS, MAX_DISK_NSECS in *; change (4096 / 512) with 8 in *; change (4 * 4096) with 16384 in *.

Lemma ide_check_spec d secno nsecs : 0 <= secno -> 0 <= nsecs <= MAX_NSECS -> secno + nsecs <= nsects d -> nsects d <= MAX_DISK_NSECS -> 0 < nsecs ->
  ide_check secno nsecs d = Ok (tt, d) /\ ramdisk_clip d secno nsecs = nsecs.
Proof.
  intros Hs Hn Hr Hm Hp. unf. split.
  - unfold ide_check. unf. massert; [|lia]. destruct (Z.ltb_spec secno 0x10000000), (Z.leb_spec (secno + nsecs) 0x10000000); try lia. done.
  - unfold ramdisk_clip. rewrite (umod_small 32) by (unfold is_u; lia). lia.
Qed.

Lemma blocks_range d b N : wf_disk d -> b + N <= d_blocks d -> b * BLKSIZE + N * BLKSIZE <= Z.of_nat (length (image d)).
Proof. intros [Hs Hd Hm Hbuf] Hr. unf. Z.to_euclidean_division_equations. lia. Qed.

(** One chunk: [k] blocks, at most four, from block [b]. *)
Section chunk.
Context (d : disk) (W : wf_disk d) (b k : Z) (Hb : 0 <= b) (Hk : 0 < k <= 4) (Hr : b + k <= d_blocks d).

Lemma chunk_secs : u32 (b * DISK0_BLK_NSECT) = b * 8 /\ u32 (k * DISK0_BLK_NSECT) = k * 8 /\
  ide_check (b * 8) (k * 8) d = Ok (tt, d) /\ ramdisk_clip d (b * 8) (k * 8) = k * 8.
Proof.
  destruct W as [Hs Hd Hm Hbuf]. unf. change (4096 / 512) with 8 in *. rewrite !(umod_small 32) by (unfold is_u; Z.to_euclidean_division_equations; lia).
  split_and!; [done..| |]; apply ide_check_spec; unf; Z.to_euclidean_division_equations; lia.
Qed.

Lemma read_blks_spec : disk0_read_blks_nolock b k d =
  Ok (tt, with_buffer (splice (disk0_buffer d) 0 (bytes_at (image d) (b * BLKSIZE) (k * BLKSIZE))) d).
Proof.
  destruct chunk_secs as (E1 & E2 & E3 & E4). unfold disk0_read_blks_nolock, ide_read_secs. rewrite E1, E2.
  rewrite bind_assoc_M. mstep E3. unfold ramdisk_read, mbind, M_bind, get, modify. cbv zeta. rewrite E4.
  cbn [mret M_ret]. rewrite kassert_true. do 5 f_equal; unf; lia.
Qed.

Lemma write_blks_spec : disk0_write_blks_nolock b k d =
  Ok (tt, with_image (splice (image d) (b * BLKSIZE) (bytes_at (disk0_buffer d) 0 (k * BLKSIZE))) d).
Proof.
  destruct chunk_secs as (E1 & E2 & E3 & E4). unfold disk0_write_blks_nolock, ide_write_secs. rewrite E1, E2.
  rewrite bind_assoc_M. mstep E3. unfold ramdisk_write, mbind, M_bind, get, modify. cbv zeta. rewrite E4.
  cbn [mret M_ret]. rewrite kassert_true. do 4 f_equal; unf; [lia|f_equal; lia].
Qed.
End chunk.

(** Everything but the image and the bounce buffer. *)
Definition same_dev (d d' : disk) : Prop := nsects d' = nsects d /\ d_blocks d' = d_blocks d /\ busy d' = busy d.

Lemma wf_disk_intro d d' : wf_disk d -> same_dev d d' -> length (image d') = length (image d) -> length (disk0_buffer d') = length (disk0_buffer d) -> wf_disk d'.
Proof. intros [] (E1 & E2 & _) El Eb. split; rewrite ?E1, ?E2, ?El, ?Eb; done. Qed.

(** The chunk a round of the loop moves. *)
Lemma move_out_spec iob data N : io_resid iob = N * BLKSIZE -> 0 < N -> 0 <= io_base iob ->
  let k := Z.min N 4 in
  iobuf_move iob data DISK0_BUFSIZE false =
    Ok ((if DISK0_BUFSIZE - k * BLKSIZE =? 0 then 0 else - E_NO_MEM), k * BLKSIZE,
        Iobuf (io_mem iob) (io_base iob + k * BLKSIZE) (s32 (io_offset iob + k * BLKSIZE)) (io_len iob) (N * BLKSIZE - k * BLKSIZE),
        splice data 0 (bytes_at (io_mem iob) (io_base iob) (k * BLKSIZE))).
Proof.
  intros Hr Hn Hb k. unfold iobuf_move. rewrite Hr. unf.
  assert (E : (if 16384 <? N * 4096 then 16384 else N * 4096) = k * 4096) by (unfold k; destruct (Z.ltb_spec 16384 (N * 4096)); lia).
  rewrite E. destruct (Z.ltb_spec 0 (k * 4096)); [|lia]. unfold iobuf_skip. rewrite Hr. destruct (Z.leb_spec (k * 4096) (N * 4096)); [|lia].
  done.
Qed.

Lemma move_in_spec iob data N : io_resid iob = N * BLKSIZE -> 0 < N -> 0 <= io_base iob ->
  let k := Z.min N 4 in
  iobuf_move iob data (k * BLKSIZE) true =
    Ok (0, k * BLKSIZE,
        Iobuf (splice (io_mem iob) (io_base iob) (bytes_at data 0 (k * BLKSIZE))) (io_base iob + k * BLKSIZE)
          (s32 (io_offset iob + k * BLKSIZE)) (io_len iob) (N * BLKSIZE - k * BLKSIZE), data).
Proof.
  intros Hr Hn Hb k. unfold iobuf_move. rewrite Hr. unf.
  assert (E : (if k * 4096 <? N * 4096 then k * 4096 else N * 4096) = k * 4096) by (unfold k; destruct (Z.ltb_spec (Z.min N 4 * 4096) (N * 4096)); lia).
  rewrite E. destruct (Z.ltb_spec 0 (k * 4096)); [|lia]. unfold iobuf_skip. cbn [io_resid]. rewrite ?Hr. destruct (Z.leb_spec (k * 4096) (N * 4096)); [|lia].
  cbn. by rewrite Z.sub_diag.
Qed.

Lemma disk0_loop_write fuel : forall N b iob d, wf_disk d -> 0 <= N -> N < Z.of_nat fuel -> 0 <= b -> b + N <= d_blocks d ->
  io_resid iob = N * BLKSIZE -> 0 <= io_base iob -> io_base iob + N * BLKSIZE <= Z.of_nat (length (io_mem iob)) ->
  exists iob' d', disk0_loop fuel true (N * BLKSIZE) b iob d = Ok (iob', d') /\ wf_disk d' /\ same_dev d d' /\
    io_mem iob' = io_mem iob /\ image d' = splice (image d) (b * BLKSIZE) (bytes_at (io_mem iob) (io_base iob) (N * BLKSIZE)).
Proof.
  induction fuel as [|fuel IH]; intros N b iob d W HN Hf Hb Hr Hres Hbase Hmem; [lia|]. cbn [disk0_loop].
  destruct (Z.eqb_spec (N * BLKSIZE) 0) as [Hz|Hz].
  { assert (N = 0) as -> by (unf; lia). exists iob, d. split_and!; [done..|]. by rewrite splice_nil. }
  assert (HN0 : 0 < N) by (unf; lia). set (k := Z.min N 4). assert (Hk : 0 < k <= 4 /\ k <= N) by lia.
  rewrite bind_get. rewrite (move_out_spec iob (disk0_buffer d) N Hres HN0 Hbase). fold k.
  rewrite bind_lift_out. cbv beta iota. rewrite bind_modify.
  massert; [|destruct (Z.eqb_spec (k * BLKSIZE) 0), (Z.leb_spec (k * BLKSIZE) (N * BLKSIZE)); unf; try lia; rewrite Z.mod_mul by lia; done].
  cbv zeta. rewrite (Z.div_mul k BLKSIZE) by done. set (buf := bytes_at (io_mem iob) (io_base iob) (k * BLKSIZE)).
  assert (Hbuf : Z.of_nat (length buf) = k * BLKSIZE) by (unfold buf; rewrite length_bytes_at; unf; lia).
  set (d1 := with_buffer (splice (disk0_buffer d) 0 buf) d).
  assert (W1 : wf_disk d1).
  { apply (wf_disk_intro d); [done|done|done|]. cbn. apply length_splice. pose proof (wd_buffer _ W). unf. lia. }
  mstep (write_blks_spec d1 W1 b k Hb (proj1 Hk) ltac:(cbn; lia)).
  assert (Hd1 : bytes_at (disk0_buffer d1) 0 (k * BLKSIZE) = buf).
  { rewrite <- Hbuf. cbn. apply bytes_at_splice_same; [done|]. pose proof (wd_buffer _ W). unf. lia. }
  rewrite Hd1. cbn [image d1 with_buffer]. pose proof (blocks_range d b N W Hr) as Hrange.
  set (d2 := with_image (splice (image d) (b * BLKSIZE) buf) d1).
  assert (W2 : wf_disk d2) by (apply (wf_disk_intro d1); [done|done|cbn; apply length_splice; unf; lia|done]).
  replace (N * BLKSIZE - k * BLKSIZE) with ((N - k) * BLKSIZE) by lia.
  destruct (IH (N - k) (b + k) (Iobuf (io_mem iob) (io_base iob + k * BLKSIZE) (s32 (io_offset iob + k * BLKSIZE)) (io_len iob) ((N - k) * BLKSIZE)) d2)
    as (iob' & d' & E & W' & Hsame & Hm & Himg); [done|lia|lia|lia|cbn; lia|done|cbn; unf; lia|cbn; unf; lia|].
  exists iob', d'. split_and!; [exact E|done|done|done|]. rewrite Himg. cbn [image d2 with_image io_mem io_base].
  replace ((b + k) * BLKSIZE) with (b * BLKSIZE + Z.of_nat (length buf)) by lia.
  rewrite splice_app.
  - f_equal. unfold buf. replace (N * BLKSIZE) with (k * BLKSIZE + (N - k) * BLKSIZE) by lia. rewrite bytes_at_cat; [done|unf; lia..].
  - unf; lia.
  - rewrite length_bytes_at by (unf; lia). unf; lia.
Qed.

Lemma disk0_loop_read fuel : forall N b iob d, wf_disk d -> 0 <= N -> N < Z.of_nat fuel -> 0 <= b -> b + N <= d_blocks d ->
  io_resid iob = N * BLKSIZE -> 0 <= io_base iob -> io_base iob + N * BLKSIZE <= Z.of_nat (length (io_mem iob)) ->
  exists iob' d', disk0_loop fuel false (N * BLKSIZE) b iob d = Ok (iob', d') /\ wf_disk d' /\ same_dev d d' /\
    image d' = image d /\ io_mem iob' = splice (io_mem iob) (io_base iob) (bytes_at (image d) (b * BLKSIZE) (N * BLKSIZE)).
Proof.
  induction fuel as [|fuel IH]; intros N b iob d W HN Hf Hb Hr Hres Hbase Hmem; [lia|]. cbn [disk0_loop].
  destruct (Z.eqb_spec (N * BLKSIZE) 0) as [Hz|Hz].
  { assert (N = 0) as -> by (unf; lia). exists iob, d. split_and!; [done..|]. by rewrite splice_nil. }
  assert (HN0 : 0 < N) by (unf; lia). set (k := Z.min N 4). assert (Hk : 0 < k <= 4 /\ k <= N) by lia.
  assert (Ea : (if N * BLKSIZE <? DISK0_BUFSIZE then N * BLKSIZE else DISK0_BUFSIZE) = k * BLKSIZE)
    by (unf; unfold k; destruct (Z.ltb_spec (N * 4096) 16384); lia).
  rewrite Ea. cbv zeta. rewrite (Z.div_mul k BLKSIZE) by done. mstep (read_blks_spec d W b k Hb (proj1 Hk) ltac:(lia)).
  pose proof (blocks_range d b N W Hr) as Hrange. pose proof (wd_buffer _ W) as Hlb.
  set (buf := bytes_at (image d) (b * BLKSIZE) (k * BLKSIZE)).
  assert (Hbuf : Z.of_nat (length buf) = k * BLKSIZE) by (unfold buf; rewrite length_bytes_at; unf; lia).
  set (d1 := with_buffer (splice (disk0_buffer d) 0 buf) d).
  assert (W1 : wf_disk d1) by (apply (wf_disk_intro d); [done|done|done|cbn; apply length_splice; unf; lia]).
  pose proof (move_in_spec iob (disk0_buffer d1) N Hres HN0 Hbase) as Em. cbv zeta in Em. fold k in Em.
  rewrite bind_get, Em, bind_lift_out. cbv beta iota.
  massert; [|rewrite Z.eqb_refl; unf; rewrite Z.mod_mul by lia; done].
  assert (Hd1 : bytes_at (disk0_buffer d1) 0 (k * BLKSIZE) = buf) by (rewrite <- Hbuf; cbn; apply bytes_at_splice_same; unf; lia).
  rewrite Hd1. replace (N * BLKSIZE - k * BLKSIZE) with ((N - k) * BLKSIZE) by lia.
  assert (Hl1 : length (splice (io_mem iob) (io_base iob) buf) = length (io_mem iob)) by (apply length_splice; unf; lia).
  destruct (IH (N - k) (b + k) (Iobuf (splice (io_mem iob) (io_base iob) buf) (io_base iob + k * BLKSIZE) (s32 (io_offset iob + k * BLKSIZE)) (io_len iob) ((N - k) * BLKSIZE)) d1)
    as (iob' & d' & E & W' & Hsame & Himg & Hm); [done|lia|lia|lia|cbn; lia|done|cbn; unf; lia|cbn [io_base io_mem]; rewrite Hl1; unf; lia|].
  exists iob', d'. split_and!; [exact E|done|done|done|]. rewrite Hm. cbn [image d1 with_buffer io_mem io_base].
  replace (io_base iob + k * BLKSIZE) with (io_base iob + Z.of_nat (length buf)) by lia.
  rewrite splice_app; [|done|rewrite length_bytes_at by (unf; lia); unf; lia].
  f_equal. unfold buf. replace (N * BLKSIZE) with (k * BLKSIZE + (N - k) * BLKSIZE) by lia. replace ((b + k) * BLKSIZE) with (b * BLKSIZE + k * BLKSIZE) by lia.
  rewrite bytes_at_cat; [done|unf; lia..].
Qed.

(** The request: [N] blocks from block [b], memory from [base]. *)
Section request.
Context (d : disk) (W : wf_disk d) (mem : list Z) (b N base : Z).
Context (Hb : 0 <= b) (HN : 0 < N) (Hr : b + N <= d_blocks d) (Hbase : 0 <= base) (Hmem : base + N * BLKSIZE <= Z.of_nat (length mem)).
Context (Hidle : busy d = false).
Let iob := iobuf_init mem base (N * BLKSIZE) (b * BLKSIZE).

Lemma disk0_io_enter write : disk0_io iob write d =
  (iob' ← disk0_loop (S (Z.to_nat N)) write (N * BLKSIZE) b iob; _ ← unlock_disk0; mret (0, iob')) (with_busy true d).
Proof.
  unfold disk0_io. cbn [iob iobuf_init io_offset io_resid]. rewrite bind_get.
  assert (Hq : Z.quot (b * BLKSIZE) BLKSIZE = b) by (apply Z.quot_mul; done).
  assert (Hm : Z.rem (b * BLKSIZE) BLKSIZE = 0) by (apply Z.rem_mul; done).
  rewrite Hq, Hm, Z.mod_mul, Z.div_mul, Z.eqb_refl by done. cbn [negb orb].
  assert (Hblk : d_blocks d < 2 ^ 30) by (destruct W as [_ -> Hmax _]; unf; Z.to_euclidean_division_equations; lia).
  rewrite (umod_small 32 b) by (unfold is_u; lia). rewrite (umod_small 32 N) by (unfold is_u; lia). rewrite (umod_small 32 (b + N)) by (unfold is_u; lia).
  destruct (Z.ltb_spec (d_blocks d) (b + N)); [lia|]. destruct (Z.eqb_spec N 0); [lia|].
  unfold lock_disk0. rewrite (bind_step _ _ d tt (with_busy true d)) by (by rewrite Hidle). done.
Qed.

Lemma wf_busy v : wf_disk (with_busy v d).
Proof. destruct W. by split. Qed.

Lemma disk0_write_spec : exists iob' d', disk0_io iob true d = Ok ((0, iob'), d') /\ wf_disk d' /\ same_dev d d' /\
  image d' = splice (image d) (b * BLKSIZE) (bytes_at mem base (N * BLKSIZE)).
Proof.
  rewrite disk0_io_enter. destruct (disk0_loop_write (S (Z.to_nat N)) N b iob (with_busy true d)) as (iob' & d' & E & W' & (E1 & E2 & E3) & _ & Himg);
    [apply wf_busy|lia|lia|done|done|done|done|done|].
  exists iob', (with_busy false d'). mstep E. split_and!; [done|by destruct W'; split| |done]. split_and!; [done|done|by rewrite Hidle].
Qed.

Lemma disk0_read_spec : exists iob' d', disk0_io iob false d = Ok ((0, iob'), d') /\ wf_disk d' /\ same_dev d d' /\
  image d' = image d /\ io_mem iob' = splice mem base (bytes_at (image d) (b * BLKSIZE) (N * BLKSIZE)).
Proof.
  rewrite disk0_io_enter. destruct (disk0_loop_read (S (Z.to_nat N)) N b iob (with_busy true d)) as (iob' & d' & E & W' & (E1 & E2 & E3) & Himg & Hm);
    [apply wf_busy|lia|lia|done|done|done|done|done|].
  exists iob', (with_busy false d'). mstep E. split_and!; [done|by destruct W'; split| |done|done]. split_and!; [done|done|by rewrite Hidle].
Qed.
End request.
