(* ===== verification/Sfs.v ===== *)
(** * Sfs: blocks, block maps and file I/O of the simple file system
    (fs/sfs/sfs_io.c, fs/sfs/sfs_inode.c)

    The file system keeps its free blocks in a bitmap and the blocks of a file in
    a map of three levels: direct blocks in the inode, an indirect block and a
    doubly indirect one.  Block numbers on disk are little-endian words.  An
    inode is passed to the routines that change it and returned by them; the
    semaphores are a list of those held, and taking one that is held is a
    [Deadlock]. *)

From stdpp Require Import numbers list.
From S2P Require Import Prelude Bitmap Disk.
Local Open Scope Z_scope.

(** ** Data *)

Definition SFS_BLKSIZE : Z := BLKSIZE.
Definition SFS_NDIRECT : Z := 12.
Definition SFS_BLK_NENTRY : Z := SFS_BLKSIZE / 4.
Definition SFS_MAX_FILE_SIZE : Z := 1024 * 1024 * 128.
Definition SFS_BLKN_SUPER : Z := 0.
Definition SFS_BLKN_FREEMAP : Z := 2.
Definition SFS_TYPE_FILE : Z := 1.
Definition SFS_TYPE_DIR : Z := 2.

Record sfs_super := Super { magic : Z; blocks : Z; unused_blocks : Z; info : list Z }.

(** [fileinfo.size] and [dirinfo.slots] are the same word. *)
Record sfs_disk_inode := Din {
  size_slots : Z; dparent : Z; type : Z; nlinks : Z; dblocks : Z; direct : list Z; indirect : Z; db_indirect : Z }.

(** An inode in memory: its number, its copy of the disk inode and its flags. *)
Record sfs_inode := Sin { din : sfs_disk_inode; ino : Z; removed : bool; dirty : bool; reclaim_count : Z }.

Inductive sfs_lock := FsSem | IoSem | MutexSem | SinSem (ino : Z).
#[export] Instance sfs_lock_eq_dec : EqDecision sfs_lock.
Proof. solve_decision. Defined.

Record sfs_fs := Sfs { super : sfs_super; super_dirty : bool; freemap : bitmap; dev : disk; held : list sfs_lock }.

Definition with_super (x : sfs_super) (d : bool) (s : sfs_fs) : sfs_fs := Sfs x d (freemap s) (dev s) (held s).
Definition with_freemap (b : bitmap) (s : sfs_fs) : sfs_fs := Sfs (super s) (super_dirty s) b (dev s) (held s).
Definition with_dev (d : disk) (s : sfs_fs) : sfs_fs := Sfs (super s) (super_dirty s) (freemap s) d (held s).
Definition with_held (l : list sfs_lock) (s : sfs_fs) : sfs_fs := Sfs (super s) (super_dirty s) (freemap s) (dev s) l.
Definition set_unused (n : Z) (x : sfs_super) : sfs_super := Super (magic x) (blocks x) n (info x).

Definition set_din (d : sfs_disk_inode) (x : sfs_inode) : sfs_inode := Sin d (ino x) (removed x) (dirty x) (reclaim_count x).
Definition set_dirty (b : bool) (x : sfs_inode) : sfs_inode := Sin (din x) (ino x) (removed x) b (reclaim_count x).
Definition din_direct (l : list Z) (d : sfs_disk_inode) : sfs_disk_inode :=
  Din (size_slots d) (dparent d) (type d) (nlinks d) (dblocks d) l (indirect d) (db_indirect d).
Definition din_indirect (v : Z) (d : sfs_disk_inode) : sfs_disk_inode :=
  Din (size_slots d) (dparent d) (type d) (nlinks d) (dblocks d) (direct d) v (db_indirect d).
Definition din_db (v : Z) (d : sfs_disk_inode) : sfs_disk_inode :=
  Din (size_slots d) (dparent d) (type d) (nlinks d) (dblocks d) (direct d) (indirect d) v.
Definition din_blocks (v : Z) (d : sfs_disk_inode) : sfs_disk_inode :=
  Din (size_slots d) (dparent d) (type d) (nlinks d) v (direct d) (indirect d) (db_indirect d).
Definition din_size (v : Z) (d : sfs_disk_inode) : sfs_disk_inode :=
  Din v (dparent d) (type d) (nlinks d) (dblocks d) (direct d) (indirect d) (db_indirect d).

(** A [uint32_t] in memory, and back. *)
Definition put_u32 (z : Z) : list Z := [z mod 256; z / 2 ^ 8 mod 256; z / 2 ^ 16 mod 256; z / 2 ^ 24 mod 256].
Definition get_u32 (l : list Z) : Z :=
  match l with a :: b :: c :: d :: _ => a + b * 2 ^ 8 + c * 2 ^ 16 + d * 2 ^ 24 | _ => 0 end.

(** ** Locks and block I/O *)

Definition acquire (l : sfs_lock) : M sfs_fs unit := fun s =>
  if bool_decide (l ∈ held s) then Err Deadlock else Ok (tt, with_held (l :: held s) s).
Definition release (l : sfs_lock) : M sfs_fs unit := modify (fun s => with_held (filter (fun x => x <> l) (held s)) s).

Definition lift_dev {A} (m : M disk A) : M sfs_fs A := fun s =>
  match m (dev s) with Ok (a, d) => Ok (a, with_dev d s) | Err f => Err f end.

(** [buf]: the block to write, or the memory a read overwrites. *)
Definition sfs_rwblock_nolock (buf : list Z) (blkno : Z) (write check : bool) : M sfs_fs (Z * list Z) :=
  s ← get;
  _ ← kassert ((negb (blkno =? 0) || negb check) && (blkno <? blocks (super s)));
  '(ret, iob) ← lift_dev (disk0_io (iobuf_init buf 0 SFS_BLKSIZE (s32 (blkno * SFS_BLKSIZE))) write);
  mret (ret, io_mem iob).

(** One block at a time through the memory [buf]. *)
Fixpoint rwblock_loop (nblks : nat) (buf : list Z) (off blkno : Z) (write : bool) : M sfs_fs (Z * list Z) :=
  match nblks with
  | O => mret (0, buf)
  | S n =>
      '(ret, blk) ← sfs_rwblock_nolock (bytes_at buf off SFS_BLKSIZE) blkno write true;
      let buf := splice buf off blk in
      if negb (ret =? 0) then mret (ret, buf) else rwblock_loop n buf (off + SFS_BLKSIZE) (blkno + 1) write
  end.
Definition sfs_rwblock (buf : list Z) (blkno nblks : Z) (write : bool) : M sfs_fs (Z * list Z) :=
  _ ← acquire IoSem;
  r ← rwblock_loop (Z.to_nat nblks) buf 0 blkno write;
  _ ← release IoSem;
  mret r.
Definition sfs_rblock (buf : list Z) (blkno nblks : Z) : M sfs_fs (Z * list Z) := sfs_rwblock buf blkno nblks false.
Definition sfs_wblock (buf : list Z) (blkno nblks : Z) : M sfs_fs (Z * list Z) := sfs_rwblock buf blkno nblks true.

Definition blank : list Z := replicate (Z.to_nat SFS_BLKSIZE) 0.

(** [sfs_buffer] holds whatever the last transfer left; its contents are
    overwritten before they are used. *)
Definition sfs_rbuf (len blkno offset : Z) : M sfs_fs (Z * list Z) :=
  _ ← kassert ((0 <=? offset) && (offset <? SFS_BLKSIZE) && (offset + len <=? SFS_BLKSIZE));
  _ ← acquire IoSem;
  '(ret, b) ← sfs_rwblock_nolock blank blkno false true;
  _ ← release IoSem;
  mret (ret, if ret =? 0 then bytes_at b offset len else []).
Definition sfs_wbuf (buf : list Z) (len blkno offset : Z) : M sfs_fs Z :=
  _ ← kassert ((0 <=? offset) && (offset <? SFS_BLKSIZE) && (offset + len <=? SFS_BLKSIZE));
  _ ← acquire IoSem;
  '(ret, b) ← sfs_rwblock_nolock blank blkno false true;
  ret ← (if ret =? 0 then '(ret, _) ← sfs_rwblock_nolock (splice b offset (bytes_at buf 0 len)) blkno true true; mret ret else mret ret);
  _ ← release IoSem;
  mret ret.

Fixpoint clear_loop (nblks : nat) (blkno : Z) : M sfs_fs Z :=
  match nblks with
  | O => mret 0
  | S n => '(ret, _) ← sfs_rwblock_nolock blank blkno true true; if negb (ret =? 0) then mret ret else clear_loop n (blkno + 1)
  end.
Definition sfs_clear_block (blkno nblks : Z) : M sfs_fs Z :=
  _ ← acquire IoSem; ret ← clear_loop (Z.to_nat nblks) blkno; _ ← release IoSem; mret ret.

(** The superblock as it lies in memory: three words and the text. *)
Definition super_bytes (x : sfs_super) : list Z := put_u32 (magic x) ++ put_u32 (blocks x) ++ put_u32 (unused_blocks x) ++ info x.
Definition sfs_sync_super : M sfs_fs Z :=
  s ← get;
  _ ← acquire IoSem;
  '(ret, _) ← sfs_rwblock_nolock (splice blank 0 (super_bytes (super s))) SFS_BLKN_SUPER true false;
  _ ← release IoSem;
  mret ret.

Definition SFS_BLKBITS : Z := SFS_BLKSIZE * 8.
Definition sfs_freemap_blocks (x : sfs_super) : Z := u32 (blocks x + SFS_BLKBITS - 1) / SFS_BLKBITS.
Definition map_bytes (b : bitmap) : list Z := map_ b ≫= put_u32.
Definition sfs_sync_freemap : M sfs_fs Z :=
  s ← get;
  '(ret, _) ← sfs_wblock (map_bytes (freemap s)) SFS_BLKN_FREEMAP (sfs_freemap_blocks (super s));
  mret ret.

(** ** Blocks *)

Definition sfs_block_inuse (b : Z) : M sfs_fs bool :=
  s ← get;
  if negb (b =? 0) && (b <? blocks (super s))
  then f ← lift_out (bitmap_test (freemap s) b); mret (negb f)
  else fail AssertFailed.

(** The result and what was stored through [ino_store]. *)
Definition sfs_block_alloc : M sfs_fs (Z * option Z) :=
  s ← get;
  '(ret, fm, b) ← lift_out (bitmap_alloc (freemap s));
  _ ← modify (with_freemap fm);
  if negb (ret =? 0) then mret (ret, b)
  else
    _ ← kassert (0 <? unused_blocks (super s));
    _ ← modify (fun s => with_super (set_unused (u32 (unused_blocks (super s) - 1)) (super s)) true s);
    let b := default 0 b in
    u ← sfs_block_inuse b;
    _ ← kassert u;
    ret ← sfs_clear_block b 1;
    mret (ret, Some b).

Definition sfs_block_free (b : Z) : M sfs_fs unit :=
  u ← sfs_block_inuse b;
  _ ← kassert u;
  s ← get;
  fm ← lift_out (bitmap_free (freemap s) b);
  _ ← modify (with_freemap fm);
  modify (fun s => with_super (set_unused (u32 (unused_blocks (super s) + 1)) (super s)) true s).

(** ** The block map *)

(** An entry of an indirect block; the result, [*entp] and [*ino_store].  On
    failure a block taken for [ent] is given back. *)
Definition sub_cleanup (ent0 ent ret : Z) : M sfs_fs (Z * Z * Z) :=
  _ ← (if negb (ent =? ent0) then sfs_block_free ent else mret tt);
  mret (ret, ent0, 0).
Definition sub_create (ent0 ent index : Z) : M sfs_fs (Z * Z * Z) :=
  '(ret, b) ← sfs_block_alloc;
  if negb (ret =? 0) then sub_cleanup ent0 ent ret
  else
    let b := default 0 b in
    ret ← sfs_wbuf (put_u32 b) 4 ent (index * 4);
    if negb (ret =? 0) then _ ← sfs_block_free b; sub_cleanup ent0 ent ret
    else mret (0, ent, b).
Definition sfs_bmap_get_sub_nolock (ent0 index : Z) (create : bool) : M sfs_fs (Z * Z * Z) :=
  _ ← kassert (index <? SFS_BLK_NENTRY);
  if negb (ent0 =? 0) then
    '(ret, bs) ← sfs_rbuf 4 ent0 (index * 4);
    if negb (ret =? 0) then mret (ret, ent0, 0)
    else if negb (get_u32 bs =? 0) || negb create then mret (0, ent0, get_u32 bs)
    else sub_create ent0 ent0 index
  else if negb create then mret (0, ent0, 0)
  else
    '(ret, b) ← sfs_block_alloc;
    if negb (ret =? 0) then mret (ret, ent0, 0) else sub_create ent0 (default 0 b) index.

Definition nth_direct (d : sfs_disk_inode) (i : Z) : Z := default 0 (direct d !! Z.to_nat i).

(** [assert(ino == 0 || sfs_block_inuse(sfs, ino))] at the end. *)
Definition get_out (b : Z) (x : sfs_inode) : M sfs_fs (Z * Z * sfs_inode) :=
  u ← (if b =? 0 then mret true else sfs_block_inuse b);
  _ ← kassert u;
  mret (0, b, x).

Definition sfs_bmap_get_nolock (x : sfs_inode) (index : Z) (create : bool) : M sfs_fs (Z * Z * sfs_inode) :=
  if index <? SFS_NDIRECT then
    let b := nth_direct (din x) index in
    if (b =? 0) && create then
      '(ret, nb) ← sfs_block_alloc;
      if negb (ret =? 0) then mret (ret, 0, x)
      else let b := default 0 nb in
           get_out b (set_dirty true (set_din (din_direct (<[Z.to_nat index := b]> (direct (din x))) (din x)) x))
    else get_out b x
  else
    let index := index - SFS_NDIRECT in
    if index <? SFS_BLK_NENTRY then
      '(ret, ent, b) ← sfs_bmap_get_sub_nolock (indirect (din x)) index create;
      if negb (ret =? 0) then mret (ret, 0, x)
      else if negb (ent =? indirect (din x)) then
        _ ← kassert (indirect (din x) =? 0);
        get_out b (set_dirty true (set_din (din_indirect ent (din x)) x))
      else get_out b x
    else
      let index := index - SFS_BLK_NENTRY in
      '(ret, ent, b) ← sfs_bmap_get_sub_nolock (db_indirect (din x)) (index / SFS_BLK_NENTRY) create;
      if negb (ret =? 0) then mret (ret, 0, x)
      else
        x ← (if negb (ent =? db_indirect (din x)) then
               _ ← kassert (db_indirect (din x) =? 0);
               mret (set_dirty true (set_din (din_db ent (din x)) x))
             else mret x);
        if negb (b =? 0) then
          '(ret, _, b) ← sfs_bmap_get_sub_nolock b (index mod SFS_BLK_NENTRY) create;
          if negb (ret =? 0) then mret (ret, 0, x) else get_out b x
        else get_out b x.

Definition sfs_bmap_free_sub_nolock (ent index : Z) : M sfs_fs Z :=
  u ← sfs_block_inuse ent;
  _ ← kassert (u && (index <? SFS_BLK_NENTRY));
  '(ret, bs) ← sfs_rbuf 4 ent (index * 4);
  if negb (ret =? 0) then mret ret
  else if negb (get_u32 bs =? 0) then
    ret ← sfs_wbuf (put_u32 0) 4 ent (index * 4);
    if negb (ret =? 0) then mret ret else _ ← sfs_block_free (get_u32 bs); mret 0
  else mret 0.

Definition sfs_bmap_free_nolock (x : sfs_inode) (index : Z) : M sfs_fs (Z * sfs_inode) :=
  if index <? SFS_NDIRECT then
    let b := nth_direct (din x) index in
    if negb (b =? 0) then
      _ ← sfs_block_free b;
      mret (0, set_dirty true (set_din (din_direct (<[Z.to_nat index := 0]> (direct (din x))) (din x)) x))
    else mret (0, x)
  else
    let index := index - SFS_NDIRECT in
    if index <? SFS_BLK_NENTRY then
      if negb (indirect (din x) =? 0) then ret ← sfs_bmap_free_sub_nolock (indirect (din x)) index; mret (ret, x)
      else mret (0, x)
    else
      let index := index - SFS_BLK_NENTRY in
      if negb (db_indirect (din x) =? 0) then
        '(ret, _, b) ← sfs_bmap_get_sub_nolock (db_indirect (din x)) (index / SFS_BLK_NENTRY) false;
        if negb (ret =? 0) then mret (ret, x)
        else if negb (b =? 0) then ret ← sfs_bmap_free_sub_nolock b (index mod SFS_BLK_NENTRY); mret (ret, x)
        else mret (0, x)
      else mret (0, x).

Definition sfs_bmap_load_nolock (x : sfs_inode) (index : Z) : M sfs_fs (Z * Z * sfs_inode) :=
  _ ← kassert (index <=? dblocks (din x));
  let create := index =? dblocks (din x) in
  '(ret, b, x) ← sfs_bmap_get_nolock x index create;
  if negb (ret =? 0) then mret (ret, 0, x)
  else
    u ← sfs_block_inuse b;
    _ ← kassert u;
    mret (0, b, if create then set_din (din_blocks (u32 (dblocks (din x) + 1)) (din x)) x else x).

Definition sfs_bmap_truncate_nolock (x : sfs_inode) : M sfs_fs (Z * sfs_inode) :=
  _ ← kassert (negb (dblocks (din x) =? 0));
  '(ret, x) ← sfs_bmap_free_nolock x (dblocks (din x) - 1);
  if negb (ret =? 0) then mret (ret, x)
  else mret (0, set_dirty true (set_din (din_blocks (dblocks (din x) - 1) (din x)) x)).

(** ** File I/O *)

(** [sfs_buf_op] and [sfs_block_op] on the memory [buf] at [pos]. *)
Definition buf_op (write : bool) (buf : list Z) (pos size b off : Z) : M sfs_fs (Z * list Z) :=
  if write then ret ← sfs_wbuf (bytes_at buf pos size) size b off; mret (ret, buf)
  else '(ret, bs) ← sfs_rbuf size b off; mret (ret, if ret =? 0 then splice buf pos bs else buf).
Definition block_op (write : bool) (buf : list Z) (pos b : Z) : M sfs_fs (Z * list Z) :=
  '(ret, blk) ← sfs_rwblock (bytes_at buf pos SFS_BLKSIZE) b 1 write;
  mret (ret, if write then buf else splice buf pos blk).

(** What the phases of a transfer hand on: [ret], [alen], the memory and the inode. *)
Record xfer := Xfer { ret : Z; alen : Z; xbuf : list Z; xsin : sfs_inode }.

(** A piece of [size] bytes at [off] of block [blkno]. *)
Definition io_piece (write : bool) (size blkno off : Z) (t : xfer) : M sfs_fs xfer :=
  '(r, b, x) ← sfs_bmap_load_nolock (xsin t) blkno;
  if negb (r =? 0) then mret (Xfer r (alen t) (xbuf t) x)
  else
    '(r, buf) ← buf_op write (xbuf t) (alen t) size b off;
    if negb (r =? 0) then mret (Xfer r (alen t) buf x) else mret (Xfer 0 (alen t + size) buf x).

(** The loop over whole blocks. *)
Fixpoint io_blocks (write : bool) (nblks : nat) (blkno : Z) (t : xfer) : M sfs_fs xfer :=
  match nblks with
  | O => mret t
  | S n =>
      '(r, b, x) ← sfs_bmap_load_nolock (xsin t) blkno;
      if negb (r =? 0) then mret (Xfer r (alen t) (xbuf t) x)
      else
        '(r, buf) ← block_op write (xbuf t) (alen t) b;
        if negb (r =? 0) then mret (Xfer r (alen t) buf x)
        else io_blocks write n (blkno + 1) (Xfer 0 (alen t + SFS_BLKSIZE) buf x)
  end.

(** From the first piece to the label [out]. *)
Definition io_body (write : bool) (offset endpos : Z) (t : xfer) : M sfs_fs xfer :=
  let blkno := offset / SFS_BLKSIZE in
  let nblks := endpos / SFS_BLKSIZE - blkno in
  let blkoff := offset mod SFS_BLKSIZE in
  t ← (if negb (blkoff =? 0)
       then io_piece write (if negb (nblks =? 0) then SFS_BLKSIZE - blkoff else endpos - offset) blkno blkoff t
       else mret t);
  if negb (ret t =? 0) || (negb (blkoff =? 0) && (nblks =? 0)) then mret t
  else
    let '(blkno, nblks) := if negb (blkoff =? 0) then (blkno + 1, nblks - 1) else (blkno, nblks) in
    t ← io_blocks write (Z.to_nat nblks) blkno t;
    if negb (ret t =? 0) then mret t
    else
      let size := endpos mod SFS_BLKSIZE in
      if negb (size =? 0) then io_piece write size (blkno + nblks) 0 t else mret t.

Definition io_out (offset : Z) (t : xfer) : M sfs_fs xfer :=
  let d := din (xsin t) in
  mret (if size_slots d <? u32 (offset + alen t)
        then Xfer (ret t) (alen t) (xbuf t) (set_dirty true (set_din (din_size (u32 (offset + alen t)) d) (xsin t)))
        else t).

(** [buf] is the memory to read into or to write from, [len] the value of [*alenp]. *)
Definition sfs_io_nolock (x : sfs_inode) (buf : list Z) (offset len : Z) (write : bool) : M sfs_fs xfer :=
  _ ← kassert (negb (type (din x) =? SFS_TYPE_DIR));
  let endpos := s32 (offset + len) in
  if (offset <? 0) || (SFS_MAX_FILE_SIZE <=? offset) || (endpos <? offset) then mret (Xfer (- E_INVAL) 0 buf x)
  else if offset =? endpos then mret (Xfer 0 0 buf x)
  else
    let endpos := if SFS_MAX_FILE_SIZE <? endpos then SFS_MAX_FILE_SIZE else endpos in
    if negb write && (size_slots (din x) <=? offset) then mret (Xfer 0 0 buf x)
    else
      let endpos := if negb write && (size_slots (din x) <? endpos) then size_slots (din x) else endpos in
      t ← io_body write offset endpos (Xfer 0 0 buf x);
      io_out offset t.

(** ** Changing the length *)

Definition ROUNDUP_DIV (a n : Z) : Z := u32 (a + n - 1) / n.

Fixpoint grow_loop (n : nat) (nblks : Z) (x : sfs_inode) : M sfs_fs (Z * sfs_inode) :=
  match n with
  | O => mret (0, x)
  | S n => '(r, _, x) ← sfs_bmap_load_nolock x nblks; if negb (r =? 0) then mret (r, x) else grow_loop n (nblks + 1) x
  end.
Fixpoint shrink_loop (n : nat) (x : sfs_inode) : M sfs_fs (Z * sfs_inode) :=
  match n with
  | O => mret (0, x)
  | S n => '(r, x) ← sfs_bmap_truncate_nolock x; if negb (r =? 0) then mret (r, x) else shrink_loop n x
  end.

Definition trylock_sin (x : sfs_inode) : M sfs_fs Z :=
  if negb (removed x) then _ ← acquire (SinSem (ino x)); mret 0 else mret (- E_NOENT).

Definition sfs_truncfile (x : sfs_inode) (len : Z) : M sfs_fs (Z * sfs_inode) :=
  if (len <? 0) || (SFS_MAX_FILE_SIZE <? len) then mret (- E_INVAL, x)
  else
    _ ← kassert (negb (type (din x) =? SFS_TYPE_DIR));
    let tblks := ROUNDUP_DIV len SFS_BLKSIZE in
    if size_slots (din x) =? len then _ ← kassert (tblks =? dblocks (din x)); mret (0, x)
    else
      r ← trylock_sin x;
      if negb (r =? 0) then mret (r, x)
      else
        let nblks := dblocks (din x) in
        '(r, x) ← (if nblks <? tblks then grow_loop (Z.to_nat (tblks - nblks)) nblks x
                   else if tblks <? nblks then shrink_loop (Z.to_nat (nblks - tblks)) x
                   else mret (0, x));
        x ← (if negb (r =? 0) then mret x
             else _ ← kassert (dblocks (din x) =? tblks); mret (set_dirty true (set_din (din_size len (din x)) x)));
        _ ← release (SinSem (ino x));
        mret (r, x).

Definition sfs_tryseek (x : sfs_inode) (pos : Z) : M sfs_fs (Z * sfs_inode) :=
  if (pos <? 0) || (SFS_MAX_FILE_SIZE <=? pos) then mret (- E_INVAL, x)
  else if size_slots (din x) <? pos then sfs_truncfile x pos
  else mret (0, x).

(** The memory of the buffer from [io_base] on is what the transfer works on. *)
Definition set_mem (iob : iobuf) (l : list Z) : iobuf :=
  Iobuf (take (Z.to_nat (io_base iob)) (io_mem iob) ++ l) (io_base iob) (io_offset iob) (io_len iob) (io_resid iob).

Definition sfs_io (x : sfs_inode) (iob : iobuf) (write : bool) : M sfs_fs (Z * iobuf * sfs_inode) :=
  r ← trylock_sin x;
  if negb (r =? 0) then mret (r, iob, x)
  else
    t ← sfs_io_nolock x (drop (Z.to_nat (io_base iob)) (io_mem iob)) (io_offset iob) (io_resid iob) write;
    let iob := set_mem iob (xbuf t) in
    iob ← (if negb (alen t =? 0) then lift_out (iobuf_skip iob (alen t)) else mret iob);
    _ ← release (SinSem (ino x));
    mret (ret t, iob, xsin t).
Definition sfs_read (x : sfs_inode) (iob : iobuf) : M sfs_fs (Z * iobuf * sfs_inode) := sfs_io x iob false.
Definition sfs_write (x : sfs_inode) (iob : iobuf) : M sfs_fs (Z * iobuf * sfs_inode) := sfs_io x iob true.
