(* ===== verification/SfsProof.v ===== *)
(** * SfsProof: the block layer of the simple file system

    Every block operation of [Sfs] has an exact effect on two functions of the
    state: which blocks are in use, and what they hold. *)

From stdpp Require Import numbers list.
From S2P Require Import Prelude Bitmap Disk Sfs.
Local Open Scope Z_scope.

Definition blk (s : sfs_fs) (b : Z) : list Z := bytes_at (image (dev s)) (b * BLKSIZE) BLKSIZE.
Definition used (s : sfs_fs) (b : Z) : bool := (0 <? b) && (b <? blocks (super s)) && negb (is_free (freemap s) b).
Definition n_free (s : sfs_fs) : Z := Z.of_nat (length (filter (fun b => is_free (freemap s) b = true) (seqZ 0 (blocks (super s))))).

Record sfs_wf (s : sfs_fs) : Prop := {
  sw_dev : wf_disk (dev s);
  sw_idle : busy (dev s) = false;
  sw_map : wf_bitmap (freemap s);
  sw_blocks : 0 < blocks (super s) <= d_blocks (dev s) /\ blocks (super s) < 2 ^ 19;
  sw_nbits : blocks (super s) <= nbits (freemap s);
  sw_free : forall b, 0 <= b -> is_free (freemap s) b = true -> 0 < b < blocks (super s);
  sw_unused : unused_blocks (super s) = n_free s }.

(** The I/O semaphore is free. *)
Definition io_free (s : sfs_fs) : Prop := IoSem ∉ held s.

(** Nothing but blocks changes. *)
Definition same_fs (s s' : sfs_fs) : Prop := held s' = held s /\ blocks (super s') = blocks (super s).

Lemma used_range s b : used s b = true -> 0 < b < blocks (super s).
Proof. unfold used. rewrite !andb_true_iff, Z.ltb_lt, Z.ltb_lt. lia. Qed.

Lemma used_free s b : 0 < b < blocks (super s) -> used s b = negb (is_free (freemap s) b).
Proof. intros. unfold used. destruct (Z.ltb_spec 0 b), (Z.ltb_spec b (blocks (super s))); try lia. done. Qed.

Section io.
Context (s : sfs_fs) (W : sfs_wf s) (b : Z) (Hb : 0 < b < blocks (super s)).

Lemma blk_fits : 0 <= b * BLKSIZE /\ b * BLKSIZE + BLKSIZE <= Z.of_nat (length (image (dev s))).
Proof. pose proof (sw_blocks _ W). pose proof (blocks_range (dev s) b 1 (sw_dev _ W) ltac:(lia)). unfold BLKSIZE in *. lia. Qed.

Lemma length_blk : length (blk s b) = Z.to_nat BLKSIZE.
Proof. unfold blk. apply length_bytes_at. pose proof blk_fits. unfold BLKSIZE in *. lia. Qed.

Lemma offset_s32 : s32 (b * SFS_BLKSIZE) = b * BLKSIZE.
Proof. unfold SFS_BLKSIZE. pose proof (sw_blocks _ W). apply (smod_small 32); [done|]. unfold is_s, BLKSIZE. lia. Qed.

(** The device after a transfer. *)
Definition dev_step (d : disk) (img : list Z) : Prop := wf_disk d /\ busy d = false /\ d_blocks d = d_blocks (dev s) /\ image d = img.

Lemma rw_read buf check : length buf = Z.to_nat BLKSIZE -> exists d, sfs_rwblock_nolock buf b false check s = Ok ((0, blk s b), with_dev d s) /\
  dev_step d (image (dev s)).
Proof.
  intros Hl. pose proof (sw_blocks _ W) as Hbl. pose proof blk_fits as Hf.
  destruct (disk0_read_spec (dev s) (sw_dev _ W) buf b 1 0) as (iob & d & E & Wd & (E1 & E2 & E3) & Himg & Hmem);
    [lia|lia|lia|lia|unfold BLKSIZE in *; lia|apply W|].
  exists d. split; [|split_and!; [done|by rewrite E3, (sw_idle _ W)|done|done]].
  unfold sfs_rwblock_nolock. rewrite bind_get. massert; [|destruct (Z.eqb_spec b 0), (Z.ltb_spec b (blocks (super s))); try lia; done].
  rewrite offset_s32. rewrite (bind_step _ _ s (0, iob) (with_dev d s)).
  - cbv beta iota. unfold mret, M_ret. do 3 f_equal. rewrite Hmem. unfold blk. replace (1 * BLKSIZE) with BLKSIZE by lia.
    unfold splice. cbn [Z.to_nat take app Nat.add]. rewrite length_bytes_at by (unfold BLKSIZE in *; lia). rewrite drop_ge by lia. apply app_nil_r.
  - unfold lift_dev. replace (1 * BLKSIZE) with SFS_BLKSIZE in E by (unfold SFS_BLKSIZE; lia). by rewrite E.
Qed.

Lemma rw_write buf check : length buf = Z.to_nat BLKSIZE -> exists d buf', sfs_rwblock_nolock buf b true check s = Ok ((0, buf'), with_dev d s) /\
  dev_step d (splice (image (dev s)) (b * BLKSIZE) buf).
Proof.
  intros Hl. pose proof (sw_blocks _ W) as Hbl. pose proof blk_fits as Hf.
  destruct (disk0_write_spec (dev s) (sw_dev _ W) buf b 1 0) as (iob & d & E & Wd & (E1 & E2 & E3) & Himg);
    [lia|lia|lia|lia|unfold BLKSIZE in *; lia|apply W|].
  exists d, (io_mem iob). split; [|split_and!; [done|by rewrite E3, (sw_idle _ W)|done|]].
  - unfold sfs_rwblock_nolock. rewrite bind_get. massert; [|destruct (Z.eqb_spec b 0), (Z.ltb_spec b (blocks (super s))); try lia; done].
    rewrite offset_s32. rewrite (bind_step _ _ s (0, iob) (with_dev d s)); [done|].
    unfold lift_dev. replace (1 * BLKSIZE) with SFS_BLKSIZE in E by (unfold SFS_BLKSIZE; lia). by rewrite E.
  - rewrite Himg. f_equal. unfold bytes_at. cbn. rewrite drop_0. apply take_ge. unfold BLKSIZE in *. lia.
Qed.
End io.

Lemma length_blank : length blank = Z.to_nat BLKSIZE.
Proof. apply length_replicate. Qed.

(** The effect of an operation: the blocks in use and their contents afterwards. *)
Record eff (s s' : sfs_fs) (u : Z -> bool) (f : Z -> list Z) : Prop := {
  eff_wf : sfs_wf s';
  eff_fs : same_fs s s';
  eff_used : forall c, 0 <= c -> used s' c = u c;
  eff_blk : forall c, 0 <= c -> blk s' c = f c }.

(** [f] with another value at [b]. *)
Definition at_ {A} (b : Z) (v : A) (f : Z -> A) : Z -> A := fun c => if c =? b then v else f c.
Lemma at_eq {A} b (v : A) f : at_ b v f b = v.
Proof. unfold at_. by rewrite Z.eqb_refl. Qed.
Lemma at_ne {A} b (v : A) f c : c <> b -> at_ b v f c = f c.
Proof. intros. unfold at_. by destruct (Z.eqb_spec c b). Qed.

Lemma wf_held l s : sfs_wf s -> sfs_wf (with_held l s).
Proof. intros []. by split. Qed.

Lemma wf_dev s d img : sfs_wf s -> dev_step s d img -> sfs_wf (with_dev d s).
Proof. intros [] (? & ? & E & ?). split; cbn [with_dev dev super freemap]; rewrite ?E; done. Qed.

Lemma unlock_id s d : io_free s -> with_held (filter (fun x => x <> IoSem) (held (with_dev d (with_held (IoSem :: held s) s)))) (with_dev d (with_held (IoSem :: held s) s)) = with_dev d s.
Proof.
  intros Hio. unfold with_held, with_dev. cbn. f_equal. rewrite decide_False by (intros H; by apply H). by apply filter_ne_notin.
Qed.

Lemma io_acquire s : io_free s -> acquire IoSem s = Ok (tt, with_held (IoSem :: held s) s).
Proof. intros H. unfold acquire. by rewrite bool_decide_eq_false_2. Qed.

Section prims.
Context (s : sfs_fs) (W : sfs_wf s) (Hio : io_free s).

Let s1 : sfs_fs := with_held (IoSem :: held s) s.
Let W1 : sfs_wf s1 := wf_held _ _ W.

Lemma eff_read d : dev_step s d (image (dev s)) -> eff s (with_dev d s) (used s) (blk s).
Proof. intros Hd. split; [by eapply wf_dev|done|done|]. intros c Hc. destruct Hd as (_ & _ & _ & E). unfold blk. cbn. by rewrite E. Qed.

Lemma eff_write d b buf : 0 < b < blocks (super s) -> length buf = Z.to_nat BLKSIZE -> dev_step s d (splice (image (dev s)) (b * BLKSIZE) buf) ->
  eff s (with_dev d s) (used s) (at_ b buf (blk s)).
Proof.
  intros Hb Hl Hd. split; [by eapply wf_dev|done|done|]. intros c Hc. destruct Hd as (_ & _ & _ & E). unfold blk at 1. cbn. rewrite E.
  pose proof (blk_fits s W b Hb) as Hf. destruct (Z.eqb_spec c b) as [->|Hne].
  - rewrite at_eq. pose proof (bytes_at_splice_same (image (dev s)) (b * BLKSIZE) buf) as Es. rewrite Hl in Es.
    rewrite Z2Nat.id in Es by done. apply Es; lia.
  - rewrite at_ne by done. unfold blk. apply bytes_at_splice_ne; rewrite ?Hl; unfold BLKSIZE in *; lia.
Qed.

Lemma rbuf_spec b off len : 0 < b < blocks (super s) -> 0 <= off < BLKSIZE -> off + len <= BLKSIZE ->
  exists s', sfs_rbuf len b off s = Ok ((0, bytes_at (blk s b) off len), s') /\ eff s s' (used s) (blk s).
Proof.
  intros Hb Ho Hl. destruct (rw_read s1 W1 b Hb blank true) as (d & E & Hd); [apply length_blank|].
  exists (with_dev d s). split; [|by apply eff_read]. unfold sfs_rbuf.
  massert; [|unfold SFS_BLKSIZE; destruct (Z.leb_spec 0 off), (Z.ltb_spec off BLKSIZE), (Z.leb_spec (off + len) BLKSIZE); lia].
  mstep (io_acquire s Hio). fold s1. mstep E. cbv beta iota. unfold release. rewrite bind_modify. unfold s1. rewrite unlock_id by done. done.
Qed.

Lemma wbuf_spec b off len buf : 0 < b < blocks (super s) -> 0 <= off < BLKSIZE -> off + len <= BLKSIZE -> Z.of_nat (length buf) = len ->
  exists s', sfs_wbuf buf len b off s = Ok (0, s') /\ eff s s' (used s) (at_ b (splice (blk s b) off buf) (blk s)).
Proof.
  intros Hb Ho Hl Hlen. destruct (rw_read s1 W1 b Hb blank true) as (d & E & Hd); [apply length_blank|].
  assert (Hbb : bytes_at buf 0 len = buf) by (unfold bytes_at; cbn; rewrite drop_0; apply take_ge; lia).
  assert (Hls : length (splice (blk s b) off buf) = Z.to_nat BLKSIZE).
  { rewrite length_splice; rewrite length_blk by done; [done|unfold BLKSIZE in *; lia]. }
  destruct (rw_write (with_dev d s1) (wf_dev _ _ _ W1 Hd) b Hb (splice (blk s b) off buf) true Hls) as (d' & buf' & E' & Hd').
  exists (with_dev d' s). split.
  - unfold sfs_wbuf. massert; [|unfold SFS_BLKSIZE; destruct (Z.leb_spec 0 off), (Z.ltb_spec off BLKSIZE), (Z.leb_spec (off + len) BLKSIZE); lia].
    mstep (io_acquire s Hio). fold s1. mstep E. cbv beta iota. rewrite Z.eqb_refl, Hbb, bind_assoc_M. mstep E'. cbv beta iota.
    match goal with |- ((mret 0 ≫= ?k) ?st) = _ => change ((mret 0 ≫= k) st) with (k 0 st) end. cbv beta. unfold release. rewrite bind_modify.
    unfold s1. change (with_dev d' (with_dev d (with_held (IoSem :: held s) s))) with (with_dev d' (with_held (IoSem :: held s) s)).
    rewrite unlock_id by done. done.
  - apply eff_write; [done|done|]. destruct Hd as (_ & _ & Eb & Ei), Hd' as (? & ? & Eb' & Ei'). split_and!; [done|done| |].
    + cbn in *. by rewrite Eb', Eb.
    + cbn in *. by rewrite Ei', Ei.
Qed.

Lemma clear_spec b : 0 < b < blocks (super s) -> exists s', sfs_clear_block b 1 s = Ok (0, s') /\ eff s s' (used s) (at_ b blank (blk s)).
Proof.
  intros Hb. pose proof length_blank as Hl.
  destruct (rw_write s1 W1 b Hb blank true Hl) as (d & buf & E & Hd). exists (with_dev d s). split; [|by apply eff_write].
  unfold sfs_clear_block. mstep (io_acquire s Hio). fold s1. change (Z.to_nat 1) with 1%nat. cbn [clear_loop]. rewrite bind_assoc_M. mstep E. cbv beta iota.
  change (negb (0 =? 0)) with false. cbv beta iota.
  match goal with |- ((mret 0 ≫= ?k) ?st) = _ => change ((mret 0 ≫= k) st) with (k 0 st) end. cbv beta. unfold release. rewrite bind_modify.
  unfold s1. rewrite unlock_id by done. done.
Qed.
End prims.

(** ** Taking and giving back blocks *)

Lemma count_flip (P P' : Z -> bool) (l : list Z) b : NoDup l -> b ∈ l -> P b = true -> (forall c, c ∈ l -> P' c = if c =? b then false else P c) ->
  length (filter (fun c => P c = true) l) = S (length (filter (fun c => P' c = true) l)).
Proof.
  intros Hnd Hb HP HP'. assert (E : filter (fun c => P' c = true) l = filter (fun c => c <> b) (filter (fun c => P c = true) l)).
  { rewrite list_filter_filter. apply list_filter_iff'. intros c Hc. rewrite (HP' c Hc). destruct (Z.eqb_spec c b); naive_solver. }
  assert (Hin : b ∈ filter (fun c => P c = true) l) by (apply list_elem_of_filter; done).
  rewrite E, length_filter_ne; [|by apply list.NoDup_filter|done].
  destruct (filter (fun c => P c = true) l); [by apply not_elem_of_nil in Hin|simpl; lia].
Qed.

Lemma n_free_bound s : sfs_wf s -> 0 <= n_free s <= blocks (super s).
Proof.
  intros W. unfold n_free. split; [lia|]. etransitivity; [apply inj_le, length_filter|]. rewrite length_seqZ. pose proof (sw_blocks _ W). lia.
Qed.

Lemma n_free_flip s s' b : sfs_wf s -> 0 < b < blocks (super s) -> is_free (freemap s) b = true -> blocks (super s') = blocks (super s) ->
  (forall c, 0 <= c -> is_free (freemap s') c = if c =? b then false else is_free (freemap s) c) -> n_free s = n_free s' + 1.
Proof.
  intros W Hb Hf Hbl Hc. unfold n_free. rewrite Hbl.
  rewrite (count_flip (is_free (freemap s)) (is_free (freemap s')) (seqZ 0 (blocks (super s))) b); [lia|apply NoDup_seqZ|apply elem_of_seqZ; lia|done|].
  intros c Hin%elem_of_seqZ. apply Hc. lia.
Qed.

Lemma inuse_spec s b : sfs_wf s -> 0 < b < blocks (super s) -> sfs_block_inuse b s = Ok (used s b, s).
Proof.
  intros W Hb. unfold sfs_block_inuse. rewrite bind_get. destruct (Z.eqb_spec b 0), (Z.ltb_spec b (blocks (super s))); try lia. cbn [negb andb].
  pose proof (sw_nbits _ W). rewrite bitmap_test_spec by lia. rewrite bind_lift_out. by rewrite used_free.
Qed.

(** Replacing the bitmap and the counter. *)
Lemma remap_wf s fm n d : sfs_wf s -> wf_bitmap fm -> nbits fm = nbits (freemap s) ->
  (forall b, 0 <= b -> is_free fm b = true -> 0 < b < blocks (super s)) ->
  n = n_free (with_freemap fm s) -> sfs_wf (with_super (set_unused n (super s)) d (with_freemap fm s)).
Proof. intros [] Hfm Hn Hf ->. split; try done. cbn in *. by rewrite Hn. Qed.

Lemma block_alloc_spec s : sfs_wf s -> io_free s ->
  (exists b s', sfs_block_alloc s = Ok ((0, Some b), s') /\ 0 < b < blocks (super s) /\ used s b = false /\
     eff s s' (at_ b true (used s)) (at_ b blank (blk s))) \/
  (sfs_block_alloc s = Ok ((- E_NO_MEM, None), s) /\ forall c, 0 < c < blocks (super s) -> used s c = true).
Proof.
  intros W Hio. destruct (bitmap_alloc_correct (freemap s) (sw_map _ W)) as [(b & fm & E & Hb & Hfree & _ & (Hwf & Hn & Hupd))|[E Hnone]].
  - left. pose proof (sw_free _ W b ltac:(lia) Hfree) as Hb'. pose proof (n_free_bound s W) as Hnf.
    pose proof (n_free_flip s (with_freemap fm s) b W Hb' Hfree eq_refl Hupd) as Hflip.
    assert (Hle : 0 <= n_free (with_freemap fm s)) by (unfold n_free; lia).
    pose proof (sw_unused _ W) as Hun. pose proof (sw_blocks _ W) as Hbl.
    set (s2 := with_super (set_unused (u32 (unused_blocks (super s) - 1)) (super s)) true (with_freemap fm s)).
    assert (Hu : u32 (unused_blocks (super s) - 1) = unused_blocks (super s) - 1) by (apply (umod_small 32); unfold is_u; lia).
    assert (W2 : sfs_wf s2).
    { apply remap_wf; [done|done|done| |lia]. intros c Hc. rewrite Hupd by done. destruct (Z.eqb_spec c b); [done|]. by apply (sw_free _ W). }
    assert (Hub : used s2 b = true).
    { rewrite used_free by done. cbn. rewrite Hupd by lia. by rewrite Z.eqb_refl. }
    destruct (clear_spec s2 W2 Hio b Hb') as (s3 & E3 & [W3 F3 U3 B3]).
    assert (Hub0 : used s b = false) by (rewrite used_free, Hfree by done; done).
    exists b, s3. split_and!; [|lia|lia|done|].
    + unfold sfs_block_alloc. rewrite bind_get, E, bind_lift_out. cbv beta iota. rewrite bind_modify. change (negb (0 =? 0)) with false. cbv beta iota.
      massert; [|lia]. rewrite bind_modify. cbn [default from_option id]. change (with_super _ true (with_freemap fm s)) with s2.
      mstep (inuse_spec s2 b W2 Hb'). rewrite Hub. massert; [|done]. mstep E3. done.
    + split; [done|done| |].
      * intros c Hc. rewrite U3 by done. destruct (Z.eqb_spec c b) as [->|Hne]; [by rewrite at_eq, Hub|]. rewrite at_ne by done.
        unfold used. cbn. rewrite Hupd by done. by destruct (Z.eqb_spec c b).
      * intros c Hc. rewrite B3 by done. done.
  - right. split.
    + unfold sfs_block_alloc. rewrite bind_get, E, bind_lift_out. cbv beta iota. rewrite bind_modify.
      change (negb (- E_NO_MEM =? 0)) with true. cbv beta iota. by destruct s.
    + intros c Hc. rewrite used_free, Hnone by lia. done.
Qed.

Lemma free_spec s b : sfs_wf s -> used s b = true -> exists s', sfs_block_free b s = Ok (tt, s') /\ eff s s' (at_ b false (used s)) (blk s).
Proof.
  intros W Hub. pose proof (used_range _ _ Hub) as Hb. pose proof Hub as Hfr. rewrite used_free in Hfr by done. apply negb_true_iff in Hfr.
  pose proof (sw_nbits _ W) as Hnb. pose proof (bitmap_free_correct (freemap s) b (sw_map _ W) ltac:(lia)) as Hspec.
  destruct (Z.ltb_spec b (nbits (freemap s))); [|lia]. rewrite Hfr in Hspec. cbn [andb negb] in Hspec. destruct Hspec as (fm & E & Hwf & Hn & Hupd).
  assert (Hflip : n_free (with_freemap fm s) = n_free s + 1).
  { unfold n_free. cbn. rewrite (count_flip (is_free fm) (is_free (freemap s)) (seqZ 0 (blocks (super s))) b); [lia|apply NoDup_seqZ|apply elem_of_seqZ; lia| |].
    - rewrite Hupd by lia. by rewrite Z.eqb_refl.
    - intros c Hc%elem_of_seqZ. rewrite Hupd by lia. by destruct (Z.eqb_spec c b) as [->|]. }
  set (s2 := with_super (set_unused (u32 (unused_blocks (super s) + 1)) (super s)) true (with_freemap fm s)).
  pose proof (n_free_bound s W). pose proof (sw_blocks _ W). pose proof (sw_unused _ W).
  assert (W2 : sfs_wf s2).
  { apply remap_wf; [done|done|done| |rewrite (umod_small 32) by (unfold is_u; lia); lia]. intros c Hc. rewrite Hupd by done.
    destruct (Z.eqb_spec c b) as [->|]; [done|]. by apply (sw_free _ W). }
  exists s2. split.
  - unfold sfs_block_free. mstep (inuse_spec s b W Hb). rewrite Hub. massert; [|done]. rewrite bind_get, E, bind_lift_out, bind_modify. done.
  - split; [done|done| |done]. intros c Hc. unfold used at 1. cbn. rewrite Hupd by done. destruct (Z.eqb_spec c b) as [->|Hne].
    + rewrite at_eq. apply andb_false_r.
    + by rewrite at_ne.
Qed.

(** The counter of the superblock is determined by the blocks in use. *)
Lemma unused_by_used s : sfs_wf s -> unused_blocks (super s) = Z.of_nat (length (filter (fun c => used s c = false) (seqZ 1 (blocks (super s) - 1)))).
Proof.
  intros W. rewrite (sw_unused _ W). unfold n_free. pose proof (sw_blocks _ W). rewrite seqZ_cons by lia.
  assert (H0 : is_free (freemap s) 0 = false) by (destruct (is_free (freemap s) 0) eqn:E; [|done]; pose proof (sw_free _ W 0 ltac:(lia) E); lia).
  rewrite filter_cons_False by (by rewrite H0). f_equal. f_equal. apply list_filter_iff'. intros c Hc%elem_of_seqZ. rewrite used_free by lia.
  by rewrite negb_false_iff.
Qed.

(** ** Words of a block *)

Definition wd (l : list Z) (k : Z) : Z := get_u32 (bytes_at l (k * 4) 4).
(** Entry [k] of the block [e], where 0 is the block of zeros. *)
Definition entry (s : sfs_fs) (e k : Z) : Z := if e =? 0 then 0 else wd (blk s e) k.

Lemma get_put z : is_u 32 z -> get_u32 (put_u32 z) = z.
Proof. unfold is_u, get_u32, put_u32. intros. Z.to_euclidean_division_equations. lia. Qed.

Lemma wd_put l k v : 0 <= k < SFS_BLK_NENTRY -> length l = Z.to_nat BLKSIZE -> is_u 32 v -> wd (splice l (k * 4) (put_u32 v)) k = v.
Proof.
  intros Hk Hl Hv. unfold wd. pose proof (bytes_at_splice_same l (k * 4) (put_u32 v)) as E. change (Z.of_nat (length (put_u32 v))) with 4 in E.
  change SFS_BLK_NENTRY with 1024 in Hk. rewrite E by (rewrite ?Hl; unfold BLKSIZE; lia). by apply get_put.
Qed.

Lemma wd_put_ne l k v j : 0 <= k < SFS_BLK_NENTRY -> 0 <= j -> j <> k -> length l = Z.to_nat BLKSIZE -> wd (splice l (k * 4) (put_u32 v)) j = wd l j.
Proof.
  intros Hk Hj Hne Hl. unfold wd. change SFS_BLK_NENTRY with 1024 in Hk. f_equal.
  apply bytes_at_splice_ne; change (Z.of_nat (length (put_u32 v))) with 4; rewrite ?Hl; unfold BLKSIZE; lia.
Qed.

Lemma wd_blank k : 0 <= k < SFS_BLK_NENTRY -> wd blank k = 0.
Proof.
  intros Hk. unfold wd. assert (E : bytes_at blank (k * 4) 4 = replicate 4 0).
  { unfold bytes_at, blank. rewrite drop_replicate, take_replicate. f_equal. change SFS_BLK_NENTRY with 1024 in Hk. unfold SFS_BLKSIZE, BLKSIZE. lia. }
  by rewrite E.
Qed.

Lemma eff_trans s s1 s2 u1 f1 u2 f2 : eff s s1 u1 f1 -> eff s1 s2 u2 f2 -> eff s s2 u2 f2.
Proof. intros [W1 [A1 B1] U1 F1] [W2 [A2 B2] U2 F2]. split; [done|split; congruence|done|done]. Qed.

Lemma eff_io s s' u f : eff s s' u f -> io_free s -> io_free s'.
Proof. intros [_ [E _] _ _] H. unfold io_free. by rewrite E. Qed.

(** The state of the blocks is as before, up to blocks that are not in use. *)
Definition steady (s s' : sfs_fs) : Prop :=
  sfs_wf s' /\ same_fs s s' /\ (forall c, 0 <= c -> used s' c = used s c) /\ forall c, used s c = true -> blk s' c = blk s c.

(** Every block but at most one is in use. *)
Definition nearly_full (s : sfs_fs) : Prop := exists e, forall c, 0 < c < blocks (super s) -> c <> e -> used s c = true.

Lemma steady_refl s : sfs_wf s -> steady s s.
Proof. done. Qed.

(** A new entry [b] at [index] of the block [ent]. *)
Record new_entry (s s' : sfs_fs) (ent0 ent index b : Z) : Prop := {
  ne_wf : sfs_wf s';
  ne_fs : same_fs s s';
  ne_b : 0 < b < blocks (super s) /\ used s b = false;
  ne_ent : ent = ent0 \/ ent0 = 0 /\ 0 < ent < blocks (super s) /\ used s ent = false /\ ent <> b;
  ne_used : forall c, 0 <= c -> used s' c = used s c || (c =? b) || (c =? ent);
  ne_blk : forall c, used s c = true -> c <> ent -> blk s' c = blk s c;
  ne_blank : blk s' b = blank;
  ne_entry : forall k, 0 <= k < SFS_BLK_NENTRY -> entry s' ent k = if k =? index then b else entry s ent0 k }.

Lemma u32_block s b : sfs_wf s -> 0 < b < blocks (super s) -> is_u 32 b.
Proof. intros W Hb. pose proof (sw_blocks _ W). unfold is_u. lia. Qed.

(** [s1]: [ent] is in use, it is [ent0] or was just taken and cleared. *)
Section create.
Context (s s1 : sfs_fs) (ent0 ent index : Z).
Context (Hio : io_free s) (Hi : 0 <= index < SFS_BLK_NENTRY).
Context (W1 : sfs_wf s1) (Hfs : same_fs s s1) (Hent : used s1 ent = true).
Context (Hsame : ent = ent0 /\ (forall c, 0 <= c -> used s1 c = used s c) /\ (forall c, 0 <= c -> blk s1 c = blk s c) \/
  ent0 = 0 /\ used s ent = false /\ (forall c, 0 <= c -> used s1 c = at_ ent true (used s) c) /\ (forall c, 0 <= c -> blk s1 c = at_ ent blank (blk s) c)).

Lemma ent_range : 0 < ent < blocks (super s).
Proof. destruct Hfs as [_ <-]. by apply used_range. Qed.

Lemma sub_create_spec :
  (exists s', sub_create ent0 ent index s1 = Ok ((- E_NO_MEM, ent0, 0), s') /\ steady s s' /\ nearly_full s') \/
  (exists b s', sub_create ent0 ent index s1 = Ok ((0, ent, b), s') /\ (entry s ent0 index = 0 -> new_entry s s' ent0 ent index b)).
Proof.
  pose proof ent_range as Her. assert (Hio1 : io_free s1) by (unfold io_free; destruct Hfs as [-> _]; done).
  unfold sub_create. destruct (block_alloc_spec s1 W1 Hio1) as [(b & s2 & E & Hb & Hfr & [W2 F2 U2 B2])|[E Hfull]].
  - right. mstep E. cbv beta iota. change (negb (0 =? 0)) with false. cbv beta iota. cbn [default from_option id].
    assert (Hio2 : io_free s2) by (unfold io_free; destruct F2 as [-> _]; done).
    assert (Her2 : 0 < ent < blocks (super s2)) by (destruct F2 as [_ ->]; destruct Hfs as [_ ->]; done).
    change SFS_BLK_NENTRY with 1024 in Hi.
    destruct (wbuf_spec s2 W2 Hio2 ent (index * 4) 4 (put_u32 b) Her2) as (s3 & E3 & [W3 F3 U3 B3]); [unfold BLKSIZE; lia..|done|].
    exists b, s3. cbv zeta. mstep E3. split; [done|]. intros He0.
    assert (Hbe : b <> ent) by (intros ->; by rewrite Hent in Hfr).
    assert (Hfs2 : same_fs s s3) by (destruct Hfs, F2, F3; split; congruence).
    assert (Hbr : 0 < b < blocks (super s)) by (destruct Hfs as [_ E']; by rewrite <- E').
    assert (Hbu : used s b = false).
    { destruct Hsame as [(_ & Hu & _)|(_ & _ & Hu & _)]; rewrite Hu in Hfr by lia; [done|]. by rewrite at_ne in Hfr. }
    split; [done|done|done| | | | |].
    + destruct Hsame as [(-> & _)|(-> & Hn & _)]; [by left|right]. done.
    + intros c Hc. rewrite U3, U2 by done. unfold at_. destruct (Z.eqb_spec c b) as [->|]; [by rewrite orb_true_r|]. rewrite orb_false_r.
      destruct Hsame as [(-> & Hu & _)|(_ & _ & Hu & _)]; rewrite Hu by done.
      * destruct (Z.eqb_spec c ent0) as [->|]; [|by rewrite orb_false_r]. rewrite <- Hu by done. by rewrite Hent.
      * unfold at_. destruct (Z.eqb_spec c ent); [by rewrite orb_true_r|by rewrite orb_false_r].
    + intros c Hc Hne. pose proof (used_range _ _ Hc). assert (c <> b) by (intros ->; congruence).
      rewrite B3, at_ne, B2, at_ne by (lia || done). destruct Hsame as [(_ & _ & Hbk)|(_ & _ & _ & Hbk)]; rewrite Hbk by lia; [done|]. by rewrite at_ne.
    + rewrite B3 by lia. rewrite at_ne by done. rewrite B2 by lia. by rewrite at_eq.
    + intros k Hk. unfold entry at 1. destruct (Z.eqb_spec ent 0); [lia|]. rewrite B3 by lia. rewrite at_eq.
      assert (Hl : length (blk s2 ent) = Z.to_nat BLKSIZE) by (by apply length_blk).
      destruct (Z.eqb_spec k index) as [->|Hne].
      { apply wd_put; [done|done|]. apply (u32_block s1 b W1 Hb). }
      rewrite wd_put_ne by (done || lia). rewrite B2, at_ne by (lia || congruence).
      destruct Hsame as [(<- & _ & Hbk)|(-> & _ & _ & Hbk)]; rewrite Hbk by lia.
      * unfold entry. by destruct (Z.eqb_spec ent 0).
      * rewrite at_eq. by apply wd_blank.
  - left. mstep E. cbv beta iota. change (negb (- E_NO_MEM =? 0)) with true. cbv beta iota. unfold sub_cleanup.
    destruct Hsame as [(-> & Hu & Hbk)|(-> & Hn & Hu & Hbk)].
    + rewrite Z.eqb_refl. exists s1. split; [done|]. split; [|exists 0; by auto]. split_and!; [done|done|done|]. intros c Hc. apply Hbk. apply used_range in Hc. lia.
    + destruct (Z.eqb_spec ent 0); [lia|]. cbn [negb]. destruct (free_spec s1 ent W1 Hent) as (s2 & E2 & [W2 F2 U2 B2]). mstep E2.
      exists s2. split; [done|]. split; [split_and!; [done|destruct Hfs, F2; split; congruence| |]|].
      * intros c Hc. rewrite U2 by done. unfold at_. destruct (Z.eqb_spec c ent) as [->|]; [done|]. rewrite Hu by done. by rewrite at_ne.
      * intros c Hc. pose proof (used_range _ _ Hc). assert (c <> ent) by (intros ->; congruence). rewrite B2, Hbk by lia. by rewrite at_ne.
      * exists ent. intros c Hc Hne. rewrite U2 by lia. rewrite at_ne by done. apply Hfull. by destruct F2 as [_ <-].
Qed.
End create.

Section sub.
Context (s : sfs_fs) (ent0 index : Z) (W : sfs_wf s) (Hio : io_free s) (Hi : 0 <= index < SFS_BLK_NENTRY).
Context (Hent : ent0 = 0 \/ used s ent0 = true).

Lemma sub_rbuf : ent0 <> 0 -> exists s', sfs_rbuf 4 ent0 (index * 4) s = Ok ((0, bytes_at (blk s ent0) (index * 4) 4), s') /\ eff s s' (used s) (blk s).
Proof.
  intros Hne. destruct Hent as [|Hu]; [done|]. change SFS_BLK_NENTRY with 1024 in Hi. apply (rbuf_spec s W Hio ent0 (index * 4) 4 (used_range _ _ Hu)); unfold BLKSIZE; lia.
Qed.

Lemma get_sub_present create : create = false \/ entry s ent0 index <> 0 ->
  exists s', sfs_bmap_get_sub_nolock ent0 index create s = Ok ((0, ent0, entry s ent0 index), s') /\ eff s s' (used s) (blk s).
Proof.
  intros Hp. unfold sfs_bmap_get_sub_nolock. massert; [|apply Z.ltb_lt; lia]. unfold entry in *. destruct (Z.eqb_spec ent0 0) as [->|Hne]; cbn [negb].
  - destruct Hp as [->|]; [|done]. exists s. split; [done|]. by split.
  - destruct (sub_rbuf Hne) as (s' & E & Heff). mstep E. cbv beta iota. change (negb (0 =? 0)) with false. cbv beta iota.
    fold (wd (blk s ent0) index). exists s'. split; [|done]. destruct Hp as [->|Hp]; [by rewrite orb_true_r|].
    by destruct (Z.eqb_spec (wd (blk s ent0) index) 0).
Qed.

Lemma get_sub_create : entry s ent0 index = 0 ->
  (exists s', sfs_bmap_get_sub_nolock ent0 index true s = Ok ((- E_NO_MEM, ent0, 0), s') /\ steady s s' /\ nearly_full s') \/
  (exists ent b s', sfs_bmap_get_sub_nolock ent0 index true s = Ok ((0, ent, b), s') /\ new_entry s s' ent0 ent index b).
Proof.
  intros H0. unfold sfs_bmap_get_sub_nolock. rewrite bind_kassert by (apply Z.ltb_lt; lia). destruct (Z.eqb_spec ent0 0) as [->|Hne]; cbn [negb].
  - destruct (block_alloc_spec s W Hio) as [(ent & s1 & E & Hb & Hfr & [W1 F1 U1 B1])|[E Hfull]].
    + rewrite (bind_step _ _ _ _ _ E). cbv beta iota. change (negb (0 =? 0)) with false. cbv beta iota. cbn [default from_option id].
      assert (Hu1 : used s1 ent = true) by (rewrite U1 by lia; by rewrite at_eq).
      destruct (sub_create_spec s s1 0 ent index Hio Hi W1 F1 Hu1) as [(s' & E' & Hst)|(b & s' & E' & Hne)]; [by right| |].
      * left. by exists s'.
      * right. exists ent, b, s'. split; [done|by apply Hne].
    + left. rewrite (bind_step _ _ _ _ _ E). exists s. split_and!; [done|by apply steady_refl|exists 0; by auto].
  - destruct (sub_rbuf Hne) as (s1 & E & [W1 F1 U1 B1]). rewrite (bind_step _ _ _ _ _ E). cbv beta iota. change (negb (0 =? 0)) with false. cbv beta iota.
    assert (Hw : get_u32 (bytes_at (blk s ent0) (index * 4) 4) = 0) by (unfold entry in H0; by destruct (Z.eqb_spec ent0 0)). rewrite Hw.
    change (negb (0 =? 0) || negb true) with false. cbv beta iota. destruct Hent as [|Hu]; [done|].
    assert (Hu1 : used s1 ent0 = true) by (pose proof (used_range _ _ Hu); by rewrite U1 by lia).
    destruct (sub_create_spec s s1 ent0 ent0 index Hio Hi W1 F1 Hu1) as [(s' & E' & Hst)|(b & s' & E' & Hnew)]; [by left| |].
    + left. by exists s'.
    + right. exists ent0, b, s'. split; [done|by apply Hnew].
Qed.
End sub.
