(* ===== verification/SfsMap.v ===== *)
(** * SfsMap: the block map of an inode

    The pointers of an inode, wherever they are stored, are cells with values;
    a well-formed map gives every cell that is set a block of its own.  Loading a
    block changes the cells it must and no others. *)

From stdpp Require Import numbers list.
From S2P Require Import Prelude Bitmap Disk Sfs SfsProof.
Local Open Scope Z_scope.

Definition NIND : Z := SFS_NDIRECT + SFS_BLK_NENTRY.
Definition MAXB : Z := NIND + SFS_BLK_NENTRY * SFS_BLK_NENTRY.

Inductive cell := CData (i : Z) | CInd | CDbl | CMid (k : Z).
Definition valid (c : cell) : Prop :=
  match c with CData i => 0 <= i < MAXB | CMid k => 0 <= k < SFS_BLK_NENTRY | _ => True end.

(** The block that holds byte block [i] of the file, 0 when there is none. *)
Definition bmap (s : sfs_fs) (d : sfs_disk_inode) (i : Z) : Z :=
  if i <? SFS_NDIRECT then nth_direct d i
  else if i <? NIND then entry s (indirect d) (i - SFS_NDIRECT)
  else entry s (entry s (db_indirect d) ((i - NIND) / SFS_BLK_NENTRY)) ((i - NIND) mod SFS_BLK_NENTRY).

Definition val (s : sfs_fs) (d : sfs_disk_inode) (c : cell) : Z :=
  match c with
  | CData i => bmap s d i
  | CInd => indirect d
  | CDbl => db_indirect d
  | CMid k => entry s (db_indirect d) k
  end.

Record map_wf (s : sfs_fs) (x : sfs_inode) : Prop := {
  mw_direct : length (direct (din x)) = Z.to_nat SFS_NDIRECT;
  mw_ino : used s (ino x) = true;
  mw_used : forall c, valid c -> val s (din x) c <> 0 -> used s (val s (din x) c) = true /\ val s (din x) c <> ino x;
  mw_inj : forall c1 c2, valid c1 -> valid c2 -> val s (din x) c1 = val s (din x) c2 -> val s (din x) c1 <> 0 -> c1 = c2 }.

(** The file has exactly the blocks below [n]. *)
Definition filled (s : sfs_fs) (x : sfs_inode) (n : Z) : Prop :=
  0 <= n <= MAXB /\ forall i, 0 <= i < MAXB -> bmap s (din x) i <> 0 <-> i < n.

(** Cells only get set, to blocks that were not in use. *)
Record grows (s s' : sfs_fs) (d d' : sfs_disk_inode) : Prop := {
  gr_val : forall c, valid c -> val s' d' c = val s d c \/ val s d c = 0 /\ used s (val s' d' c) = false /\ used s' (val s' d' c) = true;
  gr_inj : forall c1 c2, valid c1 -> valid c2 -> val s d c1 = 0 -> val s d c2 = 0 -> val s' d' c1 = val s' d' c2 -> val s' d' c1 <> 0 -> c1 = c2;
  gr_used : forall c, used s c = true -> used s' c = true;
  gr_direct : length (direct d') = length (direct d) }.

Lemma map_wf_grows s s' x x' : map_wf s x -> grows s s' (din x) (din x') -> ino x' = ino x -> map_wf s' x'.
Proof.
  intros [Md Mi Mu Mj] [Gv Gi Gu Gd] Hino. split.
  - by rewrite Gd.
  - rewrite Hino. by apply Gu.
  - intros c Hc Hne. rewrite Hino. destruct (Gv c Hc) as [E|(E0 & E1 & E2)].
    + rewrite E in Hne |- *. destruct (Mu c Hc Hne). split; [by apply Gu|done].
    + split; [done|]. intros E. rewrite E in E1. congruence.
  - intros c1 c2 H1 H2 He Hne. destruct (Gv c1 H1) as [A|(A0 & A1 & A2)], (Gv c2 H2) as [B|(B0 & B1 & B2)].
    + apply Mj; [done|done|congruence|congruence].
    + exfalso. assert (Hn : val s (din x) c1 <> 0) by congruence. destruct (Mu c1 H1 Hn) as [U _]. rewrite <- A, He in U. congruence.
    + exfalso. assert (Hn : val s (din x) c2 <> 0) by congruence. destruct (Mu c2 H2 Hn) as [U _]. rewrite <- B, <- He in U. congruence.
    + by apply Gi.
Qed.

(** Blocks that hold pointers. *)
Definition is_ptr (c : cell) : Prop := match c with CData _ => False | _ => True end.
Definition owns (s : sfs_fs) (d : sfs_disk_inode) (b : Z) : Prop := exists c, valid c /\ val s d c = b.
Definition meta (s : sfs_fs) (d : sfs_disk_inode) (b : Z) : Prop := exists c, valid c /\ is_ptr c /\ val s d c = b.

(** The fields of an inode that the block map leaves alone. *)
Definition same_inode (x x' : sfs_inode) : Prop :=
  ino x' = ino x /\ removed x' = removed x /\ size_slots (din x') = size_slots (din x) /\ type (din x') = type (din x) /\
  dparent (din x') = dparent (din x) /\ nlinks (din x') = nlinks (din x).

(** The map has grown: the blocks taken are in the map now, and no block in use
    changes except those that hold pointers. *)
Record ext (s s' : sfs_fs) (x x' : sfs_inode) : Prop := {
  ex_wf : sfs_wf s';
  ex_fs : same_fs s s';
  ex_grows : grows s s' (din x) (din x');
  ex_inode : same_inode x x' /\ dblocks (din x') = dblocks (din x);
  ex_keep : forall b, used s b = true -> ~ meta s (din x) b -> blk s' b = blk s b;
  ex_taken : forall b, used s' b = true -> used s b = true \/ owns s' (din x') b }.

Lemma used_neg s b : b < 0 -> used s b = false.
Proof. intros. unfold used. by destruct (Z.ltb_spec 0 b); [lia|]. Qed.

(** The cells depend on the blocks that hold pointers only. *)
Lemma val_keep s s' d c : (forall e, e <> 0 -> meta s d e -> blk s' e = blk s e) -> valid c -> val s' d c = val s d c.
Proof.
  intros B. assert (He : forall c k, valid c -> is_ptr c -> entry s' (val s d c) k = entry s (val s d c) k).
  { intros c' k Hc Hp. unfold entry. destruct (Z.eqb_spec (val s d c') 0); [done|]. rewrite B; [done|done|by exists c']. }
  destruct c as [i| | |k]; intros Hc; [|done|done|by apply (He CDbl)]. cbn in *. unfold bmap. destruct (Z.ltb_spec i SFS_NDIRECT); [done|].
  destruct (Z.ltb_spec i NIND); [by apply (He CInd)|].
  assert (Hk : 0 <= (i - NIND) / SFS_BLK_NENTRY < SFS_BLK_NENTRY).
  { change SFS_BLK_NENTRY with 1024. change MAXB with 1049612 in Hc. change NIND with 1036 in *. Z.to_euclidean_division_equations. lia. }
  rewrite (He CDbl) by done. by apply (He (CMid _)).
Qed.

Lemma steady_val s s' x c : steady s s' -> map_wf s x -> valid c -> val s' (din x) c = val s (din x) c.
Proof.
  intros (W' & F & U & B) Mw. apply val_keep. intros e He (c' & Hc & _ & <-). apply B. by apply (mw_used _ _ Mw).
Qed.

Lemma ext_steady s s' x : steady s s' -> map_wf s x -> ext s s' x x.
Proof.
  intros St Mw. pose proof (fun c => steady_val s s' x c St Mw) as Hv. destruct St as (W' & F & U & B).
  assert (HU : forall b, used s' b = used s b) by (intros b; destruct (Z_lt_le_dec b 0); [by rewrite !used_neg|by apply U]).
  split; [done|done| |done|by auto|].
  - split; [intros c Hc; left; by apply Hv| |intros c; by rewrite HU|done]. intros c1 c2 H1 H2 E1 E2 E Hne. rewrite Hv in Hne by done. done.
  - intros b Hb. left. by rewrite <- HU.
Qed.

Lemma ext_trans s s1 s2 x x1 x2 : ext s s1 x x1 -> ext s1 s2 x1 x2 -> ext s s2 x x2.
Proof.
  intros [W1 [A1 B1] [V1 J1 U1 L1] [I1 D1] K1 T1] [W2 [A2 B2] [V2 J2 U2 L2] [I2 D2] K2 T2].
  split; [done|split; congruence| | | |].
  - split; [| |by auto|congruence].
    + intros c Hc. destruct (V1 c Hc) as [E1|(Z1 & F1 & G1)], (V2 c Hc) as [E2|(Z2 & F2 & G2)].
      * left. congruence.
      * right. split_and!; [congruence| |done]. destruct (used s (val s2 (din x2) c)) eqn:Eu; [|done]. apply U1 in Eu. congruence.
      * right. rewrite E2. split_and!; [done|done|by apply U2].
      * right. split_and!; [done| |done]. destruct (used s (val s2 (din x2) c)) eqn:Eu; [|done]. apply U1 in Eu. congruence.
    + intros c1 c2 H1 H2 Z1 Z2 E Hne.
      destruct (V2 c1 H1) as [P|(P0 & P1 & P2)], (V2 c2 H2) as [Q|(Q0 & Q1 & Q2)].
      * apply J1; [done|done|done|done|congruence|congruence].
      * destruct (V1 c1 H1) as [R|(_ & _ & R)]; [congruence|]. rewrite <- P, E in R. congruence.
      * destruct (V1 c2 H2) as [R|(_ & _ & R)]; [congruence|]. rewrite <- Q, <- E in R. congruence.
      * by apply J2.
  - split; [|congruence]. destruct I1 as (? & ? & ? & ? & ? & ?), I2 as (? & ? & ? & ? & ? & ?). split_and!; congruence.
  - intros b Hb Hm. rewrite K2; [by apply K1|by apply U1|]. intros (c & Hc & Hp & E). destruct (V1 c Hc) as [E1|(_ & F1 & _)]; [|congruence].
    apply Hm. exists c. split_and!; [done|done|congruence].
  - intros b Hb. destruct (T2 b Hb) as [Hb1|Ho]; [|by right]. destruct (T1 b Hb1) as [|(c & Hc & E)]; [by left|right].
    exists c. split; [done|]. destruct (V2 c Hc) as [E2|(Z2 & _)]; [congruence|]. apply used_range in Hb. lia.
Qed.

Lemma used_pos s b : used s b = true -> b <> 0 /\ 0 <= b.
Proof. intros H%used_range. lia. Qed.

Lemma entry_ext s s' e k : blk s' e = blk s e -> entry s' e k = entry s e k.
Proof. intros E. unfold entry. by rewrite E. Qed.

Lemma entry_0 s k : entry s 0 k = 0.
Proof. done. Qed.

Lemma consts : SFS_BLK_NENTRY = 1024 /\ SFS_NDIRECT = 12 /\ NIND = 1036 /\ MAXB = 1049612.
Proof. done. Qed.

Ltac nums := destruct consts as (?EN & ?ED & ?EI & ?EM).

#[export] Instance cell_eq_dec : EqDecision cell.
Proof. solve_decision. Defined.

(** Setting cell [c1] to the new block [b], in the block [ent] of cell [c0]. *)
Section set_cells.
Context (s s' : sfs_fs) (x x' : sfs_inode) (Mw : map_wf s x) (W' : sfs_wf s') (Hfs : same_fs s s').
Context (c0 c1 : cell) (ent b : Z) (Hv0 : valid c0) (Hv1 : valid c1).
Context (Hx : same_inode x x' /\ dblocks (din x') = dblocks (din x)) (Hl : length (direct (din x')) = length (direct (din x))).
Context (Hz : val s (din x) c1 = 0) (Hb : used s b = false /\ used s' b = true).
Context (He : ent = val s (din x) c0 /\ is_ptr c0 \/ val s (din x) c0 = 0 /\ used s ent = false /\ used s' ent = true).
Context (Hne : ent = b <-> c0 = c1).
Context (Hu : forall c, 0 <= c -> used s' c = used s c || (c =? b) || (c =? ent)).
Context (Hk : forall c, used s c = true -> c <> ent -> blk s' c = blk s c).
Context (Hval : forall c, valid c -> val s' (din x') c = if decide (c = c1) then b else if decide (c = c0) then ent else val s (din x) c).

Lemma set_grows : grows s s' (din x) (din x').
Proof.
  split; [| | |done].
  - intros c Hc. rewrite Hval by done. case_decide as E1; [subst c; by right|]. case_decide as E0; [subst c|by left]. destruct He as [[-> _]|?]; [by left|by right].
  - intros a1 a2 H1 H2 Z1 Z2. rewrite !Hval by done. repeat case_decide; intros E Hn; subst; try done.
    + symmetry. by apply Hne.
    + by apply Hne.
  - intros c Hc. pose proof (used_pos _ _ Hc). rewrite Hu by lia. by rewrite Hc.
Qed.

Lemma set_ext : ext s s' x x'.
Proof.
  split; [done|done|apply set_grows|done| |].
  - intros c Hc Hm. apply Hk; [done|]. intros ->. destruct He as [[-> Hp]|(_ & Hf & _)]; [|congruence]. apply Hm. by exists c0.
  - intros c Hc. pose proof (used_pos _ _ Hc) as [_ Hc0]. rewrite Hu in Hc by done. apply orb_true_iff in Hc as [Hc|Hc].
    + apply orb_true_iff in Hc as [Hc|Hc%Z.eqb_eq]; [by left|right]. subst c. exists c1. split; [done|]. rewrite Hval by done. by rewrite decide_True.
    + apply Z.eqb_eq in Hc. subst c. right. exists c0. split; [done|]. rewrite Hval by done.
      case_decide as E; [symmetry; by apply Hne|by rewrite decide_True].
Qed.
End set_cells.

Section new.
Context (s s' : sfs_fs) (x : sfs_inode) (Mw : map_wf s x).
Let d := din x.

Lemma val_used c : valid c -> val s d c = 0 \/ used s (val s d c) = true.
Proof. intros Hc. destruct (decide (val s d c = 0)); [by left|right]. by apply (mw_used _ _ Mw). Qed.

(** An entry of a block other than the one written. *)
Lemma entry_keep ent0 ent index b e k : new_entry s s' ent0 ent index b -> e = 0 \/ used s e = true -> e <> ent -> entry s' e k = entry s e k.
Proof. intros N [->|He] Hne; [done|]. apply entry_ext. by apply (ne_blk _ _ _ _ _ _ N). Qed.

(** The block written is the given one or new, so it is none of the others. *)
Lemma cell_ne ent0 ent index b c c0 : new_entry s s' ent0 ent index b -> valid c -> valid c0 -> val s d c0 = ent0 -> c <> c0 -> val s d c <> 0 -> val s d c <> ent.
Proof.
  intros N Hc Hc0 E0 Hne Hv He. destruct (mw_used _ _ Mw c Hc Hv) as [Hu _]. destruct (ne_ent _ _ _ _ _ _ N) as [->|(_ & _ & Hf & _)].
  - apply Hne. apply (mw_inj _ _ Mw); [done|done|by fold d; rewrite E0|done].
  - fold d in Hu. congruence.
Qed.

Lemma entry_cell ent0 ent index b c c0 k : new_entry s s' ent0 ent index b -> valid c -> valid c0 -> val s d c0 = ent0 -> c <> c0 ->
  entry s' (val s d c) k = entry s (val s d c) k.
Proof.
  intros N Hc Hc0 E0 Hne. destruct (decide (val s d c = 0)) as [->|Hv]; [done|]. eapply entry_keep; [done|right; by apply (mw_used _ _ Mw)|].
  by eapply cell_ne.
Qed.

Lemma new_used ent0 ent index b : new_entry s s' ent0 ent index b -> forall c, used s c = true -> used s' c = true.
Proof. intros N c Hc. rewrite (ne_used _ _ _ _ _ _ N) by (apply used_pos in Hc; lia). by rewrite Hc. Qed.

Lemma new_b ent0 ent index b : new_entry s s' ent0 ent index b -> used s b = false /\ used s' b = true.
Proof.
  intros N. destruct (ne_b _ _ _ _ _ _ N) as [? ?]. split; [done|]. rewrite (ne_used _ _ _ _ _ _ N) by lia. by rewrite Z.eqb_refl, orb_true_r.
Qed.

Lemma new_ent ent0 ent index b : new_entry s s' ent0 ent index b -> ent = ent0 \/ ent0 = 0 /\ used s ent = false /\ used s' ent = true /\ ent <> b.
Proof.
  intros N. destruct (ne_ent _ _ _ _ _ _ N) as [->|(-> & ? & ? & ?)]; [by left|right]. split_and!; [done|done| |done].
  rewrite (ne_used _ _ _ _ _ _ N) by lia. by rewrite Z.eqb_refl, orb_true_r.
Qed.
End new.

(** ** Block [b] added to the file at [index] *)

Record adds (s s' : sfs_fs) (x x' : sfs_inode) (index b : Z) : Prop := {
  ad_ext : ext s s' x x';
  ad_new : used s b = false /\ used s' b = true;
  ad_blank : blk s' b = blank;
  ad_map : forall i, 0 <= i < MAXB -> bmap s' (din x') i = if i =? index then b else bmap s (din x) i }.

Lemma nth_direct_insert d i j b : length (direct d) = Z.to_nat SFS_NDIRECT -> 0 <= i < SFS_NDIRECT -> 0 <= j ->
  nth_direct (din_direct (<[Z.to_nat i := b]> (direct d)) d) j = if j =? i then b else nth_direct d j.
Proof.
  intros Hl Hi Hj. unfold nth_direct. cbn [direct din_direct]. destruct (Z.eqb_spec j i) as [->|Hne].
  - rewrite list_lookup_insert_eq; [done|lia].
  - by rewrite list_lookup_insert_ne by lia.
Qed.

(** The parts of an index of the doubly indirect range. *)
Lemma dbl_parts i : NIND <= i < MAXB -> 0 <= (i - NIND) / SFS_BLK_NENTRY < SFS_BLK_NENTRY /\ 0 <= (i - NIND) mod SFS_BLK_NENTRY < SFS_BLK_NENTRY.
Proof. change SFS_BLK_NENTRY with 1024. change MAXB with 1049612. change NIND with 1036. intros. Z.to_euclidean_division_equations. lia. Qed.

Lemma dbl_join i k j : NIND <= i -> 0 <= k -> 0 <= j < SFS_BLK_NENTRY -> (i - NIND) / SFS_BLK_NENTRY = k -> (i - NIND) mod SFS_BLK_NENTRY = j <-> i = NIND + SFS_BLK_NENTRY * k + j.
Proof. change SFS_BLK_NENTRY with 1024. change NIND with 1036. intros. Z.to_euclidean_division_equations. lia. Qed.

Section cases.
Context (s s' : sfs_fs) (x : sfs_inode) (Mw : map_wf s x).
Let d := din x.

Lemma adds_direct index b : 0 <= index < SFS_NDIRECT -> nth_direct d index = 0 -> 0 < b -> used s b = false ->
  eff s s' (at_ b true (used s)) (at_ b blank (blk s)) ->
  adds s s' x (set_dirty true (set_din (din_direct (<[Z.to_nat index := b]> (direct d)) d) x)) index b.
Proof.
  intros Hi Hz Hb Hf [W' F U B]. set (x' := set_dirty _ _). pose proof (mw_direct _ _ Mw) as Hl.
  assert (Hent : forall e k, e = 0 \/ used s e = true -> entry s' e k = entry s e k).
  { intros e k [->|Hu]; [done|]. unfold entry. pose proof (used_pos _ _ Hu). rewrite B by lia. rewrite at_ne; [done|]. intros ->. congruence. }
  pose proof (val_used s x Mw) as Hu. nums.
  assert (Hmid : forall k, 0 <= k < SFS_BLK_NENTRY -> entry s' (db_indirect d) k = entry s (db_indirect d) k) by (intros; apply Hent; by apply (Hu CDbl)).
  assert (Hmap : forall i, 0 <= i < MAXB -> bmap s' (din x') i = if i =? index then b else bmap s d i).
  { intros i Hr. unfold bmap. destruct (Z.ltb_spec i SFS_NDIRECT).
    - unfold x'. cbn [din set_dirty set_din]. by rewrite nth_direct_insert by (done || lia).
    - destruct (Z.eqb_spec i index); [lia|]. destruct (Z.ltb_spec i NIND); [apply Hent; by apply (Hu CInd)|].
      change (db_indirect (din x')) with (db_indirect d). destruct (dbl_parts i ltac:(lia)). rewrite Hmid by done. apply Hent. by apply (Hu (CMid _)). }
  assert (Hb' : used s' b = true) by (rewrite U by lia; by rewrite at_eq).
  split; [|done|rewrite B by lia; by rewrite at_eq|done].
  apply (set_ext s s' x x' W' F (CData index) (CData index) b b); [cbn; lia|cbn; lia|done|apply length_insert| |done| |done| | |].
  - cbn. unfold bmap. by destruct (Z.ltb_spec index SFS_NDIRECT); [|lia].
  - right. split_and!; [|done|done]. cbn. unfold bmap. by destruct (Z.ltb_spec index SFS_NDIRECT); [|lia].
  - intros c Hc. rewrite U by done. unfold at_. destruct (Z.eqb_spec c b); [by rewrite orb_true_r|by rewrite !orb_false_r].
  - intros c Hc Hne. pose proof (used_pos _ _ Hc). rewrite B by lia. by rewrite at_ne.
  - intros [i| | |k] Hc; cbn -[bmap].
    + rewrite Hmap by done. destruct (Z.eqb_spec i index) as [->|Hn]; [by rewrite decide_True|]. by rewrite !decide_False by congruence.
    + done.
    + done.
    + by apply Hmid.
Qed.

(** [ent] and [b] as the hypotheses of [set_ext] want them. *)
Lemma new_hyps ent0 ent index b c0 : new_entry s s' ent0 ent index b -> val s d c0 = ent0 -> is_ptr c0 ->
  (used s b = false /\ used s' b = true) /\
  (ent = val s d c0 /\ is_ptr c0 \/ val s d c0 = 0 /\ used s ent = false /\ used s' ent = true) /\
  (ent0 = 0 \/ used s ent0 = true -> ent <> b).
Proof.
  intros N E Hp. split_and!; [eapply new_b; done|eapply new_b; done| |].
  - destruct (new_ent s s' ent0 ent index b N) as [->|(-> & ? & ? & ?)]; [by left|by right].
  - intros Hu ->. destruct (new_ent s s' ent0 b index b N) as [->|(_ & _ & _ & ?)]; [|done].
    destruct (new_b s s' ent0 ent0 index ent0 N). destruct (ne_b _ _ _ _ _ _ N) as [? _]. destruct Hu; [lia|congruence].
Qed.

(** A new block in the indirect block. *)
Section indirect.
Context (ent k b : Z) (N : new_entry s s' (indirect d) ent k b) (Hk : 0 <= k < SFS_BLK_NENTRY) (Hz : entry s (indirect d) k = 0).
Context (x' : sfs_inode) (Hx : same_inode x x' /\ dblocks (din x') = dblocks d).
Context (Hd : direct (din x') = direct d) (Hi : indirect (din x') = ent) (Hdb : db_indirect (din x') = db_indirect d).

Lemma indirect_mid j : 0 <= j < SFS_BLK_NENTRY -> entry s' (db_indirect (din x')) j = entry s (db_indirect d) j.
Proof. intros Hj. rewrite Hdb. by apply (entry_cell s s' x Mw (indirect d) ent k b CDbl CInd). Qed.

Lemma indirect_map i : 0 <= i < MAXB -> bmap s' (din x') i = if i =? SFS_NDIRECT + k then b else bmap s d i.
Proof.
  intros Hr. unfold bmap. destruct (Z.ltb_spec i SFS_NDIRECT).
  - destruct (Z.eqb_spec i (SFS_NDIRECT + k)); [lia|]. unfold nth_direct. by rewrite Hd.
  - destruct (Z.ltb_spec i NIND).
    + rewrite Hi. nums. rewrite (ne_entry _ _ _ _ _ _ N) by lia. destruct (Z.eqb_spec (i - SFS_NDIRECT) k), (Z.eqb_spec i (SFS_NDIRECT + k)); done || lia.
    + nums. destruct (Z.eqb_spec i (SFS_NDIRECT + k)); [lia|]. destruct (dbl_parts i ltac:(lia)). rewrite indirect_mid by done.
      by apply (entry_cell s s' x Mw (indirect d) ent k b (CMid _) CInd).
Qed.

Lemma adds_indirect : adds s s' x x' (SFS_NDIRECT + k) b.
Proof.
  destruct (new_hyps _ _ _ _ CInd N eq_refl I) as (Hb & He & Hne). nums.
  split; [|done|apply N|apply indirect_map].
  apply (set_ext s s' x x' (ne_wf _ _ _ _ _ _ N) (ne_fs _ _ _ _ _ _ N) CInd (CData (SFS_NDIRECT + k)) ent b); [done|cbn; lia|done|by rewrite Hd| |done|done| |apply N|apply N|].
  - cbn. unfold bmap. destruct (Z.ltb_spec (SFS_NDIRECT + k) SFS_NDIRECT), (Z.ltb_spec (SFS_NDIRECT + k) NIND); try lia.
    by replace (SFS_NDIRECT + k - SFS_NDIRECT) with k by lia.
  - split; [|done]. intros E. exfalso. revert E. apply Hne. by apply (val_used s x Mw CInd).
  - intros [i| | |j] Hc; cbn -[bmap].
    + rewrite indirect_map by done. rewrite (decide_False (P := CData i = CInd)) by done.
      destruct (Z.eqb_spec i (SFS_NDIRECT + k)) as [->|]; [by rewrite decide_True|by rewrite decide_False by congruence].
    + done.
    + done.
    + by apply indirect_mid.
Qed.
End indirect.

(** A new middle block in the doubly indirect block. *)
Section middle.
Context (ent k b : Z) (N : new_entry s s' (db_indirect d) ent k b) (Hk : 0 <= k < SFS_BLK_NENTRY) (Hz : entry s (db_indirect d) k = 0).
Context (x' : sfs_inode) (Hx : same_inode x x' /\ dblocks (din x') = dblocks d).
Context (Hd : direct (din x') = direct d) (Hi : indirect (din x') = indirect d) (Hdb : db_indirect (din x') = ent).

Lemma middle_mid j : 0 <= j < SFS_BLK_NENTRY -> entry s' (db_indirect (din x')) j = if j =? k then b else entry s (db_indirect d) j.
Proof. intros Hj. rewrite Hdb. by apply N. Qed.

Lemma middle_new j : 0 <= j < SFS_BLK_NENTRY -> entry s' b j = 0.
Proof. intros Hj. unfold entry. rewrite (ne_blank _ _ _ _ _ _ N). destruct (b =? 0); [done|by apply wd_blank]. Qed.

Lemma middle_map i : 0 <= i < MAXB -> bmap s' (din x') i = bmap s d i.
Proof.
  intros Hr. unfold bmap. destruct (Z.ltb_spec i SFS_NDIRECT); [unfold nth_direct; by rewrite Hd|]. destruct (Z.ltb_spec i NIND).
  - rewrite Hi. by apply (entry_cell s s' x Mw (db_indirect d) ent k b CInd CDbl).
  - destruct (dbl_parts i ltac:(lia)). rewrite middle_mid by done. destruct (Z.eqb_spec ((i - NIND) / SFS_BLK_NENTRY) k) as [->|Hne].
    + rewrite Hz. by rewrite middle_new.
    + by apply (entry_cell s s' x Mw (db_indirect d) ent k b (CMid _) CDbl).
Qed.

Lemma ext_middle : ext s s' x x'.
Proof.
  destruct (new_hyps _ _ _ _ CDbl N eq_refl I) as (Hb & He & Hne).
  apply (set_ext s s' x x' (ne_wf _ _ _ _ _ _ N) (ne_fs _ _ _ _ _ _ N) CDbl (CMid k) ent b); [done|done|done|by rewrite Hd|done|done|done| |apply N|apply N|].
  - split; [|done]. intros E. exfalso. revert E. apply Hne. by apply (val_used s x Mw CDbl).
  - intros [i| | |j] Hc; cbn -[bmap].
    + by apply middle_map.
    + done.
    + done.
    + rewrite middle_mid by done. rewrite (decide_False (P := CMid j = CDbl)) by done.
      destruct (Z.eqb_spec j k) as [->|]; [by rewrite decide_True|by rewrite decide_False by congruence].
Qed.
End middle.

(** A new block in a middle block. *)
Section leaf.
Context (k j b : Z) (Hk : 0 <= k < SFS_BLK_NENTRY) (Hj : 0 <= j < SFS_BLK_NENTRY).
Let e := entry s (db_indirect d) k.
Context (He : e <> 0) (N : new_entry s s' e e j b) (Hz : entry s e j = 0).

Lemma leaf_mid l : 0 <= l < SFS_BLK_NENTRY -> entry s' (db_indirect d) l = entry s (db_indirect d) l.
Proof. intros Hl. by apply (entry_cell s s' x Mw e e j b CDbl (CMid k)). Qed.

Lemma leaf_map i : 0 <= i < MAXB -> bmap s' d i = if i =? NIND + SFS_BLK_NENTRY * k + j then b else bmap s d i.
Proof.
  intros Hr. unfold bmap. nums. destruct (Z.ltb_spec i SFS_NDIRECT); [destruct (Z.eqb_spec i (NIND + SFS_BLK_NENTRY * k + j)); [lia|done]|].
  destruct (Z.ltb_spec i NIND).
  - destruct (Z.eqb_spec i (NIND + SFS_BLK_NENTRY * k + j)); [lia|]. by apply (entry_cell s s' x Mw e e j b CInd (CMid k)).
  - destruct (dbl_parts i ltac:(lia)) as [Ha Hb]. rewrite leaf_mid by done. destruct (decide ((i - NIND) / SFS_BLK_NENTRY = k)) as [E|E].
    + pose proof (dbl_join i k j ltac:(lia) ltac:(lia) Hj E) as Hjn. rewrite E. fold e. rewrite (ne_entry _ _ _ _ _ _ N) by done.
      destruct (Z.eqb_spec ((i - NIND) mod SFS_BLK_NENTRY) j), (Z.eqb_spec i (NIND + SFS_BLK_NENTRY * k + j)); tauto || done.
    + destruct (Z.eqb_spec i (NIND + SFS_BLK_NENTRY * k + j)) as [Ei|].
      * exfalso. apply E. clear Hr Ha Hb E. rewrite EN, EI in *. subst i. Z.to_euclidean_division_equations. lia.
      * apply (entry_cell s s' x Mw e e j b (CMid _) (CMid k)); [done|done|done|done|congruence].
Qed.

Lemma adds_leaf : adds s s' x x (NIND + SFS_BLK_NENTRY * k + j) b.
Proof.
  destruct (new_hyps _ _ _ _ (CMid k) N eq_refl I) as (Hb & Hent & Hne). nums. set (i0 := NIND + SFS_BLK_NENTRY * k + j).
  assert (Hi0 : 0 <= i0 < MAXB) by (unfold i0; rewrite EN, EI, EM in *; lia).
  split; [|done|apply N|apply leaf_map].
  apply (set_ext s s' x x (ne_wf _ _ _ _ _ _ N) (ne_fs _ _ _ _ _ _ N) (CMid k) (CData i0) e b); [done|done|done|done| |done|done| |apply N|apply N|].
  - pose proof (leaf_map i0 Hi0) as Hm. cbn. unfold bmap.
    assert (Hge : NIND <= i0) by (unfold i0; rewrite EN, EI in *; lia). destruct (Z.ltb_spec i0 SFS_NDIRECT), (Z.ltb_spec i0 NIND); try lia.
    assert (E1 : (i0 - NIND) / SFS_BLK_NENTRY = k) by (unfold i0; clear -Hj EN; rewrite EN in *; Z.to_euclidean_division_equations; lia).
    rewrite E1. fold d e. by rewrite (proj2 (dbl_join i0 k j Hge ltac:(lia) Hj E1) eq_refl).
  - split; [|done]. intros E. exfalso. revert E. apply Hne. by apply (val_used s x Mw (CMid k)).
  - intros [i| | |l] Hc; cbn -[bmap].
    + rewrite leaf_map by done. rewrite (decide_False (P := CData i = CMid k)) by done. fold i0.
      destruct (Z.eqb_spec i i0) as [->|]; [by rewrite decide_True|by rewrite decide_False by congruence].
    + done.
    + done.
    + rewrite leaf_mid by done. rewrite (decide_False (P := CMid l = CData i0)) by done. case_decide as E; [injection E as ->|]; done.
Qed.
End leaf.
End cases.

Lemma eff_steady s s' : eff s s' (used s) (blk s) -> steady s s'.
Proof. intros [W F U B]. split_and!; [done|done|done|]. intros c Hc. apply B. apply used_pos in Hc. lia. Qed.

Lemma ext_wf s s' x x' : ext s s' x x' -> map_wf s x -> map_wf s' x'.
Proof. intros E Mw. eapply map_wf_grows; [done|apply E|apply E]. Qed.

Lemma ext_io s s' x x' : ext s s' x x' -> io_free s -> io_free s'.
Proof. intros [_ [E _] _ _ _ _] H. unfold io_free. by rewrite E. Qed.

(** The data blocks are those of [s]. *)
Definition same_map (s s' : sfs_fs) (x x' : sfs_inode) : Prop := forall i, 0 <= i < MAXB -> bmap s' (din x') i = bmap s (din x) i.

Lemma adds_trans s s1 s2 x x1 x2 i b : ext s s1 x x1 -> same_map s s1 x x1 -> adds s1 s2 x1 x2 i b -> adds s s2 x x2 i b.
Proof.
  intros E Hm [E2 [Hf Hu] Hb Hmap]. split; [by eapply ext_trans| |done|].
  - split; [|done]. destruct (used s b) eqn:Eu; [|done]. apply (gr_used _ _ _ _ (ex_grows _ _ _ _ E)) in Eu. congruence.
  - intros k Hk. rewrite Hmap by done. destruct (k =? i); [done|by apply Hm].
Qed.

(** ** [sfs_bmap_get_nolock] *)

Lemma get_out_spec s b x : sfs_wf s -> b = 0 \/ used s b = true -> get_out b x s = Ok ((0, b, x), s).
Proof.
  intros W Hb. unfold get_out. destruct (Z.eqb_spec b 0) as [->|Hne]; [done|]. destruct Hb as [|Hu]; [done|].
  mstep (inuse_spec s b W (used_range _ _ Hu)). rewrite Hu. massert; done.
Qed.

Section get.
Context (s : sfs_fs) (W : sfs_wf s) (Hio : io_free s) (x : sfs_inode) (Mw : map_wf s x).
Let d := din x.

Lemma steady_same_map s' : steady s s' -> same_map s s' x x.
Proof. intros St i Hi. by apply (steady_val s s' x (CData i)). Qed.

(** What [sfs_bmap_get_nolock] leaves when it adds a block, and when it cannot. *)
Definition got (index : Z) (o : outcome (Z * Z * sfs_inode * sfs_fs)) : Prop :=
  (exists b s' x', o = Ok ((0, b, x'), s') /\ adds s s' x x' index b) \/
  (exists s' x', o = Ok ((- E_NO_MEM, 0, x'), s') /\ ext s s' x x' /\ same_map s s' x x' /\ nearly_full s').

Lemma get_direct index : 0 <= index < SFS_NDIRECT -> bmap s d index = 0 -> got index (sfs_bmap_get_nolock x index true s).
Proof.
  intros Hi Hz. unfold sfs_bmap_get_nolock, bmap in *. destruct (Z.ltb_spec index SFS_NDIRECT); [|lia]. fold d. rewrite Hz. cbn [Z.eqb andb].
  destruct (block_alloc_spec s W Hio) as [(b & s' & E & Hb & Hf & Heff)|[E Hfull]].
  - left. mstep E. cbv beta iota. change (negb (0 =? 0)) with false. cbv beta iota zeta. cbn [default from_option id].
    pose proof (adds_direct s s' x Mw index b Hi Hz ltac:(lia) Hf Heff) as Ha. exists b, s'. eexists. split; [|exact Ha].
    apply get_out_spec; [apply Heff|right; apply (proj2 (ad_new _ _ _ _ _ _ Ha))].
  - right. mstep E. cbv beta iota. change (negb (- E_NO_MEM =? 0)) with true. cbv beta iota. exists s, x.
    split_and!; [done|apply ext_steady; [by apply steady_refl|done]|done|exists 0; by auto].
Qed.

Lemma get_indirect k : 0 <= k < SFS_BLK_NENTRY -> bmap s d (SFS_NDIRECT + k) = 0 -> got (SFS_NDIRECT + k) (sfs_bmap_get_nolock x (SFS_NDIRECT + k) true s).
Proof.
  intros Hk Hz. unfold bmap in Hz. unfold sfs_bmap_get_nolock. nums. destruct (Z.ltb_spec (SFS_NDIRECT + k) SFS_NDIRECT); [lia|].
  destruct (Z.ltb_spec (SFS_NDIRECT + k) NIND); [|lia]. cbv zeta. replace (SFS_NDIRECT + k - SFS_NDIRECT) with k in * by lia.
  destruct (Z.ltb_spec k SFS_BLK_NENTRY); [|lia]. fold d.
  destruct (get_sub_create s (indirect d) k W Hio Hk (val_used s x Mw CInd I) Hz) as [(s' & E & St & Hfull)|(ent & b & s' & E & N)].
  - right. mstep E. cbv beta iota. change (negb (- E_NO_MEM =? 0)) with true. cbv beta iota. exists s', x.
    split_and!; [done|by apply ext_steady|by apply steady_same_map|done].
  - left. mstep E. cbv beta iota. change (negb (0 =? 0)) with false. cbv beta iota.
    assert (Hu : used s' b = true) by (by eapply new_b). pose proof (ne_wf _ _ _ _ _ _ N) as W'.
    destruct (Z.eqb_spec ent (indirect d)) as [Ee|Hne]; cbn [negb].
    + exists b, s', x. split; [apply get_out_spec; by auto|]. by apply (adds_indirect s s' x Mw ent k b).
    + destruct (new_ent s s' _ _ _ _ N) as [|(E0 & _)]; [done|]. rewrite E0. massert; [|done].
      eexists b, s', _. split; [apply get_out_spec; by auto|]. by apply (adds_indirect s s' x Mw ent k b).
Qed.

(** The second step through the doubly indirect block. *)
Definition get_leaf (b j : Z) (create : bool) : M sfs_fs (Z * Z * sfs_inode) :=
  '(ret, _, b) ← sfs_bmap_get_sub_nolock b j create;
  if negb (ret =? 0) then mret (ret, 0, x) else get_out b x.

Lemma get_leaf_create k j : 0 <= k < SFS_BLK_NENTRY -> 0 <= j < SFS_BLK_NENTRY -> entry s (db_indirect d) k <> 0 ->
  entry s (entry s (db_indirect d) k) j = 0 -> got (NIND + SFS_BLK_NENTRY * k + j) (get_leaf (entry s (db_indirect d) k) j true s).
Proof.
  intros Hk Hj He Hz. unfold get_leaf. set (e := entry s (db_indirect d) k) in *.
  destruct (get_sub_create s e j W Hio Hj (val_used s x Mw (CMid k) Hk) Hz) as [(s' & E & St & Hfull)|(ent & b & s' & E & N)].
  - right. mstep E. cbv beta iota. change (negb (- E_NO_MEM =? 0)) with true. cbv beta iota. exists s', x.
    split_and!; [done|by apply ext_steady|by apply steady_same_map|done].
  - left. mstep E. cbv beta iota. change (negb (0 =? 0)) with false. cbv beta iota.
    destruct (new_ent s s' _ _ _ _ N) as [->|(E0 & _)]; [|done].
    pose proof (adds_leaf s s' x Mw k j b Hk Hj He N Hz) as Ha. exists b, s', x. split; [|done].
    apply get_out_spec; [apply N|right; apply (proj2 (ad_new _ _ _ _ _ _ Ha))].
Qed.
End get.

Lemma got_trans s s1 x x1 index o : ext s s1 x x1 -> same_map s s1 x x1 -> got s1 x1 index o -> got s x index o.
Proof.
  intros E Hm [(b & s' & x' & -> & Ha)|(s' & x' & -> & E' & Hm' & Hfull)].
  - left. exists b, s', x'. split; [done|by eapply adds_trans].
  - right. exists s', x'. split_and!; [done|by eapply ext_trans| |done]. intros i Hi. rewrite Hm' by done. by apply Hm.
Qed.

(** The path through the doubly indirect block. *)
Definition get_path (x : sfs_inode) (k j : Z) (create : bool) : M sfs_fs (Z * Z * sfs_inode) :=
  '(ret, ent, b) ← sfs_bmap_get_sub_nolock (db_indirect (din x)) k create;
  if negb (ret =? 0) then mret (ret, 0, x)
  else
    x ← (if negb (ent =? db_indirect (din x)) then
           _ ← kassert (db_indirect (din x) =? 0);
           mret (set_dirty true (set_din (din_db ent (din x)) x))
         else mret x);
    if negb (b =? 0) then get_leaf x b j create else get_out b x.

Lemma get_path_eq x i create : NIND <= i ->
  sfs_bmap_get_nolock x i create = get_path x ((i - NIND) / SFS_BLK_NENTRY) ((i - NIND) mod SFS_BLK_NENTRY) create.
Proof.
  intros Hi. unfold sfs_bmap_get_nolock, NIND in *. destruct (Z.ltb_spec i SFS_NDIRECT) as [|_]; [change SFS_NDIRECT with 12 in *; change SFS_BLK_NENTRY with 1024 in *; lia|]. cbv zeta.
  destruct (Z.ltb_spec (i - SFS_NDIRECT) SFS_BLK_NENTRY) as [|_]; [lia|].
  by replace (i - SFS_NDIRECT - SFS_BLK_NENTRY) with (i - (SFS_NDIRECT + SFS_BLK_NENTRY)) by lia.
Qed.

Section get_all.
Context (s : sfs_fs) (W : sfs_wf s) (Hio : io_free s) (x : sfs_inode) (Mw : map_wf s x).
Let d := din x.
Context (k j : Z) (Hk : 0 <= k < SFS_BLK_NENTRY) (Hj : 0 <= j < SFS_BLK_NENTRY).

(** With a new middle block. *)
Lemma get_path_new : entry s (db_indirect d) k = 0 -> got s x (NIND + SFS_BLK_NENTRY * k + j) (get_path x k j true s).
Proof.
  intros E0. unfold get_path. fold d.
  destruct (get_sub_create s (db_indirect d) k W Hio Hk (val_used s x Mw CDbl I) E0) as [(s' & E & St & Hfull)|(ent & b & s1 & E & N)].
  - right. mstep E. cbv beta iota. change (negb (- E_NO_MEM =? 0)) with true. cbv beta iota. exists s', x.
    split_and!; [done|by apply ext_steady|by apply steady_same_map|done].
  - mstep E. cbv beta iota. change (negb (0 =? 0)) with false. cbv beta iota.
    assert (Hxx : exists x1, (if negb (ent =? db_indirect d) then _ ← kassert (db_indirect d =? 0); mret (set_dirty true (set_din (din_db ent d) x)) else mret x) s1 = Ok (x1, s1) /\
      (same_inode x x1 /\ dblocks (din x1) = dblocks d) /\ direct (din x1) = direct d /\ indirect (din x1) = indirect d /\ db_indirect (din x1) = ent).
    { destruct (Z.eqb_spec ent (db_indirect d)) as [->|Hne]; cbn [negb]; [by exists x|].
      destruct (new_ent s s1 _ _ _ _ N) as [|(-> & _)]; [done|]. eexists. split; [by rewrite bind_kassert|]. done. }
    destruct Hxx as (x1 & Ex & Hx & Hd & Hin & Hdb). mstep Ex. destruct (ne_b _ _ _ _ _ _ N) as [Hb _].
    destruct (Z.eqb_spec b 0); [lia|]. cbn [negb].
    pose proof (ext_middle s s1 x Mw ent k b N Hk E0 x1 Hx Hd Hin Hdb) as Hext.
    apply (got_trans s s1 x x1); [done|intros i Hi; by apply (middle_map s s1 x Mw ent k b N E0 x1)|].
    pose proof (get_leaf_create s1 (ex_wf _ _ _ _ Hext) (ext_io _ _ _ _ Hext Hio) x1 (ext_wf _ _ _ _ Hext Mw) k j Hk Hj) as Hleaf.
    rewrite (middle_mid s s1 x ent k b N x1 Hdb) in Hleaf by done. rewrite Z.eqb_refl in Hleaf. apply Hleaf; [lia|by eapply middle_new].
Qed.

(** With a middle block that is there: the state afterwards and what is left to do. *)
Lemma get_path_present create : create = false \/ entry s (db_indirect d) k <> 0 ->
  exists s1, steady s s1 /\ (forall e l, e = 0 \/ used s e = true -> entry s1 e l = entry s e l) /\
    get_path x k j create s = (let e := entry s (db_indirect d) k in if negb (e =? 0) then get_leaf x e j create else get_out e x) s1.
Proof.
  intros Hc. destruct (get_sub_present s (db_indirect d) k W Hio Hk (val_used s x Mw CDbl I) create Hc) as (s1 & E & Heff).
  exists s1. split_and!; [by apply eff_steady| |].
  - intros e l [->|Hu]; [done|]. unfold entry. rewrite (eff_blk _ _ _ _ Heff); [done|]. apply used_pos in Hu. lia.
  - unfold get_path. fold d. mstep E. cbv beta iota. change (negb (0 =? 0)) with false. cbv beta iota. rewrite Z.eqb_refl. cbn [negb].
    by rewrite (bind_step _ _ s1 x s1).
Qed.

Lemma get_path_create : entry s (entry s (db_indirect d) k) j = 0 -> got s x (NIND + SFS_BLK_NENTRY * k + j) (get_path x k j true s).
Proof.
  intros Hz. destruct (decide (entry s (db_indirect d) k = 0)) as [E0|Hmid]; [by apply get_path_new|].
  destruct (get_path_present true (or_intror Hmid)) as (s1 & St & Hent & ->). cbv zeta.
  destruct (Z.eqb_spec (entry s (db_indirect d) k) 0); [done|]. cbn [negb]. pose proof (ext_steady s s1 x St Mw) as Hext.
  apply (got_trans s s1 x x); [done|by apply steady_same_map|].
  pose proof (get_leaf_create s1 (ex_wf _ _ _ _ Hext) (ext_io _ _ _ _ Hext Hio) x (ext_wf _ _ _ _ Hext Mw) k j Hk Hj) as Hleaf.
  fold d in Hleaf. rewrite (Hent (db_indirect d)) in Hleaf by (by apply (val_used s x Mw CDbl)).
  rewrite (Hent (entry s (db_indirect d) k)) in Hleaf by (by apply (val_used s x Mw (CMid k))). by apply Hleaf.
Qed.
End get_all.

Section get_spec.
Context (s : sfs_fs) (W : sfs_wf s) (Hio : io_free s) (x : sfs_inode) (Mw : map_wf s x).
Context (i : Z) (Hi : 0 <= i < MAXB).

Lemma dbl_whole : NIND <= i -> NIND + SFS_BLK_NENTRY * ((i - NIND) / SFS_BLK_NENTRY) + (i - NIND) mod SFS_BLK_NENTRY = i.
Proof. intros. pose proof (Z.div_mod (i - NIND) SFS_BLK_NENTRY ltac:(done)). lia. Qed.

Lemma get_create_spec : bmap s (din x) i = 0 -> got s x i (sfs_bmap_get_nolock x i true s).
Proof.
  intros Hz. destruct (Z_lt_le_dec i SFS_NDIRECT); [apply get_direct; done || lia|]. destruct (Z_lt_le_dec i NIND).
  - replace i with (SFS_NDIRECT + (i - SFS_NDIRECT)) in * by lia. apply get_indirect; [done|done|done|unfold NIND in *; lia|done].
  - rewrite get_path_eq by done. rewrite <- (dbl_whole l0) at 1. destruct (dbl_parts i ltac:(lia)). apply get_path_create; [done..|].
    unfold bmap in Hz. by destruct (Z.ltb_spec i SFS_NDIRECT), (Z.ltb_spec i NIND); try lia.
Qed.

Lemma steady_trans s1 s2 s3 : steady s1 s2 -> steady s2 s3 -> steady s1 s3.
Proof.
  intros (_ & [A1 B1] & U1 & K1) (W2 & [A2 B2] & U2 & K2). split_and!; [done|split; congruence| |].
  - intros c Hc. by rewrite U2, U1.
  - intros c Hc. rewrite K2; [by apply K1|]. rewrite U1; [done|]. apply used_pos in Hc. lia.
Qed.

Lemma get_path_out k j create : 0 <= k < SFS_BLK_NENTRY -> 0 <= j < SFS_BLK_NENTRY ->
  let e := entry s (db_indirect (din x)) k in
  (entry s e j = 0 \/ used s (entry s e j) = true) -> create = false \/ entry s e j <> 0 ->
  exists s', get_path x k j create s = Ok ((0, entry s e j, x), s') /\ steady s s'.
Proof.
  intros Hk Hj e Hu Hc. assert (Hce : create = false \/ e <> 0) by (destruct Hc as [|Hc]; [by left|right]; intros E; by rewrite E in Hc).
  destruct (get_path_present s W Hio x Mw k j Hk create Hce) as (s1 & St & Hent & ->). cbv zeta. fold e. pose proof St as (W1 & [Eh Eb] & U1 & K1).
  destruct (Z.eqb_spec e 0) as [E0|Hne]; cbn [negb].
  - rewrite E0. exists s1. split; [|done]. apply get_out_spec; [done|by left].
  - assert (Hio1 : io_free s1) by (unfold io_free; by rewrite Eh).
    assert (He : e = 0 \/ used s e = true) by (by apply (val_used s x Mw (CMid k))).
    assert (He1 : e = 0 \/ used s1 e = true) by (destruct He as [|He]; [by left|right]; rewrite U1; [done|apply used_pos in He; lia]).
    rewrite <- (Hent e j He) in Hc, Hu |- *.
    destruct (get_sub_present s1 e j W1 Hio1 Hj He1 create Hc) as (s2 & E & Heff). unfold get_leaf. mstep E. cbv beta iota.
    change (negb (0 =? 0)) with false. cbv beta iota. exists s2. split; [|eapply steady_trans; [done|by apply eff_steady]].
    apply get_out_spec; [apply Heff|]. destruct Hu as [|Hu]; [by left|right]. apply used_pos in Hu as Hp.
    rewrite (eff_used _ _ _ _ Heff) by lia. rewrite U1 by lia. done.
Qed.

(** Nothing is added when the block is there, or when none is asked for. *)
Lemma get_present_spec create : create = false \/ bmap s (din x) i <> 0 ->
  exists s', sfs_bmap_get_nolock x i create s = Ok ((0, bmap s (din x) i, x), s') /\ steady s s'.
Proof.
  intros Hc. assert (Hu : bmap s (din x) i = 0 \/ used s (bmap s (din x) i) = true) by (by apply (val_used s x Mw (CData i))).
  unfold bmap in *. destruct (Z.ltb_spec i SFS_NDIRECT) as [Hd|Hd].
  - unfold sfs_bmap_get_nolock. destruct (Z.ltb_spec i SFS_NDIRECT); [|lia]. cbv zeta. exists s. split; [|by apply steady_refl].
    assert (E : (nth_direct (din x) i =? 0) && create = false) by (destruct Hc as [->|Hc]; [apply andb_false_r|by destruct (Z.eqb_spec (nth_direct (din x) i) 0)]).
    rewrite E. by apply get_out_spec.
  - destruct (Z.ltb_spec i NIND) as [Hn|Hn].
    + unfold sfs_bmap_get_nolock. destruct (Z.ltb_spec i SFS_NDIRECT); [lia|]. cbv zeta. destruct (Z.ltb_spec (i - SFS_NDIRECT) SFS_BLK_NENTRY); [|unfold NIND in *; lia].
      destruct (get_sub_present s (indirect (din x)) (i - SFS_NDIRECT) W Hio ltac:(lia) (val_used s x Mw CInd I) create Hc) as (s1 & E & Heff).
      mstep E. cbv beta iota. change (negb (0 =? 0)) with false. cbv beta iota. rewrite Z.eqb_refl. cbn [negb].
      exists s1. split; [|by apply eff_steady]. apply get_out_spec; [apply Heff|]. destruct Hu as [|Hu]; [by left|right].
      rewrite (eff_used _ _ _ _ Heff); [done|]. apply used_pos in Hu. lia.
    + rewrite get_path_eq by done. destruct (dbl_parts i ltac:(lia)) as [Hk Hj]. set (k := (i - NIND) / SFS_BLK_NENTRY) in *. set (j := (i - NIND) mod SFS_BLK_NENTRY) in *.
      by apply get_path_out.
Qed.
End get_spec.
