(* ===== verification/SfsFree.v ===== *)
(** * SfsFree: giving blocks of a file back

    [sfs_bmap_free_nolock] takes one block out of the map of an inode and clears
    its bit; every other cell and every other block stays as it was. *)

From stdpp Require Import numbers list.
From S2P Require Import Prelude Bitmap Disk Sfs SfsProof SfsMap.
Local Open Scope Z_scope.

(** Block [index] of the file is gone, and only it. *)
Record drops (s s' : sfs_fs) (x x' : sfs_inode) (index : Z) : Prop := {
  dr_wf : sfs_wf s';
  dr_fs : same_fs s s';
  dr_map : map_wf s' x';
  dr_inode : same_inode x x' /\ dblocks (din x') = dblocks (din x);
  dr_used : forall b, 0 <= b -> used s' b = at_ (bmap s (din x) index) false (used s) b;
  dr_keep : forall b, used s b = true -> ~ meta s (din x) b -> blk s' b = blk s b;
  dr_val : forall c, valid c -> val s' (din x') c = if decide (c = CData index) then 0 else val s (din x) c }.

Section clear_cell.
Context (s s' : sfs_fs) (x x' : sfs_inode) (Mw : map_wf s x) (index : Z) (Hi : 0 <= index < MAXB).
Let b := bmap s (din x) index.
Context (Hu : forall c, 0 <= c -> used s' c = at_ b false (used s) c).
Context (Hval : forall c, valid c -> val s' (din x') c = if decide (c = CData index) then 0 else val s (din x) c).
Context (Hino : ino x' = ino x) (Hl : length (direct (din x')) = length (direct (din x))).

Lemma clear_map_wf : map_wf s' x'.
Proof.
  destruct Mw as [Md Mi Mu Mj]. assert (Hkeep : forall c, used s c = true -> c <> b -> used s' c = true).
  { intros c Hc Hne. apply used_pos in Hc as Hp. rewrite Hu by lia. by rewrite at_ne. }
  assert (Hb : forall c, b = c -> used s c = true -> b <> 0) by (intros c -> Hc; apply used_pos in Hc; lia).
  split.
  - by rewrite Hl.
  - rewrite Hino. apply Hkeep; [done|]. intros E. apply (Mu (CData index) Hi); [|done]. by apply (Hb (ino x)).
  - intros c Hc. rewrite Hval by done. case_decide as E; [done|]. intros Hne. rewrite Hino. destruct (Mu c Hc Hne) as [U1 U2]. split; [|done].
    apply Hkeep; [done|]. intros Eb. apply E. by apply Mj.
  - intros c1 c2 H1 H2. rewrite !Hval by done. repeat case_decide; intros; subst; try done. by apply Mj.
Qed.
End clear_cell.

(** Entry [k] of the block [ent] cleared, and the block [b] it named given back. *)
Record cleared (s s' : sfs_fs) (ent k b : Z) : Prop := {
  cl_wf : sfs_wf s';
  cl_fs : same_fs s s';
  cl_used : forall c, 0 <= c -> used s' c = at_ b false (used s) c;
  cl_blk : forall c, used s c = true -> c <> ent -> blk s' c = blk s c;
  cl_entry : forall l, 0 <= l < SFS_BLK_NENTRY -> entry s' ent l = if l =? k then 0 else entry s ent l }.

Lemma used_0 s : used s 0 = false.
Proof. done. Qed.

Lemma free_sub_spec s ent k : sfs_wf s -> io_free s -> used s ent = true -> 0 <= k < SFS_BLK_NENTRY ->
  entry s ent k = 0 \/ used s (entry s ent k) = true ->
  exists s', sfs_bmap_free_sub_nolock ent k s = Ok (0, s') /\ cleared s s' ent k (entry s ent k).
Proof.
  intros W Hio He Hk Hb. pose proof (used_range _ _ He) as Her. unfold sfs_bmap_free_sub_nolock.
  rewrite (bind_step _ _ _ _ _ (inuse_spec s ent W Her)). rewrite He. rewrite bind_kassert by (apply Z.ltb_lt; lia).
  assert (Hkk : 0 <= k * 4 < BLKSIZE /\ k * 4 + 4 <= BLKSIZE) by (change SFS_BLK_NENTRY with 1024 in Hk; unfold BLKSIZE; lia).
  destruct (rbuf_spec s W Hio ent (k * 4) 4 Her ltac:(lia) ltac:(lia)) as (s1 & E1 & [W1 F1 U1 B1]).
  rewrite (bind_step _ _ _ _ _ E1). cbv beta iota. change (negb (0 =? 0)) with false. cbv beta iota.
  assert (Ew : get_u32 (bytes_at (blk s ent) (k * 4) 4) = entry s ent k) by (unfold entry; by destruct (Z.eqb_spec ent 0); [lia|]).
  rewrite Ew. set (b := entry s ent k) in *. destruct (Z.eqb_spec b 0) as [E0|Hne]; cbn [negb].
  - exists s1. split; [done|]. rewrite E0. split; [done|done| | |].
    + intros c Hc. rewrite U1 by done. unfold at_. by destruct (Z.eqb_spec c 0) as [->|].
    + intros c Hc _. apply used_pos in Hc. by rewrite B1 by lia.
    + intros l Hl. unfold entry at 1. rewrite B1 by lia. fold (entry s ent l). destruct (Z.eqb_spec l k) as [->|]; done.
  - destruct Hb as [|Hb]; [done|]. assert (Hio1 : io_free s1) by (unfold io_free; by destruct F1 as [-> _]).
    assert (Her1 : 0 < ent < blocks (super s1)) by (by destruct F1 as [_ ->]).
    destruct (wbuf_spec s1 W1 Hio1 ent (k * 4) 4 (put_u32 0) Her1 ltac:(lia) ltac:(lia) eq_refl) as (s2 & E2 & [W2 F2 U2 B2]).
    rewrite (bind_step _ _ _ _ _ E2). change (negb (0 =? 0)) with false. cbv beta iota. apply used_pos in Hb as Hbp.
    destruct (free_spec s2 b W2) as (s3 & E3 & [W3 F3 U3 B3]); [rewrite U2, U1 by lia; done|].
    rewrite (bind_step _ _ _ _ _ E3). exists s3. split; [done|]. split; [done|destruct F1, F2, F3; split; congruence| | |].
    + intros c Hc. rewrite U3 by done. unfold at_. destruct (c =? b); [done|]. by rewrite U2, U1.
    + intros c Hc Hn. apply used_pos in Hc as ?. rewrite B3, B2 by lia. rewrite at_ne by done. by apply B1; lia.
    + intros l Hl. unfold entry at 1. rewrite B3, B2 by lia. rewrite at_eq, B1 by lia. destruct (Z.eqb_spec ent 0); [lia|].
      pose proof (length_blk s W ent Her) as Hlen. destruct (Z.eqb_spec l k) as [->|]; [by apply wd_put|].
      rewrite wd_put_ne by (done || lia). unfold entry. by destruct (Z.eqb_spec ent 0); [lia|].
Qed.

Section free.
Context (s : sfs_fs) (W : sfs_wf s) (Hio : io_free s) (x : sfs_inode) (Mw : map_wf s x) (index : Z) (Hi : 0 <= index < MAXB).
Let d := din x.

(** An operation that finds nothing to give back. *)
Lemma drops_none s' : steady s s' -> bmap s d index = 0 -> drops s s' x x index.
Proof.
  intros St Hz. pose proof (ext_steady s s' x St Mw) as Hext. pose proof (fun c => steady_val s s' x c St Mw) as Hv. destruct St as (W' & F & U & B).
  split; [done|done|by eapply ext_wf|done| |by auto|].
  - intros b Hb. rewrite U by done. fold d. rewrite Hz. unfold at_. by destruct (Z.eqb_spec b 0) as [->|].
  - intros c Hc. rewrite Hv by done. case_decide as E; [by subst c|done].
Qed.

(** The entry of an indirect block [c0] that is block [index] of the file. *)
Lemma drops_sub s' c0 k : cleared s s' (val s d c0) k (bmap s d index) -> valid c0 -> is_ptr c0 ->
  (forall c, valid c -> val s' d c = if decide (c = CData index) then 0 else val s d c) -> drops s s' x x index.
Proof.
  intros [W' F U B _] Hc0 Hp Hv. split; [done|done|by eapply clear_map_wf|done|done| |done].
  intros b Hb Hm. apply B; [done|]. intros ->. apply Hm. by exists c0.
Qed.

Lemma free_direct : index < SFS_NDIRECT -> exists s' x', sfs_bmap_free_nolock x index s = Ok ((0, x'), s') /\ drops s s' x x' index.
Proof.
  intros Hd. unfold sfs_bmap_free_nolock. destruct (Z.ltb_spec index SFS_NDIRECT); [|lia]. cbv zeta. fold d.
  assert (Eb : nth_direct d index = bmap s d index) by (unfold bmap; by destruct (Z.ltb_spec index SFS_NDIRECT); [|lia]).
  pose proof (val_used s x Mw (CData index) Hi) as Hu. cbn in Hu. fold d in Hu. rewrite Eb.
  destruct (Z.eqb_spec (bmap s d index) 0) as [E0|Hne]; cbn [negb].
  - exists s, x. split; [done|]. by apply drops_none; [apply steady_refl|].
  - destruct Hu as [|Hu]; [done|]. destruct (free_spec s _ W Hu) as (s' & E & [W' F U B]). mstep E. eexists s', _. split; [done|]. set (x' := set_dirty _ _).
    assert (Hent : forall e l, e = 0 \/ used s e = true -> entry s' e l = entry s e l).
    { intros e l [->|He]; [done|]. unfold entry. rewrite B; [done|]. apply used_pos in He. lia. }
    assert (Hval : forall c, valid c -> val s' (din x') c = if decide (c = CData index) then 0 else val s d c).
    { intros [i| | |k] Hc; [|done|done|by apply Hent, (val_used s x Mw CDbl)]. cbn. unfold bmap. destruct (Z.ltb_spec i SFS_NDIRECT).
      - unfold x'. cbn [din set_dirty set_din]. cbn in Hc. rewrite nth_direct_insert by (apply Mw || lia).
        destruct (Z.eqb_spec i index) as [->|]; [by rewrite decide_True|by rewrite decide_False by congruence].
      - rewrite decide_False by (intros [= ->]; lia). destruct (Z.ltb_spec i NIND); [by apply Hent, (val_used s x Mw CInd)|].
        change (db_indirect (din x')) with (db_indirect d). cbn in Hc. destruct (dbl_parts i ltac:(lia)).
        rewrite (Hent (db_indirect d)) by (by apply (val_used s x Mw CDbl)). by apply Hent, (val_used s x Mw (CMid _)). }
    split; [done|done| |done|done| |done].
    + eapply clear_map_wf; [done|done|done|done|done|apply length_insert].
    + intros b Hb _. apply B. apply used_pos in Hb. lia.
Qed.

Lemma free_indirect : SFS_NDIRECT <= index < NIND -> exists s' x', sfs_bmap_free_nolock x index s = Ok ((0, x'), s') /\ drops s s' x x' index.
Proof.
  intros Hd. unfold sfs_bmap_free_nolock. destruct (Z.ltb_spec index SFS_NDIRECT); [lia|]. cbv zeta. fold d. unfold NIND in Hd.
  destruct (Z.ltb_spec (index - SFS_NDIRECT) SFS_BLK_NENTRY); [|lia].
  assert (Eb : bmap s d index = entry s (indirect d) (index - SFS_NDIRECT)).
  { unfold bmap, NIND. by destruct (Z.ltb_spec index SFS_NDIRECT), (Z.ltb_spec index (SFS_NDIRECT + SFS_BLK_NENTRY)); try lia. }
  destruct (Z.eqb_spec (indirect d) 0) as [E0|Hne]; cbn [negb].
  - exists s, x. split; [done|]. apply drops_none; [by apply steady_refl|]. by rewrite Eb, E0.
  - pose proof (val_used s x Mw CInd I) as [|Hu]; [done|]. pose proof (val_used s x Mw (CData index) Hi) as Hub. cbn in Hub, Hu. fold d in Hub, Hu. rewrite Eb in Hub.
    destruct (free_sub_spec s (indirect d) (index - SFS_NDIRECT) W Hio Hu ltac:(lia) Hub) as (s' & E & C).
    mstep E. exists s', x. split; [done|]. rewrite <- Eb in C. apply (drops_sub s' CInd (index - SFS_NDIRECT)); [done|done|done|].
    assert (Hent : forall c l, valid c -> c <> CInd -> entry s' (val s d c) l = entry s (val s d c) l).
    { intros c l Hc Hn. destruct (decide (val s d c = 0)) as [->|Hv]; [done|]. apply entry_ext, C; [by apply Mw|]. intros Ev. apply Hn. by apply (mw_inj _ _ Mw). }
    intros [i| | |k] Hc; [|done|done|by apply (Hent CDbl)]. cbn. unfold bmap. cbn in Hc. destruct (Z.ltb_spec i SFS_NDIRECT).
    + rewrite decide_False by (intros [= ->]; lia). done.
    + unfold NIND. destruct (Z.ltb_spec i (SFS_NDIRECT + SFS_BLK_NENTRY)).
      * rewrite (cl_entry _ _ _ _ _ C) by lia. destruct (Z.eqb_spec (i - SFS_NDIRECT) (index - SFS_NDIRECT)).
        { rewrite decide_True; [done|]. f_equal. lia. } { rewrite decide_False; [done|]. intros [= ->]. lia. }
      * rewrite decide_False by (intros [= ->]; lia). fold NIND. destruct (dbl_parts i ltac:(unfold NIND; lia)).
        rewrite (Hent CDbl) by done. by apply (Hent (CMid _)).
Qed.

Lemma cleared_after s1 s' ent k b : eff s s1 (used s) (blk s) -> 0 <= ent -> cleared s1 s' ent k b -> cleared s s' ent k b.
Proof.
  intros [W1 [A1 B1] U1 K1] He [W' [A2 B2] U2 K2 E2]. split; [done|split; congruence| | |].
  - intros c Hc. rewrite U2 by done. unfold at_. destruct (c =? b); [done|by apply U1].
  - intros c Hc Hn. apply used_pos in Hc as Hp. rewrite K2; [apply K1; lia|rewrite U1 by lia; done|done].
  - intros l Hl. rewrite E2 by done. destruct (l =? k); [done|]. unfold entry. by rewrite K1.
Qed.

(** The middle block's entry cleared. *)
Lemma cleared_leaf s' k j : NIND <= index -> (index - NIND) / SFS_BLK_NENTRY = k -> (index - NIND) mod SFS_BLK_NENTRY = j ->
  0 <= k < SFS_BLK_NENTRY -> entry s (db_indirect d) k <> 0 ->
  cleared s s' (entry s (db_indirect d) k) j (bmap s d index) ->
  forall c, valid c -> val s' d c = if decide (c = CData index) then 0 else val s d c.
Proof.
  intros Hn Ek Ej Hk He C.
  assert (Hent : forall c l, valid c -> c <> CMid k -> entry s' (val s d c) l = entry s (val s d c) l).
  { intros c l Hc Hnc. destruct (decide (val s d c = 0)) as [->|Hv]; [done|]. apply entry_ext, C; [by apply Mw|].
    intros Ev. apply Hnc. by apply (mw_inj _ _ Mw). }
  intros [i| | |l] Hc; [|done|done|by apply (Hent CDbl)]. cbn. unfold bmap. cbn in Hc. nums. destruct (Z.ltb_spec i SFS_NDIRECT).
  - rewrite decide_False by (intros [= ->]; lia). done.
  - destruct (Z.ltb_spec i NIND).
    + rewrite decide_False by (intros [= ->]; lia). by apply (Hent CInd).
    + destruct (dbl_parts i ltac:(lia)) as [Ha Hb]. rewrite (Hent CDbl) by done. cbn. fold d. destruct (decide ((i - NIND) / SFS_BLK_NENTRY = k)) as [E|E].
      * rewrite E. rewrite (cl_entry _ _ _ _ _ C) by done. destruct (Z.eqb_spec ((i - NIND) mod SFS_BLK_NENTRY) j) as [Em|Em].
        { rewrite decide_True; [done|]. f_equal. pose proof (dbl_whole i ltac:(lia)). pose proof (dbl_whole index Hn). congruence. }
        { rewrite decide_False; [done|]. intros [= ->]. done. }
      * rewrite decide_False by (intros [= ->]; done). apply (Hent (CMid _)); [done|congruence].
Qed.

Lemma free_double : NIND <= index -> exists s' x', sfs_bmap_free_nolock x index s = Ok ((0, x'), s') /\ drops s s' x x' index.
Proof.
  intros Hn. destruct (dbl_parts index ltac:(lia)) as [Hk Hj]. unfold sfs_bmap_free_nolock.
  destruct (Z.ltb_spec index SFS_NDIRECT); [nums; lia|]. cbv zeta. destruct (Z.ltb_spec (index - SFS_NDIRECT) SFS_BLK_NENTRY); [unfold NIND in *; lia|].
  replace (index - SFS_NDIRECT - SFS_BLK_NENTRY) with (index - NIND) by (unfold NIND; lia). fold d.
  set (k := (index - NIND) / SFS_BLK_NENTRY) in *. set (j := (index - NIND) mod SFS_BLK_NENTRY) in *.
  assert (Eb : bmap s d index = entry s (entry s (db_indirect d) k) j).
  { unfold bmap. destruct (Z.ltb_spec index SFS_NDIRECT), (Z.ltb_spec index NIND); try lia. done. }
  destruct (Z.eqb_spec (db_indirect d) 0) as [E0|Hne]; cbn [negb].
  - exists s, x. split; [done|]. apply drops_none; [by apply steady_refl|]. by rewrite Eb, E0.
  - destruct (get_sub_present s (db_indirect d) k W Hio Hk (val_used s x Mw CDbl I) false (or_introl eq_refl)) as (s1 & E1 & Heff).
    mstep E1. cbv beta iota. change (negb (0 =? 0)) with false. cbv beta iota.
    destruct (Z.eqb_spec (entry s (db_indirect d) k) 0) as [E0|Hm]; cbn [negb].
    + exists s1, x. split; [done|]. apply drops_none; [by apply eff_steady|]. by rewrite Eb, E0.
    + pose proof (val_used s x Mw (CMid k) Hk) as [|Hu]; [done|]. cbn in Hu. fold d in Hu. apply used_pos in Hu as Hp.
      pose proof (val_used s x Mw (CData index) Hi) as Hub. cbn in Hub. fold d in Hub.
      assert (Ee : entry s1 (entry s (db_indirect d) k) j = bmap s d index) by (rewrite Eb; unfold entry at 1; by rewrite (eff_blk _ _ _ _ Heff) by lia).
      destruct (free_sub_spec s1 (entry s (db_indirect d) k) j) as (s2 & E2 & C);
        [apply Heff|by eapply eff_io|rewrite (eff_used _ _ _ _ Heff) by lia; done|done| |].
      { rewrite Ee. destruct Hub as [|Hub]; [by left|right]. apply used_pos in Hub as ?. by rewrite (eff_used _ _ _ _ Heff) by lia. }
      mstep E2. exists s2, x. split; [done|]. rewrite Ee in C. apply cleared_after in C; [|done|lia].
      apply (drops_sub s2 (CMid k) j); [done|done|done|]. by apply (cleared_leaf s2 k j).
Qed.

Lemma free_block_spec : exists s' x', sfs_bmap_free_nolock x index s = Ok ((0, x'), s') /\ drops s s' x x' index.
Proof.
  destruct (Z_lt_le_dec index SFS_NDIRECT); [by apply free_direct|]. destruct (Z_lt_le_dec index NIND); [by apply free_indirect|by apply free_double].
Qed.
End free.
