(* ===== verification/SfsFile.v ===== *)
(** * SfsFile: files of the simple file system as byte arrays

    A file is a size and a byte for every position.  Reading, writing and changing
    the length through the three levels of block pointers is reading, overwriting
    and cutting that array; the blocks of other files keep their contents, and the
    blocks in use afterwards are theirs and the file's own. *)

From stdpp Require Import numbers list.
From S2P Require Import Prelude Bitmap Disk Sfs SfsProof SfsMap SfsFree.
Local Open Scope Z_scope.

(** The byte at position [p], 0 where the file has no block. *)
Definition fbyte (s : sfs_fs) (x : sfs_inode) (p : Z) : Z :=
  let b := bmap s (din x) (p / BLKSIZE) in
  if b =? 0 then 0 else default 0 (blk s b !! Z.to_nat (p mod BLKSIZE)).

Record file_wf (s : sfs_fs) (x : sfs_inode) : Prop := {
  fw_map : map_wf s x;
  fw_filled : filled s x (dblocks (din x));
  fw_size : 0 <= size_slots (din x) <= dblocks (din x) * BLKSIZE }.

(** Blocks in use that are not the file's. *)
Definition foreign (s : sfs_fs) (x : sfs_inode) (b : Z) : Prop := used s b = true /\ ~ owns s (din x) b.

(** The identity of the inode: all that changing its blocks and size keeps. *)
Definition same_id (x x' : sfs_inode) : Prop :=
  ino x' = ino x /\ removed x' = removed x /\ type (din x') = type (din x) /\ dparent (din x') = dparent (din x) /\ nlinks (din x') = nlinks (din x).

(** A step on the file: no block of another file is touched, none is lost. *)
Record fstep (s s' : sfs_fs) (x x' : sfs_inode) : Prop := {
  fs_wf : sfs_wf s';
  fs_fs : same_fs s s';
  fs_map : map_wf s' x';
  fs_id : same_id x x';
  fs_foreign : forall b, foreign s' x' b <-> foreign s x b;
  fs_keep : forall b, foreign s x b -> blk s' b = blk s b }.

Definition MAXPOS : Z := MAXB * BLKSIZE.
Definition same_view (s s' : sfs_fs) (x x' : sfs_inode) : Prop := forall p, 0 <= p < MAXPOS -> fbyte s' x' p = fbyte s x p.

Lemma pos_block p : 0 <= p < MAXPOS -> 0 <= p / BLKSIZE < MAXB /\ 0 <= p mod BLKSIZE < BLKSIZE.
Proof. unfold MAXPOS, BLKSIZE. intros. Z.to_euclidean_division_equations. lia. Qed.

Lemma fstep_trans s s1 s2 x x1 x2 : fstep s s1 x x1 -> fstep s1 s2 x1 x2 -> fstep s s2 x x2.
Proof.
  intros [W1 [A1 B1] M1 (? & ? & ? & ? & ?) F1 K1] [W2 [A2 B2] M2 (? & ? & ? & ? & ?) F2 K2]. split; [done|split; congruence|done|split_and!; congruence| |].
  - intros b. by rewrite F2, F1.
  - intros b Hb. rewrite K2 by (by apply F1). by apply K1.
Qed.

Lemma fstep_refl s x : sfs_wf s -> map_wf s x -> fstep s s x x.
Proof. intros. by split. Qed.

Lemma fstep_io s s' x x' : fstep s s' x x' -> io_free s -> io_free s'.
Proof. intros [_ [E _] _ _ _ _] H. unfold io_free. by rewrite E. Qed.

(** A change of the fields that are not block pointers. *)
Lemma fstep_fields s s' x x1 x2 : fstep s s' x x1 -> direct (din x2) = direct (din x1) -> indirect (din x2) = indirect (din x1) ->
  db_indirect (din x2) = db_indirect (din x1) -> same_id x1 x2 -> fstep s s' x x2 /\ (forall c, val s' (din x2) c = val s' (din x1) c).
Proof.
  intros [W F M (? & ? & ? & ? & ?) Fo K] E1 E2 E3 (? & ? & ? & ? & ?).
  assert (Hv : forall c, val s' (din x2) c = val s' (din x1) c).
  { intros [i| | |k]; cbn; unfold bmap, nth_direct; by rewrite ?E1, ?E2, ?E3. }
  split; [|done]. split; [done|done| |split_and!; congruence| |done].
  - destruct M as [Md Mi Mu Mj]. split; [congruence|congruence| |].
    + intros c Hc. rewrite Hv. intros Hn. destruct (Mu c Hc Hn). split; congruence.
    + intros c1 c2 ? ?. rewrite !Hv. by apply Mj.
  - intros b. rewrite <- Fo. unfold foreign, owns. by setoid_rewrite Hv.
Qed.

Lemma val_pos s x c b : map_wf s x -> valid c -> val s (din x) c = b -> used s b = true -> val s (din x) c <> 0.
Proof. intros M Hc E Hb. apply used_pos in Hb. lia. Qed.

Lemma ext_fstep s s' x x' : ext s s' x x' -> map_wf s x -> fstep s s' x x'.
Proof.
  intros E M. pose proof (ext_wf _ _ _ _ E M) as M'. destruct E as [W F [V J U L] [(? & ? & ? & ? & ? & ?) _] K T]. split; [done|done|done|done| |].
  - intros b. split.
    + intros [Hu Ho]. destruct (T b Hu) as [Hs|]; [|done]. split; [done|]. intros (c & Hc & Ec). apply Ho. exists c. split; [done|].
      destruct (V c Hc) as [->|(E0 & _)]; [done|]. apply used_pos in Hs. lia.
    + intros [Hu Ho]. split; [by apply U|]. intros (c & Hc & Ec). destruct (V c Hc) as [Ev|(_ & Ev & _)]; [|congruence].
      apply Ho. exists c. split; [done|congruence].
  - intros b [Hu Ho]. apply K; [done|]. intros (c & Hc & _ & Ec). apply Ho. by exists c.
Qed.

Lemma drops_fstep s s' x x' i : drops s s' x x' i -> 0 <= i < MAXB -> fstep s s' x x'.
Proof.
  intros [W F M [(? & ? & ? & ? & ? & ?) _] U K V] Hi. split; [done|done|done|done| |].
  - intros b. split.
    + intros [Hu Ho]. apply used_pos in Hu as Hp. rewrite U in Hu by lia. unfold at_ in Hu. destruct (Z.eqb_spec b (bmap s (din x) i)) as [|Hn]; [done|].
      split; [done|]. intros (c & Hc & Ec). apply Ho. exists c. split; [done|]. rewrite V by done. case_decide; [by subst|done].
    + intros [Hu Ho]. apply used_pos in Hu as Hp. split.
      * rewrite U by lia. rewrite at_ne; [done|]. intros ->. apply Ho. by exists (CData i).
      * intros (c & Hc & Ec). rewrite V in Ec by done. case_decide; [lia|]. apply Ho. by exists c.
  - intros b [Hu Ho]. apply K; [done|]. intros (c & Hc & _ & Ec). apply Ho. by exists c.
Qed.

(** States that differ in the semaphores held only. *)
Section same_blocks.
Context (s s' : sfs_fs) (Es : super s' = super s) (Ef : freemap s' = freemap s) (Ed : dev s' = dev s).

Lemma same_blk b : blk s' b = blk s b.
Proof. unfold blk. by rewrite Ed. Qed.

Lemma same_used b : used s' b = used s b.
Proof. unfold used. by rewrite Es, Ef. Qed.

Lemma same_val d c : val s' d c = val s d c.
Proof.
  assert (He : forall e k, entry s' e k = entry s e k) by (intros; apply entry_ext, same_blk).
  destruct c; cbn; unfold bmap; by rewrite ?He.
Qed.

Lemma same_map_wf x : map_wf s x -> map_wf s' x.
Proof.
  intros [Md Mi Mu Mj]. split; [done|by rewrite same_used| |].
  - intros c Hc. rewrite same_val, same_used. by apply Mu.
  - intros c1 c2 H1 H2. rewrite !same_val. by apply Mj.
Qed.

Lemma same_file_wf x : file_wf s x -> file_wf s' x.
Proof.
  intros [M [Hn Hf] Hs]. split; [by apply same_map_wf| |done]. split; [done|]. intros i Hi.
  rewrite (same_val (din x) (CData i) : bmap s' (din x) i = bmap s (din x) i). by apply Hf.
Qed.

Lemma same_fbyte x p : fbyte s' x p = fbyte s x p.
Proof. unfold fbyte. rewrite (same_val (din x) (CData _) : bmap s' (din x) _ = bmap s (din x) _). by rewrite same_blk. Qed.

Lemma same_foreign x b : foreign s' x b <-> foreign s x b.
Proof.
  unfold foreign, owns. rewrite same_used. split; intros [Hu Ho]; (split; [done|]); intros (c & Hc & E); apply Ho; exists c; (split; [done|]).
  - by rewrite same_val.
  - by rewrite same_val in E.
Qed.
End same_blocks.

(** ** Loading a block *)

Lemma blank_byte n : default 0 (blank !! n) = 0.
Proof. unfold blank. destruct (decide (n < Z.to_nat SFS_BLKSIZE)%nat); [by rewrite lookup_replicate_2|by rewrite lookup_ge_None_2 by (rewrite length_replicate; lia)]. Qed.

Lemma data_not_meta s x i : map_wf s x -> 0 <= i < MAXB -> bmap s (din x) i <> 0 -> ~ meta s (din x) (bmap s (din x) i).
Proof.
  intros M Hi Hb (c & Hc & Hp & Ec). assert (c = CData i) as -> by (apply (mw_inj _ _ M); [done|done|done|congruence]). done.
Qed.

(** Bytes are kept where the map is, since data blocks hold no pointers. *)
Lemma ext_byte s s' x x' p : ext s s' x x' -> map_wf s x -> 0 <= p < MAXPOS -> bmap s' (din x') (p / BLKSIZE) = bmap s (din x) (p / BLKSIZE) ->
  fbyte s' x' p = fbyte s x p.
Proof.
  intros E M Hp Eb. destruct (pos_block p Hp) as [Hi _]. unfold fbyte. rewrite Eb. destruct (Z.eqb_spec (bmap s (din x) (p / BLKSIZE)) 0); [done|].
  rewrite (ex_keep _ _ _ _ E); [done| |by apply data_not_meta]. by apply (mw_used _ _ M (CData _)).
Qed.

Lemma adds_view s s' x x' i b : adds s s' x x' i b -> map_wf s x -> bmap s (din x) i = 0 -> same_view s s' x x'.
Proof.
  intros [E _ Hbl Hm] M Hz p Hp. destruct (pos_block p Hp) as [Hi _]. destruct (Z.eqb_spec (p / BLKSIZE) i) as [Ei|Hne].
  - unfold fbyte. rewrite Hm by done. rewrite Ei, Z.eqb_refl, Hz, Hbl. cbn [Z.eqb]. destruct (b =? 0); [done|apply blank_byte].
  - apply ext_byte; [done|done|done|]. rewrite Hm by done. by destruct (Z.eqb_spec (p / BLKSIZE) i).
Qed.

Lemma same_map_view s s' x x' : ext s s' x x' -> map_wf s x -> same_map s s' x x' -> same_view s s' x x'.
Proof. intros E M Hm p Hp. apply ext_byte; [done|done|done|]. apply Hm. by apply pos_block. Qed.

(** What loading block [i] leaves: the size and the bytes are as before. *)
Record loaded (s s' : sfs_fs) (x x' : sfs_inode) : Prop := {
  lo_step : fstep s s' x x';
  lo_wf : file_wf s' x';
  lo_size : size_slots (din x') = size_slots (din x);
  lo_view : same_view s s' x x' }.

Lemma filled_bmap s x i : filled s x (dblocks (din x)) -> 0 <= i < MAXB -> bmap s (din x) i <> 0 <-> i < dblocks (din x).
Proof. intros [_ H] Hi. by apply H. Qed.

Section load.
Context (s : sfs_fs) (W : sfs_wf s) (Hio : io_free s) (x : sfs_inode) (Fw : file_wf s x) (i : Z).

Lemma load_present : 0 <= i < dblocks (din x) -> exists s', sfs_bmap_load_nolock x i s = Ok ((0, bmap s (din x) i, x), s') /\ steady s s'.
Proof.
  intros Hi. pose proof (proj1 (fw_filled _ _ Fw)) as Hn. pose proof (fw_map _ _ Fw) as M.
  assert (Hb : bmap s (din x) i <> 0) by (apply filled_bmap; [apply Fw|lia|lia]).
  destruct (get_present_spec s W Hio x M i ltac:(lia) false (or_introl eq_refl)) as (s' & E & St). exists s'. split; [|done].
  unfold sfs_bmap_load_nolock. massert; [|apply Z.leb_le; lia]. cbv zeta. destruct (Z.eqb_spec i (dblocks (din x))); [lia|].
  mstep E. cbv beta iota. change (negb (0 =? 0)) with false. cbv beta iota. destruct St as (W' & [_ Eb] & U & _).
  destruct (mw_used _ _ M (CData i) ltac:(cbn; lia) Hb) as [Hu _]. cbn in Hu. apply used_pos in Hu as Hp.
  rewrite (bind_step _ _ s' true s'); [by massert|]. rewrite (inuse_spec s'); [by rewrite U, Hu by lia|done|]. rewrite Eb. by apply used_range.
Qed.

Lemma load_append : i = dblocks (din x) -> i < MAXB ->
  (exists s' x', sfs_bmap_load_nolock x i s = Ok ((0, bmap s' (din x') i, x'), s') /\ loaded s s' x x' /\ dblocks (din x') = i + 1) \/
  (exists s' x', sfs_bmap_load_nolock x i s = Ok ((- E_NO_MEM, 0, x'), s') /\ loaded s s' x x' /\ dblocks (din x') = i /\ nearly_full s').
Proof.
  intros Ei Hi. pose proof Fw as [M Hf Hsz]. pose proof Hf as [Hn Hf'].
  assert (Hz : bmap s (din x) i = 0).
  { destruct (decide (bmap s (din x) i = 0)); [done|]. apply filled_bmap in n; [lia|done|lia]. }
  unfold sfs_bmap_load_nolock. rewrite bind_kassert by (apply Z.leb_le; lia). cbv zeta. rewrite <- Ei, Z.eqb_refl.
  destruct (get_create_spec s W Hio x M i ltac:(lia) Hz) as [(b & s' & x1 & E & Ha)|(s' & x1 & E & Hext & Hm & Hfull)].
  - left. rewrite (bind_step _ _ _ _ _ E). cbv beta iota. change (negb (0 =? 0)) with false. cbv beta iota.
    pose proof Ha as [Hext [Hnew Hu] Hbl Hmap]. pose proof (ex_wf _ _ _ _ Hext) as W'. destruct (ex_inode _ _ _ _ Hext) as [Hsi Hdb].
    rewrite (bind_step _ _ _ _ _ (inuse_spec s' b W' (used_range _ _ Hu))). rewrite Hu, bind_kassert by done.
    set (x' := set_din _ x1). assert (Hdb' : dblocks (din x') = i + 1).
    { cbn. rewrite Hdb, <- Ei. apply (umod_small 32). nums. unfold is_u. lia. }
    destruct (fstep_fields s s' x x1 x' (ext_fstep _ _ _ _ Hext M) eq_refl eq_refl eq_refl ltac:(done)) as [Hst Hv].
    assert (Hm' : forall k, 0 <= k < MAXB -> bmap s' (din x') k = if k =? i then b else bmap s (din x) k) by (intros k Hk; rewrite <- Hmap by done; apply (Hv (CData k))).
    exists s', x'. split_and!; [|split; [done| | |]|done].
    + rewrite Hm' by lia. by rewrite Z.eqb_refl.
    + split; [apply Hst| |].
      * rewrite Hdb'. split; [lia|]. intros k Hk. rewrite Hm' by done. apply used_pos in Hu. destruct (Z.eqb_spec k i) as [->|]; [lia|].
        rewrite Hf' by done. lia.
      * rewrite Hdb'. cbn. destruct Hsi as (_ & _ & -> & _). unfold BLKSIZE in *. lia.
    + cbn. by destruct Hsi as (_ & _ & -> & _).
    + intros p Hp. rewrite <- (adds_view s s' x x1 i b Ha M Hz p Hp). unfold fbyte. by rewrite (Hv (CData _) : bmap s' (din x') _ = bmap s' (din x1) _).
  - right. rewrite (bind_step _ _ _ _ _ E). cbv beta iota. change (negb (- E_NO_MEM =? 0)) with true. cbv beta iota.
    destruct (ex_inode _ _ _ _ Hext) as [(_ & _ & Hs & _) Hdb].
    exists s', x1. split_and!; [done| |by rewrite Hdb|done]. split; [by apply ext_fstep| |done|by apply same_map_view].
    split; [by eapply ext_wf| |by rewrite Hs, Hdb]. rewrite Hdb. split; [lia|]. intros k Hk. rewrite Hm by done. by apply Hf'.
Qed.
End load.

(** ** Data blocks *)

(** Block [i] of the file overwritten with [l]. *)
Section store.
Context (s s' : sfs_fs) (x : sfs_inode) (Fw : file_wf s x) (i : Z) (Hi : 0 <= i < dblocks (din x)) (l : list Z).
Let b := bmap s (din x) i.
Context (E : eff s s' (used s) (at_ b l (blk s))).

Lemma store_b : b <> 0 /\ used s b = true.
Proof.
  pose proof (proj1 (fw_filled _ _ Fw)). assert (Hb : b <> 0) by (apply filled_bmap; [apply Fw|lia|lia]).
  split; [done|]. apply (mw_used _ _ (fw_map _ _ Fw) (CData i)); [cbn; lia|done].
Qed.

Lemma store_val c : valid c -> val s' (din x) c = val s (din x) c.
Proof.
  destruct store_b as [Hb _]. pose proof (proj1 (fw_filled _ _ Fw)). apply val_keep. intros e He Hm. pose proof Hm as (c' & Hc & _ & Ec).
  assert (Hu : used s e = true) by (subst e; by apply (mw_used _ _ (fw_map _ _ Fw))). apply used_pos in Hu.
  rewrite (eff_blk _ _ _ _ E) by lia. apply at_ne. intros ->. revert Hm. apply data_not_meta; [apply Fw|lia|done].
Qed.

Lemma store_step : fstep s s' x x /\ file_wf s' x.
Proof.
  destruct E as [W' F U B]. destruct Fw as [[Md Mi Mu Mj] [Hn Hf] Hs]. pose proof store_val as Hv.
  assert (HU : forall c, used s' c = used s c) by (intros c; destruct (Z_lt_le_dec c 0); [by rewrite !used_neg|by apply U]).
  assert (M' : map_wf s' x).
  { split; [done|by rewrite HU| |].
    - intros c Hc. rewrite Hv by done. rewrite HU. by apply Mu.
    - intros c1 c2 H1 H2. rewrite !Hv by done. by apply Mj. }
  assert (Ho : forall c, owns s' (din x) c <-> owns s (din x) c).
  { intros c. split; intros (cl & Hc & Ec); exists cl; (split; [done|]); [by rewrite <- Hv|by rewrite Hv]. }
  split.
  - split; [done|done|done|done| |].
    + intros c. unfold foreign. by rewrite HU, Ho.
    + intros c [Hu Hn']. apply used_pos in Hu. rewrite B by lia. apply at_ne. intros ->. apply Hn'. exists (CData i). split; [cbn; lia|done].
  - split; [done| |done]. split; [done|]. intros k Hk. rewrite (Hv (CData k) Hk : bmap s' (din x) k = bmap s (din x) k). by apply Hf.
Qed.

Lemma store_byte p : 0 <= p < MAXPOS -> fbyte s' x p = if p / BLKSIZE =? i then default 0 (l !! Z.to_nat (p mod BLKSIZE)) else fbyte s x p.
Proof.
  intros Hp. destruct (pos_block p Hp) as [Hk _]. destruct store_b as [Hb Hub]. unfold fbyte.
  rewrite (store_val (CData (p / BLKSIZE)) Hk : bmap s' (din x) _ = bmap s (din x) _). pose proof (proj1 (fw_filled _ _ Fw)).
  destruct (Z.eqb_spec (p / BLKSIZE) i) as [Ei|Hne].
  - rewrite Ei. fold b. destruct (Z.eqb_spec b 0); [done|]. apply used_pos in Hub. rewrite (eff_blk _ _ _ _ E) by lia. by rewrite at_eq.
  - destruct (Z.eqb_spec (bmap s (din x) (p / BLKSIZE)) 0) as [|Hz]; [done|].
    destruct (mw_used _ _ (fw_map _ _ Fw) (CData (p / BLKSIZE)) Hk Hz) as [Hu _]. apply used_pos in Hu. cbn in Hu.
    rewrite (eff_blk _ _ _ _ E) by lia. rewrite at_ne; [done|]. intros Eb. apply Hne.
    assert (Hc : CData (p / BLKSIZE) = CData i) by (apply (mw_inj _ _ (fw_map _ _ Fw)); [done|cbn; lia|done|done]). congruence.
Qed.
End store.

Lemma steady_loaded s s' x : steady s s' -> file_wf s x -> loaded s s' x x.
Proof.
  intros St [M [Hn Hf] Hs]. pose proof (ext_steady s s' x St M) as Hext. assert (Hm : same_map s s' x x) by (intros i Hi; by apply (steady_val s s' x (CData i))).
  split; [by apply ext_fstep| |done|by apply same_map_view]. split; [by eapply ext_wf| |done]. split; [done|]. intros k Hk. rewrite Hm by done. by apply Hf.
Qed.

Lemma load_spec s x i : sfs_wf s -> io_free s -> file_wf s x -> 0 <= i <= dblocks (din x) -> i < MAXB ->
  (exists s' x', sfs_bmap_load_nolock x i s = Ok ((0, bmap s' (din x') i, x'), s') /\ loaded s s' x x' /\ dblocks (din x') = Z.max (dblocks (din x)) (i + 1)) \/
  (exists s' x', sfs_bmap_load_nolock x i s = Ok ((- E_NO_MEM, 0, x'), s') /\ loaded s s' x x' /\ dblocks (din x') = i /\ i = dblocks (din x) /\ nearly_full s').
Proof.
  intros W Hio Fw Hi Hm. destruct (decide (i = dblocks (din x))) as [Ei|Hne].
  - destruct (load_append s W Hio x Fw i Ei Hm) as [(s' & x' & E & L & Hd)|(s' & x' & E & L & Hd & Hfull)]; [left|right]; exists s', x'.
    + split_and!; [done|done|lia].
    + done.
  - left. destruct (load_present s W Hio x Fw i ltac:(lia)) as (s' & E & St). exists s', x.
    rewrite (steady_val s s' x (CData i) St (fw_map _ _ Fw) ltac:(cbn; lia) : bmap s' (din x) i = bmap s (din x) i).
    split_and!; [done|by apply steady_loaded|lia].
Qed.

(** ** The shape of a transfer *)

(** A first piece up to the end of its block, whole blocks, and a last piece:
    for an invariant [Inv] that pieces and blocks keep, they move the bytes from
    [offset] to [endpos], or stop early where a block cannot be had. *)
Section body.
Context (write : bool) (offset endpos : Z) (Inv : xfer -> sfs_fs -> Prop) (Full : sfs_fs -> Prop).

Definition moves (n : Z) (t : xfer) (o : outcome (xfer * sfs_fs)) : Prop := exists t' s', o = Ok (t', s') /\ Inv t' s' /\
  (ret t' = 0 /\ alen t' = alen t + n \/ ret t' = - E_NO_MEM /\ alen t <= alen t' < alen t + n /\ Full s').

Context (Hpiece : forall t s i off n, Inv t s -> ret t = 0 -> 0 <= i -> 0 <= off -> 0 < n -> off + n <= BLKSIZE -> offset + alen t = i * BLKSIZE + off ->
  alen t + n <= endpos - offset -> moves n t (io_piece write n i off t s)).
Context (Hblocks : forall k t s i, Inv t s -> ret t = 0 -> 0 <= i -> offset + alen t = i * BLKSIZE ->
  alen t + Z.of_nat k * BLKSIZE <= endpos - offset -> moves (Z.of_nat k * BLKSIZE) t (io_blocks write k i t s)).

(** Going on after a part: the rest is done unless the part failed. *)
Lemma moves_bind n m t (mm : M sfs_fs xfer) (k : xfer -> M sfs_fs xfer) s : 0 <= n -> 0 <= m -> moves n t (mm s) ->
  (forall t' s', Inv t' s' -> ret t' = 0 -> alen t' = alen t + n -> moves m t' (k t' s')) ->
  (forall t', ret t' <> 0 -> forall s', k t' s' = Ok (t', s')) -> moves (n + m) t ((mm ≫= k) s).
Proof.
  intros Hn Hm (t1 & s1 & E & HI & Hres) Hk Hf. rewrite (bind_step _ _ _ _ _ E). destruct Hres as [[Hr Ha]|(Hr & Ha & HF)].
  - destruct (Hk t1 s1 HI Hr Ha) as (t2 & s2 & E2 & HI2 & Hres2). exists t2, s2. split_and!; [done|done|].
    destruct Hres2 as [[? ?]|(? & ? & ?)]; [left|right]; split_and!; done || lia.
  - exists t1, s1. split_and!; [apply Hf; rewrite Hr; done|done|]. right. split_and!; [done|lia|lia|done].
Qed.

(** From a block boundary on. *)
Lemma io_rest_spec t s i n : Inv t s -> ret t = 0 -> 0 <= i -> offset + alen t = i * BLKSIZE -> n = endpos / BLKSIZE - i -> 0 <= n ->
  moves (endpos - offset - alen t) t ((t ← io_blocks write (Z.to_nat n) i t;
    if negb (ret t =? 0) then mret t
    else
      let size := endpos mod SFS_BLKSIZE in
      if negb (size =? 0) then io_piece write size (i + n) 0 t else mret t) s).
Proof.
  intros HI Hr Hi Hpos En Hn. unfold SFS_BLKSIZE. pose proof (Z.div_mod endpos BLKSIZE ltac:(done)) as Hdm. pose proof (Z.mod_pos_bound endpos BLKSIZE ltac:(done)) as Hmb.
  replace (endpos - offset - alen t) with (Z.of_nat (Z.to_nat n) * BLKSIZE + endpos mod BLKSIZE) by (rewrite Z2Nat.id by done; unfold BLKSIZE in *; lia).
  apply moves_bind; [unfold BLKSIZE; lia|lia| | |].
  - apply Hblocks; [done|done|done|done|]. rewrite Z2Nat.id by done. unfold BLKSIZE in *. lia.
  - intros t1 s1 HI1 Hr1 Ha1. rewrite Hr1. cbn [Z.eqb negb]. cbv zeta. rewrite Z2Nat.id in Ha1 by done. destruct (Z.eqb_spec (endpos mod BLKSIZE) 0) as [E0|Hne]; cbn [negb].
    + exists t1, s1. split_and!; [done|done|]. left. split; [done|lia].
    + apply Hpiece; [done|done|lia|lia|lia|lia| |]; unfold BLKSIZE in *; lia.
  - intros t1 Hr1 s1. by destruct (Z.eqb_spec (ret t1) 0).
Qed.

Lemma io_body_spec t s : Inv t s -> ret t = 0 -> alen t = 0 -> 0 <= offset < endpos -> moves (endpos - offset) t (io_body write offset endpos t s).
Proof.
  intros HI Hr Ha Ho. unfold io_body, SFS_BLKSIZE. cbv zeta.
  pose proof (Z.div_mod endpos BLKSIZE ltac:(done)) as Hde. pose proof (Z.mod_pos_bound endpos BLKSIZE ltac:(done)) as Hme.
  pose proof (Z.div_mod offset BLKSIZE ltac:(done)) as Hdo. pose proof (Z.mod_pos_bound offset BLKSIZE ltac:(done)) as Hmo.
  pose proof (Z.div_pos offset BLKSIZE ltac:(lia) ltac:(done)) as Hp. pose proof (Z.div_le_mono offset endpos BLKSIZE ltac:(done) ltac:(lia)) as Hle.
  destruct (Z.eqb_spec (offset mod BLKSIZE) 0) as [E0|Hne]; cbn [negb andb].
  - rewrite (bind_step _ _ s t s) by done. rewrite Hr. cbn [Z.eqb negb orb].
    replace (endpos - offset) with (endpos - offset - alen t) by lia. apply (io_rest_spec t s (offset / BLKSIZE)); [done|done|done|unfold BLKSIZE in *; lia|done|lia].
  - set (n1 := if negb (endpos / BLKSIZE - offset / BLKSIZE =? 0) then BLKSIZE - offset mod BLKSIZE else endpos - offset).
    assert (Hn1 : 0 < n1 /\ offset mod BLKSIZE + n1 <= BLKSIZE /\ n1 <= endpos - offset).
    { unfold n1. destruct (Z.eqb_spec (endpos / BLKSIZE - offset / BLKSIZE) 0); cbn [negb]; unfold BLKSIZE in *; lia. }
    replace (endpos - offset) with (n1 + (endpos - offset - n1)) by lia. apply moves_bind; [unfold BLKSIZE; lia|lia| | |].
    + apply Hpiece; [done|done|lia|lia|lia|lia| |]; unfold BLKSIZE in *; lia.
    + intros t1 s1 HI1 Hr1 Ha1. rewrite Hr1. cbn [Z.eqb negb orb]. unfold n1 in *. destruct (Z.eqb_spec (endpos / BLKSIZE - offset / BLKSIZE) 0) as [Hz|Hnz]; cbn [negb] in *.
      * exists t1, s1. split_and!; [done|done|]. left. split; [done|lia].
      * replace (endpos - offset - (BLKSIZE - offset mod BLKSIZE)) with (endpos - offset - alen t1) by lia.
        apply (io_rest_spec t1 s1 (offset / BLKSIZE + 1)); [done|done|lia|unfold BLKSIZE in *; lia|lia|lia].
    + intros t1 Hr1 s1. by destruct (Z.eqb_spec (ret t1) 0).
Qed.
End body.

(** ** Writing *)

(** [alen t] bytes of [buf] have been written from [offset] on. *)
Record wrote (s0 : sfs_fs) (x0 : sfs_inode) (buf : list Z) (offset : Z) (t : xfer) (s : sfs_fs) : Prop := {
  wr_step : fstep s0 s x0 (xsin t);
  wr_wf : file_wf s (xsin t);
  wr_buf : xbuf t = buf;
  wr_size : size_slots (din (xsin t)) = size_slots (din x0);
  wr_alen : 0 <= alen t <= Z.of_nat (length buf);
  wr_blocks : dblocks (din (xsin t)) = Z.max (dblocks (din x0)) ((offset + alen t + BLKSIZE - 1) / BLKSIZE);
  wr_byte : forall p, 0 <= p < MAXPOS ->
    fbyte s (xsin t) p = if (offset <=? p) && (p <? offset + alen t) then default 0 (buf !! Z.to_nat (p - offset)) else fbyte s0 x0 p }.

Lemma rw1_write s b buf : sfs_wf s -> io_free s -> 0 < b < blocks (super s) -> length buf = Z.to_nat BLKSIZE ->
  exists s' buf', sfs_rwblock buf b 1 true s = Ok ((0, buf'), s') /\ eff s s' (used s) (at_ b buf (blk s)).
Proof.
  intros W Hio Hb Hl. set (s1 := with_held (IoSem :: held s) s).
  assert (Hbb : bytes_at buf 0 SFS_BLKSIZE = buf) by (unfold bytes_at; cbn [Z.to_nat drop]; apply take_ge; unfold SFS_BLKSIZE; lia).
  destruct (rw_write s1 (wf_held _ _ W) b Hb buf true Hl) as (d & buf' & E & Hd). exists (with_dev d s). eexists. split.
  - unfold sfs_rwblock. mstep (io_acquire s Hio). fold s1. change (Z.to_nat 1) with 1%nat. cbn [rwblock_loop]. rewrite Hbb, bind_assoc_M. mstep E. cbv beta iota.
    change (negb (0 =? 0)) with false. cbv beta iota zeta.
    match goal with |- ((mret ?v ≫= ?k) ?st) = _ => change ((mret v ≫= k) st) with (k v st) end. cbv beta. unfold release. rewrite bind_modify.
    unfold s1. rewrite unlock_id by done. done.
  - by apply eff_write.
Qed.

Lemma rw1_read s b buf : sfs_wf s -> io_free s -> 0 < b < blocks (super s) -> length buf = Z.to_nat BLKSIZE ->
  exists s', sfs_rwblock buf b 1 false s = Ok ((0, blk s b), s') /\ eff s s' (used s) (blk s).
Proof.
  intros W Hio Hb Hl. set (s1 := with_held (IoSem :: held s) s).
  assert (Hbb : bytes_at buf 0 SFS_BLKSIZE = buf) by (unfold bytes_at; cbn [Z.to_nat drop]; apply take_ge; unfold SFS_BLKSIZE; lia).
  destruct (rw_read s1 (wf_held _ _ W) b Hb buf true Hl) as (d & E & Hd). exists (with_dev d s). split; [|by apply eff_read].
  unfold sfs_rwblock. mstep (io_acquire s Hio). fold s1. change (Z.to_nat 1) with 1%nat. cbn [rwblock_loop]. rewrite Hbb, bind_assoc_M. mstep E. cbv beta iota.
  change (negb (0 =? 0)) with false. cbv beta iota zeta.
  match goal with |- ((mret ?v ≫= ?k) ?st) = _ => change ((mret v ≫= k) st) with (k v st) end. cbv beta. unfold release. rewrite bind_modify.
  unfold s1. rewrite unlock_id by done. unfold mret, M_ret. do 3 f_equal. change (blk (with_held (IoSem :: held s) s) b) with (blk s b).
  unfold splice. cbn [Z.to_nat take app Nat.add]. rewrite (length_blk s W b Hb). rewrite drop_ge by lia. apply app_nil_r.
Qed.

(** A whole block spliced over another. *)
Lemma splice_whole l d : length d = length l -> splice l 0 d = d.
Proof. intros E. unfold splice. cbn [Z.to_nat take app Nat.add]. rewrite drop_ge by lia. apply app_nil_r. Qed.

Section write.
Context (s0 : sfs_fs) (x0 : sfs_inode) (buf : list Z) (offset : Z).
Context (len : Z) (Hbuf : len <= Z.of_nat (length buf)) (Hoff : 0 <= offset) (Hend : offset + len <= SFS_MAX_FILE_SIZE).

Lemma max_pos p : 0 <= p < offset + len -> 0 <= p < MAXPOS /\ p / BLKSIZE < MAXB.
Proof. unfold MAXPOS. nums. rewrite EM. change SFS_MAX_FILE_SIZE with 134217728 in Hend. unfold BLKSIZE. intros. Z.to_euclidean_division_equations. lia. Qed.

(** The rest of a step, once block [i] is loaded: [size] bytes stored at [off]. *)
Lemma wrote_store t s s1 x1 s2 i off size : wrote s0 x0 buf offset t s -> loaded s s1 (xsin t) x1 ->
  dblocks (din x1) = Z.max (dblocks (din (xsin t))) (i + 1) -> 0 <= i -> 0 <= off -> 0 < size -> off + size <= BLKSIZE ->
  offset + alen t = i * BLKSIZE + off -> alen t + size <= len -> sfs_wf s1 ->
  eff s1 s2 (used s1) (at_ (bmap s1 (din x1) i) (splice (blk s1 (bmap s1 (din x1) i)) off (bytes_at buf (alen t) size)) (blk s1)) ->
  wrote s0 x0 buf offset (Xfer 0 (alen t + size) buf x1) s2.
Proof.
  intros [Wst Wf Wb Wsz Wal Wbl Wby] [Lst Lwf Lsz Lvw] Hd Hi Ho Hsz Hfit Hpos Hlen W1 E. assert (Hi1 : 0 <= i < dblocks (din x1)) by lia.
  destruct (store_step s1 s2 x1 Lwf i Hi1 _ E) as [Sst Swf]. destruct (store_b s1 x1 Lwf i Hi1) as [Hb Hub].
  pose proof (used_range _ _ Hub) as Hbr. set (b := bmap s1 (din x1) i) in *. pose proof (length_blk s1 W1 b Hbr) as Hl.
  split; [| |done|cbn; congruence|cbn; lia| |]; cbn [xsin alen].
  - eapply fstep_trans; [done|]. by eapply fstep_trans.
  - done.
  - rewrite Hd, Wbl. unfold BLKSIZE in *. Z.to_euclidean_division_equations. lia.
  - intros p Hp. rewrite (store_byte s1 s2 x1 Lwf i Hi1 _ E p Hp). destruct (pos_block p Hp) as [_ Hm].
    pose proof (Z.div_mod p BLKSIZE ltac:(done)) as Hdm. rewrite Lvw, Wby by done.
    assert (Hlb : length (bytes_at buf (alen t) size) = Z.to_nat size) by (apply length_bytes_at; lia).
    destruct (Z.eqb_spec (p / BLKSIZE) i) as [Ei|Hne].
    + rewrite lookup_splice by (rewrite Hlb, Hl; unfold BLKSIZE in *; lia). rewrite Hlb. case_decide as Hin.
      * rewrite lookup_bytes_at. rewrite decide_True by lia.
        destruct (Z.leb_spec offset p), (Z.ltb_spec p (offset + (alen t + size))); try (unfold BLKSIZE in *; lia). cbn [andb].
        f_equal. f_equal. unfold BLKSIZE in *. lia.
      * assert (Ef : default 0 (blk s1 b !! Z.to_nat (p mod BLKSIZE)) = fbyte s1 x1 p).
        { unfold fbyte. rewrite Ei. fold b. by destruct (Z.eqb_spec b 0). }
        rewrite Ef, Lvw, Wby by done.
        destruct (Z.leb_spec offset p), (Z.ltb_spec p (offset + alen t)), (Z.ltb_spec p (offset + (alen t + size))); (exfalso; unfold BLKSIZE in *; lia) || reflexivity.
    + destruct (Z.leb_spec offset p), (Z.ltb_spec p (offset + alen t)), (Z.ltb_spec p (offset + (alen t + size)));
        (exfalso; lia) || reflexivity || (exfalso; apply Hne; unfold BLKSIZE in *; Z.to_euclidean_division_equations; lia).
Qed.

(** [n] more bytes have been written, or the disk is full. *)
Definition advanced : Z -> xfer -> outcome (xfer * sfs_fs) -> Prop := moves (wrote s0 x0 buf offset) nearly_full.

Lemma wrote_pos t s : wrote s0 x0 buf offset t s -> offset + alen t <= dblocks (din (xsin t)) * BLKSIZE.
Proof. intros Wt. rewrite (wr_blocks _ _ _ _ _ _ Wt). unfold BLKSIZE. Z.to_euclidean_division_equations. lia. Qed.

(** A load that fails leaves what was written. *)
Lemma wrote_failed t s s1 x1 r : wrote s0 x0 buf offset t s -> loaded s s1 (xsin t) x1 -> dblocks (din x1) = dblocks (din (xsin t)) ->
  wrote s0 x0 buf offset (Xfer r (alen t) (xbuf t) x1) s1.
Proof.
  intros [Wst Wf Wb Wsz Wal Wbl Wby] [Lst Lwf Lsz Lvw] Hd. split; cbn; [by eapply fstep_trans|done|done|congruence|done|congruence|].
  intros p Hp. by rewrite Lvw, Wby.
Qed.

(** The load both kinds of step begin with. *)
Lemma write_load t s i off n : wrote s0 x0 buf offset t s -> io_free s -> 0 <= i -> 0 <= off -> 0 < n -> offset + alen t = i * BLKSIZE + off ->
  alen t + n <= len ->
  (exists s1 x1, sfs_bmap_load_nolock (xsin t) i s = Ok ((0, bmap s1 (din x1) i, x1), s1) /\ loaded s s1 (xsin t) x1 /\ io_free s1 /\
     dblocks (din x1) = Z.max (dblocks (din (xsin t))) (i + 1) /\ used s1 (bmap s1 (din x1) i) = true) \/
  (exists s1 x1, sfs_bmap_load_nolock (xsin t) i s = Ok ((- E_NO_MEM, 0, x1), s1) /\ nearly_full s1 /\
     forall r, wrote s0 x0 buf offset (Xfer r (alen t) (xbuf t) x1) s1).
Proof.
  intros Wt Hio Hi Ho Hn Hpos Hlen. pose proof (wrote_pos t s Wt) as Hp. pose proof (wr_alen _ _ _ _ _ _ Wt).
  destruct (max_pos (offset + alen t) ltac:(lia)) as [_ Hmax].
  assert (Hle : i <= dblocks (din (xsin t))) by (unfold BLKSIZE in *; lia).
  assert (Hib : i < MAXB) by (unfold BLKSIZE in *; Z.to_euclidean_division_equations; lia).
  destruct (load_spec s (xsin t) i (fs_wf _ _ _ _ (wr_step _ _ _ _ _ _ Wt)) Hio (wr_wf _ _ _ _ _ _ Wt) ltac:(lia) Hib)
    as [(s1 & x1 & E & L & Hd)|(s1 & x1 & E & L & Hd & Hd' & Hfull)]; [left|right]; exists s1, x1.
  - split_and!; [done|done|by eapply fstep_io; [apply L|]|done|]. by apply (store_b s1 x1 (lo_wf _ _ _ _ L) i ltac:(lia)).
  - split_and!; [done|done|]. intros r. eapply wrote_failed; [done|done|lia].
Qed.

Lemma write_piece t s i off n : wrote s0 x0 buf offset t s -> io_free s -> 0 <= i -> 0 <= off -> 0 < n -> off + n <= BLKSIZE -> offset + alen t = i * BLKSIZE + off ->
  alen t + n <= len -> advanced n t (io_piece true n i off t s).
Proof.
  intros Wt Hio Hi Ho Hn Hfit Hpos Hlen. unfold io_piece. pose proof (wr_alen _ _ _ _ _ _ Wt) as Hal.
  destruct (write_load t s i off n Wt Hio Hi Ho Hn Hpos Hlen) as [(s1 & x1 & E & L & Hio1 & Hd & Hu)|(s1 & x1 & E & Hfull & Hw)].
  - rewrite (bind_step _ _ _ _ _ E). cbv beta iota. change (negb (0 =? 0)) with false. cbv beta iota. rewrite (wr_buf _ _ _ _ _ _ Wt).
    pose proof (fs_wf _ _ _ _ (lo_step _ _ _ _ L)) as W1.
    destruct (wbuf_spec s1 W1 Hio1 _ off n (bytes_at buf (alen t) n) (used_range _ _ Hu)) as (s2 & E2 & Heff);
      [lia|lia|rewrite length_bytes_at; lia|]. unfold buf_op. rewrite bind_assoc_M. rewrite (bind_step _ _ _ _ _ E2).
    eexists _, s2. split; [done|]. split; [by eapply (wrote_store t s s1 x1 s2 i off)|]. left. done.
  - rewrite (bind_step _ _ _ _ _ E). cbv beta iota. eexists _, s1. split; [done|]. split; [done|]. right. cbn. split_and!; [done|lia|lia|done].
Qed.

Lemma write_blocks k : forall t s i, wrote s0 x0 buf offset t s -> ret t = 0 -> io_free s -> 0 <= i -> offset + alen t = i * BLKSIZE ->
  alen t + Z.of_nat k * BLKSIZE <= len -> advanced (Z.of_nat k * BLKSIZE) t (io_blocks true k i t s).
Proof.
  induction k as [|k IH]; intros t s i Wt Hr Hio Hi Hpos Hlen.
  { exists t, s. split_and!; [done|done|]. left. split; [done|lia]. }
  pose proof (wr_alen _ _ _ _ _ _ Wt) as Hal. cbn [io_blocks].
  destruct (write_load t s i 0 BLKSIZE Wt Hio Hi ltac:(done) ltac:(done) ltac:(lia) ltac:(unfold BLKSIZE in *; lia)) as [(s1 & x1 & E & L & Hio1 & Hd & Hu)|(s1 & x1 & E & Hfull & Hw)].
  - rewrite (bind_step _ _ _ _ _ E). cbv beta iota. change (negb (0 =? 0)) with false. cbv beta iota. rewrite (wr_buf _ _ _ _ _ _ Wt).
    pose proof (fs_wf _ _ _ _ (lo_step _ _ _ _ L)) as W1. set (b := bmap s1 (din x1) i) in *.
    assert (Hl : length (bytes_at buf (alen t) SFS_BLKSIZE) = Z.to_nat BLKSIZE) by (apply length_bytes_at; unfold SFS_BLKSIZE, BLKSIZE in *; lia).
    destruct (rw1_write s1 b _ W1 Hio1 (used_range _ _ Hu) Hl) as (s2 & buf' & E2 & Heff).
    unfold block_op. rewrite bind_assoc_M. rewrite (bind_step _ _ _ _ _ E2). cbv beta iota.
    match goal with |- context [(mret ?v ≫= ?f) ?st] => change ((mret v ≫= f) st) with (f v st) end. cbv beta iota. change (negb (0 =? 0)) with false. cbv beta iota.
    rewrite <- (splice_whole (blk s1 b) (bytes_at buf (alen t) SFS_BLKSIZE)) in Heff by (by rewrite Hl, (length_blk s1 W1 b (used_range _ _ Hu))).
    pose proof (wrote_store t s s1 x1 s2 i 0 BLKSIZE Wt L Hd Hi ltac:(done) ltac:(done) ltac:(done) ltac:(lia) ltac:(unfold BLKSIZE in *; lia) W1 Heff) as Wt2.
    destruct (IH (Xfer 0 (alen t + SFS_BLKSIZE) buf x1) s2 (i + 1)) as (t' & s' & E' & Wt' & Hres); [done|done|by eapply eff_io|lia|cbn; unfold SFS_BLKSIZE, BLKSIZE in *; lia|cbn; unfold SFS_BLKSIZE, BLKSIZE in *; lia|].
    exists t', s'. split_and!; [done|done|]. cbn in Hres. unfold SFS_BLKSIZE, BLKSIZE in *. destruct Hres as [[? ?]|(? & ? & ?)]; [left|right]; split_and!; done || lia.
  - rewrite (bind_step _ _ _ _ _ E). cbv beta iota. eexists _, s1. split; [done|]. split; [done|]. right. cbn. unfold BLKSIZE in *. split_and!; [done|lia|lia|done].
Qed.

Context (W0 : sfs_wf s0) (Hio0 : io_free s0) (Fw0 : file_wf s0 x0) (Hin : offset <= dblocks (din x0) * BLKSIZE).

Lemma wrote_start : wrote s0 x0 buf offset (Xfer 0 0 buf x0) s0.
Proof.
  split; cbn; [apply fstep_refl; [done|apply Fw0]|done|done|done|lia| |].
  - unfold BLKSIZE in *. Z.to_euclidean_division_equations. lia.
  - intros p Hp. by destruct (Z.leb_spec offset p), (Z.ltb_spec p (offset + 0)); try lia.
Qed.

Lemma write_body endpos : endpos = offset + len -> 0 < len -> advanced len (Xfer 0 0 buf x0) (io_body true offset endpos (Xfer 0 0 buf x0) s0).
Proof.
  intros -> Hl. assert (Hio : forall t s, wrote s0 x0 buf offset t s -> io_free s) by (intros t s Wt; by eapply fstep_io; [apply Wt|]).
  replace len with (offset + len - offset) at 1 by lia. apply io_body_spec; [| |apply wrote_start|done|done|lia].
  - intros t s i off n Wt Hr Hi Ho Hn Hf Hp Hb. apply write_piece; [done|by eapply Hio|done|done|done|done|done|lia].
  - intros k t s i Wt Hr Hi Hp Hb. apply write_blocks; [done|done|by eapply Hio|done|done|lia].
Qed.
End write.

Lemma io_out_spec offset t s : is_u 32 (offset + alen t) -> exists t', io_out offset t s = Ok (t', s) /\ ret t' = ret t /\ alen t' = alen t /\ xbuf t' = xbuf t /\
  size_slots (din (xsin t')) = Z.max (size_slots (din (xsin t))) (offset + alen t) /\ dblocks (din (xsin t')) = dblocks (din (xsin t)) /\ direct (din (xsin t')) = direct (din (xsin t)) /\
  indirect (din (xsin t')) = indirect (din (xsin t)) /\ db_indirect (din (xsin t')) = db_indirect (din (xsin t)) /\ same_id (xsin t) (xsin t').
Proof.
  intros Hu. unfold io_out. cbv zeta. rewrite (umod_small 32) by done. destruct (Z.ltb_spec (size_slots (din (xsin t))) (offset + alen t)).
  - eexists. split; [done|]. cbn. split_and!; try done. lia.
  - exists t. split_and!; try done. lia.
Qed.

Lemma fbyte_fields s x1 x2 : (forall c, val s (din x2) c = val s (din x1) c) -> forall p, fbyte s x2 p = fbyte s x1 p.
Proof. intros Hv p. unfold fbyte. by rewrite (Hv (CData _) : bmap s (din x2) _ = bmap s (din x1) _). Qed.

(** The whole of [sfs_io_nolock] for a write; the length is cut at the maximal size. *)
Lemma write_nolock_spec s x buf offset len0 : sfs_wf s -> io_free s -> file_wf s x -> type (din x) <> SFS_TYPE_DIR ->
  0 <= offset < SFS_MAX_FILE_SIZE -> offset <= dblocks (din x) * BLKSIZE -> 0 < len0 <= Z.of_nat (length buf) -> offset + len0 < 2 ^ 31 ->
  let len := Z.min len0 (SFS_MAX_FILE_SIZE - offset) in
  exists t s', sfs_io_nolock x buf offset len0 true s = Ok (t, s') /\ fstep s s' x (xsin t) /\ file_wf s' (xsin t) /\ xbuf t = buf /\
    size_slots (din (xsin t)) = Z.max (size_slots (din x)) (offset + alen t) /\
    (forall p, 0 <= p < MAXPOS -> fbyte s' (xsin t) p = if (offset <=? p) && (p <? offset + alen t) then default 0 (buf !! Z.to_nat (p - offset)) else fbyte s x p) /\
    (ret t = 0 /\ alen t = len \/ ret t = - E_NO_MEM /\ 0 <= alen t < len /\ nearly_full s').
Proof.
  intros W Hio Fw Ht Ho Hin Hl Hw len. unfold sfs_io_nolock. rewrite bind_kassert by (by destruct (Z.eqb_spec (type (din x)) SFS_TYPE_DIR)).
  rewrite (smod_small 32) by (done || (unfold is_s; lia)). cbv zeta.
  destruct (Z.ltb_spec offset 0), (Z.leb_spec SFS_MAX_FILE_SIZE offset), (Z.ltb_spec (offset + len0) offset); try lia. cbn [orb].
  destruct (Z.eqb_spec offset (offset + len0)); [lia|]. cbn [negb andb].
  set (endpos := if SFS_MAX_FILE_SIZE <? offset + len0 then SFS_MAX_FILE_SIZE else offset + len0).
  assert (He : endpos = offset + len) by (unfold endpos, len; destruct (Z.ltb_spec SFS_MAX_FILE_SIZE (offset + len0)); lia).
  destruct (write_body s x buf offset len ltac:(lia) ltac:(lia) ltac:(lia) W Hio Fw Hin endpos He ltac:(lia)) as (t & s' & E & Wt & Hres).
  rewrite (bind_step _ _ _ _ _ E). destruct Wt as [Wst Wf Wb Wsz Wal Wbl Wby].
  assert (Hal : 0 <= alen t <= len) by (cbn [alen] in Hres; lia).
  destruct (io_out_spec offset t s') as (t' & E' & Er & Ea & Eb & Es & Ed & E1 & E2 & E3 & Eid); [unfold is_u; lia|].
  destruct (fstep_fields s s' x (xsin t) (xsin t') Wst E1 E2 E3 Eid) as [Hst Hv]. exists t', s'. rewrite Er, Ea, Es, Wsz.
  split_and!; [done|done| |congruence|done| |by rewrite !Z.add_0_l in Hres].
  - destruct Wf as [_ [Hn Hf] Hs]. split; [apply Hst| |].
    + rewrite Ed. split; [done|]. intros i Hi. rewrite (Hv (CData i) : bmap s' (din (xsin t')) i = bmap s' (din (xsin t)) i). by apply Hf.
    + rewrite Es, Ed. rewrite Wbl. rewrite Wsz in *. unfold BLKSIZE in *. Z.to_euclidean_division_equations. lia.
  - intros p Hp. rewrite (fbyte_fields s' (xsin t) (xsin t') Hv). by apply Wby.
Qed.

(** ** Reading *)

(** [n] bytes of the file from [p] on. *)
Definition fbytes (s : sfs_fs) (x : sfs_inode) (p n : Z) : list Z := fbyte s x <$> seqZ p n.

Lemma length_fbytes s x p n : length (fbytes s x p n) = Z.to_nat n.
Proof. unfold fbytes. by rewrite length_fmap, length_seqZ. Qed.

Lemma fbytes_app s x p n m : 0 <= n -> 0 <= m -> fbytes s x p (n + m) = fbytes s x p n ++ fbytes s x (p + n) m.
Proof. intros. unfold fbytes. by rewrite seqZ_app, fmap_app. Qed.

Lemma fbytes_view s s' x x' p n : same_view s s' x x' -> 0 <= p -> p + n <= MAXPOS -> fbytes s' x' p n = fbytes s x p n.
Proof. intros Hv Hp Hn. apply list_fmap_ext. intros k q [-> Hk]%lookup_seqZ. apply Hv. lia. Qed.

Lemma blk_fbytes s x i off n : sfs_wf s -> file_wf s x -> 0 <= i < dblocks (din x) -> 0 <= off -> 0 <= n -> off + n <= BLKSIZE ->
  bytes_at (blk s (bmap s (din x) i)) off n = fbytes s x (i * BLKSIZE + off) n.
Proof.
  intros W Fw Hi Ho Hn Hfit. destruct (store_b s x Fw i Hi) as [Hb Hu]. pose proof (length_blk s W _ (used_range _ _ Hu)) as Hl.
  apply list_eq. intros k. rewrite lookup_bytes_at. unfold fbytes. rewrite list_lookup_fmap. case_decide as Hk.
  - rewrite (proj2 (lookup_seqZ _ _ _ _)) by (split; [done|lia]). cbn. unfold fbyte. assert (Ed : (i * BLKSIZE + off + Z.of_nat k) / BLKSIZE = i) by (unfold BLKSIZE in *; Z.to_euclidean_division_equations; lia).
    rewrite Ed. destruct (Z.eqb_spec (bmap s (din x) i) 0); [done|].
    replace (Z.to_nat ((i * BLKSIZE + off + Z.of_nat k) mod BLKSIZE)) with (Z.to_nat off + k)%nat by (unfold BLKSIZE in *; Z.to_euclidean_division_equations; lia).
    assert (Hlt : (Z.to_nat off + k < length (blk s (bmap s (din x) i)))%nat) by (rewrite Hl; unfold BLKSIZE in *; lia).
    apply lookup_lt_is_Some in Hlt as [v Ev]. by rewrite Ev.
  - rewrite lookup_ge_None_2; [done|]. rewrite length_seqZ. lia.
Qed.

Record fetched (s0 : sfs_fs) (x0 : sfs_inode) (buf : list Z) (offset : Z) (t : xfer) (s : sfs_fs) : Prop := {
  fe_steady : steady s0 s;
  fe_sin : xsin t = x0;
  fe_alen : 0 <= alen t;
  fe_buf : xbuf t = splice buf 0 (fbytes s0 x0 offset (alen t)) }.

Section read.
Context (s0 : sfs_fs) (x0 : sfs_inode) (buf : list Z) (offset len : Z) (W0 : sfs_wf s0) (Hio0 : io_free s0) (Fw0 : file_wf s0 x0).
Context (Hbuf : len <= Z.of_nat (length buf)) (Hoff : 0 <= offset) (Hend : offset + len <= size_slots (din x0)).

Lemma read_bound : offset + len <= MAXPOS.
Proof. pose proof (fw_size _ _ Fw0). pose proof (proj1 (fw_filled _ _ Fw0)). unfold MAXPOS, BLKSIZE in *. lia. Qed.

(** The state between the steps. *)
Lemma fetched_facts t s : fetched s0 x0 buf offset t s -> sfs_wf s /\ io_free s /\ file_wf s x0 /\ same_view s0 s x0 x0.
Proof.
  intros [St _ _ _]. destruct (steady_loaded s0 s x0 St Fw0) as [Hst Hwf _ Hv]. split_and!; [apply Hst|by eapply fstep_io|done|done].
Qed.

(** The block [i] is loaded: its bytes are the file's. *)
Lemma read_load t s i off n : fetched s0 x0 buf offset t s -> 0 <= i -> 0 <= off -> 0 < n -> off + n <= BLKSIZE -> offset + alen t = i * BLKSIZE + off -> alen t + n <= len ->
  let b := bmap s (din x0) i in
  exists s1, sfs_bmap_load_nolock (xsin t) i s = Ok ((0, b, x0), s1) /\ steady s0 s1 /\ sfs_wf s1 /\ io_free s1 /\ 0 < b < blocks (super s1) /\
    bytes_at (blk s1 b) off n = fbytes s0 x0 (offset + alen t) n.
Proof.
  intros Ft Hi Ho Hn Hfit Hpos Hlen b. destruct (fetched_facts t s Ft) as (W & Hio & Fw & Hv). pose proof (fe_alen _ _ _ _ _ _ Ft) as Hal. pose proof read_bound as Hrb.
  assert (Hib : 0 <= i < dblocks (din x0)) by (pose proof (fw_size _ _ Fw); unfold BLKSIZE in *; lia).
  destruct (load_present s W Hio x0 Fw i Hib) as (s1 & E & St). rewrite (fe_sin _ _ _ _ _ _ Ft). exists s1.
  assert (St1 : steady s0 s1) by (eapply steady_trans; [apply Ft|done]). destruct (store_b s x0 Fw i Hib) as [Hb Hu]. fold b in Hu.
  pose proof St as (W1 & [Eh Eb] & U & B). split; [done|]. split; [done|]. split_and!; [done|unfold io_free; by rewrite Eh| | |].
  - apply used_range in Hu. lia.
  - rewrite Eb. apply used_range in Hu. lia.
  - rewrite B by done. unfold b. rewrite (blk_fbytes s x0 i off n) by (done || lia). rewrite <- Hpos. apply fbytes_view; [done|lia|lia].
Qed.

Lemma fetched_next t s s1 s2 n : fetched s0 x0 buf offset t s -> steady s0 s1 -> eff s1 s2 (used s1) (blk s1) -> 0 < n -> alen t + n <= len ->
  fetched s0 x0 buf offset (Xfer 0 (alen t + n) (splice (xbuf t) (alen t) (fbytes s0 x0 (offset + alen t) n)) x0) s2.
Proof.
  intros [_ _ Ha Eb] St1 Heff Hn Hl. split; cbn; [eapply steady_trans; [done|by apply eff_steady]|done|lia|].
  rewrite Eb, fbytes_app by lia. pose proof (splice_app buf 0 (fbytes s0 x0 offset (alen t)) (fbytes s0 x0 (offset + alen t) n)) as Es.
  rewrite !length_fbytes in Es. rewrite Z2Nat.id, Z.add_0_l in Es by done. apply Es; lia.
Qed.

Let moves' := moves (fetched s0 x0 buf offset) (fun _ => False).

Lemma read_piece t s i off n : fetched s0 x0 buf offset t s -> ret t = 0 -> 0 <= i -> 0 <= off -> 0 < n -> off + n <= BLKSIZE -> offset + alen t = i * BLKSIZE + off ->
  alen t + n <= len -> moves' n t (io_piece false n i off t s).
Proof.
  intros Ft Hr Hi Ho Hn Hfit Hpos Hlen. destruct (read_load t s i off n Ft Hi Ho Hn Hfit Hpos Hlen) as (s1 & E & St & W1 & Hio1 & Hb & Ebytes).
  unfold io_piece. rewrite (bind_step _ _ _ _ _ E). cbv beta iota. change (negb (0 =? 0)) with false. cbv beta iota. set (b := bmap s (din x0) i) in *.
  destruct (rbuf_spec s1 W1 Hio1 b off n Hb ltac:(lia) Hfit) as (s2 & E2 & Heff). unfold buf_op. rewrite bind_assoc_M. rewrite (bind_step _ _ _ _ _ E2).
  eexists _, s2. split; [done|]. rewrite Z.eqb_refl, Ebytes. split; [by apply (fetched_next t s s1 s2)|]. by left.
Qed.

Lemma read_blocks k : forall t s i, fetched s0 x0 buf offset t s -> ret t = 0 -> 0 <= i -> offset + alen t = i * BLKSIZE ->
  alen t + Z.of_nat k * BLKSIZE <= len -> moves' (Z.of_nat k * BLKSIZE) t (io_blocks false k i t s).
Proof.
  induction k as [|k IH]; intros t s i Ft Hr Hi Hpos Hlen.
  { exists t, s. split_and!; [done|done|]. left. split; [done|lia]. }
  destruct (read_load t s i 0 BLKSIZE Ft Hi ltac:(done) ltac:(done) ltac:(done) ltac:(lia) ltac:(unfold BLKSIZE in *; lia)) as (s1 & E & St & W1 & Hio1 & Hb & Ebytes).
  cbn [io_blocks]. rewrite (bind_step _ _ _ _ _ E). cbv beta iota. change (negb (0 =? 0)) with false. cbv beta iota. set (b := bmap s (din x0) i) in *.
  pose proof (fe_alen _ _ _ _ _ _ Ft) as Hal. pose proof (fe_buf _ _ _ _ _ _ Ft) as Eb.
  assert (Hlb : length (xbuf t) = length buf) by (rewrite Eb; apply length_splice; rewrite length_fbytes; unfold BLKSIZE in *; lia).
  destruct (rw1_read s1 b (bytes_at (xbuf t) (alen t) SFS_BLKSIZE) W1 Hio1 Hb) as (s2 & E2 & Heff).
  { apply length_bytes_at. rewrite Hlb. unfold SFS_BLKSIZE, BLKSIZE in *. lia. }
  unfold block_op. rewrite bind_assoc_M. rewrite (bind_step _ _ _ _ _ E2). cbv beta iota.
  match goal with |- context [(mret ?v ≫= ?f) ?st] => change ((mret v ≫= f) st) with (f v st) end. cbv beta iota. change (negb (0 =? 0)) with false. cbv beta iota.
  assert (Ewhole : blk s1 b = fbytes s0 x0 (offset + alen t) BLKSIZE).
  { rewrite <- Ebytes. unfold bytes_at. cbn [Z.to_nat drop]. symmetry. apply take_ge. by rewrite (length_blk s1 W1 b Hb). }
  pose proof (fetched_next t s s1 s2 BLKSIZE Ft St Heff ltac:(done) ltac:(unfold BLKSIZE in *; lia)) as Ft2. rewrite <- Ewhole in Ft2.
  destruct (IH _ s2 (i + 1) Ft2 eq_refl ltac:(lia)) as (t' & s' & E' & Ft' & Hres); [cbn; unfold BLKSIZE in *; lia|cbn; unfold BLKSIZE in *; lia|].
  exists t', s'. split_and!; [done|done|]. cbn in Hres. unfold BLKSIZE in *. destruct Hres as [[? ?]|(? & ? & [])]. left. split; [done|lia].
Qed.

Lemma read_body endpos : endpos = offset + len -> 0 < len -> exists s', io_body false offset endpos (Xfer 0 0 buf x0) s0 = Ok (Xfer 0 len (splice buf 0 (fbytes s0 x0 offset len)) x0, s') /\ steady s0 s'.
Proof.
  intros -> Hl. destruct (io_body_spec false offset (offset + len) (fetched s0 x0 buf offset) (fun _ => False)) with (t := Xfer 0 0 buf x0) (s := s0) as (t & s' & E & [St Es Ha Eb] & Hres).
  - intros t s i off n Ft Hr Hi Ho Hn Hf Hp Hb. apply read_piece; [done|done|done|done|done|done|done|lia].
  - intros k t s i Ft Hr Hi Hp Hb. apply read_blocks; [done|done|done|done|lia].
  - split; cbn; [by apply steady_refl|done|done|]. by rewrite splice_nil.
  - done.
  - done.
  - lia.
  - exists s'. split; [|done]. rewrite E. destruct t as [r a b x']. cbn in *. destruct Hres as [[-> Ea]|(_ & _ & [])]. assert (a = len) as -> by lia. by rewrite Eb, Es.
Qed.
End read.

Lemma read_nolock_spec s x buf offset len : sfs_wf s -> io_free s -> file_wf s x -> type (din x) <> SFS_TYPE_DIR ->
  0 <= offset < SFS_MAX_FILE_SIZE -> 0 <= len <= Z.of_nat (length buf) -> offset + len < 2 ^ 31 ->
  let n := Z.max 0 (Z.min len (Z.min (size_slots (din x)) SFS_MAX_FILE_SIZE - offset)) in
  exists s', sfs_io_nolock x buf offset len false s = Ok (Xfer 0 n (splice buf 0 (fbytes s x offset n)) x, s') /\ steady s s'.
Proof.
  intros W Hio Fw Ht Ho Hl Hw n. unfold sfs_io_nolock. rewrite bind_kassert by (by destruct (Z.eqb_spec (type (din x)) SFS_TYPE_DIR)).
  rewrite (smod_small 32) by (done || (unfold is_s; lia)). cbv zeta.
  destruct (Z.ltb_spec offset 0), (Z.leb_spec SFS_MAX_FILE_SIZE offset), (Z.ltb_spec (offset + len) offset); try lia. cbn [orb].
  assert (Hnone : n = 0 -> exists s', (mret (Xfer 0 0 buf x) : M sfs_fs xfer) s = Ok (Xfer 0 n (splice buf 0 (fbytes s x offset n)) x, s') /\ steady s s').
  { intros ->. exists s. split; [|by apply steady_refl]. by rewrite splice_nil. }
  destruct (Z.eqb_spec offset (offset + len)); [apply Hnone; lia|]. cbn [negb andb].
  set (endpos := if SFS_MAX_FILE_SIZE <? offset + len then SFS_MAX_FILE_SIZE else offset + len).
  destruct (Z.leb_spec (size_slots (din x)) offset); [apply Hnone; lia|].
  set (endpos' := if size_slots (din x) <? endpos then size_slots (din x) else endpos).
  assert (He : endpos' = offset + n).
  { unfold endpos', endpos, n. destruct (Z.ltb_spec SFS_MAX_FILE_SIZE (offset + len)); case_match eqn:E; [apply Z.ltb_lt in E|apply Z.ltb_ge in E|apply Z.ltb_lt in E|apply Z.ltb_ge in E]; lia. }
  destruct (read_body s x buf offset n W Hio Fw ltac:(lia) ltac:(lia) ltac:(lia) endpos' He ltac:(lia)) as (s' & E & St).
  rewrite (bind_step _ _ _ _ _ E). exists s'. split; [|done]. unfold io_out. cbn [xsin alen xbuf ret]. rewrite (umod_small 32) by (unfold is_u; change SFS_MAX_FILE_SIZE with 134217728 in *; lia).
  destruct (Z.ltb_spec (size_slots (din x)) (offset + n)); [lia|done].
Qed.

(** ** Changing the length *)

(** The number of blocks of a file of [len] bytes. *)
Lemma roundup_div len : 0 <= len <= SFS_MAX_FILE_SIZE -> ROUNDUP_DIV len SFS_BLKSIZE = (len + BLKSIZE - 1) / BLKSIZE.
Proof. intros H. unfold ROUNDUP_DIV, SFS_BLKSIZE. change SFS_MAX_FILE_SIZE with 134217728 in H. rewrite (umod_small 32); [done|]. unfold is_u, BLKSIZE. lia. Qed.

(** The file has [n] blocks now; bytes of the blocks it kept are as before. *)
Record resized (s s' : sfs_fs) (x x' : sfs_inode) (n : Z) : Prop := {
  re_step : fstep s s' x x';
  re_filled : filled s' x' n /\ dblocks (din x') = n;
  re_size : size_slots (din x') = size_slots (din x);
  re_byte : forall p, 0 <= p < MAXPOS -> fbyte s' x' p = if p <? n * BLKSIZE then fbyte s x p else 0 }.

(** A file with its blocks counted, whatever the size recorded is. *)
Definition counted (s : sfs_fs) (x : sfs_inode) : Prop := sfs_wf s /\ io_free s /\ map_wf s x /\ filled s x (dblocks (din x)).

Lemma counted_hole s x p : filled s x (dblocks (din x)) -> 0 <= p < MAXPOS -> dblocks (din x) * BLKSIZE <= p -> fbyte s x p = 0.
Proof.
  intros Hf Hp Hd. unfold fbyte. destruct (pos_block p Hp) as [Hi _]. destruct (Z.eqb_spec (bmap s (din x) (p / BLKSIZE)) 0) as [|Hne]; [done|].
  apply filled_bmap in Hne; [|done|done]. unfold BLKSIZE in *. Z.to_euclidean_division_equations. lia.
Qed.

Lemma resized_refl s x : counted s x -> resized s s x x (dblocks (din x)).
Proof.
  intros (W & Hio & M & Hf). split; [by apply fstep_refl|done|done|]. intros p Hp. destruct (Z.ltb_spec p (dblocks (din x) * BLKSIZE)); [done|]. by apply counted_hole.
Qed.

Lemma resized_counted s s' x x' n : resized s s' x x' n -> counted s x -> counted s' x'.
Proof.
  intros [Hst [Hf Hd] _ _] (_ & Hio & _ & _). split_and!; [apply Hst|by eapply fstep_io|apply Hst|by rewrite Hd].
Qed.

Lemma drop_byte s s' x x' i p : map_wf s x -> drops s s' x x' i -> 0 <= p < MAXPOS -> 0 <= i < MAXB -> fbyte s' x' p = if p / BLKSIZE =? i then 0 else fbyte s x p.
Proof.
  intros M Hd Hp Hi. destruct (pos_block p Hp) as [Hk _]. unfold fbyte. rewrite (dr_val _ _ _ _ _ Hd (CData (p / BLKSIZE)) Hk : bmap s' (din x') _ = _).
  destruct (Z.eqb_spec (p / BLKSIZE) i) as [->|Hne]; [by rewrite decide_True|]. rewrite decide_False by congruence. cbn.
  destruct (Z.eqb_spec (bmap s (din x) (p / BLKSIZE)) 0) as [|Hz]; [done|]. rewrite (dr_keep _ _ _ _ _ Hd); [done| |by apply data_not_meta].
  by apply (mw_used _ _ M (CData _)).
Qed.

(** The last block of the file given back. *)
Lemma truncate_spec s x : counted s x -> 0 < dblocks (din x) ->
  exists s' x', sfs_bmap_truncate_nolock x s = Ok ((0, x'), s') /\ resized s s' x x' (dblocks (din x) - 1).
Proof.
  intros (W & Hio & M & [Hn Hf]) Hpos. set (i := dblocks (din x) - 1). unfold sfs_bmap_truncate_nolock.
  rewrite bind_kassert by (destruct (Z.eqb_spec (dblocks (din x)) 0); [lia|done]). fold i.
  destruct (free_block_spec s W Hio x M i ltac:(lia)) as (s' & x1 & E & Hd). rewrite (bind_step _ _ _ _ _ E). cbv beta iota.
  change (negb (0 =? 0)) with false. cbv beta iota. set (x' := set_dirty true _). exists s', x'. split; [done|].
  destruct (dr_inode _ _ _ _ _ Hd) as [(Hino & Hrm & Hsz & Hty & Hpa & Hnl) Hdb].
  destruct (fstep_fields s s' x x1 x' (drops_fstep _ _ _ _ _ Hd ltac:(lia)) eq_refl eq_refl eq_refl ltac:(done)) as [Hst Hv].
  split; [done| |done|].
  - split; [|cbn; lia]. split; [lia|]. intros k Hk. rewrite (Hv (CData k) : bmap s' (din x') k = bmap s' (din x1) k).
    rewrite (dr_val _ _ _ _ _ Hd (CData k) Hk : bmap s' (din x1) k = _). case_decide as Ek; [injection Ek as ->; lia|]. cbn. rewrite Hf by done.
    assert (k <> i) by congruence. lia.
  - intros p Hp. rewrite (fbyte_fields s' x1 x' Hv), (drop_byte s s' x x1 i p M Hd Hp ltac:(lia)).
    destruct (Z.eqb_spec (p / BLKSIZE) i), (Z.ltb_spec p (i * BLKSIZE)); try done; [unfold BLKSIZE in *; Z.to_euclidean_division_equations; lia|].
    apply counted_hole; [done|done|]. unfold BLKSIZE in *. Z.to_euclidean_division_equations. lia.
Qed.

Lemma resized_trans s s1 s2 x x1 x2 n m : resized s s1 x x1 n -> resized s1 s2 x1 x2 m -> m <= n -> resized s s2 x x2 m.
Proof.
  intros [S1 [F1 D1] Z1 B1] [S2 [F2 D2] Z2 B2] Hle. split; [by eapply fstep_trans|done|congruence|]. intros p Hp. rewrite B2, B1 by done.
  destruct (Z.ltb_spec p (m * BLKSIZE)), (Z.ltb_spec p (n * BLKSIZE)); done || (unfold BLKSIZE in *; lia).
Qed.

Lemma shrink_spec k : forall s x, counted s x -> Z.of_nat k <= dblocks (din x) ->
  exists s' x', shrink_loop k x s = Ok ((0, x'), s') /\ resized s s' x x' (dblocks (din x) - Z.of_nat k).
Proof.
  induction k as [|k IH]; intros s x Hc Hk.
  { exists s, x. split; [done|]. replace (dblocks (din x) - Z.of_nat 0) with (dblocks (din x)) by lia. by apply resized_refl. }
  destruct (truncate_spec s x Hc ltac:(lia)) as (s1 & x1 & E & R). cbn [shrink_loop]. rewrite (bind_step _ _ _ _ _ E). cbv beta iota.
  change (negb (0 =? 0)) with false. cbv beta iota. pose proof (proj2 (re_filled _ _ _ _ _ R)) as Hd.
  destruct (IH s1 x1 (resized_counted _ _ _ _ _ R Hc) ltac:(lia)) as (s2 & x2 & E2 & R2). exists s2, x2. split; [done|].
  replace (dblocks (din x) - Z.of_nat (S k)) with (dblocks (din x1) - Z.of_nat k) by lia. eapply resized_trans; [done|done|lia].
Qed.

(** Blocks appended: the bytes are as before, 0 where there was no block. *)
Lemma grow_spec k : forall s x, sfs_wf s -> io_free s -> file_wf s x -> dblocks (din x) + Z.of_nat k <= MAXB ->
  exists r s' x', grow_loop k (dblocks (din x)) x s = Ok ((r, x'), s') /\ loaded s s' x x' /\
    (r = 0 /\ dblocks (din x') = dblocks (din x) + Z.of_nat k \/ r = - E_NO_MEM /\ dblocks (din x) <= dblocks (din x') < dblocks (din x) + Z.of_nat k /\ nearly_full s').
Proof.
  induction k as [|k IH]; intros s x W Hio Fw Hk.
  { exists 0, s, x. split; [done|]. split; [apply steady_loaded; [by apply steady_refl|done]|]. left. split; [done|lia]. }
  cbn [grow_loop]. pose proof (proj1 (fw_filled _ _ Fw)) as Hn.
  destruct (load_append s W Hio x Fw _ eq_refl ltac:(lia)) as [(s1 & x1 & E & L & Hd)|(s1 & x1 & E & L & Hd & Hfull)].
  - rewrite (bind_step _ _ _ _ _ E). cbv beta iota. change (negb (0 =? 0)) with false. cbv beta iota. rewrite <- Hd.
    pose proof L as [Lst Lwf Lsz Lvw].
    destruct (IH s1 x1 (fs_wf _ _ _ _ Lst) (fstep_io _ _ _ _ Lst Hio) Lwf ltac:(lia)) as (r & s2 & x2 & E2 & [S2 F2 Z2 V2] & Hres).
    exists r, s2, x2. split; [done|]. split.
    + split; [by eapply fstep_trans|done|congruence|]. intros p Hp. by rewrite V2, Lvw.
    + destruct Hres as [[? ?]|(? & ? & ?)]; [left|right]; split_and!; done || lia.
  - rewrite (bind_step _ _ _ _ _ E). cbv beta iota. exists (- E_NO_MEM), s1, x1. split; [done|]. split; [done|]. right. split_and!; [done|lia|lia|done].
Qed.
