(* ===== verification/SfsOps.v ===== *)
(** * SfsOps: reading, writing and truncating files

    The operations of the inode, with its lock, refine operations on an array of
    bytes with a size. *)

From stdpp Require Import numbers list.
From S2P Require Import Prelude Bitmap Disk Sfs SfsProof SfsMap SfsFree SfsFile.
Local Open Scope Z_scope.

(** ** The specification *)

(** A file is its size and a byte for every position. *)
Record bytes_file := BytesFile { bf_size : Z; bf_byte : Z -> Z }.

Definition bf_write (a : bytes_file) (offset : Z) (d : list Z) : bytes_file :=
  BytesFile (Z.max (bf_size a) (offset + Z.of_nat (length d)))
    (fun p => if (offset <=? p) && (p <? offset + Z.of_nat (length d)) then default 0 (d !! Z.to_nat (p - offset)) else bf_byte a p).
Definition bf_read (a : bytes_file) (offset n : Z) : list Z := bf_byte a <$> seqZ offset n.
(** Bytes past the last block are zeros afterwards; those of the last block stay. *)
Definition bf_trunc (a : bytes_file) (len : Z) : bytes_file :=
  BytesFile len (fun p => if p <? (len + BLKSIZE - 1) / BLKSIZE * BLKSIZE then bf_byte a p else 0).

(** The inode [x] in the file system [s] is the file [a]. *)
Record is_file (s : sfs_fs) (x : sfs_inode) (a : bytes_file) : Prop := {
  if_wf : file_wf s x;
  if_size : size_slots (din x) = bf_size a;
  if_byte : forall p, 0 <= p < MAXPOS -> fbyte s x p = bf_byte a p }.

(** Neither the device's semaphore nor the inode's is taken, and the inode is live. *)
Record ready (s : sfs_fs) (x : sfs_inode) : Prop := {
  rd_wf : sfs_wf s;
  rd_io : io_free s;
  rd_sin : SinSem (ino x) ∉ held s;
  rd_live : removed x = false;
  rd_type : type (din x) <> SFS_TYPE_DIR }.

(** What an operation on [x] may do to the rest: the blocks of other files, in use
    before, are the other blocks in use afterwards, with the same contents. *)
Record isolated (s s' : sfs_fs) (x x' : sfs_inode) : Prop := {
  is_ready : ready s' x';
  is_foreign : forall b, foreign s' x' b <-> foreign s x b;
  is_keep : forall b, foreign s x b -> blk s' b = blk s b }.

(** ** Locking *)

Section lock.
Context (s : sfs_fs) (x : sfs_inode) (R : ready s x).

Definition locked : sfs_fs := with_held (SinSem (ino x) :: held s) s.

Lemma lock_spec : trylock_sin x s = Ok (0, locked).
Proof. unfold trylock_sin. rewrite (rd_live _ _ R). cbn [negb]. rewrite (bind_step _ _ s tt locked); [done|]. unfold acquire. by rewrite bool_decide_eq_false_2 by apply R. Qed.

Lemma locked_wf : sfs_wf locked.
Proof. apply wf_held, R. Qed.

Lemma locked_io : io_free locked.
Proof. unfold io_free, locked. cbn. rewrite elem_of_cons. intros [|Hin]; [done|]. by apply (rd_io _ _ R). Qed.

Lemma locked_file : file_wf s x -> file_wf locked x.
Proof. by apply same_file_wf. Qed.

(** Letting go of the lock puts the semaphores back as they were. *)
Lemma unlock_spec s' x' : same_fs locked s' -> ino x' = ino x -> release (SinSem (ino x')) s' = Ok (tt, with_held (held s) s').
Proof.
  intros [Eh _] ->. unfold release, modify. do 2 f_equal. f_equal. rewrite Eh. cbn. rewrite decide_False by (intros H; by apply H).
  apply filter_ne_notin, R.
Qed.

Lemma unlock_isolated s' x' : fstep locked s' x x' -> isolated s (with_held (held s) s') x x'.
Proof.
  intros [W' [Eh Eb] M' (Ei & Er & Et & _) Fo K]. split.
  - split; [by apply wf_held|apply R|cbn; rewrite Ei; apply R|rewrite Er; apply R|rewrite Et; apply R].
  - intros b. rewrite (same_foreign s' (with_held (held s) s')) by done. rewrite Fo. by apply same_foreign.
  - intros b Hb. rewrite (same_blk s' (with_held (held s) s')) by done. rewrite K by (by apply (same_foreign s locked)). by apply same_blk.
Qed.
End lock.

Lemma same_is_file s s' x a : super s' = super s -> freemap s' = freemap s -> dev s' = dev s -> is_file s x a -> is_file s' x a.
Proof.
  intros Es Ef Ed [Fw Esz Eb]. split; [by eapply same_file_wf|done|]. intros p Hp. rewrite (same_fbyte s s') by done. by apply Eb.
Qed.

Lemma with_held_file h s x a : is_file (with_held h s) x a <-> is_file s x a.
Proof. split; by apply same_is_file. Qed.

(** ** Refinement *)

(** A buffer in its memory; its offset is the position in the file. *)
Record buf_ok (iob : iobuf) : Prop := {
  bo_base : 0 <= io_base iob;
  bo_resid : 0 <= io_resid iob /\ io_base iob + io_resid iob <= Z.of_nat (length (io_mem iob));
  bo_offset : 0 <= io_offset iob < SFS_MAX_FILE_SIZE /\ io_offset iob + io_resid iob < 2 ^ 31 }.

(** The buffer after [n] bytes, with the memory [mem]. *)
Definition moved (iob : iobuf) (mem : list Z) (n : Z) : iobuf :=
  Iobuf mem (io_base iob + n) (io_offset iob + n) (io_len iob) (io_resid iob - n).

Lemma skip_moved iob mem n : buf_ok iob -> 0 <= n <= io_resid iob ->
  forall s : sfs_fs, (if negb (n =? 0) then lift_out (iobuf_skip (set_mem iob mem) n) else mret (set_mem iob mem)) s =
    Ok (moved iob (take (Z.to_nat (io_base iob)) (io_mem iob) ++ mem) n, s).
Proof.
  intros [Hb Hr [Ho Hw]] Hn s. change SFS_MAX_FILE_SIZE with 134217728 in Ho. destruct (Z.eqb_spec n 0) as [->|Hne]; cbn [negb].
  - unfold set_mem, moved, mret, M_ret. by rewrite !Z.add_0_r, Z.sub_0_r.
  - unfold iobuf_skip, set_mem, moved, lift_out. cbn [io_resid io_mem io_base io_offset io_len]. destruct (Z.leb_spec n (io_resid iob)); [|lia].
    rewrite (smod_small 32) by (done || (unfold is_s; lia)). done.
Qed.

Section ops.
Context (s : sfs_fs) (x : sfs_inode) (a : bytes_file) (R : ready s x) (A : is_file s x a) (iob : iobuf) (B : buf_ok iob).
Let offset := io_offset iob.
Let data := drop (Z.to_nat (io_base iob)) (io_mem iob).

Lemma length_data : io_resid iob <= Z.of_nat (length data).
Proof. unfold data. rewrite length_drop. pose proof (bo_resid _ B). pose proof (bo_base _ B). lia. Qed.

Lemma locked_byte p : 0 <= p < MAXPOS -> fbyte (locked s x) x p = bf_byte a p.
Proof. intros Hp. rewrite (same_fbyte s (locked s x)) by done. by apply (if_byte _ _ _ A). Qed.

Lemma sfs_write_spec : offset <= dblocks (din x) * BLKSIZE -> 0 < io_resid iob ->
  let len := Z.min (io_resid iob) (SFS_MAX_FILE_SIZE - offset) in
  exists r n x' s', sfs_write x iob s = Ok ((r, moved iob (io_mem iob) n, x'), s') /\ isolated s s' x x' /\
    is_file s' x' (bf_write a offset (bytes_at (io_mem iob) (io_base iob) n)) /\
    (r = 0 /\ n = len \/ r = - E_NO_MEM /\ 0 <= n < len /\ nearly_full s').
Proof.
  intros Hin Hl len. pose proof A as [Fw Es _]. pose proof B as [Hbase Hres0 [Ho Hw]]. fold offset in Ho, Hw. pose proof length_data as Hdl.
  unfold sfs_write, sfs_io. rewrite (bind_step _ _ _ _ _ (lock_spec s x R)). change (negb (0 =? 0)) with false. cbv beta iota. fold data offset.
  destruct (write_nolock_spec (locked s x) x data offset (io_resid iob) (locked_wf s x R) (locked_io s x R) (locked_file s x Fw) (rd_type _ _ R) Ho Hin ltac:(lia) Hw)
    as (t & s' & E & Hst & Fw' & Ebuf & Hsz & Hby & Hres). rewrite (bind_step _ _ _ _ _ E). fold len in Hres. assert (Ha : 0 <= alen t <= io_resid iob) by lia.
  rewrite Ebuf. cbv zeta. rewrite (bind_step _ _ _ _ _ (skip_moved iob data (alen t) B Ha s')). unfold data at 1. rewrite take_drop.
  assert (Hno : ino (xsin t) = ino x) by apply (fs_id _ _ _ _ Hst).
  pose proof (unlock_spec s x R s' (xsin t) (fs_fs _ _ _ _ Hst) Hno) as Hun. rewrite Hno in Hun. rewrite (bind_step _ _ _ _ _ Hun).
  exists (ret t), (alen t), (xsin t), (with_held (held s) s'). split; [done|]. split; [by apply unlock_isolated|]. split; [|done].
  assert (Hlb : Z.of_nat (length (bytes_at (io_mem iob) (io_base iob) (alen t))) = alen t) by (rewrite length_bytes_at; lia).
  apply with_held_file. split; [done|cbn; rewrite Hlb; congruence|]. intros p Hp. rewrite Hby by done. cbn. rewrite Hlb.
  destruct (Z.leb_spec offset p), (Z.ltb_spec p (offset + alen t)); cbn [andb]; try (by apply locked_byte).
  rewrite lookup_bytes_at. rewrite decide_True by lia. unfold data. by rewrite lookup_drop.
Qed.

Lemma sfs_read_spec : bf_size a <= SFS_MAX_FILE_SIZE ->
  let n := Z.max 0 (Z.min (io_resid iob) (bf_size a - offset)) in
  exists s', sfs_read x iob s = Ok ((0, moved iob (splice (io_mem iob) (io_base iob) (bf_read a offset n)) n, x), s') /\ isolated s s' x x /\ is_file s' x a.
Proof.
  intros Hmax n. pose proof A as [Fw Es _]. pose proof B as [Hbase Hres0 [Ho Hw]]. fold offset in Ho, Hw. pose proof length_data as Hdl.
  unfold sfs_read, sfs_io. rewrite (bind_step _ _ _ _ _ (lock_spec s x R)). change (negb (0 =? 0)) with false. cbv beta iota. fold data offset.
  destruct (read_nolock_spec (locked s x) x data offset (io_resid iob) (locked_wf s x R) (locked_io s x R) (locked_file s x Fw) (rd_type _ _ R) Ho ltac:(lia) Hw)
    as (s' & E & St). rewrite Es in E. replace (Z.max 0 (Z.min (io_resid iob) (Z.min (bf_size a) SFS_MAX_FILE_SIZE - offset))) with n in E by lia.
  assert (Er : fbytes (locked s x) x offset n = bf_read a offset n).
  { apply list_fmap_ext. intros k q [-> Hk]%lookup_seqZ. apply locked_byte. unfold MAXPOS. nums. rewrite EM. change SFS_MAX_FILE_SIZE with 134217728 in Ho. unfold BLKSIZE. lia. }
  rewrite Er in E. destruct (steady_loaded _ _ _ St (locked_file s x Fw)) as [Hst Fw' _ Hv]. rewrite (bind_step _ _ _ _ _ E). cbn [alen xbuf xsin ret]. cbv zeta.
  rewrite (bind_step _ _ _ _ _ (skip_moved iob _ n B ltac:(lia) s')). rewrite (bind_step _ _ _ _ _ (unlock_spec s x R s' x (fs_fs _ _ _ _ Hst) eq_refl)).
  exists (with_held (held s) s'). split.
  - unfold mret, M_ret. do 5 f_equal. unfold splice at 1. cbn [Z.to_nat take app]. unfold data, splice. by rewrite drop_drop.
  - split; [by apply unlock_isolated|]. apply with_held_file. split; [done|done|]. intros p Hp. rewrite Hv by done. by apply locked_byte.
Qed.
End ops.

Section truncated.
Context (s : sfs_fs) (x : sfs_inode) (a : bytes_file) (R : ready s x) (A : is_file s x a).

(** The inode after the loops of [sfs_truncfile] that reached [n] blocks. *)
Lemma truncated s' x1 len : resized s s' x x1 ((len + BLKSIZE - 1) / BLKSIZE) -> 0 <= len ->
  let x' := set_dirty true (set_din (din_size len (din x1)) x1) in fstep s s' x x' /\ is_file s' x' (bf_trunc a len).
Proof.
  intros [Hst [Hf Hd] Hsz Hby] Hl x'. destruct (fstep_fields s s' x x1 x' Hst eq_refl eq_refl eq_refl ltac:(done)) as [Hst' Hv]. split; [done|].
  split; [|done|].
  - split; [apply Hst'| |cbn; rewrite Hd; unfold BLKSIZE in *; Z.to_euclidean_division_equations; lia]. cbn. rewrite Hd. destruct Hf as [Hn Hf]. split; [done|].
    intros i Hi. rewrite (Hv (CData i) : bmap s' (din x') i = bmap s' (din x1) i). by apply Hf.
  - intros p Hp. rewrite (fbyte_fields s' x1 x' Hv), Hby by done. cbn. case_match; [by apply (if_byte _ _ _ A)|done].
Qed.
End truncated.

Lemma is_file_counted s x a : sfs_wf s -> io_free s -> is_file s x a -> counted s x.
Proof. intros W Hio [[M Hf _] _ _]. by split_and!. Qed.

Lemma loaded_resized s s' x x' : loaded s s' x x' -> file_wf s x -> dblocks (din x) <= dblocks (din x') -> resized s s' x x' (dblocks (din x')).
Proof.
  intros [Hst Fw' Hsz Hv] Fw Hd. split; [done|split; [apply Fw'|done]|done|]. intros p Hp. rewrite Hv by done.
  destruct (Z.ltb_spec p (dblocks (din x') * BLKSIZE)); [done|]. apply counted_hole; [apply Fw|done|]. unfold BLKSIZE in *. lia.
Qed.

(** The loops of [sfs_truncfile]. *)
Lemma trunc_loops s x a tblks : sfs_wf s -> io_free s -> is_file s x a -> 0 <= tblks <= MAXB ->
  let nblks := dblocks (din x) in
  exists r s' x1, (if nblks <? tblks then grow_loop (Z.to_nat (tblks - nblks)) nblks x
                   else if tblks <? nblks then shrink_loop (Z.to_nat (nblks - tblks)) x
                   else mret (0, x)) s = Ok ((r, x1), s') /\
    (r = 0 /\ resized s s' x x1 tblks \/ r = - E_NO_MEM /\ fstep s s' x x1 /\ is_file s' x1 a /\ nearly_full s').
Proof.
  intros W Hio A Ht nblks. pose proof A as [Fw Es Eb]. pose proof (is_file_counted s x a W Hio A) as Hc. pose proof (proj1 (fw_filled _ _ Fw)) as Hn.
  destruct (Z.ltb_spec nblks tblks); [|destruct (Z.ltb_spec tblks nblks)].
  - destruct (grow_spec (Z.to_nat (tblks - nblks)) s x W Hio Fw ltac:(lia)) as (r & s' & x' & E & L & Hres). exists r, s', x'. split; [done|].
    destruct Hres as [[-> Hd]|(-> & Hd & Hfull)]; [left|right].
    + split; [done|]. replace tblks with (dblocks (din x')) by lia. apply loaded_resized; [done|done|lia].
    + destruct L as [Hst Fw' Hsz Hv]. split; [done|]. split; [done|]. split; [|done]. split; [done|congruence|]. intros p Hp. rewrite Hv by done. by apply Eb.
  - destruct (shrink_spec (Z.to_nat (nblks - tblks)) s x Hc ltac:(lia)) as (s' & x' & E & Rz). exists 0, s', x'. split; [done|]. left. split; [done|].
    by replace tblks with (dblocks (din x) - Z.of_nat (Z.to_nat (nblks - tblks))) by lia.
  - exists 0, s, x. split; [done|]. left. split; [done|]. replace tblks with (dblocks (din x)) by lia. by apply resized_refl.
Qed.

Section trunc.
Context (s : sfs_fs) (x : sfs_inode) (a : bytes_file) (R : ready s x) (A : is_file s x a) (len : Z) (Hl : 0 <= len <= SFS_MAX_FILE_SIZE).
Let tblks : Z := (len + BLKSIZE - 1) / BLKSIZE.

Lemma trunc_enter : sfs_truncfile x len s =
  (if size_slots (din x) =? len then _ ← kassert (tblks =? dblocks (din x)); mret (0, x)
   else
     r ← trylock_sin x;
     if negb (r =? 0) then mret (r, x)
     else
       let nblks := dblocks (din x) in
       '(r, x) ← (if nblks <? tblks then grow_loop (Z.to_nat (tblks - nblks)) nblks x
                  else if tblks <? nblks then shrink_loop (Z.to_nat (nblks - tblks)) x
                  else mret (0, x));
       x ← (if negb (r =? 0) then mret x
            else _ ← kassert (dblocks (din x) =? tblks); mret (set_dirty true (set_din (din_size len (din x)) x)));
       _ ← release (SinSem (ino x));
       mret (r, x)) s.
Proof.
  unfold sfs_truncfile. destruct (Z.ltb_spec len 0), (Z.ltb_spec SFS_MAX_FILE_SIZE len); try lia. cbn [orb].
  rewrite bind_kassert by (by destruct (Z.eqb_spec (type (din x)) SFS_TYPE_DIR); [destruct (rd_type _ _ R)|]). rewrite roundup_div by done. done.
Qed.

Lemma trunc_blocks : 0 <= tblks <= MAXB.
Proof. unfold tblks. nums. rewrite EM. change SFS_MAX_FILE_SIZE with 134217728 in Hl. unfold BLKSIZE. Z.to_euclidean_division_equations. lia. Qed.

Lemma truncfile_spec : bf_size a <> len \/ dblocks (din x) = tblks ->
  exists r s' x', sfs_truncfile x len s = Ok ((r, x'), s') /\ isolated s s' x x' /\
    (r = 0 /\ is_file s' x' (bf_trunc a len) /\ dblocks (din x') = tblks \/ r = - E_NO_MEM /\ is_file s' x' a /\ nearly_full s').
Proof.
  intros Hne. rewrite trunc_enter. pose proof A as [Fw Es Eb]. destruct (Z.eqb_spec (size_slots (din x)) len) as [E0|Hn].
  - destruct Hne as [|Hd]; [congruence|]. rewrite bind_kassert by (by apply Z.eqb_eq). exists 0, s, x. split; [done|]. split; [by split|]. left.
    split_and!; [done| |done]. split; [done|done|]. intros p Hp. cbn. fold tblks. destruct (Z.ltb_spec p (tblks * BLKSIZE)); [by apply Eb|].
    rewrite <- Hd in *. apply counted_hole; [apply Fw|done|done].
  - rewrite (bind_step _ _ _ _ _ (lock_spec s x R)). change (negb (0 =? 0)) with false. cbv beta iota zeta.
    pose proof (proj2 (with_held_file (SinSem (ino x) :: held s) s x a) A) as Al. fold (locked s x) in Al.
    destruct (trunc_loops (locked s x) x a tblks (locked_wf s x R) (locked_io s x R) Al trunc_blocks) as (r & s1 & x1 & E & Hres).
    rewrite (bind_step _ _ _ _ _ E). cbv beta iota. destruct Hres as [[-> Rz]|(-> & Hst & Af & Hfull)].
    + cbn [Z.eqb negb]. destruct (truncated (locked s x) x a Al s1 x1 len Rz ltac:(lia)) as [Hst Af]. rewrite bind_assoc_M, bind_kassert by (apply Z.eqb_eq, Rz).
      set (x' := set_dirty true _) in *. rewrite (bind_step _ _ s1 x' s1) by done.
      rewrite (bind_step _ _ _ _ _ (unlock_spec s x R s1 x' (fs_fs _ _ _ _ Hst) (proj1 (fs_id _ _ _ _ Hst)))).
      exists 0, (with_held (held s) s1), x'. split; [done|]. split; [by apply unlock_isolated|]. left. split_and!; [done|by apply with_held_file|apply Rz].
    + cbn [Z.eqb negb]. rewrite (bind_step _ _ s1 x1 s1) by done.
      rewrite (bind_step _ _ _ _ _ (unlock_spec s x R s1 x1 (fs_fs _ _ _ _ Hst) (proj1 (fs_id _ _ _ _ Hst)))).
      exists (- E_NO_MEM), (with_held (held s) s1), x1. split; [done|]. split; [by apply unlock_isolated|]. right. split_and!; [done|by apply with_held_file|done].
Qed.
End trunc.

(** ** A small file system

    Eight blocks: 3 is the inode of a file of two bytes, 4 its block, and 5 to 7
    are free. *)

Definition demo_image : list Z := splice (replicate 32768 0) (4 * BLKSIZE) [104; 105].
Definition demo_dev : disk := Disk demo_image 64 8 false (replicate 16384 0).
Definition demo_fs : sfs_fs := Sfs (Super 0x2f8dbe2a 8 3 []) false (Bitmap 8 1 [0xE0]) demo_dev [].
Definition demo_din : sfs_disk_inode := Din 2 1 SFS_TYPE_FILE 1 1 (4 :: replicate 11 0) 0 0.
Definition demo_inode : sfs_inode := Sin demo_din 3 false false 0.
Definition demo_file : bytes_file := BytesFile 2 (fbyte demo_fs demo_inode).

Lemma demo_free b : 0 <= b -> is_free (Bitmap 8 1 [0xE0]) b = (5 <=? b) && (b <? 8).
Proof.
  intros Hb. destruct (decide (b < 32)) as [Hs|Hs].
  - assert (Hall : forallb (fun b => bool_decide (is_free (Bitmap 8 1 [0xE0]) b = (5 <=? b) && (b <? 8))) (seqZ 0 32) = true) by (vm_compute; reflexivity).
    rewrite forallb_forall in Hall. specialize (Hall b). rewrite bool_decide_eq_true in Hall. apply Hall, list_elem_of_In, elem_of_seqZ. lia.
  - unfold is_free, word. cbn [map_]. rewrite lookup_ge_None_2; [|simpl; unfold WORD_BITS; Z.to_euclidean_division_equations; lia].
    cbn [default from_option]. rewrite Z.testbit_0_l. destruct (Z.ltb_spec b 8); [lia|]. by rewrite andb_false_r.
Qed.

Lemma demo_wf : sfs_wf demo_fs.
Proof.
  split.
  - split; try (vm_compute; reflexivity). split; vm_compute; discriminate.
  - reflexivity.
  - split; [split; vm_compute; reflexivity|vm_compute; reflexivity..|by repeat constructor|].
    intros i Hi. cbn in Hi. rewrite demo_free by lia. destruct (Z.ltb_spec i 8); [lia|]. apply andb_false_r.
  - split; [|vm_compute; reflexivity]. split; [vm_compute; reflexivity|vm_compute; discriminate].
  - vm_compute. discriminate.
  - intros b Hb. cbn [freemap demo_fs]. rewrite demo_free by done. rewrite andb_true_iff, Z.leb_le, Z.ltb_lt. cbn. lia.
  - vm_compute. reflexivity.
Qed.

Lemma demo_val c : valid c -> val demo_fs demo_din c = if decide (c = CData 0) then 4 else 0.
Proof.
  destruct c as [i| | |k]; intros Hc; [|done|done|done]. cbn. unfold bmap. destruct (Z.ltb_spec i SFS_NDIRECT).
  - unfold nth_direct. cbn [direct demo_din]. cbn in Hc. destruct (decide (i = 0)) as [->|Hne]; [by rewrite decide_True|].
    rewrite decide_False by congruence. replace (Z.to_nat i) with (S (Z.to_nat (i - 1))) by lia.
    change ((4 :: replicate 11 0) !! S (Z.to_nat (i - 1))) with (replicate 11 0 !! Z.to_nat (i - 1)).
    rewrite lookup_replicate_2; [done|]. change SFS_NDIRECT with 12 in *. lia.
  - rewrite decide_False by (intros [= ->]; change SFS_NDIRECT with 12 in *; lia). by case_match.
Qed.

Lemma demo_is_file : is_file demo_fs demo_inode demo_file.
Proof.
  split; [|done|done]. split; [split|split|split].
  - reflexivity.
  - vm_compute. reflexivity.
  - intros c Hc. cbn [din demo_inode]. rewrite demo_val by done. case_decide; [|done]. intros _. split; [vm_compute; reflexivity|done].
  - intros c1 c2 H1 H2. cbn [din demo_inode]. rewrite !demo_val by done. repeat case_decide; by subst.
  - cbn. nums. lia.
  - intros i Hi. cbn [din demo_inode]. rewrite (demo_val (CData i) Hi : bmap demo_fs demo_din i = _). cbn. case_decide as E; [injection E as ->; lia|].
    split; [done|]. intros Hlt. destruct E. f_equal. lia.
  - cbn. lia.
  - cbn. unfold BLKSIZE. lia.
Qed.

Lemma demo_ready : ready demo_fs demo_inode.
Proof. split; [apply demo_wf| | |done|done]; unfold io_free; cbn; apply not_elem_of_nil. Qed.

(** ** Theorems *)

(** A buffer over the memory [mem], for position [pos] of a file. *)
Definition buf_at (mem : list Z) (pos : Z) : iobuf := iobuf_init mem 0 (Z.of_nat (length mem)) pos.

Lemma buf_at_ok mem pos : 0 <= pos < SFS_MAX_FILE_SIZE -> pos + Z.of_nat (length mem) < 2 ^ 31 -> buf_ok (buf_at mem pos).
Proof. intros Hp Hl. split; cbn; lia. Qed.

(** C5: [sfs_write] of at least one byte, for an offset that is not past the last block
    of the file (beyond it [sfs_bmap_load_nolock] fails its assertion): it returns, without a failed assertion; the file is the array with [n] bytes of
    the buffer written at the offset, and the buffer has moved by [n]; [n] is what
    was asked for, up to the maximal file size, unless every block but at most one
    is in use, when the result is [-E_NO_MEM]; the blocks of other files are
    neither changed nor taken, and no block is in use that belongs to no file. *)
Theorem sfs_write_refines s x a iob : ready s x -> is_file s x a -> buf_ok iob -> io_offset iob <= dblocks (din x) * BLKSIZE -> 0 < io_resid iob ->
  let len := Z.min (io_resid iob) (SFS_MAX_FILE_SIZE - io_offset iob) in
  exists r n x' s', sfs_write x iob s = Ok ((r, moved iob (io_mem iob) n, x'), s') /\ isolated s s' x x' /\
    is_file s' x' (bf_write a (io_offset iob) (bytes_at (io_mem iob) (io_base iob) n)) /\
    (r = 0 /\ n = len \/ r = - E_NO_MEM /\ 0 <= n < len /\ nearly_full s').
Proof. intros R A B. by apply sfs_write_spec. Qed.

Lemma sfs_write_refines_witness : exists r n x' s', sfs_write demo_inode (buf_at [1; 2; 3] 1) demo_fs = Ok ((r, moved (buf_at [1; 2; 3] 1) [1; 2; 3] n, x'), s') /\
  is_file s' x' (bf_write demo_file 1 (bytes_at [1; 2; 3] 0 n)).
Proof.
  destruct (sfs_write_refines demo_fs demo_inode demo_file (buf_at [1; 2; 3] 1) demo_ready demo_is_file) as (r & n & x' & s' & E & _ & A & _);
    [apply buf_at_ok; [split; [lia|vm_compute; reflexivity]|vm_compute; reflexivity]|vm_compute; discriminate|vm_compute; reflexivity|].
  exists r, n, x', s'. split; [exact E|exact A].
Defined.

(** C7: [sfs_read] copies the bytes of the file from the offset on, as many as were
    asked for or as there are, into the memory of the buffer, moves the buffer by
    as many, and changes no file. *)
Theorem sfs_read_refines s x a iob : ready s x -> is_file s x a -> buf_ok iob -> bf_size a <= SFS_MAX_FILE_SIZE ->
  let n := Z.max 0 (Z.min (io_resid iob) (bf_size a - io_offset iob)) in
  exists s', sfs_read x iob s = Ok ((0, moved iob (splice (io_mem iob) (io_base iob) (bf_read a (io_offset iob) n)) n, x), s') /\ isolated s s' x x /\ is_file s' x a.
Proof. intros R A B. by apply sfs_read_spec. Qed.

Lemma sfs_read_refines_witness : exists s', sfs_read demo_inode (buf_at [0; 0; 9] 0) demo_fs = Ok ((0, Iobuf [104; 105; 9] 2 2 3 1, demo_inode), s') /\ is_file s' demo_inode demo_file.
Proof.
  destruct (sfs_read_refines demo_fs demo_inode demo_file (buf_at [0; 0; 9] 0) demo_ready demo_is_file) as (s' & E & _ & A);
    [apply buf_at_ok; [split; [lia|vm_compute; reflexivity]|vm_compute; reflexivity]|vm_compute; discriminate|].
  exists s'. split; [|exact A]. rewrite E. reflexivity.
Defined.

(** C6: [sfs_truncfile] to a length of 0 up to the maximal file size, which differs from
    the file's or for which the file has the right number of blocks (a file with blocks
    past its end that is truncated to its own length fails an assertion), gives the file the new length and exactly the blocks it
    needs: blocks past the end are given back, new ones hold zeros; or it returns
    [-E_NO_MEM], every block but at most one in use, and the file is as before.
    Blocks of other files are not touched and none is lost. *)
Theorem sfs_truncfile_refines s x a len : ready s x -> is_file s x a -> 0 <= len <= SFS_MAX_FILE_SIZE ->
  bf_size a <> len \/ dblocks (din x) = (len + BLKSIZE - 1) / BLKSIZE ->
  exists r s' x', sfs_truncfile x len s = Ok ((r, x'), s') /\ isolated s s' x x' /\
    (r = 0 /\ is_file s' x' (bf_trunc a len) /\ dblocks (din x') = (len + BLKSIZE - 1) / BLKSIZE \/
     r = - E_NO_MEM /\ is_file s' x' a /\ nearly_full s').
Proof. intros R A Hl. by apply truncfile_spec. Qed.

Lemma sfs_truncfile_refines_witness : exists r s' x', sfs_truncfile demo_inode 9000 demo_fs = Ok ((r, x'), s') /\ isolated demo_fs s' demo_inode x' /\
    (r = 0 /\ is_file s' x' (bf_trunc demo_file 9000) /\ dblocks (din x') = 3 \/ r = - E_NO_MEM /\ is_file s' x' demo_file /\ nearly_full s').
Proof. apply (sfs_truncfile_refines demo_fs demo_inode demo_file 9000 demo_ready demo_is_file); [split; vm_compute; discriminate|left; vm_compute; discriminate]. Defined.

(** What [sfs_write] wrote, [sfs_read] reads back into any memory. *)
Theorem sfs_write_read s x a buf offset mem : ready s x -> is_file s x a -> 0 <= offset < SFS_MAX_FILE_SIZE -> offset <= dblocks (din x) * BLKSIZE ->
  0 < Z.of_nat (length buf) -> offset + Z.of_nat (length buf) <= SFS_MAX_FILE_SIZE -> bf_size a <= SFS_MAX_FILE_SIZE -> length mem = length buf ->
  exists r iob x' s', sfs_write x (buf_at buf offset) s = Ok ((r, iob, x'), s') /\
    (r = 0 -> exists iob' s'', sfs_read x' (buf_at mem offset) s' = Ok ((0, iob', x'), s'') /\ io_mem iob' = buf).
Proof.
  intros R A Ho Hin Hl Hm Hsz Hmem. assert (Hw : offset + Z.of_nat (length buf) < 2 ^ 31) by (change SFS_MAX_FILE_SIZE with 134217728 in Hm; lia).
  destruct (sfs_write_spec s x a R A (buf_at buf offset) (buf_at_ok _ _ Ho Hw) Hin Hl) as (r & n & x' & s' & E & I & A' & Hres). eexists r, _, x', s'. split; [exact E|]. intros Hr.
  cbn [io_mem io_base io_offset io_resid buf_at iobuf_init] in *. destruct Hres as [[_ Ha]|(Hr' & _)]; [|rewrite Hr in Hr'; done].
  assert (Hbuf : bytes_at buf 0 n = buf) by (unfold bytes_at; cbn [Z.to_nat drop]; apply take_ge; lia). rewrite Hbuf in A'.
  rewrite <- Hmem in Hw. destruct (sfs_read_spec s' x' _ (is_ready _ _ _ _ I) A' (buf_at mem offset) (buf_at_ok _ _ Ho Hw) ltac:(cbn; lia)) as (s'' & E' & _).
  eexists _, s''. split; [exact E'|]. cbn [io_mem io_base io_offset io_resid buf_at iobuf_init moved]. rewrite Z.max_r, Z.min_l by (cbn; lia).
  rewrite splice_whole by (unfold bf_read; rewrite length_fmap, length_seqZ; lia). rewrite Hmem.
  apply list_eq. intros k. unfold bf_read. rewrite list_lookup_fmap. destruct (decide (k < length buf)%nat) as [Hk|Hk].
  - rewrite (proj2 (lookup_seqZ _ _ _ _)) by (split; [done|lia]). cbn. destruct (Z.leb_spec offset (offset + Z.of_nat k)), (Z.ltb_spec (offset + Z.of_nat k) (offset + Z.of_nat (length buf))); try lia. cbn [andb].
    replace (Z.to_nat (offset + Z.of_nat k - offset)) with k by lia. apply lookup_lt_is_Some in Hk as [v Ev]. by rewrite Ev.
  - rewrite !lookup_ge_None_2; [done|lia|rewrite length_seqZ; lia].
Qed.

Lemma sfs_write_read_witness : exists r iob x' s', sfs_write demo_inode (buf_at [7; 8; 9] 1) demo_fs = Ok ((r, iob, x'), s') /\
    (r = 0 -> exists iob' s'', sfs_read x' (buf_at [0; 0; 0] 1) s' = Ok ((0, iob', x'), s'') /\ io_mem iob' = [7; 8; 9]).
Proof.
  apply (sfs_write_read demo_fs demo_inode demo_file [7; 8; 9] 1 [0; 0; 0] demo_ready demo_is_file);
    [split; [lia|vm_compute; reflexivity]|vm_compute; discriminate|vm_compute; reflexivity|vm_compute; discriminate|vm_compute; discriminate|reflexivity].
Defined.

(** ** Assertions that fail *)

Lemma load_fails x i s : dblocks (din x) < i -> sfs_bmap_load_nolock x i s = Err AssertFailed.
Proof. intros Hi. unfold sfs_bmap_load_nolock. apply bind_err. unfold kassert. by destruct (Z.leb_spec i (dblocks (din x))); [lia|]. Qed.

Lemma body_fails write offset endpos x buf s : dblocks (din x) < offset / BLKSIZE -> 0 <= offset < endpos ->
  io_body write offset endpos (Xfer 0 0 buf x) s = Err AssertFailed.
Proof.
  intros Hd Ho. assert (Hpiece : forall n i off, offset / BLKSIZE <= i -> io_piece write n i off (Xfer 0 0 buf x) s = Err AssertFailed).
  { intros n i off Hi. unfold io_piece. apply bind_err, load_fails. cbn. lia. }
  pose proof (Z.div_le_mono offset endpos BLKSIZE ltac:(done) ltac:(lia)) as Hle. unfold io_body, SFS_BLKSIZE. cbv zeta.
  destruct (Z.eqb_spec (offset mod BLKSIZE) 0) as [E0|Hne]; cbn [negb andb]; [|by apply bind_err, Hpiece].
  rewrite (bind_step _ _ s (Xfer 0 0 buf x) s) by done. cbn [ret Z.eqb negb orb].
  destruct (Z.to_nat (endpos / BLKSIZE - offset / BLKSIZE)) as [|n] eqn:En.
  - cbn [io_blocks]. rewrite (bind_step _ _ s (Xfer 0 0 buf x) s) by done. cbn [ret Z.eqb negb].
    destruct (Z.eqb_spec (endpos mod BLKSIZE) 0); cbn [negb]; [unfold BLKSIZE in *; Z.to_euclidean_division_equations; lia|]. apply Hpiece. lia.
  - cbn [io_blocks]. apply bind_err, bind_err, load_fails. cbn. lia.
Qed.

(** A write at an offset whose block is past the end of the file fails the
    assertion of [sfs_bmap_load_nolock]: the kernel panics.  The offset of an open
    file gets there when the file is truncated through another descriptor. *)
Theorem sfs_write_past_blocks_panics s x iob : ready s x -> buf_ok iob -> dblocks (din x) < io_offset iob / BLKSIZE -> 0 < io_resid iob ->
  sfs_write x iob s = Err AssertFailed.
Proof.
  intros R [_ _ [Ho Hw]] Hin Hl. unfold sfs_write, sfs_io. rewrite (bind_step _ _ _ _ _ (lock_spec s x R)). change (negb (0 =? 0)) with false. cbv beta iota.
  apply bind_err. unfold sfs_io_nolock. rewrite bind_kassert by (by destruct (Z.eqb_spec (type (din x)) SFS_TYPE_DIR); [destruct (rd_type _ _ R)|]).
  rewrite (smod_small 32) by (done || (unfold is_s; lia)). cbv zeta. set (offset := io_offset iob) in *.
  destruct (Z.ltb_spec offset 0), (Z.leb_spec SFS_MAX_FILE_SIZE offset), (Z.ltb_spec (offset + io_resid iob) offset); try lia. cbn [orb].
  destruct (Z.eqb_spec offset (offset + io_resid iob)); [lia|]. cbn [negb andb]. apply bind_err, body_fails; [done|].
  destruct (Z.ltb_spec SFS_MAX_FILE_SIZE (offset + io_resid iob)); lia.
Qed.

Lemma sfs_write_past_blocks_panics_witness : sfs_write demo_inode (buf_at [1] 8192) demo_fs = Err AssertFailed.
Proof.
  apply (sfs_write_past_blocks_panics demo_fs demo_inode (buf_at [1] 8192) demo_ready);
    [apply buf_at_ok; [split; [lia|vm_compute; reflexivity]|vm_compute; reflexivity]|vm_compute; reflexivity..].
Defined.

(** After a growth that failed for want of blocks but added some, cutting the
    file to the size it has (as an open with [O_TRUNC] does for an empty file)
    fails the assertion [tblks == din->blocks] of [sfs_truncfile]. *)
Theorem sfs_truncfile_after_failure_panics s x a len s' x' : ready s x -> is_file s x a -> 0 <= len <= SFS_MAX_FILE_SIZE -> bf_size a <= SFS_MAX_FILE_SIZE ->
  bf_size a <> len -> dblocks (din x) = (bf_size a + BLKSIZE - 1) / BLKSIZE -> dblocks (din x') <> dblocks (din x) ->
  sfs_truncfile x len s = Ok ((- E_NO_MEM, x'), s') -> sfs_truncfile x' (bf_size a) s' = Err AssertFailed.
Proof.
  intros R A Hl Hsz Hne Hd Hd' E. destruct (truncfile_spec s x a R A len Hl (or_introl Hne)) as (r & s1 & x1 & E1 & I & Hres).
  rewrite E in E1. injection E1 as <- <- <-. destruct Hres as [[? _]|(_ & A' & _)]; [done|].
  assert (H0 : 0 <= bf_size a) by (rewrite <- (if_size _ _ _ A); apply (fw_size _ _ (if_wf _ _ _ A))).
  rewrite (trunc_enter s' x' (is_ready _ _ _ _ I) (bf_size a) ltac:(lia)). rewrite (if_size _ _ _ A'), Z.eqb_refl.
  apply bind_err. unfold kassert. by destruct (Z.eqb_spec ((bf_size a + BLKSIZE - 1) / BLKSIZE) (dblocks (din x'))); [congruence|].
Qed.

Lemma demo_full : match sfs_truncfile demo_inode 24000 demo_fs with Ok (r, x', _) => (r =? - E_NO_MEM) && (dblocks (din x') =? 4) | Err _ => false end = true.
Proof. vm_compute. reflexivity. Qed.

Lemma sfs_truncfile_after_failure_panics_witness : exists x' s', sfs_truncfile demo_inode 24000 demo_fs = Ok ((- E_NO_MEM, x'), s') /\ sfs_truncfile x' 2 s' = Err AssertFailed.
Proof.
  pose proof demo_full as Hf. destruct (sfs_truncfile demo_inode 24000 demo_fs) as [[[r x'] s']|] eqn:E; [|done].
  apply andb_true_iff in Hf as [Hr%Z.eqb_eq Hd%Z.eqb_eq]. subst r. exists x', s'. split; [done|].
  refine (sfs_truncfile_after_failure_panics demo_fs demo_inode demo_file 24000 s' x' demo_ready demo_is_file _ _ _ _ _ E);
    [split; vm_compute; discriminate|vm_compute; discriminate|vm_compute; discriminate|vm_compute; reflexivity|rewrite Hd; vm_compute; discriminate].
Defined.
