(* ===== verification/SfsNode.v ===== *)
(** * SfsNode: directories and the inode cache of the simple file system
    (fs/sfs/sfs_inode.c, fs/vfs/inode.c)

    Inodes in memory are nodes with addresses; several routines may hold the same
    one, and what one writes the other sees.  A directory is a file whose blocks
    hold one entry each, an inode number and a name.  A name is its bytes without
    the terminating zero, and [strcmp] of names is their equality; the results of
    the coming calls of [kmalloc] are part of the state. *)

From stdpp Require Import numbers gmap list.
From S2P Require Import Prelude Arith Bitmap Disk Sfs.
Local Open Scope Z_scope.

Definition SFS_MAX_FNAME_LEN : Z := 255.
Definition SFS_BLKN_ROOT : Z := 1.
Definition SFS_HLIST_SHIFT : Z := 10.
Definition E_BUSY : Z := 16.
Definition E_EXISTS : Z := 17.
Definition E_NOTDIR : Z := 20.
Definition E_ISDIR : Z := 21.
Definition E_NOTEMPTY : Z := E_ISDIR.
Definition E_TOO_BIG : Z := 27.
Definition MAX_INODE_COUNT : Z := 0x10000.

(** ** Inodes on disk *)

Definition put_u16 (z : Z) : list Z := [z mod 256; z / 2 ^ 8 mod 256].
Definition get_u16 (l : list Z) : Z := match l with a :: b :: _ => a + b * 2 ^ 8 | _ => 0 end.

Definition DIN_SIZE : Z := 72.
Definition din_bytes (d : sfs_disk_inode) : list Z :=
  put_u32 (size_slots d) ++ put_u32 (dparent d) ++ put_u16 (type d) ++ put_u16 (nlinks d) ++ put_u32 (dblocks d) ++
  (direct d ≫= put_u32) ++ put_u32 (indirect d) ++ put_u32 (db_indirect d).
Definition word_at (l : list Z) (off : Z) : Z := get_u32 (drop (Z.to_nat off) l).
Definition din_of (l : list Z) : sfs_disk_inode :=
  Din (word_at l 0) (word_at l 4) (get_u16 (drop 8 l)) (get_u16 (drop 10 l)) (word_at l 12)
    ((fun i => word_at l (16 + 4 * i)) <$> seqZ 0 SFS_NDIRECT) (word_at l 64) (word_at l 68).

Definition din_nlinks (v : Z) (d : sfs_disk_inode) : sfs_disk_inode :=
  Din (size_slots d) (dparent d) (type d) v (dblocks d) (direct d) (indirect d) (db_indirect d).
Definition din_parent (v : Z) (d : sfs_disk_inode) : sfs_disk_inode :=
  Din (size_slots d) v (type d) (nlinks d) (dblocks d) (direct d) (indirect d) (db_indirect d).
Definition set_removed (b : bool) (x : sfs_inode) : sfs_inode := Sin (din x) (ino x) b (dirty x) (reclaim_count x).
Definition set_reclaim (n : Z) (x : sfs_inode) : sfs_inode := Sin (din x) (ino x) (removed x) (dirty x) n.

(** ** Directory entries *)

(** An entry on disk: the inode number and the name, padded with zeros. *)
Definition ENTRY_SIZE : Z := 4 + SFS_MAX_FNAME_LEN + 1.
Definition entry_bytes (e : Z) (name : list Z) : list Z :=
  put_u32 e ++ name ++ replicate (Z.to_nat (SFS_MAX_FNAME_LEN + 1) - length name) 0.
(** The bytes up to the first zero. *)
Fixpoint cstring (l : list Z) : list Z :=
  match l with [] => [] | c :: l => if c =? 0 then [] else c :: cstring l end.
(** As read: the last byte of the name is set to zero. *)
Definition entry_of (l : list Z) : Z * list Z := (get_u32 l, cstring (bytes_at l 4 SFS_MAX_FNAME_LEN)).

Definition sfs_dirent_read_nolock (x : sfs_inode) (slot : Z) : M sfs_fs (Z * (Z * list Z) * sfs_inode) :=
  _ ← kassert ((type (din x) =? SFS_TYPE_DIR) && (0 <=? slot) && (slot <? dblocks (din x)));
  '(ret, b, x) ← sfs_bmap_load_nolock x slot;
  if negb (ret =? 0) then mret (ret, (0, []), x)
  else
    u ← sfs_block_inuse b;
    _ ← kassert u;
    '(ret, bs) ← sfs_rbuf ENTRY_SIZE b 0;
    if negb (ret =? 0) then mret (ret, (0, []), x) else mret (0, entry_of bs, x).

(** The body of [sfs_dirent_write_nolock], once memory for the entry is there. *)
Definition dirent_write (x : sfs_inode) (slot e : Z) (name : list Z) : M sfs_fs (Z * sfs_inode) :=
  _ ← kassert ((e =? 0) || (Z.of_nat (length name) <=? SFS_MAX_FNAME_LEN));
  '(ret, b, x) ← sfs_bmap_load_nolock x slot;
  if negb (ret =? 0) then mret (ret, x)
  else
    u ← sfs_block_inuse b;
    _ ← kassert u;
    ret ← sfs_wbuf (if e =? 0 then entry_bytes 0 [] else entry_bytes e name) ENTRY_SIZE b 0;
    mret (ret, x).

(** The slots from [i] on: the result, what was found (inode number and slot) and
    the free slot seen last. *)
Fixpoint search_loop (n : nat) (i : Z) (name : list Z) (empty : Z) (x : sfs_inode) : M sfs_fs (Z * option (Z * Z) * Z * sfs_inode) :=
  match n with
  | O => mret (- E_NOENT, None, empty, x)
  | S n =>
      '(ret, (e, nm), x) ← sfs_dirent_read_nolock x i;
      if negb (ret =? 0) then mret (ret, None, empty, x)
      else if e =? 0 then search_loop n (i + 1) name i x
      else if bool_decide (name = nm) then mret (0, Some (e, i), empty, x)
      else search_loop n (i + 1) name empty x
  end.

Fixpoint findino_loop (n : nat) (i e : Z) (x : sfs_inode) : M sfs_fs (Z * (Z * list Z) * sfs_inode) :=
  match n with
  | O => mret (- E_NOENT, (0, []), x)
  | S n =>
      '(ret, entry, x) ← sfs_dirent_read_nolock x i;
      if negb (ret =? 0) then mret (ret, entry, x)
      else if fst entry =? e then mret (0, entry, x) else findino_loop n (i + 1) e x
  end.
Definition sfs_dirent_findino_nolock (x : sfs_inode) (e : Z) : M sfs_fs (Z * (Z * list Z) * sfs_inode) :=
  findino_loop (Z.to_nat (dblocks (din x))) 0 e x.

Fixpoint getdirentry_loop (n : nat) (i slot : Z) (x : sfs_inode) : M sfs_fs (Z * (Z * list Z) * sfs_inode) :=
  match n with
  | O => mret (- E_NOENT, (0, []), x)
  | S n =>
      '(ret, entry, x) ← sfs_dirent_read_nolock x i;
      if negb (ret =? 0) then mret (ret, entry, x)
      else if negb (fst entry =? 0) then
        if slot =? 0 then mret (0, entry, x) else getdirentry_loop n (i + 1) (slot - 1) x
      else getdirentry_loop n (i + 1) slot x
  end.
Definition sfs_getdirentry_sub_nolock (x : sfs_inode) (slot : Z) : M sfs_fs (Z * (Z * list Z) * sfs_inode) :=
  getdirentry_loop (Z.to_nat (dblocks (din x))) 0 slot x.

(** ** Nodes *)

Record node := Node { nsin : sfs_inode; ref_count : Z; open_count : Z }.

(** [mem]: what the coming calls of [kmalloc] return, memory once it is used up;
    [next_node]: the address of the next node. *)
Record nfs := Nfs { fs : sfs_fs; nodes : gmap Z node; inode_list : list Z; hash_list : gmap Z (list Z); mem : list bool; next_node : Z }.

Definition with_fs (f : sfs_fs) (s : nfs) : nfs := Nfs f (nodes s) (inode_list s) (hash_list s) (mem s) (next_node s).
Definition with_nodes (m : gmap Z node) (s : nfs) : nfs := Nfs (fs s) m (inode_list s) (hash_list s) (mem s) (next_node s).
Definition with_lists (l : list Z) (h : gmap Z (list Z)) (s : nfs) : nfs := Nfs (fs s) (nodes s) l h (mem s) (next_node s).
Definition with_mem (l : list bool) (s : nfs) : nfs := Nfs (fs s) (nodes s) (inode_list s) (hash_list s) l (next_node s).

Definition kmalloc : M nfs bool := fun s =>
  match mem s with [] => Ok (true, s) | b :: l => Ok (b, with_mem l s) end.

Definition on_fs {A} (m : M sfs_fs A) : M nfs A := fun s =>
  match m (fs s) with Ok (a, f) => Ok (a, with_fs f s) | Err e => Err e end.
Definition get_node (p : Z) : M nfs node := load (fun s => nodes s !! p).
Definition get_sin (p : Z) : M nfs sfs_inode := n ← get_node p; mret (nsin n).
Definition upd_node (p : Z) (f : node -> node) : M nfs unit :=
  n ← get_node p; modify (fun s => with_nodes (<[p := f n]> (nodes s)) s).
Definition upd_sin (p : Z) (f : sfs_inode -> sfs_inode) : M nfs unit :=
  upd_node p (fun n => Node (f (nsin n)) (ref_count n) (open_count n)).
(** A routine on the file system and the inode of [p]. *)
Definition on_sin {A} (p : Z) (m : sfs_inode -> M sfs_fs (A * sfs_inode)) : M nfs A :=
  x ← get_sin p;
  '(a, x) ← on_fs (m x);
  _ ← upd_sin p (fun _ => x);
  mret a.

Definition lock_sin (p : Z) : M nfs Z := x ← get_sin p; on_fs (trylock_sin x).
Definition unlock_sin (p : Z) : M nfs unit := x ← get_sin p; on_fs (release (SinSem (ino x))).

(** The operations must be those of a directory or a file: else a panic. *)
Definition sfs_get_ops (ty : Z) : M nfs unit := kassert ((ty =? SFS_TYPE_DIR) || (ty =? SFS_TYPE_FILE)).

Definition sin_hashfn (e : Z) : M nfs Z := lift_out (hash32 e SFS_HLIST_SHIFT).
Definition bucket (s : nfs) (h : Z) : list Z := default [] (hash_list s !! h).
Definition sfs_set_links (p : Z) : M nfs unit :=
  x ← get_sin p;
  h ← sin_hashfn (ino x);
  modify (fun s => with_lists (p :: inode_list s) (<[h := p :: bucket s h]> (hash_list s)) s).
Definition sfs_remove_links (p : Z) : M nfs unit :=
  x ← get_sin p;
  h ← sin_hashfn (ino x);
  modify (fun s => with_lists (filter (fun q => q <> p) (inode_list s)) (<[h := filter (fun q => q <> p) (bucket s h)]> (hash_list s)) s).

(** ** Reference counts *)

Definition inode_check (p : Z) : M nfs unit :=
  n ← get_node p;
  _ ← kassert ((open_count n <=? ref_count n) && (0 <=? open_count n));
  kassert ((ref_count n <? MAX_INODE_COUNT) && (open_count n <? MAX_INODE_COUNT)).

Definition inode_ref_inc (p : Z) : M nfs Z :=
  n ← get_node p;
  _ ← upd_node p (fun n => Node (nsin n) (s32 (ref_count n + 1)) (open_count n));
  mret (s32 (ref_count n + 1)).

Definition inode_kill (p : Z) : M nfs unit :=
  n ← get_node p;
  _ ← kassert (ref_count n =? 0);
  _ ← kassert (open_count n =? 0);
  modify (fun s => with_nodes (delete p (nodes s)) s).

Definition sfs_fsync (p : Z) : M nfs Z :=
  x ← get_sin p;
  if (nlinks (din x) =? 0) || negb (dirty x) then mret 0
  else
    r ← lock_sin p;
    if negb (r =? 0) then mret r
    else
      r ← (if dirty x then
             _ ← upd_sin p (set_dirty false);
             r ← on_fs (sfs_wbuf (din_bytes (din x)) DIN_SIZE (ino x) 0);
             _ ← (if negb (r =? 0) then upd_sin p (set_dirty true) else mret tt);
             mret r
           else mret r);
      _ ← unlock_sin p;
      mret r.

(** [for (nblks = din->blocks; nblks != 0; nblks--)]; results are not looked at. *)
Fixpoint reclaim_loop (n : nat) (x : sfs_inode) : M sfs_fs sfs_inode :=
  match n with
  | O => mret x
  | S n => '(_, x) ← sfs_bmap_truncate_nolock x; reclaim_loop n x
  end.
Fixpoint free_subs (n : nat) (i ent : Z) : M sfs_fs unit :=
  match n with
  | O => mret tt
  | S n => _ ← sfs_bmap_free_sub_nolock ent i; free_subs n (i + 1) ent
  end.
(** The blocks of an inode without links: its own and those that hold pointers. *)
Definition reclaim_blocks (x : sfs_inode) : M sfs_fs unit :=
  _ ← sfs_block_free (ino x);
  _ ← (if negb (indirect (din x) =? 0) then sfs_block_free (indirect (din x)) else mret tt);
  if negb (db_indirect (din x) =? 0) then
    _ ← free_subs (Z.to_nat SFS_BLK_NENTRY) 0 (db_indirect (din x));
    sfs_block_free (db_indirect (din x))
  else mret tt.

Definition sfs_reclaim (p : Z) : M nfs Z :=
  _ ← on_fs (acquire FsSem);
  x ← get_sin p;
  _ ← kassert (0 <? reclaim_count x);
  _ ← upd_sin p (set_reclaim (reclaim_count x - 1));
  if negb (reclaim_count x - 1 =? 0) then _ ← on_fs (release FsSem); mret (- E_BUSY)
  else
    n ← get_node p;
    _ ← kassert ((ref_count n =? 0) && (open_count n =? 0));
    ret ← (if nlinks (din x) =? 0 then
             _ ← on_sin p (fun x => x ← reclaim_loop (Z.to_nat (dblocks (din x))) x; mret (tt, x)); mret 0
           else if dirty x then _ ← inode_check p; sfs_fsync p else mret 0);
    if negb (ret =? 0) then _ ← on_fs (release FsSem); mret ret
    else
      _ ← sfs_remove_links p;
      _ ← on_fs (release FsSem);
      x ← get_sin p;
      _ ← (if nlinks (din x) =? 0 then on_fs (reclaim_blocks x) else mret tt);
      _ ← inode_kill p;
      mret 0.

Definition inode_ref_dec (p : Z) : M nfs Z :=
  n ← get_node p;
  _ ← kassert (0 <? ref_count n);
  let c := ref_count n - 1 in
  _ ← upd_node p (fun n => Node (nsin n) c (open_count n));
  _ ← (if c =? 0 then _ ← inode_check p; sfs_reclaim p else mret 0);
  mret c.

(** ** The inode cache *)

(** A node for the disk inode [d], with one reference; [None] without memory. *)
Definition sfs_create_inode (d : sfs_disk_inode) (e : Z) : M nfs (Z * option Z) :=
  ok ← kmalloc;
  if negb ok then mret (- E_NO_MEM, None)
  else
    _ ← sfs_get_ops (type d);
    s ← get;
    let p := next_node s in
    _ ← modify (fun s => Nfs (fs s) (<[p := Node (Sin d e false false 1) 1 0]> (nodes s)) (inode_list s) (hash_list s) (mem s) (p + 1));
    mret (0, Some p).

Fixpoint lookup_loop (l : list Z) (e : Z) : M nfs (option Z) :=
  match l with
  | [] => mret None
  | p :: l =>
      x ← get_sin p;
      if ino x =? e then
        c ← inode_ref_inc p;
        _ ← (if c =? 1 then upd_sin p (fun x => set_reclaim (reclaim_count x + 1) x) else mret tt);
        mret (Some p)
      else lookup_loop l e
  end.
Definition lookup_sfs_nolock (e : Z) : M nfs (option Z) :=
  h ← sin_hashfn e;
  s ← get;
  lookup_loop (bucket s h) e.

(** The part of [sfs_load_inode] for an inode that is not in memory. *)
Definition load_from_disk (e : Z) : M nfs (Z * option Z) :=
  ok ← kmalloc;
  if negb ok then mret (- E_NO_MEM, None)
  else
    u ← on_fs (sfs_block_inuse e);
    _ ← kassert u;
    '(ret, bs) ← on_fs (sfs_rbuf DIN_SIZE e 0);
    if negb (ret =? 0) then mret (ret, None)
    else
      _ ← kassert (negb (nlinks (din_of bs) =? 0));
      '(ret, p) ← sfs_create_inode (din_of bs) e;
      match p with
      | Some p => _ ← sfs_set_links p; mret (0, Some p)
      | None => mret (ret, None)
      end.
Definition sfs_load_inode (e : Z) : M nfs (Z * option Z) :=
  _ ← on_fs (acquire FsSem);
  found ← lookup_sfs_nolock e;
  r ← (match found with Some p => mret (0, Some p) | None => load_from_disk e end : M nfs (Z * option Z));
  _ ← on_fs (release FsSem);
  mret r.

(** ** Directory operations *)

Definition sfs_dirent_write_nolock (p slot e : Z) (name : list Z) : M nfs Z :=
  x ← get_sin p;
  _ ← kassert ((type (din x) =? SFS_TYPE_DIR) && (0 <=? slot) && (slot <=? dblocks (din x)));
  ok ← kmalloc;
  if negb ok then mret (- E_NO_MEM) else on_sin p (fun x => dirent_write x slot e name).

Definition add_slots (n : Z) (x : sfs_inode) : sfs_inode := set_dirty true (set_din (din_size (u32 (size_slots (din x) + n)) (din x)) x).
Definition add_nlinks (n : Z) (x : sfs_inode) : sfs_inode := set_dirty true (set_din (din_nlinks (u16 (nlinks (din x) + n)) (din x)) x).

Definition sfs_dirent_link_nolock (p slot lp : Z) (name : list Z) : M nfs Z :=
  l ← get_sin lp;
  ret ← sfs_dirent_write_nolock p slot (ino l) name;
  if negb (ret =? 0) then mret ret
  else _ ← upd_sin p (add_slots 1); _ ← upd_sin lp (add_nlinks 1); mret 0.

Definition sfs_dirent_unlink_nolock (p slot lp : Z) : M nfs Z :=
  ret ← sfs_dirent_write_nolock p slot 0 [];
  if negb (ret =? 0) then mret ret
  else
    x ← get_sin p;
    l ← get_sin lp;
    _ ← kassert (negb (size_slots (din x) =? 0) && negb (nlinks (din l) =? 0));
    _ ← upd_sin p (add_slots (-1));
    _ ← upd_sin lp (add_nlinks (-1));
    mret 0.

(** The result, the inode number and slot found, and a free slot. *)
Definition sfs_dirent_search_nolock (p : Z) (name : list Z) : M nfs (Z * option (Z * Z) * Z) :=
  _ ← kassert (Z.of_nat (length name) <=? SFS_MAX_FNAME_LEN);
  ok ← kmalloc;
  if negb ok then mret (- E_NO_MEM, None, 0)
  else on_sin p (fun x => search_loop (Z.to_nat (dblocks (din x))) 0 name (dblocks (din x)) x).

Definition sfs_dirent_create_inode (ty : Z) : M nfs (Z * option Z) :=
  ok ← kmalloc;
  if negb ok then mret (- E_NO_MEM, None)
  else
    let d := Din 0 0 ty 0 0 (replicate (Z.to_nat SFS_NDIRECT) 0) 0 0 in
    '(ret, b) ← on_fs sfs_block_alloc;
    if negb (ret =? 0) then mret (ret, None)
    else
      let e := default 0 b in
      '(ret, p) ← sfs_create_inode d e;
      match p with
      | None => _ ← on_fs (sfs_block_free e); mret (ret, None)
      | Some p =>
          _ ← on_fs (acquire FsSem);
          _ ← sfs_set_links p;
          _ ← on_fs (release FsSem);
          mret (0, Some p)
      end.

Definition sfs_load_parent (p : Z) : M nfs (Z * option Z) := x ← get_sin p; sfs_load_inode (dparent (din x)).

Definition sfs_lookup_once (p : Z) (name : list Z) : M nfs (Z * option Z) :=
  r ← lock_sin p;
  if negb (r =? 0) then mret (r, None)
  else
    '(ret, found, _) ← sfs_dirent_search_nolock p name;
    _ ← unlock_sin p;
    if negb (ret =? 0) then mret (ret, None)
    else sfs_load_inode (default 0 (fst <$> found)).

Definition sfs_nlinks_inc_nolock (p : Z) : M nfs unit := upd_sin p (add_nlinks 1).
Definition sfs_nlinks_dec_nolock (p : Z) : M nfs unit :=
  x ← get_sin p; _ ← kassert (negb (nlinks (din x) =? 0)); upd_sin p (add_nlinks (-1)).
Definition sfs_dirinfo_set_parent (p parent : Z) : M nfs unit :=
  y ← get_sin parent; upd_sin p (fun x => set_dirty true (set_din (din_parent (ino y) (din x)) x)).

Definition sfs_link_nolock (p lp : Z) (name : list Z) : M nfs Z :=
  '(ret, _, slot) ← sfs_dirent_search_nolock p name;
  if negb (ret =? - E_NOENT) then mret (if negb (ret =? 0) then ret else - E_EXISTS)
  else sfs_dirent_link_nolock p slot lp name.

Definition sfs_mkdir_nolock (p : Z) (name : list Z) : M nfs Z :=
  '(ret, _, slot) ← sfs_dirent_search_nolock p name;
  if negb (ret =? - E_NOENT) then mret (if negb (ret =? 0) then ret else - E_EXISTS)
  else
    '(ret, lp) ← sfs_dirent_create_inode SFS_TYPE_DIR;
    match lp with
    | None => mret ret
    | Some lp =>
        ret ← sfs_dirent_link_nolock p slot lp name;
        _ ← (if negb (ret =? 0) then
               n ← get_node lp;
               _ ← kassert (nlinks (din (nsin n)) =? 0);
               kassert ((ref_count n =? 1) && (open_count n =? 0))
             else
               _ ← sfs_dirinfo_set_parent lp p;
               _ ← sfs_nlinks_inc_nolock lp;
               sfs_nlinks_inc_nolock p);
        _ ← inode_ref_dec lp;
        mret ret
    end.

Definition sfs_create_nolock (p : Z) (name : list Z) (excl : bool) : M nfs (Z * option Z) :=
  '(ret, found, slot) ← sfs_dirent_search_nolock p name;
  if negb (ret =? - E_NOENT) then
    if negb (ret =? 0) then mret (ret, None)
    else if negb excl then
      '(ret, lp) ← sfs_load_inode (default 0 (fst <$> found));
      match lp with
      | None => mret (ret, None)
      | Some lp =>
          l ← get_sin lp;
          if type (din l) =? SFS_TYPE_FILE then mret (0, Some lp)
          else _ ← inode_ref_dec lp; mret (- E_EXISTS, None)
      end
    else mret (- E_EXISTS, None)
  else
    '(ret, lp) ← sfs_dirent_create_inode SFS_TYPE_FILE;
    match lp with
    | None => mret (ret, None)
    | Some lp =>
        ret ← sfs_dirent_link_nolock p slot lp name;
        if negb (ret =? 0) then _ ← inode_ref_dec lp; mret (ret, None) else mret (0, Some lp)
    end.

(** The part of [sfs_unlink_nolock] for an entry that is a directory. *)
Definition unlink_dir (p slot lp : Z) : M nfs Z :=
  r ← lock_sin lp;
  if negb (r =? 0) then mret r
  else
    l ← get_sin lp;
    ret ← (if negb (size_slots (din l) =? 0) then mret (- E_NOTEMPTY)
           else
             ret ← sfs_dirent_unlink_nolock p slot lp;
             _ ← (if ret =? 0 then
                    _ ← upd_sin lp (set_removed true);
                    _ ← sfs_nlinks_dec_nolock lp;
                    sfs_nlinks_dec_nolock p
                  else mret tt);
             mret ret);
    _ ← unlock_sin lp;
    mret ret.
Definition sfs_unlink_nolock (p : Z) (name : list Z) : M nfs Z :=
  '(ret, found, _) ← sfs_dirent_search_nolock p name;
  if negb (ret =? 0) then mret ret
  else
    let '(e, slot) := default (0, 0) found in
    '(ret, lp) ← sfs_load_inode e;
    match lp with
    | None => mret ret
    | Some lp =>
        l ← get_sin lp;
        ret ← (if negb (type (din l) =? SFS_TYPE_DIR) then sfs_dirent_unlink_nolock p slot lp else unlink_dir p slot lp);
        _ ← inode_ref_dec lp;
        mret ret
    end.

Definition sfs_rename1_nolock (p : Z) (name new_name : list Z) : M nfs Z :=
  if bool_decide (name = new_name) then mret 0
  else
    '(ret, found, _) ← sfs_dirent_search_nolock p name;
    if negb (ret =? 0) then mret ret
    else
      '(ret, _, _) ← sfs_dirent_search_nolock p new_name;
      if negb (ret =? - E_NOENT) then mret (if negb (ret =? 0) then ret else - E_EXISTS)
      else let '(e, slot) := default (0, 0) found in sfs_dirent_write_nolock p slot e new_name.

(** Moving the entry once both directories have been searched. *)
Definition rename_move (p slot1 np slot2 lp : Z) (name new_name : list Z) : M nfs Z :=
  ret ← sfs_dirent_unlink_nolock p slot1 lp;
  if negb (ret =? 0) then mret ret
  else
    l ← get_sin lp;
    let isdir := type (din l) =? SFS_TYPE_DIR in
    _ ← (if isdir then sfs_nlinks_dec_nolock p else mret tt);
    ret ← sfs_dirent_link_nolock np slot2 lp new_name;
    if negb (ret =? 0) then
      err ← sfs_dirent_link_nolock p slot1 lp name;
      _ ← (if (err =? 0) && isdir then sfs_nlinks_inc_nolock p else mret tt);
      mret ret
    else
      _ ← (if isdir then _ ← sfs_nlinks_inc_nolock np; sfs_dirinfo_set_parent lp np else mret tt);
      mret 0.
Definition sfs_rename2_nolock (p : Z) (name : list Z) (np : Z) (new_name : list Z) : M nfs Z :=
  '(ret, found, _) ← sfs_dirent_search_nolock p name;
  if negb (ret =? 0) then mret ret
  else
    '(ret, _, slot2) ← sfs_dirent_search_nolock np new_name;
    if negb (ret =? - E_NOENT) then mret (if negb (ret =? 0) then ret else - E_EXISTS)
    else
      let '(e, slot1) := default (0, 0) found in
      '(ret, lp) ← sfs_load_inode e;
      match lp with
      | None => mret ret
      | Some lp =>
          ret ← rename_move p slot1 np slot2 lp name new_name;
          _ ← inode_ref_dec lp;
          mret ret
      end.

(** ** The operations of the inode *)

Definition is_dot (name : list Z) : bool := bool_decide (name = [46]).
Definition is_dotdot (name : list Z) : bool := bool_decide (name = [46; 46]).
Definition too_long (name : list Z) : bool := SFS_MAX_FNAME_LEN <? Z.of_nat (length name).

(** [if ((ret = trylock_sin(sin)) == 0) { ret = ...; unlock_sin(sin); }] *)
Definition while_locked {A} (p : Z) (err : Z -> A) (m : M nfs A) : M nfs A :=
  r ← lock_sin p;
  if r =? 0 then a ← m; _ ← unlock_sin p; mret a else mret (err r).

Definition sfs_mkdir (p : Z) (name : list Z) : M nfs Z :=
  if too_long name then mret (- E_TOO_BIG)
  else if is_dot name || is_dotdot name then mret (- E_EXISTS)
  else while_locked p id (sfs_mkdir_nolock p name).

Definition sfs_link (p : Z) (name : list Z) (lp : Z) : M nfs Z :=
  if too_long name then mret (- E_TOO_BIG)
  else if is_dot name || is_dotdot name then mret (- E_EXISTS)
  else
    l ← get_sin lp;
    if type (din l) =? SFS_TYPE_DIR then mret (- E_ISDIR) else while_locked p id (sfs_link_nolock p lp name).

Definition sfs_create (p : Z) (name : list Z) (excl : bool) : M nfs (Z * option Z) :=
  if too_long name then mret (- E_TOO_BIG, None)
  else if is_dot name || is_dotdot name then mret (- E_EXISTS, None)
  else while_locked p (fun r => (r, None)) (sfs_create_nolock p name excl).

Definition sfs_unlink (p : Z) (name : list Z) : M nfs Z :=
  if too_long name then mret (- E_TOO_BIG)
  else if is_dot name || is_dotdot name then mret (- E_ISDIR)
  else
    _ ← on_fs (acquire MutexSem);
    ret ← while_locked p id (sfs_unlink_nolock p name);
    _ ← on_fs (release MutexSem);
    mret ret.

Definition sfs_rename (p : Z) (name : list Z) (np : Z) (new_name : list Z) : M nfs Z :=
  if too_long name || too_long new_name then mret (- E_TOO_BIG)
  else if is_dot name || is_dotdot name then mret (- E_INVAL)
  else if is_dot new_name || is_dotdot new_name then mret (- E_EXISTS)
  else
    _ ← on_fs (acquire MutexSem);
    ret ← while_locked p id
      (if p =? np then sfs_rename1_nolock p name new_name else while_locked np id (sfs_rename2_nolock p name np new_name));
    _ ← on_fs (release MutexSem);
    mret ret.

(** ** Paths *)

Definition slash : Z := 47.
(** The part before the first slash, and what follows the slashes after it unless
    nothing does. *)
Fixpoint skip_slashes (l : list Z) : list Z :=
  match l with c :: l' => if c =? slash then skip_slashes l' else l | [] => [] end.
Fixpoint sfs_lookup_subpath (l : list Z) : list Z * option (list Z) :=
  match l with
  | [] => ([], None)
  | c :: l' =>
      if c =? slash then ([], match skip_slashes l' with [] => None | r => Some r end)
      else let '(a, r) := sfs_lookup_subpath l' in (c :: a, r)
  end.

(** One component that is not [.]: the node it leads to. *)
Definition lookup_step (p : Z) (name : list Z) : M nfs (Z * option Z) :=
  if is_dotdot name then sfs_load_parent p
  else if too_long name then mret (- E_TOO_BIG, None)
  else sfs_lookup_once p name.

Fixpoint lookup_walk (fuel : nat) (p : Z) (path : list Z) : M nfs (Z * option Z) :=
  match fuel with
  | O => fail OutOfFuel
  | S fuel =>
      x ← get_sin p;
      if negb (type (din x) =? SFS_TYPE_DIR) then _ ← inode_ref_dec p; mret (- E_NOTDIR, None)
      else
        let '(name, sub) := sfs_lookup_subpath path in
        if is_dot name then match sub with Some path => lookup_walk fuel p path | None => mret (0, Some p) end
        else
          '(ret, q) ← lookup_step p name;
          _ ← inode_ref_dec p;
          match q, sub with
          | Some q, Some path => if ret =? 0 then lookup_walk fuel q path else mret (ret, None)
          | Some q, None => mret (ret, Some q)
          | None, _ => mret (ret, None)
          end
  end.
Definition sfs_lookup (p : Z) (path : list Z) : M nfs (Z * option Z) :=
  _ ← kassert (match path with c :: _ => negb (c =? slash) | [] => false end);
  _ ← inode_ref_inc p;
  lookup_walk (S (length path)) p path.

Fixpoint parent_walk (fuel : nat) (p : Z) (path : list Z) : M nfs (Z * option (Z * list Z)) :=
  match fuel with
  | O => fail OutOfFuel
  | S fuel =>
      x ← get_sin p;
      if negb (type (din x) =? SFS_TYPE_DIR) then _ ← inode_ref_dec p; mret (- E_NOTDIR, None)
      else
        let '(name, sub) := sfs_lookup_subpath path in
        match sub with
        | None => mret (0, Some (p, name))
        | Some path =>
            if is_dot name then parent_walk fuel p path
            else
              '(ret, q) ← lookup_step p name;
              _ ← inode_ref_dec p;
              match q with Some q => if ret =? 0 then parent_walk fuel q path else mret (ret, None) | None => mret (ret, None) end
        end
  end.
Definition sfs_lookup_parent (p : Z) (path : list Z) : M nfs (Z * option (Z * list Z)) :=
  _ ← kassert (match path with c :: _ => negb (c =? slash) | [] => false end);
  _ ← inode_ref_inc p;
  parent_walk (S (length path)) p path.
