(* ===== verification/SfsDir.v ===== *)
(** * SfsDir: directories as sequences of entries

    The blocks of a directory hold one entry each.  Reading and writing entries
    is reading and updating a sequence; searching it finds the first entry with
    the name, and a free slot. *)

From stdpp Require Import numbers gmap list.
From S2P Require Import Prelude Arith Bitmap Disk Sfs SfsProof SfsMap SfsFree SfsFile SfsNode.
Local Open Scope Z_scope.

(** ** Entries *)

(** Names as they can be stored: no zero, and short enough. *)
Definition good_name (name : list Z) : Prop := Forall (fun c => c <> 0) name /\ Z.of_nat (length name) <= SFS_MAX_FNAME_LEN.

Lemma cstring_app name l : Forall (fun c => c <> 0) name -> cstring (name ++ 0 :: l) = name.
Proof. induction 1 as [|c name Hc _ IH]; [done|]. cbn. by destruct (Z.eqb_spec c 0); [|rewrite IH]. Qed.

Lemma cstring_all name : Forall (fun c => c <> 0) name -> cstring name = name.
Proof. induction 1 as [|c name Hc _ IH]; [done|]. cbn. by destruct (Z.eqb_spec c 0); [|rewrite IH]. Qed.

Lemma length_entry e name : Z.of_nat (length name) <= SFS_MAX_FNAME_LEN -> Z.of_nat (length (entry_bytes e name)) = ENTRY_SIZE.
Proof. intros H. unfold entry_bytes, ENTRY_SIZE, SFS_MAX_FNAME_LEN in *. rewrite !length_app, length_replicate. cbn [length put_u32]. lia. Qed.

(** An entry read is the entry written. *)
Lemma entry_of_bytes e name : is_u 32 e -> good_name name -> entry_of (entry_bytes e name) = (e, name).
Proof.
  intros He [Hn Hl]. unfold entry_of, entry_bytes. f_equal; [exact (get_put e He)|].
  unfold bytes_at. rewrite drop_app_length' by done. unfold SFS_MAX_FNAME_LEN in *.
  destruct (decide (length name = 255%nat)) as [E|E].
  - rewrite take_app_le by lia. rewrite take_ge by lia. by apply cstring_all.
  - rewrite take_app_ge by lia. destruct (Z.to_nat (255 + 1) - length name)%nat as [|k] eqn:Ek; [lia|].
    destruct (Z.to_nat 255 - length name)%nat as [|j] eqn:Ej; [lia|]. cbn [replicate take]. by apply cstring_app.
Qed.

(** ** The entries of a directory *)

Definition slot_entry (s : sfs_fs) (x : sfs_inode) (i : Z) : Z * list Z := entry_of (fbytes s x (i * BLKSIZE) ENTRY_SIZE).
Definition dir_of (s : sfs_fs) (x : sfs_inode) : list (Z * list Z) := slot_entry s x <$> seqZ 0 (dblocks (din x)).

Record is_dir (s : sfs_fs) (x : sfs_inode) : Prop := {
  id_fs : sfs_wf s;
  id_io : io_free s;
  id_wf : file_wf s x;
  id_type : type (din x) = SFS_TYPE_DIR }.

Lemma length_dir s x : length (dir_of s x) = Z.to_nat (dblocks (din x)).
Proof. unfold dir_of. by rewrite length_fmap, length_seqZ. Qed.

Lemma lookup_dir s x i : 0 <= i < dblocks (din x) -> dir_of s x !! Z.to_nat i = Some (slot_entry s x i).
Proof.
  intros Hi. unfold dir_of. rewrite list_lookup_fmap. rewrite (proj2 (lookup_seqZ _ _ (Z.to_nat i) i)); [done|]. lia.
Qed.

Lemma dir_view s s' x x' : same_view s s' x x' -> dblocks (din x') = dblocks (din x) -> 0 <= dblocks (din x) <= MAXB -> dir_of s' x' = dir_of s x.
Proof.
  intros Hv Hd Hn. unfold dir_of. rewrite Hd. apply list_fmap_ext. intros k i [-> Hk]%lookup_seqZ. unfold slot_entry.
  rewrite (fbytes_view s s' x x'); [reflexivity|exact Hv|unfold BLKSIZE; lia|]. unfold ENTRY_SIZE, SFS_MAX_FNAME_LEN, MAXPOS, BLKSIZE. lia.
Qed.

Lemma steady_dir s s' x : steady s s' -> is_dir s x -> is_dir s' x /\ dir_of s' x = dir_of s x.
Proof.
  intros St [W Hio Fw Ht]. destruct (steady_loaded s s' x St Fw) as [Hst Fw' _ Hv]. split.
  - split; [apply Hst|by eapply fstep_io|done|done].
  - apply dir_view; [done|done|apply (proj1 (fw_filled _ _ Fw))].
Qed.

Section dir.
Context (s : sfs_fs) (x : sfs_inode) (D : is_dir s x).

Lemma dirent_read_spec i : 0 <= i < dblocks (din x) -> exists s', sfs_dirent_read_nolock x i s = Ok ((0, slot_entry s x i, x), s') /\ steady s s'.
Proof.
  intros Hi. destruct D as [W Hio Fw Ht]. unfold sfs_dirent_read_nolock.
  rewrite bind_kassert by (destruct (Z.eqb_spec (type (din x)) SFS_TYPE_DIR), (Z.leb_spec 0 i), (Z.ltb_spec i (dblocks (din x))); done || lia).
  destruct (load_present s W Hio x Fw i Hi) as (s1 & E & St). rewrite (bind_step _ _ _ _ _ E). cbv beta iota. change (negb (0 =? 0)) with false. cbv beta iota.
  destruct (store_b s x Fw i Hi) as [Hb Hu]. set (b := bmap s (din x) i) in *. pose proof (used_range _ _ Hu) as Hbr. pose proof St as (W1 & [Eh Eb] & U & B).
  assert (Hbr1 : 0 < b < blocks (super s1)) by (by rewrite Eb). assert (Hio1 : io_free s1) by (unfold io_free; by rewrite Eh).
  rewrite (bind_step _ _ _ _ _ (inuse_spec s1 b W1 Hbr1)). rewrite U by lia. rewrite Hu, bind_kassert by done.
  destruct (rbuf_spec s1 W1 Hio1 b 0 ENTRY_SIZE Hbr1 ltac:(done) ltac:(done)) as (s2 & E2 & Heff). rewrite (bind_step _ _ _ _ _ E2). cbv beta iota.
  change (negb (0 =? 0)) with false. cbv beta iota. exists s2. split; [|eapply steady_trans; [done|by apply eff_steady]].
  rewrite B by done. unfold b. rewrite (blk_fbytes s x i 0 ENTRY_SIZE) by done. rewrite Z.add_0_r. reflexivity.
Qed.
End dir.

(** ** Searching *)

(** The pure search, from slot [i] on. *)
Fixpoint find_name (l : list (Z * list Z)) (i : Z) (name : list Z) (empty : Z) : option (Z * Z) * Z :=
  match l with
  | [] => (None, empty)
  | (e, nm) :: l =>
      if e =? 0 then find_name l (i + 1) name i
      else if bool_decide (name = nm) then (Some (e, i), empty)
      else find_name l (i + 1) name empty
  end.

Lemma dir_search_spec name n : forall s x i empty, is_dir s x -> 0 <= i -> i + Z.of_nat n = dblocks (din x) ->
  exists s', search_loop n i name empty x s =
    Ok ((match fst (find_name (drop (Z.to_nat i) (dir_of s x)) i name empty) with Some _ => 0 | None => - E_NOENT end,
         fst (find_name (drop (Z.to_nat i) (dir_of s x)) i name empty), snd (find_name (drop (Z.to_nat i) (dir_of s x)) i name empty), x), s') /\ steady s s'.
Proof.
  induction n as [|n IH]; intros s x i empty D Hi Hn.
  - exists s. split; [|apply steady_refl, D]. rewrite drop_ge by (rewrite length_dir; lia). done.
  - cbn [search_loop]. destruct (dirent_read_spec s x D i ltac:(lia)) as (s1 & E & St). rewrite (bind_step _ _ _ _ _ E).
    destruct (steady_dir s s1 x St D) as [D1 Ed]. rewrite (drop_S _ (slot_entry s x i)) by (apply lookup_dir; lia).
    destruct (slot_entry s x i) as [e nm]. cbv beta iota. change (negb (0 =? 0)) with false. cbv beta iota. cbn [find_name].
    replace (S (Z.to_nat i)) with (Z.to_nat (i + 1)) by lia. rewrite <- Ed.
    assert (Hnext : forall em, exists s', search_loop n (i + 1) name em x s1 =
      Ok ((match fst (find_name (drop (Z.to_nat (i + 1)) (dir_of s1 x)) (i + 1) name em) with Some _ => 0 | None => - E_NOENT end,
         fst (find_name (drop (Z.to_nat (i + 1)) (dir_of s1 x)) (i + 1) name em), snd (find_name (drop (Z.to_nat (i + 1)) (dir_of s1 x)) (i + 1) name em), x), s') /\ steady s s').
    { intros em. destruct (IH s1 x (i + 1) em D1 ltac:(lia) ltac:(lia)) as (s2 & E2 & St2). exists s2. split; [done|by eapply steady_trans]. }
    destruct (e =? 0); [apply Hnext|]. case_bool_decide; [|apply Hnext]. exists s1. split; [reflexivity|exact St].
Qed.

(** What the search says: the first entry with the name, or none; and a slot that
    is free, or the one past the end. *)
Lemma find_name_found l : forall i name empty e k em, find_name l i name empty = (Some (e, k), em) ->
  e <> 0 /\ i <= k /\ l !! Z.to_nat (k - i) = Some (e, name) /\ forall j e', (j < Z.to_nat (k - i))%nat -> l !! j = Some (e', name) -> e' = 0.
Proof.
  induction l as [|[e0 nm] l IH]; intros i name empty e k em H; [done|]. cbn in H.
  assert (Hrec : forall em0, find_name l (i + 1) name em0 = (Some (e, k), em) -> (name = nm -> e0 = 0) ->
    e <> 0 /\ i <= k /\ ((e0, nm) :: l) !! Z.to_nat (k - i) = Some (e, name) /\ forall j e', (j < Z.to_nat (k - i))%nat -> ((e0, nm) :: l) !! j = Some (e', name) -> e' = 0).
  { intros em0 H0 Hnm. destruct (IH _ _ _ _ _ _ H0) as (He & Hk & Hl & Hj). split_and!; [done|lia| |].
    - replace (Z.to_nat (k - i)) with (S (Z.to_nat (k - (i + 1)))) by lia. done.
    - intros [|j] e' Hlt E; [injection E as <- <-; by apply Hnm|]. apply (Hj j); [lia|done]. }
  destruct (Z.eqb_spec e0 0) as [E0|Hne]; [by apply (Hrec i)|]. case_bool_decide as Hnm.
  - injection H as <- <- <-. subst nm. rewrite Z.sub_diag. split_and!; [done|lia|done|]. intros j e' Hlt. cbn in Hlt. lia.
  - by apply (Hrec empty).
Qed.

Lemma find_name_none l : forall i name empty em, find_name l i name empty = (None, em) ->
  (forall j e, l !! j = Some (e, name) -> e = 0) /\
  (em = empty /\ (forall j e nm, l !! j = Some (e, nm) -> e <> 0) \/ exists nm, i <= em /\ l !! Z.to_nat (em - i) = Some (0, nm)).
Proof.
  induction l as [|[e0 nm] l IH]; intros i name empty em H; [injection H as <-; by split; [|left]|]. cbn in H.
  destruct (Z.eqb_spec e0 0) as [E0|Hne].
  - destruct (IH _ _ _ _ H) as [Hno Hem]. split.
    + intros [|j] e E; [by injection E as <- <-|by apply (Hno j)].
    + right. destruct Hem as [[-> _]|(nm' & Hle & E)].
      * exists nm. split; [lia|]. rewrite Z.sub_diag. by rewrite E0.
      * exists nm'. split; [lia|]. by replace (Z.to_nat (em - i)) with (S (Z.to_nat (em - (i + 1)))) by lia.
  - case_bool_decide as Hnm; [done|]. destruct (IH _ _ _ _ H) as [Hno Hem]. split.
    + intros [|j] e E; [by injection E as <- <-|by apply (Hno j)].
    + destruct Hem as [[-> Hall]|(nm' & Hle & E)]; [left|right].
      * split; [done|]. intros [|j] e nm1 E; [by injection E as <- <-|by apply (Hall j e nm1)].
      * exists nm'. split; [lia|]. by replace (Z.to_nat (em - i)) with (S (Z.to_nat (em - (i + 1)))) by lia.
Qed.

(** ** Writing an entry *)

(** The sequence with [v] in slot [i], which may be the one past its end. *)
Definition put_slot (l : list (Z * list Z)) (i : Z) (v : Z * list Z) : list (Z * list Z) := take (Z.to_nat i) l ++ v :: drop (S (Z.to_nat i)) l.

Lemma lookup_put_slot l i v (j : nat) : (Z.to_nat i <= length l)%nat -> put_slot l i v !! j = if decide (j = Z.to_nat i) then Some v else l !! j.
Proof.
  intros Hi. unfold put_slot. assert (Hl : length (take (Z.to_nat i) l) = Z.to_nat i) by (rewrite length_take; lia). case_decide as E.
  - subst j. rewrite lookup_app_r, Hl, Nat.sub_diag by lia. done.
  - destruct (decide (j < Z.to_nat i)%nat).
    + rewrite lookup_app_l by lia. by rewrite lookup_take_lt.
    + rewrite lookup_app_r, Hl by lia. destruct (j - Z.to_nat i)%nat as [|k] eqn:Ek; [lia|].
      change ((v :: drop (S (Z.to_nat i)) l) !! S k) with (drop (S (Z.to_nat i)) l !! k). rewrite lookup_drop. f_equal. lia.
Qed.

Lemma store_fbytes_eq s s' x i old l : file_wf s x -> 0 <= i < dblocks (din x) -> length old = Z.to_nat BLKSIZE -> Z.of_nat (length l) <= BLKSIZE ->
  eff s s' (used s) (at_ (bmap s (din x) i) (splice old 0 l) (blk s)) -> fbytes s' x (i * BLKSIZE) (Z.of_nat (length l)) = l.
Proof.
  intros Fw Hi Ho Hl E. pose proof (proj1 (fw_filled _ _ Fw)). apply list_eq. intros k. unfold fbytes. rewrite list_lookup_fmap. destruct (decide (k < length l)%nat) as [Hk|Hk].
  - rewrite (proj2 (lookup_seqZ _ _ _ _)) by (split; [reflexivity|lia]). cbn [fmap option_fmap option_map].
    rewrite (store_byte s s' x Fw i Hi _ E) by (unfold MAXPOS, BLKSIZE in *; lia).
    assert (Ed : (i * BLKSIZE + Z.of_nat k) / BLKSIZE = i) by (unfold BLKSIZE in *; Z.to_euclidean_division_equations; lia).
    assert (Em : (i * BLKSIZE + Z.of_nat k) mod BLKSIZE = Z.of_nat k) by (unfold BLKSIZE in *; Z.to_euclidean_division_equations; lia).
    rewrite Ed, Em, Z.eqb_refl, Nat2Z.id. rewrite lookup_splice by (rewrite Ho; unfold BLKSIZE in *; lia). rewrite decide_True by lia.
    rewrite Nat.sub_0_r. apply lookup_lt_is_Some in Hk as [v Ev]. by rewrite Ev.
  - rewrite !lookup_ge_None_2; [done|lia|rewrite length_seqZ; lia].
Qed.

Lemma store_fbytes_ne s s' x i j n l : file_wf s x -> 0 <= i < dblocks (din x) -> eff s s' (used s) (at_ (bmap s (din x) i) l (blk s)) ->
  0 <= j < MAXB -> j <> i -> n <= BLKSIZE -> fbytes s' x (j * BLKSIZE) n = fbytes s x (j * BLKSIZE) n.
Proof.
  intros Fw Hi E Hj Hne Hn. apply list_fmap_ext. intros k q [-> Hk]%lookup_seqZ. rewrite (store_byte s s' x Fw i Hi _ E) by (unfold MAXPOS, BLKSIZE in *; lia).
  destruct (Z.eqb_spec ((j * BLKSIZE + Z.of_nat k) / BLKSIZE) i); [|reflexivity]. exfalso. apply Hne. unfold BLKSIZE in *. Z.to_euclidean_division_equations. lia.
Qed.

(** [v]: the entry written, a removed one without a name. *)
Definition entry_val (e : Z) (name : list Z) : Z * list Z := if e =? 0 then (0, []) else (e, name).

Section write_entry.
Context (s : sfs_fs) (x : sfs_inode) (D : is_dir s x) (slot e : Z) (name : list Z).
Context (Hs : 0 <= slot <= dblocks (din x)) (Hm : slot < MAXB) (He : is_u 32 e) (Hn : e = 0 \/ good_name name).

(** What a written entry leaves: the other entries and all other files are kept. *)
Record entered (s' : sfs_fs) (x' : sfs_inode) (l : list (Z * list Z)) : Prop := {
  en_step : fstep s s' x x';
  en_dir : is_dir s' x';
  en_slots : size_slots (din x') = size_slots (din x);
  en_list : dir_of s' x' = l }.

Let bytes := if e =? 0 then entry_bytes 0 [] else entry_bytes e name.

Lemma bytes_entry : Z.of_nat (length bytes) = ENTRY_SIZE /\ entry_of bytes = entry_val e name.
Proof.
  unfold bytes, entry_val. destruct (Z.eqb_spec e 0) as [->|Hne].
  - split; [by apply length_entry|]. apply entry_of_bytes; [done|]. split; [constructor|]. done.
  - destruct Hn as [|Hg]; [done|]. split; [apply length_entry, Hg|by apply entry_of_bytes].
Qed.

Lemma store_entry s1 x1 s2 old : loaded s s1 x x1 -> dblocks (din x1) = Z.max (dblocks (din x)) (slot + 1) -> length old = Z.to_nat BLKSIZE ->
  eff s1 s2 (used s1) (at_ (bmap s1 (din x1) slot) (splice old 0 bytes) (blk s1)) -> entered s2 x1 (put_slot (dir_of s x) slot (entry_val e name)).
Proof.
  intros L Hd Ho E. pose proof L as [Lst Lwf Lsz Lvw]. assert (Hi : 0 <= slot < dblocks (din x1)) by lia.
  destruct (store_step s1 s2 x1 Lwf slot Hi _ E) as [Sst Swf]. destruct bytes_entry as [Hlen Hval]. pose proof (proj1 (fw_filled _ _ Lwf)) as Hmax.
  assert (Hst : fstep s s2 x x1) by (by eapply fstep_trans). split; [done| |done|].
  - split; [apply Sst|eapply fstep_io; [exact Hst|apply D]|done|]. destruct (fs_id _ _ _ _ Hst) as (_ & _ & -> & _). apply D.
  - apply list_eq. intros k. rewrite lookup_put_slot by (rewrite length_dir; lia). destruct (decide (Z.of_nat k < dblocks (din x1))) as [Hk|Hk].
    + pose proof (lookup_dir s2 x1 (Z.of_nat k) ltac:(lia)) as El. rewrite Nat2Z.id in El. rewrite El. case_decide as Ek.
      * unfold slot_entry. replace (Z.of_nat k) with slot by lia. rewrite <- Hlen. rewrite (store_fbytes_eq s1 s2 x1 slot old bytes Lwf Hi Ho) by (done || (rewrite Hlen; done)).
        by rewrite Hval.
      * pose proof (lookup_dir s x (Z.of_nat k) ltac:(lia)) as El0. rewrite Nat2Z.id in El0. rewrite El0. unfold slot_entry.
        rewrite (store_fbytes_ne s1 s2 x1 slot (Z.of_nat k) ENTRY_SIZE _ Lwf Hi E) by (done || lia).
        rewrite (fbytes_view s s1 x x1); [reflexivity|exact Lvw|unfold BLKSIZE; lia|]. unfold ENTRY_SIZE, SFS_MAX_FNAME_LEN, MAXPOS, BLKSIZE. lia.
    + rewrite lookup_ge_None_2 by (rewrite length_dir; lia). rewrite decide_False by lia. rewrite lookup_ge_None_2; [done|]. rewrite length_dir. lia.
Qed.

Lemma dirent_write_spec :
  (exists s' x', dirent_write x slot e name s = Ok ((0, x'), s') /\ entered s' x' (put_slot (dir_of s x) slot (entry_val e name))) \/
  (exists s' x', dirent_write x slot e name s = Ok ((- E_NO_MEM, x'), s') /\ entered s' x' (dir_of s x) /\ slot = dblocks (din x) /\ nearly_full s').
Proof.
  pose proof D as [W Hio Fw Ht]. unfold dirent_write.
  rewrite bind_kassert by (destruct (Z.eqb_spec e 0); [done|]; destruct Hn as [|[_ Hg]]; [done|]; cbn [orb]; apply Z.leb_le; exact Hg).
  destruct (load_spec s x slot W Hio Fw Hs Hm) as [(s1 & x1 & E & L & Hd)|(s1 & x1 & E & L & Hd & Hd' & Hfull)].
  - left. rewrite (bind_step _ _ _ _ _ E). cbv beta iota. change (negb (0 =? 0)) with false. cbv beta iota.
    destruct (store_b s1 x1 (lo_wf _ _ _ _ L) slot ltac:(lia)) as [_ Hu]. pose proof (used_range _ _ Hu) as Hbr. pose proof (fs_wf _ _ _ _ (lo_step _ _ _ _ L)) as W1.
    rewrite (bind_step _ _ _ _ _ (inuse_spec s1 _ W1 Hbr)). rewrite Hu, bind_kassert by done. destruct bytes_entry as [Hlen Hval].
    destruct (wbuf_spec s1 W1 (fstep_io _ _ _ _ (lo_step _ _ _ _ L) Hio) _ 0 ENTRY_SIZE bytes Hbr ltac:(done) ltac:(done) Hlen) as (s2 & E2 & Heff).
    rewrite (bind_step _ _ _ _ _ E2). exists s2, x1. split; [reflexivity|]. eapply store_entry; [exact L|exact Hd| |exact Heff]. apply length_blk; done.
  - right. rewrite (bind_step _ _ _ _ _ E). cbv beta iota. exists s1, x1. split; [reflexivity|]. split; [|done]. destruct L as [Lst Lwf Lsz Lvw].
    split; [done| |done|].
    + split; [apply Lst|by eapply fstep_io|done|]. destruct (fs_id _ _ _ _ Lst) as (_ & _ & -> & _). done.
    + apply dir_view; [done|lia|]. apply (proj1 (fw_filled _ _ Fw)).
Qed.
End write_entry.
