(* ===== verification/SfsNames.v ===== *)
(** * SfsNames: names in directories, links and the inode cache

    No two inodes in memory share a block; an operation on one of them leaves the
    others as they are.  Linking, renaming and unlinking change the names of a
    directory as insertion into and deletion from a finite map do. *)

From stdpp Require Import numbers gmap list.
From S2P Require Import Prelude Arith Bitmap Disk Sfs SfsProof SfsMap SfsFree SfsFile SfsNode SfsDir.
Local Open Scope Z_scope.

(** ** Several files *)

(** [y] has no block of [x], and neither has the other's inode block. *)
Definition apart (s : sfs_fs) (x y : sfs_inode) : Prop :=
  ino x <> ino y /\ ~ owns s (din x) (ino y) /\ forall b, b <> 0 -> owns s (din y) b -> ~ owns s (din x) b.

(** A step on [x] does not touch [y]. *)
Section other.
Context (s s' : sfs_fs) (x x' y : sfs_inode) (St : fstep s s' x x') (Fy : file_wf s y) (Ap : apart s x y).

Lemma other_foreign b : b <> 0 -> owns s (din y) b -> foreign s x b.
Proof.
  intros Hb Ho. split; [|by apply Ap]. destruct Ho as (c & Hc & <-). by apply (mw_used _ _ (fw_map _ _ Fy)).
Qed.

Lemma other_val c : valid c -> val s' (din y) c = val s (din y) c.
Proof.
  apply val_keep. intros e He (c' & Hc & _ & Ec). apply (fs_keep _ _ _ _ St). apply other_foreign; [done|]. by exists c'.
Qed.

Lemma other_owns b : owns s' (din y) b <-> owns s (din y) b.
Proof. split; intros (c & Hc & E); exists c; (split; [done|]); [by rewrite <- other_val|by rewrite other_val]. Qed.

Lemma other_used b : b <> 0 -> owns s (din y) b -> used s' b = true.
Proof. intros Hb Ho. apply (fs_foreign _ _ _ _ St). by apply other_foreign. Qed.

Lemma other_ino : foreign s x (ino y).
Proof. destruct Ap as (_ & Hiy & _). split; [exact (mw_ino _ _ (fw_map _ _ Fy))|exact Hiy]. Qed.

Lemma other_wf : file_wf s' y.
Proof.
  pose proof Fy as [[Md Mi Mu Mj] [Hn Hf] Hs]. split; [|split; [done|]|done].
  - split; [done|apply (fs_foreign _ _ _ _ St), other_ino| |].
    + intros c Hc. rewrite other_val by done. intros Hne. split; [|by apply Mu]. apply other_used; [done|by exists c].
    + intros c1 c2 H1 H2. rewrite !other_val by done. by apply Mj.
  - intros i Hi. rewrite (other_val (CData i) Hi : bmap s' (din y) i = bmap s (din y) i). by apply Hf.
Qed.

Lemma other_view : same_view s s' y y.
Proof.
  intros p Hp. destruct (pos_block p Hp) as [Hi _]. unfold fbyte. rewrite (other_val (CData (p / BLKSIZE)) Hi : bmap s' (din y) _ = bmap s (din y) _).
  destruct (Z.eqb_spec (bmap s (din y) (p / BLKSIZE)) 0) as [|Hne]; [reflexivity|]. rewrite (fs_keep _ _ _ _ St); [reflexivity|].
  apply other_foreign; [done|]. by exists (CData (p / BLKSIZE)).
Qed.

Lemma other_apart : apart s' x' y /\ (apart s y x -> apart s' y x').
Proof.
  destruct Ap as (Hi & Hiy & Hb). destruct (fs_id _ _ _ _ St) as (Ei & _). split.
  - split_and!; [by rewrite Ei|by apply (fs_foreign _ _ _ _ St), other_ino|]. intros b Hne Ho. apply other_owns in Ho.
    by apply (fs_foreign _ _ _ _ St), other_foreign.
  - intros (_ & Hxi & _). split_and!; [rewrite Ei; congruence|by rewrite other_owns, Ei|]. intros b Hne Ho Hy. apply other_owns in Hy.
    revert Ho. by apply (fs_foreign _ _ _ _ St), other_foreign.
Qed.
End other.

(** ** The nodes in memory *)

Record nfs_wf (s : nfs) : Prop := {
  nf_fs : sfs_wf (fs s);
  nf_io : io_free (fs s);
  nf_file : forall p n, nodes s !! p = Some n -> file_wf (fs s) (nsin n);
  nf_apart : forall p q n m, nodes s !! p = Some n -> nodes s !! q = Some m -> p <> q -> apart (fs s) (nsin n) (nsin m) }.

(** The state with another file system and another inode at [p]. *)
Definition stepped (s : nfs) (f : sfs_fs) (p : Z) (n : node) (x : sfs_inode) : nfs :=
  with_nodes (<[p := Node x (ref_count n) (open_count n)]> (nodes s)) (with_fs f s).

Lemma stepped_wf s f p n x' : nfs_wf s -> nodes s !! p = Some n -> fstep (fs s) f (nsin n) x' -> file_wf f x' -> nfs_wf (stepped s f p n x').
Proof.
  intros [W Hio Fi Ap] Hp St Fw. split; cbn [stepped fs with_nodes with_fs nodes].
  - apply St.
  - by eapply fstep_io.
  - intros q m. rewrite lookup_insert_Some. intros [[<- <-]|[Hne Hm]]; [done|]. eapply other_wf; [done|by eapply Fi|by eapply Ap].
  - intros q1 q2 m1 m2. rewrite !lookup_insert_Some. intros [[<- <-]|[Hn1 H1]] [[<- <-]|[Hn2 H2]] Hne; cbn [nsin]; try done.
    + exact (proj1 (other_apart (fs s) f (nsin n) x' (nsin m2) St (Fi _ _ H2) (Ap _ _ _ _ Hp H2 Hne))).
    + exact (proj2 (other_apart (fs s) f (nsin n) x' (nsin m1) St (Fi _ _ H1) (Ap _ _ _ _ Hp H1 (not_eq_sym Hne))) (Ap _ _ _ _ H1 Hp Hne)).
    + destruct (Ap q1 q2 m1 m2 H1 H2 Hne) as (Hi & Hio' & Hb). assert (A1 := Ap p q1 n m1 Hp H1 Hn1). assert (A2 := Ap p q2 n m2 Hp H2 Hn2).
      split_and!; [done| |].
      * rewrite (other_owns (fs s) f (nsin n) x' (nsin m1)); [done|done|by eapply Fi|done].
      * intros b Hb0 Ho. rewrite (other_owns (fs s) f (nsin n) x' (nsin m1)) by (done || by eapply Fi).
        rewrite (other_owns (fs s) f (nsin n) x' (nsin m2)) in Ho by (done || by eapply Fi). by apply Hb.
Qed.

Lemma on_sin_spec {A} (m : sfs_inode -> M sfs_fs (A * sfs_inode)) s p n a x' f : nodes s !! p = Some n -> m (nsin n) (fs s) = Ok ((a, x'), f) ->
  on_sin p m s = Ok (a, stepped s f p n x').
Proof.
  intros Hp E. unfold on_sin, get_sin, get_node. rewrite bind_assoc_M. rewrite (bind_step _ _ s n s) by (unfold load; by rewrite Hp).
  match goal with |- context [(mret ?v ≫= ?k) ?st] => change ((mret v ≫= k) st) with (k v st) end. cbv beta.
  rewrite (bind_step _ _ s (a, x') (with_fs f s)) by (unfold on_fs; by rewrite E). cbv beta iota.
  unfold upd_sin, upd_node, get_node. rewrite bind_assoc_M. rewrite (bind_step _ _ (with_fs f s) n (with_fs f s)) by (unfold load; cbn; by rewrite Hp).
  rewrite bind_modify. reflexivity.
Qed.

Lemma get_sin_spec s p n : nodes s !! p = Some n -> get_sin p s = Ok (nsin n, s).
Proof. intros Hp. unfold get_sin, get_node. by rewrite (bind_step _ _ s n s) by (unfold load; by rewrite Hp). Qed.

Lemma upd_sin_spec s p n g : nodes s !! p = Some n -> upd_sin p g s = Ok (tt, stepped s (fs s) p n (g (nsin n))).
Proof.
  intros Hp. unfold upd_sin, upd_node, get_node. rewrite (bind_step _ _ s n s) by (unfold load; by rewrite Hp). unfold modify, stepped.
  by destruct s.
Qed.

(** ** Names *)

(** The names of a directory and the inodes they stand for. *)
Definition names (l : list (Z * list Z)) : gmap (list Z) Z := list_to_map ((fun e => (e.2, e.1)) <$> filter (fun e => e.1 <> 0) l).
(** No name twice. *)
Definition uniq (l : list (Z * list Z)) : Prop := forall i j e e' nm, l !! i = Some (e, nm) -> l !! j = Some (e', nm) -> e <> 0 -> e' <> 0 -> i = j.

Lemma names_cons e nm l : names ((e, nm) :: l) = if decide (e = 0) then names l else <[nm := e]> (names l).
Proof. unfold names. case_decide as He; [by rewrite filter_cons_False by (cbn; tauto)|by rewrite filter_cons_True]. Qed.

Lemma uniq_cons e nm l : uniq ((e, nm) :: l) -> uniq l /\ (e <> 0 -> forall j e', l !! j = Some (e', nm) -> e' = 0).
Proof.
  intros U. split.
  - intros i j e1 e2 n1 H1 H2 N1 N2. specialize (U (S i) (S j) e1 e2 n1 H1 H2 N1 N2). lia.
  - intros He j e' Hj. destruct (decide (e' = 0)) as [|Hne]; [done|]. specialize (U 0%nat (S j) e e' nm eq_refl Hj He Hne). lia.
Qed.

Lemma names_Some l : uniq l -> forall nm e, names l !! nm = Some e <-> e <> 0 /\ exists i, l !! i = Some (e, nm).
Proof.
  induction l as [|[e0 n0] l IH]; intros U nm e; [split; [done|intros (_ & i & H); done]|].
  destruct (uniq_cons e0 n0 l U) as [Ul Hf]. rewrite names_cons. case_decide as E0.
  - rewrite (IH Ul). split; intros (He & i & Hi); (split; [done|]); [by exists (S i)|]. destruct i as [|i]; [injection Hi as <- <-; done|by exists i].
  - rewrite lookup_insert_Some, (IH Ul). split.
    + intros [[<- <-]|(Hne & He & i & Hi)]; [split; [done|by exists 0%nat]|split; [done|by exists (S i)]].
    + intros (He & [|i] & Hi); [left; by injection Hi as <- <-|]. right. split; [|by split; [|exists i]]. intros <-. by rewrite (Hf E0 i e Hi) in He.
Qed.

(** The search computes the map. *)
Lemma find_names l name em : uniq l -> names l !! name = fst <$> fst (find_name l 0 name em).
Proof.
  intros U. destruct (find_name l 0 name em) as [[[e k]|] em'] eqn:E; cbn.
  - apply find_name_found in E as (He & Hk & Hl & _). apply names_Some; [done|]. split; [done|eauto].
  - apply find_name_none in E as [Hno _]. destruct (names l !! name) as [e|] eqn:En; [|done]. apply names_Some in En as (He & i & Hi); [|done].
    by destruct He; eapply Hno.
Qed.

Section slots.
Context (l : list (Z * list Z)) (U : uniq l) (slot : Z) (Hs : (Z.to_nat slot <= length l)%nat).

(** A new name in a free slot. *)
Lemma put_new e name : e <> 0 -> names l !! name = None -> (forall e' nm, l !! Z.to_nat slot = Some (e', nm) -> e' = 0) ->
  uniq (put_slot l slot (e, name)) /\ names (put_slot l slot (e, name)) = <[name := e]> (names l).
Proof.
  intros He Hn Hfree. assert (Hno : forall i e', l !! i = Some (e', name) -> e' = 0).
  { intros i e' Hi. destruct (decide (e' = 0)) as [|Hne]; [done|]. assert (names l !! name = Some e') by (apply names_Some; [done|eauto]). congruence. }
  assert (U' : uniq (put_slot l slot (e, name))).
  { intros i j e1 e2 nm. rewrite !lookup_put_slot by done. intros H1 H2 N1 N2. repeat case_decide; subst; simplify_eq;
      first [done|exfalso; match goal with H : l !! _ = Some _ |- _ => by apply Hno in H end|by eapply U]. }
  split; [done|]. apply map_eq. intros nm. apply option_eq. intros e'. rewrite (names_Some _ U'), lookup_insert_Some, (names_Some _ U).
  split.
  - intros (He' & i & Hi). rewrite lookup_put_slot in Hi by done. case_decide; [left; by simplify_eq|].
    right. split; [|split; [done|eauto]]. intros <-. by apply Hno in Hi.
  - intros [[<- <-]|(Hne & He' & i & Hi)].
    + split; [done|]. exists (Z.to_nat slot). rewrite lookup_put_slot by done. by rewrite decide_True.
    + split; [done|]. exists i. rewrite lookup_put_slot by done. case_decide; [|done]. subst i. by apply Hfree in Hi.
Qed.

(** An entry removed. *)
Lemma put_none e name v : l !! Z.to_nat slot = Some (e, name) -> e <> 0 ->
  uniq (put_slot l slot (0, v)) /\ names (put_slot l slot (0, v)) = delete name (names l).
Proof.
  intros Hl He. assert (U' : uniq (put_slot l slot (0, v))).
  { intros i j e1 e2 nm. rewrite !lookup_put_slot by done. intros H1 H2 N1 N2. repeat case_decide; subst; simplify_eq; try done. by eapply U. }
  split; [done|]. apply map_eq. intros nm. apply option_eq. intros e'. rewrite (names_Some _ U'), lookup_delete_Some, (names_Some _ U). split.
  - intros (He' & i & Hi). rewrite lookup_put_slot in Hi by done. case_decide; [by simplify_eq|]. split; [|split; [done|eauto]].
    intros <-. by assert (i = Z.to_nat slot) by (by eapply U).
  - intros (Hne & He' & i & Hi). split; [done|]. exists i. rewrite lookup_put_slot by done. case_decide; [|done]. subst i. congruence.
Qed.

(** An entry under another name. *)
Lemma put_rename e name new : l !! Z.to_nat slot = Some (e, name) -> e <> 0 -> names l !! new = None ->
  uniq (put_slot l slot (e, new)) /\ names (put_slot l slot (e, new)) = <[new := e]> (delete name (names l)).
Proof.
  intros Hl He Hn. assert (Hno : forall i e', l !! i = Some (e', new) -> e' = 0).
  { intros i e' Hi. destruct (decide (e' = 0)) as [|Hne]; [done|]. assert (names l !! new = Some e') by (apply names_Some; [done|eauto]). congruence. }
  assert (U' : uniq (put_slot l slot (e, new))).
  { intros i j e1 e2 nm. rewrite !lookup_put_slot by done. intros H1 H2 N1 N2. repeat case_decide; subst; simplify_eq;
      first [done|exfalso; match goal with H : l !! _ = Some _ |- _ => by apply Hno in H end|by eapply U]. }
  split; [done|]. apply map_eq. intros nm. apply option_eq. intros e'. rewrite (names_Some _ U'), lookup_insert_Some, lookup_delete_Some, (names_Some _ U). split.
  - intros (He' & i & Hi). rewrite lookup_put_slot in Hi by done. case_decide; [left; by simplify_eq|]. right. split; [|split; [|split; [done|eauto]]].
    + intros <-. by apply Hno in Hi.
    + intros <-. by assert (i = Z.to_nat slot) by (by eapply U).
  - intros [[<- <-]|(Hne & Hnn & He' & i & Hi)].
    + split; [done|]. exists (Z.to_nat slot). rewrite lookup_put_slot by done. by rewrite decide_True.
    + split; [done|]. exists i. rewrite lookup_put_slot by done. case_decide; [|done]. subst i. congruence.
Qed.
End slots.

(** ** Searching and writing, on nodes *)

(** [p] is a directory that may be worked on, with memory to be had. *)
Record dir_node (s : nfs) (p : Z) (n : node) : Prop := {
  dn_wf : nfs_wf s;
  dn_mem : mem s = [];
  dn_node : nodes s !! p = Some n;
  dn_type : type (din (nsin n)) = SFS_TYPE_DIR;
  dn_uniq : uniq (dir_of (fs s) (nsin n)) }.

Lemma dn_dir s p n : dir_node s p n -> is_dir (fs s) (nsin n).
Proof. intros [W _ Hp Ht _]. split; [apply W|apply W|by eapply (nf_file _ W)|done]. Qed.

Lemma kmalloc_spec s : mem s = [] -> kmalloc s = Ok (true, s).
Proof. intros E. unfold kmalloc. by rewrite E. Qed.

Lemma stepped_id s f p n : nodes s !! p = Some n -> stepped s f p n (nsin n) = with_fs f s.
Proof. intros Hp. unfold stepped, with_nodes. destruct n as [x r o]. cbn. by rewrite insert_id. Qed.

Lemma steady_nodes s f p n : steady (fs s) f -> dir_node s p n -> dir_node (with_fs f s) p n /\ dir_of f (nsin n) = dir_of (fs s) (nsin n).
Proof.
  intros St D. pose proof D as [W Hm Hp Ht U]. destruct (steady_dir _ _ _ St (dn_dir s p n D)) as [D' Ed].
  destruct (steady_loaded _ _ _ St (nf_file _ W _ _ Hp)) as [Hst Fw' _ _]. split; [|done].
  split; [|done|done|done|cbn [with_fs fs]; by rewrite Ed]. rewrite <- (stepped_id s f p n Hp). by apply stepped_wf.
Qed.

(** The name as the map has it, and a slot for it when it is not there. *)
Lemma search_node s p n name : dir_node s p n -> Z.of_nat (length name) <= SFS_MAX_FNAME_LEN ->
  let l := dir_of (fs s) (nsin n) in
  exists found slot f, sfs_dirent_search_nolock p name s = Ok ((match found with Some _ => 0 | None => - E_NOENT end, found, slot), with_fs f s) /\ steady (fs s) f /\
    names l !! name = fst <$> found /\
    match found with
    | Some (e, k) => e <> 0 /\ 0 <= k < dblocks (din (nsin n)) /\ l !! Z.to_nat k = Some (e, name)
    | None => 0 <= slot <= dblocks (din (nsin n)) /\ forall e nm, l !! Z.to_nat slot = Some (e, nm) -> e = 0
    end.
Proof.
  intros D Hl l. pose proof D as [W Hm Hp Ht U]. pose proof (nf_file _ W _ _ Hp) as Fw. pose proof (proj1 (fw_filled _ _ Fw)) as Hn.
  destruct (dir_search_spec name (Z.to_nat (dblocks (din (nsin n)))) (fs s) (nsin n) 0 (dblocks (din (nsin n))) (dn_dir s p n D) ltac:(lia) ltac:(lia)) as (f & E & St).
  change (Z.to_nat 0) with 0%nat in E. rewrite drop_0 in E. fold l in E. pose proof (find_names l name (dblocks (din (nsin n))) U) as Hnm.
  destruct (find_name l 0 name (dblocks (din (nsin n)))) as [found slot] eqn:Ef. cbn [fst snd] in E, Hnm. exists found, slot, f. split_and!; [|apply St..|done|].
  - unfold sfs_dirent_search_nolock. rewrite bind_kassert by (by apply Z.leb_le). rewrite (bind_step _ _ _ _ _ (kmalloc_spec s Hm)). cbn [negb].
    erewrite (on_sin_spec _ s p n); [|exact Hp|exact E]. by rewrite stepped_id.
  - destruct found as [[e k]|].
    + apply find_name_found in Ef as (He & Hk & Hlk & _). rewrite Z.sub_0_r in Hlk. split; [done|]. split; [|done].
      apply lookup_lt_Some in Hlk. unfold l in Hlk. rewrite length_dir in Hlk. lia.
    + apply find_name_none in Ef as [_ [[-> Hall]|(nm & Hk & Hlk)]].
      * split; [lia|]. intros e nm Hlk. apply lookup_lt_Some in Hlk. unfold l in Hlk. rewrite length_dir in Hlk. lia.
      * rewrite Z.sub_0_r in Hlk. pose proof (lookup_lt_Some _ _ _ Hlk) as Hlt. unfold l in Hlt. rewrite length_dir in Hlt. split; [lia|]. intros e nm' E'. congruence.
Qed.

(** The state after an entry was written: [x'] is the directory's inode. *)
Record put_entry (s s' : nfs) (p : Z) (n : node) (l : list (Z * list Z)) : Prop := {
  pe_wf : nfs_wf s';
  pe_mem : mem s' = mem s;
  pe_node : exists n', nodes s' = <[p := n']> (nodes s) /\ ref_count n' = ref_count n /\ open_count n' = open_count n /\
    fstep (fs s) (fs s') (nsin n) (nsin n') /\ size_slots (din (nsin n')) = size_slots (din (nsin n)) /\ dir_of (fs s') (nsin n') = l }.

Lemma write_node s p n slot e name : dir_node s p n -> 0 <= slot <= dblocks (din (nsin n)) -> slot < MAXB -> is_u 32 e -> e = 0 \/ good_name name ->
  let l := dir_of (fs s) (nsin n) in
  exists r s', sfs_dirent_write_nolock p slot e name s = Ok (r, s') /\
    (r = 0 /\ put_entry s s' p n (put_slot l slot (entry_val e name)) \/
     r = - E_NO_MEM /\ put_entry s s' p n l /\ slot = dblocks (din (nsin n)) /\ nearly_full (fs s')).
Proof.
  intros D Hs Hm He Hn l. pose proof D as [W Hmem Hp Ht U]. unfold sfs_dirent_write_nolock. rewrite (bind_step _ _ _ _ _ (get_sin_spec s p n Hp)).
  rewrite bind_kassert by (destruct (Z.eqb_spec (type (din (nsin n))) SFS_TYPE_DIR), (Z.leb_spec 0 slot), (Z.leb_spec slot (dblocks (din (nsin n)))); done || lia).
  rewrite (bind_step _ _ _ _ _ (kmalloc_spec s Hmem)). cbn [negb].
  assert (Hput : forall f x' l', entered (fs s) (nsin n) f x' l' -> put_entry s (stepped s f p n x') p n l').
  { intros f x' l' [Hst Hd Hsl Hdl]. split; [apply stepped_wf; [done|done|done|apply Hd]|done|]. eexists. split; [reflexivity|]. cbn [nsin ref_count open_count stepped with_nodes with_fs fs]. done. }
  destruct (dirent_write_spec (fs s) (nsin n) (dn_dir s p n D) slot e name Hs Hm He Hn) as [(f & x' & E & En)|(f & x' & E & En & Hd & Hfull)].
  - exists 0, (stepped s f p n x'). split; [by apply on_sin_spec|]. left. split; [done|by apply Hput].
  - exists (- E_NO_MEM), (stepped s f p n x'). split; [by apply on_sin_spec|]. right. split_and!; [done|by apply Hput|done|done].
Qed.

(** ** Link counts and slots *)

(** The fields of an inode that are not its blocks may change. *)
Record relabel (x x' : sfs_inode) : Prop := {
  rl_ino : ino x' = ino x;
  rl_direct : direct (din x') = direct (din x);
  rl_ind : indirect (din x') = indirect (din x);
  rl_db : db_indirect (din x') = db_indirect (din x);
  rl_blocks : dblocks (din x') = dblocks (din x) }.

Lemma relabel_val x x' s c : relabel x x' -> val s (din x') c = val s (din x) c.
Proof. intros [_ E1 E2 E3 _]. destruct c; cbn; unfold bmap, nth_direct; by rewrite ?E1, ?E2, ?E3. Qed.

Lemma relabel_owns x x' s b : relabel x x' -> owns s (din x') b <-> owns s (din x) b.
Proof. intros R. split; intros (c & Hc & E); exists c; (split; [done|]); [by rewrite <- (relabel_val x x')|by rewrite (relabel_val x x')]. Qed.

Lemma relabel_wf x x' s : relabel x x' -> file_wf s x -> 0 <= size_slots (din x') <= dblocks (din x) * BLKSIZE -> file_wf s x'.
Proof.
  intros R [[Md Mi Mu Mj] [Hn Hf] Hs] Hs'. pose proof R as [Ei Ed _ _ Eb]. split; [split|split|].
  - by rewrite Ed.
  - by rewrite Ei.
  - intros c Hc. rewrite (relabel_val x x') by done. rewrite Ei. by apply Mu.
  - intros c1 c2 H1 H2. rewrite !(relabel_val x x') by done. by apply Mj.
  - by rewrite Eb.
  - intros i Hi. rewrite (relabel_val x x' s (CData i) R : bmap s (din x') i = bmap s (din x) i), Eb. by apply Hf.
  - by rewrite Eb.
Qed.

Lemma relabel_dir x x' s : relabel x x' -> dir_of s x' = dir_of s x.
Proof.
  intros R. unfold dir_of. rewrite (rl_blocks _ _ R). apply list_fmap_ext. intros k i _. unfold slot_entry, fbytes.
  assert (Eb : forall p, fbyte s x' p = fbyte s x p) by (apply fbyte_fields; intros c; by apply relabel_val).
  by rewrite (list_fmap_ext (fbyte s x') (fbyte s x) (seqZ (i * BLKSIZE) ENTRY_SIZE)) by (intros; apply Eb).
Qed.

Lemma relabel_step s p n x' : nfs_wf s -> nodes s !! p = Some n -> relabel (nsin n) x' -> 0 <= size_slots (din x') <= dblocks (din (nsin n)) * BLKSIZE ->
  nfs_wf (stepped s (fs s) p n x').
Proof.
  intros [W Hio Fi Ap] Hp R Hs. split; cbn [stepped fs with_nodes with_fs nodes]; [done|done| |].
  - intros q m. rewrite lookup_insert_Some. intros [[<- <-]|[Hne Hm]]; [eapply relabel_wf; [done|by eapply Fi|done]|by eapply Fi].
  - intros q1 q2 m1 m2. rewrite !lookup_insert_Some. intros [[<- <-]|[Hn1 H1]] [[<- <-]|[Hn2 H2]] Hne; cbn [nsin]; [done| | |by eapply Ap].
    + destruct (Ap _ _ _ _ Hp H2 Hne) as (A1 & A2 & A3). split_and!; [by rewrite (rl_ino _ _ R)|by rewrite (relabel_owns (nsin n) x')|].
      intros b Hb Ho. rewrite (relabel_owns (nsin n) x') by done. by apply A3.
    + destruct (Ap _ _ _ _ H1 Hp Hne) as (A1 & A2 & A3). split_and!; [by rewrite (rl_ino _ _ R)|by rewrite (rl_ino _ _ R)|].
      intros b Hb Ho. rewrite (relabel_owns (nsin n) x') in Ho by done. by apply A3.
Qed.

Lemma names_size l : (size (names l) <= length l)%nat.
Proof.
  induction l as [|[e nm] l IH]; [done|]. rewrite names_cons. case_decide; cbn [length]; [lia|].
  rewrite map_size_insert. destruct (names l !! nm); cbn; lia.
Qed.

Lemma add_slots_relabel n x : relabel x (add_slots n x).
Proof. by split. Qed.
Lemma add_nlinks_relabel n x : relabel x (add_nlinks n x).
Proof. by split. Qed.

(** ** [sfs_link] *)

(** The counter of the directory is the number of its names. *)
Definition counts (s : nfs) (p : Z) (n : node) : Prop := size_slots (din (nsin n)) = Z.of_nat (size (names (dir_of (fs s) (nsin n)))).

(** The bytes of every other file in memory are kept. *)
Definition kept (s s' : nfs) (p : Z) : Prop := forall q k, q <> p -> nodes s !! q = Some k -> same_view (fs s) (fs s') (nsin k) (nsin k).

Lemma fstep_kept s s' p n x' : nfs_wf s -> nodes s !! p = Some n -> fstep (fs s) (fs s') (nsin n) x' -> kept s s' p.
Proof.
  intros W Hp St q k Hne Hq. exact (other_view _ _ _ _ _ St (nf_file _ W _ _ Hq) (nf_apart _ W _ _ _ _ Hp Hq (not_eq_sym Hne))).
Qed.

Lemma steady_kept s f p n : nfs_wf s -> nodes s !! p = Some n -> steady (fs s) f -> kept s (with_fs f s) p.
Proof. intros W Hp St. eapply fstep_kept; [done|done|]. cbn [with_fs fs]. exact (lo_step _ _ _ _ (steady_loaded _ _ _ St (nf_file _ W _ _ Hp))). Qed.

(** The two inodes after an entry for [lp] was made: [d] is what is added to the counters. *)
Record linked (s s' : nfs) (p lp : Z) (n m : node) (d : Z) (nm : gmap (list Z) Z) : Prop := {
  li_wf : nfs_wf s';
  li_mem : mem s' = mem s;
  li_held : held (fs s') = held (fs s);
  li_kept : kept s s' p;
  li_dir : exists n', nodes s' = <[lp := Node (add_nlinks d (nsin m)) (ref_count m) (open_count m)]> (<[p := n']> (nodes s)) /\ dir_node s' p n' /\ counts s' p n' /\ ino (nsin n') = ino (nsin n) /\
    size_slots (din (nsin n')) = size_slots (din (nsin n)) + d /\ names (dir_of (fs s') (nsin n')) = nm }.

Section link.
Context (s : nfs) (p lp : Z) (n m : node) (D : dir_node s p n) (C : counts s p n) (Hlp : nodes s !! lp = Some m) (Hne : p <> lp).

(** The counters change with the names. *)
Lemma linked_put s1 l d : put_entry s s1 p n l -> uniq l -> Z.of_nat (size (names l)) = size_slots (din (nsin n)) + d -> dblocks (din (nsin n)) <= MAXB ->
  linked s (stepped (stepped s1 (fs s1) p (default n (nodes s1 !! p)) (add_slots d (nsin (default n (nodes s1 !! p))))) (fs s1) lp m (add_nlinks d (nsin m))) p lp n m d (names l).
Proof.
  intros [W1 M1 (n1 & En & Er & Eo & Hst & Hsl & Hl)] U Hsz Hmax.
  assert (Hp1 : nodes s1 !! p = Some n1) by (rewrite En; apply lookup_insert_eq). rewrite Hp1. cbn [default from_option id].
  assert (Hlp1 : nodes s1 !! lp = Some m) by (rewrite En; by rewrite lookup_insert_ne).
  pose proof (nf_file _ W1 _ _ Hp1) as Fw1. pose proof (proj1 (fw_filled _ _ Fw1)) as Hn1. pose proof (names_size l) as Hle. rewrite <- Hl in Hle at 2. rewrite length_dir in Hle.
  assert (Hsd : size_slots (din (add_slots d (nsin n1))) = size_slots (din (nsin n)) + d).
  { cbn. rewrite Hsl, <- Hsz. apply (umod_small 32). unfold is_u. nums. lia. }
  assert (W2 : nfs_wf (stepped s1 (fs s1) p n1 (add_slots d (nsin n1)))).
  { apply relabel_step; [done|done|apply add_slots_relabel|]. rewrite Hsd, <- Hsz. unfold BLKSIZE. lia. }
  set (s2 := stepped s1 (fs s1) p n1 (add_slots d (nsin n1))) in *.
  assert (Hlp2 : nodes s2 !! lp = Some m) by (cbn; by rewrite lookup_insert_ne).
  assert (W3 : nfs_wf (stepped s2 (fs s1) lp m (add_nlinks d (nsin m)))).
  { apply (relabel_step s2); [done|done|apply add_nlinks_relabel|]. apply (fw_size _ _ (nf_file _ W2 _ _ Hlp2)). }
  split; [done|cbn; by rewrite M1|cbn; apply (fs_fs _ _ _ _ Hst)|exact (fstep_kept s s1 p n _ (dn_wf _ _ _ D) (dn_node _ _ _ D) Hst)|]. exists (Node (add_slots d (nsin n1)) (ref_count n1) (open_count n1)).
  assert (Ed : dir_of (fs s1) (add_slots d (nsin n1)) = l) by (rewrite (relabel_dir (nsin n1)) by apply add_slots_relabel; done).
  split; [cbn; rewrite En; by rewrite insert_insert_eq|]. split; [|cbn [nsin fs stepped with_nodes with_fs s2]; rewrite Ed; split_and!; [|apply (fs_id _ _ _ _ Hst)|done|done]].
  - split; [done|cbn; rewrite M1; apply D|cbn; rewrite lookup_insert_ne by done; by rewrite lookup_insert_eq| |cbn [nsin fs stepped with_nodes with_fs s2]; by rewrite Ed].
    cbn. destruct (fs_id _ _ _ _ Hst) as (_ & _ & -> & _). apply D.
  - unfold counts. cbn [nsin fs stepped with_nodes with_fs s2]. rewrite Ed. lia.
Qed.

Let l := dir_of (fs s) (nsin n).

Lemma ino_range : is_u 32 (ino (nsin m)) /\ ino (nsin m) <> 0.
Proof.
  pose proof (nf_file _ (dn_wf _ _ _ D) _ _ Hlp) as Fw. pose proof (used_range _ _ (mw_ino _ _ (fw_map _ _ Fw))) as Hr.
  pose proof (sw_blocks _ (nf_fs _ (dn_wf _ _ _ D))). unfold is_u. lia.
Qed.

Lemma dir_max : dblocks (din (nsin n)) <= MAXB.
Proof. apply (proj1 (fw_filled _ _ (nf_file _ (dn_wf _ _ _ D) _ _ (dn_node _ _ _ D)))). Qed.

(** The two counters, after the entry. *)
Lemma upd_both s1 l' d (r : Z) : put_entry s s1 p n l' ->
  (_ ← upd_sin p (add_slots d); _ ← upd_sin lp (add_nlinks d); mret r) s1 =
  Ok (r, stepped (stepped s1 (fs s1) p (default n (nodes s1 !! p)) (add_slots d (nsin (default n (nodes s1 !! p))))) (fs s1) lp m (add_nlinks d (nsin m))).
Proof.
  intros [W1 M1 (n1 & En & _)]. assert (Hp1 : nodes s1 !! p = Some n1) by (rewrite En; apply lookup_insert_eq). rewrite Hp1. cbn [default from_option id].
  rewrite (bind_step _ _ _ _ _ (upd_sin_spec s1 p n1 _ Hp1)). set (s2 := stepped s1 (fs s1) p n1 (add_slots d (nsin n1))).
  assert (Hlp2 : nodes s2 !! lp = Some m) by (cbn; rewrite En; by rewrite !lookup_insert_ne). by rewrite (bind_step _ _ _ _ _ (upd_sin_spec s2 lp m _ Hlp2)).
Qed.

Lemma dirent_link_spec slot name : good_name name -> 0 <= slot <= dblocks (din (nsin n)) -> dblocks (din (nsin n)) < MAXB ->
  names l !! name = None -> (forall e nm, l !! Z.to_nat slot = Some (e, nm) -> e = 0) ->
  exists r s', sfs_dirent_link_nolock p slot lp name s = Ok (r, s') /\
    (r = 0 /\ linked s s' p lp n m 1 (<[name := ino (nsin m)]> (names l)) \/ r = - E_NO_MEM /\ put_entry s s' p n l /\ nearly_full (fs s')).
Proof.
  intros Hg Hs Hb Hnm Hfree. destruct ino_range as [Hu H0]. unfold sfs_dirent_link_nolock. rewrite (bind_step _ _ _ _ _ (get_sin_spec s lp m Hlp)).
  destruct (write_node s p n slot (ino (nsin m)) name D Hs ltac:(lia) Hu (or_intror Hg)) as (r & s1 & E & [[-> P]|(-> & P & _ & Hfull)]);
    rewrite (bind_step _ _ _ _ _ E).
  - change (negb (0 =? 0)) with false. cbv beta iota. rewrite (upd_both s1 _ 1 0 P). eexists 0, _. split; [reflexivity|]. left. split; [done|].
    unfold entry_val in P. destruct (Z.eqb_spec (ino (nsin m)) 0); [done|]. fold l in P.
    assert (Hlen : (Z.to_nat slot <= length l)%nat) by (unfold l; rewrite length_dir; lia).
    destruct (put_new l (dn_uniq _ _ _ D) slot Hlen _ name H0 Hnm Hfree) as [U' E'].
    rewrite <- E'. apply linked_put; [done|done| |apply dir_max]. rewrite E', map_size_insert_None by done. rewrite C. fold l. lia.
  - change (negb (- E_NO_MEM =? 0)) with true. cbv beta iota. exists (- E_NO_MEM), s1. split; [done|]. right. done.
Qed.

Lemma dirent_unlink_spec slot e name : 0 <= slot < dblocks (din (nsin n)) -> l !! Z.to_nat slot = Some (e, name) -> e <> 0 -> nlinks (din (nsin m)) <> 0 ->
  exists s', sfs_dirent_unlink_nolock p slot lp s = Ok (0, s') /\ linked s s' p lp n m (-1) (delete name (names l)).
Proof.
  intros Hs Hl He Hnl. pose proof dir_max as Hmax. unfold sfs_dirent_unlink_nolock.
  destruct (write_node s p n slot 0 [] D ltac:(lia) ltac:(lia) ltac:(done) (or_introl eq_refl)) as (r & s1 & E & [[-> P]|(-> & P & Hd & _)]); [|lia].
  rewrite (bind_step _ _ _ _ _ E). change (negb (0 =? 0)) with false. cbv beta iota. pose proof P as [W1 M1 (n1 & En & _ & _ & _ & Hsl & _)].
  assert (Hp1 : nodes s1 !! p = Some n1) by (rewrite En; apply lookup_insert_eq). assert (Hlp1 : nodes s1 !! lp = Some m) by (rewrite En; by rewrite lookup_insert_ne).
  rewrite (bind_step _ _ _ _ _ (get_sin_spec s1 p n1 Hp1)), (bind_step _ _ _ _ _ (get_sin_spec s1 lp m Hlp1)).
  assert (Hin : names l !! name = Some e) by (apply names_Some; [apply D|eauto]).
  assert (Hlen : (Z.to_nat slot <= length l)%nat) by (unfold l; rewrite length_dir; lia).
  destruct (put_none l (dn_uniq _ _ _ D) slot Hlen e name [] Hl He) as [U' E'].
  pose proof (map_size_delete_Some name (names l) (ex_intro _ e Hin)) as Hsz. assert (Hpos : (size (names l) <> 0)%nat) by (intros Hz; apply map_size_empty_inv in Hz; by rewrite Hz in Hin).
  rewrite bind_kassert by (rewrite Hsl, C; fold l; destruct (Z.eqb_spec (Z.of_nat (size (names l))) 0), (Z.eqb_spec (nlinks (din (nsin m))) 0); done || lia).
  rewrite (upd_both s1 _ (-1) 0 P). eexists. split; [reflexivity|]. rewrite <- E'. apply linked_put; [done|done| |done]. rewrite E', Hsz, C. fold l. lia.
Qed.
End link.

(** ** Locks *)

Definition relock (h : list sfs_lock) (s : nfs) : nfs := with_fs (with_held h (fs s)) s.

Section relock.
Context (h : list sfs_lock) (s : nfs) (Hh : IoSem ∉ h).

Lemma same_owns f f' d b : super f' = super f -> freemap f' = freemap f -> dev f' = dev f -> owns f' d b <-> owns f d b.
Proof. intros E1 E2 E3. split; intros (c & Hc & E); exists c; (split; [done|]); [by rewrite <- (same_val f f')|by rewrite (same_val f f')]. Qed.

Lemma relock_wf : nfs_wf s -> nfs_wf (relock h s).
Proof.
  intros [W Hio Fi Ap]. split; cbn [relock fs with_fs nodes].
  - by apply wf_held.
  - done.
  - intros p n Hp. exact (same_file_wf (fs s) (with_held h (fs s)) eq_refl eq_refl eq_refl (nsin n) (Fi _ _ Hp)).
  - intros p q n m Hp Hq Hne. destruct (Ap p q n m Hp Hq Hne) as (A1 & A2 & A3). split_and!; [done|by rewrite (same_owns (fs s))|].
    intros b Hb. rewrite !(same_owns (fs s)) by done. by apply A3.
Qed.

Lemma relock_dir x : dir_of (with_held h (fs s)) x = dir_of (fs s) x.
Proof.
  unfold dir_of. apply list_fmap_ext. intros k i _. unfold slot_entry, fbytes.
  by rewrite (list_fmap_ext (fbyte (with_held h (fs s)) x) (fbyte (fs s) x) (seqZ (i * BLKSIZE) ENTRY_SIZE)) by (intros; by apply same_fbyte).
Qed.

Lemma relock_node p n : dir_node s p n -> dir_node (relock h s) p n.
Proof.
  intros [W Hm Hp Ht U]. split; [by apply relock_wf|done|done|done|]. cbn [relock fs with_fs]. by rewrite relock_dir.
Qed.

Lemma relock_counts p n : counts s p n -> counts (relock h s) p n.
Proof. intros C. unfold counts. cbn [relock fs with_fs]. by rewrite relock_dir. Qed.
End relock.

Lemma lock_node s p n : nodes s !! p = Some n -> removed (nsin n) = false -> SinSem (ino (nsin n)) ∉ held (fs s) ->
  lock_sin p s = Ok (0, relock (SinSem (ino (nsin n)) :: held (fs s)) s).
Proof.
  intros Hp Hr Hh. unfold lock_sin. rewrite (bind_step _ _ _ _ _ (get_sin_spec s p n Hp)). unfold on_fs, trylock_sin. rewrite Hr. cbn [negb].
  rewrite (bind_step _ _ (fs s) tt (with_held (SinSem (ino (nsin n)) :: held (fs s)) (fs s))); [reflexivity|]. unfold acquire. by rewrite bool_decide_eq_false_2.
Qed.

Lemma unlock_node s p n h : nodes s !! p = Some n -> held (fs s) = SinSem (ino (nsin n)) :: h -> SinSem (ino (nsin n)) ∉ h ->
  unlock_sin p s = Ok (tt, relock h s).
Proof.
  intros Hp Hh Hn. unfold unlock_sin. rewrite (bind_step _ _ _ _ _ (get_sin_spec s p n Hp)). unfold on_fs, release, modify, relock. rewrite Hh.
  rewrite filter_cons_False by (intros H; by apply H). by rewrite filter_ne_notin.
Qed.

(** A directory nobody has locked. *)
Record idle_dir (s : nfs) (p : Z) (n : node) : Prop := {
  ir_dir : dir_node s p n;
  ir_count : counts s p n;
  ir_room : dblocks (din (nsin n)) < MAXB;
  ir_live : removed (nsin n) = false;
  ir_lock : SinSem (ino (nsin n)) ∉ held (fs s) }.

(** Running [m] with the lock of [p]: its effect between taking and releasing it. *)
Lemma while_locked_spec {A} (err : Z -> A) (m : M nfs A) s p n a s1 n1 :
  nodes s !! p = Some n -> removed (nsin n) = false -> SinSem (ino (nsin n)) ∉ held (fs s) ->
  m (relock (SinSem (ino (nsin n)) :: held (fs s)) s) = Ok (a, s1) -> nodes s1 !! p = Some n1 -> ino (nsin n1) = ino (nsin n) ->
  held (fs s1) = SinSem (ino (nsin n)) :: held (fs s) -> while_locked p err m s = Ok (a, relock (held (fs s)) s1).
Proof.
  intros Hp Hr Hh E Hp1 Ei Hh1. unfold while_locked. rewrite (bind_step _ _ _ _ _ (lock_node s p n Hp Hr Hh)). rewrite Z.eqb_refl. rewrite (bind_step _ _ _ _ _ E).
  rewrite <- Ei in Hh, Hh1. by rewrite (bind_step _ _ _ _ _ (unlock_node s1 p n1 (held (fs s)) Hp1 Hh1 Hh)).
Qed.

(** ** Operations *)

Lemma with_fs_nodes f s : nodes (with_fs f s) = nodes s.
Proof. done. Qed.

Lemma search_step s f p n : dir_node s p n -> counts s p n -> steady (fs s) f -> dir_node (with_fs f s) p n /\ counts (with_fs f s) p n /\ held f = held (fs s).
Proof.
  intros D C St. destruct (steady_nodes s f p n St D) as [D' Ed]. split_and!; [done| |apply St]. unfold counts. cbn [with_fs fs]. by rewrite Ed.
Qed.

Lemma kept_trans s s1 s2 p : kept s s1 p -> nodes s1 = nodes s -> kept s1 s2 p -> kept s s2 p.
Proof. intros K1 E K2 q k Hne Hq a Ha. rewrite (K2 q k Hne) by (done || by rewrite E). by apply (K1 q k). Qed.

Lemma kept_relock h h' s s' p : kept (relock h s) s' p -> kept s (relock h' s') p.
Proof.
  intros K q k Hne Hq a Ha. rewrite (same_fbyte (fs s') (fs (relock h' s'))) by done. rewrite (K q k Hne Hq a Ha). by apply same_fbyte.
Qed.

(** What [sfs_link] and its like do below the lock, seen from outside it. *)
Lemma linked_relock s s1 s2 h p lp n m d nm : nodes s1 = nodes s -> mem s1 = mem s -> kept (relock h s) s1 p -> IoSem ∉ held (fs s) -> linked s1 s2 p lp n m d nm ->
  linked s (relock (held (fs s)) s2) p lp n m d nm.
Proof.
  intros En Em K Hh [W M H Kv (n' & En' & Dn & Cn & Hin & Hs & Hnm)]. split; [by apply relock_wf|cbn; congruence|done| |].
  - eapply kept_relock, kept_trans; [exact K|done|exact Kv].
  - exists n'. split; [cbn; by rewrite En', En|]. split; [by apply relock_node|]. split; [by apply relock_counts|]. split; [done|]. split; [done|]. cbn [relock fs with_fs]. by rewrite relock_dir.
Qed.

Section whole.
Context (s : nfs) (p : Z) (n : node) (I : idle_dir s p n).
Let nm := names (dir_of (fs s) (nsin n)).
Let h := SinSem (ino (nsin n)) :: held (fs s).
Let s0 := relock h s.

Lemma h_io : IoSem ∉ h.
Proof. unfold h. rewrite elem_of_cons. intros [|H]; [done|]. exact (nf_io _ (dn_wf _ _ _ (ir_dir _ _ _ I)) H). Qed.

(** The search below the lock. *)
Lemma locked_search name : good_name name ->
  exists found slot f, sfs_dirent_search_nolock p name s0 = Ok ((match found with Some _ => 0 | None => - E_NOENT end, found, slot), with_fs f s0) /\
    dir_node (with_fs f s0) p n /\ counts (with_fs f s0) p n /\ held f = h /\ dir_of f (nsin n) = dir_of (fs s) (nsin n) /\ kept s0 (with_fs f s0) p /\
    nm !! name = fst <$> found /\
    match found with
    | Some (e, k) => e <> 0 /\ 0 <= k < dblocks (din (nsin n)) /\ dir_of (fs s) (nsin n) !! Z.to_nat k = Some (e, name)
    | None => 0 <= slot <= dblocks (din (nsin n)) /\ forall e nm, dir_of (fs s) (nsin n) !! Z.to_nat slot = Some (e, nm) -> e = 0
    end.
Proof.
  intros Hg. destruct I as [D C Hr Hlv Hlk]. pose proof (relock_node h s h_io p n D) as D0. pose proof (relock_counts h s p n C) as C0. fold s0 in D0, C0.
  destruct (search_node s0 p n name D0 (proj2 Hg)) as (found & slot & f & E & St & Hnm & Hf). destruct (search_step s0 f p n D0 C0 St) as (D1 & C1 & Hh).
  destruct (steady_nodes s0 f p n St D0) as [_ Ed]. assert (E0 : dir_of (fs s0) (nsin n) = dir_of (fs s) (nsin n)) by apply relock_dir.
  exists found, slot, f. split; [exact E|]. split; [exact D1|]. split; [exact C1|]. split; [exact Hh|]. split; [by rewrite Ed|].
  split; [exact (steady_kept s0 f p n (dn_wf _ _ _ D0) (dn_node _ _ _ D0) St)|]. unfold nm. rewrite <- E0. exact (conj Hnm Hf).
Qed.

(** Nothing but locks and bytes past the files changes. *)
Record unchanged (s' : nfs) : Prop := {
  uc_wf : nfs_wf s';
  uc_nodes : nodes s' = nodes s;
  uc_held : held (fs s') = held (fs s);
  uc_dir : dir_of (fs s') (nsin n) = dir_of (fs s) (nsin n);
  uc_kept : kept s s' p }.

Lemma unchanged_search f : dir_node (with_fs f s0) p n -> dir_of f (nsin n) = dir_of (fs s) (nsin n) -> kept s0 (with_fs f s0) p -> unchanged (relock (held (fs s)) (with_fs f s0)).
Proof.
  intros D E K. split; [apply relock_wf; [apply (dn_wf _ _ _ (ir_dir _ _ _ I))|apply D]|done|done| |by eapply kept_relock].
  cbn [relock with_fs fs]. rewrite (relock_dir (held (fs s)) (with_fs f s0)). exact E.
Qed.

(** The names are the same, the directory may have got pointer blocks. *)
Record no_room (s' : nfs) : Prop := {
  nr_wf : nfs_wf s';
  nr_held : held (fs s') = held (fs s);
  nr_node : exists n', nodes s' = <[p := n']> (nodes s) /\ dir_of (fs s') (nsin n') = dir_of (fs s) (nsin n);
  nr_kept : kept s s' p;
  nr_full : nearly_full (fs s') }.

Lemma no_room_put f s1 : dir_node (with_fs f s0) p n -> dir_of f (nsin n) = dir_of (fs s) (nsin n) -> kept s0 (with_fs f s0) p ->
  put_entry (with_fs f s0) s1 p n (dir_of f (nsin n)) -> nearly_full (fs s1) -> no_room (relock (held (fs s)) s1).
Proof.
  intros D Ed K [W1 M1 (n1 & En & _ & _ & Hst & _ & Hl)] Hfull.
  split; [apply relock_wf; [apply (dn_wf _ _ _ (ir_dir _ _ _ I))|done]|done| | |done].
  - exists n1. split; [exact En|]. cbn [relock with_fs fs]. rewrite (relock_dir (held (fs s)) s1). congruence.
  - eapply kept_relock, kept_trans; [exact K|done|]. by eapply fstep_kept; [apply D|apply D|].
Qed.

Lemma held_put f s1 l : held f = h -> put_entry (with_fs f s0) s1 p n l -> held (fs s1) = h /\ exists n1, nodes s1 !! p = Some n1 /\ ino (nsin n1) = ino (nsin n).
Proof.
  intros Hh [_ _ (n1 & En & _ & _ & Hst & _)]. destruct (fs_fs _ _ _ _ Hst) as [Eh _]. cbn [with_fs fs] in Eh. split; [congruence|]. exists n1.
  split; [rewrite En; apply lookup_insert_eq|apply (fs_id _ _ _ _ Hst)].
Qed.

Section with_name.
Context (name : list Z) (Hg : good_name name) (Hdot : is_dot name = false) (Hdots : is_dotdot name = false).

Lemma name_fits : too_long name = false.
Proof. unfold too_long. apply Z.ltb_ge, Hg. Qed.

Lemma link_spec lp m : nodes s !! lp = Some m -> p <> lp -> type (din (nsin m)) <> SFS_TYPE_DIR ->
  exists r s', sfs_link p name lp s = Ok (r, s') /\
    match nm !! name with
    | Some _ => r = - E_EXISTS /\ unchanged s'
    | None => r = 0 /\ linked s s' p lp n m 1 (<[name := ino (nsin m)]> nm) \/ r = - E_NO_MEM /\ no_room s'
    end.
Proof.
  intros Hlp Hne Hty. pose proof I as [D C Hr Hlv Hlk]. unfold sfs_link. rewrite name_fits, Hdot, Hdots. cbn [orb].
  rewrite (bind_step _ _ _ _ _ (get_sin_spec s lp m Hlp)). destruct (Z.eqb_spec (type (din (nsin m))) SFS_TYPE_DIR); [done|].
  destruct (locked_search name Hg) as (found & slot & f & E & D1 & C1 & Hh & Ed & K & Hnm & Hf).
  pose proof (nf_io _ (dn_wf _ _ _ D)) as Hio. rewrite Hnm.
  assert (Hrun : forall r s1 n1, sfs_link_nolock p lp name s0 = Ok (r, s1) -> held (fs s1) = h -> nodes s1 !! p = Some n1 -> ino (nsin n1) = ino (nsin n) ->
    while_locked p id (sfs_link_nolock p lp name) s = Ok (r, relock (held (fs s)) s1)).
  { intros r s1 n1 E1 Hh1 Hn1 Hi1. eapply while_locked_spec; [apply D|done|done|exact E1|exact Hn1|done|done]. }
  assert (Hlink : sfs_link_nolock p lp name s0 = match found with Some _ => Ok (- E_EXISTS, with_fs f s0) | None => sfs_dirent_link_nolock p slot lp name (with_fs f s0) end).
  { unfold sfs_link_nolock. rewrite (bind_step _ _ _ _ _ E). by destruct found. }
  destruct found as [[e k]|]; cbn [fmap option_fmap option_map].
  - exists (- E_EXISTS), (relock (held (fs s)) (with_fs f s0)). split; [|split; [done|by apply unchanged_search]].
    by apply (Hrun _ _ n); [|done|apply D|].
  - destruct Hf as [Hsl Hfree].
    assert (Hno : names (dir_of (fs (with_fs f s0)) (nsin n)) !! name = None) by (cbn [with_fs fs]; rewrite Ed; exact Hnm).
    assert (Hfr : forall e nm', dir_of (fs (with_fs f s0)) (nsin n) !! Z.to_nat slot = Some (e, nm') -> e = 0) by (cbn [with_fs fs]; rewrite Ed; exact Hfree).
    destruct (dirent_link_spec (with_fs f s0) p lp n m D1 C1 Hlp Hne slot name Hg Hsl Hr Hno Hfr) as (r & s1 & E1 & Hres).
    exists r, (relock (held (fs s)) s1). rewrite E1 in Hlink. destruct Hres as [[-> L]|(-> & P & Hfull)].
    + split; [|left; split; [done|]].
      * destruct (li_dir _ _ _ _ _ _ _ _ L) as (n1 & En & Dn & _ & Hi1 & _).
        exact (Hrun _ _ n1 Hlink (eq_trans (li_held _ _ _ _ _ _ _ _ L) Hh) (dn_node _ _ _ Dn) Hi1).
      * unfold nm. rewrite <- Ed. exact (linked_relock s (with_fs f s0) s1 h p lp n m 1 _ eq_refl eq_refl K Hio L).
    + destruct (held_put f s1 _ Hh P) as (Hh1 & n1 & Hn1 & Hi1). split; [by apply (Hrun _ _ n1)|]. right. split; [done|]. by apply (no_room_put f).
Qed.

(** The directory with other names. *)
Record renamed (s' : nfs) (nm' : gmap (list Z) Z) : Prop := {
  rn_wf : nfs_wf s';
  rn_held : held (fs s') = held (fs s);
  rn_node : exists n', nodes s' = <[p := n']> (nodes s) /\ dir_node s' p n' /\ counts s' p n' /\ names (dir_of (fs s') (nsin n')) = nm';
  rn_kept : kept s s' p }.

Lemma renamed_put f s1 e k new : dir_node (with_fs f s0) p n -> dir_of f (nsin n) = dir_of (fs s) (nsin n) -> kept s0 (with_fs f s0) p ->
  put_entry (with_fs f s0) s1 p n (put_slot (dir_of f (nsin n)) k (e, new)) -> 0 <= k < dblocks (din (nsin n)) ->
  dir_of (fs s) (nsin n) !! Z.to_nat k = Some (e, name) -> e <> 0 -> nm !! new = None -> renamed (relock (held (fs s)) s1) (<[new := e]> (delete name nm)).
Proof.
  intros D Ed K P Hk Hl He Hnew. pose proof I as [D0 C Hr Hlv Hlk]. pose proof (nf_io _ (dn_wf _ _ _ D0)) as Hio. rewrite Ed in P.
  destruct (put_rename (dir_of (fs s) (nsin n)) (dn_uniq _ _ _ D0) k ltac:(rewrite length_dir; lia) e name new Hl He Hnew) as [U' E'].
  pose proof P as [W1 M1 (n1 & En & _ & _ & Hst & Hsl & Hd)]. assert (W2 : nfs_wf (relock (held (fs s)) s1)) by (by apply relock_wf).
  assert (Ed2 : dir_of (fs (relock (held (fs s)) s1)) (nsin n1) = put_slot (dir_of (fs s) (nsin n)) k (e, new)) by (cbn [relock with_fs fs]; rewrite (relock_dir (held (fs s)) s1); exact Hd).
  split; [done|done| |].
  - exists n1. split; [exact En|]. rewrite Ed2, E'. split; [|split; [|done]].
    + split; [done|cbn; rewrite M1; apply D|cbn; rewrite En; apply lookup_insert_eq|destruct (fs_id _ _ _ _ Hst) as (_ & _ & -> & _); apply D0|by rewrite Ed2].
    + unfold counts. rewrite Ed2, E', Hsl, C. fold nm. assert (Hin : nm !! name = Some e) by (apply names_Some; [apply D0|eauto]).
      rewrite map_size_insert_None by (by rewrite lookup_delete_None; right). pose proof (map_size_delete_Some name nm (ex_intro _ e Hin)) as Hd'.
      assert (Hpos : (size nm <> 0)%nat) by (intros Hz; apply map_size_empty_inv in Hz; by rewrite Hz in Hin). lia.
  - eapply kept_relock, kept_trans; [exact K|done|]. by eapply fstep_kept; [apply D|apply D|].
Qed.

Lemma rename1_spec new : good_name new -> (forall e, nm !! name = Some e -> is_u 32 e) ->
  exists r s', while_locked p id (sfs_rename1_nolock p name new) s = Ok (r, s') /\
    if decide (name = new) then r = 0 /\ unchanged s'
    else match nm !! name, nm !! new with
         | None, _ => r = - E_NOENT /\ unchanged s'
         | Some _, Some _ => r = - E_EXISTS /\ unchanged s'
         | Some e, None => r = 0 /\ renamed s' (<[new := e]> (delete name nm))
         end.
Proof.
  intros Hgn Hu. pose proof I as [D C Hr Hlv Hlk]. pose proof (nf_io _ (dn_wf _ _ _ D)) as Hio.
  assert (Hrun : forall r s1 n1, sfs_rename1_nolock p name new s0 = Ok (r, s1) -> held (fs s1) = h -> nodes s1 !! p = Some n1 -> ino (nsin n1) = ino (nsin n) ->
    while_locked p id (sfs_rename1_nolock p name new) s = Ok (r, relock (held (fs s)) s1)).
  { intros r s1 n1 E1 Hh1 Hn1 Hi1. eapply while_locked_spec; [apply D|done|done|exact E1|exact Hn1|done|done]. }
  unfold sfs_rename1_nolock in Hrun |- *. case_decide as Heq.
  { rewrite bool_decide_eq_true_2 in Hrun |- * by done. exists 0, (relock (held (fs s)) s0). split; [exact (Hrun 0 s0 n eq_refl eq_refl (dn_node _ _ _ D) eq_refl)|]. split; [reflexivity|].
    assert (D0 : dir_node s0 p n) by (apply relock_node; [apply h_io|done]).
    split; [exact (relock_wf _ _ Hio (dn_wf _ _ _ D0))|reflexivity|reflexivity| |].
    - cbn [relock with_fs fs]. rewrite (relock_dir (held (fs s)) s0). apply relock_dir.
    - eapply kept_relock. by intros q k Hq Hk a Ha. }
  rewrite bool_decide_eq_false_2 in Hrun |- * by done.
  destruct (locked_search name Hg) as (found & slot & f & E & D1 & C1 & Hh & Ed & K & Hnm & Hf). rewrite (bind_step _ _ _ _ _ E) in Hrun. rewrite Hnm.
  destruct found as [[e k]|]; cbn [fmap option_fmap option_map].
  2: { exists (- E_NOENT), (relock (held (fs s)) (with_fs f s0)). split; [exact (Hrun _ _ n eq_refl Hh (dn_node _ _ _ D) eq_refl)|]. split; [reflexivity|exact (unchanged_search f D1 Ed K)]. }
  change (negb (0 =? 0)) with false in Hrun. cbv beta iota in Hrun. destruct Hf as (He & Hk & Hl). cbn [fmap option_fmap option_map] in Hnm.
  destruct (search_node (with_fs f s0) p n new D1 (proj2 Hgn)) as (found2 & slot2 & f2 & E2 & St2 & Hnm2 & Hf2). rewrite (bind_step _ _ _ _ _ E2) in Hrun.
  destruct (search_step (with_fs f s0) f2 p n D1 C1 St2) as (D2 & C2 & Hh2). destruct (steady_nodes (with_fs f s0) f2 p n St2 D1) as [_ Ed2]. cbn [with_fs fs] in Hnm2, Ed2, Hh2.
  change (with_fs f2 (with_fs f s0)) with (with_fs f2 s0) in *. rewrite Ed in Hnm2, Ed2. fold nm in Hnm2. rewrite Hnm2. rewrite Hh in Hh2.
  assert (K2 : kept s0 (with_fs f2 s0) p) by (eapply kept_trans; [exact K|done|exact (steady_kept (with_fs f s0) f2 p n (dn_wf _ _ _ D1) (dn_node _ _ _ D1) St2)]).
  destruct found2 as [[e2 k2]|]; cbn [fmap option_fmap option_map].
  - exists (- E_EXISTS), (relock (held (fs s)) (with_fs f2 s0)). split; [exact (Hrun _ _ n eq_refl Hh2 (dn_node _ _ _ D) eq_refl)|]. split; [reflexivity|exact (unchanged_search f2 D2 Ed2 K2)].
  - pose proof (dir_max s p n D) as Hmax.
    destruct (write_node (with_fs f2 s0) p n k e new D2 ltac:(lia) ltac:(lia) (Hu e Hnm) (or_intror Hgn)) as (r & s1 & E3 & [[-> P]|(-> & _ & Hd & _)]); [|lia].
    destruct (held_put f2 s1 _ Hh2 P) as (Hh1 & n1 & Hn1 & Hi1). exists 0, (relock (held (fs s)) s1). split; [exact (Hrun _ _ n1 E3 Hh1 Hn1 Hi1)|]. split; [reflexivity|].
    unfold entry_val in P. destruct (Z.eqb_spec e 0) as [Hz|_]; [destruct (He Hz)|]. exact (renamed_put f2 s1 e k new D2 Ed2 K2 P Hk Hl He Hnm2).
Qed.
End with_name.
End whole.
