(* ===== verification/SfsReclaim.v ===== *)
(** * SfsReclaim: inodes given back

    [sfs_reclaim] of a node without links and without references gives back the
    blocks of the file, the blocks of pointers and the block of the inode, and no
    other; the node leaves the cache. *)

From stdpp Require Import numbers gmap list.
From S2P Require Import Prelude Arith Bitmap Disk Sfs SfsProof SfsMap SfsFree SfsFile SfsNode SfsDir SfsNames.
Local Open Scope Z_scope.

(** ** Below another lock *)

Lemma acquire_node s k : k ∉ held (fs s) -> on_fs (acquire k) s = Ok (tt, relock (k :: held (fs s)) s).
Proof. intros Hk. unfold on_fs, acquire. by rewrite bool_decide_eq_false_2. Qed.

Lemma release_node s k h : held (fs s) = k :: h -> k ∉ h -> on_fs (release k) s = Ok (tt, relock h s).
Proof.
  intros Hh Hk. unfold on_fs, release, modify, relock. rewrite Hh. rewrite filter_cons_False by (intros H; by apply H). by rewrite filter_ne_notin.
Qed.

Section outer.
Context (s : nfs) (p : Z) (n : node) (k : sfs_lock) (Hk : k <> IoSem) (Hs : k <> SinSem (ino (nsin n))) (I : idle_dir s p n).
Let s1 := relock (k :: held (fs s)) s.

Lemma outer_io : IoSem ∉ k :: held (fs s).
Proof. rewrite elem_of_cons. intros [|H]; [congruence|]. exact (nf_io _ (dn_wf _ _ _ (ir_dir _ _ _ I)) H). Qed.

Lemma outer_idle : idle_dir s1 p n.
Proof.
  destruct I as [D C Hr Hlv Hlk]. split; [apply relock_node; [apply outer_io|exact D]|by apply relock_counts|exact Hr|exact Hlv|].
  cbn. rewrite elem_of_cons. intros [|H]; [congruence|exact (Hlk H)].
Qed.

Lemma outer_unchanged s' : unchanged s1 p n s' -> unchanged s p n (relock (held (fs s)) s').
Proof.
  intros [W En Eh Ed K]. pose proof (nf_io _ (dn_wf _ _ _ (ir_dir _ _ _ I))) as Hio. split; [exact (relock_wf _ _ Hio W)|exact En|reflexivity| |exact (kept_relock _ _ _ _ _ K)].
  cbn [relock with_fs fs]. rewrite (relock_dir (held (fs s)) s'), Ed. apply relock_dir.
Qed.

Lemma outer_renamed s' nm : renamed s1 p s' nm -> renamed s p (relock (held (fs s)) s') nm.
Proof.
  intros [W Eh (n' & En & D & C & E) K]. pose proof (nf_io _ (dn_wf _ _ _ (ir_dir _ _ _ I))) as Hio. split; [exact (relock_wf _ _ Hio W)|reflexivity| |exact (kept_relock _ _ _ _ _ K)].
  exists n'. split; [exact En|]. split; [exact (relock_node _ _ Hio _ _ D)|]. split; [exact (relock_counts _ _ _ _ C)|].
  cbn [relock with_fs fs]. by rewrite (relock_dir (held (fs s)) s').
Qed.

Lemma outer_names : names (dir_of (fs s1) (nsin n)) = names (dir_of (fs s) (nsin n)).
Proof. exact (f_equal names (relock_dir _ s (nsin n))). Qed.
End outer.

(** ** Blocks given back *)

(** The blocks in [P] are not in use any more; the others are, and hold what they
    held, [e] apart. *)
Record gave (s s' : sfs_fs) (P : Z -> Prop) (e : Z) : Prop := {
  ga_wf : sfs_wf s';
  ga_fs : same_fs s s';
  ga_used : forall c, used s' c = true <-> used s c = true /\ ~ P c;
  ga_blk : forall c, used s' c = true -> c <> e -> blk s' c = blk s c }.

Lemma gave_none s e (P : Z -> Prop) : sfs_wf s -> (forall c, used s c = true -> ~ P c) -> gave s s P e.
Proof. intros W HP. split; [done|done| |done]. intros c. split; [|by intros [? _]]. intros Hc. split; [done|by apply HP]. Qed.

Lemma gave_trans s s1 s2 P Q e : gave s s1 P e -> gave s1 s2 Q e -> gave s s2 (fun b => P b \/ Q b) e.
Proof.
  intros [W1 [A1 B1] U1 K1] [W2 [A2 B2] U2 K2]. split; [done|split; congruence| |].
  - intros c. rewrite U2, U1. tauto.
  - intros c Hc He. rewrite K2 by done. apply K1; [|done]. by apply U2 in Hc as [? _].
Qed.

Lemma gave_ext s s' P Q e : gave s s' P e -> (forall c, used s c = true -> P c <-> Q c) -> gave s s' Q e.
Proof.
  intros [W F U K] H. split; [done|done| |done]. intros c. rewrite U. split; intros [Hc Hn]; (split; [done|]); by rewrite <- H || rewrite H.
Qed.

Lemma gave_io s s' P e : gave s s' P e -> io_free s -> io_free s'.
Proof. intros [_ [E _] _ _] H. unfold io_free. by rewrite E. Qed.

Lemma gave_free s b e : sfs_wf s -> used s b = true -> exists s', sfs_block_free b s = Ok (tt, s') /\ gave s s' (fun c => c = b) e.
Proof.
  intros W Hb. destruct (free_spec s b W Hb) as (s' & E & [W' F U K]). exists s'. split; [done|]. split; [done|done| |].
  - intros c. destruct (Z.ltb_spec c 0) as [Hc|Hc].
    { split; [intros H|intros [H _]]; apply used_pos in H; lia. }
    rewrite U by done. unfold at_. destruct (Z.eqb_spec c b); split; try done; tauto.
  - intros c Hc _. apply K. apply used_pos in Hc. lia.
Qed.

(** The entries of the block [ent] from [i] on. *)
Definition entries_from (s : sfs_fs) (ent i b : Z) : Prop := exists k, i <= k < SFS_BLK_NENTRY /\ entry s ent k = b.

Record ptr_block (s : sfs_fs) (ent i : Z) : Prop := {
  pb_ent : used s ent = true;
  pb_used : forall k, i <= k < SFS_BLK_NENTRY -> entry s ent k <> 0 -> used s (entry s ent k) = true /\ entry s ent k <> ent;
  pb_inj : forall k l, i <= k < SFS_BLK_NENTRY -> i <= l < SFS_BLK_NENTRY -> entry s ent k = entry s ent l -> entry s ent k <> 0 -> k = l }.

Lemma free_subs_spec ent n : forall i s, sfs_wf s -> io_free s -> 0 <= i -> i + Z.of_nat n = SFS_BLK_NENTRY -> ptr_block s ent i ->
  exists s', free_subs n i ent s = Ok (tt, s') /\ gave s s' (entries_from s ent i) ent.
Proof.
  induction n as [|n IH]; intros i s W Hio Hi Hn [Pe Pu Pj].
  { exists s. split; [done|]. apply gave_none; [done|]. intros c _ (k & Hk & _). lia. }
  cbn [free_subs]. destruct (free_sub_spec s ent i W Hio Pe ltac:(lia)) as (s1 & E1 & [W1 F1 U1 K1 L1]).
  { destruct (decide (entry s ent i = 0)) as [|Hne]; [by left|right]. apply Pu; [lia|done]. }
  rewrite (bind_step _ _ _ _ _ E1). assert (Hsame : forall k, i + 1 <= k < SFS_BLK_NENTRY -> entry s1 ent k = entry s ent k).
  { intros k Hk. rewrite L1 by lia. by destruct (Z.eqb_spec k i); [lia|]. }
  assert (Hkeep : forall c, used s c = true -> c <> entry s ent i -> used s1 c = true).
  { intros c Hc Hne. apply used_pos in Hc as ?. rewrite U1 by lia. by rewrite at_ne. }
  destruct (IH (i + 1) s1 W1) as (s2 & E2 & G2); [unfold io_free; by destruct F1 as [-> _]|lia|lia| |].
  { assert (Hee : ent <> entry s ent i). { intros Ee. destruct (Pu i) as [_ Hn']; [lia| |congruence]. rewrite <- Ee. apply used_pos in Pe. lia. }
    split; [by apply Hkeep| |].
    - intros k Hk. rewrite Hsame by done. intros Hne. destruct (Pu k ltac:(lia) Hne) as [Hu Hx]. split; [|done]. apply Hkeep; [done|]. intros Ek. assert (k = i) by (apply Pj; [lia|lia|done|done]). lia.
    - intros k l Hk Hl. rewrite !Hsame by done. apply Pj; lia. }
  exists s2. split; [exact E2|]. assert (G1 : gave s s1 (fun c => c = entry s ent i) ent).
  { split; [done|done| |].
    - intros c. destruct (Z.ltb_spec c 0) as [Hc|Hc]; [split; [intros H|intros [H _]]; apply used_pos in H; lia|].
      rewrite U1 by done. unfold at_. destruct (Z.eqb_spec c (entry s ent i)); split; try done; tauto.
    - intros c Hc Hne. apply K1; [|done]. apply used_pos in Hc as ?. rewrite U1 in Hc by lia. unfold at_ in Hc. by destruct (c =? entry s ent i). }
  eapply gave_ext; [exact (gave_trans _ _ _ _ _ _ G1 G2)|]. intros c _. split.
  - intros [->|(k & Hk & <-)]; [exists i; split; [lia|done]|exists k; split; [lia|by rewrite Hsame]].
  - intros (k & Hk & <-). destruct (decide (k = i)) as [->|]; [by left|right]. exists k. split; [lia|]. apply Hsame. lia.
Qed.

(** ** The blocks of an inode *)

Section blocks.
Context (s : sfs_fs) (x : sfs_inode) (W : sfs_wf s) (Hio : io_free s) (M : map_wf s x).
Let d := din x.

Lemma gave_weaken s0 s1 P e : gave s0 s1 P 0 -> gave s0 s1 P e.
Proof. intros [W1 F1 U1 K1]. split; [done|done|done|]. intros c Hc _. apply K1; [done|]. apply used_pos in Hc. lia. Qed.

(** The block of the inode and the indirect block. *)
Definition singles (b : Z) : Prop := b = ino x \/ b = indirect d.
(** The double indirect block and what it points to. *)
Definition doubles (b : Z) : Prop := entries_from s (db_indirect d) 0 b \/ b = db_indirect d.

Lemma free_singles : exists s1, (_ ← sfs_block_free (ino x); if negb (indirect d =? 0) then sfs_block_free (indirect d) else mret tt) s = Ok (tt, s1) /\ gave s s1 singles 0.
Proof.
  destruct (gave_free s (ino x) 0 W (mw_ino _ _ M)) as (s1 & E & G). rewrite (bind_step _ _ _ _ _ E). destruct (Z.eqb_spec (indirect d) 0) as [E0|Hne]; cbn [negb].
  - exists s1. split; [done|]. eapply gave_ext; [exact G|]. intros c Hc. apply used_pos in Hc. unfold singles. rewrite E0. split; [by left|]. intros [|]; [done|lia].
  - destruct (mw_used _ _ M CInd I Hne) as [Hu Hi]. destruct (gave_free s1 (indirect d) 0 (ga_wf _ _ _ _ G)) as (s2 & E2 & G2).
    + apply (ga_used _ _ _ _ G). split; [exact Hu|exact Hi].
    + exists s2. split; [exact E2|exact (gave_trans _ _ _ _ _ _ G G2)].
Qed.

Lemma free_doubles s1 : gave s s1 singles 0 -> db_indirect d <> 0 ->
  exists s2, (_ ← free_subs (Z.to_nat SFS_BLK_NENTRY) 0 (db_indirect d); sfs_block_free (db_indirect d)) s1 = Ok (tt, s2) /\ gave s1 s2 doubles (db_indirect d).
Proof.
  intros G Hdb. pose proof G as [W1 F1 U1 K1]. destruct (mw_used _ _ M CDbl I Hdb) as [Hu Hi]. cbn in Hu, Hi. fold d in Hu, Hi.
  assert (Hkeep : forall c, valid c -> c <> CInd -> val s d c <> 0 -> used s1 (val s d c) = true).
  { intros c Hc Hn Hv. destruct (mw_used _ _ M c Hc Hv) as [Hc1 Hc2]. apply U1. split; [exact Hc1|]. intros [|E]; [done|]. apply Hn, (mw_inj _ _ M); [done|exact I|exact E|done]. }
  pose proof (Hkeep CDbl I ltac:(done) Hdb) as Hd1. cbn in Hd1.
  assert (Hent : forall k, entry s1 (db_indirect d) k = entry s (db_indirect d) k) by (intros k; unfold entry; by rewrite (K1 (db_indirect d))).
  destruct (free_subs_spec (db_indirect d) (Z.to_nat SFS_BLK_NENTRY) 0 s1 W1 (gave_io _ _ _ _ G Hio) ltac:(done) ltac:(done)) as (s2 & E2 & G2).
  { split; [done| |].
    - intros k Hk. rewrite Hent. intros Hne. split; [exact (Hkeep (CMid k) Hk ltac:(done) Hne)|]. intros E.
      assert (Hc : CMid k = CDbl) by (apply (mw_inj _ _ M); [exact Hk|exact I|exact E|exact Hne]). done.
    - intros k l Hk Hl. rewrite !Hent. intros E Hne. assert (Hc : CMid k = CMid l) by (apply (mw_inj _ _ M); [exact Hk|exact Hl|exact E|exact Hne]). congruence. }
  rewrite (bind_step _ _ _ _ _ E2).
  assert (G2' : gave s1 s2 (entries_from s (db_indirect d) 0) (db_indirect d)).
  { eapply gave_ext; [exact G2|]. intros c _. unfold entries_from. split; intros (k & Hk & <-); exists k; by rewrite Hent. }
  destruct (gave_free s2 (db_indirect d) (db_indirect d) (ga_wf _ _ _ _ G2)) as (s3 & E3 & G3).
  - apply (ga_used _ _ _ _ G2'). split; [done|]. intros (k & Hk & E). assert (Hc : CMid k = CDbl) by (apply (mw_inj _ _ M); [exact Hk|exact I|exact E|cbn; fold d; by rewrite E]). done.
  - exists s3. split; [exact E3|exact (gave_trans _ _ _ _ _ _ G2' G3)].
Qed.

(** Every block of an inode whose blocks of data were given back. *)
Lemma reclaim_blocks_spec : (forall i, 0 <= i < MAXB -> bmap s d i = 0) ->
  exists s', reclaim_blocks x s = Ok (tt, s') /\ gave s s' (fun b => b = ino x \/ owns s d b) 0.
Proof.
  intros Hno. destruct free_singles as (s1 & E1 & G1). unfold reclaim_blocks. rewrite <- bind_assoc_M. fold d. rewrite (bind_step _ _ _ _ _ E1).
  assert (Hown : forall c, used s c = true -> singles c \/ doubles c <-> c = ino x \/ owns s d c).
  { intros c Hc. apply used_pos in Hc. unfold singles, doubles. split.
    - intros [[->| ->]|[(k & Hk & <-)| ->]]; [by left|right..]; [by exists CInd|by exists (CMid k)|by exists CDbl].
    - intros [->|([i| | |k] & Hv & <-)]; [by left; left| |by left; right|by right; right|right; left; by exists k]. cbn in Hc, Hv. rewrite Hno in Hc by done. lia. }
  destruct (Z.eqb_spec (db_indirect d) 0) as [E0|Hne]; cbn [negb].
  - exists s1. split; [done|]. eapply gave_ext; [exact G1|]. intros c Hc. rewrite <- (Hown c Hc). split; [by left|]. intros [|[(k & Hk & Ek)|Ed]]; [done|..];
      apply used_pos in Hc; [unfold entry in Ek; rewrite E0 in Ek; cbn in Ek|]; lia.
  - destruct (free_doubles s1 G1 Hne) as (s2 & E2 & G2). exists s2. split; [exact E2|].
    eapply gave_ext; [|exact Hown]. destruct (gave_trans _ _ _ _ _ _ (gave_weaken _ _ _ (db_indirect d) G1) G2) as [W2 F2 U2 K2]. split; [done|done|done|].
    intros c Hc _. apply K2; [done|]. intros ->. apply U2 in Hc as [_ Hc]. apply Hc. right. by right.
Qed.
End blocks.

(** ** The whole file *)

Lemma reclaim_loop_spec k : forall s x, counted s x -> Z.of_nat k <= dblocks (din x) ->
  exists s' x', reclaim_loop k x s = Ok (x', s') /\ resized s s' x x' (dblocks (din x) - Z.of_nat k).
Proof.
  induction k as [|k IH]; intros s x Hc Hk.
  { exists s, x. split; [done|]. replace (dblocks (din x) - Z.of_nat 0) with (dblocks (din x)) by lia. by apply resized_refl. }
  destruct (truncate_spec s x Hc ltac:(lia)) as (s1 & x1 & E & R). cbn [reclaim_loop]. rewrite (bind_step _ _ _ _ _ E). cbv beta iota.
  pose proof (proj2 (re_filled _ _ _ _ _ R)) as Hd. destruct (IH s1 x1 (resized_counted _ _ _ _ _ R Hc) ltac:(lia)) as (s2 & x2 & E2 & R2). exists s2, x2. split; [done|].
  replace (dblocks (din x) - Z.of_nat (S k)) with (dblocks (din x1) - Z.of_nat k) by lia. eapply resized_trans; [done|done|lia].
Qed.

(** In use are the blocks that are not of the file, and they are as before. *)
Record reclaimed (s s' : sfs_fs) (x : sfs_inode) : Prop := {
  rc_wf : sfs_wf s';
  rc_fs : same_fs s s';
  rc_used : forall b, used s' b = true <-> foreign s x b /\ b <> ino x;
  rc_blk : forall b, used s' b = true -> blk s' b = blk s b }.

Lemma reclaimed_both s s1 s2 x x1 : fstep s s1 x x1 -> gave s1 s2 (fun b => b = ino x1 \/ owns s1 (din x1) b) 0 -> reclaimed s s2 x.
Proof.
  intros [W1 [A1 B1] M1 (Ei & _) Fo K1] [W2 [A2 B2] U2 K2].
  assert (Hu : forall b, used s2 b = true <-> foreign s x b /\ b <> ino x).
  { intros b. rewrite U2, <- (Fo b), <- Ei. unfold foreign. tauto. }
  split; [done|split; congruence|done|]. intros b Hb. rewrite K2; [|done|apply used_pos in Hb; lia]. apply K1. by apply Hu in Hb as [? _].
Qed.

(** Other files do not notice. *)
Section others.
Context (s s' : sfs_fs) (x y : sfs_inode) (R : reclaimed s s' x) (Fy : file_wf s y) (Ap : apart s x y) (Ap' : apart s y x).

Lemma others_used b : b <> 0 -> owns s (din y) b -> used s' b = true.
Proof.
  intros Hb Ho. apply (rc_used _ _ _ R). split; [exact (other_foreign s x y Fy Ap b Hb Ho)|]. intros ->. destruct Ap' as (_ & Hn & _). exact (Hn Ho).
Qed.

Lemma others_val c : valid c -> val s' (din y) c = val s (din y) c.
Proof. apply val_keep. intros e He (c' & Hc & _ & Ec). apply (rc_blk _ _ _ R), others_used; [done|by exists c']. Qed.

Lemma others_ino : used s' (ino y) = true.
Proof. apply (rc_used _ _ _ R). destruct Ap' as (Hi & _). split; [exact (other_ino s x y Fy Ap)|exact Hi]. Qed.

Lemma others_wf : file_wf s' y.
Proof.
  pose proof Fy as [[Md Mi Mu Mj] [Hn Hf] Hs]. split; [|split; [done|]|done].
  - split; [done|exact others_ino| |].
    + intros c Hc. rewrite others_val by done. intros Hne. split; [|by apply Mu]. apply others_used; [done|by exists c].
    + intros c1 c2 H1 H2. rewrite !others_val by done. by apply Mj.
  - intros i Hi. rewrite (others_val (CData i) Hi : bmap s' (din y) i = bmap s (din y) i). by apply Hf.
Qed.

Lemma others_view : same_view s s' y y.
Proof.
  intros p Hp. destruct (pos_block p Hp) as [Hi _]. unfold fbyte. rewrite (others_val (CData (p / BLKSIZE)) Hi : bmap s' (din y) _ = bmap s (din y) _).
  destruct (Z.eqb_spec (bmap s (din y) (p / BLKSIZE)) 0) as [|Hne]; [reflexivity|]. rewrite (rc_blk _ _ _ R); [reflexivity|].
  apply others_used; [done|]. by exists (CData (p / BLKSIZE)).
Qed.
End others.

(** ** The node *)

Lemma get_node_spec s p n : nodes s !! p = Some n -> get_node p s = Ok (n, s).
Proof. intros Hp. unfold get_node, load. by rewrite Hp. Qed.

Definition unlisted (l : list Z) (p : Z) : list Z := filter (fun q => q <> p) l.

Lemma hash_ok e : exists h, hash32 e SFS_HLIST_SHIFT = Ok h.
Proof. destruct (hash32_range e SFS_HLIST_SHIFT ltac:(done)) as (h & E & _). by exists h. Qed.

Lemma unlist_spec s p n h : nodes s !! p = Some n -> hash32 (ino (nsin n)) SFS_HLIST_SHIFT = Ok h ->
  sfs_remove_links p s = Ok (tt, with_lists (unlisted (inode_list s) p) (<[h := unlisted (bucket s h) p]> (hash_list s)) s).
Proof.
  intros Hp E. unfold sfs_remove_links. rewrite (bind_step _ _ _ _ _ (get_sin_spec s p n Hp)).
  rewrite (bind_step _ _ s h s) by (unfold sin_hashfn, lift_out; by rewrite E). reflexivity.
Qed.

Lemma kill_spec s p n : nodes s !! p = Some n -> ref_count n = 0 -> open_count n = 0 -> inode_kill p s = Ok (tt, with_nodes (delete p (nodes s)) s).
Proof.
  intros Hp Hr Ho. unfold inode_kill. rewrite (bind_step _ _ _ _ _ (get_node_spec s p n Hp)). rewrite bind_kassert by (by rewrite Hr). by rewrite bind_kassert by (by rewrite Ho).
Qed.

(** The node is gone: from the map, from its bucket and from the list, and its blocks are free. *)
Record dropped (s s' : nfs) (p : Z) (n : node) : Prop := {
  dp_wf : nfs_wf s';
  dp_nodes : nodes s' = delete p (nodes s);
  dp_list : inode_list s' = unlisted (inode_list s) p;
  dp_bucket : forall h, hash32 (ino (nsin n)) SFS_HLIST_SHIFT = Ok h -> hash_list s' = <[h := unlisted (bucket s h) p]> (hash_list s);
  dp_mem : mem s' = mem s;
  dp_blocks : reclaimed (fs s) (fs s') (nsin n);
  dp_kept : kept s s' p }.

Section reclaim.
Context (s : nfs) (p : Z) (n : node) (Wn : nfs_wf s) (Hp : nodes s !! p = Some n).

Lemma dropped_wf s' : nodes s' = delete p (nodes s) -> reclaimed (fs s) (fs s') (nsin n) -> nfs_wf s' /\ kept s s' p.
Proof.
  intros En R. assert (Hin : forall q m, nodes s' !! q = Some m -> q <> p /\ nodes s !! q = Some m).
  { intros q m. rewrite En, lookup_delete_Some. intros [Hne Hq]. split; [congruence|done]. }
  pose proof Wn as [W Hio Fi Ap].
  assert (Hap : forall q m, q <> p -> nodes s !! q = Some m -> apart (fs s) (nsin n) (nsin m) /\ apart (fs s) (nsin m) (nsin n)) by (intros; split; by eapply Ap).
  assert (Hval : forall q m, q <> p -> nodes s !! q = Some m -> forall c, valid c -> val (fs s') (din (nsin m)) c = val (fs s) (din (nsin m)) c).
  { intros q m Hne Hq. destruct (Hap q m Hne Hq). eapply others_val; [exact R|exact (Fi _ _ Hq)|done|done]. }
  assert (Hown : forall q m, q <> p -> nodes s !! q = Some m -> forall b, owns (fs s') (din (nsin m)) b <-> owns (fs s) (din (nsin m)) b).
  { intros q m Hne Hq b. split; intros (c & Hc & E); exists c; (split; [done|]); [by rewrite <- (Hval q m)|by rewrite (Hval q m)]. }
  split; [split|].
  - apply R.
  - unfold io_free. destruct (rc_fs _ _ _ R) as [-> _]. exact Hio.
  - intros q m Hq. destruct (Hin q m Hq) as [Hne Hq']. destruct (Hap q m Hne Hq'). eapply others_wf; [exact R|exact (Fi _ _ Hq')|done|done].
  - intros q1 q2 m1 m2 H1 H2 Hne. destruct (Hin q1 m1 H1) as [N1 H1'], (Hin q2 m2 H2) as [N2 H2'].
    destruct (Ap q1 q2 m1 m2 H1' H2' Hne) as (A1 & A2 & A3). split; [exact A1|]. split; [rewrite (Hown q1 m1 N1 H1'); exact A2|].
    intros b Hb. rewrite (Hown q1 m1 N1 H1'), (Hown q2 m2 N2 H2'). by apply A3.
  - intros q m Hne Hq. destruct (Hap q m Hne Hq). eapply others_view; [exact R|exact (Fi _ _ Hq)|done|done].
Qed.

(** The blocks, from the state with the lock to the state without it. *)
Lemma reclaim_fs h f x1 : resized (with_held h (fs s)) f (set_reclaim 0 (nsin n)) x1 0 -> IoSem ∉ held (fs s) ->
  exists f', reclaim_blocks x1 (with_held (held (fs s)) f) = Ok (tt, f') /\ reclaimed (fs s) f' (nsin n).
Proof.
  intros [[W1 [Eh Eb] M1 Id Fo K] [[_ Hf] _] _ _] Hio. set (f2 := with_held (held (fs s)) f).
  assert (W2 : sfs_wf f2) by (by apply wf_held). assert (M2 : map_wf f2 x1) by (exact (same_map_wf f f2 eq_refl eq_refl eq_refl x1 M1)).
  destruct (reclaim_blocks_spec f2 x1 W2 Hio M2) as (f' & E & G).
  { intros i Hi. rewrite (same_val f f2 eq_refl (din x1) (CData i) : bmap f2 (din x1) i = bmap f (din x1) i).
    destruct (decide (bmap f (din x1) i = 0)) as [|Hne]; [done|]. apply Hf in Hne; [|done]. lia. }
  exists f'. split; [exact E|]. eapply (reclaimed_both _ f2 _ _ x1); [|exact G]. split; [done|split; [reflexivity|exact Eb]|done|exact Id| |].
  - intros b. rewrite (same_foreign f f2 eq_refl eq_refl eq_refl x1 b), Fo. exact (same_foreign (fs s) (with_held h (fs s)) eq_refl eq_refl eq_refl (nsin n) b).
  - intros b Hb. rewrite (same_blk f f2 eq_refl b), (K b); [exact (same_blk (fs s) (with_held h (fs s)) eq_refl b)|].
    apply (same_foreign (fs s) (with_held h (fs s)) eq_refl eq_refl eq_refl (nsin n) b). exact Hb.
Qed.

Lemma reclaim_counted h : IoSem ∉ h -> counted (with_held h (fs s)) (set_reclaim 0 (nsin n)).
Proof.
  intros Hh. destruct (same_file_wf (fs s) (with_held h (fs s)) eq_refl eq_refl eq_refl (nsin n) (nf_file _ Wn _ _ Hp)) as [M F _].
  split; [apply wf_held, Wn|]. split; [exact Hh|]. split; [|exact F]. destruct M as [Md Mi Mu Mj]. split; [exact Md|exact Mi|exact Mu|exact Mj].
Qed.

Lemma reclaim_spec : ref_count n = 0 -> open_count n = 0 -> reclaim_count (nsin n) = 1 -> nlinks (din (nsin n)) = 0 -> FsSem ∉ held (fs s) ->
  exists s', sfs_reclaim p s = Ok (0, s') /\ dropped s s' p n.
Proof.
  intros Hr Ho Hrc Hl Hfs. pose proof (nf_io _ Wn) as Hio. set (h := FsSem :: held (fs s)).
  assert (Hioh : IoSem ∉ h) by (unfold h; rewrite elem_of_cons; intros [|H]; [done|exact (Hio H)]).
  unfold sfs_reclaim. rewrite (bind_step _ _ _ _ _ (acquire_node s FsSem Hfs)). fold h. set (s1 := relock h s).
  assert (Hp1 : nodes s1 !! p = Some n) by exact Hp. rewrite (bind_step _ _ _ _ _ (get_sin_spec s1 p n Hp1)). rewrite bind_kassert by (by rewrite Hrc).
  rewrite (bind_step _ _ _ _ _ (upd_sin_spec s1 p n _ Hp1)). rewrite Hrc. change (1 - 1) with 0. change (negb (0 =? 0)) with false. cbv beta iota.
  set (n2 := Node (set_reclaim 0 (nsin n)) (ref_count n) (open_count n)). set (s2 := stepped s1 (fs s1) p n (set_reclaim 0 (nsin n))).
  assert (Hp2 : nodes s2 !! p = Some n2) by (apply lookup_insert_eq). rewrite (bind_step _ _ _ _ _ (get_node_spec s2 p n2 Hp2)).
  rewrite bind_kassert by (cbn [ref_count open_count n2]; by rewrite Hr, Ho). rewrite Hl. change (0 =? 0) with true. cbv beta iota.
  pose proof (reclaim_counted h Hioh) as Hc. pose proof (proj1 (proj2 (proj2 (proj2 Hc)))) as Hn.
  destruct (reclaim_loop_spec (Z.to_nat (dblocks (din (set_reclaim 0 (nsin n))))) _ _ Hc ltac:(lia)) as (f & x1 & E1 & Rz).
  replace (dblocks (din (set_reclaim 0 (nsin n))) - Z.of_nat (Z.to_nat (dblocks (din (set_reclaim 0 (nsin n)))))) with 0 in Rz by lia.
  set (s3 := stepped s2 f p n2 x1). set (n3 := Node x1 (ref_count n2) (open_count n2)).
  rewrite (bind_step _ _ s2 0 s3).
  2: { erewrite (bind_step _ _ s2); [reflexivity|]. apply (on_sin_spec _ s2 p n2); [exact Hp2|]. erewrite bind_step; [reflexivity|exact E1]. }
  change (negb (0 =? 0)) with false. cbv beta iota. assert (Hp3 : nodes s3 !! p = Some n3) by (apply lookup_insert_eq).
  destruct (hash_ok (ino x1)) as [hh Eh]. rewrite (bind_step _ _ _ _ _ (unlist_spec s3 p n3 hh Hp3 Eh)). set (s4 := with_lists _ _ s3).
  destruct (fs_id _ _ _ _ (re_step _ _ _ _ _ Rz)) as (Ei & _ & _ & _ & Enl). destruct (fs_fs _ _ _ _ (re_step _ _ _ _ _ Rz)) as [Ehd _].
  assert (Hh4 : held (fs s4) = FsSem :: held (fs s)) by exact Ehd. rewrite (bind_step _ _ _ _ _ (release_node s4 FsSem (held (fs s)) Hh4 Hfs)).
  set (s5 := relock (held (fs s)) s4). assert (Hp5 : nodes s5 !! p = Some n3) by exact Hp3. rewrite (bind_step _ _ _ _ _ (get_sin_spec s5 p n3 Hp5)).
  replace (nlinks (din (nsin n3)) =? 0) with true by (symmetry; apply Z.eqb_eq; exact (eq_trans Enl Hl)).
  destruct (reclaim_fs h f x1 Rz Hio) as (f' & E5 & R). set (s6 := with_fs f' s5).
  rewrite (bind_step _ _ s5 tt s6) by (unfold on_fs; cbn [nsin n3]; change (fs s5) with (with_held (held (fs s)) f); by rewrite E5).
  assert (Hp6 : nodes s6 !! p = Some n3) by exact Hp3. rewrite (bind_step _ _ _ _ _ (kill_spec s6 p n3 Hp6 Hr Ho)).
  eexists. split; [reflexivity|]. set (s7 := with_nodes _ _). assert (En : nodes s7 = delete p (nodes s)).
  { unfold s7. cbn. by rewrite !delete_insert_eq. }
  destruct (dropped_wf s7 En R) as [W7 K7]. split; [exact W7|exact En|reflexivity| |reflexivity|exact R|exact K7].
  intros h' Eh'. rewrite <- (Ei : ino x1 = ino (nsin n)) in Eh'. rewrite Eh in Eh'. injection Eh' as <-. reflexivity.
Qed.
End reclaim.
