(* ===== verification/SfsUnlink.v ===== *)
(** * SfsUnlink: the inode cache and unlinking

    Looking an inode up in the cache, loading it from its block, and removing its
    name from a directory: a file in use stays, with a link less; a file whose last
    link goes and that nobody uses gives back its blocks. *)

From stdpp Require Import numbers gmap list.
From S2P Require Import Prelude Arith Bitmap Disk Sfs SfsProof SfsMap SfsFree SfsFile SfsNode SfsDir SfsNames SfsReclaim.
Local Open Scope Z_scope.

(** ** Reference counts *)

(** [nodes s'] are nodes of [s] with other counts. *)
Lemma same_sins s s' : fs s' = fs s -> (forall q k, nodes s' !! q = Some k -> exists k0, nodes s !! q = Some k0 /\ nsin k0 = nsin k) -> nfs_wf s -> nfs_wf s'.
Proof.
  intros Ef Hk [W Hio Fi Ap]. split; rewrite ?Ef; [done|done| |].
  - intros q k Hq. destruct (Hk q k Hq) as (k0 & Hq0 & <-). exact (Fi q k0 Hq0).
  - intros q1 q2 k1 k2 H1 H2 Hne. destruct (Hk q1 k1 H1) as (m1 & Hm1 & <-), (Hk q2 k2 H2) as (m2 & Hm2 & <-). exact (Ap q1 q2 m1 m2 Hm1 Hm2 Hne).
Qed.

Definition set_refs (s : nfs) (p : Z) (n : node) (r : Z) : nfs := with_nodes (<[p := Node (nsin n) r (open_count n)]> (nodes s)) s.

Section refs.
Context (s : nfs) (p : Z) (n : node) (Hp : nodes s !! p = Some n).

Lemma set_refs_sin r q k : nodes (set_refs s p n r) !! q = Some k -> exists k0, nodes s !! q = Some k0 /\ nsin k0 = nsin k.
Proof. cbn. rewrite lookup_insert_Some. intros [[<- <-]|[Hne Hq]]; [by exists n|by exists k]. Qed.

Lemma set_refs_wf r : nfs_wf s -> nfs_wf (set_refs s p n r).
Proof. apply same_sins; [done|apply set_refs_sin]. Qed.

Lemma set_refs_lookup r : nodes (set_refs s p n r) !! p = Some (Node (nsin n) r (open_count n)).
Proof. apply lookup_insert_eq. Qed.

Lemma ref_inc_spec : is_s 32 (ref_count n + 1) -> inode_ref_inc p s = Ok (ref_count n + 1, set_refs s p n (ref_count n + 1)).
Proof.
  intros Hr. unfold inode_ref_inc. rewrite (bind_step _ _ _ _ _ (get_node_spec s p n Hp)). unfold upd_node. rewrite bind_assoc_M.
  rewrite (bind_step _ _ _ _ _ (get_node_spec s p n Hp)), bind_modify. by rewrite (smod_small 32) by done.
Qed.

Lemma ref_dec_spec : 1 < ref_count n -> inode_ref_dec p s = Ok (ref_count n - 1, set_refs s p n (ref_count n - 1)).
Proof.
  intros Hr. unfold inode_ref_dec. rewrite (bind_step _ _ _ _ _ (get_node_spec s p n Hp)). rewrite bind_kassert by (apply Z.ltb_lt; lia). cbv zeta.
  rewrite (bind_step _ _ s tt (set_refs s p n (ref_count n - 1))).
  - destruct (Z.eqb_spec (ref_count n - 1) 0); [lia|]. reflexivity.
  - unfold upd_node. by rewrite (bind_step _ _ _ _ _ (get_node_spec s p n Hp)).
Qed.

(** The last reference to a node without links. *)
Lemma ref_dec_last : nfs_wf s -> ref_count n = 1 -> open_count n = 0 -> reclaim_count (nsin n) = 1 -> nlinks (din (nsin n)) = 0 -> FsSem ∉ held (fs s) ->
  exists s', inode_ref_dec p s = Ok (0, s') /\ dropped s s' p n.
Proof.
  intros W Hr Ho Hrc Hl Hfs. unfold inode_ref_dec. rewrite (bind_step _ _ _ _ _ (get_node_spec s p n Hp)). rewrite bind_kassert by (by rewrite Hr). rewrite Hr. change (1 - 1) with 0. cbv zeta.
  set (s1 := set_refs s p n 0). set (n1 := Node (nsin n) 0 (open_count n)). assert (Hp1 : nodes s1 !! p = Some n1) by apply set_refs_lookup.
  rewrite (bind_step _ _ s tt s1) by (unfold upd_node; by rewrite (bind_step _ _ _ _ _ (get_node_spec s p n Hp))). change (0 =? 0) with true. cbv beta iota.
  destruct (reclaim_spec s1 p n1 (set_refs_wf 0 W) Hp1 eq_refl Ho Hrc Hl Hfs) as (s' & E & [Dw Dn Dl Db Dm Dr Dk]).
  rewrite (bind_step _ _ s1 0 s').
  2: { rewrite (bind_step _ _ s1 tt s1); [exact E|]. unfold inode_check. rewrite (bind_step _ _ _ _ _ (get_node_spec s1 p n1 Hp1)). cbn [ref_count open_count n1]. rewrite Ho. reflexivity. }
  exists s'. split; [reflexivity|]. split; [exact Dw| |exact Dl|exact Db|exact Dm|exact Dr|].
  - rewrite Dn. cbn. apply delete_insert_eq.
  - intros q k Hne Hq. apply (Dk q k Hne). cbn. by rewrite lookup_insert_ne.
Qed.
End refs.

(** ** The cache *)

(** [p] is in its bucket, and the bucket holds nodes. *)
Record cached (s : nfs) (p e : Z) : Prop := {
  ca_bucket : exists h, hash32 e SFS_HLIST_SHIFT = Ok h /\ p ∈ bucket s h /\ forall q, q ∈ bucket s h -> is_Some (nodes s !! q) }.

Section cache.
Context (s : nfs) (W : nfs_wf s) (p : Z) (n : node) (Hp : nodes s !! p = Some n).

Lemma ino_inj q k : nodes s !! q = Some k -> ino (nsin k) = ino (nsin n) -> q = p.
Proof. intros Hq E. destruct (decide (q = p)) as [|Hne]; [done|]. by destruct (nf_apart _ W q p k n Hq Hp Hne) as [Hi _]. Qed.

Lemma lookup_loop_spec l : p ∈ l -> (forall q, q ∈ l -> is_Some (nodes s !! q)) -> 0 < ref_count n -> is_s 32 (ref_count n + 1) ->
  lookup_loop l (ino (nsin n)) s = Ok (Some p, set_refs s p n (ref_count n + 1)).
Proof.
  intros Hin Hall Hr Hr'. induction l as [|q l IH]; [by apply not_elem_of_nil in Hin|]. cbn [lookup_loop].
  destruct (Hall q ltac:(by left)) as [k Hq]. rewrite (bind_step _ _ _ _ _ (get_sin_spec s q k Hq)). destruct (Z.eqb_spec (ino (nsin k)) (ino (nsin n))) as [E|Hne].
  - assert (q = p) as -> by (by eapply ino_inj). rewrite (bind_step _ _ _ _ _ (ref_inc_spec s p n Hp Hr')). destruct (Z.eqb_spec (ref_count n + 1) 1); [lia|]. reflexivity.
  - apply IH; [|intros q' Hq'; apply Hall; by right]. apply elem_of_cons in Hin as [->|]; [|done]. rewrite Hp in Hq. injection Hq as <-. done.
Qed.

End cache.

Lemma relock_id h s : relock (held (fs s)) (relock h s) = s.
Proof. destruct s as [[]]. reflexivity. Qed.

Lemma fs_io s : nfs_wf s -> IoSem ∉ FsSem :: held (fs s).
Proof. intros W. rewrite elem_of_cons. intros [|H]; [done|exact (nf_io _ W H)]. Qed.

Lemma load_cached s p n : nfs_wf s -> nodes s !! p = Some n -> cached s p (ino (nsin n)) -> 0 < ref_count n -> is_s 32 (ref_count n + 1) -> FsSem ∉ held (fs s) ->
  sfs_load_inode (ino (nsin n)) s = Ok ((0, Some p), set_refs s p n (ref_count n + 1)).
Proof.
  intros W Hp [(h & Eh & Hin & Hall)] Hr Hr' Hfs. unfold sfs_load_inode. set (s1 := relock (FsSem :: held (fs s)) s).
  assert (W1 : nfs_wf s1) by (apply relock_wf; [by apply fs_io|done]). assert (Hp1 : nodes s1 !! p = Some n) by exact Hp.
  rewrite (bind_step _ _ _ _ _ (acquire_node s FsSem Hfs)). fold s1. set (s2 := set_refs s1 p n (ref_count n + 1)).
  rewrite (bind_step _ _ s1 (Some p) s2).
  - rewrite (bind_step _ _ s2 (0, Some p) s2) by reflexivity. rewrite (bind_step _ _ _ _ _ (release_node s2 FsSem (held (fs s)) eq_refl Hfs)).
    by rewrite <- (relock_id (FsSem :: held (fs s)) (set_refs s p n (ref_count n + 1))).
  - unfold lookup_sfs_nolock. rewrite (bind_step _ _ s1 h s1) by (unfold sin_hashfn, lift_out; by rewrite Eh). rewrite bind_get. by apply lookup_loop_spec.
Qed.

(** ** Unlinking a file in use *)

(** [sfs_unlink_nolock] once the entry was found. *)
Definition unlink_found (p e slot : Z) : M nfs Z :=
  '(ret, lp) ← sfs_load_inode e;
  match lp with
  | None => mret ret
  | Some lp =>
      l ← get_sin lp;
      ret ← (if negb (type (din l) =? SFS_TYPE_DIR) then sfs_dirent_unlink_nolock p slot lp else unlink_dir p slot lp);
      _ ← inode_ref_dec lp;
      mret ret
  end.

Section refs_node.
Context (t : nfs) (p lp : Z) (n m : node) (r : Z) (Hlp : nodes t !! lp = Some m) (Hne : p <> lp).

Lemma set_refs_dir : dir_node t p n -> dir_node (set_refs t lp m r) p n.
Proof. intros [W Hm Hp Ht U]. split; [by apply set_refs_wf|exact Hm| |exact Ht|exact U]. cbn. by rewrite lookup_insert_ne. Qed.

(** The reference taken and dropped around it does not show. *)
Lemma linked_refs t' d nm n' : let m2 := Node (nsin m) r (open_count m) in
  linked (set_refs t lp m r) t' p lp n m2 d nm -> nodes t' !! lp = Some n' -> nsin n' = add_nlinks d (nsin m) -> open_count n' = open_count m ->
  linked t (set_refs t' lp n' (ref_count m)) p lp n m d nm.
Proof.
  intros m2 [W M H K (n1 & En & Dn & Cn & Hin & Hs & Hnm)] Hlp' Hsin Hopen.
  split; [by apply set_refs_wf|exact M|exact H| |].
  - intros q k Hq Hk. destruct (decide (q = lp)) as [->|Hql].
    + rewrite Hlp in Hk. injection Hk as <-. exact (K lp m2 Hq (set_refs_lookup t lp m r)).
    + apply (K q k Hq). cbn. by rewrite lookup_insert_ne.
  - exists n1. split; [|split; [|split; [exact Cn|split; [exact Hin|split; [exact Hs|exact Hnm]]]]].
    + cbn. rewrite En, Hsin, Hopen, insert_insert_eq. cbn. rewrite (insert_insert_ne _ p lp) by done. by rewrite insert_insert_eq.
    + destruct Dn as [Dw Dm Dp Dt Du]. split; [by apply set_refs_wf|exact Dm| |exact Dt|exact Du]. cbn. by rewrite lookup_insert_ne.
Qed.
End refs_node.

Lemma unlink_in_use t p lp n m slot name : dir_node t p n -> counts t p n -> nodes t !! lp = Some m -> p <> lp -> cached t lp (ino (nsin m)) ->
  0 < ref_count m < MAX_INODE_COUNT -> FsSem ∉ held (fs t) -> type (din (nsin m)) <> SFS_TYPE_DIR -> nlinks (din (nsin m)) <> 0 ->
  0 <= slot < dblocks (din (nsin n)) -> dir_of (fs t) (nsin n) !! Z.to_nat slot = Some (ino (nsin m), name) ->
  exists t', unlink_found p (ino (nsin m)) slot t = Ok (0, t') /\ linked t t' p lp n m (-1) (delete name (names (dir_of (fs t) (nsin n)))).
Proof.
  intros D C Hlp Hne Hc [Hr Hmax] Hfs Hty Hnl Hs Hl. unfold unlink_found. pose proof (dn_wf _ _ _ D) as W.
  assert (Hrs : is_s 32 (ref_count m + 1)) by (unfold is_s; change MAX_INODE_COUNT with 65536 in Hmax; lia).
  rewrite (bind_step _ _ _ _ _ (load_cached t lp m W Hlp Hc Hr Hrs Hfs)). cbv beta iota.
  set (t1 := set_refs t lp m (ref_count m + 1)). set (m2 := Node (nsin m) (ref_count m + 1) (open_count m)).
  assert (Hlp1 : nodes t1 !! lp = Some m2) by apply set_refs_lookup. rewrite (bind_step _ _ _ _ _ (get_sin_spec t1 lp m2 Hlp1)). cbn [nsin m2].
  destruct (Z.eqb_spec (type (din (nsin m))) SFS_TYPE_DIR); [done|]. cbn [negb].
  pose proof (set_refs_dir t p lp n m (ref_count m + 1) Hlp Hne D) as D1. assert (He : ino (nsin m) <> 0) by (apply (ino_range t p lp n m D Hlp)).
  destruct (dirent_unlink_spec t1 p lp n m2 D1 C Hlp1 Hne slot (ino (nsin m)) name Hs Hl He Hnl) as (t2 & E2 & L2). rewrite (bind_step _ _ _ _ _ E2).
  destruct (li_dir _ _ _ _ _ _ _ _ L2) as (n1 & En & _). set (m3 := Node (add_nlinks (-1) (nsin m)) (ref_count m + 1) (open_count m)).
  assert (Hlp2 : nodes t2 !! lp = Some m3) by (rewrite En; apply lookup_insert_eq).
  rewrite (bind_step _ _ _ _ _ (ref_dec_spec t2 lp m3 Hlp2 ltac:(cbn; lia))). eexists. split; [reflexivity|].
  replace (ref_count m3 - 1) with (ref_count m) by (cbn; lia). exact (linked_refs t p lp n m (ref_count m + 1) Hlp Hne t2 (-1) _ m3 L2 Hlp2 eq_refl eq_refl).
Qed.

(** ** [sfs_unlink] *)

(** A file in memory that is in use. *)
Record used_file (s : nfs) (lp : Z) (m : node) : Prop := {
  uf_node : nodes s !! lp = Some m;
  uf_cache : cached s lp (ino (nsin m));
  uf_refs : 0 < ref_count m < MAX_INODE_COUNT;
  uf_type : type (din (nsin m)) <> SFS_TYPE_DIR;
  uf_links : nlinks (din (nsin m)) <> 0 }.

Lemma used_file_with s s' lp m : nodes s' = nodes s -> hash_list s' = hash_list s -> used_file s lp m -> used_file s' lp m.
Proof.
  intros En Eh [Un [(h & E & Hin & Hall)] Ur Ut Ul]. split; [by rewrite En| |done|done|done]. split. exists h. unfold bucket. rewrite Eh, En. by split.
Qed.

Section unlink.
Context (s : nfs) (p : Z) (n : node) (I : idle_dir s p n) (name : list Z) (Hg : good_name name).
Context (lp : Z) (m : node) (U : used_file s lp m) (Hne : p <> lp) (Hfs : FsSem ∉ held (fs s)).
Let nm := names (dir_of (fs s) (nsin n)).
Let h := SinSem (ino (nsin n)) :: held (fs s).

Lemma unlink_spec : (forall e, nm !! name = Some e -> e = ino (nsin m)) ->
  exists r s', while_locked p id (sfs_unlink_nolock p name) s = Ok (r, s') /\
    match nm !! name with
    | None => r = - E_NOENT /\ unchanged s p n s'
    | Some _ => r = 0 /\ linked s s' p lp n m (-1) (delete name nm)
    end.
Proof.
  intros Hu. pose proof I as [D C Hr Hlv Hlk]. pose proof (nf_io _ (dn_wf _ _ _ D)) as Hio.
  destruct (locked_search s p n I name Hg) as (found & slot & f & E & D1 & C1 & Hh & Ed & K & Hnm & Hf). fold h in E, D1, C1, Hh, K. fold nm in Hnm. set (t := with_fs f (relock h s)) in *.
  assert (Hrun : forall r s1 n1, sfs_unlink_nolock p name (relock h s) = Ok (r, s1) -> held (fs s1) = h -> nodes s1 !! p = Some n1 -> ino (nsin n1) = ino (nsin n) ->
    while_locked p id (sfs_unlink_nolock p name) s = Ok (r, relock (held (fs s)) s1)).
  { intros r s1 n1 E1 Hh1 Hn1 Hi1. exact (while_locked_spec id _ s p n r s1 n1 (dn_node _ _ _ D) Hlv Hlk E1 Hn1 Hi1 Hh1). }
  unfold sfs_unlink_nolock in Hrun. rewrite (bind_step _ _ _ _ _ E) in Hrun. rewrite Hnm in Hu |- *. destruct found as [[e k]|]; cbn [fmap option_fmap option_map fst] in Hu |- *.
  2: { exists (- E_NOENT), (relock (held (fs s)) t). split; [exact (Hrun _ _ n eq_refl Hh (dn_node _ _ _ D) eq_refl)|]. split; [reflexivity|exact (unchanged_search s p n I f D1 Ed K)]. }
  change (negb (0 =? 0)) with false in Hrun. cbv beta iota in Hrun. destruct Hf as (He & Hk & Hl). pose proof (Hu e eq_refl) as Ee. subst e.
  destruct (used_file_with s t lp m eq_refl eq_refl U) as [Un Uc Ur Ut Ul].
  assert (Hfs1 : FsSem ∉ held (fs t)) by (change (held (fs t)) with (held f); rewrite Hh; unfold h; rewrite elem_of_cons; intros [|H]; [done|exact (Hfs H)]).
  rewrite <- Ed in Hl. destruct (unlink_in_use t p lp n m k name D1 C1 Un Hne Uc Ur Hfs1 Ut Ul Hk Hl) as (t' & E' & L).
  exists 0, (relock (held (fs s)) t'). destruct (li_dir _ _ _ _ _ _ _ _ L) as (n1 & En & Dn & _ & Hi1 & _).
  split; [exact (Hrun _ _ n1 E' (eq_trans (li_held _ _ _ _ _ _ _ _ L) Hh) (dn_node _ _ _ Dn) Hi1)|]. split; [reflexivity|].
  unfold nm. rewrite <- Ed. exact (linked_relock s t t' h p lp n m (-1) _ eq_refl eq_refl K Hio L).
Qed.
End unlink.
