(* ===== verification/SfsSync.v ===== *)
(** * SfsSync: inodes written to disk and read again

    [sfs_fsync] stores a changed inode in its block; [sfs_load_inode] makes of that
    block the same inode again. *)

From stdpp Require Import numbers gmap list.
From S2P Require Import Prelude Arith Bitmap Disk Sfs SfsProof SfsMap SfsFree SfsFile SfsNode SfsDir SfsNames SfsReclaim.
Local Open Scope Z_scope.

(** ** The bytes of an inode *)

(** Fields that fit their width. *)
Record din_wf (d : sfs_disk_inode) : Prop := {
  dw_size : is_u 32 (size_slots d);
  dw_parent : is_u 32 (dparent d);
  dw_type : is_u 16 (type d);
  dw_nlinks : is_u 16 (nlinks d);
  dw_blocks : is_u 32 (dblocks d);
  dw_len : length (direct d) = Z.to_nat SFS_NDIRECT;
  dw_direct : Forall (is_u 32) (direct d);
  dw_ind : is_u 32 (indirect d);
  dw_db : is_u 32 (db_indirect d) }.

Lemma get_put16 z : is_u 16 z -> get_u16 (put_u16 z) = z.
Proof. unfold is_u, get_u16, put_u16. intros. Z.to_euclidean_division_equations. lia. Qed.

Lemma length_puts l : length (l ≫= put_u32) = (4 * length l)%nat.
Proof. induction l as [|z l IH]; [done|]. cbn [mbind list_bind]. rewrite length_app, IH. cbn [length put_u32]. lia. Qed.

Lemma length_din d : din_wf d -> Z.of_nat (length (din_bytes d)) = DIN_SIZE.
Proof. intros Wd. unfold din_bytes. rewrite !length_app, length_puts, (dw_len _ Wd). reflexivity. Qed.

Lemma din_of_bytes d : din_wf d -> din_of (din_bytes d) = d.
Proof.
  intros [H1 H2 H3 H4 H5 Hl Hd H6 H7]. destruct d as [sz pa ty nl bl dl i1 i2]. cbn in *.
  do 12 (destruct dl as [|? dl]; [discriminate Hl|]). destruct dl; [|discriminate Hl]. repeat (apply Forall_cons in Hd as [? Hd]).
  match goal with |- _ = Din _ _ _ _ _ [?a; ?b; ?c; ?d; ?e; ?f; ?g; ?h; ?i; ?j; ?k; ?l] _ _ =>
    transitivity (Din (get_u32 (put_u32 sz)) (get_u32 (put_u32 pa)) (get_u16 (put_u16 ty)) (get_u16 (put_u16 nl)) (get_u32 (put_u32 bl))
      ((fun z => get_u32 (put_u32 z)) <$> [a; b; c; d; e; f; g; h; i; j; k; l]) (get_u32 (put_u32 i1)) (get_u32 (put_u32 i2))) end.
  - reflexivity.
  - cbn [fmap list_fmap]. by rewrite !get_put, !get_put16.
Qed.

(** ** [sfs_fsync] *)

(** The state after the inode [x] of [p] was written: nothing but its block. *)
Record synced (s s' : nfs) (p : Z) (n : node) : Prop := {
  sy_nodes : nodes s' = <[p := Node (set_dirty false (nsin n)) (ref_count n) (open_count n)]> (nodes s);
  sy_mem : mem s' = mem s;
  sy_fs : eff (fs s) (fs s') (used (fs s)) (at_ (ino (nsin n)) (splice (blk (fs s) (ino (nsin n))) 0 (din_bytes (din (nsin n)))) (blk (fs s))) }.

Section sync.
Context (s : nfs) (p : Z) (n : node) (W : nfs_wf s) (Hp : nodes s !! p = Some n) (Wd : din_wf (din (nsin n))).
Let x := nsin n.

Lemma ino_block : 0 < ino x < blocks (super (fs s)).
Proof. exact (used_range _ _ (mw_ino _ _ (fw_map _ _ (nf_file _ W _ _ Hp)))). Qed.

Lemma fsync_spec : nlinks (din x) <> 0 -> dirty x = true -> removed x = false -> SinSem (ino x) ∉ held (fs s) ->
  exists s', sfs_fsync p s = Ok (0, s') /\ synced s s' p n.
Proof.
  intros Hl Hdirty Hrm Hlk. set (h := SinSem (ino x) :: held (fs s)). pose proof (nf_io _ W) as Hio.
  assert (Hioh : IoSem ∉ h) by (unfold h; rewrite elem_of_cons; intros [|H]; [done|exact (Hio H)]).
  unfold sfs_fsync. rewrite (bind_step _ _ _ _ _ (get_sin_spec s p n Hp)). fold x. rewrite Hdirty. destruct (Z.eqb_spec (nlinks (din x)) 0); [done|]. cbn [negb orb].
  rewrite (bind_step _ _ _ _ _ (lock_node s p n Hp Hrm Hlk)). change (negb (0 =? 0)) with false. cbv beta iota. fold x h. set (s1 := relock h s).
  assert (Hp1 : nodes s1 !! p = Some n) by exact Hp. pose proof (wf_held h _ (nf_fs _ W)) as W1.
  set (s2 := stepped s1 (fs s1) p n (set_dirty false x)). set (n2 := Node (set_dirty false x) (ref_count n) (open_count n)).
  assert (Hb : 0 < ino x < blocks (super (fs s1))) by exact ino_block.
  destruct (wbuf_spec (fs s1) W1 Hioh (ino x) 0 DIN_SIZE (din_bytes (din x)) Hb ltac:(done) ltac:(done) (length_din _ Wd)) as (f & E & [We [Eh Eb] Eu Ek]).
  set (s3 := with_fs f s2). rewrite (bind_step _ _ s1 0 s3).
  - assert (Hp3 : nodes s3 !! p = Some n2) by apply lookup_insert_eq. assert (Hh3 : held (fs s3) = SinSem (ino (nsin n2)) :: held (fs s)) by exact Eh.
    rewrite (bind_step _ _ _ _ _ (unlock_node s3 p n2 (held (fs s)) Hp3 Hh3 Hlk)). eexists. split; [reflexivity|]. split; [reflexivity|reflexivity|].
    change (fs (relock (held (fs s)) s3)) with (with_held (held (fs s)) f). split; [by apply wf_held|split; [reflexivity|exact Eb]| |].
    + intros c Hc. rewrite (same_used f (with_held (held (fs s)) f) eq_refl eq_refl c), Eu by done. exact (same_used (fs s) (with_held h (fs s)) eq_refl eq_refl c).
    + intros c Hc. rewrite (same_blk f (with_held (held (fs s)) f) eq_refl c), Ek by done.
      assert (Es : forall b, blk (fs s1) b = blk (fs s) b) by (intros b; exact (same_blk (fs s) (with_held h (fs s)) eq_refl b)). unfold at_, x. by rewrite !Es.
  - rewrite (bind_step _ _ _ _ _ (upd_sin_spec s1 p n (set_dirty false) Hp1)). fold x s2.
    rewrite (bind_step _ _ s2 0 s3) by (unfold on_fs; change (fs s2) with (fs s1); by rewrite E). reflexivity.
Qed.

(** What is read from the block of the inode then. *)
Lemma synced_bytes s' : synced s s' p n -> din_of (bytes_at (blk (fs s') (ino x)) 0 DIN_SIZE) = din x.
Proof.
  intros [_ _ [We Ef Eu Ek]]. rewrite Ek by (pose proof ino_block; lia). unfold x. rewrite at_eq. pose proof (length_din _ Wd) as Hlen. rewrite <- Hlen.
  rewrite bytes_at_splice_same; [by apply din_of_bytes|done|]. rewrite Hlen, length_blk; [done|apply W|apply ino_block].
Qed.
End sync.

(** ** Loading *)

Lemma load_disk_spec s e d : sfs_wf (fs s) -> io_free (fs s) -> mem s = [] -> used (fs s) e = true -> din_of (bytes_at (blk (fs s) e) 0 DIN_SIZE) = d -> nlinks d <> 0 ->
  type d = SFS_TYPE_DIR \/ type d = SFS_TYPE_FILE ->
  exists s', load_from_disk e s = Ok ((0, Some (next_node s)), s') /\ nodes s' = <[next_node s := Node (Sin d e false false 1) 1 0]> (nodes s) /\ steady (fs s) (fs s').
Proof.
  intros Wf Hio Hm Hu Hd Hl Ht. pose proof (used_range _ _ Hu) as Hr. unfold load_from_disk. rewrite (bind_step _ _ _ _ _ (kmalloc_spec s Hm)). cbn [negb].
  rewrite (bind_step _ _ s true s) by (unfold on_fs; rewrite (inuse_spec _ _ Wf Hr), Hu; by destruct s). rewrite bind_kassert by done.
  destruct (rbuf_spec (fs s) Wf Hio e 0 DIN_SIZE Hr ltac:(done) ltac:(done)) as (f & E & Heff). set (s1 := with_fs f s).
  rewrite (bind_step _ _ s (0, bytes_at (blk (fs s) e) 0 DIN_SIZE) s1) by (unfold on_fs; by rewrite E). cbv beta iota. change (negb (0 =? 0)) with false. cbv beta iota.
  rewrite Hd. rewrite bind_kassert by (by destruct (Z.eqb_spec (nlinks d) 0)).
  set (s2 := Nfs (fs s1) (<[next_node s1 := Node (Sin d e false false 1) 1 0]> (nodes s1)) (inode_list s1) (hash_list s1) (mem s1) (next_node s1 + 1)).
  rewrite (bind_step _ _ s1 (0, Some (next_node s)) s2).
  - cbv beta iota. assert (Hp2 : nodes s2 !! next_node s = Some (Node (Sin d e false false 1) 1 0)) by apply lookup_insert_eq. destruct (hash_ok e) as [h Eh].
    unfold sfs_set_links. rewrite bind_assoc_M, (bind_step _ _ _ _ _ (get_sin_spec s2 _ _ Hp2)). cbn [nsin ino].
    rewrite bind_assoc_M, (bind_step _ _ s2 h s2) by (unfold sin_hashfn, lift_out; by rewrite Eh). rewrite bind_modify. eexists. split; [reflexivity|]. split; [reflexivity|by apply eff_steady].
  - unfold sfs_create_inode. rewrite (bind_step _ _ _ _ _ (kmalloc_spec s1 Hm)). cbn [negb]. unfold sfs_get_ops. rewrite bind_kassert by (by destruct Ht as [-> | ->]). reflexivity.
Qed.
