(* ===== verification/SfsLinks.v ===== *)
(** * SfsLinks: the operations on names

    What [sfs_link] and [sfs_rename] within a directory do to the map of its
    names, with all locks taken and released. *)

From stdpp Require Import numbers gmap list.
From S2P Require Import Prelude Arith Bitmap Disk Sfs SfsProof SfsMap SfsFree SfsFile SfsNode SfsDir SfsNames SfsReclaim SfsUnlink SfsSync.
Local Open Scope Z_scope.

(** ** A small file system

    Eight blocks: 3 is the inode of a file [a] of two bytes in block 4, 5 the inode of
    a directory with the one entry [a] in block 6, and 7 is free.  The nodes are 0, the
    directory, and 1, the file. *)

Definition tree_image : list Z := splice (splice (replicate 32768 0) (4 * BLKSIZE) [104; 105]) (6 * BLKSIZE) (entry_bytes 3 [97]).
Definition tree_fs : sfs_fs := Sfs (Super 0x2f8dbe2a 8 1 []) false (Bitmap 8 1 [0x80]) (Disk tree_image 64 8 false (replicate 16384 0)) [].
Definition tree_dir : sfs_inode := Sin (Din 1 5 SFS_TYPE_DIR 2 1 (6 :: replicate 11 0) 0 0) 5 false false 1.
Definition tree_file (links : Z) (d : bool) : sfs_inode := Sin (Din 2 0 SFS_TYPE_FILE links 1 (4 :: replicate 11 0) 0 0) 3 false d 1.
Definition bucket_of (e : Z) : Z := match hash32 e SFS_HLIST_SHIFT with Ok h => h | Err _ => 0 end.
Definition tree (links : Z) (d : bool) : nfs :=
  Nfs tree_fs {[0 := Node tree_dir 1 0; 1 := Node (tree_file links d) 1 0]} [1; 0] {[bucket_of 3 := [1]; bucket_of 5 := [0]]} [] 2.

Lemma tree_free b : 0 <= b -> is_free (Bitmap 8 1 [0x80]) b = (b =? 7).
Proof.
  intros Hb. destruct (decide (b < 32)) as [Hs|Hs].
  - assert (Hall : forallb (fun b => bool_decide (is_free (Bitmap 8 1 [0x80]) b = (b =? 7))) (seqZ 0 32) = true) by (vm_compute; reflexivity).
    rewrite forallb_forall in Hall. specialize (Hall b). rewrite bool_decide_eq_true in Hall. apply Hall, list_elem_of_In, elem_of_seqZ. lia.
  - unfold is_free, word. cbn [map_]. rewrite lookup_ge_None_2; [|simpl; unfold WORD_BITS; Z.to_euclidean_division_equations; lia].
    cbn [default from_option]. rewrite Z.testbit_0_l. by destruct (Z.eqb_spec b 7); [lia|].
Qed.

Lemma tree_fs_wf : sfs_wf tree_fs.
Proof.
  split.
  - split; try (vm_compute; reflexivity). split; vm_compute; discriminate.
  - reflexivity.
  - split; [split; vm_compute; reflexivity|vm_compute; reflexivity..|by repeat constructor|].
    intros i Hi. cbn in Hi. rewrite tree_free by lia. destruct (Z.eqb_spec i 7); [lia|done].
  - split; [|vm_compute; reflexivity]. split; [vm_compute; reflexivity|vm_compute; discriminate].
  - vm_compute. discriminate.
  - intros b Hb. cbn [freemap tree_fs]. rewrite tree_free by done. rewrite Z.eqb_eq. intros ->. split; [done|vm_compute; reflexivity].
  - vm_compute. reflexivity.
Qed.

(** An inode with direct blocks only. *)
Section small.
Context (s : sfs_fs) (x : sfs_inode) (Hi : indirect (din x) = 0) (Hd : db_indirect (din x) = 0).

Lemma small_val c : valid c -> val s (din x) c = match c with CData i => if i <? SFS_NDIRECT then nth_direct (din x) i else 0 | _ => 0 end.
Proof. destruct c as [i| | |k]; intros Hc; cbn; [|done|done|by rewrite Hd]. unfold bmap. rewrite Hi, Hd. destruct (i <? SFS_NDIRECT); [done|]. by destruct (i <? NIND). Qed.

Lemma small_owns b : owns s (din x) b -> b = 0 \/ b ∈ direct (din x).
Proof.
  intros (c & Hc & <-). rewrite small_val by done. destruct c as [i| | |k]; [|by left..]. destruct (i <? SFS_NDIRECT); [|by left].
  unfold nth_direct. destruct (direct (din x) !! Z.to_nat i) as [b|] eqn:E; [right|by left]. by eapply list_elem_of_lookup_2.
Qed.
End small.

(** One block, the first. *)
Lemma one_block_wf s e b sz pa ty nl dt : used s e = true -> used s b = true -> b <> e -> 0 <= sz <= BLKSIZE -> file_wf s (Sin (Din sz pa ty nl 1 (b :: replicate 11 0) 0 0) e false dt 1).
Proof.
  intros He Hb Hne Hs. set (x := Sin _ _ _ _ _). apply used_pos in Hb as Hbp.
  assert (Hv : forall c, valid c -> val s (din x) c = if decide (c = CData 0) then b else 0).
  { intros c Hc. rewrite (small_val s x eq_refl eq_refl c Hc). destruct c as [i| | |k]; [|done|done|done]. cbn in Hc. destruct (Z.ltb_spec i SFS_NDIRECT) as [Hl|Hl].
    - unfold nth_direct. cbn [direct din x]. destruct (decide (i = 0)) as [->|Hn]; [by rewrite decide_True|]. rewrite decide_False by congruence.
      replace (Z.to_nat i) with (S (Z.to_nat (i - 1))) by lia. change ((b :: replicate 11 0) !! S (Z.to_nat (i - 1))) with (replicate 11 0 !! Z.to_nat (i - 1)).
      rewrite lookup_replicate_2; [done|]. change SFS_NDIRECT with 12 in *. lia.
    - rewrite decide_False; [done|]. intros [= ->]. change SFS_NDIRECT with 12 in *. lia. }
  split; [split|split|].
  - reflexivity.
  - exact He.
  - intros c Hc. rewrite Hv by done. case_decide; [|done]. by intros _.
  - intros c1 c2 H1 H2. rewrite !Hv by done. repeat case_decide; subst; done || lia.
  - cbn. nums. lia.
  - intros i Hc. rewrite (Hv (CData i) Hc : bmap s (din x) i = _). cbn. case_decide as E; [injection E as ->; lia|]. split; [done|]. intros Hlt. destruct E. f_equal. lia.
  - cbn [size_slots dblocks din x]. lia.
Qed.

Lemma tree_wf links d : nfs_wf (tree links d).
Proof.
  assert (Hnode : forall p n, nodes (tree links d) !! p = Some n -> p = 0 /\ nsin n = tree_dir \/ p = 1 /\ nsin n = tree_file links d).
  { intros p n. cbn [nodes tree]. rewrite lookup_insert_Some. intros [[<- <-]|[_ [<- <-]%lookup_singleton_Some]]; [by left|by right]. }
  split.
  - exact tree_fs_wf.
  - unfold io_free. cbn. apply not_elem_of_nil.
  - intros p n Hp. destruct (Hnode p n Hp) as [[_ ->]|[_ ->]]; apply one_block_wf; try (vm_compute; reflexivity); try done; split; vm_compute; discriminate.
  - assert (Ho : forall b, owns tree_fs (din tree_dir) b -> b = 0 \/ b = 6).
    { intros b Hb. apply (small_owns tree_fs tree_dir eq_refl eq_refl) in Hb as [|Hb]; [by left|]. cbn in Hb. set_unfold in Hb. lia. }
    assert (Ho2 : forall b, owns tree_fs (din (tree_file links d)) b -> b = 0 \/ b = 4).
    { intros b Hb. apply (small_owns tree_fs (tree_file links d) eq_refl eq_refl) in Hb as [|Hb]; [by left|]. cbn in Hb. set_unfold in Hb. lia. }
    intros p q n m Hp Hq Hne. destruct (Hnode p n Hp) as [[-> ->]|[-> ->]], (Hnode q m Hq) as [[-> ->]|[-> ->]]; try done; (split; [done|split]);
      [intros [|]%Ho; done|intros b Hb [|]%Ho2 [|]%Ho; lia|intros [|]%Ho2; done|intros b Hb [|]%Ho [|]%Ho2; lia].
Qed.

Lemma tree_entries : dir_of tree_fs tree_dir = [(3, [97])].
Proof. vm_compute. reflexivity. Qed.

Lemma tree_names : names (dir_of tree_fs tree_dir) = {[ [97] := 3 ]}.
Proof. rewrite tree_entries. reflexivity. Qed.

Lemma tree_idle links d : idle_dir (tree links d) 0 (Node tree_dir 1 0).
Proof.
  split; [split; [apply tree_wf|reflexivity|reflexivity|reflexivity|]| |vm_compute; reflexivity|reflexivity|cbn; apply not_elem_of_nil].
  - change (fs (tree links d)) with tree_fs. change (nsin (Node tree_dir 1 0)) with tree_dir. rewrite tree_entries. intros [|i] [|j] e e' nm H1 H2 _ _; done.
  - unfold counts. change (fs (tree links d)) with tree_fs. change (nsin (Node tree_dir 1 0)) with tree_dir. rewrite tree_names. reflexivity.
Qed.

(** ** Theorems *)

(** A name that may be given to a file. *)
Definition proper_name (name : list Z) : Prop := good_name name /\ is_dot name = false /\ is_dotdot name = false.

(** C8: [sfs_link] of a file under a proper name in a directory nobody has locked: it
    returns, without a failed assertion and with its locks released.  When the name is
    taken the result is [-E_EXISTS] and no name and no file changes; otherwise the map
    of names gets the name with the number of the inode, the link count of the file
    and the counter of the directory go up by one, and the bytes of every other file in
    memory are kept; or the result is [-E_NO_MEM], every block but at most one in use,
    and the names are as they were. *)
Theorem sfs_link_refines s p n lp m name : idle_dir s p n -> proper_name name -> nodes s !! lp = Some m -> p <> lp -> type (din (nsin m)) <> SFS_TYPE_DIR ->
  let nm := names (dir_of (fs s) (nsin n)) in
  exists r s', sfs_link p name lp s = Ok (r, s') /\
    match nm !! name with
    | Some _ => r = - E_EXISTS /\ unchanged s p n s'
    | None => r = 0 /\ linked s s' p lp n m 1 (<[name := ino (nsin m)]> nm) \/ r = - E_NO_MEM /\ no_room s p n s'
    end.
Proof. intros I (Hg & Hd & Hdd) Hlp Hne Ht. exact (link_spec s p n I name Hg Hd Hdd lp m Hlp Hne Ht). Qed.

Lemma proper_b : proper_name [98].
Proof. split; [|done]. split; [by repeat constructor|done]. Qed.
Lemma proper_a : proper_name [97].
Proof. split; [|done]. split; [by repeat constructor|done]. Qed.

Lemma sfs_link_refines_witness : exists r s', sfs_link 0 [98] 1 (tree 1 false) = Ok (r, s') /\
  (r = 0 /\ linked (tree 1 false) s' 0 1 (Node tree_dir 1 0) (Node (tree_file 1 false) 1 0) 1 {[ [98] := 3; [97] := 3 ]} \/ r = - E_NO_MEM /\ no_room (tree 1 false) 0 (Node tree_dir 1 0) s').
Proof.
  destruct (sfs_link_refines (tree 1 false) 0 (Node tree_dir 1 0) 1 (Node (tree_file 1 false) 1 0) [98] (tree_idle 1 false) proper_b eq_refl ltac:(done) ltac:(done)) as (r & s' & E & H).
  change (fs (tree 1 false)) with tree_fs in H. change (nsin (Node tree_dir 1 0)) with tree_dir in H. rewrite tree_names in H. exists r, s'. exact (conj E H).
Defined.

Lemma in_mutex {A} (m : M nfs A) s a s' : MutexSem ∉ held (fs s) -> m (relock (MutexSem :: held (fs s)) s) = Ok (a, s') -> held (fs s') = MutexSem :: held (fs s) ->
  (_ ← on_fs (acquire MutexSem); a ← m; _ ← on_fs (release MutexSem); mret a) s = Ok (a, relock (held (fs s)) s').
Proof.
  intros Hm E Eh. rewrite (bind_step _ _ _ _ _ (acquire_node s MutexSem Hm)), (bind_step _ _ _ _ _ E).
  by rewrite (bind_step _ _ _ _ _ (release_node s' MutexSem (held (fs s)) Eh Hm)).
Qed.

(** C34: [sfs_rename] within a directory: nothing changes when the names are the same,
    when the old name is not there ([-E_NOENT]) or the new one is ([-E_EXISTS]);
    otherwise the new name stands for the inode of the old one, which is gone, and the
    bytes of every other file are kept.  The two locks are released. *)
Theorem sfs_rename_within s p n name new : idle_dir s p n -> MutexSem ∉ held (fs s) -> proper_name name -> proper_name new ->
  let nm := names (dir_of (fs s) (nsin n)) in
  (forall e, nm !! name = Some e -> is_u 32 e) ->
  exists r s', sfs_rename p name p new s = Ok (r, s') /\
    if decide (name = new) then r = 0 /\ unchanged s p n s'
    else match nm !! name, nm !! new with
         | None, _ => r = - E_NOENT /\ unchanged s p n s'
         | Some _, Some _ => r = - E_EXISTS /\ unchanged s p n s'
         | Some e, None => r = 0 /\ renamed s p s' (<[new := e]> (delete name nm))
         end.
Proof.
  intros I Hm (Hg & Hd & Hdd) (Hg2 & Hd2 & Hdd2) nm Hu. unfold sfs_rename. rewrite (name_fits name Hg), (name_fits new Hg2), Hd, Hdd, Hd2, Hdd2, Z.eqb_refl. cbn [orb].
  pose proof (outer_idle s p n MutexSem ltac:(done) ltac:(done) I) as I1. pose proof (outer_names s n MutexSem) as En.
  destruct (rename1_spec _ p n I1 name Hg new Hg2) as (r & s' & E & Hres); [by rewrite En|]. rewrite En in Hres. fold nm in Hres.
  assert (Eh : held (fs s') = MutexSem :: held (fs s)) by (case_decide; [apply Hres|]; repeat case_match; apply Hres).
  exists r, (relock (held (fs s)) s'). split; [exact (in_mutex _ s r s' Hm E Eh)|].
  pose proof (outer_unchanged s p n MutexSem I s') as Ou. pose proof (outer_renamed s p n MutexSem I s') as Or.
  case_decide; [exact (conj (proj1 Hres) (Ou (proj2 Hres)))|]. destruct (nm !! name) as [e|]; [|exact (conj (proj1 Hres) (Ou (proj2 Hres)))].
  destruct (nm !! new); [exact (conj (proj1 Hres) (Ou (proj2 Hres)))|exact (conj (proj1 Hres) (Or _ (proj2 Hres)))].
Qed.

Lemma sfs_rename_within_witness : exists s', sfs_rename 0 [97] 0 [98] (tree 1 false) = Ok (0, s') /\ renamed (tree 1 false) 0 s' {[ [98] := 3 ]}.
Proof.
  destruct (sfs_rename_within (tree 1 false) 0 (Node tree_dir 1 0) [97] [98] (tree_idle 1 false)) as (r & s' & E & H);
    [apply not_elem_of_nil|exact proper_a|exact proper_b| |]; change (fs (tree 1 false)) with tree_fs in *; change (nsin (Node tree_dir 1 0)) with tree_dir in *; rewrite tree_names in *.
  - intros e [_ <-]%lookup_singleton_Some. done.
  - destruct H as [-> H]. exists s'. exact (conj E H).
Defined.

(** C10: [sfs_unlink] of a name of a file that is in use: it returns; when the name is not
    there the result is [-E_NOENT]; otherwise the name is gone, the file is still in
    memory with its bytes and its references and a link less, and so are the bytes of
    every other file.  All locks are released. *)
Theorem sfs_unlink_in_use s p n lp m name : idle_dir s p n -> used_file s lp m -> p <> lp -> MutexSem ∉ held (fs s) -> FsSem ∉ held (fs s) -> proper_name name ->
  let nm := names (dir_of (fs s) (nsin n)) in
  (forall e, nm !! name = Some e -> e = ino (nsin m)) ->
  exists r s', sfs_unlink p name s = Ok (r, s') /\
    match nm !! name with
    | None => r = - E_NOENT /\ unchanged s p n s'
    | Some _ => r = 0 /\ linked s s' p lp n m (-1) (delete name nm)
    end.
Proof.
  intros I U Hne Hm Hfs (Hg & Hd & Hdd) nm Hu. unfold sfs_unlink. rewrite (name_fits name Hg), Hd, Hdd. cbn [orb].
  pose proof (outer_idle s p n MutexSem ltac:(done) ltac:(done) I) as I1. pose proof (outer_names s n MutexSem) as En. set (s1 := relock (MutexSem :: held (fs s)) s) in *.
  assert (Hfs1 : FsSem ∉ held (fs s1)) by (cbn; rewrite elem_of_cons; intros [|H]; [done|exact (Hfs H)]).
  destruct (unlink_spec s1 p n I1 name Hg lp m (used_file_with s s1 lp m eq_refl eq_refl U) Hne Hfs1) as (r & s' & E & Hres); [by rewrite En|].
  rewrite En in Hres. fold nm in Hres.
  assert (Eh : held (fs s') = MutexSem :: held (fs s)) by (destruct (nm !! name); apply Hres).
  exists r, (relock (held (fs s)) s'). split; [exact (in_mutex _ s r s' Hm E Eh)|]. destruct (nm !! name); destruct Hres as [Hr Hres]; (split; [exact Hr|]).
  - assert (K : kept s1 s1 p) by (intros q k _ _ a _; reflexivity). exact (linked_relock s s1 s' _ p lp n m (-1) _ eq_refl eq_refl K (nf_io _ (dn_wf _ _ _ (ir_dir _ _ _ I))) Hres).
  - exact (outer_unchanged s p n MutexSem I s' Hres).
Qed.

Lemma tree_cached links d : cached (tree links d) 1 3.
Proof.
  split. exists (bucket_of 3). split; [vm_compute; reflexivity|]. replace (bucket (tree links d) (bucket_of 3)) with [1] by (vm_compute; reflexivity).
  split; [by left|]. intros q [->|[]%not_elem_of_nil]%elem_of_cons. by eexists.
Qed.

Lemma sfs_unlink_in_use_witness : exists s', sfs_unlink 0 [97] (tree 1 false) = Ok (0, s') /\ linked (tree 1 false) s' 0 1 (Node tree_dir 1 0) (Node (tree_file 1 false) 1 0) (-1) ∅.
Proof.
  destruct (sfs_unlink_in_use (tree 1 false) 0 (Node tree_dir 1 0) 1 (Node (tree_file 1 false) 1 0) [97] (tree_idle 1 false)) as (r & s' & E & H);
    [split; [reflexivity|apply tree_cached|done|done|done]|done|apply not_elem_of_nil|apply not_elem_of_nil|exact proper_a| |];
    change (fs (tree 1 false)) with tree_fs in *; change (nsin (Node tree_dir 1 0)) with tree_dir in *; rewrite tree_names in *.
  - intros e [_ <-]%lookup_singleton_Some. reflexivity.
  - destruct H as [-> H]. exists s'. exact (conj E H).
Defined.

(** In use are the blocks that were and are neither blocks of the file [x], of data or of
    pointers, nor the block of its inode; they hold what they held. *)
Definition frees (s s' : sfs_fs) (x : sfs_inode) : Prop :=
  (forall b, used s' b = true <-> used s b = true /\ ~ owns s (din x) b /\ b <> ino x) /\ forall b, used s' b = true -> blk s' b = blk s b.

(** [p] has left both lists of the cache: that of all nodes, and the hash chain of its
    inode, which is the one [lookup_sfs_nolock] searches; the other chains are as they were. *)
Record uncached (s s' : nfs) (p e : Z) : Prop := {
  uc_list : inode_list s' = unlisted (inode_list s) p;
  uc_chain : exists h, hash32 e SFS_HLIST_SHIFT = Ok h /\ bucket s' h = unlisted (bucket s h) p /\ p ∉ bucket s' h /\
    forall k, k <> h -> bucket s' k = bucket s k }.

Lemma dropped_uncached s s' p n : dropped s s' p n -> uncached s s' p (ino (nsin n)).
Proof.
  intros D. split; [apply D|]. destruct (hash_ok (ino (nsin n))) as [h E]. exists h. pose proof (dp_bucket _ _ _ _ D h E) as Hb.
  assert (Hh : bucket s' h = unlisted (bucket s h) p) by (unfold bucket at 1; by rewrite Hb, lookup_insert_eq).
  split_and!; [done|done| |].
  - rewrite Hh. unfold unlisted. rewrite list_elem_of_filter. tauto.
  - intros k Hk. unfold bucket. by rewrite Hb, lookup_insert_ne.
Qed.

(** C9: when the last reference to a file without links is dropped, the node leaves the
    cache (the list of nodes and its hash chain) and its blocks are given back: afterwards a block is in use if and only if
    it was and was neither a block of the file (of data or of pointers) nor the block
    of its inode; those blocks hold what they held, and the files in memory are as
    they were. *)
Theorem inode_ref_dec_reclaims s p n : nfs_wf s -> nodes s !! p = Some n -> ref_count n = 1 -> open_count n = 0 -> reclaim_count (nsin n) = 1 ->
  nlinks (din (nsin n)) = 0 -> FsSem ∉ held (fs s) ->
  exists s', inode_ref_dec p s = Ok (0, s') /\ nfs_wf s' /\ nodes s' = delete p (nodes s) /\ uncached s s' p (ino (nsin n)) /\
    frees (fs s) (fs s') (nsin n) /\ kept s s' p.
Proof.
  intros W Hp Hr Ho Hrc Hl Hfs. destruct (ref_dec_last s p n Hp W Hr Ho Hrc Hl Hfs) as (s' & E & D). pose proof D as [Dw Dn _ _ _ [_ _ Ru Rb] Dk].
  exists s'. split; [exact E|]. split; [exact Dw|]. split; [exact Dn|]. split; [by apply dropped_uncached|]. split; [|exact Dk].
  split; [|exact Rb]. intros b. rewrite Ru. unfold foreign. tauto.
Qed.

Lemma inode_ref_dec_reclaims_witness : exists s', inode_ref_dec 1 (tree 0 false) = Ok (0, s') /\ nodes s' = {[0 := Node tree_dir 1 0]} /\ used (fs s') 3 = false /\ used (fs s') 5 = true.
Proof.
  destruct (inode_ref_dec_reclaims (tree 0 false) 1 (Node (tree_file 0 false) 1 0) (tree_wf 0 false)) as (s' & E & _ & En & _ & [Hu _] & _);
    [reflexivity|reflexivity|reflexivity|reflexivity|reflexivity|apply not_elem_of_nil|].
  exists s'. split; [exact E|]. split; [rewrite En; reflexivity|]. split.
  - destruct (used (fs s') 3) eqn:E3; [|reflexivity]. apply Hu in E3 as (_ & _ & Hn). by destruct Hn.
  - apply Hu. split; [vm_compute; reflexivity|]. split; [|done]. intros [|H]%(small_owns tree_fs (tree_file 0 false) eq_refl eq_refl); [done|]. cbn in H. set_unfold in H. lia.
Defined.

(** The node that loading the inode makes: clean, with one reference. *)
Definition reloaded (x : sfs_inode) : node := Node (Sin (din x) (ino x) false false 1) 1 0.

(** C35: a changed inode with links that [sfs_fsync] wrote is read back as it was: when
    the node has left the cache, loading the inode from its block makes a node with
    the same contents; and [sfs_fsync] changes no other block. *)
Theorem sfs_fsync_load s p n : nfs_wf s -> nodes s !! p = Some n -> din_wf (din (nsin n)) -> type (din (nsin n)) = SFS_TYPE_DIR \/ type (din (nsin n)) = SFS_TYPE_FILE ->
  nlinks (din (nsin n)) <> 0 -> dirty (nsin n) = true -> removed (nsin n) = false -> SinSem (ino (nsin n)) ∉ held (fs s) ->
  exists s1, sfs_fsync p s = Ok (0, s1) /\ (forall b, 0 <= b -> b <> ino (nsin n) -> blk (fs s1) b = blk (fs s) b) /\
    forall s2, fs s2 = fs s1 -> mem s2 = [] -> exists s3, load_from_disk (ino (nsin n)) s2 = Ok ((0, Some (next_node s2)), s3) /\
      nodes s3 = <[next_node s2 := reloaded (nsin n)]> (nodes s2).
Proof.
  intros W Hp Wd Ht Hl Hdt Hrm Hlk. destruct (fsync_spec s p n W Hp Wd Hl Hdt Hrm Hlk) as (s1 & E & Sy). pose proof Sy as [_ _ Heff]. pose proof Heff as [We [Eh _] Eu Ek].
  exists s1. split; [exact E|]. split; [intros b Hb Hne; rewrite Ek by done; by apply at_ne|]. intros s2 Ef Hm.
  pose proof (ino_block s p n W Hp) as Hb. pose proof (mw_ino _ _ (fw_map _ _ (nf_file _ W _ _ Hp))) as Hu.
  destruct (load_disk_spec s2 (ino (nsin n)) (din (nsin n))) as (s3 & E3 & En & _); [by rewrite Ef|rewrite Ef; exact (eff_io _ _ _ _ Heff (nf_io _ W))|exact Hm| | |exact Hl|exact Ht|].
  - rewrite Ef, Eu by lia. exact Hu.
  - rewrite Ef. exact (synced_bytes s p n W Hp Wd s1 Sy).
  - exists s3. exact (conj E3 En).
Qed.

Lemma sfs_fsync_load_witness : exists s1, sfs_fsync 1 (tree 1 true) = Ok (0, s1) /\
    forall s2, fs s2 = fs s1 -> mem s2 = [] -> exists s3, load_from_disk 3 s2 = Ok ((0, Some (next_node s2)), s3) /\
      nodes s3 = <[next_node s2 := Node (tree_file 1 false) 1 0]> (nodes s2).
Proof.
  destruct (sfs_fsync_load (tree 1 true) 1 (Node (tree_file 1 true) 1 0) (tree_wf 1 true)) as (s1 & E & _ & H);
    [reflexivity| |by right|done|reflexivity|reflexivity|apply not_elem_of_nil|exists s1; exact (conj E H)].
  split; try (split; [done|vm_compute; reflexivity]); [reflexivity|]. cbn. repeat (constructor; [split; [done|vm_compute; reflexivity]|]). constructor.
Defined.

(** ** A directory moved into itself *)

(** A directory (node 0) with the one entry [d], an empty directory (node 1); blocks 4 and
    7 are free. *)
Definition nest : nfs :=
  Nfs (Sfs (Super 0x2f8dbe2a 8 2 []) false (Bitmap 8 1 [0x90]) (Disk (splice (replicate 32768 0) (6 * BLKSIZE) (entry_bytes 3 [100])) 64 8 false (replicate 16384 0)) [])
    {[0 := Node (Sin (Din 1 5 SFS_TYPE_DIR 3 1 (6 :: replicate 11 0) 0 0) 5 false false 1) 1 0; 1 := Node (Sin (Din 0 5 SFS_TYPE_DIR 2 0 (replicate 12 0) 0 0) 3 false false 1) 1 0]}
    [1; 0] {[bucket_of 3 := [1]; bucket_of 5 := [0]]} [] 2.

Definition entries_at (s : nfs) (p : Z) : list (Z * list Z) := from_option (fun n => dir_of (fs s) (nsin n)) [] (nodes s !! p).

Lemma nest_entries : entries_at nest 0 = [(3, [100])] /\ entries_at nest 1 = [].
Proof. vm_compute. by split. Qed.

(** [sfs_rename] does not refuse to move a directory into itself: in [nest], moving [d] to
    [d/x] returns 0; the parent has no entry any more and the only entry of [d] is [x],
    which is [d] itself: it cannot be reached from the parent and its blocks stay in
    use. *)
Example sfs_rename_into_itself : exists s', sfs_rename 0 [100] 1 [120] nest = Ok (0, s') /\ names (entries_at s' 0) = ∅ /\ names (entries_at s' 1) = {[ [120] := 3 ]} /\ used (fs s') 3 = true.
Proof.
  set (o := sfs_rename 0 [100] 1 [120] nest).
  assert (Hb : match o with Ok (r, s') => bool_decide (r = 0 /\ names (entries_at s' 0) = ∅ /\ names (entries_at s' 1) = {[ [120] := 3 ]} /\ used (fs s') 3 = true) | Err _ => false end = true)
    by (vm_compute; reflexivity).
  destruct o as [[r s']|]; [|done]. apply bool_decide_eq_true in Hb as [-> Hb]. by exists s'.
Qed.

(** ** Paths *)

Lemma skip_slashes_le l : (length (skip_slashes l) <= length l)%nat.
Proof. induction l as [|c l IH]; cbn; [lia|]. destruct (c =? slash); cbn; lia. Qed.

Lemma subpath_shorter l name r : sfs_lookup_subpath l = (name, Some r) -> (length r < length l)%nat.
Proof.
  revert name. induction l as [|c l IH]; intros name; cbn; [done|]. pose proof (skip_slashes_le l) as Hle. destruct (c =? slash).
  - destruct (skip_slashes l) as [|d k]; [done|]. intros [= _ <-]. lia.
  - destruct (sfs_lookup_subpath l) as [a b] eqn:E. intros [= _ ->]. specialize (IH a eq_refl). lia.
Qed.

Lemma bind_ext {S A B} (m : M S A) (k k' : A -> M S B) s : (forall a s', k a s' = k' a s') -> (m ≫= k) s = (m ≫= k') s.
Proof. intros H. unfold mbind, M_bind. by destruct (m s) as [[a s']|]. Qed.

(** The walk along a path ends: a step takes at least one byte off it, so any fuel above
    its length gives the same result. *)
Lemma lookup_walk_fuel fuel : forall fuel' p path s, (length path < fuel)%nat -> (length path < fuel')%nat -> lookup_walk fuel p path s = lookup_walk fuel' p path s.
Proof.
  induction fuel as [|fuel IH]; intros [|fuel'] p path s Hf Hf'; try lia. cbn [lookup_walk]. apply bind_ext. intros x s1.
  destruct (negb (type (din x) =? SFS_TYPE_DIR)); [reflexivity|]. destruct (sfs_lookup_subpath path) as [name [r|]] eqn:E; [|reflexivity].
  pose proof (subpath_shorter path name r E) as Hr. destruct (is_dot name); [apply IH; lia|].
  apply bind_ext. intros [ret [q|]] s2; [|reflexivity]. apply bind_ext. intros _ s3. destruct (ret =? 0); [apply IH; lia|reflexivity].
Qed.

Lemma parent_walk_fuel fuel : forall fuel' p path s, (length path < fuel)%nat -> (length path < fuel')%nat -> parent_walk fuel p path s = parent_walk fuel' p path s.
Proof.
  induction fuel as [|fuel IH]; intros [|fuel'] p path s Hf Hf'; try lia. cbn [parent_walk]. apply bind_ext. intros x s1.
  destruct (negb (type (din x) =? SFS_TYPE_DIR)); [reflexivity|]. destruct (sfs_lookup_subpath path) as [name [r|]] eqn:E; [|reflexivity].
  pose proof (subpath_shorter path name r E) as Hr. destruct (is_dot name); [apply IH; lia|].
  apply bind_ext. intros [ret [q|]] s2; [|reflexivity]. apply bind_ext. intros _ s3. destruct (ret =? 0); [apply IH; lia|reflexivity].
Qed.
