(* ===== verification/Files.v ===== *)
(** * Files: descriptors and open files (fs/file.c, fs/fs.c, fs/vfs/inode.c, vfsfile.c)

    A process reaches files through the table of descriptors in its [fs_struct], which
    threads may share and fork copies.  The inodes behind them are kept here with
    their two counters; what the operations of an inode and the lookup of a path
    return are inputs.  A routine that may sleep in such an operation is cut there:
    one definition up to the call, one from there on, with what the calls return as
    inputs; the calls inside [vfs_open] are taken to happen at one moment. *)

From stdpp Require Import numbers gmap list.
From S2P Require Import Prelude.
Local Open Scope Z_scope.

Definition NO_FD : Z := - 0x9527.
Definition O_ACCMODE : Z := 3.
Definition O_RDONLY : Z := 0.
Definition O_WRONLY : Z := 1.
Definition O_RDWR : Z := 2.
Definition O_CREAT : Z := 64.
Definition O_EXCL : Z := 128.
Definition O_TRUNC : Z := 512.
Definition O_APPEND : Z := 1024.
Definition LSEEK_SET : Z := 0.
Definition LSEEK_CUR : Z := 1.
Definition LSEEK_END : Z := 2.
Definition EINVAL : Z := 22.
Definition EBUSY : Z := 16.
Definition ENOMEM : Z := 12.
Definition E_MAX_OPEN : Z := 24.
Definition MAX_COUNT : Z := 0x10000.

(** ** Data *)

Inductive fd_status := FD_NONE | FD_INIT | FD_OPENED | FD_CLOSED.
#[export] Instance fd_status_eq_dec : EqDecision fd_status.
Proof. solve_decision. Defined.

Record file := File { status : fd_status; readable : bool; writable : bool; fd : Z; pos : Z; fnode : option Z; fopen_count : Z }.

(** The table of descriptors fills two pages, but for the 40 bytes of the [fs_struct];
    a [struct file] has 28. *)
Definition FS_STRUCT_NENTRY : Z := (2 * 4096 - 40) / 28.
Record fs_struct := FsStruct { pwd : option Z; filemap : list file; fs_count : Z }.

(** Calls into the file system that the counters bring about. *)
Inductive vcall := VopClose (n : Z) | VopReclaim (n : Z).
Record vstate := VState { inodes : gmap Z (Z * Z); tables : gmap Z fs_struct; calls : list vcall }.

Definition set_inodes (m : gmap Z (Z * Z)) (s : vstate) : vstate := VState m (tables s) (calls s).
Definition set_tables (m : gmap Z fs_struct) (s : vstate) : vstate := VState (inodes s) m (calls s).
Definition add_call (c : vcall) (s : vstate) : vstate := VState (inodes s) (tables s) (c :: calls s).

Definition set_status (x : fd_status) (f : file) : file := File x (readable f) (writable f) (fd f) (pos f) (fnode f) (fopen_count f).
Definition set_pos (x : Z) (f : file) : file := File (status f) (readable f) (writable f) (fd f) x (fnode f) (fopen_count f).
Definition set_node (x : option Z) (f : file) : file := File (status f) (readable f) (writable f) (fd f) (pos f) x (fopen_count f).
Definition set_modes (r w : bool) (f : file) : file := File (status f) r w (fd f) (pos f) (fnode f) (fopen_count f).
Definition set_count (x : Z) (f : file) : file := File (status f) (readable f) (writable f) (fd f) (pos f) (fnode f) x.

(** ** Inodes *)

(** [ref_count] and [open_count]. *)
Definition get_counts (n : Z) : M vstate (Z * Z) := load (fun s => inodes s !! n).
Definition put_counts (n r o : Z) : M vstate unit := modify (fun s => set_inodes (<[n := (r, o)]> (inodes s)) s).

Definition vop_check (n : Z) : M vstate unit :=
  '(r, o) ← get_counts n;
  _ ← kassert ((o <=? r) && (0 <=? o));
  kassert ((r <? MAX_COUNT) && (o <? MAX_COUNT)).

Definition vop_ref_inc (n : Z) : M vstate unit := '(r, o) ← get_counts n; put_counts n (s32 (r + 1)) o.
Definition vop_open_inc (n : Z) : M vstate unit := '(r, o) ← get_counts n; put_counts n r (s32 (o + 1)).
Definition vop_ref_dec (n : Z) : M vstate unit :=
  '(r, o) ← get_counts n;
  _ ← kassert (0 <? r);
  _ ← put_counts n (r - 1) o;
  if r - 1 =? 0 then _ ← vop_check n; modify (add_call (VopReclaim n)) else mret tt.
Definition vop_open_dec (n : Z) : M vstate unit :=
  '(r, o) ← get_counts n;
  _ ← kassert (0 <? o);
  _ ← put_counts n r (o - 1);
  if o - 1 =? 0 then _ ← vop_check n; modify (add_call (VopClose n)) else mret tt.

Definition vfs_close (n : Z) : M vstate unit := _ ← vop_open_dec n; vop_ref_dec n.

(** A routine returned the inode [n]: it comes with a reference. *)
Definition obtain (n : Z) : M vstate unit :=
  modify (fun s => let '(r, o) := default (0, 0) (inodes s !! n) in set_inodes (<[n := (r + 1, o)]> (inodes s)) s).

(** What the operations called by [vfs_open] return: results, and the inodes found. *)
Record open_res := OpenRes { or_parent : Z * Z; or_create : Z * Z; or_lookup : Z * Z; or_open : Z; or_trunc : Z }.

Definition access (flags : Z) : option (bool * bool) :=
  let m := Z.land flags O_ACCMODE in
  if m =? O_RDONLY then Some (true, false)
  else if m =? O_WRONLY then Some (false, true)
  else if m =? O_RDWR then Some (true, true)
  else None.
Definition has (flags bit : Z) : bool := negb (Z.land flags bit =? 0).

Definition vfs_open_node (flags : Z) (r : open_res) : M vstate (Z * Z) :=
  if has flags O_CREAT then
    let '(ret, dir) := or_parent r in
    if negb (ret =? 0) then mret (ret, 0)
    else
      _ ← obtain dir;
      _ ← vop_check dir;
      let '(ret, n) := or_create r in
      _ ← (if ret =? 0 then obtain n else mret tt);
      _ ← vop_ref_dec dir;
      mret (ret, n)
  else
    let '(ret, n) := or_lookup r in
    _ ← (if ret =? 0 then obtain n else mret tt);
    mret (ret, n).

(** One step: what the operations of inodes it calls answer is given by [r]. *)
Definition vfs_open (flags : Z) (r : open_res) : M vstate (Z * Z) :=
  match access flags with
  | None => mret (- EINVAL, 0)
  | Some (_, can_write) =>
      if has flags O_TRUNC && negb can_write then mret (- EINVAL, 0)
      else
        '(ret, n) ← vfs_open_node flags r;
        if negb (ret =? 0) then mret (ret, 0)
        else
          _ ← vop_check n;
          if negb (or_open r =? 0) then _ ← vop_ref_dec n; mret (or_open r, 0)
          else
            _ ← vop_open_inc n;
            if has flags O_TRUNC then
              _ ← vop_check n;
              if negb (or_trunc r =? 0) then _ ← vop_open_dec n; _ ← vop_ref_dec n; mret (or_trunc r, 0)
              else mret (0, n)
            else mret (0, n)
  end.

(** ** Files *)

Definition get_fs (t : Z) : M vstate fs_struct := load (fun s => tables s !! t).
Definition get_file (t i : Z) : M vstate file := load (fun s => tables s !! t ≫= fun x => filemap x !! Z.to_nat i).
Definition put_file (t i : Z) (f : file) : M vstate unit :=
  x ← get_fs t; modify (fun s => set_tables (<[t := FsStruct (pwd x) (<[Z.to_nat i := f]> (filemap x)) (fs_count x)]> (tables s)) s).
Definition upd_file (t i : Z) (g : file -> file) : M vstate unit := f ← get_file t i; put_file t i (g f).
(** The node of a file; calls through a null pointer fail their assertion. *)
Definition node_of (f : file) : M vstate Z := match fnode f with Some n => mret n | None => fail AssertFailed end.

Definition testfd (d : Z) : bool := (0 <=? d) && (d <? FS_STRUCT_NENTRY).
Definition get_filemap (t : Z) : M vstate (list file) := x ← get_fs t; _ ← kassert (0 <? fs_count x); mret (filemap x).

Fixpoint filemap_init (i : Z) (l : list file) : list file :=
  match l with [] => [] | f :: l => File FD_NONE (readable f) (writable f) i (pos f) (fnode f) 0 :: filemap_init (i + 1) l end.

Fixpoint find_none (l : list file) (i : Z) : option Z :=
  match l with [] => None | f :: l => if decide (status f = FD_NONE) then Some i else find_none l (i + 1) end.

(** [found:] of [filemap_alloc]. *)
Definition alloc_found (t i : Z) : M vstate (Z * option Z) :=
  f ← get_file t i;
  _ ← kassert (fopen_count f =? 0);
  _ ← put_file t i (set_node None (set_status FD_INIT f));
  mret (0, Some i).
Definition filemap_alloc (t d : Z) : M vstate (Z * option Z) :=
  l ← get_filemap t;
  if d =? NO_FD then
    match find_none l 0 with Some i => alloc_found t i | None => mret (- E_MAX_OPEN, None) end
  else if testfd d then
    f ← get_file t d;
    if decide (status f = FD_NONE) then alloc_found t d else mret (- EBUSY, None)
  else mret (- EINVAL, None).

Definition filemap_free (t i : Z) : M vstate unit :=
  f ← get_file t i;
  _ ← kassert (bool_decide (status f = FD_INIT \/ status f = FD_CLOSED));
  _ ← kassert (fopen_count f =? 0);
  _ ← (if decide (status f = FD_CLOSED) then n ← node_of f; vfs_close n else mret tt);
  upd_file t i (set_status FD_NONE).

Definition in_use (f : file) : bool := bool_decide (status f = FD_OPENED \/ status f = FD_CLOSED).

Definition filemap_acquire (t i : Z) : M vstate unit :=
  f ← get_file t i;
  _ ← kassert (in_use f);
  put_file t i (set_count (s32 (fopen_count f + 1)) f).
Definition filemap_release (t i : Z) : M vstate unit :=
  f ← get_file t i;
  _ ← kassert (in_use f);
  _ ← kassert (0 <? fopen_count f);
  _ ← put_file t i (set_count (fopen_count f - 1) f);
  if fopen_count f - 1 =? 0 then filemap_free t i else mret tt.
Definition filemap_open (t i : Z) : M vstate unit :=
  f ← get_file t i;
  _ ← kassert (bool_decide (status f = FD_INIT \/ status f = FD_OPENED) && bool_decide (fnode f <> None));
  put_file t i (set_count (s32 (fopen_count f + 1)) (set_status FD_OPENED f)).
Definition filemap_close (t i : Z) : M vstate unit :=
  f ← get_file t i;
  _ ← kassert (bool_decide (status f = FD_OPENED));
  _ ← kassert (0 <? fopen_count f);
  _ ← put_file t i (set_count (fopen_count f - 1) (set_status FD_CLOSED f));
  if fopen_count f - 1 =? 0 then filemap_free t i else mret tt.

(** [to] and [from] may be in different tables. *)
Definition copy_file (to from : file) : file := set_node (fnode from) (set_modes (readable from) (writable from) (set_pos (pos from) to)).
Definition filemap_dup (t i t' i' : Z) : M vstate unit :=
  to ← get_file t i;
  from ← get_file t' i';
  _ ← kassert (bool_decide (status to = FD_INIT) && bool_decide (status from = FD_OPENED));
  n ← node_of from;
  _ ← vop_ref_inc n;
  _ ← vop_open_inc n;
  _ ← put_file t i (copy_file to from);
  filemap_open t i.
Definition filemap_dup_close (t i t' i' : Z) : M vstate unit :=
  to ← get_file t i;
  from ← get_file t' i';
  _ ← kassert (bool_decide (status to = FD_CLOSED) && bool_decide (status from = FD_CLOSED));
  n ← node_of from;
  _ ← vop_ref_inc n;
  _ ← vop_open_inc n;
  put_file t i (copy_file to from).

Definition fd2file (t d : Z) : M vstate (Z * option Z) :=
  if testfd d then
    _ ← get_filemap t;
    f ← get_file t d;
    if bool_decide (status f = FD_OPENED) && (fd f =? d) then mret (0, Some d) else mret (- EINVAL, None)
  else mret (- EINVAL, None).

(** ** Operations on descriptors *)

Definition file_testfd (t d : Z) (r w : bool) : M vstate bool :=
  '(ret, i) ← fd2file t d;
  match i with
  | None => mret false
  | Some i => f ← get_file t i; mret (negb (r && negb (readable f)) && negb (w && negb (writable f)))
  end.

(** Up to the call of [vfs_open]: the result, or the entry taken. *)
Definition file_open_begin (t flags : Z) : M vstate (Z * option Z) :=
  match access flags with None => mret (- EINVAL, None) | Some _ => filemap_alloc t NO_FD end.

(** From there on; [st] is what [vop_fstat] returns: the result and the size. *)
Definition file_open_end (t i flags : Z) (r : open_res) (st : Z * Z) : M vstate Z :=
  '(ret, n) ← vfs_open flags r;
  if negb (ret =? 0) then _ ← filemap_free t i; mret ret
  else
    _ ← upd_file t i (set_pos 0);
    ret ← (if has flags O_APPEND then
             _ ← vop_check n;
             if negb (fst st =? 0) then _ ← vfs_close n; _ ← filemap_free t i; mret (fst st)
             else _ ← upd_file t i (set_pos (s32 (snd st))); mret 0
           else mret 0);
    if negb (ret =? 0) then mret ret
    else
      let '(rd, wr) := default (false, false) (access flags) in
      _ ← upd_file t i (fun f => set_modes rd wr (set_node (Some n) f));
      _ ← filemap_open t i;
      f ← get_file t i;
      mret (fd f).

Definition file_close (t d : Z) : M vstate Z :=
  '(ret, i) ← fd2file t d;
  match i with None => mret ret | Some i => _ ← filemap_close t i; mret 0 end.

(** Up to the call of the operation of the inode: the entry, the inode and the position. *)
Definition use_begin (t d : Z) (ok : file -> bool) : M vstate (Z * option (Z * Z * Z)) :=
  '(ret, i) ← fd2file t d;
  match i with
  | None => mret (ret, None)
  | Some i =>
      f ← get_file t i;
      if negb (ok f) then mret (- EINVAL, None)
      else
        _ ← filemap_acquire t i;
        n ← node_of f;
        _ ← vop_check n;
        mret (0, Some (i, n, pos f))
  end.
Definition file_read_begin (t d : Z) : M vstate (Z * option (Z * Z * Z)) := use_begin t d readable.
Definition file_write_begin (t d : Z) : M vstate (Z * option (Z * Z * Z)) := use_begin t d writable.
(** [copied] bytes were transferred. *)
Definition transfer_end (t i copied : Z) : M vstate unit :=
  _ ← upd_file t i (fun f => if decide (status f = FD_OPENED) then set_pos (s32 (pos f + copied)) f else f);
  filemap_release t i.
Definition file_read_end (t i ret copied : Z) : M vstate (Z * Z) := _ ← transfer_end t i copied; mret (ret, copied).
Definition file_write_end (t i ret copied : Z) : M vstate (Z * Z) := _ ← transfer_end t i copied; mret (ret, copied).

Definition file_fstat_begin (t d : Z) : M vstate (Z * option (Z * Z * Z)) := use_begin t d (fun _ => true).
Definition file_fstat_end (t i ret : Z) : M vstate Z := _ ← filemap_release t i; mret ret.
Definition file_fsync_begin (t d : Z) : M vstate (Z * option (Z * Z * Z)) := use_begin t d (fun _ => true).
Definition file_fsync_end (t i ret : Z) : M vstate Z := _ ← filemap_release t i; mret ret.
Definition file_getdirentry_begin (t d : Z) : M vstate (Z * option (Z * Z * Z)) := use_begin t d (fun _ => true).
(** The result and the new [d_off]. *)
Definition file_getdirentry_end (t i ret d_off used : Z) : M vstate (Z * Z) :=
  _ ← filemap_release t i; mret (ret, if ret =? 0 then s32 (d_off + used) else d_off).

(** Up to [vop_tryseek]: the entry and the position asked for; [st]: what [vop_fstat] returns. *)
Definition file_seek_begin (t d p whence : Z) (st : Z * Z) : M vstate (Z * option (Z * Z)) :=
  '(ret, i) ← fd2file t d;
  match i with
  | None => mret (ret, None)
  | Some i =>
      _ ← filemap_acquire t i;
      f ← get_file t i;
      n ← node_of f;
      '(ret, p) ← (if whence =? LSEEK_SET then mret (0, p)
                    else if whence =? LSEEK_CUR then mret (0, s32 (p + pos f))
                    else if whence =? LSEEK_END then
                      _ ← vop_check n; mret (if fst st =? 0 then (0, s32 (p + snd st)) else (fst st, p))
                    else mret (- EINVAL, p));
      _ ← (if ret =? 0 then vop_check n else mret tt);
      mret (ret, Some (i, p))
  end.
(** [ret]: of the switch; [seek]: of [vop_tryseek]. *)
Definition file_seek_end (t i p ret seek : Z) : M vstate Z :=
  let ret := if ret =? 0 then seek else ret in
  _ ← (if ret =? 0 then upd_file t i (set_pos p) else mret tt);
  _ ← filemap_release t i;
  mret ret.

Definition file_dup (t d1 d2 : Z) : M vstate Z :=
  '(ret, i1) ← fd2file t d1;
  match i1 with
  | None => mret ret
  | Some i1 =>
      '(ret, i2) ← filemap_alloc t d2;
      match i2 with
      | None => mret ret
      | Some i2 => _ ← filemap_dup t i2 t i1; f ← get_file t i2; mret (fd f)
      end
  end.

(** Up to [pipe_open]. *)
Definition file_pipe_begin (t : Z) : M vstate (Z * option (Z * Z)) :=
  '(ret, i0) ← filemap_alloc t NO_FD;
  match i0 with
  | None => mret (ret, None)
  | Some i0 =>
      '(ret, i1) ← filemap_alloc t NO_FD;
      match i1 with
      | None => _ ← filemap_free t i0; mret (ret, None)
      | Some i1 => mret (0, Some (i0, i1))
      end
  end.
(** [pipe_open] returned [ret] and two new inodes, opened once each. *)
Definition file_pipe_end (t i0 i1 ret n0 n1 : Z) : M vstate Z :=
  if negb (ret =? 0) then _ ← filemap_free t i0; _ ← filemap_free t i1; mret ret
  else
    _ ← put_counts n0 1 1;
    _ ← put_counts n1 1 1;
    _ ← upd_file t i0 (fun f => set_modes true false (set_pos 0 (set_node (Some n0) f)));
    _ ← upd_file t i1 (set_node (Some n1));
    _ ← filemap_open t i0;
    _ ← upd_file t i1 (fun f => set_modes false true (set_pos 0 f));
    _ ← filemap_open t i1;
    mret 0.

(** [name]: memory for the name of the device. *)
Definition file_mkfifo_begin (t flags : Z) (name : bool) : M vstate (Z * option Z) :=
  let m := Z.land flags O_ACCMODE in
  if (m =? O_RDONLY) || (m =? O_WRONLY) then
    '(ret, i) ← filemap_alloc t NO_FD;
    match i with
    | None => mret (ret, None)
    | Some i => if name then mret (0, Some i) else _ ← filemap_free t i; mret (- ENOMEM, None)
    end
  else mret (- EINVAL, None).
Definition file_mkfifo_end (t i flags : Z) (r : open_res) : M vstate Z :=
  let ro := Z.land flags O_ACCMODE =? O_RDONLY in
  '(ret, n) ← vfs_open flags r;
  if negb (ret =? 0) then _ ← filemap_free t i; mret ret
  else
    _ ← upd_file t i (fun f => set_modes ro (negb ro) (set_pos 0 (set_node (Some n) f)));
    _ ← filemap_open t i;
    f ← get_file t i;
    mret (fd f).

(** ** Tables *)

(** [l]: the memory the table lies in. *)
Definition fs_create (l : list file) : fs_struct := FsStruct None (filemap_init 0 l) 0.

(** The loops over the entries, [k] of them from [i] on. *)
Fixpoint destroy_loop (k : nat) (t i : Z) : M vstate unit :=
  match k with
  | O => mret tt
  | S k =>
      f ← get_file t i;
      _ ← (if decide (status f = FD_OPENED) then filemap_close t i else mret tt);
      f ← get_file t i;
      _ ← kassert (bool_decide (status f = FD_NONE));
      destroy_loop k t (i + 1)
  end.
Definition fs_destroy (t : Z) : M vstate unit :=
  x ← get_fs t;
  _ ← kassert (fs_count x =? 0);
  _ ← (match pwd x with Some n => vop_ref_dec n | None => mret tt end);
  _ ← destroy_loop (Z.to_nat FS_STRUCT_NENTRY) t 0;
  modify (fun s => set_tables (delete t (tables s)) s).

Fixpoint closeall_loop (k : nat) (t i : Z) : M vstate unit :=
  match k with
  | O => mret tt
  | S k =>
      f ← get_file t i;
      _ ← (if decide (status f = FD_OPENED) then filemap_close t i else mret tt);
      closeall_loop k t (i + 1)
  end.
(** [for (i = 3, file += 2; i < FS_STRUCT_NENTRY; i++, file++)] *)
Definition fs_closeall (t : Z) : M vstate unit :=
  x ← get_fs t;
  _ ← kassert (0 <? fs_count x);
  closeall_loop (Z.to_nat (FS_STRUCT_NENTRY - 3)) t 2.

Fixpoint dup_loop (k : nat) (t t' i : Z) : M vstate unit :=
  match k with
  | O => mret tt
  | S k =>
      f ← get_file t' i;
      _ ← (if decide (status f = FD_OPENED) then _ ← upd_file t i (set_status FD_INIT); filemap_dup t i t' i
           else if decide (status f <> FD_NONE) then _ ← upd_file t i (set_status (status f)); filemap_dup_close t i t' i
           else mret tt);
      dup_loop k t t' (i + 1)
  end.
Definition dup_fs (t t' : Z) : M vstate unit :=
  to ← get_fs t;
  from ← get_fs t';
  _ ← kassert ((fs_count to =? 0) && (0 <? fs_count from));
  _ ← modify (fun s => set_tables (<[t := FsStruct (pwd from) (filemap to) (fs_count to)]> (tables s)) s);
  _ ← (match pwd from with Some n => vop_ref_inc n | None => mret tt end);
  dup_loop (Z.to_nat FS_STRUCT_NENTRY) t t' 0.

Definition set_fs_count (t c : Z) : M vstate unit :=
  x ← get_fs t; modify (fun s => set_tables (<[t := FsStruct (pwd x) (filemap x) c]> (tables s)) s).
(** The table of a child of the process with table [t']: shared, or a copy made at [t] in
    the memory [l] if there is any. *)
Definition copy_fs (share : bool) (t' t : Z) (l : option (list file)) : M vstate (Z * Z) :=
  if share then x ← get_fs t'; _ ← set_fs_count t' (s32 (fs_count x + 1)); mret (0, t')
  else
    match l with
    | None => mret (- ENOMEM, 0)
    | Some l =>
        _ ← modify (fun s => set_tables (<[t := fs_create l]> (tables s)) s);
        _ ← dup_fs t t';
        x ← get_fs t;
        _ ← set_fs_count t (s32 (fs_count x + 1));
        mret (0, t)
    end.
Definition put_fs (t : Z) : M vstate unit :=
  x ← get_fs t;
  _ ← set_fs_count t (fs_count x - 1);
  if fs_count x - 1 =? 0 then fs_destroy t else mret tt.
