(* ===== verification/FilesInv.v ===== *)
(** * FilesInv: the invariant of descriptors

    The open count of an inode is the number of descriptors that stand for it, in all
    tables; the count of a descriptor is the number of operations under way on it,
    and one more while it is open. *)

From stdpp Require Import numbers gmap list.
From S2P Require Import Prelude Files.
Local Open Scope Z_scope.

(** ** Counting *)

Definition holds (f : file) (n : Z) : bool := in_use f && bool_decide (fnode f = Some n).
Fixpoint cnt (l : list file) (n : Z) : Z := match l with [] => 0 | f :: l => Z.b2z (holds f n) + cnt l n end.
Definition total (g : fs_struct -> Z) (m : gmap Z fs_struct) : Z := map_fold (fun _ x a => g x + a) 0 m.
(** Descriptors for the inode [n], and processes' directories. *)
Definition fds (m : gmap Z fs_struct) (n : Z) : Z := total (fun x => cnt (filemap x) n) m.
Definition pwds (m : gmap Z fs_struct) (n : Z) : Z := total (fun x => Z.b2z (bool_decide (pwd x = Some n))) m.

Lemma cnt_insert l (i : nat) f f' n : l !! i = Some f -> cnt (<[i := f']> l) n = cnt l n - Z.b2z (holds f n) + Z.b2z (holds f' n).
Proof.
  revert i. induction l as [|g l IH]; intros [|i] Hi; [done|done|injection Hi as ->; cbn; lia|]. change (Z.b2z (holds g n) + cnt (<[i := f']> l) n = Z.b2z (holds g n) + cnt l n - Z.b2z (holds f n) + Z.b2z (holds f' n)).
  specialize (IH i Hi). lia.
Qed.

Lemma cnt_nonneg l n : 0 <= cnt l n.
Proof. induction l as [|f l IH]; cbn; [done|]. destruct (holds f n); cbn; lia. Qed.

Lemma cnt_holds l (i : nat) f n : l !! i = Some f -> holds f n = true -> 1 <= cnt l n.
Proof.
  revert i. induction l as [|g l IH]; intros [|i] Hi Hh; [done|done|injection Hi as ->; cbn|cbn].
  - rewrite Hh. pose proof (cnt_nonneg l n). cbn. lia.
  - specialize (IH i Hi Hh). destruct (holds g n); cbn; lia.
Qed.

Lemma cnt_le l n : cnt l n <= Z.of_nat (length l).
Proof. induction l as [|f l IH]; cbn [cnt length]; [done|]. destruct (holds f n); cbn [Z.b2z]; lia. Qed.

Lemma total_new g m t x : m !! t = None -> total g (<[t := x]> m) = g x + total g m.
Proof. intros H. unfold total. rewrite map_fold_insert_L; [done|intros; lia|done]. Qed.

Lemma total_delete g m t x : m !! t = Some x -> total g (delete t m) = total g m - g x.
Proof. intros H. rewrite <- (insert_delete_id m t x H) at 2. rewrite total_new by apply lookup_delete_eq. lia. Qed.

Lemma total_insert g m t x x' : m !! t = Some x -> total g (<[t := x']> m) = total g m - g x + g x'.
Proof. intros H. rewrite <- insert_delete_eq. rewrite total_new by apply lookup_delete_eq. rewrite (total_delete g m t x H). lia. Qed.

Lemma total_nonneg g m : (forall x, 0 <= g x) -> 0 <= total g m.
Proof. intros Hg. induction m as [|t x m Hm IH] using map_ind; [done|]. rewrite total_new by done. specialize (Hg x). lia. Qed.

Lemma fds_nonneg m n : 0 <= fds m n.
Proof. apply total_nonneg. intros x. apply cnt_nonneg. Qed.

Lemma pwds_nonneg m n : 0 <= pwds m n.
Proof. apply total_nonneg. intros x. by destruct (bool_decide _). Qed.

Lemma total_ge g m t x : (forall x, 0 <= g x) -> m !! t = Some x -> g x <= total g m.
Proof. intros Hg H. pose proof (total_nonneg g (delete t m) Hg) as Hn. rewrite (total_delete g m t x H) in Hn. lia. Qed.

(** ** The state *)

(** Operations under way: files being opened, and uses of open files. *)
Inductive phase := Opening | Using.
#[export] Instance phase_eq_dec : EqDecision phase.
Proof. solve_decision. Defined.
Abbreviation pends := (list (Z * Z * phase)).

Definition npend (P : pends) (t i : Z) (u : phase) : Z := Z.of_nat (length (filter (fun e => e = (t, i, u)) P)).
Definition file_at (m : gmap Z fs_struct) (t i : Z) : option file := m !! t ≫= fun x => filemap x !! Z.to_nat i.
Definition with_file (m : gmap Z fs_struct) (t i : Z) (f : file) : gmap Z fs_struct :=
  alter (fun x => FsStruct (pwd x) (<[Z.to_nat i := f]> (filemap x)) (fs_count x)) t m.
Definition cts (s : vstate) (n : Z) : Z * Z := default (0, 0) (inodes s !! n).

Definition file_ok (P : pends) (t i : Z) (f : file) : Prop :=
  fd f = i /\
  match status f with
  | FD_NONE => fopen_count f = 0 /\ npend P t i Using = 0 /\ npend P t i Opening = 0
  | FD_INIT => fopen_count f = 0 /\ npend P t i Using = 0 /\ npend P t i Opening = 1
  | FD_OPENED => fopen_count f = 1 + npend P t i Using /\ npend P t i Opening = 0 /\ is_Some (fnode f)
  | FD_CLOSED => fopen_count f = npend P t i Using /\ 0 < npend P t i Using /\ npend P t i Opening = 0 /\ is_Some (fnode f)
  end.

(** [m]: the tables; [c]: the counters of the inodes; [E]: references that are not of descriptors. *)
Record core (m : gmap Z fs_struct) (c : Z -> Z * Z) (P : pends) (E : Z -> Z) : Prop := {
  co_len : forall t x, m !! t = Some x -> Z.of_nat (length (filemap x)) = FS_STRUCT_NENTRY;
  co_file : forall t i f, 0 <= i -> file_at m t i = Some f -> file_ok P t i f;
  co_pend : forall t i u, (t, i, u) ∈ P -> 0 <= i /\ is_Some (file_at m t i);
  co_open : forall n, snd (c n) = fds m n;
  co_ref : forall n, fds m n + E n <= fst (c n) < MAX_COUNT;
  co_extra : forall n, 0 <= E n }.

Lemma with_file_insert m t i f x : m !! t = Some x -> with_file m t i f = <[t := FsStruct (pwd x) (<[Z.to_nat i := f]> (filemap x)) (fs_count x)]> m.
Proof. intros E. unfold with_file. rewrite <- (insert_id m t x E) at 1. by rewrite alter_insert_eq. Qed.

Lemma file_at_with m t i f f' t2 i2 : 0 <= i -> 0 <= i2 -> file_at m t i = Some f ->
  file_at (with_file m t i f') t2 i2 = if decide (t2 = t /\ i2 = i) then Some f' else file_at m t2 i2.
Proof.
  unfold file_at, with_file. intros Hi Hi2 Hf. destruct (decide (t2 = t)) as [->|Hne].
  - rewrite lookup_alter_eq. destruct (m !! t) as [x|] eqn:E; [|done]. cbn in *. pose proof (lookup_lt_Some _ _ _ Hf) as Hlt. destruct (decide (i2 = i)) as [->|Hn].
    + rewrite decide_True by done. by rewrite list_lookup_insert_eq.
    + rewrite decide_False by tauto. rewrite list_lookup_insert_ne; [done|lia].
  - rewrite lookup_alter_ne by done. by rewrite decide_False by tauto.
Qed.

Lemma fds_with m t i f f' n : file_at m t i = Some f -> fds (with_file m t i f') n = fds m n - Z.b2z (holds f n) + Z.b2z (holds f' n).
Proof.
  unfold file_at. intros Hf. destruct (m !! t) as [x|] eqn:E; [|done]. cbn in Hf. unfold fds.
  rewrite (with_file_insert m t i f' x E), (total_insert _ m t x _ E). cbn [filemap]. rewrite (cnt_insert _ _ f f' n Hf). lia.
Qed.

Lemma pwds_with m t i f' n : pwds (with_file m t i f') n = pwds m n.
Proof.
  unfold pwds. destruct (m !! t) as [x|] eqn:E.
  - rewrite (with_file_insert m t i f' x E), (total_insert _ m t x _ E). cbn [pwd]. lia.
  - unfold with_file. by rewrite alter_id' by done.
Qed.

(** ** One file changes *)

(** The counters after the file [f] became [f']. *)
Definition shifted (c : Z -> Z * Z) (f f' : file) (c' : Z -> Z * Z) (E : Z -> Z) : Prop :=
  forall n, snd (c' n) = snd (c n) - Z.b2z (holds f n) + Z.b2z (holds f' n) /\ snd (c' n) + E n <= fst (c' n) < MAX_COUNT.

Lemma core_file m c P E t i f f' c' P' : core m c P E -> 0 <= i -> file_at m t i = Some f ->
  (forall t2 i2 u, (t2, i2) <> (t, i) -> npend P' t2 i2 u = npend P t2 i2 u) -> (forall t2 i2 u, (t2, i2, u) ∈ P' -> (t2, i2) = (t, i) \/ (t2, i2, u) ∈ P) ->
  file_ok P' t i f' -> shifted c f f' c' E -> core (with_file m t i f') c' P' E.
Proof.
  intros [Cl Cf Cp Co Cr Ce] Hi Hf HP Hin Hok Hs. split.
  - intros t2 x. unfold with_file. rewrite lookup_alter. case_decide as Et; [|by apply Cl]. subst t2. intros (y & Hy & ->)%fmap_Some. cbn [filemap]. rewrite length_insert. by eapply Cl.
  - intros t2 i2 f2 Hi2. rewrite (file_at_with m t i f f') by done. case_decide as Hd; [destruct Hd as [-> ->]; intros [= <-]; exact Hok|].
    intros H2. specialize (Cf t2 i2 f2 Hi2 H2). assert (Hne : (t2, i2) <> (t, i)) by (intros [= -> ->]; tauto). unfold file_ok in *. by rewrite !(HP t2 i2 _ Hne).
  - intros t2 i2 u Hin2. destruct (Hin t2 i2 u Hin2) as [[= -> ->]|Hold].
    + split; [done|]. rewrite (file_at_with m t i f f') by done. by rewrite decide_True.
    + destruct (Cp t2 i2 u Hold) as [H0 [f2 H2]]. split; [done|]. rewrite (file_at_with m t i f f') by done. case_decide; [done|]. by exists f2.
  - intros n. rewrite (fds_with m t i f f' n Hf), <- Co. apply Hs.
  - intros n. rewrite (fds_with m t i f f' n Hf), <- Co. destruct (Hs n) as [<- ?]. done.
  - done.
Qed.

Lemma shifted_refl c f f' E : (forall n, holds f' n = holds f n) -> (forall n, snd (c n) + E n <= fst (c n) < MAX_COUNT) -> shifted c f f' c E.
Proof. intros Hh Hc n. rewrite Hh. split; [lia|apply Hc]. Qed.

Lemma core_counts m c P E n : core m c P E -> snd (c n) + E n <= fst (c n) < MAX_COUNT.
Proof. intros C. rewrite (co_open _ _ _ _ C). apply C. Qed.

(** A change that keeps the node and the state of the file in use or not. *)
Lemma core_same m c P E t i f f' : core m c P E -> 0 <= i -> file_at m t i = Some f -> (forall n, holds f' n = holds f n) -> file_ok P t i f' -> core (with_file m t i f') c P E.
Proof.
  intros C Hi Hf Hh Hok. eapply core_file; [exact C|done|exact Hf|done|by right|done|]. apply shifted_refl; [done|]. intros n. by eapply core_counts.
Qed.

(** ** Operations under way *)

Fixpoint rem1 (e : Z * Z * phase) (P : pends) : pends := match P with [] => [] | x :: P => if decide (x = e) then P else x :: rem1 e P end.

Lemma npend_cons e P t i u : npend (e :: P) t i u = Z.b2z (bool_decide (e = (t, i, u))) + npend P t i u.
Proof. unfold npend. rewrite filter_cons. case_decide; [rewrite bool_decide_eq_true_2 by done|rewrite bool_decide_eq_false_2 by done]; cbn [length Z.b2z]; lia. Qed.

Lemma npend_nonneg P t i u : 0 <= npend P t i u.
Proof. unfold npend. lia. Qed.

Lemma npend_in P t i u : 0 < npend P t i u <-> (t, i, u) ∈ P.
Proof.
  induction P as [|e P IH]; [split; [done|intros H; by apply not_elem_of_nil in H]|]. rewrite npend_cons, elem_of_cons, <- IH. pose proof (npend_nonneg P t i u).
  case_bool_decide as E; cbn; [split; [by left|lia]|]. split; [right; lia|intros [<-|]; [done|lia]].
Qed.

Lemma npend_rem e P t i u : e ∈ P -> npend (rem1 e P) t i u = npend P t i u - Z.b2z (bool_decide (e = (t, i, u))).
Proof.
  induction P as [|x P IH]; intros Hin; [by apply not_elem_of_nil in Hin|]. cbn [rem1]. rewrite npend_cons. destruct (decide (x = e)) as [->|E]; [lia|].
  rewrite npend_cons, IH; [lia|]. apply elem_of_cons in Hin as [->|]; done.
Qed.

Lemma rem1_in e x P : x ∈ rem1 e P -> x ∈ P.
Proof. induction P as [|y P IH]; cbn; [done|]. case_decide; rewrite ?elem_of_cons; tauto. Qed.

Lemma npend_le P t i u : npend P t i u <= Z.of_nat (length P).
Proof. unfold npend. pose proof (length_filter (fun e => e = (t, i, u)) P). lia. Qed.

(** ** Steps of the monad *)

Lemma get_file_spec s t i f : file_at (tables s) t i = Some f -> get_file t i s = Ok (f, s).
Proof. unfold get_file, load, file_at. by intros ->. Qed.

Lemma put_file_spec s t i f f' : file_at (tables s) t i = Some f -> put_file t i f' s = Ok (tt, set_tables (with_file (tables s) t i f') s).
Proof.
  unfold file_at, put_file, get_fs. destruct (tables s !! t) as [x|] eqn:E; [|done]. intros _. rewrite (bind_step _ _ s x s) by (unfold load; by rewrite E).
  unfold modify. by rewrite (with_file_insert _ t i f' x E).
Qed.

Lemma upd_file_spec s t i f g : file_at (tables s) t i = Some f -> upd_file t i g s = Ok (tt, set_tables (with_file (tables s) t i (g f)) s).
Proof. intros H. unfold upd_file. rewrite (bind_step _ _ _ _ _ (get_file_spec s t i f H)). by apply (put_file_spec s t i f). Qed.

Lemma with_file_twice m t i f f' : with_file (with_file m t i f) t i f' = with_file m t i f'.
Proof. unfold with_file. rewrite alter_alter_eq. apply alter_ext. intros x _. cbn. by rewrite list_insert_insert_eq. Qed.

(** The counters of [n] change by [dr] and [d]. *)
Record touched (s s' : vstate) (n dr d : Z) : Prop := {
  tc_tables : tables s' = tables s;
  tc_cts : forall k, cts s' k = if decide (k = n) then (fst (cts s n) + dr, snd (cts s n) + d) else cts s k }.

Lemma touched_trans s s1 s2 n r1 d1 r2 d2 : touched s s1 n r1 d1 -> touched s1 s2 n r2 d2 -> touched s s2 n (r1 + r2) (d1 + d2).
Proof.
  intros [T1 C1] [T2 C2]. split; [congruence|]. intros k. rewrite C2. case_decide; [|rewrite C1; by rewrite decide_False]. rewrite C1, decide_True by done. cbn. f_equal; lia.
Qed.

Lemma get_counts_spec s n r o : cts s n = (r, o) -> r <> 0 \/ o <> 0 -> get_counts n s = Ok ((r, o), s).
Proof. unfold cts, get_counts, load. destruct (inodes s !! n) as [[r' o']|]; cbn; [by intros [= -> ->]|]. intros [= <- <-]. lia. Qed.

Lemma cts_put s n r o k : cts (set_inodes (<[n := (r, o)]> (inodes s)) s) k = if decide (k = n) then (r, o) else cts s k.
Proof. unfold cts. cbn. rewrite lookup_insert. case_decide as E; [subst; by rewrite decide_True|by rewrite decide_False by congruence]. Qed.

Lemma touched_put s n r o dr d : cts s n = (r, o) -> touched s (set_inodes (<[n := (r + dr, o + d)]> (inodes s)) s) n dr d.
Proof. intros E. split; [done|]. intros k. rewrite cts_put, E. done. Qed.

Lemma vop_check_spec s n r o : cts s n = (r, o) -> is_Some (inodes s !! n) -> 0 <= o <= r -> r < MAX_COUNT -> vop_check n s = Ok (tt, s).
Proof.
  unfold cts. intros E [p Hp] Ho Hr. rewrite Hp in E. cbn in E. subst p. unfold vop_check. rewrite (bind_step _ _ s (r, o) s) by (unfold get_counts, load; by rewrite Hp).
  rewrite bind_kassert by (destruct (Z.leb_spec o r), (Z.leb_spec 0 o); done || lia). unfold kassert. by destruct (Z.ltb_spec r MAX_COUNT), (Z.ltb_spec o MAX_COUNT); try lia.
Qed.

Lemma cts_some s n r o : cts s n = (r, o) -> r <> 0 \/ o <> 0 -> is_Some (inodes s !! n).
Proof. unfold cts. destruct (inodes s !! n) as [p|]; [by exists p|]. cbn. intros [= <- <-]. lia. Qed.

Lemma ref_inc_ok s n r o : cts s n = (r, o) -> r <> 0 \/ o <> 0 -> 0 <= r < MAX_COUNT -> exists s', vop_ref_inc n s = Ok (tt, s') /\ touched s s' n 1 0.
Proof.
  intros E H Hr. unfold vop_ref_inc. rewrite (bind_step _ _ _ _ _ (get_counts_spec s n r o E H)). cbv beta iota. rewrite (smod_small 32) by (done || (unfold is_s; change MAX_COUNT with 65536 in Hr; lia)).
  eexists. split; [reflexivity|]. rewrite <- (Z.add_0_r o) at 1. by apply touched_put.
Qed.

Lemma open_inc_ok s n r o : cts s n = (r, o) -> r <> 0 \/ o <> 0 -> 0 <= o < MAX_COUNT -> exists s', vop_open_inc n s = Ok (tt, s') /\ touched s s' n 0 1.
Proof.
  intros E H Hr. unfold vop_open_inc. rewrite (bind_step _ _ _ _ _ (get_counts_spec s n r o E H)). cbv beta iota. rewrite (smod_small 32) by (done || (unfold is_s; change MAX_COUNT with 65536 in Hr; lia)).
  eexists. split; [reflexivity|]. rewrite <- (Z.add_0_r r) at 1. by apply touched_put.
Qed.

Lemma touched_call s s' n dr d c : touched s s' n dr d -> touched s (add_call c s') n dr d.
Proof. intros [T C]. by split. Qed.

Lemma ref_dec_ok s n r o : cts s n = (r, o) -> 0 <= o <= r - 1 -> r < MAX_COUNT -> exists s', vop_ref_dec n s = Ok (tt, s') /\ touched s s' n (-1) 0.
Proof.
  intros E Ho Hr. unfold vop_ref_dec. rewrite (bind_step _ _ _ _ _ (get_counts_spec s n r o E ltac:(lia))). cbv beta iota. rewrite bind_kassert by (apply Z.ltb_lt; lia).
  unfold put_counts. rewrite bind_modify. set (s1 := set_inodes _ s). assert (T : touched s s1 n (-1) 0) by (unfold s1; rewrite <- (Z.add_0_r o) at 1; by apply touched_put).
  destruct (Z.eqb_spec (r - 1) 0); [|by exists s1]. rewrite (bind_step _ _ s1 tt s1).
  - eexists. split; [reflexivity|by apply touched_call].
  - apply (vop_check_spec s1 n (r - 1) o); [unfold s1; rewrite cts_put; by rewrite decide_True|cbn; rewrite lookup_insert_eq; by eexists|lia|lia].
Qed.

Lemma open_dec_ok s n r o : cts s n = (r, o) -> 0 < o <= r -> r < MAX_COUNT -> exists s', vop_open_dec n s = Ok (tt, s') /\ touched s s' n 0 (-1).
Proof.
  intros E Ho Hr. unfold vop_open_dec. rewrite (bind_step _ _ _ _ _ (get_counts_spec s n r o E ltac:(lia))). cbv beta iota. rewrite bind_kassert by (apply Z.ltb_lt; lia).
  unfold put_counts. rewrite bind_modify. set (s1 := set_inodes _ s). assert (T : touched s s1 n 0 (-1)) by (unfold s1; rewrite <- (Z.add_0_r r) at 1; by apply touched_put).
  destruct (Z.eqb_spec (o - 1) 0); [|by exists s1]. rewrite (bind_step _ _ s1 tt s1).
  - eexists. split; [reflexivity|by apply touched_call].
  - apply (vop_check_spec s1 n r (o - 1)); [unfold s1; rewrite cts_put; by rewrite decide_True|cbn; rewrite lookup_insert_eq; by eexists|lia|lia].
Qed.

Lemma vfs_close_ok s n r o : cts s n = (r, o) -> 0 < o <= r -> r < MAX_COUNT -> exists s', vfs_close n s = Ok (tt, s') /\ touched s s' n (-1) (-1).
Proof.
  intros E Ho Hr. unfold vfs_close. destruct (open_dec_ok s n r o E Ho Hr) as (s1 & E1 & T1). rewrite (bind_step _ _ _ _ _ E1).
  destruct (ref_dec_ok s1 n r (o - 1)) as (s2 & E2 & T2); [rewrite (tc_cts _ _ _ _ _ T1), decide_True by done; rewrite E; cbn; f_equal; lia|lia|lia|].
  exists s2. split; [done|]. exact (touched_trans _ _ _ _ _ _ _ _ T1 T2).
Qed.
