(* ===== verification/FilesOps.v ===== *)
(** * FilesOps: what the operations on descriptors do to the invariant *)

From stdpp Require Import numbers gmap list.
From S2P Require Import Prelude Files FilesInv.
Local Open Scope Z_scope.

(** Directories and counts of the tables are as before. *)
Definition frame (s s' : vstate) : Prop := forall t, (fun x => (pwd x, fs_count x)) <$> tables s' !! t = (fun x => (pwd x, fs_count x)) <$> tables s !! t.

Lemma frame_refl s : frame s s.
Proof. done. Qed.
Lemma frame_trans s s1 s2 : frame s s1 -> frame s1 s2 -> frame s s2.
Proof. intros H1 H2 t. by rewrite H2, H1. Qed.
Lemma frame_tables s s' : tables s' = tables s -> frame s s'.
Proof. intros E t. by rewrite E. Qed.
Lemma frame_with s s' t i f : tables s' = with_file (tables s) t i f -> frame s s'.
Proof.
  intros E t2. rewrite E. unfold with_file. rewrite lookup_alter. case_decide as Et; [|done]. subst t2. by destruct (tables s !! t).
Qed.

Lemma frame_pwds s s' n : frame s s' -> pwds (tables s') n = pwds (tables s) n.
Proof.
  intros F. assert (Hm : forall m, pwds m n = map_fold (fun _ (p : option Z) a => Z.b2z (bool_decide (p = Some n)) + a) 0 (pwd <$> m)).
  { intros m. unfold pwds, total. by rewrite map_fold_fmap. }
  rewrite !Hm. f_equal. apply map_eq. intros t. rewrite !lookup_fmap. specialize (F t). destruct (tables s' !! t), (tables s !! t); cbn in *; congruence.
Qed.

Lemma file_at_range m c P E t i f : core m c P E -> 0 <= i -> file_at m t i = Some f -> 0 <= i < FS_STRUCT_NENTRY.
Proof.
  unfold file_at. intros C Hi H. destruct (m !! t) as [x|] eqn:Ex; [|done]. cbn in H. apply lookup_lt_Some in H. pose proof (co_len _ _ _ _ C t x Ex). lia.
Qed.

Lemma file_at_some m c P E t x i : core m c P E -> m !! t = Some x -> 0 <= i < FS_STRUCT_NENTRY -> exists f, file_at m t i = Some f /\ filemap x !! Z.to_nat i = Some f.
Proof.
  intros C Hx Hi. pose proof (co_len _ _ _ _ C t x Hx). destruct (lookup_lt_is_Some_2 (filemap x) (Z.to_nat i) ltac:(lia)) as [f Hf]. exists f. split; [|done].
  unfold file_at. rewrite Hx. exact Hf.
Qed.

Section ops.
Context (s : vstate) (P : pends) (E : Z -> Z) (C : core (tables s) (cts s) P E).

(** A file in use has its node counted. *)
Lemma used_counts t i f n : 0 <= i -> file_at (tables s) t i = Some f -> in_use f = true -> fnode f = Some n ->
  exists r o, cts s n = (r, o) /\ 0 < o /\ o + E n <= r < MAX_COUNT.
Proof.
  intros Hi Hf Hu Hn. exists (fst (cts s n)), (snd (cts s n)). split; [apply surjective_pairing|]. split; [|by eapply core_counts].
  rewrite (co_open _ _ _ _ C). unfold file_at in Hf. destruct (tables s !! t) as [x|] eqn:Ex; [|done]. cbn in Hf.
  assert (Hh : holds f n = true) by (unfold holds; rewrite Hu, Hn; by rewrite bool_decide_eq_true_2). pose proof (cnt_holds _ _ f n Hf Hh) as H1.
  pose proof (total_ge (fun x => cnt (filemap x) n) _ t x (fun x => cnt_nonneg (filemap x) n) Ex) as H2. cbn in H2. unfold fds. lia.
Qed.

(** ** Allocation *)

Lemma find_none_spec l i0 : match find_none l i0 with Some i => i0 <= i /\ exists f, l !! Z.to_nat (i - i0) = Some f /\ status f = FD_NONE | None => forall f, f ∈ l -> status f <> FD_NONE end.
Proof.
  revert i0. induction l as [|f l IH]; intros i0; cbn; [intros f H; by apply not_elem_of_nil in H|]. case_decide as Es.
  - split; [lia|]. exists f. by rewrite Z.sub_diag.
  - specialize (IH (i0 + 1)). destruct (find_none l (i0 + 1)) as [i|].
    + destruct IH as (Hle & g & Hg & Hs). split; [lia|]. exists g. by replace (Z.to_nat (i - i0)) with (S (Z.to_nat (i - (i0 + 1)))) by lia.
    + intros g [->|Hg]%elem_of_cons; [done|by apply IH].
Qed.

Lemma find_none_least l i0 i : find_none l i0 = Some i -> forall (j : nat) f, Z.of_nat j < i - i0 -> l !! j = Some f -> status f <> FD_NONE.
Proof.
  revert i0. induction l as [|g l IH]; intros i0; cbn; [done|]. case_decide as Es; [intros [= ->] j f; lia|]. intros H [|j] f Hj Hf; [by injection Hf as <-|]. apply (IH (i0 + 1) H j f); [lia|done].
Qed.

Definition fresh (f : file) : file := set_node None (set_status FD_INIT f).

Lemma init_core t i f f1 : 0 <= i -> file_at (tables s) t i = Some f -> status f = FD_NONE -> status f1 = FD_INIT -> fopen_count f1 = fopen_count f -> fd f1 = fd f ->
  core (with_file (tables s) t i f1) (cts s) ((t, i, Opening) :: P) E.
Proof.
  intros Hi Hf Hs Hs1 Hc1 Hd1. destruct (co_file _ _ _ _ C t i f Hi Hf) as [Hd Hc]. rewrite Hs in Hc. destruct Hc as (Hc & Hu & Ho).
  eapply core_file; [exact C|done|exact Hf| | | |].
  - intros t2 i2 u Hne. rewrite npend_cons. rewrite bool_decide_eq_false_2 by (intros [= <- <- <-]; done). done.
  - intros t2 i2 u [[= -> -> ->]|Hin]%elem_of_cons; [by left|by right].
  - split; [congruence|]. rewrite Hs1, Hc1. rewrite !npend_cons. rewrite bool_decide_eq_false_2, bool_decide_eq_true_2 by done. cbn. split_and!; lia.
  - apply shifted_refl; [|intros n; by eapply core_counts]. intros n. unfold holds, in_use. rewrite Hs, Hs1. rewrite !bool_decide_eq_false_2 by (by intros [|]). done.
Qed.

Lemma alloc_found_ok t i f : 0 <= i -> file_at (tables s) t i = Some f -> status f = FD_NONE ->
  alloc_found t i s = Ok ((0, Some i), set_tables (with_file (tables s) t i (fresh f)) s).
Proof.
  intros Hi Hf Hs. destruct (co_file _ _ _ _ C t i f Hi Hf) as [Hd Hc]. rewrite Hs in Hc. destruct Hc as (Hc & _). unfold alloc_found.
  rewrite (bind_step _ _ _ _ _ (get_file_spec s t i f Hf)). rewrite bind_kassert by (by rewrite Hc). by rewrite (bind_step _ _ _ _ _ (put_file_spec s t i f _ Hf)).
Qed.

(** A process has the table [t]. *)
Definition live (t : Z) : Prop := exists x, tables s !! t = Some x /\ 0 < fs_count x.

Lemma get_filemap_ok t x : tables s !! t = Some x -> 0 < fs_count x -> get_filemap t s = Ok (filemap x, s).
Proof.
  intros Hx Hc. unfold get_filemap, get_fs. rewrite (bind_step _ _ s x s) by (unfold load; by rewrite Hx). by rewrite bind_kassert by (by apply Z.ltb_lt).
Qed.

(** The entry taken has no other use. *)
Lemma filemap_alloc_ok t d : live t -> exists ret oi s', filemap_alloc t d s = Ok ((ret, oi), s') /\
  match oi with
  | None => ret <> 0 /\ s' = s
  | Some i => ret = 0 /\ 0 <= i /\ exists f, file_at (tables s) t i = Some f /\ status f = FD_NONE /\ s' = set_tables (with_file (tables s) t i (fresh f)) s
  end.
Proof.
  intros (x & Hx & Hc). unfold filemap_alloc. rewrite (bind_step _ _ _ _ _ (get_filemap_ok t x Hx Hc)). destruct (d =? NO_FD).
  - pose proof (find_none_spec (filemap x) 0) as Hf. destruct (find_none (filemap x) 0) as [i|]; [|by exists (- E_MAX_OPEN), None, s].
    destruct Hf as (Hi & f & Hf & Hs). rewrite Z.sub_0_r in Hf. assert (Hat : file_at (tables s) t i = Some f) by (unfold file_at; rewrite Hx; exact Hf).
    rewrite (alloc_found_ok t i f Hi Hat Hs). eexists 0, (Some i), _. split; [reflexivity|]. split; [done|]. split; [done|]. by exists f.
  - destruct (testfd d) eqn:Ed; [|by exists (- EINVAL), None, s]. unfold testfd in Ed. apply andb_true_iff in Ed as [H0%Z.leb_le H1%Z.ltb_lt].
    destruct (file_at_some _ _ _ _ t x d C Hx ltac:(lia)) as (f & Hat & _). rewrite (bind_step _ _ _ _ _ (get_file_spec s t d f Hat)). case_decide as Hs; [|by exists (- EBUSY), None, s].
    rewrite (alloc_found_ok t d f H0 Hat Hs). eexists 0, (Some d), _. split; [reflexivity|]. split; [done|]. split; [done|]. by exists f.
Qed.

(** ** Freeing *)

Lemma opening_init t i f : (t, i, Opening) ∈ P -> file_at (tables s) t i = Some f -> 0 <= i /\ status f = FD_INIT /\ fopen_count f = 0 /\ fd f = i.
Proof.
  intros Hin Hf. destruct (co_pend _ _ _ _ C t i Opening Hin) as [Hi _]. pose proof (proj2 (npend_in P t i Opening) Hin) as Hp.
  destruct (co_file _ _ _ _ C t i f Hi Hf) as [Hd Hc]. destruct (status f); destruct Hc as (? & ? & ?); split_and!; (done || lia).
Qed.

Lemma rem_other e t i : e ∈ P -> (e.1.1, e.1.2) = (t, i) -> forall t2 i2 u, (t2, i2) <> (t, i) -> npend (rem1 e P) t2 i2 u = npend P t2 i2 u.
Proof. intros Hin He t2 i2 u Hne. rewrite npend_rem by done. rewrite bool_decide_eq_false_2; [cbn; lia|]. intros ->. done. Qed.

Lemma free_init_ok t i f : (t, i, Opening) ∈ P -> file_at (tables s) t i = Some f ->
  exists s', filemap_free t i s = Ok (tt, s') /\ tables s' = with_file (tables s) t i (set_status FD_NONE f) /\ cts s' = cts s /\ core (tables s') (cts s') (rem1 (t, i, Opening) P) E.
Proof.
  intros Hin Hf. destruct (opening_init t i f Hin Hf) as (Hi & Hs & Hc & Hd). unfold filemap_free. rewrite (bind_step _ _ _ _ _ (get_file_spec s t i f Hf)).
  rewrite bind_kassert by (apply bool_decide_eq_true_2; by left). rewrite bind_kassert by (by rewrite Hc). rewrite decide_False by (by rewrite Hs).
  rewrite (bind_step _ _ s tt s) by done. rewrite (upd_file_spec s t i f _ Hf). eexists. split; [reflexivity|]. split; [reflexivity|]. split; [reflexivity|].
  destruct (co_file _ _ _ _ C t i f Hi Hf) as [_ Hk]. rewrite Hs in Hk. destruct Hk as (_ & Hu & Ho).
  eapply core_file; [exact C|done|exact Hf|by apply (rem_other (t, i, Opening))|intros t2 i2 u H2; right; by eapply rem1_in| |].
  - split; [done|]. cbn. rewrite !npend_rem by done. rewrite bool_decide_eq_false_2, bool_decide_eq_true_2 by done. cbn. split_and!; lia.
  - apply shifted_refl; [|intros n; by eapply core_counts]. intros n. unfold holds, in_use. cbn. rewrite Hs. rewrite !bool_decide_eq_false_2 by (by intros [|]). done.
Qed.
End ops.

Section uses.
Context (s : vstate) (P : pends) (E : Z -> Z) (C : core (tables s) (cts s) P E).

Lemma using_file t i f : (t, i, Using) ∈ P -> file_at (tables s) t i = Some f -> 0 <= i /\ in_use f = true /\ 0 < fopen_count f /\ is_Some (fnode f).
Proof.
  intros Hin Hf. destruct (co_pend _ _ _ _ C t i Using Hin) as [Hi _]. pose proof (proj2 (npend_in P t i Using) Hin) as Hp.
  destruct (co_file _ _ _ _ C t i f Hi Hf) as [Hd Hc]. unfold in_use. destruct (status f) eqn:Es.
  - destruct Hc as (? & ? & ?). lia.
  - destruct Hc as (? & ? & ?). lia.
  - destruct Hc as (? & ? & ?). split_and!; [done|by apply bool_decide_eq_true_2; left|lia|done].
  - destruct Hc as (? & ? & ? & ?). split_and!; [done|by apply bool_decide_eq_true_2; right|lia|done].
Qed.

Lemma holds_same f f' : in_use f' = in_use f -> fnode f' = fnode f -> forall n, holds f' n = holds f n.
Proof. intros E1 E2 n. unfold holds. by rewrite E1, E2. Qed.

Lemma acquire_ok t i f : 0 <= i -> file_at (tables s) t i = Some f -> status f = FD_OPENED -> Z.of_nat (length P) < 2 ^ 30 ->
  let s' := set_tables (with_file (tables s) t i (set_count (fopen_count f + 1) f)) s in
  filemap_acquire t i s = Ok (tt, s') /\ core (tables s') (cts s') ((t, i, Using) :: P) E.
Proof.
  intros Hi Hf Hs Hl s'. destruct (co_file _ _ _ _ C t i f Hi Hf) as [Hd Hc]. rewrite Hs in Hc. destruct Hc as (Hc & Ho & Hn). pose proof (npend_le P t i Using) as Hle. pose proof (npend_nonneg P t i Using).
  split.
  - unfold filemap_acquire. rewrite (bind_step _ _ _ _ _ (get_file_spec s t i f Hf)). rewrite bind_kassert by (apply bool_decide_eq_true_2; by left).
    rewrite (smod_small 32) by (done || (unfold is_s; lia)). exact (put_file_spec s t i f _ Hf).
  - eapply core_file; [exact C|done|exact Hf| | | |].
    + intros t2 i2 u Hne. rewrite npend_cons. rewrite bool_decide_eq_false_2 by (intros [= <- <- <-]; done). done.
    + intros t2 i2 u [[= -> -> ->]|Hin]%elem_of_cons; [by left|by right].
    + split; [done|]. cbn. rewrite Hs. rewrite !npend_cons. rewrite bool_decide_eq_true_2, bool_decide_eq_false_2 by done. cbn. split_and!; [lia|lia|done].
    + apply shifted_refl; [by apply holds_same|intros n; by eapply core_counts].
Qed.

(** The node of a file is closed with its last use. *)
Lemma drop_last t i f f1 n P' : 0 <= i -> file_at (tables s) t i = Some f -> in_use f = true -> fnode f = Some n ->
  status f1 = FD_CLOSED -> fopen_count f1 = 0 -> fnode f1 = Some n -> fd f1 = i ->
  (forall t2 i2 u, (t2, i2) <> (t, i) -> npend P' t2 i2 u = npend P t2 i2 u) -> (forall t2 i2 u, (t2, i2, u) ∈ P' -> (t2, i2, u) ∈ P) -> (forall u, npend P' t i u = 0) ->
  exists s', filemap_free t i (set_tables (with_file (tables s) t i f1) s) = Ok (tt, s') /\ tables s' = with_file (tables s) t i (set_status FD_NONE f1) /\
    core (tables s') (cts s') P' E.
Proof.
  intros Hi Hf Hu Hn Hs1 Hc1 Hn1 Hd1 HP Hin H0. set (s1 := set_tables _ s). destruct (used_counts s P E C t i f n Hi Hf Hu Hn) as (r & o & Ec & Ho & Hr). pose proof (co_extra _ _ _ _ C n) as HE.
  assert (Hf1 : file_at (tables s1) t i = Some f1) by (unfold s1; cbn; rewrite (file_at_with (tables s) t i f f1) by done; by rewrite decide_True).
  unfold filemap_free. rewrite (bind_step _ _ _ _ _ (get_file_spec s1 t i f1 Hf1)). rewrite bind_kassert by (apply bool_decide_eq_true_2; by right). rewrite bind_kassert by (by rewrite Hc1).
  rewrite decide_True by done. unfold node_of. rewrite Hn1. destruct (vfs_close_ok s1 n r o Ec ltac:(lia) ltac:(lia)) as (s2 & E2 & [T2 C2]).
  rewrite (bind_step _ _ s1 tt s2) by exact E2. assert (Hf2 : file_at (tables s2) t i = Some f1) by (by rewrite T2). rewrite (upd_file_spec s2 t i f1 _ Hf2). eexists. split; [reflexivity|].
  cbn [tables set_tables]. rewrite T2. cbn [tables set_tables s1]. rewrite with_file_twice. split; [reflexivity|].
  eapply core_file; [exact C|done|exact Hf|exact HP|by right; apply Hin| |].
  - split; [done|]. cbn. rewrite !H0. done.
  - intros k. assert (Hh' : holds (set_status FD_NONE f1) k = false) by (unfold holds, in_use; cbn; by rewrite bool_decide_eq_false_2 by (by intros [|])). rewrite Hh'.
    change (cts (set_tables (with_file (tables s) t i (set_status FD_NONE f1)) s2) k) with (cts s2 k). rewrite C2. change (cts s1) with (cts s).
    unfold holds. rewrite Hu, Hn. case_decide as Ek; cbn [andb].
    + subst k. rewrite bool_decide_eq_true_2 by done. rewrite Ec. cbn. lia.
    + rewrite bool_decide_eq_false_2 by congruence. pose proof (core_counts _ _ _ _ k C). cbn. lia.
Qed.

Lemma release_ok t i f : (t, i, Using) ∈ P -> file_at (tables s) t i = Some f ->
  exists s' f', filemap_release t i s = Ok (tt, s') /\ tables s' = with_file (tables s) t i f' /\ core (tables s') (cts s') (rem1 (t, i, Using) P) E /\
    status f' = if decide (status f = FD_CLOSED /\ npend P t i Using = 1) then FD_NONE else status f.
Proof.
  intros Hin Hf. destruct (using_file t i f Hin Hf) as (Hi & Hu & Hc & [n Hn]). unfold filemap_release. rewrite (bind_step _ _ _ _ _ (get_file_spec s t i f Hf)).
  rewrite bind_kassert by done. rewrite bind_kassert by (by apply Z.ltb_lt). rewrite (bind_step _ _ _ _ _ (put_file_spec s t i f _ Hf)). set (f1 := set_count (fopen_count f - 1) f).
  assert (HP : forall t2 i2 u, (t2, i2) <> (t, i) -> npend (rem1 (t, i, Using) P) t2 i2 u = npend P t2 i2 u) by (by apply (rem_other P (t, i, Using))).
  assert (Hsub : forall t2 i2 u, (t2, i2, u) ∈ rem1 (t, i, Using) P -> (t2, i2, u) ∈ P) by (intros t2 i2 u; apply rem1_in).
  assert (HU : npend (rem1 (t, i, Using) P) t i Using = npend P t i Using - 1) by (rewrite npend_rem by done; by rewrite bool_decide_eq_true_2).
  assert (HO : npend (rem1 (t, i, Using) P) t i Opening = npend P t i Opening) by (rewrite npend_rem by done; rewrite bool_decide_eq_false_2 by done; cbn; lia).
  pose proof (proj2 (npend_in P t i Using) Hin) as Hp. destruct (co_file _ _ _ _ C t i f Hi Hf) as [Hd Hk].
  destruct (Z.eqb_spec (fopen_count f - 1) 0) as [E0|Hne].
  - assert (Hcl : status f = FD_CLOSED) by (destruct (status f); [destruct Hk as (? & ? & ?); lia..|done]). rewrite Hcl in Hk. destruct Hk as (Hk & _ & Ho & _).
    destruct (drop_last t i f f1 n (rem1 (t, i, Using) P)) as (s' & E' & T' & C'); [done|done|done|done|exact Hcl|exact E0|exact Hn|exact Hd|exact HP|exact Hsub| |].
    + intros []; [rewrite HO; lia|rewrite HU; lia].
    + exists s', (set_status FD_NONE f1). split; [exact E'|]. split; [exact T'|]. split; [exact C'|]. by rewrite decide_True by (split; [done|lia]).
  - eexists _, f1. split; [reflexivity|]. split; [reflexivity|]. split.
    2: { rewrite decide_False; [done|]. intros [Hcl H1]. rewrite Hcl in Hk. lia. }
    eapply core_file; [exact C|done|exact Hf|exact HP|by right; apply Hsub| |].
    + split; [done|]. cbn. rewrite HU, HO. destruct (status f); [destruct Hk as (? & ? & ?); lia..| |]; destruct Hk as (? & ? & ?); split_and!; (done || lia || tauto).
    + apply shifted_refl; [by apply holds_same|intros k; by eapply core_counts].
Qed.

Lemma close_ok t i f : 0 <= i -> file_at (tables s) t i = Some f -> status f = FD_OPENED ->
  exists s' f', filemap_close t i s = Ok (tt, s') /\ tables s' = with_file (tables s) t i f' /\ core (tables s') (cts s') P E /\ status f' = (if decide (npend P t i Using = 0) then FD_NONE else FD_CLOSED) /\ fnode f' = fnode f.
Proof.
  intros Hi Hf Hs. destruct (co_file _ _ _ _ C t i f Hi Hf) as [Hd Hc]. rewrite Hs in Hc. destruct Hc as (Hc & Ho & [n Hn]). pose proof (npend_nonneg P t i Using) as Hp.
  unfold filemap_close. rewrite (bind_step _ _ _ _ _ (get_file_spec s t i f Hf)). rewrite bind_kassert by (by apply bool_decide_eq_true_2). rewrite bind_kassert by (apply Z.ltb_lt; lia).
  rewrite (bind_step _ _ _ _ _ (put_file_spec s t i f _ Hf)). set (f1 := set_count (fopen_count f - 1) (set_status FD_CLOSED f)).
  assert (Hu : in_use f = true) by (apply bool_decide_eq_true_2; by left). destruct (Z.eqb_spec (fopen_count f - 1) 0) as [E0|Hne].
  - destruct (drop_last t i f f1 n P) as (s' & E' & T' & C'); [done|done|done|done|reflexivity|exact E0|exact Hn|exact Hd|done|done| |].
    + intros []; lia.
    + exists s', (set_status FD_NONE f1). split; [exact E'|]. split; [exact T'|]. split; [exact C'|]. split; [by rewrite decide_True by lia|done].
  - eexists _, f1. split; [reflexivity|]. split; [reflexivity|]. split; [|split; [by rewrite decide_False by lia|done]]. apply (core_same _ _ _ _ t i f f1); [exact C|done|exact Hf| |].
    + apply holds_same; [|done]. rewrite Hu. apply bool_decide_eq_true_2. by right.
    + split; [done|]. cbn. rewrite Hn. split_and!; [lia|lia|lia|by eexists].
Qed.
End uses.

(** ** Opening *)

Section opening.
Context (s : vstate) (P : pends) (E : Z -> Z) (C : core (tables s) (cts s) P E).

(** Two more references to [n] are possible. *)
Definition room (n : Z) : Prop := fst (cts s n) + 2 < MAX_COUNT.

Lemma cts_nonneg n : 0 <= snd (cts s n) /\ snd (cts s n) <= fst (cts s n).
Proof. pose proof (core_counts _ _ _ _ n C). pose proof (co_extra _ _ _ _ C n). rewrite (co_open _ _ _ _ C) in *. pose proof (fds_nonneg (tables s) n). lia. Qed.

Lemma obtain_ok s0 n : exists s', obtain n s0 = Ok (tt, s') /\ touched s0 s' n 1 0 /\ is_Some (inodes s' !! n).
Proof.
  unfold obtain, modify. eexists. split; [reflexivity|]. assert (Ec : exists r o, cts s0 n = (r, o)) by (destruct (cts s0 n) as [r o]; by exists r, o).
  destruct Ec as (r & o & Ec). pose proof Ec as Ec'. unfold cts in Ec'. rewrite Ec'. split; [|cbn; rewrite lookup_insert_eq; by eexists].
  pose proof (touched_put s0 n r o 1 0 Ec) as T. by rewrite Z.add_0_r in T.
Qed.

(** The inode as [vfs_open] found it: with a reference, and nothing else changed. *)
Lemma open_node_ok flags r : room (snd (or_parent r)) -> room (snd (or_create r)) -> room (snd (or_lookup r)) ->
  exists ret n s', vfs_open_node flags r s = Ok ((ret, n), s') /\ tables s' = tables s /\
    if ret =? 0 then room n /\ touched s s' n 1 0 else forall k, cts s' k = cts s k.
Proof.
  intros Rp Rc Rl. unfold vfs_open_node. destruct (has flags O_CREAT).
  - destruct (or_parent r) as [pret dir] eqn:Ep. destruct (Z.eqb_spec pret 0) as [E0|Hne]; cbn [negb].
    2: { exists pret, 0, s. split; [done|]. split; [done|]. by destruct (Z.eqb_spec pret 0). }
    destruct (obtain_ok s dir) as (s1 & E1 & [T1 C1] & Hd). rewrite (bind_step _ _ _ _ _ E1). pose proof (cts_nonneg dir) as Hn. unfold room in *. cbn in Rp.
    assert (Ed : cts s1 dir = (fst (cts s dir) + 1, snd (cts s dir))) by (rewrite C1, decide_True by done; f_equal; lia).
    rewrite (bind_step _ _ s1 tt s1) by (eapply vop_check_spec; [exact Ed|exact Hd|lia|lia]). destruct (or_create r) as [ret n] eqn:Er. cbn in Rc.
    destruct (Z.eqb_spec ret 0) as [R0|Rn].
    + destruct (obtain_ok s1 n) as (s2 & E2 & [T2 C2] & _). rewrite (bind_step _ _ _ _ _ E2). destruct (cts s2 dir) as [rd od] eqn:E2d.
      assert (Hrd : rd = fst (cts s dir) + 1 + (if decide (dir = n) then 1 else 0) /\ od = snd (cts s dir)).
      { rewrite C2 in E2d. destruct (decide (dir = n)) as [<-|]; rewrite Ed in E2d; injection E2d as <- <-; cbn; lia. }
      destruct (ref_dec_ok s2 dir rd od E2d) as (s3 & E3 & [T3 C3]); [case_decide; lia|case_decide; lia|]. rewrite (bind_step _ _ _ _ _ E3).
      exists ret, n, s3. split; [done|]. split; [congruence|]. rewrite R0. cbn [Z.eqb]. split; [done|]. split; [congruence|]. intros k. rewrite C3, E2d. cbn.
      destruct (decide (k = dir)) as [->|Hk]; [destruct Hrd as [-> ->]; destruct (decide (dir = n)) as [->|]; [f_equal; lia|rewrite (surjective_pairing (cts s dir)) at 3; f_equal; lia]|].
      rewrite C2. destruct (decide (k = n)) as [->|]; [|rewrite C1; by rewrite decide_False]. rewrite C1, decide_False by done. done.
    + rewrite (bind_step _ _ s1 tt s1) by done. destruct (ref_dec_ok s1 dir _ _ Ed) as (s3 & E3 & [T3 C3]); [lia|lia|]. rewrite (bind_step _ _ _ _ _ E3).
      exists ret, n, s3. split; [done|]. split; [congruence|]. destruct (Z.eqb_spec ret 0); [done|]. intros k. rewrite C3, Ed. cbn.
      case_decide as Ek; [subst k; rewrite (surjective_pairing (cts s dir)) at 3; f_equal; lia|]. rewrite C1. by rewrite decide_False.
  - destruct (or_lookup r) as [ret n] eqn:Er. cbn in Rl. destruct (Z.eqb_spec ret 0) as [R0|Rn].
    + destruct (obtain_ok s n) as (s1 & E1 & [T1 C1] & _). rewrite (bind_step _ _ _ _ _ E1). exists ret, n, s1. split; [done|]. split; [done|]. rewrite R0. cbn [Z.eqb]. by split.
    + exists ret, n, s. split; [done|]. split; [done|]. by destruct (Z.eqb_spec ret 0).
Qed.

(** The result of [vfs_open]: an inode with one more reference and one more opening, or no change. *)
Lemma vfs_open_ok flags r : room (snd (or_parent r)) -> room (snd (or_create r)) -> room (snd (or_lookup r)) ->
  exists ret n s', vfs_open flags r s = Ok ((ret, n), s') /\ tables s' = tables s /\
    if ret =? 0 then room n /\ touched s s' n 1 1 /\ access flags <> None else forall k, cts s' k = cts s k.
Proof.
  intros Rp Rc Rl. unfold vfs_open. destruct (access flags) as [[a b]|] eqn:Ea; [|by exists (- EINVAL), 0, s].
  destruct (has flags O_TRUNC && negb b); [by exists (- EINVAL), 0, s|].
  destruct (open_node_ok flags r Rp Rc Rl) as (ret & n & s1 & E1 & T1 & H1). rewrite (bind_step _ _ _ _ _ E1). destruct (Z.eqb_spec ret 0) as [R0|Rn]; cbn [negb].
  2: { exists ret, 0, s1. split; [done|]. split; [done|]. by destruct (Z.eqb_spec ret 0). }
  destruct H1 as [Hroom T]. pose proof (cts_nonneg n) as Hn. unfold room in Hroom.
  assert (Ec : cts s1 n = (fst (cts s n) + 1, snd (cts s n))) by (rewrite (tc_cts _ _ _ _ _ T), decide_True by done; f_equal; lia).
  rewrite (bind_step _ _ s1 tt s1) by (eapply vop_check_spec; [exact Ec|eapply cts_some; [exact Ec|lia]|lia|lia]).
  destruct (Z.eqb_spec (or_open r) 0) as [O0|On]; cbn [negb].
  2: { destruct (ref_dec_ok s1 n _ _ Ec) as (s2 & E2 & T2); [lia|lia|]. rewrite (bind_step _ _ _ _ _ E2). exists (or_open r), 0, s2. split; [done|].
       split; [by rewrite (tc_tables _ _ _ _ _ T2)|]. destruct (Z.eqb_spec (or_open r) 0); [done|]. intros k. rewrite (tc_cts _ _ _ _ _ (touched_trans _ _ _ _ _ _ _ _ T T2)).
       case_decide as Ek; [subst k; rewrite (surjective_pairing (cts s n)) at 3; f_equal; lia|done]. }
  destruct (open_inc_ok s1 n _ _ Ec) as (s2 & E2 & T2); [lia|lia|]. rewrite (bind_step _ _ _ _ _ E2). pose proof (touched_trans _ _ _ _ _ _ _ _ T T2) as T12. cbn in T12.
  destruct (has flags O_TRUNC); [|exists 0, n, s2; split; [done|]; split; [by rewrite (tc_tables _ _ _ _ _ T12)|done]].
  assert (Ec2 : cts s2 n = (fst (cts s n) + 1, snd (cts s n) + 1)) by (rewrite (tc_cts _ _ _ _ _ T12); by rewrite decide_True).
  rewrite (bind_step _ _ s2 tt s2) by (eapply vop_check_spec; [exact Ec2|eapply cts_some; [exact Ec2|lia]|lia|lia]).
  destruct (Z.eqb_spec (or_trunc r) 0) as [Q0|Qn]; cbn [negb]; [exists 0, n, s2; split; [done|]; split; [by rewrite (tc_tables _ _ _ _ _ T12)|done]|].
  destruct (vfs_close_ok s2 n _ _ Ec2) as (s3 & E3 & T3); [lia|lia|]. unfold vfs_close in E3. apply bind_Ok in E3 as ([] & s4 & E4 & E5). rewrite (bind_step _ _ _ _ _ E4), (bind_step _ _ _ _ _ E5).
  exists (or_trunc r), 0, s3. split; [done|]. split; [by rewrite (tc_tables _ _ _ _ _ T3), (tc_tables _ _ _ _ _ T12)|]. destruct (Z.eqb_spec (or_trunc r) 0); [done|].
  intros k. rewrite (tc_cts _ _ _ _ _ (touched_trans _ _ _ _ _ _ _ _ T12 T3)). case_decide as Ek; [subst k; rewrite (surjective_pairing (cts s n)) at 3; f_equal; lia|done].
Qed.
End opening.

Lemma core_ext m c c' P E : (forall k, c' k = c k) -> core m c P E -> core m c' P E.
Proof. intros H [Cl Cf Cp Co Cr Ce]. split; [done|done|done| | |done]; intros n; rewrite H; auto. Qed.

Section opened.
Context (s : vstate) (P : pends) (E : Z -> Z) (C : core (tables s) (cts s) P E).

Lemma opened_core t i f f' n c' : (t, i, Opening) ∈ P -> file_at (tables s) t i = Some f -> fst (cts s n) + 1 < MAX_COUNT ->
  (forall k, c' k = if decide (k = n) then (fst (cts s n) + 1, snd (cts s n) + 1) else cts s k) ->
  status f' = FD_OPENED -> fopen_count f' = 1 -> fd f' = i -> fnode f' = Some n -> core (with_file (tables s) t i f') c' (rem1 (t, i, Opening) P) E.
Proof.
  intros Hin Hf Hr Hc Hs' Hc' Hd' Hn'. destruct (opening_init s P E C t i f Hin Hf) as (Hi & Hs & _). destruct (co_file _ _ _ _ C t i f Hi Hf) as [_ Hk]. rewrite Hs in Hk. destruct Hk as (_ & Hu & Ho).
  eapply core_file; [exact C|done|exact Hf|by apply (rem_other P (t, i, Opening))|intros t2 i2 u H2; right; by eapply rem1_in| |].
  - split; [done|]. rewrite Hs', Hc', Hn'. rewrite !npend_rem by done. rewrite bool_decide_eq_false_2, bool_decide_eq_true_2 by done. cbn. split_and!; [lia|lia|by eexists].
  - intros k. assert (Hh : holds f k = false) by (unfold holds, in_use; rewrite Hs; by rewrite bool_decide_eq_false_2 by (by intros [|])). rewrite Hh, Hc. unfold holds, in_use. rewrite Hs', Hn'.
    rewrite bool_decide_eq_true_2 by (by left). cbn [andb]. pose proof (core_counts _ _ _ _ k C). case_decide as Ek.
    + subst k. rewrite bool_decide_eq_true_2 by done. cbn. lia.
    + rewrite bool_decide_eq_false_2 by congruence. cbn. lia.
Qed.

Lemma filemap_open_ok s0 t i f n : file_at (tables s0) t i = Some f -> status f = FD_INIT -> fopen_count f = 0 -> fnode f = Some n ->
  filemap_open t i s0 = Ok (tt, set_tables (with_file (tables s0) t i (set_count 1 (set_status FD_OPENED f))) s0).
Proof.
  intros Hf Hs Hc Hn. unfold filemap_open. rewrite (bind_step _ _ _ _ _ (get_file_spec s0 t i f Hf)).
  rewrite bind_kassert by (rewrite bool_decide_eq_true_2 by (by left); by rewrite bool_decide_eq_true_2 by (by rewrite Hn)). rewrite Hc. exact (put_file_spec s0 t i f _ Hf).
Qed.

Lemma at_with s0 t i f f' : 0 <= i -> file_at (tables s0) t i = Some f -> file_at (with_file (tables s0) t i f') t i = Some f'.
Proof. intros Hi Hf. rewrite (file_at_with _ t i f f') by done. by rewrite decide_True. Qed.

(** The file with its node and modes set, opened. *)
Lemma install_ok s1 t i f g n : (t, i, Opening) ∈ P -> file_at (tables s) t i = Some f -> room s n -> touched s s1 n 1 1 ->
  (forall f, status (g f) = status f /\ fopen_count (g f) = fopen_count f /\ fd (g f) = fd f) -> fnode (g f) = Some n ->
  exists s', (_ ← upd_file t i g; _ ← filemap_open t i; f ← get_file t i; mret (fd f)) s1 = Ok (i, s') /\
    tables s' = with_file (tables s) t i (set_count 1 (set_status FD_OPENED (g f))) /\ core (tables s') (cts s') (rem1 (t, i, Opening) P) E.
Proof.
  intros Hin Hf Hr [T1 C1] Hg Hn. destruct (opening_init s P E C t i f Hin Hf) as (Hi & Hs & Hc & Hd). destruct (Hg f) as (G1 & G2 & G3).
  assert (Hf1 : file_at (tables s1) t i = Some f) by (by rewrite T1). rewrite (bind_step _ _ _ _ _ (upd_file_spec s1 t i f g Hf1)). set (s2 := set_tables _ s1).
  assert (Hf2 : file_at (tables s2) t i = Some (g f)) by exact (at_with s1 t i f (g f) Hi Hf1).
  rewrite (bind_step _ _ _ _ _ (filemap_open_ok s2 t i (g f) n Hf2 ltac:(congruence) ltac:(congruence) Hn)). set (f' := set_count 1 _). set (s3 := set_tables _ s2).
  assert (Hf3 : file_at (tables s3) t i = Some f') by exact (at_with s2 t i (g f) f' Hi Hf2). rewrite (bind_step _ _ _ _ _ (get_file_spec s3 t i f' Hf3)).
  exists s3. split; [unfold mret, M_ret; cbn; do 2 f_equal; congruence|].
  assert (T3 : tables s3 = with_file (tables s) t i f') by (unfold s3, s2; cbn; by rewrite with_file_twice, T1). split; [exact T3|]. rewrite T3. apply (opened_core t i f f' n); try done.
  - unfold room in Hr. lia.
  - cbn. congruence.
Qed.

Lemma core_pos s0 E0 P0 t i f p : core (tables s0) (cts s0) P0 E0 -> 0 <= i -> file_at (tables s0) t i = Some f -> core (with_file (tables s0) t i (set_pos p f)) (cts s0) P0 E0.
Proof.
  intros C0 Hi Hf. apply (core_same _ _ _ _ t i f); [exact C0|done|exact Hf|by apply holds_same|]. exact (co_file _ _ _ _ C0 t i f Hi Hf).
Qed.

End opened.

Section open_end.
Context (s : vstate) (P : pends) (E : Z -> Z) (C : core (tables s) (cts s) P E).
Context (t i : Z) (Hin : (t, i, Opening) ∈ P) (f : file) (Hf : file_at (tables s) t i = Some f).

Lemma opening_pos : 0 <= i.
Proof. apply (co_pend _ _ _ _ C t i Opening Hin). Qed.

(** [s1]: after [vfs_open]; the position was set. *)
Lemma install_pos s1 n p g : room s n -> touched s s1 n 1 1 ->
  (forall f, status (g f) = status f /\ fopen_count (g f) = fopen_count f /\ fd (g f) = fd f) -> (forall f, fnode (g f) = Some n) ->
  exists s', (_ ← upd_file t i g; _ ← filemap_open t i; f ← get_file t i; mret (fd f)) (set_tables (with_file (tables s1) t i (set_pos p f)) s1) = Ok (i, s') /\
    core (tables s') (cts s') (rem1 (t, i, Opening) P) E /\ frame s s'.
Proof.
  intros Hr [T1 C1] Hg Hn. pose proof opening_pos as Hi. set (s3 := set_tables _ s1). set (s0 := set_tables (with_file (tables s) t i (set_pos p f)) s).
  assert (C0 : core (tables s0) (cts s0) P E) by exact (core_pos s E P t i f p C Hi Hf).
  assert (Hf0 : file_at (tables s0) t i = Some (set_pos p f)) by exact (at_with s t i f _ Hi Hf).
  assert (T03 : touched s0 s3 n 1 1) by (split; [cbn; by rewrite T1|exact C1]).
  destruct (install_ok s0 P E C0 s3 t i (set_pos p f) g n Hin Hf0 Hr T03 Hg (Hn _)) as (s' & E' & T' & C'). exists s'. split; [exact E'|]. split; [exact C'|].
  eapply frame_trans; [by eapply (frame_with s s0)|by eapply frame_with].
Qed.

(** The open fails: the entry is given back. *)
Lemma abandon s1 g : tables s1 = with_file (tables s) t i (g f) -> (forall k, cts s1 k = cts s k) ->
  status (g f) = status f -> fopen_count (g f) = fopen_count f -> fd (g f) = fd f ->
  exists s', filemap_free t i s1 = Ok (tt, s') /\ core (tables s') (cts s') (rem1 (t, i, Opening) P) E /\ frame s s'.
Proof.
  intros T1 C1 G1 G2 G3. pose proof opening_pos as Hi. destruct (opening_init s P E C t i f Hin Hf) as (_ & Hs & _).
  assert (Hc : core (tables s1) (cts s1) P E).
  { apply (core_ext _ (cts s)); [exact C1|]. rewrite T1. apply (core_same _ _ _ _ t i f); [exact C|done|exact Hf| |].
    - intros k. unfold holds, in_use. rewrite G1, Hs. by rewrite !bool_decide_eq_false_2 by (by intros [|]).
    - pose proof (co_file _ _ _ _ C t i f Hi Hf) as Hok. unfold file_ok in *. rewrite G1, G2, G3, Hs in *. exact Hok. }
  assert (Hf1 : file_at (tables s1) t i = Some (g f)) by (rewrite T1; exact (at_with s t i f _ Hi Hf)).
  destruct (free_init_ok s1 P E Hc t i (g f) Hin Hf1) as (s2 & E2 & T2 & _ & C2). exists s2. split; [exact E2|]. split; [exact C2|].
  eapply frame_trans; by eapply frame_with.
Qed.

Lemma with_file_id m f0 : file_at m t i = Some f0 -> with_file m t i f0 = m.
Proof.
  unfold file_at, with_file. intros H. apply alter_id. intros x Hx. rewrite Hx in H. cbn in H. destruct x as [pw fm cn]. cbn in *. by rewrite list_insert_id.
Qed.

Lemma file_open_end_ok flags r st : room s (snd (or_parent r)) -> room s (snd (or_create r)) -> room s (snd (or_lookup r)) ->
  exists ret s', file_open_end t i flags r st s = Ok (ret, s') /\ core (tables s') (cts s') (rem1 (t, i, Opening) P) E /\ frame s s'.
Proof.
  intros Rp Rc Rl. pose proof opening_pos as Hi. destruct (vfs_open_ok s P E C flags r Rp Rc Rl) as (ret & n & s1 & E1 & T1 & H1).
  unfold file_open_end. rewrite (bind_step _ _ _ _ _ E1). assert (Hf1 : file_at (tables s1) t i = Some f) by (by rewrite T1). destruct (Z.eqb_spec ret 0) as [R0|Rn]; cbn [negb].
  2: { destruct (abandon s1 (fun f => f)) as (s2 & E2 & C2 & F2); [by rewrite with_file_id|done|done|done|done|]. rewrite (bind_step _ _ _ _ _ E2). by exists ret, s2. }
  destruct H1 as (Hroom & Tn & Ha). rewrite (bind_step _ _ _ _ _ (upd_file_spec s1 t i f (set_pos 0) Hf1)). set (s2 := set_tables _ s1). pose proof (cts_nonneg s P E C n) as Hn.
  assert (Ec : cts s2 n = (fst (cts s n) + 1, snd (cts s n) + 1)) by (change (cts s2) with (cts s1); rewrite (tc_cts _ _ _ _ _ Tn); by rewrite decide_True).
  assert (Hf2 : file_at (tables s2) t i = Some (set_pos 0 f)) by exact (at_with s1 t i f _ Hi Hf1). destruct (access flags) as [[rd wr]|]; [|done]. cbn [default from_option].
  assert (Hfin := fun p => install_pos s1 n p (fun f => set_modes rd wr (set_node (Some n) f)) Hroom Tn (fun _ => conj eq_refl (conj eq_refl eq_refl)) (fun _ => eq_refl)).
  destruct (has flags O_APPEND).
  2: { rewrite (bind_step _ _ s2 0 s2) by done. destruct (Hfin 0) as (s' & E' & C' & F'). exists i, s'. split; [exact E'|done]. }
  unfold room in Hroom. rewrite bind_assoc_M. rewrite (bind_step _ _ s2 tt s2) by (eapply vop_check_spec; [exact Ec|eapply cts_some; [exact Ec|lia]|lia|lia]).
  destruct (Z.eqb_spec (fst st) 0) as [S0|Sn]; cbn [negb].
  - rewrite (bind_step _ _ s2 0 (set_tables (with_file (tables s1) t i (set_pos (s32 (snd st)) f)) s1)).
    + destruct (Hfin (s32 (snd st))) as (s' & E' & C' & F'). exists i, s'. split; [exact E'|done].
    + rewrite (bind_step _ _ _ _ _ (upd_file_spec s2 t i _ _ Hf2)). unfold s2. cbn [tables set_tables]. by rewrite with_file_twice.
  - destruct (vfs_close_ok s2 n _ _ Ec) as (s3 & E3 & T3); [lia|lia|].
    destruct (abandon s3 (set_pos 0)) as (s4 & E4 & C4 & F4); [rewrite (tc_tables _ _ _ _ _ T3); unfold s2; cbn; by rewrite T1| |done|done|done|].
    + intros k. rewrite (tc_cts _ _ _ _ _ T3), Ec. cbn. change (cts s2) with (cts s1). case_decide as Ek; [subst k; rewrite (surjective_pairing (cts s n)) at 3; f_equal; lia|].
      rewrite (tc_cts _ _ _ _ _ Tn). by rewrite decide_False.
    + rewrite (bind_step _ _ s2 (fst st) s4) by (rewrite (bind_step _ _ _ _ _ E3), (bind_step _ _ _ _ _ E4); done). destruct (Z.eqb_spec (fst st) 0); [done|]. by exists (fst st), s4.
Qed.

Lemma file_mkfifo_end_ok flags r : room s (snd (or_parent r)) -> room s (snd (or_create r)) -> room s (snd (or_lookup r)) ->
  exists ret s', file_mkfifo_end t i flags r s = Ok (ret, s') /\ core (tables s') (cts s') (rem1 (t, i, Opening) P) E /\ frame s s'.
Proof.
  intros Rp Rc Rl. pose proof opening_pos as Hi. destruct (vfs_open_ok s P E C flags r Rp Rc Rl) as (ret & n & s1 & E1 & T1 & H1).
  unfold file_mkfifo_end. cbv zeta. rewrite (bind_step _ _ _ _ _ E1). assert (Hf1 : file_at (tables s1) t i = Some f) by (by rewrite T1). destruct (Z.eqb_spec ret 0) as [R0|Rn]; cbn [negb].
  2: { destruct (abandon s1 (fun f => f)) as (s2 & E2 & C2 & F2); [by rewrite with_file_id|done|done|done|done|]. rewrite (bind_step _ _ _ _ _ E2). by exists ret, s2. }
  destruct H1 as (Hroom & Tn & Ha). set (ro := Z.land flags O_ACCMODE =? O_RDONLY).
  destruct (install_ok s P E C s1 t i f (fun f => set_modes ro (negb ro) (set_pos 0 (set_node (Some n) f))) n Hin Hf Hroom Tn (fun _ => conj eq_refl (conj eq_refl eq_refl)) eq_refl) as (s' & E' & T' & C').
  exists i, s'. split; [exact E'|]. split; [exact C'|by eapply frame_with].
Qed.
End open_end.
