(* ===== verification/FilesUse.v ===== *)
(** * FilesUse: uses, duplicates and tables *)

From stdpp Require Import numbers gmap list.
From S2P Require Import Prelude Files FilesInv FilesOps.
Local Open Scope Z_scope.

(** ** Uses of an open file *)

Section use.
Context (s : vstate) (P : pends) (E : Z -> Z) (C : core (tables s) (cts s) P E) (t : Z) (L : live s t).

Lemma fd2file_ok d : exists ret oi, fd2file t d s = Ok ((ret, oi), s) /\
  match oi with None => ret <> 0 | Some i => ret = 0 /\ i = d /\ 0 <= d /\ exists f, file_at (tables s) t d = Some f /\ status f = FD_OPENED end.
Proof.
  destruct L as (x & Hx & Hc). unfold fd2file. destruct (testfd d) eqn:Ed; [|by exists (- EINVAL), None]. unfold testfd in Ed. apply andb_true_iff in Ed as [H0%Z.leb_le H1%Z.ltb_lt].
  rewrite (bind_step _ _ _ _ _ (get_filemap_ok s t x Hx Hc)). destruct (file_at_some _ _ _ _ t x d C Hx ltac:(lia)) as (f & Hf & _). rewrite (bind_step _ _ _ _ _ (get_file_spec s t d f Hf)).
  case_bool_decide as Hs; cbn [andb]; [|by exists (- EINVAL), None]. destruct (fd f =? d); [|by exists (- EINVAL), None]. exists 0, (Some d). split; [done|]. split_and!; [done|done|done|by exists f].
Qed.

Lemma opened_node d f : 0 <= d -> file_at (tables s) t d = Some f -> status f = FD_OPENED -> exists n r o, fnode f = Some n /\ cts s n = (r, o) /\ 0 < o <= r /\ r < MAX_COUNT.
Proof.
  intros Hd Hf Hs. destruct (co_file _ _ _ _ C t d f Hd Hf) as [_ Hk]. rewrite Hs in Hk. destruct Hk as (_ & _ & [n Hn]).
  assert (Hu : in_use f = true) by (apply bool_decide_eq_true_2; by left). destruct (used_counts s P E C t d f n Hd Hf Hu Hn) as (r & o & Ec & Ho & Hr). pose proof (co_extra _ _ _ _ C n).
  exists n, r, o. split_and!; (done || lia).
Qed.

Definition begun (ret : Z) (o : option Z) (d : Z) (s' : vstate) : Prop :=
  match o with Some i => i = d /\ core (tables s') (cts s') ((t, i, Using) :: P) E /\ frame s s' | None => ret <> 0 /\ s' = s end.

Lemma use_begin_ok d ok : Z.of_nat (length P) < 2 ^ 30 -> exists ret oi s', use_begin t d ok s = Ok ((ret, oi), s') /\ begun ret ((fun x => x.1.1) <$> oi) d s'.
Proof.
  intros Hl. unfold use_begin. destruct (fd2file_ok d) as (ret & oi & E1 & H1). rewrite (bind_step _ _ _ _ _ E1). destruct oi as [i|]; [|by exists ret, None, s].
  destruct H1 as (-> & -> & Hd & f & Hf & Hs). rewrite (bind_step _ _ _ _ _ (get_file_spec s t d f Hf)). destruct (negb (ok f)); [by exists (- EINVAL), None, s|].
  destruct (acquire_ok s P E C t d f Hd Hf Hs Hl) as [E2 C2]. rewrite (bind_step _ _ _ _ _ E2). set (s' := set_tables _ s) in *. destruct (opened_node d f Hd Hf Hs) as (n & r & o & Hn & Ec & Ho & Hr).
  unfold node_of. rewrite Hn. rewrite (bind_step _ _ s' n s') by done. rewrite (bind_step _ _ s' tt s') by (eapply vop_check_spec; [exact Ec|eapply cts_some; [exact Ec|lia]|lia|lia]).
  exists 0, (Some (d, n, pos f)), s'. split; [done|]. cbn. split; [done|]. split; [exact C2|by eapply frame_with].
Qed.

Lemma file_seek_begin_ok d p whence st : Z.of_nat (length P) < 2 ^ 30 -> exists ret oi s', file_seek_begin t d p whence st s = Ok ((ret, oi), s') /\ begun ret (fst <$> oi) d s'.
Proof.
  intros Hl. unfold file_seek_begin. destruct (fd2file_ok d) as (ret & oi & E1 & H1). rewrite (bind_step _ _ _ _ _ E1). destruct oi as [i|]; [|by exists ret, None, s].
  destruct H1 as (-> & -> & Hd & f & Hf & Hs). destruct (acquire_ok s P E C t d f Hd Hf Hs Hl) as [E2 C2]. rewrite (bind_step _ _ _ _ _ E2). set (f' := set_count _ f) in *. set (s' := set_tables _ s) in *.
  assert (Hf' : file_at (tables s') t d = Some f') by exact (at_with s t d f f' Hd Hf). rewrite (bind_step _ _ _ _ _ (get_file_spec s' t d f' Hf')).
  destruct (opened_node d f Hd Hf Hs) as (n & r & o & Hn & Ec & Ho & Hr). unfold node_of. change (fnode f') with (fnode f). rewrite Hn. rewrite (bind_step _ _ s' n s') by done.
  assert (Hv : vop_check n s' = Ok (tt, s')) by (eapply vop_check_spec; [exact Ec|eapply cts_some; [exact Ec|lia]|lia|lia]).
  assert (Hsw : exists r2 p2, (if whence =? LSEEK_SET then mret (0, p) else if whence =? LSEEK_CUR then mret (0, s32 (p + pos f')) else if whence =? LSEEK_END then
      _ ← vop_check n; mret (if fst st =? 0 then (0, s32 (p + snd st)) else (fst st, p)) else mret (- EINVAL, p)) s' = Ok ((r2, p2), s')).
  { destruct (whence =? LSEEK_SET); [by eexists _, _|]. destruct (whence =? LSEEK_CUR); [by eexists _, _|]. destruct (whence =? LSEEK_END); [|by eexists _, _].
    rewrite (bind_step _ _ _ _ _ Hv). destruct (fst st =? 0); by eexists _, _. }
  destruct Hsw as (r2 & p2 & Hsw). rewrite (bind_step _ _ _ _ _ Hsw). rewrite (bind_step _ _ s' tt s') by (by destruct (r2 =? 0)).
  exists r2, (Some (d, p2)), s'. split; [done|]. cbn. split; [done|]. split; [exact C2|by eapply frame_with].
Qed.

Lemma file_close_ok d : exists ret s', file_close t d s = Ok (ret, s') /\ core (tables s') (cts s') P E /\ frame s s'.
Proof.
  unfold file_close. destruct (fd2file_ok d) as (ret & oi & E1 & H1). rewrite (bind_step _ _ _ _ _ E1). destruct oi as [i|]; [|by exists ret, s].
  destruct H1 as (-> & -> & Hd & f & Hf & Hs). destruct (close_ok s P E C t d f Hd Hf Hs) as (s' & f' & E2 & T2 & C2 & _). rewrite (bind_step _ _ _ _ _ E2).
  exists 0, s'. split; [done|]. split; [exact C2|by eapply frame_with].
Qed.
End use.

Section use_end.
Context (s : vstate) (P : pends) (E : Z -> Z) (C : core (tables s) (cts s) P E) (t i : Z) (Hin : (t, i, Using) ∈ P).

Definition ended (o : outcome (unit * vstate)) : Prop := exists s', o = Ok (tt, s') /\ core (tables s') (cts s') (rem1 (t, i, Using) P) E /\ frame s s'.

Lemma use_end_ok : ended (filemap_release t i s).
Proof.
  destruct (co_pend _ _ _ _ C t i Using Hin) as [Hi [f Hf]]. destruct (release_ok s P E C t i f Hin Hf) as (s' & f' & E' & T' & C' & _). exists s'. split; [exact E'|]. split; [exact C'|by eapply frame_with].
Qed.

(** The position may have been set before. *)
Lemma pos_end_ok g : (forall f, g f = f \/ exists p, g f = set_pos p f) -> ended ((_ ← upd_file t i g; filemap_release t i) s).
Proof.
  intros Hg. destruct (co_pend _ _ _ _ C t i Using Hin) as [Hi [f Hf]]. rewrite (bind_step _ _ _ _ _ (upd_file_spec s t i f g Hf)). set (s1 := set_tables _ s).
  assert (C1 : core (tables s1) (cts s1) P E). { destruct (Hg f) as [Eg|[p Eg]]; unfold s1; cbn; rewrite Eg; [rewrite with_file_id by done; exact C|exact (core_pos s E P t i f p C Hi Hf)]. }
  assert (Hf1 : file_at (tables s1) t i = Some (g f)) by exact (at_with s t i f _ Hi Hf). destruct (release_ok s1 P E C1 t i (g f) Hin Hf1) as (s' & f' & E' & T' & C' & _).
  exists s'. split; [exact E'|]. split; [exact C'|]. eapply frame_trans; [by eapply (frame_with s s1)|by eapply frame_with].
Qed.

Lemma transfer_end_ok copied : ended (transfer_end t i copied s).
Proof. apply pos_end_ok. intros f. case_decide; [right; by eexists|by left]. Qed.

Lemma file_seek_end_ok p ret seek : exists r s', file_seek_end t i p ret seek s = Ok (r, s') /\ core (tables s') (cts s') (rem1 (t, i, Using) P) E /\ frame s s'.
Proof.
  unfold file_seek_end. cbv zeta. set (r := if ret =? 0 then seek else ret). destruct (r =? 0).
  - destruct (pos_end_ok (set_pos p)) as (s' & E' & H'); [intros f; right; by eexists|]. exists r, s'. split; [|exact H'].
    apply bind_Ok in E' as (u & s1 & E1 & E2). rewrite (bind_step _ _ _ _ _ E1). by rewrite (bind_step _ _ _ _ _ E2).
  - destruct use_end_ok as (s' & E' & H'). exists r, s'. split; [|exact H']. rewrite (bind_step _ _ s tt s) by done. by rewrite (bind_step _ _ _ _ _ E').
Qed.
End use_end.

(** ** Duplicates *)

Section dup.
Context (s : vstate) (P : pends) (E : Z -> Z) (C : core (tables s) (cts s) P E).

Lemma filemap_dup_ok t i t' i' f g n : (t, i, Opening) ∈ P -> file_at (tables s) t i = Some f -> 0 <= i' -> file_at (tables s) t' i' = Some g -> status g = FD_OPENED -> fnode g = Some n ->
  fst (cts s n) + 1 < MAX_COUNT ->
  let f' := set_count 1 (set_status FD_OPENED (copy_file f g)) in
  exists s', filemap_dup t i t' i' s = Ok (tt, s') /\ tables s' = with_file (tables s) t i f' /\ fd f' = i /\ core (tables s') (cts s') (rem1 (t, i, Opening) P) E /\
    forall k, cts s' k = if decide (k = n) then (fst (cts s n) + 1, snd (cts s n) + 1) else cts s k.
Proof.
  intros Hin Hf Hi' Hg Hsg Hn Hr f'. destruct (opening_init s P E C t i f Hin Hf) as (Hi & Hs & Hc & Hd). unfold filemap_dup.
  rewrite (bind_step _ _ _ _ _ (get_file_spec s t i f Hf)), (bind_step _ _ _ _ _ (get_file_spec s t' i' g Hg)). rewrite bind_kassert by (by rewrite !bool_decide_eq_true_2).
  unfold node_of. rewrite Hn. rewrite (bind_step _ _ s n s) by done. assert (Hu : in_use g = true) by (apply bool_decide_eq_true_2; by left).
  destruct (used_counts s P E C t' i' g n Hi' Hg Hu Hn) as (r & o & Ec & Ho & Hro). pose proof (co_extra _ _ _ _ C n) as HE.
  destruct (ref_inc_ok s n r o Ec ltac:(lia) ltac:(lia)) as (s1 & E1 & T1). rewrite (bind_step _ _ _ _ _ E1).
  assert (Ec1 : cts s1 n = (r + 1, o)) by (rewrite (tc_cts _ _ _ _ _ T1), decide_True by done; rewrite Ec; cbn; f_equal; lia).
  destruct (open_inc_ok s1 n _ _ Ec1 ltac:(lia) ltac:(lia)) as (s2 & E2 & T2). rewrite (bind_step _ _ _ _ _ E2). destruct (touched_trans _ _ _ _ _ _ _ _ T1 T2) as [T12 C12]. cbn in C12.
  assert (Hf2 : file_at (tables s2) t i = Some f) by (by rewrite T12). rewrite (bind_step _ _ _ _ _ (put_file_spec s2 t i f _ Hf2)). set (s3 := set_tables _ s2).
  assert (Hf3 : file_at (tables s3) t i = Some (copy_file f g)) by exact (at_with s2 t i f _ Hi Hf2). rewrite (filemap_open_ok s3 t i (copy_file f g) n Hf3 Hs Hc Hn).
  eexists. split; [reflexivity|]. fold f'.
  assert (T' : tables (set_tables (with_file (tables s3) t i f') s3) = with_file (tables s) t i f')
    by (unfold s3; cbn; by rewrite with_file_twice, T12). split; [exact T'|]. split; [exact Hd|]. split; [|exact C12]. rewrite T'. apply (opened_core s P E C t i f _ n); try done.
Qed.

End dup.

Lemma rem1_head e P0 : rem1 e (e :: P0) = P0.
Proof. cbn. by rewrite decide_True. Qed.

Lemma rem1_ne e x P : x <> e -> x ∈ P -> x ∈ rem1 e P.
Proof. induction P as [|y P IH]; [done|]. cbn. intros Hne. case_decide as Ed; rewrite !elem_of_cons; [intros [->|]; [done|done]|intros [->|]; [by left|right; by apply IH]]. Qed.

Section new_files.
Context (s : vstate) (P : pends) (E : Z -> Z) (C : core (tables s) (cts s) P E).

(** Allocation, with the entry counted as being opened. *)
Lemma alloc_core_ok t d : live s t -> exists ret oi s', filemap_alloc t d s = Ok ((ret, oi), s') /\ frame s s' /\ cts s' = cts s /\
  match oi with
  | None => ret <> 0 /\ s' = s
  | Some i => ret = 0 /\ 0 <= i /\ core (tables s') (cts s') ((t, i, Opening) :: P) E /\
      (exists f, file_at (tables s) t i = Some f /\ status f = FD_NONE) /\ forall t2 i2, 0 <= i2 -> (t2, i2) <> (t, i) -> file_at (tables s') t2 i2 = file_at (tables s) t2 i2
  end.
Proof.
  intros L. destruct (filemap_alloc_ok s P E C t d L) as (ret & oi & s1 & E1 & H1). exists ret, oi, s1. split; [exact E1|]. destruct oi as [i|]; [|destruct H1 as [? ->]; done].
  destruct H1 as (-> & Hi & f & Hf & Hs & ->). split; [by eapply frame_with|]. split; [done|]. split; [done|]. split; [done|]. split; [exact (init_core s P E C t i f (fresh f) Hi Hf Hs eq_refl eq_refl eq_refl)|].
  split; [by exists f|]. intros t2 i2 Hi2 Hne. cbn. rewrite (file_at_with (tables s) t i f) by done. rewrite decide_False; [done|]. intros [-> ->]. done.
Qed.

Lemma file_dup_ok t d1 d2 : live s t -> (forall n, fst (cts s n) + 1 < MAX_COUNT) -> exists ret s', file_dup t d1 d2 s = Ok (ret, s') /\ core (tables s') (cts s') P E /\ frame s s'.
Proof.
  intros L Hr. unfold file_dup. destruct (fd2file_ok s P E C t L d1) as (ret & oi & E1 & H1). rewrite (bind_step _ _ _ _ _ E1). destruct oi as [i|]; [|by exists ret, s].
  destruct H1 as (-> & -> & Hd & g & Hg & Hsg). destruct (alloc_core_ok t d2 L) as (r2 & oi2 & s1 & E2 & F1 & Ecs & H2). rewrite (bind_step _ _ _ _ _ E2).
  destruct oi2 as [i2|]; [|destruct H2 as [_ ->]; by exists r2, s]. destruct H2 as (-> & Hi2 & C1 & (f & Hf & Hs) & Hoth).
  assert (Hne : d1 <> i2) by (intros ->; rewrite Hf in Hg; injection Hg as ->; congruence).
  assert (Hg1 : file_at (tables s1) t d1 = Some g) by (rewrite Hoth by (done || (intros [= ]; done)); exact Hg).
  destruct (opened_node s P E C t d1 g Hd Hg Hsg) as (n & _ & _ & Hn & _).
  destruct (co_pend _ _ _ _ C1 t i2 Opening ltac:(by left)) as [_ [f1 Hf1]].
  destruct (filemap_dup_ok s1 ((t, i2, Opening) :: P) E C1 t i2 t d1 f1 g n ltac:(by left) Hf1 Hd Hg1 Hsg Hn ltac:(rewrite Ecs; apply Hr)) as (s2 & E3 & T3 & Hfd & C3 & _).
  set (f' := set_count 1 _) in *. rewrite (bind_step _ _ _ _ _ E3). assert (Hf2 : file_at (tables s2) t i2 = Some f') by (rewrite T3; exact (at_with s1 t i2 f1 _ Hi2 Hf1)).
  rewrite (bind_step _ _ _ _ _ (get_file_spec s2 t i2 f' Hf2)). exists (fd f'), s2. split; [done|]. rewrite rem1_head in C3. split; [exact C3|].
  eapply frame_trans; [exact F1|by eapply frame_with].
Qed.
End new_files.

(** ** Pipes and named pipes *)

Lemma live_frame s s' t : frame s s' -> live s t -> live s' t.
Proof.
  intros F (x & Hx & Hc). specialize (F t). rewrite Hx in F. cbn in F. destruct (tables s' !! t) as [y|] eqn:Ey; [|done]. cbn in F. injection F as _ Fc. exists y. split; [done|lia].
Qed.

Lemma with_file_comm m t i i' f f' : 0 <= i -> 0 <= i' -> i <> i' -> with_file (with_file m t i f) t i' f' = with_file (with_file m t i' f') t i f.
Proof. intros Hi Hi' Hne. unfold with_file. rewrite !alter_alter_eq. apply alter_ext. intros x _. cbn. rewrite list_insert_insert_ne; [done|lia]. Qed.

Section pipe.
Context (s : vstate) (P : pends) (E : Z -> Z) (C : core (tables s) (cts s) P E).

Lemma file_pipe_begin_ok t : live s t -> exists ret oi s', file_pipe_begin t s = Ok ((ret, oi), s') /\ frame s s' /\
  match oi with None => core (tables s') (cts s') P E | Some (i0, i1) => i0 <> i1 /\ core (tables s') (cts s') ((t, i1, Opening) :: (t, i0, Opening) :: P) E end.
Proof.
  intros L. unfold file_pipe_begin. destruct (alloc_core_ok s P E C t NO_FD L) as (r0 & o0 & s1 & E1 & F1 & Ec1 & H1). rewrite (bind_step _ _ _ _ _ E1).
  destruct o0 as [i0|]; [|destruct H1 as [_ ->]; by exists r0, None, s]. destruct H1 as (-> & Hi0 & C1 & _ & _).
  destruct (alloc_core_ok s1 _ E C1 t NO_FD (live_frame _ _ _ F1 L)) as (r1 & o1 & s2 & E2 & F2 & Ec2 & H2). rewrite (bind_step _ _ _ _ _ E2). destruct o1 as [i1|].
  - destruct H2 as (-> & Hi1 & C2 & (f & Hf & Hs) & _). exists 0, (Some (i0, i1)), s2. split; [done|]. split; [by eapply frame_trans|]. split; [|exact C2].
    intros <-. destruct (opening_init s1 _ E C1 t i0 f ltac:(by left) Hf) as (_ & Hs' & _). congruence.
  - destruct H2 as [_ ->]. destruct (co_pend _ _ _ _ C1 t i0 Opening ltac:(by left)) as [_ [f Hf]].
    destruct (free_init_ok s1 _ E C1 t i0 f ltac:(by left) Hf) as (s3 & E3 & T3 & _ & C3). rewrite (bind_step _ _ _ _ _ E3). rewrite rem1_head in C3.
    exists r1, None, s3. split; [done|]. split; [eapply frame_trans; [exact F1|by eapply frame_with]|exact C3].
Qed.

Lemma file_mkfifo_begin_ok t flags name : live s t -> exists ret oi s', file_mkfifo_begin t flags name s = Ok ((ret, oi), s') /\ frame s s' /\
  match oi with None => core (tables s') (cts s') P E | Some i => core (tables s') (cts s') ((t, i, Opening) :: P) E end.
Proof.
  intros L. unfold file_mkfifo_begin. cbv zeta. destruct (_ || _); [|by exists (- EINVAL), None, s].
  destruct (alloc_core_ok s P E C t NO_FD L) as (r0 & o0 & s1 & E1 & F1 & Ec1 & H1). rewrite (bind_step _ _ _ _ _ E1). destruct o0 as [i0|]; [|destruct H1 as [_ ->]; by exists r0, None, s].
  destruct H1 as (-> & Hi0 & C1 & _ & _). destruct name; [by exists 0, (Some i0), s1|]. destruct (co_pend _ _ _ _ C1 t i0 Opening ltac:(by left)) as [_ [f Hf]].
  destruct (free_init_ok s1 _ E C1 t i0 f ltac:(by left) Hf) as (s3 & E3 & T3 & _ & C3). rewrite (bind_step _ _ _ _ _ E3). rewrite rem1_head in C3.
  exists (- ENOMEM), None, s3. split; [done|]. split; [eapply frame_trans; [exact F1|by eapply frame_with]|exact C3].
Qed.

Section ends.
Context (t i0 i1 : Z) (Hne : i0 <> i1) (H0 : (t, i0, Opening) ∈ P) (H1 : (t, i1, Opening) ∈ P).

Lemma pipe_fails ret n0 n1 : ret <> 0 -> exists r s', file_pipe_end t i0 i1 ret n0 n1 s = Ok (r, s') /\ core (tables s') (cts s') (rem1 (t, i1, Opening) (rem1 (t, i0, Opening) P)) E /\ frame s s'.
Proof.
  intros Hr. destruct (co_pend _ _ _ _ C t i0 Opening H0) as [_ [f0 Hf0]]. unfold file_pipe_end. destruct (Z.eqb_spec ret 0); [done|]. cbn [negb].
  destruct (free_init_ok s P E C t i0 f0 H0 Hf0) as (s1 & E1 & T1 & _ & C1). rewrite (bind_step _ _ _ _ _ E1).
  assert (Hin : (t, i1, Opening) ∈ rem1 (t, i0, Opening) P) by (apply rem1_ne; [congruence|done]). destruct (co_pend _ _ _ _ C1 t i1 Opening Hin) as [_ [f1 Hf1]].
  destruct (free_init_ok s1 _ E C1 t i1 f1 Hin Hf1) as (s2 & E2 & T2 & _ & C2). rewrite (bind_step _ _ _ _ _ E2). exists ret, s2. split; [done|]. split; [exact C2|].
  eapply frame_trans; by eapply frame_with.
Qed.

(** The inode [n] is not in use. *)
Definition unused (n : Z) : Prop := cts s n = (0, 0).

Lemma pipe_opens n0 n1 : n0 <> n1 -> unused n0 -> unused n1 -> exists s', file_pipe_end t i0 i1 0 n0 n1 s = Ok (0, s') /\ core (tables s') (cts s') (rem1 (t, i1, Opening) (rem1 (t, i0, Opening) P)) E /\ frame s s'.
Proof.
  intros Hn Hu0 Hu1. destruct (co_pend _ _ _ _ C t i0 Opening H0) as [Hi0 [f0 Hf0]]. destruct (co_pend _ _ _ _ C t i1 Opening H1) as [Hi1 [f1 Hf1]].
  destruct (opening_init s P E C t i0 f0 H0 Hf0) as (_ & Hs0 & Hc0 & Hd0). destruct (opening_init s P E C t i1 f1 H1 Hf1) as (_ & Hs1 & Hc1 & Hd1).
  unfold file_pipe_end. change (negb (0 =? 0)) with false. cbv iota. unfold put_counts. rewrite !bind_modify.
  set (sa := set_inodes (<[n0 := (1, 1)]> (inodes s)) s). set (sb := set_inodes (<[n1 := (1, 1)]> (inodes sa)) sa).
  set (g0 := set_modes true false (set_pos 0 (set_node (Some n0) f0))). set (h0 := set_count 1 (set_status FD_OPENED g0)).
  set (g1 := set_node (Some n1) f1). set (k1 := set_modes false true (set_pos 0 g1)). set (h1 := set_count 1 (set_status FD_OPENED k1)).
  rewrite (bind_step _ _ _ _ _ (upd_file_spec sb t i0 f0 _ Hf0)). fold g0. set (s1 := set_tables _ sb).
  assert (A1 : file_at (tables s1) t i1 = Some f1) by (unfold s1; cbn; rewrite (file_at_with _ t i0 f0) by done; by rewrite decide_False by (intros [_ ?]; congruence)).
  rewrite (bind_step _ _ _ _ _ (upd_file_spec s1 t i1 f1 _ A1)). fold g1. set (s2 := set_tables _ s1).
  assert (A2 : file_at (tables s2) t i0 = Some g0) by (unfold s2; cbn [tables set_tables]; rewrite (file_at_with _ t i1 f1) by done; rewrite decide_False by (intros [_ ?]; congruence); exact (at_with sb t i0 f0 g0 Hi0 Hf0)).
  rewrite (bind_step _ _ _ _ _ (filemap_open_ok s2 t i0 g0 n0 A2 Hs0 Hc0 eq_refl)). fold h0. set (s3 := set_tables _ s2).
  assert (A3 : file_at (tables s3) t i1 = Some g1) by (unfold s3; cbn [tables set_tables]; rewrite (file_at_with _ t i0 g0) by done; rewrite decide_False by (intros [_ ?]; congruence); exact (at_with s1 t i1 f1 g1 Hi1 A1)).
  rewrite (bind_step _ _ _ _ _ (upd_file_spec s3 t i1 g1 _ A3)). fold k1. set (s4 := set_tables _ s3).
  assert (A4 : file_at (tables s4) t i1 = Some k1) by exact (at_with s3 t i1 g1 k1 Hi1 A3). rewrite (bind_step _ _ _ _ _ (filemap_open_ok s4 t i1 k1 n1 A4 Hs1 Hc1 eq_refl)). fold h1. set (s5 := set_tables _ s4).
  exists s5. split; [done|]. set (sI := set_tables (with_file (tables s) t i0 h0) sa).
  assert (T5 : tables s5 = with_file (tables sI) t i1 h1).
  { unfold s5, s4, s3, s2, s1, sI. cbn [tables set_tables]. rewrite !with_file_twice. rewrite (with_file_comm _ t i1 i0) by done. by rewrite !with_file_twice. }
  assert (CI : core (tables sI) (cts sI) (rem1 (t, i0, Opening) P) E).
  { apply (opened_core s P E C t i0 f0 h0 n0); try done; [rewrite Hu0; done|]. intros k. change (cts sI k) with (cts sa k). unfold sa. rewrite cts_put, Hu0. done. }
  assert (Hin : (t, i1, Opening) ∈ rem1 (t, i0, Opening) P) by (apply rem1_ne; [congruence|done]).
  assert (AI : file_at (tables sI) t i1 = Some f1) by (unfold sI; cbn; rewrite (file_at_with _ t i0 f0) by done; by rewrite decide_False by (intros [_ ?]; congruence)).
  assert (Hu : cts sI n1 = (0, 0)) by (change (cts sI n1) with (cts sa n1); unfold sa; rewrite cts_put, decide_False by done; exact Hu1). split.
  - rewrite T5. apply (opened_core sI _ E CI t i1 f1 h1 n1); try done; [rewrite Hu; done|]. intros k. change (cts s5 k) with (cts sb k). unfold sb. rewrite cts_put, Hu. done.
  - eapply frame_trans; [by eapply (frame_with s sI)|by eapply frame_with].
Qed.
End ends.
End pipe.
