(* ===== verification/FilesTab.v ===== *)
(** * FilesTab: creation, copy and destruction of tables of descriptors *)

From stdpp Require Import numbers gmap list.
From S2P Require Import Prelude Files FilesInv FilesOps FilesUse.
Local Open Scope Z_scope.

(** ** The empty table *)

Lemma filemap_init_lookup l j (k : nat) f : filemap_init j l !! k = Some f -> status f = FD_NONE /\ fopen_count f = 0 /\ fd f = j + Z.of_nat k.
Proof.
  revert j k. induction l as [|g l IH]; intros j [|k] H; [done|done|injection H as <-; cbn; split_and!; [done|done|lia]|]. destruct (IH (j + 1) k H) as (? & ? & ?). split_and!; [done|done|lia].
Qed.

Lemma filemap_init_length l j : length (filemap_init j l) = length l.
Proof. revert j. induction l as [|g l IH]; intros j; cbn; [done|]. by rewrite IH. Qed.

Lemma cnt_none l n : (forall f, f ∈ l -> status f = FD_NONE) -> cnt l n = 0.
Proof.
  induction l as [|f l IH]; intros H; cbn; [done|]. rewrite IH by (intros g Hg; apply H; by right). unfold holds, in_use. rewrite (H f) by (by left).
  by rewrite bool_decide_eq_false_2 by (by intros [|]).
Qed.

Lemma file_at_insert m t x t2 i : file_at (<[t := x]> m) t2 i = if decide (t2 = t) then filemap x !! Z.to_nat i else file_at m t2 i.
Proof. unfold file_at. rewrite lookup_insert. case_decide as E; [subst; by rewrite decide_True|by rewrite decide_False by congruence]. Qed.

Section tables.
Context (m : gmap Z fs_struct) (c : Z -> Z * Z) (P : pends) (E : Z -> Z) (C : core m c P E).

Lemma no_pend t i u : m !! t = None -> npend P t i u = 0.
Proof.
  intros H. pose proof (npend_nonneg P t i u). destruct (decide (npend P t i u = 0)) as [|Hne]; [done|]. assert (Hin : (t, i, u) ∈ P) by (apply npend_in; lia).
  destruct (co_pend _ _ _ _ C t i u Hin) as [_ [f Hf]]. unfold file_at in Hf. by rewrite H in Hf.
Qed.

Lemma create_core t l : m !! t = None -> Z.of_nat (length l) = FS_STRUCT_NENTRY -> core (<[t := fs_create l]> m) c P E.
Proof.
  intros Hm Hl. pose proof C as [Cl Cf Cp Co Cr Ce].
  assert (Hfds : forall n, fds (<[t := fs_create l]> m) n = fds m n).
  { intros n. unfold fds. rewrite total_new by done. cbn [filemap fs_create]. rewrite cnt_none; [lia|]. intros f [k Hk]%list_elem_of_lookup. by apply filemap_init_lookup in Hk as (? & _). }
  split.
  - intros t2 x. rewrite lookup_insert. case_decide; [|by apply Cl]. intros [= <-]. cbn [filemap fs_create]. by rewrite filemap_init_length.
  - intros t2 i f Hi. rewrite file_at_insert. case_decide as Et; [|by apply Cf]. subst t2. intros (Hs & Hc & Hd)%filemap_init_lookup. split; [lia|]. rewrite Hs. by rewrite !no_pend.
  - intros t2 i u Hin. destruct (Cp t2 i u Hin) as [Hi [f Hf]]. split; [done|]. rewrite file_at_insert. case_decide as Et; [|by exists f]. subst t2. unfold file_at in Hf. by rewrite Hm in Hf.
  - intros n. by rewrite Hfds.
  - intros n. rewrite Hfds. apply Cr.
  - done.
Qed.

(** The directory and the count of a table do not matter to the descriptors. *)
Lemma core_header t x p k : m !! t = Some x -> core (<[t := FsStruct p (filemap x) k]> m) c P E.
Proof.
  intros Hx. pose proof C as [Cl Cf Cp Co Cr Ce]. assert (Hfds : forall n, fds (<[t := FsStruct p (filemap x) k]> m) n = fds m n) by (intros n; unfold fds; rewrite (total_insert _ m t x) by done; cbn; lia).
  assert (Hat : forall t2 i, file_at (<[t := FsStruct p (filemap x) k]> m) t2 i = file_at m t2 i). { intros t2 i. rewrite file_at_insert. case_decide as Et; [|done]. subst t2. unfold file_at. by rewrite Hx. }
  split.
  - intros t2 y. rewrite lookup_insert. case_decide; [|by apply Cl]. intros [= <-]. exact (Cl t x Hx).
  - intros t2 i f Hi. rewrite Hat. by apply Cf.
  - intros t2 i u Hin. rewrite Hat. by apply (Cp t2 i u).
  - intros n. by rewrite Hfds.
  - intros n. rewrite Hfds. apply Cr.
  - done.
Qed.

(** A reference more, or one less, that is not of a descriptor. *)
Lemma core_extra c' E' : (forall n, snd (c' n) = snd (c n)) -> (forall n, fst (c' n) - E' n = fst (c n) - E n) -> (forall n, 0 <= E' n) -> (forall n, fst (c' n) < MAX_COUNT) -> core m c' P E'.
Proof.
  intros H1 H2 H3 H4. pose proof C as [Cl Cf Cp Co Cr Ce]. split; try done.
  - intros n. by rewrite H1.
  - intros n. specialize (Cr n). specialize (H2 n). specialize (H4 n). lia.
Qed.

Lemma delete_core t x : m !! t = Some x -> (forall f, f ∈ filemap x -> status f = FD_NONE) -> core (delete t m) c P E.
Proof.
  intros Hx Hn. pose proof C as [Cl Cf Cp Co Cr Ce].
  assert (Hfds : forall n, fds (delete t m) n = fds m n) by (intros n; unfold fds; rewrite (total_delete _ m t x) by done; rewrite cnt_none by done; lia).
  assert (Hat : forall t2 i, t2 <> t -> file_at (delete t m) t2 i = file_at m t2 i) by (intros t2 i Hne; unfold file_at; by rewrite lookup_delete_ne).
  assert (Hnt : forall i, file_at (delete t m) t i = None) by (intros i; unfold file_at; by rewrite lookup_delete_eq).
  split.
  - intros t2 y. rewrite lookup_delete. case_decide; [done|apply Cl].
  - intros t2 i f Hi. destruct (decide (t2 = t)) as [->|Ht]; [by rewrite Hnt|]. rewrite Hat by done. by apply Cf.
  - intros t2 i u Hin. destruct (Cp t2 i u Hin) as [Hi [f Hf]]. split; [done|]. destruct (decide (t2 = t)) as [->|Ht]; [|rewrite Hat by done; by exists f].
    unfold file_at in Hf. rewrite Hx in Hf. cbn in Hf. assert (Hs : status f = FD_NONE) by (apply Hn, list_elem_of_lookup; by eexists).
    assert (Hfa : file_at m t i = Some f) by (unfold file_at; by rewrite Hx). destruct (Cf t i f Hi Hfa) as [_ Hk]. rewrite Hs in Hk. apply npend_in in Hin. destruct Hk as (_ & ? & ?), u; lia.
  - intros n. by rewrite Hfds.
  - intros n. rewrite Hfds. apply Cr.
  - done.
Qed.
End tables.

(** ** Copying a table *)

(** The copy of a descriptor of the parent: the same file, used by nobody yet. *)
Definition copied (i : Z) (f g : file) : Prop :=
  match status g with
  | FD_OPENED => status f = FD_OPENED /\ fd f = i /\ fopen_count f = 1 /\ fnode f = fnode g /\ pos f = pos g /\ readable f = readable g /\ writable f = writable g
  | _ => status f = FD_NONE
  end.

(** No file of the table is being opened, or closed and still in use. *)
Definition settled (m : gmap Z fs_struct) (t : Z) : Prop := forall i f, 0 <= i -> file_at m t i = Some f -> status f = FD_NONE \/ status f = FD_OPENED.

Lemma dup_file_ok s P E t t' i f g : core (tables s) (cts s) P E -> t <> t' -> 0 <= i -> file_at (tables s) t i = Some f -> status f = FD_NONE -> file_at (tables s) t' i = Some g ->
  status g = FD_NONE \/ status g = FD_OPENED -> (forall n, fst (cts s n) + 1 < MAX_COUNT) ->
  exists s' f', (g ← get_file t' i;
      if decide (status g = FD_OPENED) then _ ← upd_file t i (set_status FD_INIT); filemap_dup t i t' i
      else if decide (status g <> FD_NONE) then _ ← upd_file t i (set_status (status g)); filemap_dup_close t i t' i
      else mret tt) s = Ok (tt, s') /\
    tables s' = with_file (tables s) t i f' /\ copied i f' g /\ core (tables s') (cts s') P E /\ forall n, fst (cts s' n) <= fst (cts s n) + 1.
Proof.
  intros C Hne Hi Hf Hs Hg Hsg Hr. rewrite (bind_step _ _ _ _ _ (get_file_spec s t' i g Hg)). destruct Hsg as [Hsg|Hsg].
  - rewrite decide_False by (by rewrite Hsg). rewrite decide_False by tauto. exists s, f. split; [done|]. split; [by rewrite with_file_id|]. split; [unfold copied; by rewrite Hsg|]. split; [done|]. lia.
  - rewrite decide_True by done. rewrite (bind_step _ _ _ _ _ (upd_file_spec s t i f _ Hf)). set (s1 := set_tables _ s).
    assert (C1 : core (tables s1) (cts s1) ((t, i, Opening) :: P) E) by exact (init_core s P E C t i f (set_status FD_INIT f) Hi Hf Hs eq_refl eq_refl eq_refl).
    assert (Hf1 : file_at (tables s1) t i = Some (set_status FD_INIT f)) by exact (at_with s t i f _ Hi Hf).
    assert (Hg1 : file_at (tables s1) t' i = Some g) by (unfold s1; cbn; rewrite (file_at_with _ t i f) by done; by rewrite decide_False by (intros [? _]; congruence)).
    destruct (co_file _ _ _ _ C1 t' i g Hi Hg1) as [_ Hk]. rewrite Hsg in Hk. destruct Hk as (_ & _ & [n Hn]).
    destruct (filemap_dup_ok s1 _ E C1 t i t' i _ g n ltac:(by left) Hf1 Hi Hg1 Hsg Hn (Hr n)) as (s2 & E2 & T2 & Hfd & C2 & D2). rewrite rem1_head in C2.
    eexists s2, _. split; [exact E2|]. split; [rewrite T2; unfold s1; cbn [tables set_tables]; rewrite with_file_twice; reflexivity|]. split; [unfold copied; rewrite Hsg; split_and!; done|]. split; [exact C2|].
    intros k. rewrite D2. change (cts s1) with (cts s). case_decide; subst; cbn; lia.
Qed.

Lemma dup_loop_ok k : forall s P E t t' i, core (tables s) (cts s) P E -> t <> t' -> 0 <= i ->
  (forall j g, i <= j < i + Z.of_nat k -> file_at (tables s) t' j = Some g -> status g = FD_NONE \/ status g = FD_OPENED) ->
  (forall j, i <= j < i + Z.of_nat k -> is_Some (file_at (tables s) t' j) /\ exists f, file_at (tables s) t j = Some f /\ status f = FD_NONE) ->
  (forall n, fst (cts s n) + Z.of_nat k < MAX_COUNT) ->
  exists s', dup_loop k t t' i s = Ok (tt, s') /\ core (tables s') (cts s') P E /\ frame s s' /\
    (forall t2 j, 0 <= j -> t2 <> t \/ j < i -> file_at (tables s') t2 j = file_at (tables s) t2 j) /\
    (forall j g, i <= j < i + Z.of_nat k -> file_at (tables s) t' j = Some g -> exists f, file_at (tables s') t j = Some f /\ copied j f g).
Proof.
  induction k as [|k IH]; intros s P E t t' i C Hne Hi Hset Hav Hr.
  { exists s. split; [done|]. split; [done|]. split; [done|]. split; [done|]. lia. }
  destruct (Hav i ltac:(lia)) as ([g Hg] & f & Hf & Hs). cbn [dup_loop]. rewrite <- bind_assoc_M.
  destruct (dup_file_ok s P E t t' i f g C Hne Hi Hf Hs Hg (Hset i g ltac:(lia) Hg)) as (s1 & f1 & E1 & T1 & Hc1 & C1 & D1); [intros n; specialize (Hr n); lia|].
  rewrite (bind_step _ _ _ _ _ E1).
  assert (Hoth : forall t2 j, 0 <= j -> t2 <> t \/ j <> i -> file_at (tables s1) t2 j = file_at (tables s) t2 j).
  { intros t2 j Hj Ho. rewrite T1, (file_at_with _ t i f) by done. rewrite decide_False; [done|]. intros [-> ->]. tauto. }
  destruct (IH s1 P E t t' (i + 1) C1 Hne ltac:(lia)) as (s2 & E2 & C2 & F2 & K2 & D2).
  - intros j h Hj Hh. apply (Hset j h); [lia|]. by rewrite <- Hoth by (lia || (left; congruence)).
  - intros j Hj. rewrite !Hoth by (lia || (left; congruence) || (right; lia)). apply Hav. lia.
  - intros n. specialize (Hr n). specialize (D1 n). lia.
  - exists s2. split; [exact E2|]. split; [exact C2|]. split; [eapply frame_trans; [by eapply frame_with|exact F2]|]. split.
    + intros t2 j Hj Ho. rewrite K2 by (done || (destruct Ho; [by left|right; lia])). apply Hoth; [done|]. destruct Ho; [by left|right; lia].
    + intros j h Hj Hh. destruct (decide (j = i)) as [->|Hji].
      * rewrite Hg in Hh. injection Hh as <-. exists f1. split; [|done]. rewrite K2 by (done || (right; lia)). rewrite T1. exact (at_with s t i f f1 Hi Hf).
      * apply D2; [lia|]. rewrite Hoth by (lia || (right; done)). done.
Qed.

(** A file that is being opened cannot be copied. *)
Lemma dup_init_panics s t t' i f g k : file_at (tables s) t i = Some f -> t <> t' -> 0 <= i -> file_at (tables s) t' i = Some g -> status g = FD_INIT -> dup_loop (S k) t t' i s = Err AssertFailed.
Proof.
  intros Hf Hne Hi Hg Hs. cbn [dup_loop]. rewrite (bind_step _ _ _ _ _ (get_file_spec s t' i g Hg)). rewrite decide_False by (by rewrite Hs). rewrite decide_True by (by rewrite Hs).
  rewrite bind_assoc_M, (bind_step _ _ _ _ _ (upd_file_spec s t i f _ Hf)). set (s1 := set_tables _ s). apply bind_err. unfold filemap_dup_close.
  assert (Hf1 : file_at (tables s1) t i = Some (set_status (status g) f)) by exact (at_with s t i f _ Hi Hf). rewrite (bind_step _ _ _ _ _ (get_file_spec s1 t i _ Hf1)).
  assert (Hg1 : file_at (tables s1) t' i = Some g) by (unfold s1; cbn; rewrite (file_at_with _ t i f) by done; by rewrite decide_False by (intros [? _]; congruence)).
  rewrite (bind_step _ _ _ _ _ (get_file_spec s1 t' i g Hg1)). apply bind_err. unfold kassert. cbn [status set_status]. by rewrite Hs.
Qed.

Lemma dup_loop_app a b t t' : forall i s, dup_loop (a + b) t t' i s = (_ ← dup_loop a t t' i; dup_loop b t t' (i + Z.of_nat a)) s.
Proof.
  induction a as [|a IH]; intros i s; [cbn; by rewrite Z.add_0_r|]. cbn [Nat.add dup_loop]. unfold mbind, M_bind in *. destruct (get_file t' i s) as [[f s1]|]; [|done].
  match goal with |- match ?x with _ => _ end = _ => destruct x as [[u s2]|]; [|done] end. rewrite IH. by replace (i + 1 + Z.of_nat a) with (i + Z.of_nat (S a)) by lia.
Qed.

Lemma same_table s s' t : frame s s' -> (forall j, 0 <= j -> file_at (tables s') t j = file_at (tables s) t j) -> tables s' !! t = tables s !! t.
Proof.
  intros F H. specialize (F t). unfold file_at in H. destruct (tables s' !! t) as [[p l k]|], (tables s !! t) as [[p' l' k']|]; cbn in *; try done. injection F as -> ->. do 2 f_equal.
  apply list_eq. intros j. specialize (H (Z.of_nat j) ltac:(lia)). by rewrite Nat2Z.id in H.
Qed.

Lemma Z_b2z_nonneg b : 0 <= Z.b2z b.
Proof. by destruct b. Qed.

(** A directory that a process is in has a reference. *)
Lemma pwd_counts s P t x n : core (tables s) (cts s) P (pwds (tables s)) -> tables s !! t = Some x -> pwd x = Some n ->
  exists r o, cts s n = (r, o) /\ 0 <= o <= r - 1 /\ r < MAX_COUNT.
Proof.
  intros C Hx Hp. exists (fst (cts s n)), (snd (cts s n)). split; [apply surjective_pairing|]. pose proof (core_counts _ _ _ _ n C) as Hc. pose proof (fds_nonneg (tables s) n). rewrite (co_open _ _ _ _ C) in *.
  assert (H1 := total_ge (fun x => Z.b2z (bool_decide (pwd x = Some n))) (tables s) t x (fun y => Z_b2z_nonneg _) Hx). cbn in H1. rewrite bool_decide_eq_true_2 in H1 by done.
  unfold pwds in Hc. cbn in H1. lia.
Qed.

Section copy.
Context (s : vstate) (P : pends) (t t' : Z) (x : fs_struct) (l : list file).
Context (C : core (tables s) (cts s) P (pwds (tables s))) (Hx : tables s !! t' = Some x) (Hpos : 0 < fs_count x) (Hfresh : tables s !! t = None).
Context (Hl : Z.of_nat (length l) = FS_STRUCT_NENTRY) (Hset : settled (tables s) t') (Hr : forall n, fst (cts s n) + 1 + FS_STRUCT_NENTRY < MAX_COUNT).

(** The tables when the copy has its directory, before its descriptors. *)
Definition half : gmap Z fs_struct := <[t := FsStruct (pwd x) (filemap (fs_create l)) 0]> (tables s).

Lemma half_core : core half (cts s) P (pwds (tables s)).
Proof.
  pose proof (create_core _ _ _ _ C t l Hfresh Hl) as C1. pose proof (core_header _ _ _ _ C1 t (fs_create l) (pwd x) 0 ltac:(by rewrite lookup_insert_eq)) as C2. by rewrite insert_insert_eq in C2.
Qed.

Lemma half_pwds n : pwds half n = pwds (tables s) n + Z.b2z (bool_decide (pwd x = Some n)).
Proof. unfold pwds, half. rewrite total_new by done. cbn [pwd]. lia. Qed.

Lemma copy_pwd : exists s1, (match pwd x with Some n => vop_ref_inc n | None => mret tt end) (set_tables half s) = Ok (tt, s1) /\ tables s1 = half /\
  core (tables s1) (cts s1) P (pwds half) /\ forall n, fst (cts s1 n) <= fst (cts s n) + 1.
Proof.
  pose proof half_core as C1. destruct (pwd x) as [n|] eqn:Hp.
  - destruct (pwd_counts s P t' x n C Hx Hp) as (r & o & Ec & Ho & Hm). destruct (ref_inc_ok (set_tables half s) n r o Ec ltac:(lia) ltac:(lia)) as (s1 & E1 & [T1 K1]).
    change (cts (set_tables half s)) with (cts s) in K1. exists s1. split; [exact E1|]. split; [exact T1|]. split; [|intros k; rewrite K1; case_decide; subst; cbn; lia].
    rewrite T1. apply (core_extra half (cts s) P (pwds (tables s)) C1).
    + intros k. rewrite K1. case_decide; subst; cbn; lia.
    + intros k. rewrite K1, half_pwds, Hp. case_decide as Ek; [subst k; rewrite bool_decide_eq_true_2 by done; cbn; lia|]. rewrite bool_decide_eq_false_2 by congruence. cbn. lia.
    + intros k. apply pwds_nonneg.
    + intros k. rewrite K1. specialize (Hr k). assert (FS_STRUCT_NENTRY = 291) by done. case_decide; subst; cbn in *; lia.
  - exists (set_tables half s). split; [done|]. split; [done|]. split; [|intros n; cbn; change (cts (set_tables half s)) with (cts s); lia].
    apply (core_extra half (cts s) P (pwds (tables s)) C1); try done.
    + intros k. rewrite half_pwds, Hp. rewrite bool_decide_eq_false_2 by done. cbn [Z.b2z]. change (cts (set_tables half s) k) with (cts s k). lia.
    + intros k. apply pwds_nonneg.
    + intros k. apply (core_counts _ _ _ _ k C).
Qed.

(** The copy up to its descriptors. *)
Lemma copy_fs_loop s1 : (match pwd x with Some n => vop_ref_inc n | None => mret tt end) (set_tables half s) = Ok (tt, s1) ->
  copy_fs false t' t (Some l) s = (_ ← dup_loop (Z.to_nat FS_STRUCT_NENTRY) t t' 0; y ← get_fs t; _ ← set_fs_count t (s32 (fs_count y + 1)); mret (0, t)) s1.
Proof.
  intros E1. assert (Hne : t <> t') by congruence. unfold copy_fs. rewrite bind_modify. unfold dup_fs, get_fs. set (s0 := set_tables _ s).
  rewrite bind_assoc_M. rewrite (bind_step _ _ s0 (fs_create l) s0) by (unfold load, s0; cbn; by rewrite lookup_insert_eq).
  rewrite bind_assoc_M. rewrite (bind_step _ _ s0 x s0) by (unfold load, s0; cbn; by rewrite lookup_insert_ne, Hx). rewrite bind_assoc_M, bind_kassert by (apply andb_true_iff; split; [done|by apply Z.ltb_lt]).
  rewrite bind_assoc_M, bind_modify.
  assert (Em : set_tables (<[t := FsStruct (pwd x) (filemap (fs_create l)) (fs_count (fs_create l))]> (tables s0)) s0 = set_tables half s) by (unfold set_tables, s0, half; cbn; by rewrite insert_insert_eq).
  by rewrite Em, bind_assoc_M, (bind_step _ _ _ _ _ E1).
Qed.

(** The new table has all its entries, unused. *)
Lemma half_files s1 j : tables s1 = half -> core (tables s1) (cts s1) P (pwds half) -> 0 <= j < FS_STRUCT_NENTRY ->
  is_Some (file_at (tables s1) t' j) /\ exists f, file_at (tables s1) t j = Some f /\ status f = FD_NONE.
Proof.
  intros T1 C1 Hj. split.
  - rewrite T1. unfold half. rewrite file_at_insert. rewrite decide_False by congruence. destruct (file_at_some _ _ _ _ t' x j C Hx ltac:(lia)) as (f & Hf & _). by exists f.
  - assert (Hx1 : tables s1 !! t = Some (FsStruct (pwd x) (filemap (fs_create l)) 0)) by (rewrite T1; unfold half; by rewrite lookup_insert_eq).
    destruct (file_at_some _ _ _ _ t _ j C1 Hx1 ltac:(lia)) as (f & Hf & Hf'). exists f. split; [exact Hf|]. by apply filemap_init_lookup in Hf' as (? & _).
Qed.

Lemma half_parent j : file_at half t' j = file_at (tables s) t' j.
Proof. unfold half. rewrite file_at_insert. by rewrite decide_False by congruence. Qed.

Lemma copy_fs_ok : exists s', copy_fs false t' t (Some l) s = Ok ((0, t), s') /\ core (tables s') (cts s') P (pwds (tables s')) /\
  (forall t2, t2 <> t -> tables s' !! t2 = tables s !! t2) /\ (fun y => (pwd y, fs_count y)) <$> tables s' !! t = Some (pwd x, 1) /\
  forall j g, 0 <= j -> file_at (tables s) t' j = Some g -> exists f, file_at (tables s') t j = Some f /\ copied j f g.
Proof.
  assert (Hne : t <> t') by congruence. destruct copy_pwd as (s1 & E1 & T1 & C1 & K1). rewrite (copy_fs_loop s1 E1).
  assert (At' : forall j, file_at (tables s1) t' j = file_at (tables s) t' j) by (intros j; rewrite T1; apply half_parent).
  destruct (dup_loop_ok (Z.to_nat FS_STRUCT_NENTRY) s1 P (pwds half) t t' 0 C1 Hne ltac:(lia)) as (s2 & E2 & C2 & F2 & K2 & D2).
  - intros j f Hj. rewrite At'. apply Hset. lia.
  - intros j Hj. apply half_files; [done|done|lia].
  - intros n. specialize (K1 n). specialize (Hr n). lia.
  - rewrite (bind_step _ _ _ _ _ E2). pose proof (F2 t) as Ft. rewrite T1 in Ft. unfold half in Ft. rewrite lookup_insert_eq in Ft. cbn in Ft.
    destruct (tables s2 !! t) as [y|] eqn:Hy; [|done]. cbn in Ft. injection Ft as Fp Fc. unfold get_fs. rewrite (bind_step _ _ s2 y s2) by (unfold load; by rewrite Hy). rewrite Fc.
    unfold set_fs_count, get_fs. rewrite bind_assoc_M, (bind_step _ _ s2 y s2) by (unfold load; by rewrite Hy). rewrite bind_modify. change (s32 (0 + 1)) with 1. set (s3 := set_tables _ s2).
    exists s3. split; [done|]. unfold s3 at 1 2 3 4 5. cbn [tables set_tables]. rewrite lookup_insert_eq. split; [|split; [|split]].
    + pose proof (core_header _ _ _ _ C2 t y (pwd y) 1 Hy) as C3. change (cts s3) with (cts s2). assert (HE : forall n, pwds (<[t := FsStruct (pwd y) (filemap y) 1]> (tables s2)) n = pwds half n).
      { intros n. unfold pwds at 1. rewrite (total_insert _ _ t y) by done. cbn [pwd]. change (pwds (tables s2) n - Z.b2z (bool_decide (pwd y = Some n)) + Z.b2z (bool_decide (pwd y = Some n)) = pwds half n). rewrite (frame_pwds s1 s2 n F2), T1. lia. }
      apply (core_extra _ _ _ _ C3); try done; [intros n; by rewrite HE|intros n; apply pwds_nonneg|intros n; apply (core_counts _ _ _ _ n C2)].
    + intros t2 Ht2. rewrite lookup_insert_ne by done. rewrite (same_table s1 s2 t2 F2) by (intros j Hj; apply K2; [done|by left]). rewrite T1. unfold half. by rewrite lookup_insert_ne.
    + cbn. by rewrite Fp.
    + intros j g Hj Hg. pose proof (file_at_range _ _ _ _ t' j g C Hj Hg). rewrite <- At' in Hg. destruct (D2 j g ltac:(lia) Hg) as (f & Hf & Hcp). exists f. split; [|exact Hcp].
      unfold s3. cbn [tables set_tables]. rewrite file_at_insert, decide_True by done. unfold file_at in Hf. rewrite Hy in Hf. exact Hf.
Qed.

(** The first file that is not settled is being opened. *)
Lemma copy_init_panics i g : 0 <= i -> file_at (tables s) t' i = Some g -> status g = FD_INIT ->
  (forall j h, 0 <= j < i -> file_at (tables s) t' j = Some h -> status h = FD_NONE \/ status h = FD_OPENED) -> copy_fs false t' t (Some l) s = Err AssertFailed.
Proof.
  intros Hi Hg Hs Hb. assert (Hne : t <> t') by congruence. destruct copy_pwd as (s1 & E1 & T1 & C1 & K1). rewrite (copy_fs_loop s1 E1). apply bind_err.
  assert (At' : forall j, file_at (tables s1) t' j = file_at (tables s) t' j) by (intros j; rewrite T1; apply half_parent). pose proof (file_at_range _ _ _ _ t' i g C Hi Hg) as Hn.
  replace (Z.to_nat FS_STRUCT_NENTRY) with (Z.to_nat i + S (Z.to_nat (FS_STRUCT_NENTRY - i - 1)))%nat by lia. rewrite dup_loop_app.
  destruct (dup_loop_ok (Z.to_nat i) s1 P (pwds half) t t' 0 C1 Hne ltac:(lia)) as (s2 & E2 & C2 & F2 & K2 & D2).
  - intros j h Hj. rewrite At'. apply Hb. lia.
  - intros j Hj. apply half_files; [done|done|lia].
  - intros n. specialize (K1 n). specialize (Hr n). lia.
  - rewrite (bind_step _ _ _ _ _ E2). replace (0 + Z.of_nat (Z.to_nat i)) with i by lia. pose proof (F2 t) as Ft. rewrite T1 in Ft. unfold half in Ft. rewrite lookup_insert_eq in Ft. cbn in Ft.
    destruct (tables s2 !! t) as [y|] eqn:Hy; [|done]. destruct (file_at_some _ _ _ _ t y i C2 Hy Hn) as (f & Hf & _). apply (dup_init_panics s2 t t' i f g); try done.
    rewrite K2 by (done || left; congruence). by rewrite At'.
Qed.
End copy.

(** ** Destroying a table *)

Definition quiet (P : pends) (t : Z) : Prop := forall i u, npend P t i u = 0.

Lemma quiet_settled m c P E t : core m c P E -> quiet P t -> settled m t.
Proof.
  intros C Hq i f Hi Hf. destruct (co_file _ _ _ _ C t i f Hi Hf) as [_ Hk]. pose proof (Hq i Using). pose proof (Hq i Opening). destruct (status f); [by left| |by right|]; destruct Hk as (? & ? & ?); lia.
Qed.

Lemma destroy_loop_ok k : forall s P E t i, core (tables s) (cts s) P E -> quiet P t -> 0 <= i -> (forall j, i <= j < i + Z.of_nat k -> is_Some (file_at (tables s) t j)) ->
  exists s', destroy_loop k t i s = Ok (tt, s') /\ core (tables s') (cts s') P E /\ frame s s' /\
    (forall t2 j, 0 <= j -> t2 <> t \/ j < i -> file_at (tables s') t2 j = file_at (tables s) t2 j) /\
    (forall j, i <= j < i + Z.of_nat k -> exists f, file_at (tables s') t j = Some f /\ status f = FD_NONE).
Proof.
  induction k as [|k IH]; intros s P E t i C Hq Hi Hav.
  { exists s. split; [done|]. split; [done|]. split; [done|]. split; [done|]. lia. }
  destruct (Hav i ltac:(lia)) as [f Hf]. cbn [destroy_loop]. rewrite (bind_step _ _ _ _ _ (get_file_spec s t i f Hf)).
  assert (H1 : exists s1 f1, (if decide (status f = FD_OPENED) then filemap_close t i else mret tt) s = Ok (tt, s1) /\ tables s1 = with_file (tables s) t i f1 /\ status f1 = FD_NONE /\ core (tables s1) (cts s1) P E).
  { destruct (quiet_settled _ _ _ _ t C Hq i f Hi Hf) as [Hs|Hs].
    - rewrite decide_False by (by rewrite Hs). exists s, f. by rewrite with_file_id.
    - rewrite decide_True by done. destruct (close_ok s P E C t i f Hi Hf Hs) as (s1 & f1 & E1 & T1 & C1 & S1 & _). rewrite decide_True in S1 by apply Hq. by exists s1, f1. }
  destruct H1 as (s1 & f1 & E1 & T1 & S1 & C1). rewrite (bind_step _ _ _ _ _ E1). assert (Hf1 : file_at (tables s1) t i = Some f1) by (rewrite T1; exact (at_with s t i f f1 Hi Hf)).
  rewrite (bind_step _ _ _ _ _ (get_file_spec s1 t i f1 Hf1)). rewrite bind_kassert by (by apply bool_decide_eq_true_2).
  assert (Hoth : forall t2 j, 0 <= j -> t2 <> t \/ j <> i -> file_at (tables s1) t2 j = file_at (tables s) t2 j).
  { intros t2 j Hj Ho. rewrite T1, (file_at_with _ t i f) by done. rewrite decide_False; [done|]. intros [-> ->]. tauto. }
  destruct (IH s1 P E t (i + 1) C1 Hq ltac:(lia)) as (s2 & E2 & C2 & F2 & K2 & D2).
  - intros j Hj. rewrite Hoth by (lia || (right; lia)). apply Hav. lia.
  - exists s2. split; [exact E2|]. split; [exact C2|]. split; [eapply frame_trans; [by eapply frame_with|exact F2]|]. split.
    + intros t2 j Hj Ho. rewrite K2 by (done || (destruct Ho; [by left|right; lia])). apply Hoth; [done|]. destruct Ho; [by left|right; lia].
    + intros j Hj. destruct (decide (j = i)) as [->|Hji]; [|apply D2; lia]. exists f1. split; [|done]. by rewrite K2 by (done || (right; lia)).
Qed.

Section destroy.
Context (s : vstate) (P : pends) (t : Z) (x : fs_struct).
Context (C : core (tables s) (cts s) P (pwds (tables s))) (Hx : tables s !! t = Some x) (Hq : quiet P t) (Hc : fs_count x = 0).

(** References to directories, without that of [t]. *)
Definition others (n : Z) : Z := pwds (tables s) n - Z.b2z (bool_decide (pwd x = Some n)).

Lemma others_delete s' n : frame s s' -> others n = pwds (delete t (tables s')) n.
Proof.
  intros F. unfold others. rewrite <- (frame_pwds s s' n F). pose proof (F t) as Ft. rewrite Hx in Ft. destruct (tables s' !! t) as [y|] eqn:Hy; [|done]. cbn in Ft. injection Ft as Hp _. unfold pwds.
  rewrite (total_delete _ _ t y Hy), Hp. done.
Qed.

Lemma drop_pwd : exists s1, (match pwd x with Some n => vop_ref_dec n | None => mret tt end) s = Ok (tt, s1) /\ tables s1 = tables s /\ core (tables s1) (cts s1) P others.
Proof.
  assert (Ho : forall n, 0 <= others n) by (intros n; rewrite (others_delete s) by done; apply pwds_nonneg). unfold others in *. destruct (pwd x) as [n|] eqn:Hp.
  - destruct (pwd_counts s P t x n C Hx Hp) as (r & o & Ec & Hor & Hm). destruct (ref_dec_ok s n r o Ec Hor Hm) as (s1 & E1 & [T1 K1]). exists s1. split; [exact E1|]. split; [exact T1|].
    rewrite T1. apply (core_extra _ _ _ _ C); [| |exact Ho|].
    + intros k. rewrite K1. case_decide; subst; cbn; lia.
    + intros k. rewrite K1. case_decide as Ek; [subst k; rewrite bool_decide_eq_true_2 by done; cbn; lia|]. rewrite bool_decide_eq_false_2 by congruence. cbn. lia.
    + intros k. rewrite K1. pose proof (core_counts _ _ _ _ k C). case_decide; subst; cbn; lia.
  - exists s. split; [done|]. split; [done|]. apply (core_extra _ _ _ _ C); [done| |exact Ho|intros k; apply (core_counts _ _ _ _ k C)]. intros k. rewrite bool_decide_eq_false_2 by done. cbn [Z.b2z]. lia.
Qed.

Lemma fs_destroy_ok : exists s', fs_destroy t s = Ok (tt, s') /\ core (tables s') (cts s') P (pwds (tables s')) /\ tables s' !! t = None /\ forall t2, t2 <> t -> tables s' !! t2 = tables s !! t2.
Proof.
  unfold fs_destroy, get_fs. rewrite (bind_step _ _ s x s) by (unfold load; by rewrite Hx). rewrite bind_kassert by (by rewrite Hc). destruct drop_pwd as (s1 & E1 & T1 & C1). rewrite (bind_step _ _ _ _ _ E1).
  destruct (destroy_loop_ok (Z.to_nat FS_STRUCT_NENTRY) s1 P _ t 0 C1 Hq ltac:(lia)) as (s2 & E2 & C2 & F2 & K2 & D2).
  { intros j Hj. rewrite T1. destruct (file_at_some _ _ _ _ t x j C Hx ltac:(lia)) as (f & Hf & _). by exists f. }
  rewrite (bind_step _ _ _ _ _ E2). eexists. split; [reflexivity|]. cbn [tables set_tables]. rewrite lookup_delete_eq. split; [|split; [done|]].
  - assert (F : frame s s2) by (eapply frame_trans; [by apply frame_tables|exact F2]). pose proof (F2 t) as Ft. rewrite T1, Hx in Ft. destruct (tables s2 !! t) as [y|] eqn:Hy; [|done].
    apply (core_extra _ (cts s2) _ others); [|done| |intros n; apply pwds_nonneg|intros n; apply (core_counts _ _ _ _ n C2)].
    + apply (delete_core _ _ _ _ C2 t y Hy). intros f [j Hj]%list_elem_of_lookup. pose proof (co_len _ _ _ _ C2 t y Hy) as Hlen. pose proof (lookup_lt_Some _ _ _ Hj).
      destruct (D2 (Z.of_nat j) ltac:(lia)) as (f' & Hf' & Hs'). unfold file_at in Hf'. rewrite Hy in Hf'. cbn in Hf'. rewrite Nat2Z.id in Hf'. congruence.
    + intros n. change (cts (set_tables (delete t (tables s2)) s2) n) with (cts s2 n). by rewrite (others_delete s2).
  - intros t2 Ht. rewrite lookup_delete_ne by done. rewrite (same_table s1 s2 t2 F2) by (intros j Hj; apply K2; [done|by left]). by rewrite T1.
Qed.
End destroy.

(** ** Processes come and go *)

Lemma set_fs_count_ok s P t x k : core (tables s) (cts s) P (pwds (tables s)) -> tables s !! t = Some x ->
  let s' := set_tables (<[t := FsStruct (pwd x) (filemap x) k]> (tables s)) s in set_fs_count t k s = Ok (tt, s') /\ core (tables s') (cts s') P (pwds (tables s')).
Proof.
  intros C Hx s'. split; [unfold set_fs_count, get_fs; by rewrite (bind_step _ _ s x s) by (unfold load; by rewrite Hx)|].
  pose proof (core_header _ _ _ _ C t x (pwd x) k Hx) as C1. apply (core_extra _ _ _ _ C1); [done| |intros n; apply pwds_nonneg|intros n; apply (core_counts _ _ _ _ n C)].
  intros n. change (cts s' n) with (cts s n). unfold s'. cbn [tables set_tables]. unfold pwds. rewrite (total_insert _ _ t x) by done. cbn [pwd]. lia.
Qed.

Lemma put_fs_ok s P t x : core (tables s) (cts s) P (pwds (tables s)) -> tables s !! t = Some x -> (fs_count x = 1 -> quiet P t) ->
  exists s', put_fs t s = Ok (tt, s') /\ core (tables s') (cts s') P (pwds (tables s')) /\ (forall t2, t2 <> t -> tables s' !! t2 = tables s !! t2) /\
    tables s' !! t = if decide (fs_count x = 1) then None else Some (FsStruct (pwd x) (filemap x) (fs_count x - 1)).
Proof.
  intros C Hx Hq. unfold put_fs, get_fs. rewrite (bind_step _ _ s x s) by (unfold load; by rewrite Hx). destruct (set_fs_count_ok s P t x (fs_count x - 1) C Hx) as [E1 C1]. set (s1 := set_tables _ s) in *.
  rewrite (bind_step _ _ _ _ _ E1). assert (Hx1 : tables s1 !! t = Some (FsStruct (pwd x) (filemap x) (fs_count x - 1))) by (unfold s1; cbn [tables set_tables]; by rewrite lookup_insert_eq).
  assert (Ho : forall t2, t2 <> t -> tables s1 !! t2 = tables s !! t2) by (intros t2 Ht; unfold s1; cbn [tables set_tables]; by rewrite lookup_insert_ne). destruct (Z.eqb_spec (fs_count x - 1) 0) as [E0|Hne].
  - destruct (fs_destroy_ok s1 P t _ C1 Hx1 (Hq ltac:(lia)) E0) as (s2 & E2 & C2 & Hn & K2). exists s2. split; [exact E2|]. split; [exact C2|]. split; [intros t2 Ht; by rewrite K2, Ho|]. by rewrite decide_True by lia.
  - exists s1. split; [done|]. split; [exact C1|]. split; [exact Ho|]. by rewrite decide_False by lia.
Qed.

(** ** One table *)

Definition empty_file : file := File FD_NONE false false 0 0 None 0.
Definition empty_table : list file := replicate (Z.to_nat FS_STRUCT_NENTRY) empty_file.

Lemma one_table_core t p c E : (forall n, snd (c n) = 0) -> (forall n, 0 <= E n <= fst (c n)) -> (forall n, fst (c n) < MAX_COUNT) ->
  core {[t := FsStruct p (filemap_init 0 empty_table) 1]} c [] E.
Proof.
  intros Hs He Hm. assert (C0 : core ∅ c [] E).
  { assert (Hf : forall n, fds ∅ n = 0) by done. split.
    - intros t2 x Hx. by rewrite lookup_empty in Hx.
    - intros t2 i f _ Hf2. unfold file_at in Hf2. by rewrite lookup_empty in Hf2.
    - intros t2 i u Hin. by apply not_elem_of_nil in Hin.
    - intros n. by rewrite Hf.
    - intros n. rewrite Hf. specialize (He n). specialize (Hm n). lia.
    - intros n. apply He. }
  pose proof (create_core _ _ _ _ C0 t empty_table (lookup_empty t) ltac:(unfold empty_table; by rewrite length_replicate)) as C1.
  pose proof (core_header _ _ _ _ C1 t (fs_create empty_table) p 1 (lookup_insert_eq _ _ _)) as C2. by rewrite insert_insert_eq in C2.
Qed.

Lemma one_table_pwds t x n : pwds {[t := x]} n = Z.b2z (bool_decide (pwd x = Some n)).
Proof. unfold pwds. change ({[t := x]} : gmap Z fs_struct) with (<[t := x]> (∅ : gmap Z fs_struct)). rewrite total_new by apply lookup_empty. unfold total. rewrite map_fold_empty. lia. Qed.
