(* ===== verification/FilesSafe.v ===== *)
(** * FilesSafe: the descriptors of all processes

    Threads that share a table interleave their operations.  The runs here are sequences of
    the pieces of the operations, of all processes, in any order: an operation on an open
    descriptor is cut at its call into the inode, opening is cut between taking an
    entry of the table and [vfs_open].  What [vfs_open] itself and closing call is
    answered at once: interleavings inside them are not covered. *)

From stdpp Require Import numbers gmap list.
From S2P Require Import Prelude Files FilesInv FilesOps FilesUse FilesTab.
Local Open Scope Z_scope.

(** The state with the operations under way. *)
Record world := World { vs : vstate; under : pends }.

(** A piece of an operation: up to where it may sleep, or from there on ([..Done]). *)
Inductive op :=
| FileOpen (t flags : Z)
| FileOpenDone (t i flags : Z) (r : open_res) (st : Z * Z)
| FileClose (t d : Z)
| FileRead (t d : Z)
| FileReadDone (t i ret copied : Z)
| FileWrite (t d : Z)
| FileWriteDone (t i ret copied : Z)
| FileSeek (t d p whence : Z) (st : Z * Z)
| FileSeekDone (t i p ret seek : Z)
| FileFstat (t d : Z)
| FileFstatDone (t i ret : Z)
| FileFsync (t d : Z)
| FileFsyncDone (t i ret : Z)
| FileGetdirentry (t d : Z)
| FileGetdirentryDone (t i ret d_off used : Z)
| FileDup (t d1 d2 : Z)
| FilePipe (t : Z)
| FilePipeDone (t i0 i1 ret n0 n1 : Z)
| FileMkfifo (t flags : Z) (name : bool)
| FileMkfifoDone (t i flags : Z) (r : open_res)
| CopyFs (share : bool) (t' t : Z) (l : option (list file))
| PutFs (t : Z).

Definition exec {A} (c : M vstate A) (k : A -> pends) (w : world) : outcome world :=
  match c (vs w) with Ok (a, s) => Ok (World s (k a)) | Err e => Err e end.
(** The operation is under way at the entry it found. *)
Definition enter (u : phase) (t : Z) (P : pends) (o : option Z) : pends := match o with Some i => (t, i, u) :: P | None => P end.

Definition run (o : op) (w : world) : outcome world :=
  let P := under w in
  match o with
  | FileOpen t flags => exec (file_open_begin t flags) (fun a => enter Opening t P a.2) w
  | FileOpenDone t i flags r st => exec (file_open_end t i flags r st) (fun _ => rem1 (t, i, Opening) P) w
  | FileClose t d => exec (file_close t d) (fun _ => P) w
  | FileRead t d => exec (file_read_begin t d) (fun a => enter Using t P ((fun x => x.1.1) <$> a.2)) w
  | FileReadDone t i ret copied => exec (file_read_end t i ret copied) (fun _ => rem1 (t, i, Using) P) w
  | FileWrite t d => exec (file_write_begin t d) (fun a => enter Using t P ((fun x => x.1.1) <$> a.2)) w
  | FileWriteDone t i ret copied => exec (file_write_end t i ret copied) (fun _ => rem1 (t, i, Using) P) w
  | FileSeek t d p whence st => exec (file_seek_begin t d p whence st) (fun a => enter Using t P (fst <$> a.2)) w
  | FileSeekDone t i p ret seek => exec (file_seek_end t i p ret seek) (fun _ => rem1 (t, i, Using) P) w
  | FileFstat t d => exec (file_fstat_begin t d) (fun a => enter Using t P ((fun x => x.1.1) <$> a.2)) w
  | FileFstatDone t i ret => exec (file_fstat_end t i ret) (fun _ => rem1 (t, i, Using) P) w
  | FileFsync t d => exec (file_fsync_begin t d) (fun a => enter Using t P ((fun x => x.1.1) <$> a.2)) w
  | FileFsyncDone t i ret => exec (file_fsync_end t i ret) (fun _ => rem1 (t, i, Using) P) w
  | FileGetdirentry t d => exec (file_getdirentry_begin t d) (fun a => enter Using t P ((fun x => x.1.1) <$> a.2)) w
  | FileGetdirentryDone t i ret d_off used => exec (file_getdirentry_end t i ret d_off used) (fun _ => rem1 (t, i, Using) P) w
  | FileDup t d1 d2 => exec (file_dup t d1 d2) (fun _ => P) w
  | FilePipe t => exec (file_pipe_begin t) (fun a => match a.2 with Some (i0, i1) => (t, i1, Opening) :: (t, i0, Opening) :: P | None => P end) w
  | FilePipeDone t i0 i1 ret n0 n1 => exec (file_pipe_end t i0 i1 ret n0 n1) (fun _ => rem1 (t, i1, Opening) (rem1 (t, i0, Opening) P)) w
  | FileMkfifo t flags name => exec (file_mkfifo_begin t flags name) (fun a => enter Opening t P a.2) w
  | FileMkfifoDone t i flags r => exec (file_mkfifo_end t i flags r) (fun _ => rem1 (t, i, Opening) P) w
  | CopyFs share t' t l => exec (copy_fs share t' t l) (fun _ => P) w
  | PutFs t => exec (put_fs t) (fun _ => P) w
  end.

Fixpoint runs (os : list op) (w : world) : outcome world :=
  match os with [] => Ok w | o :: os => match run o w with Ok w => runs os w | Err e => Err e end end.

(** What a process may do: operate on its table, end what is under way, fork while
    the table has no file half open or half closed, and exit. *)
Definition allowed (o : op) (w : world) : Prop :=
  let s := vs w in let P := under w in
  match o with
  | FileOpen t _ | FileClose t _ | FilePipe t | FileMkfifo t _ _ => live s t
  | FileOpenDone t i _ r _ | FileMkfifoDone t i _ r => (t, i, Opening) ∈ P /\ room s (snd (or_parent r)) /\ room s (snd (or_create r)) /\ room s (snd (or_lookup r))
  | FileRead t _ | FileWrite t _ | FileSeek t _ _ _ _ | FileFstat t _ | FileFsync t _ | FileGetdirentry t _ => live s t /\ Z.of_nat (length P) < 2 ^ 30
  | FileReadDone t i _ _ | FileWriteDone t i _ _ | FileSeekDone t i _ _ _ | FileFstatDone t i _ | FileFsyncDone t i _ | FileGetdirentryDone t i _ _ _ => (t, i, Using) ∈ P
  | FileDup t _ _ => live s t /\ forall n, fst (cts s n) + 1 < MAX_COUNT
  | FilePipeDone t i0 i1 ret n0 n1 => i0 <> i1 /\ (t, i0, Opening) ∈ P /\ (t, i1, Opening) ∈ P /\ (ret = 0 -> n0 <> n1 /\ unused s n0 /\ unused s n1)
  | CopyFs true t' _ _ => exists x, tables s !! t' = Some x /\ fs_count x + 1 < 2 ^ 31
  | CopyFs false t' t None => True
  | CopyFs false t' t (Some l) => live s t' /\ tables s !! t = None /\ Z.of_nat (length l) = FS_STRUCT_NENTRY /\ settled (tables s) t' /\ forall n, fst (cts s n) + 1 + FS_STRUCT_NENTRY < MAX_COUNT
  | PutFs t => exists x, tables s !! t = Some x /\ (fs_count x = 1 -> quiet P t)
  end.
Fixpoint permitted (os : list op) (w : world) : Prop :=
  match os with [] => True | o :: os => allowed o w /\ forall w', run o w = Ok w' -> permitted os w' end.

(** Every inode is open as often as descriptors stand for it and has their references and
    those of the processes' directories; every table has a process. *)
Definition inv (w : world) : Prop :=
  core (tables (vs w)) (cts (vs w)) (under w) (pwds (tables (vs w))) /\ forall t x, tables (vs w) !! t = Some x -> 0 < fs_count x.

(** ** Steps *)

(** The operation leaves a state [s'] with [P'] under way. *)
Lemma step_frame {A} (c : M vstate A) k w a s' : inv w -> c (vs w) = Ok (a, s') -> core (tables s') (cts s') (k a) (pwds (tables (vs w))) -> frame (vs w) s' ->
  exists w', exec c k w = Ok w' /\ inv w'.
Proof.
  intros [C Hc] E C' F. unfold exec. rewrite E. eexists. split; [reflexivity|]. split; cbn [vs under].
  - apply (core_extra _ _ _ _ C'); [done| |intros n; apply pwds_nonneg|intros n; apply (core_counts _ _ _ _ n C')]. intros n. by rewrite (frame_pwds _ _ n F).
  - intros t x Hx. specialize (F t). rewrite Hx in F. destruct (tables (vs w) !! t) as [y|] eqn:Hy; [|done]. cbn in F. injection F as _ ->. by apply (Hc t).
Qed.

Lemma step_use {A} (c : M vstate (Z * option A)) (g : A -> Z) t d w : inv w ->
  (exists ret oi s', c (vs w) = Ok ((ret, oi), s') /\ begun (vs w) (under w) (pwds (tables (vs w))) t ret (g <$> oi) d s') ->
  exists w', exec c (fun a => enter Using t (under w) (g <$> a.2)) w = Ok w' /\ inv w'.
Proof.
  intros Hi (ret & oi & s' & E & B). eapply step_frame; [done|exact E| |]; cbn [snd]; destruct oi as [x|]; cbn [enter fmap option_fmap option_map] in *.
  - exact (proj1 (proj2 B)).
  - destruct B as [_ ->]. apply Hi.
  - apply B.
  - by destruct B as [_ ->].
Qed.

Lemma step_end {A} (c : M vstate unit) (a : A) t i w : inv w -> ended (vs w) (under w) (pwds (tables (vs w))) t i (c (vs w)) ->
  exists w', exec (_ ← c; mret a) (fun _ => rem1 (t, i, Using) (under w)) w = Ok w' /\ inv w'.
Proof. intros Hi (s' & E & C' & F). eapply (step_frame _ _ _ a s'); [done|by rewrite (bind_step _ _ _ _ _ E)|exact C'|exact F]. Qed.

Lemma step_table {A} (c : M vstate A) w a s' : c (vs w) = Ok (a, s') -> core (tables s') (cts s') (under w) (pwds (tables s')) -> (forall t x, tables s' !! t = Some x -> 0 < fs_count x) ->
  exists w', exec c (fun _ => under w) w = Ok w' /\ inv w'.
Proof. intros E C H. unfold exec. rewrite E. eexists. split; [reflexivity|]. done. Qed.

Lemma open_begin_step t flags w : inv w -> live (vs w) t -> exists w', run (FileOpen t flags) w = Ok w' /\ inv w'.
Proof.
  intros Hi L. destruct (alloc_core_ok _ _ _ (proj1 Hi) t NO_FD L) as (ret & oi & s1 & E1 & F1 & _ & H1). cbn [run]. unfold file_open_begin. destruct (access flags).
  - eapply step_frame; [done|exact E1| |exact F1]. cbn. destruct oi; [apply H1|]. destruct H1 as [_ ->]. apply Hi.
  - eapply step_frame; [done|reflexivity|apply Hi|done].
Qed.

Lemma mkfifo_begin_step t flags name w : inv w -> live (vs w) t -> exists w', run (FileMkfifo t flags name) w = Ok w' /\ inv w'.
Proof.
  intros Hi L. destruct (file_mkfifo_begin_ok _ _ _ (proj1 Hi) t flags name L) as (ret & oi & s1 & E1 & F1 & H1). eapply step_frame; [done|exact E1| |exact F1]. by destruct oi.
Qed.

Lemma pipe_begin_step t w : inv w -> live (vs w) t -> exists w', run (FilePipe t) w = Ok w' /\ inv w'.
Proof.
  intros Hi L. destruct (file_pipe_begin_ok _ _ _ (proj1 Hi) t L) as (ret & oi & s1 & E1 & F1 & H1). eapply step_frame; [done|exact E1| |exact F1]. cbn. destruct oi as [[i0 i1]|]; [apply H1|done].
Qed.

Lemma pipe_end_step t i0 i1 ret n0 n1 w : inv w -> allowed (FilePipeDone t i0 i1 ret n0 n1) w -> exists w', run (FilePipeDone t i0 i1 ret n0 n1) w = Ok w' /\ inv w'.
Proof.
  intros Hi (Hne & H0 & H1 & Hn). cbn [run]. destruct (decide (ret = 0)) as [->|Hr].
  - destruct (Hn eq_refl) as (Hnn & U0 & U1). destruct (pipe_opens _ _ _ (proj1 Hi) t i0 i1 Hne H0 H1 n0 n1 Hnn U0 U1) as (s' & E' & C' & F'). by eapply step_frame.
  - destruct (pipe_fails _ _ _ (proj1 Hi) t i0 i1 Hne H0 H1 ret n0 n1 Hr) as (r & s' & E' & C' & F'). by eapply step_frame.
Qed.

Lemma open_end_step t i flags r st w : inv w -> allowed (FileOpenDone t i flags r st) w -> exists w', run (FileOpenDone t i flags r st) w = Ok w' /\ inv w'.
Proof.
  intros Hi (Hin & R1 & R2 & R3). destruct (co_pend _ _ _ _ (proj1 Hi) t i Opening Hin) as [_ [f Hf]].
  destruct (file_open_end_ok _ _ _ (proj1 Hi) t i Hin f Hf flags r st R1 R2 R3) as (ret & s' & E' & C' & F'). by eapply step_frame.
Qed.

Lemma mkfifo_end_step t i flags r w : inv w -> allowed (FileMkfifoDone t i flags r) w -> exists w', run (FileMkfifoDone t i flags r) w = Ok w' /\ inv w'.
Proof.
  intros Hi (Hin & R1 & R2 & R3). destruct (co_pend _ _ _ _ (proj1 Hi) t i Opening Hin) as [_ [f Hf]].
  destruct (file_mkfifo_end_ok _ _ _ (proj1 Hi) t i Hin f Hf flags r R1 R2 R3) as (ret & s' & E' & C' & F'). by eapply step_frame.
Qed.

Lemma copy_fs_step share t' t l w : inv w -> allowed (CopyFs share t' t l) w -> exists w', run (CopyFs share t' t l) w = Ok w' /\ inv w'.
Proof.
  intros [C Hc] Ha. cbn [run allowed] in *. destruct share; [|destruct l as [l|]].
  - destruct Ha as (x & Hx & Hk). pose proof (Hc t' x Hx) as Hp. destruct (set_fs_count_ok _ _ t' x (fs_count x + 1) C Hx) as [E1 C1]. eapply step_table; [|exact C1|].
    + unfold copy_fs, get_fs. rewrite (bind_step _ _ (vs w) x (vs w)) by (unfold load; by rewrite Hx). rewrite (smod_small 32) by (done || (unfold is_s; lia)). by rewrite (bind_step _ _ _ _ _ E1).
    + intros t2 y. cbn [tables set_tables]. rewrite lookup_insert. case_decide; [intros [= <-]; cbn; lia|apply Hc].
  - destruct Ha as ((x & Hx & Hp) & Hf & Hl & Hset & Hr). destruct (copy_fs_ok _ _ t t' x l C Hx Hp Hf Hl Hset Hr) as (s' & E' & C' & K' & Ht & _). eapply step_table; [exact E'|exact C'|].
    intros t2 y Hy. destruct (decide (t2 = t)) as [->|Hne]; [rewrite Hy in Ht; injection Ht as _ ->; lia|]. rewrite K' in Hy by done. by apply (Hc t2).
  - by eapply step_table.
Qed.

Lemma put_fs_step t w : inv w -> allowed (PutFs t) w -> exists w', run (PutFs t) w = Ok w' /\ inv w'.
Proof.
  intros [C Hc] (x & Hx & Hq). destruct (put_fs_ok _ _ t x C Hx Hq) as (s' & E' & C' & K' & Ht). eapply step_table; [exact E'|exact C'|].
  intros t2 y Hy. destruct (decide (t2 = t)) as [->|Hne]; [|rewrite K' in Hy by done; by apply (Hc t2)]. rewrite Ht in Hy. specialize (Hc t x Hx). case_decide; [done|]. injection Hy as <-. cbn. lia.
Qed.

Lemma step_safe o w : inv w -> allowed o w -> exists w', run o w = Ok w' /\ inv w'.
Proof.
  intros Hi Ha. destruct o; try (by apply open_begin_step || by apply mkfifo_begin_step || by apply pipe_begin_step || by apply pipe_end_step || by apply open_end_step || by apply mkfifo_end_step
    || by apply copy_fs_step || by apply put_fs_step);
  try (destruct Ha as [L Hl]; apply (step_use _ (fun x => x.1.1) _ d); [done|]; by apply (use_begin_ok _ _ _ (proj1 Hi)));
  try (apply step_end; [done|]; by apply (use_end_ok _ _ _ (proj1 Hi)) || by apply (transfer_end_ok _ _ _ (proj1 Hi))).
  - destruct (file_close_ok _ _ _ (proj1 Hi) t Ha d) as (ret & s' & E' & C' & F'). by eapply step_frame.
  - destruct Ha as [L Hl]. apply (step_use _ fst _ d); [done|]. by apply (file_seek_begin_ok _ _ _ (proj1 Hi)).
  - destruct (file_seek_end_ok _ _ _ (proj1 Hi) t i Ha p ret seek) as (r & s' & E' & C' & F'). by eapply step_frame.
  - destruct Ha as [L Hr]. destruct (file_dup_ok _ _ _ (proj1 Hi) t d1 d2 L Hr) as (ret & s' & E' & C' & F'). by eapply step_frame.
Qed.

(** ** What holds of every run *)

Lemma runs_safe os w : inv w -> permitted os w -> exists w', runs os w = Ok w' /\ inv w'.
Proof.
  revert w. induction os as [|o os IH]; intros w Hi Hp; [by exists w|]. destruct Hp as [Ha Hp]. destruct (step_safe o w Hi Ha) as (w1 & E1 & H1). cbn [runs]. rewrite E1. by apply IH, Hp.
Qed.


(** One process, in the directory 7, with no file. *)
Definition init_world : world := World (VState {[7 := (1, 0)]} {[1 := FsStruct (Some 7) (filemap_init 0 empty_table) 1]} []) [].
Definition found (n : Z) : open_res := OpenRes (0, 7) (0, n) (0, n) 0 0.

Lemma init_inv : inv init_world.
Proof.
  split; [|intros t x; cbn [tables vs init_world]; rewrite lookup_singleton_Some; by intros [_ <-]]. cbn [tables vs under init_world].
  assert (Hc : forall n, cts (vs init_world) n = if decide (n = 7) then (1, 0) else (0, 0)).
  { intros n. unfold cts. cbn [inodes vs init_world]. case_decide; [subst; by rewrite lookup_singleton_eq|by rewrite lookup_singleton_ne]. }
  apply one_table_core; intros n; change (VState _ _ _) with (vs init_world); rewrite ?Hc, ?one_table_pwds; cbn [pwd].
  - by case_decide.
  - case_decide; [subst; by rewrite bool_decide_eq_true_2|]. by rewrite bool_decide_eq_false_2 by congruence.
  - by case_decide.
Qed.

Ltac forward := let w := fresh "w" in let E := fresh "E" in intros w E; vm_compute in E; injection E as <-.

(** A file is opened, read, and closed while the read is under way; the process exits. *)
Definition script : list op :=
  [FileOpen 1 O_RDWR; FileOpenDone 1 0 O_RDWR (found 9) (0, 0); FileRead 1 0; FileClose 1 0; FileReadDone 1 0 0 10; PutFs 1].

Lemma script_permitted : permitted script init_world.
Proof.
  split; [eexists; split; vm_compute; reflexivity|]. forward. split; [split_and!; [by left|by vm_compute..]|]. forward. split; [split; [eexists; split; vm_compute; reflexivity|by vm_compute]|].
    forward. split; [eexists; split; vm_compute; reflexivity|]. forward. split; [by left|]. forward. split; [eexists; split; [vm_compute; reflexivity|done]|]. forward. done.
Qed.


Lemma permitted_take k os w : permitted os w -> permitted (take k os) w.
Proof. revert os w. induction k as [|k IH]; intros [|o os] w H; [done..|]. destruct H as [Ha Hp]. split; [done|]. intros w' E. by apply IH, Hp. Qed.

(** After [k] steps of the script. *)
Definition at_step (k : nat) : world := match runs (take k script) init_world with Ok w => w | Err _ => init_world end.

Lemma at_step_inv k : inv (at_step k).
Proof. unfold at_step. destruct (runs_safe (take k script) init_world init_inv (permitted_take k _ _ script_permitted)) as (w & -> & Hw). exact Hw. Qed.

Lemma inv_live w t d f : inv w -> file_at (tables (vs w)) t d = Some f -> live (vs w) t.
Proof. intros [_ Hc] Hf. unfold file_at in Hf. destruct (tables (vs w) !! t) as [x|] eqn:Hx; [|done]. exists x. split; [done|]. by apply (Hc t). Qed.

Lemma fd2file_at s P E t d f : core (tables s) (cts s) P E -> live s t -> 0 <= d -> file_at (tables s) t d = Some f ->
  fd2file t d s = Ok (if decide (status f = FD_OPENED) then (0, Some d) else (- EINVAL, None), s).
Proof.
  intros C (x & Hx & Hc) Hd Hf. pose proof (file_at_range _ _ _ _ t d f C Hd Hf) as Hr. destruct (co_file _ _ _ _ C t d f Hd Hf) as [Hfd _].
  assert (Ht : testfd d = true) by (apply andb_true_iff; split; [apply Z.leb_le|apply Z.ltb_lt]; lia). unfold fd2file. rewrite Ht. rewrite (bind_step _ _ _ _ _ (get_filemap_ok s t x Hx Hc)), (bind_step _ _ _ _ _ (get_file_spec s t d f Hf)).
  rewrite Hfd, Z.eqb_refl, andb_true_r. case_decide; case_bool_decide; done.
Qed.

(** C12: closing a descriptor on which an operation is under way refuses new operations
    on it at once, but keeps the inode open until that operation returns; then the
    inode is closed once and the descriptor is free. *)
Theorem close_in_use w t d f n ret copied : inv w -> 0 <= d -> file_at (tables (vs w)) t d = Some f -> status f = FD_OPENED -> fnode f = Some n -> npend (under w) t d Using = 1 ->
  exists s1 s2, file_close t d (vs w) = Ok (0, s1) /\ snd (cts s1 n) = snd (cts (vs w) n) /\ fd2file t d s1 = Ok ((- EINVAL, None), s1) /\
    file_read_end t d ret copied s1 = Ok ((ret, copied), s2) /\ snd (cts s2 n) = snd (cts (vs w) n) - 1 /\ status <$> file_at (tables s2) t d = Some FD_NONE.
Proof.
  intros Hi Hd Hf Hs Hn Hu. pose proof (inv_live w t d f Hi Hf) as L. destruct Hi as [C Hc]. destruct (close_ok _ _ _ C t d f Hd Hf Hs) as (s1 & f1 & E1 & T1 & C1 & S1 & N1).
  rewrite decide_False in S1 by lia. assert (Hf1 : file_at (tables s1) t d = Some f1) by (rewrite T1; exact (at_with _ t d f f1 Hd Hf)).
  assert (L1 : live s1 t) by (eapply live_frame; [by eapply frame_with|exact L]). assert (Hh : forall g m, in_use g = true -> fnode g = Some m -> holds g m = true) by (intros g m G1 G2; unfold holds; rewrite G1, G2; by rewrite bool_decide_eq_true_2).
  assert (Hin : (t, d, Using) ∈ under w) by (apply npend_in; lia). destruct (release_ok _ _ _ C1 t d f1 Hin Hf1) as (s2 & f2 & E2 & T2 & C2 & S2). rewrite decide_True in S2 by done.
  assert (Hf2 : file_at (tables s2) t d = Some f2) by (rewrite T2; exact (at_with _ t d f1 f2 Hd Hf1)).
  assert (O1 : snd (cts s1 n) = snd (cts (vs w) n)).
  { rewrite (co_open _ _ _ _ C1), (co_open _ _ _ _ C), T1, (fds_with _ t d f f1 n Hf). rewrite !Hh; [lia|by apply bool_decide_eq_true_2; right|congruence|by apply bool_decide_eq_true_2; left|done]. }
  exists s1, s2. split_and!.
  - unfold file_close. rewrite (bind_step _ _ _ _ _ (fd2file_at _ _ _ t d f C L Hd Hf)). rewrite decide_True by done. cbv iota. by rewrite (bind_step _ _ _ _ _ E1).
  - exact O1.
  - rewrite (fd2file_at _ _ _ t d f1 C1 L1 Hd Hf1). by rewrite decide_False by (by rewrite S1).
  - unfold file_read_end, transfer_end. rewrite bind_assoc_M, (bind_step _ _ _ _ _ (upd_file_spec s1 t d f1 _ Hf1)). rewrite decide_False by (by rewrite S1).
    rewrite with_file_id by done. replace (set_tables (tables s1) s1) with s1 by (by destruct s1). by rewrite (bind_step _ _ _ _ _ E2).
  - rewrite <- O1. rewrite (co_open _ _ _ _ C2), (co_open _ _ _ _ C1), T2, (fds_with _ t d f1 f2 n Hf1). rewrite (Hh f1 n); [|by apply bool_decide_eq_true_2; right|congruence].
    unfold holds, in_use. rewrite S2. rewrite bool_decide_eq_false_2 by (by intros [|]). cbn [andb Z.b2z]. lia.
  - by rewrite Hf2, <- S2.
Qed.

Lemma close_in_use_witness : exists s1 s2, file_close 1 0 (vs (at_step 3)) = Ok (0, s1) /\ snd (cts s1 9) = 1 /\ fd2file 1 0 s1 = Ok ((- EINVAL, None), s1) /\
  file_read_end 1 0 0 10 s1 = Ok ((0, 10), s2) /\ snd (cts s2 9) = 0 /\ status <$> file_at (tables s2) 1 0 = Some FD_NONE.
Proof.
  destruct (close_in_use (at_step 3) 1 0 (File FD_OPENED true true 0 0 (Some 9) 2) 9 0 10 (at_step_inv 3)) as (s1 & s2 & E1 & O1 & E2 & E3 & O2 & S2); [done|vm_compute; reflexivity|done|done|vm_compute; reflexivity|].
  exists s1, s2. split; [exact E1|]. split; [rewrite O1; vm_compute; reflexivity|]. split; [exact E2|]. split; [exact E3|]. split; [rewrite O2; vm_compute; reflexivity|exact S2].
Defined.

(** A new descriptor is the lowest one that is free, and opening fails for want of
    descriptors only when all of them are taken. *)
Theorem open_lowest w t x flags : inv w -> tables (vs w) !! t = Some x -> access flags <> None ->
  exists ret oi s', file_open_begin t flags (vs w) = Ok ((ret, oi), s') /\
    match oi with
    | Some i => ret = 0 /\ (exists f, filemap x !! Z.to_nat i = Some f /\ status f = FD_NONE) /\ forall j f, (j < Z.to_nat i)%nat -> filemap x !! j = Some f -> status f <> FD_NONE
    | None => ret = - E_MAX_OPEN /\ forall f, f ∈ filemap x -> status f <> FD_NONE
    end.
Proof.
  intros [C Hc] Hx Ha. unfold file_open_begin. destruct (access flags); [|done]. unfold filemap_alloc. rewrite (bind_step _ _ _ _ _ (get_filemap_ok _ t x Hx (Hc t x Hx))). rewrite Z.eqb_refl.
  pose proof (find_none_spec (filemap x) 0) as Hf. destruct (find_none (filemap x) 0) as [i|] eqn:El; [|by exists (- E_MAX_OPEN), None, (vs w)].
  destruct Hf as (Hi & f & Hf & Hs). rewrite Z.sub_0_r in Hf. assert (Hat : file_at (tables (vs w)) t i = Some f) by (unfold file_at; rewrite Hx; exact Hf).
  rewrite (alloc_found_ok _ _ _ C t i f Hi Hat Hs). eexists 0, (Some i), _. split; [reflexivity|]. split; [done|]. split; [by exists f|]. intros j g Hj. apply (find_none_least (filemap x) 0 i El). lia.
Qed.

Lemma open_lowest_witness : exists ret oi s', file_open_begin 1 O_RDWR (vs (at_step 2)) = Ok ((ret, oi), s') /\ match oi with Some i => ret = 0 | None => ret = - E_MAX_OPEN end.
Proof.
  destruct (tables (vs (at_step 2)) !! 1) as [x|] eqn:Hx; [|by vm_compute in Hx]. destruct (open_lowest (at_step 2) 1 x O_RDWR (at_step_inv 2) Hx ltac:(by vm_compute)) as (ret & oi & s' & E & H).
  exists ret, oi, s'. split; [exact E|]. destruct oi; apply H.
Defined.

(** ** Fork *)

(** C13: a child forked with a table of its own gets every open descriptor of the parent
    under the same number, for the same inode, at the same position and with the same
    access, and the parent's directory; the parent's table is as it was. *)
Theorem fork_copies w t t' x l : inv w -> tables (vs w) !! t' = Some x -> tables (vs w) !! t = None -> Z.of_nat (length l) = FS_STRUCT_NENTRY -> settled (tables (vs w)) t' ->
  (forall n, fst (cts (vs w) n) + 1 + FS_STRUCT_NENTRY < MAX_COUNT) ->
  exists s', copy_fs false t' t (Some l) (vs w) = Ok ((0, t), s') /\ inv (World s' (under w)) /\ (forall t2, t2 <> t -> tables s' !! t2 = tables (vs w) !! t2) /\
    (fun y => (pwd y, fs_count y)) <$> tables s' !! t = Some (pwd x, 1) /\
    forall j g, 0 <= j -> file_at (tables (vs w)) t' j = Some g -> exists f, file_at (tables s') t j = Some f /\ copied j f g.
Proof.
  intros Hi Hx Hf Hl Hset Hr. destruct Hi as [C Hc]. destruct (copy_fs_ok _ _ t t' x l C Hx (Hc t' x Hx) Hf Hl Hset Hr) as (s' & E' & C' & K' & Ht & D'). exists s'. split; [exact E'|]. split; [|done].
  split; [exact C'|]. cbn [vs]. intros t2 y Hy. destruct (decide (t2 = t)) as [->|Hne]; [rewrite Hy in Ht; injection Ht as _ ->; lia|]. rewrite K' in Hy by done. by apply (Hc t2).
Qed.

Definition settledb (x : fs_struct) : bool := forallb (fun f => bool_decide (status f = FD_NONE \/ status f = FD_OPENED)) (filemap x).
Lemma settledb_settled m t x : m !! t = Some x -> settledb x = true -> settled m t.
Proof.
  intros Hx Hb i f _ Hf. unfold file_at in Hf. rewrite Hx in Hf. unfold settledb in Hb. rewrite forallb_forall in Hb. apply list_elem_of_lookup_2, list_elem_of_In, Hb in Hf. by apply bool_decide_eq_true_1 in Hf.
Qed.

Definition few_refs (s : vstate) : bool := forallb (fun p => fst p.2 + 1 + FS_STRUCT_NENTRY <? MAX_COUNT) (map_to_list (inodes s)).
Lemma few_refs_spec s n : few_refs s = true -> fst (cts s n) + 1 + FS_STRUCT_NENTRY < MAX_COUNT.
Proof.
  intros Hb. unfold cts. destruct (inodes s !! n) as [p|] eqn:Hp; [|done]. unfold few_refs in Hb. rewrite forallb_forall in Hb. apply elem_of_map_to_list, list_elem_of_In, Hb in Hp. by apply Z.ltb_lt in Hp.
Qed.

Lemma fork_copies_witness : exists s', copy_fs false 1 2 (Some empty_table) (vs (at_step 2)) = Ok ((0, 2), s') /\ inv (World s' []) /\ fnode <$> file_at (tables s') 2 0 = Some (Some 9).
Proof.
  destruct (tables (vs (at_step 2)) !! 1) as [x|] eqn:Hx; [|by vm_compute in Hx].
  destruct (fork_copies (at_step 2) 2 1 x empty_table (at_step_inv 2) Hx ltac:(by vm_compute) ltac:(by vm_compute)) as (s' & E & Hi & _ & _ & D).
  - apply (settledb_settled _ _ x Hx). vm_compute in Hx. injection Hx as <-. by vm_compute.
  - intros n. apply few_refs_spec. by vm_compute.
  - exists s'. split; [exact E|]. split; [exact Hi|]. destruct (D 0 (File FD_OPENED true true 0 0 (Some 9) 1) ltac:(lia) ltac:(by vm_compute)) as (f & -> & Hcp). cbn in Hcp. destruct Hcp as (_ & _ & _ & Hn & _). cbn. by rewrite Hn.
Defined.

(** Forking while another thread of the process is opening a file (its descriptor
    is taken and the file not yet open) fails an assertion. *)
Theorem fork_while_opening w t t' x l i g : inv w -> tables (vs w) !! t' = Some x -> tables (vs w) !! t = None -> Z.of_nat (length l) = FS_STRUCT_NENTRY ->
  (forall n, fst (cts (vs w) n) + 1 + FS_STRUCT_NENTRY < MAX_COUNT) -> 0 <= i -> file_at (tables (vs w)) t' i = Some g -> status g = FD_INIT ->
  (forall j h, 0 <= j < i -> file_at (tables (vs w)) t' j = Some h -> status h = FD_NONE \/ status h = FD_OPENED) -> run (CopyFs false t' t (Some l)) w = Err AssertFailed.
Proof.
  intros [C Hc] Hx Hf Hl Hr Hi Hg Hs Hb. cbn [run]. unfold exec. by rewrite (copy_init_panics _ _ t t' x l C Hx (Hc t' x Hx) Hf Hl Hr i g Hi Hg Hs Hb).
Qed.

Lemma fork_while_opening_witness : run (CopyFs false 1 2 (Some empty_table)) (at_step 1) = Err AssertFailed.
Proof.
  destruct (tables (vs (at_step 1)) !! 1) as [x|] eqn:Hx; [|by vm_compute in Hx].
  apply (fork_while_opening (at_step 1) 2 1 x empty_table 0 (File FD_INIT false false 0 0 None 0) (at_step_inv 1) Hx); [by vm_compute|by vm_compute| |lia|by vm_compute|done|lia].
  intros n. apply few_refs_spec. by vm_compute.
Defined.

(** A process forks while a thread reads a file that another has closed; the child
    gets the descriptor as closed and in use by nobody, and its exit fails an
    assertion. *)
Theorem fork_of_closed : runs [FileOpen 1 O_RDWR; FileOpenDone 1 0 O_RDWR (found 9) (0, 0); FileRead 1 0; FileClose 1 0; CopyFs false 1 2 (Some empty_table); PutFs 2] init_world = Err AssertFailed.
Proof. vm_compute. reflexivity. Qed.

(** Closing all files but the first three closes the third and keeps the last. *)
Theorem closeall_off_by_one : let s := vs (at_step 2) in
  exists s', (_ ← file_dup 1 0 2; _ ← file_dup 1 0 3; _ ← file_dup 1 0 (FS_STRUCT_NENTRY - 1); fs_closeall 1) s = Ok (tt, s') /\
    (fun d => status <$> file_at (tables s') 1 d) <$> [0; 2; 3; FS_STRUCT_NENTRY - 1] = [Some FD_OPENED; Some FD_NONE; Some FD_NONE; Some FD_OPENED].
Proof. eexists. split; [vm_compute; reflexivity|]. vm_compute. reflexivity. Qed.
