(* ===== verification/Vfs.v ===== *)
(** * Vfs: devices, paths and the operations on names (fs/vfs)

    The virtual file system keeps the list of devices with what is mounted on them and
    translates a path to an inode: first where to start (the current directory, a
    device or the boot file system), then through the file system that starts there.
    What the file systems do is the interface [FileSystems]; the inodes and tables are
    those of [Files].  A routine holds the semaphore of the list it walks from begin
    to end; it is one definition. *)

From Stdlib Require Import Ascii.
From stdpp Require Import numbers strings gmap list.
From S2P Require Import Prelude Files.
Local Open Scope Z_scope.

Abbreviation path := (list ascii).
Definition COLON : ascii := ":"%char.
Definition SLASH : ascii := "/"%char.

Definition ENOENT : Z := 2.
Definition E_XDEV : Z := 18.
Definition E_NO_DEV : Z := 19.
Definition E_NA_DEV : Z := 16.
Definition E_NOTDIR : Z := 20.
Definition E_EXISTS : Z := 17.
Definition E_TOO_BIG : Z := 27.
Definition FS_MAX_DNAME_LEN : Z := 31.

(** ** Data *)

(** Calls into a file system. *)
Inductive vop :=
| VopUnlink (dir : Z) (name : path)
| VopRename (dir : Z) (name : path) (new_dir : Z) (new_name : path)
| VopLink (dir : Z) (name : path) (node : Z)
| VopSymlink (dir : Z) (name target : path)
| VopReadlink (node : Z)
| VopMkdir (dir : Z) (name : path)
| VopNamefile (node : Z)
| FsopSync (fs : Z)
| FsopUnmount (fs : Z)
| FsopCleanup (fs : Z).

(** What the file systems answer: the file system of an inode, whether it is that of a
    device, the inode of a root, lookups (a result and the inode, for [lookup_parent]
    also the last name; they may fail an assertion, see [pipe_root_lookup]), the type of
    an inode (a result and whether it is a directory), results of other calls. *)
Class FileSystems := {
  in_fs : Z -> option Z;
  is_device : Z -> bool;
  fsop_get_root : Z -> Z;
  lookup : Z -> path -> outcome (Z * Z);
  lookup_parent : Z -> path -> outcome (Z * Z * path);
  gettype : Z -> Z * bool;
  answer : vop -> Z }.

Record vfs_dev := VfsDev { devname : path; devnode : option Z; fs : option Z; mountable : bool }.
Record file_system_type := FsType { fsname : path; fsmount : Z }.
Record vfs := Vfs { base : vstate; vdev_list : list vfs_dev; bootfs_node : option Z; file_system_type_list : list file_system_type; vops : list vop }.

Definition set_base (b : vstate) (s : vfs) : vfs := Vfs b (vdev_list s) (bootfs_node s) (file_system_type_list s) (vops s).
Definition set_devs (l : list vfs_dev) (s : vfs) : vfs := Vfs (base s) l (bootfs_node s) (file_system_type_list s) (vops s).
Definition set_boot (n : option Z) (s : vfs) : vfs := Vfs (base s) (vdev_list s) n (file_system_type_list s) (vops s).
Definition set_types (l : list file_system_type) (s : vfs) : vfs := Vfs (base s) (vdev_list s) (bootfs_node s) l (vops s).
Definition add_vop (o : vop) (s : vfs) : vfs := Vfs (base s) (vdev_list s) (bootfs_node s) (file_system_type_list s) (o :: vops s).
Definition set_fs (f : option Z) (d : vfs_dev) : vfs_dev := VfsDev (devname d) (devnode d) f (mountable d).

(** Routines on the inodes and tables. *)
Definition node {A} (c : M vstate A) : M vfs A :=
  fun s => match c (base s) with Ok (a, b) => Ok (a, set_base b s) | Err e => Err e end.

(** A call into a file system that may fail an assertion there. *)
Definition ask {A} (o : outcome A) : M vfs A := fun s => match o with Ok a => Ok (a, s) | Err e => Err e end.

(** ** The names of pipes (fs/pipe/pipe_root.c) *)

Definition pipe_name (p : path) : bool :=
  match p with c :: d :: _ => (bool_decide (c = "r"%char) || bool_decide (c = "w"%char)) && bool_decide (d = "_"%char) | _ => false end.

(** The pipes that are open: the name, whether it is the end for reading, the inode. *)
Definition lookup_pipe (l : list (path * bool * Z)) (name : path) (readonly : bool) : option Z :=
  snd ∘ snd <$> list_find (fun x => fst x = (name, readonly)) l.
Definition pipe_root_lookup (l : list (path * bool * Z)) (p : path) : outcome (Z * Z) :=
  if pipe_name p then Ok (match lookup_pipe l (drop 2 p) (bool_decide (head p = Some "r"%char)) with Some n => (0, n) | None => (- ENOENT, 0) end)
  else Err AssertFailed.
Definition pipe_root_lookup_parent (n : Z) (p : path) : outcome (Z * Z * path) := if pipe_name p then Ok (0, n, p) else Err AssertFailed.

Section vfs.
Context `{FileSystems}.

(** A call of the operation [o] of the inode [n], and of a file system. *)
Definition call (n : Z) (o : vop) : M vfs Z := _ ← node (vop_check n); _ ← modify (add_vop o); mret (answer o).
Definition fsop (o : vop) : M vfs Z := _ ← modify (add_vop o); mret (answer o).
Definition get_root (f : Z) : M vfs Z := _ ← node (obtain (fsop_get_root f)); mret (fsop_get_root f).

(** ** The current directory (vfspath.c) *)

(** [t]: the table of the current process. *)
Definition get_cwd_nolock (t : Z) : M vfs (option Z) := x ← node (get_fs t); mret (pwd x).
Definition set_cwd_nolock (t : Z) (n : option Z) : M vfs unit :=
  node (x ← get_fs t; modify (fun s => set_tables (<[t := FsStruct n (filemap x) (fs_count x)]> (tables s)) s)).

Definition vfs_get_curdir (t : Z) : M vfs (Z * Z) :=
  o ← get_cwd_nolock t;
  match o with Some n => _ ← node (vop_ref_inc n); mret (0, n) | None => mret (- ENOENT, 0) end.

Definition vfs_set_curdir (t : Z) (dir : option Z) : M vfs Z :=
  old ← get_cwd_nolock t;
  if decide (old = dir) then mret 0
  else
    ret ← (match dir with
           | Some n =>
               _ ← node (vop_check n);
               let '(ret, isdir) := gettype n in
               if negb (ret =? 0) then mret ret
               else if negb isdir then mret (- E_NOTDIR)
               else _ ← node (vop_ref_inc n); mret 0
           | None => mret 0
           end);
    if negb (ret =? 0) then mret ret
    else
      _ ← set_cwd_nolock t dir;
      _ ← (match old with Some n => node (vop_ref_dec n) | None => mret tt end);
      mret 0.

(** ** Devices (vfsdev.c) *)

Fixpoint find_dev (p : vfs_dev -> bool) (l : list vfs_dev) : option vfs_dev :=
  match l with [] => None | d :: l => if p d then Some d else find_dev p l end.
Definition named (name : path) (d : vfs_dev) : bool := bool_decide (devname d = name).

Definition vfs_get_root (name : path) : M vfs (Z * Z) :=
  l ← gets vdev_list;
  match find_dev (named name) l with
  | None => mret (- E_NO_DEV, 0)
  | Some d =>
      match fs d with
      | Some f => n ← get_root f; mret (0, n)
      | None =>
          if mountable d then mret (- E_NA_DEV, 0)
          else match devnode d with Some n => _ ← node (vop_ref_inc n); mret (0, n) | None => fail BadAccess end
      end
  end.

Definition vfs_get_devname (f : Z) : M vfs (option path) :=
  l ← gets vdev_list; mret (devname <$> find_dev (fun d => bool_decide (fs d = Some f)) l).

Definition check_devname_conflict (name : path) (l : list vfs_dev) : bool := forallb (fun d => negb (named name d)) l.

(** [mem]: memory for the name and for the entry. *)
Definition vfs_do_add (name : path) (n f : option Z) (mnt : bool) (mem : bool * bool) : M vfs Z :=
  _ ← kassert (bool_decide (n = None) && negb mnt || from_option is_device false n);
  if FS_MAX_DNAME_LEN <? Z.of_nat (length name) then mret (- E_TOO_BIG)
  else if negb (fst mem && snd mem) then mret (- ENOMEM)
  else
    l ← gets vdev_list;
    if negb (check_devname_conflict name l) then mret (- E_EXISTS)
    else _ ← modify (set_devs (VfsDev name n f mnt :: l)); mret 0.
Definition vfs_add_fs (name : path) (f : Z) (mem : bool * bool) : M vfs Z := vfs_do_add name None (Some f) false mem.
Definition vfs_add_dev (name : path) (n : Z) (mnt : bool) (mem : bool * bool) : M vfs Z := vfs_do_add name (Some n) None mnt mem.

(** The device that [find_mount] finds, replaced by [g] of it. *)
Definition mount_name (name : path) (d : vfs_dev) : bool := mountable d && named name d.
Definition find_mount (name : path) : M vfs (option vfs_dev) := l ← gets vdev_list; mret (find_dev (mount_name name) l).
Fixpoint upd_dev (p : vfs_dev -> bool) (g : vfs_dev -> vfs_dev) (l : list vfs_dev) : list vfs_dev :=
  match l with [] => [] | d :: l => if p d then g d :: l else d :: upd_dev p g l end.

(** [mountfunc] returns a result and the file system. *)
Definition vfs_mount (name : path) (mountfunc : Z -> Z * Z) : M vfs Z :=
  o ← find_mount name;
  match o with
  | None => mret (- E_NO_DEV)
  | Some d =>
      if decide (fs d <> None) then mret (- EBUSY)
      else
        match devnode d with
        | None => fail AssertFailed
        | Some n =>
            _ ← kassert (is_device n);
            let '(ret, f) := mountfunc n in
            _ ← (if ret =? 0 then modify (fun s => set_devs (upd_dev (mount_name name) (set_fs (Some f)) (vdev_list s)) s) else mret tt);
            mret ret
        end
  end.

Definition vfs_unmount (name : path) : M vfs Z :=
  o ← find_mount name;
  match o with
  | None => mret (- E_NO_DEV)
  | Some d =>
      match fs d with
      | None => mret (- EINVAL)
      | Some f =>
          ret ← fsop (FsopSync f);
          if negb (ret =? 0) then mret ret
          else
            ret ← fsop (FsopUnmount f);
            _ ← (if ret =? 0 then modify (fun s => set_devs (upd_dev (mount_name name) (set_fs None) (vdev_list s)) s) else mret tt);
            mret ret
      end
  end.

(** The loops over all devices. *)
Fixpoint each_fs (o : Z -> vop) (l : list vfs_dev) : M vfs unit :=
  match l with
  | [] => mret tt
  | d :: l => _ ← (match fs d with Some f => _ ← fsop (o f); mret tt | None => mret tt end); each_fs o l
  end.
Definition vfs_sync : M vfs Z := l ← gets vdev_list; _ ← each_fs FsopSync l; mret 0.
Definition vfs_cleanup : M vfs unit := l ← gets vdev_list; each_fs FsopCleanup l.

Fixpoint unmount_loop (l : list vfs_dev) : M vfs (list vfs_dev) :=
  match l with
  | [] => mret []
  | d :: l =>
      d' ← (match fs d with
            | Some f =>
                if mountable d then
                  ret ← fsop (FsopSync f);
                  if negb (ret =? 0) then mret d
                  else ret ← fsop (FsopUnmount f); mret (if ret =? 0 then set_fs None d else d)
                else mret d
            | None => mret d
            end);
      l' ← unmount_loop l;
      mret (d' :: l')
  end.
Definition vfs_unmount_all : M vfs Z := l ← gets vdev_list; l' ← unmount_loop l; _ ← modify (set_devs l'); mret 0.

(** ** Boot file system and types of file systems (vfs.c) *)

Definition vfs_get_bootfs : M vfs (Z * Z) :=
  o ← gets bootfs_node;
  match o with Some n => _ ← node (vop_ref_inc n); mret (0, n) | None => mret (- ENOENT, 0) end.
Definition change_bootfs (n : option Z) : M vfs unit :=
  old ← gets bootfs_node;
  _ ← modify (set_boot n);
  match old with Some m => node (vop_ref_dec m) | None => mret tt end.

Definition register_filesystem (name : path) (mount : Z) (mem : bool * bool) : M vfs Z :=
  if FS_MAX_DNAME_LEN <? Z.of_nat (length name) then mret (- E_TOO_BIG)
  else if negb (fst mem && snd mem) then mret (- ENOMEM)
  else
    l ← gets file_system_type_list;
    if existsb (fun x => bool_decide (fsname x = name)) l then mret (- E_EXISTS)
    else _ ← modify (set_types (FsType name mount :: l)); mret 0.
Fixpoint del_type (name : path) (l : list file_system_type) : list file_system_type :=
  match l with [] => [] | x :: l => if bool_decide (fsname x = name) then l else x :: del_type name l end.
Definition unregister_filesystem (name : path) : M vfs Z :=
  l ← gets file_system_type_list;
  if existsb (fun x => bool_decide (fsname x = name)) l then _ ← modify (set_types (del_type name l)); mret 0 else mret (- E_EXISTS).

(** [mount]: the routines that file systems register. *)
Definition find_type (name : path) (l : list file_system_type) : option file_system_type := snd <$> list_find (fun x => fsname x = name) l.
Definition do_mount (mount : Z -> path -> M vfs Z) (dev name : path) : M vfs Z :=
  l ← gets file_system_type_list;
  match find_type name l with Some x => mount (fsmount x) dev | None => mret (- E_EXISTS) end.
Definition do_umount (dev : path) : M vfs Z := vfs_unmount dev.

(** ** Paths (vfslookup.c) *)

(** The first colon or slash, and its index. *)
Fixpoint scan (p : path) (i : Z) : option (ascii * Z) :=
  match p with
  | [] => None
  | c :: p => if decide (c = COLON) then Some (COLON, i) else if decide (c = SLASH) then Some (SLASH, i) else scan p (i + 1)
  end.
Fixpoint skip_slashes (p : path) : path := match p with c :: q => if decide (c = SLASH) then skip_slashes q else p | [] => [] end.

Definition get_device (t : Z) (p : path) : M vfs (Z * Z * path) :=
  let colon := match scan p 0 with Some (c, i) => if decide (c = COLON) then i else -1 | None => -1 end in
  let slash := match scan p 0 with Some (c, i) => if decide (c = SLASH) then i else -1 | None => -1 end in
  if (colon <? 0) && negb (slash =? 0) then '(ret, n) ← vfs_get_curdir t; mret (ret, n, p)
  else if 0 <? colon then
    '(ret, n) ← vfs_get_root (take (Z.to_nat colon) p); mret (ret, n, skip_slashes (drop (Z.to_nat (colon + 1)) p))
  else
    '(ret, n) ← (if decide (head p = Some SLASH) then vfs_get_bootfs
                 else
                   _ ← kassert (bool_decide (head p = Some COLON));
                   '(ret, n) ← vfs_get_curdir t;
                   if negb (ret =? 0) then mret (ret, n)
                   else
                     match in_fs n with
                     | None => fail AssertFailed
                     | Some f => r ← get_root f; _ ← node (vop_ref_dec n); mret (0, r)
                     end);
    mret (ret, n, skip_slashes (tail p)).

(** An inode that a file system returned. *)
Definition taken (ret n : Z) : M vfs unit := if ret =? 0 then node (obtain n) else mret tt.

Definition vfs_lookup (t : Z) (p : path) : M vfs (Z * Z) :=
  '(ret, n, sub) ← get_device t p;
  if negb (ret =? 0) then mret (ret, 0)
  else if decide (sub = []) then mret (0, n)
  else
    _ ← node (vop_check n);
    '(ret, m) ← ask (lookup n sub);
    _ ← taken ret m;
    _ ← node (vop_ref_dec n);
    mret (ret, m).

Definition vfs_lookup_parent (t : Z) (p : path) : M vfs (Z * Z * path) :=
  '(ret, n, sub) ← get_device t p;
  if negb (ret =? 0) then mret (ret, 0, [])
  else
    '(ret, m, name) ← (if decide (sub = []) then mret (- EINVAL, 0, [])
                       else
                         _ ← node (vop_check n);
                         '(ret, m, name) ← ask (lookup_parent n sub);
                         _ ← taken ret m;
                         mret (ret, m, name));
    _ ← node (vop_ref_dec n);
    mret (ret, m, name).

(** ** Operations on names (vfsfile.c) *)

Definition vfs_unlink (t : Z) (p : path) : M vfs Z :=
  '(ret, dir, name) ← vfs_lookup_parent t p;
  if negb (ret =? 0) then mret ret
  else ret ← call dir (VopUnlink dir name); _ ← node (vop_ref_dec dir); mret ret.
Definition vfs_mkdir (t : Z) (p : path) : M vfs Z :=
  '(ret, dir, name) ← vfs_lookup_parent t p;
  if negb (ret =? 0) then mret ret
  else ret ← call dir (VopMkdir dir name); _ ← node (vop_ref_dec dir); mret ret.
Definition vfs_symlink (t : Z) (old_path p : path) : M vfs Z :=
  '(ret, dir, name) ← vfs_lookup_parent t p;
  if negb (ret =? 0) then mret ret
  else ret ← call dir (VopSymlink dir name old_path); _ ← node (vop_ref_dec dir); mret ret.
Definition vfs_readlink (t : Z) (p : path) : M vfs Z :=
  '(ret, n) ← vfs_lookup t p;
  if negb (ret =? 0) then mret ret
  else ret ← call n (VopReadlink n); _ ← node (vop_ref_dec n); mret ret.

Definition same_fs (a b : Z) : bool := bool_decide (in_fs a <> None) && bool_decide (in_fs a = in_fs b).
Definition vfs_rename (t : Z) (old_path new_path : path) : M vfs Z :=
  '(ret, old_dir, old_name) ← vfs_lookup_parent t old_path;
  if negb (ret =? 0) then mret ret
  else
    '(ret, new_dir, new_name) ← vfs_lookup_parent t new_path;
    if negb (ret =? 0) then _ ← node (vop_ref_dec old_dir); mret ret
    else
      ret ← (if same_fs old_dir new_dir then call old_dir (VopRename old_dir old_name new_dir new_name) else mret (- E_XDEV));
      _ ← node (vop_ref_dec old_dir);
      _ ← node (vop_ref_dec new_dir);
      mret ret.
Definition vfs_link (t : Z) (old_path new_path : path) : M vfs Z :=
  '(ret, old_node) ← vfs_lookup t old_path;
  if negb (ret =? 0) then mret ret
  else
    '(ret, new_dir, new_name) ← vfs_lookup_parent t new_path;
    if negb (ret =? 0) then _ ← node (vop_ref_dec old_node); mret ret
    else
      ret ← (if same_fs old_node new_dir then call new_dir (VopLink new_dir new_name old_node) else mret (- E_XDEV));
      _ ← node (vop_ref_dec old_node);
      _ ← node (vop_ref_dec new_dir);
      mret ret.

Definition vfs_chdir (t : Z) (p : path) : M vfs Z :=
  '(ret, n) ← vfs_lookup t p;
  if ret =? 0 then ret ← vfs_set_curdir t (Some n); _ ← node (vop_ref_dec n); mret ret else mret ret.

(** [moved]: the results of copying the name of the device and the colon. *)
Definition vfs_getcwd (t : Z) (moved : Z * Z) : M vfs Z :=
  '(ret, n) ← vfs_get_curdir t;
  if negb (ret =? 0) then mret ret
  else
    match in_fs n with
    | None => fail AssertFailed
    | Some f =>
        o ← vfs_get_devname f;
        match o with
        | None => fail BadAccess
        | Some _ =>
            ret ← (if negb (fst moved =? 0) then mret (fst moved)
                   else if negb (snd moved =? 0) then mret (snd moved)
                   else call n (VopNamefile n));
            _ ← node (vop_ref_dec n);
            mret ret
        end
    end.

Definition vfs_set_bootfs (t : Z) (name : option path) : M vfs Z :=
  match name with
  | None => _ ← change_bootfs None; mret 0
  | Some p =>
      if negb (bool_decide (list_find (eq COLON) p = Some ((length p - 1)%nat, COLON))) then mret (- EINVAL)
      else
        ret ← vfs_chdir t p;
        if negb (ret =? 0) then mret ret
        else
          '(ret, n) ← vfs_get_curdir t;
          if negb (ret =? 0) then mret ret else _ ← change_bootfs (Some n); mret 0
  end.
End vfs.
