(* ===== verification/VfsPath.v ===== *)
(** * VfsPath: the grammar of paths and the references a lookup takes *)

From Stdlib Require Import Ascii.
From stdpp Require Import numbers strings gmap list.
From S2P Require Import Prelude Files FilesInv Vfs.
Local Open Scope Z_scope.

(** ** Grammar *)

(** Where a path starts: at the current directory, at a device, at the boot file system, or
    at the root of the current file system. *)
Inductive start := Here (p : path) | Dev (name p : path) | Boot (p : path) | Root (p : path).

Definition plain (a : path) : Prop := COLON ∉ a /\ SLASH ∉ a.
Definition slashes (a : path) : Prop := Forall (eq SLASH) a.
Definition unslashed (q : path) : Prop := head q <> Some SLASH.

Inductive spells : path -> start -> Prop :=
| spells_name a : plain a -> spells a (Here a)
| spells_relative a q : plain a -> a <> [] -> spells (a ++ SLASH :: q) (Here (a ++ SLASH :: q))
| spells_dev d sl q : plain d -> d <> [] -> slashes sl -> unslashed q -> spells (d ++ COLON :: sl ++ q) (Dev d q)
| spells_boot sl q : slashes sl -> unslashed q -> spells (SLASH :: sl ++ q) (Boot q)
| spells_root sl q : slashes sl -> unslashed q -> spells (COLON :: sl ++ q) (Root q).

Lemma plain_cons c a : plain (c :: a) <-> c <> COLON /\ c <> SLASH /\ plain a.
Proof. unfold plain. rewrite !not_elem_of_cons. naive_solver. Qed.

Lemma skip_slashes_app sl q : slashes sl -> unslashed q -> skip_slashes (sl ++ q) = q.
Proof.
  intros Hs Hq. induction Hs as [|c sl <- Hs IH]; cbn; [|by rewrite decide_True]. destruct q as [|c q]; [done|]. cbn. rewrite decide_False; [done|]. intros ->. by apply Hq.
Qed.

Lemma skip_split p : exists sl, slashes sl /\ p = sl ++ skip_slashes p /\ unslashed (skip_slashes p).
Proof.
  induction p as [|c p (sl & Hs & E & Hu)]; [by exists []; repeat constructor|]. cbn. destruct (decide (c = SLASH)) as [->|Hc].
  - exists (SLASH :: sl). split; [by constructor|]. split; [cbn; by f_equal|done].
  - exists []. split; [constructor|]. split; [done|]. intros [= ->]. done.
Qed.

Lemma scan_plain a i : plain a -> scan a i = None.
Proof. revert i. induction a as [|c a IH]; intros i Ha; [done|]. apply plain_cons in Ha as (H1 & H2 & Ha). cbn. rewrite !decide_False by done. by apply IH. Qed.

Lemma scan_app a c q i : plain a -> c = COLON \/ c = SLASH -> scan (a ++ c :: q) i = Some (c, i + Z.of_nat (length a)).
Proof.
  revert i. induction a as [|b a IH]; intros i Ha Hc.
  - cbn. rewrite Z.add_0_r. destruct Hc as [->| ->]; [by rewrite decide_True|]. rewrite decide_False by done. by rewrite decide_True.
  - apply plain_cons in Ha as (H1 & H2 & Ha). cbn [app scan]. rewrite !decide_False by done. rewrite IH by done. do 2 f_equal. cbn [length]. lia.
Qed.

Lemma scan_split p : plain p \/ exists a c q, p = a ++ c :: q /\ plain a /\ (c = COLON \/ c = SLASH).
Proof.
  induction p as [|c p [Hp|(a & b & q & -> & Ha & Hb)]].
  - left. split; apply not_elem_of_nil.
  - destruct (decide (c = COLON)) as [->|H1]; [right; exists [], COLON, p; split; [done|]; split; [split; apply not_elem_of_nil|by left]|].
    destruct (decide (c = SLASH)) as [->|H2]; [right; exists [], SLASH, p; split; [done|]; split; [split; apply not_elem_of_nil|by right]|]. left. by apply plain_cons.
  - right. destruct (decide (c = COLON)) as [->|H1]; [exists [], COLON, (a ++ b :: q); split; [done|]; split; [split; apply not_elem_of_nil|by left]|].
    destruct (decide (c = SLASH)) as [->|H2]; [exists [], SLASH, (a ++ b :: q); split; [done|]; split; [split; apply not_elem_of_nil|by right]|].
    exists (c :: a), b, q. split; [done|]. split; [by apply plain_cons|done].
Qed.

Lemma spells_total p : exists st, spells p st.
Proof.
  destruct (scan_split p) as [Hp|(a & c & q & -> & Ha & Hc)]; [eexists; by apply spells_name|]. destruct (skip_split q) as (sl & Hs & E & Hu). destruct a as [|b a].
  - destruct Hc as [->| ->]; [exists (Root (skip_slashes q))|exists (Boot (skip_slashes q))]; rewrite E at 1; by constructor.
  - destruct Hc as [->| ->]; [exists (Dev (b :: a) (skip_slashes q)); rewrite E at 1; by apply spells_dev|eexists; by apply spells_relative].
Qed.

Lemma scan_some p c i : scan p 0 = Some (c, i) -> 0 <= i /\ (c = COLON \/ c = SLASH) /\ (i = 0 -> head p = Some c).
Proof.
  destruct (scan_split p) as [Hp|(a & b & q & -> & Ha & Hb)]; [by rewrite scan_plain|]. rewrite scan_app by done. intros [= -> <-]. split; [lia|]. split; [done|]. destruct a; [done|]. cbn [length]. lia.
Qed.

(** The kind of a path, computed. *)
Definition parse (p : path) : start :=
  match scan p 0 with
  | None => Here p
  | Some (c, i) =>
      if decide (c = SLASH) then if decide (i = 0) then Boot (skip_slashes (tail p)) else Here p
      else if decide (i = 0) then Root (skip_slashes (tail p))
      else Dev (take (Z.to_nat i) p) (skip_slashes (drop (Z.to_nat (i + 1)) p))
  end.

Lemma spells_parse p st : spells p st -> st = parse p.
Proof.
  intros Hp. unfold parse. destruct Hp as [a Ha|a q Ha Hn|d sl q Hd Hn Hs Hu|sl q Hs Hu|sl q Hs Hu].
  - by rewrite scan_plain by done.
  - rewrite scan_app by (done || by right). rewrite decide_True by done. destruct a as [|c a]; [done|]. rewrite decide_False by (cbn [length]; lia). done.
  - rewrite scan_app by (done || by left). rewrite decide_False by done. destruct d as [|c d]; [done|]. set (k := Z.of_nat (length (c :: d))). assert (Hk : 0 < k) by (unfold k; cbn [length]; lia).
    rewrite decide_False by lia. replace (Z.to_nat (0 + k)) with (length (c :: d)) by lia. rewrite take_app_length.
    replace (Z.to_nat (0 + k + 1)) with (length ((c :: d) ++ [COLON])) by (rewrite length_app; cbn [length]; unfold k; cbn [length]; lia).
    rewrite (cons_middle COLON (c :: d) (sl ++ q)), app_assoc, drop_app_length. by rewrite skip_slashes_app.
  - cbn [scan]. rewrite decide_False by done. rewrite decide_True by done. rewrite !decide_True by done. cbn [tail]. by rewrite skip_slashes_app.
  - cbn [scan]. rewrite decide_True by done. rewrite decide_False, decide_True by done. cbn [tail]. by rewrite skip_slashes_app.
Qed.

Section paths.
Context `{FileSystems}.

(** The beginning of a lookup, from the kind of path. *)
Definition begin (t : Z) (st : start) : M vfs (Z * Z * path) :=
  match st with
  | Here q => '(ret, n) ← vfs_get_curdir t; mret (ret, n, q)
  | Dev d q => '(ret, n) ← vfs_get_root d; mret (ret, n, q)
  | Boot q => '(ret, n) ← vfs_get_bootfs; mret (ret, n, q)
  | Root q =>
      '(ret, n) ← vfs_get_curdir t;
      if negb (ret =? 0) then mret (ret, n, q)
      else match in_fs n with None => fail AssertFailed | Some f => r ← get_root f; _ ← node (vop_ref_dec n); mret (0, r, q) end
  end.

(** The inode it begins at, and what is left of the path. *)
Definition start_node (t : Z) (s : vfs) (st : start) : option Z :=
  match st with
  | Here _ => tables (base s) !! t ≫= pwd
  | Dev d _ =>
      x ← find_dev (named d) (vdev_list s);
      match fs x with Some f => Some (fsop_get_root f) | None => if mountable x then None else devnode x end
  | Boot _ => bootfs_node s
  | Root _ => n ← tables (base s) !! t ≫= pwd; fsop_get_root <$> in_fs n
  end.
Definition rest_of (st : start) : path := match st with Here q | Dev _ q | Boot q | Root q => q end.

(** The file system that [p] leads to takes the rest of it. *)
Definition takes {A} (look : Z -> path -> outcome A) (t : Z) (s : vfs) (p : path) : Prop :=
  forall n, start_node t s (parse p) = Some n -> rest_of (parse p) <> [] -> exists r, look n (rest_of (parse p)) = Ok r.

Lemma get_device_parse t p s : get_device t p s = begin t (parse p) s.
Proof.
  unfold get_device, parse. destruct (scan p 0) as [[c i]|] eqn:E; [|done]. apply scan_some in E as (Hi & Hc & Hh). cbv zeta. destruct Hc as [->| ->].
  - rewrite (decide_True (P := (COLON = COLON))), !(decide_False (P := (COLON = SLASH))) by done. destruct (Z.ltb_spec i 0); [lia|]. cbn [andb]. destruct (Z.ltb_spec 0 i).
    + rewrite (decide_False (P := (i = 0))) by lia. reflexivity.
    + rewrite (decide_True (P := (i = 0))) by lia. rewrite (Hh ltac:(lia)). rewrite decide_False by done. rewrite bind_assoc_M, bind_kassert by done. rewrite bind_assoc_M. cbn [begin]. unfold mbind, M_bind.
      destruct (vfs_get_curdir t s) as [[[ret n] s1]|]; [|done]. destruct (ret =? 0); cbn [negb]; [|done]. destruct (in_fs n) as [f|]; [|done].
      destruct (get_root f s1) as [[r s2]|]; [|done]. by destruct (node (vop_ref_dec n) s2) as [[u s3]|].
  - rewrite (decide_False (P := (SLASH = COLON))), !(decide_True (P := (SLASH = SLASH))) by done. change (-1 <? 0) with true. change (0 <? -1) with false. cbn [andb]. destruct (Z.eqb_spec i 0) as [->|Hne]; cbn [negb].
    + rewrite (decide_True (P := (0 = 0))) by done. rewrite (Hh eq_refl). rewrite decide_True by done. reflexivity.
    + rewrite (decide_False (P := (i = 0))) by done. reflexivity.
Qed.
End paths.

(** C40: every path is of exactly one kind: a name or relative path, which starts at the
    current directory; [device:path], which starts at the root of what is mounted on
    the device or at the device itself; [/path], at the boot file system; and [:path],
    at the root of the current file system.  Slashes after the device or at the
    front are skipped, and the lookup starts accordingly. *)
Theorem path_start `{FileSystems} t p s : exists st, spells p st /\ (forall st', spells p st' -> st' = st) /\ get_device t p s = begin t st s.
Proof.
  destruct (spells_total p) as [st Hst]. exists st. split; [exact Hst|]. pose proof (spells_parse p st Hst) as E. split; [|rewrite E; apply get_device_parse]. intros st' H'. rewrite E. by apply spells_parse.
Qed.
