(* ===== verification/VfsRefs.v ===== *)
(** * VfsRefs: references taken and given back by the operations on names *)

From Stdlib Require Import Ascii.
From stdpp Require Import numbers strings gmap list.
From S2P Require Import Prelude Files FilesInv FilesOps FilesTab Vfs VfsPath.
Local Open Scope Z_scope.

Fixpoint occ (D : list Z) (k : Z) : Z := match D with [] => 0 | n :: D => Z.b2z (bool_decide (n = k)) + occ D k end.
Fixpoint devrefs (l : list vfs_dev) (k : Z) : Z := match l with [] => 0 | d :: l => Z.b2z (bool_decide (devnode d = Some k)) + devrefs l k end.

(** The references of directories of processes, of the boot file system and of devices. *)
Definition held (s : vfs) (k : Z) : Z := pwds (tables (base s)) k + Z.b2z (bool_decide (bootfs_node s = Some k)) + devrefs (vdev_list s) k.

Lemma occ_range D k : 0 <= occ D k <= Z.of_nat (length D).
Proof. induction D as [|n D IH]; cbn [occ length]; [done|]. destruct (bool_decide (n = k)); cbn [Z.b2z]; lia. Qed.

Lemma occ_perm D D' k : D ≡ₚ D' -> occ D k = occ D' k.
Proof. induction 1; cbn [occ]; lia. Qed.

Lemma occ_in D n : n ∈ D -> 1 <= occ D n.
Proof.
  induction 1 as [n D|n m D H IH]; cbn [occ]; [rewrite bool_decide_eq_true_2 by done; pose proof (occ_range D n); cbn; lia|]. destruct (bool_decide (m = n)); cbn; lia.
Qed.

Lemma devrefs_nonneg l k : 0 <= devrefs l k.
Proof. induction l as [|d l IH]; cbn [devrefs]; [done|]. pose proof (Z_b2z_nonneg (bool_decide (devnode d = Some k))). lia. Qed.

Lemma devrefs_in l d n : d ∈ l -> devnode d = Some n -> 1 <= devrefs l n.
Proof.
  intros Hd Hn. induction Hd as [d l|d e l Hd IH]; cbn [devrefs]; [rewrite bool_decide_eq_true_2 by done; pose proof (devrefs_nonneg l n); cbn; lia|].
  specialize (IH Hn). pose proof (Z_b2z_nonneg (bool_decide (devnode e = Some n))). lia.
Qed.

Lemma held_pwd s t x n : tables (base s) !! t = Some x -> pwd x = Some n -> 1 <= held s n.
Proof.
  intros Hx Hp. unfold held, pwds. pose proof (total_ge (fun x => Z.b2z (bool_decide (pwd x = Some n))) (tables (base s)) t x (fun y => Z_b2z_nonneg _) Hx) as Ht. cbn in Ht. rewrite bool_decide_eq_true_2 in Ht by done.
  pose proof (Z_b2z_nonneg (bool_decide (bootfs_node s = Some n))). pose proof (devrefs_nonneg (vdev_list s) n). cbn in Ht. lia.
Qed.

Lemma held_boot s n : bootfs_node s = Some n -> 1 <= held s n.
Proof. intros Hb. unfold held. rewrite bool_decide_eq_true_2 by done. pose proof (pwds_nonneg (tables (base s)) n). pose proof (devrefs_nonneg (vdev_list s) n). cbn. lia. Qed.

Lemma held_dev s d n : d ∈ vdev_list s -> devnode d = Some n -> 1 <= held s n.
Proof. intros Hd Hn. unfold held. pose proof (devrefs_in _ _ _ Hd Hn). pose proof (pwds_nonneg (tables (base s)) n). pose proof (Z_b2z_nonneg (bool_decide (bootfs_node s = Some n))). lia. Qed.

Lemma ref_inc_tables n s1 s2 : node (vop_ref_inc n) s1 = Ok (tt, s2) -> tables (base s2) = tables (base s1) /\ bootfs_node s2 = bootfs_node s1.
Proof.
  unfold node, vop_ref_inc, get_counts, load. unfold mbind, M_bind. destruct (inodes (base s1) !! n) as [[r o]|]; [|done]. cbn. by intros [= <-].
Qed.

(** Room for the references an operation takes at a time. *)
Definition roomy (s : vfs) : Prop := forall k, fst (cts (base s) k) + 8 < MAX_COUNT.

(** ** What a computation leaves as it is *)

Definition keeps {S A B} (f : S -> B) (c : M S A) : Prop := forall s a s', c s = Ok (a, s') -> f s' = f s.

Section keeps.
Context {S B : Type} (f : S -> B).
Lemma kept_bind {A A'} (c : M S A) (k : A -> M S A') : keeps f c -> (forall a, keeps f (k a)) -> keeps f (c ≫= k).
Proof. intros Hc Hk s a s' (b & s1 & E1 & E2)%bind_Ok. rewrite (Hk b s1 a s' E2). by eapply Hc. Qed.
Lemma kept_ret {A} (a : A) : keeps f (mret a : M S A).
Proof. by intros s b s' [= _ <-]. Qed.
Lemma kept_fail {A} e : keeps f (fail e : M S A).
Proof. done. Qed.
Lemma kept_gets {A} (g : S -> A) : keeps f (gets g).
Proof. by intros s b s' [= _ <-]. Qed.
Lemma kept_modify g : (forall s, f (g s) = f s) -> keeps f (modify g).
Proof. by intros H s b s' [= _ <-]. Qed.
Lemma kept_load {A} (g : S -> option A) : keeps f (load g).
Proof. intros s a s'. unfold load. by destruct (g s); intros [= _ <-]. Qed.
Lemma kept_kassert b : keeps f (kassert b).
Proof. destruct b; [apply kept_ret|apply kept_fail]. Qed.
End keeps.

Create HintDb keeps.
#[export] Hint Resolve kept_bind kept_ret kept_fail kept_gets kept_load kept_kassert : keeps.
Ltac keep := repeat first [progress intros | solve [eauto with keeps nocore] | apply kept_bind | apply kept_modify; intros; reflexivity | case_match].

Lemma check_keeps n : keeps tables (vop_check n).
Proof. unfold vop_check, get_counts. keep. Qed.
Lemma inc_keeps n : keeps tables (vop_ref_inc n).
Proof. unfold vop_ref_inc, get_counts, put_counts. keep. Qed.
#[export] Hint Resolve check_keeps inc_keeps : keeps.
Lemma dec_keeps n : keeps tables (vop_ref_dec n).
Proof. unfold vop_ref_dec, get_counts, put_counts. keep. Qed.
Lemma obtain_keeps n : keeps tables (obtain n).
Proof. apply kept_modify. intros s. by destruct (default (0, 0) (inodes s !! n)). Qed.
Lemma get_fs_keeps t : keeps tables (get_fs t).
Proof. apply kept_load. Qed.
#[export] Hint Resolve dec_keeps obtain_keeps get_fs_keeps : keeps.

(** Where paths begin. *)
Definition places (s : vfs) := (tables (base s), bootfs_node s, vdev_list s).
Lemma node_keeps {A} (c : M vstate A) : keeps tables c -> keeps places (node c).
Proof. intros Hc s a s'. unfold node. destruct (c (base s)) as [[b b']|] eqn:E; [|done]. intros [= _ <-]. unfold places. cbn. by rewrite (Hc _ _ _ E). Qed.
Lemma ask_keeps {A} (o : outcome A) : keeps places (ask o).
Proof. intros s a s'. unfold ask. by destruct o; intros [= _ <-]. Qed.
#[export] Hint Resolve node_keeps ask_keeps : keeps.

Section refs.
Context `{FileSystems}.

Lemma get_device_keeps t p : keeps places (get_device t p).
Proof. intros s a s'. rewrite get_device_parse. revert s a s'. change (keeps places (begin t (parse p))). unfold begin, vfs_get_curdir, get_cwd_nolock, vfs_get_root, vfs_get_bootfs, get_root. keep. Qed.
Lemma lookup_keeps t p : keeps places (vfs_lookup t p).
Proof. unfold vfs_lookup, taken. pose proof (get_device_keeps t p). keep. Qed.
Lemma parent_keeps t p : keeps places (vfs_lookup_parent t p).
Proof. unfold vfs_lookup_parent, taken. pose proof (get_device_keeps t p). keep. Qed.

Lemma takes_places {A} (look : Z -> path -> outcome A) t s s' p : places s' = places s -> takes look t s p -> takes look t s' p.
Proof. intros [= E1 E2 E3] Hp n. assert (E : start_node t s' (parse p) = start_node t s (parse p)) by (unfold start_node; by rewrite E1, E2, E3). rewrite E. apply Hp. Qed.

(** A device has an inode, of a device, or a file system; processes are in directories of file systems. *)
Definition dev_ok (d : vfs_dev) : Prop := (mountable d = true -> devnode d <> None) /\ (fs d = None -> devnode d <> None) /\ forall n, devnode d = Some n -> is_device n = true.
Definition cwd_fs (s : vfs) : Prop := forall t x n, tables (base s) !! t = Some x -> pwd x = Some n -> in_fs n <> None.
(** A device is not a directory: directories are in file systems. *)
Definition dirs_in_fs : Prop := forall n, gettype n = (0, true) -> in_fs n <> None.
Record vinv (P : pends) (s : vfs) : Prop := {
  vi_core : core (tables (base s)) (cts (base s)) P (held s);
  vi_dev : Forall dev_ok (vdev_list s);
  vi_cwd : cwd_fs s }.

(** The process that runs has the table [t]. *)
Context (t : Z).
Definition at_dir (p : option Z) (m : gmap Z fs_struct) : gmap Z fs_struct := alter (fun x => FsStruct p (filemap x) (fs_count x)) t m.

(** Since [s], references to [D] were taken; others that were taken or given up in [s1]
    are those of the directory of the process and of the boot file system. *)
Record lent (s s1 : vfs) (D : list Z) : Prop := {
  ln_ref : forall k, fst (cts (base s1) k) - held s1 k = fst (cts (base s) k) - held s k + occ D k;
  ln_open : forall k, snd (cts (base s1) k) = snd (cts (base s) k);
  ln_tables : exists p, tables (base s1) = at_dir p (tables (base s));
  ln_cwd : cwd_fs s1;
  ln_devs : vdev_list s1 = vdev_list s;
  ln_types : file_system_type_list s1 = file_system_type_list s }.

Lemma lent_perm s s1 D D' : D ≡ₚ D' -> lent s s1 D -> lent s s1 D'.
Proof. intros Hp []. split; try done. intros k. by rewrite <- (occ_perm D D' k Hp). Qed.

Lemma lent_vop s s1 D o : lent s s1 D -> lent s (add_vop o s1) D.
Proof. intros []. by split. Qed.

Lemma lent_touched s s1 b D D' n dr : lent s s1 D -> touched (base s1) b n dr 0 -> (forall k, occ D' k = occ D k + if decide (k = n) then dr else 0) -> lent s (set_base b s1) D'.
Proof.
  intros [L1 L2 L4 L5 L6 L7] [T C] HD. assert (Hh : forall k, held (set_base b s1) k = held s1 k) by (intros k; unfold held; cbn; by rewrite T).
  assert (Hc : forall k, cts b k = (fst (cts (base s1) k) + (if decide (k = n) then dr else 0), snd (cts (base s1) k))).
  { intros k. rewrite C. case_decide; [subst; f_equal; lia|]. rewrite Z.add_0_r. apply surjective_pairing. }
  split; try done.
  - intros k. cbn [base set_base]. rewrite Hc, Hh, HD. cbn [fst]. specialize (L1 k). lia.
  - intros k. cbn [base set_base]. rewrite Hc. apply L2.
  - cbn [base set_base]. by rewrite T.
  - unfold cwd_fs in *. cbn [base set_base]. by rewrite T.
Qed.

Context (P : pends) (s : vfs) (I : vinv P s) (R : roomy s).

Lemma at_dir_id m x : m !! t = Some x -> at_dir (pwd x) m = m.
Proof. intros Hx. apply alter_id. intros y Hy. rewrite Hx in Hy. injection Hy as <-. by destruct x. Qed.

Lemma lent_refl : lent s s [].
Proof.
  split; try done; [intros k; cbn; lia| |apply (vi_cwd _ _ I)]. destruct (tables (base s) !! t) as [x|] eqn:Hx; [exists (pwd x); by rewrite at_dir_id|]. exists None. unfold at_dir. by rewrite alter_id' by done.
Qed.

Lemma at_dir_pwds p m k : pwds (at_dir p m) k <= pwds m k + 1.
Proof.
  destruct (m !! t) as [x|] eqn:Hx; [|unfold at_dir; rewrite alter_id' by done; lia]. unfold at_dir, pwds. rewrite <- (insert_id m t x Hx) at 1. rewrite alter_insert_eq.
  rewrite (total_insert _ m t x _ Hx). cbn [pwd]. pose proof (Z_b2z_nonneg (bool_decide (pwd x = Some k))). destruct (bool_decide (p = Some k)); cbn; lia.
Qed.

Lemma ln_held s1 D k : lent s s1 D -> held s1 k <= held s k + 2.
Proof.
  intros L. destruct (ln_tables _ _ _ L) as [p Hp]. unfold held. rewrite Hp, (ln_devs _ _ _ L). pose proof (at_dir_pwds p (tables (base s)) k). pose proof (Z_b2z_nonneg (bool_decide (bootfs_node s = Some k))).
  destruct (bool_decide (bootfs_node s1 = Some k)); cbn; lia.
Qed.

Lemma held_nonneg s0 k : 0 <= held s0 k.
Proof. unfold held. pose proof (pwds_nonneg (tables (base s0)) k). pose proof (devrefs_nonneg (vdev_list s0) k). pose proof (Z_b2z_nonneg (bool_decide (bootfs_node s0 = Some k))). lia. Qed.

(** The counters of an inode with references taken. *)
Lemma lent_counts s1 D k : lent s s1 D -> (length D <= 4)%nat ->
  exists r o, cts (base s1) k = (r, o) /\ 0 <= o <= r - held s1 k - occ D k /\ 0 <= held s1 k /\ 0 <= occ D k /\ r + 1 < MAX_COUNT.
Proof.
  intros L Hl. exists (fst (cts (base s1) k)), (snd (cts (base s1) k)). split; [apply surjective_pairing|]. pose proof (ln_ref _ _ _ L k). pose proof (ln_open _ _ _ L k). pose proof (ln_held s1 D k L).
  pose proof (core_counts _ _ _ _ k (vi_core _ _ I)). pose proof (co_open _ _ _ _ (vi_core _ _ I) k). pose proof (fds_nonneg (tables (base s)) k). pose proof (held_nonneg s1 k). pose proof (held_nonneg s k). pose proof (occ_range D k).
  specialize (R k). lia.
Qed.

Lemma inc_ok s1 D n : lent s s1 D -> (length D <= 3)%nat -> 1 <= held s1 n \/ n ∈ D -> exists s2, node (vop_ref_inc n) s1 = Ok (tt, s2) /\ lent s s2 (n :: D).
Proof.
  intros L Hl Hh. destruct (lent_counts s1 D n L ltac:(lia)) as (r & o & Ec & Ho & H1 & H2 & Hr). assert (H3 : 1 <= r) by (destruct Hh as [|Hin%occ_in]; lia).
  destruct (ref_inc_ok (base s1) n r o Ec ltac:(lia) ltac:(lia)) as (b & E & T).
  exists (set_base b s1). split; [unfold node; by rewrite E|]. eapply lent_touched; [exact L|exact T|]. intros k. cbn [occ]. case_decide; [subst; rewrite bool_decide_eq_true_2 by done|rewrite bool_decide_eq_false_2 by congruence]; cbn; lia.
Qed.

Lemma obtain_lent s1 D n : lent s s1 D -> exists s2, node (obtain n) s1 = Ok (tt, s2) /\ lent s s2 (n :: D).
Proof.
  intros L. destruct (obtain_ok (base s1) n) as (b & E & T & _). exists (set_base b s1). split; [unfold node; by rewrite E|]. eapply lent_touched; [exact L|exact T|]. intros k. cbn [occ].
  case_decide; [subst; rewrite bool_decide_eq_true_2 by done|rewrite bool_decide_eq_false_2 by congruence]; cbn; lia.
Qed.

Lemma dec_ok s1 D D' n : lent s s1 D -> D ≡ₚ n :: D' -> (length D <= 4)%nat -> exists s2, node (vop_ref_dec n) s1 = Ok (tt, s2) /\ lent s s2 D'.
Proof.
  intros L Hp Hl. destruct (lent_counts s1 D n L Hl) as (r & o & Ec & Ho & H1 & H2 & Hr). assert (H3 : 1 <= occ D n) by (apply occ_in; rewrite Hp; by left).
  destruct (ref_dec_ok (base s1) n r o Ec ltac:(lia) ltac:(lia)) as (b & E & T). exists (set_base b s1). split; [unfold node; by rewrite E|]. eapply lent_touched; [exact L|exact T|].
  intros k. rewrite (occ_perm D _ k Hp). cbn [occ]. case_decide; [subst; rewrite bool_decide_eq_true_2 by done|rewrite bool_decide_eq_false_2 by congruence]; cbn; lia.
Qed.

Lemma check_ok s1 D n : lent s s1 D -> n ∈ D -> (length D <= 4)%nat -> node (vop_check n) s1 = Ok (tt, s1).
Proof.
  intros L Hn Hl. destruct (lent_counts s1 D n L Hl) as (r & o & Ec & Ho & H1 & H2 & Hr). pose proof (occ_in D n Hn). unfold node.
  rewrite (vop_check_spec (base s1) n r o Ec); [by destruct s1|eapply cts_some; [exact Ec|lia]|lia|lia].
Qed.

Lemma call_ok s1 D n o : lent s s1 D -> n ∈ D -> (length D <= 4)%nat -> exists s2, call n o s1 = Ok (answer o, s2) /\ lent s s2 D.
Proof. intros L Hn Hl. unfold call. rewrite (bind_step _ _ _ _ _ (check_ok s1 D n L Hn Hl)). rewrite bind_modify. eexists. split; [done|]. by apply lent_vop. Qed.

(** The inode comes with a reference, unless there was an error. *)
Definition gave (D : list Z) (ret n : Z) (s2 : vfs) : Prop := if ret =? 0 then lent s s2 (n :: D) else lent s s2 D.

Lemma get_fs_ok x s1 : tables (base s1) !! t = Some x -> node (get_fs t) s1 = Ok (x, s1).
Proof. intros Hx. unfold node, get_fs, load. rewrite Hx. by destruct s1. Qed.

Lemma lent_table x s1 D : lent s s1 D -> tables (base s) !! t = Some x -> exists y, tables (base s1) !! t = Some y.
Proof. intros L Hx. destruct (ln_tables _ _ _ L) as [p ->]. unfold at_dir. rewrite lookup_alter_eq, Hx. by eexists. Qed.

Lemma curdir_ok x s1 D : lent s s1 D -> (length D <= 3)%nat -> tables (base s1) !! t = Some x -> exists ret n s2, vfs_get_curdir t s1 = Ok ((ret, n), s2) /\ gave D ret n s2 /\ (ret = 0 -> pwd x = Some n).
Proof.
  intros L Hl Hx. unfold vfs_get_curdir, get_cwd_nolock. rewrite bind_assoc_M, (bind_step _ _ _ _ _ (get_fs_ok x s1 Hx)). destruct (pwd x) as [n|] eqn:Hp; [|by exists (- ENOENT), 0, s1].
  destruct (inc_ok s1 D n L Hl) as (s2 & E2 & L2); [left; by eapply held_pwd|]. exists 0, n, s2. split; [|split; [exact L2|done]]. unfold mbind, M_bind, mret, M_ret in *. by rewrite E2.
Qed.

Lemma bootfs_ok s1 D : lent s s1 D -> (length D <= 3)%nat -> exists ret n s2, vfs_get_bootfs s1 = Ok ((ret, n), s2) /\ gave D ret n s2 /\ (ret = 0 -> bootfs_node s1 = Some n).
Proof.
  intros L Hl. unfold vfs_get_bootfs. rewrite bind_gets. destruct (bootfs_node s1) as [n|] eqn:Hb; [|by exists (- ENOENT), 0, s1].
  destruct (inc_ok s1 D n L Hl (or_introl (held_boot s1 n Hb))) as (s2 & E2 & L2). rewrite (bind_step _ _ _ _ _ E2). by exists 0, n, s2.
Qed.

Lemma find_dev_in p l d : find_dev p l = Some d -> d ∈ l /\ p d = true.
Proof. induction l as [|e l IH]; cbn; [done|]. destruct (p e) eqn:Ep; [intros [= <-]; split; [by left|done]|]. intros [H1 H2]%IH. split; [by right|done]. Qed.

Lemma dev_root_ok name s1 D : lent s s1 D -> (length D <= 3)%nat -> exists ret n s2, vfs_get_root name s1 = Ok ((ret, n), s2) /\ gave D ret n s2 /\ (ret = 0 -> start_node t s1 (Dev name []) = Some n).
Proof.
  intros L Hl. unfold vfs_get_root. cbn [start_node]. rewrite bind_gets, (ln_devs _ _ _ L). destruct (find_dev (named name) (vdev_list s)) as [d|] eqn:Hd; [|by exists (- E_NO_DEV), 0, s1]. cbn [mbind option_bind].
  apply find_dev_in in Hd as [Hd _]. destruct (fs d) as [f|] eqn:Hf.
  - unfold get_root. destruct (obtain_lent s1 D (fsop_get_root f) L) as (s2 & E2 & L2). rewrite bind_assoc_M, (bind_step _ _ _ _ _ E2). by exists 0, (fsop_get_root f), s2.
  - destruct (mountable d); [by exists (- E_NA_DEV), 0, s1|]. pose proof (vi_dev _ _ I) as Hok. rewrite Forall_forall in Hok. destruct (Hok d Hd) as (_ & Hn & _). destruct (devnode d) as [n|] eqn:En; [|by destruct Hn].
    destruct (inc_ok s1 D n L Hl (or_introl (held_dev s1 d n ltac:(by rewrite (ln_devs _ _ _ L)) En))) as (s2 & E2 & L2). rewrite (bind_step _ _ _ _ _ E2). by exists 0, n, s2.
Qed.

Lemma begin_ok st s1 D : lent s s1 D -> (length D <= 2)%nat -> is_Some (tables (base s) !! t) -> exists ret n s2, begin t st s1 = Ok ((ret, n, rest_of st), s2) /\ gave D ret n s2 /\ (ret = 0 -> start_node t s1 st = Some n).
Proof.
  intros L Hl [x0 Hx0]. destruct (lent_table x0 s1 D L Hx0) as [x Hx]. destruct st as [q|name q|q|q]; cbn [begin rest_of].
  - destruct (curdir_ok x s1 D L ltac:(lia) Hx) as (ret & n & s2 & E & G & Hp). rewrite (bind_step _ _ _ _ _ E). exists ret, n, s2. cbn [start_node]. rewrite Hx. by split.
  - destruct (dev_root_ok name s1 D L ltac:(lia)) as (ret & n & s2 & E & G). rewrite (bind_step _ _ _ _ _ E). by exists ret, n, s2.
  - destruct (bootfs_ok s1 D L ltac:(lia)) as (ret & n & s2 & E & G). rewrite (bind_step _ _ _ _ _ E). by exists ret, n, s2.
  - destruct (curdir_ok x s1 D L ltac:(lia) Hx) as (ret & n & s2 & E & G & Hp). rewrite (bind_step _ _ _ _ _ E). destruct (Z.eqb_spec ret 0) as [->|Hr]; cbn [negb]; [|by exists ret, n, s2].
    specialize (Hp eq_refl). pose proof (ln_cwd _ _ _ L t x n Hx Hp) as Hfs. cbn [start_node]. rewrite Hx. cbn [mbind option_bind]. rewrite Hp. cbn [mbind option_bind]. destruct (in_fs n) as [f|]; [|done]. unfold get_root. destruct (obtain_lent s2 (n :: D) (fsop_get_root f) G) as (s3 & E3 & L3).
    rewrite bind_assoc_M, (bind_step _ _ _ _ _ E3). destruct (dec_ok s3 _ (fsop_get_root f :: D) n L3) as (s4 & E4 & L4); [apply Permutation_swap|cbn; lia|].
    rewrite (bind_step _ _ s3 (fsop_get_root f) s3) by done. rewrite (bind_step _ _ _ _ _ E4). by exists 0, (fsop_get_root f), s4.
Qed.

Lemma taken_ok s1 D ret n : lent s s1 D -> exists s2, taken ret n s1 = Ok (tt, s2) /\ gave D ret n s2.
Proof. intros L. unfold taken, gave. destruct (ret =? 0); [by apply obtain_lent|by exists s1]. Qed.

(** The directory a lookup started from is given back. *)
Lemma give_back s1 D n r m : gave (n :: D) r m s1 -> (length D <= 2)%nat -> exists s2, node (vop_ref_dec n) s1 = Ok (tt, s2) /\ gave D r m s2.
Proof.
  unfold gave. intros G Hl. destruct (r =? 0); [apply (dec_ok s1 _ (m :: D) n G); [apply Permutation_swap|cbn; lia]|apply (dec_ok s1 _ D n G); [done|cbn; lia]].
Qed.

(** A lookup takes one reference to the inode found. *)
Lemma lookup_ok p s1 D : lent s s1 D -> (length D <= 2)%nat -> is_Some (tables (base s) !! t) -> takes lookup t s1 p -> exists ret n s2, vfs_lookup t p s1 = Ok ((ret, n), s2) /\ gave D ret n s2.
Proof.
  intros L Hl Hx Hk. unfold vfs_lookup. destruct (begin_ok (parse p) s1 D L Hl Hx) as (ret & n & s2 & E & G & Hn). rewrite <- get_device_parse in E. rewrite (bind_step _ _ _ _ _ E). unfold gave in *.
  destruct (Z.eqb_spec ret 0) as [->|Hr]; cbn [negb]; [|exists ret, 0, s2; split; [done|]; by destruct (Z.eqb_spec ret 0)]. case_decide as Hq; [by exists 0, n, s2|].
  rewrite (bind_step _ _ _ _ _ (check_ok s2 (n :: D) n G ltac:(by left) ltac:(cbn; lia))). destruct (Hk n (Hn eq_refl) Hq) as [[r m] Er]. rewrite (bind_step _ _ s2 (r, m) s2) by (unfold ask; by rewrite Er). destruct (taken_ok s2 (n :: D) r m G) as (s3 & E3 & G3). rewrite (bind_step _ _ _ _ _ E3).
  destruct (give_back s3 D n r m G3 Hl) as (s4 & E4 & G4). rewrite (bind_step _ _ _ _ _ E4). by exists r, m, s4.
Qed.

Lemma lookup_parent_ok p s1 D : lent s s1 D -> (length D <= 2)%nat -> is_Some (tables (base s) !! t) -> takes lookup_parent t s1 p -> exists ret n name s2, vfs_lookup_parent t p s1 = Ok ((ret, n, name), s2) /\ gave D ret n s2.
Proof.
  intros L Hl Hx Hk. unfold vfs_lookup_parent. destruct (begin_ok (parse p) s1 D L Hl Hx) as (ret & n & s2 & E & G & Hn). rewrite <- get_device_parse in E. rewrite (bind_step _ _ _ _ _ E). unfold gave in *.
  destruct (Z.eqb_spec ret 0) as [->|Hr]; cbn [negb]; [|exists ret, 0, [], s2; split; [done|]; by destruct (Z.eqb_spec ret 0)]. case_decide as Hq.
  - rewrite (bind_step _ _ s2 (- EINVAL, 0, []) s2) by done. destruct (dec_ok s2 _ D n G) as (s4 & E4 & L4); [done|cbn; lia|]. rewrite (bind_step _ _ _ _ _ E4). by exists (- EINVAL), 0, [], s4.
  - rewrite bind_assoc_M, (bind_step _ _ _ _ _ (check_ok s2 (n :: D) n G ltac:(by left) ltac:(cbn; lia))). destruct (Hk n (Hn eq_refl) Hq) as [[[r m] name] Er]. rewrite bind_assoc_M, (bind_step _ _ s2 (r, m, name) s2) by (unfold ask; by rewrite Er). destruct (taken_ok s2 (n :: D) r m G) as (s3 & E3 & G3).
    rewrite bind_assoc_M, (bind_step _ _ _ _ _ E3). rewrite (bind_step _ _ s3 (r, m, name) s3) by done.
    destruct (give_back s3 D n r m G3 Hl) as (s4 & E4 & G4). rewrite (bind_step _ _ _ _ _ E4). by exists r, m, name, s4.
Qed.

(** ** Operations *)

Lemma parent_call p (o : Z -> path -> vop) : is_Some (tables (base s) !! t) -> takes lookup_parent t s p ->
  exists ret s', ('(ret, dir, name) ← vfs_lookup_parent t p; if negb (ret =? 0) then mret ret else ret ← call dir (o dir name); _ ← node (vop_ref_dec dir); mret ret) s = Ok (ret, s') /\ lent s s' [].
Proof.
  intros Ht Hk. destruct (lookup_parent_ok p s [] lent_refl ltac:(cbn; lia) Ht Hk) as (ret & n & name & s1 & E1 & G1). rewrite (bind_step _ _ _ _ _ E1). unfold gave in G1.
  destruct (ret =? 0); cbn [negb]; [|by exists ret, s1]. destruct (call_ok s1 [n] n (o n name) G1 ltac:(by left) ltac:(cbn; lia)) as (s2 & E2 & L2). rewrite (bind_step _ _ _ _ _ E2).
  destruct (dec_ok s2 [n] [] n L2) as (s3 & E3 & L3); [done|cbn; lia|]. rewrite (bind_step _ _ _ _ _ E3). by exists (answer (o n name)), s3.
Qed.

Lemma readlink_ok p : is_Some (tables (base s) !! t) -> takes lookup t s p -> exists ret s', vfs_readlink t p s = Ok (ret, s') /\ lent s s' [].
Proof.
  intros Ht Hk. unfold vfs_readlink. destruct (lookup_ok p s [] lent_refl ltac:(cbn; lia) Ht Hk) as (ret & n & s1 & E1 & G1). rewrite (bind_step _ _ _ _ _ E1). unfold gave in G1.
  destruct (ret =? 0); cbn [negb]; [|by exists ret, s1]. destruct (call_ok s1 [n] n (VopReadlink n) G1 ltac:(by left) ltac:(cbn; lia)) as (s2 & E2 & L2). rewrite (bind_step _ _ _ _ _ E2).
  destruct (dec_ok s2 [n] [] n L2) as (s3 & E3 & L3); [done|cbn; lia|]. rewrite (bind_step _ _ _ _ _ E3). by exists (answer (VopReadlink n)), s3.
Qed.

(** The end of [vfs_rename] and [vfs_link], from the lookup of the second path on; [a] is taken. *)
Lemma two_call p s1 a (o : Z -> path -> Z * vop) : is_Some (tables (base s) !! t) -> takes lookup_parent t s1 p -> lent s s1 [a] -> (forall b name, fst (o b name) = a \/ fst (o b name) = b) ->
  exists ret s', ('(ret, b, name) ← vfs_lookup_parent t p;
    if negb (ret =? 0) then _ ← node (vop_ref_dec a); mret ret
    else ret ← (if same_fs a b then call (fst (o b name)) (snd (o b name)) else mret (- E_XDEV)); _ ← node (vop_ref_dec a); _ ← node (vop_ref_dec b); mret ret) s1 = Ok (ret, s') /\ lent s s' [].
Proof.
  intros Ht Hk L1 Ho. destruct (lookup_parent_ok p s1 [a] L1 ltac:(cbn; lia) Ht Hk) as (ret & b & name & s2 & E2 & G2). rewrite (bind_step _ _ _ _ _ E2). unfold gave in G2. destruct (ret =? 0); cbn [negb].
  2: { destruct (dec_ok s2 [a] [] a G2) as (s3 & E3 & L3); [done|cbn; lia|]. rewrite (bind_step _ _ _ _ _ E3). by exists ret, s3. }
  assert (Hc : exists r s3, (if same_fs a b then call (fst (o b name)) (snd (o b name)) else mret (- E_XDEV)) s2 = Ok (r, s3) /\ lent s s3 [b; a]).
  { destruct (same_fs a b); [|by exists (- E_XDEV), s2]. destruct (call_ok s2 [b; a] (fst (o b name)) (snd (o b name)) G2) as (s3 & E3 & L3); [destruct (Ho b name) as [->| ->]; set_solver|cbn; lia|]. by eexists _, s3. }
  destruct Hc as (r & s3 & E3 & L3). rewrite (bind_step _ _ _ _ _ E3). destruct (dec_ok s3 [b; a] [b] a L3) as (s4 & E4 & L4); [apply Permutation_swap|cbn; lia|]. rewrite (bind_step _ _ _ _ _ E4).
  destruct (dec_ok s4 [b] [] b L4) as (s5 & E5 & L5); [done|cbn; lia|]. rewrite (bind_step _ _ _ _ _ E5). by exists r, s5.
Qed.

Lemma rename_ok p q : is_Some (tables (base s) !! t) -> takes lookup_parent t s p -> takes lookup_parent t s q -> exists ret s', vfs_rename t p q s = Ok (ret, s') /\ lent s s' [].
Proof.
  intros Ht Hk Hk2. unfold vfs_rename. destruct (lookup_parent_ok p s [] lent_refl ltac:(cbn; lia) Ht Hk) as (ret & a & old & s1 & E1 & G1). rewrite (bind_step _ _ _ _ _ E1). unfold gave in G1.
  destruct (ret =? 0); cbn [negb]; [|by exists ret, s1]. exact (two_call q s1 a (fun b name => (a, VopRename a old b name)) Ht (takes_places _ _ _ _ _ (parent_keeps _ _ _ _ _ E1) Hk2) G1 (fun _ _ => or_introl eq_refl)).
Qed.

Lemma link_ok p q : is_Some (tables (base s) !! t) -> takes lookup t s p -> takes lookup_parent t s q -> exists ret s', vfs_link t p q s = Ok (ret, s') /\ lent s s' [].
Proof.
  intros Ht Hk Hk2. unfold vfs_link. destruct (lookup_ok p s [] lent_refl ltac:(cbn; lia) Ht Hk) as (ret & a & s1 & E1 & G1). rewrite (bind_step _ _ _ _ _ E1). unfold gave in G1.
  destruct (ret =? 0); cbn [negb]; [|by exists ret, s1]. exact (two_call q s1 a (fun b name => (b, VopLink b name a)) Ht (takes_places _ _ _ _ _ (lookup_keeps _ _ _ _ _ E1) Hk2) G1 (fun _ _ => or_intror eq_refl)).
Qed.

(** The file system of the current directory is mounted. *)
Lemma getcwd_ok x moved : tables (base s) !! t = Some x -> (forall n f, pwd x = Some n -> in_fs n = Some f -> exists d, d ∈ vdev_list s /\ fs d = Some f) ->
  exists ret s', vfs_getcwd t moved s = Ok (ret, s') /\ lent s s' [].
Proof.
  intros Hx Hm. unfold vfs_getcwd. destruct (curdir_ok x s [] lent_refl ltac:(cbn; lia) Hx) as (ret & n & s1 & E1 & G1 & Hp). rewrite (bind_step _ _ _ _ _ E1). unfold gave in G1.
  destruct (Z.eqb_spec ret 0) as [->|Hr]; cbn [negb]; [|by exists ret, s1]. specialize (Hp eq_refl). pose proof (vi_cwd _ _ I t x n Hx Hp) as Hfs. destruct (in_fs n) as [f|] eqn:Ef; [|done].
  destruct (Hm n f Hp Ef) as (d & Hd & Hdf). unfold vfs_get_devname. rewrite bind_assoc_M, bind_gets, (ln_devs _ _ _ G1).
  destruct (find_dev (fun d => bool_decide (fs d = Some f)) (vdev_list s)) as [e|] eqn:Ee.
  2: { exfalso. revert Ee. clear -Hd Hdf. induction Hd as [d l|d e l Hd IH]; cbn; [by rewrite bool_decide_eq_true_2|]. destruct (bool_decide _); [done|by apply IH]. }
  rewrite (bind_step _ _ s1 (Some (devname e)) s1) by done.
  assert (Hc : exists r s2, (if negb (fst moved =? 0) then mret (fst moved) else if negb (snd moved =? 0) then mret (snd moved) else call n (VopNamefile n)) s1 = Ok (r, s2) /\ lent s s2 [n]).
  { destruct (negb (fst moved =? 0)); [by eexists _, s1|]. destruct (negb (snd moved =? 0)); [by eexists _, s1|]. destruct (call_ok s1 [n] n (VopNamefile n) G1 ltac:(by left) ltac:(cbn; lia)) as (s2 & E2 & L2). by eexists _, s2. }
  destruct Hc as (r & s2 & E2 & L2). rewrite (bind_step _ _ _ _ _ E2). destruct (dec_ok s2 [n] [] n L2) as (s3 & E3 & L3); [done|cbn; lia|]. rewrite (bind_step _ _ _ _ _ E3). by exists r, s3.
Qed.

(** ** Changes of directory *)

Definition opt (o : option Z) (D : list Z) : list Z := match o with Some n => n :: D | None => D end.
Lemma occ_opt o D k : occ (opt o D) k = Z.b2z (bool_decide (o = Some k)) + occ D k.
Proof. destruct o as [n|]; cbn [opt occ]; [|done]. f_equal. f_equal. apply bool_decide_ext. split; congruence. Qed.

Lemma drop_opt s1 o D : lent s s1 (opt o D) -> (length D <= 3)%nat -> exists s2, (match o with Some n => node (vop_ref_dec n) | None => mret tt end) s1 = Ok (tt, s2) /\ lent s s2 D.
Proof. intros L Hl. destruct o as [n|]; [apply (dec_ok s1 _ D n L); [done|cbn; lia]|by exists s1]. Qed.

(** The reference to the new directory is the table's now, and that to the old one is taken. *)
Lemma install_pwd s1 x n D : lent s s1 (n :: D) -> tables (base s1) !! t = Some x -> in_fs n <> None ->
  exists s2, set_cwd_nolock t (Some n) s1 = Ok (tt, s2) /\ lent s s2 (opt (pwd x) D).
Proof.
  intros L Hx Hn. unfold set_cwd_nolock, node. rewrite (bind_step _ _ (base s1) x (base s1)) by (unfold get_fs, load; by rewrite Hx). eexists. split; [reflexivity|].
  set (s2 := set_base _ s1). set (y := FsStruct (Some n) (filemap x) (fs_count x)).
  assert (Hh : forall k, held s2 k = held s1 k - Z.b2z (bool_decide (pwd x = Some k)) + Z.b2z (bool_decide (n = k))).
  { intros k. unfold held, s2. cbn [base set_base tables set_tables bootfs_node vdev_list]. fold y. assert (Hp : pwds (<[t := y]> (tables (base s1))) k = pwds (tables (base s1)) k - Z.b2z (bool_decide (pwd x = Some k)) + Z.b2z (bool_decide (pwd y = Some k))) by (unfold pwds; by rewrite (total_insert _ _ t x _ Hx)).
    rewrite Hp. cbn [pwd y]. rewrite (bool_decide_ext (Some n = Some k) (n = k)) by (split; congruence). lia. }
  split.
  - intros k. change (cts (base s2) k) with (cts (base s1) k). rewrite Hh, occ_opt. pose proof (ln_ref _ _ _ L k) as Hr. cbn [occ] in Hr. lia.
  - intros k. change (cts (base s2) k) with (cts (base s1) k). apply L.
  - destruct (ln_tables _ _ _ L) as [p Hp]. exists (Some n). unfold s2. cbn [base set_base tables set_tables]. unfold at_dir. rewrite Hp in *. unfold at_dir in *. rewrite lookup_alter_eq in Hx.
    destruct (tables (base s) !! t) as [z|] eqn:Hz; [|done]. cbn in Hx. injection Hx as <-. rewrite <- (insert_id _ t z Hz) at 2. rewrite alter_insert_eq. cbn. rewrite <- (insert_id _ t z Hz) at 1. by rewrite alter_insert_eq, insert_insert_eq.
  - intros t2 z m Hz Hm. unfold s2 in Hz. cbn [base set_base tables set_tables] in Hz. rewrite lookup_insert in Hz. case_decide; [injection Hz as <-; injection Hm as <-; exact Hn|]. by eapply (ln_cwd _ _ _ L).
  - apply L.
  - apply L.
Qed.

Hypothesis dir_fs : dirs_in_fs.

Lemma set_curdir_ok s1 n : is_Some (tables (base s) !! t) -> lent s s1 [n] -> exists ret s2, vfs_set_curdir t (Some n) s1 = Ok (ret, s2) /\ lent s s2 [n].
Proof.
  intros [x0 Hx0] L. destruct (lent_table x0 s1 _ L Hx0) as [x Hx]. unfold vfs_set_curdir, get_cwd_nolock. rewrite bind_assoc_M, (bind_step _ _ _ _ _ (get_fs_ok x s1 Hx)). rewrite (bind_step _ _ s1 (pwd x) s1) by done.
  case_decide as Ed; [by exists 0, s1|]. rewrite bind_assoc_M, (bind_step _ _ _ _ _ (check_ok s1 [n] n L ltac:(by left) ltac:(cbn; lia))). destruct (gettype n) as [r isdir] eqn:Eg.
  destruct (Z.eqb_spec r 0) as [->|Hr]; cbn [negb]; [|rewrite (bind_step _ _ s1 r s1) by done; destruct (Z.eqb_spec r 0); [done|]; by exists r, s1].
  destruct isdir; cbn [negb]; [|rewrite (bind_step _ _ s1 (- E_NOTDIR) s1) by done; by exists (- E_NOTDIR), s1].
  destruct (inc_ok s1 [n] n L ltac:(cbn; lia) ltac:(right; by left)) as (s2 & E2 & L2). rewrite bind_assoc_M, (bind_step _ _ _ _ _ E2). rewrite (bind_step _ _ s2 0 s2) by done. cbn [negb Z.eqb].
  assert (Hx2 : tables (base s2) !! t = Some x). { destruct (ref_inc_tables n s1 s2 E2) as [T2 _]. by rewrite T2. }
  destruct (install_pwd s2 x n [n] L2 Hx2 (dir_fs n Eg)) as (s3 & E3 & L3). rewrite (bind_step _ _ _ _ _ E3). destruct (drop_opt s3 (pwd x) [n] L3 ltac:(cbn; lia)) as (s4 & E4 & L4).
  rewrite (bind_step _ _ _ _ _ E4). by exists 0, s4.
Qed.

Lemma chdir_ok p : is_Some (tables (base s) !! t) -> takes lookup t s p -> exists ret s', vfs_chdir t p s = Ok (ret, s') /\ lent s s' [].
Proof.
  intros Ht Hk. unfold vfs_chdir. destruct (lookup_ok p s [] lent_refl ltac:(cbn; lia) Ht Hk) as (ret & n & s1 & E1 & G1). rewrite (bind_step _ _ _ _ _ E1). unfold gave in G1.
  destruct (ret =? 0); [|by exists ret, s1]. destruct (set_curdir_ok s1 n Ht G1) as (r & s2 & E2 & L2). rewrite (bind_step _ _ _ _ _ E2).
  destruct (dec_ok s2 [n] [] n L2) as (s3 & E3 & L3); [done|cbn; lia|]. rewrite (bind_step _ _ _ _ _ E3). by exists r, s3.
Qed.

Lemma change_bootfs_ok s1 o : lent s s1 (opt o []) -> exists s2, change_bootfs o s1 = Ok (tt, s2) /\ lent s s2 [].
Proof.
  intros L. unfold change_bootfs. rewrite bind_gets, bind_modify. apply drop_opt; [|cbn; lia].
  assert (Hh : forall k, held (set_boot o s1) k = held s1 k - Z.b2z (bool_decide (bootfs_node s1 = Some k)) + Z.b2z (bool_decide (o = Some k))) by (intros k; unfold held; cbn; lia).
  split; try apply L. intros k. change (cts (base (set_boot o s1)) k) with (cts (base s1) k). rewrite Hh, occ_opt. pose proof (ln_ref _ _ _ L k) as Hr. rewrite occ_opt in Hr. cbn [occ] in *. lia.
Qed.

Lemma set_bootfs_ok o : is_Some (tables (base s) !! t) -> (forall p, o = Some p -> takes lookup t s p) -> exists ret s', vfs_set_bootfs t o s = Ok (ret, s') /\ lent s s' [].
Proof.
  intros Ht Hk. unfold vfs_set_bootfs. destruct o as [p|].
  2: { destruct (change_bootfs_ok s None lent_refl) as (s2 & E2 & L2). rewrite (bind_step _ _ _ _ _ E2). by exists 0, s2. }
  destruct (negb _); [exists (- EINVAL), s; split; [done|apply lent_refl]|]. destruct (chdir_ok p Ht (Hk p eq_refl)) as (ret & s1 & E1 & L1). rewrite (bind_step _ _ _ _ _ E1). destruct (ret =? 0); cbn [negb]; [|by exists ret, s1].
  destruct Ht as [x0 Hx0]. destruct (lent_table x0 s1 [] L1 Hx0) as [x Hx]. destruct (curdir_ok x s1 [] L1 ltac:(cbn; lia) Hx) as (r & n & s2 & E2 & G2 & _). rewrite (bind_step _ _ _ _ _ E2). unfold gave in G2.
  destruct (r =? 0); cbn [negb]; [|by exists r, s2]. destruct (change_bootfs_ok s2 (Some n) G2) as (s3 & E3 & L3). rewrite (bind_step _ _ _ _ _ E3). by exists 0, s3.
Qed.

(** ** The invariant is kept *)

Lemma at_dir_files p m t2 : (fun x => (filemap x, fs_count x)) <$> at_dir p m !! t2 = (fun x => (filemap x, fs_count x)) <$> m !! t2.
Proof. unfold at_dir. rewrite lookup_alter. case_decide; [|done]. subst. by destruct (m !! t2). Qed.

Lemma vinv_lent s1 : lent s s1 [] -> vinv P s1.
Proof.
  intros L. split; [|rewrite (ln_devs _ _ _ L); apply I|apply L]. destruct (ln_tables _ _ _ L) as [p Hp]. pose proof (vi_core _ _ I) as [Cl Cf Cp Co Cr Ce].
  assert (Hat : forall t2 i, file_at (tables (base s1)) t2 i = file_at (tables (base s)) t2 i).
  { intros t2 i. unfold file_at. pose proof (at_dir_files p (tables (base s)) t2) as Hf. rewrite Hp. destruct (at_dir p (tables (base s)) !! t2), (tables (base s) !! t2); cbn in *; congruence. }
  assert (Hfds : forall k, fds (tables (base s1)) k = fds (tables (base s)) k).
  { intros k. rewrite Hp. destruct (tables (base s) !! t) as [x|] eqn:Hx; [|unfold at_dir; by rewrite alter_id' by done]. unfold at_dir, fds. rewrite <- (insert_id _ t x Hx) at 1. rewrite alter_insert_eq.
    rewrite (total_insert _ _ t x _ Hx). cbn [filemap]. lia. }
  split.
  - intros t2 y Hy. pose proof (at_dir_files p (tables (base s)) t2) as Hf. rewrite <- Hp, Hy in Hf. destruct (tables (base s) !! t2) as [z|] eqn:Hz; [|done]. injection Hf as -> _. by apply (Cl t2).
  - intros t2 i f Hi. rewrite Hat. by apply Cf.
  - intros t2 i u. rewrite Hat. apply Cp.
  - intros k. rewrite Hfds, (ln_open _ _ _ L). apply Co.
  - intros k. rewrite Hfds. destruct (lent_counts s1 [] k L ltac:(cbn; lia)) as (r & o & Ec & Ho & _ & _ & Hr). rewrite <- (Co k), <- (ln_open _ _ _ L k), Ec. cbn in *. lia.
  - intros k. apply held_nonneg.
Qed.
End refs.

(** Looking up a path that its file system takes fails no assertion and takes exactly one reference to the inode
    it returns, and none when it fails: the references to the directories and the
    device passed on the way are given back. *)
Theorem lookup_takes_one `{FileSystems} P t p s : vinv P s -> roomy s -> is_Some (tables (base s) !! t) -> takes lookup t s p ->
  exists ret n s', vfs_lookup t p s = Ok ((ret, n), s') /\
    forall k, fst (cts (base s') k) - held s' k = fst (cts (base s) k) - held s k + (if ret =? 0 then Z.b2z (bool_decide (n = k)) else 0) /\ snd (cts (base s') k) = snd (cts (base s) k).
Proof.
  intros I R Ht Hk. destruct (lookup_ok t P s I R p s [] (lent_refl t P s I) ltac:(cbn; lia) Ht Hk) as (ret & n & s' & E & G). exists ret, n, s'. split; [exact E|].
  intros k. unfold gave in G. destruct (ret =? 0); (split; [|apply G]); rewrite (ln_ref _ _ _ _ G k); cbn [occ]; lia.
Qed.

(** ** A concrete state *)

(** A file system, mounted on a device with the inode 3; its root is the inode 7.  And the
    pipes, with the root 11. *)
Definition demo_fs : FileSystems :=
  {| in_fs := fun n => Some (if n =? 11 then 6 else 5); is_device := fun n => n =? 3; fsop_get_root := fun f => if f =? 6 then 11 else 7;
     lookup := fun n p => if n =? 11 then pipe_root_lookup [] p else Ok (0, 9);
     lookup_parent := fun n p => if n =? 11 then pipe_root_lookup_parent 11 p else Ok (0, 7, p); gettype := fun _ => (0, true); answer := fun _ => 0 |}.
Definition chars (s : string) : path := String.list_ascii_of_string s.
Definition demo_dev : vfs_dev := VfsDev (chars "disk0") (Some 3) (Some 5) true.
Definition demo : vfs :=
  Vfs (VState {[7 := (2, 0); 3 := (1, 0)]} {[1 := FsStruct (Some 7) (filemap_init 0 empty_table) 1]} []) [demo_dev; VfsDev (chars "pipe") None (Some 6) false] (Some 7) [] [].

Lemma demo_cts n : cts (base demo) n = if decide (n = 7) then (2, 0) else if decide (n = 3) then (1, 0) else (0, 0).
Proof.
  unfold cts. cbn [inodes base demo]. rewrite lookup_insert. case_decide; [subst; by rewrite decide_True|]. rewrite decide_False by congruence. case_decide; [subst; by rewrite lookup_singleton_eq|by rewrite lookup_singleton_ne].
Qed.

Lemma demo_held n : held demo n = if decide (n = 7) then 2 else if decide (n = 3) then 1 else 0.
Proof.
  unfold held. cbn [base demo tables bootfs_node vdev_list]. rewrite one_table_pwds. cbn [pwd devrefs devnode demo_dev]. repeat case_bool_decide; repeat case_decide; simplify_eq; cbn; lia.
Qed.

Lemma demo_vinv : @vinv demo_fs [] demo.
Proof.
  split.
  - cbn [base demo tables]. apply one_table_core; intros n; change (VState _ _ _) with (base demo); rewrite ?demo_held, ?demo_cts; repeat case_decide; cbn; (done || lia).
  - repeat (apply Forall_cons; split; [split_and!; [done|done|by intros n [= <-]]|]). constructor.
  - done.
Qed.

Lemma demo_roomy : roomy demo.
Proof. intros n. rewrite demo_cts. repeat case_decide; done. Qed.

Lemma lookup_takes_one_witness : exists ret n s', @vfs_lookup demo_fs 1 (chars "disk0:/bin/sh") demo = Ok ((ret, n), s').
Proof.
  destruct (@lookup_takes_one demo_fs [] 1 (chars "disk0:/bin/sh") demo demo_vinv demo_roomy ltac:(eexists; vm_compute; reflexivity)) as (ret & n & s' & E & _); [intros n [= <-] _; by eexists|]. by exists ret, n, s'.
Defined.
