(* ===== verification/VfsSafe.v ===== *)
(** * VfsSafe: what the virtual file system promises *)

From Stdlib Require Import Ascii.
From stdpp Require Import numbers strings gmap list.
From S2P Require Import Prelude Files FilesInv FilesOps FilesTab Vfs VfsPath VfsRefs.
Local Open Scope Z_scope.

(** ** Devices as a map of names *)

Fixpoint devmap (l : list vfs_dev) : gmap path vfs_dev := match l with [] => ∅ | d :: l => <[devname d := d]> (devmap l) end.
Definition dnames (l : list vfs_dev) : list path := devname <$> l.

Lemma find_dev_map name l : find_dev (named name) l = devmap l !! name.
Proof.
  induction l as [|d l IH]; cbn [find_dev devmap]; [by rewrite lookup_empty|]. unfold named at 1. rewrite lookup_insert.
  destruct (decide (devname d = name)) as [E|E]; [by rewrite bool_decide_eq_true_2|by rewrite bool_decide_eq_false_2].
Qed.

Lemma devmap_none name l : devmap l !! name = None <-> name ∉ dnames l.
Proof.
  unfold dnames. induction l as [|d l IH]; cbn [devmap fmap list_fmap]; [rewrite lookup_empty; split; [intros _; apply not_elem_of_nil|done]|]. rewrite not_elem_of_cons, <- IH, lookup_insert. case_decide; naive_solver.
Qed.

Lemma find_mount_map name l : NoDup (dnames l) -> find_dev (mount_name name) l = (d ← devmap l !! name; if mountable d then Some d else None).
Proof.
  induction l as [|d l IH]; intros Hn; [done|]. apply NoDup_cons in Hn as [Hd Hn]. cbn [find_dev devmap]. unfold mount_name at 1, named. rewrite lookup_insert. destruct (decide (devname d = name)) as [<-|E].
  - rewrite bool_decide_eq_true_2, andb_true_r by done. cbn. destruct (mountable d); [done|]. rewrite IH by done. by rewrite (proj2 (devmap_none _ l) Hd).
  - rewrite bool_decide_eq_false_2, andb_false_r by done. by apply IH.
Qed.

Lemma conflict_map name l : check_devname_conflict name l = bool_decide (devmap l !! name = None).
Proof.
  unfold check_devname_conflict. induction l as [|d l IH]; [done|]. cbn [forallb devmap]. rewrite IH. unfold named. rewrite lookup_insert. destruct (decide (devname d = name)) as [E|E].
  - rewrite (bool_decide_eq_true_2 (devname d = name)) by done. cbn [negb andb]. by rewrite bool_decide_eq_false_2.
  - rewrite (bool_decide_eq_false_2 (devname d = name)) by done. done.
Qed.

Lemma upd_dev_names name f l : dnames (upd_dev (mount_name name) (set_fs f) l) = dnames l.
Proof. induction l as [|d l IH]; [done|]. cbn. destruct (mount_name name d); [done|]. cbn. by f_equal. Qed.

Lemma upd_dev_map name f l d : NoDup (dnames l) -> find_dev (mount_name name) l = Some d -> devmap (upd_dev (mount_name name) (set_fs f) l) = <[name := set_fs f d]> (devmap l).
Proof.
  induction l as [|e l IH]; intros Hn Hf; [done|]. apply NoDup_cons in Hn as [He Hn]. cbn in Hf. cbn [upd_dev]. destruct (mount_name name e) eqn:Em.
  - injection Hf as ->. cbn [devmap]. unfold mount_name, named in Em. apply andb_true_iff in Em as [_ E%bool_decide_eq_true_1]. change (devname (set_fs f d)) with (devname d). rewrite E. by rewrite insert_insert_eq.
  - cbn [devmap]. rewrite (IH Hn Hf). apply insert_insert_ne. intros <-. rewrite find_mount_map in Hf by done. by rewrite (proj2 (devmap_none _ l) He) in Hf.
Qed.

Lemma upd_dev_ok `{FileSystems} p f l : Forall dev_ok l -> (forall d, p d = true -> mountable d = true) -> Forall dev_ok (upd_dev p (set_fs f) l).
Proof.
  intros Hl Hp. induction Hl as [|d l Hd Hl IH]; cbn; [constructor|]. destruct (p d) eqn:E; constructor; try done. destruct Hd as (H1 & H2 & H3). split_and!; [done|intros _; apply H1, Hp, E|done].
Qed.

Lemma mount_name_mountable name d : mount_name name d = true -> mountable d = true.
Proof. unfold mount_name. intros [? _]%andb_true_iff. done. Qed.

Section devices.
Context `{FileSystems}.

(** Operations on the list of devices; the answers of memory allocation and of the mount
    routine are inputs. *)
Inductive dop :=
| AddFs (name : path) (f : Z) (mem : bool * bool)
| AddDev (name : path) (n : Z) (mnt : bool) (mem : bool * bool)
| Mount (name : path) (mountfunc : Z -> Z * Z)
| Unmount (name : path)
| UnmountAll.

Definition run_dop (o : dop) : M vfs Z :=
  match o with
  | AddFs name f mem => vfs_add_fs name f mem
  | AddDev name n mnt mem => vfs_add_dev name n mnt mem
  | Mount name g => vfs_mount name g
  | Unmount name => vfs_unmount name
  | UnmountAll => vfs_unmount_all
  end.

(** What they do to the map of names. *)
Definition add_spec (d : vfs_dev) (mem : bool * bool) (m : gmap path vfs_dev) : Z * gmap path vfs_dev :=
  if FS_MAX_DNAME_LEN <? Z.of_nat (length (devname d)) then (- E_TOO_BIG, m)
  else if negb (fst mem && snd mem) then (- ENOMEM, m)
  else match m !! devname d with Some _ => (- E_EXISTS, m) | None => (0, <[devname d := d]> m) end.
Definition released (f : Z) : Z := if answer (FsopSync f) =? 0 then answer (FsopUnmount f) else answer (FsopSync f).
Definition unmounted (d : vfs_dev) : vfs_dev :=
  match fs d with Some f => if mountable d && (released f =? 0) then set_fs None d else d | None => d end.
Definition dspec (o : dop) (m : gmap path vfs_dev) : Z * gmap path vfs_dev :=
  match o with
  | AddFs name f mem => add_spec (VfsDev name None (Some f) false) mem m
  | AddDev name n mnt mem => add_spec (VfsDev name (Some n) None mnt) mem m
  | Mount name g =>
      match m !! name with
      | Some (VfsDev _ (Some n) None true as d) => let '(ret, f) := g n in (ret, if ret =? 0 then <[name := set_fs (Some f) d]> m else m)
      | Some (VfsDev _ _ (Some _) true) => (- EBUSY, m)
      | _ => (- E_NO_DEV, m)
      end
  | Unmount name =>
      match m !! name with
      | Some (VfsDev _ _ (Some f) true as d) => (released f, if released f =? 0 then <[name := set_fs None d]> m else m)
      | Some (VfsDev _ _ None true) => (- EINVAL, m)
      | _ => (- E_NO_DEV, m)
      end
  | UnmountAll => (0, unmounted <$> m)
  end.

(** The list of devices of [s'] is [l], and nothing else changed but for the calls made. *)
Definition only_devs (s s' : vfs) (l : list vfs_dev) : Prop :=
  base s' = base s /\ vdev_list s' = l /\ bootfs_node s' = bootfs_node s /\ file_system_type_list s' = file_system_type_list s.

Definition devs_wf (s : vfs) : Prop := NoDup (dnames (vdev_list s)) /\ Forall dev_ok (vdev_list s).

(** The operation [c] returns [r.1] and leaves a list with the map [r.2]. *)
Definition refines (s : vfs) (c : M vfs Z) (r : Z * gmap path vfs_dev) : Prop :=
  exists l s', c s = Ok (fst r, s') /\ only_devs s s' l /\ devmap l = snd r /\ NoDup (dnames l) /\ Forall dev_ok l.

Lemma refines_same s c ret : devs_wf s -> c s = Ok (ret, s) -> refines s c (ret, devmap (vdev_list s)).
Proof. intros [Hn Ho] E. by exists (vdev_list s), s. Qed.

Lemma add_refines s name n f mnt mem : devs_wf s -> (n = None -> mnt = false /\ f <> None) -> (forall x, n = Some x -> is_device x = true) -> refines s (vfs_do_add name n f mnt mem) (add_spec (VfsDev name n f mnt) mem (devmap (vdev_list s))).
Proof.
  intros W Hn Hdv. unfold vfs_do_add, add_spec. cbn [devname]. assert (Hk : bool_decide (n = None) && negb mnt || from_option is_device false n = true).
  { destruct n as [n|]; [cbn; by apply Hdv|]. destruct (Hn eq_refl) as [-> _]. done. }
  unfold refines. rewrite bind_kassert by exact Hk. destruct (_ <? _); [by apply refines_same|]. destruct (negb (fst mem && snd mem)); [by apply refines_same|]. rewrite bind_gets. rewrite conflict_map.
  destruct (devmap (vdev_list s) !! name) as [d|] eqn:Hd; [rewrite bool_decide_eq_false_2 by done; by apply refines_same|]. rewrite bool_decide_eq_true_2 by done. cbn [negb]. rewrite bind_modify.
  destruct W as [Wn Wo]. eexists (VfsDev name n f mnt :: vdev_list s), _. split; [reflexivity|]. split; [done|]. split; [done|]. split.
  - apply NoDup_cons. split; [by apply devmap_none|done].
  - constructor; [|done]. split_and!; cbn; [intros E En; destruct (Hn En) as [E1 E2]; congruence..|exact Hdv].
Qed.

Lemma mount_refines s name g : devs_wf s -> refines s (vfs_mount name g) (dspec (Mount name g) (devmap (vdev_list s))).
Proof.
  intros W. destruct W as [Wn Wo] eqn:EW. clear EW. unfold refines, vfs_mount, find_mount. rewrite bind_assoc_M, bind_gets. cbn [dspec]. pose proof (find_mount_map name (vdev_list s) Wn) as Hm.
  rewrite (bind_step _ _ s (find_dev (mount_name name) (vdev_list s)) s) by done. destruct (devmap (vdev_list s) !! name) as [d|] eqn:Hd; cbn in Hm; [|rewrite Hm; by apply refines_same].
  destruct d as [dn [n|] o []]; cbn in Hm; rewrite Hm; try (destruct o; by apply refines_same).
  - destruct o as [f|]; [rewrite decide_True by done; by apply refines_same|]. rewrite decide_False by (cbn; tauto). cbn [devnode]. pose proof (find_dev_in _ _ _ Hm) as [Hin _]. assert (Hdv : is_device n = true) by (rewrite Forall_forall in Wo; by apply (Wo _ Hin)). rewrite bind_kassert by exact Hdv. destruct (g n) as [ret f]. cbn [fst snd].
    destruct (Z.eqb_spec ret 0) as [->|Hr]; [|rewrite (bind_step _ _ s tt s) by done; by apply refines_same]. rewrite bind_modify.
    eexists (upd_dev (mount_name name) (set_fs (Some f)) (vdev_list s)), _. split; [reflexivity|]. split; [done|]. split; [by apply upd_dev_map|]. split; [by rewrite upd_dev_names|].
    apply upd_dev_ok; [done|apply mount_name_mountable].
  - apply find_dev_in in Hm as [Hin _]. rewrite Forall_forall in Wo. destruct (Wo _ Hin) as (H1 & _). by destruct (H1 eq_refl).
Qed.

Lemma unmount_refines s name : devs_wf s -> refines s (vfs_unmount name) (dspec (Unmount name) (devmap (vdev_list s))).
Proof.
  intros W. destruct W as [Wn Wo] eqn:EW. clear EW. unfold refines, vfs_unmount, find_mount. rewrite bind_assoc_M, bind_gets. cbn [dspec]. pose proof (find_mount_map name (vdev_list s) Wn) as Hm.
  rewrite (bind_step _ _ s (find_dev (mount_name name) (vdev_list s)) s) by done. destruct (devmap (vdev_list s) !! name) as [d|] eqn:Hd; cbn in Hm; [|rewrite Hm; by apply refines_same].
  destruct d as [dn n [f|] []]; cbn in Hm; rewrite Hm; try by apply refines_same. cbn [fs]. unfold fsop, released. rewrite bind_assoc_M, bind_modify.
  rewrite (bind_step _ _ (add_vop (FsopSync f) s) (answer (FsopSync f)) (add_vop (FsopSync f) s)) by done. destruct (Z.eqb_spec (answer (FsopSync f)) 0) as [E0|E0]; cbn [negb fst snd].
  - rewrite bind_assoc_M, bind_modify. set (s2 := add_vop _ (add_vop _ s)). rewrite (bind_step _ _ s2 (answer (FsopUnmount f)) s2) by done. destruct (Z.eqb_spec (answer (FsopUnmount f)) 0) as [->|E1].
    + rewrite bind_modify. eexists (upd_dev (mount_name name) (set_fs None) (vdev_list s)), _. split; [reflexivity|]. split; [done|]. split; [by apply upd_dev_map|]. split; [by rewrite upd_dev_names|].
      apply upd_dev_ok; [done|apply mount_name_mountable].
    + rewrite (bind_step _ _ s2 tt s2) by done. by exists (vdev_list s), s2.
  - destruct (Z.eqb_spec (answer (FsopSync f)) 0); [done|]. by exists (vdev_list s), (add_vop (FsopSync f) s).
Qed.

Lemma unmounted_name d : devname (unmounted d) = devname d.
Proof. unfold unmounted. destruct (fs d); [|done]. by destruct (_ && _). Qed.

Lemma unmount_loop_ok l s : exists s', unmount_loop l s = Ok (unmounted <$> l, s') /\ only_devs s s' (vdev_list s).
Proof.
  revert s. induction l as [|d l IH]; intros s; [by exists s|]. cbn [unmount_loop fmap list_fmap].
  assert (Hd : exists s1, (match fs d with Some f => if mountable d then ret ← fsop (FsopSync f); if negb (ret =? 0) then mret d else ret ← fsop (FsopUnmount f); mret (if ret =? 0 then set_fs None d else d) else mret d | None => mret d end) s
      = Ok (unmounted d, s1) /\ only_devs s s1 (vdev_list s)).
  { unfold unmounted, released. destruct (fs d) as [f|]; [|by exists s]. destruct (mountable d); [|by exists s]. unfold fsop. rewrite bind_assoc_M, bind_modify. set (s1 := add_vop _ s).
    rewrite (bind_step _ _ s1 (answer (FsopSync f)) s1) by done. destruct (Z.eqb_spec (answer (FsopSync f)) 0) as [E0|E0]; cbn [negb andb].
    - rewrite bind_assoc_M, bind_modify. set (s2 := add_vop _ s1). rewrite (bind_step _ _ s2 (answer (FsopUnmount f)) s2) by done. exists s2. done.
    - destruct (Z.eqb_spec (answer (FsopSync f)) 0); [done|]. by exists s1. }
  destruct Hd as (s1 & E1 & B1 & V1 & O1 & T1). rewrite (bind_step _ _ _ _ _ E1). destruct (IH s1) as (s2 & E2 & B2 & V2 & O2 & T2). rewrite (bind_step _ _ _ _ _ E2).
  exists s2. split; [done|]. unfold only_devs. split_and!; congruence.
Qed.

Lemma unmount_all_refines s : devs_wf s -> refines s vfs_unmount_all (dspec UnmountAll (devmap (vdev_list s))).
Proof.
  intros [Wn Wo]. unfold refines, vfs_unmount_all. rewrite bind_gets. destruct (unmount_loop_ok (vdev_list s) s) as (s1 & E1 & B1 & V1 & O1 & T1). rewrite (bind_step _ _ _ _ _ E1), bind_modify.
  exists (unmounted <$> vdev_list s), (set_devs (unmounted <$> vdev_list s) s1). split; [done|]. split; [done|]. clear -Wn Wo. split; [|split].
  - cbn [dspec snd]. induction (vdev_list s) as [|d l IH]; cbn [fmap list_fmap devmap]; [by rewrite fmap_empty|]. apply NoDup_cons in Wn as [_ Wn]. inversion Wo; subst. change (list_fmap _ _ unmounted l) with (unmounted <$> l).
    by rewrite unmounted_name, fmap_insert, IH.
  - unfold dnames. rewrite <- list_fmap_compose. by rewrite (list_fmap_ext _ devname) by (intros i d _; apply unmounted_name).
  - apply Forall_fmap. eapply Forall_impl; [exact Wo|]. intros d (H1 & H2 & H3). unfold unmounted. cbn. destruct (fs d) eqn:Ef; [|by split_and!; cbn; [|intros _; apply H2|]]. destruct (mountable d) eqn:Em; cbn [andb]; [|by split_and!; cbn; [rewrite Em|rewrite Ef|]].
    destruct (_ =? 0); split_and!; cbn; intros; try (by apply H1); try (by apply H3); congruence.
Qed.
End devices.

(** [vfs_add_dev] asserts that the inode is that of a device. *)
Definition dop_ok `{FileSystems} (o : dop) : bool := match o with AddDev _ n _ _ => is_device n | _ => true end.

(** C15: the list of devices behaves as a finite map from names: adding a device or a file
    system inserts under a new name, mounting puts a file system on a mountable device
    that has none, unmounting takes it off when the file system agrees; every
    other case is the error the code documents and changes nothing.  Names stay
    unique, and a device without a file system keeps its inode.  Only adding an inode
    that is not a device's fails an assertion. *)
Theorem devices_refine `{FileSystems} o s : devs_wf s ->
  if dop_ok o then
    exists s', run_dop o s = Ok (fst (dspec o (devmap (vdev_list s))), s') /\ devmap (vdev_list s') = snd (dspec o (devmap (vdev_list s))) /\ devs_wf s' /\ base s' = base s /\ bootfs_node s' = bootfs_node s
  else run_dop o s = Err AssertFailed.
Proof.
  intros W. destruct (dop_ok o) eqn:Ho.
  2: { destruct o; try done. cbn [run_dop dop_ok] in *. apply bind_err. cbn. by rewrite Ho. }
  assert (R : refines s (run_dop o) (dspec o (devmap (vdev_list s)))).
  { destruct o; [by apply add_refines|apply add_refines; [done|done|by intros x [= <-]]|by apply mount_refines|by apply unmount_refines|by apply unmount_all_refines]. }
  destruct R as (l & s' & E & (B & V & O & T) & M & N & F). exists s'. unfold devs_wf. rewrite V. done.
Qed.

(** The code of [vfs_mount] on a device: it is mounted once. *)
Lemma devices_refine_witness : exists s', @run_dop demo_fs (Mount (chars "disk0") (fun _ => (0, 6))) demo = Ok (- EBUSY, s') /\ devmap (vdev_list s') = devmap (vdev_list demo).
Proof.
  destruct (@devices_refine demo_fs (Mount (chars "disk0") (fun _ => (0, 6))) demo) as (s' & E & M & _); [split; [by apply (bool_decide_unpack _)|apply (vi_dev _ _ demo_vinv)]|].
  exists s'. split; [rewrite E; vm_compute; reflexivity|rewrite M; reflexivity].
Defined.

(** ** Operations on names *)

Section names.
Context `{FileSystems}.

Inductive nop :=
| Unlink (p : path)
| Mkdir (p : path)
| Symlink (target p : path)
| Readlink (p : path)
| Rename (p q : path)
| Link (p q : path)
| Chdir (p : path)
| Getcwd (moved : Z * Z)
| SetBootfs (name : option path).

Definition run_nop (t : Z) (o : nop) : M vfs Z :=
  match o with
  | Unlink p => vfs_unlink t p
  | Mkdir p => vfs_mkdir t p
  | Symlink q p => vfs_symlink t q p
  | Readlink p => vfs_readlink t p
  | Rename p q => vfs_rename t p q
  | Link p q => vfs_link t p q
  | Chdir p => vfs_chdir t p
  | Getcwd moved => vfs_getcwd t moved
  | SetBootfs name => vfs_set_bootfs t name
  end.



End names.






(** The file system of the pipes asserts that names begin with r_ or w_: any process can
    panic the kernel with the name of a pipe. *)
Example mkdir_pipe_panics : @run_nop demo_fs 1 (Mkdir (chars "pipe:x")) demo = Err AssertFailed /\ @run_nop demo_fs 1 (Chdir (chars "pipe:/x")) demo = Err AssertFailed.
Proof. split; vm_compute; reflexivity. Qed.

(** ** Types of file systems *)

(** A type that was registered is found by [do_mount] until it is unregistered, and cannot be
    registered twice. *)
Theorem types_registered `{FileSystems} mount dev name m s : Z.of_nat (length name) <= FS_MAX_DNAME_LEN -> find_type name (file_system_type_list s) = None ->
  exists s1, register_filesystem name m (true, true) s = Ok (0, s1) /\ do_mount mount dev name s1 = mount m dev s1 /\
    register_filesystem name m (true, true) s1 = Ok (- E_EXISTS, s1) /\ unregister_filesystem name s1 = Ok (0, s) /\ do_mount mount dev name s = Ok (- E_EXISTS, s).
Proof.
  intros Hl Hf. assert (Hn : existsb (fun x => bool_decide (fsname x = name)) (file_system_type_list s) = false).
  { revert Hf. unfold find_type. induction (file_system_type_list s) as [|x l IH]; [done|]. cbn. destruct (decide (fsname x = name)) as [E|E]; [done|]. rewrite bool_decide_eq_false_2 by done. cbn. intros Hf. apply IH. by destruct (list_find _ l). }
  assert (Hlen : FS_MAX_DNAME_LEN <? Z.of_nat (length name) = false) by (apply Z.ltb_ge; lia).
  unfold register_filesystem, unregister_filesystem, do_mount. rewrite Hlen. cbn [fst snd andb negb]. rewrite bind_gets, Hn, bind_modify. eexists. split; [reflexivity|].
  rewrite !bind_gets. cbn [file_system_type_list set_types existsb del_type fsname]. rewrite Hf. unfold find_type. cbn [list_find fsname]. rewrite decide_True by done. cbn [fmap option_fmap option_map snd fsmount].
  rewrite bool_decide_eq_true_2 by done. cbn [orb]. rewrite bind_modify. split; [done|]. split; [done|]. split; [by destruct s|done].
Qed.
