(* ===== verification/Slob.v ===== *)
(** * Slob: the heap of the kernel as a simple list of blocks (mm/slob.c)

    One of the two configurations of [kmalloc].  Free blocks form a ring in the order
    of their addresses, through headers in the blocks themselves; the static [arena]
    is one of them, so that the ring is never empty.  Objects of about a page or more
    come from the page allocator and are kept in a list.  What the page allocator has
    to offer is an input ([offers]: blocks of [2^order] pages), what is given back to
    it is a log ([freed]).  The spin locks
    with interrupts off make every routine one step. *)

From stdpp Require Import numbers gmap list.
From S2P Require Import Prelude.
Local Open Scope Z_scope.

Definition PAGE_SIZE : Z := 4096.
Definition SLOB_UNIT : Z := 8.
Definition SLOB_UNITS (size : Z) : Z := (size + SLOB_UNIT - 1) / SLOB_UNIT.
Definition ALIGN (addr size : Z) : Z := Z.land (u32 (addr + size - 1)) (Z.lnot (size - 1)).

(** A header; [next] is an address. *)
Record slob := Slob { units : Z; next : Z }.
(** [addr]: where the [struct bigblock], of 12 bytes, lies. *)
Record bigblock := Big { addr : Z; order : Z; pages : Z }.
Definition BIGBLOCK_SIZE : Z := 12.

Record heap := Heap { cells : gmap Z slob; slobfree : Z; bigblocks : list bigblock; offers : list (Z * Z); freed : list (Z * Z) }.

Definition set_cells (m : gmap Z slob) (s : heap) : heap := Heap m (slobfree s) (bigblocks s) (offers s) (freed s).
Definition set_slobfree (a : Z) (s : heap) : heap := Heap (cells s) a (bigblocks s) (offers s) (freed s).
Definition set_bigs (l : list bigblock) (s : heap) : heap := Heap (cells s) (slobfree s) l (offers s) (freed s).
Definition set_offers (l : list (Z * Z)) (s : heap) : heap := Heap (cells s) (slobfree s) (bigblocks s) l (freed s).
Definition add_freed (x : Z * Z) (s : heap) : heap := Heap (cells s) (slobfree s) (bigblocks s) (offers s) (x :: freed s).

Definition cell (a : Z) : M heap slob := load (fun s => cells s !! a).
Definition put_cell (a : Z) (c : slob) : M heap unit := modify (fun s => set_cells (<[a := c]> (cells s)) s).
Definition set_next (a n : Z) : M heap unit := c ← cell a; put_cell a (Slob (units c) n).
(** The block may have held data: a header is written over it. *)
Definition set_units (a u : Z) : M heap unit := modify (fun s => set_cells (<[a := Slob u (default 0 (next <$> cells s !! a))]> (cells s)) s).

(** The arena at the address [a]. *)
Definition slob_init (a : Z) (l : list (Z * Z)) : heap := Heap {[a := Slob 1 a]} a [] l [].

(** The first block offered that has this order; 0 when there is none. *)
Fixpoint take_offer (order : Z) (l : list (Z * Z)) : Z * list (Z * Z) :=
  match l with
  | [] => (0, [])
  | x :: l => if fst x =? order then (snd x, l) else let (p, l') := take_offer order l in (p, x :: l')
  end.

(** [alloc_pages(1 << order)]; [getorder] panics above 1024 pages. *)
Definition __slob_get_free_pages (order : Z) : M heap Z :=
  _ ← kassert (Z.shiftl 1 order <=? 1024);
  l ← gets offers;
  let (p, l') := take_offer order l in
  _ ← modify (set_offers l');
  mret p.
(** [free_pages(kva2page(kva), 1 << order)] *)
Definition __slob_free_pages (kva order : Z) : M heap unit := modify (add_freed (kva, order)).

(** ** Freeing *)

Fixpoint find_point (k : nat) (b cur : Z) : M heap Z :=
  match k with
  | O => fail OutOfFuel
  | S k =>
      c ← cell cur;
      if (cur <? b) && (b <? next c) then mret cur
      else if (next c <=? cur) && ((cur <? b) || (b <? next c)) then mret cur
      else find_point k b (next c)
  end.

(** The block is linked to what follows it, or merged with it; then what precedes it. *)
Definition join_next (cur b : Z) : M heap unit :=
  c ← cell cur;
  x ← cell b;
  if b + SLOB_UNIT * units x =? next c then n ← cell (next c); put_cell b (Slob (units x + units n) (next n)) else set_next b (next c).
Definition join_prev (cur b : Z) : M heap unit :=
  c ← cell cur;
  _ ← (if cur + SLOB_UNIT * units c =? b then x ← cell b; put_cell cur (Slob (units c + units x) (next x)) else set_next cur b);
  modify (set_slobfree cur).

Definition slob_free (b size : Z) : M heap unit :=
  if b =? 0 then mret tt
  else
    _ ← (if negb (size =? 0) then set_units b (SLOB_UNITS size) else mret tt);
    s ← gets (fun s => s);
    cur ← find_point (base.size (cells s) + 2) b (slobfree s);
    _ ← join_next cur b;
    join_prev cur b.

(** ** Allocation *)

(** There is room in [cur]: its front is split off for the alignment, and the rest of it. *)
Definition slob_take (units_ prev cur aligned delta : Z) : M heap Z :=
  '(prev, cur) ← (if negb (delta =? 0) then
                    c ← cell cur;
                    _ ← put_cell aligned (Slob (units c - delta) (next c));
                    _ ← put_cell cur (Slob delta aligned);
                    mret (cur, aligned)
                  else mret (prev, cur));
  c ← cell cur;
  _ ← (if units c =? units_ then set_next prev (next c)
       else
         let r := cur + SLOB_UNIT * units_ in
         _ ← set_next prev r;
         c ← cell cur;
         _ ← put_cell r (Slob (units c - units_) (next c));
         set_units cur units_);
  _ ← modify (set_slobfree prev);
  mret cur.

Fixpoint alloc_loop (k : nat) (size units_ align prev cur : Z) : M heap Z :=
  match k with
  | O => fail OutOfFuel
  | S k =>
      c ← cell cur;
      let aligned := if align =? 0 then 0 else ALIGN cur align in
      let delta := if align =? 0 then 0 else (aligned - cur) / SLOB_UNIT in
      if units_ + delta <=? units c then slob_take units_ prev cur aligned delta
      else
        s ← gets slobfree;
        if cur =? s then
          if size =? PAGE_SIZE then mret 0
          else
            p ← __slob_get_free_pages 0;
            if p =? 0 then mret 0
            else
              _ ← slob_free p PAGE_SIZE;
              cur ← gets slobfree;
              c ← cell cur;
              alloc_loop k size units_ align cur (next c)
        else alloc_loop k size units_ align cur (next c)
  end.

Definition slob_alloc (size align : Z) : M heap Z :=
  _ ← kassert (u32 (size + SLOB_UNIT) <? PAGE_SIZE);
  s ← gets (fun s => s);
  let prev := slobfree s in
  c ← cell prev;
  alloc_loop (2 * base.size (cells s) + 4) size (SLOB_UNITS size) align prev (next c).

(** ** [kmalloc] *)

(** [size] is an [int]: at most 31 halvings. *)
Fixpoint order_loop (k : nat) (size order : Z) : Z :=
  match k with O => order | S k => if 4096 <? size then order_loop k (Z.shiftr size 1) (order + 1) else order end.
Definition find_order (size : Z) : Z := order_loop 32 (s32 size) 0.

Definition __kmalloc (size : Z) : M heap Z :=
  if size <? PAGE_SIZE - SLOB_UNIT then
    m ← slob_alloc (size + SLOB_UNIT) 0;
    mret (if m =? 0 then 0 else m + SLOB_UNIT)
  else
    bb ← slob_alloc BIGBLOCK_SIZE 0;
    if bb =? 0 then mret 0
    else
      let o := find_order size in
      p ← __slob_get_free_pages o;
      _ ← put_cell bb (Slob o p);
      if negb (p =? 0) then
        _ ← modify (fun s => set_bigs (Big bb o p :: bigblocks s) s);
        mret p
      else _ ← slob_free bb BIGBLOCK_SIZE; mret 0.
Definition kmalloc (size : Z) : M heap Z := __kmalloc size.

Fixpoint find_big (block : Z) (l : list bigblock) : option bigblock :=
  match l with [] => None | b :: l => if pages b =? block then Some b else find_big block l end.
Fixpoint del_big (block : Z) (l : list bigblock) : list bigblock :=
  match l with [] => [] | b :: l => if pages b =? block then l else b :: del_big block l end.
(** The list is searched for blocks at a page boundary. *)
Definition big_at (block : Z) (l : list bigblock) : option bigblock := if Z.land block (PAGE_SIZE - 1) =? 0 then find_big block l else None.

Definition kfree (block : Z) : M heap unit :=
  if block =? 0 then mret tt
  else
    l ← gets bigblocks;
    match big_at block l with
    | Some bb =>
        _ ← modify (set_bigs (del_big block l));
        _ ← __slob_free_pages block (order bb);
        slob_free (addr bb) BIGBLOCK_SIZE
    | None => slob_free (block - SLOB_UNIT) 0
    end.

Definition ksize (block : Z) : M heap Z :=
  if block =? 0 then mret 0
  else
    l ← gets bigblocks;
    match big_at block l with
    | Some bb => mret (u32 (Z.shiftl PAGE_SIZE (order bb)))
    | None => c ← cell (block - SLOB_UNIT); mret (u32 (units c * SLOB_UNIT))
    end.
