(* ===== verification/SlobRing.v ===== *)
(** * SlobRing: the ring of free blocks *)

From stdpp Require Import numbers gmap list sorting.
From S2P Require Import Prelude Slob.
Local Open Scope Z_scope.

(** ** Blocks *)

(** An address and a number of units. *)
Abbreviation blk := (Z * Z)%type.
Definition stop (x : blk) : Z := fst x + SLOB_UNIT * snd x.
Definition bytes (x : blk) (p : Z) : Prop := fst x <= p < stop x.
Definition covers (L : list blk) (p : Z) : Prop := exists x, x ∈ L /\ bytes x p.
Definition before (x y : blk) : Prop := stop x <= fst y.
Definition apart (x y : blk) : Prop := before x y \/ before y x.
Definition sound (x : blk) : Prop := 0 < snd x.

Ltac blia := unfold apart, before, bytes, stop, sound, SLOB_UNIT in *; cbn [fst snd] in *; lia.

Lemma covers_cons x L p : covers (x :: L) p <-> bytes x p \/ covers L p.
Proof. unfold covers. setoid_rewrite elem_of_cons. naive_solver. Qed.

Lemma covers_app L L' p : covers (L ++ L') p <-> covers L p \/ covers L' p.
Proof. unfold covers. setoid_rewrite elem_of_app. naive_solver. Qed.

Lemma covers_perm L L' p : L ≡ₚ L' -> covers L p <-> covers L' p.
Proof. intros HP. unfold covers. by setoid_rewrite HP. Qed.

Lemma covers_nil p : covers [] p <-> False.
Proof. split; [|done]. intros (x & Hx & _). by apply not_elem_of_nil in Hx. Qed.

(** ** Rings *)

(** Blocks linked through their headers, from [a] to [z]. *)
Fixpoint chain (m : gmap Z slob) (a : Z) (L : list blk) (z : Z) : Prop :=
  match L with [] => a = z | (x, u) :: L => a = x /\ exists n, m !! x = Some (Slob u n) /\ chain m n L z end.

Definition first (L : list blk) (z : Z) : Z := match L with [] => z | x :: _ => fst x end.

(** A rotation of a list in the order of addresses. *)
Definition rot (L : list blk) : Prop := exists A B, L = B ++ A /\ StronglySorted before (A ++ B).

Record ring (m : gmap Z slob) (a : Z) (L : list blk) : Prop := {
  rg_chain : chain m a L a;
  rg_ne : L <> [];
  rg_rot : rot L;
  rg_sound : Forall sound L }.

Lemma chain_first m a L z : chain m a L z -> a = first L z.
Proof. destruct L as [|[x u] L]; [done|]. by intros [-> _]. Qed.

Lemma chain_app m a L L' z : chain m a (L ++ L') z <-> exists y, chain m a L y /\ chain m y L' z.
Proof.
  revert a. induction L as [|[x u] L IH]; intros a; cbn; [naive_solver|]. split.
  - intros (-> & n & Hm & (y & H1 & H2)%IH). exists y. split; [|done]. split; [done|]. by exists n.
  - intros (y & (-> & n & Hm & H1) & H2). split; [done|]. exists n. split; [done|]. apply IH. by exists y.
Qed.

Lemma chain_lookup m a L z x u : chain m a L z -> (x, u) ∈ L -> exists n, m !! x = Some (Slob u n).
Proof.
  revert a. induction L as [|[y v] L IH]; intros a Hc Hin; [by apply not_elem_of_nil in Hin|]. destruct Hc as (-> & n & Hm & Hc). apply elem_of_cons in Hin as [[= -> ->]|Hin]; [by exists n|by eapply IH].
Qed.

(** Only the headers of the blocks matter. *)
Lemma chain_frame m m' a L z : (forall x, x ∈ L.*1 -> m' !! x = m !! x) -> chain m a L z -> chain m' a L z.
Proof.
  revert a. induction L as [|[x u] L IH]; intros a Hf Hc; [done|]. destruct Hc as (-> & n & Hm & Hc). split; [done|]. exists n. split; [rewrite Hf; [done|by left]|]. apply IH; [|done]. intros y Hy. apply Hf. by right.
Qed.

Lemma rot_perm L : rot L -> exists F, L ≡ₚ F /\ StronglySorted before F.
Proof. intros (A & B & -> & Hs). exists (A ++ B). split; [apply Permutation_app_comm|done]. Qed.

Lemma rot_rotate L L' : rot (L ++ L') -> rot (L' ++ L).
Proof.
  intros (A & B & E & Hs). apply app_eq_app in E as [M [[-> ->]|[-> ->]]].
  - exists M, (L' ++ B). by rewrite <- !app_assoc in *.
  - exists (A ++ L), M. by rewrite <- !app_assoc in *.
Qed.

Lemma slob_ring_rotate m a L L' : ring m a (L ++ L') -> L' <> [] -> ring m (first L' a) (L' ++ L).
Proof.
  intros [Hc Hn Hr Hs] Hne. apply chain_app in Hc as (y & H1 & H2). pose proof (chain_first _ _ _ _ H2) as Hy. destruct L' as [|x L']; [done|]. cbn [first] in *. subst y. split.
  - apply chain_app. by exists a.
  - done.
  - by apply rot_rotate.
  - by rewrite Forall_app in *; destruct Hs.
Qed.

Lemma sorted_apart F x y : StronglySorted before F -> x ∈ F -> y ∈ F -> x = y \/ apart x y.
Proof.
  induction 1 as [|z F Hs IH Hz]; intros Hx Hy; [by apply not_elem_of_nil in Hx|]. rewrite Forall_forall in Hz. apply elem_of_cons in Hx. apply elem_of_cons in Hy. destruct Hx as [->|Hx], Hy as [->|Hy]; [by left|right; left; by apply Hz|right; right; by apply Hz|by apply IH].
Qed.

Lemma rot_apart L x y : rot L -> x ∈ L -> y ∈ L -> x = y \/ apart x y.
Proof. intros (F & HP & Hs)%rot_perm. rewrite HP. by apply sorted_apart. Qed.

Lemma before_nodup F : Forall sound F -> StronglySorted before F -> NoDup F.*1.
Proof.
  intros Hf Hs. induction Hs as [|x F Hs IH Hx]; [constructor|]. inversion Hf as [|? ? Hx0 Hf']; subst. apply NoDup_cons. split; [|by apply IH]. intros (y & E & Hy)%list_elem_of_fmap.
  rewrite Forall_forall in Hx. specialize (Hx y Hy). blia.
Qed.

Lemma ring_nodup m a L : ring m a L -> NoDup L.*1.
Proof.
  intros R. destruct (rot_perm L (rg_rot _ _ _ R)) as (F & HP & Hs). pose proof (rg_sound _ _ _ R) as Hf. rewrite HP in Hf |- *. by apply before_nodup.
Qed.

Lemma before_trans x y z : sound y -> before x y -> before y z -> before x z.
Proof. blia. Qed.

(** ** Searching the place of a block *)

Definition place (b x y : Z) : Prop := x < b < y \/ y <= x /\ (x < b \/ b < y).

Lemma find_point_ok s b z : forall L a k, chain (cells s) a L z -> (length L <= k)%nat -> (exists L1 x u L2, L = L1 ++ (x, u) :: L2 /\ place b x (first L2 z)) ->
  exists L1 x u L2, L = L1 ++ (x, u) :: L2 /\ place b x (first L2 z) /\ find_point k b a s = Ok (x, s).
Proof.
  induction L as [|[x u] L IH]; intros a k Hc Hk Hex; [destruct Hex as ([] & ? & ? & ? & ? & _); discriminate|]. destruct k as [|k]; [cbn in Hk; lia|]. destruct Hc as (-> & n & Hm & Hc).
  pose proof (chain_first _ _ _ _ Hc) as Hn. cbn [find_point]. rewrite (bind_step _ _ s (Slob u n) s) by (unfold cell, load; by rewrite Hm). cbn [next].
  destruct ((x <? b) && (b <? n)) eqn:E1; [|destruct ((n <=? x) && ((x <? b) || (b <? n))) eqn:E2].
  - exists [], x, u, L. split; [done|]. split; [left; rewrite <- Hn; lia|done].
  - exists [], x, u, L. split; [done|]. split; [right; rewrite <- Hn; lia|done].
  - destruct (IH n k Hc ltac:(cbn in Hk; lia)) as (L1 & y & v & L2 & E & Hp & Hf).
    + destruct Hex as (L1 & y & v & L2 & E & Hp). destruct L1 as [|p L1]; [|injection E as _ E; by exists L1, y, v, L2]. exfalso. injection E as <- <- <-. unfold place in Hp. rewrite <- Hn in Hp. lia.
    + exists ((x, u) :: L1), y, v, L2. split; [by rewrite E|]. done.
Qed.

Lemma rot_ne L : rot L -> L <> [] -> exists A B, L = B ++ A /\ B <> [] /\ StronglySorted before (A ++ B).
Proof. intros (A & B & -> & Hs) Hn. destruct B as [|x B]; [exists [], A; rewrite app_nil_r in *; by rewrite app_nil_l|by exists A, (x :: B)]. Qed.

Lemma sorted_place F b : StronglySorted before F -> Forall sound F -> b ∉ F.*1 -> F <> [] ->
  (exists F1 x u, F = F1 ++ [(x, u)] /\ first F b <= x /\ (x < b \/ b < first F b)) \/ (exists F1 x u y v F2, F = F1 ++ (x, u) :: (y, v) :: F2 /\ x < b < y).
Proof.
  induction 1 as [|[x u] F Hs IH Hx]; intros Hf Hb Hn; [done|]. cbn [fmap list_fmap fst] in Hb. apply not_elem_of_cons in Hb as [Hbx Hb]. inversion Hf as [|? ? Hx0 Hf']; subst. destruct F as [|[y v] F].
  - left. exists [], x, u. split; [done|]. cbn. lia.
  - assert (Hxy : x < y). { rewrite Forall_forall in Hx. specialize (Hx (y, v) ltac:(by left)). blia. }
    destruct (decide (x < b < y)) as [Hin|Hout]; [right; by exists [], x, u, y, v, F|]. destruct (IH Hf' Hb ltac:(done)) as [(F1 & x2 & u2 & E & H1 & H2)|(F1 & x2 & u2 & y2 & v2 & F2 & E & H1)].
    + left. exists ((x, u) :: F1), x2, u2. split; [by rewrite E|]. cbn in *. lia.
    + right. exists ((x, u) :: F1), x2, u2, y2, v2, F2. split; [by rewrite E|done].
Qed.

Lemma place_exists L b : rot L -> Forall sound L -> L <> [] -> b ∉ L.*1 -> exists L1 x u L2, L = L1 ++ (x, u) :: L2 /\ place b x (first L2 (first L b)).
Proof.
  intros Hr Hf Hn Hb. destruct (rot_ne L Hr Hn) as (A & B & -> & HB & Hs). assert (Hf' : Forall sound (A ++ B)) by (rewrite Forall_app in *; tauto).
  assert (Hb' : b ∉ (A ++ B).*1) by (rewrite fmap_app, not_elem_of_app in *; tauto). destruct (sorted_place (A ++ B) b Hs Hf' Hb') as [(F1 & x & u & E & H1 & H2)|(F1 & x & u & y & v & F2 & E & H1)].
  - by destruct A, B.
  - destruct B as [|p B'] using rev_ind; [done|]. rewrite app_assoc in E. apply app_inj_tail in E as [<- ->]. exists B', x, u, A. split; [by rewrite <- app_assoc|]. right. destruct A as [|[a w] A]; cbn in *; [by destruct B'|done].
  - rewrite cons_middle, app_assoc in E. symmetry in E. apply app_eq_app in E as [M [[E1 E2]|[E1 E2]]].
    + destruct M as [|q M] using rev_ind.
      * rewrite app_nil_r in E1. subst A. cbn in E2. subst B. exists ((y, v) :: F2 ++ F1), x, u, []. split; [cbn; by rewrite app_assoc|]. left. cbn. done.
      * rewrite app_assoc in E1. apply app_inj_tail in E1 as [-> <-]. subst B. exists M, x, u, ((y, v) :: F2 ++ A). split; [by rewrite <- !app_assoc|]. left. done.
    + destruct M as [|q M].
      * rewrite app_nil_r in E1. cbn in E2. subst A B. exists ((y, v) :: F2 ++ F1), x, u, []. split; [cbn; by rewrite app_assoc|]. left. cbn. done.
      * injection E2 as <- ->. subst A. exists (B ++ F1), x, u, ((y, v) :: M). split; [by rewrite <- !app_assoc|]. left. done.
Qed.

(** A block put into its place. *)
Lemma rot_insert x u b w R : rot ((x, u) :: R) -> Forall sound ((x, u) :: R) -> sound (b, w) -> Forall (apart (b, w)) ((x, u) :: R) -> place b x (first R x) -> rot ((x, u) :: (b, w) :: R).
Proof.
  intros Hr Hf Hw Ha Hp. destruct (rot_ne _ Hr ltac:(done)) as (A & B & E & HB & Hs). destruct B as [|q B]; [done|]. injection E as <- ->. apply StronglySorted_app in Hs as (H1 & H2 & H3). apply StronglySorted_inv in H3 as [H3 H4].
  rewrite Forall_forall in H4, Ha, Hf.
  assert (Hxb : x < b -> before (x, u) (b, w)) by (intros Hlt; destruct (Ha (x, u) ltac:(by left)) as [Hb|Hb]; [blia|done]).
  assert (Hbq : forall q, q ∈ (x, u) :: B ++ A -> b < fst q -> before (b, w) q).
  { intros q Hq Hlt. specialize (Hf q Hq). destruct (Ha q Hq) as [Hb|Hb]; [done|]. blia. }
  assert (Hxs : sound (x, u)) by (apply Hf; by left). destruct B as [|[y v] B].
  - assert (Hy : first A x <= x). { destruct A as [|[y v] A]; cbn; [lia|]. specialize (H1 (y, v) (x, u) ltac:(by left) ltac:(by left)). specialize (Hf (y, v) ltac:(right; by left)). blia. }
    cbn [app first] in *. destruct (decide (x < b)) as [Hlt|Hge].
    + exists A, [(x, u); (b, w)]. split; [done|]. apply StronglySorted_app. split; [|split; [done|]].
      * intros p q Hp1 [->|[->|Hq]%elem_of_cons]%elem_of_cons; [by apply H1; [|left]| |by apply not_elem_of_nil in Hq]. eapply (before_trans _ (x, u)); [done|by apply H1; [|left]|by apply Hxb].
      * repeat constructor. by apply Hxb.
    + assert (Hlt : b < first A x) by (unfold place in Hp; lia). exists ((b, w) :: A), [(x, u)]. split; [done|]. cbn [app]. apply SSorted_cons; [apply StronglySorted_app; split; [exact H1|split; [done|repeat constructor]]|]. apply Forall_forall. intros q Hq.
      assert (Hq' : q ∈ (x, u) :: A) by (apply elem_of_app in Hq as [Hq|Hq]; [by right|by apply list_elem_of_singleton in Hq as ->; left]). apply Hbq; [done|]. destruct A as [|[y v] A]; [by apply list_elem_of_singleton in Hq as ->|]. cbn in Hlt.
      apply elem_of_app in Hq as [[->|Hq]%elem_of_cons|Hq].
      * done.
      * apply StronglySorted_inv in H2 as [_ H2]. rewrite Forall_forall in H2. specialize (H2 q Hq). specialize (Hf (y, v) ltac:(right; by left)). blia.
      * specialize (H1 (y, v) q ltac:(by left) Hq). specialize (Hf (y, v) ltac:(right; by left)). blia.
  - assert (Hxy : before (x, u) (y, v)) by (apply H4; by left). assert (Hlt : x < b < y) by (unfold place in Hp; cbn [first app] in Hp; blia).
    assert (Hby : before (b, w) (y, v)) by (apply Hbq; [right; by left|done || (cbn; lia)]). apply StronglySorted_inv in H3 as [H3 H5]. rewrite Forall_forall in H5.
    assert (Hys : sound (y, v)) by (apply Hf; right; by left).
    exists A, ((x, u) :: (b, w) :: (y, v) :: B). split; [done|]. apply StronglySorted_app. split; [|split; [done|]].
    + intros p q Hp1 Hq. apply elem_of_cons in Hq as [->|[->|Hq]%elem_of_cons]; [by apply H1; [|left]| |by apply H1; [|right]]. eapply (before_trans _ (x, u)); [done|by apply H1; [|left]|apply Hxb; lia].
    + constructor; [constructor|].
      * constructor; [done|by apply Forall_forall].
      * constructor; [done|]. apply Forall_forall. intros q Hq. by eapply (before_trans _ (y, v)), H5.
      * constructor; [apply Hxb; lia|]. by apply Forall_forall.
Qed.

(** ** Blocks that shrink, go or merge *)

Definition inside (x : blk) (rep : list blk) : Prop := rep = [] \/ exists y, rep = [y] /\ fst x <= fst y /\ stop y <= stop x.

Lemma sorted_replace X x Y rep : StronglySorted before (X ++ x :: Y) -> inside x rep -> StronglySorted before (X ++ rep ++ Y).
Proof.
  intros (H1 & H2 & H3)%StronglySorted_app Hi. apply StronglySorted_inv in H3 as [H3 H4]. rewrite Forall_forall in H4. apply StronglySorted_app. destruct Hi as [->|(y & -> & Hy1 & Hy2)]; cbn [app].
  - split; [|done]. intros p q Hp Hq. apply H1; [done|by right].
  - split; [|split; [done|]].
    + intros p q Hp [->|Hq]%elem_of_cons; [|apply H1; [done|by right]]. specialize (H1 p x Hp ltac:(by left)). blia.
    + constructor; [done|]. apply Forall_forall. intros q Hq. specialize (H4 q Hq). blia.
Qed.

Lemma rot_replace P x Q rep : rot (P ++ x :: Q) -> inside x rep -> rot (P ++ rep ++ Q).
Proof.
  intros (A & B & E & Hs) Hi. apply app_eq_app in E as [M [[-> ->]|[-> E]]].
  - exists (M ++ rep ++ Q), B. split; [by rewrite <- !app_assoc|]. rewrite <- app_assoc in Hs. pose proof (sorted_replace _ _ _ _ Hs Hi) as H'. by rewrite <- !app_assoc in *.
  - destruct M as [|q M].
    + cbn in E. subst A. exists (rep ++ Q), P. rewrite app_nil_r in *. split; [done|]. pose proof (sorted_replace [] _ _ _ Hs Hi) as H'. by rewrite <- !app_assoc in *.
    + injection E as <- ->. exists A, (P ++ rep ++ M). split; [by rewrite <- !app_assoc|]. rewrite app_assoc in Hs. pose proof (sorted_replace _ _ _ _ Hs Hi) as H'. by rewrite <- !app_assoc in *.
Qed.

Definition join (x y : blk) : blk := (fst x, snd x + snd y).

Lemma sorted_join X x y Y : StronglySorted before (X ++ x :: y :: Y) -> stop x = fst y -> StronglySorted before (X ++ join x y :: Y).
Proof.
  intros (H1 & H2 & H3)%StronglySorted_app E. apply StronglySorted_inv in H3 as [H3 _]. apply StronglySorted_inv in H3 as [H3 H4]. rewrite Forall_forall in H4. apply StronglySorted_app. split; [|split; [done|]].
  - intros p q Hp [->|Hq]%elem_of_cons; [|apply H1; [done|right; by right]]. specialize (H1 p x Hp ltac:(by left)). unfold join. blia.
  - constructor; [done|]. apply Forall_forall. intros q Hq. specialize (H4 q Hq). unfold join. blia.
Qed.

Lemma rot_join P x y Q : rot (P ++ x :: y :: Q) -> sound x -> sound y -> stop x = fst y -> rot (P ++ join x y :: Q).
Proof.
  intros (A & B & E & Hs) Hx Hy Exy. apply app_eq_app in E as [M [[-> ->]|[-> E]]].
  - exists (M ++ join x y :: Q), B. split; [by rewrite <- !app_assoc|]. rewrite <- app_assoc in Hs. pose proof (sorted_join _ _ _ _ Hs Exy) as H'. by rewrite <- !app_assoc in *.
  - destruct M as [|q [|q2 M]].
    + cbn in E. subst A. exists (join x y :: Q), P. rewrite app_nil_r in *. split; [done|]. exact (sorted_join [] _ _ _ Hs Exy).
    + injection E as <- <-. exfalso. apply StronglySorted_app in Hs as (H1 & _). specialize (H1 y x ltac:(by left) ltac:(apply elem_of_app; right; by left)). blia.
    + injection E as <- <- ->. exists A, (P ++ join x y :: M). split; [by rewrite <- !app_assoc|]. rewrite app_assoc in Hs. pose proof (sorted_join _ _ _ _ Hs Exy) as H'. by rewrite <- !app_assoc in *.
Qed.

Lemma join_bytes x y p : sound x -> sound y -> stop x = fst y -> bytes (join x y) p <-> bytes x p \/ bytes y p.
Proof. intros Hx Hy E. unfold join. blia. Qed.
