(* ===== verification/SlobFree.v ===== *)
(** * SlobFree: giving a block back *)

From stdpp Require Import numbers gmap list sorting.
From S2P Require Import Prelude Slob SlobRing.
Local Open Scope Z_scope.

Lemma cell_ok s a c : cells s !! a = Some c -> cell a s = Ok (c, s).
Proof. unfold cell, load. by intros ->. Qed.

Lemma set_next_ok s a u n n' : cells s !! a = Some (Slob u n) -> set_next a n' s = Ok (tt, set_cells (<[a := Slob u n']> (cells s)) s).
Proof. intros Ha. unfold set_next. by rewrite (bind_step _ _ _ _ _ (cell_ok s a _ Ha)). Qed.

(** The headers that [slob_free] may write: of the block and of those in the ring. *)
Definition kept (m m' : gmap Z slob) (D : list Z) : Prop := forall a, a ∉ D -> m' !! a = m !! a.

Lemma kept_insert m a c D : a ∈ D -> kept m (<[a := c]> m) D.
Proof. intros Ha x Hx. rewrite lookup_insert_ne; [done|]. by intros ->. Qed.
Lemma kept_via m m1 m2 D : kept m m1 D -> kept m1 m2 D -> kept m m2 D.
Proof. intros H1 H2 a Ha. by rewrite H2, H1. Qed.

Section free.
Context (s : heap) (x u b w nb : Z) (R : list blk).
Context (Rg : ring (cells s) x ((x, u) :: R)) (Hb : cells s !! b = Some (Slob w nb)).
Context (Hw : sound (b, w)) (Ha : Forall (apart (b, w)) ((x, u) :: R)) (Hp : place b x (first R x)).
(** A block that is in the ring by itself does not start where the new one ends. *)
Context (Hiso : R = [] -> stop (b, w) <> x).

Lemma b_fresh : b ∉ ((x, u) :: R).*1.
Proof.
  intros (q & E & Hq)%list_elem_of_fmap. rewrite Forall_forall in Ha. specialize (Ha q Hq). pose proof (rg_sound _ _ _ Rg) as Hs. rewrite Forall_forall in Hs. specialize (Hs q Hq). blia.
Qed.

Lemma x_next : cells s !! x = Some (Slob u (first R x)).
Proof. destruct (rg_chain _ _ _ Rg) as (_ & n & Hm & Hc). by rewrite Hm, (chain_first _ _ _ _ Hc). Qed.

(** The block is linked to what follows it. *)
Lemma join_next_ok : exists s' w' D, join_next x b s = Ok (tt, s') /\ w <= w' /\ chain (cells s') b ((b, w') :: D) x /\ rot ((x, u) :: (b, w') :: D) /\ Forall sound ((b, w') :: D) /\
  (forall p, covers ((b, w') :: D) p <-> bytes (b, w) p \/ covers R p) /\ kept (cells s) (cells s') [b] /\ slobfree s' = slobfree s /\ D.*1 ⊆ R.*1 /\
  (bigblocks s', offers s', freed s') = (bigblocks s, offers s, freed s) /\ (forall q, q ∈ R -> fst q <> stop (b, w) -> q ∈ D).
Proof.
  pose proof b_fresh as Hf. pose proof (rg_sound _ _ _ Rg) as Hs. apply Forall_cons in Hs as [Hsx HsR]. pose proof (rot_insert x u b w R (rg_rot _ _ _ Rg) (rg_sound _ _ _ Rg) Hw Ha Hp) as Hr.
  destruct (rg_chain _ _ _ Rg) as (_ & n & Hm & Hc). pose proof (chain_first _ _ _ _ Hc) as Hn. cbn [fmap list_fmap fst] in Hf. apply not_elem_of_cons in Hf as [Hbx HbR].
  unfold join_next. rewrite (bind_step _ _ _ _ _ (cell_ok s x _ Hm)), (bind_step _ _ _ _ _ (cell_ok s b _ Hb)). cbn [units next]. destruct (Z.eqb_spec (b + SLOB_UNIT * w) n) as [E|E].
  - destruct R as [|[y v] R2] eqn:ER; [by destruct (Hiso eq_refl); cbn in Hn; subst n|]. cbn [first] in Hn. subst n. destruct Hc as (_ & n2 & Hm2 & Hc2). apply Forall_cons in HsR as [Hsy HsR].
    rewrite (bind_step _ _ _ _ _ (cell_ok s y _ Hm2)). cbn [units next]. eexists _, (w + v), R2. split; [reflexivity|]. cbn [cells set_cells slobfree bigblocks offers freed].
    split; [blia|]. change (b, w + v) with (join (b, w) (y, v)). split_and!.
    + split; [done|]. exists n2. split; [by rewrite lookup_insert_eq|]. eapply chain_frame; [|exact Hc2]. intros a Ha2. rewrite lookup_insert_ne; [done|]. intros ->. apply HbR. by right.
    + by apply (rot_join [(x, u)]).
    + constructor; [unfold join; blia|done].
    + intros p. rewrite !covers_cons, join_bytes by done. tauto.
    + apply kept_insert. by left.
    + done.
    + set_solver.
    + done.
    + intros q [->|Hq]%elem_of_cons Hne; [done|exact Hq].
  - rewrite (set_next_ok s b w nb n Hb). eexists _, w, R. split; [reflexivity|]. split; [lia|]. cbn [cells set_cells slobfree bigblocks offers freed]. split_and!.
    + split; [done|]. exists n. split; [by rewrite lookup_insert_eq|]. eapply chain_frame; [|exact Hc]. intros a Ha2. rewrite lookup_insert_ne; [done|]. by intros ->.
    + exact Hr.
    + by constructor.
    + intros p. by rewrite covers_cons.
    + apply kept_insert. by left.
    + done.
    + done.
    + done.
    + done.
Qed.
End free.

(** The ring fits into the headers there are. *)
Lemma ring_size m a L : ring m a L -> (length L <= base.size m)%nat.
Proof.
  intros R. pose proof (ring_nodup _ _ _ R) as Hn. rewrite <- (length_fmap fst L), <- (size_list_to_set (C := gset Z)) by done. rewrite <- size_dom. apply subseteq_size. intros x. rewrite elem_of_list_to_set.
  intros ([y v] & -> & Hy)%list_elem_of_fmap. destruct (chain_lookup _ _ _ _ _ _ (rg_chain _ _ _ R) Hy) as [n Hm]. by apply elem_of_dom_2 in Hm.
Qed.

Definition rest (s : heap) : list bigblock * list (Z * Z) * list (Z * Z) := (bigblocks s, offers s, freed s).

Lemma join_prev_ok s x u n b w D : cells s !! x = Some (Slob u n) -> x ∉ b :: D.*1 -> sound (x, u) -> chain (cells s) b ((b, w) :: D) x -> rot ((x, u) :: (b, w) :: D) -> Forall sound ((b, w) :: D) ->
  exists s' L', join_prev x b s = Ok (tt, s') /\ ring (cells s') (slobfree s') L' /\ (forall p, covers L' p <-> covers ((x, u) :: (b, w) :: D) p) /\ kept (cells s) (cells s') [x] /\ rest s' = rest s /\
    L'.*1 ⊆ x :: b :: D.*1 /\ (exists q, q ∈ L' /\ fst q <= b /\ stop (b, w) <= stop q) /\ (forall q, q ∈ (x, u) :: D -> q <> (x, u) \/ stop q <> b -> q ∈ L').
Proof.
  intros Hx Hfr Hsx Hc Hr Hs. apply Forall_cons in Hs as [Hsb HsD]. destruct Hc as (_ & nb & Hb & Hc). pose proof (chain_first _ _ _ _ Hc) as Hn. apply not_elem_of_cons in Hfr as [Hxb HxD].
  assert (Hfr : forall c a, a ∈ D.*1 -> <[x := c]> (cells s) !! a = cells s !! a) by (intros c a Ha; rewrite lookup_insert_ne; [done|]; by intros ->).
  unfold join_prev. rewrite (bind_step _ _ _ _ _ (cell_ok s x _ Hx)). cbn [units]. destruct (Z.eqb_spec (x + SLOB_UNIT * u) b) as [E|E].
  - rewrite bind_assoc_M, (bind_step _ _ _ _ _ (cell_ok s b _ Hb)). cbn [units next]. unfold put_cell. rewrite !bind_modify. eexists _, ((x, u + w) :: D). split; [reflexivity|]. cbn [cells set_cells slobfree set_slobfree rest bigblocks offers freed].
    change (x, u + w) with (join (x, u) (b, w)). split_and!.
    + split; [|done|by apply (rot_join [])|constructor; [unfold join; blia|done]]. split; [done|]. exists nb. split; [by rewrite lookup_insert_eq|]. eapply chain_frame; [|exact Hc]. intros a Ha. by apply Hfr.
    + intros p. rewrite !covers_cons, join_bytes by done. tauto.
    + apply kept_insert. by left.
    + done.
    + set_solver.
    + exists (join (x, u) (b, w)). split; [by left|]. unfold join. blia.
    + intros q [->|Hq]%elem_of_cons [Hne|Hne]; [done|by destruct Hne|by right|by right].
  - rewrite (bind_step _ _ _ _ _ (set_next_ok s x u n b Hx)). eexists _, ((x, u) :: (b, w) :: D). split; [reflexivity|]. cbn [cells set_cells slobfree set_slobfree rest bigblocks offers freed]. split_and!.
    + split; [|done|done|by repeat constructor]. split; [done|]. exists b. split; [by rewrite lookup_insert_eq|]. split; [done|]. exists nb. split; [by rewrite lookup_insert_ne by done|]. eapply chain_frame; [|exact Hc]. intros a Ha. by apply Hfr.
    + done.
    + apply kept_insert. by left.
    + done.
    + done.
    + exists (b, w). split; [right; by left|]. cbn. lia.
    + intros q Hq _. apply elem_of_cons in Hq as [->|Hq]; [by left|right; by right].
Qed.

(** What [slob_free] does to the ring [L]: the bytes of the block are free again. *)
Record freed_to (s s' : heap) (L L' : list blk) (b w : Z) : Prop := {
  fr_ring : ring (cells s') (slobfree s') L';
  fr_covers : forall p, covers L' p <-> covers L p \/ bytes (b, w) p;
  fr_kept : kept (cells s) (cells s') (b :: L.*1);
  fr_rest : rest s' = rest s;
  fr_addrs : L'.*1 ⊆ b :: L.*1;
  fr_has : exists q, q ∈ L' /\ fst q <= b /\ stop (b, w) <= stop q;
  fr_far : forall q, q ∈ L -> stop q <> b -> fst q <> stop (b, w) -> q ∈ L' }.

Section slob_free.
Context (L : list blk) (b w : Z) (ar : Z).
Context (Hw : sound (b, w)) (Ha : Forall (apart (b, w)) L) (Har : (ar, 1) ∈ L) (Hst : stop (b, w) <> ar) (Hen : stop (ar, 1) <> b).

(** From the header of the block on. *)
Lemma slob_free_insert s (Rg : ring (cells s) (slobfree s) L) nb k : cells s !! b = Some (Slob w nb) -> (length L <= k)%nat ->
  exists s' L', (cur ← find_point k b (slobfree s); _ ← join_next cur b; join_prev cur b) s = Ok (tt, s') /\ freed_to s s' L L' b w /\ (ar, 1) ∈ L'.
Proof.
  intros Hb Hk. pose proof (rg_sound _ _ _ Rg) as Hs.
  assert (HbL : b ∉ L.*1). { intros (q & E & Hq)%list_elem_of_fmap. rewrite Forall_forall in Ha, Hs. specialize (Ha q Hq). specialize (Hs q Hq). blia. }
  pose proof (place_exists L b (rg_rot _ _ _ Rg) Hs (rg_ne _ _ _ Rg) HbL) as Hex. pose proof (chain_first _ _ _ _ (rg_chain _ _ _ Rg)) as Hfst.
  assert (Hfl : first L b = slobfree s) by (pose proof (rg_ne _ _ _ Rg); by destruct L). rewrite Hfl in Hex.
  destruct (find_point_ok s b _ L _ k (rg_chain _ _ _ Rg) Hk Hex) as (L1 & x & u & L2 & EL & Hp & Hf). rewrite (bind_step _ _ _ _ _ Hf). pose proof Rg as Rg'. rewrite EL in Rg'.
  pose proof (slob_ring_rotate _ _ _ _ Rg' ltac:(done)) as Rx. cbn [first app] in Rx. set (R := L2 ++ L1) in *.
  assert (HP : L ≡ₚ (x, u) :: R) by (rewrite EL; unfold R; rewrite <- Permutation_middle; by rewrite Permutation_app_comm). assert (Hpl : place b x (first R x)).
  { unfold R. destruct L2 as [|y L2]; [|exact Hp]. cbn [first app] in *. destruct L1 as [|y L1]; rewrite EL in Hfst; cbn in *; by rewrite Hfst in Hp. }
  assert (HaR : Forall (apart (b, w)) ((x, u) :: R)) by (by rewrite <- HP). assert (HiR : R = [] -> stop (b, w) <> x).
  { intros E0. rewrite HP, E0 in Har. apply list_elem_of_singleton in Har as [= -> <-]. exact Hst. }
  destruct (join_next_ok s x u b w nb R Rx Hb Hw HaR Hpl HiR) as (s1 & w' & D & E1 & Hww & Hc1 & Hr1 & Hs1 & Hcov1 & Hk1 & Hsf & Hsub & Hre & Hfar).
  pose proof (x_next s x u R Rx) as Hxn. pose proof (ring_nodup _ _ _ Rx) as Hnd. apply NoDup_cons in Hnd as [HxR _].
  assert (Hxb : x <> b) by (intros ->; apply HbL; rewrite HP; by left). assert (Hx1 : cells s1 !! x = Some (Slob u (first R x))) by (rewrite Hk1; [done|by rewrite list_elem_of_singleton]).
  destruct (join_prev_ok s1 x u _ b w' D Hx1) as (s2 & L' & E2 & Rg2 & Hcov2 & Hk2 & Hre2 & Hsub2 & Hhas & Hfar2).
  { apply not_elem_of_cons. split; [done|]. intros Hin. apply HxR. by apply Hsub. }
  { apply (Forall_cons_1 sound (x, u) R). exact (rg_sound _ _ _ Rx). }
  { done. } { done. } { done. }
  rewrite (bind_step _ _ _ _ _ E1). exists s2, L'. split; [exact E2|].
  assert (Hfar3 : forall q, q ∈ L -> stop q <> b -> fst q <> stop (b, w) -> q ∈ L').
  { intros q Hq H1 H2. apply Hfar2; [|by right]. rewrite HP in Hq. apply elem_of_cons in Hq as [->|Hq]; [by left|]. right. by apply Hfar. }
  split; [|by apply Hfar3]. split.
  - exact Rg2.
  - intros p. rewrite Hcov2, covers_cons, Hcov1, (covers_perm L _ p HP), covers_cons. tauto.
  - intros a Hax. rewrite HP in Hax. cbn in Hax. rewrite Hk2, Hk1; [done|set_solver|set_solver].
  - rewrite Hre2. exact Hre.
  - rewrite Hsub2. rewrite HP. cbn. set_solver.
  - destruct Hhas as (q & Hq & H1 & H2). exists q. split; [done|]. split; [done|]. blia.
  - exact Hfar3.
Qed.

Lemma slob_free_ok s (Rg : ring (cells s) (slobfree s) L) size : b <> 0 -> (size <> 0 /\ w = SLOB_UNITS size) \/ (size = 0 /\ exists nb, cells s !! b = Some (Slob w nb)) ->
  exists s' L', slob_free b size s = Ok (tt, s') /\ freed_to s s' L L' b w /\ (ar, 1) ∈ L'.
Proof.
  intros Hb0 Hsz. unfold slob_free. destruct (Z.eqb_spec b 0); [done|]. destruct Hsz as [[Hne Ew]|[-> [nb Hb]]].
  2: { rewrite (bind_step _ _ s tt s) by done. rewrite bind_gets. apply (slob_free_insert s Rg nb); [done|]. pose proof (ring_size _ _ _ Rg). lia. }
  destruct (Z.eqb_spec size 0); [done|]. cbn [negb]. unfold set_units. rewrite <- Ew. rewrite bind_modify, bind_gets. set (s1 := set_cells _ s). set (nb := default 0 _) in s1.
  pose proof (rg_sound _ _ _ Rg) as Hs.
  assert (HbL : b ∉ L.*1). { intros (q & E & Hq)%list_elem_of_fmap. rewrite Forall_forall in Ha, Hs. specialize (Ha q Hq). specialize (Hs q Hq). blia. }
  assert (Rg1 : ring (cells s1) (slobfree s1) L). { destruct Rg as [H1 H2 H3 H4]. split; try done. eapply chain_frame; [|exact H1]. intros a Hin. cbn. rewrite lookup_insert_ne; [done|]. by intros ->. }
  assert (Hb1 : cells s1 !! b = Some (Slob w nb)) by (cbn; by rewrite lookup_insert_eq). pose proof (ring_size _ _ _ Rg1) as Hsz.
  destruct (slob_free_insert s1 Rg1 nb (base.size (cells s1) + 2) Hb1 ltac:(lia)) as (s' & L' & E & F & Har'). exists s', L'. split; [exact E|]. split; [|done]. destruct F as [F1 F2 F3 F4 F5 F6 F7]. split; try done.
  intros a Hax. rewrite F3 by done. cbn. rewrite lookup_insert_ne; [done|]. intros ->. apply Hax. by left.
Qed.
End slob_free.
