(* ===== verification/SlobAlloc.v ===== *)
(** * SlobAlloc: taking a block *)

From stdpp Require Import numbers gmap list sorting.
From S2P Require Import Prelude Slob SlobRing SlobFree.
Local Open Scope Z_scope.

(** What is left of a block of [uc] units at [c] when [n] are taken. *)
Definition left_of (c uc n : Z) : list blk := if decide (uc = n) then [] else [(c + SLOB_UNIT * n, uc - n)].

(** The ring [L'] after [n] units at [c] were taken from [L]. *)
Record taken_to (s s' : heap) (L L' : list blk) (c n : Z) : Prop := {
  tk_ring : ring (cells s') (slobfree s') L';
  tk_free : forall p, bytes (c, n) p -> covers L p;
  tk_covers : forall p, covers L' p <-> covers L p /\ ~ bytes (c, n) p;
  tk_units : exists x, cells s' !! c = Some (Slob n x);
  tk_kept : forall a, ~ covers L a -> cells s' !! a = cells s !! a;
  tk_rest : rest s' = rest s;
  tk_small : forall q, q ∈ L -> snd q < n -> q ∈ L';
  tk_addr : c ∈ L.*1 }.

Lemma covers_addr L q : Forall sound L -> q ∈ L -> covers L (fst q).
Proof. intros Hs Hq. exists q. split; [done|]. rewrite Forall_forall in Hs. specialize (Hs q Hq). blia. Qed.

Section take.
Context (s : heap) (p up c uc n : Z) (R : list blk) (Rg : ring (cells s) p ((p, up) :: (c, uc) :: R)) (Hn : 0 < n <= uc).

Lemma take_covers q : covers ((p, up) :: left_of c uc n ++ R) q <-> covers ((p, up) :: (c, uc) :: R) q /\ ~ bytes (c, n) q.
Proof.
  assert (Hap : forall y, y ∈ (p, up) :: R -> bytes y q -> ~ bytes (c, n) q).
  { intros y Hy Hq Hc. assert (Hin : y ∈ (p, up) :: (c, uc) :: R) by (apply elem_of_cons in Hy as [->|Hy]; [by left|right; by right]).
    destruct (rot_apart _ y (c, uc) (rg_rot _ _ _ Rg) Hin ltac:(right; by left)) as [->|Hap]; [|blia]. pose proof (ring_nodup _ _ _ Rg) as Hnd. cbn in Hnd. apply NoDup_cons in Hnd as [H1 H2]. apply NoDup_cons in H2 as [H2 _].
    apply elem_of_cons in Hy as [[= -> ->]|Hy]; [apply H1; by left|]. apply H2, list_elem_of_fmap. by exists (c, uc). }
  rewrite !covers_cons, covers_app. assert (HR : covers R q -> ~ bytes (c, n) q) by (intros (y & Hy & Hq); apply (Hap y); [by right|done]).
  assert (Hp : bytes (p, up) q -> ~ bytes (c, n) q) by (apply Hap; by left). assert (Hl : covers (left_of c uc n) q <-> bytes (c, uc) q /\ ~ bytes (c, n) q).
  { unfold left_of. case_decide as E; [subst; rewrite covers_nil; tauto|]. rewrite covers_cons, covers_nil. blia. }
  tauto.
Qed.

Lemma take_rot : rot ((p, up) :: left_of c uc n ++ R).
Proof.
  apply (rot_replace [(p, up)] (c, uc) R (left_of c uc n) (rg_rot _ _ _ Rg)). unfold left_of, inside. case_decide; [by left|]. right. eexists. split; [reflexivity|]. blia.
Qed.

Lemma slob_take_ok : exists s', slob_take n p c 0 0 s = Ok (c, s') /\ taken_to s s' ((p, up) :: (c, uc) :: R) ((p, up) :: left_of c uc n ++ R) c n.
Proof.
  pose proof (rg_sound _ _ _ Rg) as Hs. pose proof (ring_nodup _ _ _ Rg) as Hnd. cbn in Hnd. apply NoDup_cons in Hnd as [HpN Hnd]. apply NoDup_cons in Hnd as [HcN _]. apply not_elem_of_cons in HpN as [Hpc HpR].
  destruct (rg_chain _ _ _ Rg) as (_ & n1 & Hp & Hc1 & n2 & Hc & HcR). subst n1. pose proof (Forall_inv Hs) as Hsp. pose proof (Forall_inv_tail Hs) as Hs'. pose proof (Forall_inv_tail Hs') as HsR. pose proof (chain_first _ _ _ _ HcR) as Hn2.
  unfold slob_take. change (negb (0 =? 0)) with false. cbv iota. rewrite (bind_step _ _ s (p, c) s) by done. rewrite (bind_step _ _ _ _ _ (cell_ok s c _ Hc)). cbn [units next].
  destruct (Z.eqb_spec uc n) as [E|E].
  - rewrite (bind_step _ _ _ _ _ (set_next_ok s p up c n2 Hp)), bind_modify. eexists. split; [reflexivity|]. assert (El : left_of c uc n = []) by (unfold left_of; by rewrite decide_True). split; cbn [cells slobfree set_cells set_slobfree rest bigblocks offers freed].
    + split; [|done|apply take_rot|rewrite El; by constructor]. rewrite El. split; [done|]. exists n2. split; [by rewrite lookup_insert_eq|]. eapply chain_frame; [|exact HcR]. intros a Ha. rewrite lookup_insert_ne; [done|]. by intros ->.
    + intros q Hq. exists (c, uc). split; [right; by left|]. by rewrite E.
    + apply take_covers.
    + exists n2. rewrite lookup_insert_ne by done. by rewrite Hc, E.
    + intros a Ha. rewrite lookup_insert_ne; [done|]. intros <-. apply Ha. apply (covers_addr _ (p, up)); [done|by left].
    + done.
    + intros q Hq Hlt. rewrite El. apply elem_of_cons in Hq as [->|[->|Hq]%elem_of_cons]; [by left|cbn in Hlt; lia|by right].
    + right. by left.
  - set (r := c + SLOB_UNIT * n). assert (El : left_of c uc n = [(r, uc - n)]) by (unfold left_of; by rewrite decide_False).
    assert (HrL : forall y, y ∈ (p, up) :: (c, uc) :: R -> fst y <> r).
    { intros y Hy Er. rewrite Forall_forall in Hs. specialize (Hs y Hy). destruct (rot_apart _ y (c, uc) (rg_rot _ _ _ Rg) Hy ltac:(right; by left)) as [->|Hap]; unfold r in *; blia. }
    assert (Hrp : r <> p) by (intros Er; by apply (HrL (p, up) ltac:(by left))). assert (Hrc : r <> c) by (intros Er; by apply (HrL (c, uc) ltac:(right; by left))).
    assert (HrR : r ∉ R.*1) by (intros (y & Ey & Hy)%list_elem_of_fmap; apply (HrL y); [right; by right|done]).
    rewrite bind_assoc_M, (bind_step _ _ _ _ _ (set_next_ok s p up c r Hp)). set (s1 := set_cells _ s). assert (Hc1 : cells s1 !! c = Some (Slob uc n2)) by (cbn; by rewrite lookup_insert_ne).
    rewrite bind_assoc_M, (bind_step _ _ _ _ _ (cell_ok s1 c _ Hc1)). cbn [units next]. unfold put_cell, set_units. rewrite bind_assoc_M, !bind_modify. eexists. split; [reflexivity|].
    split; cbn [cells slobfree set_cells set_slobfree rest bigblocks offers freed s1].
    + split; [|done|apply take_rot|rewrite El; repeat constructor; [done|blia|done]]. rewrite El. split; [done|]. exists r. split; [by rewrite !lookup_insert_ne, lookup_insert_eq by done|]. split; [done|]. exists n2.
      split; [by rewrite lookup_insert_ne, lookup_insert_eq by done|]. eapply chain_frame; [|exact HcR]. intros a Ha. rewrite !lookup_insert_ne; [done|intros ->; done..].
    + intros q Hq. exists (c, uc). split; [right; by left|]. blia.
    + apply take_covers.
    + eexists. by rewrite lookup_insert_eq.
    + intros a Ha. rewrite !lookup_insert_ne; [done| | |]; intros <-; apply Ha.
      * apply (covers_addr _ (p, up)); [done|by left].
      * exists (c, uc). split; [right; by left|]. unfold r. blia.
      * apply (covers_addr _ (c, uc)); [done|right; by left].
    + done.
    + intros q Hq Hlt. rewrite El. apply elem_of_cons in Hq as [->|[->|Hq]%elem_of_cons]; [by left|cbn in Hlt; lia|right; by right].
    + right. by left.
Qed.
End take.

Lemma taken_perm s s' L L2 L' c n : L ≡ₚ L2 -> taken_to s s' L L' c n -> taken_to s s' L2 L' c n.
Proof.
  intros HP [H1 H2 H3 H4 H5 H6 H7 H8]. split; try done.
  - intros p Hp. rewrite <- (covers_perm _ _ p HP). by apply H2.
  - intros p. rewrite <- (covers_perm _ _ p HP). apply H3.
  - intros a Ha. apply H5. by rewrite (covers_perm _ _ a HP).
  - intros q Hq. apply H7. by rewrite HP.
  - by rewrite <- HP.
Qed.

(** The ring was walked once in vain. *)
Definition grow (k : nat) (size n : Z) : M heap Z :=
  if size =? PAGE_SIZE then mret 0
  else
    p ← __slob_get_free_pages 0;
    if p =? 0 then mret 0 else _ ← slob_free p PAGE_SIZE; cur ← gets slobfree; c ← cell cur; alloc_loop k size n 0 cur (next c).

Section walk.
Context (s : heap) (L : list blk) (size n : Z) (Rg : ring (cells s) (slobfree s) L) (Hn : 0 < n) (Hone : forall q, L = [q] -> snd q < n).

(** The block [c] after [p] in the ring. *)
Lemma visit k p up c uc R : ring (cells s) p ((p, up) :: (c, uc) :: R) -> L ≡ₚ (p, up) :: (c, uc) :: R ->
  (n <= uc /\ exists s' L', alloc_loop (S k) size n 0 p c s = Ok (c, s') /\ taken_to s s' L L' c n) \/
  (uc < n /\ alloc_loop (S k) size n 0 p c s = if decide (c = slobfree s) then grow k size n s else alloc_loop k size n 0 c (first R p) s).
Proof.
  intros R0 HP. destruct (rg_chain _ _ _ R0) as (_ & n1 & _ & E1 & n2 & Hc & HcR). pose proof (chain_first _ _ _ _ HcR) as Hn2. subst n1. cbn [alloc_loop]. rewrite (bind_step _ _ _ _ _ (cell_ok s c _ Hc)).
  change (0 =? 0) with true. cbv iota zeta. rewrite Z.add_0_r. cbn [units next]. destruct (Z.leb_spec n uc) as [Hle|Hgt].
  - left. split; [done|]. destruct (slob_take_ok s p up c uc n R R0 ltac:(lia)) as (s' & E & T). eexists s', _. split; [exact E|]. eapply taken_perm; [|exact T]. by rewrite HP.
  - right. split; [done|]. rewrite bind_gets. case_decide as Ec; [rewrite (proj2 (Z.eqb_eq _ _) Ec); done|]. rewrite (proj2 (Z.eqb_neq _ _) Ec). by rewrite <- Hn2.
Qed.

Lemma head_free q L0 : L = q :: L0 -> fst q = slobfree s.
Proof. intros E. pose proof (chain_first _ _ _ _ (rg_chain _ _ _ Rg)) as Hf. rewrite E in Hf. done. Qed.

(** From the block after [p] on, the last one visited is the first of the ring. *)
Lemma walk L2 : forall L1 p up k, L = L1 ++ (p, up) :: L2 -> (length L2 < k)%nat ->
  (exists c s' L', alloc_loop k size n 0 p (first L2 (slobfree s)) s = Ok (c, s') /\ taken_to s s' L L' c n) \/
  ((forall q, q ∈ L2 -> snd q < n) /\ (forall q, head L = Some q -> snd q < n) /\ alloc_loop k size n 0 p (first L2 (slobfree s)) s = grow (k - S (length L2)) size n s).
Proof.
  induction L2 as [|[c uc] L3 IH]; intros L1 p up k EL Hk; (destruct k as [|k]; [cbn in Hk; lia|]).
  - destruct L1 as [|[h uh] L1].
    + assert (Hlt : up < n) by exact (Hone (p, up) EL). pose proof (head_free _ _ EL) as Hp. cbn in Hp. subst p. right. split; [intros q Hq; by apply not_elem_of_nil in Hq|]. split; [rewrite EL; by intros q [= <-]|].
      pose proof (rg_chain _ _ _ Rg) as Hc. rewrite EL in Hc. destruct Hc as (_ & n1 & Hc & _). cbn [first alloc_loop]. rewrite (bind_step _ _ _ _ _ (cell_ok s _ _ Hc)). change (0 =? 0) with true. cbv iota zeta. rewrite Z.add_0_r. cbn [units].
      destruct (Z.leb_spec n up); [lia|]. rewrite bind_gets, Z.eqb_refl. cbn [length Nat.sub]. by rewrite Nat.sub_0_r.
    + pose proof (head_free _ _ EL) as Hh. cbn in Hh. cbn [first]. rewrite <- Hh. assert (R0 : ring (cells s) p ((p, up) :: (h, uh) :: L1)). { pose proof Rg as R1. rewrite EL in R1. exact (slob_ring_rotate _ _ ((h, uh) :: L1) [(p, up)] R1 ltac:(done)). }
      destruct (visit k p up h uh L1 R0) as [(_ & s' & L' & E & T)|(Hlt & E)]; [rewrite EL; apply (Permutation_app_comm ((h, uh) :: L1) [(p, up)])|left; by exists h, s', L'|]. right. rewrite decide_True in E by done.
      split; [intros q Hq; by apply not_elem_of_nil in Hq|]. split; [rewrite EL; by intros q [= <-]|]. rewrite E. cbn [length Nat.sub]. by rewrite Nat.sub_0_r.
  - assert (R0 : ring (cells s) p ((p, up) :: (c, uc) :: L3 ++ L1)). { pose proof Rg as R1. rewrite EL in R1. exact (slob_ring_rotate _ _ L1 ((p, up) :: (c, uc) :: L3) R1 ltac:(done)). }
    cbn [first fst]. destruct (visit k p up c uc (L3 ++ L1) R0) as [(_ & s' & L' & E & T)|(Hlt & E)]; [rewrite EL; apply (Permutation_app_comm L1)|left; by exists c, s', L'|].
    assert (Hcs : c <> slobfree s). { intros Ec. pose proof (ring_nodup _ _ _ Rg) as Hnd. rewrite EL, fmap_app in Hnd. cbn in Hnd. destruct L1 as [|h L1].
      - pose proof (head_free _ _ EL) as Hh. cbn in Hh, Hnd. apply NoDup_cons in Hnd as [Hnd _]. apply Hnd. rewrite Ec, <- Hh. by left.
      - pose proof (head_free _ _ EL) as Hh. cbn in Hnd. apply NoDup_cons in Hnd as [Hnd _]. apply Hnd. rewrite Hh, <- Ec. apply elem_of_app. right. right. by left. }
    rewrite decide_False in E by done. rewrite E. assert (Ef : first (L3 ++ L1) p = first L3 (slobfree s)).
    { destruct L3 as [|y L3]; [|done]. cbn. destruct L1 as [|h L1]; cbn; [|by apply (head_free _ _ EL)]. exact (head_free _ _ EL). }
    rewrite Ef. destruct (IH (L1 ++ [(p, up)]) c uc k) as [Hl|(H1 & H2 & H3)]; [by rewrite <- app_assoc|cbn in Hk; lia|by left|]. right. split; [intros q [->|Hq]%elem_of_cons; [done|by apply H1]|]. split; [done|]. rewrite H3. done.
Qed.

(** A search of the whole ring. *)
Lemma search c0 k : cells s !! slobfree s = Some c0 -> (length L < k)%nat ->
  (exists c s' L', alloc_loop k size n 0 (slobfree s) (next c0) s = Ok (c, s') /\ taken_to s s' L L' c n) \/
  ((forall q, q ∈ L -> snd q < n) /\ alloc_loop k size n 0 (slobfree s) (next c0) s = grow (k - length L) size n s).
Proof.
  intros Hc Hk. assert (EL : exists h uh L2, L = (h, uh) :: L2) by (pose proof (rg_ne _ _ _ Rg); destruct L as [|[h uh] L2]; [done|by exists h, uh, L2]). destruct EL as (h & uh & L2 & EL). pose proof (head_free _ _ EL) as Hh. cbn in Hh. pose proof (rg_chain _ _ _ Rg) as Hch. rewrite EL in Hch. destruct Hch as (_ & n1 & Hc1 & Hch).
  pose proof (chain_first _ _ _ _ Hch) as Hn1. rewrite Hh, Hc in Hc1. injection Hc1 as ->. cbn [next]. rewrite Hn1. assert (Hlen : length L = S (length L2)) by (by rewrite EL).
  destruct (walk L2 [] (slobfree s) uh k) as [Hl|(H1 & H2 & H3)]; [by rewrite <- Hh|lia|by left|]. right. split; [|by rewrite H3, Hlen]. intros q Hq. rewrite EL in Hq. apply elem_of_cons in Hq as [->|Hq]; [|by apply H1]. apply H2. by rewrite EL.
Qed.
End walk.

Lemma freed_length s s' L L' b w : freed_to s s' L L' b w -> (length L' <= S (length L))%nat.
Proof.
  intros F. pose proof (ring_nodup _ _ _ (fr_ring _ _ _ _ _ _ F)) as Hnd. pose proof (fr_addrs _ _ _ _ _ _ F) as Hsub. rewrite <- (length_fmap fst L'), <- (length_fmap fst L).
  change (S (length L.*1)) with (length (b :: L.*1)). apply submseteq_length, NoDup_submseteq; [done|]. exact Hsub.
Qed.

Lemma get_pages_ok order s : 0 <= order <= 10 ->
  __slob_get_free_pages order s = Ok (fst (take_offer order (offers s)), set_offers (snd (take_offer order (offers s))) s).
Proof.
  intros Ho. unfold __slob_get_free_pages. rewrite bind_kassert.
  - rewrite bind_gets. destruct (take_offer order (offers s)) as [p l]. by rewrite bind_modify.
  - apply Z.leb_le. rewrite Z.shiftl_mul_pow2, Z.mul_1_l by lia. apply (Z.pow_le_mono_r 2 order 10); lia.
Qed.

(** The three ways a request ends. *)
Inductive alloc_end (s : heap) (L : list blk) (n : Z) : Z -> heap -> list blk -> Prop :=
| alloc_fit c s' L' : taken_to s s' L L' c n -> alloc_end s L n c s' L'
| alloc_grown p l c s1 s' L1 L' : (forall q, q ∈ L -> snd q < n) -> take_offer 0 (offers s) = (p, l) -> p <> 0 ->
    freed_to (set_offers l s) s1 L L1 p 512 -> taken_to s1 s' L1 L' c n -> alloc_end s L n c s' L'
| alloc_none l : (forall q, q ∈ L -> snd q < n) -> take_offer 0 (offers s) = (0, l) -> alloc_end s L n 0 (set_offers l s) L.

Lemma slob_alloc_ok s L ar size : ring (cells s) (slobfree s) L -> (ar, 1) ∈ L -> 8 < size < 4088 ->
  (forall p l, take_offer 0 (offers s) = (p, l) -> p <> 0 -> Forall (apart (p, 512)) L /\ stop (p, 512) <> ar /\ stop (ar, 1) <> p) ->
  exists c s' L', slob_alloc size 0 s = Ok (c, s') /\ alloc_end s L (SLOB_UNITS size) c s' L'.
Proof.
  intros Rg Har Hsz Hpg. set (n := SLOB_UNITS size). assert (Hn : 2 <= n <= 511) by (unfold n, SLOB_UNITS, SLOB_UNIT; split; [apply Z.div_le_lower_bound|apply Z.lt_succ_r, Z.div_lt_upper_bound]; lia).
  assert (Hone : forall L0 q, (ar, 1) ∈ L0 -> L0 = [q] -> snd q < n) by (intros L0 q H0 ->; apply list_elem_of_singleton in H0 as <-; cbn; lia).
  assert (Hcell : forall s0 L0, ring (cells s0) (slobfree s0) L0 -> exists c0, cells s0 !! slobfree s0 = Some c0).
  { intros s0 L0 R0. destruct L0 as [|[h uh] L0]; [by destruct (rg_ne _ _ _ R0)|]. destruct (rg_chain _ _ _ R0) as (-> & n0 & Hc & _). by eexists. }
  unfold slob_alloc. rewrite bind_kassert by (apply Z.ltb_lt; rewrite (umod_small 32) by (done || (unfold is_u, SLOB_UNIT; lia)); unfold SLOB_UNIT, PAGE_SIZE; lia). rewrite bind_gets. cbv zeta. destruct (Hcell s L Rg) as [c0 Hc0].
  rewrite (bind_step _ _ _ _ _ (cell_ok s _ _ Hc0)). pose proof (ring_size _ _ _ Rg) as Hlen. set (k := (2 * base.size (cells s) + 4)%nat).
  destruct (search s L size n Rg ltac:(lia) (fun q => Hone L q Har) c0 k Hc0 ltac:(lia)) as [(c & s' & L' & E & T)|[Hno E]]; [exists c, s', L'; split; [exact E|by apply alloc_fit]|].
  fold n. rewrite E. unfold grow. destruct (Z.eqb_spec size PAGE_SIZE) as [Ep|_]; [unfold PAGE_SIZE in Ep; lia|]. rewrite (bind_step _ _ _ _ _ (get_pages_ok 0 s ltac:(lia))). destruct (take_offer 0 (offers s)) as [p l] eqn:Ea. cbn [fst snd]. destruct (Z.eqb_spec p 0) as [->|Hp0].
  { eexists 0, _, L. split; [reflexivity|]. by apply alloc_none. }
  destruct (Hpg p l eq_refl Hp0) as (Ha & H1 & H2). destruct (slob_free_ok L p 512 ar ltac:(done) Ha Har H1 H2 (set_offers l s) Rg PAGE_SIZE Hp0 ltac:(by left)) as (s1 & L1 & E1 & F1 & Har1).
  rewrite (bind_step _ _ _ _ _ E1), bind_gets. pose proof (fr_ring _ _ _ _ _ _ F1) as R1. destruct (Hcell s1 L1 R1) as [c1 Hc1]. rewrite (bind_step _ _ _ _ _ (cell_ok s1 _ _ Hc1)). pose proof (freed_length _ _ _ _ _ _ F1) as Hl1.
  destruct (search s1 L1 size n R1 ltac:(lia) (fun q => Hone L1 q Har1) c1 (k - length L) Hc1 ltac:(lia)) as [(c & s' & L' & E' & T)|[Hno1 _]].
  - exists c, s', L'. split; [exact E'|]. by eapply alloc_grown.
  - exfalso. destruct (fr_has _ _ _ _ _ _ F1) as (q & Hq & Hq1 & Hq2). specialize (Hno1 q Hq). blia.
Qed.
