(* ===== verification/SlobHeap.v ===== *)
(** * SlobHeap: the free blocks and what lies outside them *)

From stdpp Require Import numbers gmap list sorting.
From S2P Require Import Prelude Slob SlobRing SlobFree SlobAlloc.
Local Open Scope Z_scope.

(** ** Disjoint blocks *)

Definition disj (X Y : list blk) : Prop := forall p, covers X p -> covers Y p -> False.
Fixpoint pairwise (X : list blk) : Prop := match X with [] => True | x :: X => disj [x] X /\ pairwise X end.

Lemma covers_one x p : covers [x] p <-> bytes x p.
Proof. rewrite covers_cons, covers_nil. tauto. Qed.

Lemma pairwise_perm X Y : X ≡ₚ Y -> pairwise X -> pairwise Y.
Proof.
  induction 1 as [|x X Y HP IH|x y X|X Y Z' H1 IH1 H2 IH2]; cbn; [done| | |tauto].
  - intros [Hd Hp]. split; [|by apply IH]. intros p Hx Hy. apply (Hd p Hx). by rewrite (covers_perm X Y p HP).
  - intros (Hd & Hd2 & Hp). split; [|split; [|done]].
    + intros p Hx [Hy|Hy]%covers_cons; [apply (Hd p); [by apply covers_one|]|by apply (Hd2 p)]. apply covers_cons. apply covers_one in Hx. by left.
    + intros p Hy HX. apply (Hd p Hy). apply covers_cons. by right.
Qed.

Lemma pairwise_app X Y : pairwise (X ++ Y) -> pairwise X.
Proof.
  induction X as [|x X IH]; [done|]. intros [Hd Hp]. split; [|by apply IH]. intros p Hx HX. apply (Hd p Hx). rewrite covers_app. by left.
Qed.

Lemma apart_disj x X : Forall (apart x) X -> disj [x] X.
Proof. intros Ha p Hx%covers_one (y & Hy & Hp). rewrite Forall_forall in Ha. specialize (Ha y Hy). blia. Qed.

Lemma disj_apart x y : sound x -> sound y -> (forall p, bytes x p -> bytes y p -> False) -> apart x y.
Proof.
  intros Hx Hy Hd. destruct (decide (stop x <= fst y)); [by left|]. destruct (decide (stop y <= fst x)); [by right|]. exfalso. apply (Hd (Z.max (fst x) (fst y))); blia.
Qed.

(** ** The invariant *)

(** [L]: the ring; [O]: the blocks outside it, lent or still to come.  They do not overlap
    and keep clear of the arena. *)
Record hcore (ar : Z) (s : heap) (L O : list blk) : Prop := {
  hc_ring : ring (cells s) (slobfree s) L;
  hc_arena : (ar, 1) ∈ L;
  hc_sound : Forall sound O;
  hc_free : disj L O;
  hc_pair : pairwise O;
  hc_clear : forall p, covers (L ++ O) p -> 0 < p /\ p <> ar - 1 /\ p <> ar + 8 }.

Lemma hcore_perm ar s L O O' : O ≡ₚ O' -> hcore ar s L O -> hcore ar s L O'.
Proof.
  intros HP [H1 H2 H3 H4 H5 H6]. split; [done|done|by rewrite <- HP| |by eapply pairwise_perm|].
  - intros p Hp Hq. apply (H4 p Hp). by rewrite (covers_perm _ _ p HP).
  - intros p Hp. apply H6. by rewrite covers_app, (covers_perm _ _ p HP), <- covers_app.
Qed.

Lemma hcore_drop ar s L O O' : hcore ar s L (O ++ O') -> hcore ar s L O.
Proof.
  intros [H1 H2 H3 H4 H5 H6]. split; [done|done|by apply Forall_app in H3 as []| |by eapply pairwise_app|].
  - intros p Hp Hq. apply (H4 p Hp). rewrite covers_app. by left.
  - intros p Hp. apply H6. rewrite !covers_app in *. tauto.
Qed.

(** The rest of the state does not matter. *)
Lemma hcore_same ar s s' L O : cells s' = cells s -> slobfree s' = slobfree s -> hcore ar s L O -> hcore ar s' L O.
Proof. intros E1 E2 [H1 H2 H3 H4 H5 H6]. split; try done. by rewrite E1, E2. Qed.

(** Data may be written outside the ring. *)
Lemma hcore_put ar s L O a c : ~ covers L a -> hcore ar s L O -> hcore ar (set_cells (<[a := c]> (cells s)) s) L O.
Proof.
  intros Ha [H1 H2 H3 H4 H5 H6]. split; try done. pose proof H1 as [Hc Hn Hr Hs]. split; try done. cbn. eapply chain_frame; [|exact Hc]. intros x (q & -> & Hq)%list_elem_of_fmap. rewrite lookup_insert_ne; [done|]. intros ->. apply Ha. by apply covers_addr.
Qed.

Section core.
Context (ar : Z) (s : heap) (L O : list blk) (I : hcore ar s L O).

Lemma core_head a u : (a, u) ∈ O -> covers O a /\ ~ covers L a /\ 0 < a.
Proof.
  intros Hin. assert (Hc : covers O a) by (exists (a, u); split; [done|]; pose proof (hc_sound _ _ _ _ I) as Hs; rewrite Forall_forall in Hs; specialize (Hs _ Hin); blia). split; [done|].
  split; [intros HL; by apply (hc_free _ _ _ _ I a)|]. apply (hc_clear _ _ _ _ I). rewrite covers_app. by right.
Qed.

(** A block outside, as [slob_free] needs it. *)
Lemma clear_block b w : (b, w) ∈ O -> sound (b, w) /\ Forall (apart (b, w)) L /\ stop (b, w) <> ar /\ stop (ar, 1) <> b /\ b <> 0.
Proof.
  intros Hin. pose proof (hc_sound _ _ _ _ I) as Hs. rewrite Forall_forall in Hs. specialize (Hs _ Hin). assert (Hc : forall p, bytes (b, w) p -> covers O p) by (intros p Hp; by exists (b, w)).
  assert (Hcl : forall p, bytes (b, w) p -> 0 < p /\ p <> ar - 1 /\ p <> ar + 8) by (intros p Hp; apply (hc_clear _ _ _ _ I); rewrite covers_app; right; by apply Hc). split_and!; [done| | | |].
  - apply Forall_forall. intros q Hq. pose proof (rg_sound _ _ _ (hc_ring _ _ _ _ I)) as HsL. rewrite Forall_forall in HsL. apply disj_apart; [done|by apply HsL|]. intros p Hp Hpq. apply (hc_free _ _ _ _ I p); [by exists q|by apply Hc].
  - intros E. destruct (Hcl (stop (b, w) - 1)) as (_ & H1 & _); blia.
  - intros E. destruct (Hcl b) as (_ & _ & H1); blia.
  - destruct (Hcl b) as (H1 & _); blia.
Qed.

(** A block was taken from the ring. *)
Lemma core_taken c n s' L' : 1 < n -> taken_to s s' L L' c n -> hcore ar s' L' ((c, n) :: O) /\ c <> 0 /\ forall x, covers O x -> cells s' !! x = cells s !! x.
Proof.
  intros Hn [T1 T2 T3 T4 T5 T6 T7 T8]. split_and!.
  - split; [done| | | | |].
    + apply T7; [apply I|done].
    + constructor; [blia|apply I].
    + intros p [Hp Hnp]%T3 [Hp2|Hp2]%covers_cons; [done|]. by apply (hc_free _ _ _ _ I p).
    + split; [|apply I]. intros p Hp%covers_one. apply (hc_free _ _ _ _ I p). by apply T2.
    + intros p Hp. apply (hc_clear _ _ _ _ I). rewrite covers_app, ?covers_cons in *. rewrite T3 in Hp. specialize (T2 p). tauto.
  - apply list_elem_of_fmap in T8 as (q & -> & Hq). pose proof (covers_addr L q (rg_sound _ _ _ (hc_ring _ _ _ _ I)) Hq) as Hc. destruct (hc_clear _ _ _ _ I (fst q)) as (H1 & _); [rewrite covers_app; by left|lia].
  - intros x Hx. apply T5. intros HL. by apply (hc_free _ _ _ _ I x).
Qed.

(** A block was added to the ring. *)
Lemma core_freed b w s' L' O' : O ≡ₚ (b, w) :: O' -> freed_to s s' L L' b w -> (ar, 1) ∈ L' -> hcore ar s' L' O' /\ forall x, covers O' x -> cells s' !! x = cells s !! x.
Proof.
  intros HP [F1 F2 F3 F4 F5 F6 F7] Har. pose proof (hcore_perm _ _ _ _ _ HP I) as [I1 I2 I3 I4 [I5 I5'] I6]. pose proof (Forall_inv I3) as Hb. split; [split; [done|done| | |done|]|].
  - by apply Forall_inv_tail in I3.
  - intros q [Hq|Hq]%F2 Hq2; [apply (I4 q Hq); apply covers_cons; by right|apply (I5 q); [by apply covers_one|done]].
  - intros q Hq. apply I6. rewrite covers_app, covers_cons in *. rewrite F2 in Hq. tauto.
  - intros x Hx. apply F3. intros [->|(q & Eq & Hq)%list_elem_of_fmap]%elem_of_cons.
    + apply (I5 b); [apply covers_one; blia|done].
    + apply (I4 x); [|apply covers_cons; by right]. subst x. apply covers_addr; [apply I1|done].
Qed.

(** A block is given back. *)
Lemma core_free b w O' size : O ≡ₚ (b, w) :: O' -> (size <> 0 /\ w = SLOB_UNITS size) \/ (size = 0 /\ exists nb, cells s !! b = Some (Slob w nb)) ->
  exists s' L', slob_free b size s = Ok (tt, s') /\ hcore ar s' L' O' /\ (forall x, covers O' x -> cells s' !! x = cells s !! x) /\ (forall p, covers L' p <-> covers L p \/ bytes (b, w) p) /\ rest s' = rest s.
Proof.
  intros HP Hsz. assert (Hin : (b, w) ∈ O) by (rewrite HP; by left). destruct (clear_block b w Hin) as (Hs & Ha & H1 & H2 & H3).
  destruct (slob_free_ok L b w ar Hs Ha (hc_arena _ _ _ _ I) H1 H2 s (hc_ring _ _ _ _ I) size H3 Hsz) as (s' & L' & E & F & Har). destruct (core_freed b w s' L' O' HP F Har) as [I' Hk].
  exists s', L'. split; [exact E|]. split; [exact I'|]. split; [exact Hk|]. split; [apply F|apply F].
Qed.
End core.

(** ** Pages to come *)

(** The units of [2^order] pages. *)
Definition span (order : Z) : Z := 512 * 2 ^ order.

(** The blocks that the page allocator offers, and those given back to it. *)
Definition supply (l : list (Z * Z)) : list blk := (fun x => (snd x, span (fst x))) <$> l.
Definition given (l : list (Z * Z)) : list blk := (fun x => (fst x, span (snd x))) <$> l.

(** Whole pages that overlap neither each other nor [X] and keep clear of the arena. *)
Fixpoint fresh (ar : Z) (l : list (Z * Z)) (X : list blk) : Prop :=
  match l with
  | [] => True
  | (o, p) :: l => (0 <= o /\ 0 < p /\ Z.land p (PAGE_SIZE - 1) = 0 /\ p + PAGE_SIZE * 2 ^ o <> ar /\ ar + SLOB_UNIT <> p /\ Forall (apart (p, span o)) X) /\
      fresh ar l ((p, span o) :: X)
  end.

Lemma fresh_mono ar l X Y : Y ⊆ X -> fresh ar l X -> fresh ar l Y.
Proof.
  revert X Y. induction l as [|[o p] l IH]; intros X Y Hs; [done|]. cbn [fresh]. intros [(H1 & H2 & H3 & H4 & H5 & H6) Hf]. split; [|eapply IH; [|exact Hf]; set_solver]. split_and!; try done. rewrite Forall_forall in *. auto.
Qed.

Lemma fresh_core ar s L l : forall O, hcore ar s L O -> fresh ar l (L ++ O) -> hcore ar s L (O ++ supply l).
Proof.
  induction l as [|[o p] l IH]; intros O I Hf; [by rewrite app_nil_r|]. cbn [fresh] in *. destruct Hf as [(H0 & H1 & _ & H3 & H4 & H5) Hf]. assert (Hpow : 0 < 2 ^ o) by (apply Z.pow_pos_nonneg; lia).
  eapply hcore_perm; [apply (Permutation_middle O (supply l) (p, span o))|]. apply (IH ((p, span o) :: O)).
  - apply Forall_app in H5 as [HL HO]. pose proof I as [I1 I2 I3 I4 I5 I6]. pose proof (apart_disj _ _ HL) as DL. pose proof (apart_disj _ _ HO) as DO. split; [done|done|constructor; [unfold span; blia|done]| |done|].
    + intros q Hq [Hq2|Hq2]%covers_cons; [apply (DL q); [by apply covers_one|done]|by apply (I4 q)].
    + intros q. rewrite covers_app, covers_cons. intros [Hq|[Hq|Hq]]; [apply I6; rewrite covers_app; by left| |apply I6; rewrite covers_app; by right].
      rewrite Forall_forall in HL. specialize (HL _ I2). unfold PAGE_SIZE, span in *. blia.
  - eapply fresh_mono; [|exact Hf]. set_solver.
Qed.

(** What is offered is whole pages. *)
Lemma fresh_page ar l : forall X o p, fresh ar l X -> (o, p) ∈ l -> Z.land p (PAGE_SIZE - 1) = 0.
Proof.
  induction l as [|[o p] l IH]; intros X o' p' Hf Hin; [by apply not_elem_of_nil in Hin|]. destruct Hf as [(_ & _ & H & _) Hf]. apply elem_of_cons in Hin as [[= -> ->]|Hin]; [done|by eapply IH].
Qed.

(** The page allocator has no block of that order. *)
Definition refuses (o : Z) (l : list (Z * Z)) : Prop := forall p, (o, p) ∉ l.

Lemma take_offer_some o l p l' : take_offer o l = (p, l') -> p <> 0 -> l ≡ₚ (o, p) :: l'.
Proof.
  revert l'. induction l as [|[x q] l IH]; cbn; intros l'; [by intros [= <- <-]|]. destruct (Z.eqb_spec x o) as [->|]; [by intros [= -> ->]|].
  destruct (take_offer o l) as [p1 l1]. intros [= -> <-] Hp. rewrite (IH l1 eq_refl Hp) at 1. apply Permutation_swap.
Qed.

Lemma take_offer_none o l l' : take_offer o l = (0, l') -> (forall x, x ∈ l -> snd x <> 0) -> l' = l /\ refuses o l.
Proof.
  revert l'. induction l as [|[x q] l IH]; cbn; intros l' E Hne; [injection E as <-; split; [done|intros p H; by apply not_elem_of_nil in H]|]. destruct (Z.eqb_spec x o) as [->|Hx].
  - injection E as -> _. by destruct (Hne (o, 0) ltac:(left)).
  - destruct (take_offer o l) as [p1 l1]. injection E as -> <-. destruct (IH l1 eq_refl) as [-> Hr]; [intros y Hy; apply Hne; by right|]. split; [done|]. intros p [[= ? _]|Hin]%elem_of_cons; [by subst|by apply (Hr p)].
Qed.

Lemma offers_nonzero ar s L O l : hcore ar s L (O ++ supply l) -> forall x, x ∈ l -> snd x <> 0.
Proof.
  intros I [o p] Hin. destruct (core_head _ _ _ _ I p (span o)) as (_ & _ & Hp); [apply elem_of_app; right; apply list_elem_of_fmap; by exists (o, p)|]. cbn. lia.
Qed.

Lemma supply_take O o l p l' : take_offer o l = (p, l') -> p <> 0 -> O ++ supply l ≡ₚ (p, span o) :: O ++ supply l'.
Proof. intros E Hp. unfold supply. rewrite (take_offer_some _ _ _ _ E Hp). cbn. by rewrite Permutation_middle. Qed.

(** ** Allocation *)

Definition none_fits (L : list blk) (n : Z) : Prop := forall q, q ∈ L -> snd q < n.

Record got (ar : Z) (s : heap) (L O : list blk) (n c : Z) (s' : heap) (L' : list blk) : Prop := {
  got_core : hcore ar s' L' ((c, n) :: O ++ supply (offers s'));
  got_kept : forall x, covers O x -> cells s' !! x = cells s !! x;
  got_units : exists x, cells s' !! c = Some (Slob n x);
  got_mem : forall p, covers (L ++ supply (offers s)) p <-> covers (L' ++ supply (offers s')) p \/ bytes (c, n) p;
  got_rest : (bigblocks s', freed s') = (bigblocks s, freed s);
  got_pages : offers s' = offers s \/ none_fits L n /\ exists p, offers s ≡ₚ (0, p) :: offers s' }.

Lemma taken_got ar s s' L L' O c n : 1 < n -> hcore ar s L (O ++ supply (offers s)) -> taken_to s s' L L' c n -> c <> 0 /\ got ar s L O n c s' L' /\ offers s' = offers s.
Proof.
  intros Hn I T. destruct (core_taken ar s L _ I c n s' L' Hn T) as (I' & Hc & Hk). destruct T as [T1 T2 T3 T4 T5 T6 T7 T8]. injection T6 as Tb Ta Tf. split; [done|]. split; [|done]. split; try done.
  - by rewrite Ta.
  - intros x Hx. apply Hk. rewrite covers_app. by left.
  - intros p. rewrite Ta, !covers_app, T3. specialize (T2 p). assert (Hdec : bytes (c, n) p \/ ~ bytes (c, n) p) by blia. tauto.
  - by rewrite Tb, Tf.
  - by left.
Qed.

Lemma core_alloc ar s L O size : hcore ar s L (O ++ supply (offers s)) -> 8 < size < 4088 ->
  exists c s' L', slob_alloc size 0 s = Ok (c, s') /\ (c <> 0 /\ got ar s L O (SLOB_UNITS size) c s' L' \/ c = 0 /\ L' = L /\ s' = s /\ none_fits L (SLOB_UNITS size) /\ refuses 0 (offers s)).
Proof.
  intros I Hsz. set (n := SLOB_UNITS size). assert (Hn : 1 < n) by (unfold n, SLOB_UNITS, SLOB_UNIT; apply Z.lt_le_trans with 2; [lia|apply Z.div_le_lower_bound; lia]).
  assert (HP : forall p l, take_offer 0 (offers s) = (p, l) -> p <> 0 -> O ++ supply (offers s) ≡ₚ (p, 512) :: O ++ supply l) by (intros p l; apply (supply_take O 0)).
  destruct (slob_alloc_ok s L ar size (hc_ring _ _ _ _ I) (hc_arena _ _ _ _ I) Hsz) as (c & s' & L' & E & A).
  { intros p l Ea Hp. destruct (clear_block ar s L _ I p 512) as (_ & H1 & H2 & H3 & _); [|done]. rewrite (HP p l Ea Hp). by left. }
  exists c, s', L'. split; [exact E|]. inversion A as [c1 s1 L1 T|p l c1 s1 s2 L1 L2 Hno Ea Hp0 F T|l Hno Hans]; subst; [left; destruct (taken_got ar s s' L L' O c n Hn I T) as (H1 & H2 & _); by split| |].
  2: { right. destruct (take_offer_none _ _ _ Hans (offers_nonzero _ _ _ _ _ I)) as [-> Hr]. split_and!; try done. by destruct s. }
  left. pose proof (fr_rest _ _ _ _ _ _ F) as Hre. injection Hre as Fb Fa Ff. assert (Har1 : (ar, 1) ∈ L1).
  { destruct (clear_block ar s L _ I p 512) as (_ & _ & H2 & H3 & _); [rewrite (HP p l Ea Hp0); by left|]. by apply (fr_far _ _ _ _ _ _ F); [apply I|..]. }
  destruct (core_freed ar (set_offers l s) L _ (hcore_same ar s (set_offers l s) L _ eq_refl eq_refl I) p 512 s1 L1 _ (HP p l Ea Hp0) F Har1) as [I1 K1]. cbn in Fa. rewrite <- Fa in I1, K1.
  destruct (taken_got ar s1 s' L1 L' O c n Hn I1 T) as (Hc & [G1 G2 G3 G4 G5 _] & G6). split; [done|].
  split; try done.
  - intros x Hx. rewrite G2 by done. rewrite K1; [done|]. rewrite covers_app. by left.
  - intros q. rewrite <- G4, !covers_app, (fr_covers _ _ _ _ _ _ F q), Fa. pose proof (covers_perm _ _ q (supply_take [] 0 _ _ _ Ea Hp0)) as Hs. cbn [app] in Hs. rewrite Hs, covers_cons. change (span 0) with 512. tauto.
  - rewrite G5. cbn in *. by rewrite Fb, Ff.
  - right. split; [done|]. exists p. rewrite G6, Fa. by apply take_offer_some.
Qed.
