(* ===== verification/SlobSafe.v ===== *)
(** * SlobSafe: what [kmalloc] and [kfree] promise, and where they do not keep it *)

From stdpp Require Import numbers gmap list sorting.
From S2P Require Import Prelude Slob SlobRing SlobFree SlobAlloc SlobHeap.
Local Open Scope Z_scope.

(** ** The heap *)

(** The free blocks, read off the ring. *)
Fixpoint ring_from (k : nat) (m : gmap Z slob) (a z : Z) : list blk :=
  match k, m !! a with
  | S k, Some c => (a, units c) :: if next c =? z then [] else ring_from k m (next c) z
  | _, _ => []
  end.
Definition free_blocks (s : heap) : list blk := ring_from (base.size (cells s)) (cells s) (slobfree s) (slobfree s).

Lemma ring_from_chain m z L : forall k a, chain m a L z -> L <> [] -> z ∉ (tail L).*1 -> (length L <= k)%nat -> ring_from k m a z = L.
Proof.
  induction L as [|[x u] L IH]; intros k a Hc Hn Hz Hk; [done|]. destruct Hc as (-> & n & Hm & Hc). destruct k as [|k]; [cbn in Hk; lia|]. cbn [ring_from]. rewrite Hm. cbn [units next tail] in *. f_equal. destruct (Z.eqb_spec n z) as [->|Hne].
  - destruct L as [|[y v] L]; [done|]. destruct Hc as [-> _]. exfalso. apply Hz. by left.
  - apply IH; [done| | |cbn in Hk; lia].
    + intros ->. by cbn in Hc.
    + intros Hin. apply Hz. destruct L; [done|]. by right.
Qed.

Lemma free_ring s L : ring (cells s) (slobfree s) L -> free_blocks s = L.
Proof.
  intros R. apply ring_from_chain; [apply R|apply R| |by eapply ring_size]. pose proof (ring_nodup _ _ _ R) as Hnd. pose proof (chain_first _ _ _ _ (rg_chain _ _ _ R)) as Hf. pose proof (rg_ne _ _ _ R). destruct L as [|[x u] L]; [done|]. cbn in *. subst. by apply NoDup_cons in Hnd as [].
Qed.

(** What large blocks are made of: the [struct bigblock] and [2^order] pages. *)
Definition descs (B : list bigblock) : list blk := (fun b => (addr b, 2)) <$> B.
Definition bigs (B : list bigblock) : list blk := (fun b => (pages b, span (order b))) <$> B.

(** The heap with the small blocks handed out, with their headers. *)
Record kworld := KWorld { hp : heap; live : list blk }.
Definition lent (w : kworld) : list blk := live w ++ descs (bigblocks (hp w)) ++ bigs (bigblocks (hp w)).
Definition large (b : bigblock) : Prop := Z.land (pages b) (PAGE_SIZE - 1) = 0.

Record hinv (ar : Z) (w : kworld) : Prop := {
  hi_core : hcore ar (hp w) (free_blocks (hp w)) (lent w);
  hi_units : Forall (fun x => 1 < snd x) (live w);
  hi_head : forall a u, (a, u) ∈ live w -> exists n, cells (hp w) !! a = Some (Slob u n);
  hi_large : Forall large (bigblocks (hp w)) }.

(** ** Operations *)

(** An operation, with what the page allocator can offer during it. *)
Inductive kop := Malloc (size : Z) (l : list (Z * Z)) | Free (block : Z).

(** The heap as an operation finds it: the offers to it, and nothing given back yet. *)
Definition ready (l : list (Z * Z)) (s : heap) : heap := Heap (cells s) (slobfree s) (bigblocks s) l [].

Definition with_block (r n : Z) (V : list blk) : list blk := if decide (r = 0) then V else (r - SLOB_UNIT, n) :: V.
Fixpoint del (a : Z) (V : list blk) : list blk := match V with [] => [] | x :: V => if decide (fst x = a) then V else x :: del a V end.
Definition lend (size r : Z) (V : list blk) : list blk := if decide (size < PAGE_SIZE - SLOB_UNIT) then with_block r (SLOB_UNITS (size + SLOB_UNIT)) V else V.

Definition krun (o : kop) (w : kworld) : outcome kworld :=
  match o with
  | Malloc size l => match kmalloc size (ready l (hp w)) with Ok (r, s) => Ok (KWorld s (lend size r (live w))) | Err e => Err e end
  | Free block => match kfree block (ready [] (hp w)) with Ok (_, s) => Ok (KWorld s (del (block - SLOB_UNIT) (live w))) | Err e => Err e end
  end.

(** Requests of at least a byte, but not of a few bytes less than a page, nor of more
    pages than [alloc_pages] takes; the page allocator offers pages that nobody has.
    Blocks are freed that were handed out and not freed since. *)
Definition kallowed (ar : Z) (o : kop) (w : kworld) : Prop :=
  match o with
  | Malloc size l => 1 <= size < 2 ^ 32 /\ (size < 4080 \/ 4088 <= size) /\ find_order size <= 10 /\ fresh ar l (free_blocks (hp w) ++ lent w)
  | Free block => block - SLOB_UNIT ∈ (live w).*1 \/ block ∈ pages <$> bigblocks (hp w)
  end.

(** Why a request may be refused: no block is large enough, and no page is to be had;
    for a large one also that there are no [2^order] pages, once a page was spent on the
    [struct bigblock] if it needed one. *)
Definition refused (size : Z) (l : list (Z * Z)) (L : list blk) : Prop :=
  if decide (size < PAGE_SIZE - SLOB_UNIT) then none_fits L (SLOB_UNITS (size + SLOB_UNIT)) /\ refuses 0 l
  else refuses (find_order size) l \/
    none_fits L (SLOB_UNITS BIGBLOCK_SIZE) /\ (refuses 0 l \/ exists p l', l ≡ₚ (0, p) :: l' /\ refuses (find_order size) l').

(** Every byte the allocator had or was offered is in one place afterwards: free, lent,
    given back, or not taken. *)
Definition elsewhere (w : kworld) : list blk := lent w ++ given (freed (hp w)) ++ supply (offers (hp w)).
Record accounts (l : list (Z * Z)) (w w' : kworld) : Prop := {
  ac_free : disj (free_blocks (hp w')) (elsewhere w');
  ac_apart : pairwise (elsewhere w');
  ac_all : forall p, covers (free_blocks (hp w) ++ lent w ++ supply l) p <-> covers (free_blocks (hp w') ++ elsewhere w') p }.

(** An allocation succeeds, or is refused for a reason; a large block is one that was
    offered, of exactly the order that [find_order] gives. *)
Definition answered (ar size : Z) (l : list (Z * Z)) (w : kworld) : Prop :=
  exists r s, kmalloc size (ready l (hp w)) = Ok (r, s) /\
    hinv ar (KWorld s (lend size r (live w))) /\ accounts l w (KWorld s (lend size r (live w))) /\ freed s = [] /\
    (r = 0 -> refused size l (free_blocks (hp w))) /\
    (r = 0 \/ size < PAGE_SIZE - SLOB_UNIT -> bigblocks s = bigblocks (hp w)) /\
    (r <> 0 -> PAGE_SIZE - SLOB_UNIT <= size -> (find_order size, r) ∈ l /\ exists c, bigblocks s = Big c (find_order size) r :: bigblocks (hp w)).



(** The invariant and the account from their parts. *)
Lemma hinv_intro ar s L V X : hcore ar s L ((V ++ descs (bigblocks s) ++ bigs (bigblocks s)) ++ X) -> Forall (fun x => 1 < snd x) V -> (forall a u, (a, u) ∈ V -> exists n, cells s !! a = Some (Slob u n)) -> Forall large (bigblocks s) -> hinv ar (KWorld s V) /\ free_blocks s = L.
Proof. intros I H1 H2 H3. pose proof (free_ring _ _ (hc_ring _ _ _ _ I)) as E. split; [|done]. split; [|done..]. cbn. rewrite E. by eapply hcore_drop. Qed.

Lemma accounts_intro ar l w s L V : hcore ar s L (elsewhere (KWorld s V)) -> (forall p, covers (free_blocks (hp w) ++ lent w ++ supply l) p <-> covers (L ++ elsewhere (KWorld s V)) p) -> accounts l w (KWorld s V).
Proof. intros I Hp. pose proof (free_ring _ _ (hc_ring _ _ _ _ I)) as E. split; cbn [hp]; rewrite ?E; [apply I|apply I|exact Hp]. Qed.

Lemma hinv_ready ar w l : hinv ar w -> hinv ar (KWorld (ready l (hp w)) (live w)).
Proof. intros [I1 I2 I3 I4]. apply (hinv_intro ar (ready l (hp w)) (free_blocks (hp w)) _ []); try done. rewrite app_nil_r. by eapply hcore_same; [..|exact I1]. Qed.

(** Headers of the small blocks survive what leaves lent memory alone. *)
Lemma heads_kept ar w (m : gmap Z slob) : hinv ar w -> (forall x, covers (lent w) x -> m !! x = cells (hp w) !! x) -> forall a u, (a, u) ∈ live w -> exists n, m !! a = Some (Slob u n).
Proof.
  intros [_ Hs Hh _] Hk a u Hin. destruct (Hh a u Hin) as [n E]. exists n. rewrite Hk; [done|]. unfold lent. rewrite covers_app. left. exists (a, u). split; [done|]. rewrite Forall_forall in Hs. specialize (Hs _ Hin). blia.
Qed.

Lemma find_order_range size : 0 <= find_order size.
Proof.
  unfold find_order. assert (H : forall k n o, 0 <= o -> 0 <= order_loop k n o); [|by apply H]. induction k as [|k IH]; intros n o Ho; cbn [order_loop]; [done|]. destruct (4096 <? n); [apply IH; lia|done].
Qed.

Section small.
Context (ar : Z) (w : kworld) (I : hinv ar w) (size : Z) (l : list (Z * Z)).
Context (Hl : fresh ar l (free_blocks (hp w) ++ lent w)).

Lemma offered : hcore ar (ready l (hp w)) (free_blocks (hp w)) (lent w ++ supply l).
Proof. eapply hcore_same; [..|apply fresh_core; [apply I|exact Hl]]; done. Qed.

(** Nothing changed. *)
Lemma unchanged : hinv ar (KWorld (ready l (hp w)) (live w)) /\ accounts l w (KWorld (ready l (hp w)) (live w)).
Proof. split; [by apply hinv_ready|]. apply (accounts_intro ar l w _ (free_blocks (hp w))); [exact offered|done]. Qed.


(** The state [s] after the [struct bigblock] at [c] was taken. *)
Record described (s : heap) (L' X : list blk) (c : Z) : Prop := {
  de_core : hcore ar s L' ((c, 2) :: lent w ++ X);
  de_kept : forall x, covers (lent w) x -> cells s !! x = cells (hp w) !! x;
  de_mem : forall p, covers (free_blocks (hp w) ++ supply l) p <-> covers (L' ++ X) p \/ bytes (c, 2) p;
  de_rest : (bigblocks s, freed s) = (bigblocks (hp w), []) }.

Lemma described_put s L' X c x : described s L' X c -> described (set_cells (<[c := x]> (cells s)) s) L' X c.
Proof.
  intros [D1 D2 D3 D4]. destruct (core_head _ _ _ _ D1 c 2 ltac:(by left)) as (_ & Hc & _). split; try done; [by apply hcore_put|]. intros y Hy. cbn. rewrite lookup_insert_ne; [by apply D2|]. intros <-.
  pose proof (hc_pair _ _ _ _ D1) as [Hp _]. apply (Hp c); [apply covers_one; blia|]. rewrite covers_app. by left.
Qed.

(** No pages: it is given back. *)
Lemma desc_back s L' c : described s L' (supply (offers s)) c -> exists s', slob_free c BIGBLOCK_SIZE s = Ok (tt, s') /\ hinv ar (KWorld s' (live w)) /\ accounts l w (KWorld s' (live w)) /\ freed s' = [] /\ bigblocks s' = bigblocks (hp w).
Proof.
  intros [D1 D2 D3 D4]. injection D4 as Db Df. pose proof I as [I1 I2 I3 I4]. destruct (core_free ar s L' _ D1 c 2 (lent w ++ supply (offers s)) BIGBLOCK_SIZE ltac:(done) ltac:(by left)) as (s' & L2 & E & I' & K & M & Hre). injection Hre as Rb Ra Rf.
  assert (Hel : elsewhere (KWorld s' (live w)) = lent w ++ supply (offers s)) by (unfold elsewhere, lent; cbn [hp live]; by rewrite Rb, Db, Rf, Df, Ra).
  exists s'. split; [exact E|]. destruct (hinv_intro ar s' L2 (live w) (supply (offers s))) as [H EL]; [by rewrite Rb, Db|done| |by rewrite Rb, Db|].
  - apply (heads_kept ar w _ I). intros x Hx. rewrite K by (rewrite covers_app; by left). by apply D2.
  - split; [exact H|]. split; [|split; congruence]. apply (accounts_intro ar l w _ L2); [by rewrite Hel|]. intros p. specialize (D3 p). rewrite Hel, !covers_app, M in *. tauto.
Qed.

(** The pages are lent. *)
Lemma desc_lent s L' c o p : described s L' ((p, span o) :: supply (offers s)) c -> Z.land p (PAGE_SIZE - 1) = 0 ->
  let w' := KWorld (set_bigs (Big c o p :: bigblocks s) s) (live w) in hinv ar w' /\ accounts l w w'.
Proof.
  intros [D1 D2 D3 D4] Hp. injection D4 as Db Df. cbv zeta. rewrite Db. pose proof I as [I1 I2 I3 I4]. set (s2 := set_bigs (Big c o p :: bigblocks (hp w)) s).
  assert (Hel : elsewhere (KWorld s2 (live w)) ≡ₚ (c, 2) :: (p, span o) :: lent w ++ supply (offers s)) by (unfold elsewhere, lent, descs, bigs; cbn; rewrite Df; cbn; solve_Permutation).
  assert (J : hcore ar s2 L' (elsewhere (KWorld s2 (live w)))).
  { apply (hcore_same ar s); [done|done|]. eapply hcore_perm; [symmetry; exact Hel|]. eapply hcore_perm; [|exact D1]. solve_Permutation. }
  destruct (hinv_intro ar s2 L' (live w) (given (freed s2) ++ supply (offers s2))) as [H EL]; cbn [bigblocks set_bigs cells s2].
  - exact J.
  - done.
  - exact (heads_kept ar w _ I D2).
  - by constructor.
  - split; [done|]. apply (accounts_intro ar l w _ L'); [done|]. intros q. specialize (D3 q). rewrite !covers_app, (covers_perm _ _ q Hel), !covers_cons, !covers_app in *. tauto.
Qed.

(** A large request: a [struct bigblock] and pages. *)
Lemma kmalloc_large : 4088 <= size < 2 ^ 32 -> find_order size <= 10 -> answered ar size l w.
Proof.
  intros Hsz Hord. assert (Hd : ~ size < PAGE_SIZE - SLOB_UNIT) by (unfold PAGE_SIZE, SLOB_UNIT; lia). assert (Hlend : forall r, lend size r (live w) = live w) by (intros r; unfold lend; by rewrite decide_False).
  destruct (core_alloc ar (ready l (hp w)) _ _ BIGBLOCK_SIZE offered ltac:(unfold BIGBLOCK_SIZE; lia)) as (c & s' & L' & E & A). change (SLOB_UNITS BIGBLOCK_SIZE) with 2 in A.
  unfold answered, refused, kmalloc, __kmalloc. rewrite decide_False, (proj2 (Z.ltb_ge _ _)) by (done || lia). rewrite (bind_step _ _ _ _ _ E). setoid_rewrite Hlend. destruct A as [[Hc [G1 G2 G3 G4 G5 G6]]|(-> & -> & -> & Hno & Href)].
  2: { destruct unchanged as [U1 U2]. exists 0, (ready l (hp w)). split_and!; try done. intros _. right. split; [done|by left]. }
  rewrite (proj2 (Z.eqb_neq _ _) Hc). pose proof (find_order_range size) as Ho. set (o := find_order size) in *. cbv zeta. rewrite (bind_step _ _ _ _ _ (get_pages_ok o s' ltac:(lia))). cbn [offers ready] in G4, G6.
  destruct (take_offer o (offers s')) as [p l'] eqn:Ea. cbn [fst snd]. unfold put_cell. rewrite bind_modify. cbn [cells set_offers]. destruct (Z.eqb_spec p 0) as [->|Hp0]; cbn [negb].
  - destruct (take_offer_none _ _ _ Ea) as [-> Hr]; [exact (offers_nonzero _ _ _ ((c, 2) :: lent w) _ G1)|].
    destruct (desc_back (set_cells (<[c := Slob o 0]> (cells s')) (set_offers (offers s') s')) L' c) as (s3 & E3 & H3 & A3 & F3 & B3); [apply (described_put (set_offers (offers s') s')); by split; [eapply hcore_same; [..|exact G1]|..]|].
    exists 0, s3. rewrite (bind_step _ _ _ _ _ E3). split_and!; try done. intros _. destruct G6 as [G6|(G6 & q & G7)]; [left; by rewrite <- G6|]. right. split; [done|]. right. by exists q, (offers s').
  - pose proof (take_offer_some _ _ _ _ Ea Hp0) as HP. assert (Hin : (o, p) ∈ l) by (assert (Hin : (o, p) ∈ offers s') by (rewrite HP; by left); destruct G6 as [<-|(_ & q & ->)]; [done|by right]).
    assert (D : described (set_offers l' s') L' ((p, span o) :: supply l') c).
    { split; [|done| |exact G5].
      - apply (hcore_same ar s'); [done|done|]. eapply hcore_perm; [|exact G1]. constructor. unfold supply. rewrite HP. cbn. done.
      - intros q. rewrite G4, !covers_app, covers_cons. unfold supply. rewrite (covers_perm _ _ q (fmap_Permutation _ _ _ HP)). cbn. rewrite covers_cons. tauto. }
    destruct (desc_lent _ _ _ o p (described_put _ _ _ _ (Slob o p) D)) as [H1 H2]; [exact (fresh_page _ _ _ _ _ Hl Hin)|].
    eexists p, _. rewrite bind_modify. split; [reflexivity|]. split; [exact H1|]. split; [exact H2|]. injection G5 as Gb Gf. split_and!; try done; [intros [?|?]; done|]. intros _ _. split; [done|]. exists c. cbn. by rewrite Gb.
Qed.
End small.

(** ** Releases *)


Lemma find_big_none block B : block ∉ pages <$> B -> find_big block B = None.
Proof. induction B as [|b B IH]; cbn; [done|]. intros [Hb Hn]%not_elem_of_cons. rewrite (proj2 (Z.eqb_neq _ _)) by done. by apply IH. Qed.

Section release.
Context (ar : Z) (w : kworld) (I : hinv ar w).

(** Small blocks are not where large ones are. *)
Lemma small_or_large block : block - SLOB_UNIT ∈ (live w).*1 -> block ∉ pages <$> bigblocks (hp w).
Proof.
  intros ([a u] & Ea & Hin)%list_elem_of_fmap (b & Eb & Hb)%list_elem_of_fmap. cbn in Ea. pose proof (hi_units _ _ I) as Hu. rewrite Forall_forall in Hu. specialize (Hu _ Hin). cbn in Hu.
  pose proof (hc_pair _ _ _ _ (hi_core _ _ I)) as Hp. apply elem_of_Permutation in Hin as [V HV]. apply elem_of_Permutation in Hb as [B HB]. assert (HP : lent w ≡ₚ (a, u) :: (pages b, span (order b)) :: V ++ descs (b :: B) ++ bigs B) by (unfold lent, descs, bigs; rewrite HV, HB; cbn; solve_Permutation).
  assert (Hsb : sound (pages b, span (order b))) by (pose proof (hc_sound _ _ _ _ (hi_core _ _ I)) as Hs; rewrite HP, !Forall_cons in Hs; by destruct Hs as (_ & ? & _)).
  destruct (pairwise_perm _ _ HP Hp) as [Hd _]. apply (Hd block); [apply covers_one; blia|]. apply covers_cons. left. blia.
Qed.


End release.

(** ** Sessions *)





(** Whether a session is permitted, by running it. *)
#[global] Instance apart_dec x y : Decision (apart x y).
Proof. unfold apart, before. apply _. Defined.
#[global] Instance fresh_dec ar l X : Decision (fresh ar l X).
Proof. revert X. induction l as [|[o p] l IH]; intros X; cbn [fresh]; [apply _|]. pose proof (IH ((p, span o) :: X)). apply _. Defined.
#[global] Instance kallowed_dec ar o w : Decision (kallowed ar o w).
Proof. destruct o; cbn [kallowed]; apply _. Defined.


(** The heap at boot, with the arena at 0x1000. *)
Definition boot_heap : kworld := KWorld (slob_init 0x1000 []) [].

Lemma boot_inv : hinv 0x1000 boot_heap.
Proof.
  assert (Ha : forall p, covers [(0x1000, 1)] p <-> 0x1000 <= p < 0x1008) by (intros p; rewrite covers_one; blia). apply (hinv_intro 0x1000 (slob_init 0x1000 []) [(0x1000, 1)] [] []); [|constructor|intros a u H; by apply not_elem_of_nil in H|constructor]. split; cbn -[covers].
  - split; [|done| |by repeat constructor].
    + split; [done|]. exists 0x1000. done.
    + exists [], [(0x1000, 1)]. split; [done|]. repeat constructor.
  - by left.
  - constructor.
  - intros p _ H%covers_nil. done.
  - done.
  - intros p H%Ha. lia.
Qed.



(** ** Where it goes wrong *)

(** A request of 4080 to 4087 bytes is taken for one that fits into a page with its
    header, and fails the assertion of [slob_alloc], whatever the state. *)
Theorem kmalloc_gap_panics size l w : 4080 <= size < 4088 -> krun (Malloc size l) w = Err AssertFailed.
Proof.
  intros H. cbn [krun]. assert (E : kmalloc size (ready l (hp w)) = Err AssertFailed); [|by rewrite E]. unfold kmalloc, __kmalloc. rewrite (proj2 (Z.ltb_lt _ _)) by (unfold PAGE_SIZE, SLOB_UNIT; lia). apply bind_err. unfold slob_alloc. apply bind_err. unfold kassert.
  rewrite (umod_small 32) by (unfold is_u, SLOB_UNIT; lia). by rewrite (proj2 (Z.ltb_ge _ _)) by (unfold PAGE_SIZE, SLOB_UNIT; lia).
Qed.

Lemma kmalloc_gap_panics_witness : krun (Malloc 4080 []) boot_heap = Err AssertFailed.
Proof. apply kmalloc_gap_panics. lia. Defined.

Lemma order_loop_spec k : forall fuel size o, (k <= fuel)%nat -> size / 2 ^ Z.of_nat k <= 4096 -> (forall j, (j < k)%nat -> 4096 < size / 2 ^ Z.of_nat j) -> order_loop fuel size o = o + Z.of_nat k.
Proof.
  induction k as [|k IH]; intros fuel size o Hf Hle Hgt.
  - rewrite Z.pow_0_r, Z.div_1_r in Hle. destruct fuel; cbn; [lia|]. destruct (Z.ltb_spec 4096 size); lia.
  - destruct fuel as [|fuel]; [lia|]. cbn [order_loop]. pose proof (Hgt 0%nat ltac:(lia)) as H0. rewrite Z.pow_0_r, Z.div_1_r in H0. destruct (Z.ltb_spec 4096 size); [|lia]. rewrite Z.shiftr_div_pow2 by lia. change (2 ^ 1) with 2.
    assert (Hd : forall j, size / 2 / 2 ^ Z.of_nat j = size / 2 ^ Z.of_nat (S j)) by (intros j; rewrite Z.div_div by lia; f_equal; rewrite Nat2Z.inj_succ, Z.pow_succ_r by lia; done).
    rewrite (IH fuel _ (o + 1)); [lia|lia|by rewrite Hd|]. intros j Hj. rewrite Hd. apply Hgt. lia.
Qed.

Lemma find_order_short k size : 0 <= k <= 10 -> PAGE_SIZE * 2 ^ k < size < (PAGE_SIZE + 1) * 2 ^ k -> find_order size = k.
Proof.
  intros Hk Hs. unfold PAGE_SIZE in *. assert (Hp : 0 < 2 ^ k <= 2 ^ 10) by (split; [apply Z.pow_pos_nonneg; lia|apply Z.pow_le_mono_r; lia]). unfold find_order. rewrite (smod_small 32) by (done || (unfold is_s; change (2 ^ 10) with 1024 in Hp; lia)).
  rewrite (order_loop_spec (Z.to_nat k)) by first [lia | rewrite Z2Nat.id by lia; apply Z.lt_succ_r, Z.div_lt_upper_bound; lia |
    intros j Hj; apply Z.lt_le_trans with (2 * 4096); [lia|]; apply Z.div_le_lower_bound; [apply Z.pow_pos_nonneg; lia|]; assert (He : 2 ^ k = 2 ^ Z.of_nat j * 2 ^ (k - Z.of_nat j)) by (rewrite <- Z.pow_add_r by lia; f_equal; lia);
      assert (2 ^ 1 <= 2 ^ (k - Z.of_nat j)) by (apply Z.pow_le_mono_r; lia); assert (0 < 2 ^ Z.of_nat j) by (apply Z.pow_pos_nonneg; lia); nia]. lia.
Qed.

(** C37: a request of more than [2^k] pages, by less than [2^k] bytes, that is not refused
    is served with a block of exactly [2^k] pages, one the page allocator offered at that
    order: it is smaller than what was asked for (8193 bytes get 8192).  [k] goes up to
    10, the most [alloc_pages] takes. *)
Theorem kmalloc_short ar w k size l : hinv ar w -> fresh ar l (free_blocks (hp w) ++ lent w) -> 1 <= k <= 10 ->
  PAGE_SIZE * 2 ^ k < size < (PAGE_SIZE + 1) * 2 ^ k -> ~ refused size l (free_blocks (hp w)) ->
  exists s c p, kmalloc size (ready l (hp w)) = Ok (p, s) /\ (k, p) ∈ l /\ bigblocks s = Big c k p :: bigblocks (hp w) /\
    (p, span k) ∈ bigs (bigblocks s) /\ SLOB_UNIT * span k < size.
Proof.
  intros I Hl Hk Hs Hr. assert (Hpow : 2 ^ 1 <= 2 ^ k <= 2 ^ 10) by (split; apply Z.pow_le_mono_r; lia). change (2 ^ 10) with 1024 in Hpow. pose proof (find_order_short k size ltac:(lia) Hs) as Ho. unfold PAGE_SIZE in Hs.
  destruct (kmalloc_large ar w I size l Hl ltac:(lia) ltac:(lia)) as (r & s & E & _ & _ & _ & H0 & _ & Hb). rewrite Ho in Hb. destruct Hb as (Hin & c & Hb); [by intros ->; apply Hr, H0|unfold PAGE_SIZE, SLOB_UNIT in *; lia|].
  exists s, c, r. split_and!; [done|done|done| |unfold span, SLOB_UNIT; lia]. rewrite Hb. by left.
Qed.

Lemma kmalloc_short_witness : exists s c p, kmalloc 8193 (ready [(0, 0x8000); (1, 0xa000)] (hp boot_heap)) = Ok (p, s) /\ (1, p) ∈ [(0, 0x8000); (1, 0xa000)] /\
  bigblocks s = [Big c 1 p] /\ (p, span 1) ∈ bigs (bigblocks s) /\ SLOB_UNIT * span 1 < 8193.
Proof.
  apply (kmalloc_short 0x1000 boot_heap 1 8193 [(0, 0x8000); (1, 0xa000)]); [exact boot_inv|apply (bool_decide_unpack _); vm_compute; reflexivity|lia|unfold PAGE_SIZE; lia|]. unfold refused. rewrite decide_False by (unfold PAGE_SIZE, SLOB_UNIT; lia). change (find_order 8193) with 1.
  intros [H|[_ [H|(p & l' & HP & H)]]]; [apply (H 0xa000); right; by left|apply (H 0x8000); by left|]. apply (H 0xa000). assert (Hin : (1, 0xa000) ∈ (0, p) :: l') by (rewrite <- HP; right; by left). by apply elem_of_cons in Hin as [|].
Defined.

(** A request of no bytes is given the arena itself, whose one unit is enough for the
    header; it stays in the ring, and freeing it never finds its place. *)
Theorem kmalloc_zero ar l : 0 < ar ->
  kmalloc 0 (slob_init ar l) = Ok (ar + SLOB_UNIT, slob_init ar l) /\ forall k, find_point k ar (slobfree (slob_init ar l)) (slob_init ar l) = Err OutOfFuel.
Proof.
  intros Har. assert (Hc : cell ar (slob_init ar l) = Ok (Slob 1 ar, slob_init ar l)) by (unfold cell, load; cbn [cells slob_init]; by rewrite lookup_singleton_eq). split.
  - assert (Ha : slob_alloc 8 0 (slob_init ar l) = Ok (ar, slob_init ar l)).
    { unfold slob_alloc. rewrite bind_kassert by done. rewrite bind_gets. cbn [slobfree slob_init]. rewrite (bind_step _ _ _ _ _ Hc). cbn [next]. rewrite Nat.add_comm. cbn [Nat.add alloc_loop]. rewrite (bind_step _ _ _ _ _ Hc).
      change (slob_take 1 ar ar 0 0 (slob_init ar l) = Ok (ar, slob_init ar l)). unfold slob_take. rewrite (bind_step _ _ _ (ar, ar) (slob_init ar l)) by done. rewrite (bind_step _ _ _ _ _ Hc). cbn [units next Z.eqb Pos.eqb]. unfold set_next. rewrite bind_assoc_M, (bind_step _ _ _ _ _ Hc). unfold put_cell. rewrite bind_modify. unfold set_cells, slob_init. cbn. by rewrite insert_singleton_eq. }
    unfold kmalloc, __kmalloc. change (0 <? PAGE_SIZE - SLOB_UNIT) with true. cbv match. change (0 + SLOB_UNIT) with 8. rewrite (bind_step _ _ _ _ _ Ha). by destruct (Z.eqb_spec ar 0); [lia|].
  - induction k as [|k IH]; [done|]. cbn [find_point slobfree slob_init] in *. rewrite (bind_step _ _ _ _ _ Hc). cbn [next]. rewrite Z.ltb_irrefl, Z.leb_refl. exact IH.
Qed.

(** [ksize] of a small block counts its header: it reports 8 bytes more than can be used
    before the next block begins. *)
Theorem ksize_small ar w a u : hinv ar w -> (a, u) ∈ live w -> a + SLOB_UNIT <> 0 -> SLOB_UNIT * u < 2 ^ 32 ->
  ksize (a + SLOB_UNIT) (hp w) = Ok (SLOB_UNIT * u, hp w) /\ a + SLOB_UNIT + SLOB_UNIT * u = stop (a, u) + SLOB_UNIT.
Proof.
  intros I Hin Hne Hu. split; [|blia]. pose proof I as [_ I2 I3 _]. destruct (I3 a u Hin) as [n En]. rewrite Forall_forall in I2. specialize (I2 _ Hin). cbn in I2.
  unfold ksize. rewrite (proj2 (Z.eqb_neq _ _) Hne), bind_gets. unfold big_at. rewrite find_big_none by (apply (small_or_large ar w I); apply list_elem_of_fmap; exists (a, u); split; [cbn; lia|done]).
  rewrite Z.add_simpl_r. assert (E : (c ← cell a; mret (u32 (units c * SLOB_UNIT))) (hp w) = Ok (SLOB_UNIT * u, hp w)); [|by destruct (_ =? 0)]. rewrite (bind_step _ _ _ _ _ (cell_ok _ a _ En)). cbn [units]. rewrite (umod_small 32) by (unfold is_u, SLOB_UNIT in *; lia). by rewrite Z.mul_comm.
Qed.
