(* ===== verification/Fmt.v ===== *)
(** * Fmt: formatted output (libs/printfmt.c, arch/soc/libs/kio.c) and line input (libs/readline.c)

    The characters go to a function [putch] on some state.  The format is a list of
    characters with the NUL after it; [fmt] points into it.  A 32-bit argument is a
    [Word], a 64-bit one a [Dword], a string is given by its characters ([None] for a
    null pointer) and is not where the output goes.  Taking an argument of another
    kind is undefined.  [width] and [precision] are [int]s: a number in the format that
    does not fit is undefined, and so is counting [width] down below the least [int]. *)

From stdpp Require Import numbers gmap list strings.
From S2P Require Import Prelude Strings.
Local Open Scope Z_scope.

(** ** Errors *)

Definition chars (s : string) : list Z := (fun c => Z.of_N (Ascii.N_of_ascii c)) <$> String.list_ascii_of_string s.

Definition MAXERROR : Z := 39.
Definition E_INVAL : Z := 22.
Definition error_string : list (option (list Z)) :=
  None :: ((fun s => Some (chars s)) <$>
  ["Operation not permitted"; "No such file or directory"; "No such process"; "Interrupted system call"; "I/O error"; "No such device or address"; "Argument list too long"; "Exec format error"; "Bad file number"; "No child processes";
   "Try again"; "Out of memory"; "Permission denied"; "Bad address"; "Block device required"; "Device or resource busy"; "File exists"; "Cross-device link"; "No such device"; "Not a directory";
   "Is a directory"; "Invalid argument"; "File table overflow"; "Too many open files"; "Not a typewriter"; "Text file busy"; "File too large"; "No space left on device"; "Illegal seek"; "Read-only file system";
   "Too many links"; "Broken pipe"; "Math argument out of domain of func"; "Math result not representable"; "Unimplemented Feature"; "Panic Failure"; "Process is killed"; "Unspecified or unknown problem"; "SWAP READ/WRITE fault"]%string).

(** ** Printing *)

Inductive vararg := Word (n : Z) | Dword (n : Z) | Str (s : option (list Z)).

(** [lflag] counts the [l]s. *)
Record flags := Flags { padc : Z; width : Z; precision : Z; lflag : Z; altflag : bool }.
Definition set_padc (c : Z) (f : flags) : flags := Flags c (width f) (precision f) (lflag f) (altflag f).
Definition set_width (n : Z) (f : flags) : flags := Flags (padc f) n (precision f) (lflag f) (altflag f).
Definition set_precision (n : Z) (f : flags) : flags := Flags (padc f) (width f) n (lflag f) (altflag f).
Definition set_lflag (n : Z) (f : flags) : flags := Flags (padc f) (width f) (precision f) n (altflag f).
Definition set_altflag (f : flags) : flags := Flags (padc f) (width f) (precision f) (lflag f) true.

Definition is_digit (c : Z) : bool := (48 <=? c) && (c <=? 57).

Section fmt.
Context {St : Type} (putch : Z -> M St unit).

(** The same character a number of times. *)
Fixpoint rep (n : nat) (c : Z) : M St unit := match n with O => mret tt | S n => _ ← putch c; rep n c end.

(** [do_div] of the port divides the low 32 bits. *)
Definition do_div (n base : Z) : Z * Z := (u32 n / base, u32 n mod base).

(** [width - 1], of an [int]. *)
Definition decr (width : Z) : M St Z := if decide (is_s 32 (width - 1)) then mret (width - 1) else fail Undefined.

Fixpoint printnum (k : nat) (num base width padc : Z) : M St unit :=
  match k with
  | O => fail OutOfFuel
  | S k =>
      let '(result, md) := do_div num base in
      width ← decr width;
      _ ← (if base <=? num then printnum k result base width padc else rep (Z.to_nat width) padc);
      putch (default 0 (chars "0123456789abcdef" !! Z.to_nat md))
  end.

Definition take_int (ap : list vararg) : M St (Z * list vararg) := match ap with Word n :: ap => mret (s32 n, ap) | _ => fail Undefined end.
Definition getuint (ap : list vararg) (lflag : Z) : M St (Z * list vararg) :=
  match ap with
  | Dword n :: ap => if 2 <=? lflag then mret (u64 n, ap) else fail Undefined
  | Word n :: ap => if 2 <=? lflag then fail Undefined else mret (u32 n, ap)
  | _ => fail Undefined
  end.
Definition getint (ap : list vararg) (lflag : Z) : M St (Z * list vararg) :=
  match ap with
  | Dword n :: ap => if 2 <=? lflag then mret (s64 n, ap) else fail Undefined
  | Word n :: ap => if 2 <=? lflag then fail Undefined else mret (s32 n, ap)
  | _ => fail Undefined
  end.

(** The characters of a string, as many as the precision allows; what is left of the width. *)
Fixpoint str_loop (p : list Z) (precision width : Z) (alt : bool) : M St Z :=
  match p with
  | [] => mret width
  | ch :: p =>
      if (precision <? 0) || (0 <=? precision - 1) then
        _ ← putch (if alt && ((ch <? 32) || (126 <? ch)) then 63 else ch);
        width ← decr width;
        str_loop p (if precision <? 0 then precision else precision - 1) width alt
      else mret width
  end.

(** [strnlen]: [len] is a [size_t]. *)
Definition slen (p : list Z) (len : Z) : Z := Z.min (Z.of_nat (length p)) (u32 len).

Definition print_string (p : list Z) (f : flags) : M St unit :=
  w ← (if (0 <? width f) && negb (padc f =? 45) then
         let w := s32 (width f - slen p (precision f)) in
         _ ← rep (Z.to_nat w) (padc f); mret (Z.min w 0)
       else mret (width f));
  w ← str_loop p (precision f) w (altflag f);
  rep (Z.to_nat w) 32.

(** The number to the base, at most 33 digits. *)
Definition number (num base : Z) (f : flags) : M St unit := printnum 33 num base (width f) (padc f).

(** [*fmt++]. *)
Definition fetch (fmt : list Z) (i : nat) : M St Z := if decide (i <= length fmt)%nat then mret (default 0 (fmt !! i)) else fail BadAccess.

(** A number in the format, from the digit [ch] on; [i] is the position after it. *)
Fixpoint field (k : nat) (fmt : list Z) (i : nat) (prec ch : Z) : M St (Z * nat) :=
  match k with
  | O => fail OutOfFuel
  | S k =>
      if decide (is_s 32 (prec * 10 + ch)) then
        let prec := prec * 10 + ch - 48 in
        ch ← fetch fmt i;
        if is_digit ch then field k fmt (S i) prec ch else mret (prec, i)
      else fail Undefined
  end.

Definition process_precision (n : Z) (f : flags) : flags := if width f <? 0 then set_precision (-1) (set_width n f) else set_precision n f.

(** Back to the character after the [%]. *)
Fixpoint rewind (fmt : list Z) (i : nat) : M St nat :=
  match i with O => fail BadAccess | S j => if default 0 (fmt !! j) =? 37 then mret i else rewind fmt j end.

Section self.
(** [printfmt], for the messages of [%e]. *)
Context (printfmt : list Z -> list vararg -> M St unit).

Definition print_error (err : Z) : M St unit :=
  let err := if err <? 0 then s32 (- err) else err in
  if MAXERROR <? err then printfmt (chars "error %d") [Word err]
  else if err <? 0 then fail BadAccess
  else match default None (error_string !! Z.to_nat err) with
       | None => printfmt (chars "error %d") [Word err]
       | Some p => printfmt (chars "%s") [Str (Some p)]
       end.

(** From [reswitch] on: the format after the sequence, and the arguments left. *)
Fixpoint directive (k : nat) (fmt : list Z) (i : nat) (ap : list vararg) (f : flags) : M St (nat * list vararg) :=
  match k with
  | O => fail OutOfFuel
  | S k =>
      ch ← fetch fmt i;
      let i := S i in
      if ch =? 45 then directive k fmt i ap (set_padc 45 f)
      else if ch =? 48 then directive k fmt i ap (set_padc 48 f)
      else if (49 <=? ch) && (ch <=? 57) then
        '(n, i) ← field (length fmt + 1) fmt i 0 ch;
        directive k fmt i ap (process_precision n f)
      else if ch =? 42 then
        '(n, ap) ← take_int ap;
        directive k fmt i ap (process_precision n f)
      else if ch =? 46 then directive k fmt i ap (if width f <? 0 then set_width 0 f else f)
      else if ch =? 35 then directive k fmt i ap (set_altflag f)
      else if ch =? 108 then directive k fmt i ap (set_lflag (lflag f + 1) f)
      else if ch =? 99 then '(c, ap) ← take_int ap; _ ← putch c; mret (i, ap)
      else if ch =? 101 then '(err, ap) ← take_int ap; _ ← print_error err; mret (i, ap)
      else if ch =? 115 then
        match ap with
        | Str p :: ap => _ ← print_string (default (chars "(null)") p) f; mret (i, ap)
        | _ => fail Undefined
        end
      else if ch =? 100 then
        '(num, ap) ← getint ap (lflag f);
        num ← (if num <? 0 then _ ← putch 45; mret (u64 (- num)) else mret num);
        _ ← number num 10 f; mret (i, ap)
      else if ch =? 117 then '(num, ap) ← getuint ap (lflag f); _ ← number num 10 f; mret (i, ap)
      else if ch =? 111 then '(num, ap) ← getuint ap (lflag f); _ ← number num 8 f; mret (i, ap)
      else if ch =? 112 then
        _ ← putch 48; _ ← putch 120;
        match ap with Word n :: ap => _ ← number (u32 n) 16 f; mret (i, ap) | _ => fail Undefined end
      else if (ch =? 120) || (ch =? 88) then '(num, ap) ← getuint ap (lflag f); _ ← number num 16 f; mret (i, ap)
      else if ch =? 37 then _ ← putch ch; mret (i, ap)
      else _ ← putch 37; i ← rewind fmt (pred i); mret (i, ap)
  end.

Fixpoint format_loop (k : nat) (fmt : list Z) (i : nat) (ap : list vararg) : M St unit :=
  match k with
  | O => fail OutOfFuel
  | S k =>
      ch ← fetch fmt i;
      if ch =? 37 then '(i, ap) ← directive (length fmt + 1) fmt (S i) ap (Flags 32 (-1) (-1) 0 false); format_loop k fmt i ap
      else if ch =? 0 then mret tt
      else _ ← putch ch; format_loop k fmt (S i) ap
  end.

Definition vprintfmt_with (fmt : list Z) (ap : list vararg) : M St unit := format_loop (length fmt + 1) fmt 0 ap.
End self.

(** The messages of [%e] are printed with formats that have no [%e]. *)
Definition printfmt : list Z -> list vararg -> M St unit := vprintfmt_with (fun _ _ => fail OutOfFuel).
Definition vprintfmt : list Z -> list vararg -> M St unit := vprintfmt_with printfmt.
End fmt.

(** ** Into a buffer *)

Record sprintbuf := SBuf { smem : mem; sbuf : Z; ebuf : Z; scnt : Z }.

(** [cnt] is an [int]. *)
Definition sprintputch (ch : Z) : M sprintbuf unit := fun b =>
  let cnt := s32 (scnt b + 1) in
  if sbuf b <? ebuf b then
    match wb (sbuf b) (u8 ch) (smem b) with
    | Ok (_, m) => Ok (tt, SBuf m (sbuf b + 1) (ebuf b) cnt)
    | Err e => Err e
    end
  else Ok (tt, SBuf (smem b) (sbuf b) (ebuf b) cnt).

Definition ucore_vsnprintf (str size : Z) (fmt : list Z) (ap : list vararg) : M mem Z := fun m =>
  let e := u32 (str + size - 1) in
  if (str =? 0) || (e <? str) then Ok (- E_INVAL, m)
  else
    match vprintfmt sprintputch fmt ap (SBuf m str e 0) with
    | Ok (_, b) => match wb (sbuf b) 0 (smem b) with Ok (_, m) => Ok (scnt b, m) | Err e => Err e end
    | Err e => Err e
    end.
Definition snprintf (str size : Z) (fmt : list Z) (ap : list vararg) : M mem Z := ucore_vsnprintf str size fmt ap.

(** ** The console *)

(** What was written, and the line buffer. *)
Definition BUFSIZE : Z := 1024.
Record console := Con { written : list Z; ccnt : Z; buf : list Z }.
Definition cons_putc (c : Z) : M console unit := modify (fun s => Con (written s ++ [c]) (ccnt s) (buf s)).
Definition set_cnt (n : Z) : M console unit := modify (fun s => Con (written s) n (buf s)).
Definition cputch (c : Z) : M console unit := _ ← cons_putc c; n ← gets ccnt; set_cnt (s32 (n + 1)).
Definition vkprintf (fmt : list Z) (ap : list vararg) : M console Z := _ ← set_cnt 0; _ ← vprintfmt cputch fmt ap; gets ccnt.
Definition kprintf (fmt : list Z) (ap : list vararg) : M console Z := vkprintf fmt ap.

Definition set_buf (i c : Z) : M console unit := fun s =>
  if (0 <=? i) && (i <? Z.of_nat (length (buf s))) then Ok (tt, Con (written s) (ccnt s) (<[Z.to_nat i := u8 c]> (buf s))) else Err BadAccess.

(** What [readline] is at, given what was typed: the keys after the line are left. *)
Inductive reading := Line (rest : list Z) | Failed (rest : list Z) | Waiting.

Fixpoint read_loop (keys : list Z) (i : Z) : M console reading :=
  match keys with
  | [] => mret Waiting
  | c :: keys =>
      if c <? 0 then mret (Failed keys)
      else if (32 <=? c) && (i <? BUFSIZE - 1) then _ ← cons_putc c; _ ← set_buf i c; read_loop keys (i + 1)
      else if (c =? 8) && (0 <? i) then _ ← cons_putc c; read_loop keys (i - 1)
      else if (c =? 10) || (c =? 13) then _ ← cons_putc c; _ ← set_buf i 0; mret (Line keys)
      else read_loop keys i
  end.
Definition readline (prompt : option (list Z)) (keys : list Z) : M console reading :=
  _ ← match prompt with Some p => _ ← kprintf (chars "%s") [Str (Some p)]; mret tt | None => mret tt end;
  read_loop keys 0.
