(* ===== verification/FmtProof.v ===== *)
(** * FmtProof: numerals, strings and escapes *)

From stdpp Require Import numbers gmap list strings.
From S2P Require Import Prelude Strings Fmt.
Local Open Scope Z_scope.

(** ** Output *)

Lemma bind_cong {St A B} (m m' : M St A) (k k' : A -> M St B) s : m s = m' s -> (forall a s', k a s' = k' a s') -> (m ≫= k) s = (m' ≫= k') s.
Proof. unfold mbind, M_bind. intros -> Hk. by destruct (m' s) as [[a s']|]. Qed.

Section puts.
Context {St : Type} (putch : Z -> M St unit).

Fixpoint puts (l : list Z) : M St unit := match l with [] => mret tt | c :: l => _ ← putch c; puts l end.

Lemma puts_app l l' s : puts (l ++ l') s = (puts l ≫= fun _ => puts l') s.
Proof. revert s. induction l as [|c l IH]; intros s; [done|]. cbn [app puts]. rewrite bind_assoc_M. by apply bind_cong. Qed.
Lemma puts_then {A} l l' (k : unit -> M St A) s : (puts (l ++ l') ≫= k) s = (puts l ≫= fun _ => puts l' ≫= k) s.
Proof. rewrite <- bind_assoc_M. apply bind_cong; [apply puts_app|done]. Qed.
Lemma puts_one c s : puts [c] s = putch c s.
Proof. cbn. unfold mbind, M_bind. by destruct (putch c s) as [[[] s']|]. Qed.
Lemma puts_nil {A} (k : unit -> M St A) s : (puts [] ≫= k) s = k tt s.
Proof. done. Qed.
Lemma rep_puts n c s : rep putch n c s = puts (repeat c n) s.
Proof. revert s. induction n as [|n IH]; intros s; [done|]. cbn. by apply bind_cong. Qed.
End puts.

(** ** Numerals *)

(** The digits of a number, the most significant first. *)
Fixpoint digits (k : nat) (base n : Z) : list Z :=
  match k with O => [] | S k => if n <? base then [n] else digits k base (n / base) ++ [n mod base] end.
Definition numeral (base n : Z) : list Z := digits 33 base n.

Lemma digits_ok base k : 2 <= base -> forall n, 0 <= n < base ^ Z.of_nat k -> (0 < k)%nat ->
  digits_value base (digits k base n) = n /\ Forall (fun d => 0 <= d < base) (digits k base n) /\ digits k base n <> [] /\ (n <> 0 -> head (digits k base n) <> Some 0).
Proof.
  intros Hb. induction k as [|k IH]; intros n Hn Hk; [lia|]. cbn [digits]. destruct (Z.ltb_spec n base) as [Hlt|Hge].
  - split; [done|]. split; [apply Forall_singleton; lia|]. split; [done|]. intros Hn0 [=]. lia.
  - assert (Hk0 : (0 < k)%nat). { destruct k; [|lia]. cbn in Hn. lia. } rewrite Nat2Z.inj_succ, Z.pow_succ_r in Hn by lia. pose proof (Z.div_mod n base ltac:(lia)) as Hdm. pose proof (Z.mod_pos_bound n base ltac:(lia)) as Hm.
    assert (Hd : 0 < n / base) by (apply Z.div_str_pos; lia). destruct (IH (n / base)) as (H1 & H2 & H3 & H4); [split; [lia|apply Z.div_lt_upper_bound; lia]|done|]. split_and!.
    + unfold digits_value in *. rewrite fold_left_app, H1. cbn. lia.
    + apply Forall_app. split; [done|by apply Forall_singleton].
    + by destruct (digits k base (n / base)).
    + intros _. destruct (digits k base (n / base)); [done|]. cbn. apply H4. lia.
Qed.

Lemma pow_fuel base n : 2 <= base -> 0 <= n < 2 ^ 32 -> 0 <= n < base ^ Z.of_nat 33.
Proof. intros Hb Hn. split; [lia|]. apply Z.lt_le_trans with (2 ^ Z.of_nat 33); [change (Z.of_nat 33) with 33; lia|]. apply Z.pow_le_mono_l. lia. Qed.

Definition numeral_ok base n (Hb : 2 <= base) (Hn : 0 <= n < 2 ^ 32) := digits_ok base 33 Hb n (pow_fuel base n Hb Hn) ltac:(lia).

Lemma hex_digit d : 0 <= d < 16 -> default 0 (chars "0123456789abcdef" !! Z.to_nat d) = digit_char d.
Proof. intros Hd. assert (H : Forall (fun d => default 0 (chars "0123456789abcdef" !! Z.to_nat d) = digit_char d) (seqZ 0 16)) by (by repeat constructor). rewrite Forall_forall in H. apply H, elem_of_seqZ. lia. Qed.

(** A number with its padding. *)
Definition padded (base n w pad : Z) : list Z := repeat pad (Z.to_nat (w - Z.of_nat (length (numeral base n)))) ++ map digit_char (numeral base n).

Section print.
Context {St : Type} (putch : Z -> M St unit).

Lemma decr_ok {A} w (k : Z -> M St A) s : is_s 32 (w - 1) -> (decr w ≫= k) s = k (w - 1) s.
Proof. intros Hw. unfold decr. by rewrite decide_True. Qed.

Lemma printnum_ok base pad k : 2 <= base <= 16 -> forall n w s, 0 <= n < 2 ^ 32 -> n < base ^ Z.of_nat k -> (0 < k)%nat -> - 2 ^ 31 + Z.of_nat k <= w < 2 ^ 31 ->
  printnum putch k n base w pad s = puts putch (repeat pad (Z.to_nat (w - Z.of_nat (length (digits k base n)))) ++ map digit_char (digits k base n)) s.
Proof.
  intros Hb. induction k as [|k IH]; intros n w s Hn Hk H0 Hw; [lia|]. cbn [printnum digits]. unfold do_div. rewrite (umod_small 32) by (done || (unfold is_u; lia)). pose proof (Z.mod_pos_bound n base ltac:(lia)) as Hm.
  rewrite decr_ok by (unfold is_s; lia). destruct (Z.leb_spec base n) as [Hle|Hlt]; destruct (Z.ltb_spec n base) as [Hlt'|Hle']; try lia.
  - rewrite map_app, app_assoc, puts_app. rewrite Nat2Z.inj_succ, Z.pow_succ_r in Hk by lia. assert (Hd : 0 < n / base <= n) by (split; [apply Z.div_str_pos; lia|apply Z.div_le_upper_bound; nia]).
    assert (Hk0 : (0 < k)%nat) by (destruct k; [cbn in Hk; lia|lia]). apply bind_cong; [|intros _ s'; cbn [map]; by rewrite puts_one, hex_digit by lia]. rewrite IH; [|lia|apply Z.div_lt_upper_bound; lia|done|lia]. do 4 f_equal. rewrite length_app. cbn. lia.
  - rewrite puts_app. apply bind_cong; [apply rep_puts|]. intros _ s'. cbn [map]. rewrite puts_one. rewrite Z.mod_small by lia. by rewrite hex_digit by lia.
Qed.

Lemma number_ok base n f s : 2 <= base <= 16 -> 0 <= n < 2 ^ 32 -> -1 <= width f < 2 ^ 31 -> number putch n base f s = puts putch (padded base n (width f) (padc f)) s.
Proof. intros Hb Hn Hw. unfold number, padded, numeral. rewrite printnum_ok; [done..| |lia|lia]. apply pow_fuel; lia. Qed.

(** ** Strings *)

Definition veil (alt : bool) (ch : Z) : Z := if alt && ((ch <? 32) || (126 <? ch)) then 63 else ch.
(** As many characters as the precision allows. *)
Definition shown (p : list Z) (f : flags) : list Z := veil (altflag f) <$> (if precision f <? 0 then p else take (Z.to_nat (precision f)) p).
Definition pads_left (f : flags) : bool := (0 <? width f) && negb (padc f =? 45).
Definition justified (p : list Z) (f : flags) : list Z :=
  let l := shown p f in
  let gap := Z.to_nat (width f - Z.of_nat (length l)) in
  if pads_left f then repeat (padc f) gap ++ l else l ++ repeat 32 gap.

(** Strings during which [width] stays an [int]; padding on the left counts them twice. *)
Definition fits (p : list Z) (f : flags) : Prop := Z.of_nat (length p) < 2 ^ 31 /\ (pads_left f = true -> 2 * Z.of_nat (length p) <= 2 ^ 31 + width f).
#[global] Instance fits_dec p f : Decision (fits p f).
Proof. unfold fits. apply _. Defined.

Lemma str_loop_ok {A} alt p : forall prec w s (k : Z -> M St A), - 2 ^ 31 + Z.of_nat (length p) <= w < 2 ^ 31 -> let l := if prec <? 0 then p else take (Z.to_nat prec) p in
  (str_loop putch p prec w alt ≫= k) s = (puts putch (veil alt <$> l) ≫= fun _ => k (w - Z.of_nat (length l))) s.
Proof.
  induction p as [|ch p IH]; intros prec w s k Hw l; cbn [str_loop length] in *.
  - assert (l = []) as -> by (unfold l; destruct (prec <? 0); [done|by rewrite take_nil]). cbn. by rewrite Z.sub_0_r.
  - unfold l. destruct (Z.ltb_spec prec 0) as [Hn|Hp]; cbn [orb].
    + cbn [fmap list_fmap puts length]. rewrite !bind_assoc_M. apply bind_cong; [done|]. intros _ s'. rewrite bind_assoc_M, decr_ok by (unfold is_s; lia). rewrite IH by lia. rewrite (proj2 (Z.ltb_lt _ _)) by done. apply bind_cong; [done|]. intros _ s2. f_equal. lia.
    + destruct (Z.leb_spec 0 (prec - 1)) as [H1|H1].
      * replace (Z.to_nat prec) with (S (Z.to_nat (prec - 1))) by lia. cbn [take fmap list_fmap puts length]. rewrite !bind_assoc_M. apply bind_cong; [done|]. intros _ s'. rewrite bind_assoc_M, decr_ok by (unfold is_s; lia). rewrite IH by lia. destruct (Z.ltb_spec (prec - 1) 0); [lia|]. apply bind_cong; [done|]. intros _ s2. f_equal. lia.
      * assert (prec = 0) as -> by lia. cbn. by rewrite Z.sub_0_r.
Qed.

Lemma print_string_ok p f s : -1 <= width f < 2 ^ 31 -> is_s 32 (precision f) -> fits p f -> print_string putch p f s = puts putch (justified p f) s.
Proof.
  intros Hw Hpr [Hp Hp2]. unfold print_string, justified. fold (pads_left f). set (l := if precision f <? 0 then p else take (Z.to_nat (precision f)) p). assert (Hl : slen p (precision f) = Z.of_nat (length l)).
  { unfold slen, l. unfold is_s in Hpr. destruct (Z.ltb_spec (precision f) 0) as [Hneg|Hpos].
    - assert (E : u32 (precision f) = precision f + 2 ^ 32) by (rewrite <- (umod_small 32 (precision f + 2 ^ 32)) by (done || (unfold is_u; lia)); apply umod_cong; [done|]; exists (-1); lia). rewrite E. lia.
    - rewrite (umod_small 32) by (done || (unfold is_u; lia)). rewrite length_take. lia. }
  assert (Hsh : shown p f = veil (altflag f) <$> l) by done. assert (Hlen : length (shown p f) = length l) by (by rewrite Hsh, length_fmap). destruct (pads_left f) eqn:Eb.
  - specialize (Hp2 eq_refl). apply andb_true_iff in Eb as [Hw0%Z.ltb_lt _]. assert (Hll : (length l <= length p)%nat) by (unfold l; destruct (_ <? _); [done|rewrite length_take; lia]). rewrite Hl, (smod_small 32) by (done || (unfold is_s in *; lia)). rewrite Hlen.
    rewrite bind_assoc_M, puts_app. apply bind_cong; [apply rep_puts|]. intros _ s1. rewrite (bind_step _ _ s1 (Z.min (width f - Z.of_nat (length l)) 0) s1) by done. rewrite str_loop_ok by lia. fold l. rewrite Hsh.
    assert (E0 : forall m, m <= 0 -> rep putch (Z.to_nat m) 32 = mret tt) by (intros m Hm; by replace (Z.to_nat m) with 0%nat by lia). rewrite E0 by lia. unfold mbind, M_bind. by destruct (puts _ _ s1) as [[[] s2]|].
  - rewrite (bind_step _ _ s (width f) s) by done. rewrite str_loop_ok by lia. fold l. rewrite puts_app, Hlen, Hsh. apply bind_cong; [done|]. intros _ s1. apply rep_puts.
Qed.

(** ** Reading the format *)

Lemma fetch_cons fmt i c r (s : St) : drop i fmt = c :: r -> fetch fmt i s = Ok (c, s) /\ drop (S i) fmt = r /\ (i < length fmt)%nat.
Proof.
  intros E. assert (Hi : (i < length fmt)%nat) by (apply (f_equal length) in E; rewrite length_drop in E; cbn in E; lia). split_and!; [|by rewrite <- (Nat.add_1_r i), <- drop_drop, E|done].
  unfold fetch. rewrite decide_True by lia. assert (El : fmt !! i = Some c) by (rewrite <- (Nat.add_0_r i), <- lookup_drop, E; done). by rewrite El.
Qed.
Lemma fetch_nil fmt (s : St) : fetch fmt (length fmt) s = Ok (0, s).
Proof. unfold fetch. rewrite decide_True by lia. by rewrite lookup_ge_None_2 by lia. Qed.

Definition digit (d : Z) : Prop := 0 <= d < 10.
Definition dec (ds : list Z) : list Z := (fun d => 48 + d) <$> ds.

Lemma is_digit_iff c : is_digit c = true <-> 48 <= c <= 57.
Proof. unfold is_digit. rewrite andb_true_iff, !Z.leb_le. lia. Qed.

(** Numbers do not get smaller as digits are added. *)
Lemma value_le ds : forall v, 0 <= v -> Forall digit ds -> v <= fold_left (fun v d => v * 10 + d) ds v.
Proof.
  induction ds as [|d ds IH]; intros v Hv Hd; [done|]. apply Forall_cons in Hd as [Hd Hds]. unfold digit in Hd. cbn. specialize (IH (v * 10 + d) ltac:(lia) Hds). lia.
Qed.

Lemma field_ok fmt ds : forall k i v d c r (s : St), 0 <= v -> digit d -> Forall digit ds -> drop i fmt = dec ds ++ c :: r -> is_digit c = false -> (length ds < k)%nat ->
  fold_left (fun v d => v * 10 + d) (d :: ds) v < 2 ^ 31 - 48 -> field k fmt i v (48 + d) s = Ok ((fold_left (fun v d => v * 10 + d) (d :: ds) v, (i + length ds)%nat), s).
Proof.
  induction ds as [|d' ds IH]; intros k i v d c r s Hv Hd Hds E Hc Hk Hlt; (destruct k as [|k]; [cbn in Hk; lia|]); cbn [field fold_left] in *; unfold digit in Hd; cbv zeta; replace (v * 10 + (48 + d) - 48) with (v * 10 + d) by lia.
  - rewrite decide_True by (unfold is_s; lia). destruct (fetch_cons _ _ _ _ s E) as (Hf & _). rewrite (bind_step _ _ _ _ _ Hf), Hc. cbn. by rewrite Nat.add_0_r.
  - apply Forall_cons in Hds as [Hd' Hds]. pose proof (value_le ds (( v * 10 + d) * 10 + d') ltac:(unfold digit in *; lia) Hds). unfold digit in Hd'. rewrite decide_True by (unfold is_s; lia). cbn [dec fmap list_fmap app] in E. destruct (fetch_cons _ _ _ _ s E) as (Hf & E' & _). rewrite (bind_step _ _ _ _ _ Hf).
    rewrite (proj2 (is_digit_iff _)) by lia. rewrite (IH k (S i) (v * 10 + d) d' c r s); [|lia|done|done|exact E'|done|cbn in Hk; lia|done]. cbn [length]. by rewrite Nat.add_succ_r.
Qed.
End print.
