(* ===== verification/FmtSafe.v ===== *)
(** * FmtSafe: what the formats print *)

From stdpp Require Import numbers gmap list strings.
From S2P Require Import Prelude Strings Fmt FmtProof.
Local Open Scope Z_scope.

(** ** Formats *)

Inductive conv := CChar | CErr | CStr | CDec | CUns | COct | CPtr | CHex | CPercent.
Definition conv_char (cv : conv) : Z := match cv with CChar => 99 | CErr => 101 | CStr => 115 | CDec => 100 | CUns => 117 | COct => 111 | CPtr => 112 | CHex => 120 | CPercent => 37 end.

(** An escape sequence: [#], [-] or [0], a width, [.] with a precision, [l]s. *)
Record dir := Dir { d_alt : bool; d_pad : option Z; d_width : list Z; d_prec : option (list Z); d_long : nat; d_conv : conv }.
Definition value (ds : list Z) : Z := fold_left (fun v d => v * 10 + d) ds 0.
Definition syntax (d : dir) : list Z :=
  (if d_alt d then [35] else []) ++ option_list (d_pad d) ++ dec (d_width d) ++ match d_prec d with None => [] | Some ds => 46 :: dec ds end ++ repeat 108 (d_long d) ++ [conv_char (d_conv d)].
Definition plain (ds : list Z) : Prop := Forall digit ds /\ head ds <> Some 0 /\ value ds < 2 ^ 31 - 48.
Definition dir_ok (d : dir) : Prop :=
  (forall c, d_pad d = Some c -> c = 45 \/ c = 48) /\ plain (d_width d) /\ (forall ds, d_prec d = Some ds -> plain ds).

Definition flags_of (d : dir) : flags :=
  Flags (default 32 (d_pad d)) (if decide (d_width d = []) then (if d_prec d then 0 else -1) else value (d_width d))
    (match d_prec d with Some (x :: ds) => value (x :: ds) | _ => -1 end) (Z.of_nat (d_long d)) (d_alt d).

Inductive item := Lit (c : Z) | Esc (d : dir).
Definition show (x : item) : list Z := match x with Lit c => [c] | Esc d => 37 :: syntax d end.
Definition item_ok (x : item) : Prop := match x with Lit c => c <> 37 /\ c <> 0 | Esc d => dir_ok d end.

(** ** What they print *)

Definition signed (n : Z) (f : flags) : list Z := if n <? 0 then 45 :: padded 10 (- n) (width f) (padc f) else padded 10 n (width f) (padc f).
(** Numbers of 64 bits as far as they have 32. *)
Definition small (n : Z) : Prop := Z.abs n < 2 ^ 32.
#[global] Instance small_dec n : Decision (small n).
Proof. unfold small. apply _. Defined.

Definition uns (base : Z) (ap : list vararg) (f : flags) : option (list Z * list vararg) :=
  match ap with
  | Word n :: ap => if decide (lflag f < 2) then Some (padded base (u32 n) (width f) (padc f), ap) else None
  | Dword n :: ap => if decide (2 <= lflag f /\ small (u64 n)) then Some (padded base (u64 n) (width f) (padc f), ap) else None
  | _ => None
  end.

Definition rendered (msg : Z -> option (list Z)) (cv : conv) (f : flags) (ap : list vararg) : option (list Z * list vararg) :=
  match cv with
  | CChar => match ap with Word n :: ap => Some ([s32 n], ap) | _ => None end
  | CErr => match ap with Word n :: ap => l ← msg (s32 n); Some (l, ap) | _ => None end
  | CStr => match ap with Str p :: ap => let p := default (chars "(null)") p in if decide (fits p f) then Some (justified p f, ap) else None | _ => None end
  | CDec => match ap with
            | Word n :: ap => if decide (lflag f < 2) then Some (signed (s32 n) f, ap) else None
            | Dword n :: ap => if decide (2 <= lflag f /\ small (s64 n)) then Some (signed (s64 n) f, ap) else None
            | _ => None
            end
  | CUns => uns 10 ap f
  | COct => uns 8 ap f
  | CHex => uns 16 ap f
  | CPtr => match ap with Word n :: ap => Some (48 :: 120 :: padded 16 (u32 n) (width f) (padc f), ap) | _ => None end
  | CPercent => Some ([37], ap)
  end.

Fixpoint renders (msg : Z -> option (list Z)) (l : list item) (ap : list vararg) : option (list Z) :=
  match l with
  | [] => Some []
  | Lit c :: l => out ← renders msg l ap; Some (c :: out)
  | Esc d :: l => '(o, ap) ← rendered msg (d_conv d) (flags_of d) ap; out ← renders msg l ap; Some (o ++ out)
  end.

(** The text of an error, by its number or by the negated number. *)
Definition message (err : Z) : option (list Z) :=
  if decide (Z.abs err < 2 ^ 31) then Some (match default None (error_string !! Z.to_nat (Z.abs err)) with Some p => p | None => chars "error " ++ map digit_char (numeral 10 (Z.abs err)) end) else None.

(** ** The directive *)

Section directive.
Context {St : Type} (putch : Z -> M St unit) (self : list Z -> list vararg -> M St unit) (fmt : list Z).
Abbreviation D := (directive putch self).

Definition moves (P : list Z -> Prop) (piece : list Z) (f f' : flags) : Prop := forall r k i, P r -> drop i fmt = piece ++ r -> (length piece < k)%nat ->
  exists k', (k <= k' + length piece)%nat /\ drop (i + length piece) fmt = r /\ forall ap s, D k fmt i ap f s = D k' fmt (i + length piece)%nat ap f' s.

Definition any (r : list Z) : Prop := True.
Definition stops (r : list Z) : Prop := exists c r', r = c :: r' /\ is_digit c = false.

Lemma moves_nil P f : moves P [] f f.
Proof. intros r k i _ E Hk. exists k. cbn [length app] in *. rewrite !Nat.add_0_r. split; [lia|]. split; [exact E|]. intros ap s. reflexivity. Qed.

Lemma moves_app P Q p p' f f1 f2 : moves P p f f1 -> moves Q p' f1 f2 -> (forall r, Q r -> P (p' ++ r)) -> moves Q (p ++ p') f f2.
Proof.
  intros M1 M2 Himp r k i Hr E Hk. rewrite <- app_assoc in E. rewrite length_app in *. destruct (M1 (p' ++ r) k i (Himp r Hr) E ltac:(lia)) as (k1 & Hk1 & E1 & H1). destruct (M2 r k1 _ Hr E1 ltac:(lia)) as (k2 & Hk2 & E2 & H2).
  exists k2. rewrite (Nat.add_assoc i). split; [lia|]. split; [done|]. intros ap s. by rewrite H1, H2.
Qed.

Lemma moves_char c f f' : (forall k i ap (s : St), fetch fmt i s = Ok (c, s) -> D (S k) fmt i ap f s = D k fmt (S i) ap f' s) -> moves any [c] f f'.
Proof.
  intros H r k i _ E Hk. cbn in Hk, E. destruct k as [|k]; [lia|]. exists k. cbn [length]. split; [lia|]. split.
  - rewrite <- drop_drop, E. done.
  - rewrite (Nat.add_1_r i). intros ap s. apply H. by destruct (fetch_cons fmt i c r s E).
Qed.

Ltac one_char := apply moves_char; intros k i ap s Hf; cbn [directive]; rewrite (bind_step _ _ _ _ _ Hf); reflexivity.
Lemma moves_alt f : moves any [35] f (set_altflag f).
Proof. one_char. Qed.
Lemma moves_minus f : moves any [45] f (set_padc 45 f).
Proof. one_char. Qed.
Lemma moves_zero f : moves any [48] f (set_padc 48 f).
Proof. one_char. Qed.
Lemma moves_dot f : moves any [46] f (if width f <? 0 then set_width 0 f else f).
Proof. one_char. Qed.
Lemma moves_l f : moves any [108] f (set_lflag (lflag f + 1) f).
Proof. one_char. Qed.

Lemma moves_long n f : moves any (repeat 108 n) f (set_lflag (lflag f + Z.of_nat n) f).
Proof.
  revert f. induction n as [|n IH]; intros f.
  - replace (set_lflag _ f) with f by (destruct f; unfold set_lflag; cbn; f_equal; lia). apply moves_nil.
  - replace (set_lflag _ f) with (set_lflag (lflag (set_lflag (lflag f + 1) f) + Z.of_nat n) (set_lflag (lflag f + 1) f)) by (unfold set_lflag; cbn; f_equal; lia).
    apply (moves_app any any [108] (repeat 108 n) f _ _ (moves_l f) (IH _)). done.
Qed.

Lemma moves_number x ds f : plain (x :: ds) -> moves stops (dec (x :: ds)) f (process_precision (value (x :: ds)) f).
Proof.
  intros (Hd & Hh & Hv) r k i (c & r' & -> & Hc) E Hk. apply Forall_cons in Hd as [Hx Hds]. assert (Hx0 : 1 <= x <= 9) by (unfold digit in Hx; assert (x <> 0) by (intros ->; by apply Hh); lia). destruct k as [|k]; [lia|].
  assert (Hl : length (dec ds) = length ds) by apply length_fmap. assert (Hl' : length (dec (x :: ds)) = S (length ds)) by (unfold dec; by rewrite length_fmap). rewrite Hl' in *. change (drop i fmt = (48 + x) :: dec ds ++ c :: r') in E. exists k. split; [lia|]. destruct (fetch_cons (St := unit) _ _ _ _ tt E) as (_ & E1 & Hi). split.
  - rewrite Nat.add_succ_r, <- Nat.add_succ_l, <- drop_drop, E1, <- Hl. apply drop_app_length.
  - intros ap s. cbn [directive]. destruct (fetch_cons _ _ _ _ s E) as (Hf & _). rewrite (bind_step _ _ _ _ _ Hf). destruct (Z.eqb_spec (48 + x) 45); [lia|]. destruct (Z.eqb_spec (48 + x) 48); [lia|]. rewrite (proj2 (Z.leb_le _ _)), (proj2 (Z.leb_le _ _)) by lia. cbn [andb].
    assert (Hlen : (length ds < length fmt + 1)%nat) by (apply (f_equal length) in E1; rewrite length_drop, length_app, Hl in E1; cbn in E1; lia).
    rewrite (bind_step _ _ _ _ _ (field_ok fmt ds (length fmt + 1) (S i) 0 x c r' s ltac:(lia) Hx Hds E1 Hc Hlen Hv)). by rewrite Nat.add_succ_r.
Qed.

(** Everything before the conversion. *)
Lemma moves_flags d : dir_ok d -> moves stops
  ((if d_alt d then [35] else []) ++ option_list (d_pad d) ++ dec (d_width d) ++ match d_prec d with None => [] | Some ds => 46 :: dec ds end ++ repeat 108 (d_long d)) (Flags 32 (-1) (-1) 0 false) (flags_of d).
Proof.
  intros (Hp & Hw & Hpr). set (f1 := Flags 32 (-1) (-1) 0 (d_alt d)). set (f2 := Flags (default 32 (d_pad d)) (-1) (-1) 0 (d_alt d)). set (f3 := Flags (default 32 (d_pad d)) (if decide (d_width d = []) then -1 else value (d_width d)) (-1) 0 (d_alt d)).
  set (f4 := Flags (default 32 (d_pad d)) (width (flags_of d)) (precision (flags_of d)) 0 (d_alt d)).
  assert (Hnn : forall ds, plain ds -> 0 <= value ds) by (intros ds (Hd & _); by apply (value_le ds 0)).
  assert (M1 : moves any (if d_alt d then [35] else []) (Flags 32 (-1) (-1) 0 false) f1) by (unfold f1; destruct (d_alt d); [apply moves_alt|apply moves_nil]).
  assert (M2 : moves any (option_list (d_pad d)) f1 f2) by (unfold f2; destruct (d_pad d) as [c|]; [destruct (Hp c eq_refl) as [-> | ->]; [apply (moves_minus f1)|apply (moves_zero f1)]|apply moves_nil]).
  assert (M3 : moves stops (dec (d_width d)) f2 f3).
  { unfold f3. destruct (d_width d) as [|x ds] eqn:Ew; [apply moves_nil|]. rewrite decide_False by done. exact (moves_number x ds f2 Hw). }
  assert (M4 : moves stops (match d_prec d with None => [] | Some ds => 46 :: dec ds end) f3 f4).
  { unfold f4, f3, flags_of. cbn [width precision]. destruct (d_prec d) as [ds|]; [|apply moves_nil]. specialize (Hpr ds eq_refl). set (f3' := if width f3 <? 0 then set_width 0 f3 else f3). assert (Hw' : width f3' = if decide (d_width d = []) then 0 else value (d_width d)).
    { unfold f3', f3. cbn [width]. case_decide; [done|]. cbn [width]. destruct (Z.ltb_spec (value (d_width d)) 0); [|done]. specialize (Hnn _ Hw). lia. }
    assert (Hf3 : f3' = Flags (default 32 (d_pad d)) (if decide (d_width d = []) then 0 else value (d_width d)) (-1) 0 (d_alt d)) by (rewrite <- Hw'; unfold f3'; by destruct (width f3 <? 0)).
    apply (moves_app any stops [46] (dec ds) f3 f3'); [apply moves_dot| |done]. rewrite Hf3. destruct ds as [|x ds]; [apply moves_nil|]. 
    pose proof (moves_number x ds f3' Hpr) as HM. unfold process_precision in HM. rewrite Hw' in HM. destruct (Z.ltb_spec (if decide (d_width d = []) then 0 else value (d_width d)) 0) as [Hlt|_]; [case_decide; [lia|]; specialize (Hnn _ Hw); lia|]. rewrite Hf3 in HM. exact HM. }
  assert (M5 : moves stops (repeat 108 (d_long d)) f4 (flags_of d)) by (intros r k i _; by apply (moves_long (d_long d) f4)).
  assert (Hs : forall n r, stops r -> stops (repeat 108 n ++ r)) by (intros [|n] r Hr; [done|by exists 108, (repeat 108 n ++ r)]).
  apply (moves_app any stops _ _ _ _ _ M1); [|done]. apply (moves_app any stops _ _ _ _ _ M2); [|done]. apply (moves_app stops stops _ _ _ _ _ M3); [exact (moves_app stops stops _ _ _ _ _ M4 M5 (Hs _))|].
  intros r Hr. rewrite <- app_assoc. destruct (d_prec d) as [ds|]; [by eexists 46, _|by apply Hs].
Qed.

Context (msg : Z -> option (list Z)) (Hmsg : forall n l s, msg n = Some l -> print_error self n s = puts putch l s).

Lemma getuint_ok {A} base ap f out ap' (s : St) (k : list vararg -> M St A) : 2 <= base <= 16 -> -1 <= width f < 2 ^ 31 -> uns base ap f = Some (out, ap') ->
  ('(num, ap) ← getuint ap (lflag f); _ ← number putch num base f; k ap) s = (puts putch out ≫= fun _ => k ap') s.
Proof.
  intros Hb Hw H. unfold uns, getuint in *. destruct ap as [|[n|n|p] ap]; [done| | |done]; case_decide as Hl; [|done| |done]; injection H as <- <-.
  - destruct (Z.leb_spec 2 (lflag f)); [lia|]. rewrite (bind_step _ _ s (u32 n, ap) s) by done. apply bind_cong; [|done]. apply number_ok; [done| |done]. apply (umod_range 32). lia.
  - destruct Hl as [Hl Hs]. destruct (Z.leb_spec 2 (lflag f)); [|lia]. rewrite (bind_step _ _ s (u64 n, ap) s) by done. apply bind_cong; [|done]. apply number_ok; [done| |done]. pose proof (umod_range 64 n ltac:(lia)) as Hr. unfold small, is_u in *. lia.
Qed.

Lemma signed_ok {A} n f (s : St) (k : M St A) : small n -> -1 <= width f < 2 ^ 31 ->
  (num ← (if n <? 0 then _ ← putch 45; mret (u64 (- n)) else mret n); _ ← number putch num 10 f; k) s = (puts putch (signed n f) ≫= fun _ => k) s.
Proof.
  intros Hs Hw. unfold small in Hs. unfold signed. destruct (Z.ltb_spec n 0) as [Hn|Hn].
  - cbn [puts]. rewrite !bind_assoc_M. apply bind_cong; [done|]. intros _ s'. rewrite (umod_small 64) by (done || (unfold is_u; lia)). rewrite (bind_step _ _ s' (- n) s') by done. apply bind_cong; [|done]. apply number_ok; lia.
  - rewrite (bind_step _ _ s n s) by done. apply bind_cong; [|done]. apply number_ok; lia.
Qed.

Ltac conversion Hf := cbn [directive]; rewrite (bind_step _ _ _ _ _ Hf); cbn [conv_char Z.eqb Pos.eqb Z.leb Z.compare Pos.compare Pos.compare_cont andb orb].

Lemma conversion_ok cv k i ap f out ap' (s : St) : -1 <= width f < 2 ^ 31 -> is_s 32 (precision f) -> fetch fmt i s = Ok (conv_char cv, s) -> rendered msg cv f ap = Some (out, ap') ->
  D (S k) fmt i ap f s = (puts putch out ≫= fun _ => mret (S i, ap')) s.
Proof.
  intros Hw Hp Hf Hr. destruct cv; conversion Hf; cbn [rendered] in Hr.
  - destruct ap as [|[n| |] ap]; [done| |done|done]. injection Hr as <- <-. cbn [take_int]. rewrite (bind_step _ _ s (s32 n, ap) s) by done. cbn [puts]. rewrite bind_assoc_M. done.
  - destruct ap as [|[n| |] ap]; [done| |done|done]. apply bind_Some in Hr as (l & Hl & [= <- <-]). cbn [take_int]. rewrite (bind_step _ _ s (s32 n, ap) s) by done. apply bind_cong; [|done]. by apply Hmsg.
  - destruct ap as [|[| |p] ap]; [done|done|done|]. cbv zeta in Hr. case_decide as Hl; [|done]. injection Hr as <- <-. apply bind_cong; [|done]. by apply print_string_ok.
  - destruct ap as [|[n|n|] ap]; [done| | |done]; (case_decide as Hl; [|done]); injection Hr as <- <-; unfold getint.
    + destruct (Z.leb_spec 2 (lflag f)); [lia|]. rewrite (bind_step _ _ s (s32 n, ap) s) by done. apply signed_ok; [|done]. pose proof (smod_range 32 n ltac:(lia)). unfold small, is_s in *. lia.
    + destruct Hl as [Hl Hs]. destruct (Z.leb_spec 2 (lflag f)); [|lia]. rewrite (bind_step _ _ s (s64 n, ap) s) by done. by apply signed_ok.
  - by apply (getuint_ok 10 ap f out ap' s (fun ap => mret (S i, ap))).
  - by apply (getuint_ok 8 ap f out ap' s (fun ap => mret (S i, ap))).
  - destruct ap as [|[n| |] ap]; [done| |done|done]. injection Hr as <- <-. cbn [puts]. rewrite !bind_assoc_M. apply bind_cong; [done|]. intros _ s1. rewrite !bind_assoc_M. apply bind_cong; [done|]. intros _ s2. apply bind_cong; [|done]. apply number_ok; [lia| |done]. apply (umod_range 32). lia.
  - by apply (getuint_ok 16 ap f out ap' s (fun ap => mret (S i, ap))).
  - injection Hr as <- <-. cbn [puts]. by rewrite bind_assoc_M.
Qed.

Lemma flags_range d : dir_ok d -> -1 <= width (flags_of d) < 2 ^ 31 /\ is_s 32 (precision (flags_of d)).
Proof.
  intros (_ & (Hw1 & _ & Hw2) & Hp). pose proof (value_le _ 0 ltac:(lia) Hw1) as H. change (fold_left _ (d_width d) 0) with (value (d_width d)) in H. unfold flags_of. cbn [width precision]. split; [case_decide; [destruct (d_prec d); lia|lia]|]. destruct (d_prec d) as [[|x ds]|]; [done| |done].
  destruct (Hp _ eq_refl) as (H1 & _ & H2). pose proof (value_le _ 0 ltac:(lia) H1) as H'. change (fold_left _ (x :: ds) 0) with (value (x :: ds)) in H'. unfold is_s. lia.
Qed.

(** From the [%] to the conversion. *)
Lemma reaches d k i r : dir_ok d -> drop i fmt = syntax d ++ r -> (length (syntax d) < k)%nat ->
  exists k' j, drop j fmt = conv_char (d_conv d) :: r /\ S j = (i + length (syntax d))%nat /\ forall ap (s : St), D k fmt i ap (Flags 32 (-1) (-1) 0 false) s = D (S k') fmt j ap (flags_of d) s.
Proof.
  intros Hd E Hk. pose proof (moves_flags d Hd) as Hm. set (pre := _ ++ _) in Hm. assert (Es : syntax d = pre ++ [conv_char (d_conv d)]) by (unfold syntax, pre; by rewrite !app_assoc). rewrite Es in *. rewrite <- app_assoc in E. rewrite length_app in *. cbn [length app] in *.
  assert (Hst : stops (conv_char (d_conv d) :: r)) by (eexists _, _; split; [done|]; by destruct (d_conv d)).
  destruct (Hm _ k i Hst E ltac:(lia)) as (k' & Hk' & E' & H). destruct k' as [|k']; [lia|]. exists k', (i + length pre)%nat. split; [exact E'|]. split; [lia|exact H].
Qed.

Lemma directive_ok d k i r ap out ap' (s : St) : dir_ok d -> drop i fmt = syntax d ++ r -> (length (syntax d) < k)%nat -> rendered msg (d_conv d) (flags_of d) ap = Some (out, ap') ->
  D k fmt i ap (Flags 32 (-1) (-1) 0 false) s = (puts putch out ≫= fun _ => mret ((i + length (syntax d))%nat, ap')) s /\ drop (i + length (syntax d)) fmt = r.
Proof.
  intros Hd E Hk Hr. destruct (reaches d k i r Hd E Hk) as (k' & j & E' & Hj & H). destruct (flags_range d Hd) as [Hw Hp]. rewrite H, <- Hj. destruct (fetch_cons _ _ _ _ s E') as (Hf & E2 & _). split; [|done].
  by apply (conversion_ok (d_conv d)).
Qed.

Lemma format_ok l : forall k i ap out (s : St), Forall item_ok l -> drop i fmt = concat (show <$> l) -> (i <= length fmt)%nat -> (length (concat (show <$> l)) < k)%nat -> renders msg l ap = Some out -> format_loop putch self k fmt i ap s = puts putch out s.
Proof.
  induction l as [|x l IH]; intros k i ap out s Hl E Hi Hk Hr; (destruct k as [|k]; [lia|]); cbn [format_loop].
  - injection Hr as <-. cbn in E. assert (i = length fmt) as -> by (apply (f_equal length) in E; rewrite length_drop in E; cbn in E; lia). by rewrite (bind_step _ _ _ _ _ (fetch_nil fmt s)).
  - apply Forall_cons in Hl as [Hx Hl]. cbn [fmap list_fmap concat] in E, Hk. rewrite length_app in Hk. destruct x as [c|d]; cbn [renders show item_ok length app] in *.
    + apply bind_Some in Hr as (o & Ho & [= <-]). destruct (fetch_cons _ _ _ _ s E) as (Hf & E2 & Hlt). rewrite (bind_step _ _ _ _ _ Hf). destruct Hx as [H1 H2]. rewrite (proj2 (Z.eqb_neq _ _) H1), (proj2 (Z.eqb_neq _ _) H2). cbn [puts]. apply bind_cong; [done|]. intros _ s'. apply (IH k (S i) ap o s' Hl E2); [lia|lia|done].
    + apply bind_Some in Hr as ([o ap'] & Ho & (out' & Hout & [= <-])%bind_Some). destruct (fetch_cons _ _ _ _ s E) as (Hf & E2 & Hlt). rewrite (bind_step _ _ _ _ _ Hf). change (37 =? 37) with true. cbv iota.
      assert (Hlen : (S i + length (syntax d) <= length fmt)%nat) by (apply (f_equal length) in E2; rewrite length_drop, length_app in E2; lia).
      destruct (directive_ok d (length fmt + 1) (S i) _ ap o ap' s Hx E2 ltac:(lia) Ho) as [Hd E3]. rewrite puts_app.
      transitivity ((puts putch o ≫= fun _ => format_loop putch self k fmt (S i + length (syntax d))%nat ap') s).
      * unfold mbind, M_bind in *. rewrite Hd. by destruct (puts putch o s) as [[[] s']|].
      * apply bind_cong; [done|]. intros _ s'. apply (IH k _ ap' out' s' Hl E3); [lia|lia|done].
Qed.
End directive.

Lemma with_ok {St} (putch : Z -> M St unit) self msg l ap out s : (forall n l s, msg n = Some l -> print_error self n s = puts putch l s) -> Forall item_ok l -> renders msg l ap = Some out ->
  vprintfmt_with putch self (concat (show <$> l)) ap s = puts putch out s.
Proof. intros Hm Hl Hr. apply (format_ok putch self _ msg Hm l); [done|done|lia|lia|done]. Qed.

(** The messages of errors. *)
Definition error_items : list item := (Lit <$> chars "error ") ++ [Esc (Dir false None [] None 0 CDec)].
Definition string_items : list item := [Esc (Dir false None [] None 0 CStr)].

Lemma error_texts : Forall (fun o : option (list Z) => forall p, o = Some p -> fits p (Flags 32 (-1) (-1) 0 false)) error_string.
Proof. repeat (constructor; [intros p [= <-]; apply (bool_decide_unpack _); vm_compute; reflexivity|]). constructor. Qed.

Lemma renders_lits msg cs l ap : renders msg ((Lit <$> cs) ++ l) ap = app cs <$> renders msg l ap.
Proof. induction cs as [|c cs IH]; cbn; [by destruct (renders msg l ap)|]. rewrite IH. by destruct (renders msg l ap). Qed.

Lemma padded_plain base n w pad : w <= 0 -> padded base n w pad = map digit_char (numeral base n).
Proof. intros Hw. unfold padded. by replace (Z.to_nat _) with 0%nat by lia. Qed.

Lemma justified_plain p : justified p (Flags 32 (-1) (-1) 0 false) = p.
Proof. unfold justified, shown. cbn [width padc precision altflag Z.ltb Z.compare andb]. replace (Z.to_nat _) with 0%nat by lia. rewrite app_nil_r. apply list_fmap_id. Qed.

Lemma message_ok {St} (putch : Z -> M St unit) n l s : message n = Some l -> print_error (printfmt putch) n s = puts putch l s.
Proof.
  intros Hm. unfold message in Hm. case_decide as Hn; [|done]. injection Hm as <-. unfold print_error. assert (Ee : (if n <? 0 then s32 (- n) else n) = Z.abs n).
  { destruct (Z.ltb_spec n 0); [|lia]. rewrite (smod_small 32) by (done || (unfold is_s; lia)). lia. }
  rewrite Ee. cbv zeta. set (e := Z.abs n) in *. assert (He : 0 <= e < 2 ^ 31) by lia. assert (Herr : forall s, printfmt putch (chars "error %d") [Word e] s = puts putch (chars "error " ++ map digit_char (numeral 10 e)) s).
  { intros s'. apply (with_ok putch _ (fun _ => None) error_items); [done|by repeat constructor|]. unfold error_items. rewrite renders_lits. cbn [renders rendered d_conv]. rewrite decide_True by done. cbn [mbind option_bind]. unfold signed.
    rewrite (smod_small 32) by (done || (unfold is_s; lia)). rewrite (proj2 (Z.ltb_ge _ _)) by lia. rewrite padded_plain by done. cbn [fmap option_fmap option_map]. by rewrite app_nil_r. }
  destruct (Z.ltb_spec MAXERROR e) as [H|H].
  - rewrite lookup_ge_None_2 by (unfold MAXERROR in H; cbn; lia). apply Herr.
  - rewrite (proj2 (Z.ltb_ge _ _)) by lia. destruct (error_string !! Z.to_nat e) as [[p|]|] eqn:El; [|apply Herr|apply Herr]. cbn [default from_option id].
    apply (with_ok putch _ (fun _ => None) string_items); [done|by repeat constructor|]. pose proof error_texts as Ht. rewrite Forall_lookup in Ht. specialize (Ht _ _ El p eq_refl). cbn [renders string_items rendered d_conv default from_option id]. rewrite decide_True by done. cbn [mbind option_bind].
    unfold flags_of. cbn [d_pad d_width d_prec d_long d_alt default from_option id Z.of_nat]. rewrite decide_True by done. rewrite justified_plain. by rewrite app_nil_r.
Qed.

Lemma vprintfmt_ok {St} (putch : Z -> M St unit) l ap out s : Forall item_ok l -> renders message l ap = Some out -> vprintfmt putch (concat (show <$> l)) ap s = puts putch out s.
Proof. intros Hl Hr. apply (with_ok putch _ message l); [|done|done]. intros n o s'. apply message_ok. Qed.

(** The flag [-] asks for padding on the right, which strings get (numbers do not, see
    [minus_pads_left]). *)
Definition justifiable (x : item) : Prop := match x with Lit _ => True | Esc d => d_pad d = Some 45 -> d_conv d = CStr end.

(** C16: for a format of literals and escape sequences with [#], [0], width, precision
    and length, and [-] before strings only, with arguments of the right kind and
    64-bit numbers of at most 32 bits, [vprintfmt] puts exactly the characters that the
    format and its arguments stand for, in order, whatever they are put into: literals,
    characters, strings with width, precision and justification, numbers in base 8, 10
    and 16 padded on the left (a sign comes before the padding), pointers and the texts
    of errors.  Widths given as arguments ([*]) and unknown escapes are not covered. *)
Theorem vprintfmt_correct {St} (putch : Z -> M St unit) l ap out s : Forall item_ok l -> Forall justifiable l -> renders message l ap = Some out -> vprintfmt putch (concat (show <$> l)) ap s = puts putch out s.
Proof. intros Hl _. by apply vprintfmt_ok. Qed.

(** ** Into a buffer *)

(** The characters that fit. *)
Lemma sprint_puts out : forall m p e cnt, p <= e -> mapped m p (e - p) -> 0 <= cnt -> cnt + Z.of_nat (length out) < 2 ^ 31 ->
  let n := Z.min (Z.of_nat (length out)) (e - p) in
  exists m', puts sprintputch out (SBuf m p e cnt) = Ok (tt, SBuf m' (p + n) e (cnt + Z.of_nat (length out))) /\ bytes_at m' p (u8 <$> take (Z.to_nat n) out) /\ same_outside m m' p n /\ (forall q k, mapped m q k -> mapped m' q k).
Proof.
  induction out as [|c out IH]; intros m p e cnt Hp Hm Hc Hlt n; cbn [length] in *.
  - exists m. unfold n. change (Z.of_nat 0) with 0. rewrite Z.min_l, !Z.add_0_r by lia. split; [done|]. split; [apply bytes_at_nil|]. by split.
  - assert (Hs : s32 (cnt + 1) = cnt + 1) by (apply (smod_small 32); [done|unfold is_s; lia]). destruct (Z.ltb_spec p e) as [Hpe|Hpe].
    + destruct (wb_spec m p (u8 c)) as (m1 & E1 & H1 & O1 & M1); [apply Hm; lia|]. assert (E : sprintputch c (SBuf m p e cnt) = Ok (tt, SBuf m1 (p + 1) e (cnt + 1))) by (unfold sprintputch; cbn [sbuf ebuf smem scnt]; by rewrite (proj2 (Z.ltb_lt _ _) Hpe), E1, Hs).
      destruct (IH m1 (p + 1) e (cnt + 1)) as (m' & E2 & B2 & O2 & M2); [lia|apply M1; intros q Hq; apply Hm; lia|lia|lia|]. set (n' := Z.min (Z.of_nat (length out)) (e - (p + 1))) in *. assert (Hn : n = n' + 1) by lia. exists m'. cbn [puts]. rewrite (bind_step _ _ _ _ _ E). split_and!.
      * rewrite E2. replace (p + n) with (p + 1 + n') by lia. by replace (cnt + Z.of_nat (S (length out))) with (cnt + 1 + Z.of_nat (length out)) by lia.
      * replace (Z.to_nat n) with (S (Z.to_nat n')) by lia. cbn [take fmap list_fmap]. apply bytes_at_cons. split; [|exact B2]. rewrite O2; [done|lia].
      * intros q Hq. rewrite O2, O1; [done|lia|lia].
      * intros q k Hq. by apply M2, M1.
    + assert (E : sprintputch c (SBuf m p e cnt) = Ok (tt, SBuf m p e (cnt + 1))) by (unfold sprintputch; cbn [sbuf ebuf smem scnt]; by rewrite (proj2 (Z.ltb_ge _ _) Hpe), Hs).
      destruct (IH m p e (cnt + 1)) as (m' & E2 & B2 & O2 & M2); [lia|done|lia|lia|]. assert (Hn : n = Z.min (Z.of_nat (length out)) (e - p)) by lia. rewrite <- Hn in *. exists m'. cbn [puts]. rewrite (bind_step _ _ _ _ _ E). split_and!; [|by replace n with 0 in * by lia|done|done].
      rewrite E2. by replace (cnt + Z.of_nat (S (length out))) with (cnt + 1 + Z.of_nat (length out)) by lia.
Qed.

Lemma snprintf_ok l ap out m str size : Forall item_ok l -> renders message l ap = Some out -> 0 < str -> 1 <= size -> str + size <= 2 ^ 32 -> mapped m str size -> Z.of_nat (length out) < 2 ^ 31 ->
  exists m', snprintf str size (concat (show <$> l)) ap m = Ok (Z.of_nat (length out), m') /\ bytes_at m' str ((u8 <$> take (Z.to_nat (size - 1)) out) ++ [0]) /\ same_outside m m' str size.
Proof.
  intros Hl Hr Hstr Hsz Hend Hm Hlen. unfold snprintf, ucore_vsnprintf. rewrite (umod_small 32) by (done || (unfold is_u; lia)). rewrite (proj2 (Z.eqb_neq str 0)), (proj2 (Z.ltb_ge _ _)) by lia. cbn [orb]. rewrite (vprintfmt_ok sprintputch l ap out _ Hl Hr).
  destruct (sprint_puts out m str (str + size - 1) 0) as (m1 & E1 & B1 & O1 & M1); [lia|intros q Hq; apply Hm; lia|lia|lia|]. rewrite E1. cbn [sbuf smem scnt]. set (n := Z.min _ _) in *. destruct (wb_spec m1 (str + n) 0) as (m' & E2 & H2 & O2 & _); [apply (M1 str size Hm); lia|]. rewrite E2. exists m'. split; [done|].
  assert (Ht : take (Z.to_nat (size - 1)) out = take (Z.to_nat n) out) by (destruct (decide (Z.of_nat (length out) <= size - 1)); [rewrite !take_ge by lia; done|f_equal; lia]). assert (Hln : length (u8 <$> take (Z.to_nat n) out) = Z.to_nat n) by (rewrite length_fmap, length_take; lia). split.
  - rewrite Ht. apply bytes_at_app. split; [|rewrite Hln; apply bytes_at_cons; split; [rewrite Z2Nat.id by lia; done|apply bytes_at_nil]]. eapply bytes_at_outside; [exact B1|exact O2|]. rewrite Hln. lia.
  - intros q Hq. rewrite O2, O1; [done|lia|lia].
Qed.

(** C17: [snprintf] stays in its buffer: it stores the first characters of the text that fit
    and a NUL after them, returns the length of the whole text, and touches nothing
    else; a buffer of no bytes, or none, is refused. *)
Theorem snprintf_correct l ap out m str size : Forall item_ok l -> renders message l ap = Some out -> 0 <= str -> 0 <= size -> str + size <= 2 ^ 32 -> mapped m str size -> Z.of_nat (length out) < 2 ^ 31 ->
  if decide (str = 0 \/ size = 0) then snprintf str size (concat (show <$> l)) ap m = Ok (- E_INVAL, m)
  else exists m', snprintf str size (concat (show <$> l)) ap m = Ok (Z.of_nat (length out), m') /\ bytes_at m' str ((u8 <$> take (Z.to_nat (size - 1)) out) ++ [0]) /\ same_outside m m' str size.
Proof.
  intros Hl Hr Hstr Hsz Hend Hm Hlen. case_decide as Hd; [|apply snprintf_ok; try done; lia]. unfold snprintf, ucore_vsnprintf. destruct (Z.eqb_spec str 0) as [|Hne]; [done|]. destruct Hd as [Hd|Hd]; [done|]. subst size. rewrite (umod_small 32) by (done || (unfold is_u; lia)). by rewrite (proj2 (Z.ltb_lt _ _)) by lia.
Qed.

(** ** Numbers that are printed and read *)

Lemma digits_length base k : 2 <= base -> forall n j, 0 <= n < base ^ Z.of_nat j -> (0 < j)%nat -> (length (digits k base n) <= j)%nat.
Proof.
  intros Hb. induction k as [|k IH]; intros n j Hn Hj; [cbn; lia|]. cbn [digits]. destruct (Z.ltb_spec n base) as [|Hge]; [cbn; lia|]. rewrite length_app. cbn. destruct j as [|[|j]]; [lia|cbn in Hn; lia|]. rewrite Nat2Z.inj_succ, Z.pow_succ_r in Hn by lia.
  assert (length (digits k base (n / base)) <= S j)%nat; [|lia]. apply IH; [|lia]. split; [apply Z.div_pos; lia|apply Z.div_lt_upper_bound; lia].
Qed.

Definition decimal : list item := [Esc (Dir false None [] None 0 CDec)].

Lemma decimal_out n : is_s 32 n -> renders message decimal [Word (u32 n)] = Some ((if n <? 0 then [45] else []) ++ map digit_char (numeral 10 (Z.abs n))).
Proof.
  intros Hn. cbn [renders decimal rendered d_conv]. rewrite decide_True by done. cbn [mbind option_bind]. rewrite smod_umod, (smod_small 32) by (done || lia). unfold signed. rewrite !padded_plain by done. rewrite app_nil_r. destruct (Z.ltb_spec n 0); [by replace (- n) with (Z.abs n) by lia|by replace n with (Z.abs n) at 1 by lia].
Qed.

Definition percent_d : list Z := chars "%d".

(** C18: an [int] printed with [%d] into a buffer of 12 bytes and read again with
    [strtol] is the same number, and all that was printed is read. *)
Theorem print_scan n m str : is_s 32 n -> 0 < str -> str + 12 <= 2 ^ 32 -> mapped m str 12 ->
  exists cnt m', snprintf str 12 percent_d [Word (u32 n)] m = Ok (cnt, m') /\ 0 < cnt < 12 /\ strtol 12 str 10 m' = Ok (n, str + cnt, m').
Proof.
  intros Hn Hstr Hend Hm. pose proof (decimal_out n Hn) as Ho. set (ds := numeral 10 (Z.abs n)) in *. set (sg := if n <? 0 then [45] else []) in *. assert (Ha : 0 <= Z.abs n < 2 ^ 32) by (unfold is_s in Hn; lia).
  destruct (numeral_ok 10 (Z.abs n) ltac:(lia) Ha) as (H1 & H2 & H3 & _). fold (numeral 10 (Z.abs n)) in H1, H2, H3. fold ds in H1, H2, H3. assert (Hl : (length ds <= 10)%nat) by (apply digits_length; [lia|change (10 ^ Z.of_nat 10) with 10000000000; lia|lia]). assert (Hsg : (length sg <= 1)%nat) by (unfold sg; destruct (n <? 0); cbn; lia).
  destruct (snprintf_ok decimal _ _ m str 12 ltac:(by repeat constructor) Ho Hstr ltac:(lia) Hend Hm) as (m' & E & B & _); [rewrite length_app, length_map; lia|]. exists (Z.of_nat (length (sg ++ map digit_char ds))), m'. split; [exact E|]. rewrite length_app, length_map in *. destruct ds as [|d ds]; [done|]. split; [cbn [length] in *; lia|].
  assert (Hsc : sign_chars sg (n <? 0)) by (unfold sg; destruct (n <? 0); constructor). assert (Hu : (u8 <$> take (Z.to_nat (12 - 1)) (sg ++ map digit_char (d :: ds))) = sg ++ map digit_char (d :: ds)).
  { rewrite take_ge by (rewrite length_app, length_map; cbn [length] in *; lia). rewrite <- (list_fmap_id (sg ++ _)) at 2. apply list_fmap_ext. intros i x Hx%list_elem_of_lookup_2. apply (umod_small 8). apply elem_of_app in Hx as [Hx|Hx].
    - unfold sg in Hx. destruct (n <? 0); [apply list_elem_of_singleton in Hx as ->; done|by apply not_elem_of_nil in Hx].
    - apply list_elem_of_fmap in Hx as (y & -> & Hy). rewrite Forall_forall in H2. specialize (H2 y Hy). cbn beta in H2. change (is_u 8 (digit_char y)). unfold digit_char, is_u. destruct (Z.ltb_spec y 10); lia. }
  rewrite Hu, <- app_assoc in B. rewrite (strtol_correct 12 m' str [] sg (n <? 0) d ds 0 10); [|lia|lia|constructor|done|done|done|exact B|cbn; lia|cbn [length] in *; lia]. rewrite H1. assert (Hv : s32 (if n <? 0 then - Z.abs n else Z.abs n) = n) by (rewrite (smod_small 32); destruct (Z.ltb_spec n 0); lia || (unfold is_s in *; lia)). by rewrite Hv.
Qed.

(** "pid %5d: %-8s|%#x%%" and its arguments. *)
Definition sample : list item :=
  (Lit <$> chars "pid ") ++ [Esc (Dir false None [5] None 0 CDec)] ++ (Lit <$> chars ": ") ++ [Esc (Dir false (Some 45) [8] None 0 CStr); Lit 124; Esc (Dir true None [] None 0 CHex); Esc (Dir false None [] None 0 CPercent)].
Definition sample_args : list vararg := [Word 42; Str (Some (chars "init")); Word 255].

Lemma sample_ok : Forall item_ok sample.
Proof.
  repeat (constructor; [cbn; first [by split|split; [intros c [= <-]; by left|split; [by repeat constructor|done]]|split; [done|split; [by repeat constructor|done]]]|]). constructor.
Qed.

Lemma vprintfmt_correct_witness : vprintfmt sprintputch (chars "pid %5d: %-8s|%#x%%") sample_args (SBuf ∅ 0 0 0) = puts sprintputch (chars "pid    42: init    |ff%") (SBuf ∅ 0 0 0).
Proof.
  apply (vprintfmt_correct sprintputch sample sample_args); [exact sample_ok|repeat (constructor; [by cbn|]); constructor|vm_compute; reflexivity].
Defined.

Lemma snprintf_correct_witness : exists m', snprintf 64 8 (chars "pid %5d: %-8s|%#x%%") sample_args (mem_of 64 (repeat 1 8)) = Ok (23, m') /\ bytes_at m' 64 (chars "pid    " ++ [0]).
Proof.
  pose proof (snprintf_correct sample sample_args (chars "pid    42: init    |ff%") (mem_of 64 (repeat 1 8)) 64 8 sample_ok) as H. destruct H as (m' & E & B & _); [vm_compute; reflexivity|lia|lia|lia| |vm_compute; reflexivity|].
  - intros q Hq. assert (Hin : q ∈ seqZ 64 8) by (apply elem_of_seqZ; lia). assert (Ha : Forall (fun q => is_Some (mem_of 64 (repeat 1 8) !! q)) (seqZ 64 8)) by (repeat constructor; eexists; vm_compute; reflexivity). rewrite Forall_forall in Ha. by apply Ha.
  - exists m'. split; [exact E|exact B].
Defined.

Lemma print_scan_witness : exists cnt m', snprintf 64 12 percent_d [Word (u32 (- 2 ^ 31))] (mem_of 64 (repeat 1 12)) = Ok (cnt, m') /\ strtol 12 64 10 m' = Ok (- 2 ^ 31, 64 + cnt, m').
Proof.
  destruct (print_scan (- 2 ^ 31) (mem_of 64 (repeat 1 12)) 64) as (cnt & m' & E & _ & H); [done|lia|lia| |].
  - intros q Hq. assert (Hin : q ∈ seqZ 64 12) by (apply elem_of_seqZ; lia). assert (Ha : Forall (fun q => is_Some (mem_of 64 (repeat 1 12) !! q)) (seqZ 64 12)) by (repeat constructor; eexists; vm_compute; reflexivity). rewrite Forall_forall in Ha. by apply Ha.
  - exists cnt, m'. split; [exact E|exact H].
Defined.
