(* ===== verification/FmtEnds.v ===== *)
(** * FmtEnds: printing ends, whatever the format; wide numbers; line input *)

From stdpp Require Import numbers gmap list strings.
From S2P Require Import Prelude Strings Fmt FmtProof FmtSafe.
Local Open Scope Z_scope.

(** ** Computations that do not run out of fuel *)

Definition yields {St A} (P : A -> Prop) (m : M St A) : Prop := forall s, match m s with Ok (a, _) => P a | Err e => e <> OutOfFuel end.
Definition ends {St A} (m : M St A) : Prop := yields (fun _ => True) m.

Lemma yields_bind {St A B} P Q (m : M St A) (k : A -> M St B) : yields P m -> (forall a, P a -> yields Q (k a)) -> yields Q (m ≫= k).
Proof. intros Hm Hk s. specialize (Hm s). unfold mbind, M_bind. destruct (m s) as [[a s']|e]; [|done]. by apply Hk. Qed.
Lemma yields_ret {St A} (P : A -> Prop) a : P a -> yields (St := St) P (mret a).
Proof. by intros H s. Qed.
Lemma yields_fail {St A} (P : A -> Prop) e : e <> OutOfFuel -> yields (St := St) P (fail e).
Proof. by intros H s. Qed.
Lemma yields_weaken {St A} (P Q : A -> Prop) (m : M St A) : (forall a, P a -> Q a) -> yields P m -> yields Q m.
Proof. intros H Hm s. specialize (Hm s). destruct (m s) as [[a s']|e]; [by apply H|done]. Qed.
Lemma ends_eq {St A} (m m' : M St A) : (forall s, m s = m' s) -> ends m' -> ends m.
Proof. intros H Hm s. rewrite H. apply Hm. Qed.

Create HintDb ends.
#[local] Hint Resolve yields_ret : ends.
#[local] Hint Extern 1 (yields _ (fail _)) => apply yields_fail; discriminate : ends.

Section ends.
Context {St : Type} (putch : Z -> M St unit) (Hput : forall c, ends (putch c)).

Lemma then_ends {A B} Q (m : M St A) (k : A -> M St B) : ends m -> (forall a, yields Q (k a)) -> yields Q (m ≫= k).
Proof. intros Hm Hk. eapply yields_bind; [exact Hm|]. intros a _. apply Hk. Qed.

Lemma puts_ends l : ends (puts putch l).
Proof. induction l as [|c l IH]; cbn [puts]; [by apply yields_ret|]. apply then_ends; [apply Hput|done]. Qed.
Lemma rep_ends n c : ends (rep putch n c).
Proof. eapply ends_eq; [apply rep_puts|apply puts_ends]. Qed.

Lemma decr_ends w : ends (St := St) (decr w).
Proof. unfold decr. case_decide; [by apply yields_ret|by apply yields_fail]. Qed.

Lemma printnum_S k num base w pad : printnum putch (S k) num base w pad = (w ← decr w; _ ← (if base <=? num then printnum putch k (u32 num / base) base w pad else rep putch (Z.to_nat w) pad); putch (default 0 (chars "0123456789abcdef" !! Z.to_nat (u32 num mod base)))).
Proof. done. Qed.

Lemma low_range num base : 2 <= base -> 0 <= u32 num / base < 2 ^ 32.
Proof. intros Hb. pose proof (umod_range 32 num ltac:(lia)) as Hr. unfold is_u in Hr. split; [apply Z.div_pos; lia|apply Z.div_lt_upper_bound; lia]. Qed.

Lemma printnum_ends base pad k : 2 <= base -> forall n w, 0 <= n < 2 ^ 32 -> n < base ^ Z.of_nat k -> (0 < k)%nat -> ends (printnum putch k n base w pad).
Proof.
  intros Hb. induction k as [|k IH]; intros n w Hn Hk H0; [lia|]. rewrite printnum_S. apply then_ends; [apply decr_ends|]. intros w'. apply then_ends; [|intros _; apply Hput]. destruct (Z.leb_spec base n) as [Hle|]; [|apply rep_ends].
  rewrite (umod_small 32) by (done || (unfold is_u; lia)). rewrite Nat2Z.inj_succ, Z.pow_succ_r in Hk by lia. apply IH; [split; [apply Z.div_pos; lia|apply Z.div_lt_upper_bound; nia]|apply Z.div_lt_upper_bound; lia|destruct k; [cbn in Hk; lia|lia]].
Qed.

Lemma number_ends num base f : 2 <= base <= 16 -> ends (number putch num base f).
Proof.
  intros Hb. unfold number. rewrite printnum_S. apply then_ends; [apply decr_ends|]. intros w. apply then_ends; [|intros _; apply Hput]. destruct (base <=? num); [|apply rep_ends]. pose proof (low_range num base ltac:(lia)) as Hd.
  apply printnum_ends; [lia|done| |lia]. apply Z.lt_le_trans with (2 ^ Z.of_nat 32); [change (Z.of_nat 32) with 32; lia|]. apply Z.pow_le_mono_l. lia.
Qed.

Lemma str_loop_ends p : forall prec w alt, ends (str_loop putch p prec w alt).
Proof. induction p as [|c p IH]; intros prec w alt; cbn [str_loop]; [by apply yields_ret|]. destruct (_ || _); [|by apply yields_ret]. apply then_ends; [apply Hput|]. intros _. apply then_ends; [apply decr_ends|]. intros w'. apply IH. Qed.
Lemma print_string_ends p f : ends (print_string putch p f).
Proof.
  unfold print_string. apply then_ends; [destruct (_ && _); [|by apply yields_ret]; apply then_ends; [apply rep_ends|intros _; by apply yields_ret]|]. intros w. apply then_ends; [apply str_loop_ends|]. intros w'. apply rep_ends.
Qed.

Lemma fetch_yields fmt i : yields (St := St) (fun c => (i <= length fmt)%nat /\ (c <> 0 -> (i < length fmt)%nat)) (fetch fmt i).
Proof.
  intros s. unfold fetch. destruct (decide (i <= length fmt)%nat) as [Hi|]; [|done]. cbn. split; [done|]. intros Hc. destruct (decide (i < length fmt)%nat); [done|]. by rewrite lookup_ge_None_2 in Hc by lia.
Qed.

Lemma fetch_is fmt i : yields (St := St) (fun c => c = default 0 (fmt !! i)) (fetch fmt i).
Proof. intros s. unfold fetch. by destruct (decide _). Qed.

Lemma field_yields fmt k : forall i v ch, (i <= length fmt < k + i)%nat -> yields (St := St) (fun r => (i <= snd r <= length fmt)%nat) (field k fmt i v ch).
Proof.
  induction k as [|k IH]; intros i v ch Hk; cbn [field].
  - lia.
  - destruct (decide _); [|apply yields_fail; done]. eapply yields_bind; [apply fetch_yields|]. intros c [Hi Hc]. destruct (is_digit c) eqn:Ed; [|by apply yields_ret; cbn; lia]. apply is_digit_iff in Ed. eapply yields_weaken; [|apply IH; lia]. cbn. intros [r j] ?. cbn in *. lia.
Qed.

Lemma rewind_yields fmt i0 i : (0 < i0 <= i)%nat -> fmt !! pred i0 = Some 37 -> yields (St := St) (fun j => (i0 <= j <= i)%nat) (rewind fmt i).
Proof.
  intros Hi H37. induction i as [|j IH]; [lia|]. cbn [rewind]. destruct (Z.eqb_spec (default 0 (fmt !! j)) 37) as [|Hne]; [apply yields_ret; lia|]. destruct (decide (i0 = S j)) as [->|]; [cbn in H37; by rewrite H37 in Hne|]. eapply yields_weaken; [|apply IH; lia]. cbn. lia.
Qed.

Section self.
Context (self : list Z -> list vararg -> M St unit) (Hself : forall n, is_s 32 n -> ends (print_error self n)) (fmt : list Z) (i0 : nat) (Hi0 : (0 < i0)%nat) (H37 : fmt !! pred i0 = Some 37).

(** The escape sequence after the [%] before [i0]. *)
Definition within (r : nat * list vararg) : Prop := (i0 <= fst r <= length fmt)%nat.

Lemma then_within (m : M St unit) i (ap : list vararg) : (i0 <= i <= length fmt)%nat -> ends m -> yields within (_ ← m; mret (i, ap)).
Proof. intros Hi Hm. apply then_ends; [done|]. intros _. by apply yields_ret. Qed.

Lemma take_int_yields (ap : list vararg) : yields (St := St) (fun r => is_s 32 (fst r)) (take_int ap).
Proof. destruct ap as [|[n| |] ap]; try (by apply yields_fail). apply yields_ret, (smod_range 32). lia. Qed.
Lemma getuint_ends (ap : list vararg) l : ends (St := St) (getuint ap l).
Proof. destruct ap as [|[n|n|] ap]; cbn [getuint]; try (by apply yields_fail); destruct (2 <=? l); first [by apply yields_fail|by apply yields_ret]. Qed.
Lemma getint_ends (ap : list vararg) l : ends (St := St) (getint ap l).
Proof. destruct ap as [|[n|n|] ap]; cbn [getint]; try (by apply yields_fail); destruct (2 <=? l); first [by apply yields_fail|by apply yields_ret]. Qed.

Lemma directive_ends k : forall i ap f, (i0 <= i <= length fmt)%nat -> (length fmt < k + i)%nat -> yields within (directive putch self k fmt i ap f).
Proof.
  induction k as [|k IH]; intros i ap f Hi Hk; [lia|]. cbn [directive]. eapply yields_bind; [apply fetch_yields|]. intros c [_ Hc].
  assert (Hnext : forall f' ap', c <> 0 -> yields within (directive putch self k fmt (S i) ap' f')) by (intros f' ap' Hc0; apply IH; [specialize (Hc Hc0); lia|lia]).
  assert (Hput1 : forall m ap', c <> 0 -> ends m -> yields within (_ ← m; mret (S i, ap'))) by (intros m ap' Hc0 Hm; apply then_within; [specialize (Hc Hc0); lia|done]).
  assert (Huns : forall base, 2 <= base <= 16 -> c <> 0 -> yields within ('(num, ap) ← getuint ap (lflag f); _ ← number putch num base f; mret (S i, ap))) by (intros base Hb Hc0; apply then_ends; [apply getuint_ends|]; intros [num ap']; apply Hput1; [done|by apply number_ends]).
  destruct (Z.eqb_spec c 45); [apply Hnext; lia|]. destruct (Z.eqb_spec c 48); [apply Hnext; lia|]. destruct ((49 <=? c) && (c <=? 57)) eqn:Ed.
  { apply andb_true_iff in Ed as [E1%Z.leb_le E2%Z.leb_le]. specialize (Hc ltac:(lia)). eapply yields_bind; [apply field_yields; lia|]. intros [v j] Hj. cbn in Hj. apply IH; lia. }
  destruct (Z.eqb_spec c 42); [apply then_ends; [eapply yields_weaken; [|apply take_int_yields]; done|intros [num ap']; apply Hnext; lia]|]. destruct (Z.eqb_spec c 46); [apply Hnext; lia|]. destruct (Z.eqb_spec c 35); [apply Hnext; lia|]. destruct (Z.eqb_spec c 108); [apply Hnext; lia|].
  destruct (Z.eqb_spec c 99); [eapply yields_bind; [apply take_int_yields|]; intros [num ap'] _; apply Hput1; [lia|apply Hput]|]. destruct (Z.eqb_spec c 101); [eapply yields_bind; [apply take_int_yields|]; intros [num ap'] Hnum; apply Hput1; [lia|by apply Hself]|].
  destruct (Z.eqb_spec c 115); [destruct ap as [|[| |p] ap]; try (by apply yields_fail); apply Hput1; [lia|apply print_string_ends]|].
  destruct (Z.eqb_spec c 100). { apply then_ends; [apply getint_ends|]. intros [num ap']. apply then_ends; [destruct (num <? 0); [apply then_ends; [apply Hput|intros _; by apply yields_ret]|by apply yields_ret]|]. intros num'. apply Hput1; [lia|by apply number_ends]. }
  destruct (Z.eqb_spec c 117); [apply Huns; lia|]. destruct (Z.eqb_spec c 111); [apply Huns; lia|].
  destruct (Z.eqb_spec c 112); [apply then_ends; [apply Hput|]; intros _; apply then_ends; [apply Hput|]; intros _; destruct ap as [|[x| |] ap]; try (by apply yields_fail); apply Hput1; [lia|by apply number_ends]|].
  destruct (_ || _) eqn:Ex; [apply Huns; [lia|]; apply orb_true_iff in Ex as [Ex%Z.eqb_eq|Ex%Z.eqb_eq]; lia|]. destruct (Z.eqb_spec c 37); [apply Hput1; [lia|apply Hput]|].
  apply then_ends; [apply Hput|]. intros _. eapply yields_bind; [apply (rewind_yields fmt i0 i); [lia|done]|]. intros j Hj. apply yields_ret. cbn in Hj. unfold within. cbn [fst]. lia.
Qed.
End self.

Lemma format_ends self fmt k : (forall n, is_s 32 n -> ends (print_error self n)) -> forall i ap, (i <= length fmt < k + i)%nat -> ends (format_loop putch self k fmt i ap).
Proof.
  intros Hself. induction k as [|k IH]; intros i ap Hk; [lia|]. cbn [format_loop]. eapply yields_bind; [apply (fetch_is fmt i)|]. intros c Hf. destruct (Z.eqb_spec c 37) as [->|].
  - assert (H37 : fmt !! i = Some 37) by (destruct (fmt !! i); cbn in Hf; [by subst|done]). apply lookup_lt_Some in H37 as Hi. eapply yields_bind; [apply (directive_ends self Hself fmt (S i)); [lia|done|lia|lia]|]. intros [j ap'] Hj. unfold within in Hj. cbn in Hj. apply IH. lia.
  - destruct (Z.eqb_spec c 0) as [|Hc]; [by apply yields_ret|]. apply then_ends; [apply Hput|]. intros _. apply IH. destruct (fmt !! i) eqn:E; [apply lookup_lt_Some in E; lia|by cbn in Hf; subst].
Qed.

Lemma error_ends n : is_s 32 n -> ends (print_error (printfmt putch) n).
Proof.
  intros Hn. destruct (message n) as [l|] eqn:E; [eapply ends_eq; [intros s; by apply message_ok|apply puts_ends]|]. unfold message in E. case_decide as Hd; [done|]. assert (n = - 2 ^ 31) as -> by (unfold is_s in Hn; lia). intros s. by vm_compute.
Qed.

(** C38: [vprintfmt] ends for every format, well formed or not, and whatever the arguments:
    it never goes on reading, and an escape sequence that it does not know is passed
    only once. *)
Theorem vprintfmt_ends fmt ap : ends (vprintfmt putch fmt ap).
Proof. unfold vprintfmt, vprintfmt_with. apply format_ends; [apply error_ends|lia]. Qed.
End ends.

(** What is printed, as a list. *)
Definition collect (c : Z) : M (list Z) unit := modify (fun l => l ++ [c]).
Definition says (fmt : list Z) (ap : list vararg) : outcome (list Z) := match vprintfmt collect fmt ap [] with Ok (_, l) => Ok l | Err e => Err e end.

Lemma vprintfmt_ends_witness : ends (vprintfmt collect (chars "100% %-#zq %") []).
Proof. apply vprintfmt_ends. intros c s. exact Logic.I. Defined.

(** ** Where it goes wrong *)

Lemma digits_fuel base k : 2 <= base -> forall n, 0 <= n < base ^ Z.of_nat k -> (0 < k)%nat -> digits (S k) base n = digits k base n.
Proof.
  intros Hb. induction k as [|k IH]; intros n Hn Hk; [lia|]. cbn [digits]. destruct (Z.ltb_spec n base) as [|Hge]; [done|]. f_equal. rewrite Nat2Z.inj_succ, Z.pow_succ_r in Hn by lia. destruct k as [|k]; [cbn in Hn; lia|]. apply IH; [|lia]. split; [apply Z.div_pos; lia|apply Z.div_lt_upper_bound; lia].
Qed.

(** The digits printed for a number of more than 32 bits: those of its lower half, with a
    zero before them if there is one digit. *)
Definition low_digits (base n : Z) : list Z := numeral base (u32 n / base) ++ [u32 n mod base].
Definition lossy (base n w pad : Z) : list Z := repeat pad (Z.to_nat (w - Z.of_nat (length (low_digits base n)))) ++ map digit_char (low_digits base n).

Lemma low_value base n : 2 <= base <= 16 -> digits_value base (low_digits base n) = u32 n.
Proof.
  intros Hb. pose proof (low_range n base ltac:(lia)) as Hr. destruct (numeral_ok base (u32 n / base) ltac:(lia) Hr) as (H & _). unfold low_digits, numeral, digits_value in *. rewrite fold_left_app, H. cbn. pose proof (Z.div_mod (u32 n) base ltac:(lia)). lia.
Qed.

Lemma number_wide {St} (putch : Z -> M St unit) base n f s : 2 <= base <= 16 -> 2 ^ 32 <= n -> -1 <= width f < 2 ^ 31 -> number putch n base f s = puts putch (lossy base n (width f) (padc f)) s.
Proof.
  intros Hb Hn Hw. pose proof (low_range n base ltac:(lia)) as Hd. pose proof (Z.mod_pos_bound (u32 n) base ltac:(lia)) as Hm. assert (Hk : 0 <= u32 n / base < base ^ Z.of_nat 32) by (split; [lia|]; apply Z.lt_le_trans with (2 ^ Z.of_nat 32); [change (Z.of_nat 32) with 32; lia|]; apply Z.pow_le_mono_l; lia).
  unfold number, lossy, low_digits. rewrite printnum_S, decr_ok by (unfold is_s; lia). rewrite (proj2 (Z.leb_le _ _)) by lia. rewrite map_app, app_assoc, puts_app. apply bind_cong; [|intros _ s2; cbn [map]; by rewrite puts_one, hex_digit by lia].
  rewrite printnum_ok; [|lia|done|lia|lia|lia]. unfold numeral. rewrite (digits_fuel base 32 ltac:(lia) _ Hk ltac:(lia)), length_app. do 4 f_equal. cbn [length]. lia.
Qed.

(** The conversions of numbers, their base, and the numbers of 64 bits that need more than 32. *)
Definition base_of (cv : conv) : Z := match cv with COct => 8 | CHex => 16 | _ => 10 end.
Definition too_wide (cv : conv) (n : Z) : Prop :=
  match cv with CUns | COct | CHex => 2 ^ 32 <= n < 2 ^ 64 | CDec => 2 ^ 32 <= Z.abs n < 2 ^ 63 | _ => False end.
Definition truncated (d : dir) (n : Z) : list Z :=
  (if n <? 0 then [45] else []) ++ lossy (base_of (d_conv d)) (Z.abs n) (width (flags_of d)) (padc (flags_of d)).

Lemma wide_conversion {St} (putch : Z -> M St unit) self fmt d k j n (s : St) : dir_ok d -> (2 <= d_long d)%nat -> too_wide (d_conv d) n -> fetch fmt j s = Ok (conv_char (d_conv d), s) ->
  directive putch self (S k) fmt j [Dword n] (flags_of d) s = (puts putch (truncated d n) ≫= fun _ => mret (S j, [])) s.
Proof.
  intros Hd Hl Hn Hf. destruct (flags_range d Hd) as [Hw _]. assert (Hlf : 2 <=? lflag (flags_of d) = true) by (apply Z.leb_le; cbn; lia). cbn [directive]. rewrite (bind_step _ _ _ _ _ Hf). unfold truncated.
  assert (Hu : forall base, 2 <= base <= 16 -> 2 ^ 32 <= n < 2 ^ 64 -> ('(num, ap) ← getuint [Dword n] (lflag (flags_of d)); _ ← number putch num base (flags_of d); mret (S j, ap)) s = (puts putch ((if n <? 0 then [45] else []) ++ lossy base (Z.abs n) (width (flags_of d)) (padc (flags_of d))) ≫= fun _ => mret (S j, [])) s).
  { intros base Hb Hn'. unfold getuint. rewrite Hlf. rewrite (bind_step _ _ s (u64 n, []) s) by done. rewrite (umod_small 64) by (done || (unfold is_u; lia)). rewrite (proj2 (Z.ltb_ge n 0)), Z.abs_eq by lia. cbn [app]. apply bind_cong; [|done]. apply number_wide; [done|lia|done]. }
  destruct (d_conv d); try done; cbn [too_wide base_of conv_char Z.eqb Pos.eqb Z.leb Z.compare Pos.compare Pos.compare_cont andb orb] in *; try (apply Hu; lia).
  unfold getint. rewrite Hlf. rewrite (bind_step _ _ s (s64 n, []) s) by done. rewrite (smod_small 64) by (done || (unfold is_s; lia)). destruct (Z.ltb_spec n 0) as [Hneg|Hpos]; cbn [app puts].
  - rewrite !bind_assoc_M. apply bind_cong; [done|]. intros _ s1. rewrite (umod_small 64) by (done || (unfold is_u; lia)). rewrite (bind_step _ _ s1 (- n) s1) by done. rewrite Z.abs_neq by lia. apply bind_cong; [|done]. apply number_wide; lia.
  - rewrite (bind_step _ _ s n s) by done. rewrite Z.abs_eq by lia. apply bind_cong; [|done]. apply number_wide; lia.
Qed.

(** C39: a number of 64 bits that needs more than 32, printed with [%llu], [%llo], [%llx]
    or [%lld] and any flags, width and precision, loses its upper half: [do_div] drops
    it, and the digits that appear (after the padding and the sign) are those of the
    number modulo [2^32]. *)
Theorem wide_truncated {St} (putch : Z -> M St unit) d n s : dir_ok d -> (2 <= d_long d)%nat -> too_wide (d_conv d) n ->
  vprintfmt putch (37 :: syntax d) [Dword n] s = puts putch (truncated d n) s /\
  digits_value (base_of (d_conv d)) (low_digits (base_of (d_conv d)) (Z.abs n)) = u32 (Z.abs n).
Proof.
  intros Hd Hl Hn. split; [|apply low_value; by destruct (d_conv d)]. set (fmt := 37 :: syntax d). assert (E : drop 1 fmt = syntax d ++ []) by (by rewrite app_nil_r).
  destruct (reaches putch (printfmt putch) fmt d (length fmt + 1) 1 [] Hd E ltac:(cbn [fmt length]; lia)) as (k' & j & Ej & Hj & H). destruct (fetch_cons _ _ _ _ s Ej) as (Hf & _).
  unfold vprintfmt, vprintfmt_with. rewrite Nat.add_1_r. change (format_loop putch (printfmt putch) (S (length fmt)) fmt 0 [Dword n] s) with (('(i, ap) ← directive putch (printfmt putch) (length fmt + 1) fmt 1 [Dword n] (Flags 32 (-1) (-1) 0 false); format_loop putch (printfmt putch) (length fmt) fmt i ap) s).
  unfold mbind, M_bind. rewrite H, (wide_conversion putch (printfmt putch) fmt d k' j n s Hd Hl Hn Hf). unfold mbind, M_bind. destruct (puts putch (truncated d n) s) as [[[] s']|]; [|done]. cbn [mret M_ret]. replace (S j) with (length fmt) by (cbn [fmt length]; lia).
  change (length fmt) with (S (length (syntax d))) at 1. cbn [format_loop]. by rewrite (bind_step _ _ _ _ _ (fetch_nil fmt s')).
Qed.

Lemma wide_truncated_witness : says (chars "%08llx") [Dword (2 ^ 32 + 5)] = Ok (chars "00000005") /\ says (chars "%lld") [Dword (- 2 ^ 32 - 15)] = Ok (chars "-15").
Proof.
  unfold says. split.
  - change (chars "%08llx") with (37 :: syntax (Dir false (Some 48) [8] None 2 CHex)). rewrite (proj1 (wide_truncated collect (Dir false (Some 48) [8] None 2 CHex) (2 ^ 32 + 5) [] ltac:(split; [intros c [= <-]; by right|split; [by repeat constructor|done]]) ltac:(cbn; lia) ltac:(cbn; lia))). vm_compute. reflexivity.
  - change (chars "%lld") with (37 :: syntax (Dir false None [] None 2 CDec)). rewrite (proj1 (wide_truncated collect (Dir false None [] None 2 CDec) (- 2 ^ 32 - 15) [] ltac:(split; [done|split; [by repeat constructor|done]]) ltac:(cbn; lia) ltac:(cbn; lia))). vm_compute. reflexivity.
Defined.

(** The flag [-] asks for padding on the right; numbers are padded on the left, with
    the character itself.  The sign comes before the padding and is not counted. *)
Example minus_pads_left : says (chars "%-5d") [Word 7] = Ok (chars "----7").
Proof. vm_compute. reflexivity. Qed.
Example sign_not_counted : says (chars "%5d|%05d") [Word (-7); Word (-7)] = Ok (chars "-    7|-00007").
Proof. vm_compute. reflexivity. Qed.
Example unknown_literal : says (chars "100% %5z%%") [] = Ok (chars "100% %5z%").
Proof. vm_compute. reflexivity. Qed.
Example errors_alike : says (chars "%e, %e: %s") [Word 12; Word (-12); Str None] = Ok (chars "Out of memory, Out of memory: (null)").
Proof. vm_compute. reflexivity. Qed.

(** ** Line input *)

(** The line after another key. *)
Definition edit (l : list Z) (c : Z) : list Z := if (32 <=? c) && (Z.of_nat (length l) <? BUFSIZE - 1) then l ++ [c] else if c =? 8 then removelast l else l.
Definition key (c : Z) : Prop := 0 <= c /\ c <> 10 /\ c <> 13.
Definition holds_line (s : console) (l : list Z) : Prop := Z.of_nat (length (buf s)) = BUFSIZE /\ Z.of_nat (length l) <= BUFSIZE - 1 /\ take (length l) (buf s) = u8 <$> l.

Lemma set_buf_ok i c s : 0 <= i < Z.of_nat (length (buf s)) -> set_buf i c s = Ok (tt, Con (written s) (ccnt s) (<[Z.to_nat i := u8 c]> (buf s))).
Proof. intros Hi. unfold set_buf. by rewrite (proj2 (Z.leb_le _ _)), (proj2 (Z.ltb_lt _ _)) by lia. Qed.

Lemma removelast_take {A} (l : list A) : removelast l = take (length l - 1) l.
Proof. destruct l as [|x l _] using rev_ind; [done|]. rewrite removelast_last, length_app. cbn. by rewrite Nat.add_sub, take_app_length. Qed.

Lemma read_loop_ok e rest ks : e = 10 \/ e = 13 -> Forall key ks -> forall l s, holds_line s l ->
  exists s', read_loop (ks ++ e :: rest) (Z.of_nat (length l)) s = Ok (Line rest, s') /\ holds_line s' (fold_left edit ks l) /\ buf s' !! length (fold_left edit ks l) = Some 0.
Proof.
  intros He. unfold holds_line, edit, BUFSIZE. induction ks as [|c ks IH]; intros Hk l s (Hb & Hl & Ht); cbn [app read_loop fold_left]; unfold BUFSIZE.
  - rewrite (proj2 (Z.ltb_ge e 0)), (proj2 (Z.leb_gt 32 e)) by lia. cbn [andb]. rewrite (proj2 (Z.eqb_neq e 8)) by lia. cbn [andb]. assert ((e =? 10) || (e =? 13) = true) as -> by (destruct He as [-> | ->]; done). unfold cons_putc. rewrite bind_modify.
    assert (Hr : 0 <= Z.of_nat (length l) < Z.of_nat (length (buf s))) by lia. rewrite (bind_step _ _ _ _ _ (set_buf_ok _ 0 (Con (written s ++ [e]) (ccnt s) (buf s)) Hr)). eexists. split; [reflexivity|]. cbn [buf]. rewrite Nat2Z.id, length_insert. split; [|by apply list_lookup_insert_eq; lia]. split; [done|]. split; [done|]. by rewrite take_insert_ge by lia.
  - apply Forall_cons in Hk as [(H0 & H10 & H13) Hk]. rewrite (proj2 (Z.ltb_ge c 0)) by lia. destruct ((32 <=? c) && (Z.of_nat (length l) <? 1024 - 1)) eqn:Ec.
    + apply andb_true_iff in Ec as [_ Hlt%Z.ltb_lt]. unfold cons_putc. assert (Hr : 0 <= Z.of_nat (length l) < Z.of_nat (length (buf s))) by lia. rewrite bind_modify, (bind_step _ _ _ _ _ (set_buf_ok _ c (Con (written s ++ [c]) (ccnt s) (buf s)) Hr)). replace (Z.of_nat (length l) + 1) with (Z.of_nat (length (l ++ [c]))) by (rewrite length_app; cbn; lia). apply IH; [done|]. cbn [buf]. rewrite Nat2Z.id, length_insert, length_app. cbn [length].
      split; [done|]. split; [lia|]. rewrite Nat.add_1_r, (take_S_r _ _ (u8 c)) by (apply list_lookup_insert_eq; lia). by rewrite take_insert_ge, Ht, fmap_app by lia.
    + destruct (Z.eqb_spec c 8) as [->|H8]; cbn [andb].
      * destruct (Z.ltb_spec 0 (Z.of_nat (length l))) as [Hpos|Hz].
        -- unfold cons_putc. rewrite bind_modify. assert (Hr : length (removelast l) = (length l - 1)%nat) by (rewrite removelast_take, length_take; lia). replace (Z.of_nat (length l) - 1) with (Z.of_nat (length (removelast l))) by lia. apply IH; [done|]. cbn [buf]. split; [done|]. split; [lia|].
           rewrite Hr, removelast_take, fmap_take, <- Ht, take_take. f_equal. lia.
        -- assert (l = []) as -> by (destruct l; [done|cbn in Hz; lia]). cbn [removelast]. apply (IH Hk []). by cbn.
      * rewrite (proj2 (Z.eqb_neq c 10)), (proj2 (Z.eqb_neq c 13)) by done. cbn [orb]. by apply IH.
Qed.

(** [readline] returns when the line ends, with the keys typed as a NUL-terminated string:
    printable ones in order, without those that were taken back, and without those that
    no longer fit into the buffer. *)
Theorem readline_correct e rest ks s : e = 10 \/ e = 13 -> Forall key ks -> Z.of_nat (length (buf s)) = BUFSIZE ->
  exists s', readline None (ks ++ e :: rest) s = Ok (Line rest, s') /\ take (length (fold_left edit ks [])) (buf s') = u8 <$> fold_left edit ks [] /\ buf s' !! length (fold_left edit ks []) = Some 0.
Proof.
  intros He Hk Hb. destruct (read_loop_ok e rest ks He Hk [] s) as (s' & E & (_ & _ & Ht) & H0); [by repeat split|]. exists s'. by split.
Qed.

(** [kprintf] writes the text to the console and returns its length. *)
Theorem kprintf_correct l ap out s : Forall item_ok l -> renders message l ap = Some out -> Z.of_nat (length out) < 2 ^ 31 ->
  kprintf (concat (show <$> l)) ap s = Ok (Z.of_nat (length out), Con (written s ++ out) (Z.of_nat (length out)) (buf s)).
Proof.
  intros Hl Hr Hlen. assert (Hp : forall o w n b, 0 <= n -> n + Z.of_nat (length o) < 2 ^ 31 -> puts cputch o (Con w n b) = Ok (tt, Con (w ++ o) (n + Z.of_nat (length o)) b)).
  { induction o as [|c o IH]; intros w n b Hn Hlt; cbn [puts length] in *; [change (Z.of_nat 0) with 0; by rewrite app_nil_r, Z.add_0_r|]. assert (Hs : s32 (n + 1) = n + 1) by (apply (smod_small 32); unfold is_s; lia).
    rewrite (bind_step _ _ _ tt (Con (w ++ [c]) (n + 1) b)) by (unfold cputch, cons_putc, set_cnt; rewrite bind_modify, bind_gets; cbn [ccnt written buf modify]; by rewrite Hs). rewrite IH by lia. rewrite <- app_assoc. cbn [app]. by replace (n + 1 + Z.of_nat (length o)) with (n + Z.of_nat (S (length o))) by lia. }
  unfold kprintf, vkprintf, set_cnt. rewrite bind_modify. specialize (Hp out (written s) 0 (buf s) ltac:(lia) ltac:(lia)). rewrite <- (vprintfmt_ok cputch l ap out _ Hl Hr) in Hp. by rewrite (bind_step _ _ _ _ _ Hp).
Qed.
